(* ===== verification/_CoqProject ===== *)
-Q . S2P
Prelude.v
Machine.v
StringLib.v
CString.v
RingBuf.v
Pmm.v
Frames.v
Kmalloc.v
Paging.v
FreeSpace.v
VmRegions.v
Pipe.v
Mq.v
Vfs.v
VfsFile.v
SysFile.v
SysFileInv.v
SysFileOps.v
SysFileRun.v
SysPipe.v
Shm.v
ShmSpec.v
Input.v
Ansi.v
UserMalloc.v
UserLibc.v
Tar.v
Exec.v
Nyamo.v
NyamoSpec.v
NyamoDraw.v
Shell.v
ShellSpec.v
ShellRun.v
Ata.v
Elf.v
ElfSpec.v
ExecSpace.v
ExecRun.v
CopySpace.v
FatTable.v
FatFile.v
FatWrite.v
FatDir.v
FatCreate.v
Sched.v
SchedInv.v
SchedOps.v
SchedRun.v
TaskCtx.v
WinClip.v
Window.v
WindowInv.v
WindowOps.v
WindowRun.v
WinPaint.v
WinTheorems.v
Font.v
Video.v
Cursor.v
WinDraw.v
WinPixels.v
WinScreen.v
Terminal.v
TerminalSpec.v
TerminalRun.v
TermFeed.v
TerminalDraw.v
ShellTerm.v
NyamoTerm.v
NyamoShow.v
NyamoRun.v
