(* ===== verification/Prelude.v ===== *)
(** * NyanOS64: a verification library of the kernel core and its C library

    NyanOS64 (sources under [src/]) is a 64-bit hobby kernel in C with a small
    user-space C library.  Its parts build on each other:
    - the physical frame allocator ([src/src/mem/pmm.c]) owns the machine's frames;
    - the kernel heap ([kmalloc.c]) and the page tables ([vmm.c]) take frames from it;
    - the bookkeeping of virtual regions ([vmm.c]) takes list nodes from the heap;
    - the file layer ([fs/vfs.c]) dispatches to drivers through [ops] tables; pipes
      ([fs/pipe.c]) are one of them and block and wake tasks ([sched/sched.c]);
    - message queues ([ipc/mq.c]) copy messages into heap blocks;
    - the scheduler ([sched/sched.c]) keeps the tasks in a ring, starts, forks and ends
      them, and each has a table of descriptors that the system calls
      ([arch/syscall.c]) use;
    - the file systems behind the file layer are the boot archive ([fs/tar.c],
      [fs/tar_fs.c]) and FAT32 ([fs/fat32.c]) over the disk driver ([drivers/ata.c]);
      shared memory ([ipc/shm.c]) gives tasks common frames;
    - windows ([gui/window.c]) are clipped against each other and drawn, with the
      cursor ([gui/cursor.c]), into the back buffer of the video driver
      ([drivers/video.c]), which copies what changed to the screen;
    - the keyboard and mouse drivers fill ring buffers and event queues
      ([utils/ring_buf.h], [event/event.h]) that tasks drain;
    - programs are loaded from ELF files ([elf.c]) into a fresh address space by
      [sys_exec] ([arch/syscall.c]);
    - the C library ([libc/libc.c], [libc/ansi.c]) gives programs strings, a heap over
      [sys_sbrk] and terminal output;
    - three programs ([src/progs/]) have a state of their own: the terminal interprets
      what a child writes and draws it into its window, the shell edits lines and starts
      programs, the editor edits a file on the screen of a terminal.

    ** Files

    The memory model:
    - [Prelude]: machine integers ([u8] .. [s64]), bit lemmas, [loop] (a C loop with
      fuel: [None] means it ran out), [for_loop], [scan].
    - [Machine]: the flat byte memory [mem], little-endian [load]/[store], and the
      equivalence of memories with its [Proper] instances.

    Components, each a file:
    - [StringLib] ([src/src/string.c]): [memcpy], [memset], [memmove], [memcmp], their
      SSE variants and [memset32_sse], loop by loop; one [run] per C loop.
    - [CString] (same source): the NUL-terminated string functions.
    - [RingBuf] ([utils/ring_buf.h], [event/event.h]): [ring] is both [RingBuf] and
      [EventBuf]; specification [queue_spec].
    - [Pmm] ([mem/pmm.c]): [pstate] has the globals; the bitmap and the counts live in
      [mem].  [spec_step] is the abstract allocator (a finite map from frame to
      reference count).
    - [Frames]: the interface [FrameAllocator] with its laws [FrameAllocatorSpec], and
      the instance by [Pmm]; [Kmalloc] and [Paging] are proved against it.  [room s n]
      says that [n] frames are free in [s], [exhausted] that none is, [kept] that a byte
      is in use and not the allocator's own.
    - [Kmalloc] ([mem/kmalloc.c]): free blocks with headers in memory; [chain] relates
      memory to a list of blocks, [heap_inv] is the heap's invariant.
    - [Paging] ([mem/vmm.c], page tables): the four-level walk, map, unmap, translate,
      new/free/copy address space, the copy-on-write fault handler; [pt_inv] and
      [lookup_pte] are the reference reading of the tables.  [Slots] are the entries of
      the root a property is about: the others lead to tables of someone else, as the
      kernel half of a task leads to those of the boot loader.
    - [FreeSpace] ([vmm_free_table]): the recursion as a list of frees read off the tree.
    - [CopySpace] ([vmm_copy_hierarchy], the address space of a forked task): the copy as
      a second tree of fresh tables ([copied]) with the parent's pages made read-only,
      and the release of an unfinished copy ([gave_up]).
    - [VmRegions] ([mem/vmm.c], region lists) over the interface [NodeHeap].
    - [Pipe] ([fs/pipe.c]): the bodies of read and write as one critical section each,
      and a two-thread transition system [pstep] with block and wake.
    - [Mq] ([ipc/mq.c]): message queues and their registry.
    - [Vfs] ([fs/vfs.c]): path resolution, mounts and the path walk.
    - [VfsFile] ([fs/vfs.c]): open files over the driver interface [FsOps].
    - [SysFile] ([arch/syscall.c], [dev_attach_stdio], descriptors in [sched.c]): the
      file system calls over [VfsFile], tasks with their descriptor tables, and the
      dispatcher; [SysFileInv] (what heap and drivers promise, [HandleHeap], and the
      reference counts [acct]), [SysFileOps] and [SysFileRun] (the invariant
      [files_inv] under every call and task event); [SysPipe] is the instance whose
      drivers are pipes ([pipe_read] and [pipe_write] as whole calls).
    - [Shm] ([ipc/shm.c], [sys_shm_open], [sys_ftruncate], [sys_mmap]) and [ShmSpec]:
      segments over [Frames], [Paging] and [VmRegions].
    - [Tar] ([fs/tar.c], [fs/tar_fs.c]): the boot archive in memory.
    - [Exec] ([sys_exec]): the arguments of a program and its first stack.
    - [Elf] ([elf.c]) and [ElfSpec]: the segments of a file in an address space ([space]
      is what stays true of it while it is filled); [ExecSpace] and [ExecRun]: the whole
      of [sys_exec] on frames and tables, from the new root table to the release of the
      old address space and the old kernel stack.
    - [Ata] ([drivers/ata.c]): sectors, partitions and the partition device.
    - [FatTable] (cache and allocation table), [FatFile] and [FatWrite] (read, write,
      truncate, unlink), [FatDir] and [FatCreate] (names, directories, creation):
      [fs/fat32.c] over the sectors of a disk.
    - [Sched] ([sched/sched.c], [sys_waitpid], [sys_sleep]): tasks by address with the
      links of the ring, resources given back as a list of effects; [SchedInv],
      [SchedOps], [SchedRun] prove the ring invariant; [TaskCtx] is the saved
      registers on the kernel stacks and the assembly that switches.
    - [WinClip] and [Window] ([gui/window.c]): rectangles, clip lists, the window list
      and the mouse handler, with what [sched_kill] does to the list when a close button
      is pressed ([kill_owner]); [WindowInv], [WindowOps], [WindowRun], [WinPaint] and
      [WinTheorems] its invariant and theorems.
    - [Font], [Video] ([drivers/video.c]), [Cursor] ([gui/cursor.c]), [WinDraw] (pixels of
      windows), [WinPixels] and [WinScreen] (what drawing puts into a window, and one
      round of the main loop up to the screen).
    - [Input] ([drivers/keyboard.c], [drivers/mouse.c]): interrupt handlers as functions
      of the device state and the bytes read from the ports.
    - [Ansi] ([libc/ansi.c], [move_cursor] and [print_dec] of [libc/libc.c]).
    - [UserMalloc] ([malloc], [free], [realloc] of [libc/libc.c] over [sys_sbrk] of
      [arch/syscall.c]): blocks with headers in the process's memory, [uheap_inv].
    - [UserLibc] (the string functions of [libc/libc.c]): the kernel's texts again, and
      where they differ.

    Programs:
    - [Terminal] ([progs/terminal.c]): [term] has the globals, the text buffers as rings
      of rows; [TerminalSpec] is the plain screen it implements, [TerminalRun] the
      refinement, [TerminalDraw] the pixels of the window, [TermFeed] what cursor
      moves and text leave on the screen, for the two programs below.
    - [Nyamo] ([progs/nyamo.c]): [editor] has the globals, its rows are allocated blocks;
      [NyamoDraw] is the drawing into the output buffer.  [NyamoSpec] is the flat text
      the editor implements; [NyamoTerm], [NyamoShow] and [NyamoRun] run its output
      through [Terminal].
    - [Shell] ([progs/shell.c]): the line editor, the splitting of lines, redirections and
      pipelines as changes of a table of descriptors; [ShellSpec] and [ShellRun] their
      meaning, [ShellTerm] the line on the screen of [Terminal].

    ** What the theorems show

    - Memory: [pmm_refines] (any sequence of calls behaves as the reference-count map),
      [pmm_init_correct] (exactly which frames are free after boot), [kmalloc_correct]
      and [kfree_correct] (blocks are disjoint, aligned, the list stays sorted and
      merged, foreign bytes are untouched), [vmm_map_page_correct],
      [vmm_unmap_page_correct], [vmm_handle_cow_correct] (what every address translates
      to afterwards), [vm_regions_roundtrip], and [malloc_correct], [free_correct],
      [realloc_correct] for programs.
    - Data movement: [memcpy_correct] .. [memcmp_sse_equiv], [strcpy_strcat_correct],
      [strcmp_strstr_correct], [libc_memory_equiv], [libc_strchr_nul].
    - Communication: [rb_refines], [pipe_stream_integrity] and [pipe_no_lost_wakeup] over
      all interleavings, [mq_fifo], [mq_open_twice].
    - Files: [resolve_path_correct], [vfs_navigate_correct], [handle_lifecycle],
      [vfs_open_handle], [vfs_open_creates]; [open_files_counted] (reference counts
      over all runs of the system calls), [pipe_calls_roundtrip];
      [tar_readdir_finddir], [tar_vfs_read_correct]; for FAT32 [fat_cache_refines],
      [fat32_read_correct], [fat32_write_correct], [fat32_write_read],
      [fat32_write_full], [fat32_list_lookup], [fat32_create_find];
      [ata_fs_write_read].
    - Shared memory and address spaces: [shm_set_size_correct], [mmap_shm_correct],
      [elf_load_correct] (what a program reads in its segments), [sys_exec_correct] (the
      new address space with stack, arguments and file, and what the old one gives back)
      and [sys_exec_gives_back] (a failed call leaves every reference count as it was);
      [vmm_copy_hierarchy_correct] (what parent and child of a fork translate to).  A call
      that may run out of memory is stated with the number of frames it needs in the
      state it is made in: with that [room] it succeeds, and what a failed call leaves is
      stated as exactly.
    - Tasks: [sched_run_ok] (every sequence of scheduler calls keeps the ring),
      [sched_exit_correct], [sched_reap_correct], [sys_waitpid_correct], [sched_fair],
      [fork_failure], [fork_child_resumes], [new_task_starts], [waitpid_lost_wakeup].
    - Windows: [win_update_ok], [shown_is_hit], [win_focus_correct],
      [win_close_correct], [win_create_correct], [minimize_roundtrip],
      [sys_draw_rect_correct], [win_draw_bitmap_correct], [titlebar_buttons_correct],
      [cursor_roundtrip], and [frame_correct] (what is on the screen after a round).
    - Devices and terminal: [kbd_stream], [kbd_modifiers], [mouse_safe], [mouse_packet],
      [move_cursor_roundtrip], [ansi_buffer_safe], [print_dec_correct].
    - Programs: [terminal_refines_screen] and [terminal_window_correct] (any output of a
      child is the text of a scrolling screen, and the pixels drawn are that text);
      [nyamo_edits_text], [nyamo_save_load] and [nyamo_on_terminal] (what is edited,
      saved and seen); [shell_line_editor], [shell_line_on_terminal] and
      [shell_runs_line] (what is typed, seen and started).
    - Limits of the code: [pmm_init_tail_frames], [resolve_path_long_name],
      [vfs_navigate_long_name_hangs], [minimize_loses_size], [titlebar_narrow],
      [sys_draw_rect_overflow].

    ** Bounds and fuel

    A C loop that is not a counted [for] runs with fuel, and every theorem that a
    function returns states [Some] for enough fuel: for a list walk the length of the
    list, for a string function the length of the string, for a byte loop the number of
    bytes (the definitions supply that fuel themselves).  Integers wrap at their width
    where the code computes with them; the theorems bound sizes by what keeps the
    address computations of the code from wrapping (e.g. [n < 2^63] bytes).  Interrupts
    and locks are not states of the model: a function that holds a lock or disables
    interrupts for its whole body is one atomic step; [Pipe] interleaves the two ends of
    a pipe, [SchedRun] the steps of [sys_waitpid], and [SysFileRun] calls of all tasks.

    Address spaces are bounded by the 47 bits of the user half; frame numbers stay below
    2^35, so that the direct map does not overlap itself.  The programs are proved for
    ASCII bytes, for screens of 10 to 255 rows and columns (the editor) and up to 999 (the
    shell), for less than 2^31 lines, for command lines of at most 31 words, and for
    allocations and pipes that succeed; the findings say what happens beyond.

    ** Not modelled, and why

    - Device and assembly code: the descriptor tables, APIC, PIC, PIT, timer and serial
      drivers, the port protocols of the disk and mouse drivers, the text grid of the boot
      console, the device files ([fs/dev.c]: each call is one access to such a driver),
      and boot ([main.c]).
    - Code that is one call of something modelled: the system-call wrappers of the C
      library, the calls for time, power and windows in [syscall.c], and the commands of
      the shell that print a list or pass their words on.
    - The game ([progs/snake.c]), on which nothing depends.
    - The composition of [vmm_alloc_global] (ranges of the kernel half) with the heap.  It
      is an argument of [kmalloc]; its parts, the regions and the mapping of pages, are
      modelled. *)
From stdpp Require Export base option list numbers gmap.
From Stdlib Require Export ZArith Lia.

#[export] Set Default Goal Selector "!".
Global Open Scope Z_scope.

(** ** Machine-width integers: a w-bit unsigned value is a [Z] in [0, 2^w). *)
Definition u8 (z : Z) : Z := z mod 2 ^ 8.
Definition u16 (z : Z) : Z := z mod 2 ^ 16.
Definition u32 (z : Z) : Z := z mod 2 ^ 32.
Definition u64 (z : Z) : Z := z mod 2 ^ 64.

(** Conversion to the signed type of the same width (two's complement). *)
Definition s8 (z : Z) : Z := (z + 2 ^ 7) mod 2 ^ 8 - 2 ^ 7.
Definition s16 (z : Z) : Z := (z + 2 ^ 15) mod 2 ^ 16 - 2 ^ 15.
Definition s32 (z : Z) : Z := (z + 2 ^ 31) mod 2 ^ 32 - 2 ^ 31.
Definition s64 (z : Z) : Z := (z + 2 ^ 63) mod 2 ^ 64 - 2 ^ 63.

(** Ranges, as transparent predicates [lia] can see through after [unfold]. *)
Definition is_u8 (z : Z) : Prop := 0 <= z < 2 ^ 8.
Definition is_u32 (z : Z) : Prop := 0 <= z < 2 ^ 32.
Definition is_u64 (z : Z) : Prop := 0 <= z < 2 ^ 64.

Create HintDb word discriminated.
Create HintDb kernel discriminated.

Lemma u8_small z : 0 <= z < 2 ^ 8 -> u8 z = z.
Proof. apply Z.mod_small. Qed.
Lemma u32_small z : 0 <= z < 2 ^ 32 -> u32 z = z.
Proof. apply Z.mod_small. Qed.
Lemma u64_small z : 0 <= z < 2 ^ 64 -> u64 z = z.
Proof. apply Z.mod_small. Qed.

Lemma u8_range z : 0 <= u8 z < 2 ^ 8.
Proof. apply Z.mod_pos_bound; lia. Qed.
Lemma u32_range z : 0 <= u32 z < 2 ^ 32.
Proof. apply Z.mod_pos_bound; lia. Qed.
Lemma u64_range z : 0 <= u64 z < 2 ^ 64.
Proof. apply Z.mod_pos_bound; lia. Qed.
#[export] Hint Resolve u8_range u32_range u64_range : word.

Lemma s32_small z : - 2 ^ 31 <= z < 2 ^ 31 -> s32 z = z.
Proof. intros. unfold s32. rewrite Z.mod_small; lia. Qed.
Lemma s64_small z : - 2 ^ 63 <= z < 2 ^ 63 -> s64 z = z.
Proof. intros. unfold s64. rewrite Z.mod_small; lia. Qed.

(** An [int] argument passed in a 64-bit register. *)
Lemma s32_u64 z : - 2 ^ 31 <= z < 2 ^ 31 -> s32 (u64 z) = z.
Proof.
  intros Hz. unfold s32, u64. rewrite <- Z.add_mod_idemp_l by lia. rewrite Z.mod_mod_divide by (exists (2 ^ 32); lia).
  rewrite Z.add_mod_idemp_l by lia. rewrite Z.mod_small; lia.
Qed.

(** ** Bit masks *)

(** [x & (2^k - 1)] is [x mod 2^k]; [x >> k] is [x / 2^k]. *)
Lemma land_mask x k : 0 <= k -> Z.land x (2 ^ k - 1) = x mod 2 ^ k.
Proof. intros. rewrite <- Z.land_ones by lia. by rewrite Z.ones_equiv, Z.sub_1_r. Qed.

Lemma land_mask_neg x k : 0 <= k -> Z.land x (Z.lnot (2 ^ k - 1)) = x - x mod 2 ^ k.
Proof.
  intros. rewrite <- land_mask by done.
  rewrite <- Z.ldiff_land.
  assert (Z.ldiff x (2 ^ k - 1) + Z.land x (2 ^ k - 1) = x); [|lia].
  rewrite Z.add_nocarry_lxor.
  - apply Z.bits_inj'; intros n Hn.
    rewrite Z.lxor_spec, Z.ldiff_spec, Z.land_spec.
    by destruct (Z.testbit x n), (Z.testbit (2 ^ k - 1) n).
  - apply Z.bits_inj'; intros n Hn.
    rewrite Z.bits_0, Z.land_spec, Z.ldiff_spec, Z.land_spec.
    by destruct (Z.testbit x n), (Z.testbit (2 ^ k - 1) n).
Qed.

(** Disjoint bit sets: [|] is [+]. *)
Lemma lor_disjoint a b k :
  0 <= k -> 0 <= b < 2 ^ k -> a mod 2 ^ k = 0 -> Z.lor a b = a + b.
Proof.
  intros Hk Hb Ha. symmetry. rewrite Z.add_nocarry_lxor.
  - apply Z.bits_inj'; intros n Hn. rewrite Z.lxor_spec, Z.lor_spec.
    destruct (decide (n < k)).
    + rewrite <- (Z.mod_pow2_bits_low a k n), Ha, Z.bits_0 by lia.
      by destruct (Z.testbit b n).
    + rewrite <- (Z.mod_small b (2 ^ k)) by lia.
      rewrite Z.mod_pow2_bits_high by lia. by destruct (Z.testbit a n).
  - apply Z.bits_inj'; intros n Hn. rewrite Z.land_spec, Z.bits_0.
    destruct (decide (n < k)).
    + by rewrite <- (Z.mod_pow2_bits_low a k n), Ha, Z.bits_0 by lia.
    + rewrite <- (Z.mod_small b (2 ^ k)) by lia.
      rewrite Z.mod_pow2_bits_high by lia. apply andb_false_r.
Qed.

(** [|] stays within the width. *)
Lemma lor_range a b k : 0 <= k -> 0 <= a < 2 ^ k -> 0 <= b < 2 ^ k -> 0 <= Z.lor a b < 2 ^ k.
Proof.
  intros Hk Ha Hb. assert (0 <= Z.lor a b) as Hn by (apply Z.lor_nonneg; lia). split; [done|].
  destruct (decide (Z.lor a b = 0)) as [->|Hne]; [lia|].
  apply Z.log2_lt_pow2; [lia|]. rewrite Z.log2_lor by lia. apply Z.max_lub_lt.
  - destruct (decide (a = 0)) as [->|]; [|apply Z.log2_lt_pow2; lia].
    destruct (decide (k = 0)) as [->|]; [exfalso; apply Hne|simpl; lia].
    assert (b = 0) as -> by lia. done.
  - destruct (decide (b = 0)) as [->|]; [|apply Z.log2_lt_pow2; lia].
    destruct (decide (k = 0)) as [->|]; [exfalso; apply Hne|simpl; lia].
    assert (a = 0) as -> by lia. done.
Qed.

(** Testing one bit with a mask, as the C code does. *)
Lemma land_bit_eqb b k : 0 <= k -> (Z.land b (Z.shiftl 1 k) =? 0) = negb (Z.testbit b k).
Proof.
  intros Hk. rewrite Z.shiftl_1_l. destruct (Z.testbit b k) eqn:E; simpl.
  - apply Z.eqb_neq. intros H. apply (f_equal (fun x => Z.testbit x k)) in H.
    rewrite Z.land_spec, Z.pow2_bits_true, E, Z.bits_0 in H by done. done.
  - apply Z.eqb_eq, Z.bits_inj'. intros n Hn. rewrite Z.land_spec, Z.bits_0.
    rewrite Z.pow2_bits_eqb by done. destruct (Z.eqb_spec k n) as [<-|]; [by rewrite E|].
    apply andb_false_r.
Qed.

Lemma testbit_u8 x k : 0 <= k < 8 -> Z.testbit (u8 x) k = Z.testbit x k.
Proof. intros. apply Z.mod_pow2_bits_low. lia. Qed.

Lemma testbit_lor_bit b k j : 0 <= j -> 0 <= k ->
  Z.testbit (Z.lor b (Z.shiftl 1 k)) j = Z.testbit b j || (k =? j).
Proof. intros. by rewrite Z.lor_spec, Z.shiftl_1_l, Z.pow2_bits_eqb by done. Qed.

Lemma testbit_clear_bit b k j : 0 <= j -> 0 <= k ->
  Z.testbit (Z.land b (Z.lnot (Z.shiftl 1 k))) j = Z.testbit b j && negb (k =? j).
Proof.
  intros. by rewrite Z.land_spec, Z.lnot_spec, Z.shiftl_1_l, Z.pow2_bits_eqb by done.
Qed.

(** ** Loops

    A C loop is a step function on its local variables: [inl s] is one more
    iteration, [inr r] is the exit (condition false, [break] or [return]).
    [loop] runs it with fuel; [None] means the fuel ran out, so a theorem that
    a loop ends always states that the result is [Some _]. *)
Fixpoint loop {S R : Type} (fuel : nat) (step : S -> S + R) (s : S) : option R :=
  match fuel with
  | O => None
  | Datatypes.S n =>
      match step s with
      | inl s' => loop n step s'
      | inr r => Some r
      end
  end.

(** Total correctness of a loop: an invariant that every iteration preserves
    and a measure every iteration decreases give a result, and the exit gives
    the postcondition. *)
Lemma loop_total {S R : Type} (step : S -> S + R)
    (Inv : S -> Prop) (Post : R -> Prop) (m : S -> nat) :
  (forall s s', Inv s -> step s = inl s' -> Inv s' /\ (m s' < m s)%nat) ->
  (forall s r, Inv s -> step s = inr r -> Post r) ->
  forall fuel s, Inv s -> (m s < fuel)%nat ->
  exists r, loop fuel step s = Some r /\ Post r.
Proof.
  intros Hc He fuel. induction fuel as [|n IH]; intros s Hs Hm; [lia|].
  simpl. destruct (step s) as [s'|r] eqn:E.
  - destruct (Hc _ _ Hs E) as [Hs' Hlt]. apply IH; [done|lia].
  - eauto.
Qed.

(** More fuel does not change a result. *)
Lemma loop_mono {S R : Type} (step : S -> S + R) n n' s r :
  loop n step s = Some r -> (n <= n')%nat -> loop n' step s = Some r.
Proof.
  revert n' s. induction n as [|n IH]; intros n' s Hl Hle; [done|].
  destruct n' as [|n']; [lia|]. simpl in *.
  destruct (step s); [apply IH; [done|lia] | done].
Qed.

(** A counted loop [for (i = lo; i < lo + n; i++) s = f(i, s)]. *)
Fixpoint for_loop {S : Type} (n : nat) (lo : Z) (f : Z -> S -> S) (s : S) : S :=
  match n with
  | O => s
  | Datatypes.S n => for_loop n (lo + 1) f (f lo s)
  end.

Lemma for_loop_inv {S : Type} (I : Z -> S -> Prop) (f : Z -> S -> S) n lo s :
  I lo s ->
  (forall i s, lo <= i < lo + Z.of_nat n -> I i s -> I (i + 1) (f i s)) ->
  I (lo + Z.of_nat n) (for_loop n lo f s).
Proof.
  revert lo s. induction n as [|n IH]; intros lo s H0 Hs; simpl.
  - by replace (lo + Z.of_nat 0) with lo by lia.
  - replace (lo + Z.of_nat (Datatypes.S n)) with ((lo + 1) + Z.of_nat n) by lia.
    apply IH; [apply Hs; [lia|done]|]. intros. apply Hs; [lia|done].
Qed.

Lemma for_loop_inv0 {S : Type} (I : Z -> S -> Prop) (f : Z -> S -> S) n s :
  I 0 s ->
  (forall i s, 0 <= i < Z.of_nat n -> I i s -> I (i + 1) (f i s)) ->
  I (Z.of_nat n) (for_loop n 0 f s).
Proof. intros H0 Hs. apply (for_loop_inv I f n 0 s); [done|]. intros. apply Hs; [lia|done]. Qed.

Lemma for_loop_snoc {S : Type} (f : Z -> S -> S) n lo s :
  for_loop (Datatypes.S n) lo f s = f (lo + Z.of_nat n) (for_loop n lo f s).
Proof.
  revert lo s. induction n as [|n IH]; intros lo s.
  - cbn. f_equal. lia.
  - change (for_loop (Datatypes.S n) (lo + 1) f (f lo s)
            = f (lo + Z.of_nat (Datatypes.S n)) (for_loop n (lo + 1) f (f lo s))).
    rewrite IH. f_equal. lia.
Qed.

(** A counted search [for (i = lo; i < lo + n; i++) if (p(i)) return i]. *)
Fixpoint scan (n : nat) (lo : Z) (p : Z -> bool) : option Z :=
  match n with
  | O => None
  | Datatypes.S n => if p lo then Some lo else scan n (lo + 1) p
  end.

Lemma scan_Some n lo p i :
  scan n lo p = Some i <->
  lo <= i < lo + Z.of_nat n /\ p i = true /\ (forall j, lo <= j < i -> p j = false).
Proof.
  revert lo. induction n as [|n IH]; intros lo; simpl.
  - split; [done|]. intros [? _]. lia.
  - destruct (p lo) eqn:E.
    + split.
      * intros [= <-]. split_and!; [lia|lia|done|]. intros. lia.
      * intros (Hr & Hp & Hf). destruct (decide (i = lo)) as [->|]; [done|].
        rewrite Hf in E by lia. done.
    + rewrite IH. split.
      * intros ([? ?] & Hp & Hf). split_and!; [lia|lia|done|].
        intros j Hj. destruct (decide (j = lo)) as [->|]; [done|]. apply Hf. lia.
      * intros ([? ?] & Hp & Hf). assert (i <> lo) by congruence.
        split_and!; [lia|lia|done|]. intros. apply Hf. lia.
Qed.

Lemma scan_None n lo p :
  scan n lo p = None <-> (forall j, lo <= j < lo + Z.of_nat n -> p j = false).
Proof.
  revert lo. induction n as [|n IH]; intros lo; simpl.
  - split; [|done]. intros _ j ?. lia.
  - destruct (p lo) eqn:E.
    + split; [done|]. intros H. rewrite H in E by lia. done.
    + rewrite IH. split.
      * intros H j Hj. destruct (decide (j = lo)) as [->|]; [done|]. apply H. lia.
      * intros H j Hj. apply H. lia.
Qed.

Lemma scan_ext n lo p q : (forall j, lo <= j < lo + Z.of_nat n -> p j = q j) -> scan n lo p = scan n lo q.
Proof.
  revert lo. induction n as [|n IH]; intros lo H; simpl; [done|]. rewrite H by lia.
  rewrite IH; [done|]. intros. apply H. lia.
Qed.

(** A scan whose first part finds nothing. *)
Lemma scan_skip n n' lo p : (forall j, lo <= j < lo + Z.of_nat n -> p j = false) ->
  scan (n + n') lo p = scan n' (lo + Z.of_nat n) p.
Proof.
  revert lo. induction n as [|n IH]; intros lo H; simpl.
  - by rewrite Z.add_0_r.
  - rewrite H by lia. rewrite IH; [f_equal; lia|]. intros. apply H. lia.
Qed.

(** ** Filters of lists *)
Section Filter.
Context {A : Type} (P Q : A -> Prop) `{!forall x, Decision (P x), !forall x, Decision (Q x)}.

Lemma filter_ext_in (l : list A) : (forall x, x ∈ l -> (P x <-> Q x)) -> filter P l = filter Q l.
Proof.
  induction l as [|x l IH]; intros HP; [done|]. rewrite !filter_cons.
  assert (filter P l = filter Q l) as -> by (apply IH; intros; apply HP; by constructor).
  assert (P x <-> Q x) by (apply HP; by constructor). repeat case_decide; tauto.
Qed.

Lemma filter_all (l : list A) : (forall x, x ∈ l -> P x) -> filter P l = l.
Proof.
  induction l as [|x l IH]; intros HP; [done|]. rewrite filter_cons, decide_True by (apply HP; by constructor).
  f_equal. apply IH. intros. apply HP. by constructor.
Qed.
End Filter.

(** ** A loop over a list whose body can fail *)
Fixpoint ofold {A B : Type} (f : A -> B -> option A) (a : A) (l : list B) : option A :=
  match l with
  | [] => Some a
  | b :: l => a' ← f a b; ofold f a' l
  end.

Lemma ofold_app {A B : Type} (f : A -> B -> option A) a l k : ofold f a (l ++ k) = (a' ← ofold f a l; ofold f a' k).
Proof. revert a. induction l as [|b l IH]; intros a; simpl; [done|]. destruct (f a b); simpl; [apply IH|done]. Qed.

(** An invariant that says what was visited: the loop does not fail and ends with it. *)
Lemma ofold_inv {A B : Type} (I : list B -> A -> Prop) (f : A -> B -> option A) l a :
  I [] a -> (forall done b a, done ++ [b] `prefix_of` l -> I done a -> exists a', f a b = Some a' /\ I (done ++ [b]) a') ->
  exists a', ofold f a l = Some a' /\ I l a'.
Proof.
  intros H0 Hs. induction l as [|b l IH] using rev_ind; [by exists a|].
  destruct IH as (a1 & E1 & I1); [intros; apply Hs; [by apply prefix_app_r|done]|].
  destruct (Hs l b a1) as (a2 & E2 & I2); [done|done|]. exists a2. by rewrite ofold_app, E1; simpl; rewrite E2.
Qed.
