(* ===== verification/Machine.v ===== *)
(** The machine as the kernel sees it: one flat byte-addressed memory.

    Every C object the library models in memory (the frame bitmap, the heap's
    block headers, page tables, buffers) lives in a [mem]; an address is the
    [uint64_t] the code holds, a w-bit object at [a] is its bytes from [a] on,
    least significant first (x86-64 is little-endian).  Reading an address that
    was never written gives some byte, so memory is total. *)
From S2P Require Import Prelude.

Abbreviation mem := (gmap Z Z).

Definition get8 (m : mem) (a : Z) : Z := u8 (default 0 (m !! a)).
Definition put8 (m : mem) (a v : Z) : mem := <[a := u8 v]> m.

Fixpoint load (n : nat) (m : mem) (a : Z) : Z :=
  match n with
  | O => 0
  | S n => get8 m a + 2 ^ 8 * load n m (a + 1)
  end.

Fixpoint store (n : nat) (m : mem) (a v : Z) : mem :=
  match n with
  | O => m
  | S n => store n (put8 m a v) (a + 1) (v / 2 ^ 8)
  end.

Definition load32 := load 4.
Definition load64 := load 8.
Definition store32 := store 4.
Definition store64 := store 8.

(** Two memories that hold the same bytes. *)
#[export] Instance mem_equiv : Equiv mem := fun m m' => forall a, get8 m a = get8 m' a.

#[export] Instance mem_equivalence : Equivalence (≡@{mem}).
Proof.
  split.
  - intros m a. done.
  - intros m m' H a. by rewrite H.
  - intros m1 m2 m3 H1 H2 a. by rewrite H1.
Qed.

#[export] Instance get8_proper : Proper ((≡@{mem}) ==> (=) ==> (=)) get8.
Proof. intros m m' H a ? <-. apply H. Qed.

Section Bytes.
Implicit Types (m : mem) (a v : Z).

Lemma get8_range m a : 0 <= get8 m a < 2 ^ 8.
Proof. apply u8_range. Qed.

Lemma get8_put8_eq m a v : get8 (put8 m a v) a = u8 v.
Proof.
  unfold get8, put8. rewrite lookup_insert_eq. simpl. apply u8_small, u8_range.
Qed.

Lemma get8_put8_ne m a b v : a <> b -> get8 (put8 m a v) b = get8 m b.
Proof. intros. unfold get8, put8. by rewrite lookup_insert_ne. Qed.

Lemma get8_put8 m a b v :
  get8 (put8 m a v) b = if bool_decide (a = b) then u8 v else get8 m b.
Proof.
  case_bool_decide as H; [subst; apply get8_put8_eq | by apply get8_put8_ne].
Qed.

(** *** Bytes of a stored object *)
Lemma get8_store_out n m a v b :
  b < a \/ a + Z.of_nat n <= b -> get8 (store n m a v) b = get8 m b.
Proof.
  revert m a v. induction n as [|n IH]; intros m a v Hb; [done|].
  simpl. rewrite IH by lia. apply get8_put8_ne. lia.
Qed.

Lemma get8_store_in n m a v i :
  0 <= i < Z.of_nat n -> get8 (store n m a v) (a + i) = u8 (v / 2 ^ (8 * i)).
Proof.
  revert m a v i. induction n as [|n IH]; intros m a v i Hi; [lia|]. simpl.
  destruct (decide (i = 0)) as [->|].
  - rewrite get8_store_out by lia. replace (a + 0) with a by lia.
    rewrite get8_put8_eq. by rewrite Z.mul_0_r, Z.pow_0_r, Z.div_1_r.
  - replace (a + i) with (a + 1 + (i - 1)) by lia. rewrite IH by lia.
    f_equal. rewrite Z.div_div by lia. f_equal.
    rewrite <- Z.pow_add_r by lia. f_equal. lia.
Qed.

Lemma load_ext n m m' a a' :
  (forall i, 0 <= i < Z.of_nat n -> get8 m (a + i) = get8 m' (a' + i)) ->
  load n m a = load n m' a'.
Proof.
  revert a a'. induction n as [|n IH]; intros a a' H; [done|]. simpl.
  f_equal.
  - specialize (H 0). rewrite !Z.add_0_r in H. apply H. lia.
  - f_equal. apply IH. intros i Hi.
    replace (a + 1 + i) with (a + (i + 1)) by lia.
    replace (a' + 1 + i) with (a' + (i + 1)) by lia. apply H. lia.
Qed.

Lemma load_range n m a : 0 <= load n m a < 2 ^ (8 * Z.of_nat n).
Proof.
  revert a. induction n as [|n IH]; intros a; simpl load; [done|].
  pose proof (get8_range m a). specialize (IH (a + 1)).
  replace (8 * Z.of_nat (S n)) with (8 + 8 * Z.of_nat n) by lia.
  rewrite Z.pow_add_r by lia. lia.
Qed.

(** The i-th byte of a loaded object. *)
Lemma load_byte n m a i :
  0 <= i < Z.of_nat n -> u8 (load n m a / 2 ^ (8 * i)) = get8 m (a + i).
Proof.
  revert a i. induction n as [|n IH]; intros a i Hi; [lia|]. simpl load.
  pose proof (get8_range m a) as Hb.
  destruct (decide (i = 0)) as [->|].
  - rewrite Z.mul_0_r, Z.pow_0_r, Z.div_1_r, Z.add_0_r. unfold u8.
    rewrite Z.mul_comm, Z.mod_add, Z.mod_small by lia. done.
  - replace (8 * i) with (8 + 8 * (i - 1)) by lia.
    rewrite Z.pow_add_r, <- Z.div_div by lia.
    rewrite (Z.mul_comm (2 ^ 8) (load n m (a + 1))).
    rewrite (Z.div_add (get8 m a)) by lia.
    rewrite (Z.div_small (get8 m a)) by exact Hb.
    rewrite Z.add_0_l, IH by lia. f_equal. lia.
Qed.

(** Storing a loaded object copies its bytes. *)
Lemma get8_store_load n m a m' a' i :
  0 <= i < Z.of_nat n -> get8 (store n m a (load n m' a')) (a + i) = get8 m' (a' + i).
Proof. intros. rewrite get8_store_in by done. by apply load_byte. Qed.

Lemma load_store_ne n n' m a b v :
  b + Z.of_nat n' <= a \/ a + Z.of_nat n <= b ->
  load n' (store n m a v) b = load n' m b.
Proof. intros. apply load_ext. intros i Hi. apply get8_store_out. lia. Qed.

Lemma load_put8_ne n m a b v :
  a < b \/ b + Z.of_nat n <= a -> load n (put8 m a v) b = load n m b.
Proof. intros. apply load_ext. intros. apply get8_put8_ne. lia. Qed.

(** Reading back what was stored gives the value at the object's width. *)
Lemma load_store_eq n m a v : load n (store n m a v) a = v mod 2 ^ (8 * Z.of_nat n).
Proof.
  revert m a v. induction n as [|n IH]; intros m a v.
  - simpl. by rewrite Z.mod_1_r.
  - simpl load. simpl store. rewrite IH.
    rewrite get8_store_out by lia. rewrite get8_put8_eq.
    replace (8 * Z.of_nat (S n)) with (8 + 8 * Z.of_nat n) by lia.
    rewrite Z.pow_add_r, Z.rem_mul_r by lia. unfold u8. lia.
Qed.

(** Reading a part of a stored object. *)
Lemma load_store_sub n n' m a v i :
  0 <= i -> i + Z.of_nat n' <= Z.of_nat n ->
  load n' (store n m a v) (a + i) = (v / 2 ^ (8 * i)) mod 2 ^ (8 * Z.of_nat n').
Proof.
  intros Hi Hn. rewrite <- (load_store_eq n' m (a + i)).
  apply load_ext. intros j Hj. rewrite <- Z.add_assoc.
  rewrite get8_store_in by lia.
  rewrite Z.add_assoc, get8_store_in by lia.
  rewrite Z.div_div by lia. do 2 f_equal.
  rewrite <- Z.pow_add_r by lia. f_equal. lia.
Qed.

Lemma load_store_small n m a v :
  0 <= v < 2 ^ (8 * Z.of_nat n) -> load n (store n m a v) a = v.
Proof. intros. rewrite load_store_eq. by apply Z.mod_small. Qed.
End Bytes.

#[export] Instance load_proper : Proper ((=) ==> (≡@{mem}) ==> (=) ==> (=)) load.
Proof. intros n ? <- m m' H a ? <-. apply load_ext. intros. apply H. Qed.

#[export] Instance put8_proper :
  Proper ((≡@{mem}) ==> (=) ==> (=) ==> (≡@{mem})) put8.
Proof. intros m m' H a ? <- v ? <- b. rewrite !get8_put8. by rewrite H. Qed.

#[export] Instance store_proper :
  Proper ((=) ==> (≡@{mem}) ==> (=) ==> (=) ==> (≡@{mem})) store.
Proof.
  intros n ? <- m m' H a ? <- v ? <-.
  revert m m' H a v. induction n as [|n IH]; intros m m' H a v; [done|].
  simpl. apply IH. by rewrite H.
Qed.

Lemma load64_store64 m a v : is_u64 v -> load64 (store64 m a v) a = v.
Proof. intros. by apply load_store_small. Qed.
Lemma load64_range m a : 0 <= load64 m a < 2 ^ 64.
Proof. apply (load_range 8). Qed.
Lemma load32_range m a : 0 <= load32 m a < 2 ^ 32.
Proof. apply (load_range 4). Qed.
Lemma load32_store32 m a v : is_u32 v -> load32 (store32 m a v) a = v.
Proof. intros. by apply load_store_small. Qed.
Lemma load64_store64_ne m a b v :
  b + 8 <= a \/ a + 8 <= b -> load64 (store64 m a v) b = load64 m b.
Proof. intros. apply load_store_ne. lia. Qed.
#[export] Hint Resolve load64_range load32_range get8_range : word.
