(* ===== verification/StringLib.v ===== *)
(** The kernel's string and memory routines, [src/src/string.c].

    The block routines are modelled with the phases the source has: a byte
    loop until the destination is 8-aligned, unrolled wide copies while they
    fit, ever narrower copies, a byte tail.  [copied] and [filled] are the
    byte-wise reference meanings; the theorems say each routine has exactly
    that effect on memory and touches nothing else.  The SSE variants model an
    [xmm] move as a 16-byte load or store. *)
From S2P Require Import Prelude Machine.

(** ** Loops over an index and the memory *)
Definition while_step (cond : Z -> bool) (k : Z) (body : Z -> mem -> mem)
    (s : Z * mem) : (Z * mem) + (Z * mem) :=
  let '(i, m) := s in
  if cond i then inl (u64 (i + k), body i m) else inr (i, m).

(** [while (cond(i)) { body; i += k; }]: at most [n] iterations. *)
Definition run (n : Z) (cond : Z -> bool) (k : Z) (body : Z -> mem -> mem)
    (s : Z * mem) : option (Z * mem) :=
  loop (S (Z.to_nat n)) (while_step cond k body) s.

(** The conditions of the phases. *)
Definition unaligned (p n i : Z) : bool := negb (Z.land (p + i) 7 =? 0) && (i <? n).
Definition room (k n i : Z) : bool := u64 (i + k) <=? n.
Definition below (n i : Z) : bool := i <? n.

Lemma run_inv (P : Z -> mem -> Prop) n cond k body i0 m0 :
  0 <= i0 <= n -> n < 2 ^ 63 -> 1 <= k < 2 ^ 63 -> P i0 m0 ->
  (forall i m, 0 <= i <= n -> cond i = true ->
     i + k <= n /\ (P i m -> P (i + k) (body i m))) ->
  exists i m, run n cond k body (i0, m0) = Some (i, m) /\ P i m /\
    i0 <= i <= n /\ cond i = false.
Proof.
  intros Hi Hn Hk HP Hs.
  destruct (loop_total (while_step cond k body)
    (fun '(i, m) => i0 <= i <= n /\ P i m)
    (fun '(i, m) => P i m /\ i0 <= i <= n /\ cond i = false)
    (fun '(i, m) => Z.to_nat (n - i))) with (fuel := S (Z.to_nat n)) (s := (i0, m0))
    as ([i m] & E & H).
  - intros [i m] [i' m'] [Hr Hp] E. unfold while_step in E.
    destruct (cond i) eqn:Ec; [|done]. injection E as <- <-.
    destruct (Hs i m ltac:(lia) Ec) as [Hle Hb].
    rewrite u64_small by lia. split; [split; [lia | auto] | lia].
  - intros [i m] [i' m'] [Hr Hp] E. unfold while_step in E.
    destruct (cond i) eqn:Ec; [done|]. injection E as <- <-. done.
  - split; [lia | done].
  - lia.
  - exists i, m. done.
Qed.

Lemma room_spec k n i : 0 <= i <= n -> n < 2 ^ 63 -> 0 <= k < 2 ^ 63 ->
  room k n i = true <-> i + k <= n.
Proof. intros. unfold room. rewrite u64_small by lia. apply Z.leb_le. Qed.
Lemma unaligned_below p n i : unaligned p n i = true -> i < n.
Proof. unfold unaligned. rewrite andb_true_iff, Z.ltb_lt. by intros [_ ?]. Qed.

(** ** Copying *)

(** One assignment through [w]-byte pointers into [&pdest[i]] from [&psrc[i]]. *)
Definition copy_word (w : nat) (dest src i : Z) (m : mem) : mem :=
  store w m (dest + i) (load w m (src + i)).

(** [cnt] consecutive 8-byte copies: the unrolled bodies. *)
Definition copy_words (cnt : nat) (dest src i : Z) (m : mem) : mem :=
  for_loop cnt 0 (fun j m => copy_word 8 dest src (i + 8 * j) m) m.

Definition memcpy_run (m : mem) (dest src n : Z) : option mem :=
  s ← run n (unaligned dest n) 1 (copy_word 1 dest src) (0, m);
  s ← run n (room 64 n) 64 (copy_words 8 dest src) s;
  s ← run n (room 32 n) 32 (copy_words 4 dest src) s;
  s ← run n (room 16 n) 16 (copy_words 2 dest src) s;
  s ← run n (room 8 n) 8 (copy_word 8 dest src) s;
  s ← run n (room 4 n) 4 (copy_word 4 dest src) s;
  s ← run n (room 2 n) 2 (copy_word 2 dest src) s;
  s ← run n (below n) 1 (copy_word 1 dest src) s;
  Some s.2.

(** The memory after the call; [memcpy_total] shows the loops always end. *)
Definition memcpy (m : mem) (dest src n : Z) : mem := default m (memcpy_run m dest src n).

(** [cnt] xmm registers loaded from [src + i], then stored at [dest + i]. *)
Definition copy_xmms (cnt : nat) (dest src i : Z) (m : mem) : mem :=
  let xmm := fun j => load 16 m (src + i + 16 * j) in
  for_loop cnt 0 (fun j m' => store 16 m' (dest + i + 16 * j) (xmm j)) m.

Definition memcpy_sse_run (m : mem) (dest src n : Z) : option mem :=
  s ← run n (unaligned dest n) 1 (copy_word 1 dest src) (0, m);
  s ← run n (room 64 n) 64 (copy_xmms 4 dest src) s;
  s ← run n (room 32 n) 32 (copy_xmms 2 dest src) s;
  s ← run n (room 16 n) 16 (copy_xmms 1 dest src) s;
  s ← run n (room 8 n) 8 (copy_word 8 dest src) s;
  s ← run n (room 4 n) 4 (copy_word 4 dest src) s;
  s ← run n (room 2 n) 2 (copy_word 2 dest src) s;
  s ← run n (below n) 1 (copy_word 1 dest src) s;
  Some s.2.
Definition memcpy_sse (m : mem) (dest src n : Z) : mem :=
  default m (memcpy_sse_run m dest src n).

Definition backward_step (w : nat) (cond : Z -> bool) (dest src : Z) (s : Z * mem)
  : (Z * mem) + (Z * mem) :=
  let '(i, m) := s in
  if cond i then inl (i - Z.of_nat w, copy_word w dest src (i - Z.of_nat w) m)
  else inr (i, m).

Definition run_back (n : Z) (w : nat) (cond : Z -> bool) (dest src : Z) (s : Z * mem)
  : option (Z * mem) := loop (S (Z.to_nat n)) (backward_step w cond dest src) s.

Definition memmove_run (m : mem) (dest src n : Z) : option mem :=
  if dest <? src then
    s ← run n (below n) 1 (copy_word 1 dest src) (0, m); Some s.2
  else if src <? dest then
    s ← run_back n 1 (fun i => 0 <? i) dest src (n, m); Some s.2
  else Some m.
Definition memmove (m : mem) (dest src n : Z) : mem := default m (memmove_run m dest src n).

Definition memmove_sse_run (m : mem) (dest src n : Z) : option mem :=
  if (dest =? src) || (n =? 0) then Some m
  else if dest <? src then memcpy_sse_run m dest src n
  else
    s ← run_back n 1 (fun i => negb (i mod 16 =? 0)) dest src (n, m);
    s ← run_back n 16 (fun i => 16 <=? i) dest src s;
    Some s.2.
Definition memmove_sse (m : mem) (dest src n : Z) : mem :=
  default m (memmove_sse_run m dest src n).

(** The reference meaning: [n] bytes of [m] at [src] are at [dest] in [m']. *)
Definition copied (m : mem) (dest src n : Z) (m' : mem) : Prop :=
  forall a, get8 m' a =
    if bool_decide (dest <= a < dest + n) then get8 m (src + (a - dest)) else get8 m a.

(** Forward copies may overlap when the destination is below the source. *)
Definition forward_ok (dest src n : Z) : Prop := dest <= src \/ src + n <= dest.

Lemma copied_nil m dest src : copied m dest src 0 m.
Proof. intros a. case_bool_decide; [lia | done]. Qed.

Lemma copied_extend (w : nat) m0 dest src n i m m' :
  forward_ok dest src n -> 0 <= i -> i + Z.of_nat w <= n ->
  (forall j, 0 <= j < Z.of_nat w -> get8 m' (dest + i + j) = get8 m (src + i + j)) ->
  (forall b, b < dest + i \/ dest + i + Z.of_nat w <= b -> get8 m' b = get8 m b) ->
  copied m0 dest src i m -> copied m0 dest src (i + Z.of_nat w) m'.
Proof.
  intros Hov Hi Hn Hin Hout Hc a. destruct (decide (dest + i <= a < dest + i + Z.of_nat w)) as [H|H].
  - replace a with (dest + i + (a - dest - i)) at 1 by lia.
    rewrite Hin, Hc by lia. unfold forward_ok in Hov.
    rewrite bool_decide_eq_false_2 by lia. rewrite bool_decide_eq_true_2 by lia.
    f_equal. lia.
  - rewrite Hout, Hc by lia. do 2 case_bool_decide; (done || lia).
Qed.

Lemma copy_word_inv w m0 dest src n i m :
  forward_ok dest src n -> 0 <= i -> i + Z.of_nat w <= n ->
  copied m0 dest src i m ->
  copied m0 dest src (i + Z.of_nat w) (copy_word w dest src i m).
Proof.
  intros Hov Hi Hn. apply (copied_extend w m0 dest src n); try done.
  - intros. unfold copy_word. by apply get8_store_load.
  - intros. unfold copy_word. by apply get8_store_out.
Qed.

Lemma copy_words_inv cnt m0 dest src n i m :
  forward_ok dest src n -> 0 <= i -> i + 8 * Z.of_nat cnt <= n ->
  copied m0 dest src i m ->
  copied m0 dest src (i + 8 * Z.of_nat cnt) (copy_words cnt dest src i m).
Proof.
  intros Hov Hi Hn Hc. unfold copy_words.
  apply (for_loop_inv (fun j m => copied m0 dest src (i + 8 * j) m)).
  - by replace (i + 8 * 0) with i by lia.
  - intros j m' Hj H. replace (i + 8 * (j + 1)) with (i + 8 * j + Z.of_nat 8) by lia.
    apply (copy_word_inv 8 m0 dest src n); (done || lia).
Qed.

Lemma get8_copy_xmms cnt dest src i m b :
  get8 (copy_xmms cnt dest src i m) b =
    if bool_decide (dest + i <= b < dest + i + 16 * Z.of_nat cnt)
    then get8 m (src + (b - dest)) else get8 m b.
Proof.
  unfold copy_xmms. revert b.
  set (P := fun (j : Z) (m' : mem) => forall b, get8 m' b =
    if bool_decide (dest + i <= b < dest + i + 16 * j)
    then get8 m (src + (b - dest)) else get8 m b).
  apply (for_loop_inv P _ cnt 0 m); unfold P.
  - intros. case_bool_decide; [lia | done].
  - intros j m' Hj IH c.
    destruct (decide (dest + i + 16 * j <= c < dest + i + 16 * j + 16)).
    + replace c with (dest + i + 16 * j + (c - (dest + i + 16 * j))) at 1 by lia.
      rewrite get8_store_load by lia. rewrite bool_decide_eq_true_2 by lia. f_equal. lia.
    + rewrite get8_store_out by lia. rewrite IH. do 2 case_bool_decide; (done || lia).
Qed.

Lemma copy_xmms_inv cnt m0 dest src n i m :
  forward_ok dest src n -> 0 <= i -> i + 16 * Z.of_nat cnt <= n ->
  copied m0 dest src i m ->
  copied m0 dest src (i + 16 * Z.of_nat cnt) (copy_xmms cnt dest src i m).
Proof.
  intros Hov Hi Hn Hc. replace (16 * Z.of_nat cnt) with (Z.of_nat (16 * cnt)) in * by lia.
  apply (copied_extend (16 * cnt) m0 dest src n i m); try done; intros; rewrite get8_copy_xmms.
  - rewrite bool_decide_eq_true_2 by lia. f_equal. lia.
  - by rewrite bool_decide_eq_false_2 by lia.
Qed.

(** One phase of a routine: [Q] holds at the current index; the phase runs to
    its end and [Q] holds at the index it reached. *)
Ltac phase_cond :=
  lazymatch goal with
  | H : unaligned _ _ _ = true |- _ => apply unaligned_below in H
  | H : room _ _ _ = true |- _ => apply room_spec in H; [|lia|lia|lia]
  | H : below _ _ = true |- _ => apply Z.ltb_lt in H
  end.

Ltac phase Q :=
  match goal with
  | |- context [run ?n ?cond ?k ?body (?i, ?m)] =>
      let i' := fresh "i" in let m' := fresh "m" in let E := fresh "E" in
      let HQ := fresh "HQ" in let Hr := fresh "Hr" in let Hc := fresh "Hc" in
      destruct (run_inv Q n cond k body i m) as (i' & m' & E & HQ & Hr & Hc);
      [ lia | lia | lia | assumption
      | let H := fresh "H" in intros ? ? ? H; phase_cond
      | rewrite E; clear E; simpl ]
  end.

Ltac copy_phase m dest src n :=
  phase (fun i m' => copied m dest src i m');
  [ split; [lia|]; intros;
    lazymatch goal with
    | |- copied _ _ _ _ (copy_word ?w _ _ _ _) => apply (copy_word_inv w m dest src n)
    | |- copied _ _ _ _ (copy_words ?c _ _ _ _) => apply (copy_words_inv c m dest src n)
    | |- copied _ _ _ _ (copy_xmms ?c _ _ _ _) => apply (copy_xmms_inv c m dest src n)
    end;
    (eassumption || lia) | ].

Lemma below_done n i : i <= n -> below n i = false -> i = n.
Proof. unfold below. rewrite Z.ltb_ge. lia. Qed.

Ltac last_phase :=
  eexists; split; [done|];
  match goal with H : below _ _ = false |- _ => apply below_done in H; [by subst|lia] end.

Lemma memcpy_run_spec m dest src n :
  forward_ok dest src n -> 0 <= n < 2 ^ 63 ->
  exists m', memcpy_run m dest src n = Some m' /\ copied m dest src n m'.
Proof.
  intros Hov Hn. pose proof (copied_nil m dest src).
  unfold memcpy_run. do 8 copy_phase m dest src n. last_phase.
Qed.

Lemma memcpy_sse_run_spec m dest src n :
  forward_ok dest src n -> 0 <= n < 2 ^ 63 ->
  exists m', memcpy_sse_run m dest src n = Some m' /\ copied m dest src n m'.
Proof.
  intros Hov Hn. pose proof (copied_nil m dest src).
  unfold memcpy_sse_run. do 8 copy_phase m dest src n. last_phase.
Qed.

Lemma memcpy_copied m dest src n :
  forward_ok dest src n -> 0 <= n < 2 ^ 63 -> copied m dest src n (memcpy m dest src n).
Proof.
  intros H1 H2. unfold memcpy. by destruct (memcpy_run_spec m dest src n H1 H2) as (? & -> & ?).
Qed.

(** *** Backward copies *)

(** The bytes from index [i] on have been copied. *)
Definition copied_from (m : mem) (dest src n i : Z) (m' : mem) : Prop :=
  forall a, get8 m' a =
    if bool_decide (dest + i <= a < dest + n) then get8 m (src + (a - dest)) else get8 m a.

Lemma copied_from_nil m dest src n : copied_from m dest src n n m.
Proof. intros a. case_bool_decide; [lia | done]. Qed.

Lemma copy_word_back w m0 dest src n i m :
  src <= dest -> 0 <= i -> i + Z.of_nat w <= n ->
  copied_from m0 dest src n (i + Z.of_nat w) m ->
  copied_from m0 dest src n i (copy_word w dest src i m).
Proof.
  intros Hov Hi Hn Hc a. unfold copy_word.
  destruct (decide (dest + i <= a < dest + i + Z.of_nat w)).
  - replace a with (dest + i + (a - (dest + i))) at 1 by lia.
    rewrite get8_store_load, Hc by lia.
    rewrite bool_decide_eq_false_2, bool_decide_eq_true_2 by lia. f_equal. lia.
  - rewrite get8_store_out, Hc by lia. do 2 case_bool_decide; (done || lia).
Qed.

Lemma run_back_inv w cond m0 dest src n i0 m :
  (1 <= w)%nat -> src <= dest -> 0 <= i0 <= n ->
  copied_from m0 dest src n i0 m ->
  (forall i, 0 <= i <= i0 -> (i0 - i) mod Z.of_nat w = 0 -> cond i = true -> Z.of_nat w <= i) ->
  exists i m', run_back n w cond dest src (i0, m) = Some (i, m') /\
    copied_from m0 dest src n i m' /\ 0 <= i <= i0 /\
    (i0 - i) mod Z.of_nat w = 0 /\ cond i = false.
Proof.
  intros Hw Hov Hi Hc Hcond.
  destruct (loop_total (backward_step w cond dest src)
    (fun '(i, m) => 0 <= i <= i0 /\ (i0 - i) mod Z.of_nat w = 0 /\ copied_from m0 dest src n i m)
    (fun '(i, m) => 0 <= i <= i0 /\ (i0 - i) mod Z.of_nat w = 0 /\
       copied_from m0 dest src n i m /\ cond i = false)
    (fun '(i, m) => Z.to_nat i)) with (fuel := S (Z.to_nat n)) (s := (i0, m))
    as ([i m'] & E & H).
  - intros [i m1] [i' m2] (Hr & Hm & Hp) E. unfold backward_step in E.
    destruct (cond i) eqn:Ec; [|done]. injection E as <- <-.
    assert (Z.of_nat w <= i) by (apply Hcond; (done || lia)).
    split_and!; [lia|lia| | |lia].
    + replace (i0 - (i - Z.of_nat w)) with (i0 - i + 1 * Z.of_nat w) by lia.
      by rewrite Z.mod_add by lia.
    + apply copy_word_back; [done|lia|lia|].
      by replace (i - Z.of_nat w + Z.of_nat w) with i by lia.
  - intros [i m1] [i' m2] (Hr & Hm & Hp) E. unfold backward_step in E.
    destruct (cond i) eqn:Ec; [done|]. injection E as <- <-. done.
  - split_and!; [lia|lia| |done]. by rewrite Z.sub_diag, Z.mod_0_l by lia.
  - lia.
  - destruct H as (? & ? & ? & ?). exists i, m'. done.
Qed.

Lemma copied_from_0 m dest src n m' : copied_from m dest src n 0 m' -> copied m dest src n m'.
Proof. intros H a. rewrite H. do 2 case_bool_decide; (done || lia). Qed.

Lemma copied_same m dest n : copied m dest dest n m.
Proof. intros a. case_bool_decide; [f_equal; lia | done]. Qed.

(** [memcpy] and its SSE variant, for buffers that do not overlap or whose
    destination is not above the source, terminate and copy exactly [n] bytes:
    the destination holds the source's old bytes, every other byte is unchanged. *)
Theorem memcpy_correct m dest src n :
  forward_ok dest src n -> 0 <= n < 2 ^ 63 ->
  (exists m', memcpy_run m dest src n = Some m' /\ copied m dest src n m') /\
  (exists m', memcpy_sse_run m dest src n = Some m' /\ copied m dest src n m').
Proof. auto using memcpy_run_spec, memcpy_sse_run_spec. Qed.

Lemma memcpy_correct_witness :
  forward_ok 4099 8192 100 /\
  (exists m', memcpy_run (<[8193 := 7]> ∅) 4099 8192 100 = Some m' /\
     copied (<[8193 := 7]> ∅) 4099 8192 100 m') /\
  (exists m', memcpy_sse_run (<[8193 := 7]> ∅) 4099 8192 100 = Some m' /\
     copied (<[8193 := 7]> ∅) 4099 8192 100 m').
Proof.
  split; [left; lia|]. apply (memcpy_correct (<[8193 := 7]> ∅) 4099 8192 100); [left; lia|lia].
Defined.

Lemma memmove_run_spec m dest src n :
  0 <= n < 2 ^ 63 ->
  exists m', memmove_run m dest src n = Some m' /\ copied m dest src n m'.
Proof.
  intros Hn. unfold memmove_run.
  destruct (Z.ltb_spec dest src); [|destruct (Z.ltb_spec src dest)].
  - assert (forward_ok dest src n) by (left; lia).
    pose proof (copied_nil m dest src). copy_phase m dest src n. last_phase.
  - destruct (run_back_inv 1 (fun i => 0 <? i) m dest src n n m) as (i & m' & E & Hc & Hr & _ & Hf).
    + lia.
    + lia.
    + lia.
    + apply copied_from_nil.
    + intros i Hi _ Hc. apply Z.ltb_lt in Hc. lia.
    + rewrite E. simpl. eexists. split; [done|]. apply Z.ltb_ge in Hf.
      replace i with 0 in Hc by lia. by apply copied_from_0.
  - replace src with dest by lia. eauto using copied_same.
Qed.

Lemma memmove_sse_run_spec m dest src n :
  0 <= n < 2 ^ 63 ->
  exists m', memmove_sse_run m dest src n = Some m' /\ copied m dest src n m'.
Proof.
  intros Hn. unfold memmove_sse_run.
  destruct (Z.eqb_spec dest src) as [->|]; [eauto using copied_same|].
  destruct (Z.eqb_spec n 0) as [->|]; [eauto using copied_nil|]. simpl.
  destruct (Z.ltb_spec dest src).
  { apply memcpy_sse_run_spec; [left; lia|lia]. }
  destruct (run_back_inv 1 (fun i => negb (i mod 16 =? 0)) m dest src n n m)
    as (i & m1 & -> & Hc & Hr & _ & Hf); [lia|lia|lia|apply copied_from_nil| |].
  { intros i Hi _ Hc. destruct (decide (i = 0)) as [->|]; [done|lia]. }
  simpl. apply negb_false_iff, Z.eqb_eq in Hf.
  destruct (run_back_inv 16 (fun i => 16 <=? i) m dest src n i m1)
    as (i' & m2 & -> & Hc' & Hr' & Hm & Hf'); [lia|lia|lia|done| |].
  { intros j _ _ Hj. apply Z.leb_le in Hj. lia. }
  simpl. eexists. split; [done|]. apply Z.leb_gt in Hf'.
  replace i' with 0 in Hc'; [by apply copied_from_0|].
  change (Z.of_nat 16) with 16 in Hm. Z.div_mod_to_equations. lia.
Qed.

(** [memmove] and its SSE variant copy exactly [n] bytes whatever the overlap
    of the two buffers, and terminate. *)
Theorem memmove_correct m dest src n :
  0 <= n < 2 ^ 63 ->
  (exists m', memmove_run m dest src n = Some m' /\ copied m dest src n m') /\
  (exists m', memmove_sse_run m dest src n = Some m' /\ copied m dest src n m').
Proof. auto using memmove_run_spec, memmove_sse_run_spec. Qed.

Lemma memmove_correct_witness :
  (exists m', memmove_run (<[100 := 7]> ∅) 103 100 40 = Some m' /\
     copied (<[100 := 7]> ∅) 103 100 40 m') /\
  (exists m', memmove_sse_run (<[100 := 7]> ∅) 103 100 40 = Some m' /\
     copied (<[100 := 7]> ∅) 103 100 40 m').
Proof. apply (memmove_correct (<[100 := 7]> ∅) 103 100 40). lia. Defined.

(** ** Filling *)
Definition c64_of (c : Z) : Z := u64 (u8 c * 0x0101010101010101).
Definition c32_of (c : Z) : Z := u32 (u8 c * 0x01010101).
Definition c16_of (c : Z) : Z := u16 (u8 c) * 0x0101.

Definition fill_word (w : nat) (v s i : Z) (m : mem) : mem := store w m (s + i) v.
Definition fill_words (cnt : nat) (v s i : Z) (m : mem) : mem :=
  for_loop cnt 0 (fun j m => fill_word 8 v s (i + 8 * j) m) m.
(** [punpcklqdq] doubles the 8-byte pattern; [cnt] xmm stores follow. *)
Definition fill_xmms (cnt : nat) (c64 s i : Z) (m : mem) : mem :=
  for_loop cnt 0 (fun j m => store 16 m (s + i + 16 * j) (c64 + 2 ^ 64 * c64)) m.

Definition memset_run (m : mem) (s c n : Z) : option mem :=
  st ← run n (unaligned s n) 1 (fill_word 1 (u8 c) s) (0, m);
  st ← run n (room 64 n) 64 (fill_words 8 (c64_of c) s) st;
  st ← run n (room 8 n) 8 (fill_word 8 (c64_of c) s) st;
  st ← run n (room 4 n) 4 (fill_word 4 (c32_of c) s) st;
  st ← run n (room 2 n) 2 (fill_word 2 (c16_of c) s) st;
  st ← run n (below n) 1 (fill_word 1 (u8 c) s) st;
  Some st.2.
Definition memset (m : mem) (s c n : Z) : mem := default m (memset_run m s c n).

Definition memset_sse_run (m : mem) (s c n : Z) : option mem :=
  st ← run n (unaligned s n) 1 (fill_word 1 (u8 c) s) (0, m);
  st ← run n (room 64 n) 64 (fill_xmms 4 (c64_of c) s) st;
  st ← run n (room 32 n) 32 (fill_xmms 2 (c64_of c) s) st;
  st ← run n (room 16 n) 16 (fill_xmms 1 (c64_of c) s) st;
  st ← run n (room 8 n) 8 (fill_word 8 (c64_of c) s) st;
  st ← run n (room 4 n) 4 (fill_word 4 (u32 (c64_of c)) s) st;
  st ← run n (room 2 n) 2 (fill_word 2 (u16 (c64_of c)) s) st;
  st ← run n (below n) 1 (fill_word 1 (u8 (c64_of c)) s) st;
  Some st.2.

(** The reference meaning: [n] bytes at [s] hold [c], the others are unchanged. *)
Definition filled (m : mem) (s c n : Z) (m' : mem) : Prop :=
  forall a, get8 m' a = if bool_decide (s <= a < s + n) then u8 c else get8 m a.

(** A value whose first [w] bytes are all [c]. *)
Definition bytes_are (w : nat) (v c : Z) : Prop :=
  forall j, 0 <= j < Z.of_nat w -> u8 (v / 2 ^ (8 * j)) = u8 c.

Lemma bytes_are_decide (w : nat) v c :
  Forall (fun j => u8 (v / 2 ^ (8 * Z.of_nat j)) = u8 c) (seq 0 w) -> bytes_are w v c.
Proof.
  intros H j Hj. rewrite Forall_forall in H.
  specialize (H (Z.to_nat j)). rewrite Z2Nat.id in H by lia. apply H.
  apply elem_of_seq. lia.
Qed.

Lemma c64_of_eq c : c64_of c = u8 c * 0x0101010101010101.
Proof. unfold c64_of. apply u64_small. pose proof (u8_range c). lia. Qed.

(** [by_bytes] proves, byte by byte, that a constant multiple of a byte repeats it. *)
Ltac by_byte :=
  match goal with
  | |- context [2 ^ (8 * Z.of_nat ?k)] =>
      let x := eval vm_compute in (2 ^ (8 * Z.of_nat k)) in
      change (2 ^ (8 * Z.of_nat k)) with x
  end;
  unfold u8, u16, u32; Z.div_mod_to_equations; lia.
Ltac by_bytes :=
  apply bytes_are_decide; cbn [seq];
  repeat (apply List.Forall_cons; [by_byte|]); apply List.Forall_nil.

Lemma bytes_are_c64 c : bytes_are 8 (c64_of c) c.
Proof. rewrite c64_of_eq. by_bytes. Qed.
Lemma bytes_are_xmm c : bytes_are 16 (c64_of c + 2 ^ 64 * c64_of c) c.
Proof. rewrite c64_of_eq. by_bytes. Qed.
Lemma bytes_are_c32 c : bytes_are 4 (c32_of c) c.
Proof. unfold c32_of. by_bytes. Qed.
Lemma bytes_are_c16 c : bytes_are 2 (c16_of c) c.
Proof. unfold c16_of. by_bytes. Qed.
Lemma bytes_are_c1 c : bytes_are 1 (u8 c) c.
Proof. by_bytes. Qed.
Lemma bytes_are_u32_c64 c : bytes_are 4 (u32 (c64_of c)) c.
Proof. rewrite c64_of_eq. by_bytes. Qed.
Lemma bytes_are_u16_c64 c : bytes_are 2 (u16 (c64_of c)) c.
Proof. rewrite c64_of_eq. by_bytes. Qed.
Lemma bytes_are_u8_c64 c : bytes_are 1 (u8 (c64_of c)) c.
Proof. rewrite c64_of_eq. by_bytes. Qed.
#[local] Hint Resolve bytes_are_c64 bytes_are_xmm bytes_are_c32 bytes_are_c16
  bytes_are_c1 bytes_are_u32_c64 bytes_are_u16_c64 bytes_are_u8_c64 : word.

Lemma filled_nil m s c : filled m s c 0 m.
Proof. intros a. case_bool_decide; [lia | done]. Qed.

Lemma store_filled (w : nat) m0 s c i m v :
  bytes_are w v c -> 0 <= i -> filled m0 s c i m ->
  filled m0 s c (i + Z.of_nat w) (store w m (s + i) v).
Proof.
  intros Hv Hi Hf a. destruct (decide (s + i <= a < s + i + Z.of_nat w)).
  - replace a with (s + i + (a - (s + i))) at 1 by lia.
    rewrite get8_store_in by lia. rewrite bool_decide_eq_true_2 by lia. apply Hv. lia.
  - rewrite get8_store_out, Hf by lia. do 2 case_bool_decide; (done || lia).
Qed.

Lemma fill_words_filled cnt m0 s c i m v :
  bytes_are 8 v c -> 0 <= i -> filled m0 s c i m ->
  filled m0 s c (i + 8 * Z.of_nat cnt) (fill_words cnt v s i m).
Proof.
  intros Hv Hi Hf. unfold fill_words.
  apply (for_loop_inv (fun j m => filled m0 s c (i + 8 * j) m)).
  - by replace (i + 8 * 0) with i by lia.
  - intros j m' Hj H. replace (i + 8 * (j + 1)) with (i + 8 * j + Z.of_nat 8) by lia.
    apply store_filled; (done || lia).
Qed.

Lemma fill_xmms_filled cnt m0 s c i m v :
  bytes_are 16 (v + 2 ^ 64 * v) c -> 0 <= i -> filled m0 s c i m ->
  filled m0 s c (i + 16 * Z.of_nat cnt) (fill_xmms cnt v s i m).
Proof.
  intros Hv Hi Hf. unfold fill_xmms.
  apply (for_loop_inv (fun j m => filled m0 s c (i + 16 * j) m)).
  - by replace (i + 16 * 0) with i by lia.
  - intros j m' Hj H. replace (i + 16 * (j + 1)) with (i + 16 * j + Z.of_nat 16) by lia.
    replace (s + i + 16 * j) with (s + (i + 16 * j)) by lia.
    apply store_filled; (done || lia).
Qed.

Ltac fill_phase m s c :=
  phase (fun i m' => filled m s c i m');
  [ split; [lia|]; intros;
    lazymatch goal with
    | |- filled _ _ _ _ (fill_word ?w _ _ _ _) => apply (store_filled w)
    | |- filled _ _ _ _ (fill_words ?k _ _ _ _) => apply (fill_words_filled k)
    | |- filled _ _ _ _ (fill_xmms ?k _ _ _ _) => apply (fill_xmms_filled k)
    end; [ solve [auto with word] | lia | assumption ] | ].

Lemma memset_run_spec m s c n :
  0 <= n < 2 ^ 63 -> exists m', memset_run m s c n = Some m' /\ filled m s c n m'.
Proof.
  intros Hn. pose proof (filled_nil m s c).
  unfold memset_run. do 6 fill_phase m s c. last_phase.
Qed.

Lemma memset_sse_run_spec m s c n :
  0 <= n < 2 ^ 63 -> exists m', memset_sse_run m s c n = Some m' /\ filled m s c n m'.
Proof.
  intros Hn. pose proof (filled_nil m s c).
  unfold memset_sse_run. do 8 fill_phase m s c. last_phase.
Qed.

Lemma memset_filled m s c n : 0 <= n < 2 ^ 63 -> filled m s c n (memset m s c n).
Proof.
  intros Hn. unfold memset. by destruct (memset_run_spec m s c n Hn) as (? & -> & ?).
Qed.

(** [memset] and its SSE variant terminate and set exactly the [n] bytes at
    [s] to the low byte of [c], whatever the alignment. *)
Theorem memset_correct m s c n :
  0 <= n < 2 ^ 63 ->
  (exists m', memset_run m s c n = Some m' /\ filled m s c n m') /\
  (exists m', memset_sse_run m s c n = Some m' /\ filled m s c n m').
Proof. auto using memset_run_spec, memset_sse_run_spec. Qed.

Lemma memset_correct_witness :
  (exists m', memset_run ∅ 4097 0xAB 90 = Some m' /\ filled ∅ 4097 0xAB 90 m') /\
  (exists m', memset_sse_run ∅ 4097 0xAB 90 = Some m' /\ filled ∅ 4097 0xAB 90 m').
Proof. apply (memset_correct ∅ 4097 0xAB 90). lia. Defined.

(** *** Filling with pixels: [memset32_sse] *)

(** [&pdest[i]] is an address of 4-byte elements; an xmm store covers four. *)
Definition fill32_xmms (cnt : nat) (c64 s i : Z) (m : mem) : mem :=
  for_loop cnt 0 (fun j m => store 16 m (s + 4 * i + 16 * j) (c64 + 2 ^ 64 * c64)) m.
Definition fill32_pair (c64 s i : Z) (m : mem) : mem := store 8 m (s + 4 * i) c64.

Definition memset32_sse_run (m : mem) (s color n : Z) : option mem :=
  let c64 := Z.lor (Z.shiftl color 32) color in
  st ← run n (room 16 n) 16 (fill32_xmms 4 c64 s) (0, m);
  st ← run n (room 8 n) 8 (fill32_xmms 2 c64 s) st;
  st ← run n (room 4 n) 4 (fill32_xmms 1 c64 s) st;
  st ← run n (room 2 n) 2 (fill32_pair c64 s) st;
  let '(i, m) := st in
  Some (if i <? n then store 4 m (s + 4 * i) color else m).

(** [n] pixels at [s] hold [color]; every byte outside them is unchanged. *)
Definition filled32 (m : mem) (s color n : Z) (m' : mem) : Prop :=
  (forall k, 0 <= k < n -> load 4 m' (s + 4 * k) = color) /\
  (forall a, a < s \/ s + 4 * n <= a -> get8 m' a = get8 m a).

(** A value made of [k] copies of a 4-byte element. *)
Definition words_are (k : nat) (v color : Z) : Prop :=
  forall j, 0 <= j < Z.of_nat k -> (v / 2 ^ (32 * j)) mod 2 ^ 32 = color.

Lemma pair_pattern color : is_u32 color -> Z.lor (Z.shiftl color 32) color = color * (1 + 2 ^ 32).
Proof.
  intros H. rewrite Z.shiftl_mul_pow2 by lia.
  rewrite (lor_disjoint _ _ 32); [lia|lia|done|]. by apply Z.mod_mul.
Qed.

Lemma store_filled32 (k : nat) m0 s color i m v :
  words_are k v color -> 0 <= i -> filled32 m0 s color i m ->
  filled32 m0 s color (i + Z.of_nat k) (store (4 * k) m (s + 4 * i) v).
Proof.
  intros Hv Hi [Hin Hout]. split.
  - intros e He. destruct (decide (e < i)).
    + rewrite load_store_ne by lia. apply Hin. lia.
    + replace (s + 4 * e) with (s + 4 * i + 4 * (e - i)) by lia.
      rewrite load_store_sub by lia.
      replace (8 * (4 * (e - i))) with (32 * (e - i)) by lia. apply Hv. lia.
  - intros a Ha. rewrite get8_store_out by lia. apply Hout. lia.
Qed.

Lemma fill32_xmms_filled cnt m0 s color i m v :
  words_are 4 (v + 2 ^ 64 * v) color -> 0 <= i -> filled32 m0 s color i m ->
  filled32 m0 s color (i + 4 * Z.of_nat cnt) (fill32_xmms cnt v s i m).
Proof.
  intros Hv Hi Hf. unfold fill32_xmms.
  apply (for_loop_inv0 (fun j m => filled32 m0 s color (i + 4 * j) m) _ cnt m).
  - by replace (i + 4 * 0) with i by lia.
  - intros j m' Hj H. replace (i + 4 * (j + 1)) with (i + 4 * j + Z.of_nat 4) by lia.
    replace (s + 4 * i + 16 * j) with (s + 4 * (i + 4 * j)) by lia.
    apply (store_filled32 4); (done || lia).
Qed.

Ltac by_words :=
  let j := fresh "j" in let Hj := fresh in
  intros j Hj;
  assert (j = 0 \/ j = 1 \/ j = 2 \/ j = 3) as [-> | [-> | [-> | ->]]] by lia;
  try lia;
  match goal with |- context [2 ^ (32 * ?k)] =>
    let x := eval vm_compute in (2 ^ (32 * k)) in change (2 ^ (32 * k)) with x end;
  Z.div_mod_to_equations; lia.

Lemma words_are_pair color : is_u32 color -> words_are 2 (color * (1 + 2 ^ 32)) color.
Proof. unfold is_u32. intros H. by_words. Qed.
Lemma words_are_xmm color : is_u32 color ->
  words_are 4 (color * (1 + 2 ^ 32) + 2 ^ 64 * (color * (1 + 2 ^ 32))) color.
Proof. unfold is_u32. intros H. by_words. Qed.
Lemma words_are_one color : is_u32 color -> words_are 1 color color.
Proof. unfold is_u32. intros H. by_words. Qed.

Ltac fill32_phase m s color :=
  phase (fun i m' => filled32 m s color i m');
  [ split; [lia|]; intros;
    lazymatch goal with
    | |- filled32 _ _ _ _ (fill32_pair _ _ _ _) => apply (store_filled32 2)
    | |- filled32 _ _ _ _ (fill32_xmms ?k _ _ _ _) => apply (fill32_xmms_filled k)
    end; [ solve [auto using words_are_pair, words_are_xmm] | lia | assumption ] | ].

Lemma memset32_sse_run_spec m s color n :
  is_u32 color -> 0 <= n < 2 ^ 61 ->
  exists m', memset32_sse_run m s color n = Some m' /\ filled32 m s color n m'.
Proof.
  intros Hc Hn. assert (filled32 m s color 0 m) by (split; [lia|done]).
  unfold memset32_sse_run. rewrite pair_pattern by done.
  do 4 fill32_phase m s color. eexists. split; [done|].
  match goal with
  | H : room 2 n ?i = false |- _ =>
      assert (~ i + 2 <= n) by (rewrite <- (room_spec 2 n i) by lia; congruence);
      destruct (Z.ltb_spec i n); [replace n with (i + Z.of_nat 1) by lia | by replace n with i by lia]
  end.
  apply (store_filled32 1); [by apply words_are_one|lia|done].
Qed.

(** [memset32_sse] terminates and writes exactly [n] pixels of [color]. *)
Theorem memset32_sse_correct m s color n :
  is_u32 color -> 0 <= n < 2 ^ 61 ->
  exists m', memset32_sse_run m s color n = Some m' /\ filled32 m s color n m'.
Proof. apply memset32_sse_run_spec. Qed.

Lemma memset32_sse_correct_witness :
  exists m', memset32_sse_run ∅ 8192 0xFF1A2228 31 = Some m' /\ filled32 ∅ 8192 0xFF1A2228 31 m'.
Proof. apply (memset32_sse_correct ∅ 8192 0xFF1A2228 31); [by unfold is_u32|lia]. Defined.

(** ** Comparing *)
Definition memcmp_step (m : mem) (s1 s2 n i : Z) : Z + Z :=
  if i <? n then
    if negb (get8 m (s1 + i) =? get8 m (s2 + i))
    then inr (if get8 m (s1 + i) <? get8 m (s2 + i) then -1 else 1)
    else inl (i + 1)
  else inr 0.
Definition memcmp_run (m : mem) (s1 s2 n : Z) : option Z :=
  loop (S (Z.to_nat n)) (memcmp_step m s1 s2 n) 0.

(** [pcmpeqb] then [pmovmskb]: bit [j] is set when the [j]-th bytes agree. *)
Definition cmp_mask (m : mem) (a b : Z) : Z :=
  for_loop 16 0 (fun j acc =>
    if get8 m (a + j) =? get8 m (b + j) then Z.lor acc (Z.shiftl 1 j) else acc) 0.

Definition memcmp_sse_step (m : mem) (s1 s2 n i : Z) : Z + Z :=
  if room 16 n i then
    if negb (cmp_mask m (s1 + i) (s2 + i) =? 0xFFFF) then inr i else inl (i + 16)
  else inr i.
Definition memcmp_sse_run (m : mem) (s1 s2 n : Z) : option Z :=
  i ← loop (S (Z.to_nat n)) (memcmp_sse_step m s1 s2 n) 0;
  loop (S (Z.to_nat n)) (memcmp_step m s1 s2 n) i.

(** The reference meaning: the order of the first bytes that differ. *)
Definition cmp_bytes (m : mem) (s1 s2 n : Z) : Z :=
  match scan (Z.to_nat n) 0 (fun i => negb (get8 m (s1 + i) =? get8 m (s2 + i))) with
  | None => 0
  | Some i => if get8 m (s1 + i) <? get8 m (s2 + i) then -1 else 1
  end.

Definition agree (m : mem) (s1 s2 n : Z) : Prop :=
  forall j, 0 <= j < n -> get8 m (s1 + j) = get8 m (s2 + j).

Lemma cmp_mask_full m a b : cmp_mask m a b = 0xFFFF -> agree m a b 16.
Proof.
  intros H j Hj.
  assert (Hb : forall k, 0 <= k -> Z.testbit (cmp_mask m a b) k =
    (k <? 16) && (get8 m (a + k) =? get8 m (b + k))).
  { apply (for_loop_inv0 (fun i acc => forall k, 0 <= k -> Z.testbit acc k =
      (k <? i) && (get8 m (a + k) =? get8 m (b + k))) _ 16 0).
    - intros k Hk. rewrite Z.bits_0. by rewrite (proj2 (Z.ltb_ge _ _)) by lia.
    - intros i acc Hi IH k Hk. destruct (decide (k = i)) as [->|].
      + rewrite (proj2 (Z.ltb_lt i (i + 1))) by lia. simpl.
        destruct (_ =? _) eqn:E; [|by rewrite IH, E, andb_false_r by lia].
        rewrite Z.lor_spec, Z.shiftl_spec, Z.sub_diag by lia. apply orb_true_r.
      + replace (k <? i + 1) with (k <? i) by (destruct (Z.ltb_spec k i), (Z.ltb_spec k (i + 1)); lia).
        rewrite <- IH by done. destruct (get8 m (a + i) =? _); [|done].
        rewrite Z.lor_spec, Z.shiftl_1_l, Z.pow2_bits_false by lia. apply orb_false_r. }
  specialize (Hb j ltac:(lia)). rewrite H, (proj2 (Z.ltb_lt j 16)) in Hb by lia. simpl in Hb.
  apply Z.eqb_eq. rewrite <- Hb.
  assert (Forall (fun k => Z.testbit 65535 (Z.of_nat k) = true) (seq 0 16)) as HF
    by (repeat constructor).
  rewrite Forall_forall in HF. specialize (HF (Z.to_nat j)).
  rewrite Z2Nat.id in HF by lia. apply HF, elem_of_seq. lia.
Qed.

Lemma memcmp_from m s1 s2 n i :
  0 <= i <= n -> agree m s1 s2 i ->
  loop (S (Z.to_nat n)) (memcmp_step m s1 s2 n) i = Some (cmp_bytes m s1 s2 n).
Proof.
  intros Hi Ha.
  destruct (loop_total (memcmp_step m s1 s2 n)
    (fun i => 0 <= i <= n /\ agree m s1 s2 i) (fun r => r = cmp_bytes m s1 s2 n)
    (fun i => Z.to_nat (n - i))) with (fuel := S (Z.to_nat n)) (s := i) as (r & -> & ->);
    [| |done|lia|done]; unfold memcmp_step.
  - intros j j' [Hj Haj] E. destruct (Z.ltb_spec j n); [|done].
    destruct (Z.eqb_spec (get8 m (s1 + j)) (get8 m (s2 + j))); [|done].
    injection E as <-. split; [|lia]. split; [lia|].
    intros k Hk. destruct (decide (k = j)) as [->|]; [done|]. apply Haj. lia.
  - intros j r [Hj Haj] E. unfold cmp_bytes. destruct (Z.ltb_spec j n).
    + destruct (Z.eqb_spec (get8 m (s1 + j)) (get8 m (s2 + j))) as [|Hne]; [done|].
      injection E as <-.
      rewrite (proj2 (scan_Some _ 0 _ j)); [done|].
      split_and!; [lia|lia|by rewrite (proj2 (Z.eqb_neq _ _) Hne)|].
      intros k Hk. by rewrite (Haj k), Z.eqb_refl by lia.
    + injection E as <-. rewrite (proj2 (scan_None _ 0 _)); [done|].
      intros k Hk. by rewrite (Haj k), Z.eqb_refl by lia.
Qed.

(** [memcmp] always returns, with the sign of the first differing bytes (0 when
    the [n] bytes agree), and the SSE variant, which skips equal 16-byte blocks by
    comparing the [pmovmskb] mask with 0xFFFF, returns the same value. *)
Theorem memcmp_sse_equiv m s1 s2 n :
  0 <= n < 2 ^ 63 ->
  memcmp_run m s1 s2 n = Some (cmp_bytes m s1 s2 n) /\
  memcmp_sse_run m s1 s2 n = memcmp_run m s1 s2 n.
Proof.
  intros Hn. assert (E : memcmp_run m s1 s2 n = Some (cmp_bytes m s1 s2 n)).
  { apply memcmp_from; [lia|]. intros j Hj. lia. }
  split; [done|]. rewrite E. unfold memcmp_sse_run.
  destruct (loop_total (memcmp_sse_step m s1 s2 n)
    (fun i => 0 <= i <= n /\ agree m s1 s2 i) (fun i => 0 <= i <= n /\ agree m s1 s2 i)
    (fun i => Z.to_nat (n - i))) with (fuel := S (Z.to_nat n)) (s := 0) as (i & -> & Hi & Ha);
    [| |split; [lia|intros ? ?; lia]|lia|simpl; by apply memcmp_from]; unfold memcmp_sse_step.
  - intros i i' [Hi Ha] Es. destruct (room 16 n i) eqn:Er; [|done].
    apply room_spec in Er; [|lia|lia|lia].
    destruct (Z.eqb_spec (cmp_mask m (s1 + i) (s2 + i)) 0xFFFF) as [Hm|]; [|done].
    injection Es as <-. split; [|lia]. split; [lia|]. apply cmp_mask_full in Hm.
    intros k Hk. destruct (decide (k < i)); [apply Ha; lia|].
    specialize (Hm (k - i) ltac:(lia)).
    by replace (s1 + i + (k - i)) with (s1 + k) in Hm by lia;
       replace (s2 + i + (k - i)) with (s2 + k) in Hm by lia.
  - intros i r [Hi Ha] Es. destruct (room 16 n i); [|by injection Es as <-].
    destruct (negb _); [by injection Es as <-|done].
Qed.

Lemma memcmp_sse_equiv_witness :
  memcmp_run (<[120 := 3]> ∅) 100 200 40 = Some 1 /\
  memcmp_sse_run (<[120 := 3]> ∅) 100 200 40 = memcmp_run (<[120 := 3]> ∅) 100 200 40.
Proof.
  split; [vm_compute; reflexivity|].
  apply (memcmp_sse_equiv (<[120 := 3]> ∅) 100 200 40). lia.
Defined.
