(* ===== verification/CString.v ===== *)
(** NUL-terminated strings, the [str*] routines of [src/src/string.c].

    A [char *] is an address; [cstr m p l] says that the bytes from [p] on are
    the non-zero characters [l] followed by the terminator.  The loops take
    fuel: each theorem states that fuel above the string's length is enough. *)
From S2P Require Import Prelude Machine StringLib.

(** ** The routines *)
Definition strlen_step (m : mem) (st : Z * Z) : (Z * Z) + Z :=
  let '(s, size) := st in
  if negb (get8 m s =? 0) then inl (s + 1, u64 (size + 1)) else inr size.
Definition strlen (fuel : nat) (m : mem) (s : Z) : option Z := loop fuel (strlen_step m) (s, 0).

(** [char] equality is byte equality; the result is the difference of the bytes. *)
Definition strcmp_step (m : mem) (st : Z * Z) : (Z * Z) + Z :=
  let '(s1, s2) := st in
  if negb (get8 m s1 =? 0) && (get8 m s1 =? get8 m s2) then inl (s1 + 1, s2 + 1)
  else inr (get8 m s1 - get8 m s2).
Definition strcmp (fuel : nat) (m : mem) (s1 s2 : Z) : option Z :=
  loop fuel (strcmp_step m) (s1, s2).

Definition strncmp_step (m : mem) (st : Z * Z * Z) : (Z * Z * Z) + Z :=
  let '(s1, s2, n) := st in
  if (0 <? n) && negb (get8 m s1 =? 0) && (get8 m s1 =? get8 m s2)
  then inl (s1 + 1, s2 + 1, n - 1)
  else inr (if n =? 0 then 0 else get8 m s1 - get8 m s2).
Definition strncmp (fuel : nat) (m : mem) (s1 s2 n : Z) : option Z :=
  loop fuel (strncmp_step m) (s1, s2, n).

(** The copy loop of [strcpy]: each byte is written, then tested. *)
Definition strcpy_step (st : Z * Z * mem) : (Z * Z * mem) + mem :=
  let '(d, s, m) := st in
  let m' := put8 m d (get8 m s) in
  if negb (get8 m s =? 0) then inl (d + 1, s + 1, m') else inr m'.
Definition strcpy (fuel : nat) (m : mem) (dest src : Z) : option mem :=
  loop fuel strcpy_step (dest, src, m).

(** The [for] loop of [strncpy]: the source pointer stops at the terminator. *)
Definition strncpy_body (i : Z) (st : Z * Z * mem) : Z * Z * mem :=
  let '(d, s, m) := st in
  if negb (get8 m s =? 0) then (d + 1, s + 1, put8 m d (get8 m s))
  else (d + 1, s, put8 m d 0).
Definition strncpy (m : mem) (dest src n : Z) : mem :=
  (for_loop (Z.to_nat n) 0 strncpy_body (dest, src, m)).2.

Definition seek_end_step (m : mem) (d : Z) : Z + Z :=
  if negb (get8 m d =? 0) then inl (d + 1) else inr d.
Definition strcat (fuel : nat) (m : mem) (dest src : Z) : option mem :=
  d ← loop fuel (seek_end_step m) dest;
  loop fuel strcpy_step (d, src, m).

(** NULL is [None] inside the result. *)
Definition strchr_step (m : mem) (c : Z) (h : Z) : Z + option Z :=
  if negb (get8 m h =? 0) then
    if get8 m h =? c then inr (Some h) else inl (h + 1)
  else inr (if c =? 0 then Some h else None).
Definition strchr (fuel : nat) (m : mem) (haystack needle : Z) : option (option Z) :=
  loop fuel (strchr_step m needle) haystack.

Definition match_step (m : mem) (st : Z * Z) : (Z * Z) + Z :=
  let '(h, n) := st in
  if negb (get8 m h =? 0) && (get8 m h =? get8 m n) then inl (h + 1, n + 1) else inr n.
Fixpoint strstr (fuel : nat) (m : mem) (haystack needle : Z) : option (option Z) :=
  match fuel with
  | O => None
  | S f =>
      if negb (get8 m haystack =? 0) then
        n ← loop (S f) (match_step m) (haystack, needle);
        if get8 m n =? 0 then Some (Some haystack) else strstr f m (haystack + 1) needle
      else Some None
  end.

(** ** Strings in memory *)
Fixpoint cstr (m : mem) (p : Z) (l : list Z) : Prop :=
  match l with
  | [] => get8 m p = 0
  | c :: l => c <> 0 /\ get8 m p = c /\ cstr m (p + 1) l
  end.

Lemma cstr_lookup m p l i :
  cstr m p l -> 0 <= i < Z.of_nat (length l) ->
  l !! Z.to_nat i = Some (get8 m (p + i)) /\ get8 m (p + i) <> 0.
Proof.
  revert p i. induction l as [|c l IH]; intros p i H Hi; simpl in *; [lia|].
  destruct H as (Hc & Hp & Hl). destruct (decide (i = 0)) as [->|].
  - rewrite Z.add_0_r. simpl. by subst.
  - destruct (IH (p + 1) (i - 1) Hl) as [H1 H2]; [lia|].
    replace (p + 1 + (i - 1)) with (p + i) in H1, H2 by lia.
    replace (Z.to_nat i) with (S (Z.to_nat (i - 1))) by lia. done.
Qed.

Lemma cstr_end m p l : cstr m p l -> get8 m (p + Z.of_nat (length l)) = 0.
Proof.
  revert p. induction l as [|c l IH]; intros p H; simpl in *.
  - by rewrite Z.add_0_r.
  - destruct H as (_ & _ & H). rewrite <- (IH _ H). f_equal. lia.
Qed.

Lemma cstr_ext m m' p q l :
  (forall i, 0 <= i <= Z.of_nat (length l) -> get8 m' (q + i) = get8 m (p + i)) ->
  cstr m p l -> cstr m' q l.
Proof.
  revert p q. induction l as [|c l IH]; intros p q H; simpl.
  - specialize (H 0). rewrite !Z.add_0_r in H. intros <-. apply H. simpl. lia.
  - intros (Hc & Hp & Hl). split_and!; [done| |].
    + specialize (H 0). rewrite !Z.add_0_r in H. rewrite <- Hp. apply H. simpl. lia.
    + apply (IH (p + 1)); [|done]. intros i Hi.
      replace (q + 1 + i) with (q + (i + 1)) by lia.
      replace (p + 1 + i) with (p + (i + 1)) by lia. apply H. simpl. lia.
Qed.

(** The string determines its characters. *)
Lemma cstr_inj m p l l' : cstr m p l -> cstr m p l' -> l = l'.
Proof.
  revert p l'. induction l as [|c l IH]; intros p [|c' l'] H H'; simpl in *;
    try (intuition congruence).
  destruct H as (? & ? & ?), H' as (? & ? & ?). f_equal; [congruence | eauto].
Qed.

Lemma cstr_range m p l : cstr m p l -> Forall (fun c => 0 < c < 256) l.
Proof.
  revert p. induction l as [|c l IH]; intros p H; [constructor|].
  destruct H as (Hc & Hp & Hl). constructor; [|eauto].
  pose proof (get8_range m p). lia.
Qed.

(** ** Results *)
Lemma strlen_spec fuel m s l :
  cstr m s l -> (length l < fuel)%nat -> Z.of_nat (length l) < 2 ^ 64 ->
  strlen fuel m s = Some (Z.of_nat (length l)).
Proof.
  intros Hs Hf Hb. unfold strlen.
  assert (forall n k, n + Z.of_nat (length k) < 2 ^ 64 -> 0 <= n ->
    forall f p, cstr m p k -> (length k < f)%nat ->
    loop f (strlen_step m) (p, n) = Some (n + Z.of_nat (length k))) as H.
  { intros n k. revert n. induction k as [|c k IH]; intros n Hn H0 f p Hp Hk;
      (destruct f as [|f]; [simpl in *; lia|]); simpl in *.
    - rewrite Hp. simpl. f_equal. lia.
    - destruct Hp as (Hc & -> & Hp). rewrite (proj2 (Z.eqb_neq _ _) Hc). simpl.
      rewrite u64_small by lia. rewrite IH; [f_equal; lia|lia|lia|done|lia]. }
  rewrite H with (k := l); [done|lia|lia|done|done].
Qed.

(** The reference order: the difference at the first position where they differ. *)
Fixpoint cmp_chars (l1 l2 : list Z) : Z :=
  match l1, l2 with
  | [], [] => 0
  | [], c :: _ => - c
  | c :: _, [] => c
  | c1 :: l1, c2 :: l2 => if c1 =? c2 then cmp_chars l1 l2 else c1 - c2
  end.

Lemma strcmp_spec fuel m s1 s2 l1 l2 :
  cstr m s1 l1 -> cstr m s2 l2 -> (length l1 < fuel)%nat ->
  strcmp fuel m s1 s2 = Some (cmp_chars l1 l2).
Proof.
  unfold strcmp. revert fuel s1 s2 l2.
  induction l1 as [|c1 l1 IH]; intros [|f] s1 s2 [|c2 l2] H1 H2 Hf; simpl in *; try lia.
  - rewrite H1, H2. done.
  - destruct H2 as (? & -> & ?). rewrite H1. simpl. f_equal.
  - destruct H1 as (Hc & -> & ?). rewrite H2, (proj2 (Z.eqb_neq _ _) Hc). simpl.
    by rewrite Z.sub_0_r.
  - destruct H1 as (Hc1 & -> & H1), H2 as (Hc2 & -> & H2).
    rewrite (proj2 (Z.eqb_neq _ _) Hc1). simpl.
    destruct (c1 =? c2); [|done]. apply IH; (done || lia).
Qed.

Lemma cmp_chars_0 l1 l2 :
  Forall (fun c => 0 < c) l1 -> Forall (fun c => 0 < c) l2 ->
  cmp_chars l1 l2 = 0 <-> l1 = l2.
Proof.
  revert l2. induction l1 as [|c1 l1 IH]; intros [|c2 l2] H1 H2; simpl.
  - done.
  - apply Forall_cons in H2 as [? _]. split; [lia|done].
  - apply Forall_cons in H1 as [? _]. split; [lia|done].
  - apply Forall_cons in H1 as [? ?], H2 as [? ?].
    destruct (Z.eqb_spec c1 c2) as [->|]; [rewrite IH by done; split; [by intros -> | by intros [=]]|].
    split; [lia|congruence].
Qed.

Lemma strncmp_spec fuel m s1 s2 n l1 l2 :
  cstr m s1 l1 -> cstr m s2 l2 -> 0 <= n -> (length l1 < fuel)%nat ->
  strncmp fuel m s1 s2 n = Some (cmp_chars (take (Z.to_nat n) l1) (take (Z.to_nat n) l2)).
Proof.
  unfold strncmp. revert fuel s1 s2 l2 n.
  induction l1 as [|c1 l1 IH]; intros [|f] s1 s2 l2 n H1 H2 Hn Hf; try (simpl in *; lia).
  all: destruct (decide (n = 0)) as [->|Hn0]; [done|].
  all: replace (Z.to_nat n) with (S (Z.to_nat (n - 1))) by lia.
  all: destruct l2 as [|c2 l2]; simpl in *; rewrite (proj2 (Z.ltb_lt 0 n)) by lia;
       rewrite (proj2 (Z.eqb_neq n 0)) by lia.
  - by rewrite H1, H2.
  - destruct H2 as (? & -> & ?). by rewrite H1.
  - destruct H1 as (Hc & -> & ?). rewrite H2, (proj2 (Z.eqb_neq _ _) Hc). simpl.
    by rewrite Z.sub_0_r.
  - destruct H1 as (Hc1 & -> & H1), H2 as (Hc2 & -> & H2).
    rewrite (proj2 (Z.eqb_neq _ _) Hc1). simpl.
    destruct (c1 =? c2); [|done]. apply IH; (done || lia).
Qed.

Lemma put8_copied m0 dest src n i m :
  forward_ok dest src n -> 0 <= i -> i + 1 <= n -> copied m0 dest src i m ->
  copied m0 dest src (i + 1) (put8 m (dest + i) (get8 m (src + i))).
Proof.
  intros Hov Hi Hn. apply (copied_extend 1 m0 dest src n); try done.
  - intros j Hj. replace j with 0 by lia. rewrite !Z.add_0_r, get8_put8_eq.
    apply u8_small, get8_range.
  - intros b Hb. apply get8_put8_ne. lia.
Qed.

(** A byte of the source that the copy has not reached is still the old one. *)
Lemma copied_src m0 dest src n i m j :
  forward_ok dest src n -> copied m0 dest src i m -> 0 <= i <= n -> i <= j < n ->
  get8 m (src + j) = get8 m0 (src + j).
Proof.
  intros Hov Hc Hi Hj. rewrite Hc. unfold forward_ok in Hov.
  by rewrite bool_decide_eq_false_2 by lia.
Qed.

Lemma strcpy_copied fuel m dest src l :
  cstr m src l -> forward_ok dest src (Z.of_nat (length l) + 1) -> (length l < fuel)%nat ->
  exists m', strcpy fuel m dest src = Some m' /\
    copied m dest src (Z.of_nat (length l) + 1) m'.
Proof.
  intros Hs Hov Hf. unfold strcpy. set (n := Z.of_nat (length l)) in *.
  apply (loop_total strcpy_step
    (fun '(d, s, m') => 0 <= d - dest <= n /\ s - src = d - dest /\ copied m dest src (d - dest) m')
    (copied m dest src (n + 1)) (fun '(d, s, m') => Z.to_nat (n - (d - dest)))).
  - intros [[d s] m1] [[d' s'] m2] (Hd & Hds & Hc) E. unfold strcpy_step in E.
    destruct (Z.eqb_spec (get8 m1 s) 0) as [|Hnz]; [done|]. injection E as <- <- <-.
    assert (d - dest < n).
    { destruct (decide (d - dest = n)) as [e|]; [|lia]. destruct Hnz.
      replace s with (src + n) by lia.
      rewrite (copied_src m dest src (n + 1) (d - dest)) by (done || lia).
      by apply cstr_end. }
    split; [|lia]. split_and!; [lia|lia|lia|].
    replace (d + 1 - dest) with (d - dest + 1) by lia.
    replace d with (dest + (d - dest)) at 2 by lia. replace s with (src + (d - dest)) by lia.
    apply (put8_copied m dest src (n + 1)); (done || lia).
  - intros [[d s] m1] m2 (Hd & Hds & Hc) E. unfold strcpy_step in E.
    destruct (Z.eqb_spec (get8 m1 s) 0) as [Hz|]; [|done]. injection E as <-.
    assert (d - dest = n) as Hdn.
    { destruct (decide (d - dest = n)); [done|]. exfalso.
      destruct (cstr_lookup m src l (d - dest) Hs) as [_ Hne]; [lia|]. apply Hne.
      rewrite <- (copied_src m dest src (n + 1) (d - dest) m1) by (done || lia).
      by replace (src + (d - dest)) with s by lia. }
    rewrite Hdn in Hc. replace d with (dest + n) by lia. replace s with (src + n) by lia.
    apply (put8_copied m dest src (n + 1)); (done || lia).
  - split_and!; [lia|lia|lia|]. rewrite Z.sub_diag. apply copied_nil.
  - lia.
Qed.

Lemma copied_cstr m dest src l m' :
  cstr m src l -> copied m dest src (Z.of_nat (length l) + 1) m' -> cstr m' dest l.
Proof.
  intros Hs Hc. apply (cstr_ext m m' src dest l); [|done].
  intros i Hi. rewrite Hc, bool_decide_eq_true_2 by lia. f_equal. lia.
Qed.

Lemma seek_end_spec fuel m p l :
  cstr m p l -> (length l < fuel)%nat ->
  loop fuel (seek_end_step m) p = Some (p + Z.of_nat (length l)).
Proof.
  revert fuel p. induction l as [|c l IH]; intros [|f] p H Hf; simpl in *; try lia.
  - unfold seek_end_step. rewrite H. simpl. f_equal. lia.
  - destruct H as (Hc & Hp & Hl). unfold seek_end_step at 1.
    rewrite Hp, (proj2 (Z.eqb_neq _ _) Hc). simpl. rewrite IH by (done || lia). f_equal. lia.
Qed.

(** The concatenation of a prefix and a string that starts where it ends. *)
Lemma cstr_app m p l1 l2 :
  (forall i, 0 <= i < Z.of_nat (length l1) -> l1 !! Z.to_nat i = Some (get8 m (p + i)) /\ get8 m (p + i) <> 0) ->
  cstr m (p + Z.of_nat (length l1)) l2 -> cstr m p (l1 ++ l2).
Proof.
  revert p. induction l1 as [|c l1 IH]; intros p H1 H2; simpl in *.
  - by rewrite Z.add_0_r in H2.
  - destruct (H1 0 ltac:(lia)) as [Hc Hnz]. rewrite Z.add_0_r in Hc, Hnz. simpl in Hc.
    injection Hc as ->. split_and!; [done|done|]. apply IH.
    + intros i Hi. destruct (H1 (i + 1) ltac:(lia)) as [Ha Hb].
      replace (Z.to_nat (i + 1)) with (S (Z.to_nat i)) in Ha by lia.
      by replace (p + 1 + i) with (p + (i + 1)) by lia.
    + by replace (p + 1 + Z.of_nat (length l1)) with (p + Z.of_nat (S (length l1))) by lia.
Qed.

(** [strcpy] and [strcat] on NUL-terminated strings in buffers that do not
    overlap terminate; the destination then holds the source string, respectively
    the concatenation, and nothing outside the written bytes changes. *)
Theorem strcpy_strcat_correct fuel m dest src ld ls :
  cstr m dest ld -> cstr m src ls ->
  (src + Z.of_nat (length ls) + 1 <= dest \/
   dest + Z.of_nat (length ld) + Z.of_nat (length ls) + 1 <= src) ->
  (length ld < fuel)%nat -> (length ls < fuel)%nat ->
  (exists m', strcpy fuel m dest src = Some m' /\ cstr m' dest ls /\ cstr m' src ls /\
     forall a, a < dest \/ dest + Z.of_nat (length ls) + 1 <= a -> get8 m' a = get8 m a) /\
  (exists m', strcat fuel m dest src = Some m' /\ cstr m' dest (ld ++ ls) /\ cstr m' src ls /\
     forall a, a < dest + Z.of_nat (length ld) \/
       dest + Z.of_nat (length ld) + Z.of_nat (length ls) + 1 <= a -> get8 m' a = get8 m a).
Proof.
  intros Hd Hs Hov Hfd Hfs.
  assert (Hout : forall d m', copied m d src (Z.of_nat (length ls) + 1) m' ->
    forall a, a < d \/ d + Z.of_nat (length ls) + 1 <= a -> get8 m' a = get8 m a).
  { intros d m' Hc a Ha. rewrite Hc. by rewrite bool_decide_eq_false_2 by lia. }
  split.
  - destruct (strcpy_copied fuel m dest src ls) as (m' & E & Hc); [done|unfold forward_ok; lia|done|].
    exists m'. split_and!; [done|by eapply copied_cstr| |by apply Hout].
    apply (cstr_ext m m' src src); [|done]. intros i Hi. apply (Hout dest m' Hc). lia.
  - unfold strcat. rewrite (seek_end_spec fuel m dest ld) by done. simpl.
    set (d := dest + Z.of_nat (length ld)).
    destruct (strcpy_copied fuel m d src ls) as (m' & E & Hc); [done|unfold forward_ok; lia|done|].
    exists m'. split_and!; [done| | |].
    + apply cstr_app; [|by eapply copied_cstr]. intros i Hi.
      rewrite (Hout d m' Hc) by lia. by apply cstr_lookup.
    + apply (cstr_ext m m' src src); [|done]. intros i Hi. apply (Hout d m' Hc). lia.
    + intros a Ha. by apply (Hout d m' Hc).
Qed.

(** [write_str m p l]: memory holding the string [l] at [p] (for examples). *)
Definition write_str (m : mem) (p : Z) (l : list Z) : mem :=
  put8 (for_loop (length l) 0 (fun i m => put8 m (p + i) (default 0 (l !! Z.to_nat i))) m)
    (p + Z.of_nat (length l)) 0.

Lemma strcpy_strcat_correct_witness :
  let m := write_str (write_str ∅ 100 [47; 98]) 200 [105; 110] in
  (exists m', strcpy 10 m 100 200 = Some m' /\ cstr m' 100 [105; 110] /\ cstr m' 200 [105; 110] /\
     forall a, a < 100 \/ 100 + 2 + 1 <= a -> get8 m' a = get8 m a) /\
  (exists m', strcat 10 m 100 200 = Some m' /\ cstr m' 100 [47; 98; 105; 110] /\ cstr m' 200 [105; 110] /\
     forall a, a < 100 + 2 \/ 100 + 2 + 2 + 1 <= a -> get8 m' a = get8 m a).
Proof.
  apply (strcpy_strcat_correct 10 _ 100 200 [47; 98] [105; 110]);
    [vm_compute; intuition discriminate | vm_compute; intuition discriminate
    | simpl; lia | simpl; lia | simpl; lia].
Defined.

(** *** [strncpy] pads with zeros *)
Lemma strncpy_spec m dest src n l :
  cstr m src l -> 0 <= n ->
  (src + Z.of_nat (length l) + 1 <= dest \/ dest + n <= src) ->
  forall a, get8 (strncpy m dest src n) a =
    if bool_decide (dest <= a < dest + n) then default 0 (l !! Z.to_nat (a - dest))
    else get8 m a.
Proof.
  intros Hs Hn Hov. unfold strncpy.
  set (upto := fun (i : Z) (m' : mem) => forall a, get8 m' a =
    if bool_decide (dest <= a < dest + i) then default 0 (l !! Z.to_nat (a - dest))
    else get8 m a).
  set (I := fun (i : Z) (st : Z * Z * mem) => let '(d, s, m') := st in
    d = dest + i /\ s = src + Z.min i (Z.of_nat (length l)) /\ upto i m').
  assert (HI : I (Z.of_nat (Z.to_nat n))
            (for_loop (Z.to_nat n) 0 strncpy_body (dest, src, m))).
  { apply for_loop_inv0.
    - split_and!; [lia|lia|]. intros a. by case_bool_decide; [lia|].
    - intros i [[d s] m'] Hi (-> & -> & Hu). unfold strncpy_body.
      set (k := Z.min i (Z.of_nat (length l))).
      assert (Hsrc : get8 m' (src + k) = get8 m (src + k)).
      { rewrite Hu. by rewrite bool_decide_eq_false_2 by lia. }
      assert (Hval : get8 m (src + k) = default 0 (l !! Z.to_nat i)).
      { destruct (decide (i < Z.of_nat (length l))).
        - replace k with i by lia. by destruct (cstr_lookup m src l i Hs ltac:(lia)) as [-> _].
        - replace k with (Z.of_nat (length l)) by lia. rewrite (cstr_end m src l Hs).
          by rewrite lookup_ge_None_2 by lia. }
      assert (Hnz : get8 m (src + k) = 0 <-> Z.of_nat (length l) <= i).
      { split; intros H.
        - destruct (decide (i < Z.of_nat (length l))); [|lia].
          destruct (cstr_lookup m src l i Hs ltac:(lia)) as [_ []].
          by replace i with k by lia.
        - replace k with (Z.of_nat (length l)) by lia. by apply cstr_end. }
      assert (Hup : forall v, v = default 0 (l !! Z.to_nat i) -> 0 <= v < 2 ^ 8 ->
                upto (i + 1) (put8 m' (dest + i) v)).
      { intros v Hv Hr a. rewrite get8_put8, Hu, u8_small by done.
        case_bool_decide; [subst; rewrite bool_decide_eq_true_2 by lia; do 3 f_equal; lia|].
        do 2 case_bool_decide; (done || lia). }
      rewrite Hsrc. destruct (Z.eqb_spec (get8 m (src + k)) 0) as [Hz|Hz]; simpl.
      + split_and!; [lia|lia|]. apply Hup; [congruence|lia].
      + split_and!; [lia| |].
        * assert (i < Z.of_nat (length l)) by (rewrite Hnz in Hz; lia). lia.
        * apply Hup; [done|apply get8_range]. }
  destruct (for_loop _ _ _ _) as [[d s] m']. rewrite Z2Nat.id in HI by lia.
  apply HI.
Qed.

(** *** Searching *)
Fixpoint index_of (c : Z) (l : list Z) : option Z :=
  match l with
  | [] => None
  | x :: l => if x =? c then Some 0 else Z.succ <$> index_of c l
  end.

Lemma strchr_spec fuel m p c l :
  cstr m p l -> (length l < fuel)%nat ->
  strchr fuel m p c = Some (if c =? 0 then Some (p + Z.of_nat (length l))
                            else Z.add p <$> index_of c l).
Proof.
  unfold strchr. revert fuel p. induction l as [|x l IH]; intros [|f] p H Hf; simpl in *; try lia.
  - unfold strchr_step. rewrite H. simpl. rewrite Z.add_0_r. by destruct (c =? 0).
  - destruct H as (Hx & Hp & Hl). unfold strchr_step at 1.
    rewrite Hp, (proj2 (Z.eqb_neq _ _) Hx). simpl.
    destruct (Z.eqb_spec x c) as [->|].
    + rewrite (proj2 (Z.eqb_neq _ _) Hx). simpl. by rewrite Z.add_0_r.
    + rewrite IH by (done || lia). f_equal. destruct (c =? 0); [f_equal; lia|].
      destruct (index_of c l); simpl; [f_equal; lia|done].
Qed.

(** [match_step] stops at the end of the needle exactly when it is a prefix. *)
Lemma match_spec fuel m h n lh ln :
  cstr m h lh -> cstr m n ln -> (length lh < fuel)%nat ->
  exists q, loop fuel (match_step m) (h, n) = Some q /\
    (get8 m q =? 0) = bool_decide (ln `prefix_of` lh).
Proof.
  revert fuel h n ln. induction lh as [|c lh IH]; intros [|f] h n ln Hh Hn Hf; simpl in *; try lia.
  - rewrite Hh. simpl. eexists. split; [done|].
    destruct ln as [|x ln]; simpl in Hn; [by rewrite Hn|].
    destruct Hn as (Hx & -> & _). rewrite (proj2 (Z.eqb_neq _ _) Hx).
    rewrite bool_decide_eq_false_2; [done|]. apply prefix_nil_not.
  - destruct Hh as (Hc & Hp & Hh). rewrite Hp, (proj2 (Z.eqb_neq _ _) Hc). simpl.
    destruct ln as [|x ln]; simpl in Hn.
    + rewrite Hn, (proj2 (Z.eqb_neq _ _) Hc). eexists. split; [done|]. rewrite Hn.
      symmetry. apply bool_decide_eq_true_2, prefix_nil.
    + destruct Hn as (Hx & Hq & Hn). rewrite Hq. destruct (Z.eqb_spec c x) as [->|].
      * destruct (IH f (h + 1) (n + 1) ln Hh Hn ltac:(lia)) as (q & -> & E).
        eexists. split; [done|]. rewrite E. apply bool_decide_ext.
        split; [apply prefix_cons | apply prefix_cons_inv_2].
      * eexists. split; [done|]. rewrite Hq, (proj2 (Z.eqb_neq _ _) Hx).
        symmetry. apply bool_decide_eq_false_2. intros E%prefix_cons_inv_1. congruence.
Qed.

Fixpoint find_sub (lh ln : list Z) : option Z :=
  match lh with
  | [] => None
  | c :: lh' => if bool_decide (ln `prefix_of` lh) then Some 0 else Z.succ <$> find_sub lh' ln
  end.

Lemma strstr_spec fuel m h n lh ln :
  cstr m h lh -> cstr m n ln -> (length lh < fuel)%nat ->
  strstr fuel m h n = Some (Z.add h <$> find_sub lh ln).
Proof.
  revert fuel h. induction lh as [|c lh IH]; intros [|f] h Hh Hn Hf; try (simpl in *; lia).
  - simpl in *. by rewrite Hh.
  - pose proof Hh as (Hc & Hp & Hh'). cbn [strstr].
    rewrite Hp, (proj2 (Z.eqb_neq _ _) Hc). cbn [negb].
    destruct (match_spec (S f) m h n (c :: lh) ln Hh Hn ltac:(simpl in *; lia)) as (q & -> & E).
    cbn [mbind option_bind]. rewrite E. cbn [find_sub]. case_bool_decide.
    + simpl. by rewrite Z.add_0_r.
    + rewrite IH by (done || simpl in *; lia). destruct (find_sub lh ln); simpl; [|done].
      do 2 f_equal. lia.
Qed.

Lemma find_sub_Some lh ln i :
  find_sub lh ln = Some i ->
  0 <= i < Z.of_nat (length lh) /\ ln `prefix_of` drop (Z.to_nat i) lh /\
  (forall j, 0 <= j < i -> ~ ln `prefix_of` drop (Z.to_nat j) lh).
Proof.
  revert i. induction lh as [|c lh IH]; intros i H; cbn [find_sub] in H; [done|].
  case_bool_decide as Hp.
  - injection H as <-. simpl. split_and!; [lia|lia|done|]. intros. lia.
  - destruct (find_sub lh ln) as [k|]; [|done]. injection H as <-.
    destruct (IH k eq_refl) as (Hk & Hpre & Hmin). simpl length.
    split_and!; [lia|lia| |].
    + by replace (Z.to_nat (Z.succ k)) with (S (Z.to_nat k)) by lia.
    + intros j Hj. destruct (decide (j = 0)) as [->|]; [done|].
      replace (Z.to_nat j) with (S (Z.to_nat (j - 1))) by lia. apply Hmin. lia.
Qed.

Lemma find_sub_None lh ln j :
  find_sub lh ln = None -> 0 <= j < Z.of_nat (length lh) -> ~ ln `prefix_of` drop (Z.to_nat j) lh.
Proof.
  revert j. induction lh as [|c lh IH]; intros j H Hj; cbn [find_sub] in H; [simpl in *; lia|].
  case_bool_decide as Hp; [done|]. destruct (decide (j = 0)) as [->|]; [done|].
  destruct (find_sub lh ln); [done|].
  replace (Z.to_nat j) with (S (Z.to_nat (j - 1))) by lia. apply IH; [done|simpl in *; lia].
Qed.

(** [strcmp] returns 0 exactly for equal strings, and [strstr] returns the first
    position of a non-empty haystack where the needle occurs, NULL when there is
    none; both terminate with fuel above the first string's length. *)
Theorem strcmp_strstr_correct fuel m s1 s2 l1 l2 :
  cstr m s1 l1 -> cstr m s2 l2 -> (length l1 < fuel)%nat ->
  (exists r, strcmp fuel m s1 s2 = Some r /\ (r = 0 <-> l1 = l2)) /\
  (exists r, strstr fuel m s1 s2 = Some r /\
     match r with
     | Some p => exists i, p = s1 + i /\ 0 <= i < Z.of_nat (length l1) /\
         l2 `prefix_of` drop (Z.to_nat i) l1 /\
         (forall j, 0 <= j < i -> ~ l2 `prefix_of` drop (Z.to_nat j) l1)
     | None => forall j, 0 <= j < Z.of_nat (length l1) -> ~ l2 `prefix_of` drop (Z.to_nat j) l1
     end).
Proof.
  intros H1 H2 Hf. split.
  - eexists. split; [by apply strcmp_spec|].
    apply cmp_chars_0; eapply Forall_impl; eauto using cstr_range; simpl; lia.
  - eexists. split; [by apply strstr_spec|].
    destruct (find_sub l1 l2) as [i|] eqn:E; simpl.
    + exists i. split; [done|]. by apply find_sub_Some.
    + intros j. by apply find_sub_None.
Qed.

Lemma strcmp_strstr_correct_witness :
  let m := write_str (write_str ∅ 100 [47; 98; 105]) 200 [98; 105] in
  strstr 10 m 100 200 = Some (Some 101) /\
  exists r, strcmp 10 m 100 200 = Some r /\ (r = 0 <-> [47; 98; 105] = [98; 105]).
Proof.
  split; [vm_compute; reflexivity|].
  apply (strcmp_strstr_correct 10 _ 100 200 [47; 98; 105] [98; 105]);
    [vm_compute; intuition discriminate | vm_compute; intuition discriminate | simpl; lia].
Defined.
