(* ===== verification/RingBuf.v ===== *)
(** Ring buffers: [src/src/utils/ring_buf.h] (bytes of the keyboard and the
    pipes) and [src/src/event/event.h] (events of the tasks and the desktop).

    Both headers have the same code over a different element type: 256 slots,
    an 8-bit [head] (next write) and [tail] (next read); a push that would make
    them equal drops the oldest element.  The specification is a queue of
    capacity 255; the refinement theorem relates every operation to it. *)
From S2P Require Import Prelude.

Definition RING_BUF_SIZE : Z := 0x100.
Definition EVENT_QUEUE_SIZE : Z := 0x100.

(** ** The code *)
Section Ring.
Context {A : Type}.

Record ring := Ring { slots : list A; head : Z; tail : Z }.

Definition ring_push (size : Z) (r : ring) (x : A) : ring :=
  let slots' := <[Z.to_nat (head r) := x]> (slots r) in
  let head' := u8 ((head r + 1) mod size) in
  let tail' := if head' =? tail r then u8 ((tail r + 1) mod size) else tail r in
  Ring slots' head' tail'.

(** [0] is [None]; [1] with the value read is [Some]. *)
Definition ring_pop (size : Z) (r : ring) : option A * ring :=
  if head r =? tail r then (None, r)
  else (slots r !! Z.to_nat (tail r), Ring (slots r) (head r) (u8 ((tail r + 1) mod size))).

Definition ring_is_full (size : Z) (r : ring) : bool := (head r + 1) mod size =? tail r.
Definition ring_is_empty (r : ring) : bool := head r =? tail r.
End Ring.
Arguments ring : clear implicits.

(** *** Byte buffers *)
Abbreviation RingBuf := (ring Z).
Definition rb_init : RingBuf := Ring (replicate 256 0) 0 0.
Definition rb_push (rb : RingBuf) (c : Z) : RingBuf := ring_push RING_BUF_SIZE rb c.
Definition rb_pop (rb : RingBuf) : option Z * RingBuf := ring_pop RING_BUF_SIZE rb.
Definition rb_is_full (rb : RingBuf) : bool := ring_is_full RING_BUF_SIZE rb.
Definition rb_is_empty (rb : RingBuf) : bool := ring_is_empty rb.

(** *** Event queues *)
Inductive EventType := EMPTY | EVENT_KEY_PRESSED | MOUSE_CLICK | EVENT_WIN_RESIZE.
(** The anonymous union of [struct Event]: the member last written. *)
Inductive event_union :=
  | ev_key (key : Z)
  | ev_mouse (x y buttons : Z)
  | ev_resize (win_owner_pid : Z).
Record Event := mkEvent { ev_type : EventType; ev_modifiers : Z; ev_data : event_union }.

Definition MOD_CTRL : Z := 1.
Definition MOD_ALT : Z := 2.
Definition MOD_SHIFT : Z := 4.

Abbreviation EventBuf := (ring Event).
(** Clears the tags; the payloads stay. *)
Definition event_queue_init (q : EventBuf) : EventBuf :=
  Ring ((fun e => mkEvent EMPTY 0 (ev_data e)) <$> slots q) 0 0.
Definition event_queue_push (q : EventBuf) (e : Event) : EventBuf :=
  ring_push EVENT_QUEUE_SIZE q e.
Definition event_queue_pop (q : EventBuf) : option Event * EventBuf :=
  ring_pop EVENT_QUEUE_SIZE q.

(** ** Specification: a queue that keeps the newest 255 elements *)
Module queue_spec.
Definition capacity : nat := 255.
Definition push {A} (q : list A) (x : A) : list A :=
  if (length q <? capacity)%nat then q ++ [x] else List.tl q ++ [x].
Definition pop {A} (q : list A) : option A * list A :=
  match q with
  | [] => (None, [])
  | x :: q => (Some x, q)
  end.
End queue_spec.

(** ** Invariant and abstraction *)
Section Refinement.
Context {A : Type}.
Implicit Types (r : ring A) (x : A).

Definition ring_wf r : Prop :=
  length (slots r) = 256%nat /\ 0 <= head r < 256 /\ 0 <= tail r < 256.

Definition ring_count r : nat := Z.to_nat ((head r - tail r) mod 256).

(** The [i]-th oldest element. *)
Definition ring_nth r (i : nat) : option A :=
  slots r !! Z.to_nat ((tail r + Z.of_nat i) mod 256).

Definition ring_list r : list A := omap (ring_nth r) (seq 0 (ring_count r)).

Lemma ring_nth_Some r i : ring_wf r -> is_Some (ring_nth r i).
Proof.
  intros (Hl & _ & _). apply lookup_lt_is_Some. rewrite Hl.
  pose proof (Z.mod_pos_bound (tail r + Z.of_nat i) 256 ltac:(lia)). lia.
Qed.

Lemma omap_seq_total {B} (f : nat -> option B) k n :
  (forall i, is_Some (f i)) ->
  length (omap f (seq k n)) = n /\
  forall i, (i < n)%nat -> omap f (seq k n) !! i = f (k + i)%nat.
Proof.
  intros Hf. revert k. induction n as [|n IH]; intros k; [split; [done|lia]|].
  destruct (IH (S k)) as [Hlen Hlk]. destruct (Hf k) as [y Hy]. simpl. rewrite Hy.
  split; [simpl; f_equal; apply Hlen|]. intros [|i] Hi; simpl.
  - by rewrite Nat.add_0_r.
  - etrans; [apply Hlk; lia|]. f_equal. lia.
Qed.

Lemma ring_list_length r : ring_wf r -> length (ring_list r) = ring_count r.
Proof. intros H. apply omap_seq_total. intros. by apply ring_nth_Some. Qed.

Lemma ring_list_lookup r i :
  ring_wf r -> (i < ring_count r)%nat -> ring_list r !! i = ring_nth r i.
Proof.
  intros H Hi. unfold ring_list. by apply omap_seq_total; [intros; apply ring_nth_Some|].
Qed.

(** A list is the ring's contents when it has its length and its elements. *)
Lemma ring_list_ext r l :
  ring_wf r -> length l = ring_count r ->
  (forall i, (i < ring_count r)%nat -> l !! i = ring_nth r i) -> ring_list r = l.
Proof.
  intros H Hlen Hl. apply list_eq_same_length with (length l); [done| |].
  { by rewrite ring_list_length. }
  intros i y z Hi. rewrite ring_list_lookup, Hl by (done || lia). congruence.
Qed.

Lemma ring_count_lt r : (ring_count r < 256)%nat.
Proof. unfold ring_count. pose proof (Z.mod_pos_bound (head r - tail r) 256 ltac:(lia)). lia. Qed.

Lemma ring_empty_iff r : ring_wf r -> ring_is_empty r = true <-> ring_list r = [].
Proof.
  intros H. pose proof H as (_ & ? & ?). rewrite <- length_zero_iff_nil, ring_list_length by done.
  unfold ring_is_empty, ring_count. rewrite Z.eqb_eq. split.
  - intros ->. by rewrite Z.sub_diag.
  - intros E. Z.div_mod_to_equations. lia.
Qed.

Lemma ring_full_iff r :
  ring_wf r -> ring_is_full 256 r = true <-> length (ring_list r) = queue_spec.capacity.
Proof.
  intros H. pose proof H as (_ & ? & ?). rewrite ring_list_length by done.
  unfold ring_is_full, ring_count, queue_spec.capacity. rewrite Z.eqb_eq.
  Z.div_mod_to_equations. lia.
Qed.

Lemma ring_push_wf r x : ring_wf r -> ring_wf (ring_push 256 r x).
Proof.
  intros (Hl & Hh & Ht). unfold ring_push. split_and!; simpl.
  - by rewrite length_insert.
  - apply u8_range.
  - apply u8_range.
  - case_match; [apply u8_range|lia].
  - case_match; [apply u8_range|lia].
Qed.

Lemma ring_pop_wf r : ring_wf r -> ring_wf (ring_pop 256 r).2.
Proof.
  intros (Hl & Hh & Ht). unfold ring_pop. case_match; simpl; [done|].
  split_and!; simpl; [done|lia|lia|apply u8_range|apply u8_range].
Qed.

(** Slot indices of two positions of the ring are distinct. *)
Lemma ring_index_inj t i j :
  0 <= i < 256 -> 0 <= j < 256 -> (t + i) mod 256 = (t + j) mod 256 -> i = j.
Proof. intros. Z.div_mod_to_equations. lia. Qed.

(** The position just after the newest element is the head. *)
Lemma ring_head_pos r :
  ring_wf r -> head r = (tail r + Z.of_nat (ring_count r)) mod 256.
Proof. intros (_ & ? & ?). unfold ring_count. Z.div_mod_to_equations. lia. Qed.

Lemma ring_push_nth r x t i :
  ring_wf r -> 0 <= t < 256 ->
  <[Z.to_nat (head r) := x]> (slots r) !! Z.to_nat ((t + Z.of_nat i) mod 256) =
    if decide ((t + Z.of_nat i) mod 256 = head r) then Some x
    else slots r !! Z.to_nat ((t + Z.of_nat i) mod 256).
Proof.
  intros (Hs & Hh & _) Ht. pose proof (Z.mod_pos_bound (t + Z.of_nat i) 256 ltac:(lia)).
  case_decide as E; [rewrite E; apply list_lookup_insert_eq; lia|].
  apply list_lookup_insert_ne. lia.
Qed.

Lemma ring_list_push_room r x :
  ring_wf r -> (ring_count r < queue_spec.capacity)%nat ->
  ring_list (ring_push 256 r x) = ring_list r ++ [x].
Proof.
  intros H Hlt. pose proof (ring_push_wf r x H) as H'. pose proof H as (Hs & Hh & Ht).
  pose proof (ring_list_length r H) as Hlen. pose proof (ring_head_pos r H) as Hhead.
  unfold queue_spec.capacity in *. set (c := ring_count r) in *.
  assert (E : (u8 ((head r + 1) mod 256) =? tail r) = false).
  { apply Z.eqb_neq. unfold u8. unfold c, ring_count in *. Z.div_mod_to_equations. lia. }
  assert (Hc' : ring_count (ring_push 256 r x) = S c).
  { unfold ring_count, ring_push. simpl. rewrite E. unfold u8, c, ring_count in *.
    Z.div_mod_to_equations. lia. }
  apply ring_list_ext; [done|rewrite Hc', length_app; simpl; lia|].
  intros i Hi. rewrite Hc' in Hi. unfold ring_nth, ring_push. simpl. rewrite E.
  rewrite ring_push_nth by done. case_decide as Ei.
  - assert (i = c) as -> by (rewrite Hhead in Ei; apply ring_index_inj in Ei; lia).
    rewrite lookup_app_r by lia. by rewrite Hlen, Nat.sub_diag.
  - assert (i <> c) by (intros ->; congruence).
    rewrite lookup_app_l by lia. by rewrite ring_list_lookup by (done || lia).
Qed.

Lemma ring_list_push_full r x :
  ring_wf r -> ring_count r = queue_spec.capacity ->
  ring_list (ring_push 256 r x) = List.tl (ring_list r) ++ [x].
Proof.
  intros H Hc. pose proof (ring_push_wf r x H) as H'. pose proof H as (Hs & Hh & Ht).
  pose proof (ring_list_length r H) as Hlen. pose proof (ring_head_pos r H) as Hhead.
  unfold queue_spec.capacity in *. rewrite Hc in Hlen, Hhead.
  assert (E : (u8 ((head r + 1) mod 256) =? tail r) = true).
  { apply Z.eqb_eq. unfold u8. rewrite Hhead. Z.div_mod_to_equations. lia. }
  assert (Htail : u8 ((tail r + 1) mod 256) = (tail r + 1) mod 256).
  { apply u8_small, Z.mod_pos_bound. lia. }
  assert (Hc' : ring_count (ring_push 256 r x) = 255%nat).
  { unfold ring_count, ring_push. simpl. rewrite E, Htail. apply Z.eqb_eq in E. rewrite E.
    Z.div_mod_to_equations. lia. }
  apply ring_list_ext; [done|rewrite Hc', length_app, List.length_tl; simpl; lia|].
  intros i Hi. rewrite Hc' in Hi. unfold ring_nth, ring_push. simpl. rewrite E, Htail.
  rewrite ring_push_nth by (done || pose proof (Z.mod_pos_bound (tail r + 1) 256); lia).
  rewrite Zplus_mod_idemp_l, <- Z.add_assoc.
  replace (1 + Z.of_nat i) with (Z.of_nat (S i)) by lia. case_decide as Ei.
  - assert (i = 254%nat) as -> by (rewrite Hhead in Ei; apply ring_index_inj in Ei; lia).
    rewrite lookup_app_r by (rewrite List.length_tl; lia). by rewrite List.length_tl, Hlen.
  - assert (i <> 254%nat) by (intros ->; by rewrite Hhead in Ei).
    rewrite lookup_app_l by (rewrite List.length_tl; lia).
    rewrite lookup_tail. by rewrite ring_list_lookup by (done || lia).
Qed.

Lemma ring_list_push r x :
  ring_wf r -> ring_list (ring_push 256 r x) = queue_spec.push (ring_list r) x.
Proof.
  intros H. unfold queue_spec.push. rewrite ring_list_length by done.
  pose proof (ring_count_lt r). unfold queue_spec.capacity.
  destruct (Nat.ltb_spec (ring_count r) 255);
    [by apply ring_list_push_room | apply ring_list_push_full; [done|unfold queue_spec.capacity; lia]].
Qed.

Lemma ring_list_pop r :
  ring_wf r ->
  (ring_pop 256 r).1 = (queue_spec.pop (ring_list r)).1 /\
  ring_list (ring_pop 256 r).2 = (queue_spec.pop (ring_list r)).2.
Proof.
  intros H. pose proof (ring_pop_wf r H) as H'. pose proof H as (Hs & Hh & Ht).
  pose proof (ring_empty_iff r H) as He. pose proof (ring_list_length r H) as Hlen.
  unfold ring_pop, ring_is_empty in *.
  destruct (head r =? tail r) eqn:E; simpl in *.
  - by rewrite (proj1 He eq_refl).
  - destruct (ring_list r) as [|y q] eqn:El; [destruct He as [_ He]; discriminate (He eq_refl)|].
    simpl in *. split.
    + assert (Hy : ring_list r !! 0%nat = Some y) by by rewrite El.
      rewrite ring_list_lookup in Hy by (done || lia).
      unfold ring_nth in Hy. rewrite Z.add_0_r, Z.mod_small in Hy by lia. done.
    + set (r' := Ring (slots r) (head r) (u8 ((tail r + 1) mod 256))) in *.
      assert (Htail : tail r' = (tail r + 1) mod 256).
      { simpl. apply u8_small, Z.mod_pos_bound. lia. }
      assert (Hc' : ring_count r' = length q).
      { assert (head r' = head r) as Hh' by done. apply Z.eqb_neq in E.
        unfold ring_count in *. rewrite Htail, Hh'. Z.div_mod_to_equations. lia. }
      apply ring_list_ext; [done|done|]. intros i Hi.
      assert (Hq : ring_list r !! S i = q !! i) by by rewrite El.
      rewrite <- Hq, ring_list_lookup by (done || lia). unfold ring_nth. rewrite Htail.
      rewrite Zplus_mod_idemp_l. unfold r'. simpl. do 3 f_equal. lia.
Qed.
End Refinement.

(** ** The two instances *)
Lemma rb_init_wf : ring_wf rb_init /\ ring_list rb_init = [].
Proof. by vm_compute. Qed.

Lemma event_queue_init_wf (q : EventBuf) :
  length (slots q) = 256%nat -> ring_wf (event_queue_init q) /\ ring_list (event_queue_init q) = [].
Proof. intros H. split; [|done]. split; [simpl; by rewrite length_fmap|done]. Qed.

(** C15: the ring buffer refines a queue that keeps its newest 255 bytes: from a
    well-formed buffer, [rb_push] appends (dropping the oldest byte exactly when
    255 are held), [rb_pop] returns the oldest byte or reports empty, the two tests
    are exact, and every operation keeps the buffer well formed. *)
Theorem rb_refines (rb : RingBuf) c :
  ring_wf rb ->
  ring_wf (rb_push rb c) /\
  ring_list (rb_push rb c) = queue_spec.push (ring_list rb) c /\
  ring_wf (rb_pop rb).2 /\
  (rb_pop rb).1 = (queue_spec.pop (ring_list rb)).1 /\
  ring_list (rb_pop rb).2 = (queue_spec.pop (ring_list rb)).2 /\
  (rb_is_full rb = true <-> length (ring_list rb) = queue_spec.capacity) /\
  (rb_is_empty rb = true <-> ring_list rb = []).
Proof.
  intros H. split_and!.
  - by apply ring_push_wf.
  - by apply ring_list_push.
  - by apply ring_pop_wf.
  - by apply ring_list_pop.
  - by apply ring_list_pop.
  - by apply ring_full_iff.
  - by apply ring_empty_iff.
Qed.

Lemma rb_refines_witness :
  let rb := rb_push (rb_push rb_init 65) 66 in
  ring_list rb = [65; 66] /\ (rb_pop rb).1 = Some 65 /\
  ring_list (rb_push rb 67) = queue_spec.push [65; 66] 67.
Proof.
  split; [vm_compute; reflexivity|]. split; [vm_compute; reflexivity|].
  apply (rb_refines (rb_push (rb_push rb_init 65) 66) 67).
  by vm_compute.
Defined.
