(* ===== verification/Pmm.v ===== *)
(** The physical memory manager, [src/src/mem/pmm.c].

    One bit per 4 KiB frame (1 = used) and one 32-bit reference count per
    frame, both in the byte memory where [pmm_init] puts them: the counts start
    at [bitmap + bitmap_size].  [pstate] is the file's static variables and
    that memory.  The spinlock serialises the operations, so each is one atomic
    step here. *)
From S2P Require Import Prelude Machine StringLib.

Definition PAGE_SIZE : Z := 0x1000.
Definition LIMINE_MEMMAP_USABLE : Z := 0.

(** [struct limine_memmap_entry] as the bootloader passes it. *)
Record memmap_entry := MemmapEntry { me_base : Z; me_length : Z; me_type : Z }.

Record pstate := PState {
  pmem : mem;
  hhdm_offset : Z;
  bitmap : Z;
  ref_counts : Z;
  highest_addr : Z;
  bitmap_size : Z;
  bitmap_page_count : Z;
  total_pages : Z;
  last_free_page : Z;
  ref_counts_size : Z;
  ref_counts_page_count : Z
}.

Definition set_mem (p : pstate) (m : mem) : pstate :=
  PState m (hhdm_offset p) (bitmap p) (ref_counts p) (highest_addr p) (bitmap_size p)
    (bitmap_page_count p) (total_pages p) (last_free_page p) (ref_counts_size p)
    (ref_counts_page_count p).
Definition set_last_free (p : pstate) (i : Z) : pstate :=
  PState (pmem p) (hhdm_offset p) (bitmap p) (ref_counts p) (highest_addr p) (bitmap_size p)
    (bitmap_page_count p) (total_pages p) i (ref_counts_size p) (ref_counts_page_count p).

(** [vmm.h]: the higher-half direct map. *)
Definition vmm_phys_to_hhdm (p : pstate) (phys : Z) : Z := Z.lor phys (hhdm_offset p).
Definition vmm_hhdm_to_phys (p : pstate) (virt : Z) : Z :=
  Z.land virt (u64 (Z.lnot (hhdm_offset p))).

(** ** The bitmap and the counts *)
Definition bitmap_set (p : pstate) (bit : Z) : pstate :=
  let a := bitmap p + bit / 8 in
  set_mem p (put8 (pmem p) a (Z.lor (get8 (pmem p) a) (Z.shiftl 1 (bit mod 8)))).

Definition bitmap_clear (p : pstate) (bit : Z) : pstate :=
  let a := bitmap p + bit / 8 in
  set_mem p (put8 (pmem p) a (Z.land (get8 (pmem p) a) (Z.lnot (Z.shiftl 1 (bit mod 8))))).

Definition bitmap_test (p : pstate) (bit : Z) : bool :=
  negb (Z.land (get8 (pmem p) (bitmap p + bit / 8)) (Z.shiftl 1 (bit mod 8)) =? 0).

Definition get_ref (p : pstate) (i : Z) : Z := load32 (pmem p) (ref_counts p + 4 * i).
Definition set_ref (p : pstate) (i v : Z) : pstate :=
  set_mem p (store32 (pmem p) (ref_counts p + 4 * i) v).

(** ** Allocation *)

(** The body of both search loops for the frame found. *)
Definition take_frame (p : pstate) (i : Z) : Z * pstate :=
  let p := bitmap_set p i in
  let p := set_ref p i 1 in
  let p := set_last_free p (i + 1) in
  (u64 (i * PAGE_SIZE), p).

Definition pmm_alloc_frame (p : pstate) : Z * pstate :=
  let free := fun i => negb (bitmap_test p i) in
  match scan (Z.to_nat (total_pages p - last_free_page p)) (last_free_page p) free with
  | Some i => take_frame p i
  | None =>
      match scan (Z.to_nat (last_free_page p)) 0 free with
      | Some i => take_frame p i
      | None => (0, p)
      end
  end.

Definition pmm_free_frame (p : pstate) (phys_addr : Z) : pstate :=
  if phys_addr <? 0x100000 then p
  else
    let bit := phys_addr / PAGE_SIZE in
    if total_pages p <=? bit then p
    else if bitmap_test p bit then
      let p := if 0 <? get_ref p bit then set_ref p bit (u32 (get_ref p bit - 1)) else p in
      if get_ref p bit =? 0 then
        let p := bitmap_clear p bit in
        if bit <? last_free_page p then set_last_free p bit else p
      else p
    else p.

Definition pmm_inc_ref (p : pstate) (frame_addr : Z) : pstate :=
  let idx := frame_addr / PAGE_SIZE in
  set_ref p idx (u32 (get_ref p idx + 1)).

Definition pmm_dec_ref (p : pstate) (frame_addr : Z) : pstate := pmm_free_frame p frame_addr.

Definition pmm_get_ref_count (p : pstate) (frame_addr : Z) : Z :=
  let idx := frame_addr / PAGE_SIZE in
  if idx <? total_pages p then get_ref p idx else 0.

(** [(total, used, free)]; every out pointer is given at the one call site. *)
Definition pmm_get_stats (p : pstate) : Z * Z * Z :=
  let used := for_loop (Z.to_nat (total_pages p)) 0
    (fun i used => if bitmap_test p i then u64 (used + 1) else used) 0 in
  (total_pages p, used, if used <=? total_pages p then total_pages p - used else 0).

(** ** Initialisation *)
Definition get_memory_size (memmap : list memmap_entry) : Z :=
  foldl (fun highest e =>
    if me_type e =? LIMINE_MEMMAP_USABLE then
      let top := u64 (me_base e + me_length e) in
      if highest <? top then top else highest
    else highest) 0 memmap.

(** The first usable entry that can hold the bitmap and the counts. *)
Definition fits (need : Z) (e : memmap_entry) : bool :=
  (me_type e =? LIMINE_MEMMAP_USABLE) && (need <=? me_length e).

Definition clear_entry (p : pstate) (e : memmap_entry) : pstate :=
  if me_type e =? LIMINE_MEMMAP_USABLE then
    for_loop (Z.to_nat (me_length e / PAGE_SIZE)) 0
      (fun j p => bitmap_clear p (me_base e / PAGE_SIZE + j)) p
  else p.

(** The second half of [pmm_init], once the tables have their place: all used,
    the usable regions free, the tables' own frames and the first MiB used. *)
Definition init_tables (p : pstate) (memmap : list memmap_entry) : pstate :=
  let p := set_mem p (for_loop (Z.to_nat (bitmap_size p)) 0
                        (fun i m => put8 m (bitmap p + i) 0xFF) (pmem p)) in
  let p := foldl clear_entry p memmap in
  let p := for_loop (Z.to_nat (bitmap_page_count p + ref_counts_page_count p)) 0
    (fun i p => bitmap_set p (vmm_hhdm_to_phys p (bitmap p) / PAGE_SIZE + i)) p in
  let p := for_loop (Z.to_nat (0x100000 / PAGE_SIZE)) 0 (fun i p => bitmap_set p i) p in
  set_mem p (memset (pmem p) (ref_counts p) 0 (ref_counts_size p)).

(** [None]: no entry fits, the kernel halts. *)
Definition pmm_init (m : mem) (hhdm : Z) (memmap : list memmap_entry) : option pstate :=
  let highest := get_memory_size memmap in
  let total := highest / PAGE_SIZE in
  let bsize := total / 8 in
  let bpages := (bsize + PAGE_SIZE - 1) / PAGE_SIZE in
  let rsize := total * 4 in
  let rpages := (rsize + PAGE_SIZE - 1) / PAGE_SIZE in
  match list_find (fits (bpages * PAGE_SIZE + rpages * PAGE_SIZE)) memmap with
  | None => None
  | Some (_, e) =>
      let bm := Z.lor (me_base e) hhdm in
      if bm =? 0 then None
      else Some (init_tables
        (PState m hhdm bm (bm + bsize) highest bsize bpages total 0 rsize rpages) memmap)
  end.

(** ** Layout invariant

    [total_pages] is a multiple of 8, so the bitmap's [total_pages / 8] bytes
    have a bit for every frame and the counts start right after the last one. *)
Record pmm_wf (p : pstate) : Prop := {
  wf_total : 0 <= total_pages p < 2 ^ 52;
  wf_mult8 : total_pages p mod 8 = 0;
  wf_bsize : bitmap_size p = total_pages p / 8;
  wf_refs : ref_counts p = bitmap p + bitmap_size p;
  wf_last : 0 <= last_free_page p <= total_pages p
}.

(** The bytes the manager keeps for itself. *)
Definition pmm_private (p : pstate) (a : Z) : Prop :=
  bitmap p <= a < ref_counts p + 4 * total_pages p.

(** Same variables: only the memory and the search hint may differ. *)
Definition same_layout (p q : pstate) : Prop :=
  hhdm_offset q = hhdm_offset p /\ bitmap q = bitmap p /\ ref_counts q = ref_counts p /\
  bitmap_size q = bitmap_size p /\ total_pages q = total_pages p.

#[export] Instance same_layout_preorder : PreOrder same_layout.
Proof. split; unfold same_layout; [by intros p | intros p q r; intuition congruence]. Qed.

#[local] Arguments store : simpl never.
#[local] Arguments load : simpl never.

Section BitmapLemmas.
Implicit Types (p : pstate) (i j : Z).

Lemma bitmap_test_bit p i : bitmap_test p i = Z.testbit (get8 (pmem p) (bitmap p + i / 8)) (i mod 8).
Proof.
  unfold bitmap_test. pose proof (Z.mod_pos_bound i 8 ltac:(lia)).
  by rewrite land_bit_eqb, negb_involutive by lia.
Qed.

Lemma bit_pos_eq i j : i / 8 = j / 8 -> (i mod 8 =? j mod 8) = (i =? j).
Proof.
  intros H. destruct (Z.eqb_spec (i mod 8) (j mod 8)), (Z.eqb_spec i j); try done;
    Z.div_mod_to_equations; lia.
Qed.

Lemma bitmap_test_set p i j :
  bitmap_test (bitmap_set p i) j = (i =? j) || bitmap_test p j.
Proof.
  rewrite !bitmap_test_bit. unfold bitmap_set. simpl. rewrite get8_put8.
  pose proof (Z.mod_pos_bound i 8 ltac:(lia)). pose proof (Z.mod_pos_bound j 8 ltac:(lia)).
  case_bool_decide as E.
  - assert (i / 8 = j / 8) as Eq by lia. rewrite testbit_u8, testbit_lor_bit by lia.
    rewrite bit_pos_eq by done. rewrite Eq. apply orb_comm.
  - by rewrite (proj2 (Z.eqb_neq i j)) by (intros ->; lia).
Qed.

Lemma bitmap_test_clear p i j :
  bitmap_test (bitmap_clear p i) j = negb (i =? j) && bitmap_test p j.
Proof.
  rewrite !bitmap_test_bit. unfold bitmap_clear. simpl. rewrite get8_put8.
  pose proof (Z.mod_pos_bound i 8 ltac:(lia)). pose proof (Z.mod_pos_bound j 8 ltac:(lia)).
  case_bool_decide as E.
  - assert (i / 8 = j / 8) as Eq by lia. rewrite testbit_u8, testbit_clear_bit by lia.
    rewrite bit_pos_eq by done. rewrite Eq. apply andb_comm.
  - by rewrite (proj2 (Z.eqb_neq i j)) by (intros ->; lia).
Qed.

(** A bit of the bitmap and a count never share a byte. *)
Lemma bit_below_refs p i : pmm_wf p -> 0 <= i < total_pages p ->
  bitmap p <= bitmap p + i / 8 < ref_counts p.
Proof. intros [? ? Hb Hr ?] Hi. rewrite Hr, Hb. Z.div_mod_to_equations. lia. Qed.

Lemma bitmap_test_set_ref p i v j : pmm_wf p -> 0 <= i -> 0 <= j < total_pages p ->
  bitmap_test (set_ref p i v) j = bitmap_test p j.
Proof.
  intros Hw Hi Hj. pose proof (bit_below_refs p j Hw Hj).
  rewrite !bitmap_test_bit. unfold set_ref, store32. simpl. f_equal. apply get8_store_out. lia.
Qed.

Lemma get_ref_bitmap_set p i j : pmm_wf p -> 0 <= i < total_pages p -> 0 <= j ->
  get_ref (bitmap_set p i) j = get_ref p j.
Proof.
  intros Hw Hi Hj. pose proof (bit_below_refs p i Hw Hi).
  unfold get_ref, bitmap_set, load32. simpl. apply load_put8_ne. lia.
Qed.

Lemma get_ref_bitmap_clear p i j : pmm_wf p -> 0 <= i < total_pages p -> 0 <= j ->
  get_ref (bitmap_clear p i) j = get_ref p j.
Proof.
  intros Hw Hi Hj. pose proof (bit_below_refs p i Hw Hi).
  unfold get_ref, bitmap_clear, load32. simpl. apply load_put8_ne. lia.
Qed.

Lemma get_ref_set_ref_eq p i v : is_u32 v -> get_ref (set_ref p i v) i = v.
Proof. apply load32_store32. Qed.

Lemma get_ref_set_ref_ne p i j v : i <> j -> get_ref (set_ref p i v) j = get_ref p j.
Proof. intros. unfold get_ref, set_ref, load32, store32. simpl. apply load_store_ne. lia. Qed.

Lemma get_ref_set_ref p i j v : is_u32 v ->
  get_ref (set_ref p i v) j = if i =? j then v else get_ref p j.
Proof.
  intros. destruct (Z.eqb_spec i j) as [->|];
    [by apply get_ref_set_ref_eq | by apply get_ref_set_ref_ne].
Qed.

Lemma get_ref_range p i : 0 <= get_ref p i < 2 ^ 32.
Proof. apply load32_range. Qed.

Lemma bitmap_set_wf p i : pmm_wf p -> pmm_wf (bitmap_set p i).
Proof. by intros []. Qed.
Lemma bitmap_clear_wf p i : pmm_wf p -> pmm_wf (bitmap_clear p i).
Proof. by intros []. Qed.
Lemma set_ref_wf p i v : pmm_wf p -> pmm_wf (set_ref p i v).
Proof. by intros []. Qed.
Lemma set_mem_wf p m : pmm_wf p -> pmm_wf (set_mem p m).
Proof. by intros []. Qed.

(** *** Memory outside the manager's bytes *)
Lemma bitmap_set_out p i a : pmm_wf p -> 0 <= i < total_pages p -> ~ pmm_private p a ->
  get8 (pmem (bitmap_set p i)) a = get8 (pmem p) a.
Proof.
  unfold pmm_private. intros Hw Hi Ha. pose proof (bit_below_refs p i Hw Hi).
  apply get8_put8_ne. lia.
Qed.
Lemma bitmap_clear_out p i a : pmm_wf p -> 0 <= i < total_pages p -> ~ pmm_private p a ->
  get8 (pmem (bitmap_clear p i)) a = get8 (pmem p) a.
Proof.
  unfold pmm_private. intros Hw Hi Ha. pose proof (bit_below_refs p i Hw Hi).
  apply get8_put8_ne. lia.
Qed.
Lemma set_ref_out p i v a : pmm_wf p -> 0 <= i < total_pages p -> ~ pmm_private p a ->
  get8 (pmem (set_ref p i v)) a = get8 (pmem p) a.
Proof.
  unfold pmm_private. intros Hw Hi Ha.
  pose proof (bit_below_refs p 0 Hw ltac:(lia)).
  apply get8_store_out. lia.
Qed.
End BitmapLemmas.

#[export] Hint Resolve bitmap_set_wf bitmap_clear_wf set_ref_wf set_mem_wf : kernel.

(** [q] is [p] with the entry of frame [i] replaced and nothing else changed:
    not another frame's bit or count, and no byte that is not the manager's. *)
Record frame_update (p q : pstate) (i : Z) (b : bool) (r : Z) : Prop := {
  fu_layout : same_layout p q;
  fu_wf : pmm_wf q;
  fu_used j : 0 <= j < total_pages p -> bitmap_test q j = if i =? j then b else bitmap_test p j;
  fu_ref j : 0 <= j < total_pages p -> get_ref q j = if i =? j then r else get_ref p j;
  fu_mem a : ~ pmm_private p a -> get8 (pmem q) a = get8 (pmem p) a
}.

Section Operations.
Implicit Types (p q : pstate) (i j a : Z).

Lemma frame_update_refl p i : pmm_wf p ->
  frame_update p p i (bitmap_test p i) (get_ref p i).
Proof.
  intros Hw. split; [done|done| | |done].
  - intros j _. by destruct (Z.eqb_spec i j) as [->|].
  - intros j _. by destruct (Z.eqb_spec i j) as [->|].
Qed.

Lemma bitmap_set_update p i : pmm_wf p -> 0 <= i < total_pages p ->
  frame_update p (bitmap_set p i) i true (get_ref p i).
Proof.
  intros Hw Hi. split; [done|by apply bitmap_set_wf| | |].
  - intros j _. rewrite bitmap_test_set. by destruct (i =? j).
  - intros j Hj. rewrite get_ref_bitmap_set by (done || lia).
    by destruct (Z.eqb_spec i j) as [->|].
  - intros a Ha. by apply bitmap_set_out.
Qed.

Lemma bitmap_clear_update p i : pmm_wf p -> 0 <= i < total_pages p ->
  frame_update p (bitmap_clear p i) i false (get_ref p i).
Proof.
  intros Hw Hi. split; [done|by apply bitmap_clear_wf| | |].
  - intros j _. rewrite bitmap_test_clear. by destruct (i =? j).
  - intros j Hj. rewrite get_ref_bitmap_clear by (done || lia).
    by destruct (Z.eqb_spec i j) as [->|].
  - intros a Ha. by apply bitmap_clear_out.
Qed.

Lemma set_ref_update p i v : pmm_wf p -> 0 <= i < total_pages p -> is_u32 v ->
  frame_update p (set_ref p i v) i (bitmap_test p i) v.
Proof.
  intros Hw Hi Hv. split; [done|by apply set_ref_wf| | |].
  - intros j Hj. rewrite bitmap_test_set_ref by (done || lia).
    by destruct (Z.eqb_spec i j) as [->|].
  - intros j Hj. by apply get_ref_set_ref.
  - intros a Ha. by apply set_ref_out.
Qed.

Lemma set_last_update p q i b r k : frame_update p q i b r -> 0 <= k <= total_pages p ->
  frame_update p (set_last_free q k) i b r.
Proof.
  intros [(?&?&?&?&Ht) [] ? ? ?] Hk. split; try done.
  split; simpl in *; try done. lia.
Qed.

Lemma frame_update_trans p q s i b r b' r' :
  frame_update p q i b r -> frame_update q s i b' r' -> frame_update p s i b' r'.
Proof.
  intros [L1 W1 U1 R1 M1] [L2 W2 U2 R2 M2].
  assert (total_pages q = total_pages p) as Et by apply L1.
  assert (forall a, pmm_private q a <-> pmm_private p a) as Ep.
  { intros a. destruct L1 as (?&Eb&Er&?&?). unfold pmm_private. by rewrite Eb, Er, Et. }
  split; [by etrans|done| | |].
  - intros j Hj. rewrite U2, U1 by lia. by destruct (i =? j).
  - intros j Hj. rewrite R2, R1 by lia. by destruct (i =? j).
  - intros a Ha. rewrite M2 by (intros H; by apply Ha, Ep). by apply M1.
Qed.

Lemma take_frame_spec p i : pmm_wf p -> 0 <= i < total_pages p ->
  fst (take_frame p i) = i * PAGE_SIZE /\ frame_update p (snd (take_frame p i)) i true 1.
Proof.
  intros Hw Hi. unfold take_frame. simpl. split.
  - apply u64_small. destruct Hw. unfold PAGE_SIZE. lia.
  - apply set_last_update; [|lia].
    eapply frame_update_trans; [by apply bitmap_set_update|].
    replace true with (bitmap_test (bitmap_set p i) i)
      by (by rewrite bitmap_test_set, Z.eqb_refl).
    apply set_ref_update; [by apply bitmap_set_wf|done|done].
Qed.

(** Both branches of the search: a frame below [total_pages] that was free,
    or every frame is used. *)
Lemma pmm_alloc_frame_spec p : pmm_wf p ->
  (exists i, 0 <= i < total_pages p /\ bitmap_test p i = false /\
     fst (pmm_alloc_frame p) = i * PAGE_SIZE /\
     frame_update p (snd (pmm_alloc_frame p)) i true 1) \/
  ((forall i, 0 <= i < total_pages p -> bitmap_test p i = true) /\ pmm_alloc_frame p = (0, p)).
Proof.
  intros Hw. pose proof (wf_last p Hw) as Hl. unfold pmm_alloc_frame.
  assert (forall i, 0 <= i < total_pages p -> negb (bitmap_test p i) = true ->
    exists i0, 0 <= i0 < total_pages p /\ bitmap_test p i0 = false /\
     fst (take_frame p i) = i0 * PAGE_SIZE /\
     frame_update p (snd (take_frame p i)) i0 true 1) as Htake.
  { intros i Hi Hf. exists i. apply negb_true_iff in Hf.
    destruct (take_frame_spec p i Hw Hi). eauto. }
  destruct (scan _ _ _) as [i|] eqn:E1.
  { left. apply scan_Some in E1 as ([? ?] & Hf & _). apply Htake; [lia|done]. }
  destruct (scan _ 0 _) as [i|] eqn:E2.
  { left. apply scan_Some in E2 as ([? ?] & Hf & _). apply Htake; [lia|done]. }
  right. split; [|done]. intros i Hi. rewrite scan_None in E1, E2.
  apply negb_false_iff. destruct (decide (last_free_page p <= i)); [apply E1|apply E2]; lia.
Qed.

(** The entry of frame [i] after one [pmm_free_frame] of its address: one
    reference less, and free when that was the last one. *)
Lemma pmm_free_frame_spec p addr : pmm_wf p -> 0x100000 <= addr -> addr / PAGE_SIZE < total_pages p ->
  let i := addr / PAGE_SIZE in
  let r := Z.max 0 (get_ref p i - 1) in
  bitmap_test p i = true ->
  frame_update p (pmm_free_frame p addr) i (negb (r =? 0)) r.
Proof.
  intros Hw Ha Hi i r Hu. change (addr / PAGE_SIZE) with i in Hi.
  assert (0 <= i) by (unfold i; apply Z.div_pos; unfold PAGE_SIZE; lia).
  pose proof (get_ref_range p i) as Hr.
  unfold pmm_free_frame. rewrite (proj2 (Z.ltb_ge _ _)) by lia. fold i.
  rewrite (proj2 (Z.leb_gt _ _)) by done. rewrite Hu.
  set (q := if 0 <? get_ref p i then _ else p).
  assert (frame_update p q i true r) as Hq.
  { unfold q. destruct (Z.ltb_spec 0 (get_ref p i)) as [Hlt|Hge].
    - rewrite <- Hu at 1. rewrite u32_small by lia.
      replace (get_ref p i - 1) with r by lia. apply set_ref_update; [done|done|].
      unfold is_u32. lia.
    - replace r with (get_ref p i) by lia. rewrite <- Hu. by apply frame_update_refl. }
  clearbody q. pose proof (fu_ref _ _ _ _ _ Hq i ltac:(lia)) as Hri.
  rewrite Z.eqb_refl in Hri. rewrite Hri.
  assert (total_pages q = total_pages p) as Et by apply Hq.
  destruct (Z.eqb_spec r 0) as [E0|]; simpl; [|done].
  assert (frame_update p (bitmap_clear q i) i false r) as Hc.
  { eapply frame_update_trans; [done|]. rewrite <- Hri.
    apply bitmap_clear_update; [apply Hq|lia]. }
  destruct (i <? _) eqn:El; [apply set_last_update; [done|lia]|done].
Qed.

(** Addresses the manager refuses: low memory, beyond the end, free frames. *)
Lemma pmm_free_frame_ignored p addr :
  addr < 0x100000 \/ total_pages p <= addr / PAGE_SIZE \/
    bitmap_test p (addr / PAGE_SIZE) = false ->
  pmm_free_frame p addr = p.
Proof.
  intros H. unfold pmm_free_frame.
  destruct (Z.ltb_spec addr 0x100000); [done|].
  destruct (Z.leb_spec (total_pages p) (addr / PAGE_SIZE)); [done|].
  destruct H as [?|[?|Hf]]; [lia|lia|]. by rewrite Hf.
Qed.

Lemma pmm_inc_ref_spec p addr : pmm_wf p ->
  let i := addr / PAGE_SIZE in
  0 <= i < total_pages p ->
  frame_update p (pmm_inc_ref p addr) i (bitmap_test p i) (u32 (get_ref p i + 1)).
Proof. intros Hw i Hi. apply set_ref_update; [done|done|]. apply u32_range. Qed.
End Operations.

(** ** Abstract specification: a table from allocated frames to their counts *)
Inductive pmm_op := OpAlloc | OpFree (addr : Z) | OpInc (addr : Z).

Abbreviation table := (gmap Z Z).

Inductive spec_step (n : Z) (t : table) : pmm_op -> Z -> table -> Prop :=
| SpecAlloc i : 0 <= i < n -> t !! i = None ->
    spec_step n t OpAlloc (i * PAGE_SIZE) (<[i := 1]> t)
| SpecAllocFull : (forall i, 0 <= i < n -> is_Some (t !! i)) ->
    spec_step n t OpAlloc 0 t
| SpecFreeLast addr r : 0x100000 <= addr -> t !! (addr / PAGE_SIZE) = Some r -> r <= 1 ->
    spec_step n t (OpFree addr) 0 (delete (addr / PAGE_SIZE) t)
| SpecFreeShared addr r : 0x100000 <= addr -> t !! (addr / PAGE_SIZE) = Some r -> 1 < r ->
    spec_step n t (OpFree addr) 0 (<[addr / PAGE_SIZE := r - 1]> t)
| SpecFreeIgnored addr : addr < 0x100000 \/ t !! (addr / PAGE_SIZE) = None ->
    spec_step n t (OpFree addr) 0 t
| SpecInc addr r : t !! (addr / PAGE_SIZE) = Some r -> r + 1 < 2 ^ 32 ->
    spec_step n t (OpInc addr) 0 (<[addr / PAGE_SIZE := r + 1]> t).

Inductive spec_steps (n : Z) : table -> list pmm_op -> list Z -> table -> Prop :=
| SpecNil t : spec_steps n t [] [] t
| SpecCons t op r t' ops rs t'' : spec_step n t op r t' -> spec_steps n t' ops rs t'' ->
    spec_steps n t (op :: ops) (r :: rs) t''.

Definition pmm_exec (p : pstate) (op : pmm_op) : Z * pstate :=
  match op with
  | OpAlloc => pmm_alloc_frame p
  | OpFree a => (0, pmm_free_frame p a)
  | OpInc a => (0, pmm_inc_ref p a)
  end.

(** What [pmm_inc_ref] relies on its callers for: it shares a frame that is
    allocated, and a count does not reach [2^32]. *)
Definition op_legal (p : pstate) (op : pmm_op) : bool :=
  match op with
  | OpInc a => (0 <=? a / PAGE_SIZE) && (a / PAGE_SIZE <? total_pages p) &&
      bitmap_test p (a / PAGE_SIZE) && (get_ref p (a / PAGE_SIZE) + 1 <? 2 ^ 32)
  | _ => true
  end.

Fixpoint pmm_run (p : pstate) (ops : list pmm_op) : option (list Z * pstate) :=
  match ops with
  | [] => Some ([], p)
  | op :: ops =>
      if op_legal p op then
        let '(r, q) := pmm_exec p op in
        match pmm_run q ops with Some (rs, s) => Some (r :: rs, s) | None => None end
      else None
  end.

(** The table a state stands for. *)
Definition pmm_abs (p : pstate) (t : table) : Prop :=
  forall i, t !! i =
    if (0 <=? i) && (i <? total_pages p) && bitmap_test p i then Some (get_ref p i) else None.

Section Refinement.
Implicit Types (p q : pstate) (t : table).

Lemma pmm_abs_in p t i : pmm_abs p t -> 0 <= i < total_pages p ->
  t !! i = if bitmap_test p i then Some (get_ref p i) else None.
Proof.
  intros Ha Hi. rewrite Ha. by rewrite (proj2 (Z.leb_le _ _)), (proj2 (Z.ltb_lt _ _)) by lia.
Qed.

Lemma pmm_abs_Some p t i r : pmm_abs p t -> t !! i = Some r ->
  0 <= i < total_pages p /\ bitmap_test p i = true /\ r = get_ref p i.
Proof.
  intros Ha Hi. rewrite Ha in Hi.
  destruct (Z.leb_spec 0 i), (Z.ltb_spec i (total_pages p)), (bitmap_test p i); simplify_eq/=.
  auto.
Qed.

(** A frame update is an update of the table. *)
Lemma pmm_abs_update p q t i b r : pmm_abs p t -> 0 <= i < total_pages p ->
  frame_update p q i b r ->
  pmm_abs q (if b then <[i := r]> t else delete i t).
Proof.
  intros Ha Hi [L _ U R _] j. assert (total_pages q = total_pages p) as -> by apply L.
  destruct (decide (0 <= j < total_pages p)) as [Hj|Hj].
  - rewrite (proj2 (Z.leb_le _ _)), (proj2 (Z.ltb_lt _ _)) by lia. simpl.
    rewrite U, R by done. destruct (Z.eqb_spec i j) as [->|].
    + destruct b; [by rewrite lookup_insert_eq | by rewrite lookup_delete_eq].
    + destruct b; [rewrite lookup_insert_ne by done|rewrite lookup_delete_ne by done];
        by apply pmm_abs_in.
  - rewrite (proj2 (andb_false_iff (0 <=? j) (j <? total_pages p)))
      by (destruct (Z.leb_spec 0 j), (Z.ltb_spec j (total_pages p)); lia || auto). simpl.
    destruct b; [rewrite lookup_insert_ne by lia|rewrite lookup_delete_ne by lia];
      destruct (t !! j) eqn:E; try done; destruct (pmm_abs_Some _ _ _ _ Ha E) as [? _]; lia.
Qed.

Lemma pmm_exec_step p t op : pmm_wf p -> pmm_abs p t -> op_legal p op = true ->
  let '(r, q) := pmm_exec p op in
  exists t', spec_step (total_pages p) t op r t' /\ pmm_abs q t' /\
    pmm_wf q /\ same_layout p q /\
    (forall a, ~ pmm_private p a -> get8 (pmem q) a = get8 (pmem p) a).
Proof.
  intros Hw Ha Hl. destruct op as [|addr|addr]; simpl in *.
  - destruct (pmm_alloc_frame_spec p Hw) as [(i & Hi & Hf & Hr & Hu)|[Hall ->]].
    + destruct (pmm_alloc_frame p) as [r q]. simpl in *. subst r.
      exists (<[i := 1]> t). split_and!; [|by apply (pmm_abs_update p q t i true 1)|apply Hu..].
      constructor; [done|]. by rewrite (pmm_abs_in p t), Hf.
    + exists t. split_and!; try done. constructor. intros i Hi.
      rewrite (pmm_abs_in p t), Hall by done. eauto.
  - destruct (decide (addr < 0x100000)).
    { rewrite pmm_free_frame_ignored by auto. exists t. split_and!; try done. constructor. auto. }
    destruct (t !! (addr / PAGE_SIZE)) as [r|] eqn:E.
    + pose proof (pmm_abs_Some _ _ _ _ Ha E) as (Hi & Hb & ->).
      pose proof (pmm_free_frame_spec p addr Hw ltac:(lia) ltac:(lia) Hb) as Hu.
      pose proof (get_ref_range p (addr / PAGE_SIZE)) as Hr.
      destruct (decide (get_ref p (addr / PAGE_SIZE) <= 1)).
      * rewrite (proj2 (Z.eqb_eq _ _)) in Hu by lia.
        exists (delete (addr / PAGE_SIZE) t). split_and!; [by econstructor; [lia|..]| |apply Hu..].
        by apply (pmm_abs_update _ _ _ _ _ _ Ha Hi Hu).
      * rewrite (proj2 (Z.eqb_neq _ _)) in Hu by lia. rewrite Z.max_r in Hu by lia.
        exists (<[addr / PAGE_SIZE := get_ref p (addr / PAGE_SIZE) - 1]> t).
        split_and!; [by econstructor; [lia|done|lia]| |apply Hu..].
        by apply (pmm_abs_update _ _ _ _ _ _ Ha Hi Hu).
    + exists t. assert (0 <= addr / PAGE_SIZE)
        by (apply Z.div_pos; unfold PAGE_SIZE; lia).
      rewrite pmm_free_frame_ignored.
      * split_and!; try done. constructor. auto.
      * rewrite Ha in E. destruct (Z.leb_spec 0 (addr / PAGE_SIZE)); [|lia].
        destruct (Z.ltb_spec (addr / PAGE_SIZE) (total_pages p)); [|auto].
        destruct (bitmap_test p _); [done|auto].
  - apply andb_true_iff in Hl as [[[? ?]%andb_true_iff Hb]%andb_true_iff Hr].
    assert (0 <= addr / PAGE_SIZE < total_pages p) as Hi by lia.
    pose proof (get_ref_range p (addr / PAGE_SIZE)).
    pose proof (pmm_inc_ref_spec p addr Hw Hi) as Hu. cbv zeta in Hu.
    rewrite u32_small, Hb in Hu by lia.
    exists (<[addr / PAGE_SIZE := get_ref p (addr / PAGE_SIZE) + 1]> t).
    split_and!; [|by apply (pmm_abs_update _ _ _ _ _ _ Ha Hi Hu)|apply Hu..].
    constructor; [by rewrite (pmm_abs_in p t), Hb by done | lia].
Qed.
End Refinement.

(** C3: Any sequence of frame allocations, frees and (legal) sharings behaves as
    on an abstract table of allocated frames and their reference counts:
    allocation returns a frame that no one holds, with count 1, and fails with 0
    only when every frame is held; a free drops one reference and releases the
    frame with the last one; low memory, foreign and already free frames are left
    alone.  No byte outside the bitmap and the counts is written. *)
Theorem pmm_refines (p q : pstate) (t : table) (ops : list pmm_op) (rs : list Z) :
  pmm_wf p -> pmm_abs p t -> pmm_run p ops = Some (rs, q) ->
  exists t', spec_steps (total_pages p) t ops rs t' /\ pmm_abs q t' /\ pmm_wf q /\
    same_layout p q /\ (forall a, ~ pmm_private p a -> get8 (pmem q) a = get8 (pmem p) a).
Proof.
  revert p t rs. induction ops as [|op ops IH]; intros p t rs Hw Ha Hr; simpl in Hr.
  { simplify_eq. exists t. split_and!; try done. constructor. }
  destruct (op_legal p op) eqn:Hl; [|done].
  pose proof (pmm_exec_step p t op Hw Ha Hl) as Hstep.
  destruct (pmm_exec p op) as [r p1]. destruct (pmm_run p1 ops) as [[rs' q']|] eqn:E; simplify_eq.
  destruct Hstep as (t1 & Hs & Ha1 & Hw1 & HL1 & Hm1).
  destruct (IH p1 t1 rs' Hw1 Ha1 E) as (t2 & Hs2 & Ha2 & Hw2 & HL2 & Hm2).
  destruct HL1 as (Eh & Eb & Er & Es & Et).
  exists t2. split_and!; [|done|done|by transitivity p1|].
  - econstructor; [done|]. by rewrite <- Et.
  - intros a Hp. rewrite Hm2; [by apply Hm1|]. unfold pmm_private. by rewrite Eb, Er, Et.
Qed.

(** A manager of 512 frames whose frames 0 to 255 are reserved. *)
Definition demo_pmm : pstate :=
  default (PState ∅ 0 0 0 0 0 0 0 0 0 0)
    (pmm_init ∅ 0x800000000000 [MemmapEntry 0x100000 0x100000 LIMINE_MEMMAP_USABLE]).

Lemma demo_pmm_wf : pmm_wf demo_pmm.
Proof. split; vm_compute; (done || (split; done)). Qed.

Definition pmm_table (p : pstate) : table :=
  for_loop (Z.to_nat (total_pages p)) 0
    (fun i t => if bitmap_test p i then <[i := get_ref p i]> t else t) ∅.

Lemma pmm_table_abs p : pmm_wf p -> pmm_abs p (pmm_table p).
Proof.
  intros Hw. pose proof (wf_total p Hw) as Ht. unfold pmm_table.
  assert (forall i, for_loop (Z.to_nat (total_pages p)) 0
    (fun i t => if bitmap_test p i then <[i := get_ref p i]> t else t) (∅ : table) !! i =
    if (0 <=? i) && (i <? Z.of_nat (Z.to_nat (total_pages p))) && bitmap_test p i
    then Some (get_ref p i) else None) as H; [|intros i; by rewrite H, Z2Nat.id by lia].
  set (P := fun (k : Z) (t : table) => forall i, t !! i =
    if (0 <=? i) && (i <? k) && bitmap_test p i then Some (get_ref p i) else None).
  apply (for_loop_inv0 P).
  - intros i. destruct (Z.leb_spec 0 i), (Z.ltb_spec i 0); (lia || done).
  - intros k t Hk HP i. destruct (decide (i = k)) as [->|Hne].
    + rewrite (proj2 (Z.leb_le _ _)), (proj2 (Z.ltb_lt _ _)) by lia. simpl.
      destruct (bitmap_test p k) eqn:E; [by rewrite lookup_insert_eq|]. rewrite HP.
      by rewrite E, andb_false_r.
    + replace (i <? k + 1) with (i <? k) by (destruct (Z.ltb_spec i k), (Z.ltb_spec i (k + 1)); lia).
      rewrite <- HP. destruct (bitmap_test p k); [by rewrite lookup_insert_ne|done].
Qed.

Definition demo_ops : list pmm_op :=
  [OpAlloc; OpAlloc; OpInc 0x102000; OpFree 0x102000; OpFree 0x102000; OpAlloc; OpFree 0x5000].

Lemma pmm_refines_witness :
  exists rs q t', pmm_run demo_pmm demo_ops = Some (rs, q) /\
    rs = [0x102000; 0x103000; 0; 0; 0; 0x102000; 0] /\
    spec_steps (total_pages demo_pmm) (pmm_table demo_pmm) demo_ops rs t' /\ pmm_abs q t'.
Proof.
  assert (fst <$> pmm_run demo_pmm demo_ops = Some [0x102000; 0x103000; 0; 0; 0; 0x102000; 0])
    as Hv by (vm_compute; reflexivity).
  destruct (pmm_run demo_pmm demo_ops) as [[rs q]|] eqn:E; [|done].
  injection Hv as ->.
  destruct (pmm_refines demo_pmm q (pmm_table demo_pmm) demo_ops _ demo_pmm_wf
    (pmm_table_abs _ demo_pmm_wf) E) as (t' & Hs & Ha & _).
  exists [0x102000; 0x103000; 0; 0; 0; 0x102000; 0], q, t'.
  split; [reflexivity|]. split; [reflexivity|]. split; [exact Hs|exact Ha].
Defined.

(** ** Initialisation *)

(** Only the manager's own bytes differ. *)
Definition quiet (p q : pstate) : Prop :=
  q = set_mem p (pmem q) /\ forall a, ~ pmm_private p a -> get8 (pmem q) a = get8 (pmem p) a.

#[export] Instance quiet_preorder : PreOrder quiet.
Proof.
  split; unfold quiet; [by intros []|]. intros p q r [Hq Hqm] [Hr Hrm]. split.
  - rewrite Hr, Hq. done.
  - intros a Ha. rewrite Hrm; [by apply Hqm|]. by rewrite Hq.
Qed.

Lemma quiet_wf p q : quiet p q -> pmm_wf p -> pmm_wf q.
Proof. intros [-> _]. apply set_mem_wf. Qed.
Lemma quiet_total p q : quiet p q -> total_pages q = total_pages p.
Proof. by intros [-> _]. Qed.

(** Frame [i] belongs to a usable region of the memory map. *)
Definition entry_covers (e : memmap_entry) (i : Z) : bool :=
  (me_type e =? LIMINE_MEMMAP_USABLE) &&
  (me_base e / PAGE_SIZE <=? i) && (i <? me_base e / PAGE_SIZE + me_length e / PAGE_SIZE).

(** What the Limine protocol promises of the entries it reports as usable. *)
Definition entry_ok (e : memmap_entry) : Prop :=
  me_type e = LIMINE_MEMMAP_USABLE ->
  0 <= me_base e /\ 0 <= me_length e /\ me_base e + me_length e < 2 ^ 47 /\
  me_base e mod PAGE_SIZE = 0 /\ me_length e mod PAGE_SIZE = 0.

Section Init.
Implicit Types (p q : pstate) (e : memmap_entry).

Lemma bitmap_set_range p b n : pmm_wf p -> 0 <= b -> b + Z.of_nat n <= total_pages p ->
  let q := for_loop n 0 (fun i p => bitmap_set p (b + i)) p in
  quiet p q /\
  forall j, bitmap_test q j = ((b <=? j) && (j <? b + Z.of_nat n)) || bitmap_test p j.
Proof.
  intros Hw Hb Hn. apply (for_loop_inv0 (fun k q => quiet p q /\
    forall j, bitmap_test q j = ((b <=? j) && (j <? b + k)) || bitmap_test p j)).
  - split; [done|]. intros j. destruct (Z.leb_spec b j), (Z.ltb_spec j (b + 0)); (lia || done).
  - intros i q Hi [Ho Ht]. pose proof (quiet_total p q Ho). split.
    + transitivity q; [done|]. split; [done|]. intros a Ha.
      apply bitmap_set_out; [by eapply quiet_wf|lia|done].
    + intros j. rewrite bitmap_test_set, Ht.
      destruct (Z.leb_spec b j), (Z.ltb_spec j (b + i)), (Z.ltb_spec j (b + (i + 1))),
        (Z.eqb_spec (b + i) j); (lia || done).
Qed.

Lemma bitmap_clear_range p b n : pmm_wf p -> 0 <= b -> b + Z.of_nat n <= total_pages p ->
  let q := for_loop n 0 (fun i p => bitmap_clear p (b + i)) p in
  quiet p q /\
  forall j, bitmap_test q j = negb ((b <=? j) && (j <? b + Z.of_nat n)) && bitmap_test p j.
Proof.
  intros Hw Hb Hn. apply (for_loop_inv0 (fun k q => quiet p q /\
    forall j, bitmap_test q j = negb ((b <=? j) && (j <? b + k)) && bitmap_test p j)).
  - split; [done|]. intros j. destruct (Z.leb_spec b j), (Z.ltb_spec j (b + 0)); (lia || done).
  - intros i q Hi [Ho Ht]. pose proof (quiet_total p q Ho). split.
    + transitivity q; [done|]. split; [done|]. intros a Ha.
      apply bitmap_clear_out; [by eapply quiet_wf|lia|done].
    + intros j. rewrite bitmap_test_clear, Ht.
      destruct (Z.leb_spec b j), (Z.ltb_spec j (b + i)), (Z.ltb_spec j (b + (i + 1))),
        (Z.eqb_spec (b + i) j); (lia || done).
Qed.

Lemma clear_entry_spec p e : pmm_wf p -> entry_ok e ->
  (me_type e = LIMINE_MEMMAP_USABLE ->
    me_base e / PAGE_SIZE + me_length e / PAGE_SIZE <= total_pages p) ->
  quiet p (clear_entry p e) /\
  (forall j, bitmap_test (clear_entry p e) j = negb (entry_covers e j) && bitmap_test p j).
Proof.
  intros Hw Hok Htop. unfold clear_entry, entry_covers.
  destruct (Z.eqb_spec (me_type e) LIMINE_MEMMAP_USABLE) as [Hu|]; [|done].
  destruct (Hok Hu) as (? & ? & _). specialize (Htop Hu).
  assert (0 <= me_length e / PAGE_SIZE) by (apply Z.div_pos; unfold PAGE_SIZE; lia).
  assert (0 <= me_base e / PAGE_SIZE) by (apply Z.div_pos; unfold PAGE_SIZE; lia).
  destruct (bitmap_clear_range p (me_base e / PAGE_SIZE) (Z.to_nat (me_length e / PAGE_SIZE)))
    as [Ho Ht]; [done|done|lia|].
  split; [done|]. intros j. rewrite Ht. by rewrite Z2Nat.id.
Qed.

Lemma clear_entries_spec p l : pmm_wf p -> Forall entry_ok l ->
  (forall e, e ∈ l -> me_type e = LIMINE_MEMMAP_USABLE ->
    me_base e / PAGE_SIZE + me_length e / PAGE_SIZE <= total_pages p) ->
  quiet p (foldl clear_entry p l) /\
  (forall j, bitmap_test (foldl clear_entry p l) j =
     negb (existsb (fun e => entry_covers e j) l) && bitmap_test p j).
Proof.
  revert p. induction l as [|e l IH]; intros p Hw Hl Htop; [done|]. simpl.
  apply Forall_cons in Hl as [He Hl].
  destruct (clear_entry_spec p e Hw He) as [Ho Ht]; [apply Htop; by left|].
  destruct (IH (clear_entry p e)) as [Ho' Ht']; [by eapply quiet_wf|done| |].
  { intros e' He'. rewrite (quiet_total p) by done. apply Htop. by right. }
  split; [by etrans|].
  intros j. rewrite Ht', Ht, negb_orb. destruct (existsb _ l), (entry_covers e j); done.
Qed.

(** The size is the top of the highest usable region. *)
Lemma get_memory_size_acc l h0 :
  let f := fun highest e => if me_type e =? LIMINE_MEMMAP_USABLE then
    let top := u64 (me_base e + me_length e) in
    if highest <? top then top else highest else highest in
  Forall entry_ok l -> h0 <= foldl f h0 l /\
  forall e, e ∈ l -> me_type e = LIMINE_MEMMAP_USABLE -> me_base e + me_length e <= foldl f h0 l.
Proof.
  intros f. revert h0. induction l as [|e l IH]; intros h0 Hl; simpl.
  { split; [lia|]. intros e He. by apply elem_of_nil in He. }
  apply Forall_cons in Hl as [He Hl]. destruct (IH (f h0 e) Hl) as [Hge Hall].
  assert (h0 <= f h0 e /\ (me_type e = LIMINE_MEMMAP_USABLE -> me_base e + me_length e <= f h0 e))
    as [Hf1 Hf2].
  { unfold f. destruct (Z.eqb_spec (me_type e) LIMINE_MEMMAP_USABLE) as [Hu|]; [|split; [lia|done]].
    destruct (He Hu) as (? & ? & ? & _). rewrite u64_small by lia. simpl.
    destruct (Z.ltb_spec h0 (me_base e + me_length e)); lia. }
  split; [lia|]. intros e' [->|Hin]%elem_of_cons Hu; [specialize (Hf2 Hu); lia | by apply Hall].
Qed.

Lemma get_memory_size_bound l h0 : Forall entry_ok l -> h0 < 2 ^ 47 ->
  foldl (fun highest e => if me_type e =? LIMINE_MEMMAP_USABLE then
    let top := u64 (me_base e + me_length e) in
    if highest <? top then top else highest else highest) h0 l < 2 ^ 47.
Proof.
  revert h0. induction l as [|e l IH]; intros h0 Hl Hh; [done|]. simpl.
  apply Forall_cons in Hl as [He Hl]. apply IH; [done|].
  destruct (Z.eqb_spec (me_type e) LIMINE_MEMMAP_USABLE) as [Hu|]; [|lia].
  destruct (He Hu) as (? & ? & ? & _). rewrite u64_small by lia.
  destruct (_ <? _); lia.
Qed.

(** A usable region ends within the frames managed. *)
Lemma entry_top_total l e : Forall entry_ok l -> e ∈ l -> me_type e = LIMINE_MEMMAP_USABLE ->
  me_base e / PAGE_SIZE + me_length e / PAGE_SIZE <= get_memory_size l / PAGE_SIZE.
Proof.
  intros Hl He Hu.
  destruct (proj1 (Forall_forall _ _) Hl e He Hu) as (? & ? & ? & ? & ?).
  assert (me_base e + me_length e <= get_memory_size l) as Hm
    by apply (proj2 (get_memory_size_acc l 0 Hl) e He Hu).
  clear Hl. unfold PAGE_SIZE in *. Z.div_mod_to_equations. lia.
Qed.

(** The direct map is a bijection on low physical addresses. *)
Lemma hhdm_phys h b : 0 <= h < 2 ^ 64 -> h mod 2 ^ 47 = 0 -> 0 <= b < 2 ^ 47 ->
  Z.lor b h = h + b /\ Z.land (h + b) (u64 (Z.lnot h)) = b.
Proof.
  intros Hh Hm Hb. rewrite Z.lor_comm, <- (lor_disjoint h b 47) by (done || lia). split; [done|].
  apply Z.bits_inj'. intros n Hn. rewrite Z.land_spec, Z.lor_spec. unfold u64.
  destruct (decide (n < 47)).
  - rewrite Z.mod_pow2_bits_low, Z.lnot_spec by lia.
    rewrite <- (Z.mod_pow2_bits_low h 47 n), Hm, Z.bits_0 by lia. simpl. by rewrite andb_true_r.
  - rewrite <- (Z.mod_small b (2 ^ 47)) by lia. rewrite (Z.mod_pow2_bits_high b) by lia.
    rewrite orb_false_r. destruct (decide (n < 64)).
    + rewrite Z.mod_pow2_bits_low, Z.lnot_spec by lia. apply andb_negb_r.
    + rewrite Z.mod_pow2_bits_high by lia. apply andb_false_r.
Qed.

Lemma fill_bitmap_spec p : pmm_wf p ->
  let q := set_mem p (for_loop (Z.to_nat (bitmap_size p)) 0
                        (fun i m => put8 m (bitmap p + i) 0xFF) (pmem p)) in
  quiet p q /\ forall j, 0 <= j < total_pages p -> bitmap_test q j = true.
Proof.
  intros Hw. pose proof (wf_bsize p Hw) as Hbs. pose proof (wf_refs p Hw) as Hrc.
  pose proof (wf_total p Hw) as Htot.
  assert (0 <= bitmap_size p) by (rewrite Hbs; apply Z.div_pos; lia).
  assert (forall a, get8 (for_loop (Z.to_nat (bitmap_size p)) 0
      (fun i m => put8 m (bitmap p + i) 0xFF) (pmem p)) a =
    if (bitmap p <=? a) && (a <? bitmap p + Z.of_nat (Z.to_nat (bitmap_size p)))
    then 0xFF else get8 (pmem p) a) as Hfill.
  { apply (for_loop_inv0 (fun k (m : mem) => forall a, get8 m a =
      if (bitmap p <=? a) && (a <? bitmap p + k) then 0xFF else get8 (pmem p) a)).
    - intros a. destruct (Z.leb_spec (bitmap p) a), (Z.ltb_spec a (bitmap p + 0)); (lia || done).
    - intros i m Hi Hm a. rewrite get8_put8, Hm. case_bool_decide;
      destruct (Z.leb_spec (bitmap p) a), (Z.ltb_spec a (bitmap p + i)),
        (Z.ltb_spec a (bitmap p + (i + 1))); (lia || done). }
  rewrite Z2Nat.id in Hfill by done. split.
  - split; [done|]. intros a Ha. simpl. rewrite Hfill. unfold pmm_private in Ha.
    destruct (Z.leb_spec (bitmap p) a), (Z.ltb_spec a (bitmap p + bitmap_size p)); simpl; (lia || done).
  - intros j Hj. rewrite bitmap_test_bit. simpl. rewrite Hfill.
    pose proof (bit_below_refs p j Hw Hj).
    rewrite (proj2 (Z.leb_le _ _)), (proj2 (Z.ltb_lt _ _)) by lia. simpl.
    pose proof (Z.mod_pos_bound j 8 ltac:(lia)).
    change 0xFF with (Z.ones 8). apply Z.ones_spec_low. lia.
Qed.

Lemma zero_refs_spec p : pmm_wf p ->
  let q := set_mem p (memset (pmem p) (ref_counts p) 0 (total_pages p * 4)) in
  quiet p q /\ (forall j, 0 <= j < total_pages p -> bitmap_test q j = bitmap_test p j) /\
  forall j, 0 <= j < total_pages p -> get_ref q j = 0.
Proof.
  intros Hw q. pose proof (wf_total p Hw) as Ht.
  pose proof (memset_filled (pmem p) (ref_counts p) 0 (total_pages p * 4) ltac:(lia)) as Hf.
  split_and!.
  - split; [done|]. intros a Ha. subst q. simpl. rewrite Hf. rewrite bool_decide_false; [done|].
    unfold pmm_private in Ha. pose proof (wf_refs p Hw). pose proof (wf_bsize p Hw) as Hb.
    assert (0 <= bitmap_size p) by (rewrite Hb; apply Z.div_pos; lia). lia.
  - intros j Hj. rewrite !bitmap_test_bit. subst q. simpl. rewrite Hf.
    pose proof (bit_below_refs p j Hw Hj). rewrite bool_decide_false by lia. done.
  - intros j Hj. subst q. unfold get_ref, load32. cbn [pmem set_mem ref_counts].
    rewrite (load_ext 4 _ (∅ : mem) _ 0); [done|]. intros i Hi. rewrite Hf.
    rewrite bool_decide_true by lia. unfold get8. by rewrite lookup_empty.
Qed.
End Init.

(** Pages the bitmap and the counts take. *)
Definition metadata_pages (total : Z) : Z :=
  (total / 8 + PAGE_SIZE - 1) / PAGE_SIZE + (total * 4 + PAGE_SIZE - 1) / PAGE_SIZE.

Lemma metadata_pages_bytes total : 0 <= total ->
  0 <= metadata_pages total /\ total / 8 + total * 4 <= metadata_pages total * PAGE_SIZE.
Proof. intros. unfold metadata_pages, PAGE_SIZE. Z.div_mod_to_equations. lia. Qed.

(** The frames free after initialisation. *)
Definition initially_free (l : list memmap_entry) (meta n : Z) (i : Z) : bool :=
  existsb (fun e => entry_covers e i) l && negb ((meta <=? i) && (i <? meta + n)) && (0x100 <=? i).

Section InitTables.
Context (p : pstate) (l : list memmap_entry) (base : Z).
Context (Hw : pmm_wf p) (Hl : Forall entry_ok l).
Context (Htop : forall e, e ∈ l -> me_type e = LIMINE_MEMMAP_USABLE ->
  me_base e / PAGE_SIZE + me_length e / PAGE_SIZE <= total_pages p).
Context (Hphys : vmm_hhdm_to_phys p (bitmap p) / PAGE_SIZE = base) (Hbase : 0 <= base).
Context (Hpages : bitmap_page_count p + ref_counts_page_count p = metadata_pages (total_pages p)).
Context (Hfit : base + metadata_pages (total_pages p) <= total_pages p).
Context (Hlow : 0x100 <= total_pages p) (Hrs : ref_counts_size p = total_pages p * 4).

Lemma hhdm_base_loop n lo q : vmm_hhdm_to_phys q (bitmap q) / PAGE_SIZE = base ->
  for_loop n lo (fun i p => bitmap_set p (vmm_hhdm_to_phys p (bitmap p) / PAGE_SIZE + i)) q =
  for_loop n lo (fun i p => bitmap_set p (base + i)) q.
Proof.
  revert lo q. induction n as [|n IH]; intros lo q Hq; [done|]. simpl.
  rewrite Hq. by apply IH.
Qed.

Lemma init_tables_spec :
  quiet p (init_tables p l) /\
  forall j, 0 <= j < total_pages p -> get_ref (init_tables p l) j = 0 /\
    bitmap_test (init_tables p l) j = negb (initially_free l base (metadata_pages (total_pages p)) j).
Proof.
  destruct (metadata_pages_bytes (total_pages p) ltac:(lia)) as [Hmp _].
  unfold init_tables.
  destruct (fill_bitmap_spec p Hw) as [Q1 T1]. set (p1 := set_mem p _) in *. clearbody p1.
  destruct (clear_entries_spec p1 l (quiet_wf _ _ Q1 Hw) Hl) as [Q2 T2].
  { by rewrite (quiet_total p p1 Q1). }
  set (p2 := foldl clear_entry p1 l) in *. clearbody p2.
  assert (quiet p p2) as Q02 by by etrans.
  rewrite hhdm_base_loop by by rewrite (proj1 Q02).
  assert (bitmap_page_count p2 + ref_counts_page_count p2 = metadata_pages (total_pages p)) as ->
    by by rewrite (proj1 Q02).
  destruct (bitmap_set_range p2 base (Z.to_nat (metadata_pages (total_pages p)))) as [Q3 T3];
    [by eapply quiet_wf|done|rewrite (quiet_total p p2 Q02); lia|].
  set (p3 := for_loop _ 0 _ p2) in *. clearbody p3. rewrite Z2Nat.id in T3 by done.
  assert (quiet p p3) as Q03 by by etrans.
  destruct (bitmap_set_range p3 0 (Z.to_nat (0x100000 / PAGE_SIZE))) as [Q4 T4];
    [by eapply quiet_wf|done|rewrite (quiet_total p p3 Q03); exact Hlow|].
  set (p4 := for_loop _ 0 (fun i p => bitmap_set p (0 + i)) p3) in *.
  change (for_loop _ 0 (fun i p => bitmap_set p i) p3) with p4. clearbody p4.
  assert (quiet p p4) as Q04 by by etrans. pose proof (quiet_total p p4 Q04) as Et.
  assert (ref_counts_size p4 = total_pages p4 * 4) as -> by by rewrite (proj1 Q04).
  destruct (zero_refs_spec p4 (quiet_wf _ _ Q04 Hw)) as (Q5 & T5 & R5).
  split; [by etrans|]. rewrite Et in T5, R5. rewrite Et. intros j Hj. split; [by apply R5|].
  rewrite T5, T4, T3, T2, T1 by done. unfold initially_free.
  change (0 + Z.of_nat (Z.to_nat (0x100000 / PAGE_SIZE))) with 0x100.
  destruct (existsb _ l), ((base <=? j) && _), (Z.leb_spec 0 j), (Z.ltb_spec j 0x100),
    (Z.leb_spec 0x100 j); (lia || done).
Qed.
End InitTables.

(** The state [pmm_init] leaves; [Frames] adds that it satisfies the allocator's
    contract. *)
Lemma pmm_init_spec (m : mem) (h : Z) (l : list memmap_entry) (k : nat) (e : memmap_entry) :
  let total := get_memory_size l / PAGE_SIZE in
  0 < h < 2 ^ 64 -> h mod 2 ^ 47 = 0 -> Forall entry_ok l ->
  total mod 8 = 0 -> 0x100 <= total ->
  list_find (fits (metadata_pages total * PAGE_SIZE)) l = Some (k, e) ->
  exists p, pmm_init m h l = Some p /\ pmm_wf p /\ total_pages p = total /\
    bitmap p = h + me_base e /\ hhdm_offset p = h /\ total < 2 ^ 35 /\
    (forall a, pmm_private p a -> 0 <= (a - h) / PAGE_SIZE < total) /\
    (forall i, 0 <= i < total -> get_ref p i = 0 /\ bitmap_test p i =
       negb (initially_free l (me_base e / PAGE_SIZE) (metadata_pages total) i)) /\
    (forall a, pmm_private p a -> bitmap_test p ((a - h) / PAGE_SIZE) = true) /\
    (forall a, ~ pmm_private p a -> get8 (pmem p) a = get8 m a).
Proof.
  intros total Hh Hm Hl H8 Hlow Hfind.
  pose proof (proj1 (list_find_Some _ _ _ _) Hfind) as (Hin%list_elem_of_lookup_2 & Hfit%Is_true_eq_true & _).
  apply andb_true_iff in Hfit as [Hu%Z.eqb_eq Hneed%Z.leb_le].
  destruct (proj1 (Forall_forall _ _) Hl e Hin Hu) as (Hb0 & Hl0 & Hb47 & Hba & Hla).
  pose proof (entry_top_total l e Hl Hin Hu) as Htop. fold total in Htop.
  assert (get_memory_size l < 2 ^ 47) as Hsz by (apply get_memory_size_bound; [done|lia]).
  assert (0 <= total < 2 ^ 52) as Htot
    by (split; [lia|]; unfold total, PAGE_SIZE; apply Z.div_lt_upper_bound; lia).
  assert (total < 2 ^ 35) as Ht35
    by (unfold total, PAGE_SIZE; apply Z.div_lt_upper_bound; lia).
  destruct (hhdm_phys h (me_base e)) as [Hlor Hphys]; [lia|done|lia|].
  destruct (metadata_pages_bytes total ltac:(lia)) as [Hmp0 Hmp].
  assert (metadata_pages total <= me_length e / PAGE_SIZE) as Hmeta
    by (apply Z.div_le_lower_bound; [done|]; lia).
  assert (0 <= me_base e / PAGE_SIZE) as Hbp by (apply Z.div_pos; unfold PAGE_SIZE; lia).
  unfold pmm_init. fold total. unfold metadata_pages in Hfind. rewrite Z.mul_add_distr_r in Hfind.
  rewrite Hfind, Hlor. rewrite (proj2 (Z.eqb_neq _ _)) by lia.
  set (p0 := PState m h _ _ _ _ _ total 0 _ _).
  assert (pmm_wf p0) as W0 by (split; simpl; (done || lia)).
  destruct (init_tables_spec p0 l (me_base e / PAGE_SIZE)) as [Q T]; try done.
  { intros e' He' Hu'. by apply entry_top_total. }
  { unfold vmm_hhdm_to_phys. simpl. by rewrite Hphys. }
  { simpl. lia. }
  exists (init_tables p0 l). pose proof (proj1 Q) as Eq.
  assert (forall a, pmm_private (init_tables p0 l) a -> me_base e / PAGE_SIZE <=
    (a - h) / PAGE_SIZE < me_base e / PAGE_SIZE + metadata_pages total) as Hpriv.
  { intros a Ha. rewrite Eq in Ha. unfold pmm_private in Ha. simpl in Ha. clear Hl T.
    unfold PAGE_SIZE in *. Z.div_mod_to_equations. lia. }
  split; [done|]. split; [by eapply quiet_wf|]. split; [by rewrite Eq|]. split; [by rewrite Eq|].
  split; [by rewrite Eq|]. split; [done|]. split; [intros a Ha%Hpriv; lia|].
  split; [apply T|]. split; [|intros a Ha; apply Q; by rewrite Eq in Ha].
  intros a Ha%Hpriv. rewrite (proj2 (T ((a - h) / PAGE_SIZE) ltac:(simpl; lia))).
  unfold initially_free.
  rewrite (proj2 (Z.leb_le _ _)), (proj2 (Z.ltb_lt _ _)) by (simpl; lia).
  simpl. by rewrite andb_false_r.
Qed.

(** ** A number of frames that is not a multiple of 8 *)

(** A memory map whose usable memory ends at frame 0x204: frames 0x200 to 0x202
    are not usable. *)
Definition tail_memmap : list memmap_entry :=
  [MemmapEntry 0x100000 0x100000 LIMINE_MEMMAP_USABLE; MemmapEntry 0x200000 0x3000 1;
   MemmapEntry 0x203000 0x1000 LIMINE_MEMMAP_USABLE].

(** When the number of frames is not a multiple of 8, [bitmap_size] is rounded
    down and the bits of the last frames fall into [ref_counts]: the final
    [memset] of [pmm_init] clears them, and the 255th allocation hands out a
    frame that no usable region covers. *)
Theorem pmm_init_tail_frames :
  exists p rs q, pmm_init ∅ 0xffff800000000000 tail_memmap = Some p /\
    bitmap p + 0x200 / 8 = ref_counts p /\
    existsb (fun e => entry_covers e 0x200) tail_memmap = false /\
    pmm_run p (repeat OpAlloc 255) = Some (rs, q) /\ last rs = Some (0x200 * PAGE_SIZE).
Proof.
  assert (match pmm_init ∅ 0xffff800000000000 tail_memmap with
    | Some p => Some (bitmap p + 0x200 / 8 =? ref_counts p,
                      (fun r => last r.1) <$> pmm_run p (repeat OpAlloc 255))
    | None => None end = Some (true, Some (Some (0x200 * PAGE_SIZE)))) as H
    by (vm_compute; reflexivity).
  destruct (pmm_init ∅ 0xffff800000000000 tail_memmap) as [p|] eqn:Hp; [|discriminate].
  apply (inj Some), pair_eq in H as [Ha%Z.eqb_eq Hr].
  destruct (pmm_run p (repeat OpAlloc 255)) as [[rs q]|] eqn:E; [|done].
  apply (inj Some) in Hr. simpl in Hr.
  exists p, rs, q. split; [reflexivity|]. split; [exact Ha|]. split; [reflexivity|].
  split; [exact E|exact Hr].
Qed.
