(* ===== verification/Frames.v ===== *)
(** The contract between the frame allocator and its clients.

    The heap and the page tables use physical frames only through
    [pmm_alloc_frame], [pmm_free_frame], [pmm_inc_ref] and
    [pmm_get_ref_count], and reach the bytes of a frame through the direct map.
    [FrameAllocator] names these operations, [FrameAllocatorSpec] their laws;
    the clients are proved against the laws, and the instance at the end shows
    that [pmm.c] has them. *)
From S2P Require Import Prelude Machine StringLib Pmm.

Class FrameAllocator (A : Type) := {
  fa_mem : A -> mem;
  fa_set_mem : A -> mem -> A;
  fa_hhdm : A -> Z;
  fa_alloc : A -> Z * A;
  fa_free : A -> Z -> A;
  fa_inc : A -> Z -> A;
  fa_ref_count : A -> Z -> Z
}.

(** The address of a physical address in the direct map ([vmm_phys_to_hhdm]). *)
Definition phys_to_hhdm `{FrameAllocator A} (s : A) (phys : Z) : Z := Z.lor phys (fa_hhdm s).
Definition hhdm_to_phys `{FrameAllocator A} (s : A) (virt : Z) : Z :=
  Z.land virt (u64 (Z.lnot (fa_hhdm s))).

(** The byte [a] lies in the direct-mapped frame [i]. *)
Definition in_frame (h i a : Z) : Prop := h + i * PAGE_SIZE <= a < h + (i + 1) * PAGE_SIZE.

Class FrameAllocatorSpec (A : Type) {F : FrameAllocator A} := {
  fa_inv : A -> Prop;
  (** [None]: the frame is free.  [Some r]: it is taken with [r] references, or never
      given out ([r = 0]: reserved, or not among the frames managed). *)
  fa_count : A -> Z -> option Z;
  fa_private : A -> Z -> Prop;

  fa_mem_set s m : fa_mem (fa_set_mem s m) = m;
  fa_hhdm_ok s : fa_inv s -> 0 < fa_hhdm s < 2 ^ 64 /\ fa_hhdm s mod 2 ^ 47 = 0;
  fa_count_ok s i r : fa_inv s -> fa_count s i = Some r ->
    0 <= i < 2 ^ 35 - 1 /\ 0 <= r < 2 ^ 32 /\ (0 < r -> 0x100 <= i);
  (** The allocator's own bytes are in reserved frames. *)
  fa_private_reserved s i a : fa_inv s -> fa_private s a -> in_frame (fa_hhdm s) i a ->
    fa_count s i = Some 0;
  (** Writing outside the allocator's own bytes does not disturb it. *)
  fa_set_mem_ok s m : fa_inv s ->
    (forall a, fa_private s a -> get8 m a = get8 (fa_mem s) a) ->
    fa_inv (fa_set_mem s m) /\ fa_hhdm (fa_set_mem s m) = fa_hhdm s /\
    (forall i, fa_count (fa_set_mem s m) i = fa_count s i) /\
    (forall a, fa_private (fa_set_mem s m) a <-> fa_private s a);
  (** The operations write the allocator's own bytes only. *)
  fa_quiet s s' := fa_inv s' /\ fa_hhdm s' = fa_hhdm s /\
    (forall a, fa_private s' a <-> fa_private s a) /\
    (forall a, ~ fa_private s a -> get8 (fa_mem s') a = get8 (fa_mem s) a);
  fa_alloc_ok s : fa_inv s ->
    (exists i, 0 < i < 2 ^ 35 - 1 /\ fa_count s i = None /\ fst (fa_alloc s) = i * PAGE_SIZE /\
       fa_quiet s (snd (fa_alloc s)) /\
       forall j, fa_count (snd (fa_alloc s)) j = if i =? j then Some 1 else fa_count s j) \/
    (fa_alloc s = (0, s) /\ forall i, 0 <= i < 2 ^ 35 - 1 -> fa_count s i <> None);
  fa_free_ok s addr r : fa_inv s -> fa_count s (addr / PAGE_SIZE) = Some r -> 0 < r ->
    fa_quiet s (fa_free s addr) /\
    forall j, fa_count (fa_free s addr) j =
      if addr / PAGE_SIZE =? j then (if r =? 1 then None else Some (r - 1)) else fa_count s j;
  fa_inc_ok s addr r : fa_inv s -> fa_count s (addr / PAGE_SIZE) = Some r -> 0 < r -> r + 1 < 2 ^ 32 ->
    fa_quiet s (fa_inc s addr) /\
    forall j, fa_count (fa_inc s addr) j =
      if addr / PAGE_SIZE =? j then Some (r + 1) else fa_count s j;
  fa_ref_count_ok s addr r : fa_inv s -> fa_count s (addr / PAGE_SIZE) = Some r ->
    fa_ref_count s addr = r
}.

Section DirectMap.
Context {A : Type} `{FS : FrameAllocatorSpec A}.
Implicit Types (s : A).

Lemma phys_to_hhdm_add s phys : fa_inv s -> 0 <= phys < 2 ^ 47 ->
  phys_to_hhdm s phys = fa_hhdm s + phys.
Proof.
  intros Hi Hp. destruct (fa_hhdm_ok s Hi). apply hhdm_phys; [lia|done|done].
Qed.

Lemma hhdm_to_phys_sub s phys : fa_inv s -> 0 <= phys < 2 ^ 47 ->
  hhdm_to_phys s (fa_hhdm s + phys) = phys.
Proof.
  intros Hi Hp. destruct (fa_hhdm_ok s Hi). apply hhdm_phys; [lia|done|done].
Qed.

(** The byte is in a frame that is not free, and is not the allocator's own: a page or
    table someone holds, or memory the allocator never gives out. *)
Definition kept s (x : Z) : Prop :=
  exists i r, in_frame (fa_hhdm s) i x /\ fa_count s i = Some r /\ ~ fa_private s x.

Lemma kept_not_private s x : kept s x -> ~ fa_private s x.
Proof. by intros (i & r & _ & _ & H). Qed.

(** No byte of the frame is the allocator's own. *)
Definition open_frame s (f : Z) : Prop := forall x, in_frame (fa_hhdm s) f x -> ~ fa_private s x.

Lemma count_open s f r : fa_inv s -> fa_count s f = Some r -> 0 < r -> open_frame s f.
Proof. intros Hi Hc Hr x Hx Hp. pose proof (fa_private_reserved s f x Hi Hp Hx). congruence || (rewrite Hc in *; simplify_eq; lia). Qed.

Lemma frame_kept s f r x : in_frame (fa_hhdm s) f x -> fa_count s f = Some r -> open_frame s f -> kept s x.
Proof. intros Hx Hc Ho. exists f, r. split; [done|]. split; [done|by apply Ho]. Qed.

Lemma count_kept s f r x : fa_inv s -> in_frame (fa_hhdm s) f x -> fa_count s f = Some r -> 0 < r -> kept s x.
Proof. intros Hi Hx Hc Hr. by eapply frame_kept, count_open. Qed.

(** At least [n] frames are free. *)
Definition room s (n : nat) : Prop :=
  exists l, NoDup l /\ length l = n /\ forall i, i ∈ l -> 0 <= i < 2 ^ 35 - 1 /\ fa_count s i = None.

(** The allocator has nothing left. *)
Definition exhausted s : Prop := ~ room s 1.

Lemma room_0 s : room s 0.
Proof. exists []. split; [by apply NoDup_nil|]. split; [done|]. intros i Hi. by apply not_elem_of_nil in Hi. Qed.

Lemma room_le s (n k : nat) : (k <= n)%nat -> room s n -> room s k.
Proof.
  intros Hk (l & Hn & Hl & H). exists (take k l). split; [by eapply sublist_NoDup, sublist_take|]. split; [rewrite length_take; lia|].
  intros i Hi. apply H. by eapply elem_of_take in Hi as (? & ?%list_elem_of_lookup_2 & _).
Qed.

Lemma room_kept s s' n : (forall i, 0 <= i < 2 ^ 35 - 1 -> fa_count s i = None -> fa_count s' i = None) -> room s n -> room s' n.
Proof. intros Hc (l & Hn & Hl & H). exists l. split; [done|]. split; [done|]. intros i Hi. destruct (H i Hi). auto. Qed.

Lemma exhausted_iff s : exhausted s <-> forall i, 0 <= i < 2 ^ 35 - 1 -> fa_count s i <> None.
Proof.
  split.
  - intros He i Hi Hc. apply He. exists [i]. split; [apply NoDup_singleton|]. split; [done|]. by intros j ->%list_elem_of_singleton.
  - intros H (l & _ & Hl & Hf). destruct l as [|i l]; [done|]. destruct (Hf i ltac:(left)) as [? ?]. by apply (H i).
Qed.

(** Taking one frame takes one from the free ones. *)
Lemma room_take s s' f n : 0 <= f < 2 ^ 35 - 1 -> fa_count s f = None -> (exists r, fa_count s' f = Some r) ->
  (forall i, i <> f -> fa_count s' i = fa_count s i) -> room s (S n) <-> room s' n.
Proof.
  intros Hf Hc [r Hr] Ho. split.
  - intros (l & Hn & Hl & H). exists (take n (filter (fun i => i <> f) l)). split; [|split].
    + eapply sublist_NoDup; [|apply sublist_take]. by apply NoDup_filter.
    + rewrite length_take. enough (n <= length (filter (fun i => i <> f) l))%nat by lia.
      assert (length (filter (fun i => i = f) l) <= 1)%nat as H1.
      { assert (NoDup (filter (fun i => i = f) l)) as Hd by by apply NoDup_filter.
        destruct (filter (fun i => i = f) l) as [|a [|b m]] eqn:E; [simpl; lia..|].
        assert (a = f /\ b = f) as [-> ->] by (split; apply (list_elem_of_filter (fun i => i = f) l); rewrite E; set_solver).
        apply NoDup_cons in Hd as [[] _]. left. }
      pose proof (filter_app_complement (fun i => i = f) l) as Hp%Permutation_length. rewrite length_app in Hp. lia.
    + intros i Hi. apply elem_of_take in Hi as (k & Hk%list_elem_of_lookup_2 & _). apply list_elem_of_filter in Hk as [Hne Hin].
      destruct (H i Hin). by rewrite Ho.
  - intros (l & Hn & Hl & H). exists (f :: l). split; [|split; [simpl; lia|]].
    + apply NoDup_cons. split; [|done]. intros Hin. destruct (H f Hin). congruence.
    + intros i [->|Hi]%elem_of_cons; [done|]. destruct (H i Hi) as [? Hi']. split; [done|]. rewrite <- Ho; [done|]. intros ->. congruence.
Qed.

Lemma alloc_exhausted s : fa_inv s -> fst (fa_alloc s) = 0 <-> exhausted s.
Proof.
  intros Hi. rewrite exhausted_iff. destruct (fa_alloc_ok s Hi) as [(i & Hr & Hc & -> & _)|[-> H]]; [|done].
  split; [unfold PAGE_SIZE; lia|]. intros H. by destruct (H i ltac:(lia)).
Qed.

(** Bytes of a frame that is free or held by a client are not private. *)
Lemma frame_not_private s i a : fa_inv s -> in_frame (fa_hhdm s) i a ->
  fa_count s i <> Some 0 -> ~ fa_private s a.
Proof. intros Hi Hf Hc Hp. by apply Hc, (fa_private_reserved s i a). Qed.
End DirectMap.

(** ** The physical memory manager is a frame allocator *)
#[export] Instance pmm_frames : FrameAllocator pstate := {
  fa_mem := pmem; fa_set_mem := set_mem; fa_hhdm := hhdm_offset;
  fa_alloc := pmm_alloc_frame; fa_free := pmm_free_frame; fa_inc := pmm_inc_ref;
  fa_ref_count := pmm_get_ref_count
}.

(** Low memory and the manager's own frames stay taken, with count 0, and so do the
    frames beyond the managed ones. *)
Definition pmm_reserved (p : pstate) (i : Z) : Prop :=
  i < 0x100 \/ exists a, pmm_private p a /\ in_frame (hhdm_offset p) i a.

Record pmm_inv (p : pstate) : Prop := {
  pi_wf : pmm_wf p;
  pi_total : 0 < total_pages p < 2 ^ 35;
  pi_hhdm : 0 < hhdm_offset p < 2 ^ 64 /\ hhdm_offset p mod 2 ^ 47 = 0;
  pi_private a : pmm_private p a -> 0 <= (a - hhdm_offset p) / PAGE_SIZE < total_pages p;
  pi_reserved i : 0 <= i < total_pages p -> pmm_reserved p i ->
    bitmap_test p i = true /\ get_ref p i = 0
}.

Definition pmm_count (p : pstate) (i : Z) : option Z :=
  if (0 <=? i) && (i <? total_pages p) then if bitmap_test p i then Some (get_ref p i) else None
  else if (total_pages p <=? i) && (i <? 2 ^ 35 - 1) then Some 0 else None.

Section PmmInstance.
Implicit Types (p q : pstate).

Lemma pmm_count_in p i : 0 <= i < total_pages p ->
  pmm_count p i = if bitmap_test p i then Some (get_ref p i) else None.
Proof. intros. unfold pmm_count. by rewrite (proj2 (Z.leb_le _ _)), (proj2 (Z.ltb_lt _ _)) by lia. Qed.

Lemma pmm_count_out p i : ~ 0 <= i < total_pages p ->
  pmm_count p i = if (total_pages p <=? i) && (i <? 2 ^ 35 - 1) then Some 0 else None.
Proof.
  intros. unfold pmm_count.
  destruct (Z.leb_spec 0 i), (Z.ltb_spec i (total_pages p)); (lia || done).
Qed.

Lemma pmm_count_Some p i r : pmm_count p i = Some r ->
  (0 <= i < total_pages p /\ bitmap_test p i = true /\ get_ref p i = r) \/ (total_pages p <= i < 2 ^ 35 - 1 /\ r = 0).
Proof.
  destruct (decide (0 <= i < total_pages p)); [rewrite pmm_count_in by done|rewrite pmm_count_out by done].
  - destruct (bitmap_test p i); [|done]. intros [= <-]. by left.
  - destruct (Z.leb_spec (total_pages p) i), (Z.ltb_spec i (2 ^ 35 - 1)); try done. intros [= <-]. by right.
Qed.

Lemma pmm_count_pos p i r : pmm_count p i = Some r -> 0 < r ->
  0 <= i < total_pages p /\ bitmap_test p i = true /\ get_ref p i = r.
Proof. intros [?|[_ ->]]%pmm_count_Some; (done || lia). Qed.

Lemma same_layout_private p q : same_layout p q -> forall a, pmm_private q a <-> pmm_private p a.
Proof. intros (_ & Hb & Hr & _ & Ht) a. unfold pmm_private. by rewrite Hb, Hr, Ht. Qed.

Lemma same_layout_reserved p q i : same_layout p q -> pmm_reserved q i <-> pmm_reserved p i.
Proof.
  intros Hl. unfold pmm_reserved. setoid_rewrite (same_layout_private p q Hl).
  by rewrite (proj1 Hl).
Qed.

(** Updating a frame that is not reserved. *)
Lemma frame_update_inv p q i b r : pmm_inv p -> frame_update p q i b r ->
  0 <= i < total_pages p -> ~ pmm_reserved p i -> pmm_inv q.
Proof.
  intros [W T Hh P R] [L W' U Rf M] Hi Hn. pose proof L as (Eh & _ & _ & _ & Et).
  split; [done|by rewrite Et|by rewrite Eh| |].
  - intros a Ha. rewrite Eh, Et. apply P. by apply (same_layout_private p q L).
  - rewrite Et. intros j Hj Hres%(same_layout_reserved p q j L).
    assert (i <> j) by congruence. rewrite U, Rf, (proj2 (Z.eqb_neq _ _)) by done. by apply R.
Qed.

Lemma frame_update_count p q i b r : frame_update p q i b r -> 0 <= i < total_pages p ->
  forall j, pmm_count q j = if i =? j then (if b then Some r else None) else pmm_count p j.
Proof.
  intros [L W' U Rf M] Hi j. pose proof L as (_ & _ & _ & _ & Et).
  destruct (decide (0 <= j < total_pages p)).
  - rewrite !pmm_count_in, U, Rf by lia. by destruct (i =? j).
  - rewrite !pmm_count_out, Et by lia. by rewrite (proj2 (Z.eqb_neq i j)) by (intros ->; lia).
Qed.

Lemma frame_not_reserved p i : pmm_inv p -> 0 <= i < total_pages p ->
  bitmap_test p i = false \/ 0 < get_ref p i -> ~ pmm_reserved p i.
Proof. intros Hp Hi Hc Hr. destruct (pi_reserved p Hp i Hi Hr) as [? ?]. destruct Hc; [congruence|lia]. Qed.

Lemma set_mem_private_eq p m : pmm_inv p ->
  (forall a, pmm_private p a -> get8 m a = get8 (pmem p) a) ->
  forall i, 0 <= i < total_pages p ->
    bitmap_test (set_mem p m) i = bitmap_test p i /\ get_ref (set_mem p m) i = get_ref p i.
Proof.
  intros Hp Hm i Hi. pose proof (bit_below_refs p i (pi_wf p Hp) Hi).
  pose proof (bit_below_refs p 0 (pi_wf p Hp) ltac:(lia)). split.
  - rewrite !bitmap_test_bit. cbn [pmem set_mem bitmap]. f_equal. apply Hm.
    unfold pmm_private. lia.
  - unfold get_ref. cbn [pmem set_mem ref_counts]. apply load_ext. intros k Hk. apply Hm.
    unfold pmm_private. lia.
Qed.
End PmmInstance.

#[export] Program Instance pmm_frames_spec : FrameAllocatorSpec pstate := {
  fa_inv := pmm_inv; fa_count := pmm_count; fa_private := pmm_private
}.
Next Obligation. done. Qed.
Next Obligation. intros p Hp. apply Hp. Qed.
Next Obligation.
  intros p i r Hp [(Hi & Hb & <-)|[Hi ->]]%pmm_count_Some; pose proof (pi_total p Hp); [|split; lia].
  pose proof (get_ref_range p i). split; [lia|]. split; [done|]. intros Hr.
  destruct (decide (0x100 <= i)); [done|]. exfalso.
  apply (frame_not_reserved p i Hp Hi); [by right|left; lia].
Qed.
Next Obligation.
  intros p i a Hp Ha Hf.
  assert ((a - hhdm_offset p) / PAGE_SIZE = i) as <-
    by (unfold in_frame, PAGE_SIZE in *; simpl in *; Z.div_mod_to_equations; lia).
  pose proof (pi_private p Hp a Ha) as Hi. simpl in *. rewrite pmm_count_in by done.
  destruct (pi_reserved p Hp _ Hi) as [-> ->]; [|done]. right. exists a. done.
Qed.
Next Obligation.
  simpl. intros p m Hp Hm. pose proof (set_mem_private_eq p m Hp Hm) as He.
  split; [|split; [done|split; [|done]]].
  - destruct Hp as [W T Hh P R]. split; try done; [by apply set_mem_wf|].
    intros i Hi Hr. destruct (He i Hi) as [-> ->]. by apply R.
  - intros i. destruct (decide (0 <= i < total_pages p)) as [Hi|].
    + rewrite !pmm_count_in by done. by destruct (He i Hi) as [-> ->].
    + by rewrite !pmm_count_out by done.
Qed.
Next Obligation.
  intros p Hp. simpl. destruct (pmm_alloc_frame_spec p (pi_wf p Hp)) as [(i & Hi & Hf & Hr & Hu)|[Hall ->]];
    [left|right; split; [done|]; intros i Hr; destruct (decide (0 <= i < total_pages p)); [rewrite pmm_count_in, Hall by done; done|]].
  2: { rewrite pmm_count_out by done. by rewrite (proj2 (Z.leb_le _ _)), (proj2 (Z.ltb_lt _ _)) by lia. }
  pose proof (pi_total p Hp).
  assert (~ pmm_reserved p i) as Hn by (apply frame_not_reserved; auto).
  assert (i <> 0) by (intros ->; apply Hn; left; lia).
  exists i. split; [lia|]. split; [by rewrite pmm_count_in, Hf by done|]. split; [done|].
  split; [|by apply (frame_update_count p _ i true 1)].
  split; [by eapply frame_update_inv|]. split; [apply Hu|].
  split; [apply same_layout_private, Hu|apply Hu].
Qed.
Next Obligation.
  intros p addr r Hp Hc Hr. destruct (pmm_count_pos _ _ _ Hc Hr) as (Hi & Hb & <-). clear Hc. simpl.
  assert (~ pmm_reserved p (addr / PAGE_SIZE)) as Hn by (apply frame_not_reserved; auto).
  assert (0x100000 <= addr).
  { destruct (decide (0x100 <= addr / PAGE_SIZE)); [|exfalso; apply Hn; left; lia].
    unfold PAGE_SIZE in *. Z.div_mod_to_equations. lia. }
  pose proof (pmm_free_frame_spec p addr (pi_wf p Hp) ltac:(done) ltac:(lia) Hb) as Hu.
  rewrite Z.max_r in Hu by lia. split.
  - split; [by eapply frame_update_inv|]. split; [apply Hu|].
    split; [apply same_layout_private, Hu|apply Hu].
  - intros j. rewrite (frame_update_count _ _ _ _ _ Hu Hi).
    destruct (addr / PAGE_SIZE =? j); [|done].
    destruct (Z.eqb_spec (get_ref p (addr / PAGE_SIZE) - 1) 0),
      (Z.eqb_spec (get_ref p (addr / PAGE_SIZE)) 1); (lia || done).
Qed.
Next Obligation.
  intros p addr r Hp Hc Hr Hlt. destruct (pmm_count_pos _ _ _ Hc Hr) as (Hi & Hb & <-). clear Hc. simpl.
  pose proof (pmm_inc_ref_spec p addr (pi_wf p Hp) Hi) as Hu. cbv zeta in Hu.
  rewrite Hb, u32_small in Hu by lia.
  assert (~ pmm_reserved p (addr / PAGE_SIZE)) as Hn by (apply frame_not_reserved; auto). split.
  - split; [by eapply frame_update_inv|]. split; [apply Hu|].
    split; [apply same_layout_private, Hu|apply Hu].
  - intros j. by rewrite (frame_update_count _ _ _ _ _ Hu Hi).
Qed.
Next Obligation.
  intros p addr r Hp [(Hi & Hb & <-)|[Hi ->]]%pmm_count_Some; simpl; unfold pmm_get_ref_count.
  - by rewrite (proj2 (Z.ltb_lt _ _)) by lia.
  - by rewrite (proj2 (Z.ltb_ge _ _)) by lia.
Qed.

(** The state [pmm_init] leaves satisfies the invariant of the contract. *)
Lemma pmm_init_inv (m : mem) (h : Z) (l : list memmap_entry) (k : nat) (e : memmap_entry) :
  let total := get_memory_size l / PAGE_SIZE in
  0 < h < 2 ^ 64 -> h mod 2 ^ 47 = 0 -> Forall entry_ok l ->
  total mod 8 = 0 -> 0x100 <= total ->
  list_find (fits (metadata_pages total * PAGE_SIZE)) l = Some (k, e) ->
  exists p, pmm_init m h l = Some p /\ pmm_inv p.
Proof.
  intros total Hh Hm Hl H8 Hlow Hfind.
  destruct (pmm_init_spec m h l k e Hh Hm Hl H8 Hlow Hfind)
    as (p & Hp & W & Et & Eb & Eh & H35 & Hpr & Hf & Hu & Hout).
  fold total in Et, H35, Hpr, Hf. exists p. split; [done|].
  split; rewrite ?Et, ?Eh; [done|lia|lia|done|]. intros i Hi Hr.
  destruct (Hf i Hi) as [Hrf Hbt]. split; [|done]. destruct Hr as [Hr|(a & Ha & Hfr)].
  - rewrite Hbt. unfold initially_free. rewrite (proj2 (Z.leb_gt 0x100 i)) by lia.
    by rewrite andb_false_r.
  - replace i with ((a - h) / PAGE_SIZE); [by apply Hu|].
    unfold in_frame, PAGE_SIZE in *. rewrite Eh in Hfr. Z.div_mod_to_equations. lia.
Qed.

(** [pmm_init] leaves exactly these frames free: those of usable regions that
    are neither below 1 MiB nor hold the manager's own bitmap and counts; all
    counts are zero, no byte outside the bitmap and the counts is written, and
    the state satisfies the invariant under which the manager meets the contract
    of its clients.  (The number of frames is a multiple of 8,
    as on a machine whose usable memory ends on a 32 KiB boundary.) *)
Theorem pmm_init_correct (m : mem) (h : Z) (l : list memmap_entry) (k : nat) (e : memmap_entry) :
  let total := get_memory_size l / PAGE_SIZE in
  0 < h < 2 ^ 64 -> h mod 2 ^ 47 = 0 -> Forall entry_ok l ->
  total mod 8 = 0 -> 0x100 <= total ->
  list_find (fits (metadata_pages total * PAGE_SIZE)) l = Some (k, e) ->
  exists p, pmm_init m h l = Some p /\ pmm_inv p /\ total_pages p = total /\
    bitmap p = h + me_base e /\
    (forall i, 0 <= i < total -> pmm_count p i =
       if initially_free l (me_base e / PAGE_SIZE) (metadata_pages total) i then None else Some 0) /\
    (forall a, ~ pmm_private p a -> get8 (pmem p) a = get8 m a).
Proof.
  intros total Hh Hm Hl H8 Hlow Hfind.
  destruct (pmm_init_spec m h l k e Hh Hm Hl H8 Hlow Hfind)
    as (p & Hp & _ & Et & Eb & Eh & _ & _ & Hf & _ & Hout). fold total in Et, Hf.
  destruct (pmm_init_inv m h l k e Hh Hm Hl H8 Hlow Hfind) as (p' & Hp' & Hinv).
  rewrite Hp in Hp'. injection Hp' as <-.
  exists p. split; [done|]. split; [done|]. split; [done|]. split; [done|]. split; [|done].
  intros i Hi. rewrite pmm_count_in by lia. destruct (Hf i Hi) as [-> ->].
  by destruct (initially_free _ _ _ _).
Qed.

Lemma pmm_init_correct_witness :
  let l := [MemmapEntry 0x1000 0x9e000 LIMINE_MEMMAP_USABLE; MemmapEntry 0xf0000 0x10000 1;
            MemmapEntry 0x100000 0x100000 LIMINE_MEMMAP_USABLE] in
  exists p, pmm_init ∅ 0xffff800000000000 l = Some p /\ bitmap p = 0xffff800000001000 /\
    pmm_count p 1 = Some 0 /\ pmm_count p 0x100 = None /\ pmm_count p 0x1ff = None.
Proof.
  intros l.
  destruct (pmm_init_correct ∅ 0xffff800000000000 l 0
    (MemmapEntry 0x1000 0x9e000 LIMINE_MEMMAP_USABLE)) as (p & Hi & _ & Ht & Hb & Hf & _).
  - lia.
  - reflexivity.
  - unfold l. repeat constructor; simpl; try lia; discriminate.
  - reflexivity.
  - vm_compute; discriminate.
  - reflexivity.
  - exists p. split; [exact Hi|]. split; [exact Hb|].
    change (get_memory_size l / PAGE_SIZE) with 0x200 in Hf.
    split; [rewrite (Hf 1 ltac:(lia)); reflexivity|].
    split; [rewrite (Hf 0x100 ltac:(lia)); reflexivity|].
    rewrite (Hf 0x1ff ltac:(lia)); reflexivity.
Defined.

Lemma demo_pmm_inv : pmm_inv demo_pmm.
Proof.
  destruct (pmm_init_inv ∅ 0x800000000000 [MemmapEntry 0x100000 0x100000 LIMINE_MEMMAP_USABLE] 0
    (MemmapEntry 0x100000 0x100000 LIMINE_MEMMAP_USABLE)) as (p & Hp & Hinv).
  - lia.
  - reflexivity.
  - repeat constructor; simpl; lia.
  - reflexivity.
  - vm_compute. discriminate.
  - reflexivity.
  - unfold demo_pmm. rewrite Hp. exact Hinv.
Qed.
