(* ===== verification/Kmalloc.v ===== *)
(** The kernel heap, [src/src/mem/kmalloc.c].

    The free list is modelled where the code keeps it: a [FreeBlock] header
    ([size] at offset 0, [next] at offset 8) in the first 16 bytes of every free
    block, in the byte memory.  [kst] is that memory and [g_free_list_head]; the
    loops over the list run with fuel.  [chain] relates a memory to the list of
    (address, size) pairs it stores, and the theorems describe the operations
    on that list. *)
From S2P Require Import Prelude Machine StringLib Pmm Frames.

Definition sizeof_FreeBlock : Z := 16.
Definition KERN_HEAP_START : Z := 0xFFFFFFFF90000000.
Definition KERN_HEAP_END : Z := KERN_HEAP_START + 0x10000000.

(** ** [FreeBlock] *)
Definition blk_size (m : mem) (b : Z) : Z := load64 m b.
Definition blk_next (m : mem) (b : Z) : Z := load64 m (b + 8).
Definition set_size (m : mem) (b v : Z) : mem := store64 m b v.
Definition set_next (m : mem) (b v : Z) : mem := store64 m (b + 8) v.

Record kst := KSt { km : mem; g_free_list_head : Z }.

(** ** Freeing *)

(** Merge a listed block with the one after it when they touch. *)
Definition merge_with_next (m : mem) (blk : Z) : mem :=
  if negb (blk_next m blk =? 0) && (u64 (blk + blk_size m blk) =? blk_next m blk) then
    let m := set_size m blk (u64 (blk_size m blk + blk_size m (blk_next m blk))) in
    set_next m blk (blk_next m (blk_next m blk))
  else m.

(** [while (prev->next != NULL && prev->next < blk_to_free) prev = prev->next] *)
Definition find_prev (fuel : nat) (m : mem) (blk head : Z) : option Z :=
  loop fuel (fun prev =>
    if negb (blk_next m prev =? 0) && (blk_next m prev <? blk)
    then inl (blk_next m prev) else inr prev) head.

(** Link [blk] after [prev], then merge it with its neighbours. *)
Definition link_after (m : mem) (prev blk : Z) : mem :=
  let m := set_next m blk (blk_next m prev) in
  let m := set_next m prev blk in
  let m := merge_with_next m blk in
  if u64 (prev + blk_size m prev) =? blk then
    let m := set_size m prev (u64 (blk_size m prev + blk_size m blk)) in
    set_next m prev (blk_next m blk)
  else m.

Definition kfree_unlocked (fuel : nat) (k : kst) (ptr : Z) : option kst :=
  if ptr =? 0 then Some k
  else
    let blk := ptr - sizeof_FreeBlock in
    if blk_size (km k) blk =? 0 then Some k
    else if (g_free_list_head k =? 0) || (blk <? g_free_list_head k) then
      let m := set_next (km k) blk (g_free_list_head k) in
      Some (KSt (merge_with_next m blk) blk)
    else
      prev ← find_prev fuel (km k) blk (g_free_list_head k);
      Some (KSt (link_after (km k) prev blk) (g_free_list_head k)).

(** ** Allocating *)

(** The body of the search loop, with [prev_blk] and [cur_blk]. *)
Definition ffb_step (k : kst) (size : Z) : Z * Z -> (Z * Z) + (Z * kst) := fun '(prev, cur) =>
  if cur =? 0 then inr (0, k)
  else if u64 (size + sizeof_FreeBlock) <=? blk_size (km k) cur then
    let nxt := blk_next (km k) cur in
    let '(m, head) := if prev =? 0 then (km k, nxt)
                      else (set_next (km k) prev nxt, g_free_list_head k) in
    inr (cur, KSt (set_next m cur 0) head)
  else inl (cur, blk_next (km k) cur).

(** First fit: the block found is unlinked; 0 when there is none. *)
Definition find_free_block (fuel : nat) (k : kst) (size : Z) : option (Z * kst) :=
  loop fuel (ffb_step k size) (0, g_free_list_head k).

(** The tail of [kmalloc]: give the caller the front of [blk], free the rest. *)
Definition carve (fuel : nat) (k : kst) (blk size : Z) : option (Z * kst) :=
  let allocated_size := sizeof_FreeBlock + size in
  let remaining_size := u64 (blk_size (km k) blk - allocated_size) in
  let m := set_size (km k) blk allocated_size in
  let ptr := blk + sizeof_FreeBlock in
  if sizeof_FreeBlock <=? remaining_size then
    let remaining := blk + allocated_size in
    let m := set_size m remaining remaining_size in
    k ← kfree_unlocked fuel (KSt m (g_free_list_head k)) (remaining + sizeof_FreeBlock);
    Some (ptr, k)
  else
    let m := set_size m blk (u64 (blk_size m blk + remaining_size)) in
    Some (ptr, KSt m (g_free_list_head k)).

(** [size = (size + 15) & ~15] *)
Definition round16 (size : Z) : Z := Z.land (u64 (size + 15)) (u64 (Z.lnot 15)).

Section Heap.
Context {A : Type} `{FrameAllocator A}.

(** The heap and the frame allocator share the memory. *)
Record heap := Heap { h_frames : A; h_head : Z }.

Definition h_kst (h : heap) : kst := KSt (fa_mem (h_frames h)) (h_head h).
Definition h_with (h : heap) (k : kst) : heap :=
  Heap (fa_set_mem (h_frames h) (km k)) (g_free_list_head k).

Definition request_new_page (fuel : nat) (h : heap) : option (Z * heap) :=
  let '(phys_addr, s) := fa_alloc (h_frames h) in
  let h := Heap s (h_head h) in
  if phys_addr =? 0 then Some (0, h)
  else
    let ptr := phys_to_hhdm s phys_addr in
    if ptr =? 0 then Some (0, h)
    else
      let ptr := if ptr <? fa_hhdm s then phys_to_hhdm s ptr else ptr in
      let m := set_size (fa_mem s) ptr PAGE_SIZE in
      k ← kfree_unlocked fuel (KSt m (h_head h)) (ptr + sizeof_FreeBlock);
      Some (ptr, h_with h k).

(** The part of [kmalloc] under the lock. *)
Definition kmalloc_small (fuel : nat) (h : heap) (size : Z) : option (Z * heap) :=
  r ← find_free_block fuel (h_kst h) size;
  let '(blk, k) := r in
  if negb (blk =? 0) then
    r ← carve fuel k blk size; Some (fst r, h_with h (snd r))
  else
    r ← request_new_page fuel h;
    let '(page, h) := r in
    if page =? 0 then Some (0, h)
    else
      r ← find_free_block fuel (h_kst h) size;
      let '(blk, k) := r in
      if blk =? 0 then Some (0, h_with h k)
      else r ← carve fuel k blk size; Some (fst r, h_with h (snd r)).

(** Requests of a page and more go to [vmm_alloc_global], whose metadata nodes come
    from this function again; it is an argument here. *)
Definition kmalloc (vmm_alloc_global : heap -> Z -> option (Z * heap)) (fuel : nat) (h : heap) (size : Z)
  : option (Z * heap) :=
  if size =? 0 then Some (0, h)
  else
    let size := round16 size in
    if PAGE_SIZE - sizeof_FreeBlock <=? size then vmm_alloc_global h size
    else kmalloc_small fuel h size.

(** [kfree] of a block of the heap proper (below [KERN_HEAP_START]). *)
Definition kfree_small (fuel : nat) (h : heap) (ptr : Z) : option heap :=
  if ptr =? 0 then Some h
  else k ← kfree_unlocked fuel (h_kst h) ptr; Some (h_with h k).

(** Addresses of the kernel's large-allocation window go to [vmm_free]. *)
Definition kfree (vmm_free : heap -> Z -> option heap) (fuel : nat) (h : heap) (ptr : Z) : option heap :=
  if ptr =? 0 then Some h
  else if (KERN_HEAP_START <=? ptr) && (ptr <? KERN_HEAP_END) then vmm_free h ptr
  else kfree_small fuel h ptr.
End Heap.
Arguments heap : clear implicits.

#[local] Arguments store : simpl never.
#[local] Arguments load : simpl never.

(** ** Header fields *)

(** Two headers that do not overlap. *)
Definition apart (a b : Z) : Prop := a + sizeof_FreeBlock <= b \/ b + sizeof_FreeBlock <= a.

Section Fields.
Implicit Types (m : mem) (a b v x : Z).

Lemma size_set_size m a v : is_u64 v -> blk_size (set_size m a v) a = v.
Proof. apply load64_store64. Qed.
Lemma next_set_next m a v : is_u64 v -> blk_next (set_next m a v) a = v.
Proof. apply load64_store64. Qed.
Lemma size_set_size_ne m a b v : apart a b -> blk_size (set_size m a v) b = blk_size m b.
Proof. unfold apart, sizeof_FreeBlock. intros. apply load64_store64_ne. lia. Qed.
Lemma next_set_next_ne m a b v : apart a b -> blk_next (set_next m a v) b = blk_next m b.
Proof. unfold apart, sizeof_FreeBlock. intros. apply load64_store64_ne. lia. Qed.
Lemma size_set_next m a b v : a = b \/ apart a b -> blk_size (set_next m a v) b = blk_size m b.
Proof. unfold apart, sizeof_FreeBlock. intros. apply load64_store64_ne. lia. Qed.
Lemma next_set_size m a b v : a = b \/ apart a b -> blk_next (set_size m a v) b = blk_next m b.
Proof. unfold apart, sizeof_FreeBlock. intros. apply load64_store64_ne. lia. Qed.

Lemma get8_set_size m a v x : ~ a <= x < a + 16 -> get8 (set_size m a v) x = get8 m x.
Proof. intros. apply get8_store_out. lia. Qed.
Lemma get8_set_next m a v x : ~ a <= x < a + 16 -> get8 (set_next m a v) x = get8 m x.
Proof. intros. apply get8_store_out. lia. Qed.

Lemma blk_size_range m a : is_u64 (blk_size m a).
Proof. apply load64_range. Qed.
Lemma blk_next_range m a : is_u64 (blk_next m a).
Proof. apply load64_range. Qed.

Lemma blk_size_ext m m' a : (forall x, a <= x < a + 16 -> get8 m' x = get8 m x) ->
  blk_size m' a = blk_size m a.
Proof. intros H. apply load_ext. intros. apply H. lia. Qed.
Lemma blk_next_ext m m' a : (forall x, a <= x < a + 16 -> get8 m' x = get8 m x) ->
  blk_next m' a = blk_next m a.
Proof. intros H. apply load_ext. intros. apply H. lia. Qed.
End Fields.

Ltac sep := unfold apart, sizeof_FreeBlock in *; lia.
Ltac fields := repeat first
  [ rewrite size_set_size by (unfold is_u64 in *; (auto with word || lia))
  | rewrite next_set_next by (first [apply blk_next_range | unfold is_u64 in *; (auto with word || lia)])
  | rewrite size_set_size_ne by sep | rewrite next_set_next_ne by sep
  | rewrite size_set_next by sep | rewrite next_set_size by sep ].

(** ** The list a memory stores *)
Fixpoint chain (m : mem) (p : Z) (l : list (Z * Z)) : Prop :=
  match l with
  | [] => p = 0
  | (a, s) :: l => p = a /\ blk_size m a = s /\ chain m (blk_next m a) l
  end.

(** Sorted by address, above [lo], no two blocks touching (every free neighbour
    was merged), each able to hold its header, multiples of 16. *)
Fixpoint blocks_ok (lo : Z) (l : list (Z * Z)) : Prop :=
  match l with
  | [] => True
  | (a, s) :: l => lo <= a /\ a mod 16 = 0 /\ 16 <= s /\ s mod 16 = 0 /\ a + s < 2 ^ 64 /\
      blocks_ok (a + s + 1) l
  end.

Definition blk_ok (a s : Z) : Prop :=
  1 <= a /\ a mod 16 = 0 /\ 16 <= s /\ s mod 16 = 0 /\ a + s < 2 ^ 64.

(** The bytes of a list of blocks. *)
Definition covered (l : list (Z * Z)) (x : Z) : Prop :=
  exists a s, (a, s) ∈ l /\ a <= x < a + s.

(** The bytes of the blocks' headers. *)
Definition header (l : list (Z * Z)) (x : Z) : Prop :=
  exists a s, (a, s) ∈ l /\ a <= x < a + 16.

(** A block that overlaps none of the list. *)
Definition fresh (a s : Z) (l : list (Z * Z)) : Prop :=
  forall b t, (b, t) ∈ l -> a + s <= b \/ b + t <= a.

(** ** Freeing on lists: insert in order, merging with both neighbours *)
Definition merge (x : Z * Z) (l : list (Z * Z)) : list (Z * Z) :=
  match l with
  | [] => [x]
  | y :: l' => if fst x + snd x =? fst y then (fst x, snd x + snd y) :: l' else x :: l
  end.

Fixpoint insert_block (x : Z * Z) (l : list (Z * Z)) : list (Z * Z) :=
  match l with
  | [] => [x]
  | y :: l' => if fst x <? fst y then merge x l else merge y (insert_block x l')
  end.

Section Lists.
Implicit Types (l : list (Z * Z)) (a s b t x lo : Z).

Lemma covered_nil x : covered [] x <-> False.
Proof. split; [|done]. intros (? & ? & Hin & _). by apply elem_of_nil in Hin. Qed.
Lemma covered_cons a s l x : covered ((a, s) :: l) x <-> a <= x < a + s \/ covered l x.
Proof.
  unfold covered. split.
  - intros (b & t & [[= -> ->]|Hin]%elem_of_cons & Hx); eauto.
  - intros [Hx|(b & t & Hin & Hx)]; [exists a, s|exists b, t]; split; try done; by constructor.
Qed.
Lemma header_cons a s l x : header ((a, s) :: l) x <-> a <= x < a + 16 \/ header l x.
Proof.
  unfold header. split.
  - intros (b & t & [[= -> ->]|Hin]%elem_of_cons & Hx); eauto.
  - intros [Hx|(b & t & Hin & Hx)]; [exists a, s|exists b, t]; split; try done; by constructor.
Qed.
Lemma fresh_cons a s b t l : fresh a s ((b, t) :: l) <-> (a + s <= b \/ b + t <= a) /\ fresh a s l.
Proof.
  unfold fresh. split.
  - intros H. split; [apply H; by left|]. intros. apply H. by right.
  - intros [H1 H2] c u [[= -> ->]|Hin]%elem_of_cons; [done|by apply H2].
Qed.

Lemma blocks_ok_weaken lo lo' l : lo' <= lo -> blocks_ok lo l -> blocks_ok lo' l.
Proof. destruct l as [|[a s] l]; [done|]. simpl. intros ? (? & ?). split; [lia|done]. Qed.

Lemma blocks_ok_lb lo l a s : blocks_ok lo l -> (a, s) ∈ l ->
  lo <= a /\ 16 <= s /\ a + s < 2 ^ 64 /\ a mod 16 = 0 /\ s mod 16 = 0.
Proof.
  revert lo. induction l as [|[b t] l IH]; intros lo Hok Hin; [by apply elem_of_nil in Hin|].
  destruct Hok as (? & ? & ? & ? & ? & Hok).
  apply elem_of_cons in Hin as [[= -> ->]|Hin]; [lia|].
  destruct (IH _ Hok Hin). lia.
Qed.

Lemma header_covered lo l x : blocks_ok lo l -> header l x -> covered l x.
Proof.
  intros Hok (a & s & Hin & Hx). exists a, s. split; [done|].
  pose proof (blocks_ok_lb _ _ _ _ Hok Hin). lia.
Qed.

Lemma covered_lb lo l x : blocks_ok lo l -> covered l x -> lo <= x.
Proof. intros Hok (a & s & Hin & Hx). pose proof (blocks_ok_lb _ _ _ _ Hok Hin). lia. Qed.

(** Merging does not change the bytes. *)
Lemma merge_covered a s l x : (forall b t, (b, t) ∈ l -> 0 <= t) -> 0 <= s ->
  covered (merge (a, s) l) x <-> a <= x < a + s \/ covered l x.
Proof.
  intros Hl Hs. destruct l as [|[b t] l]; simpl; [apply covered_cons|].
  pose proof (Hl b t ltac:(by left)).
  destruct (Z.eqb_spec (a + s) b); rewrite !covered_cons; [|done].
  split; [intros [?|?]; [|auto]|intros [?|[?|?]]; [| |auto]]; lia.
Qed.

Lemma blocks_ok_pos lo l b t : blocks_ok lo l -> (b, t) ∈ l -> 0 <= t.
Proof. intros H1 H2. pose proof (blocks_ok_lb _ _ _ _ H1 H2). lia. Qed.

Lemma merge_ok lo a s l : lo <= a -> a mod 16 = 0 -> 16 <= s -> s mod 16 = 0 -> a + s < 2 ^ 64 ->
  blocks_ok (a + s) l -> blocks_ok lo (merge (a, s) l).
Proof.
  intros. destruct l as [|[b t] l]; simpl; [by split_and!|].
  destruct (Z.eqb_spec (a + s) b) as [<-|]; simpl in *.
  - destruct_and!. split_and!; try lia.
    + rewrite Z.add_mod by lia. by replace (s mod 16) with 0; replace (t mod 16) with 0.
    + by replace (a + (s + t) + 1) with (a + s + t + 1) by lia.
  - destruct_and!. split_and!; (done || lia).
Qed.

(** A block whose successor starts beyond its end is not merged. *)
Lemma merge_gap a s l : blocks_ok (a + s + 1) l -> merge (a, s) l = (a, s) :: l.
Proof.
  destruct l as [|[b t] l]; simpl; [done|]. intros (? & _).
  by rewrite (proj2 (Z.eqb_neq _ _)) by lia.
Qed.

Lemma insert_block_cons a s b t l : insert_block (a, s) ((b, t) :: l) =
  if a <? b then merge (a, s) ((b, t) :: l) else merge (b, t) (insert_block (a, s) l).
Proof. done. Qed.

Lemma insert_ok lo a s l : lo <= a -> a mod 16 = 0 -> 16 <= s -> s mod 16 = 0 -> a + s < 2 ^ 64 ->
  blocks_ok lo l -> fresh a s l -> blocks_ok lo (insert_block (a, s) l).
Proof.
  revert lo. induction l as [|[b t] l IH]; intros lo Hlo Ha Hs Hs16 Hmax Hok Hf.
  { simpl. split_and!; (done || lia). }
  apply fresh_cons in Hf as [Hbt Hf]. destruct Hok as (Hb & Hb16 & Ht & Ht16 & Htm & Hok).
  rewrite insert_block_cons. destruct (Z.ltb_spec a b).
  - apply (merge_ok lo a s ((b, t) :: l)); try done. simpl. split_and!; (done || lia).
  - apply merge_ok; try done. apply IH; try done; [lia|].
    eapply blocks_ok_weaken; [|done]. lia.
Qed.

Lemma insert_covered lo a s l x : 16 <= s -> blocks_ok lo l ->
  lo <= a -> a mod 16 = 0 -> s mod 16 = 0 -> a + s < 2 ^ 64 -> fresh a s l ->
  covered (insert_block (a, s) l) x <-> a <= x < a + s \/ covered l x.
Proof.
  intros Hs. revert lo. induction l as [|[b t] l IH]; intros lo Hok Hlo Ha Hs16 Hm Hf.
  { simpl. by rewrite covered_cons. }
  pose proof Hok as (Hb & Hb16 & Ht & Ht16 & Htm & Hok').
  apply fresh_cons in Hf as [Hbt Hf].
  rewrite insert_block_cons. destruct (Z.ltb_spec a b).
  - rewrite merge_covered; [done| |lia]. intros. by eapply (blocks_ok_pos lo).
  - rewrite merge_covered; [| |lia].
    + assert (blocks_ok lo l) as Hl by (eapply blocks_ok_weaken; [|done]; lia).
      rewrite (IH lo), covered_cons by done. tauto.
    + intros c u Hin. eapply (blocks_ok_pos (b + t)); [|done].
      apply insert_ok; try done; [lia|]. eapply blocks_ok_weaken; [|done]. lia.
Qed.
End Lists.

(** ** Freeing in memory *)
Section Free.
Implicit Types (m : mem) (l : list (Z * Z)) (a s b t x lo : Z).

Lemma chain_frame m m' p l : (forall x, header l x -> get8 m' x = get8 m x) ->
  chain m p l -> chain m' p l.
Proof.
  revert p. induction l as [|[a s] l IH]; intros p Hm; [done|].
  intros (-> & <- & Hc). simpl. split; [done|].
  assert (forall x, a <= x < a + 16 -> get8 m' x = get8 m x) as Ha
    by (intros; apply Hm, header_cons; auto).
  rewrite (blk_size_ext m m' a Ha), (blk_next_ext m m' a Ha). split; [done|].
  apply IH; [|done]. intros x Hx. apply Hm, header_cons. auto.
Qed.

(** Headers of blocks above [lo]. *)
Lemma header_lb lo l x : blocks_ok lo l -> header l x -> lo <= x.
Proof. intros Hok (a & s & Hin & Hx). pose proof (blocks_ok_lb _ _ _ _ Hok Hin). lia. Qed.

Lemma chain_zero m l lo : 1 <= lo -> blocks_ok lo l -> chain m 0 l -> l = [].
Proof. destruct l as [|[a s] l]; [done|]. simpl. intros ? (? & _) (? & _). lia. Qed.

Lemma merge_with_next_spec m blk s l : 1 <= blk -> 16 <= s -> blk + s < 2 ^ 64 ->
  blocks_ok (blk + s) l -> chain m blk ((blk, s) :: l) ->
  chain (merge_with_next m blk) blk (merge (blk, s) l) /\
  forall x, ~ blk <= x < blk + 16 -> get8 (merge_with_next m blk) x = get8 m x.
Proof.
  intros Hb Hs Hmax Hok Hc. pose proof Hc as (_ & Es & Hn). unfold merge_with_next. rewrite Es, u64_small by lia.
  destruct l as [|[b t] l].
  { simpl in Hn. rewrite Hn. simpl. split; [|done]. by rewrite Es, Hn. }
  destruct Hn as (En & Et & Hn). destruct Hok as (Hlb & ? & Ht & ? & Htm & Hok). rewrite En.
  rewrite (proj2 (Z.eqb_neq b 0)) by lia. simpl negb. simpl andb. unfold merge. cbn [fst snd].
  destruct (Z.eqb_spec (blk + s) b) as [<-|]; [|split; [|done]; simpl; auto].
  rewrite Et, u64_small by lia. cbv zeta.
  rewrite (next_set_size _ blk blk) by auto. rewrite En.
  rewrite (next_set_size _ blk (blk + s)) by sep. split.
  - split; [done|]. split; [by fields|]. fields.
    eapply chain_frame; [|done]. intros x Hx. pose proof (header_lb _ _ _ Hok Hx).
    rewrite get8_set_next, get8_set_size by lia. done.
  - intros x Hx. by rewrite get8_set_next, get8_set_size by lia.
Qed.

(** Base case of the walk: the block goes right after [prev]. *)
Lemma link_after_spec m prev ps blk s l :
  1 <= prev -> 16 <= ps -> prev + ps <= blk -> 16 <= s -> blk + s < 2 ^ 64 -> blk_size m blk = s ->
  blocks_ok (blk + s) l -> chain m prev ((prev, ps) :: l) ->
  chain (link_after m prev blk) prev (merge (prev, ps) (merge (blk, s) l)) /\
  forall x, ~ prev <= x < prev + 16 -> ~ blk <= x < blk + 16 ->
    get8 (link_after m prev blk) x = get8 m x.
Proof.
  intros Hp Hps Hle Hs Hmax Eb Hok Hc. pose proof Hc as (_ & Ep & Hn). unfold link_after. cbv zeta.
  set (m2 := set_next (set_next m blk (blk_next m prev)) prev blk).
  assert (chain m2 blk ((blk, s) :: l)) as Hc2.
  { unfold m2. split; [done|]. split; [by fields|]. fields.
    eapply chain_frame; [|done]. intros x Hx. pose proof (header_lb _ _ _ Hok Hx).
    by rewrite !get8_set_next by lia. }
  destruct (merge_with_next_spec m2 blk s l) as [Hc3 Hf3]; try done; [lia|].
  set (m3 := merge_with_next m2 blk) in *. clearbody m3.
  assert (blk_size m3 prev = ps) as E3.
  { rewrite (blk_size_ext m2) by (intros; apply Hf3; lia). unfold m2. by fields. }
  assert (blk_next m3 prev = blk) as N3.
  { rewrite (blk_next_ext m2) by (intros; apply Hf3; lia). unfold m2. by fields. }
  assert (forall x, ~ prev <= x < prev + 16 -> ~ blk <= x < blk + 16 -> get8 m3 x = get8 m x) as Hf.
  { intros x H1 H2. rewrite Hf3 by done. unfold m2. by rewrite !get8_set_next by done. }
  rewrite E3, u64_small by lia.
  assert (exists s' l', merge (blk, s) l = (blk, s') :: l' /\ blocks_ok (blk + s') l' /\ s <= s' /\
    blk + s' < 2 ^ 64) as (s' & l' & El & Hok' & Hs' & Hm').
  { destruct l as [|[b t] l]; simpl; [exists s, []; split_and!; (done || lia)|].
    destruct Hok as (?&?&?&?&?&Hok). destruct (Z.eqb_spec (blk + s) b) as [<-|].
    - exists (s + t), l. split_and!; try (done || lia). eapply blocks_ok_weaken; [|done]. lia.
    - exists s, ((b, t) :: l). split_and!; (done || lia). }
  rewrite El in *. unfold merge. cbn [fst snd].
  destruct (Z.eqb_spec (prev + ps) blk) as [<-|]; [|by split; [simpl; rewrite N3|]].
  destruct Hc3 as (_ & Es3 & Hn3). rewrite Es3, u64_small by lia. split.
  - rewrite (next_set_size _ prev (prev + ps)) by sep. split; [done|]. split; [by fields|]. fields.
    eapply chain_frame; [|done]. intros x Hx. pose proof (header_lb _ _ _ Hok' Hx).
    by rewrite get8_set_next, get8_set_size by lia.
  - intros x H1 H2. rewrite get8_set_next, get8_set_size by done. by apply Hf.
Qed.

Lemma find_prev_S n m blk prev : find_prev (S n) m blk prev =
  if negb (blk_next m prev =? 0) && (blk_next m prev <? blk)
  then find_prev n m blk (blk_next m prev) else Some prev.
Proof. unfold find_prev. simpl. by destruct (_ && _). Qed.

(** The walk: it ends within the list's length and the block lands in order. *)
Lemma walk_and_link m prev ps blk s l fuel :
  1 <= prev -> 16 <= ps -> prev + ps <= blk -> blk_ok blk s -> blk_size m blk = s ->
  blocks_ok (prev + ps + 1) l -> fresh blk s l -> chain m prev ((prev, ps) :: l) ->
  (length l < fuel)%nat ->
  exists p, find_prev fuel m blk prev = Some p /\
    chain (link_after m p blk) prev (merge (prev, ps) (insert_block (blk, s) l)) /\
    forall x, ~ header ((prev, ps) :: l) x -> ~ blk <= x < blk + 16 ->
      get8 (link_after m p blk) x = get8 m x.
Proof.
  revert prev ps fuel. induction l as [|[n ns] l IH];
    intros prev ps fuel Hp Hps Hle Hb Eb Hok Hf Hc Hfuel;
    (destruct fuel as [|fuel]; [simpl in Hfuel; lia|]); pose proof Hb as (? & ? & ? & ? & ?);
    pose proof Hc as (_ & Ep & Hn); rewrite find_prev_S.
  { simpl in Hn. rewrite Hn. exists prev. split; [done|].
    destruct (link_after_spec m prev ps blk s []) as [Hch Hfr]; try done. split; [done|].
    intros x Hx1 Hx2. apply Hfr; [|done]. intros Hx3. apply Hx1, header_cons. auto. }
  destruct Hn as (En & Ens & Hn). rewrite En.
  apply fresh_cons in Hf as [Hsep Hf]. pose proof Hok as (? & ? & ? & ? & ? & Hok').
  rewrite (proj2 (Z.eqb_neq n 0)) by lia. rewrite insert_block_cons. simpl negb. simpl andb.
  destruct (Z.ltb_spec n blk) as [Hlt|Hge].
  - destruct (IH n ns fuel) as (p & Hfp & Hch & Hfr); try (done || lia); [simpl in Hfuel; lia|].
    exists p. split; [done|]. rewrite (proj2 (Z.ltb_ge blk n)) by lia.
    assert (blocks_ok (prev + ps + 1) (insert_block (blk, s) ((n, ns) :: l))) as Hins
      by (apply insert_ok; (done || lia || by apply fresh_cons)).
    rewrite insert_block_cons, (proj2 (Z.ltb_ge blk n)) in Hins by lia.
    rewrite merge_gap by done. split.
    + assert (forall x, prev <= x < prev + 16 -> get8 (link_after m p blk) x = get8 m x) as Hpr.
      { intros x Hx. apply Hfr; [|lia]. intros [?|Hh]%header_cons; [lia|].
        pose proof (header_lb _ _ _ Hok' Hh). lia. }
      split; [done|]. rewrite (blk_size_ext m) by done. split; [done|].
      rewrite (blk_next_ext m) by done. by rewrite En.
    + intros x Hx. apply Hfr. intros Hh. apply Hx, header_cons. auto.
  - rewrite (proj2 (Z.ltb_lt blk n)) by lia. exists prev. split; [done|].
    destruct (link_after_spec m prev ps blk s ((n, ns) :: l)) as [Hch Hfr]; try done.
    { simpl. split_and!; (done || lia). }
    split; [done|]. intros x Hx1 Hx2. apply Hfr; [|done]. intros Hx3. apply Hx1, header_cons. auto.
Qed.

(** [kfree_unlocked] of a block outside the list: it ends, the list stays sorted
    and merged, and only headers of free blocks are written. *)
Lemma kfree_unlocked_spec k l ptr s fuel :
  let blk := ptr - sizeof_FreeBlock in
  blk_ok blk s -> blk_size (km k) blk = s ->
  blocks_ok 1 l -> fresh blk s l -> chain (km k) (g_free_list_head k) l -> (length l < fuel)%nat ->
  exists k', kfree_unlocked fuel k ptr = Some k' /\
    chain (km k') (g_free_list_head k') (insert_block (blk, s) l) /\
    forall x, ~ header l x -> ~ blk <= x < blk + 16 -> get8 (km k') x = get8 (km k) x.
Proof.
  intros blk Hb Es Hok Hf Hc Hfuel. pose proof Hb as (? & ? & ? & ? & ?).
  unfold kfree_unlocked. fold blk. rewrite (proj2 (Z.eqb_neq ptr 0)), Es by (unfold blk, sizeof_FreeBlock in *; lia).
  rewrite (proj2 (Z.eqb_neq s 0)) by lia.
  destruct ((g_free_list_head k =? 0) || (blk <? g_free_list_head k)) eqn:Hfirst.
  - eexists. split; [done|]. cbn [km g_free_list_head].
    assert (blocks_ok (blk + s) l /\ insert_block (blk, s) l = merge (blk, s) l) as [Hbl ->].
    { destruct l as [|[a t] l]; [done|]. destruct Hc as (Eh & _). rewrite Eh in Hfirst.
      apply fresh_cons in Hf as [Hsep _]. destruct Hok as (? & ? & ? & ? & ? & ?).
      apply orb_true_iff in Hfirst as [?%Z.eqb_eq|Hlt]; [lia|].
      rewrite insert_block_cons, Hlt. split; [|done]. simpl. split_and!; (done || lia). }
    set (m1 := set_next (km k) blk (g_free_list_head k)).
    assert (chain m1 blk ((blk, s) :: l)) as Hc1.
    { unfold m1. split; [done|].
      rewrite size_set_next by auto. split; [done|].
      assert (is_u64 (g_free_list_head k)).
      { destruct l as [|[a t] l]; [by rewrite Hc|]. destruct Hc as (-> & _).
        destruct Hok as (? & ? & ? & ? & ? & _). unfold is_u64. lia. }
      rewrite next_set_next by done. eapply chain_frame; [|done]. intros x Hx.
      pose proof (header_lb _ _ _ Hbl Hx). by rewrite get8_set_next by lia. }
    destruct (merge_with_next_spec m1 blk s l) as [Hc2 Hf2]; try (done || lia).
    split; [done|]. intros x Hx1 Hx2. rewrite Hf2 by done. unfold m1. by rewrite get8_set_next.
  - apply orb_false_iff in Hfirst as [Hnz%Z.eqb_neq Hge%Z.ltb_ge].
    destruct l as [|[a t] l]; [done|]. pose proof Hc as (Eh & Et & Hn).
    apply fresh_cons in Hf as [Hsep Hf]. pose proof Hok as (? & ? & ? & ? & ? & Hok').
    destruct (walk_and_link (km k) a t blk s l fuel) as (p & Hp & Hch & Hfr);
      try (done || lia || (simpl in Hfuel; lia)).
    rewrite Eh, Hp. cbn [mbind option_bind]. eexists. split; [done|]. cbn [km g_free_list_head].
    rewrite insert_block_cons, (proj2 (Z.ltb_ge blk a)) by lia. by split.
Qed.
End Free.

(** ** First fit on lists *)
Fixpoint take_fit (need : Z) (l : list (Z * Z)) : option ((Z * Z) * list (Z * Z)) :=
  match l with
  | [] => None
  | (a, s) :: l =>
      if need <=? s then Some ((a, s), l)
      else match take_fit need l with
           | Some (b, rest) => Some (b, (a, s) :: rest)
           | None => None
           end
  end.

Section Take.
Implicit Types (l : list (Z * Z)) (a s b t x lo need : Z).

Lemma take_fit_Some need l a s rest lo : take_fit need l = Some ((a, s), rest) -> blocks_ok lo l ->
  need <= s /\ (a, s) ∈ l /\ blocks_ok lo rest /\ (length rest < length l)%nat /\
  (forall x, covered l x <-> a <= x < a + s \/ covered rest x) /\
  (forall b t, (b, t) ∈ rest -> a + s < b \/ b + t < a) /\
  (forall x, header rest x -> header l x).
Proof.
  revert lo rest. induction l as [|[b t] l IH]; intros lo rest Ht Hok; [done|].
  simpl in Ht. pose proof Hok as (? & ? & ? & ? & ? & Hok'). destruct (Z.leb_spec need t).
  - simplify_eq. split_and!; [done|by left|by eapply blocks_ok_weaken; [|done]; lia|simpl; lia| | |].
    + intros x. apply covered_cons.
    + intros c u Hin. pose proof (blocks_ok_lb _ _ _ _ Hok' Hin). lia.
    + intros x Hx. apply header_cons. auto.
  - destruct (take_fit need l) as [[b' rest']|] eqn:E; [|done]. simplify_eq.
    destruct (IH _ _ eq_refl Hok') as (? & Hin & ? & ? & Hcov & Hsep & Hhd).
    pose proof (blocks_ok_lb _ _ _ _ Hok' Hin).
    split_and!; [done|by right|simpl; split_and!; done|simpl; lia| | |].
    + intros x. rewrite !covered_cons, Hcov. tauto.
    + intros c u [[= -> ->]|Hc]%elem_of_cons; [lia|by apply Hsep].
    + intros x. rewrite !header_cons. intros [?|?]; auto.
Qed.

Lemma take_fit_None need l : take_fit need l = None ->
  forall a s, (a, s) ∈ l -> s < need.
Proof.
  induction l as [|[b t] l IH]; intros Ht a s Hin; [by apply elem_of_nil in Hin|].
  simpl in Ht. destruct (Z.leb_spec need t); [done|].
  destruct (take_fit need l) as [[]|]; [done|].
  apply elem_of_cons in Hin as [[= -> ->]|Hin]; [done|by eapply IH].
Qed.
End Take.

(** ** First fit in memory *)
Section FindFree.
Context (k : kst) (size need : Z).
Context (Hneed : u64 (size + sizeof_FreeBlock) = need).
Implicit Types (l : list (Z * Z)).

(** The search past a block [prev] that does not fit. *)
Lemma ffb_walk prev ps l fuel : 1 <= prev -> 16 <= ps -> blocks_ok (prev + ps + 1) l ->
  chain (km k) prev ((prev, ps) :: l) -> (length l < fuel)%nat ->
  match take_fit need l with
  | None => loop fuel (ffb_step k size) (prev, blk_next (km k) prev) = Some (0, k)
  | Some ((a, s), rest) => exists m',
      loop fuel (ffb_step k size) (prev, blk_next (km k) prev) =
        Some (a, KSt m' (g_free_list_head k)) /\
      chain m' prev ((prev, ps) :: rest) /\ blk_size m' a = s /\
      forall x, ~ header ((prev, ps) :: l) x -> get8 m' x = get8 (km k) x
  end.
Proof.
  revert prev ps fuel. induction l as [|[n ns] l IH]; intros prev ps fuel Hp Hps Hok Hc Hfuel;
    (destruct fuel as [|fuel]; [simpl in Hfuel; lia|]); pose proof Hc as (_ & Ep & Hn).
  { simpl in Hn. simpl take_fit. simpl loop. rewrite Hn. done. }
  destruct Hn as (En & Ens & Hn). pose proof Hok as (? & ? & ? & ? & ? & Hok').
  simpl take_fit. cbn [loop]. unfold ffb_step at 1 3. rewrite En.
  rewrite (proj2 (Z.eqb_neq n 0)) by lia. rewrite Hneed, Ens.
  destruct (Z.leb_spec need ns) as [Hfit|Hno].
  - rewrite (proj2 (Z.eqb_neq prev 0)) by lia. eexists. split; [done|].
    split; [|split].
    + split; [done|]. split; [by fields|].
      rewrite next_set_next_ne by sep. rewrite next_set_next by apply blk_next_range.
      eapply chain_frame; [|done]. intros x Hx. pose proof (header_lb _ _ _ Hok' Hx).
      by rewrite !get8_set_next by lia.
    + by fields.
    + intros x Hx. rewrite !get8_set_next; [done|..]; intros ?; apply Hx; rewrite !header_cons; auto.
  - specialize (IH n ns fuel ltac:(lia) ltac:(lia) Hok').
    assert (chain (km k) n ((n, ns) :: l)) as Hcn by done.
    specialize (IH Hcn ltac:(simpl in Hfuel; lia)).
    destruct (take_fit need l) as [[[a s] rest]|]; [|done].
    destruct IH as (m' & Hl & Hch & Hs & Hfr). exists m'. split; [done|].
    assert (forall x, prev <= x < prev + 16 -> get8 m' x = get8 (km k) x) as Hpr.
    { intros x Hx. apply Hfr. intros [?|Hh]%header_cons; [lia|].
      pose proof (header_lb _ _ _ Hok' Hh). lia. }
    split; [|split; [done|]].
    + split; [done|]. rewrite (blk_size_ext (km k)) by done. split; [done|].
      rewrite (blk_next_ext (km k)) by done. by rewrite En.
    + intros x Hx. apply Hfr. intros Hh. apply Hx, header_cons. auto.
Qed.

Lemma find_free_block_spec l fuel : blocks_ok 1 l -> chain (km k) (g_free_list_head k) l ->
  (length l < fuel)%nat ->
  match take_fit need l with
  | None => find_free_block fuel k size = Some (0, k)
  | Some ((a, s), rest) => exists k', find_free_block fuel k size = Some (a, k') /\
      chain (km k') (g_free_list_head k') rest /\ blk_size (km k') a = s /\
      forall x, ~ header l x -> get8 (km k') x = get8 (km k) x
  end.
Proof.
  intros Hok Hc Hfuel. change (find_free_block fuel k size) with
    (loop fuel (ffb_step k size) (0, g_free_list_head k)).
  destruct fuel as [|fuel]; [lia|]. destruct l as [|[a s] l].
  { simpl in Hc |- *. by rewrite Hc. }
  pose proof Hc as (Eh & Es & Hn). pose proof Hok as (? & ? & ? & ? & ? & Hok').
  simpl take_fit. cbn [loop]. unfold ffb_step at 1 3. rewrite Eh.
  rewrite (proj2 (Z.eqb_neq a 0)), Hneed, Es by lia.
  destruct (Z.leb_spec need s) as [Hfit|Hno].
  - simpl. eexists. split; [done|]. cbn [km g_free_list_head]. split; [|split].
    + eapply chain_frame; [|done]. intros x Hx. pose proof (header_lb _ _ _ Hok' Hx).
      by rewrite get8_set_next by lia.
    + by fields.
    + intros x Hx. rewrite get8_set_next; [done|]. intros ?. apply Hx, header_cons. auto.
  - pose proof (ffb_walk a s l fuel ltac:(lia) ltac:(lia) Hok' (conj eq_refl (conj Es Hn))
      ltac:(simpl in Hfuel; lia)) as Hw.
    destruct (take_fit need l) as [[[b t] rest]|]; [|done].
    destruct Hw as (m' & Hl & Hch & Hs & Hfr). eexists. split; [done|].
    cbn [km g_free_list_head]. by rewrite Eh.
Qed.
End FindFree.

(** ** Allocation *)
Lemma insert_block_length a s l : (length (insert_block (a, s) l) <= S (length l))%nat.
Proof.
  assert (forall x l, (length (merge x l) <= S (length l))%nat) as Hm.
  { intros x [|y l']; simpl; [lia|]. destruct (_ =? _); simpl; lia. }
  induction l as [|[c u] l IH]; [simpl; lia|]. rewrite insert_block_cons.
  destruct (_ <? _); [apply Hm|]. etrans; [apply Hm|]. simpl. lia.
Qed.

Section Carve.
Implicit Types (l rest : list (Z * Z)).

(** The free list after the front [16 + size] bytes of [(a, s)] are given out. *)
Definition carve_list (a s size : Z) rest : list (Z * Z) :=
  if 16 <=? s - (16 + size) then insert_block (a + (16 + size), s - (16 + size)) rest else rest.

Lemma carve_list_ok a s size rest : blk_ok a s -> 0 <= size -> size mod 16 = 0 -> 16 + size <= s ->
  blocks_ok 1 rest -> fresh a s rest ->
  blocks_ok 1 (carve_list a s size rest) /\
  (length (carve_list a s size rest) <= S (length rest))%nat /\
  forall x, covered (carve_list a s size rest) x <-> a + (16 + size) <= x < a + s \/ covered rest x.
Proof.
  intros (? & Ha & ? & Hs & ?) Hsz Hm Hle Hok Hf. unfold carve_list.
  assert ((s - (16 + size)) mod 16 = 0 /\ (a + (16 + size)) mod 16 = 0) as [Hd1 Hd2]
    by (Z.div_mod_to_equations; lia).
  assert (fresh (a + (16 + size)) (s - (16 + size)) rest) as Hf'
    by (intros b t Hin; specialize (Hf b t Hin); lia).
  destruct (Z.leb_spec 16 (s - (16 + size))).
  - split; [apply insert_ok; (done || lia)|]. split.
    + apply insert_block_length.
    + intros x. rewrite (insert_covered 1) by (done || lia).
      replace (a + (16 + size) + (s - (16 + size))) with (a + s) by lia. done.
  - assert (s = 16 + size) as -> by (Z.div_mod_to_equations; lia). split; [done|]. split; [lia|].
    intros x. split; [auto|]. intros [?|?]; [lia|done].
Qed.

Lemma carve_spec k a s size rest fuel : blk_ok a s -> 0 <= size -> size mod 16 = 0 -> 16 + size <= s ->
  blocks_ok 1 rest -> fresh a s rest -> chain (km k) (g_free_list_head k) rest ->
  blk_size (km k) a = s -> (length rest < fuel)%nat ->
  exists k', carve fuel k a size = Some (a + 16, k') /\
    chain (km k') (g_free_list_head k') (carve_list a s size rest) /\
    blk_size (km k') a = 16 + size /\
    forall x, ~ header rest x -> ~ a <= x < a + s -> get8 (km k') x = get8 (km k) x.
Proof.
  intros Hb Hsz Hm Hle Hok Hf Hc Es Hfuel. pose proof Hb as (? & Ha & ? & Hs & ?).
  unfold carve, carve_list, sizeof_FreeBlock. rewrite Es, u64_small by lia.
  assert (forall x, header rest x -> ~ a <= x < a + s) as Hhd.
  { intros x (b & t & Hin & Hx) Hax. pose proof (blocks_ok_lb _ _ _ _ Hok Hin).
    specialize (Hf b t Hin). lia. }
  destruct (Z.leb_spec 16 (s - (16 + size))) as [Hrem|Hrem].
  - set (m := set_size (set_size (km k) a (16 + size)) (a + (16 + size)) (s - (16 + size))).
    destruct (kfree_unlocked_spec (KSt m (g_free_list_head k)) rest
      (a + (16 + size) + 16) (s - (16 + size)) fuel) as (k' & Hk & Hch & Hfr).
    + unfold sizeof_FreeBlock. unfold blk_ok. Z.div_mod_to_equations. lia.
    + unfold m, sizeof_FreeBlock. cbn [km].
      replace (a + (16 + size) + 16 - 16) with (a + (16 + size)) by lia. by fields.
    + done.
    + intros b t Hin. specialize (Hf b t Hin). unfold sizeof_FreeBlock. lia.
    + eapply chain_frame; [|done]. intros x Hx%Hhd. unfold m. cbn [km].
      by rewrite !get8_set_size by lia.
    + done.
    + rewrite Hk. cbn [mbind option_bind]. exists k'. split; [done|].
      unfold sizeof_FreeBlock in Hch, Hfr.
      replace (a + (16 + size) + 16 - 16) with (a + (16 + size)) in * by lia.
      split; [done|]. split.
      * rewrite (blk_size_ext m); [unfold m; by fields|]. intros x Hx.
        apply Hfr; [|lia]. intros Hh%Hhd. lia.
      * intros x Hh Hx. rewrite Hfr by (done || lia). unfold m. cbn [km].
        by rewrite !get8_set_size by lia.
  - eexists. split; [done|]. cbn [km g_free_list_head].
    assert (s = 16 + size) by (Z.div_mod_to_equations; lia).
    rewrite size_set_size by (unfold is_u64; lia). rewrite u64_small by lia.
    split; [|split].
    + eapply chain_frame; [|done]. intros x Hx%Hhd. by rewrite !get8_set_size by lia.
    + rewrite size_set_size by (unfold is_u64; lia). lia.
    + intros x Hh Hx. by rewrite !get8_set_size by lia.
Qed.
End Carve.

(** ** The heap over its frame allocator *)

Lemma ForallOrdPairs_middle {X} (R : X -> X -> Prop) l1 x l2 :
  ForallOrdPairs R (l1 ++ x :: l2) ->
  ForallOrdPairs R (l1 ++ l2) /\ Forall (fun y => R y x) l1 /\ Forall (R x) l2.
Proof.
  induction l1 as [|y l1 IH]; simpl; intros H; inversion H as [|? ? Hy Hl]; subst.
  - split; [done|]. split; [constructor|done].
  - destruct (IH Hl) as (H1 & H2 & H3). apply Forall_app in Hy as [Hy1 [Hy2 Hy3]%Forall_cons].
    split; [constructor; [by apply Forall_app|done]|]. split; [by constructor|done].
Qed.

(** The new block, or the merged block it became part of, is in the list. *)
Lemma insert_block_contains a s l : 0 <= s ->
  (forall b t, (b, t) ∈ l -> 0 <= t) ->
  exists b t, (b, t) ∈ insert_block (a, s) l /\ s <= t.
Proof.
  intros Hs Hl. induction l as [|[c u] l IH]; [exists a, s; split; [by left|done]|].
  pose proof (Hl c u ltac:(by left)). rewrite insert_block_cons. destruct (_ <? _).
  - unfold merge. cbn [fst snd]. destruct (_ =? _); [exists a, (s + u)|exists a, s]; (split; [by left|lia]).
  - destruct IH as (b & t & Hin & Ht); [intros b t Hb; apply (Hl b t); by right|].
    destruct (insert_block (a, s) l) as [|[d v] l']; [by apply elem_of_nil in Hin|].
    unfold merge. cbn [fst snd]. destruct (_ =? _).
    + apply elem_of_cons in Hin as [[= -> ->]|Hin]; [exists c, (u + v)|exists b, t];
        (split; [by constructor|lia]).
    + exists b, t. split; [by right|done].
Qed.

Section HeapSpec.
Context {A : Type} `{FS : FrameAllocatorSpec A}.
Implicit Types (s : A) (h : heap A) (l live : list (Z * Z)) (m : mem).

(** The byte lies in a frame someone holds. *)
Definition held s (x : Z) : Prop :=
  exists i r, in_frame (fa_hhdm s) i x /\ fa_count s i = Some r /\ 0 < r.

Lemma held_not_private s x : fa_inv s -> held s x -> ~ fa_private s x.
Proof.
  intros Hi (i & r & Hf & Hc & Hr). apply (frame_not_private s i x); [done|done|].
  rewrite Hc. intros [= ->]. lia.
Qed.

(** Writing bytes of held frames does not disturb the allocator. *)
Lemma held_write s m : fa_inv s -> (forall x, ~ held s x -> get8 m x = get8 (fa_mem s) x) ->
  fa_inv (fa_set_mem s m) /\ (forall x, held (fa_set_mem s m) x <-> held s x) /\
  (forall x, fa_private (fa_set_mem s m) x <-> fa_private s x) /\
  fa_hhdm (fa_set_mem s m) = fa_hhdm s.
Proof.
  intros Hi Hm. destruct (fa_set_mem_ok s m Hi) as (Hi' & Hh & Hc & Hp).
  { intros a Ha. apply Hm. intros Hh. by apply (held_not_private s a). }
  split; [done|]. split; [|done]. intros x. unfold held. rewrite Hh. by setoid_rewrite Hc.
Qed.

(** [l] is the free list, [live] the blocks given out (header included). *)
Record heap_inv h l live : Prop := {
  hi_frames : fa_inv (h_frames h);
  hi_chain : chain (fa_mem (h_frames h)) (h_head h) l;
  hi_blocks : blocks_ok 1 l;
  hi_live : Forall (fun b => blk_ok (fst b) (snd b) /\
                     blk_size (fa_mem (h_frames h)) (fst b) = snd b) live;
  hi_disjoint : ForallOrdPairs (fun b c => fresh (fst b) (snd b) [c]) live;
  hi_apart : Forall (fun b => fresh (fst b) (snd b) l) live;
  hi_held x : covered l x \/ covered live x -> held (h_frames h) x
}.

Lemma fresh_sym a n b t : fresh a n [(b, t)] -> fresh b t [(a, n)].
Proof.
  intros Hf c u [[= -> ->]|Hn]%elem_of_cons; [|by apply elem_of_nil in Hn].
  specialize (Hf b t ltac:(by left)). lia.
Qed.

Lemma heap_update h l live k l' live' : heap_inv h l live ->
  chain (km k) (g_free_list_head k) l' -> blocks_ok 1 l' ->
  (forall x, covered l' x \/ covered live' x -> held (h_frames h) x) ->
  (forall x, ~ held (h_frames h) x -> get8 (km k) x = get8 (fa_mem (h_frames h)) x) ->
  Forall (fun b => blk_ok (fst b) (snd b) /\ blk_size (km k) (fst b) = snd b) live' ->
  ForallOrdPairs (fun b c => fresh (fst b) (snd b) [c]) live' ->
  Forall (fun b => fresh (fst b) (snd b) l') live' ->
  heap_inv (h_with h k) l' live'.
Proof.
  intros Hinv Hc Hb Hcov Hm Hlive Hdis Hap.
  destruct (held_write (h_frames h) (km k) (hi_frames _ _ _ Hinv) Hm) as (Hi & Hh & _ & _).
  split; unfold h_with; cbn [h_frames h_head]; rewrite ?fa_mem_set; try done.
  intros x Hx. by apply Hh, Hcov.
Qed.

(** Blocks given out keep their headers when only free bytes are written. *)
Lemma live_kept l live m m' :
  Forall (fun b => blk_ok (fst b) (snd b) /\ blk_size m (fst b) = snd b) live ->
  Forall (fun b => fresh (fst b) (snd b) l) live ->
  (forall x, ~ covered l x -> get8 m' x = get8 m x) ->
  Forall (fun b => blk_ok (fst b) (snd b) /\ blk_size m' (fst b) = snd b) live.
Proof.
  rewrite !Forall_forall. intros Hok Hap Hm [a n] Hin. destruct (Hok _ Hin) as [Hb Hs].
  split; [done|]. rewrite <- Hs. apply blk_size_ext. intros x Hx. apply Hm.
  intros (b & t & Hl & Hbt). specialize (Hap _ Hin b t Hl).
  destruct Hb as (? & ? & ? & _). cbn [fst snd] in *. lia.
Qed.

Lemma covered_not_fresh a n l x : fresh a n l -> a <= x < a + n -> ~ covered l x.
Proof. intros Hf Hx (b & t & Hin & Hb). specialize (Hf b t Hin). lia. Qed.

(** Intervals that share no byte. *)
Lemma fresh_of_covered a n l lo : 0 < n -> blocks_ok lo l ->
  (forall x, a <= x < a + n -> ~ covered l x) -> fresh a n l.
Proof.
  intros Hn Hok Hx b t Hin. pose proof (blocks_ok_lb _ _ _ _ Hok Hin).
  destruct (decide (a + n <= b \/ b + t <= a)); [done|]. exfalso.
  apply (Hx (Z.max a b)); [lia|]. exists b, t. split; [done|lia].
Qed.

(** A request served from the free list. *)
Lemma alloc_hit h l live fuel size a n rest : heap_inv h l live ->
  0 <= size -> size mod 16 = 0 -> size + 16 < 2 ^ 64 ->
  take_fit (size + 16) l = Some ((a, n), rest) -> (length l < fuel)%nat ->
  exists k1 k2, find_free_block fuel (h_kst h) size = Some (a, k1) /\
    carve fuel k1 a size = Some (a + 16, k2) /\ 1 <= a /\ a mod 16 = 0 /\
    heap_inv (h_with h k2) (carve_list a n size rest) ((a, 16 + size) :: live) /\
    (length (carve_list a n size rest) <= length l)%nat /\
    covered l a /\
    forall x, ~ covered l x -> get8 (km k2) x = get8 (fa_mem (h_frames h)) x.
Proof.
  intros Hinv Hsz Hm Hmax Ht Hfuel. pose proof Hinv as [Hi Hc Hb Hlive Hdis Hap Hheld].
  destruct (take_fit_Some _ _ _ _ _ _ Ht Hb) as (Hfit & Hin & Hrb & Hlen & Hcov & Hsep & Hhd).
  pose proof (blocks_ok_lb _ _ _ _ Hb Hin) as (? & ? & ? & ? & ?).
  pose proof (find_free_block_spec (h_kst h) size (size + 16)
    ltac:(apply u64_small; lia) l fuel Hb Hc Hfuel) as Hff. rewrite Ht in Hff.
  destruct Hff as (k1 & Hff & Hc1 & Hs1 & Hm1).
  assert (fresh a n rest) as Hfr by (intros b t Hbt; specialize (Hsep b t Hbt); lia).
  assert (blk_ok a n) as Hblk by by repeat split.
  destruct (carve_spec k1 a n size rest fuel) as (k2 & Hcv & Hc2 & Hs2 & Hm2); try (done || lia).
  destruct (carve_list_ok a n size rest) as (Hcb & Hclen & Hccov); try (done || lia).
  assert (forall x, ~ covered l x -> get8 (km k2) x = get8 (fa_mem (h_frames h)) x) as Hmem.
  { intros x Hx. rewrite Hm2; [apply Hm1|..].
    - intros Hh. by apply Hx, (header_covered 1).
    - intros Hh. apply Hx, Hcov. right. by apply (header_covered 1).
    - intros Hax. apply Hx, Hcov. auto. }
  exists k1, k2. split; [done|]. split; [done|]. split; [lia|]. split; [done|].
  split; [|split; [lia|split; [apply Hcov; left; lia|done]]].
  apply (heap_update h l live); try done.
  - intros x [Hx|[Hx|Hx]%covered_cons]; apply Hheld; [left|left|by right]; apply Hcov.
    + apply Hccov in Hx as [?|?]; [left; lia|by right].
    + left. lia.
  - intros x Hx. apply Hmem. intros Hcx. apply Hx, Hheld. by left.
  - constructor; [|by eapply live_kept]. cbn [fst snd]. split; [|done].
    unfold blk_ok. Z.div_mod_to_equations. lia.
  - constructor; [|done]. rewrite Forall_forall in Hap |- *. intros [b t] Hbl.
    apply fresh_sym. cbn [fst snd]. intros c u [[= -> ->]|Hn]%elem_of_cons; [|by apply elem_of_nil in Hn].
    specialize (Hap _ Hbl a n Hin). cbn [fst snd] in *. lia.
  - constructor; cbn [fst snd].
    + apply (fresh_of_covered _ _ _ 1); [lia|done|].
      intros x Hx [?|Hr]%Hccov; [lia|]. by apply (covered_not_fresh a n rest x); [|lia|].
    + rewrite Forall_forall in Hap, Hlive |- *. intros [c u] Hcl. cbn [fst snd].
      destruct (Hlive _ Hcl) as [(_ & _ & ? & _) _]. cbn [snd] in *.
      apply (fresh_of_covered _ _ _ 1); [lia|done|].
      intros x Hx Hcx. apply (covered_not_fresh c u l x (Hap _ Hcl) Hx), Hcov.
      apply Hccov in Hcx as [?|?]; [left; lia|by right].
Qed.

(** What other code does to frames it holds, or to the allocator, leaves the
    heap alone. *)
Lemma heap_stable h l live s' : heap_inv h l live -> fa_inv s' ->
  (forall x, covered l x \/ covered live x -> held s' x /\
     get8 (fa_mem s') x = get8 (fa_mem (h_frames h)) x) ->
  heap_inv (Heap s' (h_head h)) l live.
Proof.
  intros [Hi Hc Hb Hlive Hdis Hap Hheld] Hi' Hx.
  split; cbn [h_frames h_head]; try done.
  - eapply chain_frame; [|done]. intros x Hh. apply Hx. left. by apply (header_covered 1).
  - rewrite Forall_forall in Hlive |- *. intros [a n] Hin. destruct (Hlive _ Hin) as [Hbk Hs].
    split; [done|]. rewrite <- Hs. apply blk_size_ext. intros x Hxr. apply Hx. right. exists a, n.
    destruct Hbk as (? & ? & ? & _). split; [done|]. cbn [fst snd] in *. lia.
  - intros x Hc'. by apply Hx.
Qed.

(** Giving a block back: shared by [kfree] and [request_new_page]. *)
Lemma free_block h l live m a n fuel : heap_inv h l live -> (length l < fuel)%nat ->
  blk_ok a n -> blk_size m a = n -> fresh a n l -> Forall (fun b => fresh a n [b]) live ->
  (forall x, a <= x < a + n -> held (h_frames h) x) ->
  (forall x, ~ a <= x < a + 16 -> get8 m x = get8 (fa_mem (h_frames h)) x) ->
  exists k, kfree_unlocked fuel (KSt m (h_head h)) (a + sizeof_FreeBlock) = Some k /\
    heap_inv (h_with h k) (insert_block (a, n) l) live /\
    (forall x, covered (insert_block (a, n) l) x <-> a <= x < a + n \/ covered l x) /\
    (forall x, ~ covered l x -> ~ a <= x < a + n ->
       get8 (km k) x = get8 (fa_mem (h_frames h)) x).
Proof.
  intros Hinv Hfuel Hbk Hs Hfr Hfl Hhl Hm. pose proof Hinv as [Hi Hc Hb Hlive Hdis Hap Hheld].
  pose proof Hbk as (? & ? & ? & ? & ?).
  destruct (kfree_unlocked_spec (KSt m (h_head h)) l (a + sizeof_FreeBlock) n fuel)
    as (k & Hk & Hch & Hfm); replace (a + sizeof_FreeBlock - sizeof_FreeBlock) with a in * by lia;
    try done.
  { cbn [km g_free_list_head]. eapply chain_frame; [|exact Hc]. intros x Hx. apply Hm. intros ?.
    apply (covered_not_fresh a n l x); [done|lia|]. by apply (header_covered 1). }
  assert (forall x, covered (insert_block (a, n) l) x <-> a <= x < a + n \/ covered l x) as Hcov
    by (intros x; by apply (insert_covered 1)).
  assert (blocks_ok 1 (insert_block (a, n) l)) as Hok by by apply insert_ok.
  assert (forall x, ~ covered l x -> ~ a <= x < a + n ->
    get8 (km k) x = get8 (fa_mem (h_frames h)) x) as Hkm.
  { intros x Hx1 Hx2. rewrite Hfm; [apply Hm; lia| |lia]. intros Hx. by apply Hx1, (header_covered 1). }
  assert (Forall (fun b => fresh (fst b) (snd b) (insert_block (a, n) l)) live) as Hap'.
  { rewrite Forall_forall in Hap, Hlive, Hfl |- *. intros [c u] Hcl. cbn [fst snd].
    destruct (Hlive _ Hcl) as [(_ & _ & ? & _) _]. cbn [snd] in *.
    apply (fresh_of_covered _ _ _ 1); [lia|done|]. intros x Hx [Hax|Hcx]%Hcov.
    - specialize (Hfl _ Hcl c u ltac:(by left)). lia.
    - by apply (covered_not_fresh c u l x (Hap _ Hcl) Hx). }
  exists k. split; [done|]. split; [|done]. apply (heap_update _ l live); try done.
  - intros x [[?|?]%Hcov|?]; [by apply Hhl| |]; apply Hheld; auto.
  - intros x Hx. apply Hkm; intros Hcx; apply Hx; [apply Hheld; by left|by apply Hhl].
  - apply (live_kept (insert_block (a, n) l) live (fa_mem (h_frames h))); [done|done|].
    intros x Hx. apply Hkm; intros Hcx; apply Hx, Hcov; auto.
Qed.

(** What [fa_alloc] gives the heap: a page that overlaps no byte anyone holds. *)
Lemma new_frame h l live : heap_inv h l live ->
  (exists i s', fa_alloc (h_frames h) = (i * PAGE_SIZE, s') /\ 0 < i /\
     fa_count (h_frames h) i = None /\
     let ptr := fa_hhdm (h_frames h) + i * PAGE_SIZE in
     heap_inv (Heap s' (h_head h)) l live /\ blk_ok ptr PAGE_SIZE /\
     phys_to_hhdm s' (i * PAGE_SIZE) = ptr /\ fa_hhdm s' <= ptr /\
     (forall x, ptr <= x < ptr + PAGE_SIZE -> held s' x) /\
     forall x, held (h_frames h) x -> held s' x /\ ~ ptr <= x < ptr + PAGE_SIZE /\
       get8 (fa_mem s') x = get8 (fa_mem (h_frames h)) x) \/
  fa_alloc (h_frames h) = (0, h_frames h).
Proof.
  intros Hinv. pose proof (hi_frames _ _ _ Hinv) as Hi.
  destruct (fa_alloc_ok (h_frames h) Hi) as [(i & Hir & Hcn & Hr & Hq & Hcnt)|[Hnone _]]; [left|by right].
  destruct (fa_alloc (h_frames h)) as [r s']. cbn [fst snd] in *. subst r.
  destruct Hq as (Hi' & Hh' & Hp' & Hm'). exists i, s'.
  destruct (fa_hhdm_ok _ Hi) as [Hhr Hhm]. set (H := fa_hhdm (h_frames h)) in *. cbv zeta.
  assert (forall x, held (h_frames h) x -> held s' x /\
    ~ H + i * PAGE_SIZE <= x < H + i * PAGE_SIZE + PAGE_SIZE /\
    get8 (fa_mem s') x = get8 (fa_mem (h_frames h)) x) as Hmono.
  { intros x Hx. pose proof (held_not_private _ _ Hi Hx) as Hnp.
    destruct Hx as (j & r & Hf & Hcj & Hr).
    assert (i <> j) by congruence. split; [|split; [|by apply Hm']].
    - exists j, r. rewrite Hh', Hcnt, (proj2 (Z.eqb_neq i j)) by done. done.
    - unfold in_frame in Hf. fold H in Hf. unfold PAGE_SIZE in *. lia. }
  split; [done|]. split; [lia|]. split; [done|]. split.
  { apply heap_stable; [done|done|]. intros x Hx%(hi_held _ _ _ Hinv)%Hmono. tauto. }
  split; [|split; [|split; [|split; [|done]]]].
  - unfold blk_ok, PAGE_SIZE in *. split_and!; try (done || lia);
      clear Hmono Hm' Hp' Hcnt; Z.div_mod_to_equations; lia.
  - rewrite phys_to_hhdm_add by (done || (unfold PAGE_SIZE; lia)). by rewrite Hh'.
  - rewrite Hh'. unfold PAGE_SIZE. lia.
  - intros x Hx. exists i, 1. rewrite Hh', Hcnt, Z.eqb_refl. unfold in_frame. fold H.
    unfold PAGE_SIZE in *. split_and!; (done || lia).
Qed.

(** A fresh page joins the free list. *)
Lemma new_page h l live fuel : heap_inv h l live -> (length l < fuel)%nat ->
  (fa_alloc (h_frames h) = (0, h_frames h) /\ request_new_page fuel h = Some (0, h)) \/
  exists i h', let ptr := fa_hhdm (h_frames h) + i * PAGE_SIZE in
    request_new_page fuel h = Some (ptr, h') /\ ptr <> 0 /\ fa_count (h_frames h) i = None /\
    heap_inv h' (insert_block (ptr, PAGE_SIZE) l) live /\
    (forall x, held (h_frames h) x -> ~ covered l x ->
       ~ covered (insert_block (ptr, PAGE_SIZE) l) x /\
       get8 (fa_mem (h_frames h')) x = get8 (fa_mem (h_frames h)) x).
Proof.
  intros Hinv Hfuel. unfold request_new_page.
  destruct (new_frame h l live Hinv) as [(i & s' & -> & Hi & Hcn & Hnf)|Hnone];
    [right|left; rewrite Hnone; split; [done|by destruct h]].
  cbv zeta in Hnf. exists i. set (ptr := fa_hhdm (h_frames h) + i * PAGE_SIZE) in *.
  destruct Hnf as (Hinv' & Hbk & Hpt & Hge & Hpage & Hmono). pose proof Hbk as (? & _).
  rewrite (proj2 (Z.eqb_neq (i * PAGE_SIZE) 0)) by (unfold PAGE_SIZE; lia).
  rewrite Hpt, (proj2 (Z.eqb_neq ptr 0)), (proj2 (Z.ltb_ge ptr (fa_hhdm s'))) by lia.
  pose proof Hinv as [_ _ Hb Hlive _ _ Hheld].
  destruct (free_block (Heap s' (h_head h)) l live (set_size (fa_mem s') ptr PAGE_SIZE)
    ptr PAGE_SIZE fuel) as (k & Hk & Hinv2 & Hcov & Hkm); try done.
  { by apply size_set_size. }
  { apply (fresh_of_covered _ _ _ 1); [done|done|]. intros x Hx Hcx.
    apply (Hmono x); [apply Hheld; by left|done]. }
  { rewrite Forall_forall in Hlive |- *. intros [c u] Hcl. destruct (Hlive _ Hcl) as [(? & ? & ? & ? & ?) _].
    apply (fresh_of_covered _ _ _ 1); [done|by repeat split|]. intros x Hx Hcx.
    apply (Hmono x); [|done]. apply Hheld. right. destruct Hcx as (? & ? & Hin & ?).
    apply list_elem_of_singleton in Hin as [= -> ->]. by exists c, u. }
  { intros x Hx. by apply get8_set_size. }
  cbn [h_head] in *. rewrite Hk. cbn [mbind option_bind].
  eexists. split; [done|]. split; [lia|]. split; [done|]. split; [done|].
  intros x Hx Hnc. destruct (Hmono x Hx) as (? & Hnp & Heq). split; [by intros [?|?]%Hcov|].
  unfold h_with. cbn [h_frames]. rewrite fa_mem_set, Hkm by done. done.
Qed.

(** [kmalloc] of a small request terminates; it returns NULL only when no
    free block fits and no frame is left, and otherwise a 16-aligned block of the
    requested size that overlaps neither a block given out before nor the free
    list; every byte someone else holds keeps its value, and the free list stays
    sorted and fully merged. *)
Lemma kmalloc_small_spec h l live fuel size : heap_inv h l live ->
  0 < size -> size mod 16 = 0 -> size + sizeof_FreeBlock <= PAGE_SIZE -> (S (length l) < fuel)%nat ->
  (kmalloc_small fuel h size = Some (0, h) /\ fa_alloc (h_frames h) = (0, h_frames h) /\
   (forall a n, (a, n) ∈ l -> n < size + 16)) \/
  exists ptr h' l', kmalloc_small fuel h size = Some (ptr, h') /\ ptr <> 0 /\ ptr mod 16 = 0 /\
    heap_inv h' l' ((ptr - sizeof_FreeBlock, sizeof_FreeBlock + size) :: live) /\
    (forall x, held (h_frames h) x -> ~ covered l x ->
       get8 (fa_mem (h_frames h')) x = get8 (fa_mem (h_frames h)) x).
Proof.
  intros Hinv Hsz Hm Hmax Hfuel. unfold sizeof_FreeBlock, PAGE_SIZE in Hmax.
  pose proof (find_free_block_spec (h_kst h) size (size + 16) ltac:(apply u64_small; lia) l fuel
    (hi_blocks _ _ _ Hinv) (hi_chain _ _ _ Hinv) ltac:(lia)) as Hff.
  unfold kmalloc_small. destruct (take_fit (size + 16) l) as [[[a n] rest]|] eqn:Ht.
  - destruct (alloc_hit h l live fuel size a n rest)
      as (k1 & k2 & Hf & Hcv & Ha & Ha16 & Hi & _ & _ & Hk); try (done || lia).
    rewrite Hf. cbn [mbind option_bind]. rewrite (proj2 (Z.eqb_neq a 0)), Hcv by lia.
    right. eexists (a + 16), _, _. split; [done|]. split; [lia|].
    split; [Z.div_mod_to_equations; lia|].
    unfold sizeof_FreeBlock. replace (a + 16 - 16) with a by lia. split; [done|].
    intros x _ Hx. unfold h_with. cbn [h_frames]. rewrite fa_mem_set. by apply Hk.
  - rewrite Hff. cbn [mbind option_bind negb Z.eqb].
    destruct (new_page h l live fuel Hinv ltac:(lia)) as [[Hfa Hnone]|(i & h1 & Hnp)];
      [left; rewrite Hnone; split; [done|split; [done|by apply take_fit_None]]|right].
    cbv zeta in Hnp. set (p := fa_hhdm (h_frames h) + i * PAGE_SIZE) in *.
    destruct Hnp as (Hr & Hp & _ & Hinv1 & Hfr1). set (l1 := insert_block (p, PAGE_SIZE) l) in *.
    rewrite Hr. cbn [mbind option_bind]. rewrite (proj2 (Z.eqb_neq p 0)) by done.
    assert (length l1 < fuel)%nat as Hfuel1
      by (pose proof (insert_block_length p PAGE_SIZE l); unfold l1; lia).
    destruct (take_fit (size + 16) l1) as [[[a n] rest]|] eqn:Ht1.
    + destruct (alloc_hit h1 l1 live fuel size a n rest)
        as (k1 & k2 & Hf & Hcv & Ha & Ha16 & Hi & _ & _ & Hk); try (done || lia).
      rewrite Hf. cbn [mbind option_bind]. rewrite (proj2 (Z.eqb_neq a 0)), Hcv by lia.
      eexists (a + 16), _, _. split; [done|]. split; [lia|].
      split; [clear Hinv; Z.div_mod_to_equations; lia|].
      unfold sizeof_FreeBlock. replace (a + 16 - 16) with a by lia. split; [done|].
      intros x Hx Hnc. destruct (Hfr1 x Hx Hnc) as [Hn1 <-].
      unfold h_with. cbn [h_frames]. rewrite fa_mem_set. by apply Hk.
    + exfalso. destruct (insert_block_contains p PAGE_SIZE l) as (b & t & Hin & Ht'); [done| |].
      { intros b t. apply blocks_ok_pos with (lo := 1), Hinv. }
      pose proof (take_fit_None _ _ Ht1 _ _ Hin). unfold PAGE_SIZE in *. lia.
Qed.

Lemma round16_spec size : 0 <= size < 2 ^ 64 - 15 ->
  size <= round16 size < size + 16 /\ round16 size mod 16 = 0.
Proof.
  intros Hs. unfold round16. rewrite u64_small by lia.
  change (u64 (Z.lnot 15)) with (Z.land (Z.lnot (2 ^ 4 - 1)) (2 ^ 64 - 1)).
  rewrite Z.land_assoc, land_mask_neg, land_mask by lia.
  change (2 ^ 4) with 16. rewrite Z.mod_small by (Z.div_mod_to_equations; lia).
  Z.div_mod_to_equations. lia.
Qed.

(** C1: [kmalloc] of up to 4064 bytes terminates; it returns NULL, with nothing
    changed, only when no free block fits and no frame is left, and otherwise a
    16-aligned block of at least the requested size that overlaps neither a block
    given out before nor the free list; every byte someone else holds keeps its
    value, and the free list stays sorted and fully merged. *)
Theorem kmalloc_correct large h l live fuel size : heap_inv h l live ->
  0 < size <= 4064 -> (S (length l) < fuel)%nat ->
  (kmalloc large fuel h size = Some (0, h) /\ fa_alloc (h_frames h) = (0, h_frames h) /\
   (forall a n, (a, n) ∈ l -> n < round16 size + 16)) \/
  exists ptr h' l', kmalloc large fuel h size = Some (ptr, h') /\ ptr <> 0 /\ ptr mod 16 = 0 /\
    size <= round16 size < size + 16 /\
    heap_inv h' l' ((ptr - sizeof_FreeBlock, sizeof_FreeBlock + round16 size) :: live) /\
    (forall x, held (h_frames h) x -> ~ covered l x ->
       get8 (fa_mem (h_frames h')) x = get8 (fa_mem (h_frames h)) x).
Proof.
  intros Hinv Hs Hf. destruct (round16_spec size) as [Hr Hm]; [lia|].
  unfold kmalloc. rewrite (proj2 (Z.eqb_neq size 0)) by lia.
  assert (round16 size <= 4064) by (Z.div_mod_to_equations; lia).
  rewrite (proj2 (Z.leb_gt _ (round16 size))) by (unfold PAGE_SIZE, sizeof_FreeBlock; lia).
  destruct (kmalloc_small_spec h l live fuel (round16 size) Hinv) as [?|(ptr & h' & l' & ? & ? & ? & ? & ?)];
    [lia|done|unfold PAGE_SIZE, sizeof_FreeBlock; lia|done|by left|].
  right. exists ptr, h', l'. done.
Qed.

(** C2: [kfree] of a block the heap gave out terminates; the block's bytes, and no
    others, join the free list, which stays sorted with every two neighbouring
    free blocks merged; the remaining blocks stay valid and every byte outside
    the block and the free list keeps its value. *)
Theorem kfree_correct large h l live1 live2 a n fuel : heap_inv h l (live1 ++ (a, n) :: live2) ->
  a + sizeof_FreeBlock < KERN_HEAP_START -> (length l < fuel)%nat ->
  exists h' l', kfree large fuel h (a + sizeof_FreeBlock) = Some h' /\
    heap_inv h' l' (live1 ++ live2) /\
    (forall x, covered l' x <-> a <= x < a + n \/ covered l x) /\
    (forall x, ~ covered l' x ->
       get8 (fa_mem (h_frames h')) x = get8 (fa_mem (h_frames h)) x).
Proof.
  intros Hinv Hkh Hfuel. pose proof Hinv as [Hi Hc Hb Hlive Hdis Hap Hheld].
  apply Forall_app in Hlive as [Hl1 [[Hbk Hs] Hl2]%Forall_cons].
  apply Forall_app in Hap as [Ha1 [Hfr Ha2]%Forall_cons]. cbn [fst snd] in *.
  destruct (ForallOrdPairs_middle _ _ _ _ Hdis) as (Hd12 & Hda & Hdb).
  assert (forall x, covered (live1 ++ live2) x -> covered (live1 ++ (a, n) :: live2) x) as Hsub.
  { intros x (b & t & Hin & Hx). exists b, t. split; [|done]. rewrite !elem_of_app, elem_of_cons in *. tauto. }
  destruct (free_block h l (live1 ++ live2) (fa_mem (h_frames h)) a n fuel)
    as (k & Hk & Hinv' & Hcov & Hkm); try done.
  { split; try done; [by apply Forall_app|by apply Forall_app|].
    intros x [?|?]; apply Hheld; auto. }
  { apply Forall_app. split; [|done]. eapply Forall_impl; [exact Hda|].
    intros [b t]. apply fresh_sym. }
  { intros x Hx. apply Hheld. right. exists a, n. split; [|done].
    apply elem_of_app. right. by left. }
  pose proof Hbk as (? & _). exists (h_with h k), (insert_block (a, n) l). unfold kfree, kfree_small.
  rewrite (proj2 (Z.leb_gt KERN_HEAP_START _)) by done. cbn [andb].
  rewrite (proj2 (Z.eqb_neq (a + sizeof_FreeBlock) 0)) by (unfold sizeof_FreeBlock; lia).
  unfold h_kst. rewrite Hk. split; [done|]. split; [done|]. split; [done|].
  intros x Hx. unfold h_with. cbn [h_frames]. rewrite fa_mem_set.
  apply Hkm; intros ?; apply Hx, Hcov; auto.
Qed.
End HeapSpec.

(** ** Concrete heaps *)
Definition demo_heap : heap pstate := Heap demo_pmm 0.

Lemma demo_heap_inv : heap_inv demo_heap [] [].
Proof.
  split; [apply demo_pmm_inv|reflexivity|exact I|constructor|constructor|constructor|].
  intros x [[]%covered_nil|[]%covered_nil].
Qed.

(** The heap after one allocation of 32 bytes. *)
Lemma demo_heap_alloc : exists h' l',
  kmalloc_small 4 demo_heap 32 = Some (0x800000102010, h') /\
  heap_inv h' l' [(0x800000102000, 48)].
Proof.
  assert (match kmalloc_small 4 demo_heap 32 with
          | Some (p, _) => p = 0x800000102010 | None => False end) as Hv by (vm_compute; reflexivity).
  destruct (kmalloc_small_spec demo_heap [] [] 4 32 demo_heap_inv)
    as [[H0 _]|(ptr & h' & l' & Hk & _ & _ & Hi & _)].
  - lia.
  - reflexivity.
  - vm_compute. discriminate.
  - simpl. lia.
  - rewrite H0 in Hv. lia.
  - rewrite Hk in Hv. subst ptr. exists h', l'. split; [exact Hk|exact Hi].
Qed.

Lemma kmalloc_correct_witness : exists h1 l1,
  kmalloc (fun _ _ => None) 4 demo_heap 20 = Some (0x800000102010, h1) /\
  heap_inv h1 l1 [(0x800000102000, 48)].
Proof.
  assert (match kmalloc (fun _ _ => None) 4 demo_heap 20 with
          | Some (p, _) => p = 0x800000102010 | None => False end) as Hv by (vm_compute; reflexivity).
  destruct (kmalloc_correct (fun _ _ => None) demo_heap [] [] 4 20 demo_heap_inv)
    as [[H0 _]|(ptr & h' & l' & Hk & _ & _ & _ & Hi & _)].
  - lia.
  - simpl. lia.
  - rewrite H0 in Hv. lia.
  - rewrite Hk in Hv. subst ptr. exists h', l'. split; [exact Hk|exact Hi].
Defined.

Lemma kfree_correct_witness : exists h1 h2 l1 l2,
  kmalloc_small 4 demo_heap 32 = Some (0x800000102010, h1) /\
  kfree (fun _ _ => None) (S (length l1)) h1 0x800000102010 = Some h2 /\ heap_inv h2 l2 [] /\
  forall x, covered l2 x <-> 0x800000102000 <= x < 0x800000102030 \/ covered l1 x.
Proof.
  destruct demo_heap_alloc as (h1 & l1 & Hk & Hi).
  destruct (kfree_correct (fun _ _ => None) h1 l1 [] [] 0x800000102000 48 (S (length l1)) Hi)
    as (h2 & l2 & Hf & Hi2 & Hc & _).
  - vm_compute. reflexivity.
  - lia.
  - exists h1, h2, l1, l2. split; [exact Hk|]. split; [exact Hf|]. split; [exact Hi2|exact Hc].
Defined.
