(* ===== verification/Paging.v ===== *)
(** Page tables, the first part of [src/src/mem/vmm.c].

    A table is 512 64-bit entries in a frame, read and written through the
    direct map in the memory the frame allocator manages, so every operation
    threads the allocator's state.  A pointer to an entry is its address;
    [None] is the NULL of [vmm_walk_to_pte].  TLB flushes have no counterpart:
    the model reads the tables on every translation. *)
From S2P Require Import Prelude Machine StringLib Pmm Frames Kmalloc.

Definition VMM_FLAG_PRESENT : Z := 1.
Definition VMM_FLAG_WRITABLE : Z := 2.
Definition VMM_FLAG_USER : Z := 4.
Definition VMM_FLAG_SHM : Z := 8.
Definition PTE_FLAG_SHARED : Z := 512.
Definition PML4_INDEX : Z := 0x27.
Definition PDPT_INDEX : Z := 0x1e.
Definition PD_INDEX : Z := 0x15.
Definition PT_INDEX : Z := 0xc.

(** [(uint64_t)(~0xFFF)]: the [int] is sign-extended. *)
Definition ADDR_MASK : Z := u64 (Z.lnot 0xFFF).

Definition pte_get_addr (e : Z) : Z := Z.land e ADDR_MASK.
Definition pte_get_flags (e : Z) : Z := Z.land e 0xFFF.
Definition pte_set_addr (e phys : Z) : Z :=
  let flags := Z.land e 0xFFF in
  let addr := Z.land phys ADDR_MASK in
  Z.lor addr flags.

(** [entry & flag] as a condition. *)
Definition has (flag e : Z) : bool := negb (Z.land e flag =? 0).

Definition tbl_index (va sh : Z) : Z := Z.land (Z.shiftr va sh) 0x1FF.

Section Paging.
Context {A : Type} `{FrameAllocator A}.
Implicit Types (s : A) (tbl va pa flags : Z).

Definition rd s (tbl i : Z) : Z := load64 (fa_mem s) (tbl + 8 * i).
Definition wr s (tbl i e : Z) : A := fa_set_mem s (store64 (fa_mem s) (tbl + 8 * i) e).
Definition zero_page s (virt : Z) : A := fa_set_mem s (memset (fa_mem s) virt 0 PAGE_SIZE).

(** One level of the walk: the table entry [tbl[idx]] points to. *)
Definition next_table s (tbl idx : Z) (create_if_missing : bool) : option Z * A :=
  let e := rd s tbl idx in
  if negb (has VMM_FLAG_PRESENT e) then
    if create_if_missing then
      let '(new_tab_phys, s) := fa_alloc s in
      if new_tab_phys =? 0 then (None, s)
      else
        let virt := phys_to_hhdm s new_tab_phys in
        let s := zero_page s virt in
        let e := Z.lor (Z.lor (Z.lor (pte_set_addr 0 new_tab_phys) VMM_FLAG_PRESENT)
                              VMM_FLAG_WRITABLE) VMM_FLAG_USER in
        (Some virt, wr s tbl idx e)
    else (None, s)
  else (Some (phys_to_hhdm s (pte_get_addr e)), s).

(** The address of the page-table entry for [va]. *)
Definition vmm_walk_to_pte s (pml4 va : Z) (create_if_missing : bool) : option Z * A :=
  match next_table s pml4 (tbl_index va PML4_INDEX) create_if_missing with
  | (None, s) => (None, s)
  | (Some pdpt, s) =>
      match next_table s pdpt (tbl_index va PDPT_INDEX) create_if_missing with
      | (None, s) => (None, s)
      | (Some pd, s) =>
          match next_table s pd (tbl_index va PD_INDEX) create_if_missing with
          | (None, s) => (None, s)
          | (Some pt, s) => (Some (pt + 8 * tbl_index va PT_INDEX), s)
          end
      end
  end.

Definition rd_pte s (pte : Z) : Z := load64 (fa_mem s) pte.
Definition wr_pte s (pte e : Z) : A := fa_set_mem s (store64 (fa_mem s) pte e).

Definition vmm_virt2phys s (pml4 va : Z) : Z :=
  match fst (vmm_walk_to_pte s pml4 va false) with
  | None => 0
  | Some pte =>
      if negb (has VMM_FLAG_PRESENT (rd_pte s pte)) then 0
      else u64 (pte_get_addr (rd_pte s pte) + Z.land va 0xFFF)
  end.

Definition vmm_map_page s (pml4 va : Z) pa flags : A :=
  match vmm_walk_to_pte s pml4 va true with
  | (None, s) => s
  | (Some pte, s) =>
      let e := rd_pte s pte in
      let s :=
        if has VMM_FLAG_PRESENT e then
          let old_phys := pte_get_addr e in
          if negb (old_phys =? pa) && negb (has PTE_FLAG_SHARED e) then fa_free s old_phys else s
        else s in
      wr_pte s pte (Z.lor (Z.lor (pte_set_addr 0 pa) flags) VMM_FLAG_PRESENT)
  end.

Definition vmm_unmap_page s (pml4 va : Z) : A :=
  match fst (vmm_walk_to_pte s pml4 va false) with
  | None => s
  | Some pte => wr_pte s pte 0
  end.

(** A new address space shares the kernel half of [kern_pml4]. *)
Definition vmm_new_pml4 s (kern_pml4 : Z) : Z * A :=
  let '(pml4_phys, s) := fa_alloc s in
  if pml4_phys =? 0 then (0, s)
  else
    let virt := phys_to_hhdm s pml4_phys in
    let s := zero_page s virt in
    (pml4_phys,
     fa_set_mem s (memcpy (fa_mem s) (virt + 8 * 256) (kern_pml4 + 8 * 256) (256 * 8))).

Definition vmm_ret_pml4 s (pml4_phys : Z) : A :=
  if negb (pml4_phys =? 0) then fa_free s pml4_phys else s.

(** [vmm_free_table(table, level)]; [n] is the level. *)
Fixpoint vmm_free_table (n : nat) s (table : Z) : A :=
  match n with
  | O => s
  | S n' =>
      if table =? 0 then s
      else
        let s := for_loop 512 0 (fun i s =>
          if (n =? 4)%nat && (256 <=? i) then s
          else
            let entry := rd s table i in
            if Z.land entry VMM_FLAG_PRESENT =? 0 then s
            else
              let phys_addr := pte_get_addr entry in
              let virt_addr := phys_to_hhdm s phys_addr in
              if (n =? 1)%nat then
                if negb (has PTE_FLAG_SHARED entry) then fa_free s phys_addr else s
              else vmm_free_table n' s virt_addr) s in
        fa_free s (hhdm_to_phys s table)
  end.

(** The loop of [vmm_copy_hierarchy] above the last level; [inr] is the early
    return after a failed copy. *)
Definition copy_entries (copy : A -> Z -> Z * A) (level : nat) (parent child limit : Z) s : A + A :=
  for_loop (Z.to_nat limit) 0 (fun i r =>
    match r with
    | inr s => inr s
    | inl s =>
        let entry := rd s parent i in
        if Z.land entry VMM_FLAG_PRESENT =? 0 then inl s
        else
          let '(child_phys, s) := copy s (phys_to_hhdm s (pte_get_addr entry)) in
          if child_phys =? 0 then inr (vmm_free_table level s child)
          else inl (wr s child i (Z.lor child_phys (pte_get_flags entry)))
    end) (inl s).

(** The last level: pages become read-only and shared with the child. *)
Definition copy_leaf (parent child i : Z) s : A :=
  let entry := rd s parent i in
  if Z.land entry VMM_FLAG_PRESENT =? 0 then s
  else
    let parent_phys := pte_get_addr entry in
    let private := Z.land entry PTE_FLAG_SHARED =? 0 in
    let s := if private
             then wr s parent i (Z.land (rd s parent i) (u64 (Z.lnot VMM_FLAG_WRITABLE))) else s in
    let s := wr s child i (rd s parent i) in
    if private then fa_inc s parent_phys else s.

Fixpoint vmm_copy_hierarchy (n : nat) s (kern_pml4 parent : Z) : Z * A :=
  match n with
  | O => (0, s)
  | S n' =>
      let '(child_phys, s) := fa_alloc s in
      if child_phys =? 0 then (0, s)
      else
        let child := phys_to_hhdm s child_phys in
        let s := zero_page s child in
        if (1 <? n)%nat then
          match copy_entries (fun s t => vmm_copy_hierarchy n' s kern_pml4 t) n parent child
                  (if (n =? 4)%nat then 256 else 512) s with
          | inr s => (0, s)
          | inl s =>
              (child_phys,
               if (n =? 4)%nat
               then for_loop 256 256 (fun i s => wr s child i (rd s kern_pml4 i)) s else s)
          end
        else (child_phys, for_loop 512 0 (fun i s => copy_leaf parent child i s) s)
  end.

(** [cr3] is what [read_cr3] returns. *)
Definition vmm_handle_cow s (cr3 fault_addr : Z) : Z * A :=
  let pml4 := phys_to_hhdm s (pte_get_addr cr3) in
  match fst (vmm_walk_to_pte s pml4 fault_addr false) with
  | None => (-1, s)
  | Some pte =>
      let e := rd_pte s pte in
      if negb (has VMM_FLAG_PRESENT e) || negb (has VMM_FLAG_USER e) then (-1, s)
      else
        let old_phys := pte_get_addr e in
        let virt_addr := phys_to_hhdm s old_phys in
        if fa_ref_count s old_phys <=? 1 then (0, wr_pte s pte (Z.lor e VMM_FLAG_WRITABLE))
        else
          let '(phys_addr, s) := fa_alloc s in
          if phys_addr =? 0 then (-1, s)
          else
            let s := fa_set_mem s (memcpy (fa_mem s) (phys_to_hhdm s phys_addr) virt_addr PAGE_SIZE) in
            let flags := Z.lor (pte_get_flags (rd_pte s pte)) VMM_FLAG_WRITABLE in
            let s := wr_pte s pte (Z.lor phys_addr (Z.land flags 0xFFF)) in
            (0, fa_free s old_phys)
  end.
End Paging.

(** ** Entries as numbers *)
Section Entries.
Implicit Types (e pa fl va sh : Z).

Lemma land_addr_mask e : is_u64 e -> Z.land e ADDR_MASK = e - e mod PAGE_SIZE.
Proof.
  intros He. unfold ADDR_MASK, u64.
  rewrite <- Z.land_ones by lia. rewrite (Z.land_comm (Z.lnot _)), Z.land_assoc.
  rewrite Z.land_ones, Z.mod_small by (unfold is_u64 in He; lia).
  apply (land_mask_neg e 12). lia.
Qed.

Lemma pte_get_addr_eq e : is_u64 e -> pte_get_addr e = e - e mod PAGE_SIZE.
Proof. apply land_addr_mask. Qed.
Lemma pte_get_flags_eq e : pte_get_flags e = e mod PAGE_SIZE.
Proof. apply (land_mask e 12). lia. Qed.

(** An entry made of a page-aligned address and 12 flag bits. *)
Lemma pte_make pa fl : is_u64 pa -> pa mod PAGE_SIZE = 0 -> 0 <= fl < PAGE_SIZE ->
  Z.lor pa fl = pa + fl /\ is_u64 (pa + fl) /\
  pte_get_addr (pa + fl) = pa /\ pte_get_flags (pa + fl) = fl.
Proof.
  intros Hu Hp Hf. unfold PAGE_SIZE, is_u64 in *.
  assert (0 <= pa + fl < 2 ^ 64) by (Z.div_mod_to_equations; lia).
  assert ((pa + fl) mod 4096 = fl) as Hmod
    by (rewrite Z.add_mod, Hp, Z.add_0_l, !Z.mod_mod by lia; apply Z.mod_small; lia).
  split; [by apply (lor_disjoint pa fl 12)|]. split; [done|].
  rewrite pte_get_addr_eq, pte_get_flags_eq by done. unfold PAGE_SIZE. rewrite Hmod. lia.
Qed.

Lemma pte_set_addr_0 pa : is_u64 pa -> pa mod PAGE_SIZE = 0 -> pte_set_addr 0 pa = pa.
Proof.
  intros Hu Hp. unfold pte_set_addr. rewrite Z.land_0_l, Z.lor_0_r, land_addr_mask by done.
  rewrite Hp. lia.
Qed.

Lemma tbl_index_range va sh : 0 <= tbl_index va sh < 512.
Proof.
  unfold tbl_index. change 0x1FF with (2 ^ 9 - 1). rewrite land_mask by lia.
  apply Z.mod_pos_bound. lia.
Qed.

Lemma has_bit k e : 0 <= k -> has (2 ^ k) e = Z.testbit e k.
Proof. intros. unfold has. rewrite <- Z.shiftl_1_l, land_bit_eqb, negb_involutive by done. done. Qed.

(** Flags are read off the low 12 bits. *)
Lemma has_flags k pa fl : 0 <= k < 12 -> pa mod PAGE_SIZE = 0 -> has (2 ^ k) (pa + fl) = has (2 ^ k) fl.
Proof.
  intros Hk Hp. rewrite !has_bit by lia.
  rewrite <- (Z.mod_pow2_bits_low (pa + fl) 12), <- (Z.mod_pow2_bits_low fl 12) by lia.
  f_equal. change (2 ^ 12) with PAGE_SIZE. rewrite Z.add_mod, Hp, Z.add_0_l by done. apply Z.mod_mod. done.
Qed.

Lemma has_lor k a b : 0 <= k -> has (2 ^ k) (Z.lor a b) = has (2 ^ k) a || has (2 ^ k) b.
Proof. intros. rewrite !has_bit by lia. apply Z.lor_spec. Qed.

Lemma lor_flags_range a b : 0 <= a < PAGE_SIZE -> 0 <= b < PAGE_SIZE -> 0 <= Z.lor a b < PAGE_SIZE.
Proof. apply (lor_range a b 12). lia. Qed.
End Entries.

(** ** Memory effects *)
Section Effects.
Context {A : Type} `{FS : FrameAllocatorSpec A}.
Implicit Types (s : A) (x i j : Z).

(** Nothing that was taken changed: not its frame's count, not its bytes. *)
Record undisturbed (s s' : A) : Prop := {
  un_inv : fa_inv s';
  un_hhdm : fa_hhdm s' = fa_hhdm s;
  un_private x : fa_private s' x <-> fa_private s x;
  un_count i r : fa_count s i = Some r -> fa_count s' i = Some r;
  un_kept x : kept s x -> get8 (fa_mem s') x = get8 (fa_mem s) x
}.

Lemma undisturbed_refl s : fa_inv s -> undisturbed s s.
Proof. by split. Qed.

Lemma undisturbed_mono s s' x : undisturbed s s' -> kept s x -> kept s' x.
Proof.
  intros [] (i & r & Hf & Hc & Hr). exists i, r. rewrite un_hhdm0, un_private0. eauto.
Qed.

Lemma undisturbed_trans s1 s2 s3 : undisturbed s1 s2 -> undisturbed s2 s3 -> undisturbed s1 s3.
Proof.
  intros U1 U2. pose proof U1 as []. pose proof U2 as []. split; [done|congruence| |auto|].
  - intros x. by rewrite un_private1.
  - intros x Hx. rewrite un_kept1 by by eapply undisturbed_mono. auto.
Qed.

Lemma rd_ext s s' t j : (forall x, t + 8 * j <= x < t + 8 * j + 8 -> get8 (fa_mem s') x = get8 (fa_mem s) x) ->
  rd s' t j = rd s t j.
Proof. intros Hx. apply load_ext. intros k Hk. apply Hx. lia. Qed.

Lemma rd_range s t j : is_u64 (rd s t j).
Proof. apply load64_range. Qed.

(** A frame from the allocator, then filled through the direct map: nobody held it. *)
Lemma alloc_fill s : fa_inv s ->
  (exists i s1, fa_alloc s = (i * PAGE_SIZE, s1) /\ 0 < i < 2 ^ 35 - 1 /\ fa_count s i = None /\
     fa_hhdm s1 = fa_hhdm s /\ phys_to_hhdm s1 (i * PAGE_SIZE) = fa_hhdm s + i * PAGE_SIZE /\
     (forall x, kept s x -> ~ in_frame (fa_hhdm s) i x /\ get8 (fa_mem s1) x = get8 (fa_mem s) x) /\
     forall m, (forall x, ~ in_frame (fa_hhdm s) i x -> get8 m x = get8 (fa_mem s1) x) ->
       let s2 := fa_set_mem s1 m in
       undisturbed s s2 /\ fa_count s2 i = Some 1 /\
       (forall j, i <> j -> fa_count s2 j = fa_count s j)) \/
  (fa_alloc s = (0, s) /\ exhausted s).
Proof.
  intros Hi. destruct (fa_alloc_ok s Hi) as [(i & Hir & Hcn & Hr & Hq & Hcnt)|[? Hex]]; [left|right; by rewrite exhausted_iff].
  destruct (fa_alloc s) as [r s1]. cbn [fst snd] in *. subst r.
  destruct Hq as (Hi1 & Hh & Hp & Hm). exists i, s1.
  split; [done|]. split; [done|]. split; [done|]. split; [done|].
  split; [by rewrite phys_to_hhdm_add, Hh by (done || (unfold PAGE_SIZE; lia))|].
  assert (forall x, kept s x -> ~ in_frame (fa_hhdm s) i x /\
    get8 (fa_mem s1) x = get8 (fa_mem s) x) as Hold.
  { intros x Hx. split; [|by apply Hm, kept_not_private].
    destruct Hx as (j & r & Hfx & Hcx & _). assert (i <> j) by congruence.
    unfold in_frame, PAGE_SIZE in *. lia. }
  split; [done|]. intros m Hout. cbv zeta.
  destruct (fa_set_mem_ok s1 m Hi1) as (Hi2 & Hh2 & Hc2 & Hp2).
  { intros a Ha. apply Hout. intros Hx. apply (kept_not_private s1 a); [|done].
    apply (count_kept s1 i 1); [done|by rewrite Hh|by rewrite Hcnt, Z.eqb_refl|done]. }
  split; [|split; [by rewrite Hc2, Hcnt, Z.eqb_refl|]].
  - split; [done|congruence|intros x; by rewrite Hp2|..].
    + intros j r Hj. rewrite Hc2, Hcnt. by rewrite (proj2 (Z.eqb_neq i j)) by congruence.
    + intros x Hx. destruct (Hold x Hx) as [Hn Heq]. by rewrite fa_mem_set, Hout.
  - intros j Hj. rewrite Hc2, Hcnt. by rewrite (proj2 (Z.eqb_neq i j)).
Qed.

Lemma alloc_zero s : fa_inv s ->
  (exists i s1, fa_alloc s = (i * PAGE_SIZE, s1) /\ 0 < i < 2 ^ 35 - 1 /\ fa_count s i = None /\
     phys_to_hhdm s1 (i * PAGE_SIZE) = fa_hhdm s + i * PAGE_SIZE /\
     let s2 := zero_page s1 (fa_hhdm s + i * PAGE_SIZE) in
     undisturbed s s2 /\ fa_count s2 i = Some 1 /\
     (forall j, i <> j -> fa_count s2 j = fa_count s j) /\
     (forall x, in_frame (fa_hhdm s) i x -> get8 (fa_mem s2) x = 0)) \/
  (fa_alloc s = (0, s) /\ exhausted s).
Proof.
  intros Hi. destruct (alloc_fill s Hi) as [(i & s1 & Ha & Hir & Hcn & Hh & Hv & _ & Hfill)|?];
    [left|by right].
  exists i, s1. split; [done|]. split; [done|]. split; [done|]. split; [done|]. cbv zeta.
  set (v := fa_hhdm s + i * PAGE_SIZE).
  pose proof (memset_filled (fa_mem s1) v 0 PAGE_SIZE ltac:(unfold PAGE_SIZE; lia)) as Hf.
  destruct (Hfill (memset (fa_mem s1) v 0 PAGE_SIZE)) as (Hun & Hc & Ho).
  { intros x Hx. rewrite Hf, bool_decide_false; [done|]. unfold in_frame, v, PAGE_SIZE in *. lia. }
  split; [done|]. split; [done|]. split; [done|]. intros x Hx.
  unfold zero_page. rewrite fa_mem_set, Hf, bool_decide_true; [done|].
  unfold in_frame, v, PAGE_SIZE in *. lia.
Qed.

(** Writing one entry of a table in a taken frame. *)
Lemma store_kept s a e : fa_inv s -> (forall x, a <= x < a + 8 -> kept s x) ->
  let s' := fa_set_mem s (store64 (fa_mem s) a e) in
  fa_inv s' /\ fa_hhdm s' = fa_hhdm s /\ (forall x, fa_private s' x <-> fa_private s x) /\
  (forall i, fa_count s' i = fa_count s i) /\ (is_u64 e -> load64 (fa_mem s') a = e) /\
  (forall x, ~ a <= x < a + 8 -> get8 (fa_mem s') x = get8 (fa_mem s) x).
Proof.
  intros Hi Hh s'.
  destruct (fa_set_mem_ok s (store64 (fa_mem s) a e) Hi) as (Hi2 & Hh2 & Hc2 & Hp2).
  { intros x Hx. apply get8_store_out. destruct (decide (a <= x < a + 8)); [|lia].
    exfalso. by apply (kept_not_private s x); [apply Hh|]. }
  split; [done|]. split; [done|]. split; [done|]. split; [done|]. unfold s'. rewrite fa_mem_set. split.
  - apply load64_store64.
  - intros x Hx. apply get8_store_out. lia.
Qed.
End Effects.

(** ** The tree of tables

    The kernel does not build all of a root table: the upper half of a task's is copied,
    and most of the one the boot loader leaves maps memory by pages of other sizes.
    [Slots] are the entries of the root below which all tables are the kernel's own;
    the invariant and the theorems speak of these. *)
Class Slots := root_slot : Z -> bool.

Section Trees.
Context {A : Type} `{FS : FrameAllocatorSpec A} `{R : Slots}.
Implicit Types (s : A) (t u i j x root : Z) (p q : list Z).

Definition child s t i : option Z :=
  if has VMM_FLAG_PRESENT (rd s t i) then Some (phys_to_hhdm s (pte_get_addr (rd s t i))) else None.

(** The table reached from [t] by a list of indices. *)
Fixpoint walk s t p : option Z :=
  match p with
  | [] => Some t
  | i :: p => match child s t i with Some u => walk s u p | None => None end
  end.

(** Where the path leaves the root. *)
Definition first_slot p : Prop := match p with [] => True | i :: _ => root_slot i = true end.

Definition path_ok p : Prop := (length p <= 3)%nat /\ Forall (fun i => 0 <= i < 512) p /\ first_slot p.

Definition table_byte s root x : Prop :=
  exists p t, path_ok p /\ walk s root p = Some t /\ t <= x < t + PAGE_SIZE.

(** Every table of the tree is in a frame of its own, taken and not the allocator's, and
    reached by one path only. *)
Record pt_inv s root : Prop := {
  pt_fa : fa_inv s;
  pt_frame p t : path_ok p -> walk s root p = Some t ->
    exists f r, t = fa_hhdm s + f * PAGE_SIZE /\ fa_count s f = Some r /\ open_frame s f;
  pt_inj p q t : path_ok p -> path_ok q -> walk s root p = Some t -> walk s root q = Some t -> p = q
}.

(** The last-level entry at index [j] of the table at [p]; 0 where there is none. *)
Definition leaf s root p j : Z := match walk s root p with Some t => rd s t j | None => 0 end.

Lemma walk_snoc s t p i : walk s t (p ++ [i]) = match walk s t p with Some u => child s u i | None => None end.
Proof.
  revert t. induction p as [|k p IH]; intros t; simpl; [by destruct (child s t i)|].
  destruct (child s t k); [apply IH|done].
Qed.

(** The number of tables a walk along the path misses. *)
Fixpoint missing s t p : nat :=
  match p with
  | [] => 0
  | i :: q => match child s t i with Some u => missing s u q | None => length p end
  end.

Lemma missing_le s t p : (missing s t p <= length p)%nat.
Proof. revert t. induction p as [|i p IH]; intros t; [done|]. simpl. destruct (child s t i) as [u|]; [specialize (IH u)|]; lia. Qed.

Lemma path_ok_snoc p i : path_ok (p ++ [i]) -> path_ok p /\ 0 <= i < 512 /\ (length p < 3)%nat.
Proof.
  unfold path_ok. rewrite length_app, Forall_app, Forall_singleton. simpl. intros (? & (? & ?) & ?). split_and!; try (done || lia). by destruct p.
Qed.

Lemma path_ok_app p q : path_ok (p ++ q) -> Forall (fun i => 0 <= i < 512) q.
Proof. intros (_ & H & _). by apply Forall_app in H as [_ ?]. Qed.

Lemma table_byte_kept s root x : pt_inv s root -> table_byte s root x -> kept s x.
Proof.
  intros Hp (p & t & Hok & Hw & Hx). destruct (pt_frame _ _ Hp p t Hok Hw) as (f & r & -> & Hc & Hr).
  apply (frame_kept s f r); [|done|done]. unfold in_frame, PAGE_SIZE in *. lia.
Qed.

Lemma open_frame_eq s s' f : fa_hhdm s' = fa_hhdm s -> (forall x, fa_private s' x <-> fa_private s x) ->
  open_frame s f -> open_frame s' f.
Proof. intros Hh Hp Ho x. rewrite Hh, Hp. apply Ho. Qed.

(** Tables at different paths do not share a byte. *)
Lemma tables_apart s root p q t u : pt_inv s root -> path_ok p -> path_ok q ->
  walk s root p = Some t -> walk s root q = Some u -> p <> q ->
  t + PAGE_SIZE <= u \/ u + PAGE_SIZE <= t.
Proof.
  intros Hi Hp Hq Hwp Hwq Hne.
  destruct (pt_frame _ _ Hi p t Hp Hwp) as (f & _ & -> & _).
  destruct (pt_frame _ _ Hi q u Hq Hwq) as (g & _ & -> & _).
  assert (f <> g) by (intros ->; by apply Hne, (pt_inj _ _ Hi p q (fa_hhdm s + g * PAGE_SIZE))).
  unfold PAGE_SIZE. lia.
Qed.

(** A change of one entry leaves every walk that does not pass it. *)
Lemma walk_agree s s' root p t i : pt_inv s root -> fa_hhdm s' = fa_hhdm s ->
  path_ok p -> walk s root p = Some t ->
  (forall q u j, path_ok q -> walk s root q = Some u -> 0 <= j < 512 -> ~ (q = p /\ j = i) ->
     rd s' u j = rd s u j) ->
  forall q, path_ok q -> ~ (p ++ [i]) `prefix_of` q -> walk s' root q = walk s root q.
Proof.
  intros Hi Hh Hp Hw Hrd q. induction q as [|j q IH] using rev_ind; intros Hq Hn; [done|].
  destruct (path_ok_snoc _ _ Hq) as (Hq' & Hj & _).
  assert (~ (p ++ [i]) `prefix_of` q) as Hn'.
  { intros Hpre. by apply Hn, prefix_app_r. }
  rewrite !walk_snoc, IH by done. destruct (walk s root q) as [u|] eqn:Hu; [|done].
  assert (rd s' u j = rd s u j) as Hr by (apply (Hrd q); try done; intros [-> ->]; by apply Hn).
  unfold child, phys_to_hhdm. by rewrite Hr, Hh.
Qed.

(** The entries of the root that are not the kernel's to build stay. *)
Definition root_kept root s s' : Prop :=
  forall i, 0 <= i < 512 -> root_slot i = false -> rd s' root i = rd s root i.

Lemma path_ok_nil : path_ok [].
Proof. split; [simpl; lia|]. split; [by apply Forall_nil|done]. Qed.

Record pt_ext root s s' : Prop := {
  pe_inv : pt_inv s' root;
  pe_hhdm : fa_hhdm s' = fa_hhdm s;
  pe_private x : fa_private s' x <-> fa_private s x;
  pe_count i r : fa_count s i = Some r -> fa_count s' i = Some r;
  pe_walk p t : path_ok p -> walk s root p = Some t -> walk s' root p = Some t;
  pe_leaf p j : path_ok p -> length p = 3%nat -> 0 <= j < 512 -> leaf s' root p j = leaf s root p j;
  pe_mem x : kept s x -> ~ table_byte s root x -> get8 (fa_mem s') x = get8 (fa_mem s) x;
  pe_table x : table_byte s' root x -> kept s x -> table_byte s root x;
  pe_root : root_kept root s s'
}.

Lemma pt_ext_refl root s : pt_inv s root -> pt_ext root s s.
Proof. by split. Qed.

Lemma pt_ext_trans root s1 s2 s3 : pt_ext root s1 s2 -> pt_ext root s2 s3 -> pt_ext root s1 s3.
Proof.
  intros E1 E2. assert (forall x, kept s1 x -> kept s2 x) as Hm.
  { intros x (i & r & Hf & Hc & Hr). exists i, r. rewrite (pe_hhdm _ _ _ E1).
    split; [done|]. split; [by apply (pe_count _ _ _ E1)|by rewrite (pe_private _ _ _ E1)]. }
  split.
  - apply E2.
  - rewrite (pe_hhdm _ _ _ E2). apply E1.
  - intros x. rewrite (pe_private _ _ _ E2). apply E1.
  - intros i r Hc. by apply (pe_count _ _ _ E2), (pe_count _ _ _ E1).
  - intros p t Hp Hw. apply (pe_walk _ _ _ E2); [done|]. by apply (pe_walk _ _ _ E1).
  - intros p j Hp Hl Hj. rewrite (pe_leaf _ _ _ E2) by done. by apply (pe_leaf _ _ _ E1).
  - intros x Hx Hn. rewrite (pe_mem _ _ _ E2); [by apply (pe_mem _ _ _ E1)|by apply Hm|].
    intros Ht. by apply Hn, (pe_table _ _ _ E1).
  - intros x Ht Hx. apply (pe_table _ _ _ E1); [|done]. apply (pe_table _ _ _ E2); [done|by apply Hm].
  - intros i Hi Hs. rewrite (pe_root _ _ _ E2) by done. by apply (pe_root _ _ _ E1).
Qed.
End Trees.

(** ** Adding a table *)
Section Create.
Context {A : Type} `{FS : FrameAllocatorSpec A} `{R : Slots}.
Context (s s2 : A) (root t i f : Z) (p : list Z).
Context (Hpt : pt_inv s root) (Hok : path_ok (p ++ [i])) (Hw : walk s root p = Some t).
Context (Habs : child s t i = None).
Context (Hun : undisturbed s s2) (Hf : 0 < f < 2 ^ 35 - 1) (Hfree : fa_count s f = None)
  (Hheld : fa_count s2 f = Some 1)
  (Hzero : forall x, in_frame (fa_hhdm s) f x -> get8 (fa_mem s2) x = 0).

Let v := fa_hhdm s + f * PAGE_SIZE.
Let e := f * PAGE_SIZE + 7.
Let s3 := wr s2 t i e.

Lemma walk_app (s' : A) (u : Z) (q r : list Z) :
  walk s' u (q ++ r) = match walk s' u q with Some w => walk s' w r | None => None end.
Proof.
  revert u. induction q as [|k q IH]; intros u; [done|]. simpl.
  destruct (child s' u k); [apply IH|done].
Qed.

Lemma create_entry : is_u64 e /\ pte_get_addr e = f * PAGE_SIZE /\ has VMM_FLAG_PRESENT e = true.
Proof.
  assert (is_u64 (f * PAGE_SIZE)) as Hu by (unfold is_u64, PAGE_SIZE; lia).
  assert ((f * PAGE_SIZE) mod PAGE_SIZE = 0) as Hm by by apply Z.mod_mul.
  destruct (pte_make (f * PAGE_SIZE) 7 Hu Hm) as (_ & H1 & H2 & _); [done|].
  split; [done|]. split; [done|]. change VMM_FLAG_PRESENT with (2 ^ 0).
  unfold e. by rewrite has_flags by (done || lia).
Qed.

Lemma old_table_frame q u : path_ok q -> walk s root q = Some u ->
  v + PAGE_SIZE <= u \/ u + PAGE_SIZE <= v.
Proof.
  intros Hq Hu. destruct (pt_frame _ _ Hpt q u Hq Hu) as (g & r & -> & Hc & _).
  assert (f <> g) by congruence. unfold v, PAGE_SIZE. lia.
Qed.

Lemma create_store : fa_inv s3 /\ fa_hhdm s3 = fa_hhdm s /\
  (forall x, fa_private s3 x <-> fa_private s x) /\
  (forall j, fa_count s3 j = fa_count s2 j) /\ rd s3 t i = e /\
  (forall x, ~ t + 8 * i <= x < t + 8 * i + 8 -> get8 (fa_mem s3) x = get8 (fa_mem s2) x).
Proof.
  destruct (path_ok_snoc _ _ Hok) as (Hp & Hi & _).
  destruct (store_kept s2 (t + 8 * i) e) as (H1 & H2 & H3 & H4 & H5 & H6); [apply Hun| |].
  { intros x Hx. apply (undisturbed_mono s s2 x Hun), (table_byte_kept s root); [done|].
    exists p, t. unfold PAGE_SIZE. split_and!; (done || lia). }
  fold (wr s2 t i e) in H1, H2, H3, H4, H5, H6. fold s3 in H1, H2, H3, H4, H5, H6.
  split; [done|]. split; [by rewrite H2; apply Hun|].
  split; [intros x; rewrite H3; apply Hun|]. split; [done|]. split; [by apply H5, create_entry|done].
Qed.

Lemma create_rd q u j : path_ok q -> walk s root q = Some u -> 0 <= j < 512 -> ~ (q = p /\ j = i) ->
  rd s3 u j = rd s u j.
Proof.
  intros Hq Hu Hj Hne. destruct create_store as (_ & _ & _ & _ & _ & H6).
  destruct (path_ok_snoc _ _ Hok) as (Hp & Hi & _). apply rd_ext. intros x Hx. rewrite H6.
  - apply Hun, (table_byte_kept s root); [done|]. exists q, u.
    unfold PAGE_SIZE. split_and!; (done || lia).
  - destruct (decide (q = p)) as [->|Hqp].
    + assert (j <> i) by (intros ->; by apply Hne). assert (u = t) by congruence. lia.
    + pose proof (tables_apart _ _ _ _ _ _ Hpt Hq Hp Hu Hw Hqp). unfold PAGE_SIZE in *. lia.
Qed.

Lemma create_rd_new j : 0 <= j < 512 -> rd s3 v j = 0.
Proof.
  intros Hj. destruct create_store as (_ & _ & _ & _ & _ & H6).
  destruct (path_ok_snoc _ _ Hok) as (Hp & Hi & _).
  pose proof (old_table_frame p t Hp Hw).
  unfold rd. change 0 with (load64 (∅ : mem) 0). apply load_ext. intros k Hk.
  rewrite H6 by (unfold PAGE_SIZE in *; lia). rewrite Hzero.
  - unfold get8. by rewrite lookup_empty.
  - unfold in_frame, v, PAGE_SIZE in *. lia.
Qed.

Lemma create_walk_old q : path_ok q -> ~ (p ++ [i]) `prefix_of` q -> walk s3 root q = walk s root q.
Proof.
  destruct create_store as (_ & H2 & _). destruct (path_ok_snoc _ _ Hok) as (Hp & Hi & _).
  apply (walk_agree s s3 root p t i); try done. apply create_rd.
Qed.

Lemma create_walk_new : walk s3 root (p ++ [i]) = Some v.
Proof.
  destruct create_store as (H1 & H2 & _ & _ & H5 & _). destruct (path_ok_snoc _ _ Hok) as (Hp & Hi & _).
  rewrite walk_snoc, create_walk_old by (done || (intros Hpre%prefix_length; rewrite length_app in Hpre; simpl in Hpre; lia)).
  rewrite Hw. unfold child. rewrite H5. destruct create_entry as (_ & -> & ->).
  by rewrite phys_to_hhdm_add, H2 by (done || (unfold PAGE_SIZE; lia)).
Qed.

(** Walks of the new tree: the new table and nothing below it. *)
Lemma create_walk q u : path_ok q -> walk s3 root q = Some u ->
  (q = p ++ [i] /\ u = v) \/ (~ (p ++ [i]) `prefix_of` q /\ walk s root q = Some u).
Proof.
  intros Hq Hu. destruct (decide ((p ++ [i]) `prefix_of` q)) as [[r ->]|Hn].
  - left. rewrite walk_app, create_walk_new in Hu. destruct r as [|j r].
    { rewrite app_nil_r. simpl in Hu. by simplify_eq. }
    simpl in Hu. unfold child in Hu. rewrite create_rd_new in Hu; [done|].
    by apply path_ok_app, Forall_cons in Hq as [? _].
  - right. split; [done|]. by rewrite <- create_walk_old.
Qed.

Lemma create_pt_inv : pt_inv s3 root.
Proof.
  destruct create_store as (H1 & H2 & H3 & H4 & _ & _). split; [done|..].
  - intros q u Hq [[-> ->]|[_ Hu]]%create_walk; [|..|done].
    + exists f, 1. rewrite H2, H4. split; [done|]. split; [done|]. by apply (count_open _ _ 1); [|rewrite H4|].
    + destruct (pt_frame _ _ Hpt q u Hq Hu) as (g & r & -> & Hc & Hr). exists g, r.
      rewrite H2, H4. split; [done|]. split; [by apply (un_count _ _ Hun)|by apply (open_frame_eq s)].
  - intros q q' u Hq Hq' [[-> ->]|[_ Hu]]%create_walk [[-> Eu]|[_ Hu']]%create_walk; try done.
    + pose proof (old_table_frame q' v Hq' Hu'). unfold PAGE_SIZE in *. lia.
    + subst u. pose proof (old_table_frame q v Hq Hu). unfold PAGE_SIZE in *. lia.
    + by apply (pt_inj _ _ Hpt q q' u).
Qed.

Lemma walk_below_absent r : walk s root ((p ++ [i]) ++ r) = None.
Proof. by rewrite walk_app, walk_snoc, Hw, Habs. Qed.

Lemma create_ext : pt_ext root s s3.
Proof.
  destruct create_store as (H1 & H2 & H3 & H4 & _ & H6). destruct (path_ok_snoc _ _ Hok) as (Hp & Hi & Hlen).
  split; [apply create_pt_inv|done|done| | | | | |].
  - intros j r Hc. rewrite H4. by apply (un_count _ _ Hun).
  - intros q u Hq Hu. rewrite create_walk_old; [done|done|]. intros [r ->].
    by rewrite walk_below_absent in Hu.
  - intros q j Hq Hl Hj. unfold leaf.
    destruct (decide ((p ++ [i]) `prefix_of` q)) as [[r ->]|Hn].
    + rewrite walk_below_absent. destruct (walk s3 root _) as [u|] eqn:Hu; [|done].
      apply create_walk in Hu as [[_ ->]|[Hn _]]; [by apply create_rd_new| |done].
      exfalso. apply Hn. by exists r.
    + rewrite create_walk_old by done. destruct (walk s root q) as [u|] eqn:Hu; [|done].
      apply (create_rd q); try done. intros [-> _]. lia.
  - intros x Hx Hn. rewrite H6; [by apply Hun|]. intros Ht. apply Hn. exists p, t.
    unfold PAGE_SIZE. split_and!; (done || lia).
  - intros x (q & u & Hq & Hu & Hx) (g & r & Hfr & Hc & _).
    apply create_walk in Hu as [[_ ->]|[_ Hu]]; [|by exists q, u|done].
    exfalso. assert (f <> g) by congruence. unfold in_frame, v, PAGE_SIZE in *. lia.
  - intros j Hj Hs. apply (create_rd []); [apply path_ok_nil|done|done|]. intros [<- ->].
    destruct Hok as (_ & _ & Hi'). cbn in Hi'. congruence.
Qed.
End Create.

(** ** Walking *)
Section Walks.
Context {A : Type} `{FS : FrameAllocatorSpec A} `{R : Slots}.
Implicit Types (s : A) (t u i j x root va : Z) (p : list Z).

Definition va_path va : list Z :=
  [tbl_index va PML4_INDEX; tbl_index va PDPT_INDEX; tbl_index va PD_INDEX].

(** The last-level entry a translation of [va] ends in. *)
Definition lookup_pte s root va : Z := leaf s root (va_path va) (tbl_index va PT_INDEX).

(** The address is mapped through one of the slots. *)
Definition in_slots va : Prop := root_slot (tbl_index va PML4_INDEX) = true.

Lemma va_path_ok va : in_slots va -> path_ok (va_path va).
Proof. intros Hs. split; [simpl; lia|]. split; [|done]. repeat constructor; apply tbl_index_range. Qed.

Lemma next_table_false s t i : next_table s t i false = (child s t i, s).
Proof. unfold next_table, child. by destruct (has _ _). Qed.

(** Without creation the walk only reads. *)
Lemma vmm_walk_false s root va : vmm_walk_to_pte s root va false =
  (match walk s root (va_path va) with
   | Some pt => Some (pt + 8 * tbl_index va PT_INDEX) | None => None end, s).
Proof.
  unfold vmm_walk_to_pte, va_path. cbn [walk]. rewrite next_table_false.
  destruct (child s root _) as [t|]; [|done]. rewrite next_table_false.
  destruct (child s t _) as [u|]; [|done]. rewrite next_table_false.
  by destruct (child s u _).
Qed.

Lemma virt2phys_lookup s root va : vmm_virt2phys s root va =
  if has VMM_FLAG_PRESENT (lookup_pte s root va)
  then u64 (pte_get_addr (lookup_pte s root va) + va mod PAGE_SIZE) else 0.
Proof.
  unfold vmm_virt2phys, lookup_pte, leaf. rewrite vmm_walk_false. cbn [fst].
  destruct (walk s root (va_path va)) as [t|]; [|done]. change (rd_pte s ?a) with (load64 (fa_mem s) a).
  unfold rd. destruct (has _ _); [|done]. simpl negb.
  change PAGE_SIZE with (2 ^ 12). by rewrite <- (land_mask va 12) by lia.
Qed.

(** One step with creation.  Out of frames: the table is missing and the allocator
    empty.  Otherwise the table is there, nothing else of the tree changed, and [k]
    frames (0 or 1) were taken, by which the walk now misses fewer tables. *)
Lemma next_table_true s root p t i : pt_inv s root -> path_ok (p ++ [i]) -> walk s root p = Some t ->
  (next_table s t i true = (None, s) /\ exhausted s /\ forall q, (0 < missing s t (i :: q))%nat) \/
  exists v s' k, next_table s t i true = (Some v, s') /\ pt_ext root s s' /\
    walk s' root (p ++ [i]) = Some v /\
    (forall q, Forall (fun j => 0 <= j < 512) q -> missing s t (i :: q) = (k + missing s' v q)%nat) /\
    (forall n, room s (k + n) <-> room s' n).
Proof.
  intros Hpt Hok Hw. unfold next_table. destruct (has VMM_FLAG_PRESENT (rd s t i)) eqn:Hpres; simpl negb.
  { right. eexists _, s, 0%nat. split; [done|]. split; [by apply pt_ext_refl|].
    rewrite walk_snoc, Hw. unfold child at 1. rewrite Hpres. split; [done|]. split; [|done].
    intros q _. cbn [missing]. unfold child at 1. by rewrite Hpres. }
  assert (child s t i = None) as Habs by (unfold child; by rewrite Hpres).
  destruct (alloc_zero s (pt_fa _ _ Hpt)) as [(f & s1 & -> & Hf & Hfree & Hv & Hz)|[Hnone Hex]];
    [right|left; rewrite Hnone; split; [done|]; split; [done|]; intros q; cbn [missing]; rewrite Habs; simpl; lia].
  cbv zeta in Hz. destruct Hz as (Hun & Hc & Ho & Hzero).
  rewrite (proj2 (Z.eqb_neq (f * PAGE_SIZE) 0)) by (unfold PAGE_SIZE; lia). rewrite Hv.
  set (s2 := zero_page s1 (fa_hhdm s + f * PAGE_SIZE)) in *.
  assert (Z.lor (Z.lor (Z.lor (pte_set_addr 0 (f * PAGE_SIZE)) VMM_FLAG_PRESENT)
    VMM_FLAG_WRITABLE) VMM_FLAG_USER = f * PAGE_SIZE + 7) as ->.
  { assert (is_u64 (f * PAGE_SIZE)) as Hu by (unfold is_u64, PAGE_SIZE; lia).
    assert ((f * PAGE_SIZE) mod PAGE_SIZE = 0) as Hm by by apply Z.mod_mul.
    rewrite pte_set_addr_0, <- !Z.lor_assoc by done.
    change (Z.lor VMM_FLAG_PRESENT _) with 7. by apply pte_make. }
  eexists _, _, 1%nat. split; [done|].
  split; [by eapply create_ext|]. split; [by eapply create_walk_new|].
  destruct (create_store s s2 root t i f p Hpt Hok Hw Hun Hf) as (_ & _ & _ & Hcnt & _). split.
  - intros q Hq. cbn [missing]. rewrite Habs. destruct q as [|j q]; [done|]. apply Forall_cons in Hq as [Hj _].
    cbn [missing]. unfold child. rewrite (create_rd_new s s2 root t i f p) by done. done.
  - intros n. apply (room_take s _ f); [lia|done|exists 1; by rewrite Hcnt|].
    intros j Hj. by rewrite Hcnt, Ho.
Qed.

(** The whole walk with creation: it fails exactly when the free frames do not suffice for
    the tables it misses, and has then used them up. *)
Lemma vmm_walk_true s root va : pt_inv s root -> in_slots va ->
  exists r s', vmm_walk_to_pte s root va true = (r, s') /\ pt_ext root s s' /\
    ((r = None /\ ~ room s (missing s root (va_path va)) /\ exhausted s') \/
     exists t, walk s' root (va_path va) = Some t /\ r = Some (t + 8 * tbl_index va PT_INDEX) /\
       forall n, room s (missing s root (va_path va) + n) <-> room s' n).
Proof.
  intros Hpt Hsl. pose proof (va_path_ok va Hsl) as Hok. unfold vmm_walk_to_pte, va_path in *.
  set (i4 := tbl_index va PML4_INDEX) in *. set (i3 := tbl_index va PDPT_INDEX) in *.
  set (i2 := tbl_index va PD_INDEX) in *. clearbody i4 i3 i2.
  destruct (path_ok_snoc [i4; i3] i2 Hok) as (Hok2 & _). destruct (path_ok_snoc [i4] i3 Hok2) as (Hok1 & _).
  pose proof (path_ok_app [i4] [i3; i2] Hok) as F1. pose proof (path_ok_app [i4; i3] [i2] Hok) as F2.
  assert (forall s' m, exhausted s' -> (0 < m)%nat -> ~ room s' m) as Hex by (intros s' m He Hm Hr; by apply He, (room_le _ m)).
  destruct (next_table_true s root [] root i4 Hpt Hok1 eq_refl) as [(-> & He & Hm)|(t1 & s1 & k1 & -> & E1 & W1 & M1 & R1)].
  { exists None, s. split; [done|]. split; [by apply pt_ext_refl|left]. split; [done|]. split; [by apply Hex|done]. }
  destruct (next_table_true s1 root [i4] t1 i3 (pe_inv _ _ _ E1) Hok2 W1) as [(-> & He & Hm)|(t2 & s2 & k2 & -> & E2 & W2 & M2 & R2)].
  { exists None, s1. split; [done|]. split; [done|left]. split; [done|]. split; [|done]. rewrite M1, R1 by done. by apply Hex. }
  destruct (next_table_true s2 root [i4; i3] t2 i2 (pe_inv _ _ _ E2) Hok W2) as [(-> & He & Hm)|(t3 & s3 & k3 & -> & E3 & W3 & M3 & R3)].
  { exists None, s2. split; [done|]. split; [by eapply pt_ext_trans|left]. split; [done|]. split; [|done].
    rewrite M1, R1, M2, R2 by done. by apply Hex. }
  eexists _, s3. split; [done|]. split; [by eapply pt_ext_trans; [eapply pt_ext_trans|]|].
  right. eexists. split; [done|]. split; [done|]. intros n. rewrite M1, M2, M3 by done. cbn [missing].
  by rewrite <- R3, <- R2, <- R1, Nat.add_0_r, !Nat.add_assoc.
Qed.
End Walks.

(** ** Writing a last-level entry *)
Section SetLeaf.
Context {A : Type} `{FS : FrameAllocatorSpec A} `{R : Slots}.
Implicit Types (s : A) (t i j x root va e : Z) (p q : list Z).

(** [s'] is [s] with the last-level entry [(p, i)] set to [e]. *)
Record leaf_update root s s' p i e : Prop := {
  lu_inv : pt_inv s' root;
  lu_hhdm : fa_hhdm s' = fa_hhdm s;
  lu_private x : fa_private s' x <-> fa_private s x;
  lu_walk q : path_ok q -> walk s' root q = walk s root q;
  lu_leaf q j : path_ok q -> length q = 3%nat -> 0 <= j < 512 ->
    leaf s' root q j = if bool_decide (q = p /\ j = i) then e else leaf s root q j;
  lu_mem x : ~ table_byte s root x -> get8 (fa_mem s') x = get8 (fa_mem s) x;
  lu_root : root_kept root s s'
}.

Lemma wr_pte_update s root p t i e : pt_inv s root -> path_ok p -> length p = 3%nat ->
  walk s root p = Some t -> 0 <= i < 512 -> is_u64 e ->
  leaf_update root s (wr_pte s (t + 8 * i) e) p i e /\
  (forall k, fa_count (wr_pte s (t + 8 * i) e) k = fa_count s k).
Proof.
  intros Hpt Hp Hlen Hw Hi He. set (s' := wr_pte s (t + 8 * i) e).
  destruct (store_kept s (t + 8 * i) e (pt_fa _ _ Hpt)) as (H1 & H2 & H3 & H4 & H5 & H6).
  { intros x Hx. apply (table_byte_kept s root); [done|]. exists p, t.
    unfold PAGE_SIZE. split_and!; (done || lia). }
  fold (wr_pte s (t + 8 * i) e) in H1, H2, H3, H4, H5, H6. fold s' in H1, H2, H3, H4, H5, H6.
  specialize (H5 He).
  assert (forall q u j, path_ok q -> walk s root q = Some u -> 0 <= j < 512 -> ~ (q = p /\ j = i) ->
    rd s' u j = rd s u j) as Hrd.
  { intros q u j Hq Hu Hj Hne. apply rd_ext. intros x Hx. apply H6.
    destruct (decide (q = p)) as [->|Hqp].
    - assert (j <> i) by (intros ->; by apply Hne). assert (u = t) by congruence. lia.
    - pose proof (tables_apart _ _ _ _ _ _ Hpt Hq Hp Hu Hw Hqp). unfold PAGE_SIZE in *. lia. }
  assert (forall q, path_ok q -> walk s' root q = walk s root q) as Hwalk.
  { intros q Hq. apply (walk_agree s s' root p t i); try done.
    intros Hpre%prefix_length. rewrite length_app in Hpre. destruct Hq as [? _]. simpl in Hpre. lia. }
  split; [|done]. split; [split; [done|..]|done|done|done|..].
  - intros q u Hq. rewrite Hwalk by done. rewrite H2. setoid_rewrite H4. intros Hu.
    destruct (pt_frame _ _ Hpt q u Hq Hu) as (g & r & Hg & Hc & Ho). exists g, r. split; [done|]. split; [done|]. by apply (open_frame_eq s).
  - intros q q' u Hq Hq'. rewrite !Hwalk by done. by apply (pt_inj _ _ Hpt).
  - intros q j Hq Hl Hj. unfold leaf. rewrite Hwalk by done. case_bool_decide as Hb.
    + destruct Hb as [-> ->]. by rewrite Hw.
    + destruct (walk s root q) as [u|] eqn:Hu; [|done]. by apply (Hrd q).
  - intros x Hn. apply H6. intros Ht. apply Hn. exists p, t.
    unfold PAGE_SIZE. split_and!; (done || lia).
  - intros j Hj _. apply (Hrd []); [apply path_ok_nil|done|done|]. intros [<- _]. done.
Qed.

(** Dropping a reference to a frame that is not a table of the tree. *)
Lemma free_ext s root phys r : pt_inv s root -> fa_count s (phys / PAGE_SIZE) = Some r -> 0 < r ->
  (forall p t, path_ok p -> walk s root p = Some t -> t <> fa_hhdm s + phys / PAGE_SIZE * PAGE_SIZE) ->
  let s' := fa_free s phys in
  pt_inv s' root /\ fa_hhdm s' = fa_hhdm s /\ (forall x, fa_private s' x <-> fa_private s x) /\
  (forall q, path_ok q -> walk s' root q = walk s root q) /\
  (forall q j, path_ok q -> 0 <= j < 512 -> leaf s' root q j = leaf s root q j) /\
  (forall x, kept s x -> get8 (fa_mem s') x = get8 (fa_mem s) x) /\ root_kept root s s' /\
  (forall k, fa_count s' k =
     if phys / PAGE_SIZE =? k then (if r =? 1 then None else Some (r - 1)) else fa_count s k).
Proof.
  intros Hpt Hc Hr Hnt s'. destruct (fa_free_ok s phys r (pt_fa _ _ Hpt) Hc Hr) as [Hq Hcnt].
  fold s' in Hq, Hcnt. destruct Hq as (H1 & H2 & H3 & H4).
  assert (forall x, kept s x -> get8 (fa_mem s') x = get8 (fa_mem s) x) as Hm
    by (intros x Hx; by apply H4, kept_not_private).
  assert (forall q u j, path_ok q -> walk s root q = Some u -> 0 <= j < 512 -> rd s' u j = rd s u j) as Hrd.
  { intros q u j Hq Hu Hj. apply rd_ext. intros x Hx. apply Hm, (table_byte_kept s root); [done|].
    exists q, u. unfold PAGE_SIZE. split_and!; (done || lia). }
  assert (forall q, path_ok q -> walk s' root q = walk s root q) as Hwalk.
  { intros q. induction q as [|j q IH] using rev_ind; intros Hq; [done|].
    destruct (path_ok_snoc _ _ Hq) as (Hq' & Hj & _).
    rewrite !walk_snoc, IH by done. destruct (walk s root q) as [u|] eqn:Hu; [|done].
    unfold child, phys_to_hhdm. by rewrite (Hrd q u j), H2 by done. }
  split; [split; [done|..]|split; [done|split; [done|split; [done|split; [|split; [done|split; [|done]]]]]]].
  - intros q u Hq. rewrite Hwalk by done. intros Hu.
    destruct (pt_frame _ _ Hpt q u Hq Hu) as (g & r' & -> & Hcg & Hr').
    exists g, r'. rewrite H2, Hcnt. split; [done|]. rewrite (proj2 (Z.eqb_neq _ _)); [split; [done|by apply (open_frame_eq s)]|].
    intros <-. by apply (Hnt q _ Hq Hu).
  - intros q q' u Hq Hq'. rewrite !Hwalk by done. by apply (pt_inj _ _ Hpt).
  - intros q j Hq Hj. unfold leaf. rewrite Hwalk by done.
    destruct (walk s root q) as [u|] eqn:Hu; [|done]. by apply (Hrd q).
  - intros j Hj _. by apply (Hrd []); [apply path_ok_nil|..].
Qed.
End SetLeaf.

(** ** Mapping, unmapping, copy on write *)
Section Mapping.
Context {A : Type} `{FS : FrameAllocatorSpec A} `{R : Slots}.
Implicit Types (s : A) (t i j x root va pa flags e : Z) (p q : list Z).

(** Two addresses of the same virtual page. *)
Definition same_page va va' : bool :=
  bool_decide (va_path va' = va_path va /\ tbl_index va' PT_INDEX = tbl_index va PT_INDEX).

(** The page [phys] belongs to is held and is not one of the tree's tables. *)
Definition data_frame s root phys : Prop :=
  (exists r, fa_count s (phys / PAGE_SIZE) = Some r /\ 0 < r) /\
  forall p t, path_ok p -> walk s root p = Some t -> t <> fa_hhdm s + phys / PAGE_SIZE * PAGE_SIZE.

Lemma data_frame_ext s s' root phys : pt_inv s root -> pt_ext root s s' ->
  data_frame s root phys -> data_frame s' root phys.
Proof.
  intros Hpt E [(r & Hc & Hr) Hnt]. split; [exists r; split; [by apply E|done]|].
  rewrite (pe_hhdm _ _ _ E). intros p t Hp Hw ->.
  set (x := fa_hhdm s + phys / PAGE_SIZE * PAGE_SIZE) in *.
  destruct (pe_table _ _ _ E x) as (q & u & Hq & Hu & Hx).
  - exists p, x. unfold PAGE_SIZE. split_and!; (done || lia).
  - apply (count_kept s (phys / PAGE_SIZE) r); [apply Hpt| |done|done]. unfold in_frame, x, PAGE_SIZE. lia.
  - destruct (pt_frame _ _ Hpt q u Hq Hu) as (g & _ & -> & _). apply (Hnt q _ Hq Hu).
    unfold x, PAGE_SIZE in *. lia.
Qed.

(** Entries of [va]'s page after a leaf update. *)
Lemma leaf_update_lookup root s s' va e : 
  leaf_update root s s' (va_path va) (tbl_index va PT_INDEX) e ->
  forall va', in_slots va' -> lookup_pte s' root va' = if same_page va va' then e else lookup_pte s root va'.
Proof.
  intros L va' Hs. unfold lookup_pte.
  by rewrite (lu_leaf _ _ _ _ _ _ L) by (done || by apply va_path_ok || apply tbl_index_range).
Qed.

Lemma lookup_present s root va : has VMM_FLAG_PRESENT (lookup_pte s root va) = true ->
  exists t, walk s root (va_path va) = Some t /\
    rd_pte s (t + 8 * tbl_index va PT_INDEX) = lookup_pte s root va.
Proof. unfold lookup_pte, leaf. destruct (walk _ _ _) as [t|]; [|done]. intros _. by exists t. Qed.

Lemma new_entry pa flags : is_u64 pa -> pa mod PAGE_SIZE = 0 -> 0 <= flags < PAGE_SIZE ->
  let e := Z.lor (Z.lor (pte_set_addr 0 pa) flags) VMM_FLAG_PRESENT in
  is_u64 e /\ pte_get_addr e = pa /\ has VMM_FLAG_PRESENT e = true /\
  pte_get_flags e = Z.lor flags VMM_FLAG_PRESENT.
Proof.
  intros Hu Hm Hf e. unfold e. rewrite pte_set_addr_0, <- Z.lor_assoc by done.
  pose proof (lor_flags_range flags VMM_FLAG_PRESENT Hf ltac:(done)) as Hr.
  destruct (pte_make pa (Z.lor flags VMM_FLAG_PRESENT) Hu Hm Hr) as (-> & H1 & H2 & H3).
  split; [done|]. split; [done|]. split; [|done].
  change VMM_FLAG_PRESENT with (2 ^ 0) at 1. rewrite has_flags by (done || lia).
  rewrite has_lor by lia. apply orb_true_r.
Qed.

(** The reference to the frame mapped before is dropped. *)
Lemma drop_old s root e pa :
  pt_inv s root ->
  (has VMM_FLAG_PRESENT e = true -> has PTE_FLAG_SHARED e = false -> data_frame s root (pte_get_addr e)) ->
  let s' := if has VMM_FLAG_PRESENT e then
              if negb (pte_get_addr e =? pa) && negb (has PTE_FLAG_SHARED e)
              then fa_free s (pte_get_addr e) else s else s in
  pt_inv s' root /\ (forall q, path_ok q -> walk s' root q = walk s root q) /\
  (forall va, in_slots va -> lookup_pte s' root va = lookup_pte s root va) /\
  (forall x, kept s x -> get8 (fa_mem s') x = get8 (fa_mem s) x) /\ root_kept root s s'.
Proof.
  intros Hpt Hd s'. subst s'. destruct (has VMM_FLAG_PRESENT e); [|done].
  destruct (_ =? pa); [done|]. destruct (has PTE_FLAG_SHARED e); [done|]. simpl.
  destruct (Hd eq_refl eq_refl) as [(r & Hc & Hr) Hnt].
  destruct (free_ext s root _ r Hpt Hc Hr Hnt) as (H1 & _ & _ & H2 & H3 & H4 & H5 & _).
  split; [done|]. split; [done|]. split; [|done].
  intros va Hs. apply H3; [by apply va_path_ok|apply tbl_index_range].
Qed.

Lemma table_byte_walk s s' root x : (forall q, path_ok q -> walk s' root q = walk s root q) ->
  table_byte s' root x -> table_byte s root x.
Proof. intros H (p & t & Hp & Hw & Hx). exists p, t. by rewrite H in Hw. Qed.

(** [vmm_map_page] on entries. *)
Lemma vmm_map_page_spec s root va pa flags :
  pt_inv s root -> in_slots va -> is_u64 pa -> pa mod PAGE_SIZE = 0 -> 0 <= flags < PAGE_SIZE ->
  (let e := lookup_pte s root va in
   has VMM_FLAG_PRESENT e = true -> has PTE_FLAG_SHARED e = false -> data_frame s root (pte_get_addr e)) ->
  let s' := vmm_map_page s root va pa flags in
  let need := missing s root (va_path va) in
  let e' := Z.lor (Z.lor (pte_set_addr 0 pa) flags) VMM_FLAG_PRESENT in
  pt_inv s' root /\
  ((~ room s need /\ exhausted s' /\
    forall va', in_slots va' -> lookup_pte s' root va' = lookup_pte s root va') \/
   (room s need /\
    forall va', in_slots va' -> lookup_pte s' root va' = if same_page va va' then e' else lookup_pte s root va')) /\
  root_kept root s s' /\
  (forall x, kept s x -> ~ table_byte s root x -> get8 (fa_mem s') x = get8 (fa_mem s) x) /\
  (has VMM_FLAG_PRESENT (lookup_pte s root va) = false ->
     (forall n, room s (need + n) -> room s' n) /\ (forall n, room s' n -> room s n) /\
     forall phys n, data_frame s root phys -> fa_count s (phys / PAGE_SIZE) = Some n ->
     data_frame s' root phys /\ fa_count s' (phys / PAGE_SIZE) = Some n).
Proof.
  intros Hpt Hsl Hu Hm Hf Hold s' need e'. subst s' e'. unfold vmm_map_page.
  destruct (vmm_walk_true s root va Hpt Hsl) as (r & s1 & -> & E & Hr). fold need in Hr.
  assert (forall va', in_slots va' -> lookup_pte s1 root va' = lookup_pte s root va') as Hsame
    by (intros va' Hs'; apply E; [by apply va_path_ok|done|apply tbl_index_range]).
  assert (forall phys n, data_frame s root phys -> fa_count s (phys / PAGE_SIZE) = Some n ->
    data_frame s1 root phys /\ fa_count s1 (phys / PAGE_SIZE) = Some n) as Hdata
    by (intros phys n Hdf Hc; split; [by apply (data_frame_ext s s1)|by apply E]).
  destruct Hr as [(-> & Hn & Hex)|(t & Hw & -> & Hroom)].
  { split; [apply E|]. split; [by left|]. split; [apply E|]. split; [apply E|]. intros _. split.
    - intros n Hr. exfalso. apply Hn. eapply room_le; [|exact Hr]. lia.
    - split; [|done]. intros [|n] Hr; [apply room_0|]. exfalso. apply Hex. eapply room_le; [|exact Hr]. lia. }
  assert (rd_pte s1 (t + 8 * tbl_index va PT_INDEX) = lookup_pte s root va) as Hrd.
  { rewrite <- Hsame by done. unfold lookup_pte, leaf. by rewrite Hw. }
  rewrite Hrd. destruct (new_entry pa flags Hu Hm Hf) as (He & _).
  set (e := Z.lor _ VMM_FLAG_PRESENT) in *.
  destruct (drop_old s1 root (lookup_pte s root va) pa (pe_inv _ _ _ E)) as (Hpt2 & Hw2 & Hl2 & Hm2 & Hr2).
  { intros H1 H2. by apply (data_frame_ext s s1), Hold. }
  set (s2 := if has VMM_FLAG_PRESENT (lookup_pte s root va) then _ else s1) in *.
  assert (has VMM_FLAG_PRESENT (lookup_pte s root va) = false -> s2 = s1) as Hs2
    by (unfold s2; by intros ->). clearbody s2.
  destruct (wr_pte_update s2 root (va_path va) t (tbl_index va PT_INDEX) e) as [L Hcnt];
    [done|by apply va_path_ok|done|by rewrite Hw2 by by apply va_path_ok|apply tbl_index_range|done|].
  split; [apply L|]. split; [|split; [|split]].
  - right. split; [by rewrite <- (Nat.add_0_r need), Hroom; apply room_0|]. intros va' Hs'.
    by rewrite (leaf_update_lookup _ _ _ _ _ L), Hl2, Hsame.
  - intros i Hi Hs'. rewrite (lu_root _ _ _ _ _ _ L), Hr2 by done. by apply (pe_root _ _ _ E).
  - intros x Hx Hnt. assert (~ table_byte s1 root x) as Hnt1.
    { intros Ht. by apply Hnt, (pe_table _ _ _ E). }
    rewrite (lu_mem _ _ _ _ _ _ L), Hm2.
    + by apply E.
    + destruct Hx as (k & r & Hfr & Hc & Hr). exists k, r. rewrite (pe_hhdm _ _ _ E).
      split; [done|]. split; [by apply E|by rewrite (pe_private _ _ _ E)].
    + intros Ht. by apply Hnt1, (table_byte_walk s1 s2).
  - intros Habs. specialize (Hs2 Habs) as ->. split.
    { intros n Hr. apply (room_kept s1); [intros i _; by rewrite Hcnt|by apply Hroom]. }
    split.
    { intros n Hr. apply (room_le _ (need + n)); [lia|]. apply Hroom. eapply room_kept; [|exact Hr]. intros i _. by rewrite Hcnt. }
    intros phys n Hdf Hc. destruct (Hdata phys n Hdf Hc) as [[_ Hnt1] Hc1].
    assert (fa_count (wr_pte s1 (t + 8 * tbl_index va PT_INDEX) e) (phys / PAGE_SIZE) = Some n) as Hcn
      by by rewrite Hcnt.
    split; [|done]. destruct Hdf as [(r & Hr & ?) _]. split; [exists n; split; [done|congruence]|].
    intros p u Hp. rewrite (lu_walk _ _ _ _ _ _ L), (lu_hhdm _ _ _ _ _ _ L) by done. by apply Hnt1.
Qed.

(** C4: Mapping a page.  The walk needs a frame for each of the tables it misses (at
    most three).  With so many free frames the page of [va] translates to the frame [pa]
    with the given flags, and every other page as before.  With fewer, the page is not
    mapped: no translation changes, and no frame is left.  In both cases the tables stay
    a tree of separately taken frames, the entries of the root that are not the kernel's
    to build stay, and no byte in use by anyone else is written. *)
Theorem vmm_map_page_correct s root va pa flags :
  pt_inv s root -> in_slots va -> is_u64 pa -> pa mod PAGE_SIZE = 0 -> 0 <= flags < PAGE_SIZE ->
  (let e := lookup_pte s root va in
   has VMM_FLAG_PRESENT e = true -> has PTE_FLAG_SHARED e = false -> data_frame s root (pte_get_addr e)) ->
  let s' := vmm_map_page s root va pa flags in
  let need := missing s root (va_path va) in
  pt_inv s' root /\
  ((~ room s need /\ exhausted s' /\
    forall va', in_slots va' -> vmm_virt2phys s' root va' = vmm_virt2phys s root va') \/
   (room s need /\
    (forall va', in_slots va' -> vmm_virt2phys s' root va' =
      if same_page va va' then pa + va' mod PAGE_SIZE else vmm_virt2phys s root va') /\
    pte_get_flags (lookup_pte s' root va) = Z.lor flags VMM_FLAG_PRESENT)) /\
  root_kept root s s' /\
  (forall x, kept s x -> ~ table_byte s root x -> get8 (fa_mem s') x = get8 (fa_mem s) x).
Proof.
  intros Hpt Hs Hu Hm Hf Hold s' need.
  destruct (vmm_map_page_spec s root va pa flags Hpt Hs Hu Hm Hf Hold) as (H1 & H2 & H3 & H4 & _).
  destruct (new_entry pa flags Hu Hm Hf) as (_ & Ha & Hpr & Hfl). fold s' need in H1, H2, H3, H4.
  split; [done|]. split; [|done]. destruct H2 as [(Hn & Hex & Hl)|[Hr Hl]]; [left|right].
  - split; [done|]. split; [done|]. intros va' Hs'. by rewrite !virt2phys_lookup, Hl.
  - split; [done|]. split.
    + intros va' Hs'. rewrite !virt2phys_lookup, Hl by done. destruct (same_page va va'); [|done].
      rewrite Hpr, Ha. apply u64_small. pose proof (Z.mod_pos_bound va' PAGE_SIZE ltac:(done)).
      unfold is_u64, PAGE_SIZE in *. Z.div_mod_to_equations. lia.
    + rewrite Hl by done. unfold same_page. by rewrite bool_decide_true.
Qed.

(** After [vmm_unmap_page] the page of [va] does not translate and every other
    page translates as before. *)
Theorem vmm_unmap_page_correct s root va : pt_inv s root -> in_slots va ->
  let s' := vmm_unmap_page s root va in
  pt_inv s' root /\
  (forall va', in_slots va' -> vmm_virt2phys s' root va' = if same_page va va' then 0 else vmm_virt2phys s root va') /\
  (forall x, ~ table_byte s root x -> get8 (fa_mem s') x = get8 (fa_mem s) x).
Proof.
  intros Hpt Hs s'. subst s'. unfold vmm_unmap_page. rewrite vmm_walk_false. cbn [fst].
  destruct (walk s root (va_path va)) as [t|] eqn:Hw.
  - destruct (wr_pte_update s root (va_path va) t (tbl_index va PT_INDEX) 0) as [L _];
      [done|by apply va_path_ok|done|done|apply tbl_index_range|done|].
    split; [apply L|]. split; [|apply L].
    intros va' Hs'. rewrite !virt2phys_lookup, (leaf_update_lookup _ _ _ _ _ L) by done.
    by destruct (same_page va va').
  - split; [done|]. split; [|done]. intros va' _. destruct (same_page va va') eqn:Hp; [|done].
    rewrite virt2phys_lookup. unfold lookup_pte, leaf. apply bool_decide_eq_true in Hp as [-> _].
    by rewrite Hw.
Qed.

(** A tree survives whatever does not touch what is taken. *)
Lemma undisturbed_tree s s' root : pt_inv s root -> undisturbed s s' ->
  pt_inv s' root /\ (forall q, path_ok q -> walk s' root q = walk s root q) /\
  (forall va, in_slots va -> lookup_pte s' root va = lookup_pte s root va) /\
  (forall i, 0 <= i < 512 -> rd s' root i = rd s root i).
Proof.
  intros Hpt U. assert (forall q u j, path_ok q -> walk s root q = Some u -> 0 <= j < 512 ->
    rd s' u j = rd s u j) as Hrd.
  { intros q u j Hq Hu Hj. apply rd_ext. intros x Hx. apply U, (table_byte_kept s root); [done|].
    exists q, u. unfold PAGE_SIZE. split_and!; (done || lia). }
  assert (forall q, path_ok q -> walk s' root q = walk s root q) as Hwalk.
  { intros q. induction q as [|j q IH] using rev_ind; intros Hq; [done|].
    destruct (path_ok_snoc _ _ Hq) as (Hq' & Hj & _).
    rewrite !walk_snoc, IH by done. destruct (walk s root q) as [u|] eqn:Hu; [|done].
    unfold child, phys_to_hhdm. by rewrite (Hrd q u j), (un_hhdm _ _ U) by done. }
  split; [split; [apply U|..]|split; [done|split]].
  - intros q u Hq. rewrite Hwalk by done. intros Hu.
    destruct (pt_frame _ _ Hpt q u Hq Hu) as (g & r & -> & Hc & Hr). exists g, r.
    rewrite (un_hhdm _ _ U). split; [done|]. split; [by apply U|by apply (open_frame_eq s); [apply U..|]].
  - intros q q' u Hq Hq'. rewrite !Hwalk by done. by apply (pt_inj _ _ Hpt).
  - intros va Hs. unfold lookup_pte, leaf. rewrite Hwalk by by apply va_path_ok.
    destruct (walk s root (va_path va)) as [u|] eqn:Hu; [|done].
    apply (Hrd (va_path va)); [by apply va_path_ok|done|apply tbl_index_range].
  - intros i Hi. by apply (Hrd []); [apply path_ok_nil|..].
Qed.

(** What a write fault on a shared page does when a frame is left: the faulting
    page gets a private copy with the same bytes. *)
Definition cow_copied s s' root va (n : Z) : Prop :=
  let e := lookup_pte s root va in
  let old := pte_get_addr e / PAGE_SIZE in
  exists f, fa_count s f = None /\ fa_count s' f = Some 1 /\ fa_count s' old = Some (n - 1) /\
    (forall k, k <> f -> k <> old -> fa_count s' k = fa_count s k) /\
    (forall va', in_slots va' -> lookup_pte s' root va' =
       if same_page va va' then f * PAGE_SIZE + Z.lor (pte_get_flags e) VMM_FLAG_WRITABLE
       else lookup_pte s root va') /\
    (forall o, 0 <= o < PAGE_SIZE ->
       get8 (fa_mem s') (fa_hhdm s + f * PAGE_SIZE + o) =
       get8 (fa_mem s) (fa_hhdm s + old * PAGE_SIZE + o)).

Lemma flags_range e : 0 <= pte_get_flags e < PAGE_SIZE.
Proof. rewrite pte_get_flags_eq. by apply Z.mod_pos_bound. Qed.

Lemma lookup_range s root va : is_u64 (lookup_pte s root va).
Proof. unfold lookup_pte, leaf. destruct (walk _ _ _); [apply rd_range|done]. Qed.

End Mapping.

(** The copying branch of [vmm_handle_cow], from the allocated frame on. *)
Section CowCopy.
Context {A : Type} `{FS : FrameAllocatorSpec A} `{R : Slots}.
Context (s s1 : A) (root va f t n : Z).
Let e := lookup_pte s root va.
Let old := pte_get_addr e.
Context (Hpt : pt_inv s root) (Hsl : in_slots va) (Hd : data_frame s root old)
  (Hc : fa_count s (old / PAGE_SIZE) = Some n) (Hn : 1 < n)
  (Hw : walk s root (va_path va) = Some t)
  (Hfree : fa_count s f = None) (Hf : 0 < f < 2 ^ 35 - 1)
  (Hold : forall x, kept s x -> ~ in_frame (fa_hhdm s) f x /\ get8 (fa_mem s1) x = get8 (fa_mem s) x)
  (Hfill : forall m, (forall x, ~ in_frame (fa_hhdm s) f x -> get8 m x = get8 (fa_mem s1) x) ->
     undisturbed s (fa_set_mem s1 m) /\ fa_count (fa_set_mem s1 m) f = Some 1 /\
     forall j, f <> j -> fa_count (fa_set_mem s1 m) j = fa_count s j).
Let src := fa_hhdm s + old.
Let dst := fa_hhdm s + f * PAGE_SIZE.
Let s2 := fa_set_mem s1 (memcpy (fa_mem s1) dst src PAGE_SIZE).
Let pte := t + 8 * tbl_index va PT_INDEX.
Let e' := f * PAGE_SIZE + Z.lor (pte_get_flags e) VMM_FLAG_WRITABLE.
Let s3 := wr_pte s2 pte (Z.lor (f * PAGE_SIZE)
  (Z.land (Z.lor (pte_get_flags (rd_pte s2 pte)) VMM_FLAG_WRITABLE) 0xFFF)).

Lemma cow_old_aligned : old = old / PAGE_SIZE * PAGE_SIZE.
Proof.
  unfold old at 1 2. rewrite (pte_get_addr_eq e (lookup_range _ _ _)).
  unfold PAGE_SIZE. Z.div_mod_to_equations. lia.
Qed.

Lemma cow_src_kept o : 0 <= o < PAGE_SIZE -> kept s (src + o).
Proof.
  intros Ho. apply (count_kept s (old / PAGE_SIZE) n); [apply Hpt| |done|lia].
  unfold in_frame, src. pose proof cow_old_aligned. unfold PAGE_SIZE in *. lia.
Qed.

(** The new page holds the old page's bytes; nothing held changed. *)
Lemma cow_page : undisturbed s s2 /\ fa_count s2 f = Some 1 /\
  (forall j, f <> j -> fa_count s2 j = fa_count s j) /\
  (forall o, 0 <= o < PAGE_SIZE -> get8 (fa_mem s2) (dst + o) = get8 (fa_mem s) (src + o)).
Proof.
  assert (f <> old / PAGE_SIZE) as Hfo by congruence.
  assert (copied (fa_mem s1) dst src PAGE_SIZE (memcpy (fa_mem s1) dst src PAGE_SIZE)) as Hcp.
  { apply memcpy_copied; [|unfold PAGE_SIZE; lia]. unfold forward_ok, dst, src.
    pose proof cow_old_aligned. unfold PAGE_SIZE in *. lia. }
  destruct (Hfill (memcpy (fa_mem s1) dst src PAGE_SIZE)) as (U & Hcf & Hco).
  { intros x Hx. rewrite Hcp, bool_decide_false; [done|]. unfold in_frame, dst, PAGE_SIZE in *. lia. }
  split; [done|]. split; [done|]. split; [done|]. intros o Ho.
  unfold s2. rewrite fa_mem_set, Hcp, bool_decide_true by lia.
  replace (src + (dst + o - dst)) with (src + o) by lia. by apply Hold, cow_src_kept.
Qed.

Lemma cow_entry : s3 = wr_pte s2 pte e' /\ is_u64 e' /\ pt_inv s2 root /\
  (forall q, path_ok q -> walk s2 root q = walk s root q) /\
  (forall va, in_slots va -> lookup_pte s2 root va = lookup_pte s root va) /\ root_kept root s s2.
Proof.
  destruct cow_page as (U & _). destruct (undisturbed_tree s s2 root Hpt U) as (Hpt2 & Hw2 & Hl2 & Hr2).
  assert (rd_pte s2 pte = e) as Hrd.
  { unfold e. rewrite <- Hl2 by done. unfold lookup_pte, leaf. by rewrite Hw2, Hw by by apply va_path_ok. }
  pose proof (lor_flags_range _ VMM_FLAG_WRITABLE (flags_range e) ltac:(done)) as Hfr.
  destruct (pte_make (f * PAGE_SIZE) (Z.lor (pte_get_flags e) VMM_FLAG_WRITABLE)) as (Hmk & Hmu & _ & _);
    [unfold is_u64, PAGE_SIZE; lia|by apply Z.mod_mul|done|].
  split; [|split; [done|split; [done|split; [done|split; [done|by intros i Hi _; apply Hr2]]]]]. unfold s3. rewrite Hrd. f_equal. change 0xFFF with (2 ^ 12 - 1).
  rewrite land_mask by lia. change (2 ^ 12) with PAGE_SIZE. rewrite Z.mod_small by done. done.
Qed.

Lemma cow_written : leaf_update root s2 s3 (va_path va) (tbl_index va PT_INDEX) e' /\
  (forall k, fa_count s3 k = fa_count s2 k).
Proof.
  destruct cow_entry as (-> & He & Hpt2 & Hw2 & _).
  apply wr_pte_update; [done|by apply va_path_ok|done|by rewrite Hw2 by by apply va_path_ok|
    apply tbl_index_range|done].
Qed.

Lemma cow_free : let s4 := fa_free s3 old in
  pt_inv s4 root /\ (forall va', in_slots va' -> lookup_pte s4 root va' = lookup_pte s3 root va') /\
  (forall x, kept s3 x -> get8 (fa_mem s4) x = get8 (fa_mem s3) x) /\ root_kept root s3 s4 /\
  (forall k, fa_count s4 k = if old / PAGE_SIZE =? k then Some (n - 1) else fa_count s3 k).
Proof.
  destruct cow_page as (U & _ & Ho & _). destruct cow_entry as (_ & _ & _ & Hw2 & _).
  destruct cow_written as (L & Hc3). destruct Hd as [_ Hnt].
  assert (f <> old / PAGE_SIZE) as Hfo by congruence.
  destruct (free_ext s3 root old n (lu_inv _ _ _ _ _ _ L)) as (H1 & _ & _ & _ & H3 & H4 & H5 & H6); [|lia| |].
  - by rewrite Hc3, Ho.
  - intros p u Hp. rewrite (lu_walk _ _ _ _ _ _ L), Hw2 by done.
    rewrite (lu_hhdm _ _ _ _ _ _ L), (un_hhdm _ _ U). by apply Hnt.
  - split; [done|]. split; [intros va' Hs'; apply H3; [by apply va_path_ok|apply tbl_index_range]|].
    split; [done|]. split; [done|]. intros k. rewrite H6. by rewrite (proj2 (Z.eqb_neq n 1)) by lia.
Qed.

Lemma cow_copy_spec : let s4 := fa_free s3 old in
  pt_inv s4 root /\ cow_copied s s4 root va n /\ root_kept root s s4 /\
  (forall x, kept s x -> ~ table_byte s root x -> get8 (fa_mem s4) x = get8 (fa_mem s) x).
Proof.
  destruct cow_page as (U & Hcf & Ho & Hcp). destruct cow_entry as (_ & _ & _ & Hw2 & Hl2 & Hr2).
  destruct cow_written as (L & Hc3). destruct cow_free as (H1 & H2 & H3 & H5 & H4).
  assert (f <> old / PAGE_SIZE) as Hfo by congruence.
  assert (forall x, kept s2 x -> ~ table_byte s2 root x ->
    get8 (fa_mem (fa_free s3 old)) x = get8 (fa_mem s2) x) as Hkeep.
  { intros x (k & r & Hfr & Hk & Hr) Hnt. rewrite H3; [by apply L|]. exists k, r.
    by rewrite (lu_hhdm _ _ _ _ _ _ L), Hc3, (lu_private _ _ _ _ _ _ L). }
  split; [done|]. split.
  - exists f. split; [done|]. rewrite !H4, Z.eqb_refl, (proj2 (Z.eqb_neq (old / PAGE_SIZE) f)) by done.
    split; [by rewrite Hc3|]. split; [done|]. split; [|split].
    + intros k Hkf Hko. rewrite H4, (proj2 (Z.eqb_neq (old / PAGE_SIZE) k)), Hc3, Ho by done. done.
    + intros va' Hs'. by rewrite H2, (leaf_update_lookup _ _ _ _ _ L), Hl2.
    + intros o Hoff. change (pte_get_addr (lookup_pte s root va)) with old.
      fold dst. rewrite <- cow_old_aligned. fold src. rewrite <- Hcp by done.
      apply Hkeep.
      * apply (count_kept s2 f 1); [apply U| |done|done]. rewrite (un_hhdm _ _ U). unfold in_frame, dst, PAGE_SIZE in *. lia.
      * intros (p & u & Hp & Hu & Hx). rewrite Hw2 in Hu by done.
        destruct (pt_frame _ _ Hpt p u Hp Hu) as (g & r & -> & Hg & _). assert (f <> g) by congruence.
        unfold dst, PAGE_SIZE in *. lia.
  - split; [intros i Hi Hs'; rewrite H5, (lu_root _ _ _ _ _ _ L) by done; by apply Hr2|].
    intros x Hx Hnt. rewrite Hkeep; [by apply U|by eapply undisturbed_mono|].
    intros Ht. by apply Hnt, (table_byte_walk s s2).
Qed.
End CowCopy.

Section Cow.
Context {A : Type} `{FS : FrameAllocatorSpec A} `{R : Slots}.
Implicit Types (s : A).

(** C5: A write fault is resolved as copy-on-write demands.  It is refused for a
    page that is absent or not the user's; the only owner of a frame gets it
    writable in place; an owner among several gets a private copy of the page's
    bytes in a frame that was free, mapped writable with the same flags, and the
    shared frame loses one reference; when no frame is left nothing changes.  No
    other page's translation, no entry of the root that is not the kernel's to build,
    and no other byte in use changes. *)
Theorem vmm_handle_cow_correct s cr3 va :
  let root := phys_to_hhdm s (pte_get_addr cr3) in
  let e := lookup_pte s root va in
  let ok := has VMM_FLAG_PRESENT e && has VMM_FLAG_USER e in
  pt_inv s root -> in_slots va -> (ok = true -> data_frame s root (pte_get_addr e)) ->
  let r := fst (vmm_handle_cow s cr3 va) in
  let s' := snd (vmm_handle_cow s cr3 va) in
  (ok = false -> r = -1 /\ s' = s) /\
  (ok = true -> exists n, fa_count s (pte_get_addr e / PAGE_SIZE) = Some n /\
     ((r = -1 /\ s' = s /\ 1 < n /\ fst (fa_alloc s) = 0) \/
      (r = 0 /\ pt_inv s' root /\
       (if n =? 1
        then (forall va', in_slots va' -> lookup_pte s' root va' =
                if same_page va va' then Z.lor e VMM_FLAG_WRITABLE else lookup_pte s root va') /\
             (forall k, fa_count s' k = fa_count s k)
        else cow_copied s s' root va n) /\ root_kept root s s' /\
       forall x, kept s x -> ~ table_byte s root x -> get8 (fa_mem s') x = get8 (fa_mem s) x))).
Proof.
  intros root e ok Hpt Hs Hok. unfold vmm_handle_cow. fold root. rewrite vmm_walk_false. cbn [fst].
  destruct (walk s root (va_path va)) as [t|] eqn:Hw.
  2: { assert (ok = false) as ->; [|done]. unfold ok, e, lookup_pte, leaf. by rewrite Hw. }
  assert (rd_pte s (t + 8 * tbl_index va PT_INDEX) = e) as ->
    by (unfold e, lookup_pte, leaf; by rewrite Hw).
  rewrite <- negb_andb. fold ok. destruct ok; [|done]. simpl negb. split; [done|]. intros _.
  destruct (Hok eq_refl) as [(n & Hc & Hn) Hnt]. exists n. split; [done|].
  rewrite (fa_ref_count_ok s _ n (pt_fa _ _ Hpt) Hc).
  destruct (Z.leb_spec n 1) as [Hle|Hgt].
  - right. assert (n = 1) as -> by lia. cbn [fst snd Z.eqb Pos.eqb]. split; [done|].
    assert (is_u64 (Z.lor e VMM_FLAG_WRITABLE)) as Hu
      by (apply (lor_range e VMM_FLAG_WRITABLE 64); [lia|apply lookup_range|done]).
    destruct (wr_pte_update s root (va_path va) t (tbl_index va PT_INDEX) (Z.lor e VMM_FLAG_WRITABLE))
      as [L Hcnt]; [done|by apply va_path_ok|done|done|apply tbl_index_range|done|].
    split; [apply L|]. split; [split; [by apply leaf_update_lookup|done]|]. split; [apply L|]. intros x _. apply L.
  - rewrite (proj2 (Z.eqb_neq n 1)) by lia.
    destruct (alloc_fill s (pt_fa _ _ Hpt)) as [(f & s1 & Ha & Hf & Hfree & Hh & Hv & Hold & Hfill)|[Hnone _]].
    + right. rewrite Ha, (proj2 (Z.eqb_neq (f * PAGE_SIZE) 0)) by (unfold PAGE_SIZE; lia). rewrite Hv.
      destruct (fa_count_ok s _ _ (pt_fa _ _ Hpt) Hc) as (Hr & _).
      assert (phys_to_hhdm s (pte_get_addr e) = fa_hhdm s + pte_get_addr e) as ->.
      { apply phys_to_hhdm_add; [apply Hpt|]. unfold PAGE_SIZE in Hr. Z.div_mod_to_equations. lia. }
      destruct (cow_copy_spec s s1 root va f t n Hpt Hs (Hok eq_refl) Hc Hgt Hw Hfree Hf Hold Hfill)
        as (H1 & H2 & H3 & H4).
      split; [reflexivity|]. split; [exact H1|]. split; [exact H2|]. split; [exact H3|exact H4].
    + left. by rewrite Hnone.
Qed.
End Cow.

(** ** A concrete address space *)
Section NewRoot.
Context {A : Type} `{FS : FrameAllocatorSpec A} `{R : Slots}.
Implicit Types (s : A).

(** A zeroed frame is an empty tree. *)
Lemma zero_root s f n : fa_inv s -> fa_count s f = Some n -> 0 < n ->
  (forall x, in_frame (fa_hhdm s) f x -> get8 (fa_mem s) x = 0) ->
  let root := fa_hhdm s + f * PAGE_SIZE in
  pt_inv s root /\ forall p t, path_ok p -> walk s root p = Some t -> p = [] /\ t = root.
Proof.
  intros Hi Hc Hn Hz root.
  assert (forall j, 0 <= j < 512 -> child s root j = None) as Hch.
  { intros j Hj. unfold child. replace (rd s root j) with 0; [done|].
    symmetry. transitivity (load64 (∅ : mem) 0); [|done]. apply load_ext. intros k Hk.
    rewrite Hz; [unfold get8; by rewrite lookup_empty|]. unfold in_frame, root, PAGE_SIZE in *. lia. }
  assert (forall p t, path_ok p -> walk s root p = Some t -> p = [] /\ t = root) as Hw.
  { intros [|i p] t (_ & Hp & _) Hw; [by injection Hw|]. apply Forall_cons in Hp as [Hi' _].
    simpl in Hw. by rewrite Hch in Hw. }
  split; [split; [done|..]|done].
  - intros p t Hp [-> ->]%Hw; [|done]. exists f, n. split; [done|]. split; [done|by eapply count_open].
  - intros p q t Hp Hq [-> _]%Hw [-> _]%Hw; done.
Qed.
End NewRoot.

(** In the address space of a task the kernel builds the lower half. *)
#[export] Instance user_slots : Slots := fun i => i <? 256.

Lemma user_slot i : root_slot i = true <-> i < 256.
Proof. apply Z.ltb_lt. Qed.

(** A data frame with two references and a fresh root table. *)
Definition demo_pa : Z := 0x102000.
Definition demo_root : Z := 0x800000103000.
Definition demo_space : pstate :=
  let p := zero_page (snd (fa_alloc demo_pmm)) 0x800000102000 in
  let p := fa_inc p demo_pa in
  zero_page (snd (fa_alloc p)) demo_root.

Lemma demo_space_ok : pt_inv demo_space demo_root /\ data_frame demo_space demo_root demo_pa /\
  fa_count demo_space (demo_pa / PAGE_SIZE) = Some 2.
Proof.
  assert (fst (fa_alloc demo_pmm) = 0x102 * PAGE_SIZE) as V1 by (vm_compute; reflexivity).
  assert (fst (fa_alloc (fa_inc (zero_page (snd (fa_alloc demo_pmm)) 0x800000102000) demo_pa)) =
    0x103 * PAGE_SIZE) as V2 by (vm_compute; reflexivity).
  assert (fa_hhdm demo_pmm = 0x800000000000) as Vh by (vm_compute; reflexivity).
  unfold demo_space. destruct (alloc_zero (FS := pmm_frames_spec) demo_pmm demo_pmm_inv)
    as [(i & s1 & E1 & _ & _ & _ & U1 & C1 & _)|[E1 _]]; rewrite E1 in V1 |- *; rewrite E1 in V2; cbn [fst snd] in *;
    [|discriminate V1].
  assert (i = 0x102) as -> by (unfold PAGE_SIZE in V1; lia).
  rewrite Vh in U1, C1. cbv zeta in U1, C1.
  change (0x800000000000 + 0x102 * PAGE_SIZE) with 0x800000102000 in U1, C1.
  set (p1 := zero_page s1 0x800000102000) in *. clearbody p1.
  destruct (fa_inc_ok p1 demo_pa 1 (un_inv _ _ U1) C1) as [(I2 & H2 & _) C2]; [lia|lia|].
  set (p2 := fa_inc p1 demo_pa) in *. clearbody p2.
  destruct (alloc_zero p2 I2) as [(j & s2 & E2 & _ & _ & _ & U2 & Cr & _ & Z2)|[E2 _]];
    rewrite E2 in V2 |- *; cbn [fst snd] in *; [|discriminate V2].
  assert (j = 0x103) as -> by (unfold PAGE_SIZE in V2; lia).
  assert (fa_hhdm p2 = 0x800000000000) as Vh2 by by rewrite H2, (un_hhdm _ _ U1), Vh.
  rewrite Vh2 in U2, Cr, Z2. cbv zeta in U2, Cr, Z2.
  change (0x800000000000 + 0x103 * PAGE_SIZE) with demo_root in U2, Cr, Z2.
  set (p3 := zero_page s2 demo_root) in *. clearbody p3.
  assert (fa_hhdm p3 = 0x800000000000) as Vh3 by by rewrite (un_hhdm _ _ U2), Vh2.
  destruct (zero_root p3 0x103 1 (un_inv _ _ U2) Cr ltac:(lia)) as [Hpt Hw];
    [by rewrite Vh3|]. rewrite Vh3 in Hpt, Hw.
  change (0x800000000000 + 0x103 * PAGE_SIZE) with demo_root in Hpt, Hw.
  assert (fa_count p3 (demo_pa / PAGE_SIZE) = Some 2) as C3
    by (apply (un_count _ _ U2); by rewrite C2, Z.eqb_refl).
  split; [exact Hpt|]. split; [|exact C3]. split; [exists 2; split; [exact C3|lia]|].
  intros p t Hp Hwp. destruct (Hw p t Hp Hwp) as [_ ->]. rewrite Vh3. vm_compute. discriminate.
Qed.

(** The space with the data frame mapped read-only at 0x400000. *)
Definition demo_flags : Z := VMM_FLAG_USER.
Definition demo_mapped : pstate := vmm_map_page demo_space demo_root 0x400000 demo_pa demo_flags.

Lemma demo_space_empty : lookup_pte demo_space demo_root 0x400000 = 0.
Proof. vm_compute. reflexivity. Qed.

Lemma demo_mapped_ok : pt_inv demo_mapped demo_root /\
  lookup_pte demo_mapped demo_root 0x400123 = 0x102005 /\
  data_frame demo_mapped demo_root demo_pa /\ fa_count demo_mapped (demo_pa / PAGE_SIZE) = Some 2.
Proof.
  destruct demo_space_ok as (Hpt & Hd & Hc).
  destruct (vmm_map_page_spec demo_space demo_root 0x400000 demo_pa demo_flags Hpt)
    as (H1 & _ & _ & _ & H4).
  { reflexivity. }
  { unfold is_u64, demo_pa. lia. }
  { reflexivity. }
  { vm_compute. split; [discriminate|reflexivity]. }
  { rewrite demo_space_empty. discriminate. }
  destruct (proj2 (proj2 (H4 ltac:(rewrite demo_space_empty; reflexivity))) demo_pa 2 Hd Hc) as [Hd' Hc'].
  split; [exact H1|]. split; [vm_compute; reflexivity|]. split; [exact Hd'|exact Hc'].
Qed.

Lemma vmm_map_page_correct_witness :
  pt_inv demo_mapped demo_root /\ vmm_virt2phys demo_mapped demo_root 0x400123 = 0x102123 /\
  vmm_virt2phys demo_mapped demo_root 0x800000 = vmm_virt2phys demo_space demo_root 0x800000.
Proof.
  destruct demo_space_ok as (Hpt & Hd & Hc).
  destruct (vmm_map_page_correct demo_space demo_root 0x400000 demo_pa demo_flags Hpt)
    as (H1 & H2 & _).
  - reflexivity.
  - unfold is_u64, demo_pa. lia.
  - reflexivity.
  - vm_compute. split; [discriminate|reflexivity].
  - rewrite demo_space_empty. discriminate.
  - destruct H2 as [(_ & _ & Hv)|(_ & Hv & _)].
    + exfalso. specialize (Hv 0x400123 eq_refl). revert Hv. vm_compute. discriminate.
    + split; [exact H1|].
      assert (same_page 0x400000 0x400123 = true) as E1 by (vm_compute; reflexivity).
      assert (same_page 0x400000 0x800000 = false) as E2 by (vm_compute; reflexivity).
      pose proof (Hv 0x400123 eq_refl) as G1. pose proof (Hv 0x800000 eq_refl) as G2. rewrite E1 in G1. rewrite E2 in G2.
      split; [exact G1|exact G2].
Defined.

Lemma vmm_unmap_page_correct_witness :
  vmm_virt2phys (vmm_unmap_page demo_mapped demo_root 0x400000) demo_root 0x400123 = 0.
Proof.
  destruct demo_mapped_ok as (Hpt & _).
  destruct (vmm_unmap_page_correct demo_mapped demo_root 0x400000 Hpt eq_refl) as (_ & H2 & _).
  assert (same_page 0x400000 0x400123 = true) as E1 by (vm_compute; reflexivity).
  pose proof (H2 0x400123 eq_refl) as G1. rewrite E1 in G1. exact G1.
Defined.

Lemma vmm_handle_cow_correct_witness :
  let s' := snd (vmm_handle_cow demo_mapped 0x103000 0x400123) in
  cow_copied demo_mapped s' demo_root 0x400123 2.
Proof.
  intros s'. destruct demo_mapped_ok as (Hpt & He & Hd & Hc).
  assert (phys_to_hhdm demo_mapped (pte_get_addr 0x103000) = demo_root) as Er
    by (vm_compute; reflexivity).
  pose proof (vmm_handle_cow_correct demo_mapped 0x103000 0x400123) as Hcow.
  cbv zeta in Hcow. rewrite Er, He in Hcow.
  destruct (Hcow Hpt eq_refl (fun _ => Hd)) as [_ Hcopy].
  destruct (Hcopy eq_refl) as (n & Hn & Hr).
  change (pte_get_addr 0x102005) with demo_pa in Hn. rewrite Hc in Hn. injection Hn as <-.
  assert (fst (vmm_handle_cow demo_mapped 0x103000 0x400123) = 0) as Ev by (vm_compute; reflexivity).
  rewrite Ev in Hr. destruct Hr as [[Hr _]|(_ & _ & Hcp & _)]; [discriminate Hr|exact Hcp].
Defined.
