(* ===== verification/FreeSpace.v ===== *)
(** Giving an address space back: [vmm_free_table] of [src/src/mem/vmm.c].

    The recursion reads tables while it frees frames, the frames of those tables
    included.  Freeing writes only the allocator's own bytes, so that every read still
    sees the table as it was: the call is a list of frees that can be read off the tree
    before it starts ([table_frees]). *)
From S2P Require Import Prelude Machine StringLib Pmm Frames Kmalloc Paging.

(** *** Many frees *)
Definition occ (i : Z) (l : list Z) : Z := Z.of_nat (length (filter (fun a => a / PAGE_SIZE = i) l)).

(** A count after [k] references to the frame are gone. *)
Definition dropped (c : option Z) (k : Z) : option Z :=
  match c with
  | Some r => if k =? 0 then Some r else if r =? k then None else Some (r - k)
  | None => None
  end.

Lemma occ_nonneg i l : 0 <= occ i l.
Proof. unfold occ. lia. Qed.
Lemma occ_cons i a l : occ i (a :: l) = (if decide (a / PAGE_SIZE = i) then 1 else 0) + occ i l.
Proof. unfold occ. rewrite filter_cons. case_decide; cbn [length]; lia. Qed.
Lemma occ_app i l l' : occ i (l ++ l') = occ i l + occ i l'.
Proof. unfold occ. rewrite filter_app, length_app. lia. Qed.
Lemma dropped_0 c : dropped c 0 = c.
Proof. by destruct c. Qed.

Lemma bind_same (f g : Z -> list Z) l : (forall x, x ∈ l -> f x = g x) -> l ≫= f = l ≫= g.
Proof.
  induction l as [|x l IH]; intros H; [done|]. cbn [mbind list_bind]. rewrite H by by left. f_equal. apply IH. intros y Hy. apply H. by right.
Qed.

Section Frees.
Context {A : Type} `{FS : FrameAllocatorSpec A}.
Implicit Types (s : A) (l : list Z).

(** Every frame has at least as many references as it will be freed. *)
Definition freeable s l : Prop := forall i, 0 < occ i l -> exists r, fa_count s i = Some r /\ occ i l <= r.

Lemma quiet_refl s : fa_inv s -> fa_quiet s s.
Proof. by split. Qed.
Lemma quiet_trans s1 s2 s3 : fa_quiet s1 s2 -> fa_quiet s2 s3 -> fa_quiet s1 s3.
Proof.
  intros (_ & H1 & P1 & M1) (I & H2 & P2 & M2). split; [done|]. split; [congruence|]. split; [intros a; by rewrite P2|].
  intros a Ha. rewrite M2; [by apply M1|]. by rewrite P1.
Qed.

Lemma frees_spec l : forall s, fa_inv s -> freeable s l ->
  let s' := foldl fa_free s l in fa_quiet s s' /\ forall i, fa_count s' i = dropped (fa_count s i) (occ i l).
Proof.
  induction l as [|a l IH]; intros s I Hf; cbn [foldl]; [split; [by apply quiet_refl|]; intros i; by rewrite dropped_0|].
  destruct (Hf (a / PAGE_SIZE)) as (r & Hc & Hr); [rewrite occ_cons, decide_True by done; pose proof (occ_nonneg (a / PAGE_SIZE) l); lia|].
  rewrite occ_cons, decide_True in Hr by done. pose proof (occ_nonneg (a / PAGE_SIZE) l) as Hn.
  destruct (fa_free_ok s a r I Hc ltac:(lia)) as [Q Hcnt].
  destruct (IH (fa_free s a)) as [Q' Hc']; [apply Q|..].
  { intros i Hi. rewrite Hcnt. destruct (Z.eqb_spec (a / PAGE_SIZE) i) as [<-|Hne].
    - rewrite (proj2 (Z.eqb_neq r 1)) by lia. exists (r - 1). split; [done|lia].
    - destruct (Hf i) as (r' & H1 & H2); rewrite occ_cons, decide_False in * by done; [lia|]. exists r'. split; [done|lia]. }
  split; [by eapply quiet_trans|]. intros i. rewrite Hc', Hcnt, occ_cons. destruct (Z.eqb_spec (a / PAGE_SIZE) i) as [<-|Hne].
  - rewrite decide_True, Hc by done. cbn [dropped]. rewrite (proj2 (Z.eqb_neq (1 + _) 0)) by lia. destruct (Z.eqb_spec r 1) as [->|Hr1]; cbn [dropped].
    + rewrite (proj2 (Z.eqb_eq 1 _)) by lia. done.
    + destruct (Z.eqb_spec (occ (a / PAGE_SIZE) l) 0) as [->|H0]; [by rewrite (proj2 (Z.eqb_neq r _)) by lia|].
      destruct (Z.eqb_spec (r - 1) (occ (a / PAGE_SIZE) l)); destruct (Z.eqb_spec r (1 + occ (a / PAGE_SIZE) l)); try lia; [done|]. f_equal. lia.
  - by rewrite decide_False by done.
Qed.

Lemma freeable_app s l l' : fa_inv s -> freeable s (l ++ l') -> freeable s l /\ freeable (foldl fa_free s l) l'.
Proof.
  intros I Hf. assert (freeable s l) as Hl.
  { intros i Hi. pose proof (occ_nonneg i l'). destruct (Hf i) as (r & H1 & H2); rewrite occ_app in *; [lia|]. exists r. split; [done|lia]. }
  split; [done|]. destruct (frees_spec l s I Hl) as [_ Hc]. intros i Hi. pose proof (occ_nonneg i l). destruct (Hf i) as (r & H1 & H2); rewrite occ_app in *; [lia|].
  rewrite Hc, H1. cbn [dropped]. destruct (Z.eqb_spec (occ i l) 0); [exists r; split; [done|lia]|]. rewrite (proj2 (Z.eqb_neq r _)) by lia. exists (r - occ i l). split; [done|lia].
Qed.
End Frees.

(** At most one element of a flattened list frees a frame. *)
Lemma occ_pos i l : 0 < occ i l <-> exists a, a ∈ l /\ a / PAGE_SIZE = i.
Proof.
  induction l as [|a l IH]; [split; [unfold occ; cbn; lia|intros (a & Ha & _); by apply not_elem_of_nil in Ha]|].
  rewrite occ_cons. pose proof (occ_nonneg i l). split.
  - intros H1. case_decide as D; [exists a; split; [by left|done]|]. destruct IH as [IH _]. destruct (IH ltac:(lia)) as (b & Hb & E). exists b. split; [by right|done].
  - intros (b & Hb & E). apply elem_of_cons in Hb as [->|Hb]; [rewrite decide_True by done; lia|]. assert (0 < occ i l) by (apply IH; by exists b). case_decide; lia.
Qed.

Lemma occ_bind_one i (g : Z -> list Z) l : NoDup l -> (forall k, k ∈ l -> occ i (g k) <= 1) ->
  (forall k k', k ∈ l -> k' ∈ l -> 0 < occ i (g k) -> 0 < occ i (g k') -> k = k') -> occ i (l ≫= g) <= 1.
Proof.
  induction l as [|k l IH]; intros Hnd H1 Hu; [done|]. cbn [mbind list_bind]. rewrite occ_app. apply NoDup_cons in Hnd as [Hk Hnd].
  pose proof (occ_nonneg i (g k)). pose proof (occ_nonneg i (l ≫= g)). assert (occ i (l ≫= g) <= 1) as Hl.
  { apply IH; [done|intros k' Hk'; apply H1; by right|]. intros k1 k2 H3 H4. apply Hu; by right. }
  specialize (H1 k ltac:(by left)). destruct (decide (0 < occ i (g k))) as [D|D]; [|lia]. destruct (decide (0 < occ i (l ≫= g))) as [D'|D']; [|lia].
  apply occ_pos in D' as (a & Ha & E). apply list_elem_of_bind in Ha as (k' & Ha & Hk'). destruct Hk. rewrite (Hu k k'); [done|by left|by right|done|]. apply occ_pos. by exists a.
Qed.

(** *** The frees of a tree *)
(** The entries the kernel looks at: of a root only those of the user half. *)
Definition limit (n : nat) : Z := if (n =? 4)%nat then 256 else 512.

Lemma limit_range n : 0 <= limit n <= 512.
Proof. unfold limit. destruct (n =? 4)%nat; lia. Qed.

Section Tables.
Context {A : Type} `{FS : FrameAllocatorSpec A}.
Implicit Types (s : A) (l : list Z) (p : list Z).

(** The physical addresses [vmm_free_table] frees, in its order. *)
Fixpoint table_frees (n : nat) s (table : Z) : list Z :=
  match n with
  | O => []
  | S n' =>
      (seqZ 0 (if (n =? 4)%nat then 256 else 512) ≫= fun i =>
        let e := rd s table i in
        if negb (has VMM_FLAG_PRESENT e) then []
        else if (n =? 1)%nat then if has PTE_FLAG_SHARED e then [] else [pte_get_addr e]
        else table_frees n' s (phys_to_hhdm s (pte_get_addr e))) ++ [hhdm_to_phys s table]
  end.

(** A place of the tree: up to three indices name a table, four an entry. *)
Definition range (p : list Z) : Prop := Forall (fun i => 0 <= i < 512) p.
Definition user_half (p : list Z) : Prop := match p with [] => True | i :: _ => i < 256 end.
#[global] Instance user_half_dec p : Decision (user_half p).
Proof. destruct p; apply _. Defined.

(** Tables below the user half of the root. *)
Definition upath (p : list Z) : Prop := path_ok p /\ user_half p.

Lemma va_user va : 0 <= va < 2 ^ 47 -> upath (va_path va).
Proof.
  intros Hv. enough (user_half (va_path va)) as Hu by (split; [by apply va_path_ok, user_slot|done]). unfold va_path, user_half, tbl_index. rewrite Z.shiftr_div_pow2 by (vm_compute; discriminate). change 0x1FF with (2 ^ 9 - 1). rewrite land_mask by lia.
  unfold PML4_INDEX. change (2 ^ 0x27) with 549755813888. change (2 ^ 9) with 512. Z.div_mod_to_equations. lia.
Qed.

Lemma path_upath p : path_ok p -> upath p.
Proof. intros Hp. split; [done|]. destruct Hp as (_ & _ & H). destruct p; [done|by apply user_slot]. Qed.

Lemma upath_ok p : (length p <= 3)%nat -> range p -> user_half p -> upath p.
Proof. intros Hl Hr Hu. split; [split; [done|split; [done|]]|done]. destruct p; [done|by apply user_slot]. Qed.

(** The user half of an address space. *)
Lemma user_in_slots va : 0 <= va < 2 ^ 47 -> in_slots va.
Proof. intros Hv. apply user_slot. by destruct (va_user va Hv) as [_ H]. Qed.

(** They lie in taken frames. *)
Definition utree s root : Prop := fa_inv s /\ forall p t, upath p -> walk s root p = Some t ->
  exists f r, t = fa_hhdm s + f * PAGE_SIZE /\ fa_count s f = Some r /\ open_frame s f.

Lemma pt_utree s root : pt_inv s root -> utree s root.
Proof. intros Hpt. split; [apply Hpt|]. intros p t [Hp _]. by apply Hpt. Qed.

Lemma upath_nil : upath [].
Proof. apply path_upath, path_ok_nil. Qed.

Lemma upath_snoc p i : upath p -> (length p < 3)%nat -> 0 <= i < 512 -> (p = [] -> i < 256) -> upath (p ++ [i]).
Proof.
  intros [(_ & Hf & _) Hu] Hl Hi H0. apply upath_ok; [rewrite length_app; cbn; lia|apply Forall_app; split; [done|]; by apply Forall_singleton|]. destruct p; [by apply H0|done].
Qed.

Lemma seqZ_snoc n : 0 <= n -> seqZ 0 (n + 1) = seqZ 0 n ++ [n].
Proof. intros Hn. rewrite seqZ_app by lia. by rewrite Z.add_0_l. Qed.

(** A counted loop of frees is the frees of its rounds. *)
Lemma for_frees (n : nat) (f : Z -> A -> A) (g : Z -> list Z) s : fa_inv s -> freeable s (seqZ 0 (Z.of_nat n) ≫= g) ->
  (forall i s', 0 <= i < Z.of_nat n -> fa_quiet s s' -> freeable s' (g i) -> f i s' = foldl fa_free s' (g i)) ->
  for_loop n 0 f s = foldl fa_free s (seqZ 0 (Z.of_nat n) ≫= g).
Proof.
  intros I. induction n as [|n IH]; intros Hf Hs; [done|]. rewrite for_loop_snoc, Z.add_0_l.
  replace (Z.of_nat (S n)) with (Z.of_nat n + 1) in * by lia. rewrite seqZ_snoc in * by lia. rewrite bind_app in *. cbn [mbind list_bind] in *. rewrite app_nil_r in *.
  destruct (freeable_app s _ _ I Hf) as [H1 H2]. rewrite IH; [|done|intros i s' Hi; apply Hs; lia]. rewrite foldl_app.
  apply Hs; [lia| |done]. by apply frees_spec.
Qed.

(** Rounds that do nothing *)
Lemma for_loop_skip n k (f : Z -> A -> A) lo s : (forall i s', lo + Z.of_nat n <= i -> f i s' = s') -> for_loop (n + k) lo f s = for_loop n lo f s.
Proof.
  intros Hf. induction k as [|k IH]; [by rewrite Nat.add_0_r|]. replace (n + S k)%nat with (S (n + k)) by lia. rewrite for_loop_snoc, IH. apply Hf. lia.
Qed.

(** The tables that level [n] reaches from [table] lie in taken frames. *)
Fixpoint subtree (n : nat) s (table : Z) : Prop :=
  match n with
  | O => True
  | S n' => (exists f r, table = fa_hhdm s + f * PAGE_SIZE /\ fa_count s f = Some r /\ open_frame s f) /\
      forall i, 0 <= i < limit n -> (n' <> 0)%nat -> has VMM_FLAG_PRESENT (rd s table i) = true -> subtree n' s (phys_to_hhdm s (pte_get_addr (rd s table i)))
  end.

Lemma utree_subtree n : forall s root p table, utree s root -> (length p + n = 4)%nat -> upath p -> walk s root p = Some table -> subtree n s table.
Proof.
  induction n as [|n IH]; intros s root p table Ht Hlen Hp Hw; [done|]. cbn [subtree]. split; [by apply (proj2 Ht p)|]. intros i Hi Hn Epr. pose proof (limit_range (S n)).
  apply (IH s root (p ++ [i])); [done|rewrite length_app; cbn; lia| |rewrite walk_snoc, Hw; unfold child; by rewrite Epr].
  apply upath_snoc; [done|lia|lia|]. intros ->. cbn in Hlen. unfold limit in Hi. replace (S n) with 4%nat in Hi by lia. cbn in Hi. lia.
Qed.

Lemma subtree_frees n : forall s0 s table, fa_inv s0 -> (1 <= n)%nat -> subtree n s0 table ->
  fa_quiet s0 s -> freeable s (table_frees n s0 table) -> vmm_free_table n s table = foldl fa_free s (table_frees n s0 table).
Proof.
  induction n as [|n IH]; intros s0 s table I0 H1 Hst Q Hf; [lia|]. cbn [subtree] in Hst. destruct Hst as [(g & r & Et & Hc & Hr) Hsub]. destruct (fa_count_ok s0 _ _ I0 Hc) as (Hg & _ & _).
  assert (forall s' i, fa_quiet s0 s' -> 0 <= i < 512 -> rd s' table i = rd s0 table i) as Hrd.
  { intros s' i (_ & _ & _ & M) Hi. apply rd_ext. intros x Hx. apply M, Hr. unfold in_frame, PAGE_SIZE in *; lia. }
  assert (forall s' y, fa_quiet s0 s' -> phys_to_hhdm s' y = phys_to_hhdm s0 y /\ hhdm_to_phys s' y = hhdm_to_phys s0 y) as Hh.
  { intros s' y (_ & Eh & _). unfold phys_to_hhdm, hhdm_to_phys. by rewrite Eh. }
  cbn [vmm_free_table table_frees] in *. destruct (fa_hhdm_ok s0 I0) as [Hpos _]. rewrite (proj2 (Z.eqb_neq table 0)) by (unfold PAGE_SIZE in *; lia). fold (limit (S n)) in Hf |- *.
  set (g' := fun i => _) in *. set (body := fun i s => _).
  assert (exists L k, limit (S n) = Z.of_nat L /\ (512 = L + k)%nat /\ (forall i s', limit (S n) <= i -> 0 < Z.of_nat k -> body i s' = s') /\
    forall i, i < limit (S n) -> (S n =? 4)%nat && (256 <=? i) = false) as (L & k & EL & Ek & Hskip & Hgo).
  { unfold limit, body. destruct (S n =? 4)%nat eqn:E4.
    - exists 256%nat, 256%nat. split; [done|]. split; [done|]. split; [|intros i Hi; apply Z.leb_gt; lia]. intros i s' Hi _. cbn [andb]. by rewrite (proj2 (Z.leb_le 256 i)).
    - exists 512%nat, 0%nat. split; [done|]. split; [done|]. split; [|done]. intros. lia. }
  rewrite EL in *. destruct (freeable_app s _ _ (proj1 Q) Hf) as [Hf1 Hf2].
  assert (for_loop 512 0 body s = foldl fa_free s (seqZ 0 (Z.of_nat L) ≫= g')) as ->.
  - assert (for_loop 512 0 body s = for_loop L 0 body s) as ->.
    { rewrite Ek. destruct k as [|k]; [by rewrite Nat.add_0_r|]. apply for_loop_skip. intros i s' Hi. apply Hskip; lia. }
    apply for_frees; [apply Q|done|]. clear Hf Hf1 Hf2. intros i s' Hi Q' Hf. assert (fa_quiet s0 s') as Q0 by by eapply quiet_trans.
    unfold body. rewrite Hgo by lia.
    rewrite (Hrd s' i Q0) by lia. destruct (Hh s' (pte_get_addr (rd s0 table i)) Q0) as [-> _]. unfold g' in *.
    replace (Z.land (rd s0 table i) VMM_FLAG_PRESENT =? 0) with (negb (has VMM_FLAG_PRESENT (rd s0 table i))) by (unfold has; apply negb_involutive).
    destruct (has VMM_FLAG_PRESENT (rd s0 table i)) eqn:Epr; cbn [negb] in *; [|done].
    destruct (S n =? 1)%nat eqn:E1; [by destruct (has PTE_FLAG_SHARED (rd s0 table i))|].
    apply Nat.eqb_neq in E1. apply (IH s0 s'); [done|lia|apply Hsub; (done || lia)|done|done].
  - rewrite foldl_app. cbn [foldl]. f_equal. assert (fa_quiet s0 (foldl fa_free s (seqZ 0 (Z.of_nat L) ≫= g'))) as Q'; [|by apply Hh].
    eapply quiet_trans; [exact Q|]. apply frees_spec; [apply Q|done].
Qed.

Lemma free_table_frees n s0 s root p table : utree s0 root -> (length p + n = 4)%nat -> (1 <= n)%nat -> upath p -> walk s0 root p = Some table ->
  fa_quiet s0 s -> freeable s (table_frees n s0 table) -> vmm_free_table n s table = foldl fa_free s (table_frees n s0 table).
Proof. intros Ht Hlen H1 Hp Hw. apply subtree_frees; [apply Ht|done|by eapply utree_subtree]. Qed.

(** *** What they are *)

(** The frame at a place is freed with the tree: a table, or a page that is not shared. *)
Definition slot s root p (a : Z) : Prop :=
  ((length p <= 3)%nat /\ exists t, walk s root p = Some t /\ a = hhdm_to_phys s t) \/
  (exists q j, p = q ++ [j] /\ length q = 3%nat /\ has VMM_FLAG_PRESENT (leaf s root q j) = true /\
     has PTE_FLAG_SHARED (leaf s root q j) = false /\ a = pte_get_addr (leaf s root q j)).


Lemma table_frees_elem n : forall s root p table a, (length p + n = 4)%nat -> (1 <= n)%nat -> walk s root p = Some table ->
  a ∈ table_frees n s table <-> exists q, slot s root (p ++ q) a /\ range q /\ (n = 4%nat -> user_half q) /\ (length q <= n)%nat.
Proof.
  induction n as [|n IH]; intros s root p table a Hlen H1 Hw; [lia|]. cbn [table_frees]. fold (limit (S n)). set (g := fun i : Z => _).
  assert (forall i, 0 <= i < 512 -> a ∈ g i <-> exists q, slot s root (p ++ i :: q) a /\ range q /\ (length q <= n)%nat) as Hg.
  { intros i Hi. unfold g. destruct (has VMM_FLAG_PRESENT (rd s table i)) eqn:Epr; cbn [negb].
    2: { split; [intros Ha; by apply not_elem_of_nil in Ha|]. intros (q & [(Hl & t & Hwq & _)|(q' & j & Eq & Hl & Hp & _)] & _).
      - rewrite walk_app, Hw in Hwq. cbn [walk] in Hwq. unfold child in Hwq. by rewrite Epr in Hwq.
      - unfold leaf in Hp. destruct (walk s root q') as [u|] eqn:Hu; [|done]. destruct q as [|k q _] using rev_ind.
        + apply app_inj_tail in Eq as [<- <-]. rewrite Hu in Hw. injection Hw as ->. congruence.
        + rewrite app_comm_cons, app_assoc in Eq. apply app_inj_tail in Eq as [<- _].
          rewrite walk_app, Hw in Hu. cbn [walk] in Hu. unfold child in Hu. by rewrite Epr in Hu. }
    destruct (S n =? 1)%nat eqn:E1.
    - apply Nat.eqb_eq in E1. assert (n = 0%nat) as -> by lia. assert (leaf s root p i = rd s table i) as El by (unfold leaf; by rewrite Hw). split.
      + destruct (has PTE_FLAG_SHARED (rd s table i)) eqn:Es; [intros Ha; by apply not_elem_of_nil in Ha|]. intros ->%list_elem_of_singleton. exists [].
        split; [right; exists p, i; rewrite El; split; [done|]; split; [lia|done]|]. split; [by apply Forall_nil|cbn; lia].
      + intros (q & Hs & _ & Hq). destruct q; [|cbn in Hq; lia]. destruct Hs as [(Hl & _)|(q' & j & Eq & Hl & Hp & Hs & ->)]; [rewrite length_app in Hl; cbn in Hl; lia|].
        apply app_inj_tail in Eq as [<- <-]. rewrite El in *. rewrite Hs. by apply list_elem_of_singleton.
    - apply Nat.eqb_neq in E1. rewrite (IH s root (p ++ [i])); [|rewrite length_app; cbn; lia|lia|rewrite walk_snoc, Hw; unfold child; by rewrite Epr].
      split; intros (q & Hs & Hr & Hq); exists q; rewrite <- app_assoc in *; [by destruct Hq|]. split; [done|]. split; [done|]. split; [lia|done]. }
  assert (0 <= limit (S n) <= 512) as Hlim by (unfold limit; destruct (S n =? 4)%nat; lia).
  rewrite elem_of_app, list_elem_of_bind, list_elem_of_singleton. split.
  - intros [(i & Ha & Hi%elem_of_seqZ)| ->].
    + apply Hg in Ha as (q & Hs & Hr & Hq); [|lia]. exists (i :: q). split; [done|]. split; [apply Forall_cons; split; [lia|done]|]. split; [|cbn; lia].
      intros E4. unfold limit in Hi. rewrite E4 in Hi. cbn in Hi. cbn. lia.
    + exists []. rewrite app_nil_r. split; [left; split; [lia|by exists table]|]. split; [by apply Forall_nil|]. split; [done|cbn; lia].
  - intros (q & Hs & Hr & Hu & Hq). destruct q as [|i q].
    + right. rewrite app_nil_r in Hs. destruct Hs as [(_ & t & Hwt & ->)|(q' & j & -> & Hl & _)]; [congruence|]. rewrite length_app in Hlen. cbn in Hlen. lia.
    + left. apply Forall_cons in Hr as [Hi Hr]. exists i. split; [apply Hg; [done|]; exists q; split; [done|]; split; [done|]; cbn in Hq; lia|].
      apply elem_of_seqZ. unfold limit. destruct (S n =? 4)%nat eqn:E4; [|lia]. apply Nat.eqb_eq in E4. specialize (Hu E4). cbn in Hu. lia.
Qed.

(** The same tables give the same frees. *)
Lemma walk_same s s' root : fa_hhdm s' = fa_hhdm s ->
  (forall p t i, upath p -> walk s root p = Some t -> 0 <= i < 512 -> rd s' t i = rd s t i) -> forall p, upath p -> walk s' root p = walk s root p.
Proof.
  intros Hh Hrd p. induction p as [|i p IH] using rev_ind; intros [Hp Hu]; [done|]. destruct (path_ok_snoc _ _ Hp) as (Hp' & Hi & _). assert (upath p) as Hup by (split; [done|by destruct p]).
  rewrite !walk_snoc, IH by done. destruct (walk s root p) as [t|] eqn:Hw; [|done]. unfold child, phys_to_hhdm. by rewrite (Hrd p t i), Hh.
Qed.

Lemma table_frees_same n : forall s s' root p table, (length p + n = 4)%nat -> (1 <= n)%nat -> upath p -> walk s root p = Some table -> fa_hhdm s' = fa_hhdm s ->
  (forall p t i, upath p -> walk s root p = Some t -> 0 <= i < 512 -> rd s' t i = rd s t i) -> table_frees n s' table = table_frees n s table.
Proof.
  induction n as [|n IH]; intros s s' root p table Hlen H1 Hp Hw Hh Hrd; [lia|]. cbn [table_frees]. f_equal; [|unfold hhdm_to_phys; by rewrite Hh].
  fold (limit (S n)). apply bind_same. intros i Hi%elem_of_seqZ. assert (0 <= i < 512) as Hi' by (unfold limit in Hi; destruct (S n =? 4)%nat; lia).
  cbv zeta. rewrite (Hrd p table i Hp Hw Hi'). destruct (has VMM_FLAG_PRESENT (rd s table i)) eqn:Epr; cbn [negb]; [|done]. destruct (S n =? 1)%nat eqn:E1; [done|]. apply Nat.eqb_neq in E1.
  unfold phys_to_hhdm. rewrite Hh. change (Z.lor (pte_get_addr (rd s table i)) (fa_hhdm s)) with (phys_to_hhdm s (pte_get_addr (rd s table i))).
  apply (IH s s' root (p ++ [i])); [rewrite length_app; cbn; lia|lia| |rewrite walk_snoc, Hw; unfold child; by rewrite Epr|done|done].
  apply upath_snoc; [done|lia|done|]. intros ->. cbn in Hlen. unfold limit in Hi. replace (S n) with 4%nat in Hi by lia. cbn in Hi. lia.
Qed.

(** Each frame is freed once when no two places share a frame. *)
Lemma table_frees_once n : forall s root p table i, (length p + n = 4)%nat -> (1 <= n)%nat -> range p -> (n <> 4%nat -> p <> [] /\ user_half p) -> walk s root p = Some table ->
  (forall p q a b, range p -> range q -> user_half p -> user_half q -> slot s root p a -> slot s root q b -> a / PAGE_SIZE = b / PAGE_SIZE -> p = q) ->
  occ i (table_frees n s table) <= 1.
Proof.
  induction n as [|n IH]; intros s root p table i Hlen H1 Hr Hu Hw Hinj; [lia|].
  assert (forall q, (S n = 4%nat -> user_half q) -> user_half (p ++ q)) as Hup.
  { intros q Hq. destruct (decide (S n = 4%nat)) as [E|E]; [|destruct (Hu E) as [Hne Hh]; by destruct p]. assert (p = []) as -> by (destruct p; [done|cbn in Hlen; lia]). by apply Hq. }
  cbn [table_frees]. fold (limit (S n)). set (g := fun j : Z => _). assert (0 <= limit (S n) <= 512) as Hlim by (unfold limit; destruct (S n =? 4)%nat; lia).
  assert (forall j a, 0 <= j < limit (S n) -> a ∈ g j -> exists q, slot s root (p ++ j :: q) a /\ range (p ++ j :: q) /\ user_half (p ++ j :: q)) as Hg.
  { intros j a Hj Ha. unfold g in Ha. destruct (has VMM_FLAG_PRESENT (rd s table j)) eqn:Epr; cbn [negb] in Ha; [|by apply not_elem_of_nil in Ha].
    assert (user_half (p ++ [j])) as Hj'. { apply Hup. intros E. unfold limit in Hj. rewrite E in Hj. cbn in *. lia. }
    assert (forall q, user_half (p ++ j :: q)) as Hj''. { intros q. destruct p; [done|]. exact Hj'. }
    destruct (S n =? 1)%nat eqn:E1.
    - apply Nat.eqb_eq in E1. destruct (has PTE_FLAG_SHARED (rd s table j)) eqn:Es; [by apply not_elem_of_nil in Ha|]. apply list_elem_of_singleton in Ha as ->. exists [].
      assert (leaf s root p j = rd s table j) as Ell by (unfold leaf; by rewrite Hw). split; [right; exists p, j; rewrite Ell; split; [done|]; split; [lia|done]|].
      split; [|done]. apply Forall_app. split; [done|]. apply Forall_singleton. lia.
    - apply Nat.eqb_neq in E1. apply (table_frees_elem n s root (p ++ [j])) in Ha as (q & Hs & Hrq & _); [|rewrite length_app; cbn; lia|lia|rewrite walk_snoc, Hw; unfold child; by rewrite Epr].
      rewrite <- app_assoc in Hs. exists q. split; [done|]. split; [|done]. apply Forall_app. split; [done|]. apply Forall_cons. split; [lia|done]. }
  assert (slot s root p (hhdm_to_phys s table)) as Hself by (left; split; [lia|by exists table]).
  assert (user_half p) as Hhp by (specialize (Hup [] ltac:(done)); by rewrite app_nil_r in Hup).
  assert (occ i (seqZ 0 (limit (S n)) ≫= g) <= 1) as Hsum.
  { apply occ_bind_one; [apply NoDup_seqZ|..].
    - intros j Hj%elem_of_seqZ. unfold g. destruct (has VMM_FLAG_PRESENT (rd s table j)) eqn:Epr; cbn [negb]; [|done]. destruct (S n =? 1)%nat eqn:E1.
      + destruct (has PTE_FLAG_SHARED (rd s table j)); unfold occ; rewrite ?filter_cons; [cbn; lia|]. case_decide; cbn; lia.
      + apply Nat.eqb_neq in E1. apply (IH s root (p ++ [j])); [rewrite length_app; cbn; lia|lia|apply Forall_app; split; [done|]; apply Forall_singleton; lia| |rewrite walk_snoc, Hw; unfold child; by rewrite Epr|done].
        intros _. split; [by destruct p|]. apply Hup. intros E. unfold limit in Hj. rewrite E in Hj. cbn in *. lia.
    - intros j j' Hj%elem_of_seqZ Hj'%elem_of_seqZ (a & Ha & Ea)%occ_pos (b & Hb & Eb)%occ_pos. apply Hg in Ha as (q & Hs & Hr1 & Hu1); [|lia]. apply Hg in Hb as (q' & Hs' & Hr2 & Hu2); [|lia].
      assert (p ++ j :: q = p ++ j' :: q') as E by (apply (Hinj _ _ a b); done || congruence). apply app_inv_head in E. by injection E. }
  rewrite occ_app. assert (occ i [hhdm_to_phys s table] <= 1) as Hone by (unfold occ; rewrite filter_cons; case_decide; cbn; lia).
  pose proof (occ_nonneg i (seqZ 0 (limit (S n)) ≫= g)). pose proof (occ_nonneg i [hhdm_to_phys s table]).
  destruct (decide (0 < occ i (seqZ 0 (limit (S n)) ≫= g))) as [D|D]; [|lia]. destruct (decide (0 < occ i [hhdm_to_phys s table])) as [D'|D']; [|lia]. exfalso.
  apply occ_pos in D as (a & Ha & Ea). apply occ_pos in D' as (b & ->%list_elem_of_singleton & Eb). apply list_elem_of_bind in Ha as (j & Ha & Hj%elem_of_seqZ).
  apply Hg in Ha as (q & Hs & Hr1 & Hu1); [|lia]. assert (p ++ j :: q = p) as E by (apply (Hinj _ _ a (hhdm_to_phys s table)); done || congruence).
  apply (f_equal length) in E. rewrite length_app in E. cbn in E. lia.
Qed.

(** A tree whose bytes and frames stay. *)
Lemma tree_kept s s' root : pt_inv s root -> fa_inv s' -> fa_hhdm s' = fa_hhdm s -> (forall x, fa_private s' x <-> fa_private s x) -> (forall x, kept s x -> get8 (fa_mem s') x = get8 (fa_mem s) x) ->
  (forall p j, path_ok p -> walk s root p = Some (fa_hhdm s + j * PAGE_SIZE) -> exists r, fa_count s' j = Some r) ->
  pt_inv s' root /\ (forall q, path_ok q -> walk s' root q = walk s root q) /\ (forall x, in_slots x -> lookup_pte s' root x = lookup_pte s root x) /\ root_kept root s s'.
Proof.
  intros Hpt I' Hh Hpr Hm Hc. assert (forall q u j, path_ok q -> walk s root q = Some u -> 0 <= j < 512 -> rd s' u j = rd s u j) as Hrd.
  { intros q u j Hq Hu Hj. apply rd_ext. intros x Hx. apply Hm, (table_byte_kept s root); [done|]. exists q, u. unfold PAGE_SIZE. split_and!; (done || lia). }
  assert (forall q, path_ok q -> walk s' root q = walk s root q) as Hwalk.
  { intros q. induction q as [|j q IH] using rev_ind; intros Hq; [done|]. destruct (path_ok_snoc _ _ Hq) as (Hq' & Hj & _).
    rewrite !walk_snoc, IH by done. destruct (walk s root q) as [u|] eqn:Hu; [|done]. unfold child, phys_to_hhdm. by rewrite (Hrd q u j), Hh by done. }
  split; [split; [done|..]|split; [done|split]].
  - intros q u Hq. rewrite Hwalk, Hh by done. intros Hu. destruct (pt_frame _ _ Hpt q u Hq Hu) as (g & r & -> & _ & Ho). destruct (Hc q g Hq Hu) as (r' & Hr). exists g, r'. split; [done|]. split; [done|by apply (open_frame_eq s)].
  - intros q q' u Hq Hq'. rewrite !Hwalk by done. by apply (pt_inj _ _ Hpt).
  - intros va Hs. unfold lookup_pte, leaf. rewrite Hwalk by by apply va_path_ok. destruct (walk s root (va_path va)) as [u|] eqn:Hu; [|done].
    apply (Hrd (va_path va)); [by apply va_path_ok|done|apply tbl_index_range].
  - intros i Hi _. by apply (Hrd []); [apply path_ok_nil|..].
Qed.
End Tables.
