(* ===== verification/VmRegions.v ===== *)
(** The virtual-region bookkeeping of [src/src/mem/vmm.c]: the sorted list of free
    regions ([VmFreeRegion]) and the list of allocated ones ([VmAllocatedList]).

    A singly linked list of heap nodes is a list of records that carry the
    node's address; nodes come from [kmalloc] and go back with [kfree], so the
    operations thread the heap, through the interface [NodeHeap]. *)
From S2P Require Import Prelude Machine Pmm Frames Kmalloc.

(** What the lists need of the heap: an address (0 is NULL) for a node. *)
Class NodeHeap (H : Type) := {
  nh_alloc : H -> Z -> Z * H;
  nh_free : H -> Z -> H
}.

(** The kernel heap, with fuel for its list walks; nodes are smaller than a page,
    so the calls for larger requests are never made. *)
#[export] Instance kmalloc_nodes {A} `{FrameAllocator A} (fuel : nat) : NodeHeap (heap A) := {
  nh_alloc h size := default (0, h) (kmalloc (fun h _ => Some (0, h)) fuel h size);
  nh_free h ptr := default h (kfree (fun h _ => Some h) fuel h ptr)
}.

Record VmFreeRegion := FreeRegion { fr_node : Z; fr_addr : Z; fr_size : Z }.
Record VmAllocated := Allocated { va_node : Z; va_addr : Z; va_size : Z; va_flags : Z }.

Definition sizeof_VmFreeRegion : Z := 24.
Definition sizeof_VmAllocatedList : Z := 32.

Section Regions.
Context {H : Type} `{NodeHeap H}.
Implicit Types (l : list VmFreeRegion).

(** First fit; the head of a larger region is cut off, an exact fit is unlinked.
    0 when nothing fits. *)
Fixpoint find_free_addr (h : H) l (size : Z) : Z * list VmFreeRegion * H :=
  match l with
  | [] => (0, [], h)
  | r :: l =>
      if size <? fr_size r then
        (fr_addr r, FreeRegion (fr_node r) (u64 (fr_addr r + size)) (fr_size r - size) :: l, h)
      else if fr_size r =? size then (fr_addr r, l, nh_free h (fr_node r))
      else let '(a, l', h') := find_free_addr h l size in (a, r :: l', h')
  end.

(** [while (curr != NULL && curr->addr < addr)]: the nodes before and from [curr]
    on; [prev] is the last of the first part. *)
Fixpoint split_at (addr : Z) l : list VmFreeRegion * list VmFreeRegion :=
  match l with
  | [] => ([], [])
  | r :: l' =>
      if fr_addr r <? addr then let '(b, a) := split_at addr l' in (r :: b, a) else ([], l)
  end.

(** Merge [r] with the region that follows when they touch. *)
Definition absorb_next (h : H) (r : VmFreeRegion) l : list VmFreeRegion * H :=
  match l with
  | c :: l' =>
      if u64 (fr_addr r + fr_size r) =? fr_addr c
      then (FreeRegion (fr_node r) (fr_addr r) (u64 (fr_size r + fr_size c)) :: l', nh_free h (fr_node c))
      else (r :: l, h)
  | [] => ([r], h)
  end.

Definition vmm_add_free_region (h : H) l (addr size : Z) : list VmFreeRegion * H :=
  if size =? 0 then (l, h)
  else
    let '(before, after) := split_at addr l in
    let insert_new :=
      let '(node, h) := nh_alloc h sizeof_VmFreeRegion in
      if node =? 0 then (l, h)
      else let '(a, h) := absorb_next h (FreeRegion node addr size) after in (before ++ a, h) in
    match last before with
    | Some prev =>
        if u64 (fr_addr prev + fr_size prev) =? addr then
          let '(a, h) := absorb_next h (FreeRegion (fr_node prev) (fr_addr prev)
                                          (u64 (fr_size prev + size))) after in
          (removelast before ++ a, h)
        else insert_new
    | None => insert_new
    end.

(** -1 when the node cannot be allocated. *)
Definition vmm_add_allocated_mem (h : H) (l : list VmAllocated) (addr size flags : Z)
    : Z * list VmAllocated * H :=
  let '(node, h) := nh_alloc h sizeof_VmAllocatedList in
  if node =? 0 then (-1, l, h) else (0, Allocated node addr size flags :: l, h).

Fixpoint vmm_pop_allocated_mem (l : list VmAllocated) (addr : Z)
    : option VmAllocated * list VmAllocated :=
  match l with
  | [] => (None, [])
  | a :: l =>
      if va_addr a =? addr then (Some a, l)
      else let '(r, l') := vmm_pop_allocated_mem l addr in (r, a :: l')
  end.

Fixpoint vmm_find_allocated_mem (l : list VmAllocated) (addr : Z) : option VmAllocated :=
  match l with
  | [] => None
  | a :: l => if va_addr a =? addr then Some a else vmm_find_allocated_mem l addr
  end.

(** The copies made on fork; a failed allocation cuts the copy short. *)
Fixpoint vmm_copy_alloc_list (h : H) (l : list VmAllocated) : list VmAllocated * H :=
  match l with
  | [] => ([], h)
  | a :: l =>
      let '(node, h) := nh_alloc h sizeof_VmAllocatedList in
      if node =? 0 then ([], h)
      else let '(l', h) := vmm_copy_alloc_list h l in
           (Allocated node (va_addr a) (va_size a) (va_flags a) :: l', h)
  end.

Fixpoint vmm_copy_free_list (h : H) l : list VmFreeRegion * H :=
  match l with
  | [] => ([], h)
  | r :: l =>
      let '(node, h) := nh_alloc h sizeof_VmFreeRegion in
      if node =? 0 then ([], h)
      else let '(l', h) := vmm_copy_free_list h l in
           (FreeRegion node (fr_addr r) (fr_size r) :: l', h)
  end.

(** [vmm_cleanup_task]: every node of both lists goes back to the heap. *)
Definition vmm_cleanup_task (h : H) (al : list VmAllocated) (fl : list VmFreeRegion)
    : list VmAllocated * list VmFreeRegion * H :=
  let h := foldl (fun h a => nh_free h (va_node a)) h al in
  let h := foldl (fun h r => nh_free h (fr_node r)) h fl in
  ([], [], h).
End Regions.

(** ** Invariant: sorted, disjoint, fully merged, within the address space *)
Fixpoint regions_ok (lo : Z) (l : list VmFreeRegion) : Prop :=
  match l with
  | [] => True
  | r :: l => lo <= fr_addr r /\ 0 < fr_size r /\ fr_addr r + fr_size r < 2 ^ 64 /\
      regions_ok (fr_addr r + fr_size r + 1) l
  end.

Definition in_region (r : VmFreeRegion) (x : Z) : Prop := fr_addr r <= x < fr_addr r + fr_size r.
Definition free_addr (l : list VmFreeRegion) (x : Z) : Prop := Exists (fun r => in_region r x) l.

Section RegionLemmas.
Context {H : Type} `{NodeHeap H}.
Implicit Types (l b a : list VmFreeRegion) (r : VmFreeRegion) (x lo : Z).

Lemma free_cons r l x : free_addr (r :: l) x <-> in_region r x \/ free_addr l x.
Proof. apply Exists_cons. Qed.
Lemma free_app b a x : free_addr (b ++ a) x <-> free_addr b x \/ free_addr a x.
Proof. apply Exists_app. Qed.
Lemma free_nil x : free_addr [] x <-> False.
Proof. apply Exists_nil. Qed.

Lemma regions_ok_weaken lo lo' l : lo' <= lo -> regions_ok lo l -> regions_ok lo' l.
Proof. destruct l; [done|]. simpl. intros ? (? & ?). split; [lia|done]. Qed.

Lemma regions_ok_free lo l x : regions_ok lo l -> free_addr l x -> lo <= x < 2 ^ 64.
Proof.
  revert lo. induction l as [|r l IH]; intros lo Hok Hx; [by apply free_nil in Hx|].
  destruct Hok as (? & ? & ? & Hok). apply free_cons in Hx as [Hx|Hx]; [unfold in_region in Hx; lia|].
  specialize (IH _ Hok Hx). lia.
Qed.

Lemma regions_ok_lb lo l r : regions_ok lo l -> r ∈ l -> lo <= fr_addr r.
Proof.
  intros Hok Hin. revert lo Hok. induction Hin as [r l|r c l Hin IH]; intros lo (? & ? & ? & Hok); [done|].
  specialize (IH _ Hok). lia.
Qed.

(** Where a list may start after [b]. *)
Definition last_end lo b : Z :=
  match last b with Some p => fr_addr p + fr_size p + 1 | None => lo end.

Lemma regions_ok_app lo b a :
  regions_ok lo (b ++ a) <-> regions_ok lo b /\ regions_ok (last_end lo b) a.
Proof.
  revert lo. induction b as [|r b IH]; intros lo; [unfold last_end; simpl; tauto|].
  simpl. rewrite IH. replace (last_end lo (r :: b)) with (last_end (fr_addr r + fr_size r + 1) b); [tauto|].
  unfold last_end. destruct b as [|c b]; [done|]. change (last (r :: c :: b)) with (last (c :: b)).
  destruct (last (c :: b)) eqn:E; [done|]. by apply last_None in E.
Qed.

Lemma last_removelast {X} (b : list X) p : last b = Some p -> b = removelast b ++ [p].
Proof.
  induction b as [|y b IH]; [done|]. destruct b as [|z b]; intros Hl; [by injection Hl as ->|].
  change (removelast (y :: z :: b)) with (y :: removelast (z :: b)). simpl app. f_equal. by apply IH.
Qed.

Lemma split_at_spec addr l :
  let '(b, a) := split_at addr l in
  l = b ++ a /\ Forall (fun r => fr_addr r < addr) b /\
  match a with r :: _ => addr <= fr_addr r | [] => True end.
Proof.
  induction l as [|r l IH]; [done|]. simpl. destruct (Z.ltb_spec (fr_addr r) addr).
  - destruct (split_at addr l) as [b a]. destruct IH as (-> & ? & ?). split; [done|]. by split; [constructor|].
  - split; [done|]. by split.
Qed.

Lemma absorb_next_spec h r l lo : lo <= fr_addr r -> 0 < fr_size r -> fr_addr r + fr_size r < 2 ^ 64 ->
  0 <= fr_addr r -> regions_ok (fr_addr r + fr_size r) l ->
  let '(l', _) := absorb_next h r l in
  regions_ok lo l' /\ forall x, free_addr l' x <-> in_region r x \/ free_addr l x.
Proof.
  intros Hlo Hs Hm Hr0 Hok. destruct l as [|c l]; simpl; [by split; [split_and!|intros x; rewrite free_cons]|].
  destruct Hok as (? & ? & ? & Hok). rewrite u64_small by lia.
  destruct (Z.eqb_spec (fr_addr r + fr_size r) (fr_addr c)) as [He|].
  - rewrite u64_small by lia. simpl. split.
    + split_and!; try lia. eapply regions_ok_weaken; [|done]. lia.
    + intros x. rewrite !free_cons. unfold in_region. simpl.
      split; [intros [?|?]; [|auto]|intros [?|[?|?]]; [| |auto]]; lia.
  - split; [simpl; split_and!; (done || lia)|]. intros x. by rewrite free_cons.
Qed.

(** Putting [r] between the regions [b] before it and [a] after it. *)
Lemma insert_between h b r a lo : 0 <= lo -> regions_ok lo b -> last_end lo b <= fr_addr r ->
  0 <= fr_addr r -> 0 < fr_size r -> fr_addr r + fr_size r < 2 ^ 64 ->
  regions_ok (fr_addr r + fr_size r) a ->
  let '(a', _) := absorb_next h r a in
  regions_ok lo (b ++ a') /\ forall x, free_addr (b ++ a') x <-> in_region r x \/ free_addr (b ++ a) x.
Proof.
  intros Hlo0 Hb Hle Hr Hs Hm Ha. pose proof (absorb_next_spec h r a (last_end lo b) Hle Hs Hm Hr Ha) as Hab.
  destruct (absorb_next h r a) as [a' h']. destruct Hab as [Hok Hf].
  split; [by apply regions_ok_app|]. intros x. rewrite !free_app, Hf. tauto.
Qed.

(** The regions around a range that is not free. *)
Lemma split_around b a addr size lo : regions_ok lo (b ++ a) -> 0 < size ->
  Forall (fun r => fr_addr r < addr) b -> match a with r :: _ => addr <= fr_addr r | [] => True end ->
  (forall x, addr <= x < addr + size -> ~ free_addr (b ++ a) x) ->
  regions_ok (addr + size) a /\
  match last b with
  | Some p => fr_addr p + fr_size p <= addr /\ lo <= fr_addr p /\ 0 < fr_size p
  | None => b = []
  end.
Proof.
  intros Hok Hs Hb Ha Hd. pose proof Hok as [Hokb Hoka]%regions_ok_app. split.
  - destruct a as [|c a]; [done|]. destruct Hoka as (? & ? & ? & ?). simpl. split_and!; try done.
    destruct (decide (addr + size <= fr_addr c)); [done|]. exfalso.
    apply (Hd (fr_addr c)); [lia|]. apply free_app. right. apply free_cons. left. unfold in_region. lia.
  - destruct (last b) as [p|] eqn:Hl; [|by apply last_None].
    pose proof (last_removelast b p Hl) as Eb. set (b' := removelast b) in *. clearbody b'. subst b.
    pose proof (regions_ok_lb lo (b' ++ [p]) p Hokb ltac:(apply elem_of_app; right; by left)).
    apply regions_ok_app in Hokb as [_ (Hp1 & Hp2 & Hp3 & _)].
    apply Forall_app in Hb as [_ [Hpa _]%Forall_cons]. split; [|done].
    destruct (decide (fr_addr p + fr_size p <= addr)); [done|]. exfalso. cbv beta in Hpa.
    apply (Hd addr); [lia|]. rewrite !free_app, free_cons. left. right. left. unfold in_region. lia.
Qed.

(** Freeing an address range. *)
Lemma vmm_add_free_region_spec h l addr size lo : 0 <= lo <= addr -> 0 < size -> addr + size < 2 ^ 64 ->
  regions_ok lo l -> (forall x, addr <= x < addr + size -> ~ free_addr l x) ->
  let '(l', _) := vmm_add_free_region h l addr size in
  (l' = l /\ fst (nh_alloc h sizeof_VmFreeRegion) = 0) \/
  (regions_ok lo l' /\ forall x, free_addr l' x <-> addr <= x < addr + size \/ free_addr l x).
Proof.
  intros Hlo Hs Hm Hok Hd. unfold vmm_add_free_region. rewrite (proj2 (Z.eqb_neq size 0)) by lia.
  pose proof (split_at_spec addr l) as Hsp. destruct (split_at addr l) as [b a].
  destruct Hsp as (-> & Hb & Ha).
  destruct (split_around b a addr size lo Hok Hs Hb Ha Hd) as [Hafter Hlast].
  pose proof Hok as [Hokb Hoka]%regions_ok_app.
  assert (last_end lo b <= addr ->
    let '(l', _) := (let '(node, h) := nh_alloc h sizeof_VmFreeRegion in
      if node =? 0 then (b ++ a, h)
      else let '(a, h) := absorb_next h (FreeRegion node addr size) a in (b ++ a, h)) in
    (l' = b ++ a /\ fst (nh_alloc h sizeof_VmFreeRegion) = 0) \/
    (regions_ok lo l' /\ forall x, free_addr l' x <-> addr <= x < addr + size \/ free_addr (b ++ a) x)) as Hnew.
  { intros Hle. destruct (nh_alloc h sizeof_VmFreeRegion) as [node h1].
    destruct (Z.eqb_spec node 0); [by left|].
    pose proof (insert_between h1 b (FreeRegion node addr size) a lo) as Hi. simpl in Hi.
    destruct (absorb_next h1 _ a) as [a' h']. right. apply Hi; (done || lia). }
  destruct (last b) as [prev|] eqn:Hl.
  - destruct Hlast as (Hpe & Hplo & Hps). rewrite u64_small by lia.
    destruct (Z.eqb_spec (fr_addr prev + fr_size prev) addr) as [He|Hne].
    2: { apply Hnew. unfold last_end. rewrite Hl. lia. }
    rewrite u64_small by lia.
    pose proof (last_removelast b prev Hl) as Eb. set (b' := removelast b) in *. clearbody b'. subst b.
    apply regions_ok_app in Hokb as [Hokb' (Hp1 & _)].
    pose proof (insert_between h b' (FreeRegion (fr_node prev) (fr_addr prev) (fr_size prev + size)) a lo) as Hi.
    simpl in Hi. destruct (absorb_next h _ a) as [a' h']. right.
    destruct Hi as [Hok' Hf]; try (done || lia).
    { by replace (fr_addr prev + (fr_size prev + size)) with (addr + size) by lia. }
    split; [done|]. intros x. rewrite Hf, !free_app, free_cons, free_nil. unfold in_region. simpl.
    assert (fr_addr prev <= x < fr_addr prev + (fr_size prev + size) <->
      fr_addr prev <= x < fr_addr prev + fr_size prev \/ addr <= x < addr + size) as -> by lia. tauto.
  - subst b. apply Hnew. unfold last_end. simpl. lia.
Qed.

(** Taking an address range. *)
Lemma find_free_addr_spec h l size lo : 0 < lo -> 0 < size -> regions_ok lo l ->
  let '(a, l', h') := find_free_addr h l size in
  (a = 0 /\ l' = l /\ h' = h /\ forall r, r ∈ l -> fr_size r < size) \/
  (lo <= a /\ a + size < 2 ^ 64 /\ regions_ok lo l' /\
   (forall x, free_addr l x <-> a <= x < a + size \/ free_addr l' x) /\
   (forall x, a <= x < a + size -> ~ free_addr l' x)).
Proof.
  intros Hlo Hs. revert lo Hlo. induction l as [|r l IH]; intros lo Hlo Hok; simpl.
  { left. split_and!; try done. intros r Hr. by apply elem_of_nil in Hr. }
  destruct Hok as (H1 & H2 & H3 & Hok). destruct (Z.ltb_spec size (fr_size r)) as [Hlt|Hge].
  - right. rewrite u64_small by lia. split; [lia|]. split; [lia|]. split; [|split].
    + simpl. split_and!; try lia.
      by replace (fr_addr r + size + (fr_size r - size) + 1) with (fr_addr r + fr_size r + 1) by lia.
    + intros x. rewrite !free_cons. unfold in_region. simpl.
      assert (fr_addr r <= x < fr_addr r + fr_size r <-> fr_addr r <= x < fr_addr r + size \/
        fr_addr r + size <= x < fr_addr r + size + (fr_size r - size)) as -> by lia. tauto.
    + intros x Hx [Hr|Hf]%free_cons; [unfold in_region in Hr; simpl in Hr; lia|].
      pose proof (regions_ok_free _ _ _ Hok Hf). lia.
  - destruct (Z.eqb_spec (fr_size r) size) as [He|Hne].
    + right. split; [lia|]. split; [lia|]. split; [eapply regions_ok_weaken; [|done]; lia|]. split.
      * intros x. rewrite free_cons. unfold in_region. by rewrite He.
      * intros x Hx Hf. pose proof (regions_ok_free _ _ _ Hok Hf). lia.
    + specialize (IH (fr_addr r + fr_size r + 1) ltac:(lia) Hok).
      destruct (find_free_addr h l size) as [[a l'] h'].
      destruct IH as [(-> & -> & -> & Hall)|(Ha & Hm & Hok' & Hf & Hd)].
      * left. split_and!; try done. intros c [->|Hc]%elem_of_cons; [lia|by apply Hall].
      * right. split; [lia|]. split; [done|]. split; [by split_and!|]. split.
        -- intros x. rewrite !free_cons, Hf. tauto.
        -- intros x Hx [Hr|Hfr]%free_cons; [unfold in_region in Hr; lia|]. by apply (Hd x).
Qed.

(** Taking a range of virtual addresses and giving it back.  When
    [find_free_addr] finds a region, the range returned was free, is no longer
    free, and every other address is as before; [vmm_add_free_region] of the same
    range makes it free again, with the list sorted, disjoint and with no two
    adjacent regions.  The one exception is a failed allocation of the list node:
    then the range is lost and the list unchanged. *)
Theorem vm_regions_roundtrip (h : H) l size lo : 0 < lo -> 0 < size -> regions_ok lo l ->
  let '(a, l1, h1) := find_free_addr h l size in
  (a = 0 /\ l1 = l /\ forall r, r ∈ l -> fr_size r < size) \/
  (regions_ok lo l1 /\ (forall x, free_addr l x <-> a <= x < a + size \/ free_addr l1 x) /\
   (forall x, a <= x < a + size -> ~ free_addr l1 x) /\
   let '(l2, _) := vmm_add_free_region h1 l1 a size in
   (l2 = l1 /\ fst (nh_alloc h1 sizeof_VmFreeRegion) = 0) \/
   (regions_ok lo l2 /\ forall x, free_addr l2 x <-> free_addr l x)).
Proof.
  intros Hlo Hs Hok. pose proof (find_free_addr_spec h l size lo Hlo Hs Hok) as Hf.
  destruct (find_free_addr h l size) as [[a l1] h1].
  destruct Hf as [(-> & -> & _ & Hall)|(Ha & Hm & Hok1 & Hcov & Hd)]; [by left|right].
  split; [done|]. split; [done|]. split; [done|].
  pose proof (vmm_add_free_region_spec h1 l1 a size lo ltac:(lia) Hs Hm Hok1 Hd) as Hadd.
  destruct (vmm_add_free_region h1 l1 a size) as [l2 h2].
  destruct Hadd as [?|[Hok2 Hcov2]]; [by left|right]. split; [done|].
  intros x. by rewrite Hcov2, Hcov.
Qed.
End RegionLemmas.

(** A heap whose nodes are numbered, for examples. *)
#[local] Instance counter_heap : NodeHeap Z := { nh_alloc h _ := (h, h + 1); nh_free h _ := h }.

Lemma vm_regions_roundtrip_witness :
  let l := [FreeRegion 1 KERN_HEAP_START 0x3000; FreeRegion 2 (KERN_HEAP_START + 0x8000) 0x8000] in
  find_free_addr 7 l 0x4000 =
    (KERN_HEAP_START + 0x8000,
     [FreeRegion 1 KERN_HEAP_START 0x3000; FreeRegion 2 (KERN_HEAP_START + 0xc000) 0x4000], 7) /\
  let '(l2, _) := vmm_add_free_region 7 (snd (fst (find_free_addr 7 l 0x4000)))
                    (KERN_HEAP_START + 0x8000) 0x4000 in
  regions_ok 1 l2 /\ forall x, free_addr l2 x <-> free_addr l x.
Proof.
  intros l. split; [reflexivity|].
  assert (regions_ok 1 l) as Hok by (unfold l, KERN_HEAP_START; simpl; lia).
  pose proof (vm_regions_roundtrip 7 l 0x4000 1 ltac:(lia) ltac:(lia) Hok) as Hr.
  change (find_free_addr 7 l 0x4000) with (KERN_HEAP_START + 0x8000,
     [FreeRegion 1 KERN_HEAP_START 0x3000; FreeRegion 2 (KERN_HEAP_START + 0xc000) 0x4000], 7) in *.
  cbn [fst snd]. destruct Hr as [[Hr _]|(_ & _ & _ & Hr)]; [discriminate Hr|].
  destruct (vmm_add_free_region 7 _ (KERN_HEAP_START + 0x8000) 0x4000) as [l2 h2].
  destruct Hr as [[_ Hr]|Hr]; [discriminate Hr|exact Hr].
Defined.
