(* ===== verification/Pipe.v ===== *)
(** Pipes, [src/src/fs/pipe.c]: one reader and one writer over a byte ring.

    Each loop iteration of [pipe_read] and [pipe_write] runs with interrupts off
    between [cli] and [sti], so it is one atomic step; the writer's first test of
    [READ_OPEN] happens before [cli] and is a step of its own.  [sched_block]
    stops the thread and [sched_wake_pid] lets it run again.  [pstep] interleaves
    the two threads in any order. *)
From S2P Require Import Prelude RingBuf.
From stdpp Require Import relations.
#[local] Open Scope Z_scope.

Definition READ_OPEN : Z := 1.
Definition WRITE_OPEN : Z := 2.

Record Pipe := mkPipe { p_buf : RingBuf; reader_pid : Z; writer_pid : Z; p_flags : Z }.

Definition is_open (flag : Z) (p : Pipe) : bool := negb (Z.land (p_flags p) flag =? 0).

(** How a call continues after one iteration. *)
Inductive outcome := Continue | Block | Return.

(** The wake-up of the other side after a byte moved. *)
Definition wake_writer (p : Pipe) : Pipe * option Z :=
  if negb (writer_pid p =? -1)
  then (mkPipe (p_buf p) (reader_pid p) (-1) (p_flags p), Some (writer_pid p)) else (p, None).
Definition wake_reader (p : Pipe) : Pipe * option Z :=
  if negb (reader_pid p =? -1)
  then (mkPipe (p_buf p) (-1) (writer_pid p) (p_flags p), Some (reader_pid p)) else (p, None).

(** One iteration of [pipe_read] with [read_count] bytes stored so far: the pipe,
    the pid woken, the byte stored and how the call goes on.  [curr] is
    [get_curr_task()]. *)
Definition pipe_read_iter (curr : option Z) (p : Pipe) (read_count : Z)
    : Pipe * option Z * option Z * outcome :=
  match rb_pop (p_buf p) with
  | (Some c, buf) =>
      let '(p, w) := wake_writer (mkPipe buf (reader_pid p) (writer_pid p) (p_flags p)) in
      (p, w, Some c, Continue)
  | (None, _) =>
      if is_open WRITE_OPEN p then
        if 0 <? read_count then (p, None, None, Return)
        else match curr with
             | None => (p, None, None, Return)
             | Some pid => (mkPipe (p_buf p) pid (writer_pid p) (p_flags p), None, None, Block)
             end
      else (p, None, None, Return)
  end.

(** The critical section of [pipe_write] for the byte [c]; [true]: it was pushed. *)
Definition pipe_write_iter (curr : option Z) (p : Pipe) (c : Z) : Pipe * option Z * bool * outcome :=
  if rb_is_full (p_buf p) then
    if negb (is_open READ_OPEN p) then (p, None, false, Return)
    else match curr with
         | None => (p, None, false, Return)
         | Some pid => (mkPipe (p_buf p) (reader_pid p) pid (p_flags p), None, false, Block)
         end
  else
    let '(p, w) := wake_reader (mkPipe (rb_push (p_buf p) c) (reader_pid p) (writer_pid p) (p_flags p)) in
    (p, w, true, Continue).

Definition pipe_close_reader (p : Pipe) : Pipe * option Z :=
  wake_writer (mkPipe (p_buf p) (reader_pid p) (writer_pid p) (Z.land (p_flags p) (u32 (Z.lnot READ_OPEN)))).
Definition pipe_close_writer (p : Pipe) : Pipe * option Z :=
  wake_reader (mkPipe (p_buf p) (reader_pid p) (writer_pid p) (Z.land (p_flags p) (u32 (Z.lnot WRITE_OPEN)))).

Definition pipe_check_ready (curr : option Z) (p : Pipe) : Z * Pipe :=
  if negb (rb_is_empty (p_buf p)) then (1, p)
  else if negb (is_open WRITE_OPEN p) then (1, p)
  else match curr with
       | Some pid => (0, mkPipe (p_buf p) pid (writer_pid p) (p_flags p))
       | None => (0, p)
       end.

(** ** Two threads *)
Inductive tstate := Idle | Running | Blocked.
(** [WCheck]: before the test of [READ_OPEN]; [WCrit]: before [cli]. *)
Inductive wpc := WCheck | WCrit.

(** [r_all] and [w_all] are history: all bytes stored by the reader's calls and
    pushed by the writer's calls. *)
Record reader := mkReader { r_size : Z; r_count : Z; r_st : tstate; r_all : list Z }.
Record writer := mkWriter { w_buf : list Z; w_count : nat; w_pc : wpc; w_st : tstate; w_all : list Z }.
Record psys := PSys { s_pipe : Pipe; s_reader : reader; s_writer : writer }.

Definition rpid : Z := 1.
Definition wpid : Z := 2.

Definition set_r (r : reader) (st : tstate) : reader := mkReader (r_size r) (r_count r) st (r_all r).
Definition set_w (w : writer) (st : tstate) : writer := mkWriter (w_buf w) (w_count w) (w_pc w) st (w_all w).

(** [sched_wake_pid] *)
Definition wake (o : option Z) (s : psys) : psys :=
  match o with
  | None => s
  | Some pid =>
      let r := match r_st (s_reader s) with
               | Blocked => if pid =? rpid then set_r (s_reader s) Running else s_reader s
               | _ => s_reader s end in
      let w := match w_st (s_writer s) with
               | Blocked => if pid =? wpid then set_w (s_writer s) Running else s_writer s
               | _ => s_writer s end in
      PSys (s_pipe s) r w
  end.

Definition after (o : outcome) : tstate :=
  match o with Continue => Running | Block => Blocked | Return => Idle end.

Definition do_read (s : psys) : psys :=
  let r := s_reader s in
  if r_count r <? r_size r then
    let '(p, w, c, o) := pipe_read_iter (Some rpid) (s_pipe s) (r_count r) in
    let r := match c with
             | Some c => mkReader (r_size r) (r_count r + 1) (after o) (r_all r ++ [c])
             | None => mkReader (r_size r) (r_count r) (after o) (r_all r)
             end in
    wake w (PSys p r (s_writer s))
  else PSys (s_pipe s) (set_r r Idle) (s_writer s).

Definition do_write (s : psys) : psys :=
  let w := s_writer s in
  match w_pc w with
  | WCheck =>
      if (w_count w <? length (w_buf w))%nat && is_open READ_OPEN (s_pipe s)
      then PSys (s_pipe s) (s_reader s) (mkWriter (w_buf w) (w_count w) WCrit Running (w_all w))
      else PSys (s_pipe s) (s_reader s) (set_w w Idle)
  | WCrit =>
      let c := default 0 (w_buf w !! w_count w) in
      let '(p, wk, pushed, o) := pipe_write_iter (Some wpid) (s_pipe s) c in
      let w := if pushed : bool
               then mkWriter (w_buf w) (S (w_count w)) WCheck (after o) (w_all w ++ [c])
               else mkWriter (w_buf w) (w_count w) WCrit (after o) (w_all w) in
      wake wk (PSys p (s_reader s) w)
  end.

Inductive label :=
  | LReadCall (size : Z) | LRead | LWriteCall (buf : list Z) | LWrite
  | LCloseReader | LCloseWriter | LPoll.

(** One step of the system; [None]: not enabled. *)
Definition pstep_fn (s : psys) (l : label) : option psys :=
  let r := s_reader s in
  let w := s_writer s in
  match l, r_st r, w_st w with
  | LReadCall n, Idle, _ => Some (PSys (s_pipe s) (mkReader n 0 Running (r_all r)) w)
  | LRead, Running, _ => Some (do_read s)
  | LWriteCall b, _, Idle => Some (PSys (s_pipe s) r (mkWriter b 0 WCheck Running (w_all w)))
  | LWrite, _, Running => Some (do_write s)
  | LCloseReader, Idle, _ =>
      let '(p, wk) := pipe_close_reader (s_pipe s) in Some (wake wk (PSys p r w))
  | LCloseWriter, _, Idle =>
      let '(p, wk) := pipe_close_writer (s_pipe s) in Some (wake wk (PSys p r w))
  | LPoll, Idle, _ =>
      Some (PSys (snd (pipe_check_ready (Some rpid) (s_pipe s))) r w)
  | _, _, _ => None
  end.

Definition pstep (s s' : psys) : Prop := exists l, pstep_fn s l = Some s'.

(** A fresh pipe, as [sys_pipe] makes it. *)
Definition pipe_new : Pipe := mkPipe rb_init (-1) (-1) (Z.lor READ_OPEN WRITE_OPEN).
Definition psys_init : psys :=
  PSys pipe_new (mkReader 0 0 Idle []) (mkWriter [] 0 WCheck Idle []).

(** ** Invariant *)
Record pipe_inv (s : psys) : Prop := {
  pi_ring : ring_wf (p_buf (s_pipe s));
  (** What was written and not yet read is in the ring, in order. *)
  pi_stream : w_all (s_writer s) = r_all (s_reader s) ++ ring_list (p_buf (s_pipe s));
  (** A blocked thread is registered, and has reason to wait. *)
  pi_reader : r_st (s_reader s) = Blocked ->
    reader_pid (s_pipe s) = rpid /\ ring_list (p_buf (s_pipe s)) = [] /\ is_open WRITE_OPEN (s_pipe s) = true;
  pi_writer : w_st (s_writer s) = Blocked ->
    writer_pid (s_pipe s) = wpid /\ rb_is_full (p_buf (s_pipe s)) = true /\
    is_open READ_OPEN (s_pipe s) = true;
  pi_pids : (reader_pid (s_pipe s) = -1 \/ reader_pid (s_pipe s) = rpid) /\
            (writer_pid (s_pipe s) = -1 \/ writer_pid (s_pipe s) = wpid)
}.

Section PipeProofs.
Implicit Types (s : psys) (p : Pipe).

Lemma wake_pipe o s : s_pipe (wake o s) = s_pipe s.
Proof. by destruct o. Qed.
Lemma wake_r_all o s : r_all (s_reader (wake o s)) = r_all (s_reader s).
Proof. destruct o; [|done]. unfold wake. simpl. destruct (r_st _); try done. by destruct (_ =? _). Qed.
Lemma wake_w_all o s : w_all (s_writer (wake o s)) = w_all (s_writer s).
Proof. destruct o; [|done]. unfold wake. simpl. destruct (w_st _); try done. by destruct (_ =? _). Qed.

(** Waking never blocks a thread, and unblocks the one it names. *)
Lemma wake_r_blocked o s : r_st (s_reader (wake o s)) = Blocked ->
  r_st (s_reader s) = Blocked /\ o <> Some rpid.
Proof.
  destruct o as [pid|]; [|done]. unfold wake. simpl. destruct (r_st (s_reader s)) eqn:E; try (rewrite E; done).
  destruct (Z.eqb_spec pid rpid); [done|]. intros _. split; [done|congruence].
Qed.
Lemma wake_w_blocked o s : w_st (s_writer (wake o s)) = Blocked ->
  w_st (s_writer s) = Blocked /\ o <> Some wpid.
Proof.
  destruct o as [pid|]; [|done]. unfold wake. simpl. destruct (w_st (s_writer s)) eqn:E; try (rewrite E; done).
  destruct (Z.eqb_spec pid wpid); [done|]. intros _. split; [done|congruence].
Qed.

Lemma wake_None s : wake None s = s.
Proof. done. Qed.

#[local] Opaque wake.

Lemma full_not_empty rb : ring_wf rb -> rb_is_full rb = true -> ring_list rb <> [].
Proof.
  intros Hw Hf. apply (ring_full_iff rb Hw) in Hf. intros E. rewrite E in Hf. done.
Qed.

Lemma push_not_full rb c : ring_wf rb -> rb_is_full rb = false ->
  ring_wf (rb_push rb c) /\ ring_list (rb_push rb c) = ring_list rb ++ [c].
Proof.
  intros Hw Hf. split; [by apply ring_push_wf|]. apply ring_list_push_room; [done|].
  pose proof (ring_count_lt rb). rewrite <- ring_list_length by done.
  destruct (decide (length (ring_list rb) = queue_spec.capacity)) as [He|Hne].
  - apply (ring_full_iff rb Hw) in He. unfold rb_is_full, RING_BUF_SIZE in Hf. congruence.
  - rewrite ring_list_length in * by done. unfold queue_spec.capacity in *. lia.
Qed.

Lemma pop_cases rb : ring_wf rb ->
  match rb_pop rb with
  | (Some c, rb') => ring_wf rb' /\ ring_list rb = c :: ring_list rb'
  | (None, rb') => rb' = rb /\ ring_list rb = []
  end.
Proof.
  intros Hw. pose proof (ring_list_pop rb Hw) as [H1 H2]. pose proof (ring_pop_wf rb Hw) as H3.
  unfold rb_pop. change RING_BUF_SIZE with 256.
  destruct (ring_pop 256 rb) as [[c|] rb'] eqn:E; simpl in *.
  - destruct (ring_list rb) as [|x l]; simpl in *; [done|]. injection H1 as ->. by rewrite H2.
  - split; [|by destruct (ring_list rb)]. unfold ring_pop in E.
    destruct (RingBuf.head rb =? RingBuf.tail rb) eqn:Eh; [congruence|]. exfalso.
    destruct (ring_list rb) eqn:El; [|done].
    apply (ring_empty_iff rb Hw) in El. unfold ring_is_empty in El. congruence.
Qed.

Lemma do_read_inv s : pipe_inv s -> r_st (s_reader s) = Running -> pipe_inv (do_read s).
Proof.
  intros [Hw Hs Hr Hwr [Hp1 Hp2]] Hrun. unfold do_read.
  destruct (_ <? _); [|by split; simpl].
  unfold pipe_read_iter. pose proof (pop_cases _ Hw) as Hpop.
  destruct (rb_pop (p_buf (s_pipe s))) as [[c|] rb'].
  - destruct Hpop as [Hw' Hl]. unfold wake_writer. simpl.
    destruct (Z.eqb_spec (writer_pid (s_pipe s)) (-1)) as [E|E]; simpl negb; cbv iota.
    + rewrite wake_None. split; simpl; try done; [by rewrite Hs, Hl, <- app_assoc|].
      intros Hb. destruct (Hwr Hb) as [? _]. unfold wpid in *. lia.
    + destruct Hp2 as [?|Ew]; [done|]. rewrite Ew. split; rewrite ?wake_pipe, ?wake_r_all, ?wake_w_all; simpl.
      * done.
      * by rewrite Hs, Hl, <- app_assoc.
      * by intros [? _]%wake_r_blocked.
      * by intros [_ ?]%wake_w_blocked.
      * by split; [|left].
  - destruct Hpop as [-> Hl]. destruct (is_open WRITE_OPEN (s_pipe s)) eqn:Eo; [destruct (0 <? _)|]; rewrite wake_None;
      split; simpl; try done. by split; [right|].
Qed.

Lemma do_write_inv s : pipe_inv s -> w_st (s_writer s) = Running -> pipe_inv (do_write s).
Proof.
  intros [Hw Hs Hr Hwr [Hp1 Hp2]] Hrun. unfold do_write. destruct (w_pc (s_writer s)).
  { destruct (_ && _); by split; simpl. }
  unfold pipe_write_iter. set (c := default 0 _).
  destruct (rb_is_full (p_buf (s_pipe s))) eqn:Ef.
  - destruct (is_open READ_OPEN (s_pipe s)) eqn:Eo; simpl negb; cbv iota; rewrite wake_None;
      split; simpl; try done. by split; [|right].
  - destruct (push_not_full _ c Hw Ef) as [Hw' Hl]. unfold wake_reader. simpl.
    destruct (Z.eqb_spec (reader_pid (s_pipe s)) (-1)) as [E|E]; simpl negb; cbv iota.
    + rewrite wake_None. split; simpl; try done; [by rewrite Hs, Hl, <- app_assoc|].
      intros Hb. destruct (Hr Hb) as [? _]. unfold rpid in *. lia.
    + destruct Hp1 as [?|Er]; [done|]. rewrite Er. split; rewrite ?wake_pipe, ?wake_r_all, ?wake_w_all; simpl.
      * done.
      * by rewrite Hs, Hl, <- app_assoc.
      * by intros [_ ?]%wake_r_blocked.
      * by intros [? _]%wake_w_blocked.
      * by split; [left|].
Qed.

(** Closing one end does not close the other. *)
Lemma close_reader_flags p : is_open WRITE_OPEN (fst (pipe_close_reader p)) = is_open WRITE_OPEN p.
Proof.
  unfold pipe_close_reader, wake_writer, is_open. simpl. destruct (_ =? -1); simpl;
    rewrite <- Z.land_assoc; done.
Qed.
Lemma close_writer_flags p : is_open READ_OPEN (fst (pipe_close_writer p)) = is_open READ_OPEN p.
Proof.
  unfold pipe_close_writer, wake_reader, is_open. simpl. destruct (_ =? -1); simpl;
    rewrite <- Z.land_assoc; done.
Qed.

Lemma close_reader_inv s : pipe_inv s -> r_st (s_reader s) = Idle ->
  let '(p, wk) := pipe_close_reader (s_pipe s) in pipe_inv (wake wk (PSys p (s_reader s) (s_writer s))).
Proof.
  intros [Hw Hs Hr Hwr [Hp1 Hp2]] Hrun. unfold pipe_close_reader, wake_writer. simpl.
  destruct (Z.eqb_spec (writer_pid (s_pipe s)) (-1)) as [E|E]; simpl negb; cbv iota.
  - rewrite wake_None. split; simpl; try done; [by rewrite Hrun|].
    intros Hb. destruct (Hwr Hb) as [? _]. unfold wpid in *. lia.
  - destruct Hp2 as [?|Ew]; [done|]. rewrite Ew. split; rewrite ?wake_pipe, ?wake_r_all, ?wake_w_all; simpl; try done.
    + intros [Hb _]%wake_r_blocked. simpl in Hb. congruence.
    + by intros [_ ?]%wake_w_blocked.
    + by split; [|left].
Qed.

Lemma close_writer_inv s : pipe_inv s -> w_st (s_writer s) = Idle ->
  let '(p, wk) := pipe_close_writer (s_pipe s) in pipe_inv (wake wk (PSys p (s_reader s) (s_writer s))).
Proof.
  intros [Hw Hs Hr Hwr [Hp1 Hp2]] Hrun. unfold pipe_close_writer, wake_reader. simpl.
  destruct (Z.eqb_spec (reader_pid (s_pipe s)) (-1)) as [E|E]; simpl negb; cbv iota.
  - rewrite wake_None. split; simpl; try done; [|by rewrite Hrun].
    intros Hb. destruct (Hr Hb) as [? _]. unfold rpid in *. lia.
  - destruct Hp1 as [?|Er]; [done|]. rewrite Er. split; rewrite ?wake_pipe, ?wake_r_all, ?wake_w_all; simpl; try done.
    + by intros [_ ?]%wake_r_blocked.
    + intros [Hb _]%wake_w_blocked. simpl in Hb. congruence.
    + by split; [left|].
Qed.

Lemma poll_inv s : pipe_inv s -> r_st (s_reader s) = Idle ->
  pipe_inv (PSys (snd (pipe_check_ready (Some rpid) (s_pipe s))) (s_reader s) (s_writer s)).
Proof.
  intros [Hw Hs Hr Hwr [Hp1 Hp2]] Hrun. unfold pipe_check_ready.
  destruct (negb (rb_is_empty _)); [by split|]. destruct (is_open WRITE_OPEN (s_pipe s)) eqn:Eo; simpl;
    [|split; simpl; try done; by rewrite Hrun].
  split; simpl; try done; [by rewrite Hrun|]. by split; [right|].
Qed.

#[local] Transparent wake.

Lemma pstep_inv s s' : pipe_inv s -> pstep s s' -> pipe_inv s'.
Proof.
  intros Hi [l Hl]. unfold pstep_fn in Hl.
  destruct l, (r_st (s_reader s)) eqn:Er, (w_st (s_writer s)) eqn:Ew; simplify_eq;
    try by apply do_read_inv.
  all: try by apply do_write_inv.
  all: try by apply poll_inv.
  all: try (destruct Hi as [Hw Hs Hr Hwr Hp]; split; simpl; (done || by rewrite ?Er, ?Ew)).
  all: try (pose proof (close_reader_inv s Hi Er) as Hc;
    destruct (pipe_close_reader (s_pipe s)) as [p wk]; simplify_eq; done).
  all: pose proof (close_writer_inv s Hi Ew) as Hc;
    destruct (pipe_close_writer (s_pipe s)) as [p wk]; simplify_eq; done.
Qed.

Lemma psys_init_inv : pipe_inv psys_init.
Proof. destruct rb_init_wf as [Hw Hl]. split; simpl; try done. by split; left. Qed.

Lemma reachable_inv s : rtc pstep psys_init s -> pipe_inv s.
Proof.
  intros Hr. assert (forall s0, pipe_inv s0 -> rtc pstep s0 s -> pipe_inv s) as H
    by (intros s0 H0 Hs; induction Hs; [done|]; eauto using pstep_inv).
  by apply (H psys_init psys_init_inv).
Qed.

(** C10: Stream integrity: in every interleaving of a reader and a writer, the bytes
    read followed by the bytes waiting in the ring are exactly the bytes written,
    in order; nothing is lost, duplicated or overwritten, and at most 255 bytes
    wait. *)
Theorem pipe_stream_integrity s : rtc pstep psys_init s ->
  w_all (s_writer s) = r_all (s_reader s) ++ ring_list (p_buf (s_pipe s)) /\
  (length (ring_list (p_buf (s_pipe s))) <= 255)%nat.
Proof.
  intros Hr. destruct (reachable_inv s Hr) as [Hw Hs _ _ _]. split; [done|].
  rewrite ring_list_length by done. pose proof (ring_count_lt (p_buf (s_pipe s))). lia.
Qed.

(** C11: No lost wake-up: reader and writer are never both blocked; a blocked reader
    runs again as soon as a byte is pushed or the writing end is closed, and a
    blocked writer as soon as a byte is popped or the reading end is closed. *)
Theorem pipe_no_lost_wakeup s : rtc pstep psys_init s ->
  ~ (r_st (s_reader s) = Blocked /\ w_st (s_writer s) = Blocked) /\
  (r_st (s_reader s) = Blocked ->
     (forall s', pstep_fn s LWrite = Some s' -> w_all (s_writer s') <> w_all (s_writer s) ->
        r_st (s_reader s') = Running) /\
     (forall s', pstep_fn s LCloseWriter = Some s' -> r_st (s_reader s') = Running)) /\
  (w_st (s_writer s) = Blocked ->
     (forall s', pstep_fn s LRead = Some s' -> r_all (s_reader s') <> r_all (s_reader s) ->
        w_st (s_writer s') = Running) /\
     (forall s', pstep_fn s LCloseReader = Some s' -> w_st (s_writer s') = Running)).
Proof.
  intros Hr. destruct (reachable_inv s Hr) as [Hw Hs Hrd Hwr _]. split; [|split].
  - intros [H1 H2]. destruct (Hrd H1) as (_ & He & _). destruct (Hwr H2) as (_ & Hf & _).
    by apply (full_not_empty _ Hw Hf).
  - intros Hb. destruct (Hrd Hb) as (Hpid & _ & _). split; intros s'; unfold pstep_fn; rewrite ?Hb;
      destruct (w_st (s_writer s)); try done.
    + intros [= <-]. unfold do_write. destruct (w_pc (s_writer s)); [by destruct (_ && _)|].
      unfold pipe_write_iter, wake_reader. simpl. rewrite Hpid.
      destruct (rb_is_full _); [destruct (is_open READ_OPEN (s_pipe s)); intros []; reflexivity|]. intros _. unfold wake. simpl. by rewrite ?Hb.
    + unfold pipe_close_writer, wake_reader. simpl. rewrite Hpid. intros [= <-]. unfold wake. simpl.
      by rewrite ?Hb.
  - intros Hb. destruct (Hwr Hb) as (Hpid & _ & _). split; intros s'; unfold pstep_fn; rewrite ?Hb;
      destruct (r_st (s_reader s)); try done.
    + intros [= <-]. unfold do_read. destruct (_ <? _); [|done].
      unfold pipe_read_iter, wake_writer. destruct (rb_pop _) as [[c|] rb'].
      * simpl. rewrite Hpid. intros _. unfold wake. simpl. by rewrite ?Hb.
      * destruct (is_open WRITE_OPEN (s_pipe s)); [destruct (0 <? _)|]; intros []; reflexivity.
    + unfold pipe_close_reader, wake_writer. simpl. rewrite Hpid. intros [= <-]. unfold wake. simpl.
      by rewrite ?Hb.
Qed.
End PipeProofs.

(** A run: the reader blocks, two bytes are written, one is read. *)
Fixpoint prun (s : psys) (ls : list label) : option psys :=
  match ls with
  | [] => Some s
  | l :: ls => match pstep_fn s l with Some s' => prun s' ls | None => None end
  end.

Lemma prun_rtc s ls s' : prun s ls = Some s' -> rtc pstep s s'.
Proof.
  revert s. induction ls as [|l ls IH]; intros s Hs; simpl in Hs; [simplify_eq; constructor|].
  destruct (pstep_fn s l) as [s1|] eqn:E; [|done]. eapply rtc_l; [by exists l|by apply IH].
Qed.

Definition demo_run : list label :=
  [LReadCall 4; LRead; LWriteCall [65; 66]; LWrite; LWrite; LWrite; LWrite; LRead].

Lemma pipe_stream_integrity_witness : exists s, prun psys_init demo_run = Some s /\
  r_all (s_reader s) = [65] /\ w_all (s_writer s) = [65] ++ ring_list (p_buf (s_pipe s)).
Proof.
  assert (match prun psys_init demo_run with Some s => r_all (s_reader s) = [65] | None => False end)
    as Hv by (vm_compute; reflexivity).
  destruct (prun psys_init demo_run) as [s|] eqn:E; [|destruct Hv].
  exists s. split; [reflexivity|]. split; [exact Hv|]. rewrite <- Hv.
  apply (pipe_stream_integrity s (prun_rtc _ _ _ E)).
Defined.

Lemma pipe_no_lost_wakeup_witness : exists s s',
  prun psys_init [LReadCall 4; LRead; LWriteCall [65]; LWrite] = Some s /\
  r_st (s_reader s) = Blocked /\ pstep_fn s LWrite = Some s' /\ r_st (s_reader s') = Running.
Proof.
  assert (match prun psys_init [LReadCall 4; LRead; LWriteCall [65]; LWrite] with
    | Some s => r_st (s_reader s) = Blocked /\
        match pstep_fn s LWrite with
        | Some s' => w_all (s_writer s') <> w_all (s_writer s) | None => False end
    | None => False end) as Hv by (vm_compute; split; [reflexivity|discriminate]).
  destruct (prun psys_init _) as [s|] eqn:E; [|destruct Hv]. destruct Hv as [Hb Hv].
  destruct (pstep_fn s LWrite) as [s'|] eqn:E'; [|destruct Hv].
  destruct (pipe_no_lost_wakeup s (prun_rtc _ _ _ E)) as (_ & Hr & _).
  exists s, s'. split; [reflexivity|]. split; [exact Hb|]. split; [exact E'|].
  exact (proj1 (Hr Hb) s' E' Hv).
Defined.
