(* ===== verification/Mq.v ===== *)
(** Message queues, [src/src/ipc/mq.c].

    A queue's messages are a list in sending order (the code's [head] to [tail]
    chain), each with the bytes copied in; the waiting tasks are the [wait_next]
    chains, newest first.  Nodes come from the kernel heap through [NodeHeap].  A
    call that must wait registers its task and blocks; it runs again when woken,
    from the loop's test. *)
From S2P Require Import Prelude Machine Kmalloc VmRegions.

Definition sizeof_Message : Z := 24.
Definition sizeof_MessageQueue : Z := 80.

Record Message := mkMsg { m_node : Z; m_data_node : Z; m_data : list Z }.
Record MessageQueue := mkMq {
  q_name : list Z;                  (** up to the NUL *)
  q_msgs : list Message;
  q_count : Z;
  q_max : Z;
  q_receivers : list Z;             (** pids *)
  q_senders : list Z
}.

(** A call blocks its task, or returns a value and wakes at most one task. *)
Inductive mq_result (R : Type) :=
  | MqBlock (q : MessageQueue)
  | MqReturn (r : R) (q : MessageQueue) (woken : option Z).
Arguments MqBlock {R}.
Arguments MqReturn {R}.

Section Mq.
Context {H : Type} `{NodeHeap H}.
Implicit Types (h : H) (q : MessageQueue).

(** One pass of [mq_send] from its loop test on. *)
Definition mq_send h q (curr : Z) (data : list Z) : mq_result Z * H :=
  if q_max q <=? q_count q then
    (MqBlock (mkMq (q_name q) (q_msgs q) (q_count q) (q_max q) (q_receivers q) (curr :: q_senders q)), h)
  else
    let '(msg, h) := nh_alloc h sizeof_Message in
    if msg =? 0 then (MqReturn (-1) q None, h)
    else
      let '(msg_data, h) := nh_alloc h (Z.of_nat (length data)) in
      if msg_data =? 0 then (MqReturn (-1) q None, nh_free h msg)
      else
        let msgs := q_msgs q ++ [mkMsg msg msg_data data] in
        let count := q_count q + 1 in
        match q_receivers q with
        | t :: rest => (MqReturn 0 (mkMq (q_name q) msgs count (q_max q) rest (q_senders q)) (Some t), h)
        | [] => (MqReturn 0 (mkMq (q_name q) msgs count (q_max q) [] (q_senders q)) None, h)
        end.

(** One pass of [mq_receive]: the bytes stored in [buf]; its length is returned. *)
Definition mq_receive h q (curr : Z) (len : Z) : mq_result (list Z) * H :=
  match q_msgs q with
  | [] => (MqBlock (mkMq (q_name q) [] (q_count q) (q_max q) (curr :: q_receivers q) (q_senders q)), h)
  | msg :: msgs =>
      let size := Z.of_nat (length (m_data msg)) in
      let read_size := if size <? len then size else len in
      let out := take (Z.to_nat read_size) (m_data msg) in
      let h := nh_free (nh_free h (m_data_node msg)) (m_node msg) in
      let count := q_count q - 1 in
      match q_senders q with
      | t :: rest => (MqReturn out (mkMq (q_name q) msgs count (q_max q) (q_receivers q) rest) (Some t), h)
      | [] => (MqReturn out (mkMq (q_name q) msgs count (q_max q) (q_receivers q) []) None, h)
      end
  end.

(** ** The registry: [g_mq_root], newest first; a queue is known by its address *)
Abbreviation registry := (list (Z * MessageQueue)).

(** [strncpy(new_mq->name, name, 32); new_mq->name[31] = 0] *)
Definition stored_name (name : list Z) : list Z := take 31 name.

Definition find_queue (reg : registry) (name : list Z) : option (Z * MessageQueue) :=
  snd <$> list_find (fun e => name = q_name (snd e)) reg.

(** The queue's address, or 0. *)
Definition mq_open h (reg : registry) (name : list Z) : Z * registry * H :=
  match find_queue reg name with
  | Some (ptr, _) => (ptr, reg, h)
  | None =>
      let '(node, h) := nh_alloc h sizeof_MessageQueue in
      if node =? 0 then (0, reg, h)
      else (node, (node, mkMq (stored_name name) [] 0 10 [] []) :: reg, h)
  end.

Fixpoint remove_queue (reg : registry) (name : list Z) : option (Z * MessageQueue * registry) :=
  match reg with
  | [] => None
  | (p, q) :: reg =>
      if decide (name = q_name q) then Some (p, q, reg)
      else match remove_queue reg name with
           | Some (p', q', reg') => Some (p', q', (p, q) :: reg')
           | None => None
           end
  end.

Definition mq_unlink h (reg : registry) (name : list Z) : Z * registry * H :=
  match remove_queue reg name with
  | None => (-1, reg, h)
  | Some (p, q, reg) =>
      let h := foldl (fun h m => nh_free (nh_free h (m_data_node m)) (m_node m)) h (q_msgs q) in
      (0, reg, nh_free h p)
  end.

(** ** A run of calls on one queue *)
Inductive mq_call := Send (curr : Z) (data : list Z) | Receive (curr : Z) (len : Z).

(** What a run saw: the messages accepted and the byte strings delivered. *)
Fixpoint mq_run h q (cs : list mq_call) : list (list Z) * list (Z * list Z) * MessageQueue * H :=
  match cs with
  | [] => ([], [], q, h)
  | Send c d :: cs =>
      match mq_send h q c d with
      | (MqBlock q, h) => mq_run h q cs
      | (MqReturn r q _, h) =>
          let '(sent, got, q, h) := mq_run h q cs in
          (if r =? 0 then d :: sent else sent, got, q, h)
      end
  | Receive c len :: cs =>
      match mq_receive h q c len with
      | (MqBlock q, h) => mq_run h q cs
      | (MqReturn out q _, h) =>
          let '(sent, got, q, h) := mq_run h q cs in (sent, (len, out) :: got, q, h)
      end
  end.

Definition mq_wf q : Prop := q_count q = Z.of_nat (length (q_msgs q)) /\ q_count q <= q_max q /\ q_max q = 10.

(** A delivery is its message cut to the receiver's length. *)
Definition delivered (d : list Z) (r : Z * list Z) : Prop :=
  snd r = take (Z.to_nat (Z.min (Z.of_nat (length d)) (fst r))) d.

Lemma mq_send_spec h q curr d : mq_wf q ->
  match fst (mq_send h q curr d) with
  | MqBlock q' => q_count q = 10 /\ mq_wf q' /\ q_msgs q' = q_msgs q /\ head (q_senders q') = Some curr
  | MqReturn r q' w => mq_wf q' /\ w = (if r =? 0 then head (q_receivers q) else None) /\
      (m_data <$> q_msgs q') = (m_data <$> q_msgs q) ++ (if r =? 0 then [d] else [])
  end.
Proof.
  intros (Hc & Hm & H10). unfold mq_send. destruct (Z.leb_spec (q_max q) (q_count q)).
  { simpl. split_and!; try done; lia. }
  destruct (nh_alloc h sizeof_Message) as [n1 h1]. destruct (Z.eqb_spec n1 0).
  { simpl. split_and!; try done. by rewrite app_nil_r. }
  destruct (nh_alloc h1 _) as [n2 h2]. destruct (Z.eqb_spec n2 0).
  { simpl. split_and!; try done. by rewrite app_nil_r. }
  assert (forall rs, mq_wf (mkMq (q_name q) (q_msgs q ++ [mkMsg n1 n2 d]) (q_count q + 1) (q_max q) rs (q_senders q))) as Hwf
    by (intros rs; unfold mq_wf; simpl; rewrite length_app; simpl; lia).
  destruct (q_receivers q) as [|t rest]; simpl; (split; [apply Hwf|]; split; [done|]); by rewrite fmap_app.
Qed.

Lemma mq_receive_spec h q curr len : mq_wf q ->
  match fst (mq_receive h q curr len) with
  | MqBlock q' => q_msgs q = [] /\ mq_wf q' /\ q_msgs q' = [] /\ head (q_receivers q') = Some curr
  | MqReturn out q' w => mq_wf q' /\ w = head (q_senders q) /\
      exists d, (m_data <$> q_msgs q) = d :: (m_data <$> q_msgs q') /\ delivered d (len, out)
  end.
Proof.
  intros (Hc & Hm & H10). unfold mq_receive. destruct (q_msgs q) as [|msg msgs] eqn:Eq.
  { simpl. split_and!; try done; unfold mq_wf; simpl; lia. }
  assert (forall ss, mq_wf (mkMq (q_name q) msgs (q_count q - 1) (q_max q) (q_receivers q) ss)) as Hwf
    by (intros ss; unfold mq_wf; simpl in *; lia).
  assert (delivered (m_data msg) (len, take (Z.to_nat (if Z.of_nat (length (m_data msg)) <? len
    then Z.of_nat (length (m_data msg)) else len)) (m_data msg))) as Hd.
  { unfold delivered. simpl. do 2 f_equal. destruct (Z.ltb_spec (Z.of_nat (length (m_data msg))) len); lia. }
  destruct (q_senders q) as [|t rest]; simpl; (split; [apply Hwf|]; split; [done|]); by exists (m_data msg).
Qed.

(** A queue delivers messages whole, once and in the order they were accepted:
    in any run of sends and receives, the messages queued at the start followed
    by those accepted are those delivered (each cut to the receiver's length)
    followed by those still queued, and the queue never holds more than its 10
    messages. *)
Theorem mq_fifo h q cs : mq_wf q ->
  let '(sent, got, q', _) := mq_run h q cs in
  mq_wf q' /\ exists ds, Forall2 delivered ds got /\
    (m_data <$> q_msgs q) ++ sent = ds ++ (m_data <$> q_msgs q').
Proof.
  revert h q. induction cs as [|c cs IH]; intros h q Hq.
  { simpl. split; [done|]. exists []. split; [constructor|by rewrite app_nil_r]. }
  destruct c as [c d|c len]; cbn [mq_run].
  - pose proof (mq_send_spec h q c d Hq) as Hs. destruct (mq_send h q c d) as [[q1|r q1 w] h1]; cbn [fst] in Hs.
    + destruct Hs as (_ & Hw & <- & _). by apply IH.
    + destruct Hs as (Hw & _ & Hm). specialize (IH h1 q1 Hw).
      destruct (mq_run h1 q1 cs) as [[[sent got] q2] h2]. destruct IH as (Hw2 & ds & Hds & He).
      split; [done|]. exists ds. split; [done|]. rewrite <- He, Hm. destruct (r =? 0); [|by rewrite app_nil_r].
      by rewrite <- app_assoc.
  - pose proof (mq_receive_spec h q c len Hq) as Hs.
    destruct (mq_receive h q c len) as [[q1|out q1 w] h1]; cbn [fst] in Hs.
    + destruct Hs as (E1 & Hw & E2 & _). specialize (IH h1 q1 Hw). by rewrite E1, <- E2.
    + destruct Hs as (Hw & _ & d & Hm & Hd). specialize (IH h1 q1 Hw).
      destruct (mq_run h1 q1 cs) as [[[sent got] q2] h2]. destruct IH as (Hw2 & ds & Hds & He).
      split; [done|]. exists (d :: ds). split; [by constructor|]. rewrite Hm. simpl. by rewrite He.
Qed.

Lemma find_queue_head p q reg name :
  find_queue ((p, q) :: reg) name = if decide (name = q_name q) then Some (p, q) else find_queue reg name.
Proof.
  unfold find_queue. simpl. destruct (decide _); [done|]. by destruct (list_find _ reg) as [[i e]|].
Qed.

(** Opening a queue under a name of at most 31 bytes creates it at most once: the
    second [mq_open] returns the same queue and changes nothing.  A longer name is
    stored cut to 31 bytes and compared in full, so as long as no queue is found
    under it every [mq_open] makes one more queue. *)
Theorem mq_open_twice h reg name :
  let '(p1, reg1, h1) := mq_open h reg name in
  let '(p2, reg2, h2) := mq_open h1 reg1 name in
  p1 <> 0 ->
  if (length name <=? 31)%nat then p2 = p1 /\ reg2 = reg1 /\ h2 = h1
  else find_queue reg name = None ->
    find_queue reg1 name = None /\ (p2 <> 0 -> length reg2 = S (S (length reg))).
Proof.
  unfold mq_open at 1. destruct (find_queue reg name) as [[p q]|] eqn:Ef.
  { unfold mq_open. rewrite Ef. intros _. by destruct (_ <=? _)%nat. }
  destruct (nh_alloc h sizeof_MessageQueue) as [node h1]. destruct (Z.eqb_spec node 0) as [->|Hn].
  { by destruct (mq_open h1 reg name) as [[p2 reg2] h2]. }
  unfold mq_open. rewrite find_queue_head. cbn [q_name]. unfold stored_name.
  destruct (Nat.leb_spec (length name) 31) as [Hle|Hgt].
  - rewrite take_ge by lia. rewrite decide_True by done. done.
  - rewrite decide_False.
    2: { intros E. apply (f_equal length) in E. rewrite length_take in E. lia. }
    rewrite Ef. destruct (nh_alloc h1 sizeof_MessageQueue) as [node2 h2].
    destruct (Z.eqb_spec node2 0); by split.
Qed.
End Mq.

(** Numbered nodes, for examples. *)
#[local] Instance counter_nodes : NodeHeap Z := { nh_alloc h _ := (h, h + 1); nh_free h _ := h }.

Lemma mq_fifo_witness :
  let q := mkMq [113] [] 0 10 [] [] in
  let '(sent, got, q', _) := mq_run 1 q [Receive 5 8; Send 6 [1; 2; 3]; Send 6 [4]; Receive 5 2] in
  got = [(2, [1; 2])] /\ mq_wf q' /\
  exists ds, Forall2 delivered ds got /\ [] ++ sent = ds ++ (m_data <$> q_msgs q').
Proof.
  intros q.
  pose proof (mq_fifo 1 q [Receive 5 8; Send 6 [1; 2; 3]; Send 6 [4]; Receive 5 2]) as Hf.
  specialize (Hf ltac:(unfold mq_wf; simpl; lia)).
  destruct (mq_run 1 q _) as [[[sent got] q'] h'] eqn:E. split; [|exact Hf].
  vm_compute in E. injection E as _ <- _ _. reflexivity.
Defined.

Lemma mq_open_twice_witness : length (snd (fst (mq_open 5 (snd (fst (mq_open 4 [] (replicate 40 97)))) (replicate 40 97)))) = 2%nat.
Proof.
  pose proof (mq_open_twice 4 [] (replicate 40 97)) as Ht.
  change (mq_open 4 [] (replicate 40 97)) with
    (4, [(4, mkMq (replicate 31 97) [] 0 10 [] [])], 5) in *. cbn [fst snd] in *.
  set (reg1 := [(4, mkMq (replicate 31 97) [] 0 10 [] [])]) in *.
  destruct (mq_open 5 reg1 (replicate 40 97)) as [[p2 reg2] h2] eqn:E. cbn [fst snd].
  apply (Ht ltac:(discriminate) eq_refl). vm_compute in E. injection E as <- _ _. discriminate.
Defined.
