(* ===== verification/Vfs.v ===== *)
(** Paths and the mount table, [src/src/fs/vfs.c].

    A C string is the list of its bytes before the NUL.  [resolve_path] works in
    fixed buffers (256 bytes for the joined path, 32 names of 32 bytes); a write
    beyond one of them is the result [Overrun].  [vfs_navigate] calls the file
    system of each node, a parameter here. *)
From S2P Require Import Prelude.

Definition SLASH : Z := 47.
Definition DOT : list Z := [46].
Definition DOTDOT : list Z := [46; 46].

(** ** [resolve_path] *)
Inductive resolve_result := Resolved (out : list Z) | Overrun | NoMemory.

(** The path to normalise: the input, or the working directory and the input. *)
Definition join_path (cwd inp : list Z) : list Z :=
  match inp with
  | c :: _ => if c =? SLASH then inp else
      (if (1 <? length cwd)%nat && negb (default 0 (last cwd) =? SLASH) then cwd ++ [SLASH] else cwd) ++ inp
  | [] => if (1 <? length cwd)%nat && negb (default 0 (last cwd) =? SLASH) then cwd ++ [SLASH] else cwd
  end.

(** The end of a component: [name_buf] holds [name], [stack] the names so far. *)
Definition end_component (name : list Z) (stack : list (list Z)) : option (list (list Z)) :=
  if (31 <? length name)%nat then None
  else if decide (name = []) then Some stack
  else if decide (name = DOTDOT) then Some (removelast stack)
  else if decide (name = DOT) then Some stack
  else if (length stack <? 32)%nat then Some (stack ++ [name]) else None.

Fixpoint rp_loop (l name : list Z) (stack : list (list Z)) : option (list (list Z)) :=
  match l with
  | [] => end_component name stack
  | c :: l =>
      if c =? SLASH then
        match end_component name stack with
        | Some stack => rp_loop l [] stack
        | None => None
        end
      else if (length name <? 32)%nat then rp_loop l (name ++ [c]) stack else None
  end.

(** The rebuilt path: ["/"], then the names with ["/"] between them. *)
Fixpoint join_names (names : list (list Z)) : list Z :=
  match names with
  | [] => []
  | [n] => n
  | n :: names => n ++ SLASH :: join_names names
  end.
Definition render (names : list (list Z)) : list Z := SLASH :: join_names names.

(** [stack_ok]: whether [kmalloc] of the name stack succeeds (that of the path
    buffer is not checked by the code and assumed to succeed). *)
Definition resolve_path (stack_ok : bool) (cwd inp : list Z) : resolve_result :=
  let tmp := join_path cwd inp in
  if (255 <? length tmp)%nat then Overrun
  else if negb stack_ok then NoMemory
  else
    let body := match tmp with c :: l => if c =? SLASH then l else tmp | [] => [] end in
    match rp_loop body [] [] with
    | Some names => Resolved (render names)
    | None => Overrun
    end.

(** ** Reference: components and normal form *)
Fixpoint split_slash (cur l : list Z) : list (list Z) :=
  match l with
  | [] => [cur]
  | c :: l => if c =? SLASH then cur :: split_slash [] l else split_slash (cur ++ [c]) l
  end.

Definition norm_step (stack : list (list Z)) (name : list Z) : list (list Z) :=
  if decide (name = []) then stack
  else if decide (name = DOTDOT) then removelast stack
  else if decide (name = DOT) then stack
  else stack ++ [name].

Definition normalize (path : list Z) : list (list Z) := foldl norm_step [] (split_slash [] path).

(** A component of a canonical path. *)
Definition plain_name (n : list Z) : Prop := n <> [] /\ n <> DOT /\ n <> DOTDOT /\ SLASH ∉ n.

Section Resolve.
Implicit Types (l name cur cwd inp : list Z) (stack names : list (list Z)).

Lemma end_component_spec name stack : (length name <= 31)%nat -> (length stack < 32)%nat ->
  end_component name stack = Some (norm_step stack name).
Proof.
  intros Hn Hs. unfold end_component, norm_step.
  rewrite (proj2 (Nat.ltb_ge 31 (length name))) by lia.
  repeat case_decide; try done. by rewrite (proj2 (Nat.ltb_lt _ _)).
Qed.

Lemma removelast_length stack : (length (removelast stack) <= length stack)%nat.
Proof. induction stack as [|x [|y s] IH]; simpl in *; lia. Qed.

Lemma norm_step_length stack name : (length (norm_step stack name) <= S (length stack))%nat.
Proof.
  unfold norm_step. pose proof (removelast_length stack).
  repeat case_decide; rewrite ?length_app; simpl; lia.
Qed.

Lemma split_slash_cur cur l n : n ∈ split_slash cur l -> l = [] -> n = cur.
Proof. intros H ->. simpl in H. by apply list_elem_of_singleton in H. Qed.

Lemma split_slash_head cur l : exists n ns, split_slash cur l = n :: ns /\ (length cur <= length n)%nat.
Proof.
  revert cur. induction l as [|c l IH]; intros cur; simpl; [by exists cur, []|].
  destruct (c =? SLASH); [by exists cur, (split_slash [] l)|].
  destruct (IH (cur ++ [c])) as (n & ns & -> & Hl). exists n, ns. split; [done|].
  rewrite length_app in Hl. simpl in Hl. lia.
Qed.

(** The loop is the reference as long as every component fits. *)
Lemma rp_loop_spec l cur stack :
  Forall (fun n => (length n <= 31)%nat) (split_slash cur l) ->
  (length stack + length (split_slash cur l) <= 32)%nat ->
  rp_loop l cur stack = Some (foldl norm_step stack (split_slash cur l)).
Proof.
  revert cur stack. induction l as [|c l IH]; intros cur stack Hn Hs; simpl in *.
  - apply Forall_cons in Hn as [Hn _]. apply end_component_spec; [done|lia].
  - destruct (c =? SLASH) eqn:E.
    + apply Forall_cons in Hn as [Hn1 Hn2]. simpl in Hs. rewrite end_component_spec by (done || lia).
      pose proof (norm_step_length stack cur). apply IH; [done|lia].
    + destruct (split_slash_head (cur ++ [c]) l) as (n & ns & En & Hl).
      rewrite En in Hn. apply Forall_cons in Hn as [Hn1 Hn2]. rewrite length_app in Hl. simpl in Hl.
      rewrite (proj2 (Nat.ltb_lt (length cur) 32)) by lia.
      apply IH; [rewrite En; by constructor|done].
Qed.

Lemma split_slash_no_slash cur l : SLASH ∉ cur -> Forall (fun n => SLASH ∉ n) (split_slash cur l).
Proof.
  revert cur. induction l as [|c l IH]; intros cur Hc; simpl; [by repeat constructor|].
  destruct (Z.eqb_spec c SLASH) as [->|Hne].
  - constructor; [done|]. apply IH. apply not_elem_of_nil.
  - apply IH. intros [?|Hx]%elem_of_app; [done|]. apply list_elem_of_singleton in Hx. congruence.
Qed.

Lemma removelast_Forall {X} (P : X -> Prop) (l : list X) : Forall P l -> Forall P (removelast l).
Proof.
  induction l as [|x [|y l] IH]; intros H; [done|constructor|].
  apply Forall_cons in H as [Hx Hl]. change (Forall P (x :: removelast (y :: l))). constructor; auto.
Qed.

Lemma normalize_plain stack ns : Forall plain_name stack -> Forall (fun n => SLASH ∉ n) ns ->
  Forall plain_name (foldl norm_step stack ns).
Proof.
  revert stack. induction ns as [|n ns IH]; intros stack Hs Hn; [done|].
  apply Forall_cons in Hn as [Hn1 Hn]. simpl. apply IH; [|done]. unfold norm_step.
  repeat case_decide; try done; [by apply removelast_Forall|].
  apply Forall_app. split; [done|]. by repeat constructor.
Qed.

(** Splitting a rendered path gives its names back. *)
Lemma split_name cur n l : SLASH ∉ n -> split_slash cur (n ++ SLASH :: l) = (cur ++ n) :: split_slash [] l.
Proof.
  revert cur. induction n as [|c n IH]; intros cur Hn; simpl; [by rewrite app_nil_r|].
  apply not_elem_of_cons in Hn as [Hc Hn]. rewrite (proj2 (Z.eqb_neq c SLASH)) by congruence.
  by rewrite IH, <- app_assoc.
Qed.
Lemma split_last cur n : SLASH ∉ n -> split_slash cur n = [cur ++ n].
Proof.
  revert cur. induction n as [|c n IH]; intros cur Hn; simpl; [by rewrite app_nil_r|].
  apply not_elem_of_cons in Hn as [Hc Hn]. rewrite (proj2 (Z.eqb_neq c SLASH)) by congruence.
  by rewrite IH, <- app_assoc.
Qed.

Lemma split_join names : names <> [] -> Forall plain_name names -> split_slash [] (join_names names) = names.
Proof.
  induction names as [|n [|n' names] IH]; intros Hne Hp; [done| |].
  - apply Forall_cons in Hp as [(_ & _ & _ & Hs) _]. by apply split_last.
  - apply Forall_cons in Hp as [(_ & _ & _ & Hs) Hp].
    change (join_names (n :: n' :: names)) with (n ++ SLASH :: join_names (n' :: names)).
    rewrite split_name by done. simpl app. f_equal. by apply IH.
Qed.

Lemma foldl_plain stack names : Forall plain_name names -> foldl norm_step stack names = stack ++ names.
Proof.
  revert stack. induction names as [|n names IH]; intros stack Hp; simpl; [by rewrite app_nil_r|].
  apply Forall_cons in Hp as [(H1 & H2 & H3 & _) Hp].
  rewrite IH by done. unfold norm_step. rewrite !decide_False by done. by rewrite <- app_assoc.
Qed.

(** Normalising a canonical path changes nothing. *)
Lemma normalize_join names : Forall plain_name names -> normalize (join_names names) = names.
Proof.
  intros Hp. unfold normalize. destruct names as [|n names]; [done|].
  rewrite split_join by done. by rewrite foldl_plain.
Qed.

(** What the buffers can hold. *)
Definition path_body (tmp : list Z) : list Z :=
  match tmp with c :: l => if c =? SLASH then l else tmp | [] => [] end.
Definition path_fits (tmp : list Z) : Prop :=
  (length tmp <= 255)%nat /\ Forall (fun n => (length n <= 31)%nat) (split_slash [] (path_body tmp)) /\
  (length (split_slash [] (path_body tmp)) <= 32)%nat.

Lemma resolve_path_spec cwd inp : path_fits (join_path cwd inp) ->
  resolve_path true cwd inp = Resolved (render (normalize (path_body (join_path cwd inp)))) /\
  Forall plain_name (normalize (path_body (join_path cwd inp))).
Proof.
  intros (H1 & H2 & H3). unfold resolve_path. rewrite (proj2 (Nat.ltb_ge _ _)) by done. simpl negb.
  fold (path_body (join_path cwd inp)). cbv iota. rewrite rp_loop_spec by (done || (simpl; lia)).
  split; [done|]. apply normalize_plain; [constructor|]. apply split_slash_no_slash, not_elem_of_nil.
Qed.

(** C14: For a path the buffers can hold (at most 255 bytes, and at most 32 components
    of at most 31 bytes) [resolve_path] gives the canonical absolute path: a leading slash and the
    names that remain after dropping empty and [.] components and letting each
    [..] remove the name before it (at the root it removes nothing), so no name of
    the result is empty, [.], [..] or contains a slash; and resolving the result
    again, from any working directory, gives it back. *)
Theorem resolve_path_correct cwd inp cwd' :
  let tmp := join_path cwd inp in
  path_fits tmp ->
  let names := normalize (path_body tmp) in
  resolve_path true cwd inp = Resolved (render names) /\ Forall plain_name names /\
  (path_fits (render names) -> resolve_path true cwd' (render names) = Resolved (render names)).
Proof.
  intros tmp Hf names. destruct (resolve_path_spec cwd inp Hf) as [H1 H2].
  split; [done|]. split; [done|]. intros Hf'.
  assert (join_path cwd' (render names) = render names) as Ej by done.
  destruct (resolve_path_spec cwd' (render names)) as [H3 _]; [by rewrite Ej|].
  rewrite H3, Ej. change (path_body (render names)) with (join_names names).
  by rewrite normalize_join.
Qed.
End Resolve.

Lemma resolve_path_correct_witness :
  let cwd := [47; 97; 47; 98] in
  let inp := [46; 46; 47; 46; 47; 47; 99] in
  resolve_path true cwd inp = Resolved [47; 97; 47; 99] /\
  resolve_path true [47] [47; 97; 47; 99] = Resolved [47; 97; 47; 99].
Proof.
  intros cwd inp. destruct (resolve_path_correct cwd inp [47]) as (H1 & _ & H2).
  - split; [vm_compute; lia|]. split; [repeat constructor; vm_compute; lia|vm_compute; lia].
  - split; [exact H1|]. apply H2.
    split; [vm_compute; lia|]. split; [repeat constructor; vm_compute; lia|vm_compute; lia].
Defined.

(** A name that does not fit [name_buf]. *)
Lemma rp_loop_overrun l cur stack : SLASH ∉ l -> (31 < length cur + length l)%nat -> rp_loop l cur stack = None.
Proof.
  revert cur. induction l as [|c l IH]; intros cur Hl Hn; simpl in *.
  - unfold end_component. by rewrite (proj2 (Nat.ltb_lt 31 (length cur))) by lia.
  - apply not_elem_of_cons in Hl as [Hc Hl]. rewrite (proj2 (Z.eqb_neq c SLASH)) by congruence.
    destruct (length cur <? 32)%nat; [|done]. apply IH; [done|]. rewrite length_app. simpl. lia.
Qed.

(** A path with one component of 32 to 254 bytes overruns the 32-byte [name_buf]
    of [resolve_path], whatever the working directory. *)
Theorem resolve_path_long_name cwd n : SLASH ∉ n -> (32 <= length n <= 254)%nat ->
  resolve_path true cwd (SLASH :: n) = Overrun.
Proof.
  intros Hn Hl. unfold resolve_path. change (join_path cwd (SLASH :: n)) with (SLASH :: n).
  rewrite (proj2 (Nat.ltb_ge 255 _)) by (simpl; lia). simpl.
  by rewrite rp_loop_overrun by (done || (simpl; lia)).
Qed.

Lemma resolve_path_long_name_witness : resolve_path true [47] (47 :: replicate 32 97) = Overrun.
Proof.
  apply (resolve_path_long_name [47] (replicate 32 97)).
  - intros Hin. apply list_elem_of_In in Hin. vm_compute in Hin. tauto || (repeat destruct Hin as [Hin|Hin]; discriminate || tauto).
  - vm_compute. lia.
Defined.

(** ** Mounts *)
Definition MAX_MOUNTPOINTS : nat := 4.
Definition VFS_DIRECTORY : Z := 2.

Section Navigate.
(** A node of some file system: its flags and its [finddir] ([None]: not set).
    The walk frees an intermediate node whose flags have [VFS_NODE_AUTOFREE]
    (0x10); it does so only past the test [flags == VFS_DIRECTORY] (exactly 2), so
    that branch is never taken and the walk changes no state. *)
Context {N : Type} (n_flags : N -> Z) (n_finddir : N -> option (list Z -> option N)).
Implicit Types (path rel name : list Z) (curr : N).

Record mount_point := Mount { mp_path : list Z; mp_root : option N }.

Definition vfs_init : list mount_point := [].

(** -1 when the table is full; [None] when the path overruns the slot's 64 bytes. *)
Definition vfs_mount (mounts : list mount_point) path (root : option N) : option (Z * list mount_point) :=
  if (MAX_MOUNTPOINTS <=? length mounts)%nat then Some (-1, mounts)
  else if (64 <=? length path)%nat then None
  else Some (0, mounts ++ [Mount path root]).

(** The mount's path is a prefix of [path] that ends at a component boundary. *)
Definition mount_matches path (m : mount_point) : bool :=
  bool_decide (mp_path m `prefix_of` path) &&
  (let next_char := default 0 (path !! length (mp_path m)) in
   (next_char =? SLASH) || (next_char =? 0) || (length (mp_path m) =? 1)%nat).

Definition best_mount (mounts : list mount_point) path : Z * option N :=
  foldl (fun '(best_len, best_root) m =>
    if mount_matches path m && (best_len <? Z.of_nat (length (mp_path m)))
    then (Z.of_nat (length (mp_path m)), mp_root m) else (best_len, best_root)) (-1, None) mounts.

Fixpoint skip_slashes rel : list Z :=
  match rel with
  | c :: l => if c =? SLASH then skip_slashes l else rel
  | [] => []
  end.

(** [while (rel_path[i] != '/' && rel_path[i] != 0) if (j < 127) name[j++] = rel_path[i++];] *)
Definition name_step : list Z * list Z -> (list Z * list Z) + (list Z * list Z) := fun '(name, rel) =>
  match rel with
  | [] => inr (name, rel)
  | c :: l =>
      if c =? SLASH then inr (name, rel)
      else if (length name <? 127)%nat then inl (name ++ [c], l) else inl (name, rel)
  end.

(** One round of the walk; [inr None] is NULL. *)
Definition nav_step (fuel : nat) : N * list Z -> option ((N * list Z) + option N) := fun '(curr, rel) =>
  match rel with
  | [] => Some (inr (Some curr))
  | _ =>
      match skip_slashes rel with
      | [] => Some (inr (Some curr))
      | rel =>
          match loop fuel name_step ([], rel) with
          | None => None
          | Some (name, rel) =>
              if negb (n_flags curr =? VFS_DIRECTORY) then Some (inr None)
              else match n_finddir curr with
                   | None => Some (inr None)
                   | Some f => match f name with
                               | None => Some (inr None)
                               | Some next => Some (inl (next, rel))
                               end
                   end
          end
      end
  end.

Fixpoint nav_loop (fuel : nat) (s : N * list Z) : option (option N) :=
  match fuel with
  | O => None
  | S n => match nav_step fuel s with
           | None => None
           | Some (inl s) => nav_loop n s
           | Some (inr r) => Some r
           end
  end.

(** [None]: the fuel ran out; [Some None]: NULL. *)
Definition vfs_navigate (fuel : nat) (mounts : list mount_point) path : option (option N) :=
  match best_mount mounts path with
  | (_, None) => Some None
  | (best_len, Some root) => nav_loop fuel (root, drop (Z.to_nat best_len) path)
  end.

(** ** Reference: follow the components *)
Fixpoint follow (names : list (list Z)) curr : option N :=
  match names with
  | [] => Some curr
  | n :: names =>
      if n_flags curr =? VFS_DIRECTORY then
        match n_finddir curr with
        | Some f => match f n with Some next => follow names next | None => None end
        | None => None
        end
      else None
  end.

Definition components rel : list (list Z) := filter (fun n => n <> []) (split_slash [] rel).

Lemma components_skip rel : components (skip_slashes rel) = components rel.
Proof. induction rel as [|c rel IH]; [done|]. simpl. destruct (Z.eqb_spec c SLASH) as [->|]; [|done]. rewrite IH. done. Qed.

(** The first component of a string that does not start with a slash. *)
Fixpoint take_name rel : list Z * list Z :=
  match rel with
  | [] => ([], [])
  | c :: l => if c =? SLASH then ([], rel) else let '(n, r) := take_name l in (c :: n, r)
  end.

Lemma take_name_split cur rel : split_slash cur rel =
  let '(n, r) := take_name rel in
  match r with [] => [cur ++ n] | _ :: r => (cur ++ n) :: split_slash [] r end.
Proof.
  revert cur. induction rel as [|c rel IH]; intros cur; simpl; [by rewrite app_nil_r|].
  destruct (c =? SLASH); [by rewrite app_nil_r|]. rewrite IH.
  destruct (take_name rel) as [n [|d r]]; by rewrite <- app_assoc.
Qed.

Lemma take_name_rest rel : let '(n, r) := take_name rel in
  rel = n ++ r /\ match r with [] => True | c :: _ => c = SLASH end.
Proof.
  induction rel as [|c rel IH]; simpl; [done|]. destruct (Z.eqb_spec c SLASH); [done|].
  destruct (take_name rel) as [nm r]. destruct IH as [-> ?]. done.
Qed.

Lemma name_loop name rel fuel : (length name + length (fst (take_name rel)) <= 127)%nat ->
  (length (fst (take_name rel)) < fuel)%nat ->
  loop fuel name_step (name, rel) = Some (name ++ fst (take_name rel), snd (take_name rel)).
Proof.
  revert name fuel. induction rel as [|c rel IH]; intros name fuel Hn Hf;
    (destruct fuel as [|fuel]; [lia|]); cbn [loop name_step take_name] in *.
  { simpl. by rewrite app_nil_r. }
  destruct (c =? SLASH); [simpl; by rewrite app_nil_r|].
  destruct (take_name rel) as [nm r] eqn:E. cbn [fst snd] in *. simpl in Hn, Hf.
  rewrite (proj2 (Nat.ltb_lt _ _)) by lia. rewrite IH; [by rewrite <- app_assoc|rewrite length_app; simpl; lia|lia].
Qed.

(** A name of 128 bytes or more: the inner loop stops making progress. *)
Lemma name_loop_spins name rel fuel : (128 <= length name + length (fst (take_name rel)))%nat ->
  (length name <= 127)%nat -> loop fuel name_step (name, rel) = None.
Proof.
  revert name rel. induction fuel as [|fuel IH]; intros name rel Hn Hle; [done|].
  destruct rel as [|c rel]; cbn [loop name_step take_name] in *; [simpl in Hn; lia|].
  destruct (c =? SLASH) eqn:E; [simpl in Hn; lia|].
  destruct (take_name rel) as [n r] eqn:Et. cbn [fst] in Hn. simpl in Hn.
  destruct (Nat.ltb_spec (length name) 127).
  - apply IH; rewrite ?Et; cbn [fst]; rewrite length_app; simpl; lia.
  - apply IH; [|done]. cbn [take_name]. rewrite E, Et. cbn [fst]. simpl. lia.
Qed.

Lemma skip_slashes_head rel c l : skip_slashes rel = c :: l -> c <> SLASH.
Proof.
  induction rel as [|d rel IH]; [done|]. simpl. destruct (Z.eqb_spec d SLASH); [done|]. congruence.
Qed.

Lemma skip_slashes_length rel : (length (skip_slashes rel) <= length rel)%nat.
Proof. induction rel as [|d rel IH]; [done|]. simpl. destruct (_ =? _); simpl; lia. Qed.

Lemma nav_loop_spec fuel curr rel : Forall (fun n => (length n <= 127)%nat) (components rel) ->
  (length rel < fuel)%nat -> nav_loop fuel (curr, rel) = Some (follow (components rel) curr).
Proof.
  revert curr rel. induction fuel as [|fuel IH]; intros curr rel Hn Hf; [lia|].
  cbn [nav_loop]. unfold nav_step. destruct rel as [|c0 rel0]; [done|].
  set (rel := c0 :: rel0) in *. rewrite <- components_skip in Hn |- *.
  pose proof (skip_slashes_length rel) as Hlen.
  destruct (skip_slashes rel) as [|c l] eqn:Es; [done|]. set (rs := c :: l) in *.
  pose proof (skip_slashes_head rel c l Es) as Hc.
  pose proof (take_name_split [] rs) as Hsp. pose proof (take_name_rest rs) as Hrest.
  destruct (take_name rs) as [n r] eqn:Et. destruct Hrest as [Ers Hr].
  assert (n <> []) as Hne by (intros ->; unfold rs in Ers; simpl in Ers; subst r; done).
  assert (components rs = n :: components r) as Hcomp.
  { unfold components at 1. rewrite Hsp. simpl app. destruct r as [|d r].
    - by rewrite filter_cons_True by done.
    - subst d. rewrite filter_cons_True by done. f_equal. }
  rewrite Hcomp in Hn |- *. apply Forall_cons in Hn as [Hn1 Hn2].
  assert (length rs = length n + length r)%nat by (rewrite Ers at 1; apply length_app).
  rewrite name_loop by (rewrite Et; simpl; lia). rewrite Et. cbn [fst snd app follow].
  destruct (n_flags curr =? VFS_DIRECTORY); [|done]. simpl negb. cbv iota.
  destruct (n_finddir curr) as [f|]; [|done]. destruct (f n) as [next|]; [|done].
  assert (length n <> 0)%nat by by rewrite length_zero_iff_nil.
  apply IH; [done|lia].
Qed.

(** The mount chosen: no matching mount has a longer path. *)
Lemma best_mount_acc mounts path acc :
  let f := fun '(best_len, best_root) m =>
    if mount_matches path m && (best_len <? Z.of_nat (length (mp_path m)))
    then (Z.of_nat (length (mp_path m)), mp_root m) else (best_len, best_root) in
  fst acc <= fst (foldl f acc mounts) /\
  (forall m, m ∈ mounts -> mount_matches path m = true ->
     Z.of_nat (length (mp_path m)) <= fst (foldl f acc mounts)) /\
  (foldl f acc mounts = acc \/ exists m, m ∈ mounts /\ mount_matches path m = true /\
     foldl f acc mounts = (Z.of_nat (length (mp_path m)), mp_root m)).
Proof.
  intros f. revert acc. induction mounts as [|m mounts IH]; intros [bl br]; cbn [foldl].
  { split; [lia|]. split; [intros m Hm; by apply elem_of_nil in Hm|by left]. }
  destruct (IH (f (bl, br) m)) as (H1 & H2 & H3).
  assert (bl <= fst (f (bl, br) m) /\
    (mount_matches path m = true -> Z.of_nat (length (mp_path m)) <= fst (f (bl, br) m)) /\
    (f (bl, br) m = (bl, br) \/
     mount_matches path m = true /\ f (bl, br) m = (Z.of_nat (length (mp_path m)), mp_root m)))
    as (F1 & F2 & F3).
  { unfold f. destruct (mount_matches path m); simpl; [|split; [lia|]; split; [done|by left]].
    destruct (Z.ltb_spec bl (Z.of_nat (length (mp_path m)))); simpl; (split; [lia|]; split; [lia|]); auto. }
  cbn [fst] in *. split; [lia|]. split.
  - intros m' [->|Hm']%elem_of_cons Hmm; [specialize (F2 Hmm); lia|by apply H2].
  - destruct H3 as [->|(m' & Hm' & ? & ->)]; [|right; exists m'; split; [by right|done]].
    destruct F3 as [->|[Hmm ->]]; [by left|right]. exists m. split; [by left|done].
Qed.

(** [vfs_navigate] picks the mount with the longest path that is a prefix of the
    given one ending at a component boundary, and from its root follows the
    remaining components one [finddir] at a time, ignoring repeated slashes; every
    node on the way must be a directory.  It returns whenever no component is
    longer than 127 bytes. *)
Theorem vfs_navigate_correct mounts path fuel :
  Forall (fun n => (length n <= 127)%nat) (components (drop (Z.to_nat (fst (best_mount mounts path))) path)) ->
  (length path < fuel)%nat ->
  let '(len, root) := best_mount mounts path in
  vfs_navigate fuel mounts path =
    Some (match root with Some r => follow (components (drop (Z.to_nat len) path)) r | None => None end) /\
  (forall m, m ∈ mounts -> mount_matches path m = true -> Z.of_nat (length (mp_path m)) <= len) /\
  (root <> None -> exists m, m ∈ mounts /\ mount_matches path m = true /\ mp_root m = root /\
     len = Z.of_nat (length (mp_path m))).
Proof.
  intros Hc Hf. pose proof (best_mount_acc mounts path (-1, None)) as (_ & H2 & H3).
  unfold vfs_navigate. fold (best_mount mounts path) in H2, H3.
  destruct (best_mount mounts path) as [len root]. cbn [fst] in *. split; [|split; [done|]].
  - destruct root as [r|]; [|done]. apply nav_loop_spec; [done|]. rewrite length_drop. lia.
  - intros Hr. destruct H3 as [?|(m & Hm & Hmm & ?)]; [by simplify_eq|]. exists m. by simplify_eq.
Qed.

(** C16: A path whose first component below the mount is 128 bytes or longer makes
    [vfs_navigate] loop forever: no number of iterations gives a result. *)
Theorem vfs_navigate_long_name_hangs mounts path len root c l :
  best_mount mounts path = (len, Some root) ->
  skip_slashes (drop (Z.to_nat len) path) = c :: l ->
  (128 <= length (fst (take_name (c :: l))))%nat ->
  forall fuel, vfs_navigate fuel mounts path = None.
Proof.
  intros Hb Hs Hl fuel. unfold vfs_navigate. rewrite Hb. destruct fuel as [|fuel]; [done|].
  cbn [nav_loop]. unfold nav_step. destruct (drop (Z.to_nat len) path) as [|d rel]; [done|].
  rewrite Hs. by rewrite name_loop_spins by (exact Hl || apply Nat.le_0_l).
Qed.
End Navigate.

(** A file system with one directory ([true]) that holds itself and one file. *)
Definition ex_finddir (n : bool) : option (list Z -> option bool) :=
  if n then Some (fun name => if bool_decide (name = [97]) then Some true
                              else if bool_decide (name = [98]) then Some false else None) else None.

Lemma vfs_navigate_correct_witness :
  let flags := fun n : bool => if n then 2 else 1 in
  let mounts := [Mount [47] (Some true); Mount [47; 100] (Some true)] in
  vfs_navigate flags ex_finddir 20 mounts [47; 100; 47; 97; 47; 47; 98] = Some (Some false).
Proof.
  intros flags mounts.
  destruct (vfs_navigate_correct flags ex_finddir mounts [47; 100; 47; 97; 47; 47; 98] 20) as [H _].
  - vm_compute. repeat constructor.
  - vm_compute. lia.
  - exact H.
Defined.

Lemma vfs_navigate_long_name_hangs_witness :
  let flags := fun n : bool => if n then 2 else 1 in
  vfs_navigate flags ex_finddir 5000 [Mount [47] (Some true)] (47 :: replicate 128 97) = None.
Proof.
  intros flags.
  apply (vfs_navigate_long_name_hangs flags ex_finddir _ (47 :: replicate 128 97) 1 true 97 (replicate 127 97)).
  - vm_compute. reflexivity.
  - vm_compute. reflexivity.
  - apply Nat.leb_le. vm_compute. reflexivity.
Defined.
