(* ===== verification/VfsFile.v ===== *)
(** Open files of the virtual file system, [src/src/fs/vfs.c]: [vfs_open],
    [vfs_retain], [vfs_close], [vfs_read], [vfs_write], [vfs_seek],
    [vfs_readdir] and [vfs_unlink].

    A node is the address of its [vfs_node_t]; the drivers behind it (the tar
    and FAT32 file systems, devices, pipes) are an instance of [FsOps]: the
    fields of the node and the entries of its [ops] table, [None] for a NULL
    entry.  The state is the drivers' state, the kernel heap (an instance of
    [NodeHeap]) and the open handles by address. *)
From S2P Require Import Prelude Machine Pmm Frames Kmalloc VmRegions Vfs.

Definition O_CREAT : Z := 0x08.
Definition O_TRUNC : Z := 0x20.
Definition O_APPEND : Z := 0x40.
Definition VFS_NODE_AUTOFREE : Z := 0x10.
Definition sizeof_file_handle : Z := 32.

Record file_handle := FileHandle { f_node : Z; f_offset : Z; f_mode : Z; ref_count : Z }.

(** What the file layer uses of the drivers. *)
Class FsOps (W : Type) := {
  node_flags : W -> Z -> Z;
  node_length : W -> Z -> Z;
  set_length : W -> Z -> Z -> W;
  device_data : W -> Z -> Z;
  mount_count : W -> Z;
  navigate : W -> list Z -> Z * W;
  dev_find : W -> list Z -> Z;
  op_read : W -> Z -> option (Z -> Z -> Z -> Z * W);
  op_write : W -> Z -> option (Z -> Z -> Z -> Z * W);
  op_open : W -> Z -> option (Z -> W);
  op_close : W -> Z -> option W;
  op_create : W -> Z -> option (list Z -> Z -> Z * W);
  op_readdir : W -> Z -> option (Z -> Z -> Z * W);
  op_unlink : W -> Z -> option W;
  op_truncate : W -> Z -> option W
}.

(** A node's length is what was last written to it. *)
Class FsOpsSpec (W : Type) `{FsOps W} :=
  set_length_eq w n v : node_length (set_length w n v) n = v.

Section Files.
Context {W : Type} `{FsOps W} {Hp : Type} `{NodeHeap Hp}.

Record vst := VSt { v_fs : W; v_heap : Hp; v_files : gmap Z file_handle }.
Implicit Types (st : vst) (path : list Z) (mode : Z).

Definition is_set mode (flag : Z) : bool := negb (Z.land mode flag =? 0).

Definition vfs_retain st (file : Z) : option vst :=
  if file =? 0 then Some st
  else f ← v_files st !! file;
       Some (VSt (v_fs st) (v_heap st)
         (<[file := FileHandle (f_node f) (f_offset f) (f_mode f) (s32 (ref_count f + 1))]> (v_files st))).

(** The end of both branches of [vfs_open]: a new handle for [node]. *)
Definition new_handle st (node mode : Z) : Z * vst :=
  let '(fhandle, h) := nh_alloc (v_heap st) sizeof_file_handle in
  if fhandle =? 0 then (0, VSt (v_fs st) h (v_files st))
  else
    let offset := if is_set mode O_APPEND then node_length (v_fs st) node else 0 in
    (fhandle, VSt (v_fs st) h (<[fhandle := FileHandle node offset mode 1]> (v_files st))).

Definition with_fs st (w : W) : vst := VSt w (v_heap st) (v_files st).

(** [for (i = len - 1; i >= 0; i--) if (filename[i] == '/') ...] *)
Fixpoint last_slash path : option nat :=
  match path with
  | [] => None
  | c :: l => match last_slash l with
              | Some i => Some (S i)
              | None => if c =? SLASH then Some 0%nat else None
              end
  end.

(** Parent and child of the path, [None] when a 128-byte buffer is overrun. *)
Definition parent_child path (i : nat) : option (list Z * list Z) :=
  if (127 <? i)%nat || (127 <? length path - S i)%nat then None
  else Some (if (i =? 0)%nat then [SLASH] else take i path, drop (S i) path).

(** Make the missing node; [None] is a buffer overrun, node 0 is NULL. *)
Definition create_node (w : W) path mode : option (Z * W) :=
  match last_slash path with
  | None => Some (0, w)
  | Some i =>
      pc ← parent_child path i;
      let '(parent_path, child_name) := pc in
      let '(parent_node, w) := navigate w parent_path in
      if parent_node =? 0 then Some (0, w)
      else match op_create w parent_node with
           | None => Some (0, w)
           | Some create =>
               let '(node, w) := create child_name mode in
               Some (if node =? 0 then navigate w path else (node, w))
           end
  end.

Definition DEV_PREFIX : list Z := [47; 100; 101; 118; 47].

(** [None]: a path too long for the parent/child buffers; handle 0: NULL. *)
Definition vfs_open st path mode : option (Z * vst) :=
  let w := v_fs st in
  if mount_count w =? 0 then Some (0, st)
  else if bool_decide (DEV_PREFIX `prefix_of` path) then
    let node := dev_find w (drop 5 path) in
    if node =? 0 then Some (0, st)
    else
      let w := if is_set mode O_TRUNC then
                 set_length (match op_truncate w node with Some w => w | None => w end) node 0
               else w in
      Some (new_handle (with_fs st w) node mode)
  else
    let '(node, w) := navigate w path in
    r ← (if node =? 0 then if is_set mode O_CREAT then create_node w path mode else Some (0, w)
         else Some (node, w));
    let '(node, w) := r in
    if node =? 0 then Some (0, with_fs st w)
    else
      let w := match op_open w node with Some open => open mode | None => w end in
      let w := if is_set mode O_TRUNC then set_length w node 0 else w in
      Some (new_handle (with_fs st w) node mode).

(** The node of an automatically freed handle goes back to the heap. *)
Definition autofree (w : W) (h : Hp) (node : Z) : Hp :=
  if is_set (node_flags w node) VFS_NODE_AUTOFREE then
    let h := if device_data w node =? 0 then h else nh_free h (device_data w node) in
    nh_free h node
  else h.

Definition vfs_close st (file : Z) : option vst :=
  if file =? 0 then Some st
  else
    f ← v_files st !! file;
    let refs := s32 (ref_count f - 1) in
    let st := VSt (v_fs st) (v_heap st)
                (<[file := FileHandle (f_node f) (f_offset f) (f_mode f) refs]> (v_files st)) in
    if 0 <? refs then Some st
    else
      let node := f_node f in
      let w := if node =? 0 then v_fs st
               else match op_close (v_fs st) node with Some w => w | None => v_fs st end in
      let h := if node =? 0 then v_heap st else autofree w (v_heap st) node in
      Some (VSt w (nh_free h file) (delete file (v_files st))).

Definition transfer (op : W -> Z -> option (Z -> Z -> Z -> Z * W)) st (file size buffer : Z) : option (Z * vst) :=
  if file =? 0 then Some (0, st)
  else
    f ← v_files st !! file;
    if f_node f =? 0 then Some (0, st)
    else match op (v_fs st) (f_node f) with
         | None => Some (0, st)
         | Some rw =>
             let '(nbytes, w) := rw (f_offset f) size buffer in
             Some (nbytes, VSt w (v_heap st)
               (<[file := FileHandle (f_node f) (u64 (f_offset f + nbytes)) (f_mode f) (ref_count f)]> (v_files st)))
         end.

Definition vfs_read st (file size buffer : Z) : option (Z * vst) := transfer op_read st file size buffer.
Definition vfs_write st (file size buffer : Z) : option (Z * vst) := transfer op_write st file size buffer.

Definition vfs_seek st (file new_offset : Z) : option vst :=
  f ← v_files st !! file;
  Some (VSt (v_fs st) (v_heap st) (<[file := FileHandle (f_node f) new_offset (f_mode f) (ref_count f)]> (v_files st))).

Definition vfs_readdir st (node index out : Z) : Z * vst :=
  if node =? 0 then (-1, st)
  else match op_readdir (v_fs st) node with
       | None => (-1, st)
       | Some readdir =>
           if Z.land (node_flags (v_fs st) node) VFS_DIRECTORY =? 0 then (-1, st)
           else let '(r, w) := readdir index out in (r, with_fs st w)
       end.

Definition vfs_unlink st path : Z * vst :=
  let '(node, w) := navigate (v_fs st) path in
  if node =? 0 then (-1, with_fs st w)
  else match op_unlink w node with
       | None => (-1, with_fs st w)
       | Some w => (0, VSt w (autofree w (v_heap st) node) (v_files st))
       end.
End Files.
Arguments vst : clear implicits.

(** ** Reference counts *)
Inductive rc_op := Retain | Close.

Section Lifecycle.
Context {W : Type} `{FsOps W} {Hp : Type} `{NodeHeap Hp}.
Implicit Types (st : vst W Hp) (path : list Z) (mode : Z) (f : file_handle).

Fixpoint rc_run st (p : Z) (ops : list rc_op) : option (vst W Hp) :=
  match ops with
  | [] => Some st
  | Retain :: ops => st ← vfs_retain st p; rc_run st p ops
  | Close :: ops => st ← vfs_close st p; rc_run st p ops
  end.

(** The references held after the calls. *)
Fixpoint refs_after (r : Z) (ops : list rc_op) : Z :=
  match ops with
  | [] => r
  | Retain :: ops => refs_after (r + 1) ops
  | Close :: ops => refs_after (r - 1) ops
  end.

(** No call gives back the last reference. *)
Fixpoint stays_open (r : Z) (ops : list rc_op) : Prop :=
  match ops with
  | [] => True
  | Retain :: ops => stays_open (r + 1) ops
  | Close :: ops => 1 < r /\ stays_open (r - 1) ops
  end.

Definition with_refs f (r : Z) : file_handle := FileHandle (f_node f) (f_offset f) (f_mode f) r.

Lemma rc_run_spec st p f ops : p <> 0 -> v_files st !! p = Some f -> 0 < ref_count f ->
  ref_count f + Z.of_nat (length ops) < 2 ^ 31 -> stays_open (ref_count f) ops ->
  rc_run st p ops =
    Some (VSt (v_fs st) (v_heap st) (<[p := with_refs f (refs_after (ref_count f) ops)]> (v_files st))) /\
  0 < refs_after (ref_count f) ops < 2 ^ 31.
Proof.
  intros Hp0. revert st f. induction ops as [|o ops IH]; intros st f Hf Hr Hmax Hso.
  { simpl. split; [|simpl in Hmax; lia]. destruct st as [w h fs], f as [n o m r]. simpl in *.
    unfold with_refs. simpl. by rewrite insert_id. }
  cbn [length] in Hmax. destruct o; cbn [rc_run refs_after stays_open] in *.
  - unfold vfs_retain. rewrite (proj2 (Z.eqb_neq p 0)), Hf by done. cbn [mbind option_bind].
    rewrite s32_small by lia.
    destruct (IH (VSt (v_fs st) (v_heap st) (<[p := with_refs f (ref_count f + 1)]> (v_files st)))
                 (with_refs f (ref_count f + 1))) as [Hrun Hb]; cbn [v_files ref_count with_refs];
      [apply lookup_insert_eq|lia|lia|done|].
    unfold with_refs in Hrun at 1. rewrite Hrun. cbn [v_fs v_heap v_files with_refs ref_count f_node f_offset f_mode].
    by rewrite insert_insert_eq.
  - destruct Hso as [Hr1 Hso]. unfold vfs_close. rewrite (proj2 (Z.eqb_neq p 0)), Hf by done. cbn [mbind option_bind].
    rewrite s32_small by lia. rewrite (proj2 (Z.ltb_lt 0 (ref_count f - 1))) by lia. cbn [mbind option_bind].
    destruct (IH (VSt (v_fs st) (v_heap st) (<[p := with_refs f (ref_count f - 1)]> (v_files st)))
                 (with_refs f (ref_count f - 1))) as [Hrun Hb]; cbn [v_files ref_count with_refs];
      [apply lookup_insert_eq|lia|lia|done|].
    unfold with_refs in Hrun at 1. rewrite Hrun. cbn [v_fs v_heap v_files with_refs ref_count f_node f_offset f_mode].
    by rewrite insert_insert_eq.
Qed.

(** A file handle lives exactly as long as it is referenced: any sequence of
    [vfs_retain] and [vfs_close] that leaves a reference changes nothing but the
    count, and the [vfs_close] that gives back the last one calls the driver's
    [close] once, frees the node if it is to be freed, and then the handle. *)
Theorem handle_lifecycle st p f ops : p <> 0 -> v_files st !! p = Some f -> 0 < ref_count f ->
  ref_count f + Z.of_nat (length ops) < 2 ^ 31 -> stays_open (ref_count f) ops ->
  let r := refs_after (ref_count f) ops in
  let st' := VSt (v_fs st) (v_heap st) (<[p := with_refs f r]> (v_files st)) in
  rc_run st p ops = Some st' /\ 0 < r /\
  (r = 1 -> f_node f <> 0 ->
   let w := match op_close (v_fs st) (f_node f) with Some w => w | None => v_fs st end in
   vfs_close st' p = Some (VSt w (nh_free (autofree w (v_heap st) (f_node f)) p) (delete p (v_files st)))).
Proof.
  intros Hp0 Hf Hr Hmax Hso r st'. destruct (rc_run_spec st p f ops Hp0 Hf Hr Hmax Hso) as [Hrun Hb].
  split; [exact Hrun|]. split; [apply Hb|]. intros Hr1 Hn w. unfold vfs_close, st'.
  rewrite (proj2 (Z.eqb_neq p 0)) by done. cbn [v_files]. rewrite lookup_insert_eq. cbn [mbind option_bind].
  cbn [with_refs ref_count f_node f_offset f_mode v_fs v_heap v_files]. rewrite Hr1.
  rewrite s32_small by lia. cbn [Z.sub Z.ltb]. rewrite (proj2 (Z.eqb_neq (f_node f) 0)) by done.
  fold w. do 2 f_equal. by rewrite !delete_insert_eq.
Qed.

(** ** Opening *)

Lemma last_slash_lt path i : last_slash path = Some i -> (i < length path)%nat.
Proof.
  revert i. induction path as [|c l IH]; intros i; simpl; [done|]. destruct (last_slash l).
  - intros [= <-]. specialize (IH _ eq_refl). lia.
  - destruct (c =? SLASH); [intros [= <-]; lia|done].
Qed.

Lemma last_slash_split d c : SLASH ∉ c -> last_slash (d ++ SLASH :: c) = Some (length d).
Proof.
  intros Hc. assert (last_slash c = None) as E.
  { induction c as [|x c IH]; [done|]. apply not_elem_of_cons in Hc as [Hx Hc]. simpl. rewrite IH by done.
    by rewrite (proj2 (Z.eqb_neq x SLASH)). }
  induction d as [|x d IH]; simpl; [by rewrite E|by rewrite IH].
Qed.

Lemma create_node_total (w : W) path mode : (length path <= 127)%nat ->
  exists node w', create_node w path mode = Some (node, w').
Proof.
  intros Hl. unfold create_node. destruct (last_slash path) as [i|] eqn:E; [|eauto].
  pose proof (last_slash_lt _ _ E). unfold parent_child.
  rewrite (proj2 (Nat.ltb_ge 127 i)), (proj2 (Nat.ltb_ge 127 (length path - S i))) by lia.
  cbn [orb mbind option_bind]. destruct (navigate _ _) as [pn w1]. destruct (pn =? 0); [eauto|].
  destruct (op_create w1 pn) as [create|]; [|eauto]. destruct (create _ _) as [n2 w2].
  destruct (n2 =? 0); [destruct (navigate w2 path)|]; eauto.
Qed.

(** What a new handle looks like. *)
Definition handle_of st st' mode (p : Z) : Prop :=
  (p <> 0 -> exists f, v_files st' = <[p := f]> (v_files st) /\ f_node f <> 0 /\ f_mode f = mode /\ ref_count f = 1 /\
     f_offset f = (if is_set mode O_APPEND then node_length (v_fs st') (f_node f) else 0) /\
     (is_set mode O_TRUNC = true -> node_length (v_fs st') (f_node f) = 0)) /\
  (p = 0 -> v_files st' = v_files st).

Lemma new_handle_spec st (w : W) node mode : node <> 0 ->
  (is_set mode O_TRUNC = true -> node_length w node = 0) ->
  exists p st', new_handle (with_fs st w) node mode = (p, st') /\ handle_of st st' mode p.
Proof.
  intros Hn Ht. unfold new_handle. destruct (nh_alloc _ _) as [p h]. cbn [with_fs v_fs v_heap v_files].
  destruct (Z.eqb_spec p 0) as [->|Hp0]; eexists _, _; (split; [done|]); [done|].
  split; [|done]. intros _. by eexists.
Qed.

(** A path of at most 127 bytes never overruns [vfs_open]'s buffers; a handle it
    returns is new, holds one reference and the requested mode, and starts at the
    node's length when appending and at 0 otherwise; with [O_TRUNC] that length is
    0; every other handle is untouched. *)
Theorem vfs_open_handle `{!FsOpsSpec W} st path mode : (length path <= 127)%nat ->
  exists p st', vfs_open st path mode = Some (p, st') /\ handle_of st st' mode p.
Proof.
  intros Hl. unfold vfs_open. destruct (mount_count (v_fs st) =? 0); [exists 0, st; done|].
  assert (forall (w : W) node, is_set mode O_TRUNC = true ->
    node_length (if is_set mode O_TRUNC then set_length w node 0 else w) node = 0) as Htr.
  { intros w node ->. apply set_length_eq. }
  case_bool_decide.
  - destruct (Z.eqb_spec (dev_find (v_fs st) (drop 5 path)) 0) as [|Hn]; [exists 0, st; done|].
    set (w := if is_set mode O_TRUNC then _ else _).
    destruct (new_handle_spec st w (dev_find (v_fs st) (drop 5 path)) mode Hn) as (p & st' & -> & Hh); [|eauto].
    intros Ht. unfold w. rewrite Ht. apply set_length_eq.
  - destruct (navigate (v_fs st) path) as [node w].
    assert (exists node' w', (if node =? 0 then if is_set mode O_CREAT then create_node w path mode else Some (0, w)
      else Some (node, w)) = Some (node', w')) as (node' & w' & ->).
    { destruct (node =? 0); [|eauto]. destruct (is_set mode O_CREAT); [by apply create_node_total|eauto]. }
    cbn [mbind option_bind]. destruct (Z.eqb_spec node' 0) as [|Hn]; [exists 0, (with_fs st w'); done|].
    set (w1 := match op_open w' node' with Some open => open mode | None => w' end).
    destruct (new_handle_spec st _ node' mode Hn (Htr w1 node')) as (p & st' & -> & Hh). eauto.
Qed.

(** Opening a missing file with [O_CREAT] asks the directory before the last slash
    ([/] when there is nothing before it) to create the name after it, and the
    handle is a new one on the node that was created. *)
Theorem vfs_open_creates st d c mode : SLASH ∉ c -> (length d <= 127)%nat -> (length c <= 127)%nat ->
  mount_count (v_fs st) <> 0 -> ~ DEV_PREFIX `prefix_of` (d ++ SLASH :: c) -> is_set mode O_CREAT = true ->
  forall w pn w1 create node w2,
  navigate (v_fs st) (d ++ SLASH :: c) = (0, w) ->
  navigate w (match d with [] => [SLASH] | _ => d end) = (pn, w1) -> pn <> 0 ->
  op_create w1 pn = Some create -> create c mode = (node, w2) -> node <> 0 ->
  vfs_open st (d ++ SLASH :: c) mode =
    (let w := match op_open w2 node with Some open => open mode | None => w2 end in
     let w := if is_set mode O_TRUNC then set_length w node 0 else w in
     Some (new_handle (with_fs st w) node mode)).
Proof.
  intros Hc Hd Hl Hm Hdev Hcr w pn w1 create node w2 Hnav Hpar Hpn Hop Hcre Hn. unfold vfs_open.
  rewrite (proj2 (Z.eqb_neq _ 0)) by done. rewrite bool_decide_eq_false_2 by done. rewrite Hnav.
  cbn [Z.eqb]. rewrite Hcr. unfold create_node. rewrite last_slash_split by done.
  unfold parent_child. rewrite length_app. cbn [length].
  rewrite (proj2 (Nat.ltb_ge 127 (length d))), (proj2 (Nat.ltb_ge 127 (length d + S (length c) - S (length d)))) by lia.
  cbn [orb mbind option_bind].
  assert ((if (length d =? 0)%nat then [SLASH] else take (length d) (d ++ SLASH :: c)) =
    match d with [] => [SLASH] | _ => d end) as ->.
  { destruct d as [|x d]; [done|]. apply (take_app_length (x :: d)). }
  assert (drop (S (length d)) (d ++ SLASH :: c) = c) as -> by (rewrite cons_middle, app_assoc; apply drop_app_length'; rewrite length_app; simpl; lia).
  rewrite Hpar, (proj2 (Z.eqb_neq pn 0)), Hop, Hcre, (proj2 (Z.eqb_neq node 0)) by done. cbn [mbind option_bind].
  by rewrite (proj2 (Z.eqb_neq node 0)) by done.
Qed.
End Lifecycle.

(** ** A small file system: one directory, node 8, with at most one file, node 16,
    of some length *)
Module demo_fs.
Record world := World { exists_file : bool; len : Z; closed : Z }.

#[export] Instance ops : FsOps world := {
  node_flags w n := if n =? 8 then 2 else 1;
  node_length w n := len w;
  set_length w n v := World (exists_file w) v (closed w);
  device_data w n := 0;
  mount_count w := 1;
  navigate w path := (if bool_decide (path = [47]) then 8
                      else if exists_file w && bool_decide (path = [47; 97]) then 16 else 0, w);
  dev_find w name := 0;
  op_read w n := None;
  op_write w n := None;
  op_open w n := None;
  op_close w n := Some (World (exists_file w) (len w) (closed w + 1));
  op_create w n := if n =? 8 then Some (fun name mode => (16, World true 0 (closed w))) else None;
  op_readdir w n := None;
  op_unlink w n := None;
  op_truncate w n := None
}.

#[export] Instance ops_spec : FsOpsSpec world.
Proof. intros w n v. reflexivity. Qed.

(** A heap that never reuses an address. *)
#[export] Instance bump : NodeHeap Z := { nh_alloc h size := (h, h + size); nh_free h p := h }.

Definition st0 : vst world Z := VSt (World true 7 0) 4096 ∅.
Definition st1 : vst world Z := VSt (World true 7 0) 4128 {[ 4096 := FileHandle 16 7 0x40 1 ]}.
End demo_fs.
Import demo_fs.

Lemma handle_lifecycle_witness :
  rc_run st1 4096 [Retain; Close] = Some st1 /\
  vfs_close st1 4096 = Some (VSt (World true 7 1) 4128 ∅).
Proof.
  destruct (handle_lifecycle st1 4096 (FileHandle 16 7 0x40 1) [Retain; Close]) as (H1 & _ & H2).
  - lia.
  - vm_compute. reflexivity.
  - reflexivity.
  - reflexivity.
  - simpl. lia.
  - split; [exact H1|]. apply H2; [reflexivity|]. vm_compute. discriminate.
Defined.

Lemma vfs_open_handle_witness : exists p st', vfs_open st0 [47; 97] 0x60 = Some (p, st') /\ handle_of st0 st' 0x60 p.
Proof. apply (vfs_open_handle st0 [47; 97] 0x60). vm_compute. lia. Defined.

Lemma vfs_open_creates_witness :
  vfs_open (VSt (World false 7 0) 4096 ∅) [47; 97] 0x08 =
    Some (4096, VSt (World true 0 0) 4128 {[ 4096 := FileHandle 16 0 0x08 1 ]}).
Proof.
  refine (vfs_open_creates (VSt (World false 7 0) 4096 ∅) [] [97] 0x08 _ _ _ _ _ _ _ 8 _ _ 16 _ eq_refl eq_refl _ eq_refl eq_refl _).
  - apply not_elem_of_cons. split; [discriminate|apply not_elem_of_nil].
  - simpl. lia.
  - simpl. lia.
  - simpl. lia.
  - apply (bool_decide_unpack _). vm_compute. exact I.
  - reflexivity.
  - lia.
  - lia.
Defined.
