(* ===== verification/SysFile.v ===== *)
(** The system calls on file descriptors, [src/src/arch/syscall.c]: [sys_read],
    [sys_write], [sys_lseek], [sys_open], [sys_close], [sys_chdir], [sys_getcwd],
    [sys_mkdir], [sys_pipe], [sys_dup2], [sys_getpid], [sys_readdir], [sys_unlink]
    and [sys_fstat], with what tasks do to descriptors when they start, fork and
    end ([src/src/sched/sched.c], [dev_attach_stdio] of [src/src/fs/dev.c]).

    The state is the open-file layer of [VfsFile] and, for each task by the address
    of its [Task], its 16 descriptors, its working directory and its pid.  User
    memory belongs to the drivers' state, which the read and write operations of
    the drivers change too; [SysOps] is what the calls use of it directly.  [None]
    is an access the C code may not make: a freed handle, a NULL task, a buffer
    overrun.  The small allocations inside [resolve_path] succeed, as in [Vfs]. *)
From S2P Require Import Prelude Machine Pmm Frames Kmalloc VmRegions Vfs VfsFile.

Definition MAX_OPEN_FILES : nat := 16.
Definition USER_SPACE_LIMIT : Z := 0x00007FFFFFFFFFFF.
Definition ERR : Z := 2 ^ 64 - 1.
Definition SEEK_SET : Z := 0.
Definition SEEK_CUR : Z := 1.
Definition SEEK_END : Z := 2.
Definition sizeof_dirent : Z := 144.
Definition sizeof_stat : Z := 40.
Definition sizeof_Pipe : Z := 272.
Definition sizeof_vfs_node : Z := 168.

Definition verify_usr_access (ptr size : Z) : bool :=
  if ptr =? 0 then false
  else if size =? 0 then true
  else
    let end_ := u64 (ptr + size) in
    if end_ <? ptr then false else end_ <=? USER_SPACE_LIMIT.

(** What the calls use of the drivers' state besides the node operations: user
    memory, whether a node belongs to shared memory (and the size of the segment,
    0 when the node has none), and the stores that make a block of memory a pipe
    and two nodes its ends. *)
Class SysOps (W : Type) := {
  user_mem : W -> mem;
  set_user_mem : W -> mem -> W;
  is_shm : W -> Z -> bool;
  shm_size : W -> Z -> Z;
  pipe_setup : W -> Z -> Z -> Z -> W
}.

(** What a [Task] holds for these calls: its descriptors, directory and pid. *)
Record tfiles := TFiles { tf_fds : list Z; tf_cwd : list Z; tf_pid : Z }.

Definition set_fds (t : tfiles) (l : list Z) : tfiles := TFiles l (tf_cwd t) (tf_pid t).

Section SysFile.
Context {W : Type} `{FsOps W} `{SysOps W} {Hp : Type} `{NodeHeap Hp}.

Record fsys := FSys {
  fs_v : vst W Hp; fs_tasks : gmap Z tfiles; fs_curr : Z; g_stdin_node : Z; g_stdout_node : Z }.
Implicit Types (st : fsys) (t : tfiles) (w : W).

Definition with_v st (v : vst W Hp) : fsys := FSys v (fs_tasks st) (fs_curr st) (g_stdin_node st) (g_stdout_node st).
Definition with_tasks st (m : gmap Z tfiles) : fsys := FSys (fs_v st) m (fs_curr st) (g_stdin_node st) (g_stdout_node st).
Definition with_user st (m : mem) : fsys := with_v st (with_fs (fs_v st) (set_user_mem (v_fs (fs_v st)) m)).

Definition fget t (fd : Z) : Z := default 0 (tf_fds t !! Z.to_nat fd).
Definition fput t (fd p : Z) : tfiles := set_fds t (<[Z.to_nat fd := p]> (tf_fds t)).
Definition put_task st (a : Z) t : fsys := with_tasks st (<[a := t]> (fs_tasks st)).
Definition curr_task st : option tfiles := fs_tasks st !! fs_curr st.
(** [curr_tsk->fd_tbl[fd] = p] *)
Definition set_fd st (fd p : Z) : option fsys := t ← curr_task st; Some (put_task st (fs_curr st) (fput t fd p)).

Definition bad_fd (fd : Z) : bool := (fd <? 0) || (Z.of_nat MAX_OPEN_FILES <=? fd).
Definition fail st : option (Z * fsys) := Some (ERR, st).

(** The bytes of [src] up to its NUL, [n] at most; [None]: not user memory. *)
Fixpoint copy_from w (src : Z) (n : nat) : option (list Z) :=
  match n with
  | O => Some []
  | S n =>
      if negb (verify_usr_access src 1) then None
      else
        let c := get8 (user_mem w) src in
        if c =? 0 then Some [] else (cons c) <$> copy_from w (u64 (src + 1)) n
  end.
Definition copy_string_from_user w (src : Z) (max_len : nat) : option (list Z) :=
  take (max_len - 1) <$> copy_from w src max_len.

(** [for (i = 3; i < MAX_OPEN_FILES; i++)] *)
Definition find_free_fd t : Z :=
  default (-1) (scan (MAX_OPEN_FILES - 3) 3 (fun i => fget t i =? 0)).

Definition resolved (cwd path : list Z) : option (list Z) :=
  match resolve_path true cwd path with Resolved out => Some out | _ => None end.

(** *** Reading, writing and seeking *)
Definition sys_transfer (rw : vst W Hp -> Z -> Z -> Z -> option (Z * vst W Hp)) st (arg1 arg2 arg3 : Z)
    : option (Z * fsys) :=
  let fd := s8 arg1 in
  if bad_fd fd then fail st
  else if fs_curr st =? 0 then fail st
  else
    t ← curr_task st;
    if fget t fd =? 0 then fail st
    else if negb (verify_usr_access arg2 arg3) then fail st
    else '(n, v) ← rw (fs_v st) (fget t fd) arg3 arg2; Some (n, with_v st v).
Definition sys_read := sys_transfer vfs_read.
Definition sys_write := sys_transfer vfs_write.

Definition sys_lseek st (arg1 arg2 arg3 : Z) : option (Z * fsys) :=
  let fd := s32 arg1 in
  let offset := s64 arg2 in
  let whence := s32 arg3 in
  if bad_fd fd then fail st
  else if fs_curr st =? 0 then fail st
  else
    t ← curr_task st;
    let file := fget t fd in
    if file =? 0 then fail st
    else
      f ← v_files (fs_v st) !! file;
      if f_node f =? 0 then fail st
      else
        let new_offset :=
          if whence =? SEEK_SET then Some offset
          else if whence =? SEEK_CUR then Some (s64 (f_offset f + offset))
          else if whence =? SEEK_END then Some (s64 (node_length (v_fs (fs_v st)) (f_node f) + offset))
          else None in
        match new_offset with
        | None => fail st
        | Some n => if n <? 0 then fail st else v ← vfs_seek (fs_v st) file n; Some (n, with_v st v)
        end.

(** *** Opening and closing *)
Definition sys_open st (arg1 arg2 : Z) : option (Z * fsys) :=
  match copy_string_from_user (v_fs (fs_v st)) arg1 256 with
  | None => fail st
  | Some safe_fname =>
      t ← curr_task st;
      let fd := find_free_fd t in
      if fd <? 0 then fail st
      else
        full_path ← resolved (tf_cwd t) safe_fname;
        '(f, v) ← vfs_open (fs_v st) full_path (u32 arg2);
        if f =? 0 then fail (with_v st v)
        else st ← set_fd (with_v st v) fd f; Some (fd, st)
  end.

Definition sys_close st (arg1 : Z) : option (Z * fsys) :=
  let fd := s8 arg1 in
  if bad_fd fd then fail st
  else
    t ← curr_task st;
    if fget t fd =? 0 then fail st
    else v ← vfs_close (fs_v st) (fget t fd); st ← set_fd (with_v st v) fd 0; Some (0, st).

Definition sys_dup2 st (arg1 arg2 : Z) : option (Z * fsys) :=
  let old_fd := s32 arg1 in
  let new_fd := s32 arg2 in
  if fs_curr st =? 0 then fail st
  else if bad_fd old_fd || bad_fd new_fd then fail st
  else
    t ← curr_task st;
    if fget t old_fd =? 0 then fail st
    else if old_fd =? new_fd then Some (new_fd, st)
    else
      st ← (if fget t new_fd =? 0 then Some st
            else v ← vfs_close (fs_v st) (fget t new_fd); set_fd (with_v st v) new_fd 0);
      st ← set_fd st new_fd (fget t old_fd);
      v ← vfs_retain (fs_v st) (fget t old_fd);
      Some (new_fd, with_v st v).

(** *** Pipes *)
Definition kalloc st (size : Z) : Z * fsys :=
  let '(p, h) := nh_alloc (v_heap (fs_v st)) size in
  (p, with_v st (VSt (v_fs (fs_v st)) h (v_files (fs_v st)))).
Definition kfrees st (l : list Z) : fsys :=
  with_v st (VSt (v_fs (fs_v st)) (foldl nh_free (v_heap (fs_v st)) l) (v_files (fs_v st))).
Definition with_files st (m : gmap Z file_handle) : fsys :=
  with_v st (VSt (v_fs (fs_v st)) (v_heap (fs_v st)) m).

(** The error exits once both descriptors are set. *)
Definition pipe_undo st (read_fd write_fd : Z) (l : list Z) : option (Z * fsys) :=
  st ← set_fd (kfrees st l) read_fd 0; st ← set_fd st write_fd 0; fail st.

(** The handles become open files with the stores at the end; before that they are
    only blocks of memory that the descriptors point to. *)
Definition sys_pipe st (arg1 : Z) : option (Z * fsys) :=
  if negb (verify_usr_access arg1 8) then fail st
  else if fs_curr st =? 0 then fail st
  else
    t ← curr_task st;
    let read_fd := find_free_fd t in
    if read_fd <? 0 then fail st
    else
      let '(handle_read, st) := kalloc st sizeof_file_handle in
      if handle_read =? 0 then fail st
      else
        st ← set_fd st read_fd handle_read;
        t ← curr_task st;
        let write_fd := find_free_fd t in
        if write_fd <? 0 then st ← set_fd st read_fd 0; fail (kfrees st [handle_read])
        else
          let '(handle_write, st) := kalloc st sizeof_file_handle in
          if handle_write =? 0 then st ← set_fd st read_fd 0; fail (kfrees st [handle_read])
          else
            st ← set_fd st write_fd handle_write;
            let '(pipe, st) := kalloc st sizeof_Pipe in
            if pipe =? 0 then pipe_undo st read_fd write_fd [handle_read; handle_write]
            else
              let '(node_read, st) := kalloc st sizeof_vfs_node in
              if node_read =? 0 then pipe_undo st read_fd write_fd [pipe; handle_read; handle_write]
              else
                let '(node_write, st) := kalloc st sizeof_vfs_node in
                if node_write =? 0 then pipe_undo st read_fd write_fd [pipe; handle_read; handle_write; node_read]
                else
                  let st := with_v st (with_fs (fs_v st) (pipe_setup (v_fs (fs_v st)) pipe node_read node_write)) in
                  let st := with_files st (<[handle_write := FileHandle node_write 0 2 1]>
                              (<[handle_read := FileHandle node_read 0 1 1]> (v_files (fs_v st)))) in
                  let m := user_mem (v_fs (fs_v st)) in
                  Some (0, with_user st (store32 (store32 m arg1 read_fd) (arg1 + 4) write_fd)).

(** *** Directories and names *)
(** [strcpy] to user memory. *)
Definition put_string (m : mem) (a : Z) (s : list Z) : mem :=
  put8 (snd (foldl (fun '(a, m) c => (a + 1, put8 m a c)) (a, m) s)) (a + Z.of_nat (length s)) 0.

Definition sys_chdir st (arg1 : Z) : option (Z * fsys) :=
  match copy_string_from_user (v_fs (fs_v st)) arg1 256 with
  | None => fail st
  | Some safe_path =>
      t ← curr_task st;
      new_path ← resolved (tf_cwd t) safe_path;
      if (255 <=? length new_path)%nat then fail st
      else Some (0, put_task st (fs_curr st) (TFiles (tf_fds t) new_path (tf_pid t)))
  end.

Definition sys_getcwd st (arg1 arg2 : Z) : option (Z * fsys) :=
  if negb (verify_usr_access arg1 arg2) then fail st
  else
    t ← curr_task st;
    if arg2 <? Z.of_nat (length (tf_cwd t)) + 1 then fail st
    else Some (0, with_user st (put_string (user_mem (v_fs (fs_v st))) arg1 (tf_cwd t))).

Definition cwd_or_root t : list Z := if decide (tf_cwd t = []) then [SLASH] else tf_cwd t.

Definition sys_mkdir st (arg1 arg2 : Z) : option (Z * fsys) :=
  match copy_string_from_user (v_fs (fs_v st)) arg1 256 with
  | None => fail st
  | Some safe_path =>
      t ← curr_task st;
      full_path ← resolved (cwd_or_root t) safe_path;
      if (255 <=? length full_path)%nat then fail st
      else
        match last_slash full_path with
        | None => fail st
        | Some i =>
            let parent_path := if (i =? 0)%nat then [SLASH] else take i full_path in
            let new_dir_name := drop (S i) full_path in
            if (127 <? length new_dir_name)%nat then None
            else
              let '(parent_node, w) := navigate (v_fs (fs_v st)) parent_path in
              let st := with_v st (with_fs (fs_v st) w) in
              if parent_node =? 0 then fail st
              else match op_create w parent_node with
                   | None => fail st
                   | Some create =>
                       let '(new_node, w) := create new_dir_name (u32 arg2) in
                       let '(chk_node, w) := navigate w full_path in
                       let st := with_v st (with_fs (fs_v st) w) in
                       Some (if (new_node =? 0) || (chk_node =? 0) then ERR else 0, st)
                   end
        end
  end.

Definition sys_readdir st (arg1 arg2 arg3 : Z) : option (Z * fsys) :=
  let fd := s32 arg1 in
  if bad_fd fd then fail st
  else
    t ← curr_task st;
    if fget t fd =? 0 then fail st
    else if negb (verify_usr_access arg3 sizeof_dirent) then fail st
    else
      f ← v_files (fs_v st) !! fget t fd;
      let '(r, v) := vfs_readdir (fs_v st) (f_node f) (u32 arg2) arg3 in
      Some (u64 r, with_v st v).

Definition sys_unlink st (arg1 : Z) : option (Z * fsys) :=
  match copy_string_from_user (v_fs (fs_v st)) arg1 256 with
  | None => fail st
  | Some safe_path =>
      t ← curr_task st;
      new_path ← resolved (cwd_or_root t) safe_path;
      if (255 <=? length new_path)%nat then fail st
      else let '(r, v) := vfs_unlink (fs_v st) new_path in Some (u64 r, with_v st v)
  end.

(** [st_mode] of a node: 0x21B6 is [S_IFCHR] with read and write for all, 0x4000
    [S_IFDIR], 0x8000 [S_IFREG].  [st_size] is at offset 32 of [stat_t]. *)
Definition stat_of w (node : Z) : Z * Z :=
  if is_shm w node then (shm_size w node, 0x21B6)
  else if node_flags w node =? VFS_DIRECTORY then (0, 0x4000)
  else (node_length w node, 0x8000).

Definition sys_fstat st (arg1 arg2 : Z) : option (Z * fsys) :=
  let fd := s32 arg1 in
  if bad_fd fd then fail st
  else
    t ← curr_task st;
    if fget t fd =? 0 then fail st
    else
      f ← v_files (fs_v st) !! fget t fd;
      if f_node f =? 0 then fail st
      else if negb (verify_usr_access arg2 sizeof_stat) then fail st
      else
        let w := v_fs (fs_v st) in
        let '(size, mode) := stat_of w (f_node f) in
        let m := store 40 (user_mem w) arg2 0 in
        let m := store64 m (arg2 + 32) size in
        let m := store32 m (arg2 + 8) mode in
        let m := store32 m (arg2 + 4) (u32 (f_node f)) in
        Some (0, with_user st m).

Definition sys_getpid st : option (Z * fsys) :=
  if fs_curr st =? 0 then fail st else t ← curr_task st; Some (u64 (tf_pid t), st).

(** *** Dispatch *)
Definition MAX_SYSCALLS : Z := 80.
Definition handler : Type := fsys -> Z -> Z -> Z -> option (Z * fsys).

(** The entries of [syscall_table] for files. *)
Definition file_table (num : Z) : option handler :=
  match num with
  | 0 => Some sys_read
  | 1 => Some sys_write
  | 2 => Some (fun st a1 a2 _ => sys_open st a1 a2)
  | 3 => Some (fun st a1 _ _ => sys_close st a1)
  | 4 => Some (fun st a1 a2 _ => sys_mkdir st a1 a2)
  | 5 => Some sys_readdir
  | 6 => Some (fun st a1 _ _ => sys_unlink st a1)
  | 7 => Some (fun st a1 _ _ => sys_chdir st a1)
  | 8 => Some (fun st a1 a2 _ => sys_getcwd st a1 a2)
  | 9 => Some (fun st a1 a2 _ => sys_fstat st a1 a2)
  | 10 => Some (fun st a1 _ _ => sys_pipe st a1)
  | 11 => Some (fun st a1 a2 _ => sys_dup2 st a1 a2)
  | 13 => Some sys_lseek
  | 24 => Some (fun st _ _ _ => sys_getpid st)
  | _ => None
  end.

(** [syscall_handler] with the entries of [table]. *)
Definition syscall_handler (table : Z -> option handler) st (sys_num arg1 arg2 arg3 : Z) : option (Z * fsys) :=
  if MAX_SYSCALLS <=? sys_num then fail st
  else match table sys_num with None => fail st | Some f => f st arg1 arg2 arg3 end.

(** *** Tasks *)
(** The loop of [sched_clean_fds] and of [task_factory_fork] over the descriptors
    of the task at [a]. *)
Definition clean_fd (a : Z) st (i : nat) : option fsys :=
  t ← fs_tasks st !! a;
  let p := fget t (Z.of_nat i) in
  if p =? 0 then Some st
  else v ← vfs_close (fs_v st) p; Some (put_task (with_v st v) a (fput t (Z.of_nat i) 0)).
Definition sched_clean_fds (a : Z) st : option fsys := ofold (clean_fd a) st (seq 0 MAX_OPEN_FILES).

(** One handle of [dev_attach_stdio]; the code does not test for NULL. *)
Definition attach (a : Z) st (fd : Z) (node mode : Z) : option fsys :=
  let '(p, st) := kalloc st sizeof_file_handle in
  if p =? 0 then None
  else
    t ← fs_tasks st !! a;
    Some (put_task (with_files st (<[p := FileHandle node 0 mode 1]> (v_files (fs_v st)))) a (fput t fd p)).
Definition dev_attach_stdio (a : Z) st : option fsys :=
  if (g_stdin_node st =? 0) || (g_stdout_node st =? 0) then Some st
  else
    st ← attach a st 0 (g_stdin_node st) 1;
    st ← attach a st 1 (g_stdout_node st) 2;
    attach a st 2 (g_stdout_node st) 2.

(** A task at the new address [a], as [sched_new_task] sets it up. *)
Definition new_task_files st (a pid : Z) : option fsys :=
  let cwd := match curr_task st with
             | Some t => if fs_curr st =? 0 then [SLASH] else cwd_or_root t
             | None => [SLASH] end in
  dev_attach_stdio a (put_task st a (TFiles (replicate MAX_OPEN_FILES 0) cwd pid)).

(** [task_factory_fork]: a new task, its standard descriptors closed again; when the
    memory of the child could be copied ([copied]), the descriptors and the
    directory of the parent, each open file retained; otherwise the child is
    destroyed. *)
Definition fork_files st (a pid : Z) (copied : bool) : option fsys :=
  parent ← curr_task st;
  st ← new_task_files st a pid;
  st ← sched_clean_fds a st;
  if copied then
    let st := put_task st a (TFiles (tf_fds parent) (tf_cwd parent) pid) in
    v ← ofold vfs_retain (fs_v st) (filter (fun p => p <> 0) (tf_fds parent));
    Some (with_v st v)
  else Some (with_tasks st (delete a (fs_tasks st))).
End SysFile.
Arguments fsys : clear implicits.
