(* ===== verification/SysFileInv.v ===== *)
(** Reference counts of open files.

    [HandleHeap] states what the drivers and the heap promise to the descriptor
    calls: an allocated block is new, and no driver operation touches the blocks
    the calls hold.  [acct B v L] is the invariant of the open-file layer with [L]
    the list of all references to handles: each open handle counts the entries of
    [L] that name it, no entry names a closed one, and the blocks of the handles
    and the blocks [B] are allocated.  Every operation of the layer is described
    by what it does to [L]. *)
From S2P Require Import Prelude Machine Pmm Frames Kmalloc VmRegions Vfs VfsFile SysFile.

(** The ways a call changes the state of the drivers. *)
Section FsStep.
Context {W : Type} `{FsOps W} `{SysOps W}.

Inductive fs_step : W -> W -> Prop :=
  | FsNavigate w path : fs_step w (navigate w path).2
  | FsSetLength w n v : fs_step w (set_length w n v)
  | FsRead w n f o s b : op_read w n = Some f -> fs_step w (f o s b).2
  | FsWrite w n f o s b : op_write w n = Some f -> fs_step w (f o s b).2
  | FsOpen w n f m : op_open w n = Some f -> fs_step w (f m)
  | FsClose w n w' : op_close w n = Some w' -> fs_step w w'
  | FsCreate w n f name m : op_create w n = Some f -> fs_step w (f name m).2
  | FsReaddir w n f i o : op_readdir w n = Some f -> fs_step w (f i o).2
  | FsUnlink w n w' : op_unlink w n = Some w' -> fs_step w w'
  | FsTruncate w n w' : op_truncate w n = Some w' -> fs_step w w'
  | FsUser w m : fs_step w (set_user_mem w m).
End FsStep.

(** [hh_ok w h B]: the heap holds the blocks [B], none of which the drivers use. *)
Class HandleHeap (W Hp : Type) `{FsOps W} `{SysOps W} `{NodeHeap Hp} := {
  hh_ok : W -> Hp -> gset Z -> Prop;
  hh_nonzero w h B : hh_ok w h B -> 0 ∉ B;
  hh_alloc w h B size : 0 < size -> hh_ok w h B ->
    let '(p, h') := nh_alloc h size in
    if p =? 0 then hh_ok w h' B else p ∉ B /\ hh_ok w h' ({[p]} ∪ B);
  hh_free w h B p : p ∉ B -> hh_ok w h ({[p]} ∪ B) -> hh_ok w (nh_free h p) B;
  hh_autofree w h B n : hh_ok w h B -> hh_ok w (autofree w h n) B;
  hh_step w w' h B : fs_step w w' -> hh_ok w h B -> hh_ok w' h B;
  hh_pipe w h B p r q : p ∉ B -> r ∉ {[p]} ∪ B -> q ∉ {[r]} ∪ ({[p]} ∪ B) ->
    hh_ok w h ({[q]} ∪ ({[r]} ∪ ({[p]} ∪ B))) -> hh_ok (pipe_setup w p r q) h B
}.

(** How often [p] is named. *)
Definition cnt (p : Z) (l : list Z) : Z := Z.of_nat (length (filter (fun x => x = p) l)).

Lemma cnt_nil p : cnt p [] = 0.
Proof. done. Qed.
Lemma cnt_cons p x l : cnt p (x :: l) = (if decide (x = p) then 1 else 0) + cnt p l.
Proof. unfold cnt. rewrite filter_cons. destruct (decide _); simpl; lia. Qed.
Lemma cnt_app p l k : cnt p (l ++ k) = cnt p l + cnt p k.
Proof. unfold cnt. rewrite filter_app, length_app. lia. Qed.
Lemma cnt_range p l : 0 <= cnt p l <= Z.of_nat (length l).
Proof. unfold cnt. pose proof (length_filter (fun x => x = p) l). lia. Qed.
Lemma cnt_pos p l : p ∈ l <-> 0 < cnt p l.
Proof.
  induction l as [|x l IH]; [rewrite cnt_nil; split; [by intros ?%not_elem_of_nil|lia]|].
  rewrite elem_of_cons, cnt_cons, IH. pose proof (cnt_range p l). destruct (decide (x = p)); [lia|].
  split; [intros [->|]; [done|lia]|intros; right; lia].
Qed.

Lemma cnt_zeros p n : p <> 0 -> cnt p (replicate n 0) = 0.
Proof. intros Hp. induction n as [|n IH]; [done|]. simpl. rewrite cnt_cons, IH. by destruct (decide (0 = p)). Qed.
Lemma cnt_nonzero p l : p <> 0 -> cnt p (filter (fun x => x <> 0) l) = cnt p l.
Proof.
  intros Hp. induction l as [|x l IH]; [done|]. rewrite filter_cons. destruct (decide (x <> 0)).
  - by rewrite !cnt_cons, IH.
  - rewrite IH, cnt_cons. destruct (decide (x = p)); [naive_solver|lia].
Qed.

#[export] Instance cnt_proper p : Proper ((≡ₚ) ==> (=)) (cnt p).
Proof. intros l k E. unfold cnt. by rewrite E. Qed.

Section Acct.
Context {W Hp : Type} `{HandleHeap W Hp}.
Implicit Types (v : vst W Hp) (L : list Z) (B : gset Z) (p : Z).

Record acct B v L : Prop := {
  ac_ok : hh_ok (v_fs v) (v_heap v) (B ∪ dom (v_files v));
  ac_disj : B ## dom (v_files v);
  ac_count p : p <> 0 ->
    match v_files v !! p with Some f => ref_count f = cnt p L /\ 0 < cnt p L | None => cnt p L = 0 end;
  ac_len : Z.of_nat (length L) < 2 ^ 31 }.

#[global] Instance acct_proper B v : Proper ((≡ₚ) ==> iff) (acct B v).
Proof.
  assert (forall L L', L ≡ₚ L' -> acct B v L -> acct B v L') as Hi.
  { intros L L' E [A1 A2 A3 A4]. split; [done..| |by rewrite <- E].
    intros p Hp0. specialize (A3 p Hp0). by rewrite (cnt_proper p _ _ E) in A3. }
  intros L L' E. split; apply Hi; [done|by symmetry].
Qed.

Lemma acct_zero B v L : acct B v L -> v_files v !! 0 = None.
Proof. intros [A1 _ _ _]. apply hh_nonzero in A1. apply not_elem_of_dom. set_solver. Qed.

(** Only how often each handle is named matters. *)
Lemma acct_ext B v L L' : acct B v L -> (forall p, p <> 0 -> cnt p L' = cnt p L) -> Z.of_nat (length L') < 2 ^ 31 -> acct B v L'.
Proof. intros [A1 A2 A3 A4] Hc Hl. split; [done..| |done]. intros p Hp0. rewrite Hc by done. by apply A3. Qed.

(** A NULL descriptor is no reference. *)
Lemma acct_null B v L : Z.of_nat (length L) + 1 < 2 ^ 31 -> acct B v (0 :: L) <-> acct B v L.
Proof.
  intros Hl. split; intros [A1 A2 A3 A4]; split; try done; try (simpl in *; lia);
    intros p Hp0; specialize (A3 p Hp0); rewrite cnt_cons in *; destruct (decide (0 = p)); try congruence;
    by rewrite ?Z.add_0_l in *.
Qed.

Lemma acct_unnull B v L : acct B v (0 :: L) -> acct B v L.
Proof.
  intros I. pose proof (ac_len _ _ _ I) as Hl. simpl in Hl. destruct I as [A1 A2 A3 A4]. split; [done|done| |simpl in *; lia].
  intros p Hp0. specialize (A3 p Hp0). rewrite cnt_cons in A3. destruct (decide (0 = p)); [congruence|].
  by rewrite ?Z.add_0_l in A3.
Qed.

(** A reference leads to an open handle. *)
Lemma acct_live B v L p : acct B v L -> p <> 0 -> p ∈ L -> exists f, v_files v !! p = Some f /\ ref_count f = cnt p L.
Proof.
  intros I Hp0 Hin. pose proof (ac_count _ _ _ I p Hp0) as Hc. apply cnt_pos in Hin.
  destruct (v_files v !! p) as [f|]; [|lia]. exists f. tauto.
Qed.

Lemma acct_step B v w' L : acct B v L -> fs_step (v_fs v) w' -> acct B (with_fs v w') L.
Proof. intros [A1 A2 A3 A4] Hs. split; try done. by eapply hh_step. Qed.

(** Changing a handle but its count. *)
Lemma acct_same B v L p f f' : acct B v L -> v_files v !! p = Some f -> ref_count f' = ref_count f ->
  acct B (VSt (v_fs v) (v_heap v) (<[p := f']> (v_files v))) L.
Proof.
  intros [A1 A2 A3 A4] Hf Hr. assert (dom (<[p := f']> (v_files v)) = dom (v_files v)) as Ed.
  { apply dom_insert_lookup_L. by exists f. }
  split; cbn [v_fs v_heap v_files]; rewrite ?Ed; try done.
  intros q Hq. specialize (A3 q Hq). destruct (decide (p = q)) as [->|].
  - rewrite lookup_insert_eq. rewrite Hf in A3. by rewrite Hr.
  - by rewrite lookup_insert_ne.
Qed.

Lemma retain_acct B v L p : acct B v L -> p <> 0 -> p ∈ L -> Z.of_nat (length L) + 1 < 2 ^ 31 ->
  exists v', vfs_retain v p = Some v' /\ acct B v' (p :: L) /\ v_fs v' = v_fs v.
Proof.
  intros I Hp0 Hin Hl. destruct (acct_live _ _ _ _ I Hp0 Hin) as (f & Hf & Hr). unfold vfs_retain.
  rewrite (proj2 (Z.eqb_neq p 0)), Hf by done. eexists. split; [done|]. split; [|done].
  pose proof (cnt_range p L) as Hc. destruct I as [A1 A2 A3 A4].
  split; cbn [v_fs v_heap v_files]; rewrite ?(dom_insert_lookup_L _ _ _ (mk_is_Some _ _ Hf)); [done|done| |simpl; lia].
  intros q Hq. rewrite cnt_cons. specialize (A3 q Hq). destruct (decide (p = q)) as [->|].
  - rewrite lookup_insert_eq. cbn [ref_count]. rewrite s32_small; lia.
  - by rewrite lookup_insert_ne, Z.add_0_l.
Qed.

Lemma retain_all_acct B v L ps : acct B v L -> Forall (fun p => p <> 0 /\ p ∈ L) ps ->
  Z.of_nat (length L + length ps) < 2 ^ 31 ->
  exists v', ofold vfs_retain v ps = Some v' /\ acct B v' (ps ++ L) /\ v_fs v' = v_fs v.
Proof.
  intros I Hps. revert v L I Hps. induction ps as [|p ps IH]; intros v L I Hps Hl; [by exists v|].
  inversion_clear Hps as [|? ? [Hp0 Hin] Hps']. cbn [length] in Hl.
  destruct (retain_acct B v L p I Hp0 Hin) as (v1 & E1 & I1 & Ef); [lia|].
  destruct (IH v1 (p :: L) I1) as (v2 & E2 & I2 & Ef2).
  - eapply Forall_impl; [done|]. intros y [? ?]. split; [done|]. by apply list_elem_of_further.
  - simpl. lia.
  - exists v2. simpl. rewrite E1. simpl. split; [done|]. split; [|congruence].
    by rewrite <- Permutation_middle in I2.
Qed.

Lemma close_acct B v L p : acct B v (p :: L) -> exists v', vfs_close v p = Some v' /\ acct B v' L.
Proof.
  intros I. unfold vfs_close. destruct (Z.eqb_spec p 0) as [->|Hp0]; [exists v; split; [done|by apply acct_unnull]|].
  destruct (acct_live _ _ _ p I Hp0) as (f & Hf & Hr); [apply list_elem_of_here|]. rewrite Hf. cbn [mbind option_bind].
  destruct I as [A1 A2 A3 A4]. pose proof (cnt_range p L) as Hc. cbn [length] in A4.
  assert (cnt p (p :: L) = 1 + cnt p L) as Ec by (rewrite cnt_cons; by destruct (decide (p = p))).
  assert (Hother : forall q, q <> 0 -> q <> p -> match v_files v !! q with
    Some f => ref_count f = cnt q L /\ 0 < cnt q L | None => cnt q L = 0 end).
  { intros q Hq Hqp. specialize (A3 q Hq). rewrite cnt_cons in A3. destruct (decide (p = q)); [congruence|].
    by rewrite ?Z.add_0_l in A3. }
  rewrite Hr, Ec, s32_small by lia. replace (1 + cnt p L - 1) with (cnt p L) by lia.
  destruct (Z.ltb_spec 0 (cnt p L)) as [Hpos|Hpos]; (eexists; split; [reflexivity|]).
  - split; cbn [v_fs v_heap v_files]; rewrite ?(dom_insert_lookup_L _ _ _ (mk_is_Some _ _ Hf)); [done|done| |lia].
    intros q Hq. destruct (decide (p = q)) as [<-|]; [rewrite lookup_insert_eq; simpl; lia|].
    rewrite lookup_insert_ne by done. by apply Hother.
  - assert (dom (delete p (<[p := FileHandle (f_node f) (f_offset f) (f_mode f) (cnt p L)]> (v_files v)))
      = dom (v_files v) ∖ {[p]}) as Ed by (rewrite delete_insert_eq, dom_delete_L; done).
    assert (p ∈ dom (v_files v)) as Hd by by apply elem_of_dom.
    split; cbn [v_fs v_heap v_files]; rewrite ?Ed; [|set_solver| |lia].
    + apply hh_free; [set_solver|].
      replace ({[p]} ∪ (B ∪ dom (v_files v) ∖ {[p]})) with (B ∪ dom (v_files v))
        by (apply set_eq; intros x; destruct (decide (x = p)); set_solver).
      assert (forall w, hh_ok w (v_heap v) (B ∪ dom (v_files v)) ->
        hh_ok w (if f_node f =? 0 then v_heap v else autofree w (v_heap v) (f_node f)) (B ∪ dom (v_files v))) as Ha.
      { intros w Hw. destruct (_ =? 0); [done|by apply hh_autofree]. }
      apply Ha. destruct (f_node f =? 0); [done|].
      destruct (op_close (v_fs v) (f_node f)) as [w|] eqn:Eo; [|done]. eapply hh_step; [by eapply FsClose|done].
    + intros q Hq. destruct (decide (p = q)) as [<-|]; [rewrite lookup_delete_eq; lia|].
      rewrite lookup_delete_ne, lookup_insert_ne by done. by apply Hother.
Qed.

(** A new handle with one reference on it. *)
Lemma acct_new B v L p f : p <> 0 -> ref_count f = 1 -> p ∉ B -> Z.of_nat (length L) + 1 < 2 ^ 31 ->
  acct ({[p]} ∪ B) v L -> acct B (VSt (v_fs v) (v_heap v) (<[p := f]> (v_files v))) (p :: L).
Proof.
  intros Hp0 Hr HB Hl [A1 A2 A3 A4]. assert (p ∉ dom (v_files v)) as Hd by set_solver.
  split; cbn [v_fs v_heap v_files].
  - rewrite dom_insert_L. by replace (B ∪ ({[p]} ∪ dom (v_files v))) with ({[p]} ∪ B ∪ dom (v_files v)) by set_solver.
  - rewrite dom_insert_L. set_solver.
  - intros q Hq. rewrite cnt_cons. specialize (A3 q Hq). destruct (decide (p = q)) as [<-|].
    + rewrite lookup_insert_eq. rewrite (not_elem_of_dom_1 _ _ Hd) in A3. lia.
    + by rewrite lookup_insert_ne, Z.add_0_l.
  - simpl. lia.
Qed.

(** Allocation of a block for the calls. *)
Lemma acct_alloc B v L size p h : 0 < size -> acct B v L -> nh_alloc (v_heap v) size = (p, h) ->
  if p =? 0 then acct B (VSt (v_fs v) h (v_files v)) L
  else p ∉ B /\ acct ({[p]} ∪ B) (VSt (v_fs v) h (v_files v)) L.
Proof.
  intros Hs [A1 A2 A3 A4] E. pose proof (hh_alloc _ _ _ size Hs A1) as Ha. rewrite E in Ha.
  destruct (p =? 0); [by split|]. destruct Ha as [Hin Ha]. split; [set_solver|].
  split; try done; [|set_solver]. cbn [v_fs v_heap v_files]. by rewrite <- (assoc_L (∪)).
Qed.

Lemma acct_free B v L p : p ∉ B -> acct ({[p]} ∪ B) v L -> acct B (VSt (v_fs v) (nh_free (v_heap v) p) (v_files v)) L.
Proof.
  intros HB [A1 A2 A3 A4]. split; try done; [|set_solver]. cbn [v_fs v_heap v_files].
  apply hh_free; [set_solver|]. by rewrite (assoc_L (∪)).
Qed.

Lemma new_handle_acct v L node mode : acct ∅ v L -> Z.of_nat (length L) + 1 < 2 ^ 31 ->
  acct ∅ (new_handle v node mode).2 ((new_handle v node mode).1 :: L).
Proof.
  intros I Hl. unfold new_handle. destruct (nh_alloc _ _) as [p h] eqn:E.
  pose proof (acct_alloc _ _ _ sizeof_file_handle _ _ eq_refl I E) as Ha. destruct (Z.eqb_spec p 0) as [->|Hp0]; [by apply acct_null|].
  destruct Ha as [_ Ha].
  by apply (acct_new ∅ (VSt (v_fs v) h (v_files v)) L p (FileHandle _ _ _ _) Hp0).
Qed.

Lemma create_node_acct v L path mode r : acct ∅ v L -> create_node (v_fs v) path mode = Some r -> acct ∅ (with_fs v r.2) L.
Proof.
  intros I. unfold create_node. destruct (last_slash path) as [i|]; [|intros [= <-]; by destruct v].
  destruct (parent_child path i) as [[pp cn]|]; [|done]. cbn [mbind option_bind].
  pose proof (FsNavigate (v_fs v) pp) as Hs. destruct (navigate (v_fs v) pp) as [n w].
  apply (acct_step _ _ _ _ I) in Hs. cbn [snd] in Hs.
  destruct (n =? 0); [by intros [= <-]|]. destruct (op_create w n) as [f|] eqn:Ef; [|by intros [= <-]].
  pose proof (FsCreate w n f cn mode Ef) as Hc. destruct (f cn mode) as [n' w']. cbn [snd] in Hc.
  apply (acct_step _ _ _ _ Hs) in Hc.
  destruct (n' =? 0); intros [= <-]; [|done]. apply (acct_step _ _ _ _ Hc), FsNavigate.
Qed.

Lemma open_acct v L path mode p v' : acct ∅ v L -> Z.of_nat (length L) + 1 < 2 ^ 31 ->
  vfs_open v path mode = Some (p, v') -> acct ∅ v' (p :: L).
Proof.
  intros I Hl. unfold vfs_open. pose proof (proj2 (acct_null ∅ v L Hl) I) as I0.
  destruct (_ =? 0); [by intros [= <- <-]|]. destruct (bool_decide _).
  - destruct (_ =? 0); [by intros [= <- <-]|]. intros [= E]. rewrite (surjective_pairing (new_handle _ _ _)) in E.
    injection E as <- <-. apply new_handle_acct; [|done]. destruct (is_set mode O_TRUNC); [|by destruct v].
    destruct (op_truncate _ _) as [w|] eqn:Et.
    + apply (acct_step ∅ (with_fs v w) _ L); [|apply FsSetLength]. apply acct_step; [done|by eapply FsTruncate].
    + apply acct_step; [done|apply FsSetLength].
  - pose proof (FsNavigate (v_fs v) path) as Hs. destruct (navigate (v_fs v) path) as [n w].
    apply (acct_step _ _ _ _ I) in Hs. cbn [snd] in Hs.
    destruct (if n =? 0 then _ else _) as [[n' w']|] eqn:Er; [|done]. cbn [mbind option_bind].
    assert (acct ∅ (with_fs v w') L) as Iw.
    { destruct (n =? 0); [|by injection Er as <- <-]. destruct (is_set mode O_CREAT); [|by injection Er as <- <-].
      by apply (create_node_acct (with_fs v w) L path mode (n', w')). }
    destruct (n' =? 0); [intros [= <- <-]; by apply acct_null|].
    intros [= E]. rewrite (surjective_pairing (new_handle _ _ _)) in E. injection E as <- <-.
    apply new_handle_acct; [|done].
    assert (acct ∅ (with_fs v (match op_open w' n' with Some o => o mode | None => w' end)) L) as Io.
    { destruct (op_open w' n') as [o|] eqn:Eo; [|done]. apply (acct_step _ _ _ _ Iw). by eapply FsOpen. }
    destruct (is_set mode O_TRUNC); [|done]. apply (acct_step _ _ _ _ Io), FsSetLength.
Qed.

Lemma transfer_acct B v L op p size buf :
  (forall w n f o s b, op w n = Some f -> fs_step w (f o s b).2) -> acct B v L -> p ∈ L ->
  exists n v', transfer op v p size buf = Some (n, v') /\ acct B v' L.
Proof.
  intros Hop I Hin. unfold transfer. destruct (Z.eqb_spec p 0) as [->|Hp0]; [by eexists _, _|].
  destruct (acct_live _ _ _ _ I Hp0 Hin) as (f & Hf & _). rewrite Hf. cbn [mbind option_bind].
  destruct (_ =? 0); [by eexists _, _|]. destruct (op (v_fs v) (f_node f)) as [rw|] eqn:Eo; [|by eexists _, _].
  pose proof (Hop _ _ _ (f_offset f) size buf Eo) as Hs. destruct (rw _ _ _) as [n w]. eexists _, _. split; [done|].
  apply (acct_step _ _ _ _ I) in Hs. by eapply (acct_same _ _ _ p f) in Hs.
Qed.

Lemma seek_acct B v L p o : acct B v L -> p <> 0 -> p ∈ L -> exists v', vfs_seek v p o = Some v' /\ acct B v' L.
Proof.
  intros I Hp0 Hin. destruct (acct_live _ _ _ _ I Hp0 Hin) as (f & Hf & _). unfold vfs_seek. rewrite Hf.
  eexists. split; [done|]. by eapply acct_same.
Qed.

Lemma readdir_acct B v L n i o : acct B v L -> acct B (vfs_readdir v n i o).2 L.
Proof.
  intros I. unfold vfs_readdir. destruct (_ =? 0); [done|]. destruct (op_readdir (v_fs v) n) as [f|] eqn:Ef; [|done].
  destruct (_ =? 0); [done|]. pose proof (FsReaddir _ _ _ i o Ef) as Hs. destruct (f i o). by apply acct_step.
Qed.

Lemma unlink_acct B v L path : acct B v L -> acct B (vfs_unlink v path).2 L.
Proof.
  intros I. unfold vfs_unlink. pose proof (FsNavigate (v_fs v) path) as Hs. destruct (navigate _ _) as [n w].
  apply (acct_step _ _ _ _ I) in Hs. cbn [snd] in Hs. destruct (n =? 0); [done|].
  destruct (op_unlink w n) as [w'|] eqn:Eu; [|done]. apply (FsUnlink w) in Eu.
  apply (acct_step _ _ _ _ Hs) in Eu. destruct Eu as [A1 A2 A3 A4]. split; try done. by apply hh_autofree.
Qed.
End Acct.
