(* ===== verification/SysFileOps.v ===== *)
(** The invariant of open files under the system calls and task events of
    [SysFile]: every descriptor that is not NULL names an open handle, and the
    reference count of each open handle is the number of descriptors, of all
    tasks, that name it.  So no call uses a freed handle, none is freed while
    a descriptor holds it, and each is freed with its last descriptor. *)
From S2P Require Import Prelude Machine Pmm Frames Kmalloc VmRegions Vfs VfsFile SysFile SysFileInv.

(** All descriptors of all tasks. *)
Definition all_fds (m : gmap Z tfiles) : list Z := map_to_list m ≫= (fun at_ => tf_fds at_.2).

Lemma all_fds_new m a t : m !! a = None -> all_fds (<[a := t]> m) ≡ₚ tf_fds t ++ all_fds m.
Proof. intros E. unfold all_fds. by rewrite (map_to_list_insert _ _ _ E). Qed.

Lemma all_fds_insert m a t : all_fds (<[a := t]> m) ≡ₚ tf_fds t ++ all_fds (delete a m).
Proof. rewrite <- insert_delete_eq. apply all_fds_new, lookup_delete_eq. Qed.

Lemma all_fds_lookup m a t : m !! a = Some t -> all_fds m ≡ₚ tf_fds t ++ all_fds (delete a m).
Proof. intros E. rewrite <- all_fds_insert. by rewrite insert_id. Qed.

Definition tables_ok (m : gmap Z tfiles) : Prop := map_Forall (fun _ t => length (tf_fds t) = MAX_OPEN_FILES) m.

Lemma all_fds_length m : tables_ok m -> length (all_fds m) = (MAX_OPEN_FILES * size m)%nat.
Proof.
  induction m as [|a t m Ha IH] using map_ind; [done|].
  intros Ht%map_Forall_insert; [|done]. destruct Ht as [Ht Hm].
  rewrite (all_fds_new _ _ _ Ha), length_app, Ht, (IH Hm), map_size_insert_None by done. lia.
Qed.

(** One entry of a table, taken out of the list of all descriptors. *)
Lemma fput_perm t fd : length (tf_fds t) = MAX_OPEN_FILES -> bad_fd fd = false ->
  exists rest, tf_fds t ≡ₚ fget t fd :: rest /\ forall p, tf_fds (fput t fd p) ≡ₚ p :: rest.
Proof.
  intros Hl Hfd. unfold bad_fd in Hfd. apply orb_false_iff in Hfd as [? ?].
  assert (Z.to_nat fd < length (tf_fds t))%nat as Hlt by (rewrite Hl in *; lia).
  unfold fget, fput, set_fds. cbn [tf_fds]. apply lookup_lt_is_Some in Hlt as [x Hx]. rewrite Hx. cbn [default].
  exists (take (Z.to_nat fd) (tf_fds t) ++ drop (S (Z.to_nat fd)) (tf_fds t)). split.
  - rewrite <- (take_drop_middle _ _ _ Hx) at 1. by rewrite <- Permutation_middle.
  - intros p. rewrite insert_take_drop by (by apply lookup_lt_Some in Hx). by rewrite <- Permutation_middle.
Qed.

Lemma put_fd_perm m a t fd : tables_ok m -> m !! a = Some t -> bad_fd fd = false ->
  exists rest, all_fds m ≡ₚ fget t fd :: rest /\ forall p, all_fds (<[a := fput t fd p]> m) ≡ₚ p :: rest.
Proof.
  intros Hm Ha Hfd. destruct (fput_perm t fd (Hm _ _ Ha) Hfd) as (rest & E1 & E2).
  exists (rest ++ all_fds (delete a m)). split.
  - by rewrite (all_fds_lookup _ _ _ Ha), E1.
  - intros p. by rewrite all_fds_insert, E2.
Qed.

Lemma fput_length t fd p : length (tf_fds (fput t fd p)) = length (tf_fds t).
Proof. apply length_insert. Qed.

Lemma tables_insert m a t : tables_ok m -> length (tf_fds t) = MAX_OPEN_FILES -> tables_ok (<[a := t]> m).
Proof. intros. by apply map_Forall_insert_2. Qed.
Lemma tables_put m a t fd p : tables_ok m -> m !! a = Some t -> tables_ok (<[a := fput t fd p]> m).
Proof. intros Hm Ha. apply tables_insert; [done|]. rewrite fput_length. by eapply Hm. Qed.

(** The free descriptor found is the lowest from 3 on; -1: all are used. *)
Lemma find_free_fd_spec t : let fd := find_free_fd t in
  (fd = -1 /\ forall i, 3 <= i < 16 -> fget t i <> 0) \/
  (3 <= fd < 16 /\ fget t fd = 0 /\ bad_fd fd = false /\ (fd <? 0) = false /\ forall i, 3 <= i < fd -> fget t i <> 0).
Proof.
  intros fd. subst fd. unfold find_free_fd. destruct (scan _ _ _) as [i|] eqn:E; simpl default; [right|left].
  - apply scan_Some in E as (Hr & Hz%Z.eqb_eq & Hlow). change (Z.of_nat (MAX_OPEN_FILES - 3)) with 13 in Hr.
    unfold bad_fd. change (Z.of_nat MAX_OPEN_FILES) with 16. split_and!; [lia|lia|done|lia|lia|].
    intros j Hj. specialize (Hlow j Hj). cbn beta in Hlow. lia.
  - split; [done|]. intros j Hj. rewrite scan_None in E. specialize (E j).
    change (Z.of_nat (MAX_OPEN_FILES - 3)) with 13 in E. cbn beta in E. lia.
Qed.

(** ** Resolved paths *)
Definition short_name (n : list Z) : Prop := (length n <= 31)%nat /\ SLASH ∉ n.

Lemma Forall_removelast {A} (P : A -> Prop) l : Forall P l -> Forall P (removelast l).
Proof.
  induction l as [|x l IH]; [done|]. intros Hx. inversion_clear Hx as [|? ? Hx1 Hl]. destruct l; [constructor|].
  constructor; [done|]. by apply IH.
Qed.

Lemma end_component_short name stack names : SLASH ∉ name -> Forall short_name stack ->
  end_component name stack = Some names -> Forall short_name names.
Proof.
  intros Hn Hs. unfold end_component. destruct (Nat.ltb_spec 31 (length name)) as [|Hl]; [done|].
  destruct (decide (name = [])) as [|]; [by intros [= <-]|].
  destruct (decide (name = DOTDOT)) as [|]; [intros [= <-]; by apply Forall_removelast|].
  destruct (decide (name = DOT)) as [|]; [by intros [= <-]|].
  destruct (_ <? 32)%nat; [|done]. intros [= <-]. apply Forall_app. split; [done|]. constructor; [done|constructor].
Qed.

Lemma rp_loop_short l name stack names : SLASH ∉ name -> Forall short_name stack ->
  rp_loop l name stack = Some names -> Forall short_name names.
Proof.
  revert name stack. induction l as [|c l IH]; intros name stack Hn Hs; simpl; [by apply end_component_short|].
  destruct (Z.eqb_spec c SLASH) as [->|Hc].
  - destruct (end_component name stack) as [s|] eqn:E; [|done]. apply IH; [apply not_elem_of_nil|].
    by eapply end_component_short.
  - destruct (_ <? 32)%nat; [|done]. apply IH; [|done]. rewrite elem_of_app, list_elem_of_singleton. naive_solver.
Qed.

(** The name after the last slash of a resolved path is short. *)
Lemma resolved_last cwd path out i : resolved cwd path = Some out -> last_slash out = Some i ->
  (length (drop (S i) out) <= 31)%nat.
Proof.
  unfold resolved, resolve_path. destruct (255 <? _)%nat; [done|]. cbn [negb].
  destruct (rp_loop _ [] []) as [names|] eqn:E; [|done]. intros [= <-].
  apply rp_loop_short in E; [|apply not_elem_of_nil|constructor].
  destruct names as [|n names _] using rev_ind; [intros [= <-]; simpl; lia|].
  apply Forall_app in E as [_ Hn]. inversion_clear Hn as [|? ? [Hl Hs] _].
  assert (exists d, render (names ++ [n]) = d ++ SLASH :: n) as [d Ed].
  { clear. induction names as [|m names [d Ed]]; [by exists []|]. exists (SLASH :: m ++ d).
    simpl. rewrite <- app_assoc, <- Ed. unfold render. simpl. by destruct names. }
  rewrite Ed, (last_slash_split d n Hs). intros [= <-]. rewrite drop_app_ge by lia.
  by replace (S (length d) - length d)%nat with 1%nat by lia.
Qed.

Section Inv.
Context {W Hp : Type} `{HandleHeap W Hp}.
Implicit Types (st : fsys W Hp) (t : tfiles) (v : vst W Hp).

Record files_inv st : Prop := {
  fi_acct : acct ∅ (fs_v st) (all_fds (fs_tasks st));
  fi_tables : tables_ok (fs_tasks st);
  fi_curr : fs_curr st <> 0;
  fi_task : is_Some (curr_task st) }.

(** The outcome of a call: the invariant again, or the failure [P]. *)
Definition keeps (P : Prop) (o : option (Z * fsys W Hp)) : Prop :=
  match o with Some (_, st') => files_inv st' | None => P end.

Lemma keeps_fail P st : files_inv st -> keeps P (fail st).
Proof. done. Qed.

Lemma all_fds_room st : files_inv st -> Z.of_nat (length (all_fds (fs_tasks st))) + 16 <= 2 ^ 31.
Proof.
  intros [I Ht _ _]. pose proof (ac_len _ _ _ I) as Hl. rewrite (all_fds_length _ Ht) in *. cbn in *. lia.
Qed.

(** Only the open files change. *)
Lemma inv_with_v st v : files_inv st -> acct ∅ v (all_fds (fs_tasks st)) -> files_inv (with_v st v).
Proof. intros [I Ht Hc Hk] Iv. by split. Qed.

Lemma fget_in st t fd : files_inv st -> curr_task st = Some t -> bad_fd fd = false -> fget t fd ∈ all_fds (fs_tasks st).
Proof.
  intros [I Ht _ _] Hc Hfd. destruct (put_fd_perm _ _ _ _ Ht Hc Hfd) as (rest & E & _). rewrite E.
  apply list_elem_of_here.
Qed.

(** A descriptor of task [a] changes, and the files with it. *)
Lemma inv_put st a t fd p v : files_inv st -> fs_tasks st !! a = Some t -> bad_fd fd = false ->
  (forall rest, all_fds (fs_tasks st) ≡ₚ fget t fd :: rest -> acct ∅ v (p :: rest)) ->
  files_inv (put_task (with_v st v) a (fput t fd p)).
Proof.
  intros [I Ht Hc Hk] Ha Hfd Hv. destruct (put_fd_perm _ _ _ _ Ht Ha Hfd) as (rest & E1 & E2).
  split; cbn [fs_v fs_tasks fs_curr put_task with_tasks with_v].
  - rewrite E2. by apply Hv.
  - by apply tables_put.
  - done.
  - unfold curr_task. cbn. destruct (decide (a = fs_curr st)) as [->|]; [rewrite lookup_insert_eq; eauto|].
    by rewrite lookup_insert_ne.
Qed.

Lemma set_fd_curr st t v fd p : curr_task st = Some t ->
  set_fd (with_v st v) fd p = Some (put_task (with_v st v) (fs_curr st) (fput t fd p)).
Proof. intros Hc. unfold set_fd. change (curr_task (with_v st v)) with (curr_task st). by rewrite Hc. Qed.

(** [case_task]: the current task of a state with the invariant; [use_fd]: the
    tests of a descriptor number and of its entry. *)
Ltac case_task I t Hc := destruct (fi_task _ I) as [t Hc]; rewrite ?Hc; cbn [mbind option_bind];
  rewrite ?(proj2 (Z.eqb_neq _ _) (fi_curr _ I)); rewrite ?Hc; cbn [mbind option_bind].

Lemma transfer_inv st rw a1 a2 a3 :
  (forall v L p size buf, acct ∅ v L -> p ∈ L -> exists n v', rw v p size buf = Some (n, v') /\ acct ∅ v' L) ->
  files_inv st -> keeps False (sys_transfer rw st a1 a2 a3).
Proof.
  intros Hrw I. unfold sys_transfer. destruct (bad_fd (s8 a1)) eqn:Hfd; [done|]. case_task I t Hc.
  destruct (Z.eqb_spec (fget t (s8 a1)) 0) as [|Hp0]; [done|]. destruct (negb _); [done|].
  destruct (Hrw (fs_v st) _ _ a3 a2 (fi_acct _ I) (fget_in _ _ _ I Hc Hfd)) as (n & v' & -> & Iv).
  cbn [mbind option_bind keeps]. by apply inv_with_v.
Qed.

Lemma lseek_inv st a1 a2 a3 : files_inv st -> keeps False (sys_lseek st a1 a2 a3).
Proof.
  intros I. unfold sys_lseek. destruct (bad_fd (s32 a1)) eqn:Hfd; [done|]. case_task I t Hc.
  destruct (Z.eqb_spec (fget t (s32 a1)) 0) as [|Hp0]; [done|].
  pose proof (fget_in _ _ _ I Hc Hfd) as Hin. destruct (acct_live _ _ _ _ (fi_acct _ I) Hp0 Hin) as (f & Hf & _).
  rewrite Hf. cbn [mbind option_bind]. destruct (_ =? 0); [done|].
  set (o := if _ =? SEEK_SET then _ else _). clearbody o. destruct o as [n|]; [|done]. destruct (n <? 0); [done|].
  destruct (seek_acct _ _ _ _ n (fi_acct _ I) Hp0 Hin) as (v' & -> & Iv). cbn. by apply inv_with_v.
Qed.

Lemma close_inv st a1 : files_inv st -> keeps False (sys_close st a1).
Proof.
  intros I. unfold sys_close. destruct (bad_fd (s8 a1)) eqn:Hfd; [done|]. case_task I t Hc.
  destruct (Z.eqb_spec (fget t (s8 a1)) 0) as [|Hp0]; [done|].
  destruct (put_fd_perm _ _ _ _ (fi_tables _ I) Hc Hfd) as (rest & E & _).
  pose proof (fi_acct _ I) as Ia. rewrite E in Ia. destruct (close_acct _ _ _ _ Ia) as (v' & -> & Iv).
  cbn [mbind option_bind]. rewrite (set_fd_curr _ _ _ _ _ Hc). cbn [mbind option_bind keeps].
  apply inv_put; [done..|]. intros rest' E'. rewrite E in E'. apply Permutation_cons_inv in E'. rewrite <- E'.
  apply acct_null; [|done]. pose proof (ac_len _ _ _ Ia). by simpl in *; lia.
Qed.

Lemma dup2_inv st a1 a2 : files_inv st -> keeps False (sys_dup2 st a1 a2).
Proof.
  intros I. unfold sys_dup2. case_task I t Hc. destruct (bad_fd (s32 a1)) eqn:Ho; [done|].
  destruct (bad_fd (s32 a2)) eqn:Hn; [done|]. cbn [orb].
  destruct (Z.eqb_spec (fget t (s32 a1)) 0) as [|Hp0]; [done|]. destruct (Z.eqb_spec (s32 a1) (s32 a2)) as [|Hne]; [done|].
  set (old := fget t (s32 a1)) in *. set (new_fd := s32 a2) in *. pose proof (fi_tables _ I) as Ht.
  destruct (put_fd_perm _ _ _ _ Ht Hc Hn) as (rest & E1 & E2).
  assert (old ∈ rest) as Hin.
  { destruct (put_fd_perm _ _ _ (s32 a1) (tables_put _ _ _ new_fd 0 Ht Hc) (lookup_insert_eq _ _ _) Ho) as (rest' & E' & _).
    rewrite E2 in E'. assert (fget (fput t new_fd 0) (s32 a1) = old) as Eo.
    { unfold fget, fput. cbn [tf_fds set_fds]. unfold bad_fd in Ho, Hn. rewrite list_lookup_insert_ne; [done|lia]. }
    rewrite Eo in E'. apply (elem_of_Permutation_proper old) in E'. rewrite !elem_of_cons in E'.
    destruct (proj2 E') as [?|?]; [by left|congruence|done]. }
  pose proof (fi_acct _ I) as Ia. pose proof (all_fds_room _ I) as Hroom. rewrite E1 in Ia, Hroom. cbn [length] in Hroom.
  set (o := if fget t new_fd =? 0 then _ else _).
  assert (exists v1, (o ≫= fun st1 => set_fd st1 new_fd old) = Some (put_task (with_v st v1) (fs_curr st) (fput t new_fd old)) /\
    acct ∅ v1 rest) as (v1 & E3 & I1).
  { unfold o. destruct (Z.eqb_spec (fget t new_fd) 0) as [Ez|Ez].
    - exists (fs_v st). rewrite Ez in Ia. split; [|by apply acct_unnull in Ia]. cbn. unfold set_fd. by rewrite Hc.
    - destruct (close_acct _ _ _ _ Ia) as (v' & -> & Iv). exists v'. cbn [mbind option_bind].
      rewrite (set_fd_curr _ _ _ _ _ Hc). cbn [mbind option_bind]. split; [|done].
      unfold set_fd, curr_task, put_task, with_tasks, with_v. cbn. rewrite lookup_insert_eq. cbn.
      rewrite insert_insert_eq. unfold fput, set_fds. cbn. by rewrite list_insert_insert_eq. }
  destruct o as [st1|]; [|done]. cbn [mbind option_bind] in *. rewrite E3. cbn [mbind option_bind].
  destruct (retain_acct ∅ v1 rest old I1 Hp0 Hin) as (v2 & Ev & I2 & _); [lia|].
  cbn [fs_v put_task with_tasks with_v]. rewrite Ev. cbn [mbind option_bind keeps].
  apply (inv_put st (fs_curr st) t new_fd old v2 I Hc Hn). intros r Er. rewrite E1 in Er.
  apply Permutation_cons_inv in Er. by rewrite <- Er.
Qed.

(** *** Calls with a path *)
(** The path at [a1] does not fit the buffers of [resolve_path]; for [sys_open] also
    those of [vfs_open]. *)
Definition unfit st (cwd : list Z) (opening : bool) (a1 : Z) : Prop :=
  exists s, copy_string_from_user (v_fs (fs_v st)) a1 256 = Some s /\
    (resolved cwd s = None \/ opening = true /\ exists path, resolved cwd s = Some path /\ (127 < length path)%nat).

Lemma open_total v path mode : (length path <= 127)%nat -> exists p v', vfs_open v path mode = Some (p, v').
Proof.
  intros Hl. unfold vfs_open. destruct (_ =? 0); [eauto|]. destruct (bool_decide _).
  - destruct (_ =? 0); [eauto|]. destruct (new_handle _ _ _). eauto.
  - destruct (navigate _ _) as [n w]. destruct (n =? 0).
    + destruct (is_set mode O_CREAT).
      * destruct (create_node_total w path mode Hl) as (n' & w' & ->). cbn [mbind option_bind].
        destruct (n' =? 0); [eauto|]. destruct (new_handle _ _ _). eauto.
      * simpl. eauto.
    + cbn [mbind option_bind]. destruct (n =? 0); [eauto|]. destruct (new_handle _ _ _). eauto.
Qed.

Lemma open_inv st t a1 a2 : files_inv st -> curr_task st = Some t ->
  keeps (unfit st (tf_cwd t) true a1) (sys_open st a1 a2).
Proof.
  intros I Hc. unfold sys_open. destruct (copy_string_from_user _ _ _) as [s|] eqn:Es; [|done].
  rewrite Hc. cbn [mbind option_bind].
  destruct (find_free_fd_spec t) as [[-> _]|(Hr & Hz & Hfd & -> & _)]; [done|].
  destruct (resolved (tf_cwd t) s) as [path|] eqn:Ep; cbn [mbind option_bind]; [|exists s; by eauto].
  destruct (vfs_open _ _ _) as [[p v]|] eqn:Eo; cbn [mbind option_bind].
  - pose proof (fi_acct _ I) as Ia. pose proof (all_fds_room _ I) as Hroom.
    apply (open_acct _ _ _ _ _ _ Ia) in Eo; [|lia]. destruct (Z.eqb_spec p 0) as [->|Hp0].
    + apply inv_with_v; [done|]. by apply acct_unnull.
    + rewrite (set_fd_curr _ _ _ _ _ Hc). cbn [mbind option_bind keeps]. apply inv_put; [done..|].
      intros rest E. rewrite E, Hz in Eo. rewrite Permutation_swap in Eo. by apply acct_unnull in Eo.
  - destruct (decide (length path <= 127)%nat) as [Hl|Hl].
    + destruct (open_total (fs_v st) path (u32 a2) Hl) as (p & v & E). congruence.
    + exists s. split; [done|]. right. split; [done|]. exists path. split; [done|lia].
Qed.

Lemma inv_cwd st t cwd : files_inv st -> curr_task st = Some t ->
  files_inv (put_task st (fs_curr st) (TFiles (tf_fds t) cwd (tf_pid t))).
Proof.
  intros [I Ht Hc Hk] Et. split; cbn.
  - rewrite all_fds_insert. cbn. by rewrite <- (all_fds_lookup _ _ _ Et).
  - apply tables_insert; [done|]. exact (Ht _ _ Et).
  - done.
  - unfold curr_task. cbn. rewrite lookup_insert_eq. eauto.
Qed.

Lemma inv_user st m : files_inv st -> files_inv (with_user st m).
Proof. intros I. apply inv_with_v; [done|]. apply acct_step; [apply I|apply FsUser]. Qed.

Lemma chdir_inv st t a1 : files_inv st -> curr_task st = Some t -> keeps (unfit st (tf_cwd t) false a1) (sys_chdir st a1).
Proof.
  intros I Hc. unfold sys_chdir. destruct (copy_string_from_user _ _ _) as [s|] eqn:Es; [|done].
  rewrite Hc. cbn [mbind option_bind]. destruct (resolved _ _) as [path|] eqn:Ep; cbn [mbind option_bind]; [|exists s; by eauto].
  destruct (_ <=? _)%nat; [done|]. by apply inv_cwd.
Qed.

Lemma getcwd_inv st a1 a2 : files_inv st -> keeps False (sys_getcwd st a1 a2).
Proof.
  intros I. unfold sys_getcwd. destruct (negb _); [done|]. case_task I t Hc. destruct (_ <? _); [done|].
  by apply inv_user.
Qed.

Lemma unlink_inv st t a1 : files_inv st -> curr_task st = Some t -> keeps (unfit st (cwd_or_root t) false a1) (sys_unlink st a1).
Proof.
  intros I Hc. unfold sys_unlink. destruct (copy_string_from_user _ _ _) as [s|] eqn:Es; [|done].
  rewrite Hc. cbn [mbind option_bind]. destruct (resolved _ _) as [path|] eqn:Ep; cbn [mbind option_bind]; [|exists s; by eauto].
  destruct (_ <=? _)%nat; [done|]. pose proof (unlink_acct ∅ _ _ path (fi_acct _ I)) as Iu.
  destruct (vfs_unlink _ _) as [r v]. by apply inv_with_v.
Qed.

Lemma mkdir_inv st t a1 a2 : files_inv st -> curr_task st = Some t ->
  keeps (unfit st (cwd_or_root t) false a1) (sys_mkdir st a1 a2).
Proof.
  intros I Hc. unfold sys_mkdir. destruct (copy_string_from_user _ _ _) as [s|] eqn:Es; [|done].
  rewrite Hc. cbn [mbind option_bind]. destruct (resolved _ _) as [path|] eqn:Ep; cbn [mbind option_bind]; [|exists s; by eauto].
  destruct (_ <=? _)%nat; [done|]. destruct (last_slash path) as [i|] eqn:El; [|done].
  pose proof (resolved_last _ _ _ _ Ep El) as Hshort. rewrite (proj2 (Nat.ltb_ge _ _)) by lia.
  set (pp := if (i =? 0)%nat then _ else _). pose proof (FsNavigate (v_fs (fs_v st)) pp) as Hs.
  destruct (navigate _ pp) as [n w]. cbn [snd] in Hs. apply (acct_step _ _ _ _ (fi_acct _ I)) in Hs.
  destruct (n =? 0); [by apply inv_with_v|]. destruct (op_create w n) as [f|] eqn:Ef; [|by apply inv_with_v].
  pose proof (FsCreate w n f (drop (S i) path) (u32 a2) Ef) as Hcr. destruct (f _ _) as [n1 w1]. cbn [snd] in Hcr.
  apply (acct_step _ _ _ _ Hs) in Hcr. pose proof (FsNavigate w1 path) as Hn. destruct (navigate w1 path) as [n2 w2].
  apply (acct_step _ _ _ _ Hcr) in Hn. cbn [keeps]. by apply (inv_with_v st (with_fs (fs_v st) w2)).
Qed.

Lemma readdir_inv st a1 a2 a3 : files_inv st -> keeps False (sys_readdir st a1 a2 a3).
Proof.
  intros I. unfold sys_readdir. destruct (bad_fd (s32 a1)) eqn:Hfd; [done|]. case_task I t Hc.
  destruct (Z.eqb_spec (fget t (s32 a1)) 0) as [|Hp0]; [done|]. destruct (negb _); [done|].
  destruct (acct_live _ _ _ _ (fi_acct _ I) Hp0 (fget_in _ _ _ I Hc Hfd)) as (f & Hf & _). rewrite Hf. cbn [mbind option_bind].
  pose proof (readdir_acct ∅ _ _ (f_node f) (u32 a2) a3 (fi_acct _ I)) as Iv. destruct (vfs_readdir _ _ _ _) as [r v].
  by apply inv_with_v.
Qed.

Lemma fstat_inv st a1 a2 : files_inv st -> keeps False (sys_fstat st a1 a2).
Proof.
  intros I. unfold sys_fstat. destruct (bad_fd (s32 a1)) eqn:Hfd; [done|]. case_task I t Hc.
  destruct (Z.eqb_spec (fget t (s32 a1)) 0) as [|Hp0]; [done|].
  destruct (acct_live _ _ _ _ (fi_acct _ I) Hp0 (fget_in _ _ _ I Hc Hfd)) as (f & Hf & _). rewrite Hf. cbn [mbind option_bind].
  destruct (_ =? 0); [done|]. destruct (negb _); [done|]. destruct (stat_of _ _). by apply inv_user.
Qed.

Lemma getpid_inv st : files_inv st -> keeps False (sys_getpid st).
Proof. intros I. unfold sys_getpid. by case_task I t Hc. Qed.
End Inv.
