(* ===== verification/SysFileRun.v ===== *)
(** Descriptors over the life of tasks: [sys_pipe], the events that make, copy and
    empty descriptor tables, and the invariant of [SysFileOps] along every run of
    system calls and task events. *)
From S2P Require Import Prelude Machine Pmm Frames Kmalloc VmRegions Vfs VfsFile SysFile SysFileInv SysFileOps.
From stdpp Require Import relations.
#[local] Open Scope Z_scope.

Section Pipe.
Context {W Hp : Type} `{HandleHeap W Hp}.
Implicit Types (st : fsys W Hp) (t : tfiles) (v : vst W Hp) (B : gset Z) (L : list Z).

(** The state [st] with the files [v] and the current task's table [t]. *)
Definition pt st v t : fsys W Hp := put_task (with_v st v) (fs_curr st) t.

Lemma pt_id st t : curr_task st = Some t -> pt st (fs_v st) t = st.
Proof. intros Hc. unfold pt, put_task, with_tasks, with_v. cbn. rewrite insert_id by done. by destruct st. Qed.
Lemma pt_with_v st v t : curr_task st = Some t -> pt st v t = with_v st v.
Proof. intros Hc. unfold pt, put_task, with_tasks, with_v. cbn. by rewrite insert_id. Qed.
Lemma pt_curr st v t : curr_task (pt st v t) = Some t.
Proof. unfold pt, curr_task. cbn. apply lookup_insert_eq. Qed.
Lemma pt_set_fd st v t fd p : set_fd (pt st v t) fd p = Some (pt st v (fput t fd p)).
Proof.
  unfold set_fd. rewrite pt_curr. cbn [mbind option_bind]. unfold pt, put_task, with_tasks, with_v. cbn.
  by rewrite insert_insert_eq.
Qed.

(** Freeing a list of blocks. *)
Definition frees v (l : list Z) : vst W Hp := VSt (v_fs v) (foldl nh_free (v_heap v) l) (v_files v).
Lemma pt_kfrees st v t l : kfrees (pt st v t) l = pt st (frees v l) t.
Proof. done. Qed.

Lemma frees_acct B v L l : NoDup l -> (forall p, p ∈ l -> p ∉ B) -> acct (list_to_set l ∪ B) v L -> acct B (frees v l) L.
Proof.
  revert v. induction l as [|p l IH]; intros v Hnd Hl I.
  - rewrite list_to_set_nil, (left_id_L ∅ (∪)) in I. by destruct v.
  - apply NoDup_cons in Hnd as [Hpl Hnd]. rewrite list_to_set_cons, <- (assoc_L (∪)) in I. apply acct_free in I.
    + apply IH in I; [done|done|]. intros q Hq. apply Hl. by apply list_elem_of_further.
    + rewrite elem_of_union, elem_of_list_to_set. intros [?|Hb]; [done|]. by apply (Hl p); [apply list_elem_of_here|].
Qed.

Lemma kalloc_pt B st v t L size : 0 < size -> acct B v L -> exists p v', kalloc (pt st v t) size = (p, pt st v' t) /\
  v_fs v' = v_fs v /\ v_files v' = v_files v /\
  (p = 0 /\ acct B v' L \/ p <> 0 /\ p ∉ B /\ acct ({[p]} ∪ B) v' L).
Proof.
  intros Hs I. unfold kalloc. cbn [fs_v pt put_task with_tasks with_v]. destruct (nh_alloc _ _) as [p h] eqn:E.
  pose proof (acct_alloc _ _ _ _ _ _ Hs I E) as Ha. exists p, (VSt (v_fs v) h (v_files v)).
  split; [done|]. split; [done|]. split; [done|]. destruct (Z.eqb_spec p 0); naive_solver.
Qed.

Lemma fput_fput t fd x y : fput (fput t fd x) fd y = fput t fd y.
Proof. unfold fput, set_fds. cbn. by rewrite list_insert_insert_eq. Qed.
Lemma fput_id t fd : length (tf_fds t) = MAX_OPEN_FILES -> bad_fd fd = false -> fput t fd (fget t fd) = t.
Proof.
  intros Hl Hfd. unfold bad_fd in Hfd. apply orb_false_iff in Hfd as [? ?]. rewrite <- Hl in *.
  assert (Z.to_nat fd < length (tf_fds t))%nat as Hlt by lia. apply lookup_lt_is_Some in Hlt as [x Hx].
  unfold fput, fget, set_fds. rewrite Hx. cbn. rewrite list_insert_id by done. by destruct t.
Qed.
Lemma fget_fput_eq t fd x : length (tf_fds t) = MAX_OPEN_FILES -> bad_fd fd = false -> fget (fput t fd x) fd = x.
Proof.
  intros Hl Hfd. unfold bad_fd in Hfd. apply orb_false_iff in Hfd as [? ?]. rewrite <- Hl in *.
  unfold fput, fget, set_fds. cbn. rewrite list_lookup_insert_eq by lia. done.
Qed.
Lemma fget_fput_ne t fd fd' x : 0 <= fd -> 0 <= fd' -> fd <> fd' -> fget (fput t fd x) fd' = fget t fd'.
Proof. intros. unfold fput, fget, set_fds. cbn. by rewrite list_lookup_insert_ne by lia. Qed.
Lemma fput_comm t fd fd' x y : 0 <= fd -> 0 <= fd' -> fd <> fd' -> fput (fput t fd x) fd' y = fput (fput t fd' y) fd x.
Proof. intros. unfold fput, set_fds. cbn. by rewrite list_insert_insert_ne by lia. Qed.

Lemma pipe_blocks (D : gset Z) hr hw p r q : {[q]} ∪ ({[r]} ∪ ({[p]} ∪ ({[hw]} ∪ ({[hr]} ∪ ∅)))) ## D ->
  p ∉ ({[hw]} ∪ ({[hr]} ∪ ∅) : gset Z) -> r ∉ ({[p]} ∪ ({[hw]} ∪ ({[hr]} ∪ ∅)) : gset Z) ->
  q ∉ ({[r]} ∪ ({[p]} ∪ ({[hw]} ∪ ({[hr]} ∪ ∅))) : gset Z) ->
  let E := {[hw]} ∪ ({[hr]} ∪ ∅) ∪ D in
  {[hr]} ∪ ({[hw]} ∪ ∅) ## D /\ {[hr]} ∪ ({[hw]} ∪ ∅) ∪ D = E /\
  p ∉ E /\ r ∉ {[p]} ∪ E /\ q ∉ {[r]} ∪ ({[p]} ∪ E).
Proof.
  intros Hd Hp' Hr Hq E. unfold E. rewrite !not_elem_of_union, !not_elem_of_singleton in *.
  assert (forall x, x = q \/ x = r \/ x = p \/ x = hw \/ x = hr -> x ∉ D) as Hx.
  { intros x Hx HD. rewrite elem_of_disjoint in Hd. apply (Hd x); [|done]. rewrite !elem_of_union, !elem_of_singleton. tauto. }
  clear Hd. split; [rewrite elem_of_disjoint; intros x; rewrite !elem_of_union, !elem_of_singleton, elem_of_empty; intros; by apply (Hx x); [tauto|]|].
  split; [apply set_eq; intros x; rewrite !elem_of_union, !elem_of_singleton; tauto|].
  split_and!; try tauto; try (apply Hx; tauto); intros ?; subst; tauto.
Qed.

(** The blocks of a new pipe and its ends go to the drivers, the other two become
    open files. *)
Lemma pipe_acct v L hr hw p r q : acct ({[q]} ∪ ({[r]} ∪ ({[p]} ∪ ({[hw]} ∪ ({[hr]} ∪ ∅))))) v L ->
  hr <> 0 -> hw <> 0 -> hw ∉ ({[hr]} ∪ ∅ : gset Z) -> p ∉ ({[hw]} ∪ ({[hr]} ∪ ∅) : gset Z) ->
  r ∉ ({[p]} ∪ ({[hw]} ∪ ({[hr]} ∪ ∅)) : gset Z) -> q ∉ ({[r]} ∪ ({[p]} ∪ ({[hw]} ∪ ({[hr]} ∪ ∅))) : gset Z) ->
  Z.of_nat (length L) + 2 < 2 ^ 31 ->
  acct ∅ (VSt (pipe_setup (v_fs v) p r q) (v_heap v)
            (<[hw := FileHandle q 0 2 1]> (<[hr := FileHandle r 0 1 1]> (v_files v)))) (hw :: hr :: L).
Proof.
  intros [A1 A2 A3 A4] Hr0 Hw0 Hw Hp' Hr Hq Hl.
  set (v1 := VSt (pipe_setup (v_fs v) p r q) (v_heap v) (v_files v)).
  destruct (pipe_blocks _ _ _ _ _ _ A2 Hp' Hr Hq) as (D1 & D2 & D3 & D4 & D5).
  assert (acct ({[hr]} ∪ ({[hw]} ∪ ∅)) v1 L) as I1.
  { split; [|exact D1|done|done]. cbn [v_fs v_heap v_files v1]. rewrite D2.
    apply hh_pipe; [done..|]. by rewrite !(assoc_L (∪)) in *. }
  apply (acct_new _ _ _ hr (FileHandle r 0 1 1)) in I1; [|done|done|clear - Hw; set_solver|lia].
  apply (acct_new _ _ _ hw (FileHandle q 0 2 1)) in I1; [done..|clear; set_solver|simpl; lia].
Qed.

Lemma pipe_inv st a1 : files_inv st -> keeps False (sys_pipe st a1).
Proof.
  intros I. unfold sys_pipe. destruct (negb _); [done|]. destruct (fi_task _ I) as [t Hc].
  rewrite (proj2 (Z.eqb_neq _ _) (fi_curr _ I)), Hc. cbn [mbind option_bind].
  destruct (find_free_fd_spec t) as [[-> _]|(Hr & Hz & Hfd & -> & _)]; [done|].
  set (rfd := find_free_fd t) in *. pose proof (fi_tables _ I _ _ Hc) as Hlen. pose proof (fi_acct _ I) as Ia.
  pose proof (all_fds_room _ I) as Hroom. set (L := all_fds (fs_tasks st)) in *.
  rewrite <- (pt_id _ _ Hc) at 1.
  destruct (kalloc_pt ∅ st (fs_v st) t L sizeof_file_handle eq_refl Ia) as (hr & v1 & -> & Ew1 & Ef1 & [[-> I1]|(Hr0 & _ & I1)]).
  { cbn [Z.eqb]. rewrite pt_with_v by done. by apply inv_with_v. }
  rewrite (proj2 (Z.eqb_neq hr 0) Hr0), pt_set_fd. cbn [mbind option_bind]. rewrite pt_curr. cbn [mbind option_bind].
  set (t1 := fput t rfd hr). assert (fput t1 rfd 0 = t) as Eback1.
  { pose proof (fput_id t rfd Hlen Hfd) as E0. rewrite Hz in E0. unfold t1. by rewrite fput_fput. }
  assert (forall v, acct ∅ v L -> keeps False (fail (pt st v t))) as Hback.
  { intros v Iv. rewrite pt_with_v by done. by apply inv_with_v. }
  destruct (find_free_fd_spec t1) as [[-> _]|(Hr' & Hz' & Hfd' & -> & _)].
  { cbn [Z.ltb]. rewrite pt_set_fd, Eback1. cbn [mbind option_bind]. rewrite pt_kfrees. apply Hback, frees_acct.
    - apply NoDup_singleton. - intros. clear. set_solver. - by rewrite list_to_set_cons, list_to_set_nil, (right_id_L ∅ (∪)). }
  set (wfd := find_free_fd t1) in *. assert (rfd <> wfd) as Hne.
  { intros E. rewrite <- E in Hz'. unfold t1 in Hz'. rewrite fget_fput_eq in Hz' by done. done. }
  destruct (kalloc_pt _ st v1 t1 L sizeof_file_handle eq_refl I1) as (hw & v2 & -> & Ew2 & Ef2 & [[-> I2]|(Hw0 & Hw & I2)]).
  { cbn [Z.eqb]. rewrite pt_set_fd, Eback1. cbn [mbind option_bind]. rewrite pt_kfrees. apply Hback, frees_acct.
    - apply NoDup_singleton. - intros. clear. set_solver. - by rewrite list_to_set_cons, list_to_set_nil, (right_id_L ∅ (∪)). }
  rewrite (proj2 (Z.eqb_neq hw 0) Hw0), pt_set_fd. cbn [mbind option_bind].
  set (t2 := fput t1 wfd hw).
  assert (forall v l, NoDup l -> acct (list_to_set l) v L -> keeps False (pipe_undo (pt st v t2) rfd wfd l)) as Hundo.
  { intros v l Hnd Iv. unfold pipe_undo. rewrite pt_kfrees, pt_set_fd. cbn [mbind option_bind]. rewrite pt_set_fd.
    cbn [mbind option_bind]. replace (fput (fput t2 rfd 0) wfd 0) with t.
    - apply Hback, frees_acct; [done|intros; apply not_elem_of_empty|]. by rewrite (right_id_L ∅ (∪)).
    - unfold t2. rewrite (fput_comm t1 wfd rfd) by lia. rewrite Eback1, fput_fput.
      pose proof (fput_id t wfd Hlen Hfd') as E0. unfold t1 in Hz'. rewrite fget_fput_ne in Hz' by lia.
      by rewrite Hz' in E0. }
  destruct (kalloc_pt _ st v2 t2 L sizeof_Pipe eq_refl I2) as (p & v3 & -> & Ew3 & Ef3 & [[-> I3]|(Hp0 & Hpn & I3)]).
  { cbn [Z.eqb]. apply Hundo.
    - repeat constructor; clear - Hw; set_solver.
    - by replace (list_to_set [hr; hw] : gset Z) with ({[hw]} ∪ ({[hr]} ∪ ∅) : gset Z) by (clear; set_solver). }
  rewrite (proj2 (Z.eqb_neq p 0) Hp0).
  destruct (kalloc_pt _ st v3 t2 L sizeof_vfs_node eq_refl I3) as (r & v4 & -> & Ew4 & Ef4 & [[-> I4]|(Hrn0 & Hrn & I4)]).
  { cbn [Z.eqb]. apply Hundo.
    - repeat constructor; clear - Hw Hpn; set_solver.
    - by replace (list_to_set [p; hr; hw] : gset Z) with ({[p]} ∪ ({[hw]} ∪ ({[hr]} ∪ ∅)) : gset Z) by (clear; set_solver). }
  rewrite (proj2 (Z.eqb_neq r 0) Hrn0).
  destruct (kalloc_pt _ st v4 t2 L sizeof_vfs_node eq_refl I4) as (q & v5 & -> & Ew5 & Ef5 & [[-> I5]|(Hqn0 & Hqn & I5)]).
  { cbn [Z.eqb]. apply Hundo.
    - repeat constructor; clear - Hw Hpn Hrn; set_solver.
    - by replace (list_to_set [p; hr; hw; r] : gset Z) with ({[r]} ∪ ({[p]} ∪ ({[hw]} ∪ ({[hr]} ∪ ∅))) : gset Z) by (clear; set_solver). }
  rewrite (proj2 (Z.eqb_neq q 0) Hqn0). cbn [keeps]. apply inv_user.
  destruct (put_fd_perm _ _ _ _ (fi_tables _ I) Hc Hfd) as (rest & P1 & P2). fold L in P1. rewrite Hz in P1.
  destruct (put_fd_perm _ _ _ _ (tables_put _ _ _ rfd hr (fi_tables _ I) Hc) (lookup_insert_eq _ _ _) Hfd') as (rest2 & P3 & P4).
  rewrite P2 in P3. fold t1 in P3. rewrite Hz' in P3.
  pose proof (pipe_acct v5 L hr hw p r q I5 Hr0 Hw0 Hw Hpn Hrn Hqn ltac:(lia)) as I6.
  split; cbn [fs_v fs_tasks fs_curr with_files with_v with_fs pt put_task with_tasks v_fs v_heap v_files].
  - unfold t2. rewrite <- (insert_insert_eq _ _ (fput t1 wfd hw) t1). fold t1 in P4. rewrite P4.
    assert (hw :: hr :: L ≡ₚ 0 :: 0 :: hw :: rest2) as Ep.
    { rewrite P1, (Permutation_swap 0 hr), P3. by rewrite Permutation_swap, (Permutation_swap 0 hw). }
    rewrite Ep in I6. by apply acct_unnull, acct_unnull in I6.
  - apply tables_insert; [apply I|]. unfold t2, t1. by rewrite !fput_length.
  - apply I.
  - unfold curr_task. cbn. rewrite lookup_insert_eq. eauto.
Qed.
End Pipe.

(** ** Tasks *)
Section Tasks.
Context {W Hp : Type} `{HandleHeap W Hp}.
Implicit Types (st : fsys W Hp) (t : tfiles) (v : vst W Hp) (L : list Z).

(** Another task than [a] is current, and all but [a] are as in [st]. *)
Definition others st st' (a : Z) : Prop :=
  fs_curr st' = fs_curr st /\ g_stdin_node st' = g_stdin_node st /\ g_stdout_node st' = g_stdout_node st /\
  forall b, b <> a -> fs_tasks st' !! b = fs_tasks st !! b.

Lemma others_refl st a : others st st a.
Proof. done. Qed.
Lemma others_trans st1 st2 st3 a : others st1 st2 a -> others st2 st3 a -> others st1 st3 a.
Proof. intros (E1 & E2 & E3 & E4) (F1 & F2 & F3 & F4). split_and!; [congruence..|]. intros b Hb. by rewrite F4, E4. Qed.
Lemma others_put st v a t : others st (put_task (with_v st v) a t) a.
Proof. split_and!; [done..|]. intros b Hb. cbn. by rewrite lookup_insert_ne. Qed.

Lemma clean_fd_inv st a t i : files_inv st -> fs_tasks st !! a = Some t -> (i < MAX_OPEN_FILES)%nat ->
  exists st', clean_fd a st i = Some st' /\ files_inv st' /\ others st st' a /\
    exists t', fs_tasks st' !! a = Some t' /\ tf_pid t' = tf_pid t /\ tf_cwd t' = tf_cwd t /\ tf_fds t' = <[i := 0]> (tf_fds t).
Proof.
  intros I Ha Hi. assert (bad_fd (Z.of_nat i) = false) as Hfd by (unfold bad_fd; lia).
  unfold clean_fd. rewrite Ha. cbn [mbind option_bind]. destruct (Z.eqb_spec (fget t (Z.of_nat i)) 0) as [E|E].
  - exists st. split; [done|]. split; [done|]. split; [done|]. exists t. split; [done|]. split; [done|]. split; [done|].
    pose proof (fput_id t (Z.of_nat i) (fi_tables _ I _ _ Ha) Hfd) as Ep. rewrite E in Ep.
    apply (f_equal tf_fds) in Ep. unfold fput in Ep. cbn in Ep. by rewrite Nat2Z.id in Ep.
  - destruct (put_fd_perm _ _ _ _ (fi_tables _ I) Ha Hfd) as (rest & Er & _). pose proof (fi_acct _ I) as Ia. rewrite Er in Ia.
    pose proof (ac_len _ _ _ Ia) as Hl. cbn [length] in Hl.
    destruct (close_acct _ _ _ _ Ia) as (v' & -> & Iv). cbn [mbind option_bind]. eexists. split; [done|].
    split; [|split; [apply others_put|]].
    + apply inv_put; [done..|]. intros r Er'. rewrite Er in Er'. apply Permutation_cons_inv in Er'. rewrite <- Er'.
      apply acct_null; [lia|done].
    + eexists. split; [apply lookup_insert_eq|]. split; [done|]. split; [done|]. unfold fput. cbn. by rewrite Nat2Z.id.
Qed.

Lemma clean_inv st a t : files_inv st -> fs_tasks st !! a = Some t ->
  exists st', sched_clean_fds a st = Some st' /\ files_inv st' /\ others st st' a /\
    fs_tasks st' !! a = Some (TFiles (replicate MAX_OPEN_FILES 0) (tf_cwd t) (tf_pid t)).
Proof.
  intros I Ha. pose proof (fi_tables _ I _ _ Ha) as Hlen. unfold sched_clean_fds.
  destruct (ofold_inv (fun ds st' => files_inv st' /\ others st st' a /\
    exists t', fs_tasks st' !! a = Some t' /\ tf_pid t' = tf_pid t /\ tf_cwd t' = tf_cwd t /\
      tf_fds t' = replicate (length ds) 0 ++ drop (length ds) (tf_fds t)) (clean_fd a) (seq 0 MAX_OPEN_FILES) st)
    as (st' & E & I' & Ho & t' & Ht' & Ep & Ec & Ef).
  - split; [done|]. split; [done|]. exists t. by rewrite drop_0.
  - intros ds i st1 Hpre (I1 & Ho1 & t1 & Ht1 & Ep1 & Ec1 & Ef1).
    assert (i = length ds /\ (i < MAX_OPEN_FILES)%nat) as [-> Hi].
    { destruct Hpre as [k Ek]. assert (seq 0 MAX_OPEN_FILES !! length ds = Some i) as El.
      { rewrite Ek, <- app_assoc, lookup_app_r, Nat.sub_diag by done. done. }
      apply lookup_seq in El. lia. }
    destruct (clean_fd_inv st1 a t1 (length ds) I1 Ht1 Hi) as (st2 & -> & I2 & Ho2 & t2 & Ht2 & Ep2 & Ec2 & Ef2).
    exists st2. split; [done|]. split; [done|]. split; [by eapply others_trans|]. exists t2.
    split; [done|]. split; [congruence|]. split; [congruence|].
    rewrite Ef2, Ef1, length_app, Nat.add_1_r, insert_app_r_alt, length_replicate, Nat.sub_diag by (by rewrite length_replicate).
    rewrite replicate_S_end, <- app_assoc. f_equal. simpl in Hlen.
    destruct (lookup_lt_is_Some_2 (tf_fds t) (length ds)) as [x Hx]; [rewrite Hlen; lia|].
    by rewrite (drop_S _ _ _ Hx).
  - exists st'. split; [done|]. split; [done|]. split; [done|]. rewrite Ht'. f_equal.
    rewrite length_seq, drop_ge, app_nil_r in Ef by (by rewrite Hlen). destruct t' as [l1 l2 z]. cbn [tf_fds tf_cwd tf_pid] in *. congruence.
Qed.

(** A task without open files goes away. *)
Lemma inv_delete st a cwd pid : files_inv st -> fs_tasks st !! a = Some (TFiles (replicate MAX_OPEN_FILES 0) cwd pid) ->
  a <> fs_curr st -> files_inv (with_tasks st (delete a (fs_tasks st))).
Proof.
  intros [I Ht Hc Hk] Ha Hne. pose proof (all_fds_lookup _ _ _ Ha) as E. split; cbn.
  - eapply acct_ext; [exact I| |].
    + intros p Hp0. rewrite E, cnt_app. cbn [tf_fds]. by rewrite cnt_zeros.
    + pose proof (ac_len _ _ _ I) as Hl. rewrite E, length_app in Hl. lia.
  - by apply map_Forall_delete.
  - done.
  - unfold curr_task. cbn. by rewrite lookup_delete_ne.
Qed.

Lemma attach_inv st a t fd node mode : files_inv st -> fs_tasks st !! a = Some t -> bad_fd fd = false -> fget t fd = 0 ->
  match attach a st fd node mode with
  | Some st' => files_inv st' /\ others st st' a /\ exists p, fs_tasks st' !! a = Some (fput t fd p)
  | None => (nh_alloc (v_heap (fs_v st)) sizeof_file_handle).1 = 0
  end.
Proof.
  intros I Ha Hfd Hz. unfold attach, kalloc. destruct (nh_alloc _ _) as [p h] eqn:E.
  pose proof (acct_alloc _ _ _ sizeof_file_handle _ _ eq_refl (fi_acct _ I) E) as Hal. destruct (Z.eqb_spec p 0) as [->|Hp0]; [done|].
  destruct Hal as [_ Hal]. cbn [fs_tasks with_v]. rewrite Ha. cbn [mbind option_bind].
  set (v' := VSt (v_fs (fs_v st)) h (<[p := FileHandle node 0 mode 1]> (v_files (fs_v st)))).
  split; [|split; [apply (others_put st v')|exists p; apply lookup_insert_eq]].
  apply (inv_put st a t fd p v'); [done..|]. intros rest Er. pose proof (all_fds_room _ I) as Hroom.
  rewrite Er, Hz in Hal, Hroom. cbn [length] in Hroom. apply acct_unnull in Hal.
  by apply (acct_new ∅ (VSt (v_fs (fs_v st)) h (v_files (fs_v st))) rest p (FileHandle node 0 mode 1) Hp0); [|apply not_elem_of_empty|lia|].
Qed.

(** The three allocations of [dev_attach_stdio] fail at some point. *)
Fixpoint stdio_oom (n : nat) (h : Hp) : Prop :=
  match n with
  | O => False
  | S n => (nh_alloc h sizeof_file_handle).1 = 0 \/ stdio_oom n (nh_alloc h sizeof_file_handle).2
  end.

Lemma attach_heap a st fd node mode st' : attach a st fd node mode = Some st' ->
  v_heap (fs_v st') = (nh_alloc (v_heap (fs_v st)) sizeof_file_handle).2.
Proof.
  unfold attach, kalloc. destruct (nh_alloc _ _) as [p h]. destruct (p =? 0); [done|].
  cbn [fs_tasks with_v]. destruct (fs_tasks st !! a); [|done]. by intros [= <-].
Qed.

Lemma attach_stdio_inv st a cwd pid : files_inv st -> fs_tasks st !! a = Some (TFiles (replicate MAX_OPEN_FILES 0) cwd pid) ->
  match dev_attach_stdio a st with
  | Some st' => files_inv st' /\ others st st' a /\ is_Some (fs_tasks st' !! a)
  | None => stdio_oom 3 (v_heap (fs_v st))
  end.
Proof.
  intros I Ha. unfold dev_attach_stdio. destruct (_ || _); [by eauto|].
  pose proof (attach_inv _ _ _ 0 (g_stdin_node st) 1 I Ha eq_refl eq_refl) as H3. pose proof (attach_heap a st 0 (g_stdin_node st) 1) as Eh1.
  destruct (attach a st 0 _ 1) as [st1|]; cbn [mbind option_bind stdio_oom]; [|by left].
  destruct H3 as (I1 & Ho1 & p1 & Ha1). rewrite <- (Eh1 _ eq_refl).
  pose proof (attach_inv _ _ _ 1 (g_stdout_node st1) 2 I1 Ha1 eq_refl eq_refl) as H4. pose proof (attach_heap a st1 1 (g_stdout_node st1) 2) as Eh2.
  destruct (attach a st1 1 _ 2) as [st2|]; cbn [mbind option_bind]; [|by right; left].
  destruct H4 as (I2 & Ho2 & p2 & Ha2). rewrite <- (Eh2 _ eq_refl).
  pose proof (attach_inv _ _ _ 2 (g_stdout_node st2) 2 I2 Ha2 eq_refl eq_refl) as H5.
  destruct (attach a st2 2 _ 2) as [st3|]; [|by right; right; left].
  destruct H5 as (I3 & Ho3 & p3 & Ha3). split; [done|]. split; [|eauto]. eapply others_trans; [done|by eapply others_trans].
Qed.

(** There is room for one more table. *)
Definition room st : Prop := Z.of_nat (MAX_OPEN_FILES * S (size (fs_tasks st))) < 2 ^ 31.

Lemma inv_add st a t : files_inv st -> fs_tasks st !! a = None -> room st -> tf_fds t = replicate MAX_OPEN_FILES 0 ->
  files_inv (put_task st a t).
Proof.
  intros [I Ht Hc Hk] Ha Hr Et. assert (tables_ok (<[a := t]> (fs_tasks st))) as Ht'.
  { apply tables_insert; [done|]. rewrite Et. apply length_replicate. }
  split; cbn; [|done..|].
  - eapply acct_ext; [exact I| |].
    + intros p Hp0. rewrite (all_fds_new _ _ _ Ha), cnt_app, Et. by rewrite cnt_zeros.
    + rewrite (all_fds_length _ Ht'), map_size_insert_None by done. exact Hr.
  - destruct Hk as [t' Ek]. unfold curr_task in *. cbn. rewrite lookup_insert_ne; [by eexists|congruence].
Qed.

Lemma new_task_inv st a pid : files_inv st -> fs_tasks st !! a = None -> room st ->
  match new_task_files st a pid with
  | Some st' => files_inv st' /\ others st st' a /\ is_Some (fs_tasks st' !! a)
  | None => stdio_oom 3 (v_heap (fs_v st))
  end.
Proof.
  intros I Ha Hr. unfold new_task_files. set (t := TFiles _ _ _).
  assert (files_inv (put_task st a t)) as I1 by by apply inv_add.
  pose proof (attach_stdio_inv _ a _ _ I1 (lookup_insert_eq _ _ _)) as Hs.
  destruct (dev_attach_stdio a _) as [st'|]; [|done]. destruct Hs as (I2 & Ho & Hk). split; [done|]. split; [|done].
  eapply others_trans; [|exact Ho]. apply (others_put st (fs_v st) a t).
Qed.

Lemma fork_inv st a pid copied : files_inv st -> fs_tasks st !! a = None -> room st ->
  match fork_files st a pid copied with
  | Some st' => files_inv st' /\ others st st' a /\
      (copied = true -> exists t, curr_task st = Some t /\ fs_tasks st' !! a = Some (TFiles (tf_fds t) (tf_cwd t) pid))
  | None => stdio_oom 3 (v_heap (fs_v st))
  end.
Proof.
  intros I Ha Hr. unfold fork_files. destruct (fi_task _ I) as [parent Hp0]. rewrite Hp0. cbn [mbind option_bind].
  assert (fs_curr st <> a) as Hne by (intros E; unfold curr_task in Hp0; congruence).
  pose proof (new_task_inv st a pid I Ha Hr) as Hn. destruct (new_task_files st a pid) as [st1|]; [|done].
  destruct Hn as (I1 & Ho1 & t1 & Ht1). cbn [mbind option_bind].
  destruct (clean_inv st1 a t1 I1 Ht1) as (st2 & -> & I2 & Ho2 & Ht2). cbn [mbind option_bind].
  pose proof (others_trans _ _ _ _ Ho1 Ho2) as Ho. destruct Ho as (Ec & Ei & Eo & Eb). destruct copied.
  - set (ps := filter (fun p => p <> 0) (tf_fds parent)). cbn [fs_v put_task with_tasks].
    pose proof (all_fds_lookup _ _ _ Ht2) as El. set (R := all_fds (delete a (fs_tasks st2))) in *. cbn [tf_fds] in El.
    pose proof (all_fds_length _ (fi_tables _ I2)) as Hlen. pose proof (ac_len _ _ _ (fi_acct _ I2)) as Hb.
    rewrite El, length_app, length_replicate in Hlen, Hb. pose proof (fi_tables _ I _ _ Hp0) as Hpl. cbn beta in Hpl.
    assert (length ps <= MAX_OPEN_FILES)%nat as Hps by (rewrite <- Hpl; apply length_filter).
    assert (acct ∅ (fs_v st2) R) as IR.
    { eapply acct_ext; [apply (fi_acct _ I2)| |lia]. intros p Hpz. by rewrite El, cnt_app, cnt_zeros. }
    destruct (retain_all_acct ∅ (fs_v st2) R ps IR) as (v & -> & Iv & _).
    { apply Forall_forall. intros p. unfold ps. rewrite list_elem_of_filter. intros [Hpz Hin]. split; [done|].
      unfold R. rewrite (all_fds_lookup _ (fs_curr st) parent); [apply elem_of_app; by left|].
      rewrite lookup_delete_ne by done. rewrite Eb by done. done. }
    { lia. }
    cbn [mbind option_bind]. split; [|split; [split_and!; [done..|]; intros b Hbn; cbn; by rewrite lookup_insert_ne, Eb|]].
    + split; cbn.
      * rewrite all_fds_insert. fold R. cbn [tf_fds]. eapply acct_ext; [exact Iv| |rewrite length_app; lia].
        intros p Hpz. rewrite !cnt_app. unfold ps. by rewrite cnt_nonzero.
      * apply tables_insert; [apply I2|done].
      * rewrite Ec. apply I.
      * unfold curr_task. cbn. rewrite lookup_insert_ne by congruence. rewrite Ec, Eb by done. by eexists.
    + intros _. exists parent. split; [done|]. apply lookup_insert_eq.
  - split; [|split; [|done]].
    + eapply inv_delete; [done|done|congruence].
    + split_and!; [done..|]. intros b Hbn. cbn. by rewrite lookup_delete_ne, Eb.
Qed.
End Tasks.

(** ** Runs *)
Section Runs.
Context {W Hp : Type} `{HandleHeap W Hp}.
Implicit Types (st : fsys W Hp) (t : tfiles).

(** What happens to descriptors: a system call of the current task, and the events
    of tasks with the addresses they concern. *)
Inductive event :=
  | Call (num a1 a2 a3 : Z)
  | Fork (a pid : Z) (copied : bool)
  | NewTask (a pid : Z)
  | Exit
  | Reap (a : Z)
  | Switch (a : Z).

Definition apply_event st (e : event) : option (fsys W Hp) :=
  match e with
  | Call num a1 a2 a3 => snd <$> syscall_handler file_table st num a1 a2 a3
  | Fork a pid copied => fork_files st a pid copied
  | NewTask a pid => new_task_files st a pid
  | Exit => sched_clean_fds (fs_curr st) st
  | Reap a => st ← sched_clean_fds a st; Some (with_tasks st (delete a (fs_tasks st)))
  | Switch a => Some (FSys (fs_v st) (fs_tasks st) a (g_stdin_node st) (g_stdout_node st))
  end.

(** New tasks get a new address; only tasks that exist and are not running are
    reaped, and only tasks that exist run. *)
Definition allowed st (e : event) : Prop :=
  match e with
  | Call _ _ _ _ | Exit => True
  | Fork a _ _ | NewTask a _ => fs_tasks st !! a = None /\ room st
  | Reap a => is_Some (fs_tasks st !! a) /\ a <> fs_curr st
  | Switch a => is_Some (fs_tasks st !! a) /\ a <> 0
  end.

(** The only ways an event makes an access it may not make: a path that does not fit
    the buffers of [resolve_path] and [vfs_open], and the allocations that
    [dev_attach_stdio] does not check. *)
Definition misses st (e : event) : Prop :=
  match e with
  | Call _ a1 _ _ => exists t opening cwd, curr_task st = Some t /\ (cwd = tf_cwd t \/ cwd = cwd_or_root t) /\
                       unfit st cwd opening a1
  | Fork _ _ _ | NewTask _ _ => stdio_oom 3 (v_heap (fs_v st))
  | _ => False
  end.

Lemma call_inv st num a1 a2 a3 : files_inv st ->
  keeps (misses st (Call num a1 a2 a3)) (syscall_handler file_table st num a1 a2 a3).
Proof.
  intros I. unfold syscall_handler. destruct (_ <=? num); [done|].
  destruct (fi_task _ I) as [t Hc].
  assert (forall o, keeps False o -> keeps (misses st (Call num a1 a2 a3)) o) as Hweak by (by intros [[r s]|]).
  assert (forall b cwd o, (cwd = tf_cwd t \/ cwd = cwd_or_root t) -> keeps (unfit st cwd b a1) o ->
    keeps (misses st (Call num a1 a2 a3)) o) as Hpath by (intros b cwd [[r s]|] Hcwd; [done|simpl; eauto 10]).
  assert (forall op, (forall w n f o s b, op w n = Some f -> fs_step w (f o s b).2) ->
    keeps False (sys_transfer (transfer op) st a1 a2 a3)) as Htr.
  { intros op Hop. apply transfer_inv; [|done]. intros. by apply transfer_acct. }
  unfold file_table. repeat case_match; simplify_eq; try done; cbv beta;
    first
      [ solve [apply Hweak; eauto using lseek_inv, close_inv, dup2_inv, getcwd_inv, readdir_inv, fstat_inv, getpid_inv, pipe_inv]
      | solve [apply Hweak, (Htr op_read); intros; by eapply FsRead]
      | solve [apply Hweak, (Htr op_write); intros; by eapply FsWrite]
      | solve [eapply (Hpath true); [by left|by apply open_inv]]
      | solve [eapply (Hpath false); [by left|by apply chdir_inv]]
      | solve [eapply (Hpath false); [by right|by apply mkdir_inv]]
      | solve [eapply (Hpath false); [by right|by apply unlink_inv]] ].
Qed.

Lemma event_inv st e : files_inv st -> allowed st e ->
  match apply_event st e with Some st' => files_inv st' | None => misses st e end.
Proof.
  intros I Ha. destruct e as [num a1 a2 a3|a pid copied|a pid| |a|a]; cbn [apply_event].
  - pose proof (call_inv st num a1 a2 a3 I) as Hk. by destruct (syscall_handler _ _ _ _ _ _) as [[r st']|].
  - destruct Ha as [Ha Hr]. pose proof (fork_inv st a pid copied I Ha Hr) as Hk. destruct (fork_files _ _ _ _); [by destruct Hk|done].
  - destruct Ha as [Ha Hr]. pose proof (new_task_inv st a pid I Ha Hr) as Hk. destruct (new_task_files _ _ _); [by destruct Hk|done].
  - destruct (fi_task _ I) as [t Hc]. by destruct (clean_inv st (fs_curr st) t I Hc) as (st' & -> & ? & _).
  - destruct Ha as [[t Ha] Hne]. destruct (clean_inv st a t I Ha) as (st' & -> & I' & (Ec & _) & Ht).
    cbn [mbind option_bind]. eapply inv_delete; [done|done|congruence].
  - destruct I as [I Ht Hc Hk]. destruct Ha as [Ha Hne]. by split.
Qed.

Inductive fstep : fsys W Hp -> fsys W Hp -> Prop :=
  | FStep st e st' : allowed st e -> apply_event st e = Some st' -> fstep st st'.

Lemma run_files_inv st st' : files_inv st -> rtc fstep st st' -> files_inv st'.
Proof.
  intros I Hr. induction Hr as [|st1 st2 st3 [s e s' Ha E] _ IH]; [done|]. apply IH.
  pose proof (event_inv s e I Ha) as Hi. by rewrite E in Hi.
Qed.

(** A given run, checked by evaluation. *)
#[global] Instance allowed_dec st e : Decision (allowed st e).
Proof. destruct e; cbn; unfold room; apply _. Defined.
Fixpoint run_events st (es : list event) : option (fsys W Hp) :=
  match es with
  | [] => Some st
  | e :: es => if decide (allowed st e) then st ← apply_event st e; run_events st es else None
  end.
Lemma run_events_rtc es st st' : run_events st es = Some st' -> rtc fstep st st'.
Proof.
  revert st. induction es as [|e es IH]; intros st; cbn; [intros [= <-]; apply rtc_refl|].
  destruct (decide (allowed st e)) as [Ha|]; [|done]. destruct (apply_event st e) as [st1|] eqn:E; [|done].
  intros Hr. eapply rtc_l; [by eapply FStep|by apply IH].
Qed.

(** The system when only the kernel task at [a] exists and nothing is open. *)
Definition boot_files (w : W) (h : Hp) (a stdin stdout : Z) : fsys W Hp :=
  FSys (VSt w h ∅) {[ a := TFiles (replicate MAX_OPEN_FILES 0) [SLASH] 0 ]} a stdin stdout.

Lemma boot_inv w h a stdin stdout : a <> 0 -> hh_ok w h ∅ -> files_inv (boot_files w h a stdin stdout).
Proof.
  intros Ha Hok. split; cbn; [|by apply map_Forall_singleton|done|unfold curr_task; cbn; rewrite lookup_singleton_eq; eauto].
  split; cbn; [by rewrite dom_empty_L, (left_id_L ∅ (∪))|set_solver| |].
  - intros p Hp0. rewrite lookup_empty. unfold all_fds. rewrite map_to_list_singleton. cbn [mbind list_bind tf_fds snd].
    rewrite app_nil_r. by apply (cnt_zeros p 16).
  - unfold all_fds. by rewrite map_to_list_singleton.
Qed.

(** C21: The open files of the system, over every sequence of the fourteen file system
    calls with any arguments by any task, and of tasks that start, fork, exit, are
    reaped and are switched to.  A descriptor that is not NULL names an open
    handle; the reference count of an open handle is the number of descriptors of
    all tasks that name it, and it is positive, so none is leaked and none is freed
    while in use; and the next event does not touch a freed handle or a NULL
    pointer either: it goes through, unless its path does not fit the kernel's
    buffers or [dev_attach_stdio] finds no memory. *)
Theorem open_files_counted w h a stdin stdout st : a <> 0 -> hh_ok w h ∅ ->
  rtc fstep (boot_files w h a stdin stdout) st ->
  (forall b t fd, fs_tasks st !! b = Some t -> fget t fd <> 0 -> is_Some (v_files (fs_v st) !! fget t fd)) /\
  (forall p f, v_files (fs_v st) !! p = Some f -> ref_count f = cnt p (all_fds (fs_tasks st)) /\ 0 < ref_count f) /\
  (forall e, allowed st e -> is_Some (apply_event st e) \/ misses st e).
Proof.
  intros Ha Hok Hr. pose proof (run_files_inv _ _ (boot_inv w h a stdin stdout Ha Hok) Hr) as I. split; [|split].
  - intros b t fd Hb Hz. destruct (acct_live ∅ (fs_v st) (all_fds (fs_tasks st)) (fget t fd)) as (f & Hf & _); [apply I|done| |by exists f].
    rewrite (all_fds_lookup _ _ _ Hb). apply elem_of_app. left. unfold fget in *.
    destruct (tf_fds t !! Z.to_nat fd) as [x|] eqn:Ex; [|done]. cbn in *. by eapply list_elem_of_lookup_2.
  - intros p f Hf. assert (p <> 0) as Hp0 by (intros ->; pose proof (acct_zero _ _ _ (fi_acct _ I)); congruence).
    pose proof (ac_count _ _ _ (fi_acct _ I) p Hp0) as Hc. rewrite Hf in Hc. lia.
  - intros e He. pose proof (event_inv st e I He) as Hi. destruct (apply_event st e); [by left|by right].
Qed.
End Runs.
