(* ===== verification/SysPipe.v ===== *)
(** Pipes through descriptors: the drivers' state as the pipes and their nodes
    that [sys_pipe] makes, with [pipe_read], [pipe_write] and the close
    operations of [src/src/fs/pipe.c] as the node operations.

    The loops here run while no other task does, up to the end of the call; a call
    that would block ([None]) does not return in this state, and then the
    operation leaves the state as it is.  What blocking calls do when the two ends
    take turns is the subject of [Pipe].  No file system is mounted. *)
From S2P Require Import Prelude Machine RingBuf Pipe Pmm Frames Kmalloc VmRegions Vfs VfsFile SysFile SysFileInv SysFileOps SysFileRun.

Inductive node_ops := pipe_read_ops | pipe_write_ops.
Record knode := KNode { kn_flags : Z; kn_length : Z; kn_ops : node_ops; kn_data : Z }.

(** [kw_woken]: the pids passed to [sched_wake_pid] so far. *)
Record kworld := KWorld {
  kw_mem : mem; kw_nodes : gmap Z knode; kw_pipes : gmap Z Pipe; kw_pid : Z; kw_woken : list Z }.
Implicit Types (w : kworld) (p : Pipe) (m : mem).

(** [pipe_read]: the bytes stored, the pids woken and the pipe. *)
Fixpoint pipe_read (curr : option Z) p (read_count : Z) (n : nat) : option (list Z * list Z * Pipe) :=
  match n with
  | O => Some ([], [], p)
  | S n =>
      match pipe_read_iter curr p read_count with
      | (p, wk, Some c, _) =>
          '(l, wks, p) ← pipe_read curr p (read_count + 1) n;
          Some (c :: l, option_list wk ++ wks, p)
      | (p, _, None, Return) => Some ([], [], p)
      | (_, _, None, _) => None
      end
  end.

(** [pipe_write] of the bytes [l]: the number written, the pids woken and the pipe. *)
Fixpoint pipe_write (curr : option Z) p (write_count : Z) (l : list Z) : option (Z * list Z * Pipe) :=
  match l with
  | [] => Some (write_count, [], p)
  | c :: l =>
      if is_open READ_OPEN p then
        match pipe_write_iter curr p c with
        | (p, wk, true, _) =>
            '(n, wks, p) ← pipe_write curr p (write_count + 1) l; Some (n, option_list wk ++ wks, p)
        | (p, _, false, Return) => Some (write_count, [], p)
        | (_, _, false, _) => None
        end
      else Some (write_count, [], p)
  end.

(** [n] bytes of user memory from [a] on, and bytes stored there. *)
Definition get_bytes m (a : Z) (n : nat) : list Z := (fun i => get8 m (a + Z.of_nat i)) <$> seq 0 n.
Fixpoint put_bytes m (a : Z) (l : list Z) : mem :=
  match l with [] => m | c :: l => put_bytes (put8 m a c) (a + 1) l end.

Definition set_pipe w (a : Z) p (wk : list Z) (m : mem) : kworld :=
  KWorld m (kw_nodes w) (<[a := p]> (kw_pipes w)) (kw_pid w) (kw_woken w ++ wk).

Definition node_pipe w (n : Z) : option (node_ops * Z * Pipe) :=
  k ← kw_nodes w !! n; p ← kw_pipes w !! kn_data k; Some (kn_ops k, kn_data k, p).

#[export] Instance kworld_fs : FsOps kworld := {
  node_flags w n := match kw_nodes w !! n with Some k => kn_flags k | None => 0 end;
  node_length w n := match kw_nodes w !! n with Some k => kn_length k | None => 0 end;
  set_length w n v :=
    match kw_nodes w !! n with
    | Some k => KWorld (kw_mem w) (<[n := KNode (kn_flags k) v (kn_ops k) (kn_data k)]> (kw_nodes w)) (kw_pipes w) (kw_pid w) (kw_woken w)
    | None => w
    end;
  device_data w n := match kw_nodes w !! n with Some k => kn_data k | None => 0 end;
  mount_count w := 0;
  navigate w path := (0, w);
  dev_find w name := 0;
  op_read w n :=
    match node_pipe w n with
    | Some (pipe_read_ops, a, p) => Some (fun offset size buf =>
        match pipe_read (Some (kw_pid w)) p 0 (Z.to_nat size) with
        | Some (l, wk, p) => (Z.of_nat (length l), set_pipe w a p wk (put_bytes (kw_mem w) buf l))
        | None => (0, w)
        end)
    | _ => None
    end;
  op_write w n :=
    match node_pipe w n with
    | Some (pipe_write_ops, a, p) => Some (fun offset size buf =>
        match pipe_write (Some (kw_pid w)) p 0 (get_bytes (kw_mem w) buf (Z.to_nat size)) with
        | Some (n, wk, p) => (n, set_pipe w a p wk (kw_mem w))
        | None => (0, w)
        end)
    | _ => None
    end;
  op_open w n := None;
  op_close w n :=
    match node_pipe w n with
    | Some (pipe_read_ops, a, p) => let '(p, wk) := pipe_close_reader p in Some (set_pipe w a p (option_list wk) (kw_mem w))
    | Some (pipe_write_ops, a, p) => let '(p, wk) := pipe_close_writer p in Some (set_pipe w a p (option_list wk) (kw_mem w))
    | None => None
    end;
  op_create w n := None;
  op_readdir w n := None;
  op_unlink w n := None;
  op_truncate w n := None
}.

Definition VFS_CHAR_DEVICE : Z := 3.

(** [rb_init] and the fields of the new pipe and its two nodes. *)
#[export] Instance kworld_sys : SysOps kworld := {
  user_mem := kw_mem;
  set_user_mem w m := KWorld m (kw_nodes w) (kw_pipes w) (kw_pid w) (kw_woken w);
  is_shm w n := false;
  shm_size w n := 0;
  pipe_setup w pipe node_read node_write :=
    KWorld (kw_mem w)
      (<[node_write := KNode VFS_CHAR_DEVICE 0 pipe_write_ops pipe]>
         (<[node_read := KNode VFS_CHAR_DEVICE 0 pipe_read_ops pipe]> (kw_nodes w)))
      (<[pipe := mkPipe rb_init (-1) (-1) (Z.lor READ_OPEN WRITE_OPEN)]> (kw_pipes w)) (kw_pid w) (kw_woken w)
}.

(** A heap that never reuses an address keeps its promise. *)
#[export] Instance kworld_heap : NodeHeap Z := demo_fs.bump.

#[export] Program Instance kworld_handles : HandleHeap kworld Z := {
  hh_ok w h B := 0 < h /\ forall x, x ∈ B -> 0 < x < h
}.
Next Obligation. intros w h B [_ HB] H0. specialize (HB 0 H0). lia. Qed.
Next Obligation.
  intros w h B size Hs [Hh HB]. cbn. destruct (Z.eqb_spec h 0); [lia|]. split.
  - intros Hin. specialize (HB h Hin). lia.
  - split; [lia|]. intros p [->%elem_of_singleton|Hp]%elem_of_union; [lia|]. specialize (HB p Hp). lia.
Qed.
Next Obligation. intros w h B p Hp [Hh HB]. split; [done|]. intros q Hq. apply HB. set_solver. Qed.
Next Obligation. intros w h B n H. unfold autofree. destruct (is_set _ _); [|done]. by destruct (device_data w n =? 0). Qed.
Next Obligation. done. Qed.
Next Obligation. intros w h B p r q ??? [Hh HB]. split; [done|]. intros x Hx. apply HB. set_solver. Qed.

(** ** Reading and writing without blocking *)
Lemma pipe_write_room curr p k l : ring_wf (p_buf p) -> is_open READ_OPEN p = true ->
  (length (ring_list (p_buf p)) + length l <= 255)%nat ->
  exists wk p', pipe_write curr p k l = Some (k + Z.of_nat (length l), wk, p') /\ ring_wf (p_buf p') /\
    ring_list (p_buf p') = ring_list (p_buf p) ++ l /\ p_flags p' = p_flags p.
Proof.
  revert p k. induction l as [|c l IH]; intros p k Hw Ho Hl; cbn [pipe_write].
  - eexists _, _. rewrite Z.add_0_r, app_nil_r. done.
  - rewrite Ho. unfold pipe_write_iter. cbn [length] in Hl. destruct (rb_is_full (p_buf p)) eqn:Ef.
    { apply (ring_full_iff _ Hw) in Ef. unfold queue_spec.capacity in Ef. lia. }
    destruct (push_not_full _ c Hw Ef) as [Hw' El]. unfold wake_reader. cbn [p_buf reader_pid writer_pid p_flags].
    destruct (negb _); cbv iota;
      match goal with |- context [pipe_write curr ?q ?k' l] => destruct (IH q k') as (wk & p' & E & W' & L' & F') end;
      cbn [p_buf p_flags]; rewrite ?El, ?length_app in *; cbn [length]; try done; try lia;
      rewrite E; cbn [mbind option_bind]; eexists _, _;
      (split; [do 3 f_equal; lia|]); (split; [done|]); split; try done; by rewrite L'; cbn [p_buf]; rewrite El, <- app_assoc.
Qed.

Lemma pipe_read_prefix curr p k l rest : ring_wf (p_buf p) -> ring_list (p_buf p) = l ++ rest ->
  exists wk p', pipe_read curr p k (length l) = Some (l, wk, p') /\ ring_wf (p_buf p') /\ ring_list (p_buf p') = rest /\
    p_flags p' = p_flags p.
Proof.
  revert p k. induction l as [|c l IH]; intros p k Hw El; cbn [length pipe_read]; [by eexists _, _|].
  unfold pipe_read_iter. pose proof (pop_cases _ Hw) as Hp. destruct (rb_pop (p_buf p)) as [[c'|] rb].
  - destruct Hp as [Hw' El']. rewrite El in El'. injection El' as <- El'. unfold wake_writer. cbn [p_buf reader_pid writer_pid p_flags].
    destruct (negb _); cbv iota;
      match goal with |- context [pipe_read curr ?q ?k' _] => destruct (IH q k') as (wk & p' & E & W' & L' & F') end;
      try done; rewrite E; cbn [mbind option_bind]; by eexists _, _.
  - destruct Hp as [_ Hp]. rewrite El in Hp. done.
Qed.

(** ** Descriptors of pipes *)
Implicit Types (st : fsys kworld Z) (t : tfiles).
Definition umem st : mem := kw_mem (v_fs (fs_v st)).

(** Descriptor [fd] of the current task is the only one on the handle [h], open on a
    node with operations [ops] of the pipe at [a]. *)
Definition fd_end st (fd h : Z) (ops : node_ops) (a : Z) : Prop :=
  exists t f k, curr_task st = Some t /\ fget t fd = h /\ h <> 0 /\ v_files (fs_v st) !! h = Some f /\ f_node f <> 0 /\
    ref_count f = 1 /\ kw_nodes (v_fs (fs_v st)) !! f_node f = Some k /\ kn_ops k = ops /\ kn_data k = a.

Definition pipe_at st (a : Z) p : Prop := kw_pipes (v_fs (fs_v st)) !! a = Some p.

(** Both ends of the pipe at [a], which holds [p]. *)
Record pipe_ends st (r w hr hw a : Z) p : Prop := {
  pe_curr : fs_curr st <> 0;
  pe_r : fd_end st r hr pipe_read_ops a;
  pe_w : fd_end st w hw pipe_write_ops a;
  pe_ne : hr <> hw;
  pe_pipe : pipe_at st a p }.

Lemma s8_fd fd : 0 <= fd < 16 -> s8 fd = fd /\ bad_fd fd = false.
Proof.
  intros Hr. split; [|unfold bad_fd; change (Z.of_nat MAX_OPEN_FILES) with 16; lia].
  unfold s8. rewrite Z.mod_small; lia.
Qed.

Lemma sys_transfer_fd rw st t fd buf n k v : fs_curr st <> 0 -> curr_task st = Some t -> 0 <= fd < 16 -> fget t fd <> 0 ->
  verify_usr_access buf n = true -> rw (fs_v st) (fget t fd) n buf = Some (k, v) ->
  sys_transfer rw st fd buf n = Some (k, with_v st v).
Proof.
  intros Hc Ht Hfd Hz Hv E. unfold sys_transfer. destruct (s8_fd fd Hfd) as [-> ->].
  rewrite (proj2 (Z.eqb_neq _ _) Hc), Ht. cbn [mbind option_bind]. rewrite (proj2 (Z.eqb_neq _ _) Hz), Hv. cbn [negb].
  by rewrite E.
Qed.

(** The transfer through an end of a pipe, given what the node's operation does. *)
Lemma transfer_end op st fd h ops a buf n k p' wk m : fs_curr st <> 0 -> fd_end st fd h ops a -> 0 <= fd < 16 ->
  verify_usr_access buf n = true ->
  (forall x y, node_pipe (v_fs (fs_v st)) x = Some (ops, a, y) -> pipe_at st a y ->
     exists g, op (v_fs (fs_v st)) x = Some g /\ forall o, g o n buf = (k, set_pipe (v_fs (fs_v st)) a p' wk m)) ->
  is_Some (kw_pipes (v_fs (fs_v st)) !! a) ->
  exists st', sys_transfer (transfer op) st fd buf n = Some (k, st') /\ fs_curr st' = fs_curr st /\
    v_fs (fs_v st') = set_pipe (v_fs (fs_v st)) a p' wk m /\
    (forall fd' h' ops' a', fd_end st fd' h' ops' a' -> fd_end st' fd' h' ops' a').
Proof.
  intros Hc (t & f & kn & Ht & Eh & Hh & Hf & Hn & Hr & Hk & Eo & Ea) Hfd Hv Hop [y Hy].
  destruct (Hop (f_node f) y) as (g & Eg & Hg); [unfold node_pipe; rewrite Hk; cbn; rewrite Ea, Hy; cbn; by rewrite Eo|done|].
  eexists. split; [|split; [|split]].
  - apply (sys_transfer_fd _ _ t); [done..|by rewrite Eh|done|]. unfold transfer. rewrite Eh.
    rewrite (proj2 (Z.eqb_neq h 0) Hh), Hf. cbn [mbind option_bind]. rewrite (proj2 (Z.eqb_neq _ _) Hn), Eg, Hg. done.
  - done.
  - done.
  - intros fd' h' ops' a' (t2 & f2 & k2 & Ht2 & Eh2 & Hh2 & Hf2 & Hn2 & Hr2 & Hk2 & Eo2 & Ea2).
    destruct (decide (h' = h)) as [->|Hne].
    + exists t2, (FileHandle (f_node f) (u64 (f_offset f + k)) (f_mode f) (ref_count f)), k2.
      assert (f2 = f) as -> by congruence. cbn. rewrite lookup_insert_eq. by repeat split.
    + exists t2, f2, k2. cbn. rewrite lookup_insert_ne by congruence. by repeat split.
Qed.

Lemma write_end st (r w hr hw a : Z) p buf n : pipe_ends st r w hr hw a p -> 0 <= w < 16 ->
  verify_usr_access buf (Z.of_nat n) = true -> ring_wf (p_buf p) -> is_open READ_OPEN p = true ->
  (length (ring_list (p_buf p)) + n <= 255)%nat ->
  exists st' p', sys_write st w buf (Z.of_nat n) = Some (Z.of_nat n, st') /\ pipe_ends st' r w hr hw a p' /\
    ring_wf (p_buf p') /\ ring_list (p_buf p') = ring_list (p_buf p) ++ get_bytes (umem st) buf n /\
    p_flags p' = p_flags p /\ umem st' = umem st.
Proof.
  intros [Hc Hr Hw Hne Hp] Hfd Hv Hwf Ho Hroom.
  assert (length (get_bytes (umem st) buf n) = n) as Hlen by (unfold get_bytes; by rewrite length_fmap, length_seq).
  destruct (pipe_write_room (Some (kw_pid (v_fs (fs_v st)))) p 0 (get_bytes (umem st) buf n) Hwf Ho) as (wk & p' & E & Hwf' & El & Ef).
  { by rewrite Hlen. }
  rewrite Hlen in E. destruct (transfer_end op_write st w hw pipe_write_ops a buf (Z.of_nat n) (Z.of_nat n) p' wk (umem st) Hc Hw Hfd Hv)
    as (st' & Es & Ec & Ew & Hends).
  { intros x y Hx Hy. cbn [op_write kworld_fs]. rewrite Hx. eexists. split; [done|]. intros o. cbn beta.
    assert (y = p) as -> by (unfold pipe_at in *; congruence). rewrite Nat2Z.id.
    change (kw_mem (v_fs (fs_v st))) with (umem st). by rewrite E. }
  { by exists p. }
  exists st', p'. split; [exact Es|]. split; [split; [congruence|by apply Hends..|done|]|].
  - unfold pipe_at. rewrite Ew. apply lookup_insert_eq.
  - split; [done|]. split; [done|]. split; [done|]. unfold umem. by rewrite Ew.
Qed.

Lemma read_end st r h a p buf l rest : fs_curr st <> 0 -> fd_end st r h pipe_read_ops a -> pipe_at st a p -> 0 <= r < 16 ->
  verify_usr_access buf (Z.of_nat (length l)) = true -> ring_wf (p_buf p) -> ring_list (p_buf p) = l ++ rest ->
  exists st' p', sys_read st r buf (Z.of_nat (length l)) = Some (Z.of_nat (length l), st') /\
    fs_curr st' = fs_curr st /\ (forall fd' h' ops' a', fd_end st fd' h' ops' a' -> fd_end st' fd' h' ops' a') /\
    pipe_at st' a p' /\ ring_wf (p_buf p') /\ ring_list (p_buf p') = rest /\ p_flags p' = p_flags p /\
    umem st' = put_bytes (umem st) buf l.
Proof.
  intros Hc Hr Hp Hfd Hv Hwf El.
  destruct (pipe_read_prefix (Some (kw_pid (v_fs (fs_v st)))) p 0 l rest Hwf El) as (wk & p' & E & Hwf' & El' & Ef).
  destruct (transfer_end op_read st r h pipe_read_ops a buf (Z.of_nat (length l)) (Z.of_nat (length l)) p' wk
    (put_bytes (umem st) buf l) Hc Hr Hfd Hv) as (st' & Es & Ec & Ew & Hends).
  { intros x y Hx Hy. cbn [op_read kworld_fs]. rewrite Hx. eexists. split; [done|]. intros o. cbn beta.
    assert (y = p) as -> by (unfold pipe_at in *; congruence). by rewrite Nat2Z.id, E. }
  { by exists p. }
  exists st', p'. split; [exact Es|]. split; [done|]. split; [done|]. unfold pipe_at, umem. rewrite Ew.
  split; [apply lookup_insert_eq|done].
Qed.

(** At the end of the data, with the writing end closed, a read returns 0. *)
Lemma read_eof st r h a p buf n : fs_curr st <> 0 -> fd_end st r h pipe_read_ops a -> pipe_at st a p -> 0 <= r < 16 ->
  verify_usr_access buf (Z.of_nat n) = true -> ring_wf (p_buf p) -> ring_list (p_buf p) = [] -> is_open WRITE_OPEN p = false ->
  exists st', sys_read st r buf (Z.of_nat n) = Some (0, st') /\ umem st' = umem st.
Proof.
  intros Hc Hr Hp Hfd Hv Hwf El Ho.
  destruct (transfer_end op_read st r h pipe_read_ops a buf (Z.of_nat n) 0 p [] (umem st) Hc Hr Hfd Hv) as (st' & Es & Ec & Ew & Hends).
  { intros x y Hx Hy. cbn [op_read kworld_fs]. rewrite Hx. eexists. split; [done|]. intros o. cbn beta.
    assert (y = p) as -> by (unfold pipe_at in *; congruence). rewrite Nat2Z.id.
    destruct n as [|n]; [done|]. cbn [pipe_read]. unfold pipe_read_iter. pose proof (pop_cases _ Hwf) as Hpop.
    destruct (rb_pop (p_buf p)) as [[c|] rb]; [destruct Hpop as [_ Hpop]; by rewrite El in Hpop|]. by rewrite Ho. }
  { by exists p. }
  exists st'. split; [exact Es|]. unfold umem. by rewrite Ew.
Qed.

Lemma close_write_end st (r w hr hw a : Z) p : pipe_ends st r w hr hw a p -> 0 <= r < 16 -> 0 <= w < 16 -> r <> w ->
  exists st' p', sys_close st w = Some (0, st') /\ fs_curr st' = fs_curr st /\ fd_end st' r hr pipe_read_ops a /\
    pipe_at st' a p' /\ p_buf p' = p_buf p /\ is_open WRITE_OPEN p' = false.
Proof.
  intros [Hc (t & f & k & Ht & Eh & Hh & Hf & Hn & Hr1 & Hk & Eo & Ea) (t2 & f2 & k2 & Ht2 & Eh2 & Hh2 & Hf2 & Hn2 & Hr2 & Hk2 & Eo2 & Ea2) Hne Hp] Hr Hw Hrw.
  assert (t2 = t) as -> by congruence. unfold sys_close. destruct (s8_fd w Hw) as [-> ->]. rewrite Ht. cbn [mbind option_bind].
  rewrite Eh2, (proj2 (Z.eqb_neq hw 0) Hh2). unfold vfs_close. rewrite (proj2 (Z.eqb_neq hw 0) Hh2), Hf2. cbn [mbind option_bind].
  rewrite Hr2, (proj2 (Z.eqb_neq _ _) Hn2). cbn [Z.sub Z.add Z.opp Z.pos_sub s32]. change (0 <? s32 0) with false. cbv iota.
  cbn [v_fs v_files v_heap op_close kworld_fs].
  assert (node_pipe (v_fs (fs_v st)) (f_node f2) = Some (pipe_write_ops, a, p)) as ->.
  { unfold node_pipe. rewrite Hk2. cbn. unfold pipe_at in Hp. rewrite Ea2, Hp. cbn. by rewrite Eo2. }
  destruct (pipe_close_writer p) as [p' wk] eqn:Ep. unfold set_fd. cbn [fs_tasks curr_task with_v].
  change (curr_task (with_v st _)) with (curr_task st). rewrite Ht. cbn [mbind option_bind].
  eexists _, p'. split; [done|]. split; [done|]. split; [|split].
  - exists (fput t w 0), f, k. cbn. unfold curr_task. cbn. rewrite lookup_insert_eq, fget_fput_ne by lia.
    rewrite lookup_delete_ne, lookup_insert_ne by done. by repeat split.
  - unfold pipe_at. cbn. apply lookup_insert_eq.
  - unfold pipe_close_writer, wake_reader in Ep. cbn [p_buf reader_pid writer_pid p_flags] in Ep.
    assert (Z.land (Z.land (p_flags p) (u32 (Z.lnot WRITE_OPEN))) WRITE_OPEN = 0) as Ez.
    { rewrite <- Z.land_assoc. change (Z.land (u32 (Z.lnot WRITE_OPEN)) WRITE_OPEN) with 0. apply Z.land_0_r. }
    destruct (negb _); injection Ep as <- <-; cbn [p_buf]; unfold is_open; cbn [p_flags]; rewrite Ez; done.
Qed.

Lemma find_free_fd_is t fd : 3 <= fd < 16 -> fget t fd = 0 -> (forall i, 3 <= i < fd -> fget t i <> 0) -> find_free_fd t = fd.
Proof.
  intros Hr Hz Hlow. destruct (find_free_fd_spec t) as [[_ Hall]|(Hr' & Hz' & _ & _ & Hlow')]; [by specialize (Hall fd Hr)|].
  destruct (Z.lt_trichotomy (find_free_fd t) fd) as [Hlt|[?|Hgt]]; [|done|]; exfalso.
  - apply (Hlow (find_free_fd t)); [lia|done].
  - apply (Hlow' fd); [lia|done].
Qed.

(** The two lowest free descriptors of [t] are [r] and [w]. *)
Definition two_free t (r w : Z) : Prop :=
  3 <= r < w /\ w < 16 /\ fget t r = 0 /\ fget t w = 0 /\ forall i, 3 <= i < w -> i <> r -> fget t i <> 0.

Lemma sys_pipe_ok st t (r w a1 : Z) : fs_curr st <> 0 -> curr_task st = Some t -> length (tf_fds t) = MAX_OPEN_FILES ->
  0 < v_heap (fs_v st) -> two_free t r w -> verify_usr_access a1 8 = true ->
  let h := v_heap (fs_v st) in
  exists st', sys_pipe st a1 = Some (0, st') /\
    pipe_ends st' r w h (h + 32) (h + 64) (mkPipe rb_init (-1) (-1) (Z.lor READ_OPEN WRITE_OPEN)) /\
    umem st' = store32 (store32 (umem st) a1 r) (a1 + 4) w.
Proof.
  intros Hc Ht Hl Hh (Hr & Hw & Hzr & Hzw & Hlow) Hv h. unfold sys_pipe. rewrite Hv. cbn [negb].
  rewrite (proj2 (Z.eqb_neq _ _) Hc), Ht. cbn [mbind option_bind].
  rewrite (find_free_fd_is t r) by (done || lia || (intros; apply Hlow; lia)). rewrite (proj2 (Z.ltb_ge r 0)) by lia.
  assert (forall fd, 3 <= fd < 16 -> bad_fd fd = false) as Hbad.
  { intros fd Hfd. unfold bad_fd. change (Z.of_nat MAX_OPEN_FILES) with 16. lia. }
  replace (kalloc st sizeof_file_handle) with (kalloc (pt st (fs_v st) t) sizeof_file_handle) by (by rewrite pt_id).
  set (v := fs_v st) in *.
  assert (forall v t size, 0 < v_heap v -> kalloc (pt st v t) size = (v_heap v, pt st (VSt (v_fs v) (v_heap v + size) (v_files v)) t)) as Hk by done.
  rewrite Hk by done. fold h. rewrite (proj2 (Z.eqb_neq h 0)) by lia. rewrite pt_set_fd. cbn [mbind option_bind]. rewrite pt_curr.
  cbn [mbind option_bind]. rewrite (find_free_fd_is (fput t r h) w); [| lia | rewrite fget_fput_ne by lia; done |].
  2:{ intros i Hi. destruct (decide (i = r)) as [->|]; [rewrite fget_fput_eq; [lia|done|apply Hbad; lia]|].
      rewrite fget_fput_ne by lia. apply Hlow; lia. }
  rewrite (proj2 (Z.ltb_ge w 0)) by lia. unfold sizeof_file_handle, sizeof_Pipe, sizeof_vfs_node.
  do 4 (rewrite Hk by (cbn; lia); cbn [v_heap v_fs v_files];
    match goal with |- context [if ?x =? 0 then _ else _] => rewrite (proj2 (Z.eqb_neq x 0)) by lia end;
    rewrite ?pt_set_fd; cbn [mbind option_bind]).
  eexists. split; [reflexivity|]. split; [|done].
  assert (curr_task (pt st v (fput (fput t r h) w (h + 32))) = Some (fput (fput t r h) w (h + 32))) as Et by apply pt_curr.
  assert (fget (fput (fput t r h) w (h + 32)) w = h + 32) as Ew by (apply fget_fput_eq; [by rewrite fput_length|apply Hbad; lia]).
  assert (fget (fput (fput t r h) w (h + 32)) r = h) as Er.
  { rewrite fget_fput_ne by lia. apply fget_fput_eq; [done|apply Hbad; lia]. }
  split; [done| | |lia|].
  - exists (fput (fput t r h) w (h + 32)), (FileHandle (h + 32 + 32 + 272) 0 1 1), (KNode VFS_CHAR_DEVICE 0 pipe_read_ops (h + 32 + 32)).
    split; [exact Et|]. split; [exact Er|]. cbn. rewrite (lookup_insert_ne _ (h + 32)), lookup_insert_eq by lia. cbn.
    rewrite lookup_insert_ne, lookup_insert_eq by lia. repeat split; try done; lia.
  - exists (fput (fput t r h) w (h + 32)), (FileHandle (h + 32 + 32 + 272 + 168) 0 2 1), (KNode VFS_CHAR_DEVICE 0 pipe_write_ops (h + 32 + 32)).
    split; [exact Et|]. split; [exact Ew|]. cbn. rewrite lookup_insert_eq. cbn. rewrite lookup_insert_eq. repeat split; try done; lia.
  - unfold pipe_at. cbn. replace (h + 64) with (h + 32 + 32) by lia. apply lookup_insert_eq.
Qed.

Lemma get8_put_bytes_out m a l b : b < a \/ a + Z.of_nat (length l) <= b -> get8 (put_bytes m a l) b = get8 m b.
Proof.
  revert m a. induction l as [|c l IH]; intros m a Hb; [done|]. cbn [length put_bytes] in *.
  rewrite IH by lia. apply get8_put8_ne. lia.
Qed.
Lemma get8_put_bytes_in m a l i x : l !! i = Some x -> get8 (put_bytes m a l) (a + Z.of_nat i) = u8 x.
Proof.
  revert m a i. induction l as [|c l IH]; intros m a [|i] Hx; [done|done|..]; cbn [put_bytes].
  - injection Hx as ->. rewrite Z.add_0_r, get8_put_bytes_out by lia. apply get8_put8_eq.
  - replace (a + Z.of_nat (S i)) with (a + 1 + Z.of_nat i) by lia. by apply IH.
Qed.

(** C22: Pipes through the system calls: with two free descriptors, [pipe] stores the
    lowest of them as the reading and the next as the writing end; [write] of at
    most 255 bytes to the writing end takes all of them, and [read] of as many from
    the reading end stores exactly those bytes; after the writing end is closed, a
    further [read] returns 0, the end of the data. *)
Theorem pipe_calls_roundtrip st t (r w a1 buf out : Z) (n : nat) :
  fs_curr st <> 0 -> curr_task st = Some t -> length (tf_fds t) = MAX_OPEN_FILES -> 0 < v_heap (fs_v st) ->
  two_free t r w -> verify_usr_access a1 8 = true ->
  verify_usr_access buf (Z.of_nat n) = true -> verify_usr_access out (Z.of_nat n) = true -> (n <= 255)%nat ->
  let call := syscall_handler file_table in
  exists st1 st2 st3 st4 st5,
    call st 10 a1 0 0 = Some (0, st1) /\ load32 (umem st1) a1 = r /\ load32 (umem st1) (a1 + 4) = w /\
    call st1 1 w buf (Z.of_nat n) = Some (Z.of_nat n, st2) /\
    call st2 0 r out (Z.of_nat n) = Some (Z.of_nat n, st3) /\
    (forall i, (i < n)%nat -> get8 (umem st3) (out + Z.of_nat i) = get8 (umem st1) (buf + Z.of_nat i)) /\
    call st3 3 w 0 0 = Some (0, st4) /\
    call st4 0 r out (Z.of_nat n) = Some (0, st5).
Proof.
  intros Hc Ht Hl Hh Hfree Hv1 Hv2 Hv3 Hn call. pose proof Hfree as (Hr & Hw & _).
  assert (0 <= r < 16 /\ 0 <= w < 16) as [Hr' Hw'] by lia.
  destruct (sys_pipe_ok st t r w a1 Hc Ht Hl Hh Hfree Hv1) as (st1 & E1 & P1 & M1).
  set (l := get_bytes (umem st1) buf n). assert (length l = n) as Hlen by (unfold l, get_bytes; by rewrite length_fmap, length_seq).
  destruct (write_end st1 r w _ _ _ _ buf n P1 Hw' Hv2) as (st2 & p2 & E2 & P2 & W2 & L2 & F2 & M2); [by vm_compute|done|by vm_compute; lia|].
  change (ring_list _) with (@nil Z) in L2 at 2. rewrite app_nil_l in L2. fold l in L2.
  destruct (read_end st2 r _ _ p2 out l [] (pe_curr _ _ _ _ _ _ _ P2) (pe_r _ _ _ _ _ _ _ P2) (pe_pipe _ _ _ _ _ _ _ P2) Hr')
    as (st3 & p3 & E3 & C3 & Hends & A3 & W3 & L3 & F3 & M3); [by rewrite Hlen|done|by rewrite app_nil_r|].
  assert (pipe_ends st3 r w (v_heap (fs_v st)) (v_heap (fs_v st) + 32) (v_heap (fs_v st) + 64) p3) as P3.
  { destruct P2 as [Q1 Q2 Q3 Q4 Q5]. split; [congruence|by apply Hends..|done|done]. }
  destruct (close_write_end st3 r w _ _ _ p3 P3 Hr' Hw' ltac:(lia)) as (st4 & p4 & E4 & C4 & D4 & A4 & B4 & O4).
  assert (fs_curr st4 <> 0) as C4' by (rewrite C4, C3; apply P2). rewrite <- B4 in W3, L3.
  destruct (read_eof st4 r _ _ p4 out n C4' D4 A4 Hr' Hv3 W3 L3 O4) as (st5 & E5 & _).
  exists st1, st2, st3, st4, st5. rewrite Hlen in E3. split; [exact E1|].
  split; [|split; [|split; [exact E2|split; [exact E3|split; [|split; [exact E4|exact E5]]]]]].
  - rewrite M1. unfold load32, store32. rewrite load_store_ne by lia. apply load32_store32. unfold is_u32. lia.
  - rewrite M1. apply load32_store32. unfold is_u32. lia.
  - intros i Hi. rewrite M3, (get8_put_bytes_in _ _ l i (get8 (umem st1) (buf + Z.of_nat i))).
    + apply u8_small, get8_range.
    + unfold l, get_bytes. by rewrite list_lookup_fmap, (proj2 (lookup_seq 0 n i i)).
Qed.

(** ** A system with one task and no open files *)
Definition kw0 : kworld := KWorld {[ 8192 := 104; 8193 := 105 ]} ∅ ∅ 1 [].
Definition ks0 : fsys kworld Z := boot_files kw0 4096 64 0 0.

Lemma pipe_calls_roundtrip_witness : exists st1 st2 st3,
  syscall_handler file_table ks0 10 12288 0 0 = Some (0, st1) /\
  syscall_handler file_table st1 1 4 8192 2 = Some (2, st2) /\
  syscall_handler file_table st2 0 3 16384 2 = Some (2, st3).
Proof.
  destruct (pipe_calls_roundtrip ks0 (TFiles (replicate MAX_OPEN_FILES 0) [SLASH] 0) 3 4 12288 8192 16384 2)
    as (st1 & st2 & st3 & _ & _ & E1 & _ & _ & E2 & E3 & _); [done|reflexivity|reflexivity|done| |reflexivity..|lia|].
  - split_and!; [lia|lia|lia|reflexivity|reflexivity|]. intros i Hi Hne. lia.
  - exists st1, st2, st3. split; [exact E1|]. split; [exact E2|exact E3].
Defined.

(** After [pipe], [fork] and the exit of the parent the child has both ends. *)
Definition ks1 : fsys kworld Z :=
  default ks0 (run_events ks0 [Call 10 12288 0 0; Fork 4096 2 true; Exit; Switch 4096; Reap 64; Call 11 4 5 0]).

Lemma open_files_counted_witness : exists f, v_files (fs_v ks1) !! 4128 = Some f /\ ref_count f = 2 /\
  ref_count f = cnt 4128 (all_fds (fs_tasks ks1)).
Proof.
  destruct (open_files_counted kw0 4096 64 0 0 ks1) as (_ & H2 & _).
  - lia.
  - split; [lia|]. intros x Hx. by apply not_elem_of_empty in Hx.
  - apply (run_events_rtc [Call 10 12288 0 0; Fork 4096 2 true; Exit; Switch 4096; Reap 64; Call 11 4 5 0]).
    vm_compute. reflexivity.
  - exists (FileHandle 4600 0 2 2). split; [vm_compute; reflexivity|]. split; [done|]. apply H2. vm_compute. reflexivity.
Defined.
