(* ===== verification/Shm.v ===== *)
(** Shared memory, [src/src/ipc/shm.c], with the calls [sys_shm_open],
    [sys_ftruncate] and [sys_mmap] of [src/src/arch/syscall.c].

    A segment is a [SharedMem_t]; the list of segments holds the newest first, and
    [sm_pages] are the physical addresses in its page list.  The frames and the
    page tables come from the interface of [Frames], list nodes and handles from
    a [NodeHeap].  The tests of the user address of a name are those of [SysFile];
    the name is its bytes. *)
From S2P Require Import Prelude Machine StringLib Pmm Frames Kmalloc Paging VmRegions Vfs VfsFile SysFile.

Definition sizeof_SharedMem : Z := 96.
Definition sizeof_shm_node : Z := 168.

Record SharedMem := MkShm {
  sm_addr : Z; sm_name : list Z; sm_list : Z; sm_pages : list Z; sm_page_count : Z; sm_size : Z; sm_refs : Z }.

(** A node with [ops = &shm_ops]; [sn_data] is its segment. *)
Record shm_node := ShmNode { sn_name : list Z; sn_flags : Z; sn_data : Z }.

Section Shm.
Context {A : Type} `{FrameAllocator A} {Hp : Type} `{NodeHeap Hp}.

Record shm_st := ShmSt {
  g_shm_list : list SharedMem; sh_heap : Hp; sh_frames : A;
  sh_nodes : gmap Z shm_node; sh_files : gmap Z file_handle; sh_task : tfiles }.
Implicit Types (st : shm_st).

Definition with_list st (l : list SharedMem) : shm_st :=
  ShmSt l (sh_heap st) (sh_frames st) (sh_nodes st) (sh_files st) (sh_task st).
Definition with_heap st (h : Hp) : shm_st :=
  ShmSt (g_shm_list st) h (sh_frames st) (sh_nodes st) (sh_files st) (sh_task st).
Definition with_frames st (s : A) : shm_st :=
  ShmSt (g_shm_list st) (sh_heap st) s (sh_nodes st) (sh_files st) (sh_task st).
Definition with_nodes st (m : gmap Z shm_node) : shm_st :=
  ShmSt (g_shm_list st) (sh_heap st) (sh_frames st) m (sh_files st) (sh_task st).

Definition find_shm st (a : Z) : option SharedMem := snd <$> list_find (fun x => sm_addr x = a) (g_shm_list st).
Definition upd_shm st (a : Z) (f : SharedMem -> SharedMem) : shm_st :=
  with_list st ((fun x => if sm_addr x =? a then f x else x) <$> g_shm_list st).
Definition set_refs (k : Z) (x : SharedMem) : SharedMem :=
  MkShm (sm_addr x) (sm_name x) (sm_list x) (sm_pages x) (sm_page_count x) (sm_size x) (u32 (sm_refs x + k)).

(** The segment of that name, a new one with [O_CREAT]; 0 is NULL. *)
Definition shm_get st (name : list Z) (flags : Z) : Z * shm_st :=
  if (63 <? length name)%nat then (0, st)
  else match list_find (fun x => sm_name x = name) (g_shm_list st) with
       | Some (_, x) => (sm_addr x, st)
       | None =>
           if is_set flags O_CREAT then
             let '(a, h) := nh_alloc (sh_heap st) sizeof_SharedMem in
             let st := with_heap st h in
             if a =? 0 then (0, st)
             else (a, with_list st (MkShm a name 0 [] 0 0 0 :: g_shm_list st))
           else (0, st)
       end.

(** The loop of [shm_set_size] with [n] pages to go and the pages [done]; when no
    frame is left, those are freed. *)
Fixpoint shm_alloc_pages (n : nat) (s : A) (done : list Z) : option (list Z) * A :=
  match n with
  | O => (Some done, s)
  | S n =>
      let '(phys_addr, s) := fa_alloc s in
      if phys_addr =? 0 then (None, foldl fa_free s done)
      else shm_alloc_pages n (zero_page s (phys_to_hhdm s phys_addr)) (done ++ [phys_addr])
  end.

Definition shm_set_size st (a : Z) (new_size : Z) : option (Z * shm_st) :=
  shm ← find_shm st a;
  if 0 <? sm_size shm then Some (-1, st)
  else
    let num_pages := u32 (new_size + PAGE_SIZE - 1) / PAGE_SIZE in
    let '(page_list, h) := nh_alloc (sh_heap st) (num_pages * 8) in
    let st := with_heap st h in
    if page_list =? 0 then Some (-1, st)
    else
      match shm_alloc_pages (Z.to_nat num_pages) (sh_frames st) [] with
      | (None, s) => Some (-1, with_heap (with_frames st s) (nh_free (sh_heap st) page_list))
      | (Some pages, s) =>
          Some (0, upd_shm (with_frames st s) a (fun x =>
            MkShm (sm_addr x) (sm_name x) page_list pages num_pages new_size (sm_refs x)))
      end.

(** The count is raised before the node is allocated. *)
Definition shm_create_vfs_node st (name : list Z) (flags : Z) : Z * shm_st :=
  let '(a, st) := shm_get st name flags in
  if a =? 0 then (0, st)
  else
    let st := upd_shm st a (set_refs 1) in
    let '(node, h) := nh_alloc (sh_heap st) sizeof_shm_node in
    let st := with_heap st h in
    if node =? 0 then (0, st)
    else (node, with_nodes st (<[node := ShmNode name (u32 flags) a]> (sh_nodes st))).

Definition shm_close st (node : Z) : option shm_st :=
  n ← sh_nodes st !! node;
  if sn_data n =? 0 then Some st else Some (upd_shm st (sn_data n) (set_refs (-1))).

Definition sys_shm_open st (name : list Z) (arg1 arg2 arg3 : Z) : option (Z * shm_st) :=
  if negb (verify_usr_access arg1 64) then Some (ERR, st)
  else
    let '(node, st) := shm_create_vfs_node st name (s32 arg2) in
    if node =? 0 then Some (ERR, st)
    else
      n ← sh_nodes st !! node;
      let '(handle, h) := nh_alloc (sh_heap st) sizeof_file_handle in
      let st := with_heap st h in
      if handle =? 0 then
        let st := upd_shm st (sn_data n) (set_refs (-1)) in
        Some (ERR, with_nodes (with_heap st (nh_free (sh_heap st) node)) (delete node (sh_nodes st)))
      else
        let fd := find_free_fd (sh_task st) in
        if fd <? 0 then
          let st := upd_shm st (sn_data n) (set_refs (-1)) in
          Some (ERR, with_nodes (with_heap st (nh_free (nh_free (sh_heap st) node) handle)) (delete node (sh_nodes st)))
        else
          Some (fd, ShmSt (g_shm_list st) (sh_heap st) (sh_frames st) (sh_nodes st)
                      (<[handle := FileHandle node 0 (u32 (s32 arg3)) 1]> (sh_files st)) (fput (sh_task st) fd handle)).

(** The segment behind a descriptor; [None]: the tests of the code fail. *)
Definition fd_shm st (fd : Z) : option SharedMem :=
  f ← sh_files st !! fget (sh_task st) fd;
  n ← sh_nodes st !! f_node f;
  find_shm st (sn_data n).

(** [sys_ftruncate] indexes [fd_tbl] without a test of the range; [None] is an access
    outside the table. *)
Definition sys_ftruncate st (arg1 arg2 : Z) : option (Z * shm_st) :=
  let fd := s32 arg1 in
  if bad_fd fd then None
  else match fd_shm st fd with
       | None => Some (ERR, st)
       | Some shm => '(r, st) ← shm_set_size st (sm_addr shm) (u32 arg2); Some (u64 r, st)
       end.

(** The loop that maps page [i] of the segment and the ones after it. *)
Definition MMAP_FLAGS : Z := Z.lor (Z.lor (Z.lor VMM_FLAG_PRESENT VMM_FLAG_WRITABLE) VMM_FLAG_USER) PTE_FLAG_SHARED.
Fixpoint mmap_pages (s : A) (pml4 virt_start_addr : Z) (i : Z) (pages : list Z) : A :=
  match pages with
  | [] => s
  | phys_addr :: pages =>
      mmap_pages (vmm_map_page s pml4 (virt_start_addr + i * PAGE_SIZE) phys_addr MMAP_FLAGS) pml4 virt_start_addr (i + 1) pages
  end.

(** [sys_mmap] after the tests of the descriptor: the address, the frames with the
    page tables, the two region lists and the heap of their nodes. *)
Definition mmap_shm (s : A) (pml4 : Z) (shm : SharedMem) (length_ : Z) (free_head : list VmFreeRegion)
    (alloc_head : list VmAllocated) (h : Hp) : Z * A * list VmFreeRegion * list VmAllocated * Hp :=
  if sm_page_count shm =? 0 then (0, s, free_head, alloc_head, h)
  else
    let aligned_len := Z.land (u64 (length_ + PAGE_SIZE - 1)) (u64 (Z.lnot (PAGE_SIZE - 1))) in
    let '(virt_start_addr, fl, h) := find_free_addr h free_head aligned_len in
    if virt_start_addr =? 0 then (0, s, fl, alloc_head, h)
    else
      let requested_pages := u32 (aligned_len / PAGE_SIZE) in
      let pages_to_map := if requested_pages <? sm_page_count shm then requested_pages else sm_page_count shm in
      let s := mmap_pages s pml4 virt_start_addr 0 (take (Z.to_nat pages_to_map) (sm_pages shm)) in
      let '(_, al, h) := vmm_add_allocated_mem h alloc_head virt_start_addr aligned_len VMM_FLAG_SHM in
      (virt_start_addr, s, fl, al, h).

Definition sys_mmap st (pml4 : Z) (arg2 arg5 : Z) (free_head : list VmFreeRegion) (alloc_head : list VmAllocated)
    : Z * shm_st * list VmFreeRegion * list VmAllocated :=
  let fd := s32 arg5 in
  if bad_fd fd then (0, st, free_head, alloc_head)
  else match fd_shm st fd with
       | None => (0, st, free_head, alloc_head)
       | Some shm =>
           let '(va, s, fl, al, h) := mmap_shm (sh_frames st) pml4 shm arg2 free_head alloc_head (sh_heap st) in
           (va, with_heap (with_frames st s) h, fl, al)
       end.
End Shm.
Arguments shm_st : clear implicits.
