(* ===== verification/ShmSpec.v ===== *)
(** Shared memory: the frames of a segment and its mapping into a task. *)
From S2P Require Import Prelude Machine StringLib Pmm Frames Kmalloc Paging FreeSpace VmRegions Vfs VfsFile SysFile Shm.

Section Pages.
Context {A : Type} `{FS : FrameAllocatorSpec A}.
Implicit Types (s : A) (l : list Z).

(** A zeroed frame at [p], free in [s0] and held once in [s]. *)
Definition fresh_page s0 s (p : Z) : Prop :=
  exists i, p = i * PAGE_SIZE /\ 0 < i < 2 ^ 35 /\ fa_count s0 i = None /\ fa_count s i = Some 1 /\
    forall x, in_frame (fa_hhdm s0) i x -> get8 (fa_mem s) x = 0.

(** The frames [l] are taken and nothing else is changed. *)
Record took s0 l s : Prop := {
  tk_undisturbed : undisturbed s0 s;
  tk_fresh : Forall (fresh_page s0 s) l;
  tk_nodup : NoDup l;
  tk_count j : (forall p, p ∈ l -> p <> j * PAGE_SIZE) -> fa_count s j = fa_count s0 j }.

Lemma took_nil s : fa_inv s -> took s [] s.
Proof. intros I. split; [by apply undisturbed_refl|constructor|constructor|done]. Qed.

Lemma took_snoc s0 l s : took s0 l s ->
  (exists i s1, fa_alloc s = (i * PAGE_SIZE, s1) /\ i * PAGE_SIZE <> 0 /\
     took s0 (l ++ [i * PAGE_SIZE]) (zero_page s1 (phys_to_hhdm s1 (i * PAGE_SIZE)))) \/
  (fa_alloc s = (0, s) /\ exhausted s).
Proof.
  intros [U Fr N C]. destruct (alloc_zero s (un_inv _ _ U)) as [(i & s1 & E & Hi & Hc & Hv & Hs2)|E]; [left|by right].
  exists i, s1. split; [done|]. split; [unfold PAGE_SIZE; lia|]. rewrite Hv. cbv zeta in Hs2.
  destruct Hs2 as (U2 & C2 & O2 & Z2). set (s2 := zero_page s1 _) in *. clearbody s2.
  assert (forall p, p ∈ l -> p <> i * PAGE_SIZE) as Hnew.
  { intros p Hp ->. rewrite Forall_forall in Fr. destruct (Fr _ Hp) as (j & Ej & _ & _ & Cj & _).
    assert (i = j) as -> by (unfold PAGE_SIZE in Ej; lia). congruence. }
  assert (fa_count s0 i = None) as H0 by (by rewrite <- (C i Hnew)).
  split.
  - by eapply undisturbed_trans.
  - apply Forall_app. split.
    + eapply Forall_impl; [exact Fr|]. intros p (j & Ej & Hj & C0 & Cj & Zj). exists j. split_and!; try done; try lia.
      * by apply U2.
      * intros x Hx. rewrite (un_kept _ _ U2), Zj; [done|done|]. by apply (count_kept s j 1); [apply U|rewrite (un_hhdm _ _ U)|..].
    + apply Forall_singleton. exists i. split_and!; try done; try lia. intros x Hx. apply Z2. by rewrite (un_hhdm _ _ U).
  - apply NoDup_app. split; [done|]. split; [|apply NoDup_singleton].
    intros p Hp Hp'. apply list_elem_of_singleton in Hp' as ->. by apply (Hnew _ Hp).
  - intros j Hj. rewrite O2, C; [done| |].
    + intros p Hp. apply Hj, elem_of_app. by left.
    + intros ->. apply (Hj (j * PAGE_SIZE)); [apply elem_of_app; right; apply list_elem_of_here|done].
Qed.

(** Giving the frames back restores the counts. *)
Lemma free_all s0 l : forall s, took s0 l s -> undisturbed s0 (foldl fa_free s l) /\
  forall j, fa_count (foldl fa_free s l) j = fa_count s0 j.
Proof.
  assert (forall l' s, undisturbed s0 s -> NoDup l' ->
    Forall (fun p => exists i, p = i * PAGE_SIZE /\ fa_count s0 i = None /\ fa_count s i = Some 1) l' ->
    (forall j, (forall p, p ∈ l' -> p <> j * PAGE_SIZE) -> fa_count s j = fa_count s0 j) ->
    undisturbed s0 (foldl fa_free s l') /\ forall j, fa_count (foldl fa_free s l') j = fa_count s0 j) as Hi.
  { induction l' as [|p l' IH]; intros s U N Fr C; cbn [foldl]; [split; [done|intros j; apply C; by intros ? ?%not_elem_of_nil]|].
    apply NoDup_cons in N as [Hp N]. apply Forall_cons in Fr as [(i & -> & C0 & Ci) Fr']. rewrite Forall_forall in Fr'.
    assert (i * PAGE_SIZE / PAGE_SIZE = i) as Ed by (apply Z.div_mul; done).
    destruct (fa_free_ok s (i * PAGE_SIZE) 1 (un_inv _ _ U)) as [(I1 & Hh & Hpr & Hm) Hc]; [by rewrite Ed|lia|].
    rewrite Ed in Hc. cbn [Z.eqb Pos.eqb] in Hc. apply IH.
    - split; [done|rewrite Hh; apply U|intros x; rewrite Hpr; apply U| |].
      + intros j r Hj. rewrite Hc. destruct (Z.eqb_spec i j) as [->|]; [congruence|by apply U].
      + intros x Hx. rewrite Hm; [by apply U|]. apply (kept_not_private s). by eapply undisturbed_mono.
    - done.
    - apply Forall_forall. intros q Hq. destruct (Fr' _ Hq) as (j & -> & Cj0 & Cj). exists j. rewrite Hc.
      destruct (Z.eqb_spec i j) as [->|]; [by destruct Hp|done].
    - intros j Hj. rewrite Hc. destruct (Z.eqb_spec i j) as [->|Hne]; [by rewrite C0|]. apply C.
      intros q [->|Hq]%elem_of_cons; [unfold PAGE_SIZE; lia|by apply Hj]. }
  intros s [U Fr N C]. apply Hi; [done|done| |done]. eapply Forall_impl; [exact Fr|]. intros p (i & ? & _ & ? & ? & _). by exists i.
Qed.

Lemma shm_alloc_pages_spec s0 n : forall s l, took s0 l s ->
  match shm_alloc_pages n s l with
  | (Some l', s') => took s0 l' s' /\ length l' = (length l + n)%nat
  | (None, s') => undisturbed s0 s' /\ forall j, fa_count s' j = fa_count s0 j
  end.
Proof.
  induction n as [|n IH]; intros s l T; cbn [shm_alloc_pages]; [split; [done|lia]|].
  destruct (took_snoc s0 l s T) as [(i & s1 & -> & Hnz & T1)|E].
  - rewrite (proj2 (Z.eqb_neq _ _) Hnz). specialize (IH _ _ T1). destruct (shm_alloc_pages n _ _) as [[l'|] s']; [|done].
    destruct IH as [T' Hl]. split; [done|]. rewrite Hl, length_app. simpl. lia.
  - destruct E as [-> _]. cbn [Z.eqb]. by apply free_all.
Qed.
End Pages.

(** ** The size of a segment *)
Section SetSize.
Context {A : Type} `{FS : FrameAllocatorSpec A} {Hp : Type} `{NodeHeap Hp}.
Implicit Types (st : shm_st A Hp) (x : SharedMem).

Lemma find_shm_upd st a f x : find_shm st a = Some x -> (forall y, sm_addr (f y) = sm_addr y) ->
  find_shm (upd_shm st a f) a = Some (f x).
Proof.
  unfold find_shm, upd_shm. cbn [g_shm_list with_list]. intros Hx Hf. induction (g_shm_list st) as [|y l IH]; [done|].
  cbn [list_find fmap list_fmap] in *. destruct (Z.eqb_spec (sm_addr y) a) as [Ey|Ey].
  - rewrite decide_True in Hx by done. injection Hx as ->. rewrite decide_True by (by rewrite Hf). done.
  - rewrite decide_False in Hx |- * by done.
    destruct (list_find _ l) as [[i z]|]; [|done]. cbn in Hx. specialize (IH Hx).
    destruct (list_find _ (_ <$> l)) as [[j w]|]; [|done]. cbn in *. done.
Qed.

(** C24: [shm_set_size] of a new segment gives it as many frames as its size needs:
    different frames that nobody held, each zeroed and now held once.  When the
    page list or a frame cannot be allocated it reports -1, every frame has the
    count it had before, so none is lost, and the segments are unchanged.  In both
    cases no byte held by anyone changes.  A segment that has a size keeps it. *)
Theorem shm_set_size_correct st a x new_size : fa_inv (sh_frames st) -> find_shm st a = Some x ->
  0 < new_size <= 2 ^ 32 - PAGE_SIZE ->
  exists r st', shm_set_size st a new_size = Some (r, st') /\
    undisturbed (sh_frames st) (sh_frames st') /\
    (r = -1 /\ g_shm_list st' = g_shm_list st /\ (forall j, fa_count (sh_frames st') j = fa_count (sh_frames st) j) \/
     r = 0 /\ sm_size x <= 0 /\ exists x', find_shm st' a = Some x' /\ sm_name x' = sm_name x /\ sm_size x' = new_size /\
       sm_page_count x' = Z.of_nat (length (sm_pages x')) /\
       new_size <= sm_page_count x' * PAGE_SIZE < new_size + PAGE_SIZE /\
       took (sh_frames st) (sm_pages x') (sh_frames st')).
Proof.
  intros I Hx Hs. unfold shm_set_size. rewrite Hx. cbn [mbind option_bind].
  destruct (Z.ltb_spec 0 (sm_size x)) as [Hpos|Hz].
  { eexists _, _. split; [done|]. split; [by apply undisturbed_refl|by left]. }
  assert (u32 (new_size + PAGE_SIZE - 1) = new_size + PAGE_SIZE - 1) as -> by (apply u32_small; unfold PAGE_SIZE in *; lia).
  set (n := (new_size + PAGE_SIZE - 1) / PAGE_SIZE).
  assert (0 < n /\ new_size <= n * PAGE_SIZE < new_size + PAGE_SIZE) as [Hn Hr].
  { unfold n, PAGE_SIZE in *. Z.div_mod_to_equations. lia. }
  destruct (nh_alloc _ _) as [pl h]. cbn [sh_frames with_heap sh_heap].
  destruct (pl =? 0). { eexists _, _. split; [done|]. split; [by apply undisturbed_refl|by left]. }
  pose proof (shm_alloc_pages_spec (sh_frames st) (Z.to_nat n) _ _ (took_nil _ I)) as Ha.
  destruct (shm_alloc_pages _ _ _) as [[l|] s]; (eexists _, _; split; [done|]).
  - destruct Ha as [T Hl]. simpl in Hl. split; [apply T|]. right. split; [done|]. split; [lia|]. eexists.
    split; [by apply find_shm_upd|]. cbn [sm_name sm_size sm_page_count sm_pages sh_frames upd_shm with_list with_frames].
    split; [done|]. split; [done|]. split; [lia|]. done.
  - destruct Ha as [U C]. split; [done|]. by left.
Qed.
End SetSize.

(** ** Mapping *)
Section MapPages.
Context {A : Type} `{FS : FrameAllocatorSpec A}.
Implicit Types (s : A) (va root : Z).

Lemma tbl_index_div va sh : 0 <= sh -> tbl_index va sh = va / 2 ^ sh mod 512.
Proof. intros Hs. unfold tbl_index. change 0x1FF with (2 ^ 9 - 1). by rewrite land_mask, Z.shiftr_div_pow2 by lia. Qed.

Lemma same_page_iff va va' : 0 <= va < 2 ^ 48 -> 0 <= va' < 2 ^ 48 ->
  same_page va va' = bool_decide (va / PAGE_SIZE = va' / PAGE_SIZE).
Proof.
  intros Hv Hv'. unfold same_page, va_path. rewrite !tbl_index_div by (vm_compute; discriminate).
  unfold PML4_INDEX, PDPT_INDEX, PD_INDEX, PT_INDEX, PAGE_SIZE. apply bool_decide_ext.
  change (2 ^ 0x27) with (4096 * 134217728). change (2 ^ 0x1e) with (4096 * 262144).
  change (2 ^ 0x15) with (4096 * 512). change (2 ^ 0xc) with 4096. rewrite <- !Z.div_div by lia.
  assert (forall x, 0 <= x < 2 ^ 48 -> 0 <= x / 4096 < 2 ^ 36) as Hq by (intros; split; [apply Z.div_pos; lia|apply Z.div_lt_upper_bound; lia]).
  pose proof (Hq va Hv) as Ha. pose proof (Hq va' Hv') as Ha'. clear Hv Hv' Hq.
  generalize dependent (va / 4096). intros q Ha. generalize dependent (va' / 4096). intros q' Ha'. split.
  - intros [E E0]. injection E as E3 E2 E1. Z.div_mod_to_equations. lia.
  - intros ->. done.
Qed.

(** Page [k] of the range from [va] on. *)
Definition in_page va (k x : Z) : Prop := va + k * PAGE_SIZE <= x < va + (k + 1) * PAGE_SIZE.

Lemma in_page_div va k x : va mod PAGE_SIZE = 0 -> in_page va k x <-> x / PAGE_SIZE = (va + k * PAGE_SIZE) / PAGE_SIZE.
Proof. intros Hm. unfold in_page, PAGE_SIZE in *. split; intros; Z.div_mod_to_equations; lia. Qed.

Definition page_entry (p : Z) : Z := Z.lor (Z.lor (pte_set_addr 0 p) MMAP_FLAGS) VMM_FLAG_PRESENT.

(** Each page is mapped, unless the frames run out; three free frames for each page are
    enough for the tables. *)
Lemma mmap_pages_spec root va pages : va mod PAGE_SIZE = 0 -> 0 <= va -> Forall (fun p => is_u64 p /\ p mod PAGE_SIZE = 0) pages ->
  forall s i, pt_inv s root -> 0 <= i -> va + (i + Z.of_nat (length pages)) * PAGE_SIZE <= 2 ^ 47 ->
  (forall x, va + i * PAGE_SIZE <= x < va + (i + Z.of_nat (length pages)) * PAGE_SIZE -> has VMM_FLAG_PRESENT (lookup_pte s root x) = false) ->
  let s' := mmap_pages s root va i pages in
  pt_inv s' root /\ root_kept root s s' /\ (forall n, room s' n -> room s n) /\
  (forall k p x, pages !! k = Some p -> in_page va (i + Z.of_nat k) x ->
     lookup_pte s' root x = page_entry p \/ has VMM_FLAG_PRESENT (lookup_pte s' root x) = false /\ exhausted s') /\
  (room s (3 * length pages) -> forall k p x, pages !! k = Some p -> in_page va (i + Z.of_nat k) x -> lookup_pte s' root x = page_entry p) /\
  (forall x, 0 <= x < 2 ^ 47 -> ~ va + i * PAGE_SIZE <= x < va + (i + Z.of_nat (length pages)) * PAGE_SIZE ->
     lookup_pte s' root x = lookup_pte s root x).
Proof.
  intros Hm Hva Hok. induction pages as [|p pages IH]; intros s i Hpt Hi Hend Habs; cbn [mmap_pages].
  { split; [done|]. split; [done|]. split; [done|]. split; [intros k p x Hk; by rewrite lookup_nil in Hk|]. split; [intros _ k p x Hk; by rewrite lookup_nil in Hk|done]. }
  apply Forall_cons in Hok as [[Hu Hp] Hok]. cbn [length] in Hend, Habs |- *. set (v := va + i * PAGE_SIZE) in *.
  assert (0 <= v < 2 ^ 47) as Hv by (unfold v, PAGE_SIZE in *; lia).
  assert (has VMM_FLAG_PRESENT (lookup_pte s root v) = false) as Hav by (apply Habs; unfold v, PAGE_SIZE in *; lia).
  destruct (vmm_map_page_spec s root v p MMAP_FLAGS Hpt (user_in_slots v Hv) Hu Hp) as (Hpt1 & Hl1 & Hrk & _ & Hroom).
  { vm_compute. split; [discriminate|reflexivity]. }
  { cbv zeta. by rewrite Hav. }
  destruct (Hroom Hav) as (Hr1 & Hr2 & _). pose proof (missing_le s root (va_path v)) as H3. cbn [length va_path] in H3.
  set (need := missing s root (va_path v)) in *. set (s1 := vmm_map_page s root v p MMAP_FLAGS) in *. clearbody s1.
  assert (forall x, 0 <= x < 2 ^ 47 -> ~ in_page va i x -> lookup_pte s1 root x = lookup_pte s root x) as Hout.
  { intros x Hx Hn. destruct Hl1 as [(_ & _ & E)|[_ E]]; (rewrite E by (by apply user_in_slots)); [done|]. rewrite same_page_iff by lia.
    rewrite bool_decide_false; [done|]. intros Eq. apply Hn. apply in_page_div; [done|]. done. }
  assert (forall x, in_page va i x -> 0 <= x < 2 ^ 47 /\ same_page v x = true) as Hpage.
  { intros x Hx. assert (0 <= x < 2 ^ 47) as Hx' by (unfold in_page, v, PAGE_SIZE in *; lia). split; [done|].
    rewrite same_page_iff by lia. apply bool_decide_eq_true. symmetry. by apply in_page_div. }
  assert (forall x, in_page va i x -> lookup_pte s1 root x = page_entry p \/ has VMM_FLAG_PRESENT (lookup_pte s1 root x) = false /\ exhausted s1) as Hin.
  { intros x Hx. destruct (Hpage x Hx) as [Hx' Hs]. destruct Hl1 as [(_ & He & E)|[_ E]]; (rewrite E by (by apply user_in_slots)).
    - right. split; [|done]. apply Habs. unfold in_page, v, PAGE_SIZE in *. lia.
    - left. by rewrite Hs. }
  destruct (IH Hok s1 (i + 1)) as (I1 & I2 & I3 & I4 & I5 & I6); [done|lia|lia| |].
  { intros x Hx. rewrite Hout; [apply Habs| |]; unfold in_page, v, PAGE_SIZE in *; lia. }
  assert (forall x, in_page va i x -> lookup_pte (mmap_pages s1 root va (i + 1) pages) root x = lookup_pte s1 root x) as Hkeep.
  { intros x Hx. apply I6; unfold in_page, v, PAGE_SIZE in *; lia. }
  split; [done|]. split; [intros j Hj Hs; rewrite I2 by done; by apply Hrk|]. split; [intros n Hn; by apply Hr2, I3|]. split; [|split].
  - intros [|k] q x Hk Hx; cbn in Hk.
    + injection Hk as <-. rewrite Z.add_0_r in Hx. rewrite Hkeep by done. destruct (Hin x Hx) as [?|[? He]]; [by left|right]. split; [done|].
      intros Hr. by apply He, I3.
    + apply (I4 k q x Hk). unfold in_page in *. lia.
  - intros Hr [|k] q x Hk Hx; cbn in Hk.
    + injection Hk as <-. rewrite Z.add_0_r in Hx. rewrite Hkeep by done. destruct Hl1 as [(Hn & _)|[_ E]].
      * exfalso. apply Hn. eapply room_le; [|exact Hr]. lia.
      * destruct (Hpage x Hx) as [Hx' Hs]. by rewrite E, Hs by by apply user_in_slots.
    + apply (I5 ltac:(apply Hr1; eapply room_le; [|exact Hr]; lia) k q x Hk). unfold in_page in *. lia.
  - intros x Hx Hn. rewrite I6; [apply Hout; [done|]|done|]; unfold in_page, v, PAGE_SIZE in *; lia.
Qed.
End MapPages.

Section Mmap.
Context {A : Type} `{FS : FrameAllocatorSpec A} {Hp : Type} `{NodeHeap Hp}.
Implicit Types (s : A) (shm : SharedMem).

(** What [sys_mmap] relies on: the segment's frames are page addresses, and the free
    regions of the task are whole pages of the user half that are not mapped. *)
Definition segment_ok shm : Prop :=
  sm_page_count shm = Z.of_nat (length (sm_pages shm)) /\ sm_page_count shm < 2 ^ 32 /\
  Forall (fun p => is_u64 p /\ p mod PAGE_SIZE = 0) (sm_pages shm).
Definition free_ok s root (fl : list VmFreeRegion) : Prop :=
  Forall (fun r => fr_addr r mod PAGE_SIZE = 0) fl /\
  forall x, free_addr fl x -> 0 <= x < 2 ^ 47 /\ has VMM_FLAG_PRESENT (lookup_pte s root x) = false.

Lemma find_free_addr_mem (h : Hp) fl size a fl' h' : find_free_addr h fl size = (a, fl', h') -> a <> 0 ->
  exists r, r ∈ fl /\ a = fr_addr r.
Proof.
  revert fl' h'. induction fl as [|r fl IH]; intros fl' h'; cbn [find_free_addr]; [by intros [= <- _ _]|].
  destruct (size <? fr_size r). { intros [= <- _ _] _. exists r. split; [apply list_elem_of_here|done]. }
  destruct (fr_size r =? size). { intros [= <- _ _] _. exists r. split; [apply list_elem_of_here|done]. }
  destruct (find_free_addr h fl size) as [[b l1] h1] eqn:E. intros [= <- _ _] Hnz.
  destruct (IH _ _ eq_refl Hnz) as (r' & Hr & ->). exists r'. split; [by apply list_elem_of_further|done].
Qed.

Lemma align_up n : 0 < n < 2 ^ 63 -> let a := Z.land (u64 (n + PAGE_SIZE - 1)) (u64 (Z.lnot (PAGE_SIZE - 1))) in
  n <= a < n + PAGE_SIZE /\ a mod PAGE_SIZE = 0.
Proof.
  intros Hn a. subst a. rewrite u64_small by (unfold PAGE_SIZE; lia). unfold PAGE_SIZE.
  change (u64 (Z.lnot (4096 - 1))) with ADDR_MASK. rewrite land_addr_mask by (unfold is_u64; lia).
  unfold PAGE_SIZE. Z.div_mod_to_equations. lia.
Qed.

(** C23: [sys_mmap] of a segment.  It fails, without a change, exactly when the segment has
    no pages or no free region has room for the length.  Otherwise the range it returns
    covers the length asked for, was free and no longer is.  Byte [o] of page [i] of the
    range translates to byte [o] of page [i] of the segment: always when three frames for
    each page are free, and otherwise unless no frame is left afterwards; a page left out
    does not translate.  The translation of every address outside the range is as before.
    So all tasks that map a segment see its frames. *)
Theorem mmap_shm_correct s root shm len fl al (h : Hp) lo : pt_inv s root -> 0 < lo -> regions_ok lo fl ->
  free_ok s root fl -> segment_ok shm -> 0 < len <= 2 ^ 43 ->
  let '(va, s', fl', al', _) := mmap_shm s root shm len fl al h in
  exists alen, len <= alen < len + PAGE_SIZE /\ alen mod PAGE_SIZE = 0 /\
  ((va = 0 /\ s' = s /\ fl' = fl /\ al' = al /\ (sm_page_count shm = 0 \/ forall r, r ∈ fl -> fr_size r < alen)) \/
   (va <> 0 /\ sm_page_count shm <> 0 /\ pt_inv s' root /\ va mod PAGE_SIZE = 0 /\
    (forall x, free_addr fl x <-> va <= x < va + alen \/ free_addr fl' x) /\
    (forall x, va <= x < va + alen -> ~ free_addr fl' x) /\
    (forall i p o, sm_pages shm !! i = Some p -> (Z.of_nat i + 1) * PAGE_SIZE <= alen -> 0 <= o < PAGE_SIZE ->
       let x := va + Z.of_nat i * PAGE_SIZE + o in
       (room s (3 * length (sm_pages shm)) -> vmm_virt2phys s' root x = u64 (p + o)) /\
       (vmm_virt2phys s' root x = u64 (p + o) \/ vmm_virt2phys s' root x = 0 /\ exhausted s')) /\
    (forall x, 0 <= x < 2 ^ 47 -> ~ va <= x < va + alen -> vmm_virt2phys s' root x = vmm_virt2phys s root x) /\
    root_kept root s s')).
Proof.
  intros Hpt Hlo Hreg [Hal Hfree] (Hpc & Hpc32 & Hpages) Hlen. unfold mmap_shm.
  destruct (align_up len ltac:(lia)) as [Ha Ham]. set (alen := Z.land _ _) in *. clearbody alen.
  destruct (Z.eqb_spec (sm_page_count shm) 0) as [H0|H0].
  { exists alen. split; [done|]. split; [done|left]. split_and!; try done. by left. }
  assert (0 < alen) as Hapos by lia. pose proof (find_free_addr_spec h fl alen lo Hlo Hapos Hreg) as Hf.
  destruct (find_free_addr h fl alen) as [[va fl'] h1] eqn:Ef.
  destruct Hf as [(-> & -> & -> & Hno)|(Hva & Hvend & _ & Hcov & Hnot)].
  { exists alen. split; [done|]. split; [done|left]. split_and!; try done. by right. }
  rewrite (proj2 (Z.eqb_neq va 0)) by lia. destruct (vmm_add_allocated_mem _ _ _ _ _) as [[r al'] h2].
  set (req := u32 (alen / PAGE_SIZE)). set (n := if req <? sm_page_count shm then _ else _).
  assert (req * PAGE_SIZE = alen) as Hreq.
  { unfold req. rewrite u32_small; unfold PAGE_SIZE in *; Z.div_mod_to_equations; lia. }
  set (pages := take (Z.to_nat n) (sm_pages shm)).
  assert (Z.of_nat (length pages) = n /\ n <= req /\ n <= sm_page_count shm /\ (n = req \/ n = sm_page_count shm) /\ 0 <= n) as (Hnl & Hn1 & Hn2 & Hn3 & Hn0).
  { unfold pages. rewrite length_take. unfold n. unfold PAGE_SIZE in *. destruct (Z.ltb_spec req (sm_page_count shm)); lia. }
  assert (va mod PAGE_SIZE = 0) as Hvm.
  { destruct (find_free_addr_mem h fl alen va fl' h1 Ef ltac:(lia)) as (rg & Hrg & ->). rewrite Forall_forall in Hal. by apply Hal. }
  assert (forall x, va <= x < va + alen -> 0 <= x < 2 ^ 47 /\ has VMM_FLAG_PRESENT (lookup_pte s root x) = false) as Hrange.
  { intros x Hx. apply Hfree, Hcov. by left. }
  assert (va + alen <= 2 ^ 47) as Hv47 by (pose proof (Hrange (va + alen - 1) ltac:(lia)); lia).
  destruct (mmap_pages_spec root va pages Hvm ltac:(lia)) with (s := s) (i := 0) as (Hpt' & Hrk & _ & Hin & Hall & Hout); [|done|lia|..].
  { unfold pages. by apply Forall_take. }
  { rewrite Z.add_0_l, Hnl. unfold PAGE_SIZE in *. lia. }
  { intros x Hx. apply Hrange. rewrite Z.add_0_l, Hnl in Hx. unfold PAGE_SIZE in *. lia. }
  exists alen. rewrite Z.add_0_l, Hnl in Hout. split; [done|]. split; [done|]. right. split; [lia|]. do 5 (split; [done|]). split; [|split; [|done]].
  - intros i p o Hp' Hi Ho. set (x := va + Z.of_nat i * PAGE_SIZE + o). assert (Z.of_nat i < sm_page_count shm) as Hil by (apply lookup_lt_Some in Hp'; lia).
    assert (pages !! i = Some p) as Hpi.
    { unfold pages. rewrite lookup_take_lt; [done|]. unfold PAGE_SIZE in *. lia. }
    assert (x mod PAGE_SIZE = o) as Hxm by (unfold x, PAGE_SIZE in *; Z.div_mod_to_equations; lia).
    assert (in_page va (0 + Z.of_nat i) x) as Hxi by (unfold in_page, x, PAGE_SIZE in *; lia).
    rewrite Forall_forall in Hpages. destruct (Hpages p (list_elem_of_lookup_2 _ _ _ Hp')) as [Hu Hpm].
    destruct (new_entry p MMAP_FLAGS Hu Hpm) as (_ & Ea & Eh & _); [vm_compute; split; [discriminate|reflexivity]|].
    rewrite virt2phys_lookup. split.
    + intros Hr. rewrite (Hall ltac:(eapply room_le; [|exact Hr]; unfold pages; rewrite length_take; lia) i p x Hpi Hxi).
      unfold page_entry. by rewrite Ea, Eh, Hxm.
    + destruct (Hin i p x Hpi Hxi) as [->|[-> He]]; [left|by right]. unfold page_entry. by rewrite Ea, Eh, Hxm.
  - intros x Hx Hn. rewrite !virt2phys_lookup. destruct (decide (va + 0 * PAGE_SIZE <= x < va + n * PAGE_SIZE)) as [D|D].
    + exfalso. apply Hn. unfold PAGE_SIZE in *. lia.
    + by rewrite Hout.
Qed.
End Mmap.

(** ** One page mapped at 0x400000 *)
#[local] Existing Instance demo_fs.bump.
Definition demo_shm : SharedMem := MkShm 64 [115] 128 [demo_pa] 1 100 1.
Definition demo_free : list VmFreeRegion := [FreeRegion 16 0x400000 0x1000].

(** Free frames of the manager. *)
Lemma pmm_room (p : pstate) (l : list Z) : 0 < total_pages p < 2 ^ 35 ->
  bool_decide (NoDup l) && forallb (fun i => (0 <=? i) && (i <? total_pages p) && negb (bitmap_test p i)) l = true -> room p (length l).
Proof.
  intros Ht [Hn Hf]%andb_true_iff. exists l. split; [by apply bool_decide_eq_true in Hn|]. split; [done|]. intros i Hi.
  rewrite forallb_forall in Hf. apply list_elem_of_In in Hi. specialize (Hf i Hi). apply andb_true_iff in Hf as [[H1 H2]%andb_true_iff H3].
  apply Z.leb_le in H1. apply Z.ltb_lt in H2. apply negb_true_iff in H3. split; [lia|]. cbn. by rewrite pmm_count_in, H3 by lia.
Qed.

Lemma demo_room : room demo_space 3.
Proof. apply (pmm_room _ [0x104; 0x105; 0x106]); [vm_compute; split; reflexivity|vm_compute; reflexivity]. Qed.

Lemma mmap_shm_correct_witness :
  let '(va, s', _, _, _) := mmap_shm demo_space demo_root demo_shm 100 demo_free [] 4096 in
  va = 0x400000 /\ vmm_virt2phys s' demo_root 0x400010 = 0x102010.
Proof.
  destruct demo_space_ok as (Hpt & _ & _). pose proof demo_room as Hroom.
  pose proof (mmap_shm_correct (Hp := Z) demo_space demo_root demo_shm 100 demo_free [] 4096 0x400000 Hpt) as H.
  assert (fst (fst (fst (fst (mmap_shm demo_space demo_root demo_shm 100 demo_free [] 4096)))) = 0x400000) as Ev by (vm_compute; reflexivity).
  destruct (mmap_shm _ _ _ _ _ _ _) as [[[[va s'] fl'] al'] h']. cbn [fst] in Ev. subst va.
  split; [reflexivity|].
  destruct H as (alen & Hl & Hm & [(E & _)|(_ & _ & _ & _ & _ & _ & Hin & _)]).
  - lia.
  - vm_compute. split_and!; discriminate || (try reflexivity).
  - split; [repeat constructor|]. intros x Hx. apply Exists_cons in Hx as [Hx|Hx]; [|by apply Exists_nil in Hx].
    unfold in_region in Hx. cbn [fr_addr fr_size] in Hx. split; [lia|].
    assert (lookup_pte demo_space demo_root x = lookup_pte demo_space demo_root 0x400000) as ->.
    { assert (same_page 0x400000 x = true) as Es.
      { rewrite same_page_iff by lia. apply bool_decide_eq_true_2. unfold PAGE_SIZE. Z.div_mod_to_equations. lia. }
      apply bool_decide_eq_true in Es as [E1 E2]. unfold lookup_pte. by rewrite E1, E2. }
    by rewrite demo_space_empty.
  - split; [reflexivity|]. split; [vm_compute; reflexivity|]. repeat constructor; vm_compute; congruence || discriminate.
  - lia.
  - discriminate E.
  - destruct (Hin 0%nat demo_pa 0x10) as [E _]; [reflexivity|unfold PAGE_SIZE in *; Z.div_mod_to_equations; lia|unfold PAGE_SIZE; lia|].
    exact (E Hroom).
Defined.

Definition demo_segments : shm_st pstate Z :=
  ShmSt [MkShm 64 [115] 0 [] 0 0 1] 4096 demo_pmm ∅ ∅ (TFiles (replicate MAX_OPEN_FILES 0) [SLASH] 1).

Lemma shm_set_size_correct_witness : exists st' x, shm_set_size demo_segments 64 5000 = Some (0, st') /\
  find_shm st' 64 = Some x /\ sm_page_count x = 2 /\ took demo_pmm (sm_pages x) (sh_frames st').
Proof.
  destruct (shm_set_size_correct demo_segments 64 (MkShm 64 [115] 0 [] 0 0 1) 5000) as (r & st' & E & _ & Hr).
  - exact demo_pmm_inv.
  - reflexivity.
  - unfold PAGE_SIZE. lia.
  - assert (fst <$> shm_set_size demo_segments 64 5000 = Some 0) as E0 by (vm_compute; reflexivity).
    rewrite E in E0. cbn in E0. injection E0 as ->. destruct Hr as [(Hr & _)|(_ & _ & x & Hx & _ & _ & _ & Hp & T)]; [lia|].
    exists st', x. split; [exact E|]. split; [exact Hx|]. split; [unfold PAGE_SIZE in *; lia|exact T].
Defined.
