(* ===== verification/Input.v ===== *)
(** The PS/2 input drivers: [src/src/drivers/keyboard.c] and
    [src/src/drivers/mouse.c].

    An interrupt handler is a function of the device's state and the byte(s) it
    reads from the ports; a run of the driver is a list of such bytes.  The
    keyboard pushes every character both to its own byte buffer and, as an
    event, to the desktop's queue (both of [RingBuf]); the mouse assembles
    three-byte packets and moves a clamped cursor. *)
From S2P Require Import Prelude RingBuf.

(** ** Keyboard *)
Definition KBD_TBL_SIZE : nat := 128.
Definition BREAK_CODE : Z := 0x80.
Definition KEY_PAGE_UP : Z := 0x49.
Definition KEY_PAGE_DOWN : Z := 0x51.
Definition KEY_ALT_PRESSED : Z := 0x38.
Definition KEY_ALT_RESLEASED : Z := 0xB8.
Definition KEY_CTRL_PRESSED : Z := 0x1D.
Definition KEY_CTRL_RESLEASED : Z := 0x9D.
Definition KEY_LSHIFT_PRESSED : Z := 0x2A.
Definition KEY_LSHIFT_RELEASED : Z := 0xAA.
Definition KEY_RSHIFT_PRESSED : Z := 0x36.
Definition KEY_RSHIFT_RELEASED : Z := 0xB6.
Definition KEY_CAPSLOCK_PRESSED : Z := 0x3A.
Definition KEY_UP : Z := 0x48.
Definition KEY_DOWN : Z := 0x50.
Definition KEY_LEFT : Z := 0x4B.
Definition KEY_RIGHT : Z := 0x4D.

(** The initialisers; the rest of the 128 entries is 0. *)
Definition kbd_tbl : list Z :=
  [
    0; 27; 49; 50; 51; 52; 53; 54; 55; 56; 57; 48; 45; 61; 8; 9; 113; 119; 101; 114; 116; 121;
    117; 105; 111; 112; 91; 93; 10; 0; 97; 115; 100; 102; 103; 104; 106; 107; 108; 59; 39; 96;
    0; 92; 122; 120; 99; 118; 98; 110; 109; 44; 46; 47; 0; 42; 0; 32
  ] ++ replicate 70 0.

Definition kbd_tbl_shift : list Z :=
  [
    0; 27; 33; 64; 35; 36; 37; 94; 38; 42; 40; 41; 95; 43; 8; 9; 81; 87; 69; 82; 84; 89; 85;
    73; 79; 80; 123; 125; 10; 0; 65; 83; 68; 70; 71; 72; 74; 75; 76; 58; 34; 126; 0; 124; 90;
    88; 67; 86; 66; 78; 77; 60; 62; 63; 0; 42; 0; 32
  ] ++ replicate 70 0.

Record KeyboardDevice := Kbd {
  k_buf : RingBuf; waiting_pid : Z;
  ctrl_pressed : bool; alt_pressed : bool; shift_pressed : bool; caps_lock : bool
}.

(** The device and the global event queue. *)
Record kbd_state := KSt { kbd_dev : KeyboardDevice; g_event_queue : EventBuf }.

Definition set_buf (d : KeyboardDevice) (b : RingBuf) : KeyboardDevice :=
  Kbd b (waiting_pid d) (ctrl_pressed d) (alt_pressed d) (shift_pressed d) (caps_lock d).

(** Push a character and its event. *)
Definition emit (c modifiers : Z) (k : kbd_state) : kbd_state :=
  KSt (set_buf (kbd_dev k) (rb_push (k_buf (kbd_dev k)) c))
      (event_queue_push (g_event_queue k) (mkEvent EVENT_KEY_PRESSED modifiers (ev_key c))).

Definition send_ansi_sequence (seq : list Z) (k : kbd_state) : kbd_state :=
  fold_left (fun k c => emit c 0 k) seq k.

(** The [switch] on the scancode. *)
Definition update_modifiers (d : KeyboardDevice) (scancode : Z) : KeyboardDevice :=
  let '(Kbd b w c a s l) := d in
  if scancode =? KEY_CTRL_PRESSED then Kbd b w true a s l
  else if scancode =? KEY_CTRL_RESLEASED then Kbd b w false a s l
  else if scancode =? KEY_ALT_PRESSED then Kbd b w c true s l
  else if scancode =? KEY_ALT_RESLEASED then Kbd b w c false s l
  else if (scancode =? KEY_LSHIFT_PRESSED) || (scancode =? KEY_RSHIFT_PRESSED) then Kbd b w c a true l
  else if (scancode =? KEY_LSHIFT_RELEASED) || (scancode =? KEY_RSHIFT_RELEASED) then Kbd b w c a false l
  else if scancode =? KEY_CAPSLOCK_PRESSED then Kbd b w c a s (negb l)
  else d.

Definition ascii_of (d : KeyboardDevice) (scancode : Z) : Z :=
  let ascii_char := default 0 ((if shift_pressed d then kbd_tbl_shift else kbd_tbl) !! Z.to_nat scancode) in
  if caps_lock d && (((97 <=? ascii_char) && (ascii_char <=? 122)) || ((65 <=? ascii_char) && (ascii_char <=? 90)))
  then Z.lxor ascii_char 0x20 else ascii_char.

Definition modifiers_of (d : KeyboardDevice) : Z :=
  let m := 0 in
  let m := if ctrl_pressed d then Z.lor m MOD_CTRL else m in
  let m := if alt_pressed d then Z.lor m MOD_ALT else m in
  if shift_pressed d then Z.lor m MOD_SHIFT else m.

Definition keyboard_handler (k : kbd_state) (scancode : Z) : kbd_state :=
  let k := KSt (update_modifiers (kbd_dev k) scancode) (g_event_queue k) in
  if negb (Z.land scancode BREAK_CODE =? 0) then k
  else if scancode <? 0x80 then
    if scancode =? KEY_PAGE_UP then send_ansi_sequence [27; 91; 53; 126] k
    else if scancode =? KEY_PAGE_DOWN then send_ansi_sequence [27; 91; 54; 126] k
    else if scancode =? KEY_UP then send_ansi_sequence [27; 91; 65] k
    else if scancode =? KEY_DOWN then send_ansi_sequence [27; 91; 66] k
    else if scancode =? KEY_RIGHT then send_ansi_sequence [27; 91; 67] k
    else if scancode =? KEY_LEFT then send_ansi_sequence [27; 91; 68] k
    else
      let ascii_char := ascii_of (kbd_dev k) scancode in
      if negb (ascii_char =? 0) then emit ascii_char (modifiers_of (kbd_dev k)) k else k
  else k.

Definition keyboard_set_waiting (k : kbd_state) (pid : Z) : kbd_state :=
  let '(Kbd b _ c a s l) := kbd_dev k in KSt (Kbd b pid c a s l) (g_event_queue k).

Definition keyboard_get_char (k : kbd_state) : Z * kbd_state :=
  match rb_pop (k_buf (kbd_dev k)) with
  | (Some c, b) => (c, KSt (set_buf (kbd_dev k) b) (g_event_queue k))
  | (None, b) => (0, KSt (set_buf (kbd_dev k) b) (g_event_queue k))
  end.

Definition keyboard_init (k : kbd_state) : kbd_state :=
  let '(Kbd _ _ c a s l) := kbd_dev k in KSt (Kbd rb_init (-1) c a s l) (g_event_queue k).

Definition keyboard_ctrl_presssed (k : kbd_state) : bool := ctrl_pressed (kbd_dev k).
Definition keyboard_alt_presssed (k : kbd_state) : bool := alt_pressed (kbd_dev k).
Definition keyboard_shift_presssed (k : kbd_state) : bool := shift_pressed (kbd_dev k).
Definition keyboard_is_caps_lock (k : kbd_state) : bool := caps_lock (kbd_dev k).

(** *** Specification *)
Definition mods : Type := bool * bool * bool * bool.
Definition mods_of (d : KeyboardDevice) : mods := (ctrl_pressed d, alt_pressed d, shift_pressed d, caps_lock d).

(** Pressed: a press with no later release. *)
Definition held_after (press release : list Z) (codes : list Z) : Prop :=
  exists l1 p l2, codes = l1 ++ p :: l2 /\ p ∈ press /\ Forall (fun c => c ∉ release) l2.

(** The keys that send an escape sequence. *)
Definition special_keys : gmap Z (list Z) :=
  {[ KEY_PAGE_UP := [27; 91; 53; 126]; KEY_PAGE_DOWN := [27; 91; 54; 126]; KEY_UP := [27; 91; 65];
     KEY_DOWN := [27; 91; 66]; KEY_RIGHT := [27; 91; 67]; KEY_LEFT := [27; 91; 68] ]}.

(** What one scancode types: characters with their modifier bytes. *)
Definition typed (d : KeyboardDevice) (scancode : Z) : list (Z * Z) :=
  if 0x80 <=? scancode then []
  else match special_keys !! scancode with
       | Some seq => (fun c => (c, 0)) <$> seq
       | None => if ascii_of d scancode =? 0 then [] else [(ascii_of d scancode, modifiers_of d)]
       end.

(** The stream a run of scancodes types. *)
Fixpoint typed_stream (d : KeyboardDevice) (codes : list Z) : list (Z * Z) :=
  match codes with
  | [] => []
  | c :: codes => let d := update_modifiers d c in typed d c ++ typed_stream d codes
  end.

Definition key_event : Z * Z -> Event := fun '(c, m) => mkEvent EVENT_KEY_PRESSED m (ev_key c).

Section Keyboard.
Implicit Types (d : KeyboardDevice) (k : kbd_state) (codes : list Z).

Lemma emits_spec (l : list (Z * Z)) k : ring_wf (k_buf (kbd_dev k)) -> ring_wf (g_event_queue k) ->
  let k' := fold_left (fun k x => emit (fst x) (snd x) k) l k in
  ring_wf (k_buf (kbd_dev k')) /\ ring_wf (g_event_queue k') /\
  ring_list (k_buf (kbd_dev k')) = fold_left queue_spec.push (fst <$> l) (ring_list (k_buf (kbd_dev k))) /\
  ring_list (g_event_queue k') = fold_left queue_spec.push (key_event <$> l) (ring_list (g_event_queue k)) /\
  mods_of (kbd_dev k') = mods_of (kbd_dev k).
Proof.
  revert k. induction l as [|[c m] l IH]; intros k H1 H2; [done|].
  cbn [fold_left fst snd fmap list_fmap]. destruct (IH (emit c m k)) as (I1 & I2 & I3 & I4 & I5).
  - by apply (ring_push_wf (k_buf (kbd_dev k))).
  - by apply (ring_push_wf (g_event_queue k)).
  - split; [done|]. split; [done|]. rewrite I3, I4, I5.
    split; [f_equal; by apply (ring_list_push (k_buf (kbd_dev k)))|].
    split; [f_equal; by apply (ring_list_push (g_event_queue k))|done].
Qed.

Lemma break_bit c : 0 <= c < 256 -> (Z.land c BREAK_CODE =? 0) = (c <? 0x80).
Proof.
  intros Hc. unfold BREAK_CODE. change 0x80 with (Z.shiftl 1 7). rewrite land_bit_eqb by lia.
  rewrite Z.testbit_odd, Z.shiftr_div_pow2 by lia. change (Z.shiftl 1 7) with 128.
  destruct (Z.ltb_spec c 128).
  - by rewrite Z.div_small by lia.
  - replace (c / 2 ^ 7) with 1; [done|]. Z.div_mod_to_equations. lia.
Qed.

Lemma send_ansi_emits seq k : send_ansi_sequence seq k =
  fold_left (fun k x => emit (fst x) (snd x) k) ((fun c => (c, 0)) <$> seq) k.
Proof. unfold send_ansi_sequence. revert k. induction seq as [|c seq IH]; intros k; [done|]. apply IH. Qed.

Lemma handler_emits k c : 0 <= c < 256 ->
  keyboard_handler k c =
    let d := update_modifiers (kbd_dev k) c in
    fold_left (fun k x => emit (fst x) (snd x) k) (typed d c) (KSt d (g_event_queue k)).
Proof.
  intros Hc. cbv zeta. unfold keyboard_handler, typed. cbn [kbd_dev g_event_queue].
  rewrite break_bit by done. rewrite Z.leb_antisym. destruct (c <? 0x80); [|done]. cbn [negb].
  unfold special_keys. set (d := update_modifiers (kbd_dev k) c). clearbody d.
  repeat (match goal with
    | |- context [if ?x =? ?y then send_ansi_sequence _ _ else _] =>
        destruct (Z.eqb_spec x y) as [->|];
        [rewrite send_ansi_emits, ?lookup_insert_eq; reflexivity|rewrite ?(lookup_insert_ne _ y) by congruence]
    end).
  rewrite lookup_singleton_ne by congruence. by destruct (ascii_of d c =? 0).
Qed.

Lemma update_mods_ext d d' c : mods_of d = mods_of d' -> mods_of (update_modifiers d c) = mods_of (update_modifiers d' c).
Proof.
  destruct d as [b w x a s l], d' as [b' w' x' a' s' l']. intros [= -> -> -> ->]. unfold update_modifiers.
  repeat case_match; reflexivity.
Qed.

Lemma typed_ext d d' c : mods_of d = mods_of d' -> typed d c = typed d' c.
Proof.
  destruct d as [b w x a s l], d' as [b' w' x' a' s' l']. intros [= -> -> -> ->]. reflexivity.
Qed.

Lemma typed_stream_ext d d' codes : mods_of d = mods_of d' -> typed_stream d codes = typed_stream d' codes.
Proof.
  revert d d'. induction codes as [|c codes IH]; intros d d' Hd; [done|]. simpl.
  pose proof (update_mods_ext d d' c Hd) as Hu. rewrite (typed_ext _ _ c Hu). by rewrite (IH _ _ Hu).
Qed.

Lemma run_spec codes k : Forall (fun c => 0 <= c < 256) codes ->
  ring_wf (k_buf (kbd_dev k)) -> ring_wf (g_event_queue k) ->
  let k' := fold_left keyboard_handler codes k in
  ring_wf (k_buf (kbd_dev k')) /\ ring_wf (g_event_queue k') /\
  ring_list (k_buf (kbd_dev k')) =
    fold_left queue_spec.push (fst <$> typed_stream (kbd_dev k) codes) (ring_list (k_buf (kbd_dev k))) /\
  ring_list (g_event_queue k') =
    fold_left queue_spec.push (key_event <$> typed_stream (kbd_dev k) codes) (ring_list (g_event_queue k)) /\
  mods_of (kbd_dev k') = mods_of (fold_left update_modifiers codes (kbd_dev k)).
Proof.
  revert k. induction codes as [|c codes IH]; intros k Hc H1 H2; [done|].
  apply Forall_cons in Hc as [Hc Hcs]. cbn [fold_left typed_stream]. rewrite handler_emits by done. cbv zeta.
  set (d := update_modifiers (kbd_dev k) c).
  assert (k_buf d = k_buf (kbd_dev k)) as Eb by (unfold d, update_modifiers; repeat case_match; reflexivity).
  destruct (emits_spec (typed d c) (KSt d (g_event_queue k))) as (I1 & I2 & I3 & I4 & I5);
    [by simpl; rewrite Eb|done|].
  destruct (IH _ Hcs I1 I2) as (J1 & J2 & J3 & J4 & J5). split; [done|]. split; [done|].
  rewrite J3, J4, J5, I3, I4, (typed_stream_ext _ _ codes I5), !fmap_app, !fold_left_app. cbn [kbd_dev g_event_queue].
  rewrite Eb. split; [done|]. split; [done|]. cbn [kbd_dev] in I5. clear -I5. revert I5.
  generalize (kbd_dev (fold_left (fun k x => emit (fst x) (snd x) k) (typed d c) (KSt d (g_event_queue k)))).
  generalize d. induction codes as [|c' codes IH']; intros d1 d2 Hd; [done|]. apply IH'. by apply update_mods_ext.
Qed.

(** *** Modifiers *)
Lemma held_after_snoc press release codes c : c ∉ press \/ c ∉ release ->
  held_after press release (codes ++ [c]) <-> (c ∈ press) \/ ((c ∉ release) /\ held_after press release codes).
Proof.
  intros Hd. split.
  - intros (l1 & p & l2 & E & Hp & Hl). destruct l2 as [|x l2 _] using rev_ind.
    + apply app_inj_tail in E as [-> ->]. by left.
    + rewrite app_comm_cons, app_assoc in E. apply app_inj_tail in E as [-> ->].
      apply Forall_app in Hl as [Hl [Hx _]%Forall_cons]. right. split; [done|]. by exists l1, p, l2.
  - intros [Hp|[Hc (l1 & p & l2 & -> & Hp & Hl)]].
    + exists codes, c, []. done.
    + exists l1, p, (l2 ++ [c]). rewrite <- app_assoc. split; [done|]. split; [done|].
      apply Forall_app. split; [done|]. by constructor.
Qed.

Lemma held_after_nil press release : ~ held_after press release [].
Proof. intros ([|] & ? & ? & ? & _); discriminate. Qed.

(** A flag that the codes of [press] set and those of [release] clear. *)
Lemma held_fold (get : KeyboardDevice -> bool) press release d codes :
  (forall c, c ∉ press \/ c ∉ release) -> get d = false ->
  (forall d c, get (update_modifiers d c) =
     if bool_decide (c ∈ press) then true else if bool_decide (c ∈ release) then false else get d) ->
  (get (fold_left update_modifiers codes d) = true) <-> held_after press release codes.
Proof.
  intros Hdis H0 Hstep. induction codes as [|c codes IH] using rev_ind.
  - simpl. rewrite H0. split; [done|]. by intros ?%held_after_nil.
  - rewrite fold_left_app, held_after_snoc by done. cbn [fold_left]. rewrite Hstep.
    repeat case_bool_decide; [split; [by left|done]|split; [done|tauto]|rewrite IH; tauto].
Qed.

Lemma handler_mods k c : 0 <= c < 256 ->
  mods_of (kbd_dev (keyboard_handler k c)) = mods_of (update_modifiers (kbd_dev k) c).
Proof.
  intros Hc. rewrite handler_emits by done. cbv zeta. generalize (typed (update_modifiers (kbd_dev k) c) c).
  intros l. change (update_modifiers (kbd_dev k) c) with (kbd_dev (KSt (update_modifiers (kbd_dev k) c) (g_event_queue k))) at 2.
  generalize (KSt (update_modifiers (kbd_dev k) c) (g_event_queue k)).
  induction l as [|x l IH]; intros k0; [done|]. cbn [fold_left]. by rewrite IH.
Qed.

Lemma handlers_mods codes k d : Forall (fun c => 0 <= c < 256) codes -> mods_of (kbd_dev k) = mods_of d ->
  mods_of (kbd_dev (fold_left keyboard_handler codes k)) = mods_of (fold_left update_modifiers codes d).
Proof.
  revert k d. induction codes as [|c codes IH]; intros k d Hc Hd; [done|].
  apply Forall_cons in Hc as [Hc Hcs]. cbn [fold_left]. apply IH; [done|]. rewrite handler_mods by done.
  by apply update_mods_ext.
Qed.

Definition count_code (c : Z) codes : nat := length (filter (fun x => x = c) codes).

Lemma caps_fold d codes : caps_lock (fold_left update_modifiers codes d) =
  xorb (caps_lock d) (Nat.odd (count_code KEY_CAPSLOCK_PRESSED codes)).
Proof.
  unfold count_code. revert d. induction codes as [|c codes IH]; intros d; [simpl; by rewrite xorb_false_r|].
  cbn [fold_left]. rewrite IH, filter_cons. destruct d as [b w x a s l]. unfold update_modifiers.
  destruct (decide (c = KEY_CAPSLOCK_PRESSED)) as [->|Hne].
  - cbn [length]. rewrite Nat.odd_succ, <- Nat.negb_odd. simpl. by destruct l, (Nat.odd _).
  - repeat case_match; simpl; try reflexivity. exfalso. apply Hne. by apply Z.eqb_eq.
Qed.

Ltac modifier_step := intros [b w x a s l] c; unfold update_modifiers;
  repeat case_bool_decide; repeat match goal with H : _ |- _ => rewrite !elem_of_cons, ?elem_of_nil in H end;
  repeat case_match; simpl; try reflexivity;
  repeat match goal with
    | H : (_ || _) = true |- _ => apply orb_true_iff in H
    | H : (_ || _) = false |- _ => apply orb_false_iff in H as [? ?]
    | H : (_ =? _) = true |- _ => apply Z.eqb_eq in H
    | H : (_ =? _) = false |- _ => apply Z.eqb_neq in H end;
  rewrite ?Z.eqb_eq in *; exfalso; unfold KEY_CTRL_PRESSED, KEY_CTRL_RESLEASED, KEY_ALT_PRESSED, KEY_ALT_RESLEASED,
    KEY_LSHIFT_PRESSED, KEY_LSHIFT_RELEASED, KEY_RSHIFT_PRESSED, KEY_RSHIFT_RELEASED, KEY_CAPSLOCK_PRESSED in *; lia.

Lemma ctrl_step d c : ctrl_pressed (update_modifiers d c) =
  if bool_decide (c ∈ [KEY_CTRL_PRESSED]) then true
  else if bool_decide (c ∈ [KEY_CTRL_RESLEASED]) then false else ctrl_pressed d.
Proof. revert d c. modifier_step. Qed.
Lemma alt_step d c : alt_pressed (update_modifiers d c) =
  if bool_decide (c ∈ [KEY_ALT_PRESSED]) then true
  else if bool_decide (c ∈ [KEY_ALT_RESLEASED]) then false else alt_pressed d.
Proof. revert d c. modifier_step. Qed.
Lemma shift_step d c : shift_pressed (update_modifiers d c) =
  if bool_decide (c ∈ [KEY_LSHIFT_PRESSED; KEY_RSHIFT_PRESSED]) then true
  else if bool_decide (c ∈ [KEY_LSHIFT_RELEASED; KEY_RSHIFT_RELEASED]) then false else shift_pressed d.
Proof. revert d c. modifier_step. Qed.

(** After any run of scancodes from a device with no modifier set, ctrl, alt and
    shift are held exactly when one of their press codes came with no release code
    after it (releasing either shift key ends both), and caps lock is on exactly
    when its key was pressed an odd number of times. *)
Theorem kbd_modifiers codes k : Forall (fun c => 0 <= c < 256) codes ->
  mods_of (kbd_dev k) = (false, false, false, false) ->
  let d := kbd_dev (fold_left keyboard_handler codes k) in
  (ctrl_pressed d = true <-> held_after [KEY_CTRL_PRESSED] [KEY_CTRL_RESLEASED] codes) /\
  (alt_pressed d = true <-> held_after [KEY_ALT_PRESSED] [KEY_ALT_RESLEASED] codes) /\
  (shift_pressed d = true <->
     held_after [KEY_LSHIFT_PRESSED; KEY_RSHIFT_PRESSED] [KEY_LSHIFT_RELEASED; KEY_RSHIFT_RELEASED] codes) /\
  caps_lock d = Nat.odd (count_code KEY_CAPSLOCK_PRESSED codes).
Proof.
  intros Hc H0 d. pose proof (handlers_mods codes k (kbd_dev k) Hc eq_refl) as Hm. fold d in Hm.
  injection H0 as Hx Ha Hs Hl. injection Hm as -> -> -> ->.
  assert (forall c (l1 l2 : list Z), Forall (fun x => x ∉ l2) l1 -> c ∉ l1 \/ c ∉ l2) as Hdis.
  { intros c l1 l2 Hf. destruct (decide (c ∈ l1)) as [Hin|]; [right|by left]. rewrite Forall_forall in Hf. by apply Hf. }
  split; [|split; [|split; [|by rewrite caps_fold, Hl]]].
  - apply (held_fold ctrl_pressed); [|done|apply ctrl_step]. intros c. apply Hdis. by apply (bool_decide_unpack _).
  - apply (held_fold alt_pressed); [|done|apply alt_step]. intros c. apply Hdis. by apply (bool_decide_unpack _).
  - apply (held_fold shift_pressed); [|done|apply shift_step]. intros c. apply Hdis. by apply (bool_decide_unpack _).
Qed.

(** Every run of scancodes puts the characters it types, in order, into the byte
    buffer and, as one key event each with its modifier byte, into the event queue
    (each keeps the newest 255): a break code types nothing, the arrow and page
    keys type their escape sequence character by character, every other key the
    character its table gives under the current modifiers. *)
Theorem kbd_stream codes k : Forall (fun c => 0 <= c < 256) codes ->
  ring_wf (k_buf (kbd_dev k)) -> ring_wf (g_event_queue k) ->
  let k' := fold_left keyboard_handler codes k in
  let out := typed_stream (kbd_dev k) codes in
  ring_wf (k_buf (kbd_dev k')) /\ ring_wf (g_event_queue k') /\
  ring_list (k_buf (kbd_dev k')) = fold_left queue_spec.push (fst <$> out) (ring_list (k_buf (kbd_dev k))) /\
  ring_list (g_event_queue k') = fold_left queue_spec.push (key_event <$> out) (ring_list (g_event_queue k)).
Proof. intros Hc H1 H2. destruct (run_spec codes k Hc H1 H2) as (? & ? & ? & ? & _). done. Qed.

(** The letter a letter key types is upper case exactly when one of shift and caps
    lock is on, and a key whose table entries are not letters ignores caps lock. *)
Lemma kbd_letter_case d scancode : 0 <= scancode < 128 ->
  let c := default 0 (kbd_tbl !! Z.to_nat scancode) in
  (97 <= c <= 122 -> ascii_of d scancode = if xorb (shift_pressed d) (caps_lock d) then c - 32 else c) /\
  (~ 97 <= c <= 122 -> ascii_of d scancode =
     if shift_pressed d then default 0 (kbd_tbl_shift !! Z.to_nat scancode) else c).
Proof.
  intros Hs. unfold ascii_of. destruct d as [b w x a s l]. cbn [shift_pressed caps_lock]. clear b w x a.
  set (P := fun i : Z => let c := default 0 (kbd_tbl !! Z.to_nat i) in
    let u := default 0 (kbd_tbl_shift !! Z.to_nat i) in
    let r := default 0 ((if s then kbd_tbl_shift else kbd_tbl) !! Z.to_nat i) in
    let v := if l && (((97 <=? r) && (r <=? 122)) || ((65 <=? r) && (r <=? 90))) then Z.lxor r 0x20 else r in
    if (97 <=? c) && (c <=? 122) then v =? (if xorb s l then c - 32 else c) else v =? (if s then u else c)).
  assert (forallb P (seqZ 0 128) = true) as HP by (destruct s, l; vm_compute; reflexivity).
  rewrite forallb_forall in HP. specialize (HP scancode). unfold P in HP.
  specialize (HP ltac:(apply list_elem_of_In, elem_of_seqZ; lia)). cbv zeta. split; intros Hr.
  - rewrite (proj2 (Z.leb_le 97 _)), (proj2 (Z.leb_le _ 122)) in HP by lia. by apply Z.eqb_eq.
  - destruct (Z.leb_spec 97 (default 0 (kbd_tbl !! Z.to_nat scancode)));
      [rewrite (proj2 (Z.leb_gt _ 122)) in HP by lia|]; by apply Z.eqb_eq.
Qed.
End Keyboard.

Definition demo_kbd : kbd_state :=
  keyboard_init (KSt (Kbd rb_init 0 false false false false) (Ring (replicate 256 (mkEvent EMPTY 0 (ev_key 0))) 0 0)).

(** Shift pressed, the key [a], shift released, caps lock, the key [a], arrow up. *)
Definition demo_codes : list Z := [0x2A; 0x1E; 0xAA; 0x3A; 0x1E; 0x48].

Lemma kbd_modifiers_witness : let d := kbd_dev (fold_left keyboard_handler demo_codes demo_kbd) in
  caps_lock d = true /\ (shift_pressed d = true <->
    held_after [KEY_LSHIFT_PRESSED; KEY_RSHIFT_PRESSED] [KEY_LSHIFT_RELEASED; KEY_RSHIFT_RELEASED] demo_codes).
Proof.
  destruct (kbd_modifiers demo_codes demo_kbd) as (_ & _ & Hs & Hc).
  - repeat (constructor; [simpl; lia|]). constructor.
  - reflexivity.
  - split; [exact Hc|exact Hs].
Defined.

Lemma kbd_stream_witness :
  ring_list (k_buf (kbd_dev (fold_left keyboard_handler demo_codes demo_kbd))) = [65; 65; 27; 91; 65].
Proof.
  destruct (kbd_stream demo_codes demo_kbd) as (_ & _ & H & _).
  - repeat (constructor; [simpl; lia|]). constructor.
  - apply rb_init_wf.
  - split; [reflexivity|]. split; simpl; lia.
  - exact H.
Defined.

(** ** Mouse *)
Definition CURSOR_W : Z := 4.
Definition CURSOR_H : Z := 4.

Record Mouse := mkMouse { cycle : Z; mbyte : list Z; m_x : Z; m_y : Z }.

Definition mouse_start : Mouse := mkMouse 0 [0; 0; 0] 100 100.

(** [dx |= 0xFF00] on an [int16_t] when the sign bit is set. *)
Definition packet_delta (byte : Z) (sign : bool) : Z :=
  let d := byte in if sign then s16 (Z.lor d 0xFF00) else d.

(** [w] and [h] are [video_get_width] and [video_get_height]; [None] is a write
    past [byte[3]]. *)
Definition mouse_handler (w h : Z) (mouse : Mouse) (port : Z * Z) : option Mouse :=
  let '(stat, data) := port in
  if Z.land stat 0x20 =? 0 then Some mouse
  else if (cycle mouse =? 0) && (Z.land data 0x08 =? 0) then Some mouse
  else if negb (cycle mouse <? 3) then None
  else
    let byte := <[Z.to_nat (cycle mouse) := data]> (mbyte mouse) in
    let mouse := mkMouse (u8 (cycle mouse + 1)) byte (m_x mouse) (m_y mouse) in
    if 3 <=? cycle mouse then
      let mouse := mkMouse 0 byte (m_x mouse) (m_y mouse) in
      let b i := nth i byte 0 in
      if Z.land (b 0%nat) 0x08 =? 0 then Some mouse
      else
        let dx := packet_delta (b 1%nat) (negb (Z.land (b 0%nat) 0x10 =? 0)) in
        let dy := packet_delta (b 2%nat) (negb (Z.land (b 0%nat) 0x20 =? 0)) in
        let x := s64 (m_x mouse + dx) in
        let y := s64 (m_y mouse - dy) in
        let x := if x <? 0 then 0 else x in
        let y := if y <? 0 then 0 else y in
        let x := if s64 (w - CURSOR_W) <=? x then s64 (w - CURSOR_W) else x in
        let y := if s64 (h - CURSOR_H) <=? y then s64 (h - CURSOR_H) else y in
        Some (mkMouse 0 byte x y)
    else Some mouse.

Definition mouse_get_x (mouse : Mouse) : Z := m_x mouse.
Definition mouse_get_y (mouse : Mouse) : Z := m_y mouse.
Definition mouse_get_stat (mouse : Mouse) : Z := nth 0 (mbyte mouse) 0.

Fixpoint mouse_run (w h : Z) (mouse : Mouse) (ports : list (Z * Z)) : option Mouse :=
  match ports with
  | [] => Some mouse
  | p :: ports => mouse ← mouse_handler w h mouse p; mouse_run w h mouse ports
  end.

(** *** The cursor *)

(** The 9-bit two's complement movement of a packet. *)
Definition delta9 (byte sign : Z) : Z := if Z.testbit sign 0 then byte - 256 else byte.

Definition mouse_wf (w h : Z) (mouse : Mouse) : Prop :=
  0 <= cycle mouse < 3 /\ length (mbyte mouse) = 3%nat /\ Forall (fun b => 0 <= b < 256) (mbyte mouse) /\
  0 <= m_x mouse <= w - CURSOR_W /\ 0 <= m_y mouse <= h - CURSOR_H.

Definition screen_ok (w h : Z) : Prop := 104 <= w < 2 ^ 31 /\ 104 <= h < 2 ^ 31.

Section Cursor.
Context (w h : Z) (Hscr : screen_ok w h).
Implicit Types (mouse : Mouse) (b : Z).

Lemma packet_delta_spec b (sign : bool) : 0 <= b < 256 -> packet_delta b sign = if sign then b - 256 else b.
Proof.
  intros Hb. unfold packet_delta. destruct sign; [|done].
  assert (Z.lor b 0xFF00 = b + 0xFF00) as ->.
    { change 0xFF00 with (255 * 2 ^ 8). rewrite Z.lor_comm, (lor_disjoint _ b 8); [lia|lia|done|reflexivity]. }
  unfold s16. Z.div_mod_to_equations. lia.
Qed.

(** One coordinate after a movement. *)
Lemma clamp_spec v size : 104 <= size < 2 ^ 31 -> -1000 <= v < 2 ^ 32 ->
  let x := if s64 v <? 0 then 0 else s64 v in
  (if s64 (size - 4) <=? x then s64 (size - 4) else x) = Z.max 0 (Z.min v (size - 4)).
Proof.
  intros Hs Hv. rewrite !s64_small by lia. cbv zeta.
  destruct (Z.ltb_spec v 0); case_match; lia.
Qed.

Ltac mouse_done := eexists; split; [done|]; cbn [cycle mbyte m_x m_y]; split_and!; (done || lia).

(** One interrupt: no overrun, the invariant, and what a completed packet does. *)
Lemma mouse_step mouse stat data : mouse_wf w h mouse -> 0 <= data < 256 ->
  exists mouse', mouse_handler w h mouse (stat, data) = Some mouse' /\ mouse_wf w h mouse'.
Proof.
  destruct mouse as [cy by_ x y]. intros (Hc & Hl & Hb & Hx & Hy) Hd. cbn [cycle mbyte m_x m_y] in *.
  destruct Hscr as [Hw Hh]. unfold CURSOR_W, CURSOR_H in *.
  unfold mouse_handler. cbn [cycle mbyte m_x m_y]. unfold mouse_wf, CURSOR_W, CURSOR_H.
  destruct (Z.land stat 0x20 =? 0); [mouse_done|].
  destruct (_ && _); [mouse_done|].
  rewrite (proj2 (Z.ltb_lt cy 3)) by lia. cbn [negb]. rewrite u8_small by lia.
  set (byte := <[Z.to_nat cy := data]> by_).
  assert (length byte = 3%nat) as Hl' by (unfold byte; by rewrite length_insert).
  assert (Forall (fun b => 0 <= b < 256) byte) as Hb' by (unfold byte; by apply Forall_insert).
  destruct (Z.leb_spec 3 (cy + 1)); [|mouse_done].
  destruct (_ =? 0); [mouse_done|].
  destruct byte as [|b0 [|b1 [|b2 [|]]]]; try done. cbn [nth].
  apply Forall_cons in Hb' as [? [? [? _]%Forall_cons]%Forall_cons].
  rewrite !packet_delta_spec by done. eexists. split; [done|]. cbn [cycle mbyte m_x m_y].
  rewrite !clamp_spec by (first [lia | repeat case_match; lia]).
  split; [lia|]. split; [done|]. split; [repeat (apply Forall_cons; split; [done|]); constructor|]. lia.
Qed.

(** Whatever bytes the controller delivers, the mouse driver never writes past its
    three-byte packet buffer and the cursor stays on the screen. *)
Theorem mouse_safe ports : Forall (fun p => 0 <= snd p < 256) ports ->
  exists mouse', mouse_run w h mouse_start ports = Some mouse' /\ mouse_wf w h mouse'.
Proof.
  assert (mouse_wf w h mouse_start) as H0.
  { destruct Hscr. unfold mouse_wf, mouse_start, CURSOR_W, CURSOR_H. cbn [cycle mbyte m_x m_y].
    split_and!; try (done || lia). repeat (apply Forall_cons; split; [lia|]). constructor. }
  revert H0. generalize mouse_start. induction ports as [|[st da] ports IH]; intros m0 H0 Hp; [eauto|].
  apply Forall_cons in Hp as [Hd Hp]. destruct (mouse_step m0 st da H0 Hd) as (m1 & Hm1 & H1).
  cbn [mouse_run]. rewrite Hm1. by apply IH.
Qed.

(** A packet whose first byte has its alignment bit moves the cursor by the packet's
    two 9-bit signed numbers, y upwards, clamped to the screen. *)
Theorem mouse_packet mouse st0 st1 st2 b0 b1 b2 : mouse_wf w h mouse -> cycle mouse = 0 ->
  Forall (fun st => Z.testbit st 5 = true) [st0; st1; st2] -> Forall (fun b => 0 <= b < 256) [b0; b1; b2] ->
  Z.testbit b0 3 = true ->
  exists mouse', mouse_run w h mouse [(st0, b0); (st1, b1); (st2, b2)] = Some mouse' /\ cycle mouse' = 0 /\
    mouse_get_stat mouse' = b0 /\
    mouse_get_x mouse' = Z.max 0 (Z.min (mouse_get_x mouse + delta9 b1 (Z.shiftr b0 4)) (w - CURSOR_W)) /\
    mouse_get_y mouse' = Z.max 0 (Z.min (mouse_get_y mouse - delta9 b2 (Z.shiftr b0 5)) (h - CURSOR_H)).
Proof.
  destruct mouse as [cy by_ x y]. intros (_ & Hl & Hb & Hx & Hy) Hc Hst Hbs H3. cbn [cycle mbyte m_x m_y] in *. subst cy.
  apply Forall_cons in Hst as [S0 [S1 [S2 _]%Forall_cons]%Forall_cons].
  apply Forall_cons in Hbs as [B0 [B1 [B2 _]%Forall_cons]%Forall_cons].
  destruct by_ as [|c0 [|c1 [|c2 [|]]]]; try done. destruct Hscr as [Hw Hh]. unfold CURSOR_W, CURSOR_H in *.
  assert (forall st, Z.testbit st 5 = true -> (Z.land st 0x20 =? 0) = false) as Hs5.
  { intros st Hst. change 0x20 with (Z.shiftl 1 5). rewrite land_bit_eqb by lia. by rewrite Hst. }
  assert ((Z.land b0 0x08 =? 0) = false) as Hb3.
  { change 0x08 with (Z.shiftl 1 3). rewrite land_bit_eqb by lia. by rewrite H3. }
  assert (forall k, 0 <= k -> negb (Z.land b0 (Z.shiftl 1 k) =? 0) = Z.testbit (Z.shiftr b0 k) 0) as Hk.
  { intros k Hk. rewrite land_bit_eqb, negb_involutive by done. rewrite Z.shiftr_spec by lia. done. }
  assert (mouse_handler w h (mkMouse 0 [c0; c1; c2] x y) (st0, b0) = Some (mkMouse 1 [b0; c1; c2] x y)) as E0.
  { unfold mouse_handler. rewrite (Hs5 _ S0), Hb3. reflexivity. }
  assert (mouse_handler w h (mkMouse 1 [b0; c1; c2] x y) (st1, b1) = Some (mkMouse 2 [b0; b1; c2] x y)) as E1.
  { unfold mouse_handler. rewrite (Hs5 _ S1). reflexivity. }
  cbn [mouse_run]. rewrite E0. cbn [mbind option_bind]. rewrite E1. cbn [mbind option_bind].
  unfold mouse_handler. rewrite (Hs5 _ S2). cbn [cycle mbyte m_x m_y Z.eqb andb].
  change (2 <? 3) with true. change (3 <=? u8 (2 + 1)) with true. cbn [negb].
  change (<[Z.to_nat 2:=b2]> [b0; b1; c2]) with [b0; b1; b2]. cbn [nth]. rewrite Hb3.
  change 0x10 with (Z.shiftl 1 4). change 0x20 with (Z.shiftl 1 5). rewrite !Hk by lia.
  rewrite !packet_delta_spec by done. unfold CURSOR_W, CURSOR_H.
  eexists. split; [reflexivity|]. split; [reflexivity|]. split; [reflexivity|].
  unfold mouse_get_x, mouse_get_y, delta9. cbn [m_x m_y].
  split; apply clamp_spec; (first [lia | case_match; lia]).
Qed.
End Cursor.

Lemma mouse_safe_witness : exists mouse',
  mouse_run 800 600 mouse_start [(0x20, 0); (0x20, 0x18); (0, 7); (0x20, 1); (0x20, 2); (0x20, 9)] = Some mouse' /\
  mouse_wf 800 600 mouse'.
Proof.
  apply (mouse_safe 800 600).
  - unfold screen_ok. lia.
  - repeat (apply Forall_cons; split; [simpl; lia|]). constructor.
Defined.

Lemma mouse_packet_witness : exists mouse',
  mouse_run 800 600 mouse_start [(0x20, 0x18); (0x20, 0xFE); (0x20, 5)] = Some mouse' /\
  mouse_get_x mouse' = 98 /\ mouse_get_y mouse' = 95.
Proof.
  destruct (mouse_packet 800 600 ltac:(unfold screen_ok; lia) mouse_start 0x20 0x20 0x20 0x18 0xFE 5)
    as (m & H1 & _ & _ & H2 & H3).
  - unfold mouse_wf, mouse_start, CURSOR_W, CURSOR_H. cbn [cycle mbyte m_x m_y].
    split_and!; try (done || lia). repeat (apply Forall_cons; split; [lia|]). constructor.
  - reflexivity.
  - repeat (apply Forall_cons; split; [reflexivity|]). constructor.
  - repeat (apply Forall_cons; split; [lia|]). constructor.
  - reflexivity.
  - exists m. split; [exact H1|]. split; [exact H2|exact H3].
Defined.
