(* ===== verification/Ansi.v ===== *)
(** Terminal output: the ANSI escape parser [src/src/libc/ansi.c] and the user
    library's decimal printing ([move_cursor] and [print_dec] of
    [src/src/libc/libc.c]).

    The parser is a state machine on bytes.  What it does to the screen goes
    through a table of callbacks; a call is an [ansi_call] in the output list,
    made when the driver has that callback.  [int] arithmetic wraps at 32 bits
    where C leaves overflow undefined. *)
From S2P Require Import Prelude.

Definition ANSI_BUF_SIZE : nat := 32.
Definition White : Z := 0xFFFFFF.

Inductive ansi_state_t := ANSI_NORMAL | ANSI_ESC | ANSI_CSI.
#[export] Instance ansi_state_eq_dec : EqDecision ansi_state_t.
Proof. solve_decision. Defined.

Record AnsiContext := mkAnsi { a_color : Z; a_state : ansi_state_t; a_buf : list Z; a_idx : Z }.

(** Which callbacks of [AnsiDriver] are set. *)
Record AnsiDriver := mkDriver {
  has_put_char : bool; has_set_color : bool; has_set_cursor : bool;
  has_clear_screen : bool; has_set_mode : bool
}.

Inductive ansi_call :=
  | PutChar (c : Z)
  | SetColor (color : Z)
  | SetCursor (x y : Z)
  | ClearScreen (mode : Z)
  | SetMode (mode : Z) (enabled : bool).

Definition call_if (has : bool) (c : ansi_call) : list ansi_call := if has then [c] else [].

(** ** Numbers *)
Definition is_digit (c : Z) : bool := (48 <=? c) && (c <=? 57).

(** The second loop of [ansi_atoi]: digits up to the first other byte. *)
Fixpoint atoi_digits (l : list Z) (res : Z) : Z :=
  match l with
  | c :: l => if is_digit c then atoi_digits l (s32 (res * 10 + (c - 48))) else res
  | [] => res
  end.

(** Skips to the first digit; a string ends at NUL. *)
Fixpoint ansi_atoi (l : list Z) : Z :=
  match l with
  | c :: l' => if (c =? 0) || is_digit c then atoi_digits l 0 else ansi_atoi l'
  | [] => 0
  end.

(** ** Parameters *)
Record pstate_ansi := PA { pa_ptr : nat; pa_start : nat; pa_buf : list Z; pa_cnt : nat; pa_params : list Z }.

Definition push_param (s : pstate_ansi) : pstate_ansi :=
  if (pa_cnt s <? 4)%nat
  then PA (pa_ptr s) (pa_start s) (pa_buf s) (S (pa_cnt s))
         (<[pa_cnt s := ansi_atoi (drop (pa_start s) (pa_buf s))]> (pa_params s))
  else s.

Definition parse_step (s : pstate_ansi) : pstate_ansi + pstate_ansi :=
  let c := default 0 (pa_buf s !! pa_ptr s) in
  if c =? 0 then inr s
  else if c =? 59 then
    let s := PA (pa_ptr s) (pa_start s) (<[pa_ptr s := 0]> (pa_buf s)) (pa_cnt s) (pa_params s) in
    let s := push_param s in
    inl (PA (S (pa_ptr s)) (S (pa_ptr s)) (pa_buf s) (pa_cnt s) (pa_params s))
  else inl (PA (S (pa_ptr s)) (pa_start s) (pa_buf s) (pa_cnt s) (pa_params s)).

(** The buffer (separators overwritten by NUL), the four parameters and their
    number.  The buffer holds 32 bytes, so 33 iterations reach its end. *)
Definition parse_ansi_params (buf : list Z) : list Z * list Z * nat :=
  match loop 33 parse_step (PA 0 0 buf 0 [0; 0; 0; 0]) with
  | Some s => let s := push_param s in (pa_buf s, pa_params s, pa_cnt s)
  | None => (buf, [0; 0; 0; 0], 0%nat)
  end.

(** [g_ansi_palette], indexed by [code - 30] *)
Definition g_ansi_palette : list Z :=
  [0x000000; 0xAA0000; 0x00AA00; 0xFFFF00; 0x0000AA; 0xAA00AA; 0x00AAAA; White].

(** ** The state machine *)
Definition set_colors (drv : AnsiDriver) (codes : list Z) (color : Z) : Z * list ansi_call :=
  foldl (fun '(color, out) code =>
    if (30 <=? code) && (code <=? 37) then
      let color := default 0 (g_ansi_palette !! Z.to_nat (code - 30)) in
      (color, out ++ call_if (has_set_color drv) (SetColor color))
    else if code =? 0 then (White, out ++ call_if (has_set_color drv) (SetColor White))
    else (color, out)) (color, []) codes.

Definition ansi_exec (drv : AnsiDriver) (color : Z) (params : list Z) (count : nat) (c : Z)
    : Z * list ansi_call :=
  let p0 := default 0 (params !! 0%nat) in
  let p1 := default 0 (params !! 1%nat) in
  if (c =? 72) || (c =? 102) then
    let r := if 0 <? p0 then p0 else 1 in
    let cl := if 0 <? p1 then p1 else 1 in
    (color, call_if (has_set_cursor drv) (SetCursor (cl - 1) (r - 1)))
  else if c =? 74 then
    (color, if p0 =? 2 then call_if (has_clear_screen drv) (ClearScreen 2) else [])
  else if c =? 109 then set_colors drv (take count params) color
  else if c =? 104 then
    (color, if has_set_mode drv && negb (p0 =? 0) then [SetMode p0 true] else [])
  else if c =? 108 then
    (color, if has_set_mode drv && negb (p0 =? 0) then [SetMode p0 false] else [])
  else (color, []).

Definition ansi_write_char (ctx : AnsiContext) (c : Z) (drv : AnsiDriver)
    : AnsiContext * list ansi_call :=
  match a_state ctx with
  | ANSI_NORMAL =>
      if c =? 27 then (mkAnsi (a_color ctx) ANSI_ESC (a_buf ctx) (a_idx ctx), [])
      else (ctx, call_if (has_put_char drv) (PutChar c))
  | ANSI_ESC =>
      if c =? 91 then (mkAnsi (a_color ctx) ANSI_CSI (replicate ANSI_BUF_SIZE 0) 0, [])
      else (mkAnsi (a_color ctx) ANSI_NORMAL (a_buf ctx) (a_idx ctx), [])
  | ANSI_CSI =>
      if is_digit c || (c =? 59) || (c =? 63) then
        if a_idx ctx <? Z.of_nat ANSI_BUF_SIZE - 1
        then (mkAnsi (a_color ctx) ANSI_CSI (<[Z.to_nat (a_idx ctx) := c]> (a_buf ctx)) (a_idx ctx + 1), [])
        else (ctx, [])
      else
        let '(buf, params, count) := parse_ansi_params (a_buf ctx) in
        let '(color, out) := ansi_exec drv (a_color ctx) params count c in
        (mkAnsi color ANSI_NORMAL buf (a_idx ctx), out)
  end.

Fixpoint ansi_write (ctx : AnsiContext) (s : list Z) (drv : AnsiDriver) : AnsiContext * list ansi_call :=
  match s with
  | [] => (ctx, [])
  | c :: s =>
      let '(ctx, o1) := ansi_write_char ctx c drv in
      let '(ctx, o2) := ansi_write ctx s drv in (ctx, o1 ++ o2)
  end.

(** ** Printing numbers *)

(** [while (r > 0) { tmp[j++] = r % 10 + '0'; r /= 10; }]: 10 digits are enough
    for an [int]. *)
Fixpoint tmp_digits (fuel : nat) (r : Z) : list Z :=
  match fuel with
  | O => []
  | S n => if 0 <? r then (Z.rem r 10 + 48) :: tmp_digits n (Z.quot r 10) else []
  end.

(** The digits in printing order. *)
Definition decimal (r : Z) : list Z := if r =? 0 then [48] else rev (tmp_digits 10 r).

(** The bytes [move_cursor] prints. *)
Definition move_cursor (row col : Z) : list Z :=
  [27; 91] ++ decimal row ++ [59] ++ decimal col ++ [72].

(** The bytes [print_dec] prints. *)
Definition print_dec (num : Z) : list Z :=
  if num =? 0 then [48]
  else
    let is_neg := num <? 0 in
    let num := if is_neg then s32 (- num) else num in
    (if is_neg then [45] else []) ++ rev (tmp_digits 10 num).

(** ** Reference: split at the separators, convert each part *)
Fixpoint segments (cur l : list Z) : list (list Z) :=
  match l with
  | [] => [cur]
  | c :: l => if c =? 59 then cur :: segments [] l else segments (cur ++ [c]) l
  end.

(** At most four values are kept. *)
Fixpoint put_params (vs : list Z) (cnt : nat) (params : list Z) : nat * list Z :=
  match vs with
  | [] => (cnt, params)
  | v :: vs => if (cnt <? 4)%nat then put_params vs (S cnt) (<[cnt := v]> params) else put_params vs cnt params
  end.

Section Parse.
Implicit Types (l cur tail : list Z).

Lemma atoi_digits_nul l x res : Forall (fun c => c <> 0) l ->
  atoi_digits (l ++ 0 :: x) res = atoi_digits l res.
Proof.
  revert res. induction l as [|c l IH]; intros res Hl; [done|]. simpl.
  apply Forall_cons in Hl as [_ Hl]. destruct (is_digit c); [by apply IH|done].
Qed.

Lemma ansi_atoi_nul l x : Forall (fun c => c <> 0) l -> ansi_atoi (l ++ 0 :: x) = ansi_atoi l.
Proof.
  induction l as [|c l IH]; intros Hl; [done|]. simpl. pose proof Hl as [Hc Hl']%Forall_cons.
  rewrite (proj2 (Z.eqb_neq c 0)) by done. simpl. destruct (is_digit c); [|by apply IH].
  by apply atoi_digits_nul.
Qed.

Lemma put_params_full vs cnt params : (4 <= cnt)%nat -> put_params vs cnt params = (cnt, params).
Proof.
  intros H. induction vs as [|v vs IH]; [done|]. simpl.
  by rewrite (proj2 (Nat.ltb_ge cnt 4)) by done.
Qed.

Lemma put_params_push v vs cnt params :
  put_params (v :: vs) cnt params =
  put_params vs (if (cnt <? 4)%nat then S cnt else cnt) (if (cnt <? 4)%nat then <[cnt := v]> params else params).
Proof. simpl. by destruct (cnt <? 4)%nat. Qed.

(** The loop computes the reference, whatever was processed before. *)
Lemma parse_loop rest dn start cur cnt params tail fuel :
  Forall (fun c => c <> 0) rest -> Forall (fun c => c <> 0) cur ->
  drop start dn = cur -> (start <= length dn)%nat -> (length rest < fuel)%nat ->
  exists s, loop fuel parse_step (PA (length dn) start (dn ++ rest ++ 0 :: tail) cnt params) = Some s /\
    (pa_cnt (push_param s), pa_params (push_param s)) =
      put_params (ansi_atoi <$> segments cur rest) cnt params.
Proof.
  revert dn start cur cnt params fuel. induction rest as [|c rest IH];
    intros dn start cur cnt params fuel Hr Hcur Hd Hst Hfuel; (destruct fuel as [|fuel]; [simpl in Hfuel; lia|]).
  - eexists. split.
    + simpl. unfold parse_step. simpl. rewrite lookup_app_r, Nat.sub_diag by lia. done.
    + simpl. unfold push_param. simpl. rewrite drop_app_le, Hd, ansi_atoi_nul by done.
      by destruct (cnt <? 4)%nat.
  - apply Forall_cons in Hr as [Hc Hr]. cbn [loop]. unfold parse_step at 1. cbn [pa_buf pa_ptr].
    rewrite lookup_app_r, Nat.sub_diag by lia. simpl default. rewrite (proj2 (Z.eqb_neq c 0)) by done.
    simpl segments. destruct (Z.eqb_spec c 59) as [->|Hne].
    + cbn [pa_start pa_cnt pa_params]. rewrite insert_app_r_alt, Nat.sub_diag by lia. simpl (<[0%nat := 0]> _).
      rewrite fmap_cons, put_params_push.
      assert (forall s, pa_ptr (push_param s) = pa_ptr s /\ pa_buf (push_param s) = pa_buf s) as Hp
        by (intros s; unfold push_param; by destruct (_ <? _)%nat).
      rewrite !(proj1 (Hp _)), (proj2 (Hp _)). cbn [pa_ptr pa_buf]. unfold push_param. cbn [pa_cnt pa_start pa_buf].
      rewrite drop_app_le, Hd, ansi_atoi_nul by done.
      destruct (IH (dn ++ [0]) (S (length dn)) []
        (if (cnt <? 4)%nat then S cnt else cnt)
        (if (cnt <? 4)%nat then <[cnt := ansi_atoi cur]> params else params) fuel) as (s & Hs & Hv);
        try done; [by rewrite drop_ge by (rewrite length_app; simpl; lia)|rewrite length_app; simpl; lia|
                   simpl in Hfuel; lia|].
      exists s. split; [|done]. rewrite <- Hs. f_equal.
      rewrite length_app, Nat.add_1_r, <- app_assoc. by destruct (cnt <? 4)%nat.
    + destruct (IH (dn ++ [c]) start (cur ++ [c]) cnt params fuel) as (s & Hs & Hv); try done.
      * apply Forall_app. split; [done|by constructor].
      * by rewrite drop_app_le, Hd by done.
      * rewrite length_app. simpl. lia.
      * simpl in Hfuel. lia.
      * exists s. split; [|done]. rewrite <- Hs. rewrite length_app, Nat.add_1_r, <- app_assoc. done.
Qed.

Lemma parse_ansi_params_spec l tail : Forall (fun c => c <> 0) l -> (length l < 33)%nat ->
  let '(_, params, cnt) := parse_ansi_params (l ++ 0 :: tail) in
  (cnt, params) = put_params (ansi_atoi <$> segments [] l) 0 [0; 0; 0; 0].
Proof.
  intros Hl Hn. unfold parse_ansi_params.
  destruct (parse_loop l [] 0 [] 0 [0; 0; 0; 0] tail 33) as (s & Hs & Hv); try done.
  simpl app in Hs. simpl length in Hs. by rewrite Hs.
Qed.
End Parse.

Section Decimal.
Implicit Types (l : list Z) (r res : Z).

Lemma atoi_digits_app l l' res : Forall (fun c => is_digit c = true) l ->
  atoi_digits (l ++ l') res = atoi_digits l' (atoi_digits l res).
Proof.
  revert res. induction l as [|c l IH]; intros res Hl; [done|]. simpl.
  apply Forall_cons in Hl as [-> Hl]. by apply IH.
Qed.

Lemma digit_rem r : 0 <= r -> is_digit (Z.rem r 10 + 48) = true /\ 0 <= Z.rem r 10 < 10 /\
  r = 10 * Z.quot r 10 + Z.rem r 10 /\ 0 <= Z.quot r 10.
Proof.
  intros Hr. pose proof (Z.quot_rem' r 10). pose proof (Z.rem_bound_pos r 10 Hr ltac:(lia)).
  pose proof (Z.quot_pos r 10 Hr ltac:(lia)). unfold is_digit. rewrite andb_true_iff, !Z.leb_le. lia.
Qed.

Lemma tmp_digits_all n r : 0 <= r -> Forall (fun c => is_digit c = true) (tmp_digits n r).
Proof.
  revert r. induction n as [|n IH]; intros r Hr; simpl; [constructor|].
  destruct (0 <? r); [|constructor]. destruct (digit_rem r Hr) as (? & _ & _ & ?). constructor; auto.
Qed.

(** Printed digits read back as the number. *)
Lemma tmp_digits_value n r : 0 <= r < 10 ^ Z.of_nat n -> r < 2 ^ 31 ->
  atoi_digits (rev (tmp_digits n r)) 0 = r.
Proof.
  revert r. induction n as [|n IH]; intros r Hr Hm; [simpl in *; lia|]. simpl.
  destruct (Z.ltb_spec 0 r) as [Hp|]; [|simpl; lia].
  destruct (digit_rem r ltac:(lia)) as (Hd & Hb & He & Hq). simpl.
  rewrite atoi_digits_app by (apply Forall_rev, tmp_digits_all; lia). rewrite IH.
  - simpl. rewrite Hd. rewrite s32_small; lia.
  - rewrite Nat2Z.inj_succ, Z.pow_succ_r in Hr by lia. lia.
  - lia.
Qed.

Lemma tmp_digits_length n r k : 0 <= r < 10 ^ Z.of_nat k -> (length (tmp_digits n r) <= k)%nat.
Proof.
  revert r k. induction n as [|n IH]; intros r k Hr; simpl; [lia|].
  destruct (Z.ltb_spec 0 r) as [Hp|]; [|simpl; lia]. destruct k as [|k]; [simpl in Hr; lia|].
  destruct (digit_rem r ltac:(lia)) as (Hd & Hb & He & Hq). simpl.
  assert (length (tmp_digits n (Z.quot r 10)) <= k)%nat; [|lia]. apply IH.
  rewrite Nat2Z.inj_succ, Z.pow_succ_r in Hr by lia. lia.
Qed.

Lemma tmp_digits_nonempty n r : 0 < r -> (0 < n)%nat -> tmp_digits n r <> [].
Proof. intros Hr Hn. destruct n; [lia|]. simpl. by rewrite (proj2 (Z.ltb_lt 0 r)). Qed.

Lemma ansi_atoi_digits l : l <> [] -> Forall (fun c => is_digit c = true) l ->
  ansi_atoi l = atoi_digits l 0.
Proof.
  destruct l as [|c l]; [done|]. intros _ [Hc _]%Forall_cons. simpl. rewrite Hc. by rewrite orb_true_r.
Qed.

Lemma decimal_spec r k : 0 <= r < 10 ^ Z.of_nat k -> (0 < k)%nat -> r < 2 ^ 31 ->
  Forall (fun c => is_digit c = true) (decimal r) /\ ansi_atoi (decimal r) = r /\
  (0 < length (decimal r) <= k)%nat.
Proof.
  intros Hr Hk Hm. unfold decimal. destruct (Z.eqb_spec r 0) as [->|Hne].
  { split; [by repeat constructor|]. split; [done|simpl; lia]. }
  assert (Forall (fun c => is_digit c = true) (rev (tmp_digits 10 r))) as Hd
    by (apply Forall_rev, tmp_digits_all; lia).
  pose proof (tmp_digits_nonempty 10 r ltac:(lia) ltac:(lia)) as Hn.
  pose proof (tmp_digits_length 10 r k Hr).
  assert (length (tmp_digits 10 r) <> 0)%nat by (by rewrite length_zero_iff_nil).
  split; [done|]. split; [|rewrite length_rev; lia].
  rewrite ansi_atoi_digits; [|intros E; apply Hn; apply (f_equal (@rev Z)) in E; by rewrite rev_involutive in E|done].
  apply tmp_digits_value; [|done]. change (10 ^ Z.of_nat 10) with 10000000000. lia.
Qed.
End Decimal.

(** ** Sequences of characters *)
Section Writing.
Implicit Types (ctx : AnsiContext) (s l : list Z) (drv : AnsiDriver).

Definition csi_char (c : Z) : bool := is_digit c || (c =? 59) || (c =? 63).

(** The parameter characters collected so far, then NULs. *)
Definition csi_ctx (color : Z) l : AnsiContext :=
  mkAnsi color ANSI_CSI (l ++ replicate (ANSI_BUF_SIZE - length l) 0) (Z.of_nat (length l)).

Lemma csi_feed color l s drv : Forall (fun c => csi_char c = true) s ->
  (length l + length s < ANSI_BUF_SIZE)%nat ->
  ansi_write (csi_ctx color l) s drv = (csi_ctx color (l ++ s), []).
Proof.
  revert l. induction s as [|c s IH]; intros l Hs Hn; [by rewrite app_nil_r|].
  apply Forall_cons in Hs as [Hc Hs]. simpl in Hn. cbn [ansi_write].
  assert (ansi_write_char (csi_ctx color l) c drv = (csi_ctx color (l ++ [c]), [])) as ->.
  { unfold ansi_write_char, csi_ctx. cbn [a_state a_idx a_buf a_color].
    fold (csi_char c). rewrite Hc. rewrite (proj2 (Z.ltb_lt _ _)) by (unfold ANSI_BUF_SIZE in *; lia).
    f_equal. rewrite length_app. f_equal; [|simpl; lia].
    rewrite Nat2Z.id, insert_app_r_alt, Nat.sub_diag, <- app_assoc by lia. f_equal.
    replace (ANSI_BUF_SIZE - length l)%nat with (S (ANSI_BUF_SIZE - (length l + length [c])))
      by (unfold ANSI_BUF_SIZE in *; simpl; lia). done. }
  rewrite (IH (l ++ [c])) by (done || (rewrite length_app; simpl; lia)).
  by rewrite <- app_assoc.
Qed.

Lemma ansi_write_app ctx s s' drv :
  ansi_write ctx (s ++ s') drv =
  let '(ctx, o1) := ansi_write ctx s drv in
  let '(ctx, o2) := ansi_write ctx s' drv in (ctx, o1 ++ o2).
Proof.
  revert ctx. induction s as [|c s IH]; intros ctx; simpl; [by destruct (ansi_write ctx s' drv)|].
  destruct (ansi_write_char ctx c drv) as [ctx1 o1]. rewrite IH.
  destruct (ansi_write ctx1 s drv) as [ctx2 o2]. destruct (ansi_write ctx2 s' drv) as [ctx3 o3].
  by rewrite app_assoc.
Qed.

Lemma segments_digits cur l : Forall (fun c => is_digit c = true) l -> segments cur l = [cur ++ l].
Proof.
  revert cur. induction l as [|c l IH]; intros cur Hl; simpl; [by rewrite app_nil_r|].
  apply Forall_cons in Hl as [Hc Hl]. unfold is_digit in Hc. rewrite (proj2 (Z.eqb_neq c 59)) by lia.
  by rewrite IH, <- app_assoc.
Qed.

Lemma segments_two cur l l' : Forall (fun c => is_digit c = true) l -> Forall (fun c => is_digit c = true) l' ->
  segments cur (l ++ 59 :: l') = [cur ++ l; l'].
Proof.
  revert cur. induction l as [|c l IH]; intros cur Hl Hl'; simpl.
  { rewrite app_nil_r. by rewrite segments_digits. }
  apply Forall_cons in Hl as [Hc Hl]. unfold is_digit in Hc. rewrite (proj2 (Z.eqb_neq c 59)) by lia.
  by rewrite IH, <- app_assoc.
Qed.

Lemma digits_csi l : Forall (fun c => is_digit c = true) l -> Forall (fun c => csi_char c = true) l.
Proof. intros H. eapply Forall_impl; [exact H|]. intros c Hc. unfold csi_char. by rewrite Hc. Qed.

Lemma move_cursor_spec ctx drv row col :
  a_state ctx = ANSI_NORMAL -> has_set_cursor drv = true ->
  0 <= row < 10 ^ 6 -> 0 <= col < 10 ^ 6 ->
  let '(ctx', calls) := ansi_write ctx (move_cursor row col) drv in
  calls = [SetCursor (Z.max col 1 - 1) (Z.max row 1 - 1)] /\
  a_state ctx' = ANSI_NORMAL /\ a_color ctx' = a_color ctx.
Proof.
  intros Hst Hcur Hrow Hcol.
  destruct (decimal_spec row 6 ltac:(lia) ltac:(lia) ltac:(lia)) as (Hrd & Hrv & Hrl).
  destruct (decimal_spec col 6 ltac:(lia) ltac:(lia) ltac:(lia)) as (Hcd & Hcv & Hcl).
  unfold move_cursor. set (body := decimal row ++ [59] ++ decimal col).
  replace ([27; 91] ++ decimal row ++ [59] ++ decimal col ++ [72]) with (27 :: 91 :: body ++ [72])
    by (unfold body; by rewrite <- !app_assoc).
  assert (Forall (fun c => csi_char c = true) body) as Hcsi.
  { unfold body. apply Forall_app. split; [by apply digits_csi|]. constructor; [done|by apply digits_csi]. }
  assert (length body < 32)%nat as Hlen by (unfold body; rewrite !length_app; simpl; lia).
  assert (Forall (fun c => c <> 0) body) as Hnz
    by (eapply Forall_impl; [exact Hcsi|]; intros c Hc ->; discriminate Hc).
  assert (ansi_atoi <$> segments [] body = [row; col]) as Hseg
    by (unfold body; simpl app; rewrite segments_two by done; simpl; by rewrite Hrv, Hcv).
  clearbody body.
  cbn [ansi_write]. unfold ansi_write_char at 1. rewrite Hst. simpl.
  change (mkAnsi (a_color ctx) ANSI_CSI _ 0) with (csi_ctx (a_color ctx) []).
  rewrite ansi_write_app, csi_feed.
  2: done.
  2: { simpl. unfold ANSI_BUF_SIZE. lia. }
  cbn [ansi_write app]. unfold ansi_write_char, csi_ctx. cbn [a_state a_buf a_color a_idx]. simpl (is_digit 72 || _ || _).
  replace (ANSI_BUF_SIZE - length body)%nat with (S (31 - length body)) by (unfold ANSI_BUF_SIZE; lia).
  cbv iota. simpl (replicate (S _) 0).
  pose proof (parse_ansi_params_spec body (replicate (31 - length body) 0)) as Hp.
  destruct (parse_ansi_params (body ++ 0 :: replicate (31 - length body) 0)) as [[buf params] cnt].
  specialize (Hp Hnz ltac:(lia)). rewrite Hseg in Hp. simpl in Hp.
  simplify_eq. simpl. rewrite Hcur. simpl. split; [|done]. f_equal. f_equal.
  - destruct (Z.ltb_spec 0 col); lia.
  - destruct (Z.ltb_spec 0 row); lia.
Qed.

(** What [move_cursor] prints, the terminal's parser understands: fed to
    [ansi_write_char] in the normal state, the bytes move the cursor to the given
    row and column (counted from 1; 0 means the first) and do nothing else. *)
Theorem move_cursor_roundtrip ctx drv row col :
  a_state ctx = ANSI_NORMAL -> has_set_cursor drv = true ->
  0 <= row < 10 ^ 6 -> 0 <= col < 10 ^ 6 ->
  let '(ctx', calls) := ansi_write ctx (move_cursor row col) drv in
  calls = [SetCursor (Z.max col 1 - 1) (Z.max row 1 - 1)] /\
  a_state ctx' = ANSI_NORMAL /\ a_color ctx' = a_color ctx.
Proof. apply move_cursor_spec. Qed.
End Writing.

Lemma move_cursor_roundtrip_witness :
  let ctx := mkAnsi White ANSI_NORMAL (replicate 32 0) 0 in
  let drv := mkDriver true true true true true in
  move_cursor 12 80 = [27; 91; 49; 50; 59; 56; 48; 72] /\
  snd (ansi_write ctx (move_cursor 12 80) drv) = [SetCursor 79 11].
Proof.
  intros ctx drv. split; [reflexivity|].
  pose proof (move_cursor_roundtrip ctx drv 12 80 eq_refl eq_refl ltac:(lia) ltac:(lia)) as H.
  destruct (ansi_write ctx (move_cursor 12 80) drv) as [ctx' calls]. exact (proj1 H).
Defined.

(** ** Bounds of the parameter buffer *)
Definition ansi_wf (ctx : AnsiContext) : Prop :=
  length (a_buf ctx) = ANSI_BUF_SIZE /\ 0 <= a_idx ctx < Z.of_nat ANSI_BUF_SIZE /\
  (a_state ctx = ANSI_CSI -> exists l, ctx = csi_ctx (a_color ctx) l /\ Forall (fun c => csi_char c = true) l).

Lemma parse_buf_length buf : length (fst (fst (parse_ansi_params buf))) = length buf.
Proof.
  unfold parse_ansi_params.
  assert (forall s, length (pa_buf (push_param s)) = length (pa_buf s)) as Hp
    by (intros s; unfold push_param; by destruct (_ <? _)%nat).
  assert (forall fuel s r, length (pa_buf s) = length buf -> loop fuel parse_step s = Some r ->
    length (pa_buf r) = length buf) as Hloop.
  { induction fuel as [|n IH]; intros s r Hs Hl; [done|]. cbn [loop] in Hl. unfold parse_step in Hl.
    destruct (_ =? 0); [by simplify_eq|]. destruct (_ =? 59); (eapply IH; [|exact Hl]); [|done].
    cbn [pa_buf]. rewrite Hp. cbn [pa_buf]. by rewrite length_insert. }
  destruct (loop 33 parse_step _) as [s|] eqn:E; [|done]. cbn [fst]. rewrite Hp.
  by apply (Hloop 33%nat _ s (eq_refl : length (pa_buf (PA 0 0 buf 0 [0; 0; 0; 0])) = length buf)).
Qed.

Lemma ansi_write_char_wf ctx c drv : ansi_wf ctx -> ansi_wf (fst (ansi_write_char ctx c drv)).
Proof.
  intros (Hl & Hi & Hc). unfold ansi_write_char. destruct (a_state ctx) eqn:Es.
  - destruct (c =? 27); cbn [fst]; (split; [done|]; split; [done|]); [done|congruence].
  - destruct (c =? 91); cbn [fst]; (split; [done|]; split; [done|]); [|done]. intros _. exists []. by split; [|constructor].
  - destruct (Hc eq_refl) as (l & Ectx & Hl'). fold (csi_char c).
    destruct (csi_char c) eqn:Ec.
    + destruct (Z.ltb_spec (a_idx ctx) (Z.of_nat ANSI_BUF_SIZE - 1)) as [Hlt|];
        [|split; [done|]; split; [done|]; by intros _; exists l].
      pose proof (csi_feed (a_color ctx) l [c] drv ltac:(by constructor)) as Hf.
      assert (a_idx ctx = Z.of_nat (length l)) as Ei by by rewrite Ectx.
      specialize (Hf ltac:(simpl; unfold ANSI_BUF_SIZE in *; lia)). rewrite <- Ectx in Hf.
      cbn [ansi_write] in Hf. unfold ansi_write_char in Hf. rewrite Es in Hf. fold (csi_char c) in Hf.
      rewrite Ec, (proj2 (Z.ltb_lt _ _)) in Hf by done. apply (f_equal fst) in Hf. cbn [fst] in Hf |- *.
      rewrite Hf.
      split; [|split].
      * unfold csi_ctx. cbn [a_buf]. rewrite !length_app, length_replicate. simpl. unfold ANSI_BUF_SIZE in *. lia.
      * unfold csi_ctx. cbn [a_idx]. rewrite length_app. simpl. lia.
      * intros _. exists (l ++ [c]). split; [done|]. apply Forall_app. split; [done|by constructor].
    + pose proof (parse_buf_length (a_buf ctx)) as Hp.
      destruct (parse_ansi_params (a_buf ctx)) as [[buf params] cnt]. cbn [fst] in Hp.
      destruct (ansi_exec drv (a_color ctx) params cnt c) as [color out]. cbn [fst].
      split_and!; cbn [a_buf a_idx a_state]; try done; [congruence|lia|lia].
Qed.

(** Whatever bytes a program prints, the parser stays within its 32-byte
    parameter buffer: the index never reaches the end, and while parameters are
    collected the buffer is the characters accepted so far followed by NULs, so
    the conversion of the parameters stops inside it. *)
Theorem ansi_buffer_safe ctx s drv : ansi_wf ctx -> ansi_wf (fst (ansi_write ctx s drv)).
Proof.
  revert ctx. induction s as [|c s IH]; intros ctx Hw; [done|]. cbn [ansi_write].
  pose proof (ansi_write_char_wf ctx c drv Hw) as Hw1.
  destruct (ansi_write_char ctx c drv) as [ctx1 o1]. cbn [fst] in Hw1.
  specialize (IH ctx1 Hw1). by destruct (ansi_write ctx1 s drv).
Qed.

Lemma ansi_buffer_safe_witness :
  let ctx := mkAnsi White ANSI_NORMAL (replicate 32 0) 0 in
  ansi_wf (fst (ansi_write ctx (27 :: 91 :: replicate 100 49) (mkDriver true true true true true))).
Proof.
  intros ctx. apply ansi_buffer_safe. split; [reflexivity|]. split; [vm_compute; split; [discriminate|reflexivity]|].
  discriminate.
Defined.

(** [print_dec] prints the decimal digits of every [int] but the smallest: the
    digits read back as the absolute value, after a minus sign for a negative
    number; for the smallest [int] negation wraps and only the sign is printed. *)
Theorem print_dec_correct num : - 2 ^ 31 <= num < 2 ^ 31 ->
  exists ds, print_dec num = (if num <? 0 then [45] else []) ++ ds /\
    Forall (fun c => is_digit c = true) ds /\
    if num =? - 2 ^ 31 then ds = [] else ds <> [] /\ ansi_atoi ds = Z.abs num.
Proof.
  intros Hn. unfold print_dec. destruct (Z.eqb_spec num 0) as [->|Hne].
  { exists [48]. split; [done|]. split; [by repeat constructor|done]. }
  destruct (Z.eqb_spec num (- 2 ^ 31)) as [->|Hmin].
  { exists []. by split. }
  set (a := if num <? 0 then s32 (- num) else num).
  assert (a = Z.abs num) as Ea
    by (unfold a; destruct (Z.ltb_spec num 0); [rewrite s32_small by lia|]; lia).
  destruct (decimal_spec a 10) as (H1 & H2 & H3); [|lia|lia|].
  { change (10 ^ Z.of_nat 10) with 10000000000. lia. }
  assert (decimal a = rev (tmp_digits 10 a)) as Ed
    by (unfold decimal; by rewrite (proj2 (Z.eqb_neq a 0)) by lia).
  exists (decimal a). rewrite Ed at 1. split; [done|]. split; [done|].
  split; [intros E; rewrite E in H3; simpl in H3; lia|congruence].
Qed.

Lemma print_dec_correct_witness : exists ds, print_dec (-1207) = [45] ++ ds /\ ansi_atoi ds = 1207.
Proof.
  destruct (print_dec_correct (-1207) ltac:(lia)) as (ds & H1 & _ & H2).
  exists ds. split; [exact H1|exact (proj2 H2)].
Defined.
