(* ===== verification/UserMalloc.v ===== *)
(** The C library's heap, [malloc], [free] and [realloc] of
    [src/src/libc/libc.c], on top of [sys_sbrk] of [src/src/arch/syscall.c].

    A process sees its own virtual memory, a [mem].  Every block starts with a
    [block_meta] header ([size] at offset 0, [next] at 8, [free] at 16, [magic] at
    20; 24 bytes), and the list that starts at [g_heap_base] links all blocks,
    free and used, in address order.  [seg] relates the memory to the list of
    (size, free) pairs it stores.  How many pages the kernel can still map for
    the process is an argument of the calls that may grow the heap. *)
From S2P Require Import Prelude Machine StringLib Pmm Kmalloc.

Definition META_SIZE : Z := 24.
Definition HEAP_MAGIC : Z := 0x12345678.
Definition USER_HEAP_MAX_LIMIT : Z := 0x0000008000000000.
Definition USER_SPACE_LIMIT : Z := 0x00007FFFFFFFFFFF.

(** ** [block_meta] *)
Definition b_size (m : mem) (b : Z) : Z := load64 m b.
Definition b_next (m : mem) (b : Z) : Z := load64 m (b + 8).
Definition b_free (m : mem) (b : Z) : Z := get8 m (b + 16).
Definition b_magic (m : mem) (b : Z) : Z := load32 m (b + 20).
Definition b_set_size (m : mem) (b v : Z) : mem := store64 m b v.
Definition b_set_next (m : mem) (b v : Z) : mem := store64 m (b + 8) v.
Definition b_set_free (m : mem) (b v : Z) : mem := put8 m (b + 16) v.
Definition b_set_magic (m : mem) (b v : Z) : mem := store32 m (b + 20) v.

Record ust := USt { um : mem; g_heap_base : Z; heap_end : Z }.

(** ** [sys_sbrk] *)

(** The loop maps zeroed pages until the end or until no frame is left. *)
Definition map_pages (avail : nat) (m : mem) (start_page_addr end_page_addr : Z) : bool * mem :=
  let npages := Z.max 0 ((end_page_addr - start_page_addr) / PAGE_SIZE) in
  let got := Z.min npages (Z.of_nat avail) in
  (npages <=? Z.of_nat avail, memset m start_page_addr 0 (got * PAGE_SIZE)).

Definition page_up (a : Z) : Z := Z.land (a + 0xFFF) (Z.lnot 0xFFF).
Definition first_page (prev_brk : Z) : Z := if prev_brk mod PAGE_SIZE =? 0 then prev_brk else page_up prev_brk.

Definition sbrk (avail : nat) (s : ust) (arg : Z) : Z * ust :=
  let incr_payload := s64 arg in
  if incr_payload =? 0 then (heap_end s, s)
  else if incr_payload <? 0 then (heap_end s, s)
  else
    let prev_brk := heap_end s in
    let next_brk := u64 (prev_brk + incr_payload) in
    if next_brk <? prev_brk then (u64 (-1), s)
    else if (USER_HEAP_MAX_LIMIT <? next_brk) || (USER_SPACE_LIMIT <? next_brk) then (u64 (-1), s)
    else
      let '(ok, m) := map_pages avail (um s) (first_page prev_brk) (page_up next_brk) in
      if ok then (prev_brk, USt m (g_heap_base s) next_brk)
      else (u64 (-1), USt m (g_heap_base s) prev_brk).

(** ** [malloc] *)

(** [while (curr && !(curr->free && curr->size >= size))]; returns [last] and
    the block found (0: none). *)
Definition find_free_blk (fuel : nat) (m : mem) (base last size : Z) : option (Z * Z) :=
  loop fuel (fun '(last, curr) =>
    if negb (curr =? 0) && negb (negb (b_free m curr =? 0) && (size <=? b_size m curr))
    then inl (curr, b_next m curr) else inr (last, curr)) (last, base).

Definition request_space (avail : nat) (s : ust) (last size : Z) : Z * ust :=
  let '(request, s) := sbrk avail s (u64 (size + META_SIZE)) in
  if request =? u64 (-1) then (0, s)
  else
    let blk := request in
    let m := b_set_size (um s) blk size in
    let m := b_set_next m blk 0 in
    let m := b_set_free m blk 0 in
    let m := b_set_magic m blk HEAP_MAGIC in
    let m := if last =? 0 then m else b_set_next m last blk in
    (blk, USt m (g_heap_base s) (heap_end s)).

(** The block found is split when the rest can hold a header and 16 bytes. *)
Definition take_blk (m : mem) (blk size : Z) : mem :=
  let m :=
    if u64 (size + META_SIZE + 16) <=? b_size m blk then
      let new_blk := blk + META_SIZE + size in
      let m := b_set_size m new_blk (u64 (b_size m blk - size - META_SIZE)) in
      let m := b_set_free m new_blk 1 in
      let m := b_set_magic m new_blk HEAP_MAGIC in
      let m := b_set_next m new_blk (b_next m blk) in
      let m := b_set_size m blk size in
      b_set_next m blk new_blk
    else m in
  b_set_magic (b_set_free m blk 0) blk HEAP_MAGIC.

Definition malloc (fuel : nat) (avail : nat) (s : ust) (size : Z) : option (Z * ust) :=
  if size =? 0 then Some (0, s)
  else
    let size := round16 size in
    if g_heap_base s =? 0 then
      let '(blk, s) := request_space avail s 0 size in
      if blk =? 0 then Some (0, s)
      else Some (blk + META_SIZE, USt (um s) blk (heap_end s))
    else
      r ← find_free_blk fuel (um s) (g_heap_base s) (g_heap_base s) size;
      let '(last, blk) := r in
      if blk =? 0 then
        let '(blk, s) := request_space avail s last size in
        if blk =? 0 then Some (0, s) else Some (blk + META_SIZE, s)
      else Some (blk + META_SIZE, USt (take_blk (um s) blk size) (g_heap_base s) (heap_end s)).

(** ** [free] and [realloc] *)

(** One round of the coalescing loop. *)
Definition coalesce_step : mem * Z -> (mem * Z) + mem := fun '(m, curr) =>
  if curr =? 0 then inr m
  else if negb (b_free m curr =? 0) && negb (b_next m curr =? 0) && negb (b_free m (b_next m curr) =? 0) then
    let m := b_set_size m curr (u64 (b_size m curr + META_SIZE + b_size m (b_next m curr))) in
    inl (b_set_next m curr (b_next m (b_next m curr)), curr)
  else inl (m, b_next m curr).

Definition free (fuel : nat) (s : ust) (ptr : Z) : option ust :=
  if ptr =? 0 then Some s
  else
    let blk_ptr := ptr - META_SIZE in
    if negb (b_magic (um s) blk_ptr =? HEAP_MAGIC) then Some s
    else
      m ← loop fuel coalesce_step (b_set_free (um s) blk_ptr 1, g_heap_base s);
      Some (USt m (g_heap_base s) (heap_end s)).

Definition realloc (fuel : nat) (avail : nat) (s : ust) (ptr size : Z) : option (Z * ust) :=
  if ptr =? 0 then malloc fuel avail s size
  else if size =? 0 then s ← free fuel s ptr; Some (0, s)
  else
    let blk_ptr := ptr - META_SIZE in
    if size <=? b_size (um s) blk_ptr then Some (ptr, s)
    else
      r ← malloc fuel avail s size;
      let '(new_ptr, s) := r in
      if new_ptr =? 0 then Some (0, s)
      else
        m ← memcpy_sse_run (um s) new_ptr ptr (b_size (um s) blk_ptr);
        s ← free fuel (USt m (g_heap_base s) (heap_end s)) ptr;
        Some (new_ptr, s).

#[local] Arguments store : simpl never.
#[local] Arguments load : simpl never.

(** ** The list of blocks a memory stores *)
Abbreviation blocks := (list (Z * bool)).

Fixpoint end_of (p : Z) (bl : blocks) : Z :=
  match bl with [] => p | (n, _) :: bl => end_of (p + META_SIZE + n) bl end.

(** The pointer to a list that starts at [p] when it is not empty. *)
Definition start (nxt p : Z) (bl : blocks) : Z := match bl with [] => nxt | _ => p end.

Definition flag (f : bool) : Z := if f then 1 else 0.

(** The blocks of [bl] lie one after the other from [p] on, and the last one
    links to [nxt]. *)
Fixpoint seg (m : mem) (p : Z) (bl : blocks) (nxt : Z) : Prop :=
  match bl with
  | [] => True
  | (n, f) :: bl =>
      b_size m p = n /\ b_free m p = flag f /\ b_magic m p = HEAP_MAGIC /\
      b_next m p = start nxt (p + META_SIZE + n) bl /\ seg m (p + META_SIZE + n) bl nxt
  end.

Definition sizes_ok (bl : blocks) : Prop := Forall (fun b => 16 <= fst b) bl.

(** The bytes of the headers. *)
Fixpoint in_hdr (p : Z) (bl : blocks) (x : Z) : Prop :=
  match bl with
  | [] => False
  | (n, _) :: bl => p <= x < p + META_SIZE \/ in_hdr (p + META_SIZE + n) bl x
  end.

(** The payloads in use, (address, size). *)
Fixpoint live (p : Z) (bl : blocks) : list (Z * Z) :=
  match bl with
  | [] => []
  | (n, f) :: bl => (if f then [] else [(p + META_SIZE, n)]) ++ live (p + META_SIZE + n) bl
  end.

Record uheap_inv (s : ust) (bl : blocks) : Prop := {
  ui_base : match bl with [] => g_heap_base s = 0 | _ => 0 < g_heap_base s /\ end_of (g_heap_base s) bl = heap_end s end;
  ui_end : 0 < heap_end s <= USER_HEAP_MAX_LIMIT;
  ui_seg : seg (um s) (g_heap_base s) bl 0;
  ui_sizes : sizes_ok bl
}.

Section Segments.
Implicit Types (m : mem) (p q x nxt n : Z) (bl pre post : blocks).

Lemma end_of_app p pre post : end_of p (pre ++ post) = end_of (end_of p pre) post.
Proof. revert p. induction pre as [|[n f] pre IH]; intros p; [done|]. apply IH. Qed.

Lemma end_of_ge p bl : sizes_ok bl -> p <= end_of p bl.
Proof.
  revert p. induction bl as [|[n f] bl IH]; intros p Hs; simpl; [lia|].
  apply Forall_cons in Hs as [Hn Hs]. specialize (IH (p + META_SIZE + n) Hs). cbn [fst] in Hn. unfold META_SIZE in *. lia.
Qed.

Lemma in_hdr_range p bl x : sizes_ok bl -> in_hdr p bl x -> p <= x < end_of p bl.
Proof.
  revert p. induction bl as [|[n f] bl IH]; intros p Hs; simpl; [done|].
  apply Forall_cons in Hs as [Hn Hs]. cbn [fst] in Hn. pose proof (end_of_ge (p + META_SIZE + n) bl Hs).
  unfold META_SIZE in *. intros [?|Hx]; [lia|]. specialize (IH _ Hs Hx). lia.
Qed.

Lemma in_hdr_app p pre post x : in_hdr p (pre ++ post) x <-> in_hdr p pre x \/ in_hdr (end_of p pre) post x.
Proof.
  revert p. induction pre as [|[n f] pre IH]; intros p; simpl; [tauto|]. rewrite IH. tauto.
Qed.

Lemma start_app nxt p pre post : start nxt p (pre ++ post) = start (start nxt p post) p pre.
Proof. by destruct pre. Qed.

Lemma seg_app m p pre post nxt :
  seg m p (pre ++ post) nxt <->
  seg m p pre (start nxt (end_of p pre) post) /\ seg m (end_of p pre) post nxt.
Proof.
  revert p. induction pre as [|[n f] pre IH]; intros p; simpl; [tauto|].
  rewrite IH. destruct pre as [|[n' f'] pre]; simpl; [tauto|tauto].
Qed.

Lemma seg_ext m m' p bl nxt : (forall x, in_hdr p bl x -> get8 m' x = get8 m x) ->
  seg m p bl nxt -> seg m' p bl nxt.
Proof.
  revert p. induction bl as [|[n f] bl IH]; intros p Hx; simpl; [done|].
  assert (forall i, 0 <= i < 24 -> get8 m' (p + i) = get8 m (p + i)) as Hh
    by (intros; apply Hx; left; unfold META_SIZE; lia).
  assert (forall (k : nat) i, 0 <= i -> i + Z.of_nat k <= 24 -> load k m' (p + i) = load k m (p + i)) as Hl.
  { intros k i Hi Hk. apply load_ext. intros j Hj. rewrite <- Z.add_assoc. apply Hh. lia. }
  intros (<- & <- & <- & Hn & Hseg).
  split; [pose proof (Hl 8%nat 0) as H0; rewrite Z.add_0_r in H0; apply H0; lia|].
  split; [apply Hh; lia|]. split; [apply (Hl 4%nat 20); lia|].
  split; [rewrite <- Hn; apply (Hl 8%nat 8); lia|]. apply IH; [|done]. intros x ?. apply Hx. by right.
Qed.

Lemma live_app p pre post : live p (pre ++ post) = live p pre ++ live (end_of p pre) post.
Proof.
  revert p. induction pre as [|[n f] pre IH]; intros p; [done|]. simpl. by rewrite IH, app_assoc.
Qed.

Lemma live_range p bl a n : sizes_ok bl -> (a, n) ∈ live p bl ->
  p + META_SIZE <= a /\ 16 <= n /\ a + n <= end_of p bl.
Proof.
  revert p. induction bl as [|[k f] bl IH]; intros p Hs; simpl; [by intros []%elem_of_nil|].
  apply Forall_cons in Hs as [Hk Hs]. cbn [fst] in Hk.
  pose proof (end_of_ge (p + META_SIZE + k) bl Hs). unfold META_SIZE in *.
  intros [Hin|Hin]%elem_of_app.
  - destruct f; [by apply elem_of_nil in Hin|]. apply list_elem_of_singleton in Hin as [= -> ->]. lia.
  - specialize (IH _ Hs Hin). lia.
Qed.

(** A payload in use meets no header. *)
Lemma live_not_hdr p bl a n x : sizes_ok bl -> (a, n) ∈ live p bl -> a <= x < a + n -> ~ in_hdr p bl x.
Proof.
  revert p. induction bl as [|[k f] bl IH]; intros p Hs; simpl; [by intros []%elem_of_nil|].
  pose proof Hs as [Hk Hs']%Forall_cons. cbn [fst] in Hk. intros [Hin|Hin]%elem_of_app Hx [Hh|Hh].
  - destruct f; [by apply elem_of_nil in Hin|]. apply list_elem_of_singleton in Hin as [= -> ->]. unfold META_SIZE in *. lia.
  - destruct f; [by apply elem_of_nil in Hin|]. apply list_elem_of_singleton in Hin as [= -> ->].
    apply in_hdr_range in Hh; [|done]. unfold META_SIZE in *. lia.
  - apply live_range in Hin as (? & _); [|done]. unfold META_SIZE in *. lia.
  - by eapply IH.
Qed.

Lemma live_split p bl l1 a n l2 : live p bl = l1 ++ (a, n) :: l2 ->
  exists pre post, bl = pre ++ (n, false) :: post /\ a = end_of p pre + META_SIZE /\
    live p pre = l1 /\ live (a + n) post = l2.
Proof.
  revert p l1. induction bl as [|[k f] bl IH]; intros p l1; simpl; [by destruct l1|]. intros Hl.
  destruct f; simpl in Hl.
  - destruct (IH _ _ Hl) as (pre & post & -> & -> & <- & <-). by exists ((k, true) :: pre), post.
  - destruct l1 as [|[b t] l1]; simpl in Hl.
    + injection Hl as <- <- <-. by exists [], bl.
    + injection Hl as <- <- Hl. destruct (IH _ _ Hl) as (pre & post & -> & -> & <- & <-).
      by exists ((k, false) :: pre), post.
Qed.
End Segments.

(** Reading a field after writing fields. *)
Ltac meta := unfold b_size, b_next, b_free, b_magic, b_set_size, b_set_next, b_set_free, b_set_magic,
  load64, load32, store64, store32, META_SIZE, HEAP_MAGIC in *.
Ltac rd := meta; repeat first
  [ rewrite load_store_ne by lia | rewrite load_store_small by (lia || apply load_range) | rewrite load_put8_ne by lia
  | rewrite get8_store_out by lia | rewrite get8_put8_eq | rewrite get8_put8_ne by lia ].

Section Operations.
Implicit Types (m : mem) (p q x nxt n size : Z) (bl pre post : blocks).

(** *** First fit *)
Definition no_fit size (b : Z * bool) : Prop := snd b = false \/ fst b < size.

Fixpoint last_addr (last p : Z) bl : Z :=
  match bl with [] => last | (n, _) :: bl => last_addr p (p + META_SIZE + n) bl end.

Lemma last_addr_snoc last p bl n f : last_addr last p (bl ++ [(n, f)]) = end_of p bl.
Proof. revert last p. induction bl as [|[k g] bl IH]; intros last p; [done|]. apply IH. Qed.

Lemma find_spec m last p bl size fuel : seg m p bl 0 -> sizes_ok bl -> 0 < p -> (length bl < fuel)%nat ->
  (exists pre n post last', bl = pre ++ (n, true) :: post /\ size <= n /\ Forall (no_fit size) pre /\
     find_free_blk fuel m (start 0 p bl) last size = Some (last', end_of p pre)) \/
  (Forall (no_fit size) bl /\ find_free_blk fuel m (start 0 p bl) last size = Some (last_addr last p bl, 0)).
Proof.
  revert last p fuel. induction bl as [|[n f] bl IH]; intros last p fuel Hs Hz Hp Hf;
    (destruct fuel as [|fuel]; [simpl in Hf; lia|]).
  { right. split; [constructor|done]. }
  destruct Hs as (Hn & Hfr & Hmg & Hnx & Hs). apply Forall_cons in Hz as [Hn16 Hz]. cbn [fst] in Hn16.
  unfold find_free_blk. cbn [start loop]. rewrite (proj2 (Z.eqb_neq p 0)) by lia. rewrite Hfr, Hn, Hnx.
  destruct (decide (f = true /\ size <= n)) as [[-> Hle]|Hno].
  - left. exists [], n, bl, last. simpl. rewrite (proj2 (Z.leb_le size n)) by done. repeat split; [done|constructor].
  - assert (negb (negb (flag f =? 0) && (size <=? n)) = true) as ->.
    { destruct f; simpl; [|done]. rewrite (proj2 (Z.leb_gt size n)); [done|].
      destruct (Z.leb_spec size n); [tauto|lia]. }
    cbn [negb andb]. fold (find_free_blk fuel m (start 0 (p + META_SIZE + n) bl) p size).
    assert (no_fit size (n, f)).
    { unfold no_fit. destruct f; [right|by left]. simpl. destruct (Z.leb_spec size n); [tauto|lia]. }
    destruct (IH p (p + META_SIZE + n) fuel) as [(pre & k & post & last' & -> & Hk & Hpre & Hfind)|[Hall Hfind]];
      [done|done|unfold META_SIZE; lia|simpl in Hf; lia|left|right].
    + exists ((n, f) :: pre), k, post, last'. split; [done|]. split; [done|]. split; [by constructor|exact Hfind].
    + split; [by constructor|exact Hfind].
Qed.

(** *** Taking a block *)
Definition taken n size : blocks :=
  if size + META_SIZE + 16 <=? n then [(size, false); (n - size - META_SIZE, true)] else [(n, false)].

Lemma take_spec m q n post nxt size : seg m q ((n, true) :: post) nxt -> sizes_ok ((n, true) :: post) ->
  16 <= size <= n -> 0 < q -> end_of q ((n, true) :: post) < 2 ^ 40 ->
  seg (take_blk m q size) q (taken n size ++ post) nxt /\
  forall x, ~ q <= x < q + META_SIZE + n -> get8 (take_blk m q size) x = get8 m x.
Proof.
  intros (Hn & Hfr & Hmg & Hnx & Hs) Hz Hsz Hq He. apply Forall_cons in Hz as [Hn16 Hz].
  cbn [fst end_of] in *. pose proof (end_of_ge (q + META_SIZE + n) post Hz) as Hge.
  unfold take_blk, taken. rewrite Hn. unfold META_SIZE in *.
  rewrite u64_small by lia. destruct (Z.leb_spec (size + 24 + 16) n) as [Hle|Hgt].
  - rewrite u64_small by lia.
    set (m' := b_set_magic _ _ _). assert (forall x, ~ q <= x < q + 24 + n -> get8 m' x = get8 m x) as Hx.
    { intros x Hx. unfold m'. by rd. }
    split; [|done]. cbn [app seg start]. unfold META_SIZE.
    assert (b_next m q = start nxt (q + 24 + n) post) as Hnx' by done.
    assert (0 <= b_next m q < 2 ^ 64) by apply load64_range.
    unfold m', META_SIZE. split; [by rd|]. split; [by rd|]. split; [by rd|]. split; [by rd|].
    split; [by rd|]. split; [by rd|]. split; [by rd|].
    split. { rd. rewrite Hnx'. f_equal. lia. }
    replace (q + 24 + size + 24 + (n - size - 24)) with (q + 24 + n) by lia.
    eapply seg_ext; [|exact Hs]. intros x Hh%in_hdr_range; [|done]. apply Hx. lia.
  - set (m' := b_set_magic _ _ _). assert (forall x, ~ q <= x < q + 24 -> get8 m' x = get8 m x) as Hx.
    { intros x Hx. unfold m'. by rd. }
    split; [|intros x ?; apply Hx; lia]. cbn [app seg]. unfold META_SIZE.
    unfold m'. split; [rd; exact Hn|]. split; [by rd|]. split; [by rd|]. split; [rd; exact Hnx|].
    eapply seg_ext; [|exact Hs]. intros x Hh%in_hdr_range; [|done]. apply Hx. lia.
Qed.

(** *** Coalescing *)
Fixpoint coalesce_from n (f : bool) (bl : blocks) : blocks :=
  match bl with
  | [] => [(n, f)]
  | (n', f') :: bl => if f && f' then coalesce_from (n + META_SIZE + n') f bl else (n, f) :: coalesce_from n' f' bl
  end.

Definition coalesce bl : blocks := match bl with [] => [] | (n, f) :: bl => coalesce_from n f bl end.

Lemma coalesce_start n f bl nxt p : start nxt p (coalesce_from n f bl) = p.
Proof.
  revert n f. induction bl as [|[n' f'] bl IH]; intros n f; simpl; [done|]. destruct (f && f'); [apply IH|done].
Qed.

Lemma coalesce_end n f bl p : end_of p (coalesce_from n f bl) = end_of p ((n, f) :: bl).
Proof.
  revert n f p. induction bl as [|[n' f'] bl IH]; intros n f p; simpl; [done|].
  destruct (f && f'); simpl; rewrite IH; simpl; [|done]. f_equal. unfold META_SIZE. lia.
Qed.

Lemma coalesce_sizes n f bl : sizes_ok ((n, f) :: bl) -> sizes_ok (coalesce_from n f bl).
Proof.
  revert n f. induction bl as [|[n' f'] bl IH]; intros n f Hs; simpl; [done|].
  apply Forall_cons in Hs as [Hn Hs]. cbn [fst] in Hn. pose proof Hs as [Hn' Hs']%Forall_cons. cbn [fst] in Hn'.
  destruct (f && f'); [apply IH; constructor; [unfold META_SIZE; simpl; lia|done]|]. constructor; [done|by apply IH].
Qed.

Lemma coalesce_live n f bl p : live p (coalesce_from n f bl) = live p ((n, f) :: bl).
Proof.
  revert n f p. induction bl as [|[n' f'] bl IH]; intros n f p; simpl; [done|].
  destruct f, f'; simpl; rewrite IH; simpl; try done. all: f_equal; unfold META_SIZE; lia.
Qed.

(** No two neighbours are both free. *)
Fixpoint merged bl : Prop :=
  match bl with
  | (_, f) :: bl => match bl with (_, f') :: _ => f && f' = false | [] => True end /\ merged bl
  | [] => True
  end.

Lemma coalesce_head n f bl : exists k r, coalesce_from n f bl = (k, f) :: r.
Proof.
  revert n. induction bl as [|[n' f'] bl IH]; intros n; simpl; [eauto|]. destruct (f && f'); eauto.
Qed.

Lemma coalesce_merged n f bl : merged (coalesce_from n f bl).
Proof.
  revert n f. induction bl as [|[n' f'] bl IH]; intros n f; simpl; [done|].
  destruct (f && f') eqn:E; [apply IH|]. cbn [merged]. split; [|apply IH].
  destruct (coalesce_head n' f' bl) as (k & r & ->). done.
Qed.

Lemma coalesce_loop bl m p n f fuel : seg m p ((n, f) :: bl) 0 -> sizes_ok ((n, f) :: bl) -> 0 < p ->
  end_of p ((n, f) :: bl) < 2 ^ 40 -> (S (length bl) < fuel)%nat ->
  exists m', loop fuel coalesce_step (m, p) = Some m' /\ seg m' p (coalesce_from n f bl) 0 /\
    forall x, ~ in_hdr p ((n, f) :: bl) x -> get8 m' x = get8 m x.
Proof.
  revert m p n f fuel. induction bl as [|[n' f'] bl IH]; intros m p n f fuel Hseg Hz Hp He Hf;
    (destruct fuel as [|fuel]; [lia|]); pose proof Hseg as (Hn & Hfr & Hmg & Hnx & Hs);
    cbn [loop]; unfold coalesce_step at 1; rewrite (proj2 (Z.eqb_neq p 0)) by lia; rewrite Hnx, Hfr.
  { cbn [start Z.eqb negb]. rewrite andb_false_r. cbn [andb]. destruct fuel as [|fuel]; [simpl in Hf; lia|].
    exists m. by split. }
  cbn [start] in *. pose proof Hz as [Hn16 Hz']%Forall_cons. pose proof Hz' as [Hn16' Hz'']%Forall_cons. cbn [fst] in *.
  set (q := p + META_SIZE + n) in *. assert (0 < q) by (unfold q, META_SIZE; lia).
  destruct Hs as (Hn' & Hfr' & Hmg' & Hnx' & Hs). rewrite (proj2 (Z.eqb_neq q 0)), Hfr' by lia.
  simpl in He. pose proof (end_of_ge (q + META_SIZE + n') bl Hz'') as Hge. fold q in He.
  assert ((negb (flag f =? 0) && negb false && negb (flag f' =? 0)) = f && f') as -> by by destruct f, f'.
  cbn [coalesce_from]. destruct (f && f') eqn:Eff.
  - apply andb_true_iff in Eff as [-> ->]. rewrite Hn, Hn'.
    rewrite u64_small by (unfold q, META_SIZE in *; lia).
    assert (0 <= b_next m q < 2 ^ 64) by apply load64_range.
    assert (b_next (b_set_size m p (n + META_SIZE + n')) p = q) as -> by (rewrite <- Hnx; by rd).
    assert (b_next (b_set_size m p (n + META_SIZE + n')) q = b_next m q) as -> by (unfold q in *; by rd).
    set (m1 := b_set_next (b_set_size m p (n + META_SIZE + n')) p _).
    assert (forall x, ~ p <= x < p + META_SIZE -> get8 m1 x = get8 m x) as Hx1 by (intros x Hx; unfold m1; by rd).
    assert (q + META_SIZE + n' = p + META_SIZE + (n + META_SIZE + n')) as Ea by (unfold q; lia).
    destruct (IH m1 p (n + META_SIZE + n') true fuel) as (m' & Hl & Hs' & Hm'); try done.
    { cbn [seg]. rewrite <- Ea. split; [unfold m1, q in *; by rd|]. split; [unfold m1; rewrite <- Hfr; by rd|].
      split; [unfold m1; rewrite <- Hmg; by rd|]. split; [unfold m1; rewrite <- Hnx'; by rd|].
      eapply seg_ext; [|exact Hs]. intros x Hh%in_hdr_range; [|done]. apply Hx1. unfold q, META_SIZE in *. lia. }
    { constructor; [unfold META_SIZE; simpl; lia|done]. }
    { simpl. rewrite <- Ea. lia. }
    { simpl in Hf. lia. }
    exists m'. split; [exact Hl|]. split; [done|]. intros x Hx. simpl in Hx. fold q in Hx. rewrite Hm', Hx1; [done|tauto|].
    simpl. rewrite <- Ea. tauto.
  - destruct (IH m q n' f' fuel) as (m' & Hl & Hs' & Hm'); try done.
    { simpl in Hf. lia. }
    exists m'. split; [exact Hl|]. split.
    + cbn [seg]. fold q. rewrite coalesce_start.
      assert (seg m' p [(n, f)] q) as (? & ? & ? & ? & _); [|done].
      apply (seg_ext m); [|simpl; fold q; auto].
      intros x [Hx|[]]. apply Hm'. intros Hh%in_hdr_range; [|done]. unfold q, META_SIZE in *. lia.
    + intros x Hx. simpl in Hx. fold q in Hx. apply Hm'. simpl. tauto.
Qed.

(** *** Growing the heap *)

(** The kernel cannot grow the heap by [k] bytes. *)
Definition exhausted (avail : nat) (s : ust) (k : Z) : Prop :=
  USER_HEAP_MAX_LIMIT < heap_end s + k \/
  Z.of_nat avail * PAGE_SIZE < page_up (heap_end s + k) - first_page (heap_end s).

Lemma page_up_spec a : a <= page_up a < a + 4096.
Proof.
  unfold page_up. change 0xFFF with (2 ^ 12 - 1). rewrite land_mask_neg by lia. Z.div_mod_to_equations. lia.
Qed.

Lemma first_page_spec a : a <= first_page a < a + 4096.
Proof. unfold first_page. destruct (_ =? 0); [lia|apply page_up_spec]. Qed.

Lemma sbrk_spec avail s k : 0 < heap_end s <= USER_HEAP_MAX_LIMIT -> 0 < k < 2 ^ 40 ->
  exists m', (forall x, x < heap_end s -> get8 m' x = get8 (um s) x) /\
    ((sbrk avail s (u64 k) = (heap_end s, USt m' (g_heap_base s) (heap_end s + k)) /\
      heap_end s + k <= USER_HEAP_MAX_LIMIT) \/
     (sbrk avail s (u64 k) = (u64 (-1), USt m' (g_heap_base s) (heap_end s)) /\ exhausted avail s k)).
Proof.
  intros He Hk. unfold sbrk, exhausted, USER_HEAP_MAX_LIMIT, USER_SPACE_LIMIT in *.
  rewrite (u64_small k), s64_small by lia.
  rewrite (proj2 (Z.eqb_neq k 0)), (proj2 (Z.ltb_ge k 0)), (u64_small (_ + k)) by lia.
  rewrite (proj2 (Z.ltb_ge _ (heap_end s))) by lia.
  destruct (Z.ltb_spec 0x8000000000 (heap_end s + k)) as [Hlt|Hle].
  { exists (um s). split; [done|]. right. split; [by destruct s|by left]. }
  rewrite (proj2 (Z.ltb_ge _ (heap_end s + k))) by lia. cbn [orb]. unfold map_pages.
  pose proof (first_page_spec (heap_end s)). pose proof (page_up_spec (heap_end s + k)).
  set (st := first_page (heap_end s)) in *. set (en := page_up (heap_end s + k)) in *.
  set (np := Z.max 0 ((en - st) / PAGE_SIZE)).
  assert (0 <= np < 2 ^ 40) by (unfold np, PAGE_SIZE; Z.div_mod_to_equations; lia).
  pose proof (memset_filled (um s) st 0 (Z.min np (Z.of_nat avail) * PAGE_SIZE)
    ltac:(unfold PAGE_SIZE; lia)) as Hfill.
  exists (memset (um s) st 0 (Z.min np (Z.of_nat avail) * PAGE_SIZE)).
  split; [intros x Hx; rewrite Hfill, bool_decide_eq_false_2 by lia; done|].
  destruct (Z.leb_spec np (Z.of_nat avail)); [left; split; [done|lia]|right; split; [done|right]].
  unfold np, PAGE_SIZE in *. Z.div_mod_to_equations. lia.
Qed.

Lemma u64_minus_1 : u64 (-1) = 18446744073709551615.
Proof. reflexivity. Qed.

Lemma request_spec avail s bl size : uheap_inv s bl -> 16 <= size < 2 ^ 39 ->
  let last := last_addr 0 (g_heap_base s) bl in
  exists m', (forall x, x < heap_end s -> ~ in_hdr (g_heap_base s) bl x -> get8 m' x = get8 (um s) x) /\
  ((request_space avail s last size = (heap_end s, USt m' (g_heap_base s) (heap_end s + META_SIZE + size)) /\
    seg m' (start (heap_end s) (g_heap_base s) bl) (bl ++ [(size, false)]) 0 /\
    heap_end s + META_SIZE + size <= USER_HEAP_MAX_LIMIT) \/
   (request_space avail s last size = (0, USt m' (g_heap_base s) (heap_end s)) /\
    seg m' (g_heap_base s) bl 0 /\ exhausted avail s (size + META_SIZE))).
Proof.
  intros [Hb He Hs Hz] Hsz last. unfold request_space.
  destruct (sbrk_spec avail s (size + META_SIZE) He) as (m1 & Hm1 & [[-> Hle]|[-> Hex]]);
    [unfold META_SIZE; lia| |].
  - assert (seg m1 (g_heap_base s) bl 0) as Hs1.
    { eapply seg_ext; [|exact Hs]. intros x Hh%in_hdr_range; [|done]. apply Hm1. destruct bl; simpl in Hb, Hh; lia. }
    assert ((heap_end s =? u64 (-1)) = false) as ->
      by (apply Z.eqb_neq; rewrite u64_minus_1; unfold USER_HEAP_MAX_LIMIT in *; lia).
    cbn [um g_heap_base heap_end]. unfold USER_HEAP_MAX_LIMIT in *. set (e := heap_end s) in *.
    set (m2 := b_set_magic _ _ _).
    assert (forall x, x < e -> get8 m2 x = get8 m1 x) as Hm2 by (intros x ?; unfold m2; by rd).
    assert (seg m2 e [(size, false)] 0) as Hnew.
    { unfold m2. split; [by rd|]. split; [by rd|]. split; [by rd|]. split; [by rd|exact I]. }
    eexists. split; [|left; split; [unfold META_SIZE; do 2 f_equal; lia|split; [|unfold META_SIZE in *; lia]]].
    + intros x Hx Hh. rewrite <- Hm1, <- Hm2 by done.
      destruct bl as [|[n f] bl _] using rev_ind; [reflexivity|].
      unfold last. rewrite last_addr_snoc. destruct (_ =? 0); [done|].
      rewrite in_hdr_app in Hh. cbn [in_hdr] in Hh. unfold META_SIZE in Hh. apply get8_store_out. lia.
    + destruct bl as [|[n f] bl _] using rev_ind; [exact Hnew|].
      assert (start e (g_heap_base s) (bl ++ [(n, f)]) = g_heap_base s) as -> by by destruct bl.
      assert (0 < g_heap_base s /\ end_of (g_heap_base s) (bl ++ [(n, f)]) = e) as [Hb0 Hbe] by by destruct bl.
      unfold last. rewrite last_addr_snoc. rewrite end_of_app in Hbe. cbn [end_of] in Hbe.
      apply Forall_app in Hz as [Hz [Hn16 _]%Forall_cons]. cbn [fst] in Hn16.
      pose proof (end_of_ge (g_heap_base s) bl Hz) as Hge. set (l := end_of (g_heap_base s) bl) in *.
      rewrite (proj2 (Z.eqb_neq l 0)) by lia.
      apply seg_app in Hs1 as [Hs1 (Hn & Hfr & Hmg & Hnx & _)]. fold l in Hs1, Hn, Hfr, Hmg, Hnx.
      assert (forall x, ~ l <= x < l + META_SIZE -> get8 (b_set_next m2 l e) x = get8 m2 x) as Hm3
        by (intros x ?; by rd).
      rewrite <- app_assoc. apply seg_app. fold l. split; [|cbn [app seg start]; split; [|split; [|split; [|split]]]].
      * eapply seg_ext; [|exact Hs1]. intros x Hh%in_hdr_range; [|done]. fold l in Hh.
        rewrite Hm3, Hm2; [done|unfold META_SIZE in *; lia|lia].
      * rewrite <- Hn. unfold m2. unfold META_SIZE in *. by rd.
      * rewrite <- Hfr. unfold m2. unfold META_SIZE in *. by rd.
      * rewrite <- Hmg. unfold m2. unfold META_SIZE in *. by rd.
      * rewrite Hbe. unfold META_SIZE in *. by rd.
      * rewrite Hbe. apply (seg_ext m2 _ e [(size, false)] 0); [|exact Hnew]. intros x [Hx|[]]. apply Hm3. lia.
  - rewrite Z.eqb_refl. exists m1. split; [intros; by apply Hm1|]. right. split; [done|]. split; [|done].
    eapply seg_ext; [|exact Hs]. intros x Hh%in_hdr_range; [|done]. apply Hm1. destruct bl; simpl in Hb, Hh; lia.
Qed.

(** *** The operations *)
Definition pay_kept p bl (m m' : mem) : Prop :=
  forall a n x, (a, n) ∈ live p bl -> a <= x < a + n -> get8 m' x = get8 m x.

Lemma live_below p bl a n x e : sizes_ok bl -> end_of p bl = e -> (a, n) ∈ live p bl -> a <= x < a + n -> x < e.
Proof. intros Hz <- Hin Hx. destruct (live_range _ _ _ _ Hz Hin) as (? & ? & ?). lia. Qed.

Lemma inv_end s bl : uheap_inv s bl -> bl <> [] -> 0 < g_heap_base s /\ end_of (g_heap_base s) bl = heap_end s.
Proof. intros [Hb _ _ _] Hne. by destruct bl. Qed.

(** The block [malloc] makes or takes. *)
Lemma taken_ok n size q : 16 <= size <= n -> sizes_ok (taken n size) /\ end_of q (taken n size) = q + META_SIZE + n /\
  exists k, size <= k /\ live q (taken n size) = [(q + META_SIZE, k)].
Proof.
  intros Hs. unfold taken. destruct (Z.leb_spec (size + META_SIZE + 16) n); unfold META_SIZE in *.
  - split; [repeat constructor; simpl; lia|]. split; [simpl; unfold META_SIZE; lia|]. exists size. split; [lia|done].
  - split; [repeat constructor; simpl; lia|]. split; [simpl; unfold META_SIZE; lia|]. exists n. split; [lia|done].
Qed.

Lemma malloc_hit s pre n post size : uheap_inv s (pre ++ (n, true) :: post) -> 16 <= size <= n ->
  let q := end_of (g_heap_base s) pre in
  let s' := USt (take_blk (um s) q size) (g_heap_base s) (heap_end s) in
  uheap_inv s' (pre ++ taken n size ++ post) /\
  pay_kept (g_heap_base s) (pre ++ (n, true) :: post) (um s) (um s').
Proof.
  intros Hinv Hsz q s'. destruct (inv_end _ _ Hinv) as [Hb0 Hbe]; [by destruct pre|].
  destruct Hinv as [_ He Hs Hz]. set (base := g_heap_base s) in *.
  apply seg_app in Hs as [Hs1 Hs2]. fold q in Hs1, Hs2.
  pose proof Hz as [Hz1 Hz2]%Forall_app. pose proof Hz2 as [Hn Hz3]%Forall_cons. cbn [fst] in Hn.
  pose proof (end_of_ge base pre Hz1) as Hge. fold q in Hge.
  rewrite end_of_app in Hbe. fold q in Hbe. unfold USER_HEAP_MAX_LIMIT in He.
  destruct (take_spec (um s) q n post 0 size) as [Hs2' Hk]; [done|done|done|lia|lia|].
  destruct (taken_ok n size q Hsz) as (Ht1 & Ht2 & _).
  split.
  - split; cbn [um g_heap_base heap_end s'].
    + assert (end_of base (pre ++ taken n size ++ post) = heap_end s) as Hend
        by (rewrite !end_of_app; fold q; by rewrite Ht2, <- Hbe).
      destruct (pre ++ taken n size ++ post) eqn:E; [|done].
      apply app_nil in E as [_ [E _]%app_nil]. unfold taken in E. by destruct (_ <=? _).
    + done.
    + apply seg_app. fold q base. split.
      * assert (start 0 q (taken n size ++ post) = q) as -> by (unfold taken; by destruct (_ <=? _)).
        eapply seg_ext; [|exact Hs1]. intros x Hh%in_hdr_range; [|done]. apply Hk. fold q in Hh. lia.
      * exact Hs2'.
    + apply Forall_app. split; [done|]. by apply Forall_app.
  - intros a k x Hin Hx. cbn [um s']. apply Hk. rewrite live_app in Hin. fold q in Hin.
    apply elem_of_app in Hin as [Hin|Hin].
    + apply live_range in Hin as (? & ? & ?); [|done]. assert (end_of base pre = q) by done. lia.
    + simpl in Hin. apply live_range in Hin as (? & ? & ?); [|done]. unfold META_SIZE in *. lia.
Qed.

Lemma malloc_grow avail s bl size : uheap_inv s bl -> 16 <= size < 2 ^ 39 ->
  let last := last_addr 0 (g_heap_base s) bl in
  exists s', pay_kept (g_heap_base s) bl (um s) (um s') /\
  ((request_space avail s last size = (heap_end s, s') /\
    uheap_inv (USt (um s') (start (heap_end s) (g_heap_base s) bl) (heap_end s')) (bl ++ [(size, false)]) /\
    (bl <> [] -> g_heap_base s' = g_heap_base s)) \/
   (request_space avail s last size = (0, s') /\ uheap_inv s' bl /\ g_heap_base s' = g_heap_base s /\
    exhausted avail s (size + META_SIZE))).
Proof.
  intros Hinv Hsz. cbv zeta. destruct (request_spec avail s bl size Hinv Hsz) as (m' & Hm & Hr).
  pose proof Hinv as [Hb He Hs Hz].
  assert (pay_kept (g_heap_base s) bl (um s) m') as Hk.
  { intros a n x Hin Hx. apply Hm; [|by eapply live_not_hdr]. destruct bl; [by apply elem_of_nil in Hin|].
    eapply live_below; [exact Hz|apply Hb|done|done]. }
  destruct Hr as [(-> & Hs' & Hle)|(-> & Hs' & Hex)].
  - exists (USt m' (g_heap_base s) (heap_end s + META_SIZE + size)). split; [exact Hk|]. left. split; [done|]. split; [|done]. split; cbn [um g_heap_base heap_end]; [| |exact Hs'|].
    + destruct bl as [|b bl]; [simpl; lia|]. destruct Hb as [Hb Hbe]. simpl start. simpl app.
      split; [done|]. rewrite app_comm_cons, end_of_app, Hbe. done.
    + unfold META_SIZE, USER_HEAP_MAX_LIMIT in *. lia.
    + apply Forall_app. split; [done|]. constructor; [simpl; lia|constructor].
  - exists (USt m' (g_heap_base s) (heap_end s)). split; [exact Hk|]. right.
    split; [done|]. split; [|done]. by split.
Qed.

Lemma malloc_spec fuel avail s bl size : uheap_inv s bl -> 0 < size < 2 ^ 38 -> (length bl < fuel)%nat ->
  exists r s' bl', malloc fuel avail s size = Some (r, s') /\ uheap_inv s' bl' /\
    pay_kept (g_heap_base s) bl (um s) (um s') /\ (length bl' <= S (length bl))%nat /\
    ((r = 0 /\ live (g_heap_base s') bl' = live (g_heap_base s) bl /\
      Forall (no_fit (round16 size)) bl /\ exhausted avail s (round16 size + META_SIZE)) \/
     (0 < r /\ exists n l1 l2, size <= n /\ live (g_heap_base s) bl = l1 ++ l2 /\
        live (g_heap_base s') bl' = l1 ++ (r, n) :: l2)).
Proof.
  intros Hinv Hs Hf. destruct (round16_spec size) as [Hr Hm16]; [lia|].
  assert (16 <= round16 size) by (Z.div_mod_to_equations; lia).
  unfold malloc. rewrite (proj2 (Z.eqb_neq size 0)) by lia.
  set (sz := round16 size) in *. pose proof Hinv as [Hb He Hsg Hz].
  destruct (malloc_grow avail s bl sz Hinv) as (s1 & Hk & Hg); [lia|].
  destruct bl as [|b bl].
  - rewrite Hb, Z.eqb_refl. cbn [last_addr] in Hg. rewrite Hb in Hg.
    destruct Hg as [(-> & Hi & _)|(-> & Hi & Hbs & Hex)].
    + rewrite (proj2 (Z.eqb_neq (heap_end s) 0)) by lia. eexists _, _, _. split; [done|].
      split; [exact Hi|]. split; [exact Hk|]. split; [simpl; lia|]. right. split; [unfold META_SIZE; lia|].
      exists sz, [], []. split; [lia|done].
    + cbn [Z.eqb]. exists 0, s1, []. split; [done|]. split; [exact Hi|]. split; [exact Hk|]. split; [simpl; lia|].
      left. repeat split; [constructor|exact Hex].
  - destruct Hb as [Hb Hbe]. rewrite (proj2 (Z.eqb_neq (g_heap_base s) 0)) by lia.
    destruct (find_spec (um s) (g_heap_base s) (g_heap_base s) (b :: bl) sz fuel)
      as [(pre & n & post & last' & E & Hn & Hpre & Hfind)|[Hall Hfind]]; try done.
    + cbn [start] in Hfind. rewrite Hfind. cbn [mbind option_bind]. rewrite E in *.
      pose proof Hz as [Hz1 _]%Forall_app. pose proof (end_of_ge (g_heap_base s) pre Hz1).
      rewrite (proj2 (Z.eqb_neq (end_of (g_heap_base s) pre) 0)) by lia.
      destruct (malloc_hit s pre n post sz Hinv) as [Hi Hk']; [lia|].
      destruct (taken_ok n sz (end_of (g_heap_base s) pre)) as (_ & Ht2 & k & Hk2 & Ht3); [lia|].
      eexists _, _, _. split; [done|]. split; [exact Hi|]. split; [exact Hk'|].
      split. { rewrite !length_app. unfold taken. destruct (_ <=? _); simpl; lia. }
      right. split; [unfold META_SIZE; lia|].
      eexists k, _, _. split; [lia|]. cbn [g_heap_base um]. rewrite !live_app, Ht2, Ht3. simpl. by split.
    + cbn [start] in Hfind. rewrite Hfind. cbn [mbind option_bind Z.eqb].
      assert (last_addr (g_heap_base s) (g_heap_base s) (b :: bl) = last_addr 0 (g_heap_base s) (b :: bl))
        as -> by by destruct b.
      destruct Hg as [(-> & Hi & Hbs)|(-> & Hi & Hbs & Hex)].
      * rewrite (proj2 (Z.eqb_neq (heap_end s) 0)) by lia. eexists _, _, _. split; [done|].
        rewrite <- Hbs in Hi by done. cbn [start] in Hi. destruct s1 as [m1 b1 e1]. cbn [um g_heap_base heap_end] in *.
        split; [exact Hi|]. split; [exact Hk|]. split; [rewrite length_app; simpl; lia|].
        right. split; [unfold META_SIZE; lia|]. exists sz, (live b1 (b :: bl)), []. split; [lia|].
        split; [by rewrite Hbs, app_nil_r by done|]. by rewrite live_app, Hbs, Hbe.
      * cbn [Z.eqb]. exists 0, s1, (b :: bl). split; [done|]. split; [exact Hi|]. split; [exact Hk|]. split; [lia|].
        left. rewrite Hbs. done.
Qed.

(** Setting the free flag of a block. *)
Lemma mark_free m p pre n post : seg m p (pre ++ (n, false) :: post) 0 -> sizes_ok (pre ++ (n, false) :: post) ->
  let q := end_of p pre in
  b_magic m q = HEAP_MAGIC /\ seg (b_set_free m q 1) p (pre ++ (n, true) :: post) 0 /\
  (forall x, ~ q <= x < q + META_SIZE -> get8 (b_set_free m q 1) x = get8 m x).
Proof.
  intros Hs Hz q. apply seg_app in Hs as [Hs1 (Hn & Hfr & Hmg & Hnx & Hs2)]. fold q in Hs1, Hn, Hfr, Hmg, Hnx, Hs2.
  apply Forall_app in Hz as [Hz1 [Hn16 Hz2]%Forall_cons]. cbn [fst] in Hn16.
  assert (forall x, ~ q <= x < q + META_SIZE -> get8 (b_set_free m q 1) x = get8 m x) as Hm0 by (intros x ?; by rd).
  split; [done|]. split; [|done]. apply seg_app. fold q. split.
  - eapply seg_ext; [|exact Hs1]. intros x Hh%in_hdr_range; [|done]. fold q in Hh. apply Hm0. lia.
  - split; [rewrite <- Hn; by rd|]. split; [by rd|]. split; [rewrite <- Hmg; by rd|].
    split; [rewrite <- Hnx; by rd|]. eapply seg_ext; [|exact Hs2].
    intros x Hh%in_hdr_range; [|done]. apply Hm0. lia.
Qed.

Lemma free_spec fuel s bl l1 ptr n l2 : uheap_inv s bl -> live (g_heap_base s) bl = l1 ++ (ptr, n) :: l2 ->
  (length bl < fuel)%nat ->
  exists s' bl', free fuel s ptr = Some s' /\ uheap_inv s' bl' /\ merged bl' /\ g_heap_base s' = g_heap_base s /\
    live (g_heap_base s) bl' = l1 ++ l2 /\ pay_kept (g_heap_base s) bl (um s) (um s').
Proof.
  intros Hinv Hl Hf. destruct (live_split _ _ _ _ _ _ Hl) as (pre & post & -> & -> & <- & <-).
  set (base := g_heap_base s) in *. set (q := end_of base pre) in *.
  destruct (inv_end _ _ Hinv) as [Hb0 Hbe]; [by destruct pre|].
  destruct Hinv as [_ He Hs Hz]. fold base in Hs, Hb0, Hbe.
  destruct (mark_free (um s) base pre n post Hs Hz) as (Hmg & Hs0 & Hm0). fold q in Hmg, Hs0, Hm0.
  pose proof Hz as [Hz1 [Hn16 Hz2]%Forall_cons]%Forall_app. cbn [fst] in Hn16.
  pose proof (end_of_ge base pre Hz1) as Hge. fold q in Hge.
  unfold free. rewrite (proj2 (Z.eqb_neq (q + META_SIZE) 0)) by (unfold META_SIZE; lia).
  replace (q + META_SIZE - META_SIZE) with q by lia. rewrite Hmg, Z.eqb_refl. cbn [negb].
  set (m0 := b_set_free (um s) q 1) in *.
  assert (sizes_ok (pre ++ (n, true) :: post)) as Hz0 by (apply Forall_app; split; [done|by constructor]).
  assert (end_of base (pre ++ (n, true) :: post) = heap_end s) as Hbe0 by (rewrite <- Hbe, !end_of_app; done).
  assert (live base (pre ++ (n, true) :: post) = live base pre ++ live (q + META_SIZE + n) post) as Hl0
    by by rewrite live_app.
  assert (forall x, in_hdr base (pre ++ (n, true) :: post) x <-> in_hdr base (pre ++ (n, false) :: post) x) as Hh0
    by (intros x; by rewrite !in_hdr_app).
  assert (length (pre ++ (n, true) :: post) = length (pre ++ (n, false) :: post)) as Hlen by (rewrite !length_app; done).
  rewrite <- Hlen in Hf. assert (pre ++ (n, true) :: post <> []) as Hne by by destruct pre.
  destruct (pre ++ (n, true) :: post) as [|[n0 f0] r0] eqn:E0; [done|].
  destruct (coalesce_loop r0 m0 base n0 f0 fuel) as (m' & Hloop & Hs' & Hm');
    [done|done|done|unfold USER_HEAP_MAX_LIMIT in He; lia|simpl in Hf; lia|].
  fold base. rewrite Hloop. cbn [mbind option_bind].
  exists (USt m' base (heap_end s)), (coalesce_from n0 f0 r0). split; [done|].
  rewrite coalesce_live, Hl0. split; [|split; [apply coalesce_merged|split; [done|split; [done|]]]].
  - split; cbn [um g_heap_base heap_end]; [|done|done|by apply coalesce_sizes].
    pose proof (coalesce_end n0 f0 r0 base) as Hce. rewrite Hbe0 in Hce.
    destruct (coalesce_head n0 f0 r0) as (k & r & Hk). rewrite Hk in *. done.
  - intros a k x Hin Hx. cbn [um]. pose proof (live_not_hdr _ _ _ _ x Hz Hin Hx) as Hnh.
    rewrite Hm' by by rewrite Hh0. apply Hm0. intros Hq. apply Hnh. rewrite in_hdr_app. right. left. exact Hq.
Qed.

Lemma live_disjoint p bl l1 a n l2 b k : sizes_ok bl -> live p bl = l1 ++ (a, n) :: l2 -> (b, k) ∈ l1 ++ l2 ->
  a + n <= b \/ b + k <= a.
Proof.
  intros Hz Hl Hin. destruct (live_split _ _ _ _ _ _ Hl) as (pre & post & -> & -> & <- & <-).
  apply Forall_app in Hz as [Hz1 [Hn Hz2]%Forall_cons]. cbn [fst] in Hn. unfold META_SIZE in *.
  apply elem_of_app in Hin as [Hin|Hin]; apply live_range in Hin as (? & ? & ?); try done; unfold META_SIZE in *; lia.
Qed.

Lemma live_size m p bl nxt a n : seg m p bl nxt -> (a, n) ∈ live p bl -> b_size m (a - META_SIZE) = n.
Proof.
  intros Hs (l1 & l2 & Hl)%list_elem_of_split. destruct (live_split _ _ _ _ _ _ Hl) as (pre & post & -> & -> & _ & _).
  apply seg_app in Hs as [_ (Hn & _)]. by replace (end_of p pre + META_SIZE - META_SIZE) with (end_of p pre) by lia.
Qed.

Lemma in_app_mid {A} (x y : A) l1 l2 : x ∈ l1 ++ l2 -> x ∈ l1 ++ y :: l2.
Proof. rewrite !elem_of_app, elem_of_cons. tauto. Qed.

(** Writing a payload in use keeps the blocks. *)
Lemma write_payload s bl a n m' : uheap_inv s bl -> (a, n) ∈ live (g_heap_base s) bl ->
  (forall x, ~ a <= x < a + n -> get8 m' x = get8 (um s) x) -> uheap_inv (USt m' (g_heap_base s) (heap_end s)) bl.
Proof.
  intros [Hb He Hs Hz] Hin Hm. split; try done. cbn [um g_heap_base]. eapply seg_ext; [|exact Hs].
  intros x Hh. apply Hm. intros Hx. by eapply live_not_hdr.
Qed.

(** C12: The library's [malloc] terminates; it returns NULL only when no free block is
    large enough and the kernel cannot grow the heap, and otherwise a payload of at
    least the requested size, inside the heap, that overlaps no payload in use; the
    payloads in use stay in use with their bytes, and the block list stays
    well formed (blocks adjacent, headers intact, ending at the program break). *)
Theorem malloc_correct fuel avail s bl size : uheap_inv s bl -> 0 < size < 2 ^ 38 -> (length bl < fuel)%nat ->
  exists r s' bl', malloc fuel avail s size = Some (r, s') /\ uheap_inv s' bl' /\
    pay_kept (g_heap_base s) bl (um s) (um s') /\
    ((r = 0 /\ live (g_heap_base s') bl' = live (g_heap_base s) bl /\
      Forall (no_fit (round16 size)) bl /\ exhausted avail s (round16 size + META_SIZE)) \/
     (0 < r /\ exists n l1 l2, size <= n /\ live (g_heap_base s) bl = l1 ++ l2 /\
        live (g_heap_base s') bl' = l1 ++ (r, n) :: l2 /\ r + n <= heap_end s' /\
        forall b k, (b, k) ∈ live (g_heap_base s) bl -> r + n <= b \/ b + k <= r)).
Proof.
  intros Hinv Hs Hf. destruct (malloc_spec fuel avail s bl size Hinv Hs Hf) as (r & s' & bl' & H1 & H2 & H3 & _ & H4).
  exists r, s', bl'. split; [done|]. split; [done|]. split; [done|].
  destruct H4 as [?|(Hr & n & l1 & l2 & Hn & Hl & Hl')]; [by left|right]. split; [done|].
  exists n, l1, l2. split; [done|]. split; [done|]. split; [done|].
  pose proof (ui_sizes _ _ H2) as Hz. split.
  - assert ((r, n) ∈ live (g_heap_base s') bl') as Hin by (rewrite Hl'; apply elem_of_app; right; by left).
    destruct (live_range _ _ _ _ Hz Hin) as (_ & _ & ?). destruct bl'; [by apply elem_of_nil in Hin|].
    destruct (inv_end _ _ H2) as [_ ?]; [done|lia].
  - intros b k Hin. rewrite Hl in Hin. by eapply live_disjoint.
Qed.

(** C13: [free] of a payload in use terminates, takes exactly that payload out of use,
    leaves no two neighbouring free blocks, and keeps the bytes of every payload
    that was in use and the block list well formed. *)
Theorem free_correct fuel s bl l1 ptr n l2 : uheap_inv s bl ->
  live (g_heap_base s) bl = l1 ++ (ptr, n) :: l2 -> (length bl < fuel)%nat ->
  exists s' bl', free fuel s ptr = Some s' /\ uheap_inv s' bl' /\ merged bl' /\
    live (g_heap_base s') bl' = l1 ++ l2 /\ pay_kept (g_heap_base s) bl (um s) (um s').
Proof.
  intros Hi Hl Hf. destruct (free_spec fuel s bl l1 ptr n l2 Hi Hl Hf) as (s' & bl' & H1 & H2 & H3 & H4 & H5 & H6).
  exists s', bl'. by rewrite H4.
Qed.

(** [realloc] of a payload in use terminates; when it fails nothing changes for
    the caller, and otherwise the payload it returns has the requested size, starts
    with all bytes of the old one, and replaces it among the payloads in use, the
    others keeping their bytes. *)
Theorem realloc_correct fuel avail s bl l1 ptr n l2 size : uheap_inv s bl ->
  live (g_heap_base s) bl = l1 ++ (ptr, n) :: l2 -> 0 < size < 2 ^ 38 -> (S (length bl) < fuel)%nat ->
  exists r s' bl', realloc fuel avail s ptr size = Some (r, s') /\ uheap_inv s' bl' /\
    ((r = 0 /\ live (g_heap_base s') bl' = live (g_heap_base s) bl /\ pay_kept (g_heap_base s) bl (um s) (um s')) \/
     (0 < r /\ exists n', size <= n' /\ live (g_heap_base s') bl' ≡ₚ (r, n') :: l1 ++ l2 /\
        (forall i, 0 <= i < n -> get8 (um s') (r + i) = get8 (um s) (ptr + i)) /\
        forall b k x, (b, k) ∈ l1 ++ l2 -> b <= x < b + k -> get8 (um s') x = get8 (um s) x)).
Proof.
  intros Hinv Hl Hs Hf. pose proof (ui_sizes _ _ Hinv) as Hz.
  assert ((ptr, n) ∈ live (g_heap_base s) bl) as Hin by (rewrite Hl; apply elem_of_app; right; by left).
  destruct (live_range _ _ _ _ Hz Hin) as (Hp & Hn & Hpe).
  destruct (inv_end _ _ Hinv) as [Hb0 Hbe]; [by intros ->; apply elem_of_nil in Hin|].
  unfold realloc. rewrite (proj2 (Z.eqb_neq ptr 0)), (proj2 (Z.eqb_neq size 0)) by (unfold META_SIZE in *; lia).
  rewrite (live_size _ _ _ _ _ _ (ui_seg _ _ Hinv) Hin). destruct (Z.leb_spec size n) as [Hle|Hgt].
  { exists ptr, s, bl. split; [done|]. split; [done|]. right. split; [unfold META_SIZE in *; lia|]. exists n. split; [done|].
    split; [rewrite Hl; symmetry; apply Permutation_middle|done]. }
  destruct (malloc_spec fuel avail s bl size Hinv Hs) as (r & s1 & bl1 & -> & Hi1 & Hk1 & Hlen & Hr); [lia|].
  cbn [mbind option_bind]. destruct Hr as [(-> & Hl1 & _)|(Hr0 & n' & j1 & j2 & Hn' & Hj & Hj')].
  { cbn [Z.eqb]. exists 0, s1, bl1. split; [done|]. split; [done|]. by left. }
  rewrite (proj2 (Z.eqb_neq r 0)) by lia. pose proof (ui_sizes _ _ Hi1) as Hz1.
  assert (forall b k, (b, k) ∈ live (g_heap_base s) bl -> (b, k) ∈ live (g_heap_base s1) bl1 /\ (r + n' <= b \/ b + k <= r)) as Hold.
  { intros b k Hb. rewrite Hj in Hb. split; [rewrite Hj'; by apply in_app_mid|by eapply live_disjoint]. }
  destruct (Hold _ _ Hin) as [Hin1 Hd].
  rewrite (live_size _ _ _ _ _ _ (ui_seg _ _ Hi1) Hin1).
  destruct (memcpy_sse_run_spec (um s1) r ptr n) as (m2 & -> & Hcp);
    [unfold forward_ok; lia|unfold USER_HEAP_MAX_LIMIT, META_SIZE in *; pose proof (ui_end _ _ Hinv); unfold USER_HEAP_MAX_LIMIT in *; lia|].
  cbn [mbind option_bind].
  assert ((r, n') ∈ live (g_heap_base s1) bl1) as Hinr by (rewrite Hj'; apply elem_of_app; right; by left).
  assert (uheap_inv (USt m2 (g_heap_base s1) (heap_end s1)) bl1) as Hi2.
  { apply (write_payload _ _ r n'); [done|done|]. intros x Hx. rewrite Hcp, bool_decide_eq_false_2 by lia. done. }
  destruct (list_elem_of_split _ _ Hin1) as (k1 & k2 & Hk).
  destruct (free_spec fuel _ bl1 k1 ptr n k2 Hi2 Hk) as (s3 & bl3 & -> & Hi3 & _ & Hb3 & Hl3 & Hk3); [lia|].
  cbn [mbind option_bind um g_heap_base] in *. exists r, s3, bl3. split; [done|]. split; [done|]. right. split; [lia|].
  exists n'. split; [lia|]. rewrite Hb3, Hl3. split; [|split].
  - apply (Permutation_cons_inv (a := (ptr, n))). rewrite Permutation_middle, <- Hk, Hj', <- Permutation_middle, <- Hj, Hl.
    rewrite <- Permutation_middle. apply Permutation_swap.
  - intros i Hi. rewrite (Hk3 _ _ _ Hinr) by lia. rewrite Hcp, bool_decide_eq_true_2 by lia.
    replace (ptr + (r + i - r)) with (ptr + i) by lia. apply (Hk1 _ _ _ Hin). lia.
  - intros b k x Hb Hx. assert ((b, k) ∈ live (g_heap_base s) bl) as Hb' by (rewrite Hl; by apply in_app_mid).
    destruct (Hold _ _ Hb') as [Hb1 Hdb]. rewrite (Hk3 _ _ _ Hb1 Hx), Hcp, bool_decide_eq_false_2 by lia.
    by apply (Hk1 _ _ _ Hb').
Qed.
End Operations.

(** ** A concrete heap *)
Definition demo_user : ust := USt ∅ 0 0x40000000.

Lemma demo_user_inv : uheap_inv demo_user [].
Proof. split; [done|unfold USER_HEAP_MAX_LIMIT; simpl; lia|done|constructor]. Qed.

Lemma malloc_correct_witness : exists s',
  malloc 1 1 demo_user 20 = Some (0x40000018, s') /\ exists bl, uheap_inv s' bl.
Proof.
  assert (match malloc 1 1 demo_user 20 with Some (p, _) => p = 0x40000018 | None => False end) as Hv
    by (vm_compute; reflexivity).
  destruct (malloc_correct 1 1 demo_user [] 20 demo_user_inv) as (r & s' & bl' & Hm & Hi & _).
  - lia.
  - simpl. lia.
  - rewrite Hm in Hv. subst r. exists s'. split; [exact Hm|]. exists bl'. exact Hi.
Defined.

(** Two blocks, the second in use. *)
Definition demo_user2 : ust :=
  let hdr m b n nxt f := b_set_magic (b_set_free (b_set_next (b_set_size m b n) b nxt) b f) b HEAP_MAGIC in
  USt (hdr (hdr ∅ 0x1000 16 0x1028 1) 0x1028 32 0 0) 0x1000 0x1060.

Lemma demo_user2_inv : uheap_inv demo_user2 [(16, true); (32, false)].
Proof.
  split; [split; [|vm_compute]; reflexivity|unfold USER_HEAP_MAX_LIMIT; simpl; lia| |].
  - repeat split.
  - repeat constructor; simpl; lia.
Qed.

Lemma free_correct_witness : exists s' bl', free 3 demo_user2 0x1040 = Some s' /\ uheap_inv s' bl' /\ merged bl' /\
  live (g_heap_base s') bl' = [].
Proof.
  destruct (free_correct 3 demo_user2 _ [] 0x1040 32 [] demo_user2_inv) as (s' & bl' & H1 & H2 & H3 & H4 & _).
  - vm_compute. reflexivity.
  - simpl. lia.
  - exists s', bl'. split; [exact H1|]. split; [exact H2|]. split; [exact H3|exact H4].
Defined.

Lemma realloc_correct_witness : exists r s' bl', realloc 4 1 demo_user2 0x1040 64 = Some (r, s') /\ uheap_inv s' bl'.
Proof.
  destruct (realloc_correct 4 1 demo_user2 _ [] 0x1040 32 [] 64 demo_user2_inv) as (r & s' & bl' & H1 & H2 & _).
  - vm_compute. reflexivity.
  - lia.
  - simpl. lia.
  - exists r, s', bl'. split; [exact H1|exact H2].
Defined.
