(* ===== verification/UserLibc.v ===== *)
(** The string and memory functions of the C library, [src/src/libc/libc.c].

    Except for [strchr], each is the text of a function of [src/src/string.c]
    again: the memory functions of the kernel's SSE variants, under the plain
    names, and the string functions.  They are given here as those definitions,
    and the theorems relate them to the kernel's scalar versions. *)
From S2P Require Import Prelude Machine StringLib CString.

Module libc.
Definition memcpy : mem -> Z -> Z -> Z -> option mem := memcpy_sse_run.
Definition memset : mem -> Z -> Z -> Z -> option mem := memset_sse_run.
Definition memmove : mem -> Z -> Z -> Z -> option mem := memmove_sse_run.
Definition memcmp : mem -> Z -> Z -> Z -> option Z := memcmp_sse_run.
Definition strlen : nat -> mem -> Z -> option Z := CString.strlen.
Definition strcpy : nat -> mem -> Z -> Z -> option mem := CString.strcpy.
Definition strncpy : mem -> Z -> Z -> Z -> mem := CString.strncpy.
Definition strncmp : nat -> mem -> Z -> Z -> Z -> option Z := CString.strncmp.
Definition strcmp : nat -> mem -> Z -> Z -> option Z := CString.strcmp.
Definition strstr : nat -> mem -> Z -> Z -> option (option Z) := CString.strstr.

(** Here the terminator is never a match. *)
Definition strchr_step (m : mem) (needle : Z) (haystack : Z) : Z + option Z :=
  if negb (get8 m haystack =? 0) then
    if get8 m haystack =? needle then inr (Some haystack) else inl (haystack + 1)
  else inr None.
Definition strchr (fuel : nat) (m : mem) (haystack needle : Z) : option (option Z) :=
  loop fuel (strchr_step m needle) haystack.

(** [rand_next] is an [unsigned long int]. *)
Definition srand (seed : Z) : Z := u32 seed.
Definition rand (rand_next : Z) : Z * Z :=
  let rand_next := u64 (rand_next * 1103515245 + 12345) in
  (u32 (rand_next / 65536) mod 32768, rand_next).
End libc.

Section Library.
Implicit Types (m : mem).

Lemma copied_equiv m dest src n m1 m2 : copied m dest src n m1 -> copied m dest src n m2 -> m1 ≡ m2.
Proof. intros H1 H2 a. by rewrite H1, H2. Qed.

(** The library's [memcpy], [memset] and [memmove] leave the same memory as the
    kernel's scalar versions, for every alignment and length; for [memcpy] the
    regions must not overlap in the direction it copies. *)
Theorem libc_memory_equiv m dest src c n : 0 <= n < 2 ^ 63 ->
  (forward_ok dest src n -> exists m1 m2, libc.memcpy m dest src n = Some m1 /\ memcpy_run m dest src n = Some m2 /\ m1 ≡ m2) /\
  (exists m1 m2, libc.memset m dest c n = Some m1 /\ memset_run m dest c n = Some m2 /\ m1 ≡ m2) /\
  (exists m1 m2, libc.memmove m dest src n = Some m1 /\ memmove_run m dest src n = Some m2 /\ m1 ≡ m2).
Proof.
  intros Hn. split; [|split].
  - intros Hov. destruct (memcpy_sse_run_spec m dest src n Hov Hn) as (m1 & E1 & H1).
    destruct (memcpy_run_spec m dest src n Hov Hn) as (m2 & E2 & H2).
    exists m1, m2. split; [done|]. split; [done|]. by eapply copied_equiv.
  - destruct (memset_sse_run_spec m dest c n Hn) as (m1 & E1 & H1).
    destruct (memset_run_spec m dest c n Hn) as (m2 & E2 & H2).
    exists m1, m2. split; [done|]. split; [done|]. intros a. by rewrite H1, H2.
  - destruct (memmove_sse_run_spec m dest src n Hn) as (m1 & E1 & H1).
    destruct (memmove_run_spec m dest src n Hn) as (m2 & E2 & H2).
    exists m1, m2. split; [done|]. split; [done|]. by eapply copied_equiv.
Qed.

Lemma libc_strchr_spec fuel m p c l : cstr m p l -> (length l < fuel)%nat ->
  libc.strchr fuel m p c = Some (Z.add p <$> index_of c l).
Proof.
  unfold libc.strchr. revert fuel p. induction l as [|x l IH]; intros [|f] p H Hf; simpl in *; try lia.
  - unfold libc.strchr_step. by rewrite H.
  - destruct H as (Hx & Hp & Hl). unfold libc.strchr_step at 1. rewrite Hp, (proj2 (Z.eqb_neq _ _) Hx). simpl.
    destruct (Z.eqb_spec x c) as [->|]; [simpl; by rewrite Z.add_0_r|].
    rewrite IH by (done || lia). f_equal. destruct (index_of c l); simpl; [f_equal; lia|done].
Qed.

Lemma index_of_0 m p l : cstr m p l -> index_of 0 l = None.
Proof.
  revert p. induction l as [|x l IH]; intros p; [done|]. simpl. intros (Hx & _ & Hl).
  rewrite (proj2 (Z.eqb_neq x 0)) by done. by rewrite (IH _ Hl).
Qed.

(** The library's [strchr] agrees with the kernel's on every character but the
    terminator: there the kernel's returns the end of the string and the library's
    returns NULL. *)
Theorem libc_strchr_nul fuel m p c l : cstr m p l -> (length l < fuel)%nat ->
  libc.strchr fuel m p 0 = Some None /\ CString.strchr fuel m p 0 = Some (Some (p + Z.of_nat (length l))) /\
  (c <> 0 -> libc.strchr fuel m p c = CString.strchr fuel m p c).
Proof.
  intros Hs Hf. rewrite !(libc_strchr_spec fuel m p _ l), !(strchr_spec fuel m p _ l) by done.
  rewrite (index_of_0 m p l) by done. split; [done|]. split; [done|].
  intros Hc. by rewrite (proj2 (Z.eqb_neq c 0)).
Qed.
End Library.

Lemma libc_memory_equiv_witness : exists m1 m2,
  libc.memcpy (<[1000 := 7]> ∅) 2003 1000 90 = Some m1 /\ memcpy_run (<[1000 := 7]> ∅) 2003 1000 90 = Some m2 /\ m1 ≡ m2.
Proof.
  destruct (libc_memory_equiv (<[1000 := 7]> ∅) 2003 1000 0 90) as [H _].
  - lia.
  - apply H. unfold forward_ok. lia.
Defined.

Lemma libc_strchr_nul_witness :
  libc.strchr 4 (<[500 := 65]> (<[501 := 66]> ∅)) 500 0 = Some None /\
  CString.strchr 4 (<[500 := 65]> (<[501 := 66]> ∅)) 500 0 = Some (Some 502).
Proof.
  destruct (libc_strchr_nul 4 (<[500 := 65]> (<[501 := 66]> ∅)) 500 65 [65; 66]) as (H1 & H2 & _).
  - repeat split; (discriminate || reflexivity).
  - simpl. lia.
  - split; [exact H1|exact H2].
Defined.
