(* ===== verification/Tar.v ===== *)
(** The tar file system of the boot archive, [src/src/fs/tar.c] and
    [src/src/fs/tar_fs.c].

    The archive lies in memory: headers of 512 bytes, each followed by the
    contents of its file rounded up to 512.  The loops over headers take fuel, one
    unit a header.  The name of a header is the C string in its 100-byte field;
    [None] is also a name that has no terminator there, where the string
    functions would read on into the next field.  A node is what the code stores
    in a [vfs_node_t]: the address of its header is the [device_data]. *)
From S2P Require Import Prelude Machine StringLib CString Vfs.

Definition VFS_FILE : Z := 1.

(** The offsets of the fields of [tar_header_t]. *)
Definition NAME_LEN : nat := 100.
Definition SIZE_OFF : Z := 124.
Definition TYPEFLAG_OFF : Z := 156.
Definition MAGIC_OFF : Z := 257.

Section Tar.
Implicit Types (m : mem) (a : Z) (l name : list Z).

(** The digits from [str] on, at most [n]; [acc] is the number so far. *)
Fixpoint oct2bin_loop m (str : Z) (n : nat) (acc : Z) : Z :=
  match n with
  | O => acc
  | S n =>
      let c := get8 m str in
      if (c <? 48) || (55 <? c) then acc else oct2bin_loop m (str + 1) n (u64 (acc * 8 + (c - 48)))
  end.
Definition oct2bin m (str : Z) (n : nat) : Z := oct2bin_loop m str n 0.

Definition tar_validate m (header : Z) : bool :=
  (get8 m (header + MAGIC_OFF) =? 117) && (get8 m (header + MAGIC_OFF + 1) =? 115) &&
  (get8 m (header + MAGIC_OFF + 2) =? 116) && (get8 m (header + MAGIC_OFF + 3) =? 97) &&
  (get8 m (header + MAGIC_OFF + 4) =? 114).

Fixpoint read_cstr (n : nat) m a : option (list Z) :=
  match n with
  | O => None
  | S n => if get8 m a =? 0 then Some [] else (cons (get8 m a)) <$> read_cstr n m (a + 1)
  end.
Definition hdr_name m (hdr : Z) : option (list Z) := read_cstr NAME_LEN m hdr.
Definition hdr_size m (hdr : Z) : Z := oct2bin m (hdr + SIZE_OFF) 11.
Definition next_hdr m (hdr : Z) : Z := u64 (hdr + 512 + u64 (hdr_size m hdr + 511) / 512 * 512).

(** A file by its path: the address of its contents, 0 for NULL. *)
Fixpoint read_file_loop (fuel : nat) m (hdr : Z) (search_name : list Z) : option Z :=
  match fuel with
  | O => None
  | S fuel =>
      if negb (tar_validate m hdr) then Some 0
      else
        name ← hdr_name m hdr;
        if decide (name = search_name) then Some (u64 (hdr + 512))
        else read_file_loop fuel m (next_hdr m hdr) search_name
  end.
Definition tar_read_file (fuel : nat) m (g_tar_addr : Z) (fname : list Z) : option Z :=
  if g_tar_addr =? 0 then Some 0
  else read_file_loop fuel m g_tar_addr
         (match fname with c :: l => if c =? SLASH then l else fname | [] => [] end).

(** The bytes stored at [list]: names with their terminators, then a NUL. *)
Fixpoint tar_list_loop (fuel : nat) m (hdr curr_len max_len : Z) : option (list Z) :=
  match fuel with
  | O => None
  | S fuel =>
      if negb (tar_validate m hdr) then Some [0]
      else
        name ← hdr_name m hdr;
        let len := Z.of_nat (length name) + 1 in
        if max_len <=? u64 (curr_len + len) then Some [0]
        else rest ← tar_list_loop fuel m (next_hdr m hdr) (curr_len + len) max_len; Some (name ++ 0 :: rest)
  end.
Definition tar_list (fuel : nat) m (g_tar_addr max_len : Z) : option (list Z) :=
  if g_tar_addr =? 0 then Some [] else tar_list_loop fuel m g_tar_addr 0 max_len.

(** *** Nodes *)
Record tnode := TNode { tn_name : list Z; tn_flags : Z; tn_length : Z; tn_data : Z }.

(** [device_data] of the root is [g_tar_root_path], the empty string; that of
    another node is its header, which starts with its name. *)
Definition tar_root (root_path : Z) : tnode := TNode [SLASH] VFS_DIRECTORY 0 root_path.

Definition is_dir_hdr m (hdr : Z) name : bool :=
  (get8 m (hdr + TYPEFLAG_OFF) =? 53) || (default 0 (last name) =? SLASH).

(** The bytes copied to the buffer. *)
Definition tar_vfs_read m (node : tnode) (offset size : Z) : list Z :=
  if negb (Z.land (tn_flags node) VFS_DIRECTORY =? 0) then []
  else if tn_length node <=? offset then []
  else
    let size := if tn_length node <? u64 (offset + size) then tn_length node - offset else size in
    (fun i => get8 m (tn_data node + 512 + offset + Z.of_nat i)) <$> seq 0 (Z.to_nat size).

(** [strcmp], or [strncmp] of the length of the path and then a final slash. *)
Definition path_matches name (search_path : list Z) : bool :=
  let len := length search_path in
  if decide (name = search_path) then true
  else bool_decide (take len name = take len search_path) && (default 0 (name !! len) =? SLASH) &&
       (default 0 (name !! S len) =? 0).

Fixpoint finddir_loop (fuel : nat) m (iter : Z) (search_path : list Z) : option Z :=
  match fuel with
  | O => None
  | S fuel =>
      if negb (tar_validate m iter) then Some 0
      else
        name ← hdr_name m iter;
        if path_matches name search_path then Some iter
        else finddir_loop fuel m (next_hdr m iter) search_path
  end.

(** [search_path] has 256 bytes.  The outer [None] is a failure, the inner NULL. *)
Definition tar_vfs_finddir (fuel : nat) m (base : Z) (parent_path name : list Z) : option (option tnode) :=
  let search_path := parent_path ++ name in
  if (255 <? length search_path)%nat then None
  else if base =? 0 then Some None
  else
    iter ← finddir_loop fuel m base search_path;
    if iter =? 0 then Some None
    else if (128 <=? length name)%nat then Some None
    else
      iname ← hdr_name m iter;
      Some (Some (TNode name (if is_dir_hdr m iter iname then VFS_DIRECTORY else VFS_FILE) (hdr_size m iter) iter)).

Record dirent := Dirent { d_name : list Z; d_type : Z; d_size : Z }.

(** Whether the header is an entry of the directory: the three [continue]s. *)
Definition is_child (dir_path name : list Z) : bool :=
  let dir_len := length dir_path in
  if decide (take dir_len name <> take dir_len dir_path) then false
  else
    let suffix := drop dir_len name in
    if decide (suffix = []) then false
    else match list_find (fun c => c = SLASH) suffix with
         | Some (i, _) => bool_decide (drop (S i) suffix = [])
         | None => true
         end.

Definition make_dirent m (header : Z) name (dir_len : nat) : dirent :=
  let suffix := drop dir_len name in
  if is_dir_hdr m header name then
    Dirent (if default 0 (last suffix) =? SLASH then removelast suffix else suffix) VFS_DIRECTORY (hdr_size m header)
  else Dirent suffix VFS_FILE (hdr_size m header).

Fixpoint readdir_loop (fuel : nat) m (header : Z) (dir_path : list Z) (curr_idx idx : Z) : option (option dirent) :=
  match fuel with
  | O => None
  | S fuel =>
      if get8 m header =? 0 then Some None
      else
        name ← hdr_name m header;
        if negb (is_child dir_path name) then readdir_loop fuel m (next_hdr m header) dir_path curr_idx idx
        else if curr_idx =? idx then Some (Some (make_dirent m header name (length dir_path)))
        else readdir_loop fuel m (next_hdr m header) dir_path (u32 (curr_idx + 1)) idx
  end.
Definition tar_vfs_readdir (fuel : nat) m (base : Z) (dir_path : list Z) (idx : Z) : option (option dirent) :=
  if base =? 0 then Some None else readdir_loop fuel m base dir_path 0 idx.
End Tar.

(** ** Archives *)
Record tentry := TEntry { te_addr : Z; te_name : list Z }.

(** The headers from [a] on, up to a zeroed one. *)
Inductive archive (m : mem) : Z -> list tentry -> Prop :=
  | ArEnd a : tar_validate m a = false -> get8 m a = 0 -> archive m a []
  | ArCons a name es : a <> 0 -> tar_validate m a = true -> hdr_name m a = Some name -> name <> [] ->
      archive m (next_hdr m a) es -> archive m a (TEntry a name :: es).

(** A name without the slash that ends the name of a directory. *)
Definition canon (name : list Z) : list Z := if default 0 (last name) =? SLASH then removelast name else name.

Section Archive.
Implicit Types (m : mem) (a : Z) (name dir c : list Z) (es : list tentry) (e : tentry).

Lemma read_cstr_spec n m a name : read_cstr n m a = Some name ->
  (length name < n)%nat /\ Forall (fun x => x <> 0) name /\ (name <> [] -> get8 m a <> 0).
Proof.
  revert a name. induction n as [|n IH]; intros a name; cbn; [done|].
  destruct (Z.eqb_spec (get8 m a) 0) as [E|E]; [intros [= <-]; simpl; split_and!; [lia|done|done]|].
  destruct (read_cstr n m (a + 1)) as [l|] eqn:El; [|done]. intros [= <-]. destruct (IH _ _ El) as (Hl & Hz & _).
  split_and!; [simpl; lia|by constructor|done].
Qed.

Lemma archive_entry m a es e : archive m a es -> e ∈ es ->
  te_addr e <> 0 /\ hdr_name m (te_addr e) = Some (te_name e) /\ te_name e <> [] /\ (length (te_name e) < 100)%nat /\
  Forall (fun x => x <> 0) (te_name e).
Proof.
  intros Ha. induction Ha as [|a name es H0 Hv Hn Hne _ IH]; [by intros ?%not_elem_of_nil|].
  intros [->|He]%elem_of_cons; [|by apply IH]. destruct (read_cstr_spec _ _ _ _ Hn) as (Hl & Hz & _). done.
Qed.

Lemma finddir_spec fuel m a es sp : archive m a es -> (length es < fuel)%nat ->
  finddir_loop fuel m a sp = Some (match list_find (fun e => path_matches (te_name e) sp = true) es with
                                   | Some (_, e) => te_addr e | None => 0 end).
Proof.
  intros Ha. revert fuel. induction Ha as [a Hv _|a name es H0 Hv Hn Hne _ IH]; intros [|fuel] Hf; simpl in Hf; try lia; cbn [finddir_loop].
  - by rewrite Hv.
  - rewrite Hv, Hn. cbn [negb mbind option_bind list_find te_name]. destruct (path_matches name sp) eqn:Em.
    + by rewrite decide_True.
    + rewrite decide_False by congruence. rewrite IH by lia. destruct (list_find _ es) as [[i e]|]; done.
Qed.

Definition children dir es : list tentry := filter (fun e => is_child dir (te_name e) = true) es.
Definition entry_dirent m dir e : dirent := make_dirent m (te_addr e) (te_name e) (length dir).

Lemma tar_readdir_spec fuel m a es dir (c idx : Z) : archive m a es -> (length es < fuel)%nat -> 0 <= c <= idx -> idx < 2 ^ 32 ->
  readdir_loop fuel m a dir c idx = Some (entry_dirent m dir <$> children dir es !! Z.to_nat (idx - c)).
Proof.
  intros Ha. revert fuel c. induction Ha as [a _ Hz|a name es H0 Hv Hn Hne _ IH]; intros [|fuel] c Hf Hc Hi; simpl in Hf; try lia;
    cbn [readdir_loop].
  - by rewrite Hz.
  - destruct (read_cstr_spec _ _ _ _ Hn) as (_ & _ & Hnz). rewrite (proj2 (Z.eqb_neq _ _) (Hnz Hne)), Hn. cbn [mbind option_bind].
    unfold children. rewrite filter_cons. cbn [te_name]. destruct (is_child dir name) eqn:Ei; cbn [negb].
    + rewrite decide_True by done. destruct (Z.eqb_spec c idx) as [->|Hne']; [by rewrite Z.sub_diag|].
      rewrite u32_small by lia. rewrite IH by lia. replace (Z.to_nat (idx - c)) with (S (Z.to_nat (idx - (c + 1)))) by lia. done.
    + rewrite decide_False by congruence. apply IH; lia.
Qed.

Lemma path_matches_iff name sp : Forall (fun x => x <> 0) name ->
  path_matches name sp = true <-> name = sp \/ name = sp ++ [SLASH].
Proof.
  intros Hz. unfold path_matches. destruct (decide (name = sp)) as [->|Hne]; [naive_solver|].
  rewrite !andb_true_iff, bool_decide_eq_true, !Z.eqb_eq, firstn_all. split.
  - intros [[Ht Hs] Hend]. right. rewrite <- (take_drop (length sp) name), Ht. f_equal.
    destruct (name !! length sp) as [x|] eqn:Ex; [|done]. cbn in Hs. subst x. rewrite (drop_S _ _ _ Ex). f_equal.
    destruct (name !! S (length sp)) as [y|] eqn:Ey.
    + cbn in Hend. subst y. by eapply Forall_lookup_1 in Ey; [|exact Hz].
    + apply drop_ge. by apply lookup_ge_None.
  - intros [->| ->]; [done|]. rewrite take_app_length, list_lookup_middle, lookup_ge_None_2 by (done || (rewrite length_app; simpl; lia)).
    done.
Qed.

(** An entry of a directory is [dir], a name without slashes and perhaps a slash. *)
Lemma is_child_split dir name : is_child dir name = true ->
  exists c, SLASH ∉ c /\ (name = dir ++ c \/ name = dir ++ c ++ [SLASH]).
Proof.
  unfold is_child. destruct (decide _) as [|Hp]; [done|]. apply dec_stable in Hp. rewrite firstn_all in Hp.
  set (s := drop (length dir) name). assert (name = dir ++ s) as En by (rewrite <- Hp at 1; symmetry; apply take_drop).
  destruct (decide (s = [])); [done|]. destruct (list_find _ s) as [[i x]|] eqn:Ef.
  - apply list_find_Some in Ef as (Hi & -> & Hlow). rewrite bool_decide_eq_true. intros Hd. exists (take i s). split.
    + intros Hin. apply list_elem_of_lookup in Hin as [j Hj]. apply lookup_take_Some in Hj as [Hj Hlt]. by apply (Hlow j SLASH).
    + right. rewrite En. f_equal. rewrite <- (take_drop_middle _ _ _ Hi) at 1. by rewrite Hd.
  - intros _. exists s. split; [|by left]. intros Hin. apply list_find_None in Ef. rewrite Forall_forall in Ef. by apply (Ef SLASH).
Qed.

Lemma last_slash_canon dir c : c <> [] -> SLASH ∉ c -> canon (dir ++ c) = dir ++ c.
Proof.
  intros Hne Hs. unfold canon. destruct c as [|x c _] using rev_ind; [done|]. rewrite app_assoc, last_snoc. cbn.
  rewrite (proj2 (Z.eqb_neq x SLASH)); [done|]. intros ->. apply Hs. apply elem_of_app. right. apply list_elem_of_here.
Qed.
Lemma canon_slash l : canon (l ++ [SLASH]) = l.
Proof. unfold canon. rewrite last_snoc. cbn. by rewrite removelast_last. Qed.

(** The name, type and size [readdir] reports for an entry. *)
Lemma make_dirent_spec m a dir c name : SLASH ∉ c -> c <> [] -> (name = dir ++ c \/ name = dir ++ c ++ [SLASH]) ->
  make_dirent m a name (length dir) =
    Dirent c (if is_dir_hdr m a name then VFS_DIRECTORY else VFS_FILE) (hdr_size m a).
Proof.
  intros Hs Hne Hn. unfold make_dirent.
  assert (drop (length dir) name = c \/ drop (length dir) name = c ++ [SLASH] /\ default 0 (last name) = SLASH) as Hd.
  { destruct Hn as [->| ->]; rewrite drop_app_length; [by left|right]. by rewrite app_assoc, last_snoc. }
  assert (default 0 (last c) <> SLASH) as Hl.
  { destruct c as [|x c _] using rev_ind; [done|]. rewrite last_snoc. cbn. intros ->. apply Hs, elem_of_app. right. apply list_elem_of_here. }
  destruct Hd as [->|[-> Hl2]].
  - rewrite (proj2 (Z.eqb_neq _ _) Hl). by destruct (is_dir_hdr m a name).
  - unfold is_dir_hdr. rewrite Hl2, Z.eqb_refl, orb_true_r. rewrite last_snoc. cbn [default]. by rewrite removelast_last.
Qed.

Lemma tar_find_unique dir c es e : NoDup (canon ∘ te_name <$> es) -> c <> [] -> SLASH ∉ c ->
  Forall (fun e => Forall (fun x => x <> 0) (te_name e)) es -> e ∈ es -> (te_name e = dir ++ c \/ te_name e = dir ++ c ++ [SLASH]) ->
  exists i, list_find (fun e => path_matches (te_name e) (dir ++ c) = true) es = Some (i, e).
Proof.
  intros Hnd Hne Hs Hz He Hn. assert (forall e', e' ∈ es -> path_matches (te_name e') (dir ++ c) = true -> canon (te_name e') = dir ++ c) as Hm.
  { intros e' He' Hp. rewrite Forall_forall in Hz. apply (path_matches_iff _ _ (Hz _ He')) in Hp as [->| ->]; [by apply last_slash_canon|apply canon_slash]. }
  assert (path_matches (te_name e) (dir ++ c) = true) as Hpe.
  { rewrite Forall_forall in Hz. apply (path_matches_iff _ _ (Hz _ He)). rewrite <- app_assoc. naive_solver. }
  destruct (list_find _ es) as [[i e']|] eqn:Ef.
  - exists i. apply list_find_Some in Ef as (Hi & Hp & _). do 2 f_equal. f_equal.
    apply list_elem_of_lookup in He as [j Hj]. assert (i = j) as ->; [|congruence].
    apply (NoDup_lookup _ _ _ (dir ++ c) Hnd); rewrite list_lookup_fmap; [rewrite Hi|rewrite Hj]; cbn; f_equal; apply Hm;
      first [done | by eapply list_elem_of_lookup_2].
  - apply list_find_None in Ef. rewrite Forall_forall in Ef. by apply Ef in He.
Qed.

(** Directories of the boot archive: in an archive whose names differ (the slash
    that ends a directory's name aside), [tar_vfs_readdir] of index [idx] gives the
    [idx]-th entry directly below the directory and reports the end after the
    last one; and looking up the reported name in the same directory with
    [tar_vfs_finddir] finds that entry, with the type, the size and the header it
    was listed with.  Both loops end: one more unit of fuel than headers is enough. *)
Theorem tar_readdir_finddir fuel m base es dir (idx : nat) : archive m base es -> base <> 0 -> (length es < fuel)%nat ->
  NoDup (canon ∘ te_name <$> es) -> Z.of_nat idx < 2 ^ 32 ->
  match children dir es !! idx with
  | None => tar_vfs_readdir fuel m base dir (Z.of_nat idx) = Some None
  | Some e => exists d, tar_vfs_readdir fuel m base dir (Z.of_nat idx) = Some (Some d) /\
      (te_name e = dir ++ d_name d \/ te_name e = dir ++ d_name d ++ [SLASH] \/ te_name e = dir ++ [SLASH]) /\
      (d_name d <> [] -> te_name e <> dir ++ [SLASH] ->
       tar_vfs_finddir fuel m base dir (d_name d) = Some (Some (TNode (d_name d) (d_type d) (d_size d) (te_addr e))))
  end.
Proof.
  intros Ha Hb Hf Hnd Hi. pose proof (tar_readdir_spec fuel m base es dir 0 (Z.of_nat idx) Ha Hf ltac:(lia) Hi) as Hr.
  unfold tar_vfs_readdir. rewrite (proj2 (Z.eqb_neq base 0) Hb), Hr. rewrite Z.sub_0_r, Nat2Z.id.
  destruct (children dir es !! idx) as [e|] eqn:Ee; [|done]. apply list_elem_of_lookup_2 in Ee. unfold children in Ee.
  apply list_elem_of_filter in Ee as [Hc He]. destruct (is_child_split _ _ Hc) as (c & Hs & Hn).
  exists (entry_dirent m dir e). split; [done|]. destruct (archive_entry _ _ _ _ Ha He) as (H0 & Hnm & Hne & Hl & Hz).
  destruct (decide (c = [])) as [->|Hcne].
  { rewrite app_nil_r, app_nil_l in Hn. unfold is_child in Hc. destruct Hn as [E|E].
    - rewrite E, firstn_all, drop_all in Hc. by destruct (decide _).
    - split; [by right; right|done]. }
  unfold entry_dirent. rewrite (make_dirent_spec m _ dir c (te_name e) Hs Hcne Hn). cbn [d_name d_type d_size].
  split; [tauto|]. intros _ _. unfold tar_vfs_finddir.
  assert (length (dir ++ c) <= length (te_name e))%nat as Hlen by (destruct Hn as [->| ->]; rewrite !length_app; simpl; lia).
  rewrite (proj2 (Nat.ltb_ge _ _)), (proj2 (Z.eqb_neq base 0) Hb) by lia. rewrite (finddir_spec fuel m base es (dir ++ c) Ha Hf).
  destruct (tar_find_unique dir c es e Hnd Hcne Hs) as [i ->]; [|done|done|].
  { apply Forall_forall. intros e' He'. by apply (archive_entry _ _ _ _ Ha He'). }
  cbn [mbind option_bind]. rewrite (proj2 (Z.eqb_neq _ _) H0), (proj2 (Nat.leb_gt _ _)), Hnm by (rewrite length_app in Hlen; lia). done.
Qed.
End Archive.

(** ** Contents *)
Section Contents.
Implicit Types (m : mem) (node : tnode).

(** The bytes of a file, which follow its header. *)
Definition contents m node : list Z := (fun i => get8 m (tn_data node + 512 + Z.of_nat i)) <$> seq 0 (Z.to_nat (tn_length node)).

(** [tar_vfs_read] gives the bytes of the file from the offset on, cut at its end:
    it reads nothing outside the contents. *)
Theorem tar_vfs_read_correct m node offset size : Z.land (tn_flags node) VFS_DIRECTORY = 0 ->
  0 <= offset -> 0 <= size -> offset + size < 2 ^ 64 ->
  tar_vfs_read m node offset size = take (Z.to_nat size) (drop (Z.to_nat offset) (contents m node)).
Proof.
  intros Hd Ho Hs Hw. unfold tar_vfs_read, contents. rewrite Hd. cbn [Z.eqb negb]. rewrite <- fmap_drop, <- fmap_take.
  destruct (Z.leb_spec (tn_length node) offset) as [Hle|Hlt].
  { rewrite drop_ge, take_nil; [done|]. rewrite length_seq. lia. }
  rewrite u64_small by lia. set (k := if _ <? _ then _ else _).
  assert (Z.to_nat k = Nat.min (Z.to_nat size) (Z.to_nat (tn_length node) - Z.to_nat offset)) as Ek.
  { unfold k. destruct (Z.ltb_spec (tn_length node) (offset + size)); lia. }
  rewrite drop_seq, take_seq, <- Ek. replace (0 + Z.to_nat offset)%nat with (Z.to_nat offset + 0)%nat by lia.
  rewrite <- fmap_add_seq, <- list_fmap_compose.
  apply list_fmap_ext. intros i x _. cbn. f_equal. lia.
Qed.
End Contents.

(** ** An archive with a directory [a/] and a file [a/b] of three bytes *)
Definition demo_hdr (m : mem) (a : Z) (name size : list Z) : mem :=
  write_str (write_str (write_str m a name) (a + SIZE_OFF) size) (a + MAGIC_OFF) [117; 115; 116; 97; 114].
Definition demo_tar : mem := demo_hdr (demo_hdr ∅ 4096 [97; 47] [48]) 4608 [97; 47; 98] [48; 51].
Definition demo_es : list tentry := [TEntry 4096 [97; 47]; TEntry 4608 [97; 47; 98]].

Lemma demo_archive : archive demo_tar 4096 demo_es.
Proof.
  apply (ArCons demo_tar 4096 [97; 47]); [done|vm_compute; reflexivity|vm_compute; reflexivity|done|].
  replace (next_hdr demo_tar 4096) with 4608 by (vm_compute; reflexivity).
  apply (ArCons demo_tar 4608 [97; 47; 98]); [done|vm_compute; reflexivity|vm_compute; reflexivity|done|].
  replace (next_hdr demo_tar 4608) with 5632 by (vm_compute; reflexivity).
  apply ArEnd; vm_compute; reflexivity.
Qed.

Lemma tar_readdir_finddir_witness :
  exists d, tar_vfs_readdir 3 demo_tar 4096 [97; 47] 0 = Some (Some d) /\ d_name d = [98] /\ d_size d = 3 /\
    tar_vfs_finddir 3 demo_tar 4096 [97; 47] (d_name d) = Some (Some (TNode (d_name d) (d_type d) (d_size d) 4608)).
Proof.
  pose proof (tar_readdir_finddir 3 demo_tar 4096 demo_es [97; 47] 0 demo_archive ltac:(lia) ltac:(simpl; lia)) as H.
  destruct H as (d & Ed & _ & Hd).
  - apply (bool_decide_unpack _). vm_compute. exact Logic.I.
  - lia.
  - exists d. split; [exact Ed|].
    assert (Some (Some d) = Some (Some (Dirent [98] VFS_FILE 3))) as E by (rewrite <- Ed; vm_compute; reflexivity).
    injection E as ->. split; [reflexivity|]. split; [reflexivity|]. apply Hd; done.
Defined.
