(* ===== verification/Exec.v ===== *)
(** The arguments of a new program: the first part of [sys_exec] of
    [src/src/arch/syscall.c], from the check of the user's [argv] to the stack
    the program starts with.

    [m] is memory as the kernel sees it.  The strings are gathered in [argv_buf],
    the pointers the program will see in [argv_list]; both are then copied to the
    frame behind the top page of the new stack, at [page] in the direct map, with
    the count of arguments below them.  The two kernel buffers are byte lists. *)
From S2P Require Import Prelude Machine RingBuf Pipe Pmm Frames Kmalloc VmRegions Vfs VfsFile SysFile SysFileInv SysFileOps SysFileRun SysPipe StringLib CString Tar.

Definition USER_STACK_TOP : Z := 0x1000000.
Definition MAX_ARGS : nat := 128.

Section Exec.
Implicit Types (m : mem) (argv : list (list Z)).

(** The loop over the user's [argv] from index [argc] on, [n] more rounds allowed
    before [argc >= 128]; strings are read with [fuel].  [None]: -1, or a string
    without an end. *)
Fixpoint read_argv (fuel n : nat) m (ptr : Z) : option (list (list Z)) :=
  match n with
  | O => None
  | S n =>
      if negb (verify_usr_access ptr 8) then None
      else
        let arg := load64 m ptr in
        if arg =? 0 then Some []
        else if negb (verify_usr_access arg 1) then None
        else s ← read_cstr fuel m arg; rest ← read_argv fuel n m (ptr + 8); Some (s :: rest)
  end.

(** [argv_buf]: each string with its terminator. *)
Definition argv_buf argv : list Z := argv ≫= (fun s => s ++ [0]).
Definition argv_size argv : Z := Z.of_nat (length (argv_buf argv)).
Definition argv_ptr_size argv : Z := (Z.of_nat (length argv) + 1) * 8.

Definition start_usr_addr argv : Z :=
  let a := Z.land (USER_STACK_TOP - argv_size argv) (u64 (Z.lnot 0xF)) in
  if Z.land (a - argv_ptr_size argv) 0xF =? 0 then a - 8 else a.

(** [argv_list]: where each string will be, then NULL. *)
Fixpoint argv_ptrs (a : Z) argv : list Z :=
  match argv with
  | [] => [0]
  | s :: argv => a :: argv_ptrs (a + Z.of_nat (length s) + 1) argv
  end.
Definition le_bytes (v : Z) : list Z := (fun i => u8 (v / 2 ^ (8 * Z.of_nat i))) <$> seq 0 8.

Definition start_list_addr argv : Z := start_usr_addr argv - argv_ptr_size argv.
Definition rsp_virt_addr argv : Z := start_list_addr argv - 8.

(** The three stores through the direct map. *)
Definition exec_stack m (page : Z) argv : mem :=
  let at_ va := page + Z.land va 0xFFF in
  let m := put_bytes m (at_ (start_usr_addr argv)) (argv_buf argv) in
  let m := put_bytes m (at_ (start_list_addr argv)) (argv_ptrs (start_usr_addr argv) argv ≫= le_bytes) in
  store64 m (at_ (rsp_virt_addr argv)) (Z.of_nat (length argv)).

(** ** The stack the program sees *)
(** Everything is in the top page. *)
Definition fits_page argv : Prop := argv_size argv + argv_ptr_size argv + 40 <= PAGE_SIZE.

(** The byte of the stack page at the user address [va]. *)
Definition user_at (page va : Z) : Z := page + (va - (USER_STACK_TOP - PAGE_SIZE)).

Lemma argv_size_pos argv : 0 <= argv_size argv.
Proof. unfold argv_size. lia. Qed.

(** The places and their alignment. *)
Lemma start_addr_spec argv : fits_page argv ->
  USER_STACK_TOP - argv_size argv - 24 < start_usr_addr argv <= USER_STACK_TOP - argv_size argv /\
  rsp_virt_addr argv mod 16 = 0 /\ USER_STACK_TOP - PAGE_SIZE < rsp_virt_addr argv.
Proof.
  intros Hf. unfold rsp_virt_addr, start_list_addr, start_usr_addr, fits_page, USER_STACK_TOP, PAGE_SIZE in *.
  pose proof (argv_size_pos argv) as Hs. set (n := argv_size argv) in *. clearbody n.
  assert (8 <= argv_ptr_size argv /\ argv_ptr_size argv mod 8 = 0) as [Hp Hp8].
  { unfold argv_ptr_size. split; [lia|]. apply Z.mod_mul. lia. }
  set (q := argv_ptr_size argv) in *. clearbody q.
  assert (forall x, 0 <= x < 2 ^ 64 -> Z.land x (u64 (Z.lnot 0xF)) = x - x mod 16) as Hl.
  { intros x Hx. replace (Z.land x (u64 (Z.lnot 0xF))) with (Z.land x (Z.lnot (2 ^ 4 - 1))); [by rewrite land_mask_neg by lia|].
    apply Z.bits_inj'. intros k Hk. rewrite !Z.land_spec. unfold u64. destruct (Z.lt_ge_cases k 64) as [Hlt|Hge].
    - by rewrite Z.mod_pow2_bits_low by lia.
    - rewrite <- (Z.mod_small x (2 ^ 64)), Z.mod_pow2_bits_high by lia. done. }
  rewrite Hl by lia. change 0xF with (2 ^ 4 - 1). rewrite land_mask by lia. change (2 ^ 4) with 16.
  set (a := 16777216 - n - (16777216 - n) mod 16).
  assert (a mod 16 = 0 /\ 16777216 - n - 16 < a <= 16777216 - n) as [Ha Hr] by (unfold a; Z.div_mod_to_equations; lia). clearbody a.
  destruct (Z.eqb_spec ((a - q) mod 16) 0) as [E|E]; Z.div_mod_to_equations; lia.
Qed.

Lemma user_at_land (page va : Z) : USER_STACK_TOP - PAGE_SIZE <= va < USER_STACK_TOP -> page + Z.land va 0xFFF = user_at page va.
Proof.
  intros Hv. unfold user_at, USER_STACK_TOP, PAGE_SIZE in *. change 0xFFF with (2 ^ 12 - 1). rewrite land_mask by lia.
  change (2 ^ 12) with 4096. Z.div_mod_to_equations. lia.
Qed.

Lemma load_of_bytes n m a v : (forall i, (i < n)%nat -> get8 m (a + Z.of_nat i) = u8 (v / 2 ^ (8 * Z.of_nat i))) ->
  load n m a = v mod 2 ^ (8 * Z.of_nat n).
Proof.
  revert a v. induction n as [|n IH]; intros a v Hb; [symmetry; apply Z.mod_1_r|]. cbn [load].
  rewrite (IH (a + 1) (v / 2 ^ 8)).
  - specialize (Hb 0%nat ltac:(lia)). rewrite Z.add_0_r, Z.mul_0_r, Z.div_1_r in Hb. rewrite Hb. unfold u8.
    replace (8 * Z.of_nat (S n)) with (8 + 8 * Z.of_nat n) by lia. rewrite Z.pow_add_r by lia.
    symmetry. apply Z.rem_mul_r; lia.
  - intros i Hi. specialize (Hb (S i) ltac:(lia)). rewrite Z.div_div, <- Z.pow_add_r by lia.
    replace (a + 1 + Z.of_nat i) with (a + Z.of_nat (S i)) by lia. rewrite Hb. do 3 f_equal. lia.
Qed.

Lemma words_lookup l k v i : l !! k = Some v -> (i < 8)%nat ->
  (l ≫= le_bytes) !! (8 * k + i)%nat = Some (u8 (v / 2 ^ (8 * Z.of_nat i))).
Proof.
  revert k. induction l as [|w l IH]; intros k Hk Hi; [done|]. cbn [mbind list_bind].
  assert (length (le_bytes w) = 8%nat) as Hl by done. destruct k as [|k].
  - injection Hk as ->. rewrite lookup_app_l by lia. unfold le_bytes. rewrite list_lookup_fmap.
    rewrite (proj2 (lookup_seq 0 8 (8 * 0 + i) i)) by lia. done.
  - rewrite lookup_app_r by lia. rewrite Hl. replace (8 * S k + i - 8)%nat with (8 * k + i)%nat by lia. by apply IH.
Qed.

Lemma words_length l : length (l ≫= le_bytes) = (8 * length l)%nat.
Proof. induction l as [|w l IH]; [done|]. cbn [mbind list_bind length]. rewrite length_app. change (length (le_bytes w)) with 8%nat. rewrite IH. lia. Qed.

(** Word [k] of a list of words stored at [a]. *)
Lemma load_words m a l k v : l !! k = Some v -> 0 <= v < 2 ^ 64 ->
  load64 (put_bytes m a (l ≫= le_bytes)) (a + 8 * Z.of_nat k) = v.
Proof.
  intros Hk Hv. unfold load64. rewrite (load_of_bytes 8 _ _ v); [by apply Z.mod_small|]. intros i Hi.
  replace (a + 8 * Z.of_nat k + Z.of_nat i) with (a + Z.of_nat (8 * k + i)) by lia.
  rewrite (get8_put_bytes_in _ _ _ _ _ (words_lookup l k v i Hk Hi)). apply u8_small, u8_range.
Qed.

(** A terminated string within stored bytes. *)
Lemma cstr_put_bytes m a pre s post : Forall (fun c => 0 < c < 256) s ->
  cstr (put_bytes m a (pre ++ s ++ 0 :: post)) (a + Z.of_nat (length pre)) s.
Proof.
  intros Hs. revert pre. induction Hs as [|c s Hc _ IH]; intros pre.
  - cbn [cstr]. rewrite (get8_put_bytes_in _ _ _ (length pre) 0); [done|].
    cbn [app]. by rewrite list_lookup_middle.
  - cbn [cstr]. assert (get8 (put_bytes m a (pre ++ (c :: s) ++ 0 :: post)) (a + Z.of_nat (length pre)) = c) as E.
    { rewrite (get8_put_bytes_in _ _ _ (length pre) c); [apply u8_small; lia|]. cbn [app]. by rewrite list_lookup_middle. }
    specialize (IH (pre ++ [c])). rewrite length_app in IH. cbn [length] in IH. rewrite <- app_assoc in IH.
    replace (a + Z.of_nat (length pre) + 1) with (a + Z.of_nat (length pre + 1)) by lia. split; [lia|]. split; [exact E|exact IH].
Qed.

Lemma ptrs_length a argv : length (argv_ptrs a argv) = S (length argv).
Proof. revert a. induction argv as [|s argv IH]; intros a; cbn; [done|]. by rewrite IH. Qed.
Lemma ptrs_last a argv : argv_ptrs a argv !! length argv = Some 0.
Proof. revert a. induction argv as [|s argv IH]; intros a; cbn; [done|]. apply IH. Qed.
Lemma ptrs_lookup a argv1 s argv2 : argv_ptrs a (argv1 ++ s :: argv2) !! length argv1 = Some (a + argv_size argv1).
Proof.
  revert a. induction argv1 as [|u argv1 IH]; intros a; cbn; [unfold argv_size; cbn; f_equal; lia|].
  rewrite IH. f_equal. unfold argv_size, argv_buf. cbn. rewrite !length_app. cbn [length]. lia.
Qed.
Lemma argv_buf_split argv1 s argv2 : argv_buf (argv1 ++ s :: argv2) = argv_buf argv1 ++ s ++ 0 :: argv_buf argv2.
Proof. unfold argv_buf. rewrite bind_app. cbn [mbind list_bind]. by rewrite <- app_assoc. Qed.

Lemma load64_put_bytes_out m a l b : b + 8 <= a \/ a + Z.of_nat (length l) <= b -> load64 (put_bytes m a l) b = load64 m b.
Proof. intros Hb. apply load_ext. intros i Hi. apply get8_put_bytes_out. lia. Qed.

(** The three regions of the page; without arguments the call fails before. *)
Lemma exec_places argv page : argv <> [] -> fits_page argv ->
  page + Z.land (start_usr_addr argv) 0xFFF = user_at page (start_usr_addr argv) /\
  page + Z.land (start_list_addr argv) 0xFFF = user_at page (start_list_addr argv) /\
  page + Z.land (rsp_virt_addr argv) 0xFFF = user_at page (rsp_virt_addr argv) /\
  Z.of_nat (length (argv_ptrs (start_usr_addr argv) argv ≫= le_bytes)) = argv_ptr_size argv.
Proof.
  intros Hne Hf. destruct (start_addr_spec argv Hf) as (Ha & _ & Hr).
  assert (1 <= argv_size argv) as Hs.
  { destruct argv as [|s argv]; [done|]. unfold argv_size, argv_buf. cbn. rewrite !length_app. cbn [length]. lia. }
  assert (8 <= argv_ptr_size argv) as Hp by (unfold argv_ptr_size; lia).
  unfold rsp_virt_addr, start_list_addr, fits_page in *.
  rewrite !user_at_land by (unfold USER_STACK_TOP, PAGE_SIZE in *; lia). split_and!; try done.
  rewrite words_length, ptrs_length. unfold argv_ptr_size. lia.
Qed.

(** The stack [sys_exec] builds for arguments that fit its top page: the stack
    pointer is 16-byte aligned and points to the number of arguments; above it are
    the pointers to them and a NULL pointer, and each pointer is the user address
    of a terminated copy of its argument, inside the page. *)
Lemma exec_stack_spec m page argv : argv <> [] -> (length argv < MAX_ARGS)%nat -> fits_page argv ->
  Forall (Forall (fun c => 0 < c < 256)) argv ->
  let m' := exec_stack m page argv in
  let rsp := rsp_virt_addr argv in
  rsp mod 16 = 0 /\ USER_STACK_TOP - PAGE_SIZE < rsp < USER_STACK_TOP /\
  load64 m' (user_at page rsp) = Z.of_nat (length argv) /\
  load64 m' (user_at page (rsp + 8 + 8 * Z.of_nat (length argv))) = 0 /\
  forall i s, argv !! i = Some s ->
    let p := load64 m' (user_at page (rsp + 8 + 8 * Z.of_nat i)) in
    rsp < p /\ p + Z.of_nat (length s) < USER_STACK_TOP /\ cstr m' (user_at page p) s.
Proof.
  intros Hne Hmax Hf Hs m' rsp. destruct (start_addr_spec argv Hf) as (Ha & Hal & Hr).
  destruct (exec_places argv page Hne Hf) as (E1 & E2 & E3 & E4).
  unfold m', exec_stack. rewrite E1, E2, E3. set (S0 := user_at page (start_usr_addr argv)). set (L0 := user_at page (start_list_addr argv)).
  set (R0 := user_at page (rsp_virt_addr argv)).
  assert (R0 + 8 = L0 /\ L0 + argv_ptr_size argv = S0) as [HRL HLS].
  { unfold R0, L0, S0, user_at, rsp_virt_addr, start_list_addr. lia. }
  set (m1 := put_bytes m S0 (argv_buf argv)). set (words := argv_ptrs (start_usr_addr argv) argv ≫= le_bytes).
  assert (8 <= argv_ptr_size argv) as Hp by (unfold argv_ptr_size; lia).
  assert (forall b, R0 + 8 <= b -> load64 (store64 (put_bytes m1 L0 words) R0 (Z.of_nat (length argv))) b = load64 (put_bytes m1 L0 words) b) as Hup.
  { intros b Hb. unfold load64, store64. apply load_store_ne. lia. }
  assert (forall k v, argv_ptrs (start_usr_addr argv) argv !! k = Some v -> 0 <= v < 2 ^ 64 ->
    load64 (store64 (put_bytes m1 L0 words) R0 (Z.of_nat (length argv))) (user_at page (rsp + 8 + 8 * Z.of_nat k)) = v) as Hword.
  { intros k v Hk Hv. replace (user_at page (rsp + 8 + 8 * Z.of_nat k)) with (L0 + 8 * Z.of_nat k)
      by (unfold L0, rsp, user_at, rsp_virt_addr; lia).
    rewrite Hup by lia. by apply load_words. }
  assert (0 < argv_size argv) as Hsz.
  { destruct argv as [|s l]; [done|]. unfold argv_size, argv_buf. cbn. rewrite !length_app. cbn [length]. lia. }
  split; [done|]. split; [unfold rsp, rsp_virt_addr, start_list_addr, USER_STACK_TOP in *; lia|]. split; [|split].
  - apply load64_store64. unfold MAX_ARGS, is_u64 in *. lia.
  - apply Hword; [apply ptrs_last|lia].
  - intros i s Hi. destruct (list_elem_of_split_length _ _ _ Hi) as (argv1 & argv2 & Eargv & Elen). cbv zeta.
    assert (argv_size argv = argv_size argv1 + Z.of_nat (length s) + 1 + argv_size argv2) as Esz.
    { rewrite Eargv. unfold argv_size. rewrite argv_buf_split, !length_app. cbn [length]. lia. }
    pose proof (argv_size_pos argv1). pose proof (argv_size_pos argv2).
    rewrite (Hword i (start_usr_addr argv + argv_size argv1)).
    2:{ pose proof (ptrs_lookup (start_usr_addr argv) argv1 s argv2) as Hpl. rewrite <- Eargv in Hpl. congruence. }
    2:{ unfold rsp_virt_addr, start_list_addr, USER_STACK_TOP, PAGE_SIZE in *. lia. }
    split; [unfold rsp, rsp_virt_addr, start_list_addr; lia|]. split; [lia|].
    replace (user_at page (start_usr_addr argv + argv_size argv1)) with (S0 + Z.of_nat (length (argv_buf argv1)))
      by (unfold S0, user_at, argv_size; lia).
    apply (cstr_ext m1 _ (S0 + Z.of_nat (length (argv_buf argv1)))).
    + intros j Hj. unfold store64. rewrite get8_store_out by lia. apply get8_put_bytes_out. unfold words. rewrite E4. lia.
    + unfold m1. rewrite Eargv, argv_buf_split. apply cstr_put_bytes. rewrite Forall_forall in Hs.
      apply Hs. by eapply list_elem_of_lookup_2.
Qed.

(** Only the page is written. *)
Lemma exec_stack_out m page argv x : argv <> [] -> fits_page argv -> ~ page <= x < page + PAGE_SIZE ->
  get8 (exec_stack m page argv) x = get8 m x.
Proof.
  intros Hne Hf Hx. destruct (start_addr_spec argv Hf) as (Ha & _ & Hr). destruct (exec_places argv page Hne Hf) as (E1 & E2 & E3 & E4).
  unfold exec_stack. rewrite E1, E2, E3. pose proof (argv_size_pos argv). assert (8 <= argv_ptr_size argv) by (unfold argv_ptr_size; lia).
  unfold store64. rewrite get8_store_out, !get8_put_bytes_out; [done|..]; rewrite ?E4; unfold argv_size, user_at, rsp_virt_addr, start_list_addr, USER_STACK_TOP, PAGE_SIZE in *; lia.
Qed.
End Exec.
