(* ===== verification/Nyamo.v ===== *)
(** The text editor, [src/progs/nyamo.c]: its rows, the keys and the files.

    A row is the characters before its terminator and the capacity of its buffer;
    a store outside a buffer, or a row that does not exist, is [None].  [malloc] and
    [realloc] succeed, as the program assumes, and a line is shorter than 2^30
    characters, so the [int]s that count them do not overflow.  A key is the byte
    read from the terminal, an escape sequence with the two bytes read after it, or
    Ctrl-L with the bytes of the terminal's answer to the question for its size. *)
From S2P Require Import Prelude.

Definition ROW_OVERHEAD : Z := 0x20.
Definition SAFETY_OVERHEAD : Z := 0x400.
Definition NEWLINE : Z := 10.

Record ERow := MkRow { chars : list Z; cap : Z }.
Definition len (r : ERow) : Z := Z.of_nat (length (chars r)).

Record editor := Editor {
  rows : list ERow; rows_cap : Z; cur_x : Z; cur_y : Z; row_offset : Z; col_offset : Z;
  screen_rows : Z; screen_cols : Z; mega_cap : Z; soft_wrap : bool; need_full_redraw : bool }.

Section Nyamo.
Implicit Types (e : editor) (r : ERow) (s : list Z).

Definition num_lines e : Z := Z.of_nat (length (rows e)).
Definition with_rows e (l : list ERow) (c : Z) : editor :=
  Editor l c (cur_x e) (cur_y e) (row_offset e) (col_offset e) (screen_rows e) (screen_cols e) (mega_cap e) (soft_wrap e) (need_full_redraw e).
Definition set_cur e (x y : Z) : editor :=
  Editor (rows e) (rows_cap e) x y (row_offset e) (col_offset e) (screen_rows e) (screen_cols e) (mega_cap e) (soft_wrap e) (need_full_redraw e).
Definition set_view e (ro co : Z) : editor :=
  Editor (rows e) (rows_cap e) (cur_x e) (cur_y e) ro co (screen_rows e) (screen_cols e) (mega_cap e) (soft_wrap e) (need_full_redraw e).
Definition set_size e (sr sc : Z) : editor :=
  Editor (rows e) (rows_cap e) (cur_x e) (cur_y e) (row_offset e) (col_offset e) sr sc (mega_cap e) (soft_wrap e) (need_full_redraw e).
Definition set_mega e (c : Z) : editor :=
  Editor (rows e) (rows_cap e) (cur_x e) (cur_y e) (row_offset e) (col_offset e) (screen_rows e) (screen_cols e) c (soft_wrap e) (need_full_redraw e).
Definition set_wrap e (b : bool) : editor :=
  Editor (rows e) (rows_cap e) (cur_x e) (cur_y e) (row_offset e) (col_offset e) (screen_rows e) (screen_cols e) (mega_cap e) b (need_full_redraw e).
Definition set_redraw e (b : bool) : editor :=
  Editor (rows e) (rows_cap e) (cur_x e) (cur_y e) (row_offset e) (col_offset e) (screen_rows e) (screen_cols e) (mega_cap e) (soft_wrap e) b.

Definition row_at e (y : Z) : option ERow := if y <? 0 then None else rows e !! Z.to_nat y.
Definition put_row e (y : Z) r : editor := with_rows e (<[Z.to_nat y := r]> (rows e)) (rows_cap e).

(** *** Rows *)
Definition row_insert e (at_ : Z) s : option editor :=
  if (at_ <? 0) || (num_lines e <? at_) then Some e
  else
    let c := if rows_cap e <=? num_lines e then (if rows_cap e =? 0 then ROW_OVERHEAD else rows_cap e * 2) else rows_cap e in
    if c <=? num_lines e then None
    else
      let n := Z.to_nat at_ in
      Some (with_rows e (take n (rows e) ++ MkRow s (Z.of_nat (length s) + ROW_OVERHEAD) :: drop n (rows e)) c).

Definition row_delete e (at_ : Z) : editor :=
  if (at_ <? 0) || (num_lines e <=? at_) then e
  else with_rows e (take (Z.to_nat at_) (rows e) ++ drop (S (Z.to_nat at_)) (rows e)) (rows_cap e).

(** The terminator is moved too, to index [len + 1]. *)
Definition row_insert_char r (at_ : Z) (c : Z) : option ERow :=
  let at_ := if (at_ <? 0) || (len r <? at_) then len r else at_ in
  let cp := if cap r <=? len r + 1 then cap r * 2 else cap r in
  if cp <=? len r + 1 then None
  else Some (MkRow (take (Z.to_nat at_) (chars r) ++ c :: drop (Z.to_nat at_) (chars r)) cp).

Definition row_del_char r (at_ : Z) : ERow :=
  if (at_ <? 0) || (len r <=? at_) then r
  else MkRow (take (Z.to_nat at_) (chars r) ++ drop (S (Z.to_nat at_)) (chars r)) (cap r).

Definition row_append_str r s : option ERow :=
  let n := Z.of_nat (length s) in
  let cp := if cap r <=? len r + n + 1 then len r + n + 32 else cap r in
  if cp <=? len r + n then None else Some (MkRow (chars r ++ s) cp).

(** *** Files *)
(** The loop over the bytes of the file, with the line gathered so far. *)
Fixpoint load_loop e (bytes line_buf : list Z) : option (editor * list Z) :=
  match bytes with
  | [] => Some (e, line_buf)
  | b :: bytes =>
      if b =? NEWLINE then e ← row_insert e (num_lines e) line_buf; load_loop e bytes []
      else load_loop e bytes (if (length line_buf <? 1023)%nat then line_buf ++ [b] else line_buf)
  end.

(** [None] for the file: it cannot be opened. *)
Definition edtr_ld e (file : option (list Z)) : option editor :=
  match file with
  | None => row_insert e 0 []
  | Some bytes =>
      '(e, line_buf) ← load_loop e bytes [];
      e ← row_insert e (num_lines e) line_buf;
      e ← (if 0 <? num_lines e then r ← row_at e (num_lines e - 1); Some (set_cur e (len r) (num_lines e - 1)) else Some e);
      Some (set_redraw e true)
  end.

(** The bytes written to the file. *)
Fixpoint edtr_sv (l : list ERow) : list Z :=
  match l with
  | [] => []
  | [r] => chars r
  | r :: l => chars r ++ NEWLINE :: edtr_sv l
  end.

(** *** Keys *)
Inductive key := Byte (c : Z) | Escape (a b : Z) | Query (reply : list Z).

(** The answer of [editor_query_size]: [ESC cols rows Q]. *)
Definition editor_query_size e (reply : list Z) : editor :=
  let e := match reply with
           | [27; c; r; 81] => set_size e (u8 r) (u8 c)
           | _ => e
           end in
  let e := if screen_cols e <? 10 then set_size e (screen_rows e) 10 else e in
  if screen_rows e <? 10 then set_size e 10 (screen_cols e) else e.

Definition max_w e : Z := screen_cols e - 1.
Definition v_lines e r : Z := len r / max_w e + 1.

(** A change of the row at the cursor redraws everything when its screen lines change. *)
Definition after_edit e r r' (x : Z) : editor :=
  let e' := set_cur (put_row e (cur_y e) r') x (cur_y e) in
  if soft_wrap e && negb (v_lines e r =? v_lines e r') then set_redraw e' true else e'.

Definition backspace e : option editor :=
  if 0 <? cur_x e then
    r ← row_at e (cur_y e);
    Some (after_edit e r (row_del_char r (cur_x e - 1)) (cur_x e - 1))
  else if 0 <? cur_y e then
    prev ← row_at e (cur_y e - 1);
    r ← row_at e (cur_y e);
    prev' ← row_append_str prev (chars r);
    let e := row_delete (put_row e (cur_y e - 1) prev') (cur_y e) in
    Some (set_redraw (set_cur e (len prev) (cur_y e - 1)) true)
  else Some e.

Definition enter e : option editor :=
  r ← row_at e (cur_y e);
  if len r <? cur_x e then None
  else
    e ← row_insert e (cur_y e + 1) (drop (Z.to_nat (cur_x e)) (chars r));
    r ← row_at e (cur_y e);
    Some (set_redraw (set_cur (put_row e (cur_y e) (MkRow (take (Z.to_nat (cur_x e)) (chars r)) (cap r))) 0 (cur_y e + 1)) true).

Definition type_char e (c : Z) : option editor :=
  r ← row_at e (cur_y e);
  r' ← row_insert_char r (cur_x e) c;
  Some (after_edit e r r' (cur_x e + 1)).

Definition cut e (x y : Z) : option editor := r ← row_at e y; Some (set_cur e (if len r <? x then len r else x) y).

Definition key_up e : option editor :=
  if soft_wrap e then
    if 0 <? cur_x e / max_w e then Some (set_cur e (cur_x e - max_w e) (cur_y e))
    else if 0 <? cur_y e then
      r ← row_at e (cur_y e - 1);
      cut e ((v_lines e r - 1) * max_w e + cur_x e mod max_w e) (cur_y e - 1)
    else Some e
  else Some (if 0 <? cur_y e then set_cur e (cur_x e) (cur_y e - 1) else e).

Definition key_down e : option editor :=
  if soft_wrap e then
    r ← row_at e (cur_y e);
    if cur_x e / max_w e <? v_lines e r - 1 then cut e (cur_x e + max_w e) (cur_y e)
    else if cur_y e <? num_lines e - 1 then cut e (cur_x e mod max_w e) (cur_y e + 1)
    else Some e
  else Some (if cur_y e <? num_lines e - 1 then set_cur e (cur_x e) (cur_y e + 1) else e).

Definition key_right e : option editor :=
  r ← row_at e (cur_y e);
  Some (if cur_x e <? len r then set_cur e (cur_x e + 1) (cur_y e)
        else if cur_y e <? num_lines e - 1 then set_cur e 0 (cur_y e + 1) else e).

Definition key_left e : option editor :=
  if 0 <? cur_x e then Some (set_cur e (cur_x e - 1) (cur_y e))
  else if 0 <? cur_y e then r ← row_at e (cur_y e - 1); Some (set_cur e (len r) (cur_y e - 1))
  else Some e.

Definition escape e (a b : Z) : option editor :=
  if negb (a =? 91) then Some e
  else
    e ← (if b =? 65 then key_up e else if b =? 66 then key_down e else if b =? 67 then key_right e else if b =? 68 then key_left e else Some e);
    cut e (cur_x e) (cur_y e).

(** One round of the main loop after the key is read; Ctrl-Q ends the loop before. *)
Definition handle_key e (k : key) : option editor :=
  match k with
  | Query reply => Some (set_redraw (editor_query_size e reply) true)
  | Escape a b => escape e a b
  | Byte c =>
      if (c =? 17) || (c =? 19) then Some e
      else if c =? 26 then
        let w := negb (soft_wrap e) in
        Some (set_redraw (set_view (set_wrap e w) (if w then 0 else cur_y e) 0) true)
      else if (c =? 8) || (c =? 127) then backspace e
      else if (c =? 13) || (c =? 10) then enter e
      else if (32 <=? c) && (c <=? 126) then type_char e c
      else Some e
  end.

(** [main]: the state before it, what happens before the loop, and the rounds. *)
Definition start : editor := Editor [] 0 0 0 0 0 50 75 0 false true.

Definition nyamo_open (reply : list Z) (file : option (list Z)) : option editor :=
  e ← edtr_ld (editor_query_size start reply) file;
  Some (if num_lines e =? 0 then with_rows e [MkRow [] 1] (rows_cap e) else e).

Fixpoint run_keys e (ks : list key) : option editor :=
  match ks with
  | [] => Some e
  | k :: ks => e ← handle_key e k; run_keys e ks
  end.
End Nyamo.
