(* ===== verification/NyamoSpec.v ===== *)
(** The editor against a flat text: the rows are the lines of one text, the cursor
    is a position in it, and every key does to them what it does to a text with a
    position ([key_spec]). *)
From S2P Require Import Prelude Nyamo.

(** The text before a row and after it. *)
Definition text_before (l : list ERow) : list Z := l ≫= (fun r => chars r ++ [NEWLINE]).
Definition text_after (l : list ERow) : list Z := l ≫= (fun r => NEWLINE :: chars r).

(** The text of the editor and the position of the cursor. *)
Definition text (e : editor) : list Z := edtr_sv (rows e).
Definition position (e : editor) : nat := length (text_before (take (Z.to_nat (cur_y e)) (rows e))) + Z.to_nat (cur_x e).

Definition row_ok (r : ERow) : Prop := len r < cap r /\ NEWLINE ∉ chars r.

Record ed_ok (e : editor) : Prop := {
  eo_y : 0 <= cur_y e < num_lines e;
  eo_x r : row_at e (cur_y e) = Some r -> 0 <= cur_x e <= len r;
  eo_cap : num_lines e <= rows_cap e;
  eo_rows : Forall row_ok (rows e);
  eo_size : 10 <= screen_rows e <= 255 /\ 10 <= screen_cols e <= 255 }.

(** What a key does to a text with a position; up and down only move. *)
Definition key_spec (k : key) (t : list Z) (p : nat) (t' : list Z) (p' : nat) : Prop :=
  let insert c := t' = take p t ++ c :: drop p t /\ p' = S p in
  let same := t' = t /\ p' = p in
  match k with
  | Byte c =>
      if (c =? 8) || (c =? 127) then (if (0 <? p)%nat then t' = take (p - 1) t ++ drop p t /\ p' = (p - 1)%nat else same)
      else if (c =? 13) || (c =? 10) then insert NEWLINE
      else if (32 <=? c) && (c <=? 126) then insert c
      else same
  | Escape a b =>
      if (a =? 91) && (b =? 67) then t' = t /\ p' = Nat.min (S p) (length t)
      else if (a =? 91) && (b =? 68) then t' = t /\ p' = (p - 1)%nat
      else if (a =? 91) && ((b =? 65) || (b =? 66)) then t' = t /\ (p' <= length t)%nat
      else same
  | Query _ => same
  end.

(** A sequence of keys on a text with a position. *)
Inductive keys_spec : list key -> list Z -> nat -> list Z -> nat -> Prop :=
| keys_done t p : keys_spec [] t p t p
| keys_next k ks t p t1 p1 t2 p2 : key_spec k t p t1 p1 -> keys_spec ks t1 p1 t2 p2 -> keys_spec (k :: ks) t p t2 p2.

(** The lines of a file: what stands between its newlines. *)
Fixpoint lines (bytes : list Z) : list (list Z) :=
  match bytes with
  | [] => [[]]
  | b :: bytes => if b =? NEWLINE then [] :: lines bytes
                  else match lines bytes with l :: ls => (b :: l) :: ls | [] => [[b]] end
  end.
Definition short_lines (ls : list (list Z)) : Prop := Forall (fun l => (length l <= 1023)%nat) ls.

Section Spec.
Lemma elem_take_drop {X} (x : X) n (l : list X) : x ∈ take n l \/ x ∈ drop n l -> x ∈ l.
Proof. intros Hx. rewrite <- (take_drop n l). by apply elem_of_app. Qed.

Implicit Types (e : editor) (r : ERow) (A B : list ERow).

Lemma text_split A r B : edtr_sv (A ++ r :: B) = text_before A ++ chars r ++ text_after B.
Proof.
  induction A as [|a A IH]; cbn [app].
  - revert r. induction B as [|b B IHB]; intros r; cbn; [by rewrite app_nil_r|]. specialize (IHB b). cbn in IHB. by rewrite IHB.
  - unfold text_before in *. cbn [mbind list_bind]. rewrite <- !app_assoc. cbn [app]. rewrite <- IH.
    destruct A; done.
Qed.

Lemma text_before_app A r : text_before (A ++ [r]) = text_before A ++ chars r ++ [NEWLINE].
Proof. unfold text_before. rewrite bind_app. cbn. by rewrite app_nil_r. Qed.

Lemma text_after_cons r B : text_after (r :: B) = NEWLINE :: chars r ++ text_after B.
Proof. done. Qed.

(** The editor with its cursor row singled out. *)
Record focus e A r B : Prop := {
  fo_rows : rows e = A ++ r :: B;
  fo_y : cur_y e = Z.of_nat (length A);
  fo_x : 0 <= cur_x e <= len r }.

Lemma row_at_focus e A r B : rows e = A ++ r :: B -> row_at e (Z.of_nat (length A)) = Some r.
Proof.
  intros E. unfold row_at. rewrite (proj2 (Z.ltb_ge _ _)), Nat2Z.id, E by lia. by apply list_lookup_middle.
Qed.

Lemma ed_focus e : ed_ok e -> exists A r B, focus e A r B.
Proof.
  intros [Hy Hx _ _ _]. unfold num_lines in Hy.
  destruct (lookup_lt_is_Some_2 (rows e) (Z.to_nat (cur_y e))) as [r Hr]; [lia|].
  destruct (list_elem_of_split_length _ _ _ Hr) as (A & B & E & El). exists A, r, B. split; [done|lia|].
  apply Hx. unfold row_at. by rewrite (proj2 (Z.ltb_ge _ _)) by lia.
Qed.

Lemma focus_text e A r B : focus e A r B -> text e = text_before A ++ chars r ++ text_after B.
Proof. intros [E _ _]. unfold text. rewrite E. apply text_split. Qed.
Lemma focus_pos e A r B : focus e A r B -> position e = (length (text_before A) + Z.to_nat (cur_x e))%nat.
Proof. intros [E Ey _]. unfold position. rewrite Ey, Nat2Z.id, E. by rewrite take_app_length. Qed.

(** An editor seen through a focus is well formed when its rows are. *)
Lemma focus_ok e A r B : focus e A r B -> Forall row_ok (A ++ r :: B) -> num_lines e <= rows_cap e ->
  10 <= screen_rows e <= 255 /\ 10 <= screen_cols e <= 255 -> ed_ok e.
Proof.
  intros [E Ey Ex] Hr Hc Hs. split; [|intros r'|done|by rewrite E|done].
  - unfold num_lines. rewrite E, length_app, Ey. cbn [length]. lia.
  - rewrite Ey, (row_at_focus _ _ _ _ E). by intros [= <-].
Qed.

Lemma put_focus A r B r' : <[length A := r']> (A ++ r :: B) = A ++ r' :: B.
Proof. rewrite insert_app_r_alt, Nat.sub_diag by lia. done. Qed.

(** *** Row operations *)
Lemma take_drop_len (l : list Z) x : 0 <= x <= Z.of_nat (length l) -> length (take (Z.to_nat x) l) = Z.to_nat x.
Proof. intros Hx. rewrite length_take. lia. Qed.

Lemma insert_char_ok r x c : row_ok r -> 0 <= x <= len r -> c <> NEWLINE ->
  exists r', row_insert_char r x c = Some r' /\ row_ok r' /\ chars r' = take (Z.to_nat x) (chars r) ++ c :: drop (Z.to_nat x) (chars r).
Proof.
  intros [Hl Hn] Hx Hc. unfold row_insert_char. rewrite (proj2 (Z.ltb_ge x 0)), (proj2 (Z.ltb_ge (len r) x)) by lia. cbn [orb].
  assert (0 <= len r) by (unfold len; lia).
  set (cp := if cap r <=? len r + 1 then _ else _). assert (len r + 1 < cp) as Hcp by (unfold cp; destruct (Z.leb_spec (cap r) (len r + 1)); lia).
  rewrite (proj2 (Z.leb_gt _ _) Hcp). eexists. split; [done|]. split; [|done]. split.
  - unfold len in *. cbn [chars cap]. rewrite length_app. cbn [length]. rewrite length_take, length_drop. lia.
  - cbn [chars]. rewrite elem_of_app, elem_of_cons. intros [Hin|[?|Hin]]; [|congruence|].
    + apply Hn, (elem_take_drop _ (Z.to_nat x)). by left.
    + apply Hn, (elem_take_drop _ (Z.to_nat x)). by right.
Qed.

Lemma del_char_ok r x : row_ok r -> 0 <= x < len r ->
  row_ok (row_del_char r x) /\ chars (row_del_char r x) = take (Z.to_nat x) (chars r) ++ drop (S (Z.to_nat x)) (chars r).
Proof.
  intros [Hl Hn] Hx. unfold row_del_char. rewrite (proj2 (Z.ltb_ge x 0)), (proj2 (Z.leb_gt (len r) x)) by lia. cbn [orb].
  split; [split|done].
  - unfold len in *. cbn [chars cap]. rewrite length_app, length_take, length_drop. lia.
  - cbn [chars]. rewrite elem_of_app. intros [Hin|Hin]; apply Hn.
    + apply (elem_take_drop _ (Z.to_nat x)). by left.
    + apply (elem_take_drop _ (S (Z.to_nat x))). by right.
Qed.

Lemma append_str_ok r s : row_ok r -> NEWLINE ∉ s ->
  exists r', row_append_str r s = Some r' /\ row_ok r' /\ chars r' = chars r ++ s.
Proof.
  intros [Hl Hn] Hs. unfold row_append_str. assert (0 <= len r) by (unfold len; lia).
  set (cp := if cap r <=? _ then _ else _). assert (len r + Z.of_nat (length s) < cp) as Hcp
    by (unfold cp; destruct (Z.leb_spec (cap r) (len r + Z.of_nat (length s) + 1)); lia).
  rewrite (proj2 (Z.leb_gt _ _) Hcp). eexists. split; [done|]. split; [|done]. split; cbn [chars cap].
  - unfold len in *. cbn [chars]. rewrite length_app. lia.
  - rewrite elem_of_app. tauto.
Qed.

Lemma row_insert_ok e A B s : rows e = A ++ B -> num_lines e <= rows_cap e ->
  exists c, row_insert e (Z.of_nat (length A)) s =
    Some (with_rows e (A ++ MkRow s (Z.of_nat (length s) + ROW_OVERHEAD) :: B) c) /\ num_lines e + 1 <= c.
Proof.
  intros E Hc. unfold row_insert. assert (num_lines e = Z.of_nat (length A) + Z.of_nat (length B)) as En
    by (unfold num_lines; rewrite E, length_app; lia).
  rewrite (proj2 (Z.ltb_ge (Z.of_nat (length A)) 0)), (proj2 (Z.ltb_ge (num_lines e) (Z.of_nat (length A)))) by lia. cbn [orb].
  set (c := if rows_cap e <=? num_lines e then _ else _). assert (num_lines e < c) as Hlt.
  { unfold c, ROW_OVERHEAD. destruct (Z.leb_spec (rows_cap e) (num_lines e)); [|lia]. destruct (Z.eqb_spec (rows_cap e) 0); lia. }
  rewrite (proj2 (Z.leb_gt _ _) Hlt), Nat2Z.id, E, take_app_length, drop_app_length. exists c. split; [done|lia].
Qed.

Lemma row_delete_ok e A r B y : rows e = A ++ r :: B -> y = Z.of_nat (length A) ->
  row_delete e y = with_rows e (A ++ B) (rows_cap e).
Proof.
  intros E ->. unfold row_delete, num_lines. rewrite E, length_app. cbn [length].
  rewrite (proj2 (Z.ltb_ge _ 0)), (proj2 (Z.leb_gt _ _)) by lia. cbn [orb].
  rewrite Nat2Z.id, take_app_length, drop_app_ge by lia. by replace (S (length A) - length A)%nat with 1%nat by lia.
Qed.

(** The text cut at the cursor. *)
Lemma text_cut e A r B : focus e A r B ->
  take (position e) (text e) = text_before A ++ take (Z.to_nat (cur_x e)) (chars r) /\
  drop (position e) (text e) = drop (Z.to_nat (cur_x e)) (chars r) ++ text_after B.
Proof.
  intros F. rewrite (focus_text _ _ _ _ F), (focus_pos _ _ _ _ F). destruct F as [_ _ Hx]. unfold len in Hx. split.
  - rewrite take_app_ge, take_app_le by lia. do 2 f_equal. lia.
  - rewrite drop_app_ge, drop_app_le by lia. do 2 f_equal. lia.
Qed.

(** What the proofs below establish of the editor after a key. *)
Definition becomes (o : option editor) (P : list Z -> nat -> Prop) : Prop :=
  exists e', o = Some e' /\ ed_ok e' /\ P (text e') (position e').

Lemma becomes_focus o e' A r B (P : list Z -> nat -> Prop) : o = Some e' -> focus e' A r B -> Forall row_ok (A ++ r :: B) ->
  num_lines e' <= rows_cap e' -> 10 <= screen_rows e' <= 255 /\ 10 <= screen_cols e' <= 255 ->
  P (text_before A ++ chars r ++ text_after B) (length (text_before A) + Z.to_nat (cur_x e'))%nat -> becomes o P.
Proof.
  intros -> F Hr Hc Hs HP. exists e'. split; [done|]. split; [by eapply focus_ok|].
  by rewrite (focus_text _ _ _ _ F), (focus_pos _ _ _ _ F).
Qed.

(** Flags and offsets do not matter to the text, the cursor or the invariant. *)
Lemma after_edit_fields e r r' x : let e' := after_edit e r r' x in
  rows e' = <[Z.to_nat (cur_y e) := r']> (rows e) /\ cur_x e' = x /\ cur_y e' = cur_y e /\ rows_cap e' = rows_cap e /\
  screen_rows e' = screen_rows e /\ screen_cols e' = screen_cols e.
Proof. unfold after_edit. by destruct (_ && _). Qed.

Lemma edit_becomes e A r B r' x (P : list Z -> nat -> Prop) : ed_ok e -> focus e A r B -> row_ok r' -> 0 <= x <= len r' ->
  P (text_before A ++ chars r' ++ text_after B) (length (text_before A) + Z.to_nat x)%nat ->
  becomes (Some (after_edit e r r' x)) P.
Proof.
  intros I F Hr' Hx HP. destruct (after_edit_fields e r r' x) as (Er & Ex & Ey & Ec & Es1 & Es2).
  pose proof (eo_rows _ I) as Hrows. pose proof (eo_cap _ I) as Hcap. destruct F as [E Ey0 _].
  rewrite E, Ey0, Nat2Z.id, put_focus in Er. rewrite E in Hrows. apply Forall_app in Hrows as [HA HB]. apply Forall_cons in HB as [_ HB].
  eapply (becomes_focus _ _ A r' B); [done|split; [done|congruence|by rewrite Ex]| | | |by rewrite Ex].
  - apply Forall_app. split; [done|]. by apply Forall_cons.
  - unfold num_lines in *. rewrite Er, Ec. rewrite E in Hcap. rewrite length_app in *. exact Hcap.
  - rewrite Es1, Es2. apply I.
Qed.

Lemma type_char_ok e c : ed_ok e -> c <> NEWLINE ->
  becomes (type_char e c) (fun t' p' => t' = take (position e) (text e) ++ c :: drop (position e) (text e) /\ p' = S (position e)).
Proof.
  intros I Hc. destruct (ed_focus e I) as (A & r & B & F). destruct (text_cut _ _ _ _ F) as [Et Ed].
  pose proof (focus_pos _ _ _ _ F) as Ep. pose proof F as [E Ey Hx]. unfold type_char. rewrite Ey, (row_at_focus _ _ _ _ E). cbn [mbind option_bind].
  assert (row_ok r) as Hr. { pose proof (eo_rows _ I) as Hr. rewrite E in Hr. apply Forall_app in Hr as [_ Hr]. by apply Forall_cons in Hr as [? _]. }
  destruct (insert_char_ok r (cur_x e) c Hr Hx Hc) as (r' & -> & Hr' & Ech). cbn [mbind option_bind].
  apply (edit_becomes e A r B); [done|done|done| |].
  - unfold len in *. rewrite Ech, length_app. cbn [length]. rewrite length_take, length_drop. lia.
  - rewrite Et, Ed, Ech, Ep. split; [by rewrite <- !app_assoc|lia].
Qed.

Lemma enter_ok e : ed_ok e ->
  becomes (enter e) (fun t' p' => t' = take (position e) (text e) ++ NEWLINE :: drop (position e) (text e) /\ p' = S (position e)).
Proof.
  intros I. destruct (ed_focus e I) as (A & r & B & F). destruct (text_cut _ _ _ _ F) as [Et Ed].
  pose proof (focus_pos _ _ _ _ F) as Ep. pose proof F as [E Ey Hx]. unfold enter. rewrite Ey at 1. rewrite (row_at_focus _ _ _ _ E). cbn [mbind option_bind].
  rewrite (proj2 (Z.ltb_ge _ _)) by lia. set (s := drop (Z.to_nat (cur_x e)) (chars r)).
  destruct (row_insert_ok e (A ++ [r]) B s) as (c & Ei & Hc); [by rewrite <- app_assoc|apply I|].
  rewrite length_app in Ei. cbn [length] in Ei. replace (Z.of_nat (length A + 1)) with (cur_y e + 1) in Ei by lia.
  rewrite Ei. cbn [mbind option_bind]. set (nr := MkRow s _) in *. rewrite <- app_assoc in Ei |- *. cbn [app] in *.
  set (e1 := with_rows e _ c).
  assert (row_at e1 (cur_y e1) = Some r) as -> by (change (cur_y e1) with (cur_y e); rewrite Ey; by apply (row_at_focus e1 A r (nr :: B))).
  cbn [mbind option_bind].
  set (r1 := MkRow (take _ _) _). set (e2 := set_redraw _ true).
  assert (rows e2 = (A ++ [r1]) ++ nr :: B) as E2.
  { unfold e2. cbn. rewrite Ey, Nat2Z.id, put_focus. by rewrite <- app_assoc. }
  pose proof (eo_rows _ I) as Hrows. rewrite E in Hrows. apply Forall_app in Hrows as [HA HB]. apply Forall_cons in HB as [[Hl Hn] HB].
  assert (row_ok r1 /\ row_ok nr) as [H1 H2].
  { unfold len in *. split; split; cbn [chars cap].
    - unfold len, r1. cbn [chars cap]. rewrite length_take. lia.
    - intros Hin. apply Hn, (elem_take_drop _ (Z.to_nat (cur_x e))). by left.
    - unfold len, nr, ROW_OVERHEAD. cbn [chars cap]. lia.
    - intros Hin. apply Hn, (elem_take_drop _ (Z.to_nat (cur_x e))). by right. }
  eapply (becomes_focus _ e2 (A ++ [r1]) nr B); [done|split; [done| |]| | | |].
  - unfold e2. cbn. rewrite length_app. cbn [length]. lia.
  - unfold e2, len. cbn. lia.
  - apply Forall_app. split; [apply Forall_app; split; [done|by apply Forall_singleton]|by apply Forall_cons].
  - unfold num_lines in *. rewrite E2. unfold e2. cbn. rewrite E in Hc. rewrite !length_app in *. cbn [length] in *. lia.
  - apply I.
  - rewrite Et, Ed, Ep, text_before_app. cbn [chars r1]. split.
    + by rewrite <- !app_assoc.
    + unfold e2. cbn. rewrite !length_app, length_take. cbn [length]. unfold len in Hx. lia.
Qed.

Lemma backspace_ok e : ed_ok e ->
  becomes (backspace e) (fun t' p' => if (0 <? position e)%nat then
    t' = take (position e - 1) (text e) ++ drop (position e) (text e) /\ p' = (position e - 1)%nat
    else t' = text e /\ p' = position e).
Proof.
  intros I. destruct (ed_focus e I) as (A & r & B & F). destruct (text_cut _ _ _ _ F) as [Et Ed].
  pose proof (focus_pos _ _ _ _ F) as Ep. pose proof (focus_text _ _ _ _ F) as Ex. pose proof F as [E Ey Hx].
  pose proof (eo_rows _ I) as Hrows. rewrite E in Hrows. apply Forall_app in Hrows as [HA HB]. apply Forall_cons in HB as [Hr HB].
  assert (take (position e - 1) (text e) = take (position e - 1) (take (position e) (text e))) as Et1
    by (rewrite take_take; f_equal; lia).
  unfold backspace. destruct (Z.ltb_spec 0 (cur_x e)) as [Hpos|Hz].
  - rewrite Ey, (row_at_focus _ _ _ _ E). cbn [mbind option_bind]. destruct (del_char_ok r (cur_x e - 1) Hr ltac:(lia)) as [Hr' Ech].
    apply (edit_becomes e A r B); [done|done|done| |].
    + unfold len in *. rewrite Ech, length_app, length_take, length_drop. lia.
    + rewrite (proj2 (Nat.ltb_lt 0 _)) by lia. rewrite Et1, Et, Ed, Ech, Ep. split; [|lia].
      rewrite take_app_ge by lia. rewrite take_take. rewrite <- !app_assoc. do 2 f_equal; [f_equal; lia|]. f_equal. f_equal. lia.
  - assert (cur_x e = 0) as Hx0 by lia. rewrite Hx0 in *. cbn [Z.to_nat] in *. rewrite take_0, app_nil_r in Et. rewrite drop_0 in Ed.
    destruct A as [|p A _] using rev_ind; cbn [length] in *.
    { rewrite Ey. cbn [Z.of_nat Z.ltb]. rewrite Ep. cbn. exists e. split; [done|]. split; [done|]. split; [done|]. by rewrite Ep. }
    rewrite length_app in Ey. cbn [length] in Ey. rewrite (proj2 (Z.ltb_lt 0 (cur_y e))) by lia.
    apply Forall_app in HA as [HA Hp]. rewrite Forall_singleton in Hp.
    assert (row_at e (cur_y e - 1) = Some p) as ->.
    { replace (cur_y e - 1) with (Z.of_nat (length A)) by lia. apply (row_at_focus e A p (r :: B)). by rewrite E, <- app_assoc. }
    assert (row_at e (cur_y e) = Some r) as ->.
    { replace (cur_y e) with (Z.of_nat (length (A ++ [p]))) by (rewrite length_app; simpl; lia). by apply (row_at_focus e (A ++ [p]) r B). }
    cbn [mbind option_bind]. destruct (append_str_ok p (chars r) Hp (proj2 Hr)) as (p' & -> & Hp' & Ech). cbn [mbind option_bind].
    set (e1 := put_row e (cur_y e - 1) p'). assert (rows e1 = A ++ p' :: r :: B) as E1.
    { unfold e1. cbn. rewrite E, <- app_assoc. cbn [app]. replace (Z.to_nat (cur_y e - 1)) with (length A) by lia. apply put_focus. }
    set (e2 := row_delete e1 (cur_y e)). assert (rows e2 = A ++ p' :: B /\ rows_cap e2 = rows_cap e /\ cur_y e2 = cur_y e /\
      screen_rows e2 = screen_rows e /\ screen_cols e2 = screen_cols e) as (E2 & Ec2 & Ey2 & Es1 & Es2).
    { unfold e2. rewrite (row_delete_ok e1 (A ++ [p']) r B) by (rewrite ?E1, ?length_app, <- ?app_assoc; cbn [length app]; (done || lia)).
      cbn. by rewrite <- app_assoc. }
    clearbody e2. eapply (becomes_focus _ _ A p' B); [done|split; cbn; [done|rewrite Ey2; lia|unfold len; rewrite Ech, length_app; lia]| | | |]; cbn [cur_x screen_rows screen_cols set_redraw set_cur].
    + apply Forall_app. split; [done|]. by apply Forall_cons.
    + pose proof (eo_cap _ I) as Hc. unfold num_lines in *. cbn [rows rows_cap set_redraw set_cur]. rewrite E2, Ec2. rewrite E in Hc. rewrite !length_app in *. cbn [length] in *. lia.
    + rewrite Es1, Es2. apply I.
    + assert (position e = S (length (text_before A) + length (chars p))) as Ep1.
      { rewrite Ep, text_before_app, !length_app. simpl. lia. }
      rewrite (proj2 (Nat.ltb_lt 0 _)) by lia. rewrite Et1, Et, Ed, Ech, text_before_app, Ep1. split; [|unfold len; lia].
      rewrite (app_assoc (text_before A) (chars p) [NEWLINE]), take_app_le, take_ge by (rewrite length_app; lia). by rewrite <- !app_assoc.
Qed.

(** *** Moves *)
(** The cursor is on a row, perhaps behind its end. *)
Record placed (e e1 : editor) : Prop := {
  pl_rows : rows e1 = rows e;
  pl_cap : rows_cap e1 = rows_cap e;
  pl_size : screen_rows e1 = screen_rows e /\ screen_cols e1 = screen_cols e;
  pl_y : 0 <= cur_y e1 < num_lines e;
  pl_x : 0 <= cur_x e1 }.

Lemma cut_becomes e e1 x y : ed_ok e -> placed e (set_cur e1 x y) ->
  becomes (cut e1 x y) (fun t' p' => t' = text e /\ (p' <= length (text e))%nat /\
    forall A r B, rows e = A ++ r :: B -> y = Z.of_nat (length A) -> x <= len r -> p' = (length (text_before A) + Z.to_nat x)%nat).
Proof.
  intros I [Er Ec [Es1 Es2] Hy Hx]. cbn in Er, Ec, Es1, Es2, Hy, Hx. unfold num_lines in Hy.
  destruct (lookup_lt_is_Some_2 (rows e) (Z.to_nat y)) as [r Hr]; [lia|].
  destruct (list_elem_of_split_length _ _ _ Hr) as (A & B & E & El). unfold cut.
  assert (row_at e1 y = Some r) as ->. { unfold row_at. rewrite (proj2 (Z.ltb_ge y 0)) by lia. by rewrite Er. }
  cbn [mbind option_bind]. assert (0 <= len r) as H0 by (unfold len; lia).
  set (x' := if len r <? x then len r else x). assert (0 <= x' <= len r) as Hx' by (unfold x'; destruct (Z.ltb_spec (len r) x); lia).
  eapply (becomes_focus _ _ A r B); [done|split; cbn; [congruence|lia|done]| | | |]; cbn.
  - rewrite <- E. apply I.
  - unfold num_lines. cbn. rewrite Er, Ec. apply I.
  - rewrite Es1, Es2. apply I.
  - rewrite <- text_split, <- E. split; [done|]. split.
    + unfold text. rewrite E, text_split, !length_app. unfold len in Hx'. lia.
    + intros A' r' B' E' Ey' Hx1. rewrite E in E'. apply app_inj_1 in E' as [-> E']; [|lia]. injection E' as -> ->.
      unfold x'. rewrite (proj2 (Z.ltb_ge _ _)) by lia. done.
Qed.

Lemma placed_set e x y : 0 <= y < num_lines e -> 0 <= x -> placed e (set_cur e x y).
Proof. intros Hy Hx. by split. Qed.
Lemma placed_self e : ed_ok e -> placed e e.
Proof. intros I. destruct (ed_focus e I) as (A & r & B & [_ _ Hx]). split; try done; [apply I|lia]. Qed.

Lemma cut_placed e x y : 0 <= y < num_lines e -> 0 <= x -> exists e1, cut e x y = Some e1 /\ placed e e1.
Proof.
  intros Hy Hx. unfold cut, row_at. destruct (lookup_lt_is_Some_2 (rows e) (Z.to_nat y)) as [r Hr]; [unfold num_lines in Hy; lia|].
  rewrite (proj2 (Z.ltb_ge y 0)), Hr by lia. eexists. split; [done|]. apply placed_set; [done|].
  destruct (Z.ltb_spec (len r) x); [unfold len|]; lia.
Qed.

Lemma row_at_some e y : 0 <= y < num_lines e -> exists r, row_at e y = Some r.
Proof.
  unfold num_lines, row_at. intros Hy. rewrite (proj2 (Z.ltb_ge _ _)) by lia. apply lookup_lt_is_Some_2. lia.
Qed.

Lemma key_up_placed e : ed_ok e -> exists e1, key_up e = Some e1 /\ placed e e1.
Proof.
  intros I. pose proof (placed_self e I) as [_ _ _ Hy Hx]. pose proof (eo_size _ I) as [_ Hs]. unfold key_up. destruct (soft_wrap e).
  - assert (0 < max_w e) as Hw by (unfold max_w; lia). destruct (Z.ltb_spec 0 (cur_x e / max_w e)) as [Hd|].
    { eexists. split; [done|]. apply placed_set; [done|]. pose proof (Z.mul_div_le (cur_x e) (max_w e) Hw). nia. }
    destruct (Z.ltb_spec 0 (cur_y e)); [|eauto using placed_self].
    destruct (row_at_some e (cur_y e - 1)) as [r ->]; [lia|]. cbn [mbind option_bind]. apply cut_placed; [lia|].
    pose proof (Z.mod_pos_bound (cur_x e) _ Hw). assert (0 <= len r / max_w e) by (apply Z.div_pos; [unfold len|]; lia). unfold v_lines. nia.
  - eexists. split; [done|]. destruct (Z.ltb_spec 0 (cur_y e)); [apply placed_set; lia|by apply placed_self].
Qed.

Lemma key_down_placed e : ed_ok e -> exists e1, key_down e = Some e1 /\ placed e e1.
Proof.
  intros I. pose proof (placed_self e I) as [_ _ _ Hy Hx]. pose proof (eo_size _ I) as [_ Hs]. unfold key_down. destruct (soft_wrap e).
  - assert (0 < max_w e) as Hw by (unfold max_w; lia). destruct (row_at_some e (cur_y e) Hy) as [r ->]. cbn [mbind option_bind].
    destruct (_ <? _); [apply cut_placed; lia|]. destruct (Z.ltb_spec (cur_y e) (num_lines e - 1)); [|eauto using placed_self].
    apply cut_placed; [lia|]. by apply Z.mod_pos_bound.
  - eexists. split; [done|]. destruct (Z.ltb_spec (cur_y e) (num_lines e - 1)); [apply placed_set; lia|by apply placed_self].
Qed.

(** The cursor is on a character of a row, or on its end, at a position of the text. *)
Definition at_pos e e1 (p : nat) : Prop :=
  exists A r B, rows e = A ++ r :: B /\ cur_y e1 = Z.of_nat (length A) /\ cur_x e1 <= len r /\
    p = (length (text_before A) + Z.to_nat (cur_x e1))%nat.

Lemma key_right_placed e : ed_ok e ->
  exists e1, key_right e = Some e1 /\ placed e e1 /\ at_pos e e1 (Nat.min (S (position e)) (length (text e))).
Proof.
  intros I. destruct (ed_focus e I) as (A & r & B & F). pose proof (focus_pos _ _ _ _ F) as Ep. pose proof (focus_text _ _ _ _ F) as Et.
  pose proof F as [E Ey Hx]. pose proof (eo_y _ I) as Hy. unfold key_right.
  pose proof (row_at_focus _ _ _ _ E) as Hat. rewrite <- Ey in Hat. rewrite Hat. cbn [mbind option_bind].
  eexists. split; [done|]. unfold at_pos. rewrite Et, !length_app. destruct (Z.ltb_spec (cur_x e) (len r)) as [Hlt|Hge].
  { split; [apply placed_set; lia|]. exists A, r, B. cbn [set_cur cur_x cur_y]. unfold len in *. split; [done|]. split; [done|]. split; lia. }
  assert (num_lines e = Z.of_nat (length A) + 1 + Z.of_nat (length B)) as En by (unfold num_lines; rewrite E, length_app; simpl; lia).
  destruct (Z.ltb_spec (cur_y e) (num_lines e - 1)) as [Hn|Hn].
  - split; [apply placed_set; lia|]. destruct B as [|b B]; [simpl in En; lia|]. exists (A ++ [r]), b, B. rewrite E, <- app_assoc. split; [done|].
    cbn [set_cur cur_x cur_y]. rewrite text_before_app, !length_app, text_after_cons. cbn [length]. rewrite length_app. unfold len in *. split; [lia|]. split; lia.
  - split; [by apply placed_self|]. destruct B; [|simpl in En; lia]. exists A, r, []. split; [done|]. split; [done|]. split; [lia|]. change (length (text_after [])) with 0%nat. unfold len in *. lia.
Qed.

Lemma key_left_placed e : ed_ok e ->
  exists e1, key_left e = Some e1 /\ placed e e1 /\ at_pos e e1 (position e - 1).
Proof.
  intros I. destruct (ed_focus e I) as (A & r & B & F). pose proof (focus_pos _ _ _ _ F) as Ep.
  pose proof F as [E Ey Hx]. pose proof (eo_y _ I) as Hy. unfold key_left. destruct (Z.ltb_spec 0 (cur_x e)) as [Hlt|Hge].
  { eexists. split; [done|]. split; [apply placed_set; lia|]. exists A, r, B. cbn [set_cur cur_x cur_y]. split; [done|]. split; [done|]. split; lia. }
  destruct A as [|p A _] using rev_ind.
  - cbn in Ey. rewrite Ey. eexists. split; [done|]. split; [by apply placed_self|]. exists [], r, B. rewrite Ep. cbn. split; [done|]. split; [done|]. split; lia.
  - rewrite length_app in Ey. cbn in Ey. rewrite (proj2 (Z.ltb_lt 0 (cur_y e))) by lia. rewrite <- app_assoc in E.
    replace (cur_y e - 1) with (Z.of_nat (length A)) by lia. rewrite (row_at_focus _ _ _ _ E). cbn [mbind option_bind].
    eexists. split; [done|]. split; [apply placed_set; [lia|unfold len; lia]|]. exists A, p, ([r] ++ B). split; [done|].
    cbn [set_cur cur_x cur_y]. rewrite Ep, text_before_app, !length_app. cbn [length]. unfold len. split; [done|]. split; lia.
Qed.

(** The cut of the column that ends the handling of an escape sequence. *)
Lemma settle e o (P : list Z -> nat -> Prop) e1 : ed_ok e -> o = Some e1 -> placed e e1 ->
  (forall p', (p' <= length (text e))%nat -> (forall p, at_pos e e1 p -> p' = p) -> P (text e) p') ->
  becomes (e2 ← o; cut e2 (cur_x e2) (cur_y e2)) P.
Proof.
  intros I -> Hp HP. cbn [mbind option_bind].
  destruct (cut_becomes e e1 (cur_x e1) (cur_y e1) I) as (e2 & Ec & I2 & Et & Hle & Hpos); [by destruct Hp|].
  exists e2. split; [done|]. split; [done|]. rewrite Et. apply HP; [done|]. intros p (A & r & B & E & Ey & Hx & ->). eauto.
Qed.

Lemma at_self e : ed_ok e -> at_pos e e (position e).
Proof.
  intros I. destruct (ed_focus e I) as (A & r & B & F). pose proof (focus_pos _ _ _ _ F). destruct F as [E Ey Hx].
  exists A, r, B. split; [done|]. split; [done|]. split; [lia|done].
Qed.

Lemma same_becomes e e' : ed_ok e -> rows e' = rows e -> rows_cap e' = rows_cap e -> cur_x e' = cur_x e -> cur_y e' = cur_y e ->
  10 <= screen_rows e' <= 255 /\ 10 <= screen_cols e' <= 255 -> becomes (Some e') (fun t' p' => t' = text e /\ p' = position e).
Proof.
  intros I Er Ec Ex Ey Hs. exists e'. split; [done|]. unfold text, position. rewrite Er, Ex, Ey. split; [|done].
  destruct I as [Iy Ix Ic Ir _]. split; rewrite ?Er, ?Ec, ?Ex, ?Ey; unfold num_lines, row_at in *; rewrite ?Er; done.
Qed.

Lemma query_size_ok e reply : ed_ok e -> let e' := editor_query_size e reply in
  10 <= screen_rows e' <= 255 /\ 10 <= screen_cols e' <= 255 /\
  rows e' = rows e /\ rows_cap e' = rows_cap e /\ cur_x e' = cur_x e /\ cur_y e' = cur_y e.
Proof.
  intros I. unfold editor_query_size. set (e0 := match reply with [] => e | _ => _ end).
  assert (0 <= screen_rows e0 <= 255 /\ 0 <= screen_cols e0 <= 255 /\ rows e0 = rows e /\ rows_cap e0 = rows_cap e /\
    cur_x e0 = cur_x e /\ cur_y e0 = cur_y e) as (Hr & Hc & Hrest).
  { pose proof (eo_size _ I). assert (forall x, 0 <= u8 x <= 255) as Hu by (intros x; pose proof (u8_range x); lia). unfold e0.
    repeat case_match; cbn; repeat split; try done; try apply Hu; lia. }
  clearbody e0. cbv zeta. destruct (Z.ltb_spec (screen_cols e0) 10); cbn;
    match goal with |- context [if ?x <? 10 then _ else _] => destruct (Z.ltb_spec x 10) end; cbn in *; repeat split; try lia; apply Hrest.
Qed.

Lemma escape_ok e a b : ed_ok e -> becomes (escape e a b) (key_spec (Escape a b) (text e) (position e)).
Proof.
  intros I. pose proof (eo_size _ I) as Hs. unfold escape, key_spec. destruct (Z.eqb_spec a 91); cbn [negb andb]; [|by apply same_becomes].
  destruct (Z.eqb_spec b 65) as [->|]; [|destruct (Z.eqb_spec b 66) as [->|]; [|destruct (Z.eqb_spec b 67) as [->|]; [|destruct (Z.eqb_spec b 68) as [->|]]]];
    cbn [orb Z.eqb Pos.eqb].
  - destruct (key_up_placed e I) as (e1 & E & Hp). by apply (settle e _ _ e1).
  - destruct (key_down_placed e I) as (e1 & E & Hp). by apply (settle e _ _ e1).
  - destruct (key_right_placed e I) as (e1 & E & Hp & Hat). apply (settle e _ _ e1); [done..|]. auto.
  - destruct (key_left_placed e I) as (e1 & E & Hp & Hat). apply (settle e _ _ e1); [done..|]. auto.
  - apply (settle e _ _ e); [done|done|by apply placed_self|]. auto using at_self.
Qed.

Lemma handle_key_ok e k : ed_ok e -> becomes (handle_key e k) (key_spec k (text e) (position e)).
Proof.
  intros I. pose proof (eo_size _ I) as Hs. destruct k as [c|a b|reply]; cbn [handle_key]; [|by apply escape_ok|]; unfold key_spec.
  - destruct ((c =? 17) || (c =? 19)) eqn:E1.
    { apply orb_true_iff in E1 as [?%Z.eqb_eq|?%Z.eqb_eq]; subst c; by apply same_becomes. }
    destruct (Z.eqb_spec c 26) as [->|]; [by apply same_becomes|].
    destruct ((c =? 8) || (c =? 127)); [by apply backspace_ok|]. destruct ((c =? 13) || (c =? 10)) eqn:E2; [by apply enter_ok|].
    destruct ((32 <=? c) && (c <=? 126)) eqn:E3; [|by apply same_becomes]. apply type_char_ok; [done|].
    unfold NEWLINE. intros ->. done.
  - destruct (query_size_ok e reply I) as (Hr & Hc & E1 & E2 & E3 & E4). by apply same_becomes.
Qed.

Lemma run_keys_ok ks e : ed_ok e ->
  exists e', run_keys e ks = Some e' /\ ed_ok e' /\ keys_spec ks (text e) (position e) (text e') (position e').
Proof.
  revert e. induction ks as [|k ks IH]; intros e I; cbn [run_keys]; [eauto using keys_done|].
  destruct (handle_key_ok e k I) as (e1 & -> & I1 & Hk). destruct (IH e1 I1) as (e2 & E2 & I2 & Hks).
  exists e2. eauto using keys_next.
Qed.

(** *** Files *)
Lemma lines_cons bytes : exists l ls, lines bytes = l :: ls.
Proof. destruct bytes as [|b bytes]; cbn; [eauto|]. destruct (b =? NEWLINE), (lines bytes); eauto. Qed.

Lemma lines_clean bytes : Forall (fun l => NEWLINE ∉ l) (lines bytes).
Proof.
  induction bytes as [|b bytes IH]; cbn; [by apply Forall_singleton, not_elem_of_nil|].
  destruct (Z.eqb_spec b NEWLINE); [by apply Forall_cons; split; [apply not_elem_of_nil|]|].
  destruct (lines_cons bytes) as (l & ls & E). rewrite E in *. apply Forall_cons in IH as [Hl IH]. apply Forall_cons.
  split; [|done]. rewrite elem_of_cons. intros [?|?]; congruence.
Qed.

(** What a run of the loading loop leaves. *)
Record loads e e' (new : list (list Z)) : Prop := {
  ld_rows : chars <$> rows e' = (chars <$> rows e) ++ new;
  ld_ok : Forall row_ok (rows e');
  ld_cap : num_lines e' <= rows_cap e';
  ld_size : screen_rows e' = screen_rows e /\ screen_cols e' = screen_cols e }.

Lemma append_row e s : Forall row_ok (rows e) -> num_lines e <= rows_cap e -> NEWLINE ∉ s ->
  exists e', row_insert e (num_lines e) s = Some e' /\ loads e e' [s] /\ exists r, rows e' = rows e ++ [r].
Proof.
  intros Hr Hc Hs. destruct (row_insert_ok e (rows e) [] s) as (c & E & Hc'); [by rewrite app_nil_r|done|].
  unfold num_lines in *. rewrite E. eexists. split; [done|]. split; [|by eexists]. split; cbn; [by rewrite fmap_app| |unfold num_lines; cbn [with_rows rows]; rewrite length_app; simpl; lia|done].
  apply Forall_app. split; [done|]. apply Forall_singleton. split; [|done]. unfold len, ROW_OVERHEAD. cbn. lia.
Qed.

Lemma load_loop_ok bytes : forall e lb l ls, lines bytes = l :: ls -> Forall row_ok (rows e) -> num_lines e <= rows_cap e ->
  NEWLINE ∉ lb -> (length lb <= 1023)%nat ->
  exists e' lb' new, load_loop e bytes lb = Some (e', lb') /\ loads e e' new /\ NEWLINE ∉ lb' /\
    new ++ [lb'] = take 1023 (lb ++ l) :: (take 1023 <$> ls).
Proof.
  induction bytes as [|b bytes IH]; intros e lb l ls El Hr Hc Hn Hlen; cbn [load_loop lines] in *.
  { injection El as <- <-. exists e, lb, []. split; [done|]. split; [by split; rewrite ?app_nil_r|]. rewrite app_nil_r, take_ge by lia. done. }
  destruct (lines_cons bytes) as (l1 & ls1 & E1). rewrite E1 in El. destruct (Z.eqb_spec b NEWLINE) as [->|Hb].
  - injection El as <- <-. destruct (append_row e lb Hr Hc Hn) as (e1 & -> & [L1 L2 L3 L4] & _). cbn [mbind option_bind].
    destruct (IH e1 [] l1 ls1 E1 L2 L3 (not_elem_of_nil _) ltac:(simpl; lia)) as (e2 & lb2 & new & E & [M1 M2 M3 M4] & Hlb & Hnew).
    exists e2, lb2, (lb :: new). split; [done|]. split; [split|]; try done.
    + rewrite M1, L1, <- app_assoc. done.
    + destruct L4, M4. split; congruence.
    + split; [done|]. cbn [app]. rewrite Hnew, app_nil_r, (take_ge lb) by lia. done.
  - injection El as <- <-. destruct (Nat.ltb_spec (length lb) 1023).
    + destruct (IH e (lb ++ [b]) l1 ls1 E1) as (e2 & lb2 & new & E & HL & Hlb & Hnew); [done|done| | |].
      * rewrite elem_of_app, list_elem_of_singleton. intros [?|?]; congruence.
      * rewrite length_app. simpl. lia.
      * exists e2, lb2, new. by rewrite <- app_assoc in Hnew.
    + destruct (IH e lb l1 ls1 E1 Hr Hc Hn Hlen) as (e2 & lb2 & new & E & HL & Hlb & Hnew).
      exists e2, lb2, new. split; [done|]. split; [done|]. split; [done|]. rewrite Hnew, !take_app_le by lia. done.
Qed.

(** A freshly loaded editor, its cursor at the end of the text. *)
Lemma loaded_ok e e1 A r : loads e e1 ((chars <$> A) ++ [chars r]) -> rows e1 = A ++ [r] ->
  10 <= screen_rows e <= 255 /\ 10 <= screen_cols e <= 255 ->
  let e2 := set_redraw (set_cur e1 (len r) (num_lines e1 - 1)) true in ed_ok e2 /\ position e2 = length (text e2).
Proof.
  intros [L1 L2 L3 [L4 L5]] E Hs e2. assert (focus e2 A r []) as F.
  { split; cbn; [done| |unfold len; lia]. unfold num_lines. rewrite E, length_app. simpl. lia. }
  split.
  - apply (focus_ok _ _ _ _ F); [by rewrite <- E|done|]. cbn. by rewrite L4, L5.
  - rewrite (focus_pos _ _ _ _ F), (focus_text _ _ _ _ F), !length_app. change (length (text_after [])) with 0%nat. cbn. unfold len. lia.
Qed.

Lemma edtr_ld_ok e bytes : rows e = [] -> rows_cap e = 0 -> 10 <= screen_rows e <= 255 /\ 10 <= screen_cols e <= 255 ->
  exists e', edtr_ld e (Some bytes) = Some e' /\ ed_ok e' /\ (chars <$> rows e') = (take 1023 <$> lines bytes) /\ position e' = length (text e').
Proof.
  intros Er Ec Hs. destruct (lines_cons bytes) as (l & ls & El). unfold edtr_ld.
  destruct (load_loop_ok bytes e [] l ls El) as (e1 & lb & new & -> & [L1 L2 L3 L4] & Hlb & Hnew);
    [by rewrite Er|unfold num_lines; rewrite Er, Ec; done|apply not_elem_of_nil|simpl; lia|]. cbn [mbind option_bind].
  destruct (append_row e1 lb L2 L3 Hlb) as (e2 & -> & [M1 M2 M3 M4] & r & E2). cbn [mbind option_bind].
  rewrite Er in L1. cbn in L1. rewrite E2, fmap_app, L1 in M1. cbn in M1. apply app_inv_head in M1 as [= Elb].
  assert (num_lines e2 = Z.of_nat (length (rows e1)) + 1) as En by (unfold num_lines; rewrite E2, length_app; simpl; lia).
  rewrite (proj2 (Z.ltb_lt _ _)) by lia. replace (num_lines e2 - 1) with (Z.of_nat (length (rows e1))) by lia.
  rewrite (row_at_focus e2 (rows e1) r []) by done. cbn [mbind option_bind]. eexists. split; [done|].
  replace (Z.of_nat (length (rows e1))) with (num_lines e2 - 1) by lia.
  destruct (loaded_ok e e2 (rows e1) r) as [I Ep]; [|done|done|].
  { destruct L4, M4. split; [|done|done|split; congruence]. by rewrite E2, Er, fmap_app. }
  split; [done|]. split; [|done]. cbn [set_redraw set_cur rows]. rewrite E2, fmap_app, L1, El. cbn. by rewrite Elb, Hnew.
Qed.

Lemma nyamo_open_ok reply file : exists e, nyamo_open reply file = Some e /\ ed_ok e /\
  (chars <$> rows e) = (take 1023 <$> lines (default [] file)) /\ position e = length (text e).
Proof.
  unfold nyamo_open. set (e0 := editor_query_size start reply).
  assert (10 <= screen_rows e0 <= 255 /\ 10 <= screen_cols e0 <= 255 /\ rows e0 = [] /\ rows_cap e0 = 0 /\ cur_x e0 = 0 /\ cur_y e0 = 0)
    as (Hr & Hc & Er & Ec & Ex & Ey).
  { unfold e0, editor_query_size. repeat case_match; cbn in *; repeat split; try done; try lia;
      match goal with |- context [u8 ?x] => pose proof (u8_range x); lia end. }
  clearbody e0. assert (exists e, edtr_ld e0 file = Some e /\ ed_ok e /\
    (chars <$> rows e) = (take 1023 <$> lines (default [] file)) /\ position e = length (text e)) as (e & -> & I & Erows & Ep).
  { destruct file as [bytes|]; [by apply edtr_ld_ok|]. destruct (row_insert_ok e0 [] [] []) as (c & E & Hc'); [done|unfold num_lines; rewrite Er, Ec; done|].
    change (Z.of_nat (length [])) with 0 in E. cbn [edtr_ld]. rewrite E. eexists. split; [done|]. split; [|split; [done|]].
    - eapply (focus_ok _ [] _ []); [split; cbn; [done|done|rewrite Ex; unfold len; simpl; lia]| | |done].
      + apply Forall_singleton. split; [unfold len, ROW_OVERHEAD; simpl; lia|apply not_elem_of_nil].
      + unfold num_lines in *. rewrite Er in Hc'. exact Hc'.
    - unfold position, text. cbn. by rewrite Ex, Ey. }
  cbn [mbind option_bind]. exists e. split; [|done]. pose proof (eo_y _ I). rewrite (proj2 (Z.eqb_neq _ _)); [done|lia].
Qed.

Lemma sv_lines l : Forall row_ok l -> l <> [] -> lines (edtr_sv l) = (chars <$> l).
Proof.
  assert (forall s t, NEWLINE ∉ s -> lines (s ++ NEWLINE :: t) = s :: lines t) as Hnl.
  { induction s as [|c s IH]; intros t Hn; cbn [app lines]; [done|]. rewrite not_elem_of_cons in Hn. destruct Hn as [Hc Hn].
    rewrite (proj2 (Z.eqb_neq _ _)) by congruence. by rewrite IH. }
  assert (forall s, NEWLINE ∉ s -> lines s = [s]) as Hone.
  { induction s as [|c s IH]; intros Hn; cbn [lines]; [done|]. rewrite not_elem_of_cons in Hn. destruct Hn as [Hc Hn].
    rewrite (proj2 (Z.eqb_neq _ _)) by congruence. by rewrite IH. }
  induction l as [|r l IH]; intros Hl Hne; [done|]. apply Forall_cons in Hl as [[_ Hr] Hl].
  destruct l as [|r2 l]; [cbn; auto|]. change (edtr_sv (r :: r2 :: l)) with (chars r ++ NEWLINE :: edtr_sv (r2 :: l)).
  rewrite Hnl, IH by done. done.
Qed.

Lemma sv_of_lines l bytes : (chars <$> l) = lines bytes -> edtr_sv l = bytes.
Proof.
  revert l. induction bytes as [|b bytes IH]; intros l E; cbn [lines] in E.
  { destruct l as [|r [|? ?]]; cbn in E; [done| |done]. by injection E. }
  destruct (lines_cons bytes) as (l1 & ls1 & E1). rewrite E1 in E, IH. destruct (Z.eqb_spec b NEWLINE) as [->|Hb].
  - destruct l as [|r [|r2 l]]; cbn in E; [done|done|]. injection E as Er E2 El.
    change (edtr_sv (r :: r2 :: l)) with (chars r ++ NEWLINE :: edtr_sv (r2 :: l)). rewrite Er, (IH (r2 :: l)); [done|]. cbn. by rewrite E2, El.
  - destruct l as [|r l]; cbn in E; [done|]. injection E as Er El.
    specialize (IH (MkRow l1 0 :: l)). cbn [fmap list_fmap chars] in IH. change (list_fmap _ _ chars l) with (chars <$> l) in IH.
    rewrite El in IH. specialize (IH eq_refl). destruct l as [|r2 l]; cbn [edtr_sv chars] in *; rewrite Er; cbn [app]; by rewrite IH.
Qed.

Lemma short_take ls : short_lines ls -> (take 1023 <$> ls) = ls.
Proof. induction 1 as [|l ls Hl _ IH]; cbn; [done|]. rewrite take_ge by done. by rewrite <- IH at 2. Qed.
End Spec.

(** C27: The editor is a text with a position.  For every answer of the terminal and
    every file (or none), opening succeeds; the rows are the lines of the file, each
    cut to 1023 characters, so that a file whose lines are that short is the text,
    and the cursor is at its end.  Then every sequence of keys succeeds, without a
    store outside a buffer, and does to the text and the position what [key_spec]
    says of each key: a printable key inserts before the position, Enter inserts a
    newline, Backspace removes the character before it, across lines too, right and
    left move by one character of the text, and the others leave the text. *)
Theorem nyamo_edits_text reply file ks : exists e e',
  nyamo_open reply file = Some e /\
  (chars <$> rows e) = (take 1023 <$> lines (default [] file)) /\
  (short_lines (lines (default [] file)) -> text e = default [] file) /\
  position e = length (text e) /\
  run_keys e ks = Some e' /\ ed_ok e' /\ keys_spec ks (text e) (position e) (text e') (position e').
Proof.
  destruct (nyamo_open_ok reply file) as (e & E & I & Er & Ep). destruct (run_keys_ok ks e I) as (e' & Ek & I' & Hk).
  exists e, e'. split; [done|]. split; [done|]. split; [|done]. intros Hs. apply sv_of_lines. by rewrite Er, short_take.
Qed.

(** C28: What is saved is what is loaded.  In every editor that a session reaches, if
    no row is longer than 1023 characters, then saving and opening the file again
    gives the same rows. *)
Theorem nyamo_save_load reply file ks e e' reply' :
  nyamo_open reply file = Some e -> run_keys e ks = Some e' -> short_lines (chars <$> rows e') ->
  exists e2, nyamo_open reply' (Some (edtr_sv (rows e'))) = Some e2 /\
    (chars <$> rows e2) = (chars <$> rows e') /\ text e2 = text e'.
Proof.
  intros E Ek Hs. destruct (nyamo_open_ok reply file) as (e0 & E0 & I & _). rewrite E in E0. injection E0 as <-.
  destruct (run_keys_ok ks e I) as (e1 & Ek1 & I' & _). rewrite Ek in Ek1. injection Ek1 as <-.
  destruct (nyamo_open_ok reply' (Some (edtr_sv (rows e')))) as (e2 & E2 & _ & Er & _). exists e2. split; [done|].
  assert (lines (edtr_sv (rows e')) = (chars <$> rows e')) as El.
  { apply sv_lines; [apply I'|]. pose proof (eo_y _ I'). unfold num_lines in *. intros En. rewrite En in *. cbn in *. lia. }
  change (default [] (Some (edtr_sv (rows e')))) with (edtr_sv (rows e')) in Er. rewrite El, short_take in Er by done. split; [done|].
  unfold text at 1. apply sv_of_lines. by rewrite Er, <- El.
Qed.

(** A session: two lines are opened, and some keys typed. *)
Definition demo_open : editor := default start (nyamo_open [27; 80; 24; 81] (Some [104; 105; 10; 10])).
Definition demo_keys : list key := [Byte 33; Byte 13; Escape 91 65; Escape 91 68; Byte 127; Byte 19].
Definition demo : editor := default start (run_keys demo_open demo_keys).

Lemma nyamo_save_load_witness : edtr_sv (rows demo) = [104; 105; 10; 33; 10] /\ exists e2,
  nyamo_open [] (Some (edtr_sv (rows demo))) = Some e2 /\ (chars <$> rows e2) = (chars <$> rows demo) /\ text e2 = text demo.
Proof.
  split; [vm_compute; reflexivity|].
  apply (nyamo_save_load [27; 80; 24; 81] (Some [104; 105; 10; 10]) demo_keys demo_open demo []);
    [vm_compute; reflexivity|vm_compute; reflexivity|]. unfold short_lines.
  apply (bool_decide_unpack _). vm_compute. exact Logic.I.
Defined.
