(* ===== verification/NyamoDraw.v ===== *)
(** The drawing of the text editor, [edtr_drw] of [src/progs/nyamo.c].

    The bytes gathered in [mega_buf] are a list; they are appended one after the
    other, so a store outside the buffer is a list that does not fit: [None].  An
    escape sequence to move the cursor has the same digits as that of the C library
    ([Ansi.decimal]). *)
From stdpp Require Import strings.
From S2P Require Import Prelude Ansi Nyamo.

Definition str (s : string) : list Z := (fun c => Z.of_nat (Ascii.nat_of_ascii c)) <$> String.list_ascii_of_string s.

Section Draw.
Implicit Types (e : editor) (r : ERow) (s : list Z) (w : Z).

Definition ensure_mega_buf e : editor :=
  let needed := screen_rows e * (screen_cols e + ROW_OVERHEAD) + SAFETY_OVERHEAD in
  if mega_cap e <? needed then set_mega e needed else e.

Definition append_int (val : Z) : list Z := if val =? 0 then [48] else rev (tmp_digits 10 val).
Definition append_move_cursor (r c : Z) : list Z := [27; 91] ++ append_int r ++ [59] ++ append_int c ++ [72].
Definition spaces (n : Z) : list Z := replicate (Z.to_nat n) 32.

(** *** The status bar *)
Definition chunks (wrap : bool) : list (list Z) :=
  [str " Nyamo "; str " | [Ctrl+S] Save "; str " | [Ctrl+Q] Quit "; if wrap then str " | [Ctrl+Z] Wrap: ON " else str " | [Ctrl+Z] Wrap: OFF "].

Definition stat_step w (acc : Z * Z) (chunk : list Z) : Z * Z :=
  let '(stat_bar_rows, usage) := acc in
  let n := Z.of_nat (length chunk) in
  if (w <? usage + n) && (0 <? usage) then (stat_bar_rows + 1, n) else (stat_bar_rows, usage + n).
Definition stat_bar_rows e : Z := fst (foldl (stat_step (max_w e)) (1, 0) (chunks (soft_wrap e))).

Definition text_area_rows e : Z :=
  let n := screen_rows e - stat_bar_rows e - 1 in if n <? 1 then 1 else n.

Definition bar_step w (acc : Z * Z * list Z) (chunk : list Z) : Z * Z * list Z :=
  let '(current_r, usage, out) := acc in
  let n := Z.of_nat (length chunk) in
  let '(current_r, usage, out) :=
    if (w <? usage + n) && (0 <? usage)
    then (current_r + 1, 0, out ++ spaces (w - usage) ++ append_move_cursor (current_r + 1) 1) else (current_r, usage, out) in
  let print_len := if w <? usage + n then w - usage else n in
  if 0 <? print_len then (current_r, usage + print_len, out ++ take (Z.to_nat print_len) chunk) else (current_r, usage, out).

(** The line of dashes and the bar below the text. *)
Definition draw_bar e : list Z :=
  let w := max_w e in
  let ta := text_area_rows e in
  let current_r := ta + 2 in
  let '(_, usage, out) := foldl (bar_step w) (current_r, 0, []) (chunks (soft_wrap e)) in
  append_move_cursor (ta + 1) 1 ++ replicate (Z.to_nat w) 45 ++ (27 :: str "[7m") ++ append_move_cursor current_r 1 ++ out ++ spaces (w - usage).

(** *** Lines of text *)
(** [n] characters and blanks up to the width *)
Definition padded w s (n : Z) : list Z := (if 0 <? n then take (Z.to_nat n) s else []) ++ spaces (w - n).

Definition wrap_line w r (v : Z) : list Z :=
  let char_start := v * w in
  let char_len := len r - char_start in
  padded w (drop (Z.to_nat char_start) (chars r)) (if w <? char_len then w else char_len).

Definition cut_line w (col_offset : Z) r : list Z :=
  let visible_len := if col_offset <? len r then (if w <? len r - col_offset then w else len r - col_offset) else 0 in
  padded w (drop (Z.to_nat col_offset) (chars r)) visible_len.

Definition draw_line (y : Z) s : list Z := append_move_cursor (y + 1) 1 ++ s.

(** *** With soft wrap *)
Definition lines_above e : Z := foldl (fun n r => n + v_lines e r) 0 (take (Z.to_nat (cur_y e)) (rows e)).

Definition wrap_step e (ta current_vy : Z) r (acc : Z * list Z) (v : Z) : Z * list Z :=
  let '(drawn_lines, out) := acc in
  let this_vy := current_vy + v in
  if (row_offset e <=? this_vy) && (this_vy <? row_offset e + ta)
  then (drawn_lines + 1, out ++ draw_line drawn_lines (wrap_line (max_w e) r v)) else acc.

Fixpoint wrap_rows e (ta : Z) (l : list ERow) (current_vy : Z) (acc : Z * list Z) : Z * list Z :=
  match l with
  | [] => acc
  | r :: l =>
      if ta <=? fst acc then acc
      else
        let v := v_lines e r in
        if current_vy + v <=? row_offset e then wrap_rows e ta l (current_vy + v) acc
        else wrap_rows e ta l (current_vy + v) (foldl (wrap_step e ta current_vy r) acc (seqZ 0 v))
  end.

Definition wrap_full e (ta : Z) : list Z :=
  let '(drawn_lines, out) := wrap_rows e ta (rows e) 0 (0, []) in
  out ++ (seqZ drawn_lines (ta - drawn_lines) ≫= fun i => draw_line i (spaces (max_w e))).

Definition wrap_row e (ta : Z) r : list Z :=
  let current_vy := lines_above e in
  seqZ 0 (v_lines e r) ≫= fun v =>
    let this_vy := current_vy + v in
    if (row_offset e <=? this_vy) && (this_vy <? row_offset e + ta)
    then draw_line (this_vy - row_offset e) (wrap_line (max_w e) r v) else [].

(** *** Without *)
Definition cut_full e (ta : Z) : list Z :=
  seqZ 0 ta ≫= fun i =>
    draw_line i (match row_at e (row_offset e + i) with
                 | Some r => cut_line (max_w e) (col_offset e) r
                 | None => spaces (max_w e)
                 end).

Definition cut_row e r : list Z := draw_line (cur_y e - row_offset e) (cut_line (max_w e) (col_offset e) r).

(** *** The whole screen *)
(** An offset moved so that a position is on the screen. *)
Definition scroll_to (offset pos size : Z) : Z :=
  let offset := if pos <? offset then pos else offset in
  if offset + size <=? pos then pos - size + 1 else offset.

(** The new offsets and the place of the cursor. *)
Definition scroll e : editor * (Z * Z) :=
  let ta := text_area_rows e in
  let w := max_w e in
  if soft_wrap e then
    let cursor_vy := lines_above e + cur_x e / w in
    let ro := scroll_to (row_offset e) cursor_vy ta in
    let e' := set_view e ro (col_offset e) in
    (if row_offset e =? ro then e' else set_redraw e' true, (cursor_vy - ro, cur_x e mod w))
  else
    let ro := scroll_to (row_offset e) (cur_y e) ta in
    let co := scroll_to (col_offset e) (cur_x e) w in
    let e' := set_view e ro co in
    (if (row_offset e =? ro) && (col_offset e =? co) then e' else set_redraw e' true, (cur_y e - ro, cur_x e - co)).

Definition draw_text e : option (list Z) :=
  let ta := text_area_rows e in
  if need_full_redraw e then Some (if soft_wrap e then wrap_full e ta else cut_full e ta)
  else r ← row_at e (cur_y e); Some (if soft_wrap e then wrap_row e ta r else cut_row e r).

Definition edtr_drw e : option (editor * list Z) :=
  let e := ensure_mega_buf e in
  if num_lines e <=? cur_y e then None
  else
    let '(e, (display_cy, display_cx)) := scroll e in
    text ← draw_text e;
    let out := (27 :: str "[?25l") ++ (27 :: str "[0m") ++ text ++ draw_bar e ++ (27 :: str "[0m") ++ append_move_cursor (display_cy + 1) (display_cx + 1) ++ (27 :: str "[?25h") in
    if mega_cap e <=? Z.of_nat (length out) then None else Some (set_redraw e false, out).

(** [mega_buf] is written 256 bytes at a time. *)
Fixpoint written (fuel : nat) (out : list Z) : list (list Z) :=
  match fuel, out with
  | S fuel, _ :: _ => take 256 out :: written fuel (drop 256 out)
  | _, _ => []
  end.
End Draw.
