(* ===== verification/Shell.v ===== *)
(** The shell, [src/progs/shell.c]: the line editor with its history and completion,
    the words of a command, redirections and pipelines, and the commands that filter
    or print.

    [line] is the part of the line buffer before the cursor; a string that does not fit
    its buffer is [None].  What is printed is gathered in [sh_out].  The working
    directory and the entries of directories are arguments.  The descriptors of a
    process are a map from number to file: [dup2] and [close] change it as
    [SysFile.sys_dup2] and [SysFile.sys_close] do the table of a task, [fork] copies
    it, and [open] and [pipe] take the lowest numbers that are free, from 3 on. *)
From stdpp Require Import strings.
From S2P Require Import Prelude Ansi NyamoDraw.

Definition HIST_MAX : Z := 10.
Definition CMD_MAX_LEN : Z := 128.

Definition builtin_cmds : list (list Z) :=
  str <$> ["hi"; "reboot"; "shutdown"; "exit"; "clear"; "ls"; "pwd"; "cd"; "cat"; "grep"; "echo"; "rm"; "touch"; "cp"; "mv"; "mkdir";
           "ps"; "free"; "kill"; "help"]%string.

(** The string in a buffer: up to the first NUL. *)
Fixpoint cstr (l : list Z) : list Z :=
  match l with
  | [] => []
  | c :: l => if c =? 0 then [] else c :: cstr l
  end.

(** *** The line editor *)
Record shell := Shell { line : list Z; history : list (list Z); hist_count : Z; hist_curr : Z; sh_out : list Z }.

(** An entry of a directory: its name, and whether it is a directory. *)
Record entry := Entry { en_name : list Z; en_dir : bool }.

Section Editor.
Context (cwd : option (list Z)) (bin : option (list entry)) (dir : list Z -> option (list entry)).
Implicit Types (s : shell) (c : Z).

Definition sh_print s (l : list Z) : shell := Shell (line s) (history s) (hist_count s) (hist_curr s) (sh_out s ++ cstr l).
Definition len s : Z := Z.of_nat (length (line s)).

(** [line[i] = 0] needs [i < 128]. *)
Definition set_line s (l : list Z) : option shell :=
  if CMD_MAX_LEN <=? Z.of_nat (length l) then None else Some (Shell l (history s) (hist_count s) (hist_curr s) (sh_out s)).
Definition set_curr s (k : Z) : shell := Shell (line s) (history s) (hist_count s) k (sh_out s).

Definition clear_curr_line s : shell := foldl (fun s _ => sh_print s [8; 32; 8]) s (seqZ 0 (len s)).

Definition print_prompt s : shell :=
  match cwd with
  | Some p => sh_print (sh_print (sh_print s (27 :: str "[33mNyanOS ")) p) (str "> " ++ 27 :: str "[32m")
  | None => sh_print s (27 :: str "[33mNyanOS ???> " ++ 27 :: str "[32m")
  end.

(** [strcpy(history[hist_count % HIST_MAX], line); hist_count++] *)
Definition remember s : option shell :=
  let l := cstr (line s) in
  if (CMD_MAX_LEN <=? Z.of_nat (length l)) || (2 ^ 31 - 1 <=? hist_count s) then None
  else Some (Shell (line s) (<[Z.to_nat (Z.rem (hist_count s) HIST_MAX) := l]> (history s)) (hist_count s + 1) (hist_curr s) (sh_out s)).

(** [strcpy(line, history[hist_curr % HIST_MAX]); i = strlen(line); print(line)] *)
Definition recall s : option shell :=
  h ← history s !! Z.to_nat (Z.rem (hist_curr s) HIST_MAX);
  s ← set_line s (cstr h); Some (sh_print s (line s)).

Definition hist_up s : option shell :=
  if 0 <? hist_count s then
    let min_idx := if HIST_MAX <=? hist_count s then hist_count s - HIST_MAX else 0 in
    if min_idx <? hist_curr s then recall (clear_curr_line (set_curr s (hist_curr s - 1))) else Some s
  else Some s.

Definition hist_down s : option shell :=
  if hist_curr s <? hist_count s then
    let s := clear_curr_line (set_curr s (hist_curr s + 1)) in
    if hist_curr s =? hist_count s then set_line s [] else recall s
  else Some s.

(** *** Completion *)
(** [while (tok_start > 0 && line[tok_start - 1] != ' ') tok_start--]: the last word of
    the line, and what is before it. *)
Fixpoint tok_len (r : list Z) : nat :=
  match r with
  | [] => 0%nat
  | c :: r => if c =? 32 then 0%nat else S (tok_len r)
  end.
Definition split_tok (l : list Z) : list Z * list Z :=
  let tok_start := (length l - tok_len (rev l))%nat in (take tok_start l, drop tok_start l).

Definition last_slash (tok : list Z) : Z :=
  snd (foldl (fun '(i, last) c => (i + 1, if c =? 47 then i else last)) (0, -1) (cstr tok)).

Definition matches (prefix : list Z) (l : list entry) : list entry := filter (fun e => prefix `prefix_of` en_name e) l.

Definition candidates (l : list Z) : list Z * list entry :=
  let '(before, tok) := split_tok l in
  let tok := cstr tok in
  let is_first_word := forallb (fun c => c =? 32) before in
  let ls := last_slash tok in
  let dir_path := if 0 <=? ls then (if ls =? 0 then [47] else take (Z.to_nat ls) tok) else default [47] cwd in
  let prefix := if 0 <=? ls then drop (Z.to_nat (ls + 1)) tok else tok in
  let cmds := if is_first_word && (ls =? -1)
              then matches prefix ((fun n => Entry n false) <$> builtin_cmds) ++ matches prefix (default [] bin) else [] in
  (prefix, cmds ++ matches prefix (filter (fun e => en_name e <> [46] /\ en_name e <> [46; 46]) (default [] (dir dir_path)))).

(** The rest of the name, while there is room. *)
Fixpoint append_suffix s (suffix : list Z) : shell :=
  match suffix with
  | [] => s
  | ch :: suffix =>
      if len s <? 125 then append_suffix (sh_print (Shell (line s ++ [ch]) (history s) (hist_count s) (hist_curr s) (sh_out s)) [ch]) suffix else s
  end.

Definition handle_tab_completion s : option shell :=
  match candidates (line s) with
  | (prefix, [m]) =>
      let s := append_suffix s (drop (length prefix) (cstr (en_name m))) in
      let tail := if en_dir m then 47 else 32 in
      if len s <? 126 then s ← set_line s (line s ++ [tail]); Some (sh_print s [tail]) else Some s
  | _ => Some s
  end.

(** *** Keys *)
(** A byte, or the two after an escape; an escape that nothing follows has no effect. *)
Inductive skey := Key (c : Z) | Seq (a b : Z).

(** The state after a key; true when the line is finished. *)
Definition sh_key s (k : skey) : option (shell * bool) :=
  match k with
  | Seq a b =>
      if a =? 91 then
        s ← (if b =? 65 then hist_up s else if b =? 66 then hist_down s else Some s); Some (s, false)
      else Some (s, false)
  | Key c =>
      if c =? 10 then
        let s := sh_print s [10] in
        if 0 <? len s then s ← remember s; Some (s, true) else Some (s, true)
      else if c =? 3 then s ← set_line (sh_print s [94; 67; 10]) []; Some (s, true)
      else if c =? 9 then s ← handle_tab_completion s; Some (s, false)
      else if c =? 8 then
        if 0 <? len s then s ← set_line s (take (length (line s) - 1) (line s)); Some (sh_print s [8], false) else Some (s, false)
      else if c =? 27 then Some (s, false)
      else if c =? 12 then Some (sh_print (print_prompt (sh_print s (27 :: str "[0m" ++ 27 :: str "[2J" ++ 27 :: str "[1;1H"))) (line s), false)
      else if len s <? 127 then s ← set_line s (line s ++ [c]); Some (sh_print s [c], false)
      else Some (s, false)
  end.

(** The prompt and an empty line *)
Definition sh_begin s : shell :=
  let s := print_prompt s in Shell [] (history s) (hist_count s) (hist_count s) (sh_out s).

(** Keys up to the end of a line; the keys that are left. *)
Fixpoint sh_line s (ks : list skey) : option (shell * list skey) :=
  match ks with
  | [] => Some (s, [])
  | k :: ks => '(s, fin) ← sh_key s k; if fin : bool then Some (s, ks) else sh_line s ks
  end.
End Editor.

(** The outer loop of [main]: a prompt and the keys of a line, in the directory where
    it is entered.  The commands in between do not touch the editor. *)
Record env := Env { e_cwd : option (list Z); e_bin : option (list entry); e_dir : list Z -> option (list entry) }.

Definition main_line (s : shell) (v : env) (ks : list skey) : option shell :=
  fst <$> sh_line (e_cwd v) (e_bin v) (e_dir v) (sh_begin (e_cwd v) s) ks.
Definition main_lines (s : shell) (l : list (env * list skey)) : option shell :=
  ofold (fun s '(v, ks) => main_line s v ks) s l.

Definition sh_start : shell :=
  Shell [] (replicate 10 []) 0 0
    ((27 :: str "[32m") ++ (27 :: str "[40m") ++ (27 :: str "[2J") ++ (27 :: str "[1;1H") ++ str "Welcome to NyanOS Shell!" ++ 10 ::
     str "Type 'help' for commands (ps, free, kill, ls, cd, cat, grep, pipes, Tab-complete)." ++ [10; 10]).

(** *** The words of a command *)
Definition is_blank (c : Z) : bool := (c =? 32) || (c =? 10) || (c =? 9).

(** The loop of [parse_cmd]: the words found so far, and whether the last one is open.
    [argv] has 32 places, the last for the NULL. *)
Fixpoint parse_loop (l : list Z) (argv : list (list Z)) (in_tok : bool) : option (list (list Z)) :=
  match l with
  | [] => Some argv
  | c :: l =>
      if c =? 0 then Some argv
      else if is_blank c then parse_loop l argv false
      else if in_tok then parse_loop l (alter (fun w => w ++ [c]) (length argv - 1)%nat argv) true
      else if 32 <=? Z.of_nat (length argv) then None
      else parse_loop l (argv ++ [[c]]) true
  end.
Definition parse_cmd (l : list Z) : option (list (list Z)) :=
  argv ← parse_loop l [] false; if 32 <=? Z.of_nat (length argv) then None else Some argv.

(** [find_char]: the first word equal to a string, -1 when there is none. *)
Fixpoint find_from (i : Z) (argv : list (list Z)) (w : list Z) : Z :=
  match argv with
  | [] => -1
  | a :: argv => if bool_decide (a = w) then i else find_from (i + 1) argv w
  end.
Definition find_char (argv : list (list Z)) (w : list Z) : Z := find_from 0 argv w.

(** *** Descriptors *)
Inductive mode := ReadOnly | Append | Truncate.

Section Files.
Context {F : Type}.
Implicit Types (t : gmap Z F) (argv : list (list Z)).

Definition dup2 t (o n : Z) : gmap Z F := match t !! o with Some f => if o =? n then t else <[n := f]> t | None => t end.
Definition close t (fd : Z) : gmap Z F := delete fd t.

(** The number a new file gets, as [SysFile.find_free_fd] chooses it. *)
Definition free_fd t : option Z := scan 13 3 (fun i => bool_decide (t !! i = None)).

(** What opening a file gives. *)
Context (open : list Z -> mode -> option F).

(** The words, the descriptors, and which of 9 and 10 hold the saved ones. *)
Record redirected := Redir { rd_argv : list (list Z); rd_fds : gmap Z F; saved_stdin : bool; saved_stdout : bool }.

Definition redirect t (path : list Z) (m : mode) (std save : Z) : gmap Z F * bool :=
  match open path m, free_fd t with
  | Some f, Some fd => (close (dup2 (dup2 (<[fd := f]> t) std save) fd std) fd, true)
  | _, _ => (t, false)
  end.

Definition setup_in argv t : redirected :=
  let i := find_char argv [60] in
  match (if 0 <=? i then argv !! Z.to_nat (i + 1) else None) with
  | Some path =>
      let '(t, ok) := redirect t path ReadOnly 0 9 in
      Redir (take (Z.to_nat i) argv ++ drop (Z.to_nat (i + 2)) argv) t ok false
  | None => Redir argv t false false
  end.

Definition setup_redirections argv t : redirected :=
  let r := setup_in argv t in
  let argv := rd_argv r in
  let append_idx := find_char argv [62; 62] in
  let trunc_idx := find_char argv [62] in
  let i := if 0 <=? append_idx then append_idx else trunc_idx in
  match (if 0 <=? i then argv !! Z.to_nat (i + 1) else None) with
  | Some path =>
      let '(t, ok) := redirect (rd_fds r) path (if 0 <=? append_idx then Append else Truncate) 1 10 in
      Redir (take (Z.to_nat i) argv) t (saved_stdin r) ok
  | None => r
  end.

Definition restore_redirections t (saved_in saved_out : bool) : gmap Z F :=
  let t := if saved_in then close (dup2 t 9 0) 9 else t in
  if saved_out then close (dup2 t 10 1) 10 else t.

(** *** Programs *)
(** [exec_cmd]: the command of the shell itself that is run; [None] is 0, none. *)
Inductive builtin :=
  | Cmd_hi | Cmd_reboot | Cmd_exit | Cmd_clear | Cmd_ls | Cmd_pwd | Cmd_cd | Cmd_cat | Cmd_ps | Cmd_free | Cmd_kill | Cmd_help
  | Cmd_grep | Cmd_echo | Cmd_rm | Cmd_touch | Cmd_cp | Cmd_mkdir | Cmd_mv | Cmd_shutdown.
Definition is_str (name : list Z) (s : string) : bool := bool_decide (name = str s).
Definition exec_cmd (name : list Z) : option builtin :=
  if is_str name "hi" then Some Cmd_hi
  else if is_str name "reboot" then Some Cmd_reboot
  else if is_str name "exit" then Some Cmd_exit
  else if is_str name "clear" then Some Cmd_clear
  else if is_str name "ls" then Some Cmd_ls
  else if is_str name "pwd" then Some Cmd_pwd
  else if is_str name "cd" then Some Cmd_cd
  else if is_str name "cat" then Some Cmd_cat
  else if is_str name "ps" then Some Cmd_ps
  else if is_str name "free" then Some Cmd_free
  else if is_str name "kill" then Some Cmd_kill
  else if is_str name "help" then Some Cmd_help
  else if is_str name "grep" then Some Cmd_grep
  else if is_str name "echo" then Some Cmd_echo
  else if is_str name "rm" then Some Cmd_rm
  else if is_str name "touch" then Some Cmd_touch
  else if is_str name "cp" then Some Cmd_cp
  else if is_str name "mkdir" then Some Cmd_mkdir
  else if is_str name "mv" then Some Cmd_mv
  else if is_str name "shutdown" then Some Cmd_shutdown
  else None.

(** [exec_external_with_path]: the files that are tried, one after the other. *)
Definition exec_paths (name : list Z) : list (list Z) :=
  name :: (if bool_decide (47 ∈ name) then [] else [str "/bin/" ++ take 121 name]).

Inductive program := Builtin (cmd : builtin) (argv : list (list Z)) (fds : gmap Z F) | External (paths argv : list (list Z)) (fds : gmap Z F).

(** [None]: there is no name to compare. *)
Definition program_of argv t : option program :=
  match argv with
  | [] => None
  | name :: _ => Some (match exec_cmd name with Some c => Builtin c argv t | None => External (exec_paths name) argv t end)
  end.

(** *** Pipelines *)
(** The stages: the words between the bars, at most 8; a bar at the end starts none. *)
Fixpoint stages_loop argv (cur : list (list Z)) (n : Z) (drop_it : bool) : list (list (list Z)) :=
  match argv with
  | [] => if drop_it then [] else [cur]
  | a :: argv =>
      if bool_decide (a = [124]) then
        (if drop_it then [] else [cur]) ++
        (if (n <? 8) && negb (bool_decide (argv = [])) then stages_loop argv [] (n + 1) false else stages_loop argv [] n true)
      else stages_loop argv (cur ++ [a]) n drop_it
  end.
Definition stages argv : list (list (list Z)) := stages_loop argv [] 1 false.

(** The pipe after a stage: whether there is one to be had, and its ends. *)
Context (pipes : nat -> bool) (read_end write_end : nat -> F).

Definition pipe (s : nat) t : option (gmap Z F * Z * Z) :=
  if pipes s then
    r ← free_fd t;
    let t := <[r := read_end s]> t in
    w ← free_fd t;
    Some (<[w := write_end s]> t, r, w)
  else None.

Definition opt_close t (fd : option Z) : gmap Z F := match fd with Some fd => close t fd | None => t end.
Definition opt_move t (fd : option Z) (std : Z) : gmap Z F := match fd with Some fd => close (dup2 t fd std) fd | None => t end.

(** What the child of a stage does up to its program. *)
Definition child argv t (prev_read_fd pipe_r pipe_w : option Z) : option program :=
  let t := opt_move (opt_close (opt_move t prev_read_fd 0) pipe_r) pipe_w 1 in
  let r := setup_redirections argv t in program_of (rd_argv r) (rd_fds r).

(** The loop over the stages: the children, and the descriptors of the shell. *)
Fixpoint pipeline_loop (s : nat) (l : list (list (list Z))) t (prev_read_fd : option Z) : list (option program) * gmap Z F :=
  match l with
  | [] => ([], opt_close t prev_read_fd)
  | argv :: l =>
      let step t pipe_r pipe_w :=
        let c := child argv t prev_read_fd pipe_r pipe_w in
        let '(children, t) := pipeline_loop (S s) l (opt_close (opt_close t prev_read_fd) pipe_w) pipe_r in (c :: children, t) in
      match l with
      | [] => step t None None
      | _ => match pipe s t with
             | None => ([], opt_close t prev_read_fd)
             | Some (t, r, w) => step t (Some r) (Some w)
             end
      end
  end.
Definition run_pipeline argv t : list (option program) * gmap Z F := pipeline_loop 0 (stages argv) t None.

(** *** A line *)
(** What a line starts: the stages of a pipeline, or one program; [wait] is whether the
    next prompt comes after its end. *)
Inductive job := Pipeline (l : list (option program)) | Single (p : program) (wait : bool) | Nothing.

(** A command of the shell is run by the shell itself, also in front of an ampersand. *)
Definition run_single (p : program) (foreground : bool) : job :=
  Single p (match p with Builtin _ _ _ => true | External _ _ _ => foreground end).

Definition sh_exec (line : list Z) t : option (job * gmap Z F) :=
  argv ← parse_cmd line;
  if bool_decide (argv = []) then Some (Nothing, t)
  else if 0 <=? find_char argv [124] then
    let '(children, t) := run_pipeline argv t in Some (Pipeline children, t)
  else
    let amper_idx := find_char argv [38] in
    let argv := if amper_idx =? -1 then argv else take (Z.to_nat amper_idx) argv in
    let r := setup_redirections argv t in
    Some (from_option (fun p => run_single p (amper_idx =? -1)) Nothing (program_of (rd_argv r) (rd_fds r)),
          restore_redirections (rd_fds r) (saved_stdin r) (saved_stdout r)).
End Files.
Arguments redirected : clear implicits.
Arguments program : clear implicits.
Arguments job : clear implicits.
Arguments run_single {F} p foreground : simpl never.

(** *** Commands that print *)
Definition print_padded (l : list Z) (width : Z) : list Z := cstr l ++ replicate (Z.to_nat (width - Z.of_nat (length (cstr l)))) 32.
Definition int_digits (num : Z) : list Z :=
  if num =? 0 then [48] else (if num <? 0 then [45] else []) ++ rev (tmp_digits 10 (if num <? 0 then s32 (- num) else num)).
Definition print_int_padded (num width : Z) : list Z := print_padded (int_digits num) width.

(** [parse_pid_str]: the number, -1 when a character is not a digit. *)
Fixpoint pid_loop (l : list Z) (res : Z) : Z :=
  match l with
  | [] => res
  | c :: l => if (c <? 48) || (57 <? c) then -1 else pid_loop l (s32 (res * 10 + (c - 48)))
  end.
Definition parse_pid_str (l : list Z) : Z := if bool_decide (l = []) then -1 else pid_loop l 0.

(** [cmd_echo] prints its arguments. *)
Fixpoint echo_words (l : list (list Z)) : list Z :=
  match l with
  | [] => []
  | [w] => w
  | w :: l => w ++ 32 :: echo_words l
  end.
Definition cmd_echo (argv : list (list Z)) : list Z := echo_words (drop 1 argv) ++ [10].

(** [cmd_grep] on the bytes of its input; [strstr] finds the keyword in a line. *)
Definition contains (keyword l : list Z) : bool := existsb (fun i => bool_decide (keyword `prefix_of` drop i l)) (seq 0 (S (length l))).
Definition grep_line (keyword l : list Z) : list Z := if contains keyword (cstr l) then cstr l ++ [10] else [].
Fixpoint grep_loop (keyword input line_buf : list Z) : list Z :=
  match input with
  | [] => if bool_decide (line_buf = []) then [] else grep_line keyword line_buf
  | c :: input =>
      if c =? 10 then grep_line keyword line_buf ++ grep_loop keyword input []
      else grep_loop keyword input (if (length line_buf <? 255)%nat then line_buf ++ [c] else line_buf)
  end.
Definition cmd_grep (keyword input : list Z) : list Z := grep_loop keyword input [].
