(* ===== verification/ShellSpec.v ===== *)
(** The line editor of the shell against a plain one that keeps every line ever
    entered, and the words of a line. *)
From stdpp Require Import strings.
From S2P Require Import Prelude Ansi NyamoDraw Shell.

(** *** The plain editor *)
(** The line, all lines entered, and the place in them; the newest is the last. *)
Record editor_spec := ES { es_line : list Z; es_hist : list (list Z); es_pos : nat }.

Section Plain.
Context (v : env).
Implicit Types (e : editor_spec) (l : list Z).

(** The rest of the only name that continues the last word, up to 125 characters, and a
    blank or a slash. *)
Definition completed l : list Z :=
  match candidates (e_cwd v) (e_bin v) (e_dir v) l with
  | (prefix, [m]) =>
      let l := l ++ take (125 - length l) (drop (length prefix) (cstr (en_name m))) in
      if (length l <? 126)%nat then l ++ [if en_dir m then 47 else 32] else l
  | _ => l
  end.

(** The state after a key, what is echoed, and whether the line is finished. *)
Definition erase l : list Z := concat (replicate (length l) [8; 32; 8]).
Definition prompt : list Z :=
  match e_cwd v with
  | Some p => (27 :: str "[33mNyanOS ") ++ cstr p ++ str "> " ++ 27 :: str "[32m"
  | None => 27 :: str "[33mNyanOS ???> " ++ 27 :: str "[32m"
  end.

Definition es_key e (k : skey) : editor_spec * list Z * bool :=
  let l := es_line e in
  let edit l echo := (ES l (es_hist e) (es_pos e), echo, false) in
  let goto p := let l' := default [] (es_hist e !! p) in (ES l' (es_hist e) p, erase l ++ l', false) in
  match k with
  | Key c =>
      if c =? 10 then (ES l (es_hist e ++ if decide (l = []) then [] else [l]) (es_pos e), [10], true)
      else if c =? 3 then (ES [] (es_hist e) (es_pos e), [94; 67; 10], true)
      else if c =? 9 then edit (completed l) (drop (length l) (completed l))
      else if c =? 8 then edit (take (length l - 1) l) (if decide (l = []) then [] else [8])
      else if c =? 27 then edit l []
      else if c =? 12 then edit l ((27 :: str "[0m") ++ (27 :: str "[2J") ++ (27 :: str "[1;1H") ++ prompt ++ l)
      else if (length l <? 127)%nat then edit (l ++ [c]) [c] else edit l []
  | Seq a b =>
      if (a =? 91) && (b =? 65) && ((length (es_hist e) - 10) <? es_pos e)%nat then goto (es_pos e - 1)%nat
      else if (a =? 91) && (b =? 66) && (es_pos e <? length (es_hist e))%nat then goto (S (es_pos e))
      else edit l []
  end.

Definition es_begin e : editor_spec := ES [] (es_hist e) (length (es_hist e)).

Fixpoint es_keys e (ks : list skey) : editor_spec * list Z :=
  match ks with
  | [] => (e, [])
  | k :: ks =>
      let '(e, o, fin) := es_key e k in
      if fin : bool then (e, o) else let '(e, o') := es_keys e ks in (e, o ++ o')
  end.
End Plain.

(** Lines, each after a prompt *)
Fixpoint es_lines (e : editor_spec) (l : list (env * list skey)) : editor_spec * list Z :=
  match l with
  | [] => (e, [])
  | (v, ks) :: l =>
      let '(e, o) := es_keys v (es_begin e) ks in
      let '(e, o') := es_lines e l in (e, prompt v ++ o ++ o')
  end.

(** *** The relation *)
(** What fits the line buffer, as a string. *)
Definition fits (l : list Z) : Prop := (length l <= 127)%nat /\ Forall (fun c => c <> 0) l.

Record edits (s : shell) (e : editor_spec) : Prop := {
  ed_line : line s = es_line e;
  ed_fits : fits (line s);
  ed_count : hist_count s = Z.of_nat (length (es_hist e));
  ed_pos : hist_curr s = Z.of_nat (es_pos e);
  ed_range : (length (es_hist e) - 10 <= es_pos e <= length (es_hist e))%nat;
  ed_size : length (history s) = 10%nat;
  ed_kept i l : (length (es_hist e) - 10 <= i)%nat -> es_hist e !! i = Some l -> history s !! (i mod 10)%nat = Some l;
  ed_all : Forall fits (es_hist e) }.

Section Editor.
Implicit Types (s : shell) (e : editor_spec) (l : list Z) (c : Z).

Lemma cstr_id l : Forall (fun c => c <> 0) l -> cstr l = l.
Proof. induction 1 as [|c l Hc _ IH]; cbn; [done|]. by rewrite (proj2 (Z.eqb_neq c 0)), IH. Qed.
Lemma cstr_nonzero l : Forall (fun c => c <> 0) (cstr l).
Proof. induction l as [|c l IH]; cbn; [done|]. destruct (Z.eqb_spec c 0); [done|]. by constructor. Qed.

Lemma fits_nil : fits [].
Proof. split; [simpl; lia|done]. Qed.
Lemma fits_take n l : fits l -> fits (take n l).
Proof. intros [H1 H2]. split; [rewrite length_take; lia|by apply Forall_take]. Qed.
Lemma fits_snoc l c : fits l -> (length l < 127)%nat -> c <> 0 -> fits (l ++ [c]).
Proof. intros [H1 H2] Hl Hc. split; [rewrite length_app; simpl; lia|]. apply Forall_app. split; [done|by constructor]. Qed.

(** Printing changes no part of the editor. *)
Lemma edits_out s e h : edits s e -> edits (Shell (line s) (history s) (hist_count s) (hist_curr s) h) e.
Proof. intros []. by split. Qed.

Lemma edits_print s e l : edits s e -> edits (sh_print s l) e.
Proof. apply edits_out. Qed.

Lemma clear_line_eq s : clear_curr_line s = Shell (line s) (history s) (hist_count s) (hist_curr s) (sh_out s ++ erase (line s)).
Proof.
  unfold clear_curr_line, erase, len. generalize (length (line s)). intros n.
  assert (forall i s, foldl (fun s _ => sh_print s [8; 32; 8]) s (seqZ i (Z.of_nat n)) =
    Shell (line s) (history s) (hist_count s) (hist_curr s) (sh_out s ++ concat (replicate n [8; 32; 8]))) as H; [|apply H].
  clear s. induction n as [|n IH]; intros i s; [cbn; rewrite app_nil_r; by destruct s|].
  rewrite seqZ_cons by lia. cbn [foldl]. replace (Z.pred (Z.of_nat (S n))) with (Z.of_nat n) by lia. rewrite IH. cbn. by rewrite <- app_assoc.
Qed.

Lemma prompt_eq v s : print_prompt (e_cwd v) s = Shell (line s) (history s) (hist_count s) (hist_curr s) (sh_out s ++ prompt v).
Proof.
  unfold print_prompt, prompt. destruct (e_cwd v) as [p|]; [|reflexivity]. unfold sh_print. cbn [line history hist_count hist_curr sh_out]. f_equal.
  rewrite <- !app_assoc. reflexivity.
Qed.

Lemma set_line_eq s l : (length l <= 127)%nat -> set_line s l = Some (Shell l (history s) (hist_count s) (hist_curr s) (sh_out s)).
Proof. intros. unfold set_line, CMD_MAX_LEN. by rewrite (proj2 (Z.leb_gt _ _)) by lia. Qed.

(** Another line *)
Lemma edits_line s e l o : edits s e -> fits l -> edits (Shell l (history s) (hist_count s) (hist_curr s) o) (ES l (es_hist e) (es_pos e)).
Proof. intros [] Hl. by split. Qed.

Lemma rem_mod n : Z.to_nat (Z.rem (Z.of_nat n) 10) = (n mod 10)%nat.
Proof. rewrite Z.rem_mod_nonneg by lia. change 10 with (Z.of_nat 10). rewrite <- Nat2Z.inj_mod. lia. Qed.

(** *** History *)
Lemma remember_edits s e : edits s e -> line s <> [] -> (Z.of_nat (length (es_hist e)) < 2 ^ 31 - 1) ->
  exists s', remember s = Some s' /\ line s' = line s /\ history s' = <[(length (es_hist e) mod 10)%nat := line s]> (history s) /\
    hist_count s' = Z.of_nat (length (es_hist e ++ [line s])) /\ sh_out s' = sh_out s /\ hist_curr s' = hist_curr s.
Proof.
  intros [El [Hlen Hz] Ec Ep Er Es Ek Ea] Hne Hb. unfold remember. rewrite (cstr_id (line s)) by done. unfold CMD_MAX_LEN, HIST_MAX.
  rewrite (proj2 (Z.leb_gt _ _)), (proj2 (Z.leb_gt _ _)) by lia. cbn [orb]. eexists. split; [reflexivity|]. cbn. rewrite Ec, rem_mod, length_app. cbn. split_and!; [done..|lia|done|done].
Qed.

(** The slots after another line: the oldest one is given up. *)
Lemma kept_snoc (hist : list (list Z)) slots l i x : length slots = 10%nat ->
  (forall i l, (length hist - 10 <= i)%nat -> hist !! i = Some l -> slots !! (i mod 10)%nat = Some l) ->
  (length (hist ++ [l]) - 10 <= i)%nat -> (hist ++ [l]) !! i = Some x -> <[(length hist mod 10)%nat := l]> slots !! (i mod 10)%nat = Some x.
Proof.
  intros Hs Hk Hi Hx. rewrite length_app in Hi. cbn in Hi. pose proof (lookup_lt_Some _ _ _ Hx) as Hlt. rewrite length_app in Hlt. cbn in Hlt.
  pose proof (Nat.mod_upper_bound (length hist) 10 ltac:(lia)). destruct (decide (i = length hist)) as [->|Hne].
  - rewrite list_lookup_insert_eq by lia. rewrite lookup_app_r, Nat.sub_diag in Hx by lia. done.
  - rewrite lookup_app_l in Hx by lia. rewrite list_lookup_insert_ne; [apply Hk; [lia|done]|].
    intros E. pose proof (Nat.div_mod_eq (length hist) 10). pose proof (Nat.div_mod_eq i 10). lia.
Qed.

(** Another place in the lines *)
Lemma edits_pos s e p : edits s e -> (length (es_hist e) - 10 <= p <= length (es_hist e))%nat ->
  edits (set_curr s (Z.of_nat p)) (ES (es_line e) (es_hist e) p).
Proof. intros [] Hp. by split. Qed.

Lemma recall_edits s e l : edits s e -> es_hist e !! es_pos e = Some l ->
  exists s', recall s = Some s' /\ edits s' (ES l (es_hist e) (es_pos e)) /\ sh_out s' = sh_out s ++ l.
Proof.
  intros I Hl. unfold recall, HIST_MAX. rewrite (ed_pos _ _ I), rem_mod, (ed_kept _ _ I (es_pos e) l) by (apply I || done). cbn [mbind option_bind].
  assert (fits l) as Hf by (eapply Forall_lookup_1; [apply (ed_all _ _ I)|exact Hl]). destruct Hf as [H1 H2]. rewrite cstr_id, set_line_eq by done. cbn [mbind option_bind].
  eexists. split; [reflexivity|]. split; [apply edits_print, edits_line; [done|by split]|]. cbn. by rewrite cstr_id.
Qed.

(** The line is erased, and the place in the history another one. *)
Lemma leave_edits s e p : edits s e -> (length (es_hist e) - 10 <= p <= length (es_hist e))%nat ->
  let s1 := clear_curr_line (set_curr s (Z.of_nat p)) in edits s1 (ES (es_line e) (es_hist e) p) /\ sh_out s1 = sh_out s ++ erase (line s).
Proof. intros I Hp s1. unfold s1. rewrite clear_line_eq. split; [|done]. by apply edits_out, edits_pos. Qed.

Lemma hist_up_edits s e : edits s e -> (length (es_hist e) - 10 < es_pos e)%nat ->
  let l := default [] (es_hist e !! (es_pos e - 1)%nat) in
  exists s', hist_up s = Some s' /\ edits s' (ES l (es_hist e) (es_pos e - 1)) /\ sh_out s' = sh_out s ++ erase (line s) ++ l.
Proof.
  intros I Hp l. pose proof (ed_range _ _ I). unfold hist_up, HIST_MAX. rewrite (ed_count _ _ I), (ed_pos _ _ I). rewrite (proj2 (Z.ltb_lt _ _)) by lia.
  assert ((if 10 <=? Z.of_nat (length (es_hist e)) then Z.of_nat (length (es_hist e)) - 10 else 0) <? Z.of_nat (es_pos e) = true) as ->
    by (apply Z.ltb_lt; destruct (Z.leb_spec 10 (Z.of_nat (length (es_hist e)))); lia).
  destruct (lookup_lt_is_Some_2 (es_hist e) (es_pos e - 1)) as [x Hx]; [lia|]. unfold l. rewrite Hx. cbn [default].
  replace (Z.of_nat (es_pos e) - 1) with (Z.of_nat (es_pos e - 1)) by lia. destruct (leave_edits s e (es_pos e - 1) I) as [I1 Ho1]; [lia|].
  destruct (recall_edits _ _ x I1 Hx) as (s' & E & I2 & Ho). exists s'. split; [exact E|]. split; [done|]. by rewrite Ho, Ho1, <- app_assoc.
Qed.

Lemma hist_down_edits s e : edits s e -> (es_pos e < length (es_hist e))%nat ->
  let l := default [] (es_hist e !! S (es_pos e)) in
  exists s', hist_down s = Some s' /\ edits s' (ES l (es_hist e) (S (es_pos e))) /\ sh_out s' = sh_out s ++ erase (line s) ++ l.
Proof.
  intros I Hp l. pose proof (ed_range _ _ I). unfold hist_down. rewrite (ed_count _ _ I), (ed_pos _ _ I). rewrite (proj2 (Z.ltb_lt _ _)) by lia.
  replace (Z.of_nat (es_pos e) + 1) with (Z.of_nat (S (es_pos e))) by lia. destruct (leave_edits s e (S (es_pos e)) I) as [I1 Ho1]; [lia|].
  set (s1 := clear_curr_line _) in *. clearbody s1. rewrite (ed_pos _ _ I1), (ed_count _ _ I1). cbn [es_pos es_hist]. unfold l.
  destruct (Z.eqb_spec (Z.of_nat (S (es_pos e))) (Z.of_nat (length (es_hist e)))) as [E|Hne].
  - rewrite lookup_ge_None_2 by lia. cbn [default]. rewrite set_line_eq by (simpl; lia). eexists. split; [reflexivity|].
    split; [exact (edits_line _ _ [] _ I1 fits_nil)|]. cbn. by rewrite Ho1, app_nil_r.
  - destruct (lookup_lt_is_Some_2 (es_hist e) (S (es_pos e))) as [x Hx]; [lia|]. rewrite Hx. cbn [default].
    destruct (recall_edits _ _ x I1 Hx) as (s' & E & I2 & Ho). exists s'. split; [exact E|]. split; [done|]. by rewrite Ho, Ho1, <- app_assoc.
Qed.

(** *** Completion *)
Lemma append_suffix_eq suffix s : Forall (fun c => c <> 0) suffix ->
  append_suffix s suffix = Shell (line s ++ take (125 - length (line s)) suffix) (history s) (hist_count s) (hist_curr s) (sh_out s ++ take (125 - length (line s)) suffix).
Proof.
  revert s. induction suffix as [|c l IH]; intros s Hz; cbn [append_suffix]; [rewrite take_nil, !app_nil_r; by destruct s|].
  apply Forall_cons in Hz as [Hc Hz]. unfold len. destruct (Z.ltb_spec (Z.of_nat (length (line s))) 125).
  - rewrite IH by done. cbn. rewrite (proj2 (Z.eqb_neq c 0)) by done. rewrite length_app. cbn. replace (125 - length (line s))%nat with (S (125 - (length (line s) + 1))) by lia.
    cbn. by rewrite <- !app_assoc.
  - replace (125 - length (line s))%nat with 0%nat by lia. cbn. rewrite !app_nil_r. by destruct s.
Qed.

Lemma tab_edits v s e : edits s e ->
  exists s', handle_tab_completion (e_cwd v) (e_bin v) (e_dir v) s = Some s' /\ edits s' (ES (completed v (es_line e)) (es_hist e) (es_pos e)) /\
    sh_out s' = sh_out s ++ drop (length (es_line e)) (completed v (es_line e)).
Proof.
  intros I. assert (exists s', Some s = Some s' /\ edits s' (ES (es_line e) (es_hist e) (es_pos e)) /\ sh_out s' = sh_out s ++ drop (length (es_line e)) (es_line e)) as Hsame.
  { exists s. rewrite drop_all, app_nil_r. split; [done|]. split; [|done]. by destruct e. }
  unfold handle_tab_completion, completed. rewrite (ed_line _ _ I). destruct (candidates _ _ _ (es_line e)) as [prefix [|m [|m2 ms]]]; [done| |done]. clear Hsame.
  destruct (ed_fits _ _ I) as [Hl Hz]. rewrite (ed_line _ _ I) in Hl, Hz.
  rewrite append_suffix_eq by apply Forall_drop, cstr_nonzero. rewrite (ed_line _ _ I). set (x := take _ _). unfold len. cbn [line].
  assert (fits (es_line e ++ x)) as Hf.
  { split; [rewrite length_app; unfold x; rewrite length_take; lia|]. apply Forall_app. split; [done|]. unfold x. apply Forall_take, Forall_drop, cstr_nonzero. }
  destruct (Nat.ltb_spec (length (es_line e ++ x)) 126).
  - rewrite (proj2 (Z.ltb_lt _ _)) by lia. rewrite set_line_eq by (rewrite length_app; simpl; lia). cbn [mbind option_bind]. eexists. split; [reflexivity|].
    split; [apply edits_print, (edits_line s e); [done|apply fits_snoc; [done|lia|by destruct (en_dir m)]]|]. cbn. rewrite <- !app_assoc, drop_app_length. by destruct (en_dir m).
  - rewrite (proj2 (Z.ltb_ge _ _)) by lia. eexists. split; [reflexivity|]. split; [by apply (edits_line s e)|]. cbn. by rewrite drop_app_length.
Qed.

(** *** Keys *)
(** No key is NUL. *)
Definition key_ok (k : skey) : Prop := match k with Key c => c <> 0 | Seq _ _ => True end.

(** A finished line: the place in the history is set when the next one begins. *)
Definition finished s e : Prop := edits (set_curr s (hist_count s)) (ES (es_line e) (es_hist e) (length (es_hist e))).

Lemma edits_finished s e : edits s e -> finished s e.
Proof. intros I. unfold finished. rewrite (ed_count _ _ I). apply edits_pos; [done|lia]. Qed.

Lemma enter_edits s e : edits s e -> es_line e <> [] -> Z.of_nat (length (es_hist e)) < 2 ^ 31 - 1 ->
  exists s', remember s = Some s' /\ finished s' (ES (es_line e) (es_hist e ++ [es_line e]) (es_pos e)) /\ sh_out s' = sh_out s.
Proof.
  intros I Hne Hb. destruct (remember_edits s e I) as (s' & E & E1 & E2 & E3 & E4 & E5); [by rewrite (ed_line _ _ I)|done|].
  exists s'. split; [done|]. split; [|done]. unfold finished. cbn [es_line es_hist]. destruct I as [El Hf Ec Ep Er Es Ek Ea]. rewrite El in *.
  split; cbn; rewrite ?E1, ?E2; try done; [lia|by rewrite length_insert|intros i l; by apply kept_snoc|]. apply Forall_app. by split; [|constructor].
Qed.

Lemma key_edits v s e k : edits s e -> key_ok k -> Z.of_nat (length (es_hist e)) < 2 ^ 31 - 1 ->
  let '(e', o, fin) := es_key v e k in
  exists s', sh_key (e_cwd v) (e_bin v) (e_dir v) s k = Some (s', fin) /\ (if fin then finished s' e' else edits s' e') /\ sh_out s' = sh_out s ++ o.
Proof.
  intros I Hk Hb. assert (exists s', Some (s, false) = Some (s', false) /\ edits s' (ES (es_line e) (es_hist e) (es_pos e)) /\ sh_out s' = sh_out s ++ []) as Hsame.
  { exists s. rewrite app_nil_r. split; [done|]. split; [|done]. by destruct e. }
  assert (fits (es_line e)) as Hf by (rewrite <- (ed_line _ _ I); apply I). pose proof Hf as [Hl Hz]. destruct k as [c|a b]; cbn [es_key sh_key].
  - destruct (Z.eqb_spec c 10) as [_|H10].
    { unfold len. cbn [sh_print line]. rewrite (ed_line _ _ I). destruct (decide (es_line e = [])) as [El|Hne].
      - rewrite El. cbn. eexists. split; [reflexivity|]. split; [|done]. apply edits_finished, edits_print. rewrite app_nil_r, <- El. destruct e. exact I.
      - rewrite (proj2 (Z.ltb_lt _ _)) by (destruct (es_line e); [done|simpl; lia]).
        destruct (enter_edits _ _ (edits_print s e [10] I) Hne Hb) as (s' & E & F & Ho). rewrite E. exists s'. by rewrite Ho. }
    destruct (Z.eqb_spec c 3) as [_|H3].
    { rewrite set_line_eq by (simpl; lia). cbn [mbind option_bind]. eexists. split; [reflexivity|]. split; [|done]. apply edits_finished, (edits_line s e); [done|apply fits_nil]. }
    destruct (Z.eqb_spec c 9) as [_|H9]; [destruct (tab_edits v s e I) as (s' & -> & I' & Ho); by exists s'|].
    destruct (Z.eqb_spec c 8) as [_|H8].
    { unfold len. rewrite (ed_line _ _ I). destruct (decide (es_line e = [])) as [El|Hne].
      - rewrite El. cbn. destruct Hsame as (s' & E & I' & Ho). rewrite El in I'. by exists s'.
      - rewrite (proj2 (Z.ltb_lt _ _)) by (destruct (es_line e); [done|simpl; lia]). rewrite set_line_eq by (rewrite length_take; lia). cbn [mbind option_bind].
        eexists. split; [reflexivity|]. split; [|done]. apply edits_print, (edits_line s e); [done|]. by apply fits_take. }
    destruct (Z.eqb_spec c 27) as [_|H27]; [done|]. destruct (Z.eqb_spec c 12) as [_|H12].
    { rewrite prompt_eq. eexists. split; [reflexivity|]. split; [destruct e; exact (edits_out s _ _ I)|]. cbn [sh_print sh_out line].
      rewrite (ed_line _ _ I). rewrite (cstr_id (es_line e)) by done. by rewrite <- !app_assoc. }
    unfold len. rewrite (ed_line _ _ I). destruct (Nat.ltb_spec (length (es_line e)) 127).
    + rewrite (proj2 (Z.ltb_lt _ _)) by lia. rewrite set_line_eq by (rewrite length_app; simpl; lia). cbn [mbind option_bind]. eexists. split; [reflexivity|].
      split; [apply edits_print, (edits_line s e); [done|by apply fits_snoc]|]. cbn. by rewrite (proj2 (Z.eqb_neq c 0)).
    + by rewrite (proj2 (Z.ltb_ge _ _)) by lia.
  - destruct (Z.eqb_spec a 91) as [_|_]; cbn [andb]; [|done].
    destruct (Z.eqb_spec b 65) as [->|Hb65]; cbn [andb Z.eqb Pos.eqb].
    { destruct (Nat.ltb_spec (length (es_hist e) - 10) (es_pos e)).
      - destruct (hist_up_edits s e I) as (s' & -> & I' & Ho); [done|]. rewrite (ed_line _ _ I) in Ho. by exists s'.
      - unfold hist_up, HIST_MAX. pose proof (ed_range _ _ I). rewrite (ed_count _ _ I), (ed_pos _ _ I). destruct (Z.ltb_spec 0 (Z.of_nat (length (es_hist e)))); [|done].
        destruct (Z.ltb_spec (if 10 <=? Z.of_nat (length (es_hist e)) then Z.of_nat (length (es_hist e)) - 10 else 0) (Z.of_nat (es_pos e))) as [Hlt|]; [|done].
        destruct (Z.leb_spec 10 (Z.of_nat (length (es_hist e)))); lia. }
    destruct (Z.eqb_spec b 66) as [->|Hb66]; cbn [andb]; [|done]. destruct (Nat.ltb_spec (es_pos e) (length (es_hist e))).
    + destruct (hist_down_edits s e I) as (s' & -> & I' & Ho); [done|]. rewrite (ed_line _ _ I) in Ho. by exists s'.
    + unfold hist_down. rewrite (ed_count _ _ I), (ed_pos _ _ I). by rewrite (proj2 (Z.ltb_ge _ _)) by lia.
Qed.

(** *** Lines *)
Lemma begin_edits v s e : finished s e -> edits (sh_begin (e_cwd v) s) (es_begin e) /\ sh_out (sh_begin (e_cwd v) s) = sh_out s ++ prompt v.
Proof. intros [El Hf Ec Ep Er Es Ek Ea]. unfold sh_begin. rewrite prompt_eq. split; [|done]. split; try done. apply fits_nil. Qed.

Lemma es_key_hist v e k : let '(e', _, fin) := es_key v e k in
  (length (es_hist e') <= S (length (es_hist e)))%nat /\ (fin = false -> es_hist e' = es_hist e).
Proof.
  destruct k as [c|a b]; cbn [es_key].
  - destruct (c =? 10); [cbn; rewrite length_app; split; [destruct (decide _); cbn; lia|done]|]. repeat case_match; simplify_eq; cbn; (split; [lia|done]).
  - repeat case_match; simplify_eq; cbn; (split; [lia|done]).
Qed.

Lemma keys_edits v ks : forall s e, edits s e -> Forall key_ok ks -> Z.of_nat (length (es_hist e)) < 2 ^ 31 - 1 ->
  let '(e', o) := es_keys v e ks in
  exists s' rest, sh_line (e_cwd v) (e_bin v) (e_dir v) s ks = Some (s', rest) /\ finished s' e' /\ sh_out s' = sh_out s ++ o /\
    (length (es_hist e') <= S (length (es_hist e)))%nat.
Proof.
  induction ks as [|k ks IH]; intros s e I Hks Hb; cbn [es_keys sh_line].
  { exists s, []. rewrite app_nil_r. split; [done|]. split; [by apply edits_finished|]. split; [done|lia]. }
  apply Forall_cons in Hks as [Hk Hks]. pose proof (key_edits v s e k I Hk Hb) as Hs. pose proof (es_key_hist v e k) as Hh. destruct (es_key v e k) as [[e1 o1] fin].
  destruct Hh as [Hh Hsame].  destruct Hs as (s1 & -> & I1 & Ho1). cbn [mbind option_bind]. destruct fin; [by exists s1, ks|]. specialize (Hsame eq_refl).
  specialize (IH s1 e1 I1 Hks). rewrite Hsame in IH. specialize (IH Hb). destruct (es_keys v e1 ks) as [e2 o2]. destruct IH as (s2 & rest & E & F & Ho2 & Hlen).
  exists s2, rest. split; [done|]. split; [done|]. split; [by rewrite Ho2, Ho1, <- app_assoc|done].
Qed.

Lemma lines_edits (l : list (env * list skey)) : forall s e, finished s e -> Forall (fun '(_, ks) => Forall key_ok ks) l -> Z.of_nat (length (es_hist e)) + Z.of_nat (length l) < 2 ^ 31 ->
  let '(e', o) := es_lines e l in exists s', main_lines s l = Some s' /\ finished s' e' /\ sh_out s' = sh_out s ++ o.
Proof.
  induction l as [|[v ks] l IH]; intros s e F Hl Hb; cbn [es_lines]; [exists s; by rewrite app_nil_r|].
  apply Forall_cons in Hl as [Hks Hl]. cbn [length] in Hb. destruct (begin_edits v s e F) as [I1 Ho1].
  pose proof (keys_edits v ks _ _ I1 Hks) as Hk. cbn [es_begin es_hist] in Hk. specialize (Hk ltac:(lia)). destruct (es_keys v (es_begin e) ks) as [e1 o1].
  destruct Hk as (s1 & rest & E & F1 & Ho2 & Hlen). specialize (IH s1 e1 F1 Hl ltac:(lia)). destruct (es_lines e1 l) as [e2 o2]. destruct IH as (s2 & E2 & F2 & Ho3).
  exists s2. split; [|split; [done|]].
  - assert (main_line s v ks = Some s1) as Em by (unfold main_line; by rewrite E).
    change (main_lines s ((v, ks) :: l)) with (s' ← main_line s v ks; main_lines s' l). by rewrite Em.
  - by rewrite Ho3, Ho2, Ho1, <- !app_assoc.
Qed.

Lemma start_finished : finished sh_start (ES [] [] 0).
Proof. split; try done. apply fits_nil. Qed.
End Editor.

(** C33: The line editor of the shell is the plain one.  For every sequence of lines and keys
    (no key NUL, fewer than 2^31 lines) the shell goes on, never stores outside the
    line buffer or the history, and its line and what it echoes are those of an editor
    that keeps every line ever entered: typing up to 127 characters, rubbing out,
    completing the last word, and going up and down through the last ten lines. *)
Theorem shell_line_editor (l : list (env * list skey)) :
  Forall (fun '(_, ks) => Forall key_ok ks) l -> Z.of_nat (length l) < 2 ^ 31 ->
  let '(e, o) := es_lines (ES [] [] 0) l in
  exists s, main_lines sh_start l = Some s /\ line s = es_line e /\ sh_out s = sh_out sh_start ++ o /\ fits (line s) /\
    hist_count s = Z.of_nat (length (es_hist e)) /\
    forall i x, (length (es_hist e) - 10 <= i)%nat -> es_hist e !! i = Some x -> history s !! (i mod 10)%nat = Some x.
Proof.
  intros Hl Hb. pose proof (lines_edits l sh_start (ES [] [] 0) start_finished Hl) as H. cbn [es_hist length] in H. specialize (H ltac:(lia)).
  destruct (es_lines (ES [] [] 0) l) as [e o]. destruct H as (s & E & [El Hf Ec Ep Er Es Ek Ea] & Ho). by exists s.
Qed.

Definition demo_env : env := Env (Some [47]) None (fun _ => Some [Entry (str "notes.txt") false; Entry (str "bin") true]).

(** [ls], then [cat n], completed; then up twice and down once. *)
Definition demo_lines : list (env * list skey) :=
  [(demo_env, [Key 108; Key 115; Key 10]); (demo_env, [Key 99; Key 97; Key 116; Key 32; Key 110; Key 9; Key 10]);
   (demo_env, [Seq 91 65; Seq 91 65; Seq 91 66])].

Lemma shell_line_editor_witness :
  exists s, main_lines sh_start demo_lines = Some s /\ line s = str "cat notes.txt " /\ history s !! 0%nat = Some (str "ls").
Proof.
  assert (Forall (fun '(_, ks) => Forall key_ok ks) demo_lines) as H1.
  { unfold demo_lines. repeat (apply Forall_cons; split); try apply Forall_nil; try exact I; unfold key_ok; lia. }
  pose proof (shell_line_editor demo_lines H1 eq_refl) as H. destruct (es_lines (ES [] [] 0) demo_lines) as [e o] eqn:E.
  assert (e = ES (str "cat notes.txt ") [str "ls"; str "cat notes.txt "] 1) as ->.
  { change e with (fst (e, o)). rewrite <- E. vm_compute. reflexivity. }
  destruct H as (s & Es & El & _ & _ & _ & Hh). exists s. split; [exact Es|]. split; [exact El|]. apply (Hh 0%nat); [cbn; lia|reflexivity].
Defined.
