(* ===== verification/ShellRun.v ===== *)
(** What a line of the shell starts: its words, the files of its commands and the pipes
    between them, against a plain reading of the line. *)
From stdpp Require Import strings.
From S2P Require Import Prelude Nyamo NyamoSpec NyamoDraw SysFile Shell.

(** *** The plain reading *)
(** What is between blanks. *)
Fixpoint fields (l : list Z) : list (list Z) :=
  match l with
  | [] => [[]]
  | c :: l =>
      if is_blank c then [] :: fields l
      else match fields l with
           | w :: ws => (c :: w) :: ws
           | [] => [[c]]
           end
  end.
Definition words (l : list Z) : list (list Z) := filter (fun w => w <> []) (fields l).

(** The words before the first [w], and those after it. *)
Fixpoint cut_at (w : list Z) (argv : list (list Z)) : option (list (list Z) * list (list Z)) :=
  match argv with
  | [] => None
  | a :: argv => if decide (a = w) then Some ([], argv) else '(x, y) ← cut_at w argv; Some (a :: x, y)
  end.

Definition in_file (argv : list (list Z)) : list (list Z) * option (list Z) :=
  match cut_at [60] argv with
  | Some (x, p :: y) => (x ++ y, Some p)
  | _ => (argv, None)
  end.
Definition out_file (argv : list (list Z)) : list (list Z) * option (list Z * mode) :=
  match cut_at [62; 62] argv, cut_at [62] argv with
  | Some (x, p :: _), _ => (x, Some (p, Append))
  | None, Some (x, p :: _) => (x, Some (p, Truncate))
  | _, _ => (argv, None)
  end.

(** The commands between the bars: at most 8, and none after a bar at the end. *)
Fixpoint segments (ws : list (list Z)) : list (list (list Z)) :=
  match ws with
  | [] => [[]]
  | a :: ws =>
      if decide (a = [124]) then [] :: segments ws
      else match segments ws with
           | x :: xs => (a :: x) :: xs
           | [] => [[a]]
           end
  end.
Fixpoint strip (l : list (list (list Z))) : list (list (list Z)) :=
  match l with
  | [] => []
  | [[]] => []
  | x :: l => x :: strip l
  end.
Definition commands (ws : list (list Z)) : list (list (list Z)) :=
  match segments ws with
  | [] => []
  | x :: l => take 8 (x :: strip l)
  end.

Section Plain.
Context {F : Type} (open : list Z -> mode -> option F) (read_end write_end : nat -> F).
Implicit Types (t : gmap Z F) (argv : list (list Z)).

(** A file in place of a descriptor, which is kept under another number. *)
Definition instead t (std save : Z) (f : option F) : gmap Z F :=
  match f, t !! std with
  | Some f, Some g => <[std := f]> (<[save := g]> t)
  | _, _ => t
  end.

Definition with_files t argv : list (list Z) * gmap Z F :=
  let '(argv, i) := in_file argv in
  let '(argv, o) := out_file argv in
  (argv, instead (instead t 0 9 (p ← i; open p ReadOnly)) 1 10 ('(p, m) ← o; open p m)).

Definition command t argv : option (program F) := let '(argv, t) := with_files t argv in program_of argv t.

(** Stage [s] of [n]: it reads the pipe before it and writes the one after it. *)
Definition stage_fds t (n s : nat) : gmap Z F :=
  let t := if decide (s = 0%nat) then t else <[0 := read_end (s - 1)]> t in
  if decide (S s = n) then t else <[1 := write_end s]> t.

Definition job_of t (ws : list (list Z)) : job F :=
  if decide (ws = []) then Nothing
  else if decide ([124] ∈ ws) then
    let l := commands ws in Pipeline (imap (fun s argv => command (stage_fds t (length l) s) argv) l)
  else
    let fg := bool_decide ([38] ∉ ws) in
    let argv := from_option fst ws (cut_at [38] ws) in
    match command t argv with
    | None => Nothing
    | Some (Builtin c argv fds) => Single (Builtin c argv fds) true
    | Some (External paths argv fds) => Single (External paths argv fds) fg
    end.
End Plain.

(** *** Words *)
Section Words.
Implicit Types (l : list Z) (argv : list (list Z)).

Lemma fields_cons l : exists w ws, fields l = w :: ws.
Proof. destruct l as [|c l]; cbn; [eauto|]. destruct (is_blank c); [eauto|]. destruct (fields l); eauto. Qed.

Lemma parse_loop_words l : Forall (fun c => c <> 0) l -> forall argv w ws, fields l = w :: ws ->
  (forall u, (length argv <= 31)%nat -> parse_loop l (argv ++ [u]) true =
     let r := argv ++ (u ++ w) :: filter (fun w => w <> []) ws in if (length r <=? 32)%nat then Some r else None) /\
  ((length argv <= 32)%nat -> parse_loop l argv false =
     let r := argv ++ filter (fun w => w <> []) (w :: ws) in if (length r <=? 32)%nat then Some r else None).
Proof.
  induction 1 as [|c l Hc _ IH]; intros argv w ws E.
  { cbn in E. injection E as <- <-. split; [intros u Hl|intros Hl]; cbn.
    - rewrite app_nil_r. rewrite (proj2 (Nat.leb_le _ _)); [done|]. rewrite length_app. cbn. lia.
    - rewrite app_nil_r, (proj2 (Nat.leb_le _ _)) by lia. done. }
  cbn [fields parse_loop] in *. rewrite (proj2 (Z.eqb_neq c 0)) by done. destruct (fields_cons l) as (w' & ws' & E'). destruct (is_blank c).
  - injection E as <- <-. rewrite E'. split; [intros u Hl|intros Hl].
    + destruct (IH (argv ++ [u]) w' ws' E') as [_ H]. rewrite H by (rewrite length_app; cbn; lia). rewrite app_nil_r, <- app_assoc. done.
    + destruct (IH argv w' ws' E') as [_ H]. by rewrite H.
  - rewrite E' in E. injection E as <- <-. split; [intros u Hl|intros Hl].
    + rewrite length_app, Nat.add_sub, alter_app_r_alt, Nat.sub_diag by lia. cbn [alter list_alter]. destruct (IH argv w' ws' E') as [H _]. rewrite H by done. by rewrite <- app_assoc.
    + destruct (Z.leb_spec 32 (Z.of_nat (length argv))).
      * rewrite (proj2 (Nat.leb_gt _ _)); [done|]. rewrite length_app, filter_cons_True by done. cbn. lia.
      * destruct (IH argv w' ws' E') as [H' _]. rewrite H' by lia. by rewrite filter_cons_True by done.
Qed.

(** The words of a line; more than 31 do not fit [argv]. *)
Lemma parse_cmd_spec l : Forall (fun c => c <> 0) l -> parse_cmd l = if (length (words l) <=? 31)%nat then Some (words l) else None.
Proof.
  intros Hl. unfold parse_cmd, words. destruct (fields_cons l) as (w & ws & E). destruct (parse_loop_words l Hl [] w ws E) as [_ H].
  rewrite H by (cbn; lia). cbn [app]. rewrite E. destruct (Nat.leb_spec (length (filter (fun w => w <> []) (w :: ws))) 32); cbn [mbind option_bind].
  - destruct (Nat.leb_spec (length (filter (fun w => w <> []) (w :: ws))) 31); [by rewrite (proj2 (Z.leb_gt _ _)) by lia|by rewrite (proj2 (Z.leb_le _ _)) by lia].
  - by rewrite (proj2 (Nat.leb_gt _ _)) by lia.
Qed.

(** *** Positions of a word *)
Lemma find_from_spec w argv i : find_from i argv w = match cut_at w argv with Some (x, _) => i + Z.of_nat (length x) | None => -1 end.
Proof.
  revert i. induction argv as [|a argv IH]; intros i; cbn [find_from cut_at]; [done|]. destruct (decide (a = w)) as [Ea|Ea].
  - rewrite bool_decide_eq_true_2 by done. cbn. lia.
  - rewrite bool_decide_eq_false_2 by done. rewrite IH. destruct (cut_at w argv) as [[x y]|]; cbn; [lia|done].
Qed.

Lemma find_char_spec w argv : find_char argv w = match cut_at w argv with Some (x, _) => Z.of_nat (length x) | None => -1 end.
Proof. unfold find_char. rewrite find_from_spec. by destruct (cut_at w argv) as [[x y]|]. Qed.

Lemma cut_at_Some w argv x y : cut_at w argv = Some (x, y) -> argv = x ++ w :: y.
Proof.
  revert x y. induction argv as [|a argv IH]; intros x y; cbn; [done|]. destruct (decide (a = w)) as [->|]; [by intros [= <- <-]|].
  destruct (cut_at w argv) as [[x' y']|]; [|done]. intros [= <- <-]. by rewrite (IH x' y').
Qed.

Lemma cut_at_None w argv : cut_at w argv = None <-> w ∉ argv.
Proof.
  induction argv as [|a argv IH]; cbn; [split; [intros _; apply not_elem_of_nil|done]|]. rewrite not_elem_of_cons. destruct (decide (a = w)) as [->|Hne]; [split; [done|by intros [? _]]|].
  destruct (cut_at w argv) as [[x y]|]; cbn; split; try done; [intros [_ H]; by apply IH in H|intros _; split; [congruence|by apply IH]].
Qed.

(** *** Stages *)
Lemma segments_cons ws : exists x xs, segments ws = x :: xs.
Proof. destruct ws as [|a ws]; cbn; [eauto|]. destruct (decide _); [eauto|]. destruct (segments ws); eauto. Qed.
Lemma segments_nil ws : segments ws = [[]] -> ws = [].
Proof. destruct ws as [|a ws]; cbn; [done|]. destruct (segments_cons ws) as (x & xs & ->). by destruct (decide _). Qed.

Lemma stages_dropped argv cur : stages_loop argv cur 8 true = [].
Proof. revert cur. induction argv as [|a argv IH]; intros cur; cbn; [done|]. by destruct (bool_decide _). Qed.

Lemma stages_loop_spec argv : forall cur n x xs, 1 <= n <= 8 -> segments argv = x :: xs ->
  stages_loop argv cur n false = take (Z.to_nat (9 - n)) ((cur ++ x) :: strip xs).
Proof.
  induction argv as [|a argv IH]; intros cur n x xs Hn E; cbn [stages_loop].
  { cbn in E. injection E as <- <-. rewrite app_nil_r. replace (Z.to_nat (9 - n)) with (S (Z.to_nat (8 - n))) by lia. cbn. by rewrite take_nil. }
  replace (Z.to_nat (9 - n)) with (S (Z.to_nat (8 - n))) by lia. cbn [take]. cbn [segments] in E. destruct (segments_cons argv) as (x' & l' & E'). destruct (decide (a = [124])) as [Ha|Ha].
  - rewrite bool_decide_eq_true_2 by done. injection E as <- <-. rewrite app_nil_r. cbn [app]. f_equal. destruct (Z.ltb_spec n 8); cbn [andb].
    + case_bool_decide as Hnil; cbn [negb]; [subst argv; cbn in E'; injection E' as <- <-; cbn; by rewrite take_nil|].
      rewrite (IH [] (n + 1) x' l') by (done || lia). cbn [app]. rewrite E'. replace (9 - (n + 1)) with (8 - n) by lia.
      destruct x' as [|? ?], l' as [|? ?]; try done. by apply segments_nil in E'.
    + assert (n = 8) as -> by lia. by rewrite stages_dropped.
  - rewrite bool_decide_eq_false_2 by done. rewrite E' in E. injection E as <- <-. rewrite (IH _ _ x' l') by done.
    replace (Z.to_nat (9 - n)) with (S (Z.to_nat (8 - n))) by lia. cbn [take]. by rewrite <- app_assoc.
Qed.

Lemma stages_spec argv : stages argv = commands argv.
Proof. unfold stages, commands. destruct (segments_cons argv) as (x & l & E). rewrite E. by rewrite (stages_loop_spec argv [] 1 x l) by (done || lia). Qed.
Lemma commands_cons argv : commands argv <> [].
Proof. unfold commands. by destruct (segments_cons argv) as (x & l & ->). Qed.

(** The word after the first [w] *)
Lemma after_word w argv : (let i := find_char argv w in if 0 <=? i then argv !! Z.to_nat (i + 1) else None) =
  match cut_at w argv with Some (_, y) => head y | None => None end.
Proof.
  cbn zeta. rewrite find_char_spec. destruct (cut_at w argv) as [[x y]|] eqn:E; [|done]. rewrite (proj2 (Z.leb_le _ _)) by lia.
  apply cut_at_Some in E as ->. replace (Z.to_nat (Z.of_nat (length x) + 1)) with (length x + 1)%nat by lia. rewrite lookup_app_r by lia.
  replace (length x + 1 - length x)%nat with 1%nat by lia. by destruct y.
Qed.
End Words.

(** *** Descriptors *)
Section Tables.
Context {F : Type} (open : list Z -> mode -> option F).
Implicit Types (t : gmap Z F) (argv : list (list Z)).

(** The table of a shell: its own files, 9 and 10 not in use, and a number below them free. *)
Record table_ok t : Prop := {
  tb_in : is_Some (t !! 0);
  tb_out : is_Some (t !! 1);
  tb_9 : t !! 9 = None;
  tb_10 : t !! 10 = None;
  tb_low : exists i, 3 <= i < 9 /\ t !! i = None }.

Lemma free_fd_Some t fd : free_fd t = Some fd -> 3 <= fd < 16 /\ t !! fd = None /\ forall i, 3 <= i < fd -> t !! i <> None.
Proof.
  intros H. apply scan_Some in H as (Hr & Hp & Hf). apply bool_decide_eq_true in Hp. split; [lia|]. split; [done|]. intros i Hi. specialize (Hf i Hi).
  by apply bool_decide_eq_false in Hf.
Qed.

Lemma free_fd_low t k : (exists i, 3 <= i < k /\ t !! i = None) -> k <= 16 -> exists fd, free_fd t = Some fd /\ 3 <= fd < k /\ t !! fd = None.
Proof.
  intros (i & Hi & Ht) Hk. destruct (free_fd t) as [fd|] eqn:E.
  - exists fd. apply free_fd_Some in E as (H1 & H2 & H3). split; [done|]. split; [|done]. destruct (Z.le_gt_cases fd i); [lia|]. by destruct (H3 i ltac:(lia)).
  - unfold free_fd in E. rewrite scan_None in E. specialize (E i ltac:(lia)). by apply bool_decide_eq_false in E.
Qed.

(** The numbers are those of the kernel. *)
Lemma free_fd_kernel t (tsk : tfiles) : (forall i, 3 <= i < 16 -> fget tsk i = 0 <-> t !! i = None) -> find_free_fd tsk = default (-1) (free_fd t).
Proof.
  intros H. unfold find_free_fd, free_fd. f_equal. apply scan_ext. intros j Hj. specialize (H j ltac:(unfold MAX_OPEN_FILES in Hj; lia)).
  destruct (Z.eqb_spec (fget tsk j) 0); symmetry; [apply bool_decide_eq_true_2|apply bool_decide_eq_false_2]; tauto.
Qed.

(** A file takes the place of a descriptor. *)
Lemma move_to t fd std f g : t !! fd = None -> t !! std = Some g -> close (dup2 (<[fd := f]> t) fd std) fd = <[std := f]> t.
Proof.
  intros Hfd Hstd. assert (fd <> std) by congruence. unfold dup2, close. rewrite lookup_insert_eq, (proj2 (Z.eqb_neq fd std)) by done.
  rewrite delete_insert_ne by done. by rewrite delete_insert_id.
Qed.

Lemma redirect_spec t path m std save g : t !! std = Some g -> save <> std -> (forall fd, free_fd t = Some fd -> fd <> save) -> is_Some (free_fd t) ->
  redirect open t path m std save = (instead t std save (open path m), bool_decide (is_Some (open path m))).
Proof.
  intros Hg Hne Hsave [fd Hfd]. unfold redirect, instead. rewrite Hfd, Hg. pose proof (Hsave fd Hfd) as Hs. apply free_fd_Some in Hfd as (_ & Hnone & _).
  destruct (open path m) as [f|]; [|done]. f_equal. assert (fd <> std) by congruence.
  assert (dup2 (<[fd := f]> t) std save = <[fd := f]> (<[save := g]> t)) as ->.
  { unfold dup2. rewrite lookup_insert_ne, Hg, (proj2 (Z.eqb_neq std save)) by done. by rewrite insert_insert_ne. }
  apply (move_to _ _ _ _ g); by rewrite lookup_insert_ne.
Qed.

Lemma instead_lookup t std save f i : i <> std -> i <> save -> instead t std save f !! i = t !! i.
Proof. intros H1 H2. unfold instead. destruct f as [f|], (t !! std); [|done..]. by rewrite !lookup_insert_ne. Qed.
Lemma instead_is_Some t std save f i : is_Some (t !! i) -> is_Some (instead t std save f !! i).
Proof.
  intros H. unfold instead. destruct f as [f|], (t !! std); [|done..]. destruct (decide (i = std)) as [->|]; [rewrite lookup_insert_eq; eauto|].
  rewrite lookup_insert_ne by done. destruct (decide (i = save)) as [->|]; [rewrite lookup_insert_eq; eauto|]. by rewrite lookup_insert_ne.
Qed.

(** Standard input and output, and a free number, are enough for redirections. *)
Definition usable t : Prop := is_Some (t !! 0) /\ is_Some (t !! 1) /\ exists i, 3 <= i < 9 /\ t !! i = None.

Lemma usable_redirect t path m std save : usable t -> std = 0 /\ save = 9 \/ std = 1 /\ save = 10 ->
  redirect open t path m std save = (instead t std save (open path m), bool_decide (is_Some (open path m))).
Proof.
  intros (H0 & H1 & Hlow) Hs. destruct (free_fd_low t 9 Hlow ltac:(lia)) as (fd & Efd & Hfd & _).
  assert (exists g, t !! std = Some g) as [g Hg] by (destruct Hs as [[-> _]|[-> _]]; [by destruct H0 as [g ?]; exists g|by destruct H1 as [g ?]; exists g]).
  apply (redirect_spec _ _ _ _ _ g); [done|lia| |by exists fd]. rewrite Efd. intros ? [= <-]. lia.
Qed.

Lemma setup_in_spec argv t : usable t -> let '(argv', i) := in_file argv in
  setup_in open argv t = Redir argv' (instead t 0 9 (p ← i; open p ReadOnly)) (bool_decide (is_Some (p ← i; open p ReadOnly))) false.
Proof.
  intros Hu. unfold setup_in, in_file. rewrite (after_word [60]). rewrite find_char_spec.
  destruct (cut_at [60] argv) as [[x [|p y]]|] eqn:E; [by cbn| |by cbn]. cbn [head]. rewrite usable_redirect by (done || by left).
  apply cut_at_Some in E as ->. cbn [mbind option_bind]. f_equal. rewrite Nat2Z.id, take_app_length. f_equal.
  replace (Z.to_nat (Z.of_nat (length x) + 2)) with (length x + 2)%nat by lia. by rewrite drop_app_add.
Qed.

Lemma instead_usable t f : usable t -> usable (instead t 0 9 f).
Proof.
  intros (H0 & H1 & i & Hi & Hn). split; [by apply instead_is_Some|]. split; [by apply instead_is_Some|]. exists i. split; [done|]. by rewrite instead_lookup by lia.
Qed.

Lemma setup_spec argv t : usable t -> exists i o, with_files open t argv = (fst (with_files open t argv), instead (instead t 0 9 i) 1 10 o) /\
  setup_redirections open argv t = Redir (fst (with_files open t argv)) (snd (with_files open t argv)) (bool_decide (is_Some i)) (bool_decide (is_Some o)).
Proof.
  intros Hu. unfold with_files. pose proof (setup_in_spec argv t Hu) as Hin. destruct (in_file argv) as [argv1 ip]. set (i := p ← ip; open p ReadOnly) in *.
  set (t1 := instead t 0 9 i) in *. assert (usable t1) as Hu1 by by apply instead_usable. exists i.
  unfold setup_redirections. rewrite Hin. cbn [rd_argv rd_fds saved_stdin]. unfold out_file.
  pose proof (after_word [62; 62] argv1) as Ha. pose proof (after_word [62] argv1) as Ht. cbn zeta in Ha, Ht.
  rewrite !find_char_spec in *. destruct (cut_at [62; 62] argv1) as [[x y]|] eqn:Ea.
  - rewrite !(proj2 (Z.leb_le 0 (Z.of_nat (length x)))) in * by lia. rewrite !Ha. destruct y as [|p y]; cbn [head fst snd].
    { exists None. done. }
    rewrite usable_redirect by (done || by right). exists (open p Append). split; [done|]. f_equal. apply cut_at_Some in Ea as ->. by rewrite Nat2Z.id, take_app_length.
  - cbn [Z.leb Z.compare]. rewrite !Ht. destruct (cut_at [62] argv1) as [[x [|p y]]|] eqn:Et; cbn [head fst snd].
    + exists None. done.
    + rewrite usable_redirect by (done || by right). exists (open p Truncate). split; [done|]. f_equal. apply cut_at_Some in Et as ->. by rewrite Nat2Z.id, take_app_length.
    + exists None. done.
Qed.

(** Putting the saved descriptors back *)
Lemma restore_one t std save f : std <> save -> t !! save = None -> is_Some (t !! std) -> is_Some f -> close (dup2 (instead t std save f) save std) save = t.
Proof.
  intros Hne Hs [g Hg] [h ->]. unfold instead. rewrite Hg. unfold dup2. rewrite lookup_insert_ne, lookup_insert_eq by done. rewrite (proj2 (Z.eqb_neq save std)) by done.
  rewrite insert_insert_eq. unfold close. rewrite delete_insert_ne, delete_insert_id by done. by apply insert_id.
Qed.

Lemma instead_comm t i o : instead (instead t 0 9 i) 1 10 o = instead (instead t 1 10 o) 0 9 i.
Proof.
  unfold instead. destruct i as [f|], o as [g|]; [|destruct (t !! 0), (t !! 1); done..].
  destruct (t !! 0) as [x|] eqn:E0, (t !! 1) as [y|] eqn:E1; rewrite ?lookup_insert_ne, ?E0, ?E1 by lia; try done.
  apply map_eq. intros k. rewrite !lookup_insert. repeat case_decide; (done || lia).
Qed.

Lemma redirections_restored t i o : table_ok t ->
  restore_redirections (instead (instead t 0 9 i) 1 10 o) (bool_decide (is_Some i)) (bool_decide (is_Some o)) = t.
Proof.
  intros [H0 H1 H9 H10 _]. unfold restore_redirections.
  assert ((if bool_decide (is_Some i) then close (dup2 (instead (instead t 0 9 i) 1 10 o) 9 0) 9 else instead (instead t 0 9 i) 1 10 o) = instead t 1 10 o) as ->.
  { case_bool_decide as D.
    - rewrite instead_comm. apply restore_one; [lia| |by apply instead_is_Some|done]. by rewrite instead_lookup by lia.
    - destruct i; [destruct D; eauto|done]. }
  case_bool_decide as D; [by apply restore_one|]. destruct o; [destruct D; eauto|done].
Qed.

Lemma table_usable t : table_ok t -> usable t.
Proof. by intros []. Qed.

(** Two numbers can be taken, and there is a third. *)
Lemma table_room t a b : table_ok t -> exists c, 3 <= c < 16 /\ c <> a /\ c <> b /\ t !! c = None.
Proof.
  intros [_ _ H9 H10 (i & Hi & Hn)]. destruct (decide (9 <> a /\ 9 <> b)); [exists 9; split; [lia|]; tauto|]. destruct (decide (10 <> a /\ 10 <> b)); [exists 10; split; [lia|]; tauto|]. exists i. split; [lia|]. split; [lia|]. by split; [lia|].
Qed.

(** *** Pipelines *)
Context (pipes : nat -> bool) (read_end write_end : nat -> F).

Lemma stage_usable t n s : usable t -> usable (stage_fds read_end write_end t n s).
Proof.
  intros (H0 & H1 & i & Hi & Hn). unfold stage_fds. assert (forall t' j f, (j = 0 \/ j = 1) -> is_Some (t' !! 0) -> is_Some (t' !! 1) -> t' !! i = None ->
    is_Some (<[j := f]> t' !! 0) /\ is_Some (<[j := f]> t' !! 1) /\ <[j := f]> t' !! i = None) as H.
  { intros t' j f [-> | ->] A B D; rewrite !lookup_insert; repeat case_decide; try lia; split_and!; eauto. }
  repeat case_decide; unfold usable.
  - split_and!; [done|done|by exists i].
  - destruct (H t 0 (read_end (s - 1))) as (A & B & D); [lia|done..|]. split_and!; [done|done|by exists i].
  - destruct (H t 1 (write_end s)) as (A & B & D); [lia|done..|]. split_and!; [done|done|by exists i].
  - destruct (H t 0 (read_end (s - 1))) as (A & B & D); [lia|done..|]. destruct (H (<[0 := read_end (s - 1)]> t) 1 (write_end s)) as (A' & B' & D'); [lia|done..|]. split_and!; [done|done|by exists i].
Qed.

(** The table of the shell before stage [s]: the end it still has to pass on. *)
Definition before_stage t (s : nat) (prev : option Z) tbl : Prop :=
  match prev with
  | None => s = 0%nat /\ tbl = t
  | Some p => s <> 0%nat /\ 3 <= p /\ t !! p = None /\ tbl = <[p := read_end (s - 1)]> t
  end.

Lemma before_close t s prev tbl : before_stage t s prev tbl -> opt_close tbl prev = t.
Proof. destruct prev as [p|]; cbn; [|by intros [_ ->]]. intros (_ & _ & Hn & ->). unfold close. by apply delete_insert_id. Qed.

Lemma before_move t s prev tbl r w fr fw : before_stage t s prev tbl -> is_Some (t !! 0) -> tbl !! r = None -> tbl !! w = None -> r <> w ->
  opt_move (<[w := fw]> (<[r := fr]> tbl)) prev 0 = <[w := fw]> (<[r := fr]> (if decide (s = 0%nat) then t else <[0 := read_end (s - 1)]> t)).
Proof.
  intros B [g Hg] Hr Hw Hne. destruct prev as [p|]; cbn in *; [|by destruct B as [-> ->]].
  destruct B as (Hs & Hp & Hn & ->). rewrite decide_False by done. assert (p <> r /\ p <> w) as [Hpr Hpw] by (split; intros ->; by rewrite lookup_insert_eq in *).
  assert (r <> 0 /\ w <> 0) as [Hr0 Hw0] by (split; intros ->; rewrite lookup_insert_ne, Hg in * by lia; done).
  rewrite lookup_insert_ne in Hr, Hw by done.
  rewrite (insert_insert_ne _ r p), (insert_insert_ne _ w p) by done. rewrite (move_to _ _ _ _ g); [| |].
  - by rewrite (insert_insert_ne _ 0 w), (insert_insert_ne _ 0 r) by done.
  - by rewrite !lookup_insert_ne by done.
  - by rewrite !lookup_insert_ne by done.
Qed.

Lemma child_spec argv tbl prev pr pw t' : opt_move (opt_close (opt_move tbl prev 0) pr) pw 1 = t' -> usable t' -> child open argv tbl prev pr pw = command open t' argv.
Proof.
  intros E Hu. unfold child, command. rewrite E. destruct (setup_spec argv t' Hu) as (i & o & Ew & ->). cbn [rd_argv rd_fds]. by destruct (with_files open t' argv).
Qed.

(** The last stage *)
Lemma last_child argv t n s prev tbl : usable t -> before_stage t s prev tbl -> S s = n ->
  child open argv tbl prev None None = command open (stage_fds read_end write_end t n s) argv.
Proof.
  intros Hu B Hn. apply child_spec; [|by apply stage_usable]. cbn [opt_close opt_move]. unfold stage_fds. rewrite (decide_True (P := S s = n)) by done.
  destruct prev as [p|]; cbn in *; [|destruct B as [-> ->]; by rewrite decide_True]. destruct B as (Hs & Hp & Hnone & ->). rewrite decide_False by done.
  destruct Hu as ([g Hg] & _). by apply (move_to _ _ _ _ g).
Qed.

(** A stage that writes a pipe *)
Lemma inner_child argv t n s prev tbl r w : usable t -> before_stage t s prev tbl -> S s <> n -> tbl !! r = None -> tbl !! w = None -> r <> w -> 3 <= r -> 3 <= w ->
  child open argv (<[w := write_end s]> (<[r := read_end s]> tbl)) prev (Some r) (Some w) = command open (stage_fds read_end write_end t n s) argv.
Proof.
  intros Hu B Hn Hr Hw Hne Hr3 Hw3. apply child_spec; [|by apply stage_usable]. pose proof Hu as ([g Hg] & [h Hh] & _).
  rewrite (before_move t s) by (done || by eauto). unfold stage_fds. rewrite (decide_False (P := S s = n)) by done.
  set (t0 := if decide (s = 0%nat) then t else _). assert (t0 !! r = None /\ t0 !! w = None /\ exists h', t0 !! 1 = Some h') as (Hr0 & Hw0 & h' & Hh').
  { assert (t !! r = None /\ t !! w = None) as [A1 A2].
    { destruct prev as [p|]; cbn in B; [|by destruct B as [_ ->]]. destruct B as (_ & _ & Hnp & ->). rewrite !lookup_insert in Hr, Hw. repeat case_decide; done. }
    unfold t0. destruct (decide (s = 0%nat)); [eauto|]. rewrite !lookup_insert_ne by lia. eauto. }
  cbn [opt_close opt_move]. unfold close at 2. rewrite delete_insert_ne, delete_insert_id by done. by apply (move_to _ _ _ _ h').
Qed.

Lemma pipeline_loop_spec (Hp : forall s, pipes s = true) t l : table_ok t -> forall s prev tbl n, before_stage t s prev tbl -> n = (s + length l)%nat -> l <> [] ->
  pipeline_loop open pipes read_end write_end s l tbl prev = (imap (fun k argv => command open (stage_fds read_end write_end t n (s + k)) argv) l, t).
Proof.
  intros Ht. pose proof (table_usable t Ht) as Hu. induction l as [|argv l IH]; intros s prev tbl n B Hn Hl; [done|]. cbn [length] in Hn. cbn [pipeline_loop].
  destruct l as [|argv2 l].
  - cbn. rewrite (last_child argv t n s) by (done || (cbn in Hn; lia)). rewrite (before_close t s) by done. by rewrite Nat.add_0_r.
  - unfold pipe. rewrite Hp. assert (exists p, (forall i, i <> p -> tbl !! i = t !! i)) as [p Hother].
    { destruct prev as [p|]; cbn in B; [|exists 0; by destruct B as [_ ->]]. exists p. intros i Hi. destruct B as (_ & _ & _ & ->). by rewrite lookup_insert_ne. }
    destruct (free_fd_low tbl 16) as (r & -> & Hr & Hrn); [|lia|].
    { destruct (table_room t p p Ht) as (c & Hc & Hcp & _ & Hcn). exists c. split; [done|]. by rewrite Hother. }
    cbn [mbind option_bind]. destruct (free_fd_low (<[r := read_end s]> tbl) 16) as (w & -> & Hw & Hwn); [|lia|].
    { destruct (table_room t p r Ht) as (c & Hc & Hcp & Hcr & Hcn). exists c. split; [done|]. rewrite lookup_insert_ne by done. by rewrite Hother. }
    cbn [mbind option_bind]. assert (r <> w) as Hrw by (intros ->; by rewrite lookup_insert_eq in Hwn). rewrite lookup_insert_ne in Hwn by done.
    rewrite (inner_child argv t n s) by (done || lia || (cbn in Hn; lia)).
    assert (opt_close (opt_close (<[w := write_end s]> (<[r := read_end s]> tbl)) prev) (Some w) = <[r := read_end s]> t) as ->.
    { rewrite <- (before_close t s prev tbl B). cbn [opt_close]. destruct prev as [q|]; cbn [opt_close]; unfold close.
      - assert (q <> r /\ q <> w) as [Hqr Hqw] by (destruct B as (_ & _ & _ & ->); split; intros ->; by rewrite lookup_insert_eq in *).
        rewrite delete_delete, (delete_insert_id (<[r := read_end s]> tbl)) by (by rewrite lookup_insert_ne). by rewrite delete_insert_ne.
      - by rewrite delete_insert_id by (by rewrite lookup_insert_ne). }
    rewrite (IH (S s) (Some r) _ n); [| |lia|done].
    + generalize (argv2 :: l). intros l2. cbn [imap]. f_equal. f_equal; [by rewrite Nat.add_0_r|]. apply imap_ext. intros i x _. cbn. by rewrite Nat.add_succ_r.
    + cbn. split; [done|]. split; [lia|]. rewrite Nat.sub_0_r. split; [|done]. destruct prev as [q|]; cbn in B; [|by destruct B as [_ <-]].
      destruct B as (_ & _ & _ & ->). rewrite lookup_insert in Hrn. by case_decide.
Qed.

Lemma sh_exec_spec (Hp : forall s, pipes s = true) t l : Forall (fun c => c <> 0) l -> (length (words l) <= 31)%nat -> table_ok t ->
  sh_exec open pipes read_end write_end l t = Some (job_of open read_end write_end t (words l), t).
Proof.
  intros Hl Hw Ht. unfold sh_exec, job_of. rewrite parse_cmd_spec, (proj2 (Nat.leb_le _ _)) by done. cbn [mbind option_bind]. set (ws := words l) in *.
  destruct (decide (ws = [])); [by rewrite bool_decide_eq_true_2|]. rewrite bool_decide_eq_false_2 by done. rewrite !find_char_spec.
  destruct (decide ([124] ∈ ws)) as [Hbar|Hbar].
  - destruct (cut_at [124] ws) as [[x y]|] eqn:E; [|by apply cut_at_None in E]. rewrite (proj2 (Z.leb_le _ _)) by lia. unfold run_pipeline. rewrite stages_spec.
    by rewrite (pipeline_loop_spec Hp t _ Ht 0 None t (length (commands ws))) by (done || apply commands_cons).
  - rewrite (proj2 (cut_at_None [124] ws)) by done. cbn [Z.leb Z.compare].
    assert (exists argv, argv = from_option fst ws (cut_at [38] ws) /\
      (if (match cut_at [38] ws with Some (x, _) => Z.of_nat (length x) | None => -1 end) =? -1 then ws
       else take (Z.to_nat (match cut_at [38] ws with Some (x, _) => Z.of_nat (length x) | None => -1 end)) ws) = argv /\
      (match cut_at [38] ws with Some (x, _) => Z.of_nat (length x) | None => -1 end =? -1) = bool_decide ([38] ∉ ws)) as (argv & <- & -> & ->).
    { destruct (cut_at [38] ws) as [[x y]|] eqn:E; cbn [from_option fst]; eexists; (split; [reflexivity|]).
      - rewrite (proj2 (Z.eqb_neq _ _)) by lia. split; [apply cut_at_Some in E as ->; by rewrite Nat2Z.id, take_app_length|].
        symmetry. apply bool_decide_eq_false_2. intros Hn. apply cut_at_None in Hn. congruence.
      - cbn. split; [done|]. symmetry. apply bool_decide_eq_true_2. by apply cut_at_None. }
    destruct (setup_spec argv t (table_usable t Ht)) as (i & o & Ew & ->). cbn [rd_argv rd_fds saved_stdin saved_stdout]. unfold command. rewrite Ew. cbn [fst snd].
    rewrite redirections_restored by done. by destruct (program_of _ _) as [[|]|].
Qed.
End Tables.

(** A line of 32 words is shorter than the line buffer, but not [argv]. *)
Example long_line_overruns : let l := concat (replicate 32 [97; 32]) in length l = 64%nat /\ parse_cmd l = None.
Proof. vm_compute. done. Qed.

(** *** Searching *)
Lemma contains_spec k l : contains k l = true <-> exists a b, l = a ++ k ++ b.
Proof.
  unfold contains. rewrite existsb_exists. split.
  - intros (i & _ & H). apply bool_decide_eq_true in H as [b Hb]. exists (take i l), b. by rewrite <- Hb, take_drop.
  - intros (a & b & ->). exists (length a). split; [apply in_seq; rewrite length_app; lia|]. apply bool_decide_eq_true_2. exists b. by rewrite drop_app_length.
Qed.

Lemma contains_nil k : k <> [] -> contains k [] = false.
Proof. intros Hk. destruct (contains k []) eqn:E; [|done]. apply contains_spec in E as (a & b & E). symmetry in E. apply app_eq_nil in E as [_ E]. by apply app_eq_nil in E as [-> _]. Qed.

(** [grep] prints the lines, cut at 255 characters, that contain the word. *)
Lemma cmd_grep_spec k input : k <> [] -> cmd_grep k input = concat ((fun l => grep_line k (take 255 l)) <$> lines input).
Proof.
  intros Hk. assert (forall buf, (length buf <= 255)%nat -> grep_loop k input buf =
    match lines input with w :: ws => grep_line k (take 255 (buf ++ w)) ++ concat ((fun l => grep_line k (take 255 l)) <$> ws) | [] => [] end) as H.
  { induction input as [|c input IH]; intros buf Hb; cbn [grep_loop lines].
    - cbn. rewrite !app_nil_r, take_ge by done. case_bool_decide as E; [|done]. subst buf. unfold grep_line. cbn [cstr]. by rewrite contains_nil.
    - destruct (Z.eqb_spec c NEWLINE) as [->|Hc]; cbn [Z.eqb Pos.eqb NEWLINE].
      + rewrite app_nil_r, (take_ge buf) by done. f_equal. rewrite IH by (cbn; lia). destruct (lines input); [done|]. done.
      + rewrite (proj2 (Z.eqb_neq c 10)) by done. destruct (Nat.ltb_spec (length buf) 255); rewrite IH by (rewrite ?length_app; cbn; lia).
        * destruct (lines_cons input) as (w & ws & E). rewrite E. by rewrite <- app_assoc.
        * destruct (lines_cons input) as (w & ws & E). rewrite E. by rewrite !take_app_le, !take_ge by lia. }
  unfold cmd_grep. rewrite H by (cbn; lia). destruct (lines_cons input) as (w & ws & E). rewrite E. done.
Qed.

(** C32: What a line of the shell starts.  For a line of at most 31 words, as long as pipes can
    be had: it is split at blanks; between bars, stage [s] of a pipeline gets the read
    end of the pipe before it as its standard input and the write end of the pipe after
    it as its standard output, the first and the last those of the shell, and no other
    end of a pipe is left open in any of them; a program alone is waited for unless it has
    an ampersand, a command of the shell itself always; [<], [>] and [>>] put files in place of descriptors.  Afterwards every
    descriptor of the shell is what it was before. *)
Theorem shell_runs_line {F : Type} (open : list Z -> mode -> option F) (pipes : nat -> bool) (read_end write_end : nat -> F) t l :
  (forall s, pipes s = true) -> Forall (fun c => c <> 0) l -> (length (words l) <= 31)%nat -> table_ok t ->
  sh_exec open pipes read_end write_end l t = Some (job_of open read_end write_end t (words l), t).
Proof. intros Hp. by apply sh_exec_spec. Qed.

(** [cat < a | grep x >> b]: files are strings here, the pipe ["<"] and [">"]. *)
Definition demo_table : gmap Z string := {[0 := "keys"; 1 := "screen"; 2 := "screen"]}%string.

Lemma shell_runs_line_witness :
  exists p1 p2, sh_exec (fun _ _ => Some "file"%string) (fun _ => true) (fun _ => "pipe out"%string) (fun _ => "pipe in"%string)
    (str "cat < a | grep x >> b") demo_table = Some (Pipeline [Some p1; Some p2], demo_table) /\
  match p1, p2 with
  | Builtin Cmd_cat a1 t1, Builtin Cmd_grep a2 t2 => a1 = [str "cat"] /\ t1 !! 0 = Some "file"%string /\ t1 !! 1 = Some "pipe in"%string /\
                                    a2 = [str "grep"; str "x"] /\ t2 !! 0 = Some "pipe out"%string /\ t2 !! 1 = Some "file"%string
  | _, _ => False
  end.
Proof.
  assert (Forall (fun c => c <> 0) (str "cat < a | grep x >> b")) as H1 by (apply (bool_decide_unpack _); reflexivity).
  assert (table_ok demo_table) as H2.
  { split; [by eexists|by eexists|reflexivity|reflexivity|]. exists 3. split; [lia|reflexivity]. }
  rewrite (shell_runs_line (fun _ _ => Some "file"%string) (fun _ => true) (fun _ => "pipe out"%string) (fun _ => "pipe in"%string) demo_table _
             (fun _ => eq_refl) H1 ltac:(vm_compute; lia) H2).
  eexists _, _. split; [vm_compute; reflexivity|]. vm_compute. split_and!; reflexivity.
Defined.
