(* ===== verification/Ata.v ===== *)
(** The ATA disk driver, [src/src/drivers/ata.c], above the port protocol.

    Each of the two drives is a byte memory, sector [n] at [512 * n].  A transfer
    programs the controller through its registers ([lba_ports]), which select a drive
    and a sector, and then moves sectors between the drive and a buffer; waiting for
    the drive and its interrupts is not modelled.  Buffers are memories of their own,
    from address 0. *)
From S2P Require Import Prelude Machine.

Definition SECTOR_SIZE : Z := 0x200.

(** Copy [n] bytes of one memory into another. *)
Definition blit (dst : mem) (da : Z) (src : mem) (sa n : Z) : mem :=
  for_loop (Z.to_nat n) 0 (fun i m => put8 m (da + i) (get8 src (sa + i))) dst.

Lemma get8_blit dst da src sa n a : 0 <= n ->
  get8 (blit dst da src sa n) a =
    if bool_decide (da <= a < da + n) then get8 src (sa + (a - da)) else get8 dst a.
Proof.
  intros Hn. unfold blit.
  enough (forall k, 0 <= k <= n -> get8 (for_loop (Z.to_nat k) 0 (fun i m => put8 m (da + i) (get8 src (sa + i))) dst) a =
    if bool_decide (da <= a < da + k) then get8 src (sa + (a - da)) else get8 dst a) as H by (apply H; lia).
  intros k [Hk _]. pattern k. apply natlike_ind; [|intros x Hx IH|done].
  - simpl. rewrite bool_decide_eq_false_2 by lia. done.
  - rewrite Z2Nat.inj_succ by done. rewrite for_loop_snoc. rewrite get8_put8, IH, Z2Nat.id by done.
    rewrite Z.add_0_l. destruct (decide (da + x = a)) as [E|]; [rewrite (bool_decide_eq_true_2 (da + x = a)) by done|rewrite (bool_decide_eq_false_2 (da + x = a)) by done].
    + rewrite bool_decide_eq_true_2 by lia. rewrite u8_small by apply get8_range. f_equal. lia.
    + destruct (decide (da <= a < da + x)).
      * rewrite !bool_decide_eq_true_2 by lia. done.
      * rewrite !bool_decide_eq_false_2 by lia. done.
Qed.

(** ** Transfers *)

(** What goes to the LBA and drive registers. *)
Definition lba_ports (lba drive_sel : Z) : Z * Z * Z * Z :=
  (Z.land lba 0xFF, Z.land (Z.shiftr lba 8) 0xFF, Z.land (Z.shiftr lba 16) 0xFF,
   Z.lor (Z.lor (Z.land (Z.shiftr lba 24) 0x0F) 0xE0) (Z.shiftl (Z.land drive_sel 0x01) 4)).

(** The sector and the drive the registers select (28-bit LBA mode). *)
Definition selected : Z * Z * Z * Z -> Z * Z := fun '(lo, mid, hi, drv) =>
  (lo + 2 ^ 8 * mid + 2 ^ 16 * hi + 2 ^ 24 * (drv mod 16), Z.b2z (Z.testbit drv 4)).

(** The contents of the drives, by number. *)
Abbreviation drives := (gmap Z mem).
Definition drive (dr : drives) (d : Z) : mem := default ∅ (dr !! d).

(** [sec_count] sectors into [dst], word by word, from the sector and the drive the
    registers select. *)
Definition ata_read_sectors (dr : drives) (dst : mem) (lba sec_count drive_sel : Z) : mem :=
  let '(first, d) := selected (lba_ports lba drive_sel) in
  for_loop (Z.to_nat sec_count) 0
    (fun i dst => blit dst (i * SECTOR_SIZE) (drive dr d) ((first + i) * SECTOR_SIZE) SECTOR_SIZE) dst.

Definition ata_write_sectors (dr : drives) (src : mem) (lba sec_count drive_sel : Z) : drives :=
  if sec_count =? 0 then dr
  else
    let '(first, d) := selected (lba_ports lba drive_sel) in
    <[d := for_loop (Z.to_nat sec_count) 0
      (fun i disk => blit disk ((first + i) * SECTOR_SIZE) src (i * SECTOR_SIZE) SECTOR_SIZE) (drive dr d)]> dr.

(** The model name of a drive: [len] words, high byte first, and a NUL. *)
Definition ata_string_swap (dst : mem) (src : Z -> Z) (len : Z) : mem :=
  let dst := for_loop (Z.to_nat len) 0 (fun i dst =>
    put8 (put8 dst (2 * i) (Z.land (Z.shiftr (src i) 8) 0xFF)) (2 * i + 1) (Z.land (src i) 0xFF)) dst in
  put8 dst (2 * len) 0.

(** Every 28-bit sector number and either drive arrive as they were given. *)
Lemma selected_ports lba drive_sel : 0 <= lba < 2 ^ 28 -> 0 <= drive_sel < 2 ->
  selected (lba_ports lba drive_sel) = (lba, drive_sel).
Proof.
  intros Hl Hd. unfold selected, lba_ports.
  change 0xFF with (Z.ones 8). change 0x0F with (Z.ones 4). change 0x01 with (Z.ones 1).
  rewrite !Z.land_ones, !Z.shiftr_div_pow2, Z.shiftl_mul_pow2 by lia.
  set (x := lba / 2 ^ 24 mod 2 ^ 4). assert (0 <= x < 16) by (unfold x; apply Z.mod_pos_bound; lia).
  assert (x = lba / 2 ^ 24) as Hx by (unfold x; apply Z.mod_small; Z.div_mod_to_equations; lia).
  assert (drive_sel mod 2 ^ 1 = drive_sel) as -> by (apply Z.mod_small; lia).
  assert (Z.lor (Z.lor x 0xE0) (drive_sel * 2 ^ 4) mod 16 = x /\
    Z.b2z (Z.testbit (Z.lor (Z.lor x 0xE0) (drive_sel * 2 ^ 4)) 4) = drive_sel) as [-> ->].
  { clear Hx. clearbody x.
    assert (x = 0 \/ x = 1 \/ x = 2 \/ x = 3 \/ x = 4 \/ x = 5 \/ x = 6 \/ x = 7 \/ x = 8 \/ x = 9 \/ x = 10 \/
      x = 11 \/ x = 12 \/ x = 13 \/ x = 14 \/ x = 15) as Hc by lia.
    assert (drive_sel = 0 \/ drive_sel = 1) as [-> | ->] by lia;
      repeat destruct Hc as [-> | Hc]; try (split; reflexivity); subst; split; reflexivity. }
  f_equal. rewrite Hx. Z.div_mod_to_equations. lia.
Qed.

Section Sectors.
Implicit Types (dr : drives) (disk buf m : mem) (lba n a sel : Z).

Lemma drive_insert dr d d' m : drive (<[d := m]> dr) d' = if bool_decide (d = d') then m else drive dr d'.
Proof. unfold drive. case_bool_decide; [subst; by rewrite lookup_insert_eq|by rewrite lookup_insert_ne]. Qed.

Lemma get8_read_sectors dr buf lba n sel a : 0 <= lba < 2 ^ 28 -> 0 <= sel < 2 -> 0 <= n ->
  get8 (ata_read_sectors dr buf lba n sel) a =
    if bool_decide (0 <= a < n * SECTOR_SIZE) then get8 (drive dr sel) (lba * SECTOR_SIZE + a) else get8 buf a.
Proof.
  intros Hl Hs Hn. unfold ata_read_sectors. rewrite selected_ports by lia. unfold SECTOR_SIZE.
  pattern n. apply natlike_ind; [|intros k Hk IH|done].
  - simpl. rewrite bool_decide_eq_false_2 by lia. done.
  - rewrite Z2Nat.inj_succ, for_loop_snoc by done. rewrite get8_blit, IH, Z2Nat.id, Z.add_0_l by lia.
    destruct (decide (k * 0x200 <= a < k * 0x200 + 0x200)).
    + rewrite !bool_decide_eq_true_2 by lia. f_equal. lia.
    + rewrite bool_decide_eq_false_2 by lia. destruct (decide (0 <= a < k * 0x200)).
      * rewrite !bool_decide_eq_true_2 by lia. done.
      * rewrite !bool_decide_eq_false_2 by lia. done.
Qed.

Lemma get8_write_loop disk buf lba n a : 0 <= n ->
  get8 (for_loop (Z.to_nat n) 0 (fun i disk => blit disk ((lba + i) * SECTOR_SIZE) buf (i * SECTOR_SIZE) SECTOR_SIZE) disk) a =
    if bool_decide (lba * SECTOR_SIZE <= a < (lba + n) * SECTOR_SIZE) then get8 buf (a - lba * SECTOR_SIZE)
    else get8 disk a.
Proof.
  intros Hn. unfold SECTOR_SIZE. pattern n. apply natlike_ind; [|intros k Hk IH|done].
  - simpl. rewrite bool_decide_eq_false_2 by lia. done.
  - rewrite Z2Nat.inj_succ, for_loop_snoc by done. rewrite get8_blit, IH, Z2Nat.id, Z.add_0_l by lia.
    destruct (decide ((lba + k) * 0x200 <= a < (lba + k) * 0x200 + 0x200)).
    + rewrite !bool_decide_eq_true_2 by lia. f_equal. lia.
    + rewrite bool_decide_eq_false_2 by lia. destruct (decide (lba * 0x200 <= a < (lba + k) * 0x200)).
      * rewrite !bool_decide_eq_true_2 by lia. done.
      * rewrite !bool_decide_eq_false_2 by lia. done.
Qed.

Lemma get8_write_sectors dr buf lba n sel a : 0 <= lba < 2 ^ 28 -> 0 <= sel < 2 -> 0 <= n ->
  get8 (drive (ata_write_sectors dr buf lba n sel) sel) a =
    if bool_decide (lba * SECTOR_SIZE <= a < (lba + n) * SECTOR_SIZE) then get8 buf (a - lba * SECTOR_SIZE)
    else get8 (drive dr sel) a.
Proof.
  intros Hl Hs Hn. unfold ata_write_sectors. case_match eqn:E.
  - apply Z.eqb_eq in E as ->. rewrite bool_decide_eq_false_2 by lia. done.
  - rewrite selected_ports by lia. rewrite drive_insert, bool_decide_eq_true_2 by done. by apply get8_write_loop.
Qed.

(** The other drive is not touched. *)
Lemma write_sectors_other dr buf lba n sel d : 0 <= lba < 2 ^ 28 -> 0 <= sel < 2 -> d <> sel ->
  drive (ata_write_sectors dr buf lba n sel) d = drive dr d.
Proof.
  intros Hl Hs Hd. unfold ata_write_sectors. case_match; [done|]. rewrite selected_ports by lia.
  rewrite drive_insert, bool_decide_eq_false_2 by congruence. done.
Qed.
End Sectors.

(** ** Partitions as block devices *)
Record PartitionDevice := PartDev { start_lba : Z; sector_count : Z; drive_sel : Z }.

(** The sectors a byte range touches: first sector and how many. *)
Definition sector_span (dev : PartitionDevice) (offset size : Z) : Z * Z :=
  let first := u64 (start_lba dev + offset / SECTOR_SIZE) in
  let end_offset := u64 (offset + size - 1) in
  let last := u64 (start_lba dev + end_offset / SECTOR_SIZE) in
  (first, u64 (last - first + 1)).

(** [tmp_ok]: [vmm_alloc] gave a buffer, whose contents are [tmp_buf].  [m] is the
    caller's memory. *)
Definition ata_fs_read (tmp_ok : bool) (tmp_buf : mem) (dr : drives) (dev : PartitionDevice)
    (offset size : Z) (m : mem) (buf : Z) : Z * mem :=
  let '(first, num_sectors) := sector_span dev offset size in
  if 255 <? num_sectors then (0, m)
  else if negb tmp_ok then (0, m)
  else
    let tmp_buf := ata_read_sectors dr tmp_buf (u32 first) (u8 num_sectors) (drive_sel dev) in
    (size, blit m buf tmp_buf (offset mod SECTOR_SIZE) size).

Definition ata_fs_write (tmp_ok : bool) (tmp_buf : mem) (dr : drives) (dev : PartitionDevice)
    (offset size : Z) (m : mem) (buf : Z) : Z * drives :=
  let '(first, num_sectors) := sector_span dev offset size in
  if 255 <? num_sectors then (0, dr)
  else if negb tmp_ok then (0, dr)
  else
    let tmp_buf := ata_read_sectors dr tmp_buf (u32 first) (u8 num_sectors) (drive_sel dev) in
    let tmp_buf := blit tmp_buf (offset mod SECTOR_SIZE) m buf size in
    (size, ata_write_sectors dr tmp_buf (u32 first) (u8 num_sectors) (drive_sel dev)).

(** The nodes the driver registers with the device table: name, length and device. *)
Record block_node := BlockNode { bn_name : list Z; bn_length : Z; bn_dev : PartitionDevice }.

Definition HDA : list Z := [104; 100; 97].

(** The entries of the partition table at 0x1BE from the [i]-th on, those with a type;
    [node_ok i], [data_ok i]: whether the allocations for entry [i] succeed. *)
Fixpoint probe_entries (n : nat) (i : Z) (mbr_buf : mem) (drive_sel : Z) (node_ok data_ok : Z -> bool) : list block_node :=
  match n with
  | O => []
  | S n =>
      let e := 0x1BE + 16 * i in
      if get8 mbr_buf (e + 4) =? 0 then probe_entries n (i + 1) mbr_buf drive_sel node_ok data_ok
      else if negb (node_ok i) then []
      else if negb (data_ok i) then []
      else
        let total_sectors := load32 mbr_buf (e + 12) in
        BlockNode (HDA ++ [49 + i]) (u64 (total_sectors * SECTOR_SIZE))
          (PartDev (load32 mbr_buf (e + 8)) total_sectors drive_sel)
        :: probe_entries n (i + 1) mbr_buf drive_sel node_ok data_ok
  end.

Definition ata_probe_partitions (mbr_buf : mem) (dr : drives) (drive_sel : Z) (node_ok data_ok : Z -> bool) : list block_node :=
  probe_entries 4 0 (ata_read_sectors dr mbr_buf 0 1 drive_sel) drive_sel node_ok data_ok.

(** The whole second drive as [hda], and its partitions. *)
Definition ata_fs_init (root_ok part_ok : bool) (mbr_buf : mem) (dr : drives) (node_ok data_ok : Z -> bool) : list block_node :=
  if negb root_ok then []
  else if negb part_ok then []
  else
    let tgt_drive := 1 in
    BlockNode HDA 0xFFFFFFFF (PartDev 0 0 tgt_drive) :: ata_probe_partitions mbr_buf dr tgt_drive node_ok data_ok.

Section Partition.
Implicit Types (disk m : mem) (dev : PartitionDevice).

Lemma sector_span_spec dev offset size : 0 <= start_lba dev -> 0 <= offset -> 0 < size ->
  start_lba dev + (offset + size) / SECTOR_SIZE < 2 ^ 28 -> size <= 254 * SECTOR_SIZE ->
  exists n, sector_span dev offset size = (start_lba dev + offset / SECTOR_SIZE, n) /\ 0 < n <= 255 /\
    offset mod SECTOR_SIZE + size <= n * SECTOR_SIZE /\ start_lba dev + offset / SECTOR_SIZE + n <= 2 ^ 28.
Proof.
  intros Hs Ho Hz Hl Hmax. unfold sector_span, SECTOR_SIZE in *.
  assert (offset + size < 2 ^ 40) by (Z.div_mod_to_equations; lia).
  rewrite (u64_small (_ - 1)) by lia.
  rewrite (u64_small (start_lba dev + offset / 512)), (u64_small (start_lba dev + (offset + size - 1) / 512))
    by (Z.div_mod_to_equations; lia).
  eexists. split; [done|]. rewrite u64_small by (Z.div_mod_to_equations; lia).
  split; [Z.div_mod_to_equations; lia|]. split; Z.div_mod_to_equations; lia.
Qed.

(** A write to a block device changes exactly the bytes it names, whatever part of
    their sectors they cover and on the selected drive only, and reading them back gives
    what was written. *)
Theorem ata_fs_write_read tmp tmp2 dr dev offset size m buf m' buf' :
  0 <= start_lba dev -> 0 <= drive_sel dev < 2 -> 0 <= offset -> 0 < size ->
  start_lba dev + (offset + size) / SECTOR_SIZE < 2 ^ 28 -> size <= 254 * SECTOR_SIZE ->
  exists dr', ata_fs_write true tmp dr dev offset size m buf = (size, dr') /\
    (forall a, get8 (drive dr' (drive_sel dev)) a =
       let p := start_lba dev * SECTOR_SIZE + offset in
       if bool_decide (p <= a < p + size) then get8 m (buf + (a - p)) else get8 (drive dr (drive_sel dev)) a) /\
    (forall d, d <> drive_sel dev -> drive dr' d = drive dr d) /\
    exists m2, ata_fs_read true tmp2 dr' dev offset size m' buf' = (size, m2) /\
      forall a, get8 m2 a = if bool_decide (buf' <= a < buf' + size) then get8 m (buf + (a - buf')) else get8 m' a.
Proof.
  intros Hs Hsel Ho Hz Hl Hmax. destruct (sector_span_spec dev offset size Hs Ho Hz Hl Hmax) as (n & Hsp & Hn & Hfit & H28).
  unfold ata_fs_write, ata_fs_read. rewrite Hsp. rewrite (proj2 (Z.ltb_ge 255 n)) by lia. cbn [negb].
  set (f := start_lba dev + offset / SECTOR_SIZE) in *. assert (0 <= offset / SECTOR_SIZE) by (apply Z.div_pos; [lia|done]).
  rewrite (Prelude.u32_small f), (u8_small n) by lia. set (sel := drive_sel dev) in *.
  set (tb := ata_read_sectors dr tmp f n sel). set (tb' := blit tb _ m buf size).
  set (dr' := ata_write_sectors dr tb' f n sel). exists dr'. split; [done|].
  pose proof (Z.mod_pos_bound offset SECTOR_SIZE ltac:(done)) as Hmod.
  assert (f * SECTOR_SIZE + offset mod SECTOR_SIZE = start_lba dev * SECTOR_SIZE + offset) as Hp
    by (unfold f, SECTOR_SIZE in *; Z.div_mod_to_equations; lia).
  assert (forall a, get8 (drive dr' sel) a = let p := start_lba dev * SECTOR_SIZE + offset in
       if bool_decide (p <= a < p + size) then get8 m (buf + (a - p)) else get8 (drive dr sel) a) as Hd.
  { intros a. cbv zeta. rewrite <- Hp. unfold dr'. rewrite get8_write_sectors by lia. unfold tb'.
    rewrite get8_blit by lia. unfold tb. rewrite get8_read_sectors by lia. unfold SECTOR_SIZE in *.
    repeat case_bool_decide; try lia; try done; f_equal; lia. }
  split; [exact Hd|]. split; [intros; apply write_sectors_other; (lia || done)|].
  eexists. split; [done|]. intros a. rewrite get8_blit by lia.
  case_bool_decide as E; [|done]. rewrite get8_read_sectors by lia.
  rewrite bool_decide_eq_true_2 by (unfold SECTOR_SIZE in *; lia). rewrite Hd. cbv zeta. rewrite <- Hp.
  rewrite bool_decide_eq_true_2 by lia. f_equal. lia.
Qed.
End Partition.

Lemma ata_fs_write_read_witness :
  let dev := PartDev 2048 4096 1 in
  exists dr', ata_fs_write true ∅ ∅ dev 510 4 (store32 ∅ 0 0x11223344) 0 = (4, dr') /\
    load32 (drive dr' 1) (2048 * SECTOR_SIZE + 510) = 0x11223344.
Proof.
  destruct (ata_fs_write_read ∅ ∅ ∅ (PartDev 2048 4096 1) 510 4 (store32 ∅ 0 0x11223344) 0 ∅ 0) as (dr' & Hw & Hb & _);
    [done|split; done|done|done|done|done|].
  exists dr'. split; [exact Hw|].
  transitivity (load32 (store32 ∅ 0 0x11223344) 0); [|vm_compute; reflexivity].
  apply load_ext. intros i Hi. rewrite Hb. cbv zeta. unfold SECTOR_SIZE in *. cbn [start_lba].
  rewrite bool_decide_eq_true_2 by lia. f_equal. lia.
Defined.
