(* ===== verification/Elf.v ===== *)
(** Loading a program, [src/src/elf.c]: the segments of an ELF file are mapped into an
    address space and filled.

    A file is its bytes and its size; reading gives the bytes at the position that are
    there and moves it.  The frames and the page tables are those of [Paging].  A
    header that is not all in the file would be read from uninitialised memory: [None].
    The allocation of the table of program headers is an argument. *)
From S2P Require Import Prelude Machine StringLib Pmm Frames Kmalloc Paging VmRegions Shm ShmSpec Ata.

Definition PT_LOAD : Z := 1.
Definition sizeof_Ehdr : Z := 64.
Definition sizeof_Phdr : Z := 56.
Definition ELF_FLAGS : Z := Z.lor (Z.lor VMM_FLAG_PRESENT VMM_FLAG_WRITABLE) VMM_FLAG_USER.

Record elf_file := ElfFile { f_data : mem; f_size : Z }.

Record Elf64_Phdr := Phdr { p_type : Z; p_offset : Z; p_vaddr : Z; p_filesz : Z; p_memsz : Z }.

(** The fields of the headers at their offsets. *)
Definition e_magic (f : elf_file) : list Z := (fun i => get8 (f_data f) i) <$> [0; 1; 2; 3].
Definition e_entry (f : elf_file) : Z := load64 (f_data f) 24.
Definition e_phoff (f : elf_file) : Z := load64 (f_data f) 32.
Definition e_phentsize (f : elf_file) : Z := load 2 (f_data f) 54.
Definition e_phnum (f : elf_file) : Z := load 2 (f_data f) 56.

Definition phdr_at (f : elf_file) (a : Z) : Elf64_Phdr :=
  let m := f_data f in
  Phdr (load32 m a) (load64 m (a + 8)) (load64 m (a + 16)) (load64 m (a + 32)) (load64 m (a + 40)).

Section Load.
Context {A : Type} `{FrameAllocator A}.
Implicit Types (s : A) (f : elf_file) (ph : Elf64_Phdr).

(** [vfs_read]: how much there is, and the new position. *)
Definition file_read f s (pos n dst : Z) : A * Z :=
  let k := Z.max 0 (Z.min n (f_size f - pos)) in
  (fa_set_mem s (blit (fa_mem s) dst (f_data f) pos k), pos + k).

(** Pages from [page_addr] on that are not mapped get a zeroed frame; false when no
    frame is left. *)
Fixpoint map_pages (n : nat) s (pml4 page_addr : Z) : A * bool :=
  match n with
  | O => (s, true)
  | S n =>
      if vmm_virt2phys s pml4 page_addr =? 0 then
        let '(phys_addr, s) := fa_alloc s in
        if phys_addr =? 0 then (s, false)
        else
          let s := zero_page s (phys_to_hhdm s phys_addr) in
          map_pages n (vmm_map_page s pml4 page_addr phys_addr ELF_FLAGS) pml4 (page_addr + PAGE_SIZE)
      else map_pages n s pml4 (page_addr + PAGE_SIZE)
  end.

(** One chunk of the segment, up to the end of its page; [inr]: all of it is copied, or
    a page is missing. *)
Definition copy_step f ph (pml4 : Z) (st : A * Z * Z) : (A * Z * Z) + (A * bool) :=
  let '(s, copied, pos) := st in
  if copied <? p_filesz ph then
    let curr_vaddr := u64 (p_vaddr ph + copied) in
    let page_addr := Z.land curr_vaddr ADDR_MASK in
    let page_off := Z.land curr_vaddr (PAGE_SIZE - 1) in
    let phys_addr := vmm_virt2phys s pml4 page_addr in
    if phys_addr =? 0 then inr (s, false)
    else
      let dst_ptr := phys_to_hhdm s phys_addr + page_off in
      let chunk := PAGE_SIZE - page_off in
      let chunk := if p_filesz ph - copied <? chunk then p_filesz ph - copied else chunk in
      let '(s, pos) := file_read f s pos chunk dst_ptr in
      inl (s, copied + chunk, pos)
  else inr (s, true).

(** A segment spans at most two pages more than it fills. *)
Definition load_segment f ph (pml4 : Z) s : option (A * bool) :=
  if negb (p_type ph =? PT_LOAD) || (p_memsz ph =? 0) then Some (s, true)
  else
    let start_page := Z.land (p_vaddr ph) ADDR_MASK in
    let end_page := Z.land (u64 (p_vaddr ph + p_memsz ph + PAGE_SIZE - 1)) ADDR_MASK in
    let '(s, ok) := map_pages (Z.to_nat ((end_page - start_page) / PAGE_SIZE)) s pml4 start_page in
    if negb ok then Some (s, false)
    else loop (Z.to_nat (p_filesz ph / PAGE_SIZE) + 3) (copy_step f ph pml4) (s, 0, p_offset ph).

Fixpoint load_segments f (l : list Elf64_Phdr) (pml4 : Z) s : option (A * bool) :=
  match l with
  | [] => Some (s, true)
  | ph :: l =>
      '(s, ok) ← load_segment f ph pml4 s;
      if ok : bool then load_segments f l pml4 s else Some (s, false)
  end.

(** The program headers, of which [phdrs_size] bytes are read. *)
Definition read_phdrs f : option (list Elf64_Phdr) :=
  let phdrs_size := u16 (e_phnum f * e_phentsize f) in
  let got := Z.max 0 (Z.min phdrs_size (f_size f - e_phoff f)) in
  if got <? e_phnum f * sizeof_Phdr then None
  else Some ((fun i => phdr_at f (e_phoff f + i * sizeof_Phdr)) <$> seqZ 0 (e_phnum f)).

(** The entry point, 0 when the program cannot be loaded. *)
Definition elf_load_PML4 (file : option elf_file) (kmalloc_ok : bool) (pml4 : Z) s : option (Z * A) :=
  match file with
  | None => Some (0, s)
  | Some f =>
      if f_size f <? sizeof_Ehdr then None
      else if negb (bool_decide (e_magic f = [0x7F; 69; 76; 70])) then Some (0, s)
      else if negb kmalloc_ok then Some (0, s)
      else
        l ← read_phdrs f;
        '(s, ok) ← load_segments f l pml4 s;
        Some (if ok : bool then e_entry f else 0, s)
  end.
End Load.
