(* ===== verification/ElfSpec.v ===== *)
(** Loading a program: what its address space holds afterwards. *)
From S2P Require Import Prelude Machine StringLib Pmm Frames Kmalloc Paging FreeSpace VmRegions Shm ShmSpec Ata Elf.

Definition user (x : Z) : Prop := 0 <= x < 2 ^ 47.

Lemma page_mod x : 0 <= x mod PAGE_SIZE < PAGE_SIZE.
Proof. by apply Z.mod_pos_bound. Qed.

Section Spaces.
Context {A : Type} `{FS : FrameAllocatorSpec A} (root : Z).
Implicit Types (s : A) (x v i r : Z).

(** Frames are only taken. *)
Definition grows s s' : Prop := forall i r, fa_count s i = Some r -> fa_count s' i = Some r.

Lemma grows_refl s : grows s s.
Proof. by intros i r. Qed.
Lemma grows_trans s1 s2 s3 : grows s1 s2 -> grows s2 s3 -> grows s1 s3.
Proof. intros H1 H2 i r H. by apply H2, H1. Qed.
Lemma room_grows s s' n : grows s s' -> room s' n -> room s n.
Proof. intros G. apply room_kept. intros i _ Hi. destruct (fa_count s i) as [r|] eqn:E; [|done]. apply G in E. congruence. Qed.
Lemma exhausted_grows s s' : exhausted s -> grows s s' -> exhausted s'.
Proof. intros He G Hr. by apply He, (room_grows s s'). Qed.

(** The same frames with the same references. *)
Definition same_counts s s' : Prop := forall j, fa_count s' j = fa_count s j.

(** The byte a program reads at an address; [None]: the address is not mapped. *)
Definition user_byte s x : option Z :=
  let p := vmm_virt2phys s root x in if p =? 0 then None else Some (get8 (fa_mem s) (phys_to_hhdm s p)).

Definition present s x : bool := has VMM_FLAG_PRESENT (lookup_pte s root x).
Definition page_frame s x : Z := pte_get_addr (lookup_pte s root x) / PAGE_SIZE.

(** *** Walks *)
(** The tables a walk to [va] adds: each is a frame that was free. *)
Record built s s' va : Prop := {
  bl_count j : fa_count s' j = fa_count s j \/
    (fa_count s j = None /\ fa_count s' j = Some 1 /\ exists p, p `prefix_of` va_path va /\ walk s' root p = Some (fa_hhdm s + j * PAGE_SIZE));
  bl_walk q u : path_ok q -> walk s' root q = Some u ->
    walk s root q = Some u \/ exists j, u = fa_hhdm s + j * PAGE_SIZE /\ fa_count s j = None /\ fa_count s' j = Some 1 }.

Lemma built_refl s va : built s s va.
Proof. split; intros; by left. Qed.

Lemma va_prefix_ok va p : in_slots va -> p `prefix_of` va_path va -> path_ok p.
Proof.
  intros Hs [k E]. destruct (va_path_ok va Hs) as (Hl & Hf & H0). rewrite E in Hl, Hf, H0. rewrite length_app in Hl. apply Forall_app in Hf as [Hf _].
  split; [lia|]. split; [done|by destruct p].
Qed.

Lemma built_trans s1 s2 s3 va : in_slots va -> pt_ext root s1 s2 -> pt_ext root s2 s3 -> built s1 s2 va -> built s2 s3 va -> built s1 s3 va.
Proof.
  intros Hsl X1 X2 B1 B2. assert (forall j, fa_count s2 j = None -> fa_count s1 j = None) as Hnone.
  { intros j Hj. destruct (fa_count s1 j) as [r|] eqn:E; [|done]. apply (pe_count _ _ _ X1) in E. congruence. }
  split.
  - intros j. destruct (bl_count _ _ _ B2 j) as [E|(E1 & E2 & p & Hp & Hw)].
    + rewrite E. destruct (bl_count _ _ _ B1 j) as [E'|(E1 & E2 & p & Hp & Hw)]; [by left|right]. split; [done|]. split; [done|]. exists p. split; [done|].
      apply X2; [by eapply va_prefix_ok|done].
    + right. split; [by apply Hnone|]. split; [done|]. exists p. split; [done|]. by rewrite <- (pe_hhdm _ _ _ X1).
  - intros q u Hq Hw. destruct (bl_walk _ _ _ B2 q u Hq Hw) as [Hw2|(j & -> & E1 & E2)].
    + destruct (bl_walk _ _ _ B1 q u Hq Hw2) as [Hw1|(j & -> & E1 & E2)]; [by left|right]. exists j. split; [done|]. split; [done|]. by apply X2.
    + right. exists j. rewrite (pe_hhdm _ _ _ X1). split; [done|]. split; [by apply Hnone|done].
Qed.

Lemma next_table_built s p t i va v s' : in_slots va -> pt_inv s root -> walk s root p = Some t -> (p ++ [i]) `prefix_of` va_path va ->
  next_table s t i true = (Some v, s') -> built s s' va.
Proof.
  intros Hsl Hpt Hw Hpre. pose proof (va_prefix_ok va _ Hsl Hpre) as Hok. unfold next_table. destruct (has VMM_FLAG_PRESENT (rd s t i)) eqn:Hpres; cbn [negb]; [intros [= _ <-]; apply built_refl|].
  destruct (alloc_zero s (pt_fa _ _ Hpt)) as [(f & s1 & -> & Hf & Hfree & Hv & Hun & Hc & Hoth & Hzero)|[Hnone _]]; [|by rewrite Hnone].
  rewrite (proj2 (Z.eqb_neq (f * PAGE_SIZE) 0)) by (unfold PAGE_SIZE; lia). rewrite Hv. set (s2 := zero_page s1 (fa_hhdm s + f * PAGE_SIZE)) in *. clearbody s2.
  assert (is_u64 (f * PAGE_SIZE) /\ (f * PAGE_SIZE) mod PAGE_SIZE = 0) as [Hu Hm] by (split; [unfold is_u64, PAGE_SIZE; lia|by apply Z.mod_mul]).
  assert (Z.lor (Z.lor (Z.lor (pte_set_addr 0 (f * PAGE_SIZE)) VMM_FLAG_PRESENT) VMM_FLAG_WRITABLE) VMM_FLAG_USER = f * PAGE_SIZE + 7) as ->.
  { rewrite pte_set_addr_0, <- !Z.lor_assoc by done. change (Z.lor VMM_FLAG_PRESENT _) with 7. by apply pte_make. }
  assert (child s t i = None) as Habs by (unfold child; by rewrite Hpres). intros [= <- <-].
  destruct (create_store s s2 root t i f p Hpt Hok Hw Hun Hf) as (_ & _ & _ & Hcnt & _ & _).
  split.
  - intros j. rewrite Hcnt. destruct (decide (f = j)) as [<-|Hne]; [right|left; by apply Hoth]. split; [done|]. split; [done|]. exists (p ++ [i]). split; [done|].
    by apply (create_walk_new s s2 root t i f p).
  - intros q u Hq Hwq. destruct (create_walk s s2 root t i f p Hpt Hok Hw Habs Hun Hf Hfree Hzero q u Hq Hwq) as [[_ ->]|[_ H]]; [right|by left].
    exists f. split; [done|]. split; [done|]. by rewrite Hcnt.
Qed.

Lemma walk_built s va : pt_inv s root -> in_slots va -> built s (snd (vmm_walk_to_pte s root va true)) va.
Proof.
  intros Hpt Hsl. pose proof (va_path_ok va Hsl) as Hok. pose proof (fun s p t i v s' => next_table_built s p t i va v s' Hsl) as NB. unfold vmm_walk_to_pte. unfold va_path in Hok.
  set (i4 := tbl_index va PML4_INDEX) in *. set (i3 := tbl_index va PDPT_INDEX) in *. set (i2 := tbl_index va PD_INDEX) in *.
  assert (va_path va = [i4; i3; i2]) as Ep by done.
  destruct (path_ok_snoc [i4; i3] i2 Hok) as (Hok2 & _). destruct (path_ok_snoc [i4] i3 Hok2) as (Hok1 & _).
  destruct (next_table_true s root [] root i4 Hpt Hok1 eq_refl) as [[N1 _]|(t1 & s1 & k1 & N1 & E1 & W1 & _)]; [rewrite N1; apply built_refl|].
  pose proof (NB s [] root i4 t1 s1 Hpt eq_refl ltac:(by exists [i3; i2]) N1) as B1. rewrite N1.
  destruct (next_table_true s1 root [i4] t1 i3 (pe_inv _ _ _ E1) Hok2 W1) as [[N2 _]|(t2 & s2 & k2 & N2 & E2 & W2 & _)]; [by rewrite N2|].
  pose proof (NB s1 [i4] t1 i3 t2 s2 (pe_inv _ _ _ E1) W1 ltac:(by exists [i2]) N2) as B2. rewrite N2.
  pose proof (built_trans _ _ _ _ Hsl E1 E2 B1 B2) as B12. pose proof (pt_ext_trans _ _ _ _ E1 E2) as E12.
  destruct (next_table_true s2 root [i4; i3] t2 i2 (pe_inv _ _ _ E2) Hok W2) as [[N3 _]|(t3 & s3 & k3 & N3 & E3 & W3 & _)]; [by rewrite N3|].
  pose proof (NB s2 [i4; i3] t2 i2 t3 s3 (pe_inv _ _ _ E2) W2 ltac:(by exists []) N3) as B3. rewrite N3. by eapply built_trans.
Qed.

(** A page that was not mapped: counts and tables. *)
Lemma map_absent s va pa flags : pt_inv s root -> in_slots va -> present s va = false -> is_u64 pa -> pa mod PAGE_SIZE = 0 -> 0 <= flags < PAGE_SIZE ->
  let s' := vmm_map_page s root va pa flags in
  fa_hhdm s' = fa_hhdm s /\ (forall x, fa_private s' x <-> fa_private s x) /\ grows s s' /\ (forall x, table_byte s' root x -> kept s x -> table_byte s root x) /\
  built s s' va /\ (forall q u, path_ok q -> walk s root q = Some u -> walk s' root q = Some u).
Proof.
  intros Hpt Hsl Habs Hu Hm Hf s'. unfold s', vmm_map_page. pose proof (walk_built s va Hpt Hsl) as Hb.
  destruct (vmm_walk_true s root va Hpt Hsl) as (o & s1 & E & X & Ho). rewrite E in *. cbn [fst snd] in *.
  destruct Ho as [(-> & _)|(t & Hw & -> & _)].
  { split; [apply X|]. split; [apply X|]. split; [exact (pe_count _ _ _ X)|]. split; [apply X|]. split; [done|exact (pe_walk _ _ _ X)]. }
  assert (rd_pte s1 (t + 8 * tbl_index va PT_INDEX) = lookup_pte s root va) as Hrd.
  { transitivity (lookup_pte s1 root va); [unfold lookup_pte, leaf; by rewrite Hw|]. apply X; [by apply va_path_ok|done|apply tbl_index_range]. }
  rewrite Hrd. unfold present in Habs. rewrite Habs. destruct (new_entry pa flags Hu Hm Hf) as (He & _).
  destruct (wr_pte_update s1 root (va_path va) t (tbl_index va PT_INDEX) _ (pe_inv _ _ _ X) (va_path_ok va Hsl) eq_refl Hw (tbl_index_range _ _) He) as [L Hc].
  split; [rewrite (lu_hhdm _ _ _ _ _ _ L); apply X|]. split; [intros x; rewrite (lu_private _ _ _ _ _ _ L); apply X|]. split; [intros i r Hi; rewrite Hc; by apply X|]. split; [|split; [split|]].
  - intros x Ht Hx. apply (pe_table _ _ _ X); [|done]. eapply table_byte_walk; [|exact Ht]. apply L.
  - intros j. rewrite Hc. destruct (bl_count _ _ _ Hb j) as [?|(H1 & H2 & p & H3 & H4)]; [by left|right]. split; [done|]. split; [done|]. exists p. split; [done|].
    rewrite (lu_walk _ _ _ _ _ _ L); [done|by eapply va_prefix_ok].
  - intros q u Hq. rewrite (lu_walk _ _ _ _ _ _ L) by done. intros Hwq. destruct (bl_walk _ _ _ Hb q u Hq Hwq) as [?|(j & H1 & H2 & H3)]; [by left|right]. exists j. by rewrite Hc.
  - intros q u Hq Hwq. rewrite (lu_walk _ _ _ _ _ _ L) by done. by apply X.
Qed.

(** Bytes of a data frame are in use and in no table. *)
Lemma data_bytes s phys x : pt_inv s root -> data_frame s root phys -> in_frame (fa_hhdm s) (phys / PAGE_SIZE) x -> kept s x /\ ~ table_byte s root x.
Proof.
  intros Hpt [(r & Hc & Hr) Hnt] Hx. split; [by apply (count_kept s (phys / PAGE_SIZE) r); [apply Hpt|..]|]. intros (p & t & Hp & Hw & Ht).
  destruct (pt_frame _ _ Hpt p t Hp Hw) as (g & _ & Et & _). apply (Hnt p t Hp Hw). unfold in_frame, PAGE_SIZE in *. lia.
Qed.

(** *** The address space while a program is loaded *)
Context (s0 : A).

(** Frames the user half consists of: tables and pages. *)
Definition owned s j : Prop :=
  (exists p, upath p /\ walk s root p = Some (fa_hhdm s + j * PAGE_SIZE)) \/ (exists x, user x /\ present s x = true /\ page_frame s x = j).

(** Every frame taken since is one of them, unless no frame is left: a frame taken for
    a page that could not be mapped is lost. *)
Record accounts s : Prop := {
  ac_page x : user x -> present s x = true -> fa_count s (page_frame s x) = Some 1 /\ has PTE_FLAG_SHARED (lookup_pte s root x) = false;
  ac_table p t : path_ok p -> walk s root p = Some t ->
    walk s0 root p = Some t \/ exists j, t = fa_hhdm s0 + j * PAGE_SIZE /\ fa_count s0 j = None /\ fa_count s j = Some 1;
  ac_own : exhausted s \/ forall j, fa_count s j = fa_count s0 j \/ (fa_count s0 j = None /\ fa_count s j = Some 1 /\ owned s j) }.

Record space s : Prop := {
  sp_pt : pt_inv s root;
  sp_hhdm : fa_hhdm s = fa_hhdm s0;
  sp_grows : grows s0 s;
  sp_data x : user x -> present s x = true -> data_frame s root (pte_get_addr (lookup_pte s root x)) /\ fa_count s0 (page_frame s x) = None;
  sp_inj x y : user x -> user y -> present s x = true -> present s y = true -> page_frame s x = page_frame s y -> x / PAGE_SIZE = y / PAGE_SIZE;
  sp_rest x : kept s0 x -> ~ table_byte s0 root x -> get8 (fa_mem s) x = get8 (fa_mem s0) x;
  sp_table x : table_byte s root x -> kept s0 x -> table_byte s0 root x;
  sp_private x : fa_private s x <-> fa_private s0 x;
  sp_root : root_kept root s0 s;
  sp_acct : accounts s }.

Lemma space_kept s x : space s -> kept s0 x -> kept s x.
Proof.
  intros S (i & r & Hf & Hc & Hr). exists i, r. rewrite (sp_hhdm s S), (sp_private s S). split; [done|]. split; [by apply S|done].
Qed.

Lemma lookup_page s x y : user x -> user y -> x / PAGE_SIZE = y / PAGE_SIZE -> lookup_pte s root x = lookup_pte s root y.
Proof.
  intros Hx Hy E. assert (same_page x y = true) as Hs by (rewrite same_page_iff by (unfold user in *; lia); by apply bool_decide_eq_true_2).
  apply bool_decide_eq_true in Hs as [E1 E2]. unfold lookup_pte. by rewrite E1, E2.
Qed.

Lemma frame_addr s x : pte_get_addr (lookup_pte s root x) = page_frame s x * PAGE_SIZE.
Proof. unfold page_frame. rewrite pte_get_addr_eq by apply lookup_range. unfold PAGE_SIZE. Z.div_mod_to_equations. lia. Qed.

(** A mapped byte: the frame is one of a program, and its address in the direct map. *)
Lemma mapped_byte s x : space s -> user x -> present s x = true ->
  0x100 <= page_frame s x < 2 ^ 35 - 1 /\ vmm_virt2phys s root x = page_frame s x * PAGE_SIZE + x mod PAGE_SIZE /\
  user_byte s x = Some (get8 (fa_mem s) (fa_hhdm s + page_frame s x * PAGE_SIZE + x mod PAGE_SIZE)).
Proof.
  intros S Hx Hp. destruct (sp_data s S x Hx Hp) as [[(r & Hc & Hr) _] _]. pose proof (page_mod x) as Hm. change (pte_get_addr (lookup_pte s root x) / PAGE_SIZE) with (page_frame s x) in Hc.
  destruct (fa_count_ok s _ _ (pt_fa _ _ (sp_pt s S)) Hc) as (H1 & _ & H2). specialize (H2 Hr).
  assert (vmm_virt2phys s root x = page_frame s x * PAGE_SIZE + x mod PAGE_SIZE) as E.
  { rewrite virt2phys_lookup. unfold present in Hp. rewrite Hp, frame_addr. apply u64_small. unfold PAGE_SIZE in *. lia. }
  split; [lia|]. split; [done|]. unfold user_byte. rewrite E. rewrite (proj2 (Z.eqb_neq _ _)) by (unfold PAGE_SIZE in *; lia).
  rewrite phys_to_hhdm_add by (apply S || (unfold PAGE_SIZE in *; lia)). by rewrite Z.add_assoc.
Qed.

Lemma unmapped_byte s x : present s x = false -> vmm_virt2phys s root x = 0 /\ user_byte s x = None.
Proof. intros Hp. unfold user_byte. rewrite virt2phys_lookup. unfold present in Hp. by rewrite Hp. Qed.

Lemma mapped_iff s x : space s -> user x -> (vmm_virt2phys s root x =? 0) = negb (present s x).
Proof.
  intros S Hx. destruct (present s x) eqn:Hp; cbn.
  - destruct (mapped_byte s x S Hx Hp) as (H1 & -> & _). apply Z.eqb_neq. pose proof (page_mod x). unfold PAGE_SIZE in *. lia.
  - by rewrite (proj1 (unmapped_byte s x Hp)).
Qed.

(** *** A page more *)
Lemma user_va_upath v p : user v -> p `prefix_of` va_path v -> upath p.
Proof.
  intros Hv Hp. split; [by eapply va_prefix_ok; [apply user_in_slots|]|]. destruct (va_user v Hv) as [_ Hu]. destruct Hp as [k E]. rewrite E in Hu. by destruct p.
Qed.

(** The step maps at most the page of [v], to the frame [i]; the other frames it takes
    are tables. *)
Lemma accounts_step s s' v i : accounts s -> user v -> fa_hhdm s = fa_hhdm s0 -> fa_hhdm s' = fa_hhdm s -> grows s0 s -> grows s s' ->
  (forall j, fa_count s' j = fa_count s j \/ (fa_count s j = None /\ fa_count s' j = Some 1 /\
     (j = i \/ exists p, p `prefix_of` va_path v /\ walk s' root p = Some (fa_hhdm s + j * PAGE_SIZE)))) ->
  (forall q u, path_ok q -> walk s' root q = Some u -> walk s root q = Some u \/ exists j, u = fa_hhdm s + j * PAGE_SIZE /\ fa_count s j = None /\ fa_count s' j = Some 1) ->
  (forall q u, path_ok q -> walk s root q = Some u -> walk s' root q = Some u) ->
  fa_count s' i = Some 1 ->
  (forall x, user x -> lookup_pte s' root x = lookup_pte s root x \/
     (present s x = false /\ pte_get_addr (lookup_pte s' root x) = i * PAGE_SIZE /\ has PTE_FLAG_SHARED (lookup_pte s' root x) = false)) ->
  exhausted s' \/ (present s' v = true /\ page_frame s' v = i) ->
  accounts s'.
Proof.
  intros [AP AT AO] Hv H0 Hh G0 G Hc Hnew Hold Hi Hl Hm.
  assert (forall x, lookup_pte s' root x = lookup_pte s root x -> present s' x = present s x /\ page_frame s' x = page_frame s x) as Hsame
    by (intros x E; unfold present, page_frame; by rewrite E). split.
  - intros x Hx Hp. destruct (Hl x Hx) as [E|(_ & Ea & Es)].
    + destruct (Hsame x E) as [E1 E2]. rewrite E1 in Hp. destruct (AP x Hx Hp) as [H1 H2]. rewrite E2, E. split; [by apply G|done].
    + unfold page_frame. rewrite Ea, Z.div_mul by done. done.
  - intros p t Hp Hw. destruct (Hnew p t Hp Hw) as [Hw'|(j & -> & H1 & H2)].
    + destruct (AT p t Hp Hw') as [?|(j & -> & H1 & H2)]; [by left|right]. exists j. split; [done|]. split; [done|by apply G].
    + right. exists j. rewrite H0. split; [done|]. split; [|done]. destruct (fa_count s0 j) eqn:E; [|done]. apply G0 in E. congruence.
  - destruct AO as [R|AO]; [left; by eapply exhausted_grows|]. destruct Hm as [R|[Hp Hf]]; [by left|right].
    intros j. destruct (Hc j) as [Ej|(E1 & E2 & Ho)].
    + rewrite Ej. destruct (AO j) as [?|(H1 & H2 & Ho)]; [by left|right]. split; [done|]. split; [done|]. destruct Ho as [(p & Hup & Hw)|(x & Hx & Px & Fx)].
      * left. exists p. split; [done|]. rewrite Hh. apply Hold; [apply Hup|done].
      * right. exists x. split; [done|]. destruct (Hl x Hx) as [E|(E & _)]; [destruct (Hsame x E) as [-> ->]; done|congruence].
    + right. split; [destruct (fa_count s0 j) eqn:E; [|done]; apply G0 in E; congruence|]. split; [done|]. destruct Ho as [->|(p & Hpre & Hw)]; [right; exists v; done|left].
      exists p. split; [by eapply user_va_upath|]. by rewrite Hh.
Qed.

(** A step that changes no byte in use outside the tables and maps at most the page of
    [v], to the frame [i]. *)
Lemma space_step s s' v i : space s -> pt_inv s' root -> fa_hhdm s' = fa_hhdm s -> grows s s' ->
  (forall x, fa_private s' x <-> fa_private s x) -> root_kept root s s' ->
  (forall x, table_byte s' root x -> kept s x -> table_byte s root x) ->
  (forall x, kept s x -> ~ table_byte s root x -> get8 (fa_mem s') x = get8 (fa_mem s) x) ->
  (forall ph, data_frame s root ph -> data_frame s' root ph) ->
  fa_count s i = None -> data_frame s' root (i * PAGE_SIZE) ->
  (forall x, user x -> lookup_pte s' root x = lookup_pte s root x \/
     (x / PAGE_SIZE = v / PAGE_SIZE /\ present s x = false /\ pte_get_addr (lookup_pte s' root x) = i * PAGE_SIZE)) ->
  accounts s' ->
  space s' /\ forall x, user x -> lookup_pte s' root x = lookup_pte s root x -> user_byte s' x = user_byte s x.
Proof.
  intros S Hpt Hh G Hpr Hrk Ht Hm D Hi Di Hl Hac.
  assert (forall x, user x -> present s' x = true -> (lookup_pte s' root x = lookup_pte s root x /\ present s x = true) \/
    (x / PAGE_SIZE = v / PAGE_SIZE /\ page_frame s' x = i)) as Hc.
  { intros x Hx Hp. destruct (Hl x Hx) as [E|(E & _ & Ea)]; [left; split; [done|unfold present in *; by rewrite <- E]|right].
    split; [done|]. unfold page_frame. rewrite Ea. by apply Z.div_mul. }
  assert (forall x, user x -> present s x = true -> page_frame s x <> i) as Hold.
  { intros x Hx Hp E. destruct (sp_data s S x Hx Hp) as [[(r & Hr & _) _] _]. change (_ / PAGE_SIZE) with (page_frame s x) in Hr. congruence. }
  assert (forall x, lookup_pte s' root x = lookup_pte s root x -> page_frame s' x = page_frame s x) as Hf by (intros x E; unfold page_frame; by rewrite E).
  assert (space s') as S'.
  { split; [done|by rewrite Hh, (sp_hhdm s S)|eapply grows_trans; [apply S|done]| | | | | | |done].
    - intros x Hx Hp. destruct (Hc x Hx Hp) as [[E Hp']|[_ Ef]].
      + rewrite (Hf x E), E. destruct (sp_data s S x Hx Hp') as [H1 H2]. split; [by apply D|done].
      + rewrite frame_addr, Ef. split; [done|]. destruct (fa_count s0 i) as [r|] eqn:Ec; [|done]. apply (sp_grows s S) in Ec. congruence.
    - intros x y Hx Hy Px Py E. destruct (Hc x Hx Px) as [[Ex Px']|[Ex Fx]], (Hc y Hy Py) as [[Ey Py']|[Ey Fy]].
      + rewrite (Hf x Ex), (Hf y Ey) in E. by apply (sp_inj s S).
      + rewrite (Hf x Ex), Fy in E. by destruct (Hold x Hx Px').
      + rewrite (Hf y Ey), Fx in E. symmetry in E. by destruct (Hold y Hy Py').
      + congruence.
    - intros x Hx Hn. rewrite Hm; [by apply (sp_rest s S)|by apply space_kept|]. intros Hb. by apply Hn, (sp_table s S).
    - intros x Hb Hx. apply (sp_table s S); [|done]. apply Ht; [done|]. by apply space_kept.
    - intros x. rewrite Hpr. apply S.
    - intros j Hj Hs. rewrite Hrk by done. by apply (sp_root s S). }
  split; [done|]. intros x Hx E. destruct (present s x) eqn:Hp.
  - destruct (mapped_byte s x S Hx Hp) as (_ & _ & ->). destruct (mapped_byte s' x S' Hx) as (_ & _ & ->); [unfold present in *; by rewrite E|].
    rewrite Hh, (Hf x E). f_equal. destruct (sp_data s S x Hx Hp) as [Hd _].
    destruct (data_bytes s _ (fa_hhdm s + page_frame s x * PAGE_SIZE + x mod PAGE_SIZE) (sp_pt s S) Hd) as [H1 H2];
      [change (_ / PAGE_SIZE) with (page_frame s x); pose proof (page_mod x); unfold in_frame, PAGE_SIZE in *; lia|by apply Hm].
  - destruct (unmapped_byte s x Hp) as [_ ->]. apply unmapped_byte. unfold present in *. by rewrite E.
Qed.

(** A frame that was free is mapped at a page: with four free frames, or fewer when
    tables are there, it is; otherwise none is left. *)
Lemma page_mapped s s2 v i : space s -> user v -> v mod PAGE_SIZE = 0 -> present s v = false -> 0 < i < 2 ^ 35 - 1 -> fa_count s i = None ->
  undisturbed s s2 -> fa_count s2 i = Some 1 -> (forall j, i <> j -> fa_count s2 j = fa_count s j) ->
  let s' := vmm_map_page s2 root v (i * PAGE_SIZE) ELF_FLAGS in
  space s' /\ grows s s' /\ (forall n, room s (4 + n) -> room s' n) /\
  ((forall x, user x -> user_byte s' x =
      if decide (x / PAGE_SIZE = v / PAGE_SIZE) then Some (get8 (fa_mem s2) (fa_hhdm s + i * PAGE_SIZE + x mod PAGE_SIZE)) else user_byte s x) \/
   (exhausted s' /\ ~ room s 4 /\ forall x, user x -> user_byte s' x = user_byte s x)).
Proof.
  intros S Hv Hvm Hp Hi Hc U C2 Coth s3. pose proof (sp_pt s S) as Hpt. destruct (undisturbed_tree s s2 root Hpt U) as (Hpt2 & Hw2 & Hl2 & Hr2).
  pose proof (user_in_slots v Hv) as Hsl.
  assert (data_frame s2 root (i * PAGE_SIZE)) as Di.
  { split; [exists 1; by rewrite Z.div_mul by done|]. intros q u Hq Hu Eu. rewrite Hw2 in Hu by done. destruct (pt_frame _ _ Hpt q u Hq Hu) as (g & r & Eg & Cg & _).
    rewrite Z.div_mul, (un_hhdm _ _ U) in Eu by done. assert (g = i) as -> by (unfold PAGE_SIZE in *; lia). congruence. }
  assert (is_u64 (i * PAGE_SIZE)) as Hu by (unfold is_u64, PAGE_SIZE; lia). assert (i * PAGE_SIZE mod PAGE_SIZE = 0) as Him by by apply Z.mod_mul.
  assert (0 <= ELF_FLAGS < PAGE_SIZE) as Hfl by (vm_compute; split; [discriminate|reflexivity]).
  assert (present s2 v = false) as Hp2 by (unfold present; by rewrite Hl2).
  destruct (vmm_map_page_spec s2 root v (i * PAGE_SIZE) ELF_FLAGS Hpt2 Hsl Hu Him Hfl) as (Hpt3 & Hl3 & Hrk3 & Hm3 & Hd3).
  { cbv zeta. unfold present in Hp2. by rewrite Hp2. }
  destruct (Hd3 Hp2) as (Rm3 & _ & Hdf3). clear Hd3.
  destruct (map_absent s2 v (i * PAGE_SIZE) ELF_FLAGS Hpt2 Hsl Hp2 Hu Him Hfl) as (Hh3 & Hpr3 & G3 & T3 & B3 & W3).
  pose proof (missing_le s2 root (va_path v)) as Hneed. cbn [length va_path] in Hneed. set (need := missing s2 root (va_path v)) in *.
  fold s3 in Hpt3, Hl3, Hrk3, Hm3, Rm3, Hdf3, Hh3, Hpr3, G3, T3, B3, W3. clearbody s3 need.
  destruct (new_entry (i * PAGE_SIZE) ELF_FLAGS Hu Him Hfl) as (_ & Ent & Epr & Efl). set (e := Z.lor (Z.lor _ _) _) in *.
  assert (has PTE_FLAG_SHARED e = false) as Esh.
  { assert (e = i * PAGE_SIZE + Z.lor ELF_FLAGS VMM_FLAG_PRESENT) as ->.
    { unfold e. rewrite pte_set_addr_0, <- Z.lor_assoc by done. apply pte_make; [done|done|]. vm_compute. split; [discriminate|reflexivity]. }
    change PTE_FLAG_SHARED with (2 ^ 9). by rewrite has_flags by (done || lia). }
  clearbody e.
  assert (grows s s3) as G by (eapply grows_trans; [exact (un_count _ _ U)|done]).
  assert (forall n, room s (Datatypes.S n) -> room s2 n) as Rm2 by (intros n; apply (room_take s s2 i n); [lia|done|by exists 1|intros j Hj; by apply Coth]).
  assert (forall x, table_byte s2 root x <-> table_byte s root x) as Htb.
  { intros x. split; [by apply table_byte_walk|]. apply table_byte_walk. intros q Hq. by rewrite Hw2. }
  assert (forall x, user x -> lookup_pte s3 root x = lookup_pte s root x \/ (x / PAGE_SIZE = v / PAGE_SIZE /\ present s x = false /\ lookup_pte s3 root x = e)) as Hlook.
  { intros x Hx. destruct Hl3 as [(_ & _ & E)|[_ E]]; (rewrite E by (by apply user_in_slots)); (rewrite Hl2 by (by apply user_in_slots)); [by left|].
    rewrite same_page_iff by (unfold user in *; lia). case_bool_decide as Eq; [right|by left]. split; [done|]. split; [|done].
    unfold present in *. by rewrite (lookup_page s x v). }
  assert (exhausted s3 \/ (present s3 v = true /\ page_frame s3 v = i)) as Hfin.
  { destruct Hl3 as [(_ & He & _)|[_ E]]; [by left|right].
    specialize (E v Hsl). rewrite same_page_iff, bool_decide_eq_true_2 in E by (done || (unfold user in *; lia)). unfold present, page_frame. rewrite E, Ent. split; [done|by apply Z.div_mul]. }
  destruct (space_step s s3 v i S Hpt3) as [S3 B4]; [by rewrite Hh3, (un_hhdm _ _ U)|done| | | | | |done| | | |].
  { intros x. rewrite Hpr3. apply U. }
  { intros j Hj Hs. rewrite Hrk3 by done. by apply Hr2. }
  { intros x Hx Hhx. apply Htb, T3; [done|]. by eapply undisturbed_mono. }
  { intros x Hx Hn. rewrite Hm3; [by apply U|by eapply undisturbed_mono|by rewrite Htb]. }
  { intros ph [(r & Hcr & Hr) Hnt]. apply (Hdf3 ph r); [|by apply U]. split; [exists r; split; [by apply U|done]|].
    intros q u Hq Hwq. rewrite Hw2 in Hwq by done. rewrite (un_hhdm _ _ U). by apply (Hnt q). }
  { apply (Hdf3 (i * PAGE_SIZE) 1); [done|by rewrite Z.div_mul]. }
  { intros x Hx. destruct (Hlook x Hx) as [E|(H1 & H2 & E)]; [by left|right]. by rewrite E. }
  { apply (accounts_step s s3 v i (sp_acct s S) Hv (sp_hhdm s S)); [by rewrite Hh3, (un_hhdm _ _ U)|apply S|done| | | | | |done].
    - intros j. destruct (decide (i = j)) as [<-|Hne]; [right; split; [done|]; split; [by apply G3|by left]|]. rewrite <- (Coth j Hne).
      destruct (bl_count _ _ _ B3 j) as [?|(H1 & H2 & p & H3 & H4)]; [by left|right]. split; [done|]. split; [done|]. right. exists p. by rewrite <- (un_hhdm _ _ U).
    - intros q u Hq Hwq. destruct (bl_walk _ _ _ B3 q u Hq Hwq) as [H1|(j & -> & H2 & H3)]; [left; by rewrite <- Hw2|right]. exists j. rewrite (un_hhdm _ _ U). split; [done|]. split; [|done].
      rewrite <- Coth; [done|]. congruence.
    - intros q u Hq Hwq. apply W3; [done|]. by rewrite Hw2.
    - by apply G3.
    - intros x Hx. destruct (Hlook x Hx) as [E|(H1 & H2 & E)]; [by left|right]. by rewrite E. }
  split; [done|]. split; [done|]. split.
  { intros n Hr. apply Rm3, Rm2. eapply room_le; [|exact Hr]. lia. }
  destruct Hl3 as [(Hn & He & E)|[_ E]].
  - right. split; [done|]. split; [|intros x Hx; apply B4; [done|]; by rewrite E, Hl2 by by apply user_in_slots].
    intros Hr. apply Hn, Rm2. eapply room_le; [|exact Hr]. lia.
  - left. intros x Hx. specialize (E x (user_in_slots x Hx)). rewrite same_page_iff in E by (unfold user in *; lia). destruct (decide (x / PAGE_SIZE = v / PAGE_SIZE)) as [Eq|Eq].
    + rewrite bool_decide_eq_true_2 in E by done. destruct (mapped_byte s3 x S3 Hx) as (_ & _ & ->); [unfold present; by rewrite E|]. f_equal.
      assert (page_frame s3 x = i) as -> by (unfold page_frame; rewrite E, Ent; by apply Z.div_mul). rewrite Hh3, (un_hhdm _ _ U). pose proof (page_mod x).
      destruct (data_bytes s2 (i * PAGE_SIZE) (fa_hhdm s + i * PAGE_SIZE + x mod PAGE_SIZE) Hpt2 Di) as [H1 H2];
        [rewrite Z.div_mul, (un_hhdm _ _ U) by done; unfold in_frame, PAGE_SIZE in *; lia|by apply Hm3].
    + rewrite bool_decide_eq_false_2 in E by congruence. apply B4; [done|]. by rewrite E, Hl2 by by apply user_in_slots.
Qed.

Lemma page_step s v : space s -> user v -> v mod PAGE_SIZE = 0 -> present s v = false ->
  (fa_alloc s = (0, s) /\ exhausted s) \/
  exists i s1, fa_alloc s = (i * PAGE_SIZE, s1) /\ i * PAGE_SIZE <> 0 /\
    let s' := vmm_map_page (zero_page s1 (phys_to_hhdm s1 (i * PAGE_SIZE))) root v (i * PAGE_SIZE) ELF_FLAGS in
    space s' /\ grows s s' /\ (forall n, room s (4 + n) -> room s' n) /\
    ((forall x, user x -> user_byte s' x = if decide (x / PAGE_SIZE = v / PAGE_SIZE) then Some 0 else user_byte s x) \/
     (exhausted s' /\ ~ room s 4 /\ forall x, user x -> user_byte s' x = user_byte s x)).
Proof.
  intros Sp Hv Hvm Hp. destruct (alloc_zero s (pt_fa _ _ (sp_pt s Sp))) as [(i & s1 & Ea & Hi & Hc & Ev & Hz)|E]; [right|by left].
  exists i, s1. split; [done|]. split; [unfold PAGE_SIZE; lia|]. rewrite Ev. cbv zeta in *. destruct Hz as (U & C2 & Coth & Z2).
  destruct (page_mapped s _ v i Sp Hv Hvm Hp Hi Hc U C2 Coth) as (S3 & G3 & R3 & [B3|B3]); (split; [done|]); (split; [done|]); (split; [done|]); [left|by right].
  intros x Hx. rewrite (B3 x Hx). destruct (decide _); [|done]. f_equal. apply Z2. pose proof (page_mod x). unfold in_frame, PAGE_SIZE in *. lia.
Qed.

(** A frame as it comes from the allocator *)
Lemma alloc_raw s : fa_inv s -> (exists i s1, fa_alloc s = (i * PAGE_SIZE, s1) /\ 0 < i < 2 ^ 35 - 1 /\ fa_count s i = None /\ undisturbed s s1 /\ fa_count s1 i = Some 1 /\
  forall j, i <> j -> fa_count s1 j = fa_count s j) \/
  (fa_alloc s = (0, s) /\ exhausted s).
Proof.
  intros I. destruct (fa_alloc_ok s I) as [(i & Hi & Hc & E & (I1 & Hh & Hp & Hm) & Hcnt)|[E Hex]]; [left|right; by rewrite exhausted_iff]. destruct (fa_alloc s) as [p s1]. cbn [fst snd] in *. subst p.
  exists i, s1. split; [done|]. split; [done|]. split; [done|]. split; [|split; [by rewrite Hcnt, Z.eqb_refl|intros j Hj; by rewrite Hcnt, (proj2 (Z.eqb_neq i j))]]. split; [done|done|done|..].
  - intros j r Hj. rewrite Hcnt. by rewrite (proj2 (Z.eqb_neq i j)) by congruence.
  - intros x Hx. by apply Hm, kept_not_private.
Qed.

(** The pages of a segment: what was mapped stays, the others are zero.  Four free
    frames for each page are enough; only without them a page is missing, and then no
    frame is left. *)
Lemma map_pages_spec n : forall s v, space s -> 0 <= v -> v mod PAGE_SIZE = 0 -> v + Z.of_nat n * PAGE_SIZE <= 2 ^ 47 ->
  let '(s', ok) := map_pages n s root v in
  space s' /\ grows s s' /\ (forall k, room s (4 * n + k) -> room s' k) /\
  (ok = false -> ~ room s (4 * n)) /\
  (forall x, user x -> user_byte s' x = user_byte s x \/ (user_byte s x = None /\ user_byte s' x = Some 0)) /\
  (ok = true -> forall x, v <= x < v + Z.of_nat n * PAGE_SIZE -> user_byte s' x <> None \/ ~ room s (4 * n)).
Proof.
  induction n as [|n IH]; intros s v S Hv Hm Hend; cbn [map_pages].
  { split; [done|]. split; [apply grows_refl|]. split; [done|]. split; [done|]. split; [by left|]. intros _ x Hx. unfold PAGE_SIZE in *. lia. }
  assert (user v) as Huv by (unfold user, PAGE_SIZE in *; lia). rewrite (mapped_iff s v S Huv).
  assert ((v + PAGE_SIZE) mod PAGE_SIZE = 0) as Hm' by (unfold PAGE_SIZE in *; Z.div_mod_to_equations; lia).
  assert (forall x, v <= x < v + Z.of_nat (Datatypes.S n) * PAGE_SIZE -> user x /\ (x / PAGE_SIZE = v / PAGE_SIZE \/ v + PAGE_SIZE <= x < v + PAGE_SIZE + Z.of_nat n * PAGE_SIZE)) as Hsplit.
  { intros x Hx. unfold user, PAGE_SIZE in *. split; [lia|]. destruct (decide (x < v + 0x1000)); [left; Z.div_mod_to_equations; lia|right; lia]. }
  destruct (present s v) eqn:Hp; cbn [negb].
  - specialize (IH s (v + PAGE_SIZE) S ltac:(unfold PAGE_SIZE in *; lia) Hm' ltac:(unfold PAGE_SIZE in *; lia)). destruct (map_pages n s root (v + PAGE_SIZE)) as [s' ok].
    destruct IH as (S' & G & Rm & R & B & C). assert (~ room s (4 * n) -> ~ room s (4 * Datatypes.S n)) as Hmore by (intros H Hr; apply H; eapply room_le; [|exact Hr]; lia).
    split; [done|]. split; [done|]. split; [intros k Hr; apply Rm; eapply room_le; [|exact Hr]; lia|]. split; [by intros Hok; apply Hmore, R|]. split; [done|].
    intros Hok x Hx. destruct (Hsplit x Hx) as [Hux [E|Hr]]; [left|destruct (C Hok x Hr); [by left|right; by apply Hmore]].
    assert (user_byte s x <> None) as Hne.
    { destruct (mapped_byte s x S Hux) as (_ & _ & ->); [|done]. unfold present in *. by rewrite (lookup_page s x v). }
    destruct (B x Hux) as [->|[E0 _]]; [done|by rewrite E0 in Hne].
  - destruct (page_step s v S Huv Hm Hp) as [[E Hex]|(i & s1 & E & Hne & H1)]; rewrite E.
    { cbn [Z.eqb]. split; [done|]. split; [apply grows_refl|]. split; [intros k Hr; eapply room_le; [|exact Hr]; lia|]. split; [|split; [by left|done]].
      intros _ Hr. apply Hex. eapply room_le; [|exact Hr]. lia. }
    rewrite (proj2 (Z.eqb_neq _ _) Hne). cbv zeta in H1. set (s2 := vmm_map_page _ _ _ _ _) in *. clearbody s2. destruct H1 as (S2 & G2 & Rm2 & B2).
    specialize (IH s2 (v + PAGE_SIZE) S2 ltac:(unfold PAGE_SIZE in *; lia) Hm' ltac:(unfold PAGE_SIZE in *; lia)). destruct (map_pages n s2 root (v + PAGE_SIZE)) as [s' ok].
    destruct IH as (S' & G & Rm & R & B & C).
    assert (forall k, room s (4 * Datatypes.S n + k) -> room s2 (4 * n + k)) as Hstep by (intros k Hr; apply Rm2; eapply room_le; [|exact Hr]; lia).
    assert (~ room s2 (4 * n) -> ~ room s (4 * Datatypes.S n)) as Hmore.
    { intros H Hr. apply H. rewrite <- (Nat.add_0_r (4 * n)). apply Hstep. by rewrite Nat.add_0_r. }
    split; [done|]. split; [by eapply grows_trans|]. split; [intros k Hr; by apply Rm, Hstep|]. split; [by intros Hok; apply Hmore, R|].
    assert (user_byte s v = None) as Hnone by by apply unmapped_byte.
    assert (forall x, user x -> x / PAGE_SIZE = v / PAGE_SIZE -> user_byte s x = None) as Hpage.
    { intros x Hx Ex. apply unmapped_byte. unfold present in *. by rewrite (lookup_page s x v). }
    split.
    + intros x Hx. specialize (B x Hx). destruct B2 as [B2|(_ & _ & B2)]; [|by rewrite (B2 x Hx) in B]. rewrite (B2 x Hx) in B.
      destruct (decide (x / PAGE_SIZE = v / PAGE_SIZE)) as [Ex|Ex]; [|done]. right. split; [by apply Hpage|]. destruct B as [->|[? _]]; done.
    + intros Hok x Hx. destruct (Hsplit x Hx) as [Hux [Ex|Hr]]; [|destruct (C Hok x Hr); [by left|right; by apply Hmore]].
      destruct B2 as [B2|(_ & Hn & _)]; [left|right; intros Hr; apply Hn; eapply room_le; [|exact Hr]; lia].
      specialize (B2 x Hux). rewrite decide_True in B2 by done. destruct (B x Hux) as [->|[? _]]; [by rewrite B2|congruence].
Qed.

(** *** Filling a page *)
(** A change of memory that leaves the tables alone. *)
Lemma tables_kept s m : pt_inv s root -> (forall x, fa_private s x -> get8 m x = get8 (fa_mem s) x) ->
  (forall x, table_byte s root x -> get8 m x = get8 (fa_mem s) x) ->
  let s' := fa_set_mem s m in
  pt_inv s' root /\ fa_hhdm s' = fa_hhdm s /\ (forall i, fa_count s' i = fa_count s i) /\
  (forall q, path_ok q -> walk s' root q = walk s root q) /\ (forall va, in_slots va -> lookup_pte s' root va = lookup_pte s root va) /\
  (forall x, fa_private s' x <-> fa_private s x) /\ root_kept root s s'.
Proof.
  intros Hpt Hpr Htab s'. destruct (fa_set_mem_ok s m (pt_fa _ _ Hpt) Hpr) as (I' & Hh' & Hc' & Hp'). fold s' in I', Hh', Hc', Hp'.
  assert (forall q u j, path_ok q -> walk s root q = Some u -> 0 <= j < 512 -> rd s' u j = rd s u j) as Hrd.
  { intros q u j Hq Hu Hj. apply rd_ext. intros x Hx. unfold s'. rewrite fa_mem_set. apply Htab. exists q, u. unfold PAGE_SIZE. split_and!; (done || lia). }
  assert (forall q, path_ok q -> walk s' root q = walk s root q) as Hwalk.
  { intros q. induction q as [|j q IH] using rev_ind; intros Hq; [done|]. destruct (path_ok_snoc _ _ Hq) as (Hq' & Hj & _).
    rewrite !walk_snoc, IH by done. destruct (walk s root q) as [u|] eqn:Hu; [|done]. unfold child, phys_to_hhdm. by rewrite (Hrd q u j), Hh' by done. }
  split; [split; [done|..]|split; [done|split; [done|split; [done|split; [|split; [done|]]]]]].
  - intros q u Hq. rewrite Hwalk, Hh' by done. intros Hu. destruct (pt_frame _ _ Hpt q u Hq Hu) as (g & r & Eg & Hcg & Ho). exists g, r. rewrite Hc'. split; [done|]. split; [done|by apply (open_frame_eq s)].
  - intros q q' u Hq Hq'. rewrite !Hwalk by done. by apply (pt_inj _ _ Hpt).
  - intros va Hs. unfold lookup_pte, leaf. rewrite Hwalk by by apply va_path_ok. destruct (walk s root (va_path va)) as [u|] eqn:Hu; [|done].
    apply (Hrd (va_path va)); [by apply va_path_ok|done|apply tbl_index_range].
  - intros j Hj _. by apply (Hrd []); [apply path_ok_nil|..].
Qed.

(** Bytes of the page of [v], in the direct map: nobody else's. *)
Lemma page_bytes s v x : space s -> user v -> present s v = true -> in_frame (fa_hhdm s) (page_frame s v) x -> kept s x /\ ~ table_byte s root x /\ ~ kept s0 x.
Proof.
  intros Sp Hv Hp Hf. destruct (sp_data s Sp v Hv Hp) as [Dv Hnew]. destruct (data_bytes s _ x (sp_pt s Sp) Dv Hf) as [H1 H2]. split; [done|]. split; [done|].
  intros (i & r & Hi & Hc & _). rewrite <- (sp_hhdm s Sp) in Hi. assert (i = page_frame s v) as -> by (unfold in_frame, PAGE_SIZE in *; lia). congruence.
Qed.

(** A change in the frame of a page of the program *)
Lemma space_write s v m : space s -> user v -> present s v = true ->
  (forall x, ~ in_frame (fa_hhdm s) (page_frame s v) x -> get8 m x = get8 (fa_mem s) x) ->
  let s' := fa_set_mem s m in
  space s' /\ same_counts s s' /\ fa_hhdm s' = fa_hhdm s /\ forall va, user va -> lookup_pte s' root va = lookup_pte s root va.
Proof.
  intros Sp Hv Hp Hm s'. pose proof (sp_pt s Sp) as Hpt.
  assert (forall x, fa_private s x \/ table_byte s root x \/ kept s0 x -> get8 m x = get8 (fa_mem s) x) as Hsame.
  { intros x Hx. apply Hm. intros Hf. destruct (page_bytes s v x Sp Hv Hp Hf) as (H1 & H2 & H3). destruct Hx as [Hx|[Hx|Hx]]; [|done..]. by apply (kept_not_private s x). }
  destruct (tables_kept s m Hpt) as (Hpt' & Hh' & Hc' & Hwalk & Hlook' & Hpr' & Hrk'); [intros x Hx; apply Hsame; by left|intros x Hx; apply Hsame; by right; left|]. fold s' in Hpt', Hh', Hc', Hwalk, Hlook', Hpr', Hrk'. pose proof (fun va H => Hlook' va (user_in_slots va H)) as Hlook.
  assert (forall x, user x -> present s' x = present s x) as Hpres by (intros x Hx; unfold present; by rewrite Hlook).
  assert (forall x, user x -> page_frame s' x = page_frame s x) as Hfr by (intros x Hx; unfold page_frame; by rewrite Hlook).
  split; [|by split]. split.
  - done.
  - by rewrite Hh', (sp_hhdm s Sp).
  - intros i r Hi. rewrite Hc'. by apply Sp.
  - intros x Hx Hpx. rewrite Hpres in Hpx by done. rewrite Hlook, Hfr by done. destruct (sp_data s Sp x Hx Hpx) as [[(r & Hcr & Hr) Hnt] Hz]. split; [|done].
    split; [exists r; by rewrite Hc'|]. intros q u Hq. rewrite Hwalk, Hh' by done. by apply Hnt.
  - intros x y Hx Hy. rewrite !Hpres, !Hfr by done. by apply (sp_inj s Sp).
  - intros x Hx Hn. unfold s'. rewrite fa_mem_set, Hsame by (by right; right). by apply (sp_rest s Sp).
  - intros x Ht. apply (sp_table s Sp). by eapply table_byte_walk.
  - intros x. rewrite Hpr'. apply Sp.
  - intros j Hj Hs. rewrite Hrk' by done. by apply (sp_root s Sp).
  - destruct (sp_acct s Sp) as [AP AT AO]. split.
    + intros x Hx. rewrite Hpres, Hfr, Hc', Hlook by done. by apply AP.
    + intros p t Hp'. rewrite Hwalk by done. intros Hw. destruct (AT p t Hp' Hw) as [?|(j & H1 & H2 & H3)]; [by left|right]. exists j. by rewrite Hc'.
    + destruct AO as [R|AO]; [left; eapply exhausted_grows; [exact R|intros j r Hj; by rewrite Hc']|right].
      intros j. rewrite Hc'. destruct (AO j) as [?|(H1 & H2 & Ho)]; [by left|right]. split; [done|]. split; [done|]. destruct Ho as [(p & Hup & Hw)|(x & Hx & Px & Fx)].
      * left. exists p. split; [done|]. rewrite Hh', Hwalk; [done|apply Hup].
      * right. exists x. by rewrite Hpres, Hfr by done.
Qed.

Lemma write_page s v k (data : mem) pos : space s -> user v -> present s v = true -> 0 <= k -> v mod PAGE_SIZE + k <= PAGE_SIZE ->
  let s' := fa_set_mem s (blit (fa_mem s) (fa_hhdm s + page_frame s v * PAGE_SIZE + v mod PAGE_SIZE) data pos k) in
  space s' /\ same_counts s s' /\ forall x, user x -> user_byte s' x = if decide (v <= x < v + k) then Some (get8 data (pos + (x - v))) else user_byte s x.
Proof.
  intros Sp Hv Hp Hk Hend. set (base := fa_hhdm s + page_frame s v * PAGE_SIZE + v mod PAGE_SIZE) in *. pose proof (page_mod v) as Hvm. intros s'.
  assert (forall x, get8 (fa_mem s') x = if bool_decide (base <= x < base + k) then get8 data (pos + (x - base)) else get8 (fa_mem s) x) as Hg.
  { intros x. unfold s'. rewrite fa_mem_set. by apply get8_blit. }
  destruct (space_write s v (blit (fa_mem s) base data pos k) Sp Hv Hp) as (S' & G & Hh' & Hlook).
  { intros x Hx. rewrite get8_blit by done. rewrite bool_decide_eq_false_2; [done|]. unfold in_frame, base, PAGE_SIZE in *. lia. }
  fold s' in S', G, Hh', Hlook. clearbody s'. split; [done|]. split; [done|]. intros x Hx. destruct (present s x) eqn:Px.
  - destruct (mapped_byte s' x S' Hx) as (_ & _ & ->); [unfold present in *; by rewrite Hlook|]. destruct (mapped_byte s x Sp Hx Px) as (_ & _ & ->).
    assert (page_frame s' x = page_frame s x) as -> by (unfold page_frame; by rewrite Hlook). rewrite Hh', Hg.
    pose proof (page_mod x). destruct (decide (x / PAGE_SIZE = v / PAGE_SIZE)) as [Ep|Ep].
    + assert (page_frame s x = page_frame s v) as -> by (unfold page_frame; by rewrite (lookup_page s x v)).
      assert (x - x mod PAGE_SIZE = v - v mod PAGE_SIZE) as Exv by (unfold PAGE_SIZE in *; Z.div_mod_to_equations; lia).
      unfold base. case_decide as D; [rewrite bool_decide_eq_true_2 by lia; do 2 f_equal; lia|by rewrite bool_decide_eq_false_2 by lia].
    + rewrite decide_False by (unfold PAGE_SIZE in *; Z.div_mod_to_equations; lia). rewrite bool_decide_eq_false_2; [done|].
      assert (page_frame s x <> page_frame s v) by (intros E; by apply Ep, (sp_inj s Sp)). unfold base, PAGE_SIZE in *. lia.
  - destruct (unmapped_byte s x Px) as [_ ->]. rewrite decide_False; [apply unmapped_byte; unfold present in *; by rewrite Hlook|]. intros D. unfold present in *.
    rewrite (lookup_page s x v) in Px; [congruence|done|done|]. unfold PAGE_SIZE in *. Z.div_mod_to_equations. lia.
Qed.

(** *** A segment *)
(** What the loader relies on: the bytes are in the file, and the addresses are the
    program's. *)
Record seg_ok (f : elf_file) (ph : Elf64_Phdr) : Prop := {
  sg_filesz : 0 <= p_filesz ph <= p_memsz ph;
  sg_memsz : 0 < p_memsz ph;
  sg_offset : 0 <= p_offset ph /\ p_offset ph + p_filesz ph <= f_size f;
  sg_vaddr : 0 <= p_vaddr ph /\ p_vaddr ph + p_memsz ph <= 2 ^ 47 }.

(** The byte of the file at an address of the segment. *)
Definition seg_byte (f : elf_file) ph x : Z := get8 (f_data f) (p_offset ph + (x - p_vaddr ph)).

Section Segment.
Context (f : elf_file) (ph : Elf64_Phdr) (Hseg : seg_ok f ph).

(** Before a chunk: what has been copied so far. *)
Definition copied_upto s (st : A * Z * Z) : Prop :=
  let '(s1, copied, pos) := st in
  space s1 /\ same_counts s s1 /\ 0 <= copied <= p_filesz ph /\ pos = p_offset ph + copied /\
  forall x, user x -> user_byte s1 x = if decide (p_vaddr ph <= x < p_vaddr ph + copied) then Some (seg_byte f ph x) else user_byte s x.

(** Pages that are still to be filled *)
Definition pages_left (st : A * Z * Z) : nat :=
  let '(_, copied, _) := st in
  if decide (copied < p_filesz ph) then Z.to_nat ((p_vaddr ph + p_filesz ph - 1) / PAGE_SIZE - (p_vaddr ph + copied) / PAGE_SIZE + 1) else 0%nat.

Lemma copy_step_spec s st : copied_upto s st ->
  match copy_step f ph root st with
  | inl st' => copied_upto s st' /\ (pages_left st' < pages_left st)%nat
  | inr (s', true) => space s' /\ same_counts s s' /\
      forall x, user x -> user_byte s' x = if decide (p_vaddr ph <= x < p_vaddr ph + p_filesz ph) then Some (seg_byte f ph x) else user_byte s x
  | inr (s', false) => space s' /\ same_counts s s' /\ exists x, p_vaddr ph <= x < p_vaddr ph + p_filesz ph /\ user_byte s x = None
  end.
Proof.
  destruct st as [[s1 copied] pos]. intros (S1 & G & Hc & -> & B). destruct Hseg as [H1 H2 [H3 H4] [H5 H6]]. cbn [copy_step].
  destruct (Z.ltb_spec copied (p_filesz ph)) as [Hlt|Hge].
  2: { split; [done|]. split; [done|]. intros x Hx. rewrite (B x Hx). by replace copied with (p_filesz ph) by lia. }
  rewrite (u64_small (p_vaddr ph + copied)) by lia. set (v := p_vaddr ph + copied) in *. assert (user v) as Hv by (unfold user; lia).
  change (PAGE_SIZE - 1) with (2 ^ 12 - 1). rewrite land_mask, land_addr_mask by (unfold is_u64; lia). change (2 ^ 12) with PAGE_SIZE. pose proof (page_mod v) as Hm.
  set (pg := v - v mod PAGE_SIZE). assert (pg mod PAGE_SIZE = 0 /\ pg / PAGE_SIZE = v / PAGE_SIZE /\ user pg) as (Hpm & Hpd & Hup)
    by (unfold pg, user, PAGE_SIZE in *; Z.div_mod_to_equations; lia).
  assert (present s1 pg = present s1 v) as Epv by (unfold present; by rewrite (lookup_page s1 pg v)).
  rewrite (mapped_iff s1 pg S1 Hup), Epv. destruct (present s1 v) eqn:Hp; cbn [negb].
  2: { split; [done|]. split; [done|]. exists v. split; [lia|]. destruct (unmapped_byte s1 v Hp) as [_ E]. rewrite (B v Hv) in E. by rewrite decide_False in E by lia. }
  destruct (mapped_byte s1 pg S1 Hup Epv) as (Hfr & -> & _). rewrite Hpm, Z.add_0_r.
  assert (page_frame s1 pg = page_frame s1 v) as Efr by (unfold page_frame; by rewrite (lookup_page s1 pg v)). rewrite Efr in *.
  rewrite phys_to_hhdm_add by (apply S1 || (unfold PAGE_SIZE in *; lia)).
  set (chunk := if _ <? _ then _ else _). assert (0 < chunk <= PAGE_SIZE - v mod PAGE_SIZE /\ copied + chunk <= p_filesz ph /\
    (chunk = PAGE_SIZE - v mod PAGE_SIZE \/ copied + chunk = p_filesz ph)) as (Hck & Hce & Hcc).
  { unfold chunk. destruct (Z.ltb_spec (p_filesz ph - copied) (PAGE_SIZE - v mod PAGE_SIZE)); lia. }
  unfold file_read. replace (Z.max 0 (Z.min chunk (f_size f - (p_offset ph + copied)))) with chunk by lia.
  destruct (write_page s1 v chunk (f_data f) (p_offset ph + copied) S1 Hv Hp ltac:(lia) ltac:(lia)) as (S2 & G2 & B2). split.
  - split; [done|]. split; [intros j; by rewrite G2|]. split; [lia|]. split; [lia|]. intros x Hx. rewrite (B2 x Hx), (B x Hx). unfold seg_byte.
    repeat case_decide; try lia; try done. do 2 f_equal. lia.
  - unfold pages_left. rewrite (decide_True (P := copied < p_filesz ph)) by done. fold v. case_decide as D; [|unfold PAGE_SIZE in *; Z.div_mod_to_equations; lia].
    assert ((p_vaddr ph + (copied + chunk)) / PAGE_SIZE = v / PAGE_SIZE + 1) as ->; unfold v, PAGE_SIZE in *; Z.div_mod_to_equations; lia.
Qed.

Lemma copy_spec s : space s -> exists s' ok, loop (Z.to_nat (p_filesz ph / PAGE_SIZE) + 3) (copy_step f ph root) (s, 0, p_offset ph) = Some (s', ok) /\
  space s' /\ same_counts s s' /\
  if ok : bool then forall x, user x -> user_byte s' x = if decide (p_vaddr ph <= x < p_vaddr ph + p_filesz ph) then Some (seg_byte f ph x) else user_byte s x
  else exists x, p_vaddr ph <= x < p_vaddr ph + p_filesz ph /\ user_byte s x = None.
Proof.
  intros Sp. destruct (loop_total (copy_step f ph root) (copied_upto s) (fun q : A * bool => space (fst q) /\ same_counts s (fst q) /\
    if snd q then forall x, user x -> user_byte (fst q) x = if decide (p_vaddr ph <= x < p_vaddr ph + p_filesz ph) then Some (seg_byte f ph x) else user_byte s x
    else exists x, p_vaddr ph <= x < p_vaddr ph + p_filesz ph /\ user_byte s x = None) pages_left) with (fuel := (Z.to_nat (p_filesz ph / PAGE_SIZE) + 3)%nat) (s := (s, 0, p_offset ph))
    as ([s' ok] & E & H1 & H2 & H3).
  - intros st st' I E. pose proof (copy_step_spec s st I) as H. by rewrite E in H.
  - intros st [s' [|]] I E; pose proof (copy_step_spec s st I) as H; rewrite E in H; exact H.
  - split; [done|]. split; [done|]. pose proof (sg_filesz _ _ Hseg). split; [lia|]. split; [lia|]. intros x Hx. by rewrite decide_False by lia.
  - unfold pages_left. destruct Hseg as [H1 H2 [H3 H4] [H5 H6]]. case_decide; unfold PAGE_SIZE in *; Z.div_mod_to_equations; lia.
  - exists s', ok. done.
Qed.
End Segment.

(** Whether the loader does anything for a header. *)
Definition is_seg ph : bool := (p_type ph =? PT_LOAD) && negb (p_memsz ph =? 0).
Definition in_file ph x : Prop := p_vaddr ph <= x < p_vaddr ph + p_filesz ph.
Definition in_mem ph x : Prop := p_vaddr ph <= x < p_vaddr ph + p_memsz ph.

Lemma page_range a n : 0 <= a -> 0 < n -> a + n <= 2 ^ 47 ->
  let start := Z.land a ADDR_MASK in let stop := Z.land (u64 (a + n + PAGE_SIZE - 1)) ADDR_MASK in
  0 <= start <= a /\ start mod PAGE_SIZE = 0 /\ a + n <= start + Z.of_nat (Z.to_nat ((stop - start) / PAGE_SIZE)) * PAGE_SIZE <= 2 ^ 47.
Proof.
  intros Ha Hn He start stop. unfold start, stop. rewrite u64_small by (unfold PAGE_SIZE; lia). rewrite !land_addr_mask by (unfold is_u64, PAGE_SIZE; lia).
  unfold PAGE_SIZE in *. Z.div_mod_to_equations. lia.
Qed.

(** Frames that are surely enough for a segment: its pages, and three tables for each. *)
Definition seg_need ph : nat :=
  (4 * Z.to_nat ((Z.land (u64 (p_vaddr ph + p_memsz ph + PAGE_SIZE - 1)) ADDR_MASK - Z.land (p_vaddr ph) ADDR_MASK) / PAGE_SIZE))%nat.

Lemma load_segment_spec f ph s : seg_ok f ph -> p_type ph = PT_LOAD -> space s ->
  exists s' ok, load_segment f ph root s = Some (s', ok) /\ space s' /\ grows s s' /\ (forall k, room s (seg_need ph + k) -> room s' k) /\
  if ok : bool then
    (forall x, user x -> in_file ph x -> user_byte s' x = Some (seg_byte f ph x)) /\
    (forall x, user x -> ~ in_file ph x -> user_byte s' x = user_byte s x \/ (user_byte s x = None /\ user_byte s' x = Some 0)) /\
    (forall x, in_mem ph x -> user_byte s' x <> None \/ ~ room s (seg_need ph))
  else ~ room s (seg_need ph).
Proof.
  intros Hseg Ht Sp. pose proof Hseg as [H1 H2 [H3 H4] [H5 H6]]. unfold load_segment. rewrite Ht. rewrite (proj2 (Z.eqb_neq (p_memsz ph) 0)) by lia. cbn [negb orb Z.eqb Pos.eqb PT_LOAD].
  destruct (page_range (p_vaddr ph) (p_memsz ph) H5 H2 H6) as (Hs1 & Hs2 & Hs3). unfold seg_need. set (start := Z.land (p_vaddr ph) ADDR_MASK) in *.
  set (n := Z.to_nat _) in *. pose proof (map_pages_spec n s start Sp ltac:(lia) Hs2 ltac:(lia)) as Hm. destruct (map_pages n s root start) as [s1 ok1].
  destruct Hm as (S1 & G1 & Rm1 & R1 & B1 & C1). destruct ok1; cbn [negb]; [|exists s1, false; split; [done|]; split; [done|]; split; [done|]; split; [done|]; by apply R1].
  destruct (copy_spec f ph Hseg s1 S1) as (s2 & ok & -> & S2 & G2 & B2). exists s2, ok. split; [done|]. split; [done|].
  split; [intros i r Hi; rewrite G2; by apply G1|]. split; [intros k Hr; apply (room_kept s1); [intros j _; by rewrite G2|by apply Rm1]|]. specialize (C1 eq_refl). destruct ok.
  - split; [intros x Hx Hf; rewrite (B2 x Hx); by rewrite decide_True|]. split.
    + intros x Hx Hf. rewrite (B2 x Hx). rewrite decide_False by done. by apply B1.
    + intros x Hx. unfold in_mem in Hx. rewrite (B2 x) by (unfold user; lia). case_decide as D; [by left|]. apply C1. lia.
  - destruct B2 as (x & Hx & E). destruct (C1 x) as [?|?]; [lia|done|done].
Qed.

(** *** All segments *)
(** From the space [sb] on, in which a stack may be mapped. *)
Definition segs_need (l : list Elf64_Phdr) : nat := sum_list_with seg_need l.

Record loaded sb f (dn : list Elf64_Phdr) s : Prop := {
  ld_space : space s;
  ld_room k : room sb (segs_need dn + k) -> room s k;
  ld_bytes x : user x -> (exists ph, ph ∈ dn /\ in_file ph x /\ user_byte s x = Some (seg_byte f ph x)) \/
    ((forall ph, ph ∈ dn -> ~ in_file ph x) /\ (user_byte s x = user_byte sb x \/ (user_byte sb x = None /\ user_byte s x = Some 0)));
  ld_mapped ph x : ph ∈ dn -> user x -> in_mem ph x -> user_byte s x <> None \/ ~ room sb (segs_need dn) }.

Lemma segs_need_app l l' : segs_need (l ++ l') = (segs_need l + segs_need l')%nat.
Proof. apply sum_list_with_app. Qed.

Lemma loaded_snoc sb f dn ph s : loaded sb f dn s -> seg_ok f ph -> p_type ph = PT_LOAD ->
  exists s' ok, load_segment f ph root s = Some (s', ok) /\ if ok : bool then loaded sb f (dn ++ [ph]) s' else space s' /\ ~ room sb (segs_need (dn ++ [ph])).
Proof.
  intros [Sp Rm B M] Hseg Ht. destruct (load_segment_spec f ph s Hseg Ht Sp) as (s' & ok & E & S' & G & Rm' & H). exists s', ok. split; [done|].
  assert (segs_need (dn ++ [ph]) = segs_need dn + seg_need ph)%nat as En by (rewrite segs_need_app; unfold segs_need; simpl; lia).
  assert (~ room s (seg_need ph) -> ~ room sb (segs_need (dn ++ [ph]))) as Hr by (rewrite En; intros Hn Hr; by apply Hn, Rm).
  assert (~ room sb (segs_need dn) -> ~ room sb (segs_need (dn ++ [ph]))) as Hr' by (rewrite En; intros Hn Hr0; apply Hn; eapply room_le; [|exact Hr0]; lia).
  destruct ok; [|split; [done|by apply Hr]]. destruct H as (H1 & H2 & H3). split; [done| |..].
  - intros k Hk. apply Rm', Rm. by rewrite Nat.add_assoc, <- En.
  - intros x Hx. destruct (decide (p_vaddr ph <= x < p_vaddr ph + p_filesz ph)) as [D|D].
    + left. exists ph. split; [apply elem_of_app; right; by apply list_elem_of_singleton|]. split; [done|]. by apply H1.
    + specialize (H2 x Hx D). destruct (B x Hx) as [(ph' & Hin & Hf & E')|[Hn Hz]].
      * left. exists ph'. split; [apply elem_of_app; by left|]. split; [done|]. destruct H2 as [->|[E2 _]]; [done|congruence].
      * right. split; [intros ph' [Hin|Hin]%elem_of_app; [by apply Hn|by apply list_elem_of_singleton in Hin as ->]|]. destruct H2 as [->|[E2 ->]]; [done|]. right. split; [|done]. destruct Hz as [Hz|[Hz _]]; congruence.
  - intros ph' x Hin Hx Hmem. apply elem_of_app in Hin as [Hin|Hin]; [|apply list_elem_of_singleton in Hin as ->; destruct (H3 x Hmem) as [?|?]; [by left|right; by apply Hr]].
    destruct (decide (p_vaddr ph <= x < p_vaddr ph + p_filesz ph)) as [D|D]; [left; by rewrite (H1 x Hx D)|].
    destruct (M ph' x Hin Hx Hmem) as [Hne|Hr0]; [left; destruct (H2 x Hx D) as [->|[? _]]; done|right; by apply Hr'].
Qed.

Lemma load_segments_spec sb f l : forall dn s, loaded sb f dn s -> Forall (fun ph => is_seg ph = true -> seg_ok f ph) l ->
  exists s' ok, load_segments f l root s = Some (s', ok) /\ if ok : bool then loaded sb f (dn ++ filter (fun ph => is_seg ph = true) l) s' else space s' /\ ~ room sb (segs_need (dn ++ filter (fun ph => is_seg ph = true) l)).
Proof.
  induction l as [|ph l IH]; intros dn s L Hl; cbn [load_segments]; [exists s, true; rewrite app_nil_r; done|]. apply Forall_cons in Hl as [Hph Hl].
  destruct (is_seg ph) eqn:Es.
  - assert (p_type ph = PT_LOAD) as Ht by (unfold is_seg in Es; apply andb_true_iff in Es as [Es _]; by apply Z.eqb_eq in Es).
    destruct (loaded_snoc sb f dn ph s L (Hph eq_refl) Ht) as (s1 & ok & -> & H). cbn [mbind option_bind]. destruct ok.
    2: { exists s1, false. split; [done|]. destruct H as [Hs Hr]. split; [done|]. rewrite filter_cons_True by done. rewrite segs_need_app in Hr |- *.
      intros Hr0. apply Hr. eapply room_le; [|exact Hr0]. unfold segs_need. simpl. lia. }
    destruct (IH (dn ++ [ph]) s1 H Hl) as (s' & ok & -> & H'). exists s', ok. split; [done|]. rewrite filter_cons_True by done. rewrite <- app_assoc in H'. exact H'.
  - assert (load_segment f ph root s = Some (s, true)) as ->.
    { unfold load_segment, is_seg in *. destruct (p_type ph =? PT_LOAD); cbn in *; [|done]. by destruct (p_memsz ph =? 0). }
    cbn [mbind option_bind]. destruct (IH dn s L Hl) as (s' & ok & -> & H'). exists s', ok. split; [done|]. by rewrite filter_cons_False by congruence.
Qed.
End Spaces.

(** *** Whole files *)
Definition phdrs (f : elf_file) : list Elf64_Phdr := (fun i => phdr_at f (e_phoff f + i * sizeof_Phdr)) <$> seqZ 0 (e_phnum f).
Definition segments (f : elf_file) : list Elf64_Phdr := filter (fun ph => is_seg ph = true) (phdrs f).

(** A file that is a program: its headers are in it, and its segments are apart. *)
Record elf_ok (f : elf_file) : Prop := {
  el_size : sizeof_Ehdr <= f_size f;
  el_magic : e_magic f = [0x7F; 69; 76; 70];
  el_phentsize : e_phentsize f = sizeof_Phdr;
  el_phnum : e_phnum f * sizeof_Phdr < 2 ^ 16;
  el_phoff : e_phoff f + e_phnum f * sizeof_Phdr <= f_size f;
  el_segments : Forall (seg_ok f) (segments f);
  el_apart ph ph' x : ph ∈ segments f -> ph' ∈ segments f -> in_mem ph x -> in_mem ph' x -> ph = ph' }.

(** Frames that are surely enough for the segments and their tables. *)
Definition elf_need (f : elf_file) : nat := segs_need (segments f).

Section Programs.
Context {A : Type} `{FS : FrameAllocatorSpec A}.
Implicit Types (s : A) (f : elf_file) (root x : Z).

Lemma space_start root s : pt_inv s root -> (forall x, user x -> present root s x = false) -> space root s s.
Proof.
  intros Hpt Hn. split; try done; [apply grows_refl|intros x Hx Hp; by rewrite Hn in Hp|intros x y Hx Hy Hp; by rewrite Hn in Hp|].
  split; [intros x Hx Hp; by rewrite Hn in Hp|intros; by left|right; intros j; by left].
Qed.

Lemma read_phdrs_eq f : elf_ok f -> read_phdrs f = Some (phdrs f).
Proof.
  intros [H1 _ H3 H4 H5 _ _]. unfold read_phdrs. rewrite H3. assert (0 <= e_phnum f) as Hn by apply load_range.
  unfold u16. rewrite Z.mod_small by (unfold sizeof_Phdr in *; lia). rewrite (proj2 (Z.ltb_ge _ _)) by (unfold sizeof_Phdr in *; lia). done.
Qed.

(** What the program reads in its segments; a page that has no byte of the file may be
    missing when [out]. *)
Definition image root f (out : Prop) s : Prop := forall ph x, ph ∈ segments f -> in_mem ph x ->
  (in_file ph x -> user_byte root s x = Some (seg_byte f ph x)) /\
  (~ in_file ph x -> user_byte root s x = Some 0 \/ (user_byte root s x = None /\ out)).

(** In a space in which the segments are not mapped; other mapped bytes stay. *)
Lemma elf_load_spec root s0 sb f : elf_ok f -> space root s0 sb -> (forall ph x, ph ∈ segments f -> in_mem ph x -> user_byte root sb x = None) ->
  exists r s', elf_load_PML4 (Some f) true root sb = Some (r, s') /\ space root s0 s' /\
    ((r = 0 /\ ~ room sb (elf_need f)) \/
     (r = e_entry f /\ (forall k, room sb (elf_need f + k) -> room s' k) /\ image root f (~ room sb (elf_need f)) s' /\
      forall x, user x -> (forall ph, ph ∈ segments f -> ~ in_mem ph x) -> user_byte root sb x <> None -> user_byte root s' x = user_byte root sb x)).
Proof.
  intros E Sp Hno. unfold elf_load_PML4. rewrite (proj2 (Z.ltb_ge _ _)) by apply E.
  rewrite bool_decide_eq_true_2 by apply E. cbn [negb]. rewrite read_phdrs_eq by done. cbn [mbind option_bind].
  assert (loaded root s0 sb f [] sb) as L0.
  { split; [done|done| |intros ph x Hin; by apply not_elem_of_nil in Hin]. intros x Hx. right. split; [intros ph Hin; by apply not_elem_of_nil in Hin|by left]. }
  pose proof (el_segments f E) as Hf. rewrite Forall_forall in Hf.
  assert (Forall (fun ph => is_seg ph = true -> seg_ok f ph) (phdrs f)) as Hseg.
  { apply Forall_forall. intros ph Hin Hs. apply Hf. by apply list_elem_of_filter. }
  destruct (load_segments_spec root s0 sb f (phdrs f) [] sb L0 Hseg) as (s' & ok & -> & H). cbn [mbind option_bind]. eexists _, s'. split; [reflexivity|].
  assert (space root s0 s') as S' by (destruct ok; [apply H|apply H]). split; [apply S'|]. destruct ok; [right|left; split; [done|apply H]].
  cbn [app] in H. change (filter _ (phdrs f)) with (segments f) in H. split; [done|]. split; [apply (ld_room _ _ _ _ _ _ H)|]. split.
  - intros ph x Hin Hx. destruct (Hf ph Hin) as [G1 G2 _ [G3 G4]]. assert (user x) as Hu by (unfold user, in_mem in *; lia).
    assert (forall ph', ph' ∈ segments f -> in_file ph' x -> ph' = ph) as Hone.
    { intros ph' Hin' Hx'. apply (el_apart f E ph' ph x); [done|done| |done]. destruct (Hf ph' Hin') as [? _ _ _]. unfold in_file, in_mem in *. lia. }
    destruct (ld_bytes _ _ _ _ _ _ H x Hu) as [(ph' & Hin' & Hf' & Eb)|[Hn Hz]].
    + assert (ph' = ph) as -> by by apply Hone. split; [done|]. intros Hn'. by destruct Hn'.
    + split; [intros Hx'; by destruct (Hn ph Hin)|]. intros _. rewrite (Hno ph x Hin Hx) in Hz. destruct Hz as [Hz|[_ Hz]]; [right|by left]. split; [done|].
      by destruct (ld_mapped _ _ _ _ _ _ H ph x Hin Hu Hx) as [Hne|Hr].
  - intros x Hu Hout Hne. destruct (ld_bytes _ _ _ _ _ _ H x Hu) as [(ph' & Hin' & Hf' & _)|[_ [Hz|[Hz _]]]]; [|done|done].
    destruct (Hout ph' Hin'). destruct (Hf ph' Hin') as [? _ _ _]. unfold in_file, in_mem in *. lia.
Qed.

(** Loading a program.  For a file whose headers lie in it and whose segments do not
    overlap, in an address space whose user half is empty, [elf_load_PML4] returns.  With
    four free frames for each page of a segment it returns the entry point, and the
    program reads at every address of a segment the byte the file has for it, and zero
    behind the bytes of the file.  With fewer it may return 0, or leave out a page that
    has no byte of the file.  The page tables stay a tree, the kernel half of the root
    stays, and no byte that was in use is changed. *)
Theorem elf_load_correct root s f : elf_ok f -> pt_inv s root -> (forall x, user x -> present root s x = false) ->
  exists r s', elf_load_PML4 (Some f) true root s = Some (r, s') /\ pt_inv s' root /\ root_kept root s s' /\
    (forall x, kept s x -> ~ table_byte s root x -> get8 (fa_mem s') x = get8 (fa_mem s) x) /\
    ((r = 0 /\ ~ room s (elf_need f)) \/ (r = e_entry f /\ image root f (~ room s (elf_need f)) s')).
Proof.
  intros E Hpt Hn. destruct (elf_load_spec root s s f E (space_start root s Hpt Hn)) as (r & s' & Er & S' & H).
  { intros ph x Hin Hx. apply unmapped_byte, Hn. pose proof (el_segments f E) as Hf. rewrite Forall_forall in Hf. destruct (Hf ph Hin) as [_ _ _ [? ?]]. unfold user, in_mem in *. lia. }
  exists r, s'. split; [done|]. split; [apply S'|]. split; [apply S'|]. split; [apply S'|].
  destruct H as [H|(H1 & _ & H2 & _)]; [by left|by right].
Qed.
End Programs.

(** *** A program of two bytes, in a segment of two pages *)
Definition demo_elf : elf_file :=
  ElfFile (put8 (put8 (store64 (store64 (store64 (store64 (store32 (store 2 (store 2 (store64 (store64 (store32 ∅
    0 0x464C457F) 24 0x400010) 32 64) 54 56) 56 1) 64 1) 72 120) 80 0x400010) 96 2) 104 5000) 120 0x90) 121 0xC3) 122.

Lemma demo_elf_segments : segments demo_elf = [Phdr 1 120 0x400010 2 5000].
Proof. vm_compute. reflexivity. Qed.

Lemma demo_elf_ok : elf_ok demo_elf.
Proof.
  split; try (vm_compute; congruence).
  - rewrite demo_elf_segments. apply Forall_singleton. split; cbn; lia.
  - intros ph ph' x. rewrite demo_elf_segments, !list_elem_of_singleton. by intros -> ->.
Qed.

Lemma demo_space_user x : user x -> present demo_root demo_space x = false.
Proof.
  intros _. unfold present, lookup_pte, leaf, va_path. cbn [walk]. assert (child demo_space demo_root (tbl_index x PML4_INDEX) = None) as ->; [|done].
  assert (forallb (fun j => negb (has VMM_FLAG_PRESENT (rd demo_space demo_root j))) (seqZ 0 512) = true) as H by (vm_compute; reflexivity).
  rewrite forallb_forall in H. pose proof (tbl_index_range x PML4_INDEX) as Hr. specialize (H (tbl_index x PML4_INDEX)). unfold child.
  destruct (has _ _); [|done]. assert (negb true = true); [|done]. apply H. apply list_elem_of_In, elem_of_seqZ. lia.
Qed.

Lemma elf_load_correct_witness : exists s', elf_load_PML4 (Some demo_elf) true demo_root demo_space = Some (0x400010, s') /\ pt_inv s' demo_root /\
  user_byte demo_root s' 0x400010 = Some 0x90 /\ user_byte demo_root s' 0x400011 = Some 0xC3.
Proof.
  destruct demo_space_ok as (Hpt & _). destruct (elf_load_correct demo_root demo_space demo_elf demo_elf_ok Hpt demo_space_user) as (r & s' & E & I & _ & _ & H).
  assert (fst <$> elf_load_PML4 (Some demo_elf) true demo_root demo_space = Some 0x400010) as Er by (vm_compute; reflexivity).
  rewrite E in Er. cbn in Er. injection Er as ->. exists s'. split; [exact E|]. split; [exact I|]. destruct H as [[Hr _]|[_ H]]; [discriminate Hr|].
  unfold image in H. rewrite demo_elf_segments in H. split.
  - apply (H (Phdr 1 120 0x400010 2 5000)); [apply list_elem_of_singleton; reflexivity|unfold in_mem; cbn; lia|unfold in_file; cbn; lia].
  - apply (H (Phdr 1 120 0x400010 2 5000)); [apply list_elem_of_singleton; reflexivity|unfold in_mem; cbn; lia|unfold in_file; cbn; lia].
Defined.
