(* ===== verification/ExecSpace.v ===== *)
(** The address space of a new program: the part of [sys_exec] of
    [src/src/arch/syscall.c] between the new root table and the entry point, over
    [Exec] (the arguments), [Elf] (the file) and [Paging].

    The kernel does not check the frames it takes for the stack: with no frame left it
    maps physical page 0.  The model does the same. *)
From S2P Require Import Prelude Machine RingBuf Pipe StringLib CString Pmm Frames Kmalloc Paging FreeSpace VmRegions Shm ShmSpec Vfs VfsFile SysFile SysFileInv SysFileOps SysFileRun SysPipe Tar Exec Ata Elf ElfSpec.

Definition USER_STACK_PAGES : nat := 8.
Definition virt_usr_stk_base : Z := USER_STACK_TOP - PAGE_SIZE * Z.of_nat USER_STACK_PAGES.

Section Exec.
Context {A : Type} `{FrameAllocator A}.
Implicit Types (s : A) (argv : list (list Z)).

Fixpoint map_stack (n : nat) s (pml4 va : Z) : A :=
  match n with
  | O => s
  | S n =>
      let '(phys_usr_stk_frame, s) := fa_alloc s in
      map_stack n (vmm_map_page s pml4 va phys_usr_stk_frame ELF_FLAGS) pml4 (va + PAGE_SIZE)
  end.

(** The stack with the arguments in its top page. *)
Definition exec_args (pml4 : Z) argv s : A :=
  let s := map_stack USER_STACK_PAGES s pml4 virt_usr_stk_base in
  let phys_usr_stk := Z.land (vmm_virt2phys s pml4 (start_usr_addr argv)) ADDR_MASK in
  fa_set_mem s (exec_stack (fa_mem s) (phys_to_hhdm s phys_usr_stk) argv).

(** Stack, arguments, then the file; the entry point, 0 when it cannot be loaded. *)
Definition exec_image (file : option elf_file) (kmalloc_ok : bool) (pml4 : Z) argv s : option (Z * A) :=
  elf_load_PML4 file kmalloc_ok pml4 (exec_args pml4 argv s).
End Exec.

Section Stack.
Context {A : Type} `{FS : FrameAllocatorSpec A} (root : Z).
Implicit Types (s : A) (x v : Z) (argv : list (list Z)).

Definition stack x : Prop := virt_usr_stk_base <= x < USER_STACK_TOP.

(** Eight bytes, and a terminated string, as the program reads them. *)
Definition user_word s x : option Z :=
  bs ← mapM (fun i => user_byte root s (x + i)) (seqZ 0 8); Some (foldr (fun b w => b + 256 * w) 0 bs).
Definition user_str s x (l : list Z) : Prop := forall i c, (l ++ [0]) !! i = Some c -> user_byte root s (x + Z.of_nat i) = Some c.

(** What the program finds at its stack pointer. *)
Definition args_ok s argv : Prop :=
  let rsp := rsp_virt_addr argv in
  rsp mod 16 = 0 /\ USER_STACK_TOP - PAGE_SIZE < rsp /\ rsp + 16 + 8 * Z.of_nat (length argv) <= USER_STACK_TOP /\
  user_word s rsp = Some (Z.of_nat (length argv)) /\
  user_word s (rsp + 8 + 8 * Z.of_nat (length argv)) = Some 0 /\
  forall i l, argv !! i = Some l -> exists p, user_word s (rsp + 8 + 8 * Z.of_nat i) = Some p /\ rsp < p /\ p + Z.of_nat (length l) < USER_STACK_TOP /\ user_str s p l.

(** They are read from the stack only. *)
Lemma args_ok_same s s' argv : (forall x, stack x -> user_byte root s' x = user_byte root s x) -> args_ok s argv -> args_ok s' argv.
Proof.
  intros Hb (H1 & H2 & H3 & H4 & H5 & H6). set (rsp := rsp_virt_addr argv) in *.
  assert (forall x, rsp <= x < USER_STACK_TOP -> user_byte root s' x = user_byte root s x) as Hb'.
  { intros x Hx. apply Hb. unfold stack, virt_usr_stk_base, USER_STACK_PAGES, PAGE_SIZE in *. lia. }
  assert (forall x, rsp <= x -> x + 8 <= USER_STACK_TOP -> user_word s' x = user_word s x) as Hw.
  { intros x Hx Hx'. unfold user_word. f_equal. apply Forall_mapM_ext, Forall_forall. intros i Hi%elem_of_seqZ. apply Hb'. lia. }
  split; [done|]. split; [done|]. split; [done|]. split; [by rewrite Hw by lia|]. split; [by rewrite Hw by lia|].
  intros i l Hi. pose proof (lookup_lt_Some _ _ _ Hi). destruct (H6 i l Hi) as (p & E & Hp & Hp' & Hs). exists p. split; [by rewrite Hw by lia|]. split; [done|]. split; [done|].
  intros k c Hk. pose proof (lookup_lt_Some _ _ _ Hk) as Hlt. rewrite length_app in Hlt. cbn in Hlt. rewrite Hb' by lia. by apply Hs.
Qed.

(** *** The pages of the stack *)
Context (s0 : A).

(** Four free frames for each page are enough: one for the page, three for its tables. *)
Lemma map_stack_spec n : forall s v, space root s0 s -> 0 <= v -> v mod PAGE_SIZE = 0 -> v + Z.of_nat n * PAGE_SIZE <= 2 ^ 47 ->
  (forall x, v <= x < v + Z.of_nat n * PAGE_SIZE -> present root s x = false) -> Frames.room s (4 * n) ->
  let s' := map_stack n s root v in
  space root s0 s' /\ grows s s' /\ (forall k, Frames.room s (4 * n + k) -> Frames.room s' k) /\
  forall x, user x -> if decide (v <= x < v + Z.of_nat n * PAGE_SIZE) then user_byte root s' x <> None else user_byte root s' x = user_byte root s x.
Proof.
  induction n as [|n IH]; intros s v Sp Hv Hm He Hn Hroom s'.
  { split; [done|]. split; [apply grows_refl|]. split; [done|]. intros x Hx. by rewrite decide_False by (unfold PAGE_SIZE; lia). }
  destruct (alloc_raw s (pt_fa _ _ (sp_pt _ _ _ Sp))) as [(i & s1 & E & Hi & Hc & U & C & Co)|[_ Hex]].
  2: { destruct Hex. eapply room_le; [|exact Hroom]. lia. }
  assert (user v) as Hu by (unfold user, PAGE_SIZE in *; lia). assert (present root s v = false) as Hp by (apply Hn; unfold PAGE_SIZE; lia).
  destruct (page_mapped root s0 s s1 v i Sp Hu Hm Hp Hi Hc U C Co) as (S2 & G2 & Rm2 & [B2|(_ & Hno & _)]).
  2: { destruct Hno. eapply room_le; [|exact Hroom]. lia. }
  unfold s'. cbn [map_stack]. rewrite E. set (s2 := vmm_map_page _ _ _ _ _) in *. clearbody s2.
  assert (forall k, Frames.room s (4 * S n + k) -> Frames.room s2 (4 * n + k)) as Hstep by (intros k Hk; apply Rm2; eapply room_le; [|exact Hk]; lia).
  assert (forall x, v + PAGE_SIZE <= x < v + PAGE_SIZE + Z.of_nat n * PAGE_SIZE -> present root s2 x = false) as Hn2.
  { intros x Hx. assert (user x) as Hux by (unfold user, PAGE_SIZE in *; lia). destruct (present root s2 x) eqn:H2; [|done].
    destruct (mapped_byte root s0 s2 x S2 Hux H2) as (_ & _ & Eb). rewrite (B2 x Hux), decide_False in Eb by (unfold PAGE_SIZE in *; Z.div_mod_to_equations; lia).
    assert (present root s x = false) as H1 by (apply Hn; unfold PAGE_SIZE in *; lia). destruct (unmapped_byte root s x H1) as [_ En]. congruence. }
  destruct (IH s2 (v + PAGE_SIZE) S2) as (S3 & G3 & Rm3 & B3); [unfold PAGE_SIZE; lia|unfold PAGE_SIZE in *; Z.div_mod_to_equations; lia|unfold PAGE_SIZE in *; lia|done| |].
  { rewrite <- (Nat.add_0_r (4 * n)). apply Hstep. by rewrite Nat.add_0_r. }
  split; [done|]. split; [by eapply grows_trans|]. split; [intros k Hk; by apply Rm3, Hstep|]. intros x Hx. specialize (B2 x Hx). specialize (B3 x Hx).
  destruct (decide (v + PAGE_SIZE <= x < v + PAGE_SIZE + Z.of_nat n * PAGE_SIZE)) as [D3|D3]; [by rewrite decide_True by (unfold PAGE_SIZE in *; lia)|].
  rewrite B3, B2. destruct (decide (x / PAGE_SIZE = v / PAGE_SIZE)) as [D|D]; [rewrite decide_True|rewrite decide_False]; try done; unfold PAGE_SIZE in *; Z.div_mod_to_equations; lia.
Qed.

(** *** The arguments, written through the direct map *)
(** The page of [v] after its frame was changed. *)
Lemma page_rewritten s v m : space root s0 s -> user v -> present root s v = true ->
  (forall x, ~ in_frame (fa_hhdm s) (page_frame root s v) x -> get8 m x = get8 (fa_mem s) x) ->
  let s' := fa_set_mem s m in
  space root s0 s' /\ same_counts s s' /\ forall x, user x -> user_byte root s' x =
    if decide (x / PAGE_SIZE = v / PAGE_SIZE) then Some (get8 m (fa_hhdm s + page_frame root s v * PAGE_SIZE + x mod PAGE_SIZE)) else user_byte root s x.
Proof.
  intros Sp Hv Hp Hm s'. destruct (space_write root s0 s v m Sp Hv Hp Hm) as (S' & G & Hh & Hl). fold s' in S', G, Hh, Hl.
  assert (fa_mem s' = m) as Em by apply fa_mem_set. clearbody s'. split; [done|]. split; [done|]. intros x Hx. destruct (present root s x) eqn:Px.
  - destruct (mapped_byte root s0 s' x S' Hx) as (_ & _ & ->); [unfold present in *; by rewrite Hl|]. destruct (mapped_byte root s0 s x Sp Hx Px) as (_ & _ & ->).
    assert (page_frame root s' x = page_frame root s x) as -> by (unfold page_frame; by rewrite Hl). rewrite Hh, Em. case_decide as D.
    + assert (page_frame root s x = page_frame root s v) as -> by (unfold page_frame; by rewrite (lookup_page root s x v)). done.
    + f_equal. apply Hm. assert (page_frame root s x <> page_frame root s v) by (intros E; by apply D, (sp_inj _ _ _ Sp)). pose proof (page_mod x). unfold in_frame, PAGE_SIZE in *. lia.
  - destruct (unmapped_byte root s x Px) as [_ ->]. case_decide as D; [unfold present in *; rewrite (lookup_page root s x v) in Px by done; congruence|]. apply unmapped_byte. unfold present in *. by rewrite Hl.
Qed.

(** Reading what lies in the top page *)
Section TopPage.
Context (s : A) (m : mem) (page : Z).
Context (Htop : forall x, USER_STACK_TOP - PAGE_SIZE <= x < USER_STACK_TOP -> user_byte root s x = Some (get8 m (user_at page x))).

Lemma top_word x : USER_STACK_TOP - PAGE_SIZE <= x -> x + 8 <= USER_STACK_TOP -> user_word s x = Some (load64 m (user_at page x)).
Proof.
  intros H1 H2. unfold user_word. assert (mapM (fun i => user_byte root s (x + i)) (seqZ 0 8) = Some ((fun i => get8 m (user_at page x + i)) <$> seqZ 0 8)) as ->.
  - apply mapM_Some. apply Forall2_fmap_r, Forall_Forall2_diag, Forall_forall. intros i Hi%elem_of_seqZ. rewrite Htop by lia. do 2 f_equal. unfold user_at. lia.
  - cbn [mbind option_bind]. f_equal. change (seqZ 0 8) with [0; 1; 2; 3; 4; 5; 6; 7]. unfold load64. cbn [load fmap list_fmap foldr].
    rewrite <- !Z.add_assoc, !Z.add_0_r. done.
Qed.

Lemma top_str x l : USER_STACK_TOP - PAGE_SIZE <= x -> x + Z.of_nat (length l) < USER_STACK_TOP -> cstr m (user_at page x) l -> user_str s x l.
Proof.
  intros H1 H2 Hc i c Hi. pose proof (lookup_lt_Some _ _ _ Hi) as Hlt. rewrite length_app in Hlt. cbn [length] in Hlt.
  rewrite Htop by lia. f_equal. replace (user_at page (x + Z.of_nat i)) with (user_at page x + Z.of_nat i) by (unfold user_at; lia).
  clear H1 H2 Hlt. revert i Hi Hc. generalize (user_at page x) as a. induction l as [|c' l IH]; intros a i Hi Hc; cbn in Hc.
  - destruct i as [|i]; [|done]. injection Hi as <-. by rewrite Z.add_0_r.
  - destruct Hc as (_ & H1 & H2). destruct i as [|i]; [injection Hi as <-; by rewrite Z.add_0_r|]. replace (a + Z.of_nat (S i)) with (a + 1 + Z.of_nat i) by lia. by apply IH.
Qed.
End TopPage.

Lemma args_spec s page m argv : argv <> [] -> (length argv < MAX_ARGS)%nat -> fits_page argv -> Forall (Forall (fun c => 0 < c < 256)) argv ->
  (forall x, USER_STACK_TOP - PAGE_SIZE <= x < USER_STACK_TOP -> user_byte root s x = Some (get8 (exec_stack m page argv) (user_at page x))) -> args_ok s argv.
Proof.
  intros Hne Hmax Hf Hs Ht. destruct (exec_stack_spec m page argv Hne Hmax Hf Hs) as (H1 & H2 & H3 & H4 & H5).
  destruct (start_addr_spec argv Hf) as (Ha & _ & _). pose proof (argv_size_pos argv).
  assert (rsp_virt_addr argv + 16 + 8 * Z.of_nat (length argv) <= USER_STACK_TOP) as Hend by (unfold rsp_virt_addr, start_list_addr, argv_ptr_size in *; lia).
  split; [done|]. split; [lia|]. split; [done|]. split; [rewrite (top_word s _ page Ht) by lia; by f_equal|]. split; [rewrite (top_word s _ page Ht) by lia; by f_equal|].
  intros i l Hi. assert (i < length argv)%nat as Hlt by (by eapply lookup_lt_Some). eexists. split; [rewrite (top_word s _ page Ht) by lia; reflexivity|].
  destruct (H5 i l Hi) as (H6 & H7 & H8). split; [done|]. split; [lia|]. apply (top_str s _ page Ht); [lia|lia|done].
Qed.
End Stack.

Section Image.
Context {A : Type} `{FS : FrameAllocatorSpec A}.
Implicit Types (s : A) (f : elf_file) (root x : Z) (argv : list (list Z)).

Record argv_ok argv : Prop := {
  ao_argv : argv <> [];
  ao_max : (length argv < MAX_ARGS)%nat;
  ao_fits : fits_page argv;
  ao_bytes : Forall (Forall (fun c => 0 < c < 256)) argv }.

Lemma stack_user x : stack x -> user x.
Proof. unfold stack, user, virt_usr_stk_base, USER_STACK_TOP, PAGE_SIZE, USER_STACK_PAGES. lia. Qed.
Lemma top_stack x : USER_STACK_TOP - PAGE_SIZE <= x < USER_STACK_TOP -> stack x.
Proof. unfold stack, virt_usr_stk_base, USER_STACK_TOP, PAGE_SIZE, USER_STACK_PAGES. lia. Qed.

(** Frames for the pages of the stack and their tables. *)
Definition stack_need : nat := 4 * USER_STACK_PAGES.

Lemma exec_args_spec root s argv : argv_ok argv -> pt_inv s root -> (forall x, user x -> present root s x = false) -> Frames.room s stack_need ->
  let s2 := exec_args root argv s in
  space root s s2 /\ (forall k, Frames.room s (stack_need + k) -> Frames.room s2 k) /\
  (forall x, stack x -> user_byte root s2 x <> None) /\ (forall x, user x -> ~ stack x -> user_byte root s2 x = None) /\
  exists m page, forall x, USER_STACK_TOP - PAGE_SIZE <= x < USER_STACK_TOP -> user_byte root s2 x = Some (get8 (exec_stack m page argv) (user_at page x)).
Proof.
  intros [Hne Hmax Hfit Hs] Hpt Hn Hroom. pose proof (space_start root s Hpt Hn) as Sp. cbv zeta.
  destruct (map_stack_spec root s USER_STACK_PAGES s virt_usr_stk_base Sp) as (S1 & G1 & Rm1 & B1); [done|done|done|intros x Hx; apply Hn, stack_user; exact Hx|done|].
  unfold exec_args. set (s1 := map_stack _ _ _ _) in *. clearbody s1.
  assert (forall x, stack x -> present root s1 x = true) as P1.
  { intros x Hx. specialize (B1 x (stack_user x Hx)). rewrite decide_True in B1 by exact Hx. destruct (present root s1 x) eqn:E; [done|]. by destruct (unmapped_byte root s1 x E). }
  destruct (start_addr_spec argv Hfit) as (Ha & _ & Hr). pose proof (argv_size_pos argv). set (v := start_usr_addr argv) in *.
  assert (stack v) as Hst.
  { assert (1 <= argv_size argv) by (destruct argv as [|l argv']; [done|]; unfold argv_size, argv_buf; cbn; rewrite !length_app; cbn [length]; lia).
    apply top_stack. unfold v, rsp_virt_addr, start_list_addr, argv_ptr_size in *. lia. }
  assert (v / PAGE_SIZE = (USER_STACK_TOP - PAGE_SIZE) / PAGE_SIZE) as Hvp.
  { assert (USER_STACK_TOP - PAGE_SIZE <= v < USER_STACK_TOP) as Hv; [|unfold USER_STACK_TOP, PAGE_SIZE in *; Z.div_mod_to_equations; lia].
    split; [unfold v, rsp_virt_addr, start_list_addr, argv_ptr_size in *; lia|apply Hst]. }
  destruct (mapped_byte root s s1 v S1 (stack_user v Hst) (P1 v Hst)) as (Hfr & -> & _). pose proof (page_mod v) as Hvm.
  rewrite land_addr_mask by (unfold is_u64, PAGE_SIZE in *; lia).
  replace ((page_frame root s1 v * PAGE_SIZE + v mod PAGE_SIZE) - _) with (page_frame root s1 v * PAGE_SIZE) by (unfold PAGE_SIZE in *; Z.div_mod_to_equations; lia).
  rewrite phys_to_hhdm_add by (apply S1 || (unfold PAGE_SIZE in *; lia)). set (page := fa_hhdm s1 + page_frame root s1 v * PAGE_SIZE).
  assert (forall x, ~ in_frame (fa_hhdm s1) (page_frame root s1 v) x -> get8 (exec_stack (fa_mem s1) page argv) x = get8 (fa_mem s1) x) as Hout.
  { intros x Hx. apply exec_stack_out; [done|done|]. unfold in_frame, page, PAGE_SIZE in *. lia. }
  destruct (page_rewritten root s s1 v _ S1 (stack_user v Hst) (P1 v Hst) Hout) as (S2 & C2 & B2). split; [done|]. split; [|split; [|split]].
  - intros k Hk. apply (room_kept s1); [intros j _; by rewrite C2|by apply Rm1].
  - intros x Hx. rewrite (B2 x (stack_user x Hx)). case_decide; [done|]. specialize (B1 x (stack_user x Hx)). by rewrite decide_True in B1 by exact Hx.
  - intros x Hu Hx. rewrite (B2 x Hu), decide_False.
    + specialize (B1 x Hu). rewrite decide_False in B1 by exact Hx. rewrite B1. apply unmapped_byte. by apply Hn.
    + intros D. apply Hx. unfold stack, virt_usr_stk_base, USER_STACK_TOP, PAGE_SIZE, USER_STACK_PAGES in *. Z.div_mod_to_equations. lia.
  - exists (fa_mem s1), page. intros x Hx. rewrite (B2 x (stack_user x (top_stack x Hx))). rewrite decide_True by (unfold USER_STACK_TOP, PAGE_SIZE in *; Z.div_mod_to_equations; lia).
    do 2 f_equal. unfold user_at, page, USER_STACK_TOP, PAGE_SIZE in *. Z.div_mod_to_equations. lia.
Qed.

(** A program and its arguments *)
Record exec_ok f argv : Prop := {
  xo_file : elf_ok f;
  xo_argv : argv_ok argv;
  xo_apart ph x : ph ∈ segments f -> in_mem ph x -> ~ stack x }.

Lemma exec_image_spec root s f argv : exec_ok f argv -> pt_inv s root -> (forall x, user x -> present root s x = false) -> Frames.room s stack_need ->
  exists r s', exec_image (Some f) true root argv s = Some (r, s') /\ space root s s' /\
    ((r = 0 /\ ~ Frames.room s (stack_need + elf_need f)) \/
     (r = e_entry f /\ (forall k, Frames.room s (stack_need + elf_need f + k) -> Frames.room s' k) /\
      image root f (~ Frames.room s (stack_need + elf_need f)) s' /\ args_ok root s' argv /\ forall x, stack x -> user_byte root s' x <> None)).
Proof.
  intros [Hf Hao Hap] Hpt Hn Hroom. destruct (exec_args_spec root s argv Hao Hpt Hn Hroom) as (S2 & Rm2 & B2 & N2 & m & page & T2).
  unfold exec_image. set (s2 := exec_args _ _ _) in *. clearbody s2. destruct (elf_load_spec root s s2 f Hf S2) as (r & s' & E & S' & HE).
  { intros ph x Hin Hx. apply N2; [|by apply (Hap ph)]. pose proof (el_segments f Hf) as Hseg. rewrite Forall_forall in Hseg. destruct (Hseg ph Hin) as [_ _ _ [? ?]]. unfold user, in_mem in *. lia. }
  assert (~ Frames.room s2 (elf_need f) -> ~ Frames.room s (stack_need + elf_need f)) as Hmore by (intros H Hr; by apply H, Rm2).
  exists r, s'. split; [done|]. split; [done|]. destruct HE as [[? ?]|(H1 & H0 & H2 & H3)]; [left; split; [done|by apply Hmore]|right]. split; [done|].
  split; [intros k Hk; apply H0, Rm2; by rewrite Nat.add_assoc|].
  assert (forall x, stack x -> user_byte root s' x = user_byte root s2 x) as B3.
  { intros x Hx. apply H3; [by apply stack_user| |by apply B2]. intros ph Hin Hm. by destruct (Hap ph x Hin Hm). }
  split; [|split; [|intros x Hx; rewrite (B3 x Hx); by apply B2]].
  - intros ph x Hin Hx. destruct (H2 ph x Hin Hx) as [G1 G2]. split; [done|]. intros Hnf. destruct (G2 Hnf) as [?|[? ?]]; [by left|right]. split; [done|by apply Hmore].
  - destruct Hao as [Ha1 Ha2 Ha3 Ha4]. apply (args_spec root s' page m); [done..|]. intros x Hx. rewrite (B3 x (top_stack x Hx)). by apply T2.
Qed.
End Image.
