(* ===== verification/ExecRun.v ===== *)
(** [sys_exec] of [src/src/arch/syscall.c] on the frames and page tables, from the new
    root table to the release of the old address space: [vmm_new_pml4], the image
    ([ExecSpace]), the new kernel stack, [vmm_free_table] on every way out, and the release
    of the old kernel stack. *)
From S2P Require Import Prelude Machine RingBuf Pipe StringLib CString Pmm Frames Kmalloc Paging VmRegions FreeSpace Shm ShmSpec Vfs VfsFile SysFile SysFileInv SysFileOps SysFileRun SysPipe Tar Exec Ata Elf ElfSpec ExecSpace.
#[local] Notation room := Frames.room.

Inductive exec_result :=
  | exec_failed
  | exec_runs (new_pml4 new_kern_stk_phys entry : Z).

(** The heap buffers, the region lists ([vmm_cleanup_task]), the window and the saved
    registers of the task are other components'. *)
Definition sys_exec_space `{FrameAllocator A} (file : option elf_file) (kmalloc_ok : bool) (kern_pml4 old_pml4 old_kern_stk_top : Z) (argv : list (list Z)) (s : A) :
    option (exec_result * A) :=
  let '(new_pml4, s) := vmm_new_pml4 s kern_pml4 in
  if new_pml4 =? 0 then Some (exec_failed, s)
  else
    let new_pml4_hhdm := phys_to_hhdm s new_pml4 in
    '(entry, s) ← exec_image file kmalloc_ok new_pml4_hhdm argv s;
    if entry =? 0 then Some (exec_failed, vmm_free_table 4 s new_pml4_hhdm)
    else
      let '(new_kern_stk_phys, s) := fa_alloc s in
      if new_kern_stk_phys =? 0 then Some (exec_failed, vmm_free_table 4 s new_pml4_hhdm)
      else
        let s := vmm_free_table 4 s (phys_to_hhdm s old_pml4) in
        let s := if old_kern_stk_top =? 0 then s else fa_free s (hhdm_to_phys s (old_kern_stk_top - PAGE_SIZE)) in
        Some (exec_runs new_pml4 new_kern_stk_phys entry, s).

(** *** An address space that was built is given back whole *)
(** Places and addresses *)
Lemma path_va (q : list Z) (j : Z) : length q = 3%nat -> range (q ++ [j]) -> user_half q -> exists x, user x /\ va_path x = q /\ tbl_index x PT_INDEX = j.
Proof.
  intros Hl Hr Hu. destruct q as [|a [|b [|c [|]]]]; try done. unfold range in Hr. cbn [app] in Hr. cbn in Hu.
  repeat match goal with H : Forall _ (_ :: _) |- _ => apply Forall_cons in H as [? H] end. clear Hr.
  exists (((a * 512 + b) * 512 + c) * 512 * 4096 + j * 4096). unfold va_path. rewrite !tbl_index_div by (vm_compute; discriminate).
  unfold user, PML4_INDEX, PDPT_INDEX, PD_INDEX, PT_INDEX. change (2 ^ 0x27) with (4096 * 134217728). change (2 ^ 0x1e) with (4096 * 262144). change (2 ^ 0x15) with (4096 * 512). change (2 ^ 0xc) with 4096.
  rewrite <- !Z.div_div by lia. set (x := ((a * 512 + b) * 512 + c) * 512 * 4096 + j * 4096).
  assert (x / 4096 = ((a * 512 + b) * 512 + c) * 512 + j) as -> by (unfold x; Z.div_mod_to_equations; lia).
  assert (0 <= x < 2 ^ 47) as Hx by (unfold x; lia). split; [exact Hx|]. clearbody x. clear Hx.
  assert ((((a * 512 + b) * 512 + c) * 512 + j) / 512 = (a * 512 + b) * 512 + c) as -> by (Z.div_mod_to_equations; lia).
  assert ((((a * 512 + b) * 512 + c) * 512 + j) / 262144 = a * 512 + b) as -> by (Z.div_mod_to_equations; lia).
  assert ((((a * 512 + b) * 512 + c) * 512 + j) / 134217728 = a) as -> by (Z.div_mod_to_equations; lia).
  split; [f_equal; [|f_equal; [|f_equal]]|]; Z.div_mod_to_equations; lia.
Qed.

Section Freed.
Context {A : Type} `{FS : FrameAllocatorSpec A} (root : Z) (s0 s : A) (fr : Z).
Context (Sp : space root s0 s) (Hroot : root = fa_hhdm s + fr * PAGE_SIZE) (Hfr : fa_count s fr = Some 1).
Context (Hfresh : forall p t, upath p -> walk s0 root p = Some t -> p = []).

Lemma table_slot p t : upath p -> walk s root p = Some t -> exists j, t = fa_hhdm s + j * PAGE_SIZE /\ hhdm_to_phys s t = j * PAGE_SIZE /\ fa_count s j = Some 1.
Proof.
  intros Hp Hw. pose proof (sp_pt _ _ _ Sp) as Hpt. assert (exists j, t = fa_hhdm s + j * PAGE_SIZE /\ fa_count s j = Some 1) as (j & -> & Hc).
  { destruct (ac_table _ _ _ (sp_acct _ _ _ Sp) p t (proj1 Hp) Hw) as [H0|(j & -> & _ & H)]; [|exists j; by rewrite (sp_hhdm _ _ _ Sp)].
    assert (p = []) as -> by by apply (Hfresh p t). injection Hw as <-. by exists fr. }
  exists j. split; [done|]. split; [|done]. apply hhdm_to_phys_sub; [apply Hpt|]. destruct (fa_count_ok s j 1 (pt_fa _ _ Hpt) Hc) as (? & _). unfold PAGE_SIZE. lia.
Qed.

Lemma upath_range p : upath p <-> range p /\ user_half p /\ (length p <= 3)%nat.
Proof.
  unfold upath, path_ok, range, user_half, first_slot. destruct p as [|i p]; [tauto|]. rewrite user_slot. tauto.
Qed.

Lemma page_slot q j : length q = 3%nat -> range (q ++ [j]) -> user_half q -> has VMM_FLAG_PRESENT (leaf s root q j) = true ->
  exists x, user x /\ present root s x = true /\ va_path x = q /\ tbl_index x PT_INDEX = j /\ pte_get_addr (leaf s root q j) = page_frame root s x * PAGE_SIZE.
Proof.
  intros Hl Hr Hu Hp. destruct (path_va q j Hl Hr Hu) as (x & Hx & <- & <-). exists x. split; [done|]. split; [done|]. split; [done|]. split; [done|]. apply frame_addr.
Qed.

(** Each place has its frame for itself. *)
Lemma slot_owned p a : range p -> user_half p -> slot s root p a -> owned root s (a / PAGE_SIZE) /\ fa_count s (a / PAGE_SIZE) = Some 1.
Proof.
  intros Hr Hu [(Hl & t & Hw & ->)|(q & j & -> & Hl & Hp & _ & ->)].
  - assert (upath p) as Hup by by apply upath_range. destruct (table_slot p t Hup Hw) as (j & -> & -> & Hc). rewrite Z.div_mul by done. split; [left; by exists p|done].
  - destruct (page_slot q j Hl Hr) as (x & Hx & Px & _ & _ & ->); [by destruct q|done|]. rewrite Z.div_mul by done.
    split; [right; by exists x|]. by apply (ac_page _ _ _ (sp_acct _ _ _ Sp)).
Qed.

Lemma owned_slot j : owned root s j -> exists p a, range p /\ user_half p /\ (length p <= 4)%nat /\ slot s root p a /\ a / PAGE_SIZE = j.
Proof.
  intros [(p & Hup & Hw)|(x & Hx & Px & <-)].
  - destruct (table_slot p _ Hup Hw) as (k & Ek & Eh & _). assert (k = j) as -> by (unfold PAGE_SIZE in *; lia). apply upath_range in Hup as (Hr & Hu & Hl).
    exists p, (j * PAGE_SIZE). split; [done|]. split; [done|]. split; [lia|]. split; [|by apply Z.div_mul]. left. split; [done|]. by eexists.
  - exists (va_path x ++ [tbl_index x PT_INDEX]), (pte_get_addr (lookup_pte s root x)). destruct (va_path_ok x (user_in_slots x Hx)) as (_ & Hr & _).
    split; [apply Forall_app; split; [done|]; apply Forall_singleton, tbl_index_range|]. split; [apply (user_va_upath x (va_path x) Hx); done|]. split; [cbn; lia|].
    split; [|by rewrite frame_addr, Z.div_mul]. right. exists (va_path x), (tbl_index x PT_INDEX). destruct (ac_page _ _ _ (sp_acct _ _ _ Sp) x Hx Px) as [_ Hsh]. done.
Qed.

Lemma slot_inj p q a b : range p -> range q -> user_half p -> user_half q -> slot s root p a -> slot s root q b -> a / PAGE_SIZE = b / PAGE_SIZE -> p = q.
Proof.
  assert (forall p t q j, range p -> user_half p -> (length p <= 3)%nat -> walk s root p = Some t -> length q = 3%nat -> range (q ++ [j]) -> user_half (q ++ [j]) ->
    has VMM_FLAG_PRESENT (leaf s root q j) = true -> hhdm_to_phys s t / PAGE_SIZE <> pte_get_addr (leaf s root q j) / PAGE_SIZE) as Hmix.
  { intros p' t q' j Hr Hu Hl Hw Hl' Hr' Hu' Hp. destruct (page_slot q' j Hl' Hr') as (x & Hx & Px & _ & _ & ->); [by destruct q'|done|].
    destruct (table_slot p' t) as (k & Ek & -> & _); [by apply upath_range|done|]. rewrite !Z.div_mul by done. intros ->.
    destruct (sp_data _ _ _ Sp x Hx Px) as [[_ Hnt] _]. apply (Hnt p' t); [by apply upath_ok|done|]. change (_ / PAGE_SIZE) with (page_frame root s x). done. }
  intros Hr Hr' Hu Hu' [(Hl & t & Hw & ->)|(p1 & j & -> & Hl & Hp & _ & ->)] [(Hl' & t' & Hw' & ->)|(q1 & j' & -> & Hl' & Hp' & _ & ->)] E.
  - destruct (table_slot p t) as (k & Ek & E1 & _); [by apply upath_range|done|]. destruct (table_slot q t') as (k' & Ek' & E2 & _); [by apply upath_range|done|].
    rewrite E1, E2, !Z.div_mul in E by done. subst. apply (pt_inj _ _ (sp_pt _ _ _ Sp) p q (fa_hhdm s + k' * PAGE_SIZE)); [by apply upath_ok..|done|done].
  - by destruct (Hmix p t q1 j').
  - by destruct (Hmix q t' p1 j).
  - destruct (page_slot p1 j Hl Hr) as (x & Hx & Px & <- & <- & Ex); [by destruct p1|done|]. destruct (page_slot q1 j' Hl' Hr') as (y & Hy & Py & <- & <- & Ey); [by destruct q1|done|].
    rewrite Ex, Ey, !Z.div_mul in E by done. pose proof (sp_inj _ _ _ Sp x y Hx Hy Px Py E) as Exy.
    assert (same_page x y = true) as Hs by (rewrite same_page_iff by (unfold user in *; lia); by apply bool_decide_eq_true_2). apply bool_decide_eq_true in Hs as [-> ->]. done.
Qed.

Lemma space_freed : let s' := vmm_free_table 4 s root in
  fa_quiet s s' /\ forall j, (owned root s j /\ fa_count s' j = None) \/ (~ owned root s j /\ fa_count s' j = fa_count s j).
Proof.
  intros s'. pose proof (sp_pt _ _ _ Sp) as Hpt. set (l := table_frees 4 s root).
  assert (forall a, a ∈ l <-> exists q, slot s root q a /\ range q /\ (4%nat = 4%nat -> user_half q) /\ (length q <= 4)%nat) as Hel by (intros a; apply (table_frees_elem 4 s root []); [done|lia|done]).
  assert (forall j, occ j l <= 1) as Hone by (intros j; apply (table_frees_once 4 s root []); [done|lia|by apply Forall_nil|done|done|exact slot_inj]).
  assert (forall j, 0 < occ j l <-> owned root s j) as Hocc.
  { intros j. rewrite occ_pos. split.
    - intros (a & Ha & <-). apply Hel in Ha as (q & Hs & Hr & Hu & _). by apply (slot_owned q a); [|apply Hu|].
    - intros Ho. destruct (owned_slot j Ho) as (p & a & Hr & Hu & Hl & Hs & E). exists a. split; [|done]. apply Hel. by exists p. }
  assert (forall j, owned root s j -> fa_count s j = Some 1) as Hcnt.
  { intros j Ho. destruct (owned_slot j Ho) as (p & a & Hr & Hu & _ & Hs & <-). by apply (slot_owned p a). }
  assert (freeable s l) as Hf by (intros j Hj; exists 1; split; [by apply Hcnt, Hocc|apply Hone]).
  assert (s' = foldl fa_free s l) as Es.
  { apply (free_table_frees 4 s s root []); [by apply pt_utree|done|lia|apply upath_nil|done|apply quiet_refl, Hpt|done]. }
  destruct (frees_spec l s (pt_fa _ _ Hpt) Hf) as [Q Hc]. rewrite Es. split; [done|]. intros j. rewrite Hc. pose proof (occ_nonneg j l). pose proof (Hone j).
  destruct (decide (occ j l = 0)) as [E0|E0]; [right; split; [rewrite <- Hocc; lia|by rewrite E0, dropped_0]|left].
  assert (occ j l = 1) as E1 by lia. assert (owned root s j) as Ho by (apply Hocc; lia). split; [done|]. by rewrite E1, (Hcnt j Ho).
Qed.
End Freed.

(** *** A new root table *)
Section NewSpace.
Context {A : Type} `{FS : FrameAllocatorSpec A}.
Implicit Types (s : A) (kern : Z).

(** The root table of the kernel is memory that is not given out: a frame someone holds
    or, for the tables of the boot loader, one the allocator does not manage. *)
Definition kern_page s kern : Prop := forall x, kern <= x < kern + PAGE_SIZE -> kept s x.

(** The user half is empty, the kernel half is the kernel's. *)
Record new_space s kern s1 (fr : Z) : Prop := {
  nw_pt : pt_inv s1 (fa_hhdm s + fr * PAGE_SIZE);
  nw_phys : phys_to_hhdm s1 (fr * PAGE_SIZE) = fa_hhdm s + fr * PAGE_SIZE;
  nw_free : 0 < fr < 2 ^ 35 - 1 /\ fa_count s fr = None;
  nw_count j : fa_count s1 j = if fr =? j then Some 1 else fa_count s j;
  nw_un : undisturbed s s1;
  nw_walk p t : path_ok p -> walk s1 (fa_hhdm s + fr * PAGE_SIZE) p = Some t -> p = [] /\ t = fa_hhdm s + fr * PAGE_SIZE;
  nw_kern i : 256 <= i < 512 -> rd s1 (fa_hhdm s + fr * PAGE_SIZE) i = rd s kern i }.

(** A root without entries in the user half. *)
Lemma empty_root_tree s root fr : fa_inv s -> root = fa_hhdm s + fr * PAGE_SIZE -> fa_count s fr = Some 1 ->
  (forall i, 0 <= i < 256 -> rd s root i = 0) ->
  pt_inv s root /\ forall p t, path_ok p -> walk s root p = Some t -> p = [] /\ t = root.
Proof.
  intros I -> Hc Hz. set (root := _ + _).
  assert (forall p t, path_ok p -> walk s root p = Some t -> p = [] /\ t = root) as Hw.
  { intros [|i p] t (_ & Hp & Hs); [by intros [= <-]|]. apply Forall_cons in Hp as [Hi _]. apply user_slot in Hs. cbn [walk]. unfold child. rewrite Hz by lia. done. }
  split; [split; [done|..]|done].
  - intros p t Hp [_ ->]%Hw; [|done]. exists fr, 1. split; [done|]. split; [done|by eapply count_open].
  - by intros p q t Hp Hq [-> _]%Hw [-> _]%Hw.
Qed.

(** A second change of the frame just taken. *)
Lemma fill_again s s2 i m : undisturbed s s2 -> fa_count s i = None -> fa_count s2 i = Some 1 ->
  (forall x, ~ in_frame (fa_hhdm s) i x -> get8 m x = get8 (fa_mem s2) x) ->
  undisturbed s (fa_set_mem s2 m) /\ forall j, fa_count (fa_set_mem s2 m) j = fa_count s2 j.
Proof.
  intros U Hc C2 Hout. destruct (fa_set_mem_ok s2 m (un_inv _ _ U)) as (I3 & Hh3 & Hc3 & Hp3).
  { intros x Hx. apply Hout. intros Hf. apply (frame_not_private s2 i x (un_inv _ _ U)); [by rewrite (un_hhdm _ _ U)|by rewrite C2|done]. }
  split; [|done]. split; [done|by rewrite Hh3, (un_hhdm _ _ U)|intros x; rewrite Hp3; apply U|intros j r Hj; rewrite Hc3; by apply U|].
  intros x Hx. rewrite fa_mem_set, Hout; [by apply U|]. intros Hf. destruct Hx as (j & r & Hj & Cj & _). assert (i = j) as -> by (unfold in_frame, PAGE_SIZE in *; lia). congruence.
Qed.

Lemma new_pml4_spec s kern : fa_inv s -> kern_page s kern ->
  (vmm_new_pml4 s kern = (0, s) /\ exhausted s) \/ exists fr s1, vmm_new_pml4 s kern = (fr * PAGE_SIZE, s1) /\ new_space s kern s1 fr.
Proof.
  intros I Hk. unfold vmm_new_pml4. destruct (alloc_zero s I) as [(i & s1 & -> & Hi & Hc & Hv & U2 & C2 & Co2 & Z2)|[-> E]]; [right|by left].
  rewrite (proj2 (Z.eqb_neq _ _)) by (unfold PAGE_SIZE; lia). rewrite Hv. set (virt := fa_hhdm s + i * PAGE_SIZE) in *. set (s2 := zero_page s1 virt) in *. clearbody s2.
  assert (forall x, kern <= x < kern + PAGE_SIZE -> ~ in_frame (fa_hhdm s) i x) as Hki.
  { intros x Hx Hf. destruct (Hk x Hx) as (g & r & Hg & Cg & _). assert (g = i) as -> by (unfold in_frame, PAGE_SIZE in *; lia). congruence. }
  assert (kern + PAGE_SIZE <= virt \/ virt + PAGE_SIZE <= kern) as Hap.
  { pose proof (Hki kern ltac:(unfold PAGE_SIZE; lia)). pose proof (Hki (kern + PAGE_SIZE - 1) ltac:(unfold PAGE_SIZE; lia)). unfold in_frame, virt, PAGE_SIZE in *. lia. }
  pose proof (memcpy_copied (fa_mem s2) (virt + 8 * 256) (kern + 8 * 256) (256 * 8) ltac:(unfold forward_ok, PAGE_SIZE in *; lia) ltac:(lia)) as Hcp. set (m := memcpy _ _ _ _) in *. clearbody m.
  destruct (fill_again s s2 i m U2 Hc C2) as [U3 C3].
  { intros x Hx. rewrite Hcp, bool_decide_eq_false_2; [done|]. unfold in_frame, virt, PAGE_SIZE in *. lia. }
  exists i, (fa_set_mem s2 m). split; [done|]. assert (fa_mem (fa_set_mem s2 m) = m) as Em by apply fa_mem_set. set (s3 := fa_set_mem s2 m) in *. clearbody s3.
  destruct (empty_root_tree s3 virt i (un_inv _ _ U3)) as [Hpt3 Hw3]; [by rewrite (un_hhdm _ _ U3)|by rewrite C3| |].
  { intros j Hj. unfold rd. rewrite Em. transitivity (load64 (∅ : mem) 0); [|done]. apply load_ext. intros k Hk'. rewrite Hcp, bool_decide_eq_false_2 by lia.
    rewrite Z2; [unfold get8; by rewrite lookup_empty|]. unfold in_frame, virt, PAGE_SIZE in *. lia. }
  split; [done|..|done|done|].
  - rewrite phys_to_hhdm_add by (apply U3 || (unfold PAGE_SIZE; lia)). by rewrite (un_hhdm _ _ U3).
  - by split.
  - intros j. rewrite C3. destruct (Z.eqb_spec i j) as [<-|Hne]; [done|by apply Co2].
  - intros j Hj. fold virt. unfold rd. rewrite Em. apply load_ext. intros k Hk'. rewrite Hcp, bool_decide_eq_true_2 by lia.
    replace (kern + 8 * 256 + (virt + 8 * j + k - (virt + 8 * 256))) with (kern + 8 * j + k) by lia. apply U2, Hk. unfold PAGE_SIZE. lia.
Qed.

(** Such a space has no page in its user half. *)
Lemma new_space_empty s kern s1 fr : new_space s kern s1 fr -> let root := fa_hhdm s + fr * PAGE_SIZE in
  (forall x, user x -> present root s1 x = false) /\ forall p t, upath p -> walk s1 root p = Some t -> p = [].
Proof.
  intros N root. split.
  - intros x Hx. unfold present, lookup_pte, leaf. destruct (walk s1 root (va_path x)) as [t|] eqn:Hw; [|done].
    apply (nw_walk _ _ _ _ N) in Hw as [[=] _]. by apply va_path_ok, user_in_slots.
  - intros p t [Hp Hu] Hw. by apply (nw_walk _ _ _ _ N) in Hw as [-> _].
Qed.
End NewSpace.

(** *** A space while others change *)
Section Keep.
Context {A : Type} `{FS : FrameAllocatorSpec A}.
Implicit Types (s : A) (root : Z).

Lemma bytes_kept s0 s s' root : space root s0 s -> fa_hhdm s' = fa_hhdm s -> (forall x, kept s x -> get8 (fa_mem s') x = get8 (fa_mem s) x) ->
  (forall x, in_slots x -> lookup_pte s' root x = lookup_pte s root x) -> forall x, user x -> user_byte root s' x = user_byte root s x.
Proof.
  intros Sp Hh Hm Hl x Hx. assert (lookup_pte s' root x = lookup_pte s root x) as Hlx by by apply Hl, user_in_slots. destruct (present root s x) eqn:Px.
  - destruct (mapped_byte root s0 s x Sp Hx Px) as (Hf & Ev & ->). unfold user_byte. rewrite virt2phys_lookup, Hlx, <- virt2phys_lookup, Ev. pose proof (page_mod x).
    rewrite (proj2 (Z.eqb_neq _ _)) by (unfold PAGE_SIZE in *; lia). unfold phys_to_hhdm. rewrite Hh. fold (phys_to_hhdm s (page_frame root s x * PAGE_SIZE + x mod PAGE_SIZE)).
    rewrite phys_to_hhdm_add by (apply Sp || (unfold PAGE_SIZE in *; lia)). f_equal. rewrite Z.add_assoc. apply Hm. destruct (sp_data _ _ _ Sp x Hx Px) as [[(r & Hc & Hr) _] _].
    apply (count_kept s (page_frame root s x) r); [apply Sp|unfold in_frame, PAGE_SIZE in *; lia|done|done].
  - destruct (unmapped_byte root s x Px) as [_ ->]. apply unmapped_byte. unfold present in *. by rewrite Hlx.
Qed.

Lemma quiet_kept s s' x : fa_quiet s s' -> kept s x -> get8 (fa_mem s') x = get8 (fa_mem s) x.
Proof. intros (_ & _ & _ & M) Hx. by apply M, kept_not_private. Qed.
End Keep.

(** *** The ways out of [sys_exec] *)
Section Ways.
Context {A : Type} `{FS : FrameAllocatorSpec A} (s : A) (kern : Z).

(** Nothing that was in use is gone or changed. *)
Definition unharmed (s' : A) : Prop := grows s s' /\ forall x, kept s x -> get8 (fa_mem s') x = get8 (fa_mem s) x.

(** What the caller's program gives up: its pages and tables, and its kernel stack. *)
Definition old_frees (old stk_top : Z) : list Z :=
  table_frees 4 s old ++ if stk_top =? 0 then [] else [hhdm_to_phys s (stk_top - PAGE_SIZE)].

Record old_ok (old stk_top : Z) : Prop := {
  od_tree : utree s old;
  od_free : freeable s (old_frees old stk_top) }.

Section New.
Context (s1 : A) (fr : Z) (N : new_space s kern s1 fr).
Let root := fa_hhdm s + fr * PAGE_SIZE.

Lemma new_grows : grows s s1.
Proof. exact (un_count _ _ (nw_un _ _ _ _ N)). Qed.

Lemma new_free j : fa_count s1 j = None -> fa_count s j = None.
Proof. rewrite (nw_count _ _ _ _ N). by destruct (fr =? j). Qed.

Lemma new_room n : room s (S n) -> room s1 n.
Proof.
  destruct (nw_free _ _ _ _ N) as [? ?]. apply (room_take s s1 fr); [lia|done|exists 1; by rewrite (nw_count _ _ _ _ N), Z.eqb_refl|].
  intros i Hi. by rewrite (nw_count _ _ _ _ N), (proj2 (Z.eqb_neq fr i)).
Qed.

Section Built.
Context (s2 : A) (Sp : space root s1 s2).

Lemma built_hhdm : fa_hhdm s2 = fa_hhdm s.
Proof. rewrite (sp_hhdm _ _ _ Sp). apply N. Qed.

Lemma built_grows : grows s s2.
Proof. eapply grows_trans; [exact new_grows|apply Sp]. Qed.

Lemma built_kept x : kept s x -> kept s2 x.
Proof. intros Hx. eapply space_kept; [exact Sp|]. by eapply undisturbed_mono; [apply N|]. Qed.

Lemma built_bytes x : kept s x -> get8 (fa_mem s2) x = get8 (fa_mem s) x.
Proof.
  intros Hx. rewrite (sp_rest _ _ _ Sp); [by apply (nw_un _ _ _ _ N)|by eapply undisturbed_mono; [apply N|]|].
  intros (p & t & Hp & Hw & Ht). destruct (nw_walk _ _ _ _ N p t Hp Hw) as [-> ->].
  destruct Hx as (j & r & Hf & Hc & _). assert (j = fr) as -> by (unfold in_frame, root, PAGE_SIZE in *; lia). destruct (nw_free _ _ _ _ N). congruence.
Qed.

Lemma built_owned j : owned root s2 j -> fa_count s j = None.
Proof.
  intros [(p & [Hp Hu] & Hw)|(x & Hx & Px & <-)].
  - destruct (ac_table _ _ _ (sp_acct _ _ _ Sp) p _ Hp Hw) as [Hw1|(k & E & Hc & _)].
    + destruct (nw_walk _ _ _ _ N p _ Hp Hw1) as [_ E]. rewrite built_hhdm in E. assert (j = fr) as -> by (unfold PAGE_SIZE in *; lia). apply N.
    + rewrite <- (sp_hhdm _ _ _ Sp) in E. assert (k = j) as -> by (unfold PAGE_SIZE in *; lia). by apply new_free.
  - apply new_free. by apply (sp_data _ _ _ Sp).
Qed.

(** Given up: what was taken is free again. *)
Lemma built_freed : let s' := vmm_free_table 4 s2 root in fa_inv s' /\ unharmed s' /\ (room s2 1 -> forall j, fa_count s' j = fa_count s j).
Proof.
  intros s'. assert (fa_count s2 fr = Some 1) as Hfr by (apply (sp_grows _ _ _ Sp); by rewrite (nw_count _ _ _ _ N), Z.eqb_refl).
  assert (root = fa_hhdm s2 + fr * PAGE_SIZE) as Er by by rewrite built_hhdm.
  destruct (space_freed root s1 s2 fr Sp Er Hfr (proj2 (new_space_empty _ _ _ _ N))) as [Q Hc]. fold s' in Q, Hc. split; [apply Q|]. split; [split|].
  - intros j r Hj. destruct (Hc j) as [[Ho _]|[_ E]]; [pose proof (built_owned j Ho); congruence|]. rewrite E. by apply built_grows.
  - intros x Hx. rewrite (quiet_kept s2 s' x Q) by by apply built_kept. by apply built_bytes.
  - intros Hroom. destruct (ac_own _ _ _ (sp_acct _ _ _ Sp)) as [R|Ha]; [by destruct R|]. intros j. destruct (Hc j) as [[Ho E]|[Hno E]]; rewrite E; [by rewrite (built_owned j Ho)|].
    destruct (Ha j) as [E2|(_ & _ & Ho)]; [|done]. rewrite E2, (nw_count _ _ _ _ N). destruct (Z.eqb_spec fr j) as [<-|]; [|done].
    destruct Hno. left. exists []. split; [apply upath_nil|]. cbn [walk]. by rewrite Er.
Qed.

(** Started: the old space goes, the new one stays. *)
Section Start.
Context (old stk_top : Z) (O : old_ok old stk_top) (s3 : A) (U : undisturbed s2 s3).
Let L := old_frees old stk_top.
Let s4 := vmm_free_table 4 s3 old.
Let s' := if stk_top =? 0 then s4 else fa_free s4 (hhdm_to_phys s4 (stk_top - PAGE_SIZE)).

Lemma fresh_not_old j : fa_count s j = None -> occ j L = 0.
Proof.
  intros Hj. pose proof (occ_nonneg j L). destruct (decide (0 < occ j L)) as [D|D]; [|lia]. destruct (od_free _ _ O j D) as (r & Hc & _). congruence.
Qed.

Lemma old_rd p t i : upath p -> walk s old p = Some t -> 0 <= i < 512 -> rd s3 t i = rd s t i.
Proof.
  intros Hp Hw Hi. destruct (proj2 (od_tree _ _ O) p t Hp Hw) as (g & r & Et & Hg & Hr). apply rd_ext. intros x Hx.
  assert (kept s x) as Hh by (apply (frame_kept s g r); [unfold in_frame, PAGE_SIZE in *; lia|done|done]). rewrite (un_kept _ _ U); [|by apply built_kept]. by apply built_bytes.
Qed.

Lemma start_frees : fa_quiet s3 s' /\ forall j, fa_count s' j = dropped (fa_count s3 j) (occ j L).
Proof.
  assert (grows s s3) as G by (eapply grows_trans; [exact built_grows|exact (un_count _ _ U)]).
  assert (fa_hhdm s3 = fa_hhdm s) as Hh by (rewrite (un_hhdm _ _ U); exact built_hhdm).
  assert (freeable s3 L) as Hf by (intros j Hj; destruct (od_free _ _ O j Hj) as (r & Hc & Hr); exists r; split; [by apply G|done]).
  assert (table_frees 4 s3 old = table_frees 4 s old) as EL by (apply (table_frees_same 4 s s3 old []); [done|lia|apply upath_nil|done|done|exact old_rd]).
  assert (utree s3 old) as Ut.
  { split; [apply U|]. intros p t Hp. rewrite (walk_same s s3 old Hh old_rd p Hp). intros Hw. destruct (proj2 (od_tree _ _ O) p t Hp Hw) as (g & r & -> & Hg & Hr).
    exists g, r. rewrite Hh. split; [done|]. split; [by apply G|]. apply (open_frame_eq s); [done| |done]. intros x. rewrite (un_private _ _ U), (sp_private _ _ _ Sp). apply (nw_un _ _ _ _ N). }
  destruct (freeable_app s3 _ _ (un_inv _ _ U) Hf) as [Hf1 _]. assert (s4 = foldl fa_free s3 (table_frees 4 s old)) as E4.
  { rewrite <- EL. apply (free_table_frees 4 s3 s3 old []); [done|done|lia|apply upath_nil|done|apply quiet_refl, U|by rewrite EL]. }
  destruct (frees_spec _ s3 (un_inv _ _ U) Hf1) as [(_ & Hh4 & _) _]. assert (s' = foldl fa_free s3 L) as ->; [|by apply frees_spec; [apply U|]].
  unfold s', L, old_frees. rewrite foldl_app, <- E4. destruct (stk_top =? 0); [done|]. cbn [foldl]. rewrite <- E4 in Hh4. unfold hhdm_to_phys. by rewrite Hh4, Hh.
Qed.

Lemma start_spec : fa_inv s' /\ pt_inv s' root /\ (forall i, 256 <= i < 512 -> rd s' root i = rd s kern i) /\ (forall x, user x -> user_byte root s' x = user_byte root s2 x) /\
  (forall j, fa_count s' j = dropped (fa_count s3 j) (occ j L)).
Proof.
  destruct start_frees as [Q Hc]. destruct (undisturbed_tree s2 s3 root (sp_pt _ _ _ Sp) U) as (Hpt3 & Hw3 & Hl3 & Hr3).
  destruct (tree_kept s3 s' root Hpt3) as (Hpt' & _ & Hl' & Hr'); [apply Q|apply Q|apply Q|intros x Hx; by apply quiet_kept| |].
  { intros p j Hp Hw. assert (occ j L = 0) as H0.
    { rewrite Hw3 in Hw by done. rewrite (un_hhdm _ _ U) in Hw. destruct (ac_table _ _ _ (sp_acct _ _ _ Sp) p _ Hp Hw) as [Hw1|(k & E & Hk1 & _)].
      - rewrite built_hhdm in Hw1. destruct (nw_walk _ _ _ _ N p _ Hp Hw1) as [_ E]. apply fresh_not_old. assert (j = fr) as -> by (unfold PAGE_SIZE in *; lia). apply N.
      - rewrite <- (sp_hhdm _ _ _ Sp) in E. assert (k = j) as -> by (unfold PAGE_SIZE in *; lia). by apply fresh_not_old, new_free. }
    destruct (pt_frame _ _ Hpt3 p _ Hp Hw) as (g & r & E & Hg & Hr). assert (g = j) as -> by (unfold PAGE_SIZE in *; lia). exists r. by rewrite Hc, H0, dropped_0. }
  split; [apply Q|]. split; [done|]. split; [|split; [|done]].
  - intros i Hi. assert (root_slot i = false) as Hs by (apply Z.ltb_ge; lia). rewrite Hr', Hr3, (sp_root _ _ _ Sp) by (done || lia). by apply (nw_kern _ _ _ _ N).
  - apply (bytes_kept s1); [done|destruct Q as (_ & -> & _); apply U| |intros x Hx; by rewrite Hl', Hl3].
    intros x Hx. rewrite (quiet_kept s3 s' x Q) by by eapply undisturbed_mono. by apply U.
Qed.
End Start.
End Built.
End New.
End Ways.

Section Theorems.
Context {A : Type} `{FS : FrameAllocatorSpec A}.
Implicit Types (s : A) (f : elf_file) (argv : list (list Z)).

(** A file no program can be read from: it is not there, its magic number is wrong, or
    there is no memory for its headers. *)
Definition rejected (file : option elf_file) (kmalloc_ok : bool) : Prop :=
  match file with
  | None => True
  | Some f => sizeof_Ehdr <= f_size f /\ (e_magic f <> [0x7F; 69; 76; 70] \/ kmalloc_ok = false)
  end.

Lemma rejected_load file ok pml4 s : rejected file ok -> elf_load_PML4 file ok pml4 s = Some (0, s).
Proof.
  destruct file as [f|]; [|done]. intros [Hs Hm]. unfold elf_load_PML4. rewrite (proj2 (Z.ltb_ge _ _)) by done. case_bool_decide; cbn [negb]; [|done]. by destruct Hm as [?| ->].
Qed.

(** Frames that are surely enough: the root table, the stack, the file, and the kernel
    stack. *)
Definition exec_need f : nat := S (stack_need + elf_need f + 1).

(** C26: A failed [sys_exec] gives back what it took.  With no frame at all, nothing
    changes.  With the frames for the stack, and a file that is missing or is not a
    program, the call fails, every frame has the reference count it had before, and no
    byte in use has changed: the new root table, the stack pages and the tables made
    for them are free again. *)
Theorem sys_exec_gives_back s kern old_pml4 stk_top file ok argv : argv_ok argv -> rejected file ok -> fa_inv s -> kern_page s kern ->
  (exhausted s -> sys_exec_space file ok kern old_pml4 stk_top argv s = Some (exec_failed, s)) /\
  (room s (S (stack_need + 1)) ->
   exists s', sys_exec_space file ok kern old_pml4 stk_top argv s = Some (exec_failed, s') /\ fa_inv s' /\
     (forall j, fa_count s' j = fa_count s j) /\ forall x, kept s x -> get8 (fa_mem s') x = get8 (fa_mem s) x).
Proof.
  intros Hao Hrej I Hk. unfold sys_exec_space. destruct (new_pml4_spec s kern I Hk) as [[-> Ex]|(fr & s1 & -> & N)].
  { split; [done|]. intros Hr. destruct Ex. eapply room_le; [|exact Hr]. lia. }
  destruct (nw_free _ _ _ _ N) as [Hfr Hnone]. split; [intros Ex; pose proof (proj1 (exhausted_iff s) Ex fr ltac:(lia)) as Hx; congruence|]. intros Hroom. apply (new_room _ _ _ _ N) in Hroom.
  rewrite (proj2 (Z.eqb_neq _ _)) by (unfold PAGE_SIZE; lia). rewrite (nw_phys _ _ _ _ N). destruct (new_space_empty s kern s1 fr N) as [He _].
  unfold exec_image. rewrite rejected_load by done. cbn [mbind option_bind Z.eqb].
  destruct (exec_args_spec _ s1 argv Hao (nw_pt _ _ _ _ N) He) as (S2 & Rm & _); [eapply room_le; [|exact Hroom]; lia|].
  destruct (built_freed s kern s1 fr N _ S2) as (I' & [_ K] & E). eexists. split; [done|]. split; [done|]. split; [|done]. by apply E, Rm.
Qed.

(** C25: [sys_exec] for a program.  With the frames for the stack, the call returns.  It
    fails only when there are fewer frames than the program may need, and then what was
    in use stays as it was.  Otherwise the task runs in a new address space: at every
    address of a segment the byte of the file, or zero behind the bytes of the file; at
    the stack pointer the argument count, the argument pointers and a NULL, each pointer
    the address of a copy of its argument; the kernel half of the kernel.  The frames of
    the old address space and the old kernel stack lose exactly the references it had,
    and nothing else that was in use changes. *)
Theorem sys_exec_correct s kern old_pml4 stk_top f argv : exec_ok f argv -> e_entry f <> 0 -> fa_inv s -> kern_page s kern ->
  old_ok s (phys_to_hhdm s old_pml4) stk_top -> room s (S stack_need) ->
  exists res s', sys_exec_space (Some f) true kern old_pml4 stk_top argv s = Some (res, s') /\ fa_inv s' /\
    (forall x, kept s x -> get8 (fa_mem s') x = get8 (fa_mem s) x) /\
    match res with
    | exec_failed => ~ room s (exec_need f) /\ grows s s'
    | exec_runs new_pml4 stk entry =>
        let root := phys_to_hhdm s new_pml4 in
        entry = e_entry f /\ pt_inv s' root /\ fa_count s (new_pml4 / PAGE_SIZE) = None /\
        image root f (~ room s (exec_need f)) s' /\ args_ok root s' argv /\ (forall x, stack x -> user_byte root s' x <> None) /\
        (forall i, 256 <= i < 512 -> rd s' root i = rd s kern i) /\
        fa_count s (stk / PAGE_SIZE) = None /\ fa_count s' (stk / PAGE_SIZE) = Some 1 /\
        (forall j r, fa_count s j = Some r -> fa_count s' j = dropped (Some r) (occ j (old_frees s (phys_to_hhdm s old_pml4) stk_top)))
    end.
Proof.
  intros X He I Hk O Hroom. unfold sys_exec_space. destruct (new_pml4_spec s kern I Hk) as [[-> Ex]|(fr & s1 & -> & N)].
  { destruct Ex. eapply room_le; [|exact Hroom]. lia. }
  destruct (nw_free _ _ _ _ N) as [Hfr Hnone]. rewrite (proj2 (Z.eqb_neq _ _)) by (unfold PAGE_SIZE; lia). rewrite (nw_phys _ _ _ _ N). set (root := fa_hhdm s + fr * PAGE_SIZE).
  assert (phys_to_hhdm s (fr * PAGE_SIZE) = root) as Eroot by (apply phys_to_hhdm_add; [done|unfold PAGE_SIZE; lia]).
  destruct (exec_image_spec root s1 f argv X (nw_pt _ _ _ _ N)) as (r & s2 & E & S2 & H); [apply (new_space_empty s kern s1 fr N)|by apply (new_room _ _ _ _ N)|].
  assert (~ room s1 (stack_need + elf_need f) -> ~ room s (exec_need f)) as Hr.
  { intros R Hr. apply R. eapply room_le; [|exact (new_room _ _ _ _ N _ Hr)]. lia. }
  destruct (built_freed s kern s1 fr N s2 S2) as (I2 & [G2 K2] & _). fold root in I2, G2, K2. rewrite E. cbn [mbind option_bind]. destruct H as [[-> R]|(-> & Rm & Him & Har & Hst)].
  { exists exec_failed. eexists. split; [done|]. split; [done|]. split; [done|]. split; [by apply Hr|done]. }
  rewrite (proj2 (Z.eqb_neq (e_entry f) 0) He). destruct (alloc_raw s2 (pt_fa _ _ (sp_pt _ _ _ S2))) as [(i & s3 & -> & Hi & Hc & U & C3 & _)|[-> Ex]].
  2: { cbn [Z.eqb]. exists exec_failed. eexists. split; [done|]. split; [done|]. split; [done|]. split; [|done]. intros Hr'. apply Ex, Rm. exact (new_room _ _ _ _ N _ Hr'). }
  rewrite (proj2 (Z.eqb_neq _ _)) by (unfold PAGE_SIZE; lia).
  assert (phys_to_hhdm s3 old_pml4 = phys_to_hhdm s old_pml4) as -> by (unfold phys_to_hhdm; by rewrite (un_hhdm _ _ U), (built_hhdm s kern s1 fr N s2 S2)).
  destruct (start_frees s kern s1 fr N s2 S2 _ stk_top O s3 U) as [Q' _].
  destruct (start_spec s kern s1 fr N s2 S2 _ stk_top O s3 U) as (I' & Hpt' & Hk' & Hb' & Hc'). cbv zeta. set (s4 := vmm_free_table 4 s3 _) in *. clearbody s4.
  fold root in Hpt', Hk', Hb'. set (s' := if stk_top =? 0 then s4 else _) in *. clearbody s'.
  pose proof (built_grows s kern s1 fr N s2 S2) as G3. assert (fa_count s i = None) as Hsi by (destruct (fa_count s i) eqn:Es; [apply G3 in Es; congruence|done]).
  exists (exec_runs (fr * PAGE_SIZE) (i * PAGE_SIZE) (e_entry f)), s'. split; [done|]. split; [done|]. split.
  { intros x Hx. pose proof (built_kept s kern s1 fr N s2 S2 x Hx) as Hx2. rewrite (quiet_kept s3 s' x Q') by by eapply undisturbed_mono. rewrite (un_kept _ _ U) by done. by apply (built_bytes s kern s1 fr N s2 S2). }
  rewrite Eroot, !Z.div_mul by done. split; [done|]. split; [done|]. split; [done|]. split; [|split; [|split; [|split; [done|split; [done|split]]]]].
  - intros ph x Hin Hx. pose proof (el_segments f (xo_file _ _ X)) as Hseg. rewrite Forall_forall in Hseg. destruct (Hseg ph Hin) as [_ _ _ [? ?]].
    rewrite Hb' by (unfold user, in_mem in *; lia). destruct (Him ph x Hin Hx) as [H1 H2]. split; [done|]. intros Hn. destruct (H2 Hn) as [?|[? ?]]; [by left|right]. split; [done|by apply Hr].
  - apply (args_ok_same root s2); [|done]. intros x Hx. by apply Hb', stack_user.
  - intros x Hx. rewrite Hb' by by apply stack_user. by apply Hst.
  - rewrite Hc', C3. assert (occ i (old_frees s (phys_to_hhdm s old_pml4) stk_top) = 0) as ->; [by eapply fresh_not_old|done].
  - intros j r Hj. rewrite Hc'. f_equal. apply U, G3, Hj.
Qed.
End Theorems.

(** *** A task with an empty address space runs [echo hi] *)
Definition demo_old : Z := 0x104000.
Definition demo_exec : pstate := snd (vmm_new_pml4 demo_space demo_root).
Definition demo_argv : list (list Z) := [[101; 99; 104; 111]; [104; 105]].

Lemma demo_argv_ok : argv_ok demo_argv.
Proof.
  split; [done|vm_compute; lia|vm_compute; discriminate|]. apply (bool_decide_unpack _). vm_compute. exact Logic.I.
Qed.

Lemma demo_exec_ok : exec_ok demo_elf demo_argv.
Proof.
  split; [apply demo_elf_ok|apply demo_argv_ok|]. intros ph x. rewrite demo_elf_segments, list_elem_of_singleton. intros ->.
  unfold in_mem, stack, virt_usr_stk_base, USER_STACK_TOP, USER_STACK_PAGES, PAGE_SIZE. cbn. lia.
Qed.

Lemma demo_kern_page : kern_page demo_space demo_root.
Proof.
  destruct demo_space_ok as (Hpt & _). intros x Hx. apply (table_byte_kept demo_space demo_root); [exact Hpt|]. exists [], demo_root. split; [apply path_ok_nil|]. by split.
Qed.

Lemma demo_new : new_space demo_space demo_root demo_exec (demo_old / PAGE_SIZE).
Proof.
  destruct demo_space_ok as (Hpt & _). unfold demo_exec. assert (fst (vmm_new_pml4 demo_space demo_root) = demo_old) as E by (vm_compute; reflexivity).
  destruct (new_pml4_spec demo_space demo_root (pt_fa _ _ Hpt) demo_kern_page) as [[En _]|(fr & s1 & En & N)]; rewrite En in *; cbn [fst snd] in *; [discriminate E|].
  assert (fr = demo_old / PAGE_SIZE) as <- by (rewrite <- E; symmetry; by apply Z.div_mul). exact N.
Qed.

Lemma demo_exec_inv : fa_inv demo_exec.
Proof. apply (nw_un _ _ _ _ demo_new). Qed.

Lemma demo_kern : kern_page demo_exec demo_root.
Proof. intros x Hx. eapply undisturbed_mono; [apply (nw_un _ _ _ _ demo_new)|]. by apply demo_kern_page. Qed.

Lemma demo_old_ok : old_ok demo_exec (phys_to_hhdm demo_exec demo_old) 0.
Proof.
  assert (old_frees demo_exec (phys_to_hhdm demo_exec demo_old) 0 = [demo_old]) as L by (vm_compute; reflexivity).
  assert (phys_to_hhdm demo_exec demo_old = fa_hhdm demo_space + demo_old / PAGE_SIZE * PAGE_SIZE) as E by (vm_compute; reflexivity). split.
  - rewrite E. apply pt_utree, demo_new.
  - rewrite L. intros i (a & Ha & <-)%occ_pos. apply list_elem_of_singleton in Ha as ->. exists 1. split; [vm_compute; reflexivity|vm_compute; discriminate].
Qed.

Lemma demo_exec_room : room demo_exec (exec_need demo_elf).
Proof.
  assert (exec_need demo_elf = length (seqZ 0x105 42)) as -> by (vm_compute; reflexivity).
  apply pmm_room; [vm_compute; split; reflexivity|vm_compute; reflexivity].
Qed.

Lemma sys_exec_correct_witness :
  exists s', sys_exec_space (Some demo_elf) true demo_root demo_old 0 demo_argv demo_exec = Some (exec_runs 0x105000 0x114000 0x400010, s') /\
    let root := phys_to_hhdm demo_exec 0x105000 in pt_inv s' root /\ args_ok root s' demo_argv /\ user_byte root s' 0x400011 = Some 0xC3.
Proof.
  assert (fst <$> sys_exec_space (Some demo_elf) true demo_root demo_old 0 demo_argv demo_exec = Some (exec_runs 0x105000 0x114000 0x400010)) as Er by (vm_compute; reflexivity).
  pose proof (sys_exec_correct demo_exec demo_root demo_old 0 demo_elf demo_argv demo_exec_ok ltac:(vm_compute; discriminate) demo_exec_inv demo_kern demo_old_ok
    ltac:(eapply room_le; [|exact demo_exec_room]; unfold exec_need; lia)) as H.
  destruct H as (res & s' & E & _ & _ & H). rewrite E in Er. cbn [fmap option_fmap option_map fst] in Er. injection Er as ->. exists s'. split; [exact E|].
  destruct H as (_ & H1 & _ & H2 & H3 & _). cbv zeta. split; [exact H1|]. split; [exact H3|].
  unfold image in H2. rewrite demo_elf_segments in H2.
  apply (H2 (Phdr 1 120 0x400010 2 5000)); [apply list_elem_of_singleton; reflexivity|unfold in_mem; cbn; lia|unfold in_file; cbn; lia].
Defined.

(** The same task with a file that is not there *)
Lemma sys_exec_gives_back_witness :
  exists s', sys_exec_space None true demo_root demo_old 0 demo_argv demo_exec = Some (exec_failed, s') /\ forall j, fa_count s' j = fa_count demo_exec j.
Proof.
  pose proof (sys_exec_gives_back demo_exec demo_root demo_old 0 None true demo_argv demo_argv_ok Logic.I demo_exec_inv demo_kern) as [_ H].
  destruct H as (s' & E & _ & Hc & _); [eapply room_le; [|exact demo_exec_room]; unfold exec_need; lia|]. exists s'. split; [exact E|exact Hc].
Defined.
