(* ===== verification/CopySpace.v ===== *)
(** Copying an address space for [fork]: [vmm_copy_hierarchy] of [src/src/mem/vmm.c].

    The child gets tables of its own; its last-level entries are those of the parent,
    after the private ones have lost their write bit on both sides, and every private
    page has one more reference. *)
From S2P Require Import Prelude Machine StringLib Pmm Frames Kmalloc Paging FreeSpace ElfSpec ExecRun.

(** *** Entries *)
Definition ro (e : Z) : Z := Z.land e (u64 (Z.lnot VMM_FLAG_WRITABLE)).
Definition private (e : Z) : bool := has VMM_FLAG_PRESENT e && negb (has PTE_FLAG_SHARED e).

(** What becomes of a parent's entry. *)
Definition shared_entry (e : Z) : Z := if private e then ro e else e.

Lemma ro_bit e k : is_u64 e -> 0 <= k -> Z.testbit (ro e) k = Z.testbit e k && negb (k =? 1).
Proof.
  intros He Hk. unfold ro, u64. rewrite Z.land_spec. change VMM_FLAG_WRITABLE with (2 ^ 1). destruct (Z.lt_ge_cases k 64) as [Hlt|Hge].
  - rewrite Z.mod_pow2_bits_low, Z.lnot_spec, Z.pow2_bits_eqb by lia. by rewrite (Z.eqb_sym 1 k).
  - rewrite <- (Z.mod_small e (2 ^ 64)) by (unfold is_u64 in He; lia). by rewrite (Z.mod_pow2_bits_high e) by lia.
Qed.

Lemma ro_range e : is_u64 e -> is_u64 (ro e).
Proof.
  intros He. unfold is_u64 in *. assert (0 <= ro e) by (unfold ro; apply Z.land_nonneg; left; lia). split; [done|].
  destruct (decide (ro e = 0)) as [->|]; [lia|]. apply Z.log2_lt_pow2; [lia|]. eapply Z.le_lt_trans; [apply Z.log2_land; [lia|unfold u64; apply Z.mod_pos_bound; lia]|].
  apply Z.min_lt_iff. left. destruct (decide (e = 0)) as [->|]; [simpl; lia|]. apply Z.log2_lt_pow2; lia.
Qed.

Lemma ro_has e k : is_u64 e -> 0 <= k -> k <> 1 -> has (2 ^ k) (ro e) = has (2 ^ k) e.
Proof. intros He Hk Hne. rewrite !has_bit, ro_bit by done. by rewrite (proj2 (Z.eqb_neq k 1)), andb_true_r. Qed.

Lemma ro_present e : is_u64 e -> has VMM_FLAG_PRESENT (ro e) = has VMM_FLAG_PRESENT e.
Proof. intros He. exact (ro_has e 0 He ltac:(lia) ltac:(lia)). Qed.
Lemma ro_shared e : is_u64 e -> has PTE_FLAG_SHARED (ro e) = has PTE_FLAG_SHARED e.
Proof. intros He. exact (ro_has e 9 He ltac:(lia) ltac:(lia)). Qed.
Lemma ro_writable e : is_u64 e -> has VMM_FLAG_WRITABLE (ro e) = false.
Proof. intros He. change VMM_FLAG_WRITABLE with (2 ^ 1). rewrite has_bit, ro_bit by (done || lia). apply andb_false_r. Qed.

Lemma ro_addr e : is_u64 e -> pte_get_addr (ro e) = pte_get_addr e.
Proof.
  intros He. unfold pte_get_addr, ro. rewrite <- !Z.land_assoc. f_equal.
Qed.

Lemma shared_range e : is_u64 e -> is_u64 (shared_entry e).
Proof. intros He. unfold shared_entry. destruct (private e); [by apply ro_range|done]. Qed.
Lemma shared_present e : is_u64 e -> has VMM_FLAG_PRESENT (shared_entry e) = has VMM_FLAG_PRESENT e.
Proof. intros He. unfold shared_entry. destruct (private e); [by apply ro_present|done]. Qed.
Lemma shared_addr e : is_u64 e -> pte_get_addr (shared_entry e) = pte_get_addr e.
Proof. intros He. unfold shared_entry. destruct (private e); [by apply ro_addr|done]. Qed.
Lemma shared_private e : is_u64 e -> private (shared_entry e) = private e.
Proof. intros He. unfold shared_entry. destruct (private e) eqn:E; [|done]. unfold private in *. by rewrite ro_present, ro_shared. Qed.
Lemma shared_twice e : is_u64 e -> shared_entry (shared_entry e) = shared_entry e.
Proof.
  intros He. unfold shared_entry at 1. rewrite shared_private by done. unfold shared_entry. destruct (private e); [|done].
  apply Z.bits_inj'. intros k Hk. rewrite !ro_bit by (done || by apply ro_range). by destruct (negb _), (Z.testbit e k).
Qed.

Lemma leaf_range `{FrameAllocatorSpec A} (s : A) root q j : is_u64 (leaf s root q j).
Proof. unfold leaf. destruct (walk s root q); [apply rd_range|unfold is_u64; lia]. Qed.

(** *** How the state develops *)
Section Evolve.
Context {A : Type} `{FS : FrameAllocatorSpec A} (P : Z).
Implicit Types (s : A) (x t c : Z) (p q : list Z).

(** Bytes of the last-level tables of the parent's user half *)
Definition leaf_byte s x : Prop := exists q t, upath q /\ length q = 3%nat /\ walk s P q = Some t /\ t <= x < t + PAGE_SIZE.

Record evolves s s' : Prop := {
  ev_inv : fa_inv s';
  ev_hhdm : fa_hhdm s' = fa_hhdm s;
  ev_private x : fa_private s' x <-> fa_private s x;
  ev_count j r : fa_count s j = Some r -> exists r', fa_count s' j = Some r' /\ r <= r';
  ev_walk q : path_ok q -> walk s' P q = walk s P q;
  ev_leaf q j : path_ok q -> length q = 3%nat -> 0 <= j < 512 ->
    leaf s' P q j = leaf s P q j \/ (upath q /\ leaf s' P q j = shared_entry (leaf s P q j));
  ev_mem x : kept s x -> ~ leaf_byte s x -> get8 (fa_mem s') x = get8 (fa_mem s) x }.

Lemma evolves_refl s : fa_inv s -> evolves s s.
Proof. intros I. split; try done; [intros j r Hj; by exists r|by left]. Qed.

Lemma evolves_kept s s' x : evolves s s' -> kept s x -> kept s' x.
Proof. intros E (i & r & Hf & Hc & Hr). destruct (ev_count _ _ E i r Hc) as (r' & Hc' & Hle). exists i, r'. by rewrite (ev_hhdm _ _ E), (ev_private _ _ E). Qed.

Lemma evolves_leaf_byte s s' x : evolves s s' -> leaf_byte s' x <-> leaf_byte s x.
Proof. intros E. split; intros (q & t & Hu & Hl & Hw & Hx); exists q, t; (rewrite (ev_walk _ _ E) in * by apply Hu); done. Qed.

Lemma evolves_trans s1 s2 s3 : evolves s1 s2 -> evolves s2 s3 -> evolves s1 s3.
Proof.
  intros E1 E2. split.
  - apply E2.
  - rewrite (ev_hhdm _ _ E2). apply E1.
  - intros x. rewrite (ev_private _ _ E2). apply E1.
  - intros j r Hj. destruct (ev_count _ _ E1 j r Hj) as (r1 & H1 & L1). destruct (ev_count _ _ E2 j r1 H1) as (r2 & H2 & L2). exists r2. split; [done|lia].
  - intros q Hq. rewrite (ev_walk _ _ E2), (ev_walk _ _ E1) by done. done.
  - intros q j Hq Hl Hj. destruct (ev_leaf _ _ E1 q j Hq Hl Hj) as [H1|[Hu H1]], (ev_leaf _ _ E2 q j Hq Hl Hj) as [H2|[Hu' H2]]; rewrite H2, H1; [by left|by right|by right|right; split; [done|]].
    apply shared_twice, leaf_range.
  - intros x Hx Hn. rewrite (ev_mem _ _ E2); [by apply E1|by eapply evolves_kept|]. by rewrite (evolves_leaf_byte s1 s2).
Qed.

Lemma evolves_inv s s' : pt_inv s P -> evolves s s' -> pt_inv s' P.
Proof.
  intros Hpt E. split; [apply E|..].
  - intros q u Hq. rewrite (ev_walk _ _ E), (ev_hhdm _ _ E) by done. intros Hu. destruct (pt_frame _ _ Hpt q u Hq Hu) as (g & r & -> & Hc & Hr).
    destruct (ev_count _ _ E g r Hc) as (r' & Hc' & Hle). exists g, r'. split; [done|]. split; [done|]. by apply (open_frame_eq s); [apply E..|].
  - intros q q' u Hq Hq'. rewrite !(ev_walk _ _ E) by done. by apply (pt_inj _ _ Hpt).
Qed.

(** Nothing in use is touched. *)
Lemma kept_evolves s s' : pt_inv s P -> fa_inv s' -> fa_hhdm s' = fa_hhdm s -> (forall x, fa_private s' x <-> fa_private s x) -> (forall x, kept s x -> get8 (fa_mem s') x = get8 (fa_mem s) x) ->
  (forall j r, fa_count s j = Some r -> exists r', fa_count s' j = Some r' /\ r <= r') -> evolves s s'.
Proof.
  intros Hpt I Hh Hpr Hm Hc. destruct (tree_kept s s' P Hpt I Hh Hpr Hm) as (_ & Hw & _).
  { intros p j Hp Hw. destruct (pt_frame _ _ Hpt p _ Hp Hw) as (g & r & E & Hg & Hr). assert (g = j) as -> by (unfold PAGE_SIZE in *; lia). destruct (Hc j r Hg) as (r' & H1 & _). by exists r'. }
  split; [done|done|done|done|done| |auto]. intros q j Hq Hl Hj. left. unfold leaf. rewrite Hw by done. destruct (walk s P q) as [u|] eqn:Hu; [|done]. apply rd_ext. intros x Hx.
  apply Hm, (table_byte_kept s P); [done|]. exists q, u. unfold PAGE_SIZE. split_and!; (done || lia).
Qed.

Lemma undisturbed_evolves s s' : pt_inv s P -> undisturbed s s' -> evolves s s'.
Proof. intros Hpt U. apply kept_evolves; [done|apply U|apply U|apply U|apply U|]. intros j r Hj. exists r. split; [by apply U|lia]. Qed.

(** Whatever leaves the bytes in use alone may follow. *)
Lemma quiet_evolves s0 s s' : pt_inv s0 P -> evolves s0 s -> fa_quiet s s' -> (forall j r, fa_count s0 j = Some r -> exists r', fa_count s' j = Some r' /\ r <= r') -> evolves s0 s'.
Proof.
  intros Hpt E (I & Hh & Hpr & Hm) Hc. assert (forall q u j, path_ok q -> walk s P q = Some u -> 0 <= j < 512 -> rd s' u j = rd s u j) as Hrd.
  { intros q u j Hq Hu Hj. apply rd_ext. intros x Hx. apply Hm, kept_not_private. apply (table_byte_kept s P); [by apply (evolves_inv s0)|]. exists q, u. unfold PAGE_SIZE. split_and!; (done || lia). }
  assert (forall q, path_ok q -> walk s' P q = walk s P q) as Hw.
  { intros q. induction q as [|j q IH] using rev_ind; intros Hq; [done|]. destruct (path_ok_snoc _ _ Hq) as (Hq' & Hj & _).
    rewrite !walk_snoc, IH by done. destruct (walk s P q) as [u|] eqn:Hu; [|done]. unfold child, phys_to_hhdm. by rewrite (Hrd q u j), Hh by done. }
  split; [done|rewrite Hh; apply E|intros x; rewrite Hpr; apply E|done|intros q Hq; rewrite Hw by done; by apply E|..].
  - intros q j Hq Hl Hj. assert (leaf s' P q j = leaf s P q j) as ->; [|by apply E]. unfold leaf. rewrite Hw by done. destruct (walk s P q) as [u|] eqn:Hu; [by apply (Hrd q)|done].
  - intros x Hx Hn. rewrite Hm by (apply kept_not_private; by eapply evolves_kept). by apply E.
Qed.

(** A frame that was free at the start may be filled further. *)
Lemma evolves_fill s0 s f m : pt_inv s0 P -> evolves s0 s -> fa_count s0 f = None -> fa_count s f = Some 1 ->
  (forall x, ~ in_frame (fa_hhdm s) f x -> get8 m x = get8 (fa_mem s) x) ->
  let s' := fa_set_mem s m in evolves s0 s' /\ (forall j, fa_count s' j = fa_count s j) /\ fa_hhdm s' = fa_hhdm s /\
    (forall q u j, path_ok q -> walk s P q = Some u -> 0 <= j < 512 -> rd s' u j = rd s u j) /\ (forall x, fa_private s' x <-> fa_private s x).
Proof.
  intros Hpt E Hc0 Hc Hm s'. destruct (fa_set_mem_ok s m (ev_inv _ _ E)) as (I' & Hh' & Hc' & Hp').
  { intros x Hx. apply Hm. intros Hf. apply (frame_not_private s f x (ev_inv _ _ E) Hf); [by rewrite Hc|done]. }
  fold s' in I', Hh', Hc', Hp'. assert (fa_mem s' = m) as Em by apply fa_mem_set. clearbody s'.
  assert (forall x, kept s0 x -> get8 m x = get8 (fa_mem s) x) as Hheld.
  { intros x (i & r & Hf & Hci & _). apply Hm. rewrite (ev_hhdm _ _ E). intros Hff. assert (i = f) as -> by (unfold in_frame, PAGE_SIZE in *; lia). congruence. }
  assert (forall q u j, path_ok q -> walk s P q = Some u -> 0 <= j < 512 -> rd s' u j = rd s u j) as Hrd.
  { intros q u j Hq Hu Hj. apply rd_ext. intros x Hx. rewrite Em. apply Hheld, (table_byte_kept s0 P); [done|]. exists q, u. rewrite <- (ev_walk _ _ E) by done. unfold PAGE_SIZE. split_and!; (done || lia). }
  assert (forall q, path_ok q -> walk s' P q = walk s P q) as Hw.
  { intros q. induction q as [|j q IH] using rev_ind; intros Hq; [done|]. destruct (path_ok_snoc _ _ Hq) as (Hq' & Hj & _).
    rewrite !walk_snoc, IH by done. destruct (walk s P q) as [u|] eqn:Hu; [|done]. unfold child, phys_to_hhdm. by rewrite (Hrd q u j), Hh' by done. }
  split; [|done]. split.
  - done.
  - rewrite Hh'. apply E.
  - intros x. rewrite Hp'. apply E.
  - intros j r Hj. rewrite Hc'. by apply E.
  - intros q Hq. rewrite Hw by done. by apply E.
  - intros q j Hq Hl Hj. assert (leaf s' P q j = leaf s P q j) as ->; [|by apply E]. unfold leaf. rewrite Hw by done. destruct (walk s P q) as [u|] eqn:Hu; [by apply (Hrd q)|done].
  - intros x Hx Hn. rewrite Em, Hheld by done. by apply E.
Qed.

(** Entries of tables above the last level do not change. *)
Lemma evolves_rd s s' p t j : pt_inv s P -> evolves s s' -> path_ok p -> (length p < 3)%nat -> walk s P p = Some t -> 0 <= j < 512 -> rd s' t j = rd s t j.
Proof.
  intros Hpt E Hp Hl Hw Hj. apply rd_ext. intros x Hx. apply (ev_mem _ _ E).
  - apply (table_byte_kept s P); [done|]. exists p, t. unfold PAGE_SIZE. split_and!; (done || lia).
  - intros (q & u & [Hq _] & Hlq & Hu & Hxu). assert (q <> p) as Hne by (intros ->; lia). pose proof (tables_apart _ _ _ _ _ _ Hpt Hq Hp Hu Hw Hne). unfold PAGE_SIZE in *. lia.
Qed.

(** One entry of a last-level table loses its write bit. *)
Lemma share_entry_evolves s p t i : pt_inv s P -> upath p -> length p = 3%nat -> walk s P p = Some t -> 0 <= i < 512 ->
  let s' := wr s t i (shared_entry (rd s t i)) in
  evolves s s' /\ (forall j, fa_count s' j = fa_count s j) /\ (forall j, 0 <= j < 512 -> rd s' t j = if decide (j = i) then shared_entry (rd s t i) else rd s t j) /\
  (forall q j, path_ok q -> length q = 3%nat -> 0 <= j < 512 -> q <> p -> leaf s' P q j = leaf s P q j) /\
  (forall x, ~ t <= x < t + PAGE_SIZE -> get8 (fa_mem s') x = get8 (fa_mem s) x).
Proof.
  intros Hpt Hup Hl Hw Hi s'. pose proof (proj1 Hup) as Hp. pose proof (rd_range s t i) as He.
  destruct (wr_pte_update s P p t i (shared_entry (rd s t i)) Hpt Hp Hl Hw Hi (shared_range _ He)) as [L Hc].
  assert (forall x, ~ t <= x < t + PAGE_SIZE -> get8 (fa_mem s') x = get8 (fa_mem s) x) as Hm.
  { intros x Hx. unfold s', wr. rewrite fa_mem_set. apply get8_store_out. unfold PAGE_SIZE in *. lia. }
  change (wr_pte s (t + 8 * i) (shared_entry (rd s t i))) with s' in L, Hc. clearbody s'.
  assert (forall j, leaf s P p j = rd s t j) as El by (intros j; unfold leaf; by rewrite Hw).
  assert (forall j, leaf s' P p j = rd s' t j) as El' by (intros j; unfold leaf; by rewrite (lu_walk _ _ _ _ _ _ L), Hw).
  split; [split|split; [done|split; [|split; [|done]]]].
  - apply L.
  - apply L.
  - apply L.
  - intros j r Hj. exists r. rewrite Hc. split; [done|lia].
  - apply L.
  - intros q j Hq Hlq Hj. rewrite (lu_leaf _ _ _ _ _ _ L) by done. case_bool_decide as D; [destruct D as [-> ->]; right|by left]. split; [done|]. by rewrite El.
  - intros x Hx Hn. apply Hm. intros Ht. apply Hn. by exists p, t.
  - intros j Hj. rewrite <- El', (lu_leaf _ _ _ _ _ _ L) by done. destruct (decide (j = i)) as [->|Hne]; [by rewrite bool_decide_eq_true_2|]. rewrite bool_decide_eq_false_2 by (intros [_ ?]; done). apply El.
  - intros q j Hq Hlq Hj Hne. rewrite (lu_leaf _ _ _ _ _ _ L) by done. by rewrite bool_decide_eq_false_2 by (intros [? _]; done).
Qed.
End Evolve.

(** *** The pages of a tree *)
Section Pages.
Context {A : Type} `{FS : FrameAllocatorSpec A}.
Implicit Types (s : A) (p : list Z).

(** The private pages below a table, in the order they are shared. *)
Fixpoint leaf_pages (n : nat) s (table : Z) : list Z :=
  match n with
  | O => []
  | S n' =>
      seqZ 0 (limit n) ≫= fun i =>
        let e := rd s table i in
        if (n =? 1)%nat then if private e then [pte_get_addr e] else []
        else if has VMM_FLAG_PRESENT e then leaf_pages n' s (phys_to_hhdm s (pte_get_addr e)) else []
  end.

(** The tables down to the last level, the table itself included. *)
Fixpoint tables (n : nat) s (table : Z) : nat :=
  match n with
  | O => O
  | S n' =>
      if (n =? 1)%nat then 1%nat
      else S (sum_list ((fun i => let e := rd s table i in
                                  if has VMM_FLAG_PRESENT e then tables n' s (phys_to_hhdm s (pte_get_addr e)) else O) <$> seqZ 0 (limit n)))
  end.

(** Every page can take the references. *)
Definition incable s l : Prop := forall j, 0 < occ j l -> exists r, fa_count s j = Some r /\ 0 < r /\ r + occ j l < 2 ^ 32.

Definition bumped (c : option Z) (k : Z) : option Z := match c with Some r => Some (r + k) | None => None end.

Lemma bumped_0 c : bumped c 0 = c.
Proof. destruct c; [|done]. cbn. f_equal. lia. Qed.
Lemma bumped_add c j k : bumped (bumped c j) k = bumped c (j + k).
Proof. destruct c; [|done]. cbn. f_equal. lia. Qed.

Lemma incable_app s l l' : incable s (l ++ l') -> incable s l /\ incable s l'.
Proof.
  intros H. split; intros j Hj; destruct (H j) as (r & H1 & H2 & H3); rewrite occ_app in *; pose proof (occ_nonneg j l); pose proof (occ_nonneg j l'); try lia; exists r; repeat split; (done || lia).
Qed.

Lemma incable_fresh s l j : incable s l -> fa_count s j = None -> occ j l = 0.
Proof.
  intros H Hj. pose proof (occ_nonneg j l). destruct (decide (0 < occ j l)) as [D|D]; [|lia]. destruct (H j D) as (r & Hc & _). congruence.
Qed.

Lemma limit_path p n i : (length p + S n = 4)%nat -> (1 <= n)%nat -> path_ok p -> 0 <= i < limit (S n) -> path_ok (p ++ [i]).
Proof.
  intros Hl Hn Hp Hi. pose proof (limit_range (S n)). apply upath_snoc; [by apply path_upath|lia|lia|]. intros ->. cbn in Hl. unfold limit in Hi. replace (S n) with 4%nat in Hi by lia. cbn in Hi. lia.
Qed.

Lemma tables_evolves n : forall P s s' p t, pt_inv s P -> evolves P s s' -> (length p + n = 4)%nat -> path_ok p -> walk s P p = Some t -> tables n s' t = tables n s t.
Proof.
  induction n as [|n IH]; intros P s s' p t Hpt E Hl Hp Hw; [done|]. cbn [tables]. destruct (S n =? 1)%nat eqn:E1; [done|]. apply Nat.eqb_neq in E1.
  do 2 f_equal. apply list_fmap_ext. intros k i [-> Hk]%lookup_seqZ. rewrite Z.add_0_l. set (j := Z.of_nat k) in *. pose proof (limit_range (S n)). cbv zeta.
  rewrite (evolves_rd P s s' p t j Hpt E Hp ltac:(lia) Hw ltac:(lia)). destruct (has VMM_FLAG_PRESENT (rd s t j)) eqn:Ep; [|done].
  assert (phys_to_hhdm s' (pte_get_addr (rd s t j)) = phys_to_hhdm s (pte_get_addr (rd s t j))) as -> by (unfold phys_to_hhdm; by rewrite (ev_hhdm _ _ _ E)).
  apply (IH P s s' (p ++ [j])); [done|done|rewrite length_app; cbn; lia| |rewrite walk_snoc, Hw; unfold child; by rewrite Ep]. apply (limit_path p n); (done || lia).
Qed.

Lemma leaf_pages_evolves n : forall P s s' p t, pt_inv s P -> evolves P s s' -> (length p + n = 4)%nat -> (1 <= n)%nat -> path_ok p -> walk s P p = Some t -> leaf_pages n s' t = leaf_pages n s t.
Proof.
  induction n as [|n IH]; intros P s s' p t Hpt E Hl H1 Hp Hw; [lia|]. cbn [leaf_pages]. apply bind_same. intros i Hi%elem_of_seqZ.
  assert (0 <= i < 512) as Hi' by (unfold limit in Hi; destruct (S n =? 4)%nat; lia). cbv zeta. destruct (S n =? 1)%nat eqn:E1.
  - apply Nat.eqb_eq in E1. assert (leaf s P p i = rd s t i) as El by (unfold leaf; by rewrite Hw). assert (leaf s' P p i = rd s' t i) as El' by (unfold leaf; by rewrite (ev_walk _ _ _ E), Hw).
    rewrite <- El, <- El'. destruct (ev_leaf _ _ _ E p i Hp ltac:(lia) Hi') as [->|[_ ->]]; [done|]. by rewrite shared_private, shared_addr by apply leaf_range.
  - apply Nat.eqb_neq in E1. rewrite (evolves_rd P s s' p t i Hpt E Hp ltac:(lia) Hw Hi'). destruct (has VMM_FLAG_PRESENT (rd s t i)) eqn:Ep; [|done].
    assert (phys_to_hhdm s' (pte_get_addr (rd s t i)) = phys_to_hhdm s (pte_get_addr (rd s t i))) as -> by (unfold phys_to_hhdm; by rewrite (ev_hhdm _ _ _ E)).
    apply (IH P s s' (p ++ [i])); [done|done|rewrite length_app; cbn; lia|lia| |].
    + apply (limit_path p n); (done || lia).
    + rewrite walk_snoc, Hw. unfold child. by rewrite Ep.
Qed.
End Pages.

(** *** Writing the child *)
Section Child.
Context {A : Type} `{FS : FrameAllocatorSpec A} (P : Z).
Implicit Types (s : A) (p : list Z).

Lemma child_write s0 s fc i e : pt_inv s0 P -> evolves P s0 s -> fa_count s0 fc = None -> fa_count s fc = Some 1 -> 0 <= i < 512 -> is_u64 e ->
  let c := fa_hhdm s + fc * PAGE_SIZE in let s' := wr s c i e in
  evolves P s0 s' /\ (forall j, fa_count s' j = fa_count s j) /\ fa_hhdm s' = fa_hhdm s /\
  (forall j, 0 <= j < 512 -> rd s' c j = if decide (j = i) then e else rd s c j) /\
  (forall q u j, path_ok q -> walk s P q = Some u -> 0 <= j < 512 -> rd s' u j = rd s u j) /\
  (forall x, ~ in_frame (fa_hhdm s) fc x -> get8 (fa_mem s') x = get8 (fa_mem s) x).
Proof.
  intros Hpt E Hc0 Hc Hi He c s'. unfold s', wr.
  destruct (evolves_fill P s0 s fc (store64 (fa_mem s) (c + 8 * i) e) Hpt E Hc0 Hc) as (E' & Hc' & Hh' & Hrd & _).
  { intros x Hx. apply get8_store_out. unfold in_frame, c, PAGE_SIZE in *. lia. }
  split; [done|]. split; [done|]. split; [done|]. split; [|split; [done|]].
  - intros j Hj. unfold rd. rewrite fa_mem_set. case_decide as D; [subst j; by apply load64_store64|]. unfold load64, store64. apply load_store_ne. lia.
  - intros x Hx. rewrite fa_mem_set. apply get8_store_out. unfold in_frame, c, PAGE_SIZE in *. lia.
Qed.

(** One more reference to a page. *)
Lemma inc_evolves s addr r : pt_inv s P -> fa_count s (addr / PAGE_SIZE) = Some r -> 0 < r -> r + 1 < 2 ^ 32 ->
  let s' := fa_inc s addr in
  evolves P s s' /\ (forall j, fa_count s' j = bumped (fa_count s j) (occ j [addr])) /\ (forall x, kept s x -> get8 (fa_mem s') x = get8 (fa_mem s) x).
Proof.
  intros Hpt Hc Hr Hlt s'. destruct (fa_inc_ok s addr r (pt_fa _ _ Hpt) Hc Hr Hlt) as [(I & Hh & Hpr & M) Hcnt]. fold s' in I, Hh, Hpr, M, Hcnt.
  assert (forall j, fa_count s' j = bumped (fa_count s j) (occ j [addr])) as Hb.
  { intros j. rewrite Hcnt, occ_cons. change (occ j []) with 0. destruct (Z.eqb_spec (addr / PAGE_SIZE) j) as [<-|Hne]; [rewrite decide_True, Hc by done; cbn; f_equal; lia|]. by rewrite decide_False, bumped_0. }
  assert (forall x, kept s x -> get8 (fa_mem s') x = get8 (fa_mem s) x) as Hm by (intros x Hx; by apply M, kept_not_private).
  split; [|done]. apply kept_evolves; [done|done|done|done|done|]. intros j r' Hj. rewrite Hb, Hj. cbn. eexists. split; [reflexivity|]. pose proof (occ_nonneg j [addr]). lia.
Qed.
End Child.

(** *** The last level *)
Section Leaf.
Context {A : Type} `{FS : FrameAllocatorSpec A} (P : Z) (s0 : A) (p : list Z) (t fc : Z).
Context (Hpt : pt_inv s0 P) (Hup : upath p) (Hlp : length p = 3%nat) (Hw : walk s0 P p = Some t) (Hfc : fa_count s0 fc = None).
Context (Hinc : incable s0 (leaf_pages 1 s0 t)).
Let c := fa_hhdm s0 + fc * PAGE_SIZE.
Let e0 (k : Z) := rd s0 t k.
Let pages (k : Z) := if private (e0 k) then [pte_get_addr (e0 k)] else [].

Record leaf_upto (i : Z) (s : A) : Prop := {
  lf_ev : evolves P s0 s;
  lf_count j : fa_count s j = if decide (j = fc) then Some 1 else bumped (fa_count s0 j) (occ j (seqZ 0 i ≫= pages));
  lf_child k : 0 <= k < 512 -> rd s c k = if decide (k < i) then (if has VMM_FLAG_PRESENT (e0 k) then shared_entry (e0 k) else 0) else 0;
  lf_parent k : 0 <= k < 512 -> rd s t k = if decide (k < i) then shared_entry (e0 k) else e0 k;
  lf_other q j : path_ok q -> length q = 3%nat -> 0 <= j < 512 -> q <> p -> leaf s P q j = leaf s0 P q j }.

Lemma leaf_apart : c + PAGE_SIZE <= t \/ t + PAGE_SIZE <= c.
Proof.
  destruct (pt_frame _ _ Hpt p t (proj1 Hup) Hw) as (g & r & -> & Hg & _). assert (g <> fc) by congruence. unfold c, PAGE_SIZE. lia.
Qed.

Lemma rd_apart s s' (a : Z) k : (forall x, ~ a <= x < a + PAGE_SIZE -> get8 (fa_mem s') x = get8 (fa_mem s) x) -> forall b, b + PAGE_SIZE <= a \/ a + PAGE_SIZE <= b -> 0 <= k < 512 -> rd s' b k = rd s b k.
Proof. intros Hm b Hb Hk. apply rd_ext. intros x Hx. apply Hm. unfold PAGE_SIZE in *. lia. Qed.

Lemma pages_incable i : 0 <= i < 512 -> private (e0 i) = true -> exists r, fa_count s0 (pte_get_addr (e0 i) / PAGE_SIZE) = Some r /\ 0 < r /\
  r + occ (pte_get_addr (e0 i) / PAGE_SIZE) (seqZ 0 i ≫= pages) + 1 < 2 ^ 32.
Proof.
  intros Hi Hpr. assert (leaf_pages 1 s0 t = (seqZ 0 (i + 1) ≫= pages) ++ (seqZ (i + 1) (512 - (i + 1)) ≫= pages)) as El.
  { cbn [leaf_pages]. change (limit 1) with 512. replace 512 with ((i + 1) + (512 - (i + 1))) at 1 by lia. rewrite seqZ_app, bind_app by lia. by rewrite Z.add_0_l. }
  rewrite El in Hinc. destruct (incable_app _ _ _ Hinc) as [Hi1 _]. rewrite seqZ_snoc, bind_app in Hi1 by lia. cbn [mbind list_bind] in Hi1. rewrite app_nil_r in Hi1. unfold pages at 2 in Hi1. rewrite Hpr in Hi1.
  destruct (Hi1 (pte_get_addr (e0 i) / PAGE_SIZE)) as (r & H1 & H2 & H3).
  - rewrite occ_app, occ_cons, decide_True by done. pose proof (occ_nonneg (pte_get_addr (e0 i) / PAGE_SIZE) (seqZ 0 i ≫= pages)). change (occ _ []) with 0. lia.
  - exists r. split; [done|]. split; [done|]. rewrite occ_app, occ_cons, decide_True in H3 by done. change (occ _ []) with 0 in H3. lia.
Qed.

Lemma pages_fresh l : incable s0 l -> occ fc l = 0.
Proof. intros H. by apply (incable_fresh s0). Qed.

Lemma leaf_next i s s' : 0 <= i < 512 -> leaf_upto i s -> evolves P s0 s' ->
  (forall j, fa_count s' j = bumped (fa_count s j) (occ j (pages i))) ->
  (forall k, 0 <= k < 512 -> rd s' c k = if decide (k = i) then (if has VMM_FLAG_PRESENT (e0 i) then shared_entry (e0 i) else 0) else rd s c k) ->
  (forall k, 0 <= k < 512 -> rd s' t k = if decide (k = i) then shared_entry (e0 i) else rd s t k) ->
  (forall q j, path_ok q -> length q = 3%nat -> 0 <= j < 512 -> q <> p -> leaf s' P q j = leaf s P q j) -> leaf_upto (i + 1) s'.
Proof.
  intros Hi [E C Ch Pa Ot] E' C' Ch' Pa' Ot'. split; [done|..].
  - intros j. rewrite C', C. rewrite seqZ_snoc, bind_app, occ_app by lia. cbn [mbind list_bind]. rewrite app_nil_r. case_decide as D; [|by rewrite bumped_add].
    subst j. unfold pages. destruct (private (e0 i)) eqn:Hp; [|by rewrite bumped_0]. destruct (pages_incable i Hi Hp) as (r & Hr & _).
    rewrite occ_cons, decide_False by (intros Eq; congruence). by rewrite bumped_0.
  - intros k Hk. rewrite Ch', Ch by done. destruct (decide (k = i)) as [->|Hne]; [by rewrite decide_True by lia|]. repeat case_decide; (done || lia).
  - intros k Hk. rewrite Pa', Pa by done. destruct (decide (k = i)) as [->|Hne]; [by rewrite decide_True by lia|]. repeat case_decide; (done || lia).
  - intros q j Hq Hl Hj Hne. rewrite Ot' by done. by apply Ot.
Qed.

Lemma leaf_step i s : 0 <= i < 512 -> leaf_upto i s -> leaf_upto (i + 1) (copy_leaf t c i s).
Proof.
  intros Hi L. pose proof L as [E C Ch Pa Ot]. pose proof leaf_apart as Hap. pose proof (evolves_inv P s0 s Hpt E) as Hpts.
  assert (rd s t i = e0 i) as Ei by (rewrite Pa by done; by rewrite decide_False by lia). pose proof (rd_range s0 t i : is_u64 (e0 i)) as He.
  assert (fa_count s fc = Some 1) as Hc1 by (rewrite C; by rewrite decide_True).
  assert (c = fa_hhdm s + fc * PAGE_SIZE) as Ec by by rewrite (ev_hhdm _ _ _ E).
  assert (walk s P p = Some t) as Hws by by rewrite (ev_walk _ _ _ E) by apply Hup.
  unfold copy_leaf. rewrite Ei. replace (Z.land (e0 i) VMM_FLAG_PRESENT =? 0) with (negb (has VMM_FLAG_PRESENT (e0 i))) by (unfold has; apply negb_involutive).
  replace (Z.land (e0 i) PTE_FLAG_SHARED =? 0) with (negb (has PTE_FLAG_SHARED (e0 i))) by (unfold has; apply negb_involutive).
  destruct (has VMM_FLAG_PRESENT (e0 i)) eqn:Epr; cbn [negb].
  2: { apply (leaf_next i s s Hi L E).
    - intros j. unfold pages, private. rewrite Epr. by rewrite bumped_0.
    - intros k Hk. rewrite Epr. case_decide as D; [subst k; rewrite Ch by done; by rewrite decide_False by lia|done].
    - intros k Hk. case_decide as D; [subst k; rewrite Ei; unfold shared_entry, private; by rewrite Epr|done].
    - done. }
  destruct (has PTE_FLAG_SHARED (e0 i)) eqn:Esh; cbn [negb].
  - assert (private (e0 i) = false) as Hpr by (unfold private; by rewrite Esh, andb_false_r). rewrite Ei.
    destruct (child_write P s0 s fc i (e0 i) Hpt E Hfc Hc1 Hi He) as (E' & C' & _ & Ch' & Rd' & _). rewrite <- Ec in E', C', Ch', Rd'.
    apply (leaf_next i s _ Hi L E').
    + intros j. rewrite C'. unfold pages. by rewrite Hpr, bumped_0.
    + intros k Hk. rewrite Ch' by done. case_decide; [|done]. by rewrite Epr; unfold shared_entry; rewrite Hpr.
    + intros k Hk. rewrite (Rd' p t k (proj1 Hup) Hws Hk). case_decide as D; [subst k; rewrite Ei; unfold shared_entry; by rewrite Hpr|done].
    + intros q j Hq Hl Hj _. unfold leaf. rewrite (ev_walk _ _ _ E'), (ev_walk _ _ _ E) by done. destruct (walk s0 P q) as [u|] eqn:Hu; [|done]. apply (Rd' q u j Hq); [|done]. by rewrite (ev_walk _ _ _ E).
  - assert (private (e0 i) = true) as Hpr by (unfold private; by rewrite Epr, Esh). assert (shared_entry (e0 i) = ro (e0 i)) as Eso by (unfold shared_entry; by rewrite Hpr).
    destruct (share_entry_evolves P s p t i Hpts Hup Hlp Hws Hi) as (E1 & C1 & R1 & O1 & M1). rewrite Ei, Eso in E1, C1, R1, O1, M1. fold (ro (e0 i)).
    set (s1 := wr s t i (ro (e0 i))) in *. clearbody s1. rewrite (R1 i Hi), decide_True by done.
    assert (evolves P s0 s1) as E01 by by eapply evolves_trans. assert (c = fa_hhdm s1 + fc * PAGE_SIZE) as Ec1 by by rewrite (ev_hhdm _ _ _ E01).
    destruct (child_write P s0 s1 fc i (ro (e0 i)) Hpt E01 Hfc ltac:(by rewrite C1) Hi (ro_range _ He)) as (E2 & C2 & H2 & Ch2 & Rd2 & _). rewrite <- Ec1 in E2, C2, H2, Ch2, Rd2.
    set (s2 := wr s1 c i (ro (e0 i))) in *. clearbody s2. destruct (pages_incable i Hi Hpr) as (r & Hr & Hr0 & Hrb). set (a := pte_get_addr (e0 i)) in *.
    assert (fa_count s2 (a / PAGE_SIZE) = Some (r + occ (a / PAGE_SIZE) (seqZ 0 i ≫= pages))) as Hra.
    { rewrite C2, C1, C. rewrite decide_False by (intros Eq; congruence). by rewrite Hr. }
    pose proof (occ_nonneg (a / PAGE_SIZE) (seqZ 0 i ≫= pages)). destruct (inc_evolves P s2 a _ (evolves_inv P s0 s2 Hpt E2) Hra) as (E3 & C3 & M3); [lia|lia|].
    set (s3 := fa_inc s2 a) in *. clearbody s3.
    assert (forall b k, (b = c \/ b = t) -> 0 <= k < 512 -> rd s3 b k = rd s2 b k) as R3.
    { intros b k Hb Hk. apply rd_ext. intros x Hx. apply M3. destruct Hb as [-> | ->].
      - apply (count_kept s2 fc 1); [apply E2|unfold in_frame; rewrite H2; unfold PAGE_SIZE in *; lia|by rewrite C2, C1|lia].
      - apply (table_byte_kept s2 P); [by apply (evolves_inv P s0)|]. exists p, t. split; [apply Hup|]. split; [by rewrite (ev_walk _ _ _ E2) by apply Hup|]. unfold PAGE_SIZE. lia. }
    apply (leaf_next i s s3 Hi L); [by eapply evolves_trans| | | |].
    + intros j. rewrite C3, C2, C1. unfold pages. by rewrite Hpr.
    + intros k Hk. rewrite R3, Ch2 by (done || by left). case_decide as D; [by rewrite Epr, Eso|]. apply (rd_apart s s1 t); [done|lia|done].
    + intros k Hk. rewrite R3 by (done || by right). rewrite (Rd2 p t k (proj1 Hup)); [|by rewrite (ev_walk _ _ _ E01) by apply Hup|done]. rewrite R1 by done. by rewrite Eso.
    + intros q j Hq Hl Hj Hne. rewrite <- (O1 q j Hq Hl Hj Hne). assert (walk s2 P q = walk s1 P q) as Hw21 by (by rewrite (ev_walk _ _ _ E2), (ev_walk _ _ _ E01)).
      transitivity (leaf s2 P q j).
      * unfold leaf. rewrite (ev_walk _ _ _ E3) by done. destruct (walk s2 P q) as [u|] eqn:Hu; [|done]. apply rd_ext. intros x Hx. apply M3, (table_byte_kept s2 P); [by apply (evolves_inv P s0)|].
        exists q, u. unfold PAGE_SIZE. split_and!; (done || lia).
      * unfold leaf. rewrite Hw21. destruct (walk s1 P q) as [u|] eqn:Hu; [|done]. by apply (Rd2 q).
Qed.
End Leaf.

(** *** The copy of a tree *)
Lemma flags_entry ck e : 0 < ck < 2 ^ 35 - 1 -> is_u64 (Z.lor (ck * PAGE_SIZE) (pte_get_flags e)) /\
  pte_get_addr (Z.lor (ck * PAGE_SIZE) (pte_get_flags e)) = ck * PAGE_SIZE /\ pte_get_flags (Z.lor (ck * PAGE_SIZE) (pte_get_flags e)) = pte_get_flags e.
Proof.
  intros Hc. assert (is_u64 (ck * PAGE_SIZE) /\ ck * PAGE_SIZE mod PAGE_SIZE = 0) as [Hu Hm] by (split; [unfold is_u64, PAGE_SIZE; lia|by apply Z.mod_mul]).
  assert (0 <= pte_get_flags e < PAGE_SIZE) as Hf by (rewrite pte_get_flags_eq; by apply Z.mod_pos_bound). destruct (pte_make _ _ Hu Hm Hf) as (-> & H1 & H2 & H3). done.
Qed.

Lemma flags_present ck e : has VMM_FLAG_PRESENT e = true -> has VMM_FLAG_PRESENT (Z.lor (ck * PAGE_SIZE) (pte_get_flags e)) = true.
Proof.
  intros Hp. change VMM_FLAG_PRESENT with (2 ^ 0) in *. rewrite has_lor by lia. rewrite !has_bit in * by lia. unfold pte_get_flags. rewrite Z.land_spec, Hp. by rewrite orb_true_r.
Qed.

Section Copied.
Context {A : Type} `{FS : FrameAllocatorSpec A}.
Implicit Types (s : A) (p q : list Z).

Definition below s (t i : Z) : Z := phys_to_hhdm s (pte_get_addr (rd s t i)).

Lemma leaf_pages_inner n s t : (1 <= n)%nat ->
  leaf_pages (S n) s t = seqZ 0 (limit (S n)) ≫= fun k => if has VMM_FLAG_PRESENT (rd s t k) then leaf_pages n s (below s t k) else [].
Proof. intros Hn. cbn [leaf_pages]. assert ((S n =? 1)%nat = false) as -> by (apply Nat.eqb_neq; lia). done. Qed.

(** The table [c] and those below it, in the frames [Fr], copy the table [t]. *)
Fixpoint copied (n : nat) s (t c : Z) (Fr : list Z) : Prop :=
  match n with
  | O => False
  | S n' => exists fc, c = fa_hhdm s + fc * PAGE_SIZE /\
      if (n =? 1)%nat then Fr = [fc] /\ forall i, 0 <= i < 512 -> rd s c i = if has VMM_FLAG_PRESENT (rd s t i) then rd s t i else 0
      else exists G : Z -> list Z, Fr = fc :: (seqZ 0 (limit n) ≫= G) /\ forall i, 0 <= i < limit n ->
        if has VMM_FLAG_PRESENT (rd s t i)
        then exists ci, 0 < ci < 2 ^ 35 - 1 /\ rd s c i = Z.lor (ci * PAGE_SIZE) (pte_get_flags (rd s t i)) /\ copied n' s (below s t i) (fa_hhdm s + ci * PAGE_SIZE) (G i)
        else rd s c i = 0 /\ G i = []
  end.

Lemma prefix_snoc_inj (p q : list Z) i k : (p ++ [i]) `prefix_of` q -> (p ++ [k]) `prefix_of` q -> i = k.
Proof. intros [r ->] [r' E]. rewrite <- !app_assoc in E. apply app_inv_head in E. cbn in E. by injection E. Qed.

Lemma prefix_snoc (p q : list Z) i : (p ++ [i]) `prefix_of` q -> p `prefix_of` q.
Proof. intros [k ->]. exists (i :: k). by rewrite <- app_assoc. Qed.

Lemma copied_inner n s t c Fr : (1 <= n)%nat -> copied (S n) s t c Fr <-> exists fc, c = fa_hhdm s + fc * PAGE_SIZE /\
  exists G : Z -> list Z, Fr = fc :: (seqZ 0 (limit (S n)) ≫= G) /\ forall i, 0 <= i < limit (S n) ->
    if has VMM_FLAG_PRESENT (rd s t i)
    then exists ci, 0 < ci < 2 ^ 35 - 1 /\ rd s c i = Z.lor (ci * PAGE_SIZE) (pte_get_flags (rd s t i)) /\ copied n s (below s t i) (fa_hhdm s + ci * PAGE_SIZE) (G i)
    else rd s c i = 0 /\ G i = [].
Proof. intros Hn. cbn [copied]. assert ((S n =? 1)%nat = false) as -> by (apply Nat.eqb_neq; lia). done. Qed.

(** It stays a copy when neither side is written. *)
Lemma copied_kept n : forall P s s' p t c Fr, copied n s t c Fr -> (length p + n = 4)%nat -> path_ok p -> walk s P p = Some t -> fa_hhdm s' = fa_hhdm s ->
  (forall q u j, path_ok q -> p `prefix_of` q -> walk s P q = Some u -> 0 <= j < 512 -> rd s' u j = rd s u j) ->
  (forall f x, f ∈ Fr -> in_frame (fa_hhdm s) f x -> get8 (fa_mem s') x = get8 (fa_mem s) x) -> copied n s' t c Fr.
Proof.
  induction n as [|n IH]; intros P s s' p t c Fr Hc Hl Hp Hw Hh Hrd Hm; [done|]. cbn [copied] in *. destruct Hc as (fc & -> & Hc). exists fc. split; [by rewrite Hh|].
  assert (forall j, 0 <= j < 512 -> rd s' t j = rd s t j) as Ht by (intros j; by apply (Hrd p)).
  assert (fc ∈ Fr -> forall j, 0 <= j < 512 -> rd s' (fa_hhdm s + fc * PAGE_SIZE) j = rd s (fa_hhdm s + fc * PAGE_SIZE) j) as Hfc.
  { intros Hin j Hj. apply rd_ext. intros x Hx. apply (Hm fc); [done|]. unfold in_frame, PAGE_SIZE in *; lia. }
  destruct (S n =? 1)%nat eqn:E1.
  - destruct Hc as [-> Hc]. split; [done|]. intros i Hi. rewrite Hfc, Ht by (done || by left). by apply Hc.
  - apply Nat.eqb_neq in E1. destruct Hc as (G & -> & Hc). exists G. split; [done|]. intros i Hi. specialize (Hc i Hi). assert (0 <= i < 512) as Hi' by (unfold limit in Hi; destruct (S n =? 4)%nat; lia).
    rewrite Hfc, Ht by (done || by left). destruct (has VMM_FLAG_PRESENT (rd s t i)) eqn:Ep; [|done]. destruct Hc as (ci & Hci & Hc1 & Hc2). exists ci. split; [done|]. split; [done|].
    assert (below s' t i = below s t i) as -> by (unfold below, phys_to_hhdm; by rewrite Ht, Hh). rewrite Hh.
    apply (IH P s s' (p ++ [i])); [done|rewrite length_app; cbn; lia| | |done| |].
    + apply (limit_path p n); (done || lia).
    + rewrite walk_snoc, Hw. unfold child. by rewrite Ep.
    + intros q u j Hq Hpre. apply Hrd; [done|]. by eapply prefix_snoc.
    + intros f x Hf. apply Hm. right. apply list_elem_of_bind. exists i. split; [done|]. by apply elem_of_seqZ; lia.
Qed.

(** *** A copy that is given up *)
(** Freeing from the table [c] frees the frames [Fr] and takes a reference from each
    page of [L]. *)
Definition frees_as (n : nat) s (c : Z) (Fr L : list Z) : Prop :=
  subtree n s c /\ forall j, occ j (table_frees n s c) = occ j ((fun f => f * PAGE_SIZE) <$> Fr) + occ j L.

Lemma occ_bind_sum j (g Fr L : Z -> list Z) l : (forall i, i ∈ l -> occ j (g i) = occ j ((fun f => f * PAGE_SIZE) <$> Fr i) + occ j (L i)) ->
  occ j (l ≫= g) = occ j ((fun f => f * PAGE_SIZE) <$> (l ≫= Fr)) + occ j (l ≫= L).
Proof.
  induction l as [|i l IH]; intros H; [done|]. cbn [mbind list_bind]. rewrite fmap_app, !occ_app, H by by left. rewrite IH; [lia|]. intros k Hk. apply H. by right.
Qed.

Lemma own_frame s fc : fa_inv s -> fa_count s fc = Some 1 ->
  hhdm_to_phys s (fa_hhdm s + fc * PAGE_SIZE) = fc * PAGE_SIZE /\
  exists f r, fa_hhdm s + fc * PAGE_SIZE = fa_hhdm s + f * PAGE_SIZE /\ fa_count s f = Some r /\ open_frame s f.
Proof.
  intros I Hc. destruct (fa_count_ok s fc 1 I Hc) as (Hf & _). split; [apply hhdm_to_phys_sub; [done|unfold PAGE_SIZE; lia]|].
  exists fc, 1. split; [done|]. split; [done|by eapply count_open].
Qed.

Lemma frees_leaf s fc : fa_inv s -> fa_count s fc = Some 1 -> let c := fa_hhdm s + fc * PAGE_SIZE in frees_as 1 s c [fc] (leaf_pages 1 s c).
Proof.
  intros I Hc c. destruct (own_frame s fc I Hc) as [Hp Hf]. fold c in Hp, Hf. split; [cbn [subtree]; split; [done|]; by intros i _ []|].
  intros j. cbn [table_frees leaf_pages fmap list_fmap]. rewrite Hp, occ_app, Z.add_comm. do 2 f_equal. apply bind_same. intros i _. unfold private. cbn [Nat.eqb].
  by destruct (has VMM_FLAG_PRESENT (rd s c i)), (has PTE_FLAG_SHARED (rd s c i)).
Qed.

Lemma frees_node n s fc (G L : Z -> list Z) : (1 <= n)%nat -> fa_inv s -> fa_count s fc = Some 1 -> let c := fa_hhdm s + fc * PAGE_SIZE in
  (forall i, 0 <= i < limit (S n) -> if has VMM_FLAG_PRESENT (rd s c i) then frees_as n s (below s c i) (G i) (L i) else G i = [] /\ L i = []) ->
  frees_as (S n) s c (fc :: (seqZ 0 (limit (S n)) ≫= G)) (seqZ 0 (limit (S n)) ≫= L).
Proof.
  intros Hn I Hc c Hi. destruct (own_frame s fc I Hc) as [Hp Hf]. fold c in Hp, Hf. split.
  - cbn [subtree]. split; [done|]. intros i Hl _ Ep. specialize (Hi i Hl). rewrite Ep in Hi. apply Hi.
  - intros j. cbn [table_frees]. assert ((S n =? 1)%nat = false) as -> by (apply Nat.eqb_neq; lia). fold (limit (S n)). rewrite Hp, occ_app, fmap_cons.
    rewrite (occ_bind_sum j _ G L); [rewrite !occ_cons; change (occ j []) with 0; lia|]. intros i Hl%elem_of_seqZ. specialize (Hi i ltac:(lia)). cbv zeta.
    destruct (has VMM_FLAG_PRESENT (rd s c i)); cbn [negb]; [apply Hi|]. by destruct Hi as [-> ->].
Qed.

Lemma bind_prefix (G : Z -> list Z) i m : 0 <= i <= m -> seqZ 0 m ≫= (fun k => if decide (k < i) then G k else []) = seqZ 0 i ≫= G.
Proof.
  intros Hi. replace m with (i + (m - i)) by lia. rewrite seqZ_app, bind_app by lia. rewrite <- (app_nil_r (seqZ 0 i ≫= G)). f_equal.
  - apply bind_same. intros k Hk%elem_of_seqZ. by rewrite decide_True by lia.
  - assert (forall l : list Z, (forall k, k ∈ l -> ~ k < i) -> l ≫= (fun k => if decide (k < i) then G k else []) = []) as H.
    { induction l as [|k l IH]; intros Hl; [done|]. cbn [mbind list_bind]. rewrite decide_False by (apply Hl; by left). apply IH. intros k' Hk'. apply Hl. by right. }
    apply H. intros k Hk%elem_of_seqZ. lia.
Qed.

(** A finished part of the copy, in any state in which its frames are as they were. *)
Lemma copied_frees n : forall s s2 t c Fr, copied n s t c Fr -> fa_inv s2 -> fa_hhdm s2 = fa_hhdm s ->
  (forall f, f ∈ Fr -> fa_count s2 f = Some 1 /\ forall x, in_frame (fa_hhdm s) f x -> get8 (fa_mem s2) x = get8 (fa_mem s) x) -> frees_as n s2 c Fr (leaf_pages n s t).
Proof.
  induction n as [|n IH]; intros s s2 t c Fr Hc I Hh Hfr; [done|]. cbn [copied] in Hc. destruct Hc as (fc & -> & Hc).
  assert (fc ∈ Fr -> fa_count s2 fc = Some 1 /\ forall j, 0 <= j < 512 -> rd s2 (fa_hhdm s + fc * PAGE_SIZE) j = rd s (fa_hhdm s + fc * PAGE_SIZE) j) as Hfc.
  { intros Hin. destruct (Hfr fc Hin) as [H1 H2]. split; [done|]. intros j Hj. apply rd_ext. intros x Hx. apply H2. unfold in_frame, PAGE_SIZE in *; lia. }
  destruct (S n =? 1)%nat eqn:E1.
  - apply Nat.eqb_eq in E1. assert (n = 0%nat) as -> by lia. destruct Hc as [-> Hc]. destruct (Hfc ltac:(by left)) as [H1 H2].
    assert (leaf_pages 1 s t = leaf_pages 1 s2 (fa_hhdm s2 + fc * PAGE_SIZE)) as ->; [|rewrite <- Hh; by apply frees_leaf].
    cbn [leaf_pages Nat.eqb]. apply bind_same. intros i Hi%elem_of_seqZ. change (limit 1) with 512 in Hi. rewrite Hh, H2, Hc by lia. unfold private.
    by destruct (has VMM_FLAG_PRESENT (rd s t i)) eqn:Ep; rewrite ?Ep.
  - apply Nat.eqb_neq in E1. destruct Hc as (G & -> & Hc). destruct (Hfc ltac:(by left)) as [H1 H2]. rewrite leaf_pages_inner, <- Hh by lia. pose proof (limit_range (S n)).
    apply frees_node; [lia|done|done|]. intros i Hi. specialize (Hc i Hi). rewrite Hh, H2 by lia. destruct (has VMM_FLAG_PRESENT (rd s t i)) eqn:Ep; [|by destruct Hc as [-> ->]].
    destruct Hc as (ci & Hci & Hrd & Hc). destruct (flags_entry ci (rd s t i) Hci) as (_ & Ha & _). rewrite Hrd.
    assert (has VMM_FLAG_PRESENT (Z.lor (ci * PAGE_SIZE) (pte_get_flags (rd s t i))) = true) as -> by by apply flags_present.
    assert (below s2 (fa_hhdm s + fc * PAGE_SIZE) i = fa_hhdm s + ci * PAGE_SIZE) as ->.
    { unfold below. rewrite H2, Hrd, Ha by lia. rewrite phys_to_hhdm_add by (done || (unfold PAGE_SIZE; lia)). by rewrite Hh. }
    apply (IH s); [done..|]. intros f Hf. apply Hfr. right. apply list_elem_of_bind. exists i. split; [done|apply elem_of_seqZ; lia].
Qed.

(** Room that is left after some frames were taken *)
Lemma room_taken s s' (l : list Z) k : NoDup l -> (forall j, j ∉ l -> fa_count s j = None -> fa_count s' j = None) -> room s (length l + k) -> room s' k.
Proof.
  intros Hl Hc (m & Hm & Hlen & Hf). eapply room_le; [|exists (filter (.∉ l) m); split; [by apply NoDup_filter|]; split; [reflexivity|]].
  - assert (length (filter (.∈ l) m) <= length l)%nat as H1.
    { apply submseteq_length, NoDup_submseteq; [by apply NoDup_filter|]. by intros x [? _]%list_elem_of_filter. }
    pose proof (filter_app_complement (.∈ l) m) as Hp%Permutation_length. rewrite length_app in Hp. cbn in *. lia.
  - intros i [Hi Hin]%list_elem_of_filter. destruct (Hf i Hin) as [? ?]. split; [done|by apply Hc].
Qed.

(** A copy that fails for want of frames leaves every count as it was. *)
Definition gave_up P s0 (need : nat) s : Prop := ~ room s0 need /\ evolves P s0 s /\ forall j, fa_count s j = fa_count s0 j.

(** *** What copying one table achieves *)
Record copy_ok P s0 p t (n : nat) (l : list Z) s (fc : Z) (Fr : list Z) : Prop := {
  co_ev : evolves P s0 s;
  co_copied : copied n s t (fa_hhdm s0 + fc * PAGE_SIZE) Fr;
  co_fc : 0 < fc < 2 ^ 35 - 1 /\ fc ∈ Fr;
  co_len : length Fr = tables n s0 t;
  co_nodup : NoDup Fr;
  co_fresh f : f ∈ Fr -> fa_count s0 f = None;
  co_count j : fa_count s j = if decide (j ∈ Fr) then Some 1 else bumped (fa_count s0 j) (occ j l);
  co_in q j : upath q -> length q = 3%nat -> 0 <= j < 512 -> p `prefix_of` q -> leaf s P q j = shared_entry (leaf s0 P q j);
  co_out q j : path_ok q -> length q = 3%nat -> 0 <= j < 512 -> ~ (upath q /\ p `prefix_of` q) -> leaf s P q j = leaf s0 P q j }.

Lemma copy_last P s0 p t : pt_inv s0 P -> upath p -> length p = 3%nat -> walk s0 P p = Some t -> incable s0 (leaf_pages 1 s0 t) ->
  forall kern, let '(c, s') := vmm_copy_hierarchy 1 s0 kern t in
  (c = 0 /\ gave_up P s0 1 s') \/ exists fc Fr, c = fc * PAGE_SIZE /\ copy_ok P s0 p t 1 (leaf_pages 1 s0 t) s' fc Fr.
Proof.
  intros Hpt Hup Hl Hw Hinc kern. cbn [vmm_copy_hierarchy]. destruct (alloc_zero s0 (pt_fa _ _ Hpt)) as [(fc & s1 & -> & Hfc & Hcn & Hv & U & C1 & Co & Z1)|[-> Ex]].
  2: { cbv beta iota. rewrite Z.eqb_refl. left. split; [reflexivity|]. split; [done|]. split; [apply evolves_refl, Hpt|done]. }
  rewrite (proj2 (Z.eqb_neq _ _)) by (unfold PAGE_SIZE; lia). rewrite Hv. cbn [Nat.ltb Nat.leb]. set (c := fa_hhdm s0 + fc * PAGE_SIZE) in *. set (s2 := zero_page s1 c) in *. clearbody s2.
  pose proof (undisturbed_evolves P s0 s2 Hpt U) as E2.
  assert (leaf_upto P s0 p t fc 0 s2) as L0.
  { split; [done|..].
    - intros j. case_decide as D; [by subst|]. change (seqZ 0 0) with (@nil Z). cbn. by rewrite bumped_0, Co.
    - intros k Hk. rewrite decide_False by lia. transitivity (load64 (∅ : mem) 0); [|done]. apply load_ext. intros b Hb. rewrite Z1; [unfold get8; by rewrite lookup_empty|]. unfold in_frame, PAGE_SIZE in *; lia.
    - intros k Hk. rewrite decide_False by lia. apply rd_ext. intros x Hx. apply U, (table_byte_kept s0 P); [done|]. exists p, t. split; [apply Hup|]. split; [done|]. unfold PAGE_SIZE. lia.
    - intros q j Hq Hlq Hj _. unfold leaf. rewrite (ev_walk _ _ _ E2) by done. destruct (walk s0 P q) as [u|] eqn:Hu; [|done]. apply rd_ext. intros x Hx. apply U, (table_byte_kept s0 P); [done|].
      exists q, u. unfold PAGE_SIZE. split_and!; (done || lia). }
  pose proof (for_loop_inv0 (fun i s => leaf_upto P s0 p t fc i s) (fun i s => copy_leaf t c i s) 512 s2 L0) as L.
  destruct L as [E C Ch Pa Ot]; [intros i s' Hi; apply leaf_step; (done || lia)|]. change (Z.of_nat 512) with 512 in *. right. exists fc, [fc]. split; [done|].
  set (s3 := for_loop 512 0 _ s2) in *. clearbody s3. split.
  - done.
  - cbn [copied]. exists fc. split; [by rewrite (ev_hhdm _ _ _ E)|]. cbn [Nat.eqb]. split; [done|]. intros i Hi. rewrite Ch, Pa by done. rewrite !decide_True by lia.
    rewrite shared_present by apply rd_range. done.
  - split; [done|by left].
  - done.
  - apply NoDup_singleton.
  - intros f ->%list_elem_of_singleton. done.
  - intros j. rewrite C. destruct (decide (j = fc)) as [->|Hne]; [by rewrite decide_True by by left|]. rewrite decide_False by (intros ?%list_elem_of_singleton; done). done.
  - intros q j Hq Hlq Hj Hpre. assert (q = p) as -> by (symmetry; apply prefix_length_eq; [done|lia]). unfold leaf. rewrite (ev_walk _ _ _ E), Hw by apply Hup. rewrite Pa by done. by rewrite decide_True by lia.
  - intros q j Hq Hlq Hj Hn. apply Ot; try done. intros ->. by apply Hn.
Qed.
End Copied.

Section Loop.
Context {A : Type} `{FS : FrameAllocatorSpec A} (P : Z) (s0 : A) (p : list Z) (t fc : Z) (n : nat) (copy : A -> Z -> Z * A).
Context (Hpt : pt_inv s0 P) (Hup : upath p) (Hlp : (length p + S n = 4)%nat) (Hn : (1 <= n)%nat) (Hw : walk s0 P p = Some t) (Hfc : fa_count s0 fc = None).
Context (Hinc : incable s0 (leaf_pages (S n) s0 t)).
Context (Hcopy : forall s p' t', pt_inv s P -> upath p' -> (length p' + n = 4)%nat -> walk s P p' = Some t' -> incable s (leaf_pages n s t') ->
  let '(c, s') := copy s t' in (c = 0 /\ gave_up P s (tables n s t') s') \/ exists f Fr, c = f * PAGE_SIZE /\ copy_ok P s p' t' n (leaf_pages n s t') s' f Fr).
Let c := fa_hhdm s0 + fc * PAGE_SIZE.
Let pages (k : Z) := if has VMM_FLAG_PRESENT (rd s0 t k) then leaf_pages n s0 (below s0 t k) else [].
Let need (k : Z) : nat := if has VMM_FLAG_PRESENT (rd s0 t k) then tables n s0 (below s0 t k) else O.

Record upto (i : Z) (s : A) (G : Z -> list Z) : Prop := {
  up_ev : evolves P s0 s;
  up_nodup : NoDup (fc :: (seqZ 0 i ≫= G));
  up_len : length (seqZ 0 i ≫= G) = sum_list (need <$> seqZ 0 i);
  up_fresh f : f ∈ fc :: (seqZ 0 i ≫= G) -> fa_count s0 f = None;
  up_count j : fa_count s j = if decide (j ∈ fc :: (seqZ 0 i ≫= G)) then Some 1 else bumped (fa_count s0 j) (occ j (seqZ 0 i ≫= pages));
  up_done k : 0 <= k < i -> if has VMM_FLAG_PRESENT (rd s0 t k)
    then exists ck, 0 < ck < 2 ^ 35 - 1 /\ rd s c k = Z.lor (ck * PAGE_SIZE) (pte_get_flags (rd s0 t k)) /\ copied n s (below s0 t k) (fa_hhdm s0 + ck * PAGE_SIZE) (G k)
    else rd s c k = 0 /\ G k = [];
  up_todo k : i <= k < 512 -> rd s c k = 0;
  up_in q j k : upath q -> length q = 3%nat -> 0 <= j < 512 -> 0 <= k < i -> (p ++ [k]) `prefix_of` q -> leaf s P q j = shared_entry (leaf s0 P q j);
  up_out q j : path_ok q -> length q = 3%nat -> 0 <= j < 512 -> (forall k, 0 <= k < i -> ~ (upath q /\ (p ++ [k]) `prefix_of` q)) -> leaf s P q j = leaf s0 P q j }.

Lemma loop_pages : leaf_pages (S n) s0 t = seqZ 0 (limit (S n)) ≫= pages.
Proof. by apply leaf_pages_inner. Qed.

Lemma loop_tables : tables (S n) s0 t = S (sum_list (need <$> seqZ 0 (limit (S n)))).
Proof. cbn [tables]. assert ((S n =? 1)%nat = false) as -> by (apply Nat.eqb_neq; lia). done. Qed.

Lemma need_next i : 0 <= i -> sum_list (need <$> seqZ 0 (i + 1)) = (sum_list (need <$> seqZ 0 i) + need i)%nat.
Proof. intros Hi. rewrite seqZ_snoc by lia. rewrite fmap_app, (sum_list_with_app id). cbn. lia. Qed.

Lemma loop_incable i : 0 <= i < limit (S n) -> incable s0 ((seqZ 0 i ≫= pages) ++ pages i).
Proof.
  intros Hi. pose proof (limit_range (S n)). pose proof Hinc as H1. rewrite loop_pages in H1. replace (limit (S n)) with ((i + 1) + (limit (S n) - (i + 1))) in H1 by lia.
  rewrite seqZ_app, bind_app in H1 by lia. destruct (incable_app _ _ _ H1) as [H2 _]. rewrite seqZ_snoc, bind_app in H2 by lia. cbn [mbind list_bind] in H2. by rewrite app_nil_r in H2.
Qed.

Lemma child_upath i : 0 <= i < limit (S n) -> upath (p ++ [i]).
Proof.
  intros Hi. pose proof (limit_range (S n)). apply upath_snoc; [done|lia|lia|]. intros ->. cbn in Hlp. unfold limit in Hi. replace (S n) with 4%nat in Hi by lia. cbn in Hi. lia.
Qed.

(** An entry that is not present *)
Lemma loop_absent i s G : 0 <= i < limit (S n) -> has VMM_FLAG_PRESENT (rd s0 t i) = false -> upto i s G -> exists G', upto (i + 1) s G'.
Proof.
  intros Hi Hpr [E N Len Fh C D T In Out]. pose proof (limit_range (S n)). set (G' := fun k => if decide (k = i) then [] else G k).
  assert (seqZ 0 (i + 1) ≫= G' = seqZ 0 i ≫= G) as EG.
  { rewrite seqZ_snoc, bind_app by lia. cbn [mbind list_bind]. unfold G' at 2. rewrite decide_True, !app_nil_r by done. apply bind_same. intros k Hk%elem_of_seqZ. unfold G'. by rewrite decide_False by lia. }
  assert (seqZ 0 (i + 1) ≫= pages = seqZ 0 i ≫= pages) as Epg.
  { rewrite seqZ_snoc, bind_app by lia. cbn [mbind list_bind]. unfold pages at 2. by rewrite Hpr, !app_nil_r. }
  exists G'. split; rewrite ?EG; try done.
  - rewrite need_next, Len by lia. unfold need at 3. rewrite Hpr. lia.
  - intros j. rewrite Epg. apply C.
  - intros k Hk. unfold G'. destruct (decide (k = i)) as [->|Hne]; [rewrite Hpr; split; [apply T; lia|done]|]. apply D. lia.
  - intros k Hk. apply T. lia.
  - intros q j k Hq Hl Hj Hk Hpre. destruct (decide (k = i)) as [->|Hne]; [|apply (In q j k); try done; lia].
    assert (walk s0 P q = None) as Hwq.
    { destruct Hpre as [r ->]. rewrite walk_app, walk_snoc, Hw. unfold child. by rewrite Hpr. }
    unfold leaf. rewrite (ev_walk _ _ _ E), Hwq by apply Hq. done.
  - intros q j Hq Hl Hj Hno. apply Out; try done. intros k Hk. apply Hno. lia.
Qed.

Lemma list_fresh s i G j : upto i s G -> j ∈ fc :: (seqZ 0 i ≫= G) -> fa_count s0 j = None /\ fa_count s j = Some 1.
Proof. intros U Hj. split; [by apply (up_fresh _ _ _ U)|]. rewrite (up_count _ _ _ U). by rewrite decide_True. Qed.

(** Nobody else's bytes *)
Lemma fresh_bytes i s G g x : upto i s G -> g ∈ fc :: (seqZ 0 i ≫= G) -> in_frame (fa_hhdm s) g x -> kept s x /\ ~ leaf_byte P s x.
Proof.
  intros U Hg Hx. destruct (list_fresh s i G g U Hg) as [H0 H1]. pose proof (up_ev _ _ _ U) as E. split; [by apply (count_kept s g 1); [apply E|..]|].
  rewrite (evolves_leaf_byte P s0 s x E). intros (q & u & [Hq _] & _ & Hu & Hxu). destruct (pt_frame _ _ Hpt q u Hq Hu) as (g' & r & -> & Hg' & _).
  rewrite (ev_hhdm _ _ _ E) in Hx. assert (g' = g) as -> by (unfold in_frame, PAGE_SIZE in *; lia). congruence.
Qed.

(** The copies made before stay what they are while the next table is copied and its
    entry is stored. *)
Lemma done_kept i s s' s2 G l f Fr k : 0 <= i < limit (S n) -> upto i s G -> copy_ok P s (p ++ [i]) (below s0 t i) n l s' f Fr -> 0 <= k < i ->
  evolves P s0 s2 -> fa_hhdm s2 = fa_hhdm s' -> (forall q u j, path_ok q -> walk s' P q = Some u -> 0 <= j < 512 -> rd s2 u j = rd s' u j) ->
  (forall x, ~ in_frame (fa_hhdm s') fc x -> get8 (fa_mem s2) x = get8 (fa_mem s') x) ->
  has VMM_FLAG_PRESENT (rd s0 t k) = true -> forall ck, copied n s (below s0 t k) (fa_hhdm s0 + ck * PAGE_SIZE) (G k) -> copied n s2 (below s0 t k) (fa_hhdm s0 + ck * PAGE_SIZE) (G k).
Proof.
  intros Hi U K Hk E2 Hh Hrd Hm Hpr ck Hc. pose proof (limit_range (S n)). pose proof (up_ev _ _ _ U) as E. pose proof (evolves_inv P s0 s Hpt E) as Hpts. pose proof (co_ev _ _ _ _ _ _ _ _ _ K) as E'.
  assert (upath (p ++ [k])) as Hupk by (apply child_upath; lia).
  assert (walk s P (p ++ [k]) = Some (below s0 t k)) as Hwk.
  { rewrite (ev_walk _ _ _ E) by apply Hupk. rewrite walk_snoc, Hw. unfold child. by rewrite Hpr. }
  apply (copied_kept n P s s2 (p ++ [k])); [done|rewrite length_app; cbn; lia|apply Hupk|done| | |].
  - rewrite Hh. apply E'.
  - intros q u j Hq Hpre Hu Hj. rewrite (Hrd q); [|done|by rewrite (ev_walk _ _ _ E')|done]. destruct (decide (length q = 3%nat)) as [Hl|Hl].
    + pose proof (co_out _ _ _ _ _ _ _ _ _ K q j Hq Hl Hj) as Ho. unfold leaf in Ho. rewrite (ev_walk _ _ _ E'), Hu in Ho by done. apply Ho. intros [_ Hpi]. pose proof (prefix_snoc_inj p q k i Hpre Hpi). lia.
    + apply (evolves_rd P s s' q); [done|done|done| |done|done]. destruct Hq; lia.
  - intros g x Hg Hx. assert (g ∈ seqZ 0 i ≫= G) as Hin by (apply list_elem_of_bind; exists k; split; [done|apply elem_of_seqZ; lia]).
    pose proof (up_nodup _ _ _ U) as Hnd. apply NoDup_cons in Hnd as [Hnf _]. rewrite Hm.
    + apply (ev_mem _ _ _ E').
      * apply (fresh_bytes i s G g x U); [by right|done].
      * apply (fresh_bytes i s G g x U); [by right|done].
    + rewrite (ev_hhdm _ _ _ E'). intros Hf. assert (g = fc) as -> by (unfold in_frame, PAGE_SIZE in *; lia). by apply Hnf.
Qed.
Lemma present_incable i s G : 0 <= i < limit (S n) -> upto i s G -> incable s (pages i).
Proof.
  intros Hi U j Hj. pose proof (loop_incable i Hi) as H. pose proof (occ_nonneg j (seqZ 0 i ≫= pages)).
  destruct (H j) as (r & H1 & H2 & H3); rewrite occ_app in *; [lia|]. exists (r + occ j (seqZ 0 i ≫= pages)). split; [|lia].
  rewrite (up_count _ _ _ U). rewrite decide_False; [by rewrite H1|]. intros Hin. destruct (list_fresh s i G j U Hin). congruence.
Qed.

Lemma child_rd i s s' G k : upto i s G -> evolves P s s' -> 0 <= k < 512 -> rd s' c k = rd s c k.
Proof.
  intros U E' Hk. pose proof (up_ev _ _ _ U) as E. apply rd_ext. intros x Hx. apply (ev_mem _ _ _ E').
  - apply (fresh_bytes i s G fc x U); [by left|]. rewrite (ev_hhdm _ _ _ E). unfold in_frame, c, PAGE_SIZE in *. lia.
  - apply (fresh_bytes i s G fc x U); [by left|]. rewrite (ev_hhdm _ _ _ E). unfold in_frame, c, PAGE_SIZE in *. lia.
Qed.

Lemma loop_present i s G s' f Fr : 0 <= i < limit (S n) -> has VMM_FLAG_PRESENT (rd s0 t i) = true -> upto i s G ->
  copy_ok P s (p ++ [i]) (below s0 t i) n (pages i) s' f Fr ->
  exists G', upto (i + 1) (wr s' c i (Z.lor (f * PAGE_SIZE) (pte_get_flags (rd s0 t i)))) G'.
Proof.
  intros Hi Hpr U K. pose proof (limit_range (S n)). pose proof U as [E N Len Fh C D T In Out]. pose proof (co_ev _ _ _ _ _ _ _ _ _ K) as E1.
  assert (evolves P s0 s') as E01 by by eapply evolves_trans. assert (c = fa_hhdm s' + fc * PAGE_SIZE) as Ec by by rewrite (ev_hhdm _ _ _ E01).
  destruct (co_fc _ _ _ _ _ _ _ _ _ K) as [Hf HfF]. destruct (flags_entry f (rd s0 t i) Hf) as (Hu & _ & _). set (e := Z.lor _ _) in *.
  assert (incable s0 (pages i)) as Hpi by apply (incable_app _ _ _ (loop_incable i Hi)).
  assert (forall j, j ∈ fc :: (seqZ 0 i ≫= G) -> j ∉ Fr /\ fa_count s' j = Some 1) as Hold.
  { intros j Hj. destruct (list_fresh s i G j U Hj) as [H0 H1]. assert (j ∉ Fr) as Hn' by (intros Hin; apply (co_fresh _ _ _ _ _ _ _ _ _ K) in Hin; congruence).
    split; [done|]. rewrite (co_count _ _ _ _ _ _ _ _ _ K), decide_False by done. rewrite H1, (incable_fresh s0 _ j Hpi H0). done. }
  destruct (child_write P s0 s' fc i e Hpt E01 Hfc) as (E2 & C2 & H2 & Ch2 & Rd2 & M2); [apply Hold; by left|lia|done|]. rewrite <- Ec in E2, C2, H2, Ch2, Rd2, M2.
  set (s2 := wr s' c i e) in *. clearbody s2. set (G' := fun k => if decide (k = i) then Fr else G k).
  assert (seqZ 0 (i + 1) ≫= G' = (seqZ 0 i ≫= G) ++ Fr) as EG.
  { rewrite seqZ_snoc, bind_app by lia. cbn [mbind list_bind]. unfold G' at 2. rewrite decide_True, !app_nil_r by done. f_equal. apply bind_same. intros k Hk%elem_of_seqZ. unfold G'. by rewrite decide_False by lia. }
  assert (seqZ 0 (i + 1) ≫= pages = (seqZ 0 i ≫= pages) ++ pages i) as Epg by (rewrite seqZ_snoc, bind_app by lia; cbn [mbind list_bind]; by rewrite app_nil_r).
  assert (forall q j, path_ok q -> length q = 3%nat -> 0 <= j < 512 -> leaf s2 P q j = leaf s' P q j) as L2.
  { intros q j Hq Hl Hj. unfold leaf. rewrite (ev_walk _ _ _ E2), (ev_walk _ _ _ E01) by done. destruct (walk s0 P q) as [u|] eqn:Hwq; [|done]. apply (Rd2 q u j Hq); [|done]. by rewrite (ev_walk _ _ _ E01). }
  exists G'. split; rewrite ?EG, ?Epg.
  - done.
  - rewrite app_comm_cons. apply NoDup_app. split; [done|]. split; [intros j Hj; by apply Hold|apply K].
  - rewrite length_app, need_next, Len, (co_len _ _ _ _ _ _ _ _ _ K) by lia. f_equal. unfold need. rewrite Hpr.
    apply (tables_evolves n P s0 s (p ++ [i])); [done|done|rewrite length_app; cbn; lia|by apply child_upath|rewrite walk_snoc, Hw; unfold child; by rewrite Hpr].
  - intros g Hg. rewrite app_comm_cons in Hg. apply elem_of_app in Hg as [Hg|Hg]; [by apply Fh|]. apply (co_fresh _ _ _ _ _ _ _ _ _ K) in Hg. destruct (fa_count s0 g) as [r|] eqn:Hr; [|done].
    destruct (ev_count _ _ _ E g r Hr) as (r' & Hr' & _). congruence.
  - intros j. rewrite C2, app_comm_cons. destruct (decide (j ∈ fc :: (seqZ 0 i ≫= G))) as [Hj|Hj].
    + rewrite decide_True by (apply elem_of_app; by left). by apply Hold.
    + rewrite (co_count _ _ _ _ _ _ _ _ _ K). destruct (decide (j ∈ Fr)) as [Hj'|Hj']; [by rewrite decide_True by (apply elem_of_app; by right)|].
      rewrite decide_False by (intros [?|?]%elem_of_app; done). rewrite C, decide_False by done. by rewrite bumped_add, occ_app.
  - intros k Hk. unfold G'. destruct (decide (k = i)) as [->|Hne].
    + rewrite Hpr. exists f. split; [done|]. split; [rewrite Ch2 by lia; by rewrite decide_True|]. pose proof (co_copied _ _ _ _ _ _ _ _ _ K) as Hcp. rewrite (ev_hhdm _ _ _ E) in Hcp.
      apply (copied_kept n P s' s2 (p ++ [i])); [done|rewrite length_app; cbn; lia|by apply child_upath| |done| |].
      * rewrite (ev_walk _ _ _ E01) by by apply child_upath. rewrite walk_snoc, Hw. unfold child. by rewrite Hpr.
      * intros q u j Hq _ Hwq Hj. by apply (Rd2 q).
      * intros g x Hg Hx. apply M2. intros Hxf. assert (g = fc) as -> by (unfold in_frame, PAGE_SIZE in *; lia). apply (Hold fc); [by left|done].
    + specialize (D k ltac:(lia)). rewrite Ch2, (child_rd i s s' G k U E1) by lia. rewrite (decide_False (P := k = i)) by done. destruct (has VMM_FLAG_PRESENT (rd s0 t k)) eqn:Hpk; [|done].
      destruct D as (ck & D1 & D2 & D3). exists ck. split; [done|]. split; [done|]. exact (done_kept i s s' s2 G (pages i) f Fr k Hi U K ltac:(lia) E2 H2 Rd2 M2 Hpk ck D3).
  - intros k Hk. rewrite Ch2, (child_rd i s s' G k U E1) by lia. rewrite decide_False by lia. apply T. lia.
  - intros q j k Hq Hl Hj Hk Hpre. rewrite L2 by (done || apply Hq). destruct (decide (k = i)) as [->|Hne].
    + rewrite (co_in _ _ _ _ _ _ _ _ _ K q j) by done. f_equal. apply Out; [apply Hq|done|done|]. intros k Hk' [_ Hpk]. pose proof (prefix_snoc_inj p q i k Hpre Hpk). lia.
    + rewrite (co_out _ _ _ _ _ _ _ _ _ K q j); [apply (In q j k); try done; lia|apply Hq|done|done|]. intros [_ Hpx]. by pose proof (prefix_snoc_inj p q k i Hpre Hpx).
  - intros q j Hq Hl Hj Hno. rewrite L2 by done. rewrite (co_out _ _ _ _ _ _ _ _ _ K q j); [|done|done|done|apply Hno; lia]. apply Out; try done. intros k Hk. apply Hno. lia.
Qed.

(** A table below could not be copied: what was built is freed. *)
Lemma loop_given_up i s G s' : 0 <= i < limit (S n) -> upto i s G -> evolves P s s' -> (forall j, fa_count s' j = fa_count s j) ->
  let s2 := vmm_free_table (S n) s' c in evolves P s0 s2 /\ forall j, fa_count s2 j = fa_count s0 j.
Proof.
  intros Hi U E' Hc' s2. pose proof (limit_range (S n)) as Hlim. pose proof (up_ev _ _ _ U) as E. assert (evolves P s0 s') as E0 by by eapply evolves_trans.
  set (L := seqZ 0 i ≫= pages). set (Fr := fc :: (seqZ 0 i ≫= G)).
  assert (frees_as (S n) s' c Fr L) as [Hsub Hocc].
  { unfold Fr, L. rewrite <- (bind_prefix G i (limit (S n))), <- (bind_prefix pages i (limit (S n))) by lia. assert (c = fa_hhdm s' + fc * PAGE_SIZE) as -> by by rewrite (ev_hhdm _ _ _ E0).
    apply frees_node; [done|apply E'|rewrite Hc'; apply (list_fresh s i G fc U); by left|]. rewrite (ev_hhdm _ _ _ E0). fold c. intros k Hk. rewrite (child_rd i s s' G k U E') by lia.
    destruct (decide (k < i)) as [Hki|Hki].
    - pose proof (up_done _ _ _ U k ltac:(lia)) as D. destruct (has VMM_FLAG_PRESENT (rd s0 t k)) eqn:Hpk.
      2: { destruct D as [-> D]. change (has VMM_FLAG_PRESENT 0) with false. cbv iota. split; [done|]. unfold pages. by rewrite Hpk. }
      destruct D as (ck & Hck & Hrd & Hcp). rewrite Hrd, flags_present by done.
      assert (below s' c k = fa_hhdm s0 + ck * PAGE_SIZE) as ->.
      { unfold below. rewrite (child_rd i s s' G k U E'), Hrd by lia. destruct (flags_entry ck (rd s0 t k) Hck) as (_ & -> & _). rewrite phys_to_hhdm_add by (apply E' || (unfold PAGE_SIZE; lia)). by rewrite (ev_hhdm _ _ _ E0). }
      assert (pages k = leaf_pages n s (below s0 t k)) as ->.
      { unfold pages. rewrite Hpk. symmetry. apply (leaf_pages_evolves n P s0 s (p ++ [k])); [done|done|rewrite length_app; cbn; lia|done|apply child_upath; lia|rewrite walk_snoc, Hw; unfold child; by rewrite Hpk]. }
      apply (copied_frees n s); [done|apply E'|apply E'|]. intros f Hf. assert (f ∈ Fr) as Hin by (right; apply list_elem_of_bind; exists k; split; [done|apply elem_of_seqZ; lia]).
      split; [rewrite Hc'; by apply (list_fresh s i G f U)|]. intros x Hx. by apply (ev_mem _ _ _ E'); apply (fresh_bytes i s G f x U).
    - rewrite (up_todo _ _ _ U k) by lia. done. }
  assert (incable s0 L) as HL by exact (proj1 (incable_app _ _ _ (loop_incable i Hi))).
  assert (forall j, occ j ((fun f => f * PAGE_SIZE) <$> Fr) = if decide (j ∈ Fr) then 1 else 0) as Hfr.
  { pose proof (up_nodup _ _ _ U) as Hnd. fold Fr in Hnd. clear -Hnd. intros j. induction Fr as [|f l IH]; [by rewrite decide_False by apply not_elem_of_nil|]. apply NoDup_cons in Hnd as [Hf Hnd].
    rewrite fmap_cons, occ_cons, Z.div_mul, (IH Hnd) by done. destruct (decide (f = j)) as [->|Hne].
    - rewrite (decide_False (P := j ∈ l)) by done. by rewrite decide_True by by left.
    - destruct (decide (j ∈ l)); [by rewrite decide_True by by right|]. by rewrite decide_False by (intros [?|?]%elem_of_cons; congruence). }
  assert (forall j, fa_count s' j = if decide (j ∈ Fr) then Some 1 else bumped (fa_count s0 j) (occ j L)) as Hcnt by (intros j; rewrite Hc'; apply (up_count _ _ _ U)).
  assert (forall j, j ∈ Fr -> occ j L = 0 /\ fa_count s0 j = None) as HFr.
  { intros j Hj. destruct (list_fresh s i G j U Hj) as [H0 _]. split; [by apply (incable_fresh s0)|done]. }
  assert (freeable s' (table_frees (S n) s' c)) as Hf.
  { intros j. rewrite Hocc, Hfr, Hcnt. destruct (decide (j ∈ Fr)) as [Hj|Hj]; [destruct (HFr j Hj) as [-> _]; intros _; exists 1; split; [done|lia]|].
    intros Hpos. destruct (HL j) as (r & -> & Hr & _); [lia|]. eexists. split; [reflexivity|lia]. }
  unfold s2. rewrite (subtree_frees (S n) s' s' c (ev_inv _ _ _ E')) by (done || lia || apply quiet_refl, E').
  destruct (frees_spec _ s' (ev_inv _ _ _ E') Hf) as [Q Hcq]. assert (forall j, fa_count (foldl fa_free s' (table_frees (S n) s' c)) j = fa_count s0 j) as Hall.
  { intros j. rewrite Hcq, Hocc, Hfr, Hcnt. destruct (decide (j ∈ Fr)) as [Hj|Hj]; [by destruct (HFr j Hj) as [-> ->]|]. rewrite Z.add_0_l. pose proof (occ_nonneg j L).
    destruct (decide (occ j L = 0)) as [->|Hne]; [by rewrite bumped_0, dropped_0|]. destruct (HL j) as (r & -> & Hr & _); [lia|]. cbn [bumped dropped].
    rewrite (proj2 (Z.eqb_neq (occ j L) 0)), (proj2 (Z.eqb_neq (r + occ j L) (occ j L))) by lia. f_equal. lia. }
  split; [|done]. apply (quiet_evolves P s0 s'); [done|done|done|]. intros j r Hj. exists r. by rewrite Hall.
Qed.

(** The frames taken so far, and the one for the table *)
Lemma loop_room i s G k : 0 <= i -> upto i s G -> room s0 (S (sum_list (need <$> seqZ 0 i)) + k) -> room s k.
Proof.
  intros Hi U. rewrite <- (up_len _ _ _ U). apply (room_taken s0 s (fc :: (seqZ 0 i ≫= G))); [apply U|]. intros j Hj Hnone. by rewrite (up_count _ _ _ U), decide_False, Hnone by done.
Qed.

Lemma need_le i m : 0 <= i < m -> (sum_list (need <$> seqZ 0 i) + need i <= sum_list (need <$> seqZ 0 m))%nat.
Proof.
  intros Hi. rewrite <- need_next by lia. assert (seqZ 0 m = seqZ 0 (i + 1) ++ seqZ (0 + (i + 1)) (m - (i + 1))) as -> by (rewrite <- seqZ_app by lia; f_equal; lia). rewrite fmap_app, (sum_list_with_app id). lia.
Qed.

Lemma copy_entries_spec s : upto 0 s (fun _ => []) ->
  match copy_entries copy (S n) t c (limit (S n)) s with
  | inl s' => exists G, upto (limit (S n)) s' G
  | inr s' => gave_up P s0 (tables (S n) s0 t) s'
  end.
Proof.
  intros U0. unfold copy_entries. set (body := fun i r => _). pose proof (limit_range (S n)) as Hlim.
  assert (forall k : nat, Z.of_nat k <= limit (S n) -> match for_loop k 0 body (inl s) with inl s' => exists G, upto (Z.of_nat k) s' G | inr s' => gave_up P s0 (tables (S n) s0 t) s' end) as H.
  { induction k as [|k IH]; intros Hk; [by exists (fun _ => [])|]. rewrite for_loop_snoc. specialize (IH ltac:(lia)). destruct (for_loop k 0 body (inl s)) as [s1|s1]; [|exact IH].
    destruct IH as [G U]. set (i := Z.of_nat k) in *. rewrite Z.add_0_l. assert (0 <= i < limit (S n)) as Hi by lia. pose proof (up_ev _ _ _ U) as E.
    replace (Z.of_nat (S k)) with (i + 1) by lia. unfold body. rewrite (evolves_rd P s0 s1 p t i Hpt E (proj1 Hup) ltac:(lia) Hw ltac:(lia)).
    replace (Z.land (rd s0 t i) VMM_FLAG_PRESENT =? 0) with (negb (has VMM_FLAG_PRESENT (rd s0 t i))) by (unfold has; apply negb_involutive).
    destruct (has VMM_FLAG_PRESENT (rd s0 t i)) eqn:Hpr; cbn [negb]; [|by eapply loop_absent].
    assert (phys_to_hhdm s1 (pte_get_addr (rd s0 t i)) = below s0 t i) as -> by (unfold below, phys_to_hhdm; by rewrite (ev_hhdm _ _ _ E)).
    assert (upath (p ++ [i])) as Hupi by by apply child_upath. assert (walk s0 P (p ++ [i]) = Some (below s0 t i)) as Hwi by (rewrite walk_snoc, Hw; unfold child; by rewrite Hpr).
    assert (leaf_pages n s1 (below s0 t i) = pages i) as Epg.
    { unfold pages. rewrite Hpr. apply (leaf_pages_evolves n P s0 s1 (p ++ [i])); [done|done|rewrite length_app; cbn; lia|done|apply Hupi|done]. }
    pose proof (Hcopy s1 (p ++ [i]) (below s0 t i) (evolves_inv P s0 s1 Hpt E) Hupi ltac:(rewrite length_app; cbn; lia) ltac:(by rewrite (ev_walk _ _ _ E) by apply Hupi)) as Hc.
    rewrite Epg in Hc. specialize (Hc (present_incable i s1 G Hi U)). destruct (copy s1 (below s0 t i)) as [cp s']. destruct Hc as [[-> (Hr & E2 & C2)]|(f & Fr & -> & K)].
    - cbn [Z.eqb]. destruct (loop_given_up i s1 G s' Hi U E2 C2) as [E3 C3]. split; [|by split]. intros Hall. apply Hr. apply (loop_room i s1 G _ ltac:(lia) U). eapply room_le; [|exact Hall].
      rewrite loop_tables. pose proof (need_le i (limit (S n)) Hi) as Hle. rewrite (tables_evolves n P s0 s1 (p ++ [i])); [|done|done|rewrite length_app; cbn; lia|apply Hupi|done].
      unfold need at 2 in Hle. rewrite Hpr in Hle. lia.
    - destruct (co_fc _ _ _ _ _ _ _ _ _ K) as [Hf _]. rewrite (proj2 (Z.eqb_neq _ _)) by (unfold PAGE_SIZE; lia). by eapply loop_present. }
  specialize (H (Z.to_nat (limit (S n)))). rewrite Z2Nat.id in H by lia. by apply H.
Qed.
End Loop.

(** *** All levels *)
Section Levels.
Context {A : Type} `{FS : FrameAllocatorSpec A} (P : Z).
Implicit Types (s : A) (p q : list Z).

(** The frame of a table is taken and cleared. *)
Lemma upto_start s0 p t fc n s2 : pt_inv s0 P -> upath p -> walk s0 P p = Some t -> 0 < fc < 2 ^ 35 - 1 -> fa_count s0 fc = None -> undisturbed s0 s2 -> fa_count s2 fc = Some 1 ->
  (forall j, fc <> j -> fa_count s2 j = fa_count s0 j) -> (forall x, in_frame (fa_hhdm s0) fc x -> get8 (fa_mem s2) x = 0) -> upto P s0 p t fc n 0 s2 (fun _ => []).
Proof.
  intros Hpt Hup Hw Hf Hcn U C1 Co Z1. pose proof (undisturbed_evolves P s0 s2 Hpt U) as E2. change (seqZ 0 0) with (@nil Z). split.
  - done.
  - apply NoDup_singleton.
  - done.
  - intros f ->%list_elem_of_singleton. done.
  - intros j. destruct (decide (j = fc)) as [->|Hne]; [by rewrite decide_True by by left|]. rewrite decide_False by (intros ?%list_elem_of_singleton; done). cbn. rewrite bumped_0. apply Co. congruence.
  - intros k Hk. lia.
  - intros k Hk. transitivity (load64 (∅ : mem) 0); [|done]. apply load_ext. intros b Hb. rewrite Z1; [unfold get8; by rewrite lookup_empty|]. unfold in_frame, PAGE_SIZE. lia.
  - intros q j k _ _ _ Hk. lia.
  - intros q j Hq Hl Hj _. unfold leaf. rewrite (ev_walk _ _ _ E2) by done. destruct (walk s0 P q) as [u|] eqn:Hu; [|done]. apply rd_ext. intros x Hx. apply U, (table_byte_kept s0 P); [done|].
    exists q, u. unfold PAGE_SIZE. split_and!; (done || lia).
Qed.

Lemma upto_copy_ok s0 p t fc n s G : pt_inv s0 P -> upath p -> (length p + S n = 4)%nat -> (1 <= n)%nat -> walk s0 P p = Some t -> 0 < fc < 2 ^ 35 - 1 ->
  upto P s0 p t fc n (limit (S n)) s G -> copy_ok P s0 p t (S n) (leaf_pages (S n) s0 t) s fc (fc :: (seqZ 0 (limit (S n)) ≫= G)).
Proof.
  intros Hpt Hup Hl Hn Hw Hf [E N Len Fh C D T In Out]. pose proof (limit_range (S n)) as Hlim. split.
  - done.
  - cbn [copied]. exists fc. split; [by rewrite (ev_hhdm _ _ _ E)|]. assert ((S n =? 1)%nat = false) as -> by (apply Nat.eqb_neq; lia). exists G. split; [done|].
    intros i Hi. rewrite (evolves_rd P s0 s p t i Hpt E (proj1 Hup) ltac:(lia) Hw ltac:(lia)). specialize (D i ltac:(lia)). destruct (has VMM_FLAG_PRESENT (rd s0 t i)) eqn:Hpr; [|done].
    destruct D as (ck & D1 & D2 & D3). exists ck. split; [done|]. split; [done|]. rewrite (ev_hhdm _ _ _ E). assert (below s t i = below s0 t i) as ->; [|done].
    unfold below, phys_to_hhdm. rewrite (evolves_rd P s0 s p t i Hpt E (proj1 Hup) ltac:(lia) Hw ltac:(lia)), (ev_hhdm _ _ _ E). done.
  - split; [done|by left].
  - cbn [length tables]. rewrite Len. by rewrite (proj2 (Nat.eqb_neq (S n) 1)) by lia.
  - done.
  - done.
  - intros j. rewrite C. by rewrite leaf_pages_inner.
  - intros q j Hq Hlq Hj [r ->]. destruct r as [|k r]; [rewrite app_nil_r in Hlq; lia|]. apply (In _ j k); [done|done|done| |exists r; by rewrite <- app_assoc].
    destruct Hq as [(_ & Hf' & _) Hu]. apply Forall_app in Hf' as [_ Hf']. apply Forall_cons in Hf' as [Hk _]. unfold limit. destruct (S n =? 4)%nat eqn:E4; [|lia].
    apply Nat.eqb_eq in E4. assert (p = []) as -> by (destruct p; [done|cbn in Hl; lia]). cbn in Hu. lia.
  - intros q j Hq Hlq Hj Hno. apply Out; try done. intros k Hk [H1 H2]. apply Hno. split; [done|]. by eapply prefix_snoc.
Qed.

Lemma no_root s t n : pt_inv s P -> (1 <= n)%nat -> exhausted s -> gave_up P s (tables n s t) s.
Proof.
  intros Hpt Hn Ex. split; [|split; [apply evolves_refl, Hpt|done]]. intros Hr. apply Ex. eapply room_le; [|exact Hr]. destruct n as [|n]; [lia|]. cbn [tables]. destruct (S n =? 1)%nat; lia.
Qed.

(** Below the root. *)
Lemma copy_table n : forall s kern p t, (1 <= n <= 3)%nat -> pt_inv s P -> upath p -> (length p + n = 4)%nat -> walk s P p = Some t -> incable s (leaf_pages n s t) ->
  let '(c, s') := vmm_copy_hierarchy n s kern t in (c = 0 /\ gave_up P s (tables n s t) s') \/ exists f Fr, c = f * PAGE_SIZE /\ copy_ok P s p t n (leaf_pages n s t) s' f Fr.
Proof.
  induction n as [|n IH]; intros s0 kern p t Hn Hpt Hup Hl Hw Hinc; [lia|]. destruct (decide (n = 0%nat)) as [->|Hn0].
  { apply copy_last; [done|done|lia|done|done]. }
  cbn [vmm_copy_hierarchy]. destruct (alloc_zero s0 (pt_fa _ _ Hpt)) as [(fc & s1 & -> & Hfc & Hcn & Hv & U & C1 & Co & Z1)|[-> Ex]].
  2: { cbv beta iota. rewrite Z.eqb_refl. left. split; [reflexivity|]. apply no_root; (done || lia). }
  rewrite (proj2 (Z.eqb_neq _ _)) by (unfold PAGE_SIZE; lia). rewrite Hv. assert ((1 <? S n)%nat = true) as -> by (apply Nat.ltb_lt; lia). assert ((S n =? 4)%nat = false) as E4 by (apply Nat.eqb_neq; lia). rewrite E4.
  pose proof (upto_start s0 p t fc n _ Hpt Hup Hw Hfc Hcn U C1 Co Z1) as U0.
  pose proof (copy_entries_spec P s0 p t fc n (fun s t => vmm_copy_hierarchy n s kern t) Hpt Hup Hl ltac:(lia) Hw Hcn Hinc) as H.
  assert (limit (S n) = 512) as El by (unfold limit; by rewrite E4). rewrite El in H. specialize (fun Hc => H Hc _ U0).
  destruct (copy_entries _ _ _ _ _ _) as [s'|s'].
  - destruct H as [G UG]; [intros; apply IH; (done || lia)|]. right. exists fc. eexists. split; [done|]. rewrite <- El in UG. apply upto_copy_ok; [done|done|done|lia|done|done|exact UG].
  - left. split; [done|]. apply H. intros. apply IH; (done || lia).
Qed.
End Levels.

(** *** Walks in a copy *)
Section Walks.
Context {A : Type} `{FS : FrameAllocatorSpec A}.
Implicit Types (s : A) (p q : list Z).

(** An entry the copy wrote for a table *)
Lemma copied_child s c i ck e : fa_inv s -> 0 < ck < 2 ^ 35 - 1 -> rd s c i = Z.lor (ck * PAGE_SIZE) (pte_get_flags e) -> has VMM_FLAG_PRESENT e = true -> is_u64 e ->
  child s c i = Some (fa_hhdm s + ck * PAGE_SIZE).
Proof.
  intros I Hck Hr Hp He. destruct (flags_entry ck e Hck) as (_ & Ha & _). unfold child. rewrite Hr, Ha.
  rewrite flags_present by done.
  by rewrite phys_to_hhdm_add by (done || (unfold PAGE_SIZE; lia)).
Qed.

Lemma copied_walk n : forall s t c Fr q, (n <= 4)%nat -> fa_inv s -> copied n s t c Fr -> range q -> (length q < n)%nat -> (n = 4%nat -> user_half q) ->
  match walk s t q with
  | Some u => exists f, f ∈ Fr /\ walk s c q = Some (fa_hhdm s + f * PAGE_SIZE) /\
      ((length q + 1 = n)%nat -> forall j, 0 <= j < 512 -> rd s (fa_hhdm s + f * PAGE_SIZE) j = if has VMM_FLAG_PRESENT (rd s u j) then rd s u j else 0)
  | None => walk s c q = None
  end.
Proof.
  induction n as [|n IH]; intros s t c Fr q Hn4 I Hc Hr Hl Hu; [lia|]. cbn [copied] in Hc. destruct Hc as (fc & -> & Hc). destruct q as [|i q].
  - cbn [walk length] in *. exists fc. destruct (S n =? 1)%nat eqn:E1.
    + destruct Hc as [-> Hc]. split; [by left|]. by split.
    + apply Nat.eqb_neq in E1. destruct Hc as (G & -> & _). split; [by left|]. split; [done|lia].
  - cbn [length] in Hl. destruct (S n =? 1)%nat eqn:E1; [apply Nat.eqb_eq in E1; lia|]. destruct Hc as (G & -> & Hc). apply Forall_cons in Hr as [Hi Hr].
    assert (0 <= i < limit (S n)) as Hi'. { unfold limit. destruct (S n =? 4)%nat eqn:E4; [|lia]. apply Nat.eqb_eq in E4. specialize (Hu E4). cbn in Hu. lia. }
    specialize (Hc i Hi'). cbn [walk]. unfold child at 1. destruct (has VMM_FLAG_PRESENT (rd s t i)) eqn:Hp.
    + destruct Hc as (ck & Hck & Hrd & Hc). rewrite (copied_child s _ i ck _ I Hck Hrd Hp (rd_range s t i)). fold (below s t i).
      specialize (IH s (below s t i) _ (G i) q ltac:(lia) I Hc Hr ltac:(lia) ltac:(intros; exfalso; lia)). destruct (walk s (below s t i) q) as [u|]; [|done].
      destruct IH as (f & Hf & Hwf & He). exists f. split; [right; apply list_elem_of_bind; exists i; split; [done|by apply elem_of_seqZ; lia]|]. split; [done|]. cbn [length]. intros Hlen. apply He. lia.
    + destruct Hc as [Hrd _]. unfold child. by rewrite Hrd.
Qed.

Lemma bind_disjoint (G : Z -> list Z) l i k x : NoDup l -> NoDup (l ≫= G) -> i ∈ l -> k ∈ l -> x ∈ G i -> x ∈ G k -> i = k.
Proof.
  induction l as [|a l IH]; intros Hl Hn Hi Hk Hx Hy; [by apply not_elem_of_nil in Hi|]. cbn [mbind list_bind] in Hn. apply NoDup_cons in Hl as [Ha Hl]. apply NoDup_app in Hn as (_ & Hd & Hn).
  apply elem_of_cons in Hi as [->|Hi], Hk as [->|Hk]; [done|exfalso; apply (Hd x Hx), list_elem_of_bind; by exists k|exfalso; apply (Hd x Hy), list_elem_of_bind; by exists i|by apply IH].
Qed.

Lemma NoDup_part (G : Z -> list Z) l i : NoDup (l ≫= G) -> i ∈ l -> NoDup (G i).
Proof.
  induction l as [|a l IH]; intros Hn Hi; [by apply not_elem_of_nil in Hi|]. cbn [mbind list_bind] in Hn. apply NoDup_app in Hn as (H1 & _ & H2).
  apply elem_of_cons in Hi as [->|Hi]; [done|by apply IH].
Qed.

(** Different places are different tables. *)
Lemma copied_inj n : forall s t c Fr q q' v, (n <= 4)%nat -> fa_inv s -> copied n s t c Fr -> NoDup Fr -> range q -> range q' -> (length q < n)%nat -> (length q' < n)%nat ->
  (n = 4%nat -> user_half q /\ user_half q') -> walk s c q = Some v -> walk s c q' = Some v -> q = q'.
Proof.
  induction n as [|n IH]; intros s t c Fr q q' v Hn4 I Hc Hnd Hr Hr' Hl Hl' Hu Hw Hw'; [lia|].
  assert (forall q v, range q -> (length q < S n)%nat -> (S n = 4%nat -> user_half q) -> walk s c q = Some v -> exists f, f ∈ Fr /\ v = fa_hhdm s + f * PAGE_SIZE) as Hin.
  { intros q0 v0 Hr0 Hl0 Hu0 Hw0. pose proof (copied_walk (S n) s t c Fr q0 Hn4 I Hc Hr0 Hl0 Hu0) as H. destruct (walk s t q0); [|congruence]. destruct H as (f & Hf & E & _). exists f. split; [done|congruence]. }
  pose proof Hc as Hc'. cbn [copied] in Hc. destruct Hc as (fc & -> & Hc). destruct (S n =? 1)%nat eqn:E1.
  { apply Nat.eqb_eq in E1. destruct q, q'; [done|cbn in *; lia..]. }
  destruct Hc as (G & -> & Hc). apply NoDup_cons in Hnd as [Hnf Hnd].
  assert (forall i q v, range (i :: q) -> (length (i :: q) < S n)%nat -> (S n = 4%nat -> user_half (i :: q)) -> walk s (fa_hhdm s + fc * PAGE_SIZE) (i :: q) = Some v ->
    0 <= i < limit (S n) /\ exists ck, child s (fa_hhdm s + fc * PAGE_SIZE) i = Some (fa_hhdm s + ck * PAGE_SIZE) /\ copied n s (below s t i) (fa_hhdm s + ck * PAGE_SIZE) (G i) /\ walk s (fa_hhdm s + ck * PAGE_SIZE) q = Some v /\
      exists f, f ∈ G i /\ v = fa_hhdm s + f * PAGE_SIZE) as Hstep.
  { intros i q0 v0 Hr0 Hl0 Hu0 Hw0. apply Forall_cons in Hr0 as [Hi Hr0]. cbn [length] in Hl0.
    assert (0 <= i < limit (S n)) as Hi'. { unfold limit. destruct (S n =? 4)%nat eqn:E4; [|lia]. apply Nat.eqb_eq in E4. specialize (Hu0 E4). cbn in Hu0. lia. }
    split; [done|]. specialize (Hc i Hi'). cbn [walk] in Hw0. destruct (has VMM_FLAG_PRESENT (rd s t i)) eqn:Hp; [|destruct Hc as [Hrd _]; unfold child in Hw0; by rewrite Hrd in Hw0].
    destruct Hc as (ck & Hck & Hrd & Hci). pose proof (copied_child s _ i ck _ I Hck Hrd Hp (rd_range s t i)) as Hch. rewrite Hch in Hw0. exists ck. split; [done|]. split; [done|]. split; [done|].
    pose proof (copied_walk n s (below s t i) _ (G i) q0 ltac:(lia) I Hci Hr0 ltac:(lia) ltac:(intros; exfalso; lia)) as H. destruct (walk s (below s t i) q0); [|congruence]. destruct H as (f & Hf & E & _). exists f. split; [done|congruence]. }
  assert (forall i q, range (i :: q) -> (length (i :: q) < S n)%nat -> (S n = 4%nat -> user_half (i :: q)) -> walk s (fa_hhdm s + fc * PAGE_SIZE) (i :: q) <> Some (fa_hhdm s + fc * PAGE_SIZE)) as Hroot.
  { intros i q0 Hr0 Hl0 Hu0 Hw0. destruct (Hstep i q0 _ Hr0 Hl0 Hu0 Hw0) as (Hi & ck & _ & _ & _ & f & Hf & E). assert (f = fc) as -> by (unfold PAGE_SIZE in *; lia).
    apply Hnf, list_elem_of_bind. exists i. split; [done|by apply elem_of_seqZ; lia]. }
  destruct q as [|i q], q' as [|i' q']; [done|..].
  - injection Hw as <-. by destruct (Hroot i' q' Hr' Hl' (fun E => proj2 (Hu E))).
  - injection Hw' as <-. by destruct (Hroot i q Hr Hl (fun E => proj1 (Hu E))).
  - destruct (Hstep i q v Hr Hl (fun E => proj1 (Hu E)) Hw) as (Hi & ck & Hch & Hck & Hwk & f & Hf & Ef). destruct (Hstep i' q' v Hr' Hl' (fun E => proj2 (Hu E)) Hw') as (Hi' & ck' & Hch' & Hck' & Hwk' & f' & Hf' & Ef').
    assert (f' = f) as -> by (unfold PAGE_SIZE in *; lia). assert (i = i') as <- by (apply (bind_disjoint G (seqZ 0 (limit (S n))) i i' f); [apply NoDup_seqZ|done|by apply elem_of_seqZ; lia|by apply elem_of_seqZ; lia|done|done]).
    f_equal. assert (fa_hhdm s + ck' * PAGE_SIZE = fa_hhdm s + ck * PAGE_SIZE) as E by congruence.
    rewrite E in Hwk'. apply Forall_cons in Hr as [_ Hr]. apply Forall_cons in Hr' as [_ Hr']. cbn [length] in *.
    apply (IH s (below s t i) _ (G i) q q' v ltac:(lia) I Hck); [apply (NoDup_part G (seqZ 0 (limit (S n)))); [done|apply elem_of_seqZ; lia]|done|done|lia|lia|intros; exfalso; lia|done|done].
Qed.
End Walks.

(** *** The root *)
Section Root.
Context {A : Type} `{FS : FrameAllocatorSpec A} (s0 : A) (P kern : Z).
Context (Hpt : pt_inv s0 P) (Hk : forall x, kern <= x < kern + PAGE_SIZE -> kept s0 x /\ ~ leaf_byte P s0 x).

Lemma kern_rd s j : evolves P s0 s -> 0 <= j < 512 -> rd s kern j = rd s0 kern j.
Proof. intros E Hj. apply rd_ext. intros x Hx. destruct (Hk x) as [H1 H2]; [unfold PAGE_SIZE; lia|]. by apply (ev_mem _ _ _ E). Qed.

Context (l : list Z) (s3 : A) (fc : Z) (Fr : list Z) (K : copy_ok P s0 [] P 4 l s3 fc Fr).
Let c := fa_hhdm s0 + fc * PAGE_SIZE.

Record kfill (i : Z) (s : A) : Prop := {
  kf_ev : evolves P s0 s;
  kf_count j : fa_count s j = fa_count s3 j;
  kf_child k : 0 <= k < 512 -> rd s c k = if decide (256 <= k < i) then rd s0 kern k else rd s3 c k;
  kf_parent q u j : path_ok q -> walk s0 P q = Some u -> 0 <= j < 512 -> rd s u j = rd s3 u j;
  kf_mem x : ~ in_frame (fa_hhdm s0) fc x -> get8 (fa_mem s) x = get8 (fa_mem s3) x }.

Lemma root_fresh : fc ∈ Fr /\ 0 < fc < 2 ^ 35 - 1 /\ fa_count s0 fc = None /\ fa_count s3 fc = Some 1.
Proof.
  destruct (co_fc _ _ _ _ _ _ _ _ _ K) as [H1 H2]. split; [done|]. split; [done|]. split; [by apply (co_fresh _ _ _ _ _ _ _ _ _ K)|].
  rewrite (co_count _ _ _ _ _ _ _ _ _ K). by rewrite decide_True.
Qed.

Lemma kfill_all : kfill 512 (for_loop 256 256 (fun i s => wr s c i (rd s kern i)) s3).
Proof.
  change 512 with (256 + Z.of_nat 256). destruct root_fresh as (_ & Hf & Hc0 & Hc1). apply (for_loop_inv kfill).
  - split; [apply K|done| |done|done]. intros k Hk'. by rewrite decide_False by lia.
  - intros i s Hi [E C Ch Pa M]. assert (rd s kern i = rd s0 kern i) as -> by (apply kern_rd; (done || lia)).
    destruct (child_write P s0 s fc i (rd s0 kern i) Hpt E Hc0 ltac:(by rewrite C) ltac:(lia) (rd_range _ _ _)) as (E' & C' & H' & Ch' & Rd' & M'). rewrite (ev_hhdm _ _ _ E) in *. fold c in E', C', H', Ch', Rd', M'. split.
    + done.
    + intros j. by rewrite C'.
    + intros k Hk'. rewrite Ch', Ch by done. repeat case_decide; subst; (done || lia).
    + intros q u j Hq Hu Hj. rewrite (Rd' q u j) by (done || by rewrite (ev_walk _ _ _ E)). by apply (Pa q).
    + intros x Hx. rewrite M' by done. by apply M.
Qed.

Context (s' : A) (KF : kfill 512 s').

Lemma root_copied : copied 4 s' P c Fr.
Proof.
  pose proof (co_copied _ _ _ _ _ _ _ _ _ K) as Hc. pose proof (co_nodup _ _ _ _ _ _ _ _ _ K) as Hnd. fold c in Hc. destruct KF as [E C Ch Pa M]. pose proof (co_ev _ _ _ _ _ _ _ _ _ K) as E3.
  rewrite copied_inner in * by lia. change (limit 4) with 256 in *. destruct Hc as (f & Ef & G & -> & Hc). assert (f = fc) as -> by (rewrite (ev_hhdm _ _ _ E3) in Ef; unfold c, PAGE_SIZE in *; lia).
  exists fc. split; [by rewrite (ev_hhdm _ _ _ E)|]. exists G. split; [done|]. intros i Hi. specialize (Hc i Hi). pose proof path_ok_nil as H0.
  rewrite (Pa [] P i H0 eq_refl) by lia. rewrite Ch, decide_False by lia. destruct (has VMM_FLAG_PRESENT (rd s3 P i)) eqn:Hp; [|done].
  destruct Hc as (ck & Hck & Hr & Hci). exists ck. split; [done|]. split; [done|]. apply NoDup_cons in Hnd as [Hnf _].
  assert (below s' P i = below s3 P i) as -> by (unfold below, phys_to_hhdm; by rewrite (Pa [] P i H0 eq_refl) by lia; rewrite (ev_hhdm _ _ _ E), (ev_hhdm _ _ _ E3)).
  rewrite (ev_hhdm _ _ _ E), <- (ev_hhdm _ _ _ E3). assert (path_ok [i]) as Hpi by (apply (limit_path [] 3); (done || lia)).
  apply (copied_kept 3 P s3 s' [i]); [done|done|done|cbn [walk]; unfold child; by rewrite Hp|by rewrite (ev_hhdm _ _ _ E), (ev_hhdm _ _ _ E3)| |].
  - intros q u j Hq _ Hu Hj. apply (Pa q); [done| |done]. by rewrite <- (ev_walk _ _ _ E3).
  - intros g x Hg Hx. apply M. rewrite (ev_hhdm _ _ _ E3) in Hx. intros Hxf. assert (g = fc) as -> by (unfold in_frame, PAGE_SIZE in *; lia).
    apply Hnf, list_elem_of_bind. exists i. split; [done|apply elem_of_seqZ; lia].
Qed.

Lemma root_kernel i : 256 <= i < 512 -> rd s' c i = rd s0 kern i.
Proof. intros Hi. by rewrite (kf_child _ _ KF i), decide_True by lia. Qed.

Lemma root_user q : upath q -> match walk s0 P q with
  | Some u => exists f, f ∈ Fr /\ walk s' c q = Some (fa_hhdm s0 + f * PAGE_SIZE) /\
      (length q = 3%nat -> forall j, 0 <= j < 512 -> rd s' (fa_hhdm s0 + f * PAGE_SIZE) j = if has VMM_FLAG_PRESENT (rd s' u j) then rd s' u j else 0)
  | None => walk s' c q = None
  end.
Proof.
  intros [(Hl & Hr & Hs) Hu]. pose proof (kf_ev _ _ KF) as E. pose proof (copied_walk 4 s' P c Fr q ltac:(lia) (ev_inv _ _ _ E) root_copied Hr ltac:(lia) (fun _ => Hu)) as H.
  rewrite (ev_walk _ _ _ E) in H by done. destruct (walk s0 P q) as [u|]; [|done]. destruct H as (f & Hf & Hwf & He). rewrite (ev_hhdm _ _ _ E) in *. exists f. split; [done|]. split; [done|].
  intros Hlq. apply He. lia.
Qed.

Lemma root_leaf q j : upath q -> length q = 3%nat -> 0 <= j < 512 ->
  leaf s' P q j = shared_entry (leaf s0 P q j) /\ leaf s' c q j = if has VMM_FLAG_PRESENT (leaf s0 P q j) then shared_entry (leaf s0 P q j) else 0.
Proof.
  intros Hq Hl Hj. pose proof (kf_ev _ _ KF) as E. pose proof (co_ev _ _ _ _ _ _ _ _ _ K) as E3. assert (leaf s' P q j = shared_entry (leaf s0 P q j)) as E1.
  { rewrite <- (co_in _ _ _ _ _ _ _ _ _ K q j Hq Hl Hj ltac:(by exists q)). unfold leaf. rewrite (ev_walk _ _ _ E), (ev_walk _ _ _ E3) by apply Hq.
    destruct (walk s0 P q) as [u|] eqn:Hu; [|done]. by apply (kf_parent _ _ KF q u j (proj1 Hq)). }
  split; [done|]. pose proof (root_user q Hq) as H. pose proof (leaf_range s0 P q j) as Hr. destruct (walk s0 P q) as [u|] eqn:Hu.
  - destruct H as (f & _ & Hw & He). unfold leaf at 1. rewrite Hw, He by done. assert (rd s' u j = leaf s' P q j) as -> by (unfold leaf; by rewrite (ev_walk _ _ _ E), Hu by apply Hq).
    rewrite E1, shared_present by done. done.
  - unfold leaf at 1. rewrite H. unfold leaf. rewrite Hu. done.
Qed.

Lemma root_inv : pt_inv s' c.
Proof.
  pose proof (kf_ev _ _ KF) as E. split; [apply E|..].
  - intros q v Hq Hw. pose proof (root_user q (path_upath q Hq)) as H. destruct (walk s0 P q); [|congruence]. destruct H as (f & Hf & E1 & _). exists f, 1.
    assert (fa_count s' f = Some 1) as Hc by (rewrite (kf_count _ _ KF), (co_count _ _ _ _ _ _ _ _ _ K); by rewrite decide_True).
    rewrite (ev_hhdm _ _ _ E). split; [congruence|]. split; [done|]. eapply count_open; [apply E|done|done].
  - intros q q' v Hq Hq' Hw Hw'. destruct (path_upath q Hq) as [(Hl & Hr & _) Hu], (path_upath q' Hq') as [(Hl' & Hr' & _) Hu'].
    apply (copied_inj 4 s' P c Fr q q' v ltac:(lia) (ev_inv _ _ _ E) root_copied (co_nodup _ _ _ _ _ _ _ _ _ K) Hr Hr'); (done || lia).
Qed.
End Root.

Section Fork.
Context {A : Type} `{FS : FrameAllocatorSpec A}.
Implicit Types (s : A).

Lemma vmm_copy_unfold n s kern parent : vmm_copy_hierarchy (S n) s kern parent =
  (let '(child_phys, s) := fa_alloc s in
   if child_phys =? 0 then (0, s)
   else
     let child := phys_to_hhdm s child_phys in
     let s := zero_page s child in
     if (1 <? S n)%nat then
       match copy_entries (fun s t => vmm_copy_hierarchy n s kern t) (S n) parent child
               (if (S n =? 4)%nat then 256 else 512) s with
       | inr s => (0, s)
       | inl s => (child_phys, if (S n =? 4)%nat then for_loop 256 256 (fun i s => wr s child i (rd s kern i)) s else s)
       end
     else (child_phys, for_loop 512 0 (fun i s => copy_leaf parent child i s) s)).
Proof. reflexivity. Qed.

Lemma evolves_virt P s s' : evolves P s s' -> forall x, 0 <= x < 2 ^ 47 -> vmm_virt2phys s' P x = vmm_virt2phys s P x.
Proof.
  intros E x Hx. rewrite !virt2phys_lookup. destruct (ev_leaf _ _ _ E (va_path x) (tbl_index x PT_INDEX)) as [El|[_ El]]; [apply (va_user x Hx)|done|apply tbl_index_range|..];
    change (leaf s' P _ _) with (lookup_pte s' P x) in El; change (leaf s P _ _) with (lookup_pte s P x) in El; rewrite El; [done|].
  by rewrite shared_present, shared_addr by apply leaf_range.
Qed.

Lemma copy_room P s p t n l s' fc Fr : copy_ok P s p t n l s' fc Fr -> room s (tables n s t).
Proof.
  intros K. exists Fr. split; [apply K|]. split; [apply K|]. intros f Hf. split; [|by apply (co_fresh _ _ _ _ _ _ _ _ _ K)].
  apply (fa_count_ok s' f 1); [apply K|]. rewrite (co_count _ _ _ _ _ _ _ _ _ K). by rewrite decide_True.
Qed.

Lemma copy_root s0 kern P : pt_inv s0 P -> incable s0 (leaf_pages 4 s0 P) ->
  let '(child_phys, s') := vmm_copy_hierarchy 4 s0 kern P in
  (child_phys = 0 /\ gave_up P s0 (tables 4 s0 P) s') \/
  exists fc Fr s3, child_phys = fc * PAGE_SIZE /\ copy_ok P s0 [] P 4 (leaf_pages 4 s0 P) s3 fc Fr /\
    s' = for_loop 256 256 (fun i s => wr s (fa_hhdm s0 + fc * PAGE_SIZE) i (rd s kern i)) s3.
Proof.
  intros Hpt Hinc. rewrite vmm_copy_unfold. destruct (alloc_zero s0 (pt_fa _ _ Hpt)) as [(fc & s1 & -> & Hfc & Hcn & Hv & U & C1 & Co & Z1)|[-> Ex]].
  2: { cbv beta iota. rewrite Z.eqb_refl. left. split; [reflexivity|]. apply no_root; (done || lia). }
  rewrite (proj2 (Z.eqb_neq _ _)) by (unfold PAGE_SIZE; lia). rewrite Hv. change (1 <? 4)%nat with true. change (4 =? 4)%nat with true. cbv iota.
  pose proof (upto_start P s0 [] P fc 3 _ Hpt upath_nil eq_refl Hfc Hcn U C1 Co Z1) as U0.
  pose proof (copy_entries_spec P s0 [] P fc 3 (fun s t => vmm_copy_hierarchy 3 s kern t) Hpt upath_nil eq_refl ltac:(lia) eq_refl Hcn Hinc) as H.
  specialize (H ltac:(intros; apply copy_table; (done || lia)) _ U0). change (limit 4) with 256 in H. cbv zeta. destruct (copy_entries _ _ _ _ _ _) as [s3|s3].
  - destruct H as [G UG]. right. exists fc. eexists _, s3. split; [reflexivity|]. split; [|reflexivity].
    apply (upto_copy_ok P s0 [] P fc 3 s3 G Hpt upath_nil eq_refl ltac:(lia) eq_refl Hfc). exact UG.
  - left. split; [reflexivity|]. exact H.
Qed.

(** C35: Forking an address space.  For a parent whose tables are its own and whose page
    frames can take another reference, [vmm_copy_hierarchy] succeeds exactly when there
    is a free frame for each table of the parent's user half.  In both cases the parent
    translates every address as before, and no byte in use is changed outside its
    last-level tables.  When it fails, every frame has the reference count it had.  When
    it succeeds, the child is a second tree of tables: at every address of the user half
    it translates as the parent; a private page is read-only in both, so that the next
    write to it is a fault for [vmm_handle_cow]; a shared page keeps its rights.  The
    kernel half of the child is the kernel's.  Each private page has one more reference
    for every entry that names it. *)
Theorem vmm_copy_hierarchy_correct s kern P : pt_inv s P -> incable s (leaf_pages 4 s P) ->
  (forall x, kern <= x < kern + PAGE_SIZE -> kept s x /\ ~ leaf_byte P s x) ->
  let '(child_phys, s') := vmm_copy_hierarchy 4 s kern P in
  pt_inv s' P /\ (forall x, 0 <= x < 2 ^ 47 -> vmm_virt2phys s' P x = vmm_virt2phys s P x) /\
  (forall x, kept s x -> ~ leaf_byte P s x -> get8 (fa_mem s') x = get8 (fa_mem s) x) /\
  ((child_phys = 0 /\ ~ room s (tables 4 s P) /\
    (forall x, 0 <= x < 2 ^ 47 -> let e := lookup_pte s P x in lookup_pte s' P x = e \/ lookup_pte s' P x = shared_entry e) /\
    forall j, fa_count s' j = fa_count s j) \/
   (let C := phys_to_hhdm s' child_phys in
    child_phys <> 0 /\ room s (tables 4 s P) /\ pt_inv s' C /\
    (forall x, 0 <= x < 2 ^ 47 -> let e := lookup_pte s P x in
       vmm_virt2phys s' C x = vmm_virt2phys s P x /\
       (private e = true -> has VMM_FLAG_WRITABLE (lookup_pte s' P x) = false /\ has VMM_FLAG_WRITABLE (lookup_pte s' C x) = false) /\
       (private e = false -> lookup_pte s' P x = e /\ (has VMM_FLAG_PRESENT e = true -> lookup_pte s' C x = e))) /\
    (forall i, 256 <= i < 512 -> rd s' C i = rd s kern i) /\
    (forall j r, fa_count s j = Some r -> fa_count s' j = Some (r + occ j (leaf_pages 4 s P))))).
Proof.
  intros Hpt Hinc Hk. pose proof (copy_root s kern P Hpt Hinc) as H. destruct (vmm_copy_hierarchy 4 s kern P) as [cp s']. destruct H as [[-> (Hr & E & Hc)]|(fc & Fr & s3 & -> & K & ->)].
  { split; [by apply (evolves_inv P s)|]. split; [by apply evolves_virt|]. split; [apply E|]. left. split; [done|]. split; [done|]. split; [|done].
    intros x Hx. destruct (ev_leaf _ _ _ E (va_path x) (tbl_index x PT_INDEX)) as [?|[_ ?]]; [apply (va_user x Hx)|done|apply tbl_index_range|by left|by right]. }
  pose proof (kfill_all s P kern Hpt Hk _ s3 fc Fr K) as KF. set (s' := for_loop 256 256 _ s3) in *. clearbody s'. pose proof (kf_ev _ _ _ _ _ _ _ KF) as E.
  destruct (co_fc _ _ _ _ _ _ _ _ _ K) as [Hfc _]. assert (phys_to_hhdm s' (fc * PAGE_SIZE) = fa_hhdm s + fc * PAGE_SIZE) as ->.
  { rewrite phys_to_hhdm_add by (apply E || (unfold PAGE_SIZE; lia)). by rewrite (ev_hhdm _ _ _ E). }
  cbv zeta. set (C := fa_hhdm s + fc * PAGE_SIZE). split; [by apply (evolves_inv P s)|]. split; [by apply evolves_virt|]. split; [apply E|]. right.
  split; [unfold PAGE_SIZE; lia|]. split; [by eapply copy_room|]. split; [exact (root_inv s P kern _ s3 fc Fr K s' KF)|]. split; [|split].
  - intros x Hx. set (e := lookup_pte s P x). pose proof (leaf_range s P (va_path x) (tbl_index x PT_INDEX) : is_u64 e) as He.
    destruct (root_leaf s P kern _ s3 fc Fr K s' KF (va_path x) (tbl_index x PT_INDEX) (va_user x Hx) eq_refl (tbl_index_range _ _)) as [E1 E2].
    change (leaf s' P _ _) with (lookup_pte s' P x) in E1. change (leaf s' _ _ _) with (lookup_pte s' C x) in E2. change (leaf s P _ _) with e in E1, E2.
    rewrite !virt2phys_lookup. fold e. rewrite E1, E2. split; [|split].
    + destruct (has VMM_FLAG_PRESENT e) eqn:Hp; [|done]. by rewrite shared_present, shared_addr, Hp.
    + intros Hpr. unfold shared_entry. rewrite Hpr. assert (has VMM_FLAG_PRESENT e = true) as -> by (by apply andb_true_iff in Hpr as [? _]). by rewrite ro_writable.
    + intros Hpr. unfold shared_entry. rewrite Hpr. split; [done|]. by intros ->.
  - exact (root_kernel s P kern s3 fc s' KF).
  - intros j r Hj. rewrite (kf_count _ _ _ _ _ _ _ KF), (co_count _ _ _ _ _ _ _ _ _ K). rewrite decide_False; [by rewrite Hj|]. intros Hin. apply (co_fresh _ _ _ _ _ _ _ _ _ K) in Hin. congruence.
Qed.
End Fork.

(** *** A task with one writable page forks *)
Definition demo_task : pstate := vmm_map_page demo_space demo_root 0x400000 demo_pa (Z.lor VMM_FLAG_USER VMM_FLAG_WRITABLE).
Definition demo_fork : pstate := snd (vmm_new_pml4 demo_task demo_root).
Definition demo_master : Z := 0x107.

Lemma demo_task_ok : pt_inv demo_task demo_root.
Proof.
  destruct demo_space_ok as (Hpt & _). apply (vmm_map_page_spec demo_space demo_root 0x400000 demo_pa (Z.lor VMM_FLAG_USER VMM_FLAG_WRITABLE) Hpt).
  - reflexivity.
  - unfold is_u64, demo_pa. lia.
  - reflexivity.
  - vm_compute. split; [discriminate|reflexivity].
  - rewrite demo_space_empty. discriminate.
Qed.

Lemma demo_task_kern : kern_page demo_task demo_root.
Proof. intros x Hx. apply (table_byte_kept demo_task demo_root); [exact demo_task_ok|]. exists [], demo_root. split; [apply path_ok_nil|]. by split. Qed.

Lemma demo_fork_new : new_space demo_task demo_root demo_fork demo_master.
Proof.
  assert (fst (vmm_new_pml4 demo_task demo_root) = demo_master * PAGE_SIZE) as E by (vm_compute; reflexivity). unfold demo_fork.
  pose proof demo_task_ok as Hpt. pose proof demo_task_kern as Hk. generalize dependent demo_task. intros s E Hpt Hk.
  destruct (new_pml4_spec s demo_root (pt_fa _ _ Hpt) Hk) as [[En _]|(fr & s1 & En & N)]; rewrite En in *; cbn [fst snd] in *; [discriminate E|].
  assert (fr = demo_master) as <- by (unfold PAGE_SIZE in E; lia). exact N.
Qed.

(** The new root is nobody's table. *)
Lemma demo_fork_kern x : 0x800000107000 <= x < 0x800000107000 + PAGE_SIZE -> kept demo_fork x /\ ~ leaf_byte demo_root demo_fork x.
Proof.
  assert (fa_hhdm demo_task + demo_master * PAGE_SIZE = 0x800000107000) as R by (vm_compute; reflexivity). rewrite <- R.
  pose proof demo_task_ok as Hpt. pose proof demo_fork_new as N. clear R. generalize dependent demo_fork. generalize dependent demo_task. intros s Hpt s1 N Hx.
  destruct (undisturbed_tree s s1 demo_root Hpt (nw_un _ _ _ _ N)) as (Hpt1 & Hw & _). split.
  - apply (table_byte_kept s1 (fa_hhdm s + demo_master * PAGE_SIZE)); [apply N|]. eexists [], _. split; [apply path_ok_nil|]. by split.
  - intros (q & t & [Hq _] & _ & Hwq & Ht). rewrite Hw in Hwq by done. destruct (pt_frame _ _ Hpt q t Hq Hwq) as (g & r & -> & Hg & _). destruct (nw_free _ _ _ _ N) as [_ Hn].
    assert (g = demo_master) as -> by (change (fa_hhdm s) with (hhdm_offset s) in *; unfold PAGE_SIZE in *; lia). congruence.
Qed.

Lemma demo_fork_pages : leaf_pages 4 demo_fork demo_root = [demo_pa] /\ fa_count demo_fork 0x102 = Some 2.
Proof. vm_compute. repeat split. Qed.

Lemma vmm_copy_hierarchy_correct_witness :
  let '(child_phys, s') := vmm_copy_hierarchy 4 demo_fork 0x800000107000 demo_root in
  child_phys = 0x108000 /\ pt_inv s' 0x800000108000 /\ fa_count s' 0x102 = Some 3 /\
  vmm_virt2phys s' 0x800000108000 0x400123 = 0x102123 /\ has VMM_FLAG_WRITABLE (lookup_pte s' demo_root 0x400123) = false.
Proof.
  destruct (undisturbed_tree demo_task demo_fork demo_root demo_task_ok (nw_un _ _ _ _ demo_fork_new)) as (Hpt & _).
  destruct demo_fork_pages as (L & C). pose proof demo_fork_kern as Hk.
  assert (fst (vmm_copy_hierarchy 4 demo_fork 0x800000107000 demo_root) = 0x108000) as E by (vm_compute; reflexivity).
  assert (phys_to_hhdm (snd (vmm_copy_hierarchy 4 demo_fork 0x800000107000 demo_root)) 0x108000 = 0x800000108000) as Ep by (vm_compute; reflexivity).
  assert (vmm_virt2phys demo_fork demo_root 0x400123 = 0x102123) as Ev by (vm_compute; reflexivity).
  assert (private (lookup_pte demo_fork demo_root 0x400123) = true) as Epr by (vm_compute; reflexivity).
  pose proof (vmm_copy_hierarchy_correct demo_fork 0x800000107000 demo_root Hpt) as H. rewrite L in H. generalize dependent demo_fork. intros s Hpt L C Hk E Ep Ev Epr H.
  assert (incable s [demo_pa]) as Hinc by (intros i (a & Ha & <-)%occ_pos; apply list_elem_of_singleton in Ha as ->; exists 2; split; [exact C|vm_compute; split; reflexivity]).
  specialize (H Hinc Hk).
  destruct (vmm_copy_hierarchy 4 s 0x800000107000 demo_root) as [cp s']. cbn [fst snd] in E, Ep. subst cp. destruct H as (_ & _ & _ & [[H _]|H]); [discriminate H|].
  rewrite Ep in H. destruct H as (_ & _ & H1 & H2 & _ & H4). destruct (H2 0x400123 ltac:(lia)) as (H5 & H6 & _).
  split; [reflexivity|]. split; [exact H1|]. split; [exact (H4 _ _ C)|]. split; [rewrite H5; exact Ev|exact (proj1 (H6 Epr))].
Defined.
