(* ===== verification/FatTable.v ===== *)
(** FAT32, [src/src/fs/fat32.c]: the volume, the sector cache and the allocation table.

    [fat32] holds the driver's globals that change: the drives and the cache of FAT
    sectors.  [fatvol] holds those that [fat32_init_fs] sets once.  The reference reading
    of the table is [fat_at]: the entry of a cluster, straight from the disk.  The cache
    is write-through; [cache_ok] says that it agrees with the disk. *)
From S2P Require Import Prelude Machine Ata.

Definition EOC : Z := 0x0FFFFFF8.
Definition FAT_CACHE_SIZE : nat := 64.

Record FatCacheEntry := CacheEntry { c_lba : Z; last_used : Z; c_valid : bool; c_data : mem }.

(** The fields of the boot sector the driver uses and the globals derived from them. *)
Record fatvol := FatVol {
  bytes_per_sector : Z;
  sectors_per_cluster : Z;
  reserved_sectors : Z;
  fats_num : Z;
  sectors_per_fat32 : Z;
  root_cluster : Z;
  g_partition_lba : Z;
  g_data_start_lba : Z;
  g_bytes_per_cluster : Z;
  g_drive_sel : Z }.

Record fat32 := Fat { drv : drives; g_fat_cache : list FatCacheEntry; g_fat_cache_tick : Z }.

(** ** The cache *)
Definition fat_cache_invalidate (st : fat32) : fat32 :=
  Fat (drv st) ((fun e => CacheEntry (c_lba e) (last_used e) false (c_data e)) <$> g_fat_cache st)
    (g_fat_cache_tick st).

(** The first valid entry that holds [lba]. *)
Fixpoint cache_find (cs : list FatCacheEntry) (lba : Z) : option nat :=
  match cs with
  | [] => None
  | e :: cs => if c_valid e && (c_lba e =? lba) then Some 0%nat else S <$> cache_find cs lba
  end.

(** The entry to replace: the first that is not valid, or else the least recently used;
    [best] and [used] are the victim so far and its [last_used]. *)
Fixpoint cache_victim (cs : list FatCacheEntry) (i best : nat) (used : Z) : nat :=
  match cs with
  | [] => best
  | e :: cs =>
      if negb (c_valid e) then i
      else if last_used e <? used then cache_victim cs (S i) i (last_used e)
      else cache_victim cs (S i) best used
  end.

Definition cache_entry (st : fat32) (i : nat) : FatCacheEntry :=
  nth i (g_fat_cache st) (CacheEntry 0 0 false ∅).

Section Volume.
Context (v : fatvol).
Implicit Types (st : fat32) (buf : mem).

Definition fat_cache_read_sector (st : fat32) (lba : Z) (out_buf : mem) : mem * fat32 :=
  let tick := u32 (g_fat_cache_tick st + 1) in
  match cache_find (g_fat_cache st) lba with
  | Some i =>
      let e := cache_entry st i in
      (blit out_buf 0 (c_data e) 0 SECTOR_SIZE,
       Fat (drv st) (<[i := CacheEntry (c_lba e) tick (c_valid e) (c_data e)]> (g_fat_cache st)) tick)
  | None =>
      let victim := cache_victim (g_fat_cache st) 0 0 (last_used (cache_entry st 0)) in
      let data := ata_read_sectors (drv st) (c_data (cache_entry st victim)) lba 1 (g_drive_sel v) in
      (blit out_buf 0 data 0 SECTOR_SIZE,
       Fat (drv st) (<[victim := CacheEntry lba tick true data]> (g_fat_cache st)) tick)
  end.

Definition fat_cache_write_sector (st : fat32) (lba : Z) (in_buf : mem) : fat32 :=
  let tick := u32 (g_fat_cache_tick st + 1) in
  let cache := match cache_find (g_fat_cache st) lba with
    | Some slot =>
        let e := cache_entry st slot in
        <[slot := CacheEntry (c_lba e) tick (c_valid e) (blit (c_data e) 0 in_buf 0 SECTOR_SIZE)]> (g_fat_cache st)
    | None => g_fat_cache st
    end in
  Fat (ata_write_sectors (drv st) in_buf lba 1 (g_drive_sel v)) cache tick.

(** ** The allocation table *)
Definition fat32_cluster_to_lba (cluster : Z) : Z :=
  if cluster <? 2 then g_data_start_lba v
  else u32 (g_data_start_lba v + u32 (u32 (cluster - 2) * sectors_per_cluster v)).

Definition fat32_read_fat (st : fat32) (cluster : Z) : Z * fat32 :=
  let fat_offset := u32 (cluster * 4) in
  let fat_sector := u32 (u32 (g_partition_lba v + reserved_sectors v) + fat_offset / bytes_per_sector v) in
  let ent_offset := fat_offset mod bytes_per_sector v in
  let '(tmp_buf, st) := fat_cache_read_sector st fat_sector ∅ in
  (Z.land (load32 tmp_buf ent_offset) 0x0FFFFFFF, st).

Definition fat32_write_fat_entry (st : fat32) (cluster value : Z) : fat32 :=
  let fat_start_lba := u32 (g_partition_lba v + reserved_sectors v) in
  let fat_sector_offset := u32 (cluster * 4) / SECTOR_SIZE in
  let entry_offset := u32 (cluster * 4) mod SECTOR_SIZE in
  let target_lba := u32 (fat_start_lba + fat_sector_offset) in
  let '(tmp_buf, st) := fat_cache_read_sector st target_lba ∅ in
  fat_cache_write_sector st target_lba (store32 tmp_buf entry_offset value).

(** The inner loop of [fat32_find_free_cluster] over sector [i] of the table. *)
Definition free_in_sector (tmp_buf : mem) (i : Z) : option Z :=
  scan 128 0 (fun j => negb ((i =? 0) && (u32 (i * 128 + j) <? 2)) &&
                       (Z.land (load32 tmp_buf (4 * j)) 0x0FFFFFFF =? 0)).

Fixpoint find_free_from (n : nat) (st : fat32) (i : Z) (tmp_buf : mem) : Z * fat32 :=
  match n with
  | O => (-1, st)
  | S n =>
      let lba := u32 (u32 (g_partition_lba v + reserved_sectors v) + i) in
      let '(tmp_buf, st) := fat_cache_read_sector st lba tmp_buf in
      match free_in_sector tmp_buf i with
      | Some j => (u32 (i * 128 + j), st)
      | None => find_free_from n st (i + 1) tmp_buf
      end
  end.

Definition fat32_find_free_cluster (st : fat32) : Z * fat32 :=
  find_free_from (Z.to_nat (sectors_per_fat32 v)) st 0 ∅.

(** A walk along a chain that stops at the first entry that is not a cluster; [body]
    sees each cluster before its entry is read. *)
Fixpoint free_chain (fuel : nat) (st : fat32) (curr_cluster : Z) : option fat32 :=
  match fuel with
  | O => None
  | S n =>
      if (2 <=? curr_cluster) && (curr_cluster <? EOC) then
        let '(next_cluster, st) := fat32_read_fat st curr_cluster in
        free_chain n (fat32_write_fat_entry st curr_cluster 0) next_cluster
      else Some st
  end.
End Volume.

(** A node of the file system: what [vfs_node_t] and its [fat32_node_data] hold. *)
Record fat_node := FatNode {
  fn_flags : Z; fn_length : Z; first_cluster : Z; sector_lba : Z; fn_offset : Z }.

Definition VFS_FILE : Z := 0x01.
Definition VFS_DIRECTORY : Z := 0x02.

(** [fat32_init_fs] reads the volume's parameters from its boot sector ([fat32_bpb] is
    packed: the offsets are those of its fields) and returns the root directory;
    [node_ok], [data_ok]: whether the two allocations succeed. *)
Definition fat32_init_fs (node_ok data_ok : bool) (st : fat32) (partition_lba drive_sel : Z)
    : fatvol * fat32 * option fat_node :=
  let st := fat_cache_invalidate st in
  let b := ata_read_sectors (drv st) ∅ partition_lba 1 drive_sel in
  let bps := load 2 b 11 in
  let spc := get8 b 13 in
  let reserved := load 2 b 14 in
  let fats := get8 b 16 in
  let spf := load32 b 36 in
  let fats_region := u32 (fats * spf) in
  let v := FatVol bps spc reserved fats spf (load32 b 44) partition_lba
     (u32 (u32 (partition_lba + reserved) + fats_region)) (spc * bps) drive_sel in
  (v, st, if node_ok && data_ok then Some (FatNode VFS_DIRECTORY 0 (root_cluster v) 0 0) else None).

(** ** The volume on disk *)
Definition disk (v : fatvol) (st : fat32) : mem := drive (drv st) (g_drive_sel v).
Definition fat_lba (v : fatvol) : Z := g_partition_lba v + reserved_sectors v.
Definition nclusters (v : fatvol) : Z := sectors_per_fat32 v * 128.
Definition entry_addr (v : fatvol) (c : Z) : Z := fat_lba v * SECTOR_SIZE + 4 * c.

(** The table entry of [c], as it is on disk. *)
Definition fat_at (v : fatvol) (d : mem) (c : Z) : Z := Z.land (load32 d (entry_addr v c)) 0x0FFFFFFF.

(** The first byte of a cluster. *)
Definition cluster_addr (v : fatvol) (c : Z) : Z :=
  (g_data_start_lba v + (c - 2) * sectors_per_cluster v) * SECTOR_SIZE.

(** A volume with 512-byte sectors whose regions lie one after the other within the
    sectors the drive can address. *)
Record vol_ok (v : fatvol) : Prop := {
  vol_bps : bytes_per_sector v = SECTOR_SIZE;
  vol_spc : 0 < sectors_per_cluster v <= 128;
  vol_bpc : g_bytes_per_cluster v = sectors_per_cluster v * SECTOR_SIZE;
  vol_sel : 0 <= g_drive_sel v < 2;
  vol_lba : 0 <= g_partition_lba v /\ 0 <= reserved_sectors v;
  vol_spf : 0 < sectors_per_fat32 v;
  vol_ncl : nclusters v <= EOC;
  vol_data : fat_lba v + sectors_per_fat32 v <= g_data_start_lba v;
  vol_end : g_data_start_lba v + nclusters v * sectors_per_cluster v <= 2 ^ 28 }.

(** The cache holds sectors of the table, none twice, as they are on disk. *)
Record cache_ok (v : fatvol) (st : fat32) : Prop := {
  co_len : length (g_fat_cache st) = FAT_CACHE_SIZE;
  co_fat i e : g_fat_cache st !! i = Some e -> c_valid e = true ->
    fat_lba v <= c_lba e < fat_lba v + sectors_per_fat32 v;
  co_data i e a : g_fat_cache st !! i = Some e -> c_valid e = true -> 0 <= a < SECTOR_SIZE ->
    get8 (c_data e) a = get8 (disk v st) (c_lba e * SECTOR_SIZE + a);
  co_uniq i j e e' : g_fat_cache st !! i = Some e -> g_fat_cache st !! j = Some e' ->
    c_valid e = true -> c_valid e' = true -> c_lba e = c_lba e' -> i = j }.

Section Cache.
Implicit Types (cs : list FatCacheEntry) (lba : Z).

Lemma cache_find_Some cs lba i : cache_find cs lba = Some i ->
  exists e, cs !! i = Some e /\ c_valid e = true /\ c_lba e = lba.
Proof.
  revert i. induction cs as [|e cs IH]; intros i; simpl; [done|].
  destruct (c_valid e && (c_lba e =? lba)) eqn:E.
  - intros [= <-]. apply andb_prop in E as [? ?%Z.eqb_eq]. by exists e.
  - intros (j & Hj & ->)%fmap_Some. simpl. by apply IH.
Qed.

Lemma cache_find_None cs lba : cache_find cs lba = None ->
  forall i e, cs !! i = Some e -> c_valid e = true -> c_lba e <> lba.
Proof.
  induction cs as [|e cs IH]; simpl; [done|].
  destruct (c_valid e && (c_lba e =? lba)) eqn:E; [done|]. intros Hn%fmap_None [|i] e' He Hv; simpl in *.
  - injection He as <-. rewrite Hv in E. simpl in E. by apply Z.eqb_neq.
  - by eapply IH.
Qed.

(** The victim is an entry. *)
Lemma cache_victim_lt cs i best used : (best < i + length cs)%nat ->
  (cache_victim cs i best used < i + length cs)%nat.
Proof.
  revert i best used. induction cs as [|e cs IH]; intros i best used Hb; simpl in *; [lia|].
  destruct (c_valid e); simpl; [|lia]. rewrite <- Nat.add_succ_comm.
  destruct (_ <? _); apply IH; lia.
Qed.

(** No entry was used longer ago than the victim of a full cache. *)
Lemma cache_victim_lru cs0 cs i best used e :
  cs0 = take i cs0 ++ cs -> (best < length cs0)%nat -> i = length (take i cs0) ->
  cs0 !! best = Some e -> last_used e = used ->
  (forall j e', cs0 !! j = Some e' -> c_valid e' = true) ->
  (forall j e', (j < i)%nat -> cs0 !! j = Some e' -> used <= last_used e') ->
  exists e1, cs0 !! cache_victim cs i best used = Some e1 /\
    forall j e', cs0 !! j = Some e' -> last_used e1 <= last_used e'.
Proof.
  revert i best used e. induction cs as [|x cs IH]; intros i best used e Hs Hb Hi He Hu Hv Hm; simpl.
  - exists e. split; [done|]. intros j e' Hj. rewrite Hu. apply (Hm j); [|done].
    apply lookup_lt_Some in Hj. rewrite Hs, length_app in Hj. simpl in Hj. lia.
  - assert (cs0 !! i = Some x) as Hx.
    { rewrite Hs, lookup_app_r by lia. rewrite Hi at 1. rewrite <- Hi, Nat.sub_diag. done. }
    rewrite (Hv i x Hx). simpl. pose proof (lookup_lt_Some _ _ _ Hx).
    assert (cs0 = take (S i) cs0 ++ cs).
    { rewrite (take_S_r _ _ _ Hx), <- app_assoc. done. }
    destruct (Z.ltb_spec (last_used x) used).
    + eapply IH; [done| |rewrite length_take; lia|exact Hx|done|done|]; [lia|].
      intros j e' Hj He'. destruct (decide (j = i)) as [->|]; [simplify_eq; lia|].
      transitivity used; [lia|]. apply (Hm j); [lia|done].
    + eapply IH; [done|done|rewrite length_take; lia|exact He|done|done|].
      intros j e' Hj He'. destruct (decide (j = i)) as [->|]; [simplify_eq; lia|]. apply (Hm j); [lia|done].
Qed.
End Cache.

(** ** The cache agrees with the disk *)
Section CacheOk.
Context (v : fatvol) (V : vol_ok v).
Implicit Types (st : fat32) (buf : mem) (lba a c : Z).

Lemma fat_sector_28 lba : fat_lba v <= lba < fat_lba v + sectors_per_fat32 v -> 0 <= lba < 2 ^ 28.
Proof using V.
  intros H. destruct V. unfold fat_lba, nclusters in *. nia.
Qed.

Lemma cache_entry_lookup st i e : g_fat_cache st !! i = Some e -> cache_entry st i = e.
Proof. intros H. unfold cache_entry. apply nth_lookup_Some. done. Qed.

(** Changing one entry of a good cache to another good one. *)
Lemma cache_ok_insert st i e t : cache_ok v st -> (i < FAT_CACHE_SIZE)%nat -> c_valid e = true ->
  fat_lba v <= c_lba e < fat_lba v + sectors_per_fat32 v ->
  (forall a, 0 <= a < SECTOR_SIZE -> get8 (c_data e) a = get8 (disk v st) (c_lba e * SECTOR_SIZE + a)) ->
  (forall j e', j <> i -> g_fat_cache st !! j = Some e' -> c_valid e' = true -> c_lba e' <> c_lba e) ->
  cache_ok v (Fat (drv st) (<[i := e]> (g_fat_cache st)) t).
Proof.
  intros [Hlen Hfat Hdata Huniq] Hi Hv Hl Hd Hu.
  assert (forall j e', <[i := e]> (g_fat_cache st) !! j = Some e' ->
            (j = i /\ e' = e) \/ (j <> i /\ g_fat_cache st !! j = Some e')) as Hcase.
  { intros j e' He. destruct (decide (j = i)) as [->|].
    - rewrite list_lookup_insert_eq in He by lia. left. split; congruence.
    - rewrite list_lookup_insert_ne in He by done. by right. }
  constructor; cbn [g_fat_cache drv]; change (disk v (Fat (drv st) _ t)) with (disk v st).
  - by rewrite length_insert.
  - intros j e' [[-> ->]|[Hj He]]%Hcase; eauto.
  - intros j e' a [[-> ->]|[Hj He]]%Hcase; eauto.
  - intros j k e1 e2 [[-> ->]|[Hj He]]%Hcase [[-> ->]|[Hk He2]]%Hcase V1 V2 E; [done| | |by eapply Huniq].
    + destruct (Hu k e2); done.
    + destruct (Hu j e1); done.
Qed.

Lemma cache_read_ok st lba out : cache_ok v st -> fat_lba v <= lba < fat_lba v + sectors_per_fat32 v ->
  exists buf st', fat_cache_read_sector v st lba out = (buf, st') /\ cache_ok v st' /\ drv st' = drv st /\
    forall a, get8 buf a = if bool_decide (0 <= a < SECTOR_SIZE) then get8 (disk v st) (lba * SECTOR_SIZE + a) else get8 out a.
Proof using V.
  intros C Hl. pose proof (fat_sector_28 lba Hl) as H28. unfold fat_cache_read_sector.
  destruct (cache_find (g_fat_cache st) lba) as [i|] eqn:E.
  - destruct (cache_find_Some _ _ _ E) as (e & He & Hv & Hlba). rewrite (cache_entry_lookup _ _ _ He).
    eexists _, _. split; [done|]. split_and!; [|done|].
    + apply cache_ok_insert; cbn [c_valid c_lba c_data]; [done| |done|by rewrite Hlba| |].
      * apply lookup_lt_Some in He. by rewrite (co_len _ _ C) in He.
      * intros a Ha. by eapply co_data.
      * intros j e' Hj He' Hv' Heq. apply Hj. by eapply (co_uniq _ _ C).
    + intros a. rewrite get8_blit by done. rewrite !Z.add_0_l, Z.sub_0_r. case_bool_decide as Ha; [|done].
      rewrite (co_data _ _ C _ _ a He Hv Ha). by rewrite Hlba.
  - set (vic := cache_victim _ _ _ _). assert (vic < FAT_CACHE_SIZE)%nat as Hvic.
    { unfold vic. rewrite <- (co_len _ _ C). apply cache_victim_lt. rewrite (co_len _ _ C). unfold FAT_CACHE_SIZE. lia. }
    eexists _, _. split; [done|]. split_and!; [|done|].
    + apply cache_ok_insert; cbn [c_valid c_lba c_data]; [done|done|done|done| |].
      * intros a Ha. rewrite get8_read_sectors by (lia || apply V).
        rewrite bool_decide_eq_true_2 by (unfold SECTOR_SIZE in *; lia). done.
      * intros j e' _ He'. by eapply cache_find_None.
    + intros a. rewrite get8_blit by done. rewrite !Z.add_0_l, Z.sub_0_r. case_bool_decide as Ha; [|done].
      rewrite get8_read_sectors by (lia || apply V).
      rewrite bool_decide_eq_true_2 by (unfold SECTOR_SIZE in *; lia). done.
Qed.

Lemma sector_disjoint lba lba' a : lba <> lba' -> 0 <= a < SECTOR_SIZE ->
  ~ (lba * SECTOR_SIZE <= lba' * SECTOR_SIZE + a < (lba + 1) * SECTOR_SIZE).
Proof. unfold SECTOR_SIZE. lia. Qed.

Lemma cache_write_ok st lba buf : cache_ok v st -> fat_lba v <= lba < fat_lba v + sectors_per_fat32 v ->
  let st' := fat_cache_write_sector v st lba buf in
  cache_ok v st' /\
  forall a, get8 (disk v st') a = if bool_decide (lba * SECTOR_SIZE <= a < (lba + 1) * SECTOR_SIZE)
                                  then get8 buf (a - lba * SECTOR_SIZE) else get8 (disk v st) a.
Proof using V.
  intros C Hl. pose proof (fat_sector_28 lba Hl) as H28. cbv zeta.
  assert (forall a, get8 (disk v (fat_cache_write_sector v st lba buf)) a =
     if bool_decide (lba * SECTOR_SIZE <= a < (lba + 1) * SECTOR_SIZE)
     then get8 buf (a - lba * SECTOR_SIZE) else get8 (disk v st) a) as Hd.
  { intros a. unfold disk, fat_cache_write_sector. cbn [drv]. by rewrite get8_write_sectors by (lia || apply V). }
  split; [|exact Hd]. destruct C as [Hlen Hfat Hdata Huniq].
  assert (forall j e a, g_fat_cache st !! j = Some e -> c_valid e = true -> c_lba e <> lba -> 0 <= a < SECTOR_SIZE ->
    get8 (c_data e) a = get8 (disk v (fat_cache_write_sector v st lba buf)) (c_lba e * SECTOR_SIZE + a)) as Hother.
  { intros j e a He Hv Hne Ha. rewrite Hd, bool_decide_eq_false_2 by (apply sector_disjoint; [congruence|done]).
    by eapply Hdata. }
  destruct (cache_find (g_fat_cache st) lba) as [i|] eqn:E.
  - destruct (cache_find_Some _ _ _ E) as (e & He & Hv & Hlba).
    assert (i < FAT_CACHE_SIZE)%nat as Hi by (apply lookup_lt_Some in He; lia).
    set (e1 := CacheEntry (c_lba e) (u32 (g_fat_cache_tick st + 1)) (c_valid e) (blit (c_data e) 0 buf 0 SECTOR_SIZE)).
    assert (g_fat_cache (fat_cache_write_sector v st lba buf) = <[i := e1]> (g_fat_cache st)) as Hg
      by (unfold fat_cache_write_sector; cbn [g_fat_cache]; rewrite E, (cache_entry_lookup _ _ _ He); done).
    assert (forall j e', <[i := e1]> (g_fat_cache st) !! j = Some e' ->
            (j = i /\ e' = e1) \/ (j <> i /\ g_fat_cache st !! j = Some e')) as Hcase.
    { intros j e' He'. destruct (decide (j = i)) as [->|].
      - rewrite list_lookup_insert_eq in He' by lia. left. split; congruence.
      - rewrite list_lookup_insert_ne in He' by done. by right. }
    constructor; rewrite Hg.
    + by rewrite length_insert.
    + intros j e' [[-> ->]|[Hj He']]%Hcase Hv'; [by eapply (Hfat i e)|by eapply Hfat].
    + intros j e' a [[-> ->]|[Hj He']]%Hcase Hv' Ha.
      * rewrite Hd. subst e1. cbn [c_lba c_data]. rewrite Hlba.
        rewrite bool_decide_eq_true_2 by (unfold SECTOR_SIZE in *; lia).
        rewrite get8_blit, bool_decide_eq_true_2 by (unfold SECTOR_SIZE in *; lia). f_equal. lia.
      * apply (Hother j); [done|done| |done]. intros Heq. apply Hj. eapply Huniq; (done || congruence).
    + intros j k e1' e2' [[-> ->]|[Hj Hj']]%Hcase [[-> ->]|[Hk Hk']]%Hcase V1 V2 Eq; [done| | |by eapply Huniq].
      * by eapply (Huniq i k e e2').
      * by eapply (Huniq j i e1' e).
  - assert (g_fat_cache (fat_cache_write_sector v st lba buf) = g_fat_cache st) as Hg
      by (unfold fat_cache_write_sector; cbn [g_fat_cache]; rewrite E; done).
    constructor; rewrite Hg; [done|done| |done].
    intros j e a He Hv Ha. apply (Hother j); [done|done| |done]. by eapply cache_find_None.
Qed.

(** Writing sectors that are not of the table leaves the cache good. *)
Lemma cache_ok_write st buf lba n : cache_ok v st -> fat_lba v + sectors_per_fat32 v <= lba -> 0 <= n ->
  lba < 2 ^ 28 ->
  cache_ok v (Fat (ata_write_sectors (drv st) buf lba n (g_drive_sel v)) (g_fat_cache st) (g_fat_cache_tick st)).
Proof using V.
  intros [Hlen Hfat Hdata Huniq] Hl Hn H28. constructor; cbn [g_fat_cache]; [done|done| |done].
  intros i e a He Hv Ha. rewrite (Hdata i e a He Hv Ha). specialize (Hfat i e He Hv). unfold disk. cbn [drv].
  pose proof (vol_lba v V). rewrite get8_write_sectors by (apply V || unfold fat_lba in *; lia).
  rewrite bool_decide_eq_false_2 by (unfold SECTOR_SIZE in *; lia). done.
Qed.

Lemma invalidate_ok st : length (g_fat_cache st) = FAT_CACHE_SIZE -> cache_ok v (fat_cache_invalidate st).
Proof.
  intros Hlen. constructor; cbn [fat_cache_invalidate g_fat_cache].
  - by rewrite length_fmap.
  - intros i e (e' & -> & _)%list_lookup_fmap_Some_1 Hv. done.
  - intros i e a (e' & -> & _)%list_lookup_fmap_Some_1 Hv. done.
  - intros i j e1 e2 (e' & -> & _)%list_lookup_fmap_Some_1 _ Hv. done.
Qed.
End CacheOk.

(** ** The table *)
#[export] Instance fat_at_proper v : Proper ((≡@{mem}) ==> (=) ==> (=)) (fat_at v).
Proof. intros d d' H c ? <-. unfold fat_at, load32. f_equal. apply load_ext. intros. apply H. Qed.

Section Table.
Context (v : fatvol) (V : vol_ok v).
Implicit Types (st : fat32) (d : mem) (c : Z).

Lemma entry_sector c : 0 <= c < nclusters v ->
  u32 (c * 4) = 4 * c /\ fat_lba v <= fat_lba v + 4 * c / SECTOR_SIZE < fat_lba v + sectors_per_fat32 v /\
  u32 (u32 (fat_lba v) + 4 * c / SECTOR_SIZE) = fat_lba v + 4 * c / SECTOR_SIZE /\
  (fat_lba v + 4 * c / SECTOR_SIZE) * SECTOR_SIZE + (4 * c) mod SECTOR_SIZE = entry_addr v c /\
  (4 * c) mod SECTOR_SIZE + 4 <= SECTOR_SIZE.
Proof using V.
  intros Hc. pose proof (vol_ncl v V). pose proof (vol_end v V). pose proof (vol_data v V).
  pose proof (vol_lba v V). pose proof (vol_spc v V). pose proof (vol_spf v V).
  unfold nclusters, EOC, fat_lba in *. rewrite (Prelude.u32_small (c * 4)) by lia.
  assert (0 <= 4 * c / SECTOR_SIZE < sectors_per_fat32 v) by (unfold SECTOR_SIZE; Z.div_mod_to_equations; lia).
  assert (0 <= sectors_per_fat32 v * 128 * sectors_per_cluster v) by nia.
  rewrite (Prelude.u32_small (g_partition_lba v + reserved_sectors v)) by lia.
  rewrite Prelude.u32_small by lia. split_and!; [lia|lia|lia|done| |].
  - unfold entry_addr, fat_lba, SECTOR_SIZE. Z.div_mod_to_equations. lia.
  - unfold SECTOR_SIZE. Z.div_mod_to_equations. lia.
Qed.

Lemma read_fat_spec st c : cache_ok v st -> 0 <= c < nclusters v ->
  exists st', fat32_read_fat v st c = (fat_at v (disk v st) c, st') /\ cache_ok v st' /\ drv st' = drv st.
Proof using V.
  intros C Hc. destruct (entry_sector c Hc) as (E1 & E2 & E3 & E4 & E5).
  unfold fat32_read_fat. rewrite (vol_bps v V), E1. change (g_partition_lba v + reserved_sectors v) with (fat_lba v).
  rewrite E3. destruct (cache_read_ok v V st _ ∅ C E2) as (buf & st' & -> & C' & Hd & Hb).
  exists st'. split_and!; [|done|done]. f_equal. unfold fat_at. f_equal. apply load_ext. intros i Hi.
  pose proof (Z.mod_pos_bound (4 * c) SECTOR_SIZE ltac:(done)).
  rewrite Hb, bool_decide_eq_true_2 by lia. f_equal. lia.
Qed.

Lemma write_fat_spec st c val : cache_ok v st -> 0 <= c < nclusters v ->
  let st' := fat32_write_fat_entry v st c val in
  cache_ok v st' /\ disk v st' ≡ store32 (disk v st) (entry_addr v c) val.
Proof using V.
  intros C Hc. destruct (entry_sector c Hc) as (E1 & E2 & E3 & E4 & E5).
  unfold fat32_write_fat_entry. rewrite E1. change (g_partition_lba v + reserved_sectors v) with (fat_lba v).
  rewrite E3. destruct (cache_read_ok v V st _ ∅ C E2) as (buf & st' & -> & C' & Hd & Hb).
  cbv zeta. edestruct cache_write_ok as [C2 Hd2]; [exact V|exact C'|exact E2|]. split; [exact C2|].
  intros a. rewrite Hd2. assert (disk v st' = disk v st) as -> by (unfold disk; by rewrite Hd). clear Hd2 C2.
  set (o := (4 * c) mod SECTOR_SIZE) in *. set (l := fat_lba v + 4 * c / SECTOR_SIZE) in *.
  pose proof (Z.mod_pos_bound (4 * c) SECTOR_SIZE ltac:(done)) as Ho. fold o in Ho. rewrite <- E4. unfold store32.
  case_bool_decide as Ha.
  - destruct (decide (o <= a - l * SECTOR_SIZE < o + 4)) as [Hi|Hi].
    + pose proof (get8_store_in 4 buf o val (a - l * SECTOR_SIZE - o) ltac:(lia)) as R1.
      pose proof (get8_store_in 4 (disk v st) (l * SECTOR_SIZE + o) val (a - l * SECTOR_SIZE - o) ltac:(lia)) as R2.
      replace (o + (a - l * SECTOR_SIZE - o)) with (a - l * SECTOR_SIZE) in R1 by lia.
      replace (l * SECTOR_SIZE + o + (a - l * SECTOR_SIZE - o)) with a in R2 by lia. congruence.
    + rewrite !get8_store_out by lia. rewrite Hb, bool_decide_eq_true_2 by lia. f_equal. lia.
  - rewrite get8_store_out by lia. done.
Qed.

Lemma land_28 x : Z.land x 0x0FFFFFFF = x mod 2 ^ 28.
Proof. change 0x0FFFFFFF with (2 ^ 28 - 1). by rewrite land_mask. Qed.

Lemma fat_at_range d c : 0 <= fat_at v d c < 2 ^ 28.
Proof. unfold fat_at. rewrite land_28. apply Z.mod_pos_bound. done. Qed.

Lemma fat_at_store d c c' val : 0 <= val < 2 ^ 28 ->
  fat_at v (store32 d (entry_addr v c) val) c' = if bool_decide (c = c') then val else fat_at v d c'.
Proof.
  intros Hv. unfold fat_at. case_bool_decide as E.
  - subst c'. unfold load32, store32. rewrite load_store_eq, land_28.
    change (8 * Z.of_nat 4) with 32. rewrite (Z.mod_small val) by lia. by rewrite Z.mod_small.
  - unfold load32, store32. rewrite load_store_ne; [done|]. unfold entry_addr. lia.
Qed.

(** *** Searching a free cluster *)
Definition is_free d c : bool := (2 <=? c) && (fat_at v d c =? 0).

(** One sector of the table, searched: its first free cluster. *)
Lemma free_in_sector_spec d buf i : 0 <= i < sectors_per_fat32 v ->
  (forall a, 0 <= a < SECTOR_SIZE -> get8 buf a = get8 d ((fat_lba v + i) * SECTOR_SIZE + a)) ->
  forall j, 0 <= j < 128 ->
  negb ((i =? 0) && (u32 (i * 128 + j) <? 2)) && (Z.land (load32 buf (4 * j)) 0x0FFFFFFF =? 0)
    = is_free d (i * 128 + j) /\ u32 (i * 128 + j) = i * 128 + j.
Proof using V.
  intros Hi Hb j Hj. pose proof (vol_ncl v V). unfold nclusters, EOC in *.
  rewrite Prelude.u32_small by lia. split; [|done]. unfold is_free, fat_at. f_equal.
  - destruct (Z.eqb_spec i 0), (Z.ltb_spec (i * 128 + j) 2), (Z.leb_spec 2 (i * 128 + j)); simpl; (done || lia).
  - f_equal. f_equal. apply load_ext. intros k Hk. rewrite Hb by (unfold SECTOR_SIZE; lia). f_equal.
    unfold entry_addr, SECTOR_SIZE. lia.
Qed.

Lemma find_free_from_spec n st i buf : cache_ok v st -> 0 <= i -> i + Z.of_nat n = sectors_per_fat32 v ->
  exists st', find_free_from v n st i buf =
      (default (-1) (scan (n * 128) (i * 128) (is_free (disk v st))), st') /\
    cache_ok v st' /\ drv st' = drv st.
Proof using V.
  revert st i buf. induction n as [|n IH]; intros st i buf C Hi Hn; cbn [find_free_from].
  - exists st. done.
  - assert (fat_lba v <= fat_lba v + i < fat_lba v + sectors_per_fat32 v) as Hl by lia.
    pose proof (fat_sector_28 v V _ Hl) as H28. change (g_partition_lba v + reserved_sectors v) with (fat_lba v).
    pose proof (vol_lba v V). rewrite (Prelude.u32_small (fat_lba v)) by (unfold fat_lba in *; lia).
    rewrite Prelude.u32_small by lia.
    destruct (cache_read_ok v V st _ buf C Hl) as (tb & st' & -> & C' & Hd & Hb).
    assert (disk v st' = disk v st) as Ed by (unfold disk; by rewrite Hd).
    pose proof (free_in_sector_spec (disk v st) tb i ltac:(lia)
      ltac:(intros a Ha; by rewrite Hb, bool_decide_eq_true_2)) as Hfree.
    unfold free_in_sector. destruct (scan 128 0 _) as [j|] eqn:E.
    + apply scan_Some in E as (Hj & Hp & Hf). destruct (Hfree j Hj) as [Ep Eu]. exists st'.
      split; [|done]. rewrite Eu. f_equal.
      assert (scan (S n * 128) (i * 128) (is_free (disk v st)) = Some (i * 128 + j)) as ->; [|done].
      apply scan_Some. split_and!; [lia|lia|by rewrite <- Ep|].
      intros k Hk. specialize (Hfree (k - i * 128) ltac:(lia)) as [Ek _].
      replace (i * 128 + (k - i * 128)) with k in Ek by lia. rewrite <- Ek.
      rewrite <- (Hf (k - i * 128)) by lia. do 6 f_equal. lia.
    + rewrite scan_None in E. destruct (IH st' (i + 1) tb C' ltac:(lia) ltac:(lia)) as (st2 & -> & C2 & Hd2).
      exists st2. split; [|by rewrite Hd2]. f_equal. rewrite Ed.
      assert (forall k, i * 128 <= k < i * 128 + 128 -> is_free (disk v st) k = false) as Hno.
      { intros k Hk. specialize (Hfree (k - i * 128) ltac:(lia)) as [Ek _].
        replace (i * 128 + (k - i * 128)) with k in Ek by lia. rewrite <- Ek.
        rewrite <- (E (k - i * 128)) by lia. do 6 f_equal. lia. }
      change (S n * 128)%nat with (128 + n * 128)%nat. rewrite scan_skip by (intros; apply Hno; lia).
      by replace ((i + 1) * 128) with (i * 128 + Z.of_nat 128) by lia.
Qed.

(** The smallest free cluster, or -1. *)
Lemma find_free_cluster_spec st : cache_ok v st ->
  exists st', fat32_find_free_cluster v st =
      (default (-1) (scan (Z.to_nat (nclusters v)) 0 (is_free (disk v st))), st') /\
    cache_ok v st' /\ drv st' = drv st.
Proof using V.
  intros C. pose proof (vol_spf v V). unfold fat32_find_free_cluster, nclusters.
  destruct (find_free_from_spec (Z.to_nat (sectors_per_fat32 v)) st 0 ∅ C ltac:(lia) ltac:(lia)) as (st' & -> & H').
  exists st'. split; [|done]. do 2 f_equal. f_equal. lia.
Qed.
End Table.

(** ** Chains *)

(** [l] is the chain of clusters from [c] on; it ends at an entry that is no cluster. *)
Fixpoint chain (v : fatvol) (d : mem) (c : Z) (l : list Z) : Prop :=
  match l with
  | [] => ~ (2 <= c < EOC)
  | x :: l => c = x /\ 2 <= x < nclusters v /\ chain v d (fat_at v d x) l
  end.

(** The bytes of the table. *)
Definition in_fat (v : fatvol) (a : Z) : Prop :=
  fat_lba v * SECTOR_SIZE <= a < (fat_lba v + sectors_per_fat32 v) * SECTOR_SIZE.

(** [d'] is [d] with the entries of the table changed to [f]. *)
Definition fat_updated (v : fatvol) (d d' : mem) (f : Z -> Z) : Prop :=
  (forall a, ~ in_fat v a -> get8 d' a = get8 d a) /\
  (forall c, 0 <= c < nclusters v -> fat_at v d' c = f c).

Section Chains.
Context (v : fatvol) (V : vol_ok v).
Implicit Types (st : fat32) (d : mem) (c : Z) (l : list Z).

Lemma chain_det d c l l' : chain v d c l -> chain v d c l' -> l = l'.
Proof using V.
  revert c l'. induction l as [|x l IH]; intros c [|x' l'] H H'; simpl in *; [done| | |].
  - destruct H' as (-> & ? & _). pose proof (vol_ncl v V). lia.
  - destruct H as (-> & ? & _). pose proof (vol_ncl v V). lia.
  - destruct H as (-> & _ & H), H' as (-> & _ & H'). f_equal. by eapply IH.
Qed.

Lemma chain_app d c l1 l2 : chain v d c (l1 ++ l2) -> exists c', chain v d c' l2.
Proof. revert c. induction l1 as [|x l1 IH]; intros c H; simpl in *; [eauto|]. destruct H as (_ & _ & H). eauto. Qed.

Lemma chain_Forall d c l : chain v d c l -> Forall (fun x => 2 <= x < nclusters v) l.
Proof. revert c. induction l as [|x l IH]; intros c H; simpl in *; constructor; naive_solver. Qed.

(** A chain that ends has no cluster twice. *)
Lemma chain_NoDup d c l : chain v d c l -> NoDup l.
Proof using V.
  revert c. induction l as [|x l IH]; intros c H; [constructor|]. simpl in H. destruct H as (-> & Hx & H).
  constructor; [|by eapply IH]. intros (l1 & l2 & ->)%list_elem_of_split.
  destruct (chain_app _ _ _ _ H) as (c' & H'). pose proof H' as (-> & _ & H2).
  pose proof (chain_det _ _ _ _ H H2) as E. apply (f_equal length) in E. rewrite length_app in E. simpl in E. lia.
Qed.

Lemma chain_ext d d' c l : (forall x, x ∈ l -> fat_at v d' x = fat_at v d x) -> chain v d c l -> chain v d' c l.
Proof.
  clear V.
  revert c. induction l as [|x l IH]; intros c Hx H; simpl in *; [done|]. destruct H as (-> & ? & H).
  split_and!; [done|lia|lia|]. rewrite Hx by set_solver. apply IH; [|done]. intros. apply Hx. set_solver.
Qed.

Lemma entry_in_fat c i : 0 <= c < nclusters v -> 0 <= i < 4 -> in_fat v (entry_addr v c + i).
Proof. unfold in_fat, entry_addr, nclusters, SECTOR_SIZE. lia. Qed.

Lemma fat_updated_store d d' c val : d' ≡ store32 d (entry_addr v c) val -> 0 <= c < nclusters v -> 0 <= val < 2 ^ 28 ->
  fat_updated v d d' (fun x => if bool_decide (c = x) then val else fat_at v d x).
Proof.
  intros Hd Hc Hv. split.
  - intros a Ha. rewrite Hd. unfold store32. destruct (decide (entry_addr v c <= a < entry_addr v c + 4)).
    + destruct Ha. replace a with (entry_addr v c + (a - entry_addr v c)) by lia. apply entry_in_fat; lia.
    + apply get8_store_out. lia.
  - intros x Hx. rewrite Hd. by apply fat_at_store.
Qed.

Lemma fat_updated_refl d : fat_updated v d d (fat_at v d).
Proof. done. Qed.

Lemma fat_updated_trans d d1 d2 f g : fat_updated v d d1 f -> fat_updated v d1 d2 g -> fat_updated v d d2 g.
Proof. intros [H1 _] [H2 Hg]. split; [|done]. intros a Ha. by rewrite H2, H1. Qed.

Lemma fat_updated_ext d d' f g : fat_updated v d d' f -> (forall c, 0 <= c < nclusters v -> f c = g c) ->
  fat_updated v d d' g.
Proof. intros [H1 H2] Hf. split; [done|]. intros c Hc. rewrite H2 by done. by apply Hf. Qed.

(** Freeing a chain ends, and its entries and no others become 0. *)
Lemma free_chain_spec fuel st c l : cache_ok v st -> chain v (disk v st) c l -> (length l < fuel)%nat ->
  exists st', free_chain v fuel st c = Some st' /\ cache_ok v st' /\
    fat_updated v (disk v st) (disk v st') (fun x => if bool_decide (x ∈ l) then 0 else fat_at v (disk v st) x).
Proof using V.
  revert st c l. induction fuel as [|n IH]; intros st c l C Hc Hl; [lia|]. cbn [free_chain].
  destruct l as [|x l]; simpl in Hc.
  - assert ((2 <=? c) && (c <? EOC) = false) as ->
      by (destruct (Z.leb_spec 2 c), (Z.ltb_spec c EOC); simpl; (done || lia)).
    exists st. split_and!; [done|done|]. eapply fat_updated_ext; [apply fat_updated_refl|].
    intros x _. rewrite bool_decide_eq_false_2 by set_solver. done.
  - pose proof (chain_NoDup _ c (x :: l) Hc) as Hnd. destruct Hc as (-> & Hx & Hc).
    pose proof (vol_ncl v V) as Hncl. rewrite (proj2 (Z.leb_le 2 x)), (proj2 (Z.ltb_lt x EOC)) by lia. simpl.
    destruct (read_fat_spec v V st x C ltac:(lia)) as (st1 & -> & C1 & Hd1).
    destruct (write_fat_spec v V st1 x 0 C1 ltac:(lia)) as [C2 Hd2].
    assert (disk v st1 = disk v st) as E1 by (unfold disk; by rewrite Hd1). rewrite E1 in Hd2.
    pose proof (fat_updated_store _ _ x 0 Hd2 ltac:(lia) ltac:(lia)) as U. apply NoDup_cons in Hnd as [Hx1 Hnd].
    destruct (IH _ (fat_at v (disk v st) x) l C2) as (st' & Hf & C' & U').
    { eapply chain_ext; [|exact Hc]. intros y Hy. rewrite Hd2, fat_at_store by lia.
      rewrite bool_decide_eq_false_2 by (intros ->; done). done. }
    { simpl in Hl. lia. }
    exists st'. split_and!; [done|done|]. eapply fat_updated_ext; [eapply fat_updated_trans; [exact U|exact U']|].
    intros y Hy. cbv beta. destruct (decide (y ∈ l)); [rewrite !bool_decide_eq_true_2 by set_solver; done|].
    rewrite (bool_decide_eq_false_2 (y ∈ l)) by done. rewrite (proj2 U y Hy). cbv beta.
    destruct (decide (x = y)); [rewrite !bool_decide_eq_true_2 by set_solver; done|].
    rewrite !bool_decide_eq_false_2 by set_solver. done.
Qed.
End Chains.

(** ** Refinement: the cached driver is a plain table on the disk *)
Inductive fat_op :=
  | FatRead (c : Z)
  | FatWrite (c value : Z)
  | FatFindFree
  | DataWrite (lba n : Z) (buf : mem).

Definition op_ok (v : fatvol) (op : fat_op) : Prop :=
  match op with
  | FatRead c => 0 <= c < nclusters v
  | FatWrite c value => 0 <= c < nclusters v
  | FatFindFree => True
  | DataWrite lba n _ => fat_lba v + sectors_per_fat32 v <= lba < 2 ^ 28 /\ 0 <= n
  end.

Definition fat_exec (v : fatvol) (st : fat32) (op : fat_op) : Z * fat32 :=
  match op with
  | FatRead c => fat32_read_fat v st c
  | FatWrite c value => (0, fat32_write_fat_entry v st c value)
  | FatFindFree => fat32_find_free_cluster v st
  | DataWrite lba n buf =>
      (0, Fat (ata_write_sectors (drv st) buf lba n (g_drive_sel v)) (g_fat_cache st) (g_fat_cache_tick st))
  end.

(** The same on a disk without a cache. *)
Definition plain_exec (v : fatvol) (d : mem) (op : fat_op) : Z * mem :=
  match op with
  | FatRead c => (fat_at v d c, d)
  | FatWrite c value => (0, store32 d (entry_addr v c) value)
  | FatFindFree => (default (-1) (scan (Z.to_nat (nclusters v)) 0 (is_free v d)), d)
  | DataWrite lba n buf => (0, blit d (lba * SECTOR_SIZE) buf 0 (n * SECTOR_SIZE))
  end.

Fixpoint run_ops {S : Type} (exec : S -> fat_op -> Z * S) (s : S) (ops : list fat_op) : list Z * S :=
  match ops with
  | [] => ([], s)
  | op :: ops => let '(r, s) := exec s op in let '(rs, s) := run_ops exec s ops in (r :: rs, s)
  end.

Section Refine.
Context (v : fatvol) (V : vol_ok v).

Lemma plain_exec_proper d d' op : d ≡ d' ->
  (plain_exec v d op).1 = (plain_exec v d' op).1 /\ (plain_exec v d op).2 ≡ (plain_exec v d' op).2.
Proof.
  intros H. destruct op as [c|c val| |lba n buf]; cbn [plain_exec fst snd].
  - split; [by rewrite H|done].
  - split; [done|]. unfold store32. by rewrite H.
  - split; [|done]. f_equal. apply scan_ext. intros j _. unfold is_free. by rewrite H.
  - split; [done|]. intros a. destruct (decide (0 <= n)).
    + rewrite !get8_blit by (unfold SECTOR_SIZE; lia). by rewrite H.
    + unfold blit. assert (Z.to_nat (n * SECTOR_SIZE) = 0%nat) as -> by (unfold SECTOR_SIZE; lia). apply H.
Qed.

Lemma fat_exec_refines st op : cache_ok v st -> op_ok v op ->
  (fat_exec v st op).1 = (plain_exec v (disk v st) op).1 /\
  cache_ok v (fat_exec v st op).2 /\ disk v (fat_exec v st op).2 ≡ (plain_exec v (disk v st) op).2.
Proof using V.
  intros C Hop. destruct op as [c|c val| |lba n buf]; cbn [fat_exec plain_exec fst snd].
  - destruct (read_fat_spec v V st c C Hop) as (st' & -> & C' & Hd). cbn. split_and!; [done|done|]. unfold disk. by rewrite Hd.
  - split; [done|]. by apply write_fat_spec.
  - destruct (find_free_cluster_spec v V st C) as (st' & -> & C' & Hd). cbn. split_and!; [done|done|].
    unfold disk. by rewrite Hd.
  - destruct Hop as [Hl Hn]. split; [done|]. split; [apply cache_ok_write; (done || lia)|].
    intros a. unfold disk. cbn [drv]. pose proof (vol_lba v V). pose proof (vol_spf v V).
    rewrite get8_write_sectors by (apply V || unfold fat_lba in *; lia).
    rewrite get8_blit by (unfold SECTOR_SIZE; lia).
    replace ((lba + n) * SECTOR_SIZE) with (lba * SECTOR_SIZE + n * SECTOR_SIZE) by lia. by rewrite Z.add_0_l.
Qed.

(** C8: The 64-sector FAT cache is invisible: any sequence of reads and writes of table
    entries, searches for free clusters and writes to the data area returns what the
    same sequence returns on a disk without a cache, and leaves the same bytes on disk. *)
Theorem fat_cache_refines st ops : cache_ok v st -> Forall (op_ok v) ops ->
  let '(rs, st') := run_ops (fat_exec v) st ops in
  let '(rs', d') := run_ops (plain_exec v) (disk v st) ops in
  rs = rs' /\ disk v st' ≡ d' /\ cache_ok v st'.
Proof using V.
  intros C Hops. assert (disk v st ≡ disk v st) as E by done. revert E. generalize (disk v st) at 2 3. revert st C.
  induction ops as [|op ops IH]; intros st C d Hd; cbn [run_ops]; [done|].
  apply Forall_cons in Hops as [Hop Hops]. destruct (fat_exec_refines st op C Hop) as (Hr & C' & Hd').
  destruct (plain_exec_proper (disk v st) d op Hd) as [Hr2 Hd2].
  destruct (fat_exec v st op) as [r st'], (plain_exec v d op) as [r' d']. cbn [fst snd] in *.
  specialize (IH Hops st' C' d' ltac:(by rewrite Hd', Hd2)).
  destruct (run_ops (fat_exec v) st' ops), (run_ops (plain_exec v) d' ops). destruct IH as (-> & ? & ?).
  split_and!; [congruence|done|done].
Qed.
End Refine.

(** ** A small volume: one FAT sector, 128 clusters of one sector, the root directory in
    cluster 2 and a file named F in clusters 5 and 9. *)
Definition vol0 : fatvol := FatVol 512 1 32 1 1 2 0 33 512 0.

Definition disk0 : mem :=
  let e := entry_addr vol0 in
  let d := store32 (store32 (store32 ∅ (e 0) EOC) (e 1) EOC) (e 2) EOC in
  let d := store32 (store32 d (e 5) 9) (e 9) EOC in
  let d := put8 (put8 d (cluster_addr vol0 5 + 511) 65) (cluster_addr vol0 9) 66 in
  let f := cluster_addr vol0 2 in
  let d := store 3 (store64 d f 0x2020202020202046) (f + 8) 0x202020 in
  store32 (store 2 d (f + 26) 5) (f + 28) 600.

Definition fat0 : fat32 :=
  fat_cache_invalidate (Fat {[ 0 := disk0 ]} (replicate FAT_CACHE_SIZE (CacheEntry 0 0 false ∅)) 0).

Lemma vol0_ok : vol_ok vol0.
Proof. constructor; vm_compute; repeat split; discriminate. Qed.

Lemma fat0_ok : cache_ok vol0 fat0.
Proof. apply invalidate_ok. reflexivity. Qed.

Lemma fat_cache_refines_witness :
  (run_ops (fat_exec vol0) fat0 [FatRead 5; FatWrite 9 3; FatFindFree; FatRead 9]).1 = [9; 0; 3; 3] /\
  cache_ok vol0 (run_ops (fat_exec vol0) fat0 [FatRead 5; FatWrite 9 3; FatFindFree; FatRead 9]).2.
Proof.
  pose proof (fat_cache_refines vol0 vol0_ok fat0 [FatRead 5; FatWrite 9 3; FatFindFree; FatRead 9] fat0_ok
    ltac:(repeat (apply Forall_cons; split; [vm_compute; repeat split; discriminate|]); constructor)) as H.
  destruct (run_ops (fat_exec vol0) fat0 _) as [rs st']. destruct (run_ops (plain_exec vol0) _ _) as [rs' d'] eqn:E.
  destruct H as (-> & _ & C). split; [|exact C].
  apply (f_equal fst) in E. cbn [fst] in *. rewrite <- E. vm_compute. reflexivity.
Defined.
