(* ===== verification/FatFile.v ===== *)
(** FAT32, [src/src/fs/fat32.c]: the contents of files.

    The reference reading of a file is [fbyte]: byte [i] of the clusters of its chain,
    one after the other.  A caller's buffer is a part of the memory [m]. *)
From S2P Require Import Prelude Machine Ata FatTable.

Definition with_drv (st : fat32) (dr : drives) : fat32 := Fat dr (g_fat_cache st) (g_fat_cache_tick st).

(** Offsets of the fields of the packed [DirectoryEntry]. *)
Definition ENT_ATTR : Z := 11.
Definition ENT_CLUSTER_HIGH : Z := 20.
Definition ENT_CLUSTER_LOW : Z := 26.
Definition ENT_SIZE : Z := 28.

Section File.
Context (v : fatvol).
Implicit Types (st : fat32) (node : fat_node) (m : mem).

(** ** Reading *)

(** The cluster [n] entries further, [None] when the chain ends before. *)
Fixpoint skip_read (n : nat) (st : fat32) (curr_cluster : Z) : option Z * fat32 :=
  match n with
  | O => (Some curr_cluster, st)
  | S n =>
      let '(c, st) := fat32_read_fat v st curr_cluster in
      if EOC <=? c then (None, st) else skip_read n st c
  end.

(** The copy loop: what is left to read and the memory. *)
Fixpoint read_loop (fuel : nat) (st : fat32) (curr_cluster rem_size read_offset : Z) (tmp_buf m : mem) (buffer : Z)
    : option (Z * mem * fat32) :=
  match fuel with
  | O => None
  | S n =>
      if (0 <? rem_size) && (2 <=? curr_cluster) && (curr_cluster <? EOC) then
        let copy_size := Z.min rem_size (u64 (g_bytes_per_cluster v - read_offset)) in
        let lba := fat32_cluster_to_lba v curr_cluster in
        let tmp_buf := ata_read_sectors (drv st) tmp_buf lba (sectors_per_cluster v) (g_drive_sel v) in
        let m := blit m buffer tmp_buf read_offset copy_size in
        let rem_size := rem_size - copy_size in
        let '(c, st) := if 0 <? rem_size then fat32_read_fat v st curr_cluster else (curr_cluster, st) in
        read_loop n st c rem_size 0 tmp_buf m (buffer + copy_size)
      else Some (rem_size, m, st)
  end.

(** [tmp_ok]: [kmalloc] gave the cluster buffer. *)
Definition fat32_read (fuel : nat) (tmp_ok : bool) (st : fat32) (node : fat_node) (offset size : Z) (m : mem) (buffer : Z)
    : option (Z * mem * fat32) :=
  if fn_length node <=? offset then Some (0, m, st)
  else
    let size := if fn_length node <? u64 (offset + size) then u64 (fn_length node - offset) else size in
    if first_cluster node <? 2 then Some (0, m, st)
    else
      match skip_read (Z.to_nat (offset / g_bytes_per_cluster v)) st (first_cluster node) with
      | (None, st) => Some (0, m, st)
      | (Some c, st) =>
          if negb tmp_ok then Some (0, m, st)
          else
            '(rem_size, m, st) ← read_loop fuel st c size (offset mod g_bytes_per_cluster v) ∅ m buffer;
            Some (size - rem_size, m, st)
      end.

(** ** Directory entries of nodes *)
Definition fat32_update_size (st : fat32) (node : fat_node) (new_size : Z) : fat32 * fat_node :=
  let tmp_buf := ata_read_sectors (drv st) ∅ (sector_lba node) 1 (g_drive_sel v) in
  let tmp_buf := store32 tmp_buf (fn_offset node + ENT_SIZE) (u32 new_size) in
  (with_drv st (ata_write_sectors (drv st) tmp_buf (sector_lba node) 1 (g_drive_sel v)),
   FatNode (fn_flags node) new_size (first_cluster node) (sector_lba node) (fn_offset node)).

Definition fat32_truncate (fuel : nat) (st : fat32) (node : fat_node) : option (fat32 * fat_node) :=
  st ← free_chain v fuel st (first_cluster node);
  let tmp_buf := ata_read_sectors (drv st) ∅ (sector_lba node) 1 (g_drive_sel v) in
  let tmp_buf := store 2 tmp_buf (fn_offset node + ENT_CLUSTER_HIGH) 0 in
  let tmp_buf := store 2 tmp_buf (fn_offset node + ENT_CLUSTER_LOW) 0 in
  let tmp_buf := store32 tmp_buf (fn_offset node + ENT_SIZE) 0 in
  Some (with_drv st (ata_write_sectors (drv st) tmp_buf (sector_lba node) 1 (g_drive_sel v)),
        FatNode (fn_flags node) 0 0 (sector_lba node) (fn_offset node)).

Definition fat32_unlink (fuel : nat) (st : fat32) (node : fat_node) : option fat32 :=
  let tmp_buf := ata_read_sectors (drv st) ∅ (sector_lba node) 1 (g_drive_sel v) in
  let tmp_buf := store 1 tmp_buf (fn_offset node) 0xE5 in
  let st := with_drv st (ata_write_sectors (drv st) tmp_buf (sector_lba node) 1 (g_drive_sel v)) in
  free_chain v fuel st (first_cluster node).

(** ** Writing *)

(** The first cluster of an empty file; [false]: the volume is full. *)
Definition alloc_first (st : fat32) (node : fat_node) : bool * fat_node * fat32 :=
  let '(free_cluster_id, st) := fat32_find_free_cluster v st in
  if free_cluster_id <? 0 then (false, node, st)
  else
    let tmp_buf := ata_read_sectors (drv st) ∅ (sector_lba node) 1 (g_drive_sel v) in
    let tmp_buf := store 2 tmp_buf (fn_offset node + ENT_CLUSTER_HIGH) (Z.land (Z.shiftr free_cluster_id 16) 0xFFFF) in
    let tmp_buf := store 2 tmp_buf (fn_offset node + ENT_CLUSTER_LOW) (Z.land free_cluster_id 0xFFFF) in
    let st := with_drv st (ata_write_sectors (drv st) tmp_buf (sector_lba node) 1 (g_drive_sel v)) in
    let st := fat32_write_fat_entry v st free_cluster_id EOC in
    (true, FatNode (fn_flags node) (fn_length node) free_cluster_id (sector_lba node) (fn_offset node), st).

(** The last cluster of a chain and the number of clusters. *)
Fixpoint trace_tail (fuel : nat) (st : fat32) (curr_cluster prev_cluster cluster_count : Z)
    : option (Z * Z * fat32) :=
  match fuel with
  | O => None
  | S n =>
      if (2 <=? curr_cluster) && (curr_cluster <? EOC) then
        let '(c, st) := fat32_read_fat v st curr_cluster in
        trace_tail n st c curr_cluster (u32 (cluster_count + 1))
      else Some (prev_cluster, cluster_count, st)
  end.

(** [n] more clusters after [prev_cluster]; [false]: the volume is full. *)
Fixpoint extend_chain (n : nat) (st : fat32) (prev_cluster : Z) : bool * fat32 :=
  match n with
  | O => (true, st)
  | S n =>
      let '(free_cluster_id, st) := fat32_find_free_cluster v st in
      if free_cluster_id <? 0 then (false, st)
      else
        let st := fat32_write_fat_entry v st prev_cluster free_cluster_id in
        let st := fat32_write_fat_entry v st free_cluster_id EOC in
        extend_chain n st free_cluster_id
  end.

Fixpoint skip_write (n : nat) (st : fat32) (curr_cluster : Z) : Z * fat32 :=
  match n with
  | O => (curr_cluster, st)
  | S n => let '(c, st) := fat32_read_fat v st curr_cluster in skip_write n st c
  end.

(** The copy loop; [tmp_buf] is read, patched and written back. *)
Fixpoint write_loop (fuel : nat) (st : fat32) (curr_cluster rem_size read_offset : Z) (tmp_buf m : mem) (buffer : Z)
    : option (Z * fat32) :=
  match fuel with
  | O => None
  | S n =>
      if (0 <? rem_size) && (2 <=? curr_cluster) && (curr_cluster <? EOC) then
        let copy_size := Z.min rem_size (u64 (g_bytes_per_cluster v - read_offset)) in
        let lba := fat32_cluster_to_lba v curr_cluster in
        let tmp_buf := ata_read_sectors (drv st) tmp_buf lba (sectors_per_cluster v) (g_drive_sel v) in
        let tmp_buf := blit tmp_buf read_offset m buffer copy_size in
        let st := with_drv st (ata_write_sectors (drv st) tmp_buf lba (sectors_per_cluster v) (g_drive_sel v)) in
        let rem_size := rem_size - copy_size in
        let '(c, st) := if 0 <? rem_size then fat32_read_fat v st curr_cluster else (curr_cluster, st) in
        write_loop n st c rem_size 0 tmp_buf m (buffer + copy_size)
      else Some (rem_size, st)
  end.

(** Extend the chain of a file to [offset + size] bytes; [false] is an error return. *)
Definition extend_to (fuel : nat) (st : fat32) (node : fat_node) (offset size : Z) : option (bool * fat32) :=
  '(prev_cluster, cluster_count, st) ← trace_tail fuel st (first_cluster node) 0 0;
  if prev_cluster <? 2 then Some (false, st)
  else
    let occupied_cluster_bytes := u64 (cluster_count * g_bytes_per_cluster v) in
    if occupied_cluster_bytes <? u64 (offset + size) then
      let size_left := u64 (u64 (offset + size) - occupied_cluster_bytes) in
      let cluster_count_left := u64 (u64 (size_left + g_bytes_per_cluster v) - 1) / g_bytes_per_cluster v in
      Some (extend_chain (Z.to_nat cluster_count_left) st prev_cluster)
    else Some (true, st).

(** Make room for [offset + size] bytes; [false] is an error return. *)
Definition grow_file (fuel : nat) (st : fat32) (node : fat_node) (offset size : Z)
    : option (bool * fat_node * fat32) :=
  let '(ok, node, st) := if first_cluster node =? 0 then alloc_first st node else (true, node, st) in
  if negb ok then Some (false, node, st)
  else
    '(ok, st) ← extend_to fuel st node offset size;
    Some (ok, node, st).

Definition fat32_write (fuel : nat) (tmp_ok : bool) (st : fat32) (node : fat_node) (offset size : Z) (m : mem) (buffer : Z)
    : option (Z * fat_node * fat32) :=
  if size =? 0 then Some (0, node, st)
  else
    '(ok, node, st) ← (if (fn_length node <? u64 (offset + size)) || (first_cluster node =? 0)
                       then grow_file fuel st node offset size else Some (true, node, st));
    if negb ok then Some (0, node, st)
    else
      let '(c, st) := skip_write (Z.to_nat (offset / g_bytes_per_cluster v)) st (first_cluster node) in
      if negb tmp_ok then Some (0, node, st)
      else
        '(rem_size, st) ← write_loop fuel st c size (offset mod g_bytes_per_cluster v) ∅ m buffer;
        let '(st, node) := if fn_length node <? u64 (offset + size)
          then fat32_update_size st node (u64 (offset + size)) else (st, node) in
        Some (size - rem_size, node, st).

(** [fat32_read_file]: the whole chain into a buffer of [file_size + 1] bytes at [buf];
    [buf = 0]: no memory.  [fst] of the result is the end of what was written. *)
Fixpoint read_file_loop (fuel : nat) (st : fat32) (curr_cluster : Z) (m : mem) (buf_cur : Z) : option (Z * mem * fat32) :=
  match fuel with
  | O => None
  | S n =>
      if curr_cluster <? EOC then
        let lba := fat32_cluster_to_lba v curr_cluster in
        let data := ata_read_sectors (drv st) ∅ lba (sectors_per_cluster v) (g_drive_sel v) in
        let m := blit m buf_cur data 0 (sectors_per_cluster v * SECTOR_SIZE) in
        let '(c, st) := fat32_read_fat v st curr_cluster in
        read_file_loop n st c m (buf_cur + bytes_per_sector v * sectors_per_cluster v)
      else Some (buf_cur, m, st)
  end.

Definition fat32_read_file (fuel : nat) (st : fat32) (entry : mem) (m : mem) (buf : Z) : option (Z * mem * fat32) :=
  if buf =? 0 then Some (0, m, st)
  else
    let curr_cluster := Z.lor (Z.shiftl (load 2 entry ENT_CLUSTER_HIGH) 16) (load 2 entry ENT_CLUSTER_LOW) in
    '(end_, m, st) ← read_file_loop fuel st curr_cluster m buf;
    Some (end_, put8 m (buf + load32 entry ENT_SIZE) 0, st).
End File.

(** ** Reference: the bytes of a chain *)
Fixpoint fbyte (v : fatvol) (d : mem) (l : list Z) (i : Z) : Z :=
  match l with
  | [] => 0
  | x :: l => if i <? g_bytes_per_cluster v then get8 d (cluster_addr v x + i)
              else fbyte v d l (i - g_bytes_per_cluster v)
  end.

Section Clusters.
Context (v : fatvol) (V : vol_ok v).
Implicit Types (st : fat32) (node : fat_node) (m d : mem) (c i : Z) (l : list Z).

Lemma bpc_range : 0 < g_bytes_per_cluster v <= 0x10000.
Proof using V. rewrite (vol_bpc v V). pose proof (vol_spc v V). unfold SECTOR_SIZE. lia. Qed.

Lemma cluster_lba c : 2 <= c < nclusters v ->
  fat32_cluster_to_lba v c = g_data_start_lba v + (c - 2) * sectors_per_cluster v /\
  g_data_start_lba v <= g_data_start_lba v + (c - 2) * sectors_per_cluster v /\
  g_data_start_lba v + (c - 1) * sectors_per_cluster v <= 2 ^ 28.
Proof using V.
  intros Hc. destruct V as [_ Hspc _ _ Hl Hspf Hncl Hdata Hend]. unfold fat32_cluster_to_lba, fat_lba in *.
  rewrite (proj2 (Z.ltb_ge c 2)) by lia. unfold EOC in *. rewrite (Prelude.u32_small (c - 2)) by lia.
  assert (0 <= (c - 2) * sectors_per_cluster v) by nia.
  assert ((c - 1) * sectors_per_cluster v <= nclusters v * sectors_per_cluster v) by nia.
  rewrite (Prelude.u32_small (_ * _)) by lia. rewrite Prelude.u32_small by lia. lia.
Qed.

(** Reading a cluster. *)
Lemma get8_read_cluster st buf c a : 2 <= c < nclusters v -> 0 <= a < g_bytes_per_cluster v ->
  get8 (ata_read_sectors (drv st) buf (fat32_cluster_to_lba v c) (sectors_per_cluster v) (g_drive_sel v)) a =
    get8 (disk v st) (cluster_addr v c + a).
Proof using V.
  intros Hc Ha. destruct (cluster_lba c Hc) as (-> & H1 & H2). rewrite (vol_bpc v V) in Ha.
  pose proof (vol_spc v V). pose proof (vol_lba v V). pose proof (vol_data v V). pose proof (vol_spf v V).
  rewrite get8_read_sectors by (apply V || unfold fat_lba in *; lia).
  rewrite bool_decide_eq_true_2 by lia. done.
Qed.

Lemma fbyte_ext d d' l i : (forall x j, x ∈ l -> 0 <= j < g_bytes_per_cluster v ->
    get8 d' (cluster_addr v x + j) = get8 d (cluster_addr v x + j)) -> 0 <= i -> fbyte v d' l i = fbyte v d l i.
Proof.
  revert i. induction l as [|x l IH]; intros i H Hi; simpl; [done|].
  destruct (Z.ltb_spec i (g_bytes_per_cluster v)); [apply H; [set_solver|lia]|].
  apply IH; [|lia]. intros. apply H; [set_solver|done].
Qed.

Lemma fbyte_app_l d l l' i : i < Z.of_nat (length l) * g_bytes_per_cluster v -> 0 <= i ->
  fbyte v d (l ++ l') i = fbyte v d l i.
Proof.
  revert i. induction l as [|x l IH]; intros i Hi H0; simpl length in *; [lia|]. cbn [fbyte app].
  destruct (Z.ltb_spec i (g_bytes_per_cluster v)); [done|]. apply IH; lia.
Qed.

Lemma fbyte_app_r d l l' i : Z.of_nat (length l) * g_bytes_per_cluster v <= i ->
  fbyte v d (l ++ l') i = fbyte v d l' (i - Z.of_nat (length l) * g_bytes_per_cluster v).
Proof using V.
  revert i. induction l as [|x l IH]; intros i Hi; simpl length in *; [f_equal; simpl; lia|]. cbn [fbyte app].
  pose proof bpc_range. destruct (Z.ltb_spec i (g_bytes_per_cluster v)); [lia|]. rewrite IH by lia. f_equal. lia.
Qed.

Lemma same_disk st st' : drv st' = drv st -> disk v st' = disk v st.
Proof. intros H. unfold disk. by rewrite H. Qed.

(** Skipping [n] clusters of a longer chain. *)
Lemma skip_read_spec n st c l : cache_ok v st -> chain v (disk v st) c l -> (n < length l)%nat ->
  exists c' st', skip_read v n st c = (Some c', st') /\ chain v (disk v st) c' (drop n l) /\
    cache_ok v st' /\ drv st' = drv st.
Proof using V.
  revert st c l. induction n as [|n IH]; intros st c l C Hc Hn; cbn [skip_read].
  - exists c, st. by rewrite drop_0.
  - destruct l as [|x l]; [simpl in Hn; lia|]. destruct Hc as (-> & Hx & Hc).
    destruct (read_fat_spec v V st x C ltac:(lia)) as (st1 & -> & C1 & Hd1). simpl in Hn.
    destruct l as [|y l]; [simpl in Hn; lia|]. pose proof Hc as (E & Hy & _). pose proof (vol_ncl v V).
    rewrite (proj2 (Z.leb_gt _ _)) by lia.
    destruct (IH st1 (fat_at v (disk v st) x) (y :: l)) as (c' & st' & -> & Hc' & C' & Hd').
    + done.
    + by rewrite (same_disk _ _ Hd1).
    + simpl in *. lia.
    + rewrite (same_disk _ _ Hd1) in Hc'. exists c', st'. split_and!; [done|done|done|congruence].
Qed.

Lemma read_loop_spec fuel st c l rem ro tmp m buf : cache_ok v st -> chain v (disk v st) c l ->
  0 <= rem -> 0 <= ro < g_bytes_per_cluster v -> ro + rem <= Z.of_nat (length l) * g_bytes_per_cluster v ->
  (length l < fuel)%nat ->
  exists m' st', read_loop v fuel st c rem ro tmp m buf = Some (0, m', st') /\ cache_ok v st' /\ drv st' = drv st /\
    forall a, get8 m' a = if bool_decide (buf <= a < buf + rem) then fbyte v (disk v st) l (ro + (a - buf)) else get8 m a.
Proof using V.
  pose proof bpc_range as Hb. revert st c l rem ro tmp m buf.
  induction fuel as [|n IH]; intros st c l rem ro tmp m buf C Hc Hr Hro Hfit Hf; [lia|]. cbn [read_loop].
  destruct (Z.ltb_spec 0 rem) as [Hpos|]; cbn [andb]; cycle 1.
  { assert (rem = 0) as -> by lia. eexists _, _. split_and!; [done|done|done|]. intros a.
    rewrite bool_decide_eq_false_2 by lia. done. }
  destruct l as [|x l]; [simpl in Hfit; lia|]. destruct Hc as (-> & Hx & Hc). pose proof (vol_ncl v V).
  rewrite (proj2 (Z.leb_le 2 x)), (proj2 (Z.ltb_lt x EOC)) by lia. cbn [andb]. rewrite u64_small by lia.
  set (cs := Z.min rem (g_bytes_per_cluster v - ro)). assert (0 < cs) by lia. simpl length in *.
  set (tb := ata_read_sectors _ _ _ _ _).
  assert (forall a, get8 (blit m buf tb ro cs) a =
    if bool_decide (buf <= a < buf + cs) then get8 (disk v st) (cluster_addr v x + (ro + (a - buf))) else get8 m a) as Hm1.
  { intros a. rewrite get8_blit by lia. case_bool_decide; [|done]. apply get8_read_cluster; [done|lia]. }
  destruct (Z.ltb_spec 0 (rem - cs)).
  - destruct (read_fat_spec v V st x C ltac:(lia)) as (st1 & -> & C1 & Hd1).
    destruct (IH st1 (fat_at v (disk v st) x) l (rem - cs) 0 tb (blit m buf tb ro cs) (buf + cs))
      as (m' & st' & -> & C' & Hd' & Hm'); [done|by rewrite (same_disk _ _ Hd1)|lia|lia|lia|lia|].
    exists m', st'. split_and!; [done|done|congruence|]. intros a. rewrite Hm', Hm1, (same_disk _ _ Hd1). cbn [fbyte].
    repeat case_bool_decide; try lia; try done.
    + destruct (Z.ltb_spec (ro + (a - buf)) (g_bytes_per_cluster v)); [lia|]. f_equal. lia.
    + destruct (Z.ltb_spec (ro + (a - buf)) (g_bytes_per_cluster v)); [done|lia].
  - destruct n as [|n]; [simpl in *; lia|]. cbn [read_loop]. rewrite (proj2 (Z.ltb_ge 0 (rem - cs))) by lia. cbn [andb].
    eexists _, _. split_and!; [repeat f_equal; lia|done|done|]. intros a. rewrite Hm1. cbn [fbyte].
    repeat case_bool_decide; try lia; try done.
    destruct (Z.ltb_spec (ro + (a - buf)) (g_bytes_per_cluster v)); [done|lia].
Qed.

Lemma fat32_read_spec fuel st node l offset size m buffer :
  cache_ok v st -> chain v (disk v st) (first_cluster node) l ->
  0 <= fn_length node <= Z.of_nat (length l) * g_bytes_per_cluster v ->
  0 <= offset -> 0 <= size -> offset + size < 2 ^ 64 -> (length l < fuel)%nat ->
  let n := Z.max 0 (Z.min size (fn_length node - offset)) in
  exists m' st', fat32_read v fuel true st node offset size m buffer = Some (n, m', st') /\
    cache_ok v st' /\ drv st' = drv st /\
    forall a, get8 m' a = if bool_decide (buffer <= a < buffer + n)
                          then fbyte v (disk v st) l (offset + (a - buffer)) else get8 m a.
Proof using V.
  intros C Hc Hlen Ho Hs H64 Hf n. unfold fat32_read. pose proof bpc_range as Hb.
  destruct (Z.leb_spec (fn_length node) offset).
  { assert (n = 0) as -> by lia. eexists _, _. split_and!; [done|done|done|]. intros a.
    rewrite bool_decide_eq_false_2 by lia. done. }
  assert ((if fn_length node <? u64 (offset + size) then u64 (fn_length node - offset) else size) = n) as ->.
  { rewrite (u64_small (offset + size)) by lia. destruct (Z.ltb_spec (fn_length node) (offset + size)); [|lia].
    rewrite u64_small by lia. lia. }
  destruct l as [|x l0] eqn:El; [simpl in Hlen; lia|]. rewrite <- El in *.
  assert (2 <= first_cluster node) as H2 by (rewrite El in Hc; destruct Hc as (-> & ? & _); lia).
  rewrite (proj2 (Z.ltb_ge _ _)) by lia. set (k := Z.to_nat (offset / g_bytes_per_cluster v)).
  assert (offset / g_bytes_per_cluster v < Z.of_nat (length l)) by (apply Z.div_lt_upper_bound; lia).
  assert (0 <= offset / g_bytes_per_cluster v) by (apply Z.div_pos; lia).
  destruct (skip_read_spec k st (first_cluster node) l C Hc ltac:(lia)) as (c' & st1 & -> & Hc' & C1 & Hd1).
  pose proof (Z.div_mod offset (g_bytes_per_cluster v) ltac:(lia)) as Hdm.
  pose proof (Z.mod_pos_bound offset (g_bytes_per_cluster v) ltac:(lia)) as Hmod. cbn [negb].
  destruct (read_loop_spec fuel st1 c' (drop k l) n (offset mod g_bytes_per_cluster v) ∅ m buffer)
    as (m' & st' & -> & C' & Hd' & Hm').
  - done.
  - by rewrite (same_disk _ _ Hd1).
  - lia.
  - done.
  - rewrite length_drop. unfold k. nia.
  - rewrite length_drop. lia.
  - exists m', st'. split_and!; [cbn; repeat f_equal; lia|done|congruence|]. intros a. rewrite Hm', (same_disk _ _ Hd1).
    case_bool_decide; [|done]. rewrite <- (take_drop k l) at 2. assert (length (take k l) = k) as Hk by (rewrite length_take; lia).
    rewrite fbyte_app_r by (rewrite Hk; nia). f_equal. rewrite Hk. lia.
Qed.
(** Reading a file returns [min(size, length - offset)] and copies exactly those
    bytes of the file's chain, starting at [offset], whatever cluster boundaries they
    span; it returns (the walk ends), and neither the disk nor other memory changes. *)
Theorem fat32_read_correct fuel st node l offset size m buffer :
  cache_ok v st -> chain v (disk v st) (first_cluster node) l ->
  0 <= fn_length node <= Z.of_nat (length l) * g_bytes_per_cluster v ->
  0 <= offset -> 0 <= size -> offset + size < 2 ^ 64 -> (length l < fuel)%nat ->
  let n := Z.max 0 (Z.min size (fn_length node - offset)) in
  exists m' st', fat32_read v fuel true st node offset size m buffer = Some (n, m', st') /\
    cache_ok v st' /\ drv st' = drv st /\
    forall a, get8 m' a = if bool_decide (buffer <= a < buffer + n)
                          then fbyte v (disk v st) l (offset + (a - buffer)) else get8 m a.
Proof using V. intros. by apply fat32_read_spec. Qed.
End Clusters.

(** The file of the small volume: 600 bytes over clusters 5 and 9. *)
Definition node0 : fat_node := FatNode VFS_FILE 600 5 33 0.

Lemma chain0 : chain vol0 (disk vol0 fat0) 5 [5; 9].
Proof. vm_compute. repeat split; try discriminate. intros [_ H]. discriminate. Qed.

Lemma fat32_read_correct_witness :
  exists m' st', fat32_read vol0 3 true fat0 node0 511 100 ∅ 0x1000 = Some (89, m', st') /\
    get8 m' 0x1000 = 65 /\ get8 m' 0x1001 = 66.
Proof.
  destruct (fat32_read_correct vol0 vol0_ok 3 fat0 node0 [5; 9] 511 100 ∅ 0x1000) as (m' & st' & H & _ & _ & Hm);
    [exact fat0_ok|exact chain0|vm_compute; split; discriminate|lia|lia|lia|simpl; lia|].
  exists m', st'. split_and!; [exact H| |]; rewrite Hm; vm_compute; reflexivity.
Defined.
