(* ===== verification/FatWrite.v ===== *)
(** FAT32, [src/src/fs/fat32.c]: files that grow, change and go away.

    [file_ok] is the invariant of an open file: its chain, none of whose clusters is
    marked free, covers its length, and its directory entry, in a cluster of another
    chain, has the node's first cluster and length. *)
From S2P Require Import Prelude Machine Ata FatTable FatFile.

(** ** Addresses *)
Definition in_cluster (v : fatvol) (c a : Z) : Prop :=
  cluster_addr v c <= a < cluster_addr v c + g_bytes_per_cluster v.

(** The directory entry of a node, on disk. *)
Definition ent_addr (node : fat_node) : Z := sector_lba node * SECTOR_SIZE + fn_offset node.
Definition entry_cluster (d : mem) (a : Z) : Z :=
  Z.lor (Z.shiftl (load 2 d (a + ENT_CLUSTER_HIGH)) 16) (load 2 d (a + ENT_CLUSTER_LOW)).
Definition entry_size (d : mem) (a : Z) : Z := load32 d (a + ENT_SIZE).

(** The clusters that are free, in order. *)
Definition free_list (v : fatvol) (d : mem) : list Z :=
  filter (fun c => is_free v d c = true) (seqZ 0 (nclusters v)).

(** A list of stores, at offsets from [o]. *)
Fixpoint stores (l : list (nat * Z * Z)) (o : Z) (m : mem) : mem :=
  match l with
  | [] => m
  | (n, k, x) :: l => stores l o (store n m (o + k) x)
  end.

Record file_ok (v : fatvol) (st : fat32) (node : fat_node) (l : list Z) : Prop := {
  fo_cache : cache_ok v st;
  fo_chain : chain v (disk v st) (first_cluster node) l;
  fo_used : Forall (fun x => fat_at v (disk v st) x <> 0) l;
  fo_len : 0 <= fn_length node <= Z.of_nat (length l) * g_bytes_per_cluster v;
  fo_first : first_cluster node = 0 \/ ~ (l = []);
  fo_dir : exists dc, 2 <= dc < nclusters v /\ fat_at v (disk v st) dc <> 0 /\ (dc ∉ l) /\
    g_data_start_lba v + (dc - 2) * sectors_per_cluster v <= sector_lba node
      < g_data_start_lba v + (dc - 1) * sectors_per_cluster v /\
    0 <= fn_offset node <= SECTOR_SIZE - 32;
  fo_ent : entry_cluster (disk v st) (ent_addr node) = first_cluster node;
  fo_ent_size : entry_size (disk v st) (ent_addr node) = fn_length node }.

Section Layout.
Context (v : fatvol) (V : vol_ok v).
Implicit Types (st : fat32) (node : fat_node) (m d : mem) (c a : Z) (l : list Z).

Lemma in_cluster_inj c c' a : in_cluster v c a -> in_cluster v c' a -> c = c'.
Proof using V.
  unfold in_cluster, cluster_addr. rewrite (vol_bpc v V). pose proof (vol_spc v V) as Hspc. unfold SECTOR_SIZE. intros H H'.
  destruct (Z.lt_trichotomy c c') as [Hlt|[->|Hlt]]; [nia|done|nia].
Qed.

Lemma in_cluster_not_fat c a : 2 <= c -> in_cluster v c a -> ~ in_fat v a.
Proof using V.
  unfold in_cluster, cluster_addr, in_fat. pose proof (vol_spc v V) as Hspc. pose proof (vol_data v V) as Hdata. unfold SECTOR_SIZE.
  intros Hc H H'. assert (0 <= (c - 2) * sectors_per_cluster v) by nia. lia.
Qed.

(** The table depends on its bytes only. *)
Lemma fat_at_ext d d' c : (forall a, in_fat v a -> get8 d' a = get8 d a) -> 0 <= c < nclusters v ->
  fat_at v d' c = fat_at v d c.
Proof.
  intros H Hc. unfold fat_at. f_equal. apply load_ext. intros i Hi. apply H. by apply entry_in_fat.
Qed.

Lemma chain_data d d' c l : (forall a, in_fat v a -> get8 d' a = get8 d a) -> chain v d c l -> chain v d' c l.
Proof.
  intros H Hc. eapply chain_ext; [|exact Hc]. intros x Hx. apply fat_at_ext; [done|].
  pose proof (chain_Forall _ _ _ _ Hc) as Hf. rewrite Forall_forall in Hf. specialize (Hf x Hx). lia.
Qed.

(** *** Patching a sector *)
Lemma stores_shift (ss : list (nat * Z * Z)) (o : Z) m d (base : Z) : Forall (fun '(n, k, x) => 0 <= o + k /\ o + k + Z.of_nat n <= SECTOR_SIZE) ss ->
  (forall a, 0 <= a < SECTOR_SIZE -> get8 m a = get8 d (base + a)) ->
  forall a, 0 <= a < SECTOR_SIZE -> get8 (stores ss o m) a = get8 (stores ss (base + o) d) (base + a).
Proof.
  revert m d. induction ss as [|[[n k] x] ss IH]; intros m d Hl H a Ha; cbn [stores]; [by apply H|].
  apply Forall_cons in Hl as [Hx Hl]. apply IH; [done| |done]. intros b Hb.
  destruct (decide (o + k <= b < o + k + Z.of_nat n)) as [Hi|Hi].
  - pose proof (get8_store_in n m (o + k) x (b - (o + k)) ltac:(lia)) as R1.
    pose proof (get8_store_in n d (base + o + k) x (b - (o + k)) ltac:(lia)) as R2.
    replace (o + k + (b - (o + k))) with b in R1 by lia.
    replace (base + o + k + (b - (o + k))) with (base + b) in R2 by lia. congruence.
  - rewrite !get8_store_out by lia. by apply H.
Qed.

Lemma stores_out (ss : list (nat * Z * Z)) (o : Z) d a : Forall (fun '(n, k, x) => a < o + k \/ o + k + Z.of_nat n <= a) ss ->
  get8 (stores ss o d) a = get8 d a.
Proof.
  revert d. induction ss as [|[[n k] x] ss IH]; intros d H; cbn [stores]; [done|].
  apply Forall_cons in H as [Hx H]. rewrite IH by done. by apply get8_store_out.
Qed.

(** Read a sector of the data area, store into it, write it back: the same stores on
    the disk. *)
Lemma patch_sector st (lba o : Z) (ss : list (nat * Z * Z)) : cache_ok v st -> g_data_start_lba v <= lba < 2 ^ 28 ->
  Forall (fun '(n, k, x) => 0 <= o + k /\ o + k + Z.of_nat n <= SECTOR_SIZE) ss ->
  let st' := with_drv st (ata_write_sectors (drv st)
    (stores ss o (ata_read_sectors (drv st) ∅ lba 1 (g_drive_sel v))) lba 1 (g_drive_sel v)) in
  cache_ok v st' /\ disk v st' ≡ stores ss (lba * SECTOR_SIZE + o) (disk v st).
Proof using V.
  intros C Hl Hs. cbv zeta. pose proof (vol_data v V). pose proof (vol_lba v V). pose proof (vol_spf v V).
  pose proof (vol_sel v V). split; [apply (cache_ok_write v V); (done || lia)|].
  intros a. unfold disk, with_drv. cbn [drv]. rewrite get8_write_sectors by (unfold fat_lba in *; lia).
  case_bool_decide as Ha.
  - rewrite (stores_shift ss o _ (drive (drv st) (g_drive_sel v)) (lba * SECTOR_SIZE)).
    + f_equal. lia.
    + done.
    + intros b Hb. rewrite get8_read_sectors by (unfold fat_lba in *; lia).
      rewrite bool_decide_eq_true_2 by lia. done.
    + lia.
  - symmetry. apply stores_out. eapply Forall_impl; [exact Hs|]. intros [[n k] x] [? ?]. unfold SECTOR_SIZE in *. lia.
Qed.
End Layout.

(** ** Free clusters *)
Section Free.
Context (v : fatvol) (V : vol_ok v).
Implicit Types (st : fat32) (d : mem) (c : Z) (l fl : list Z).

Lemma scan_filter n lo p : scan n lo p = head (filter (fun x => p x = true) (seqZ lo (Z.of_nat n))).
Proof.
  revert lo. induction n as [|n IH]; intros lo; [done|]. rewrite seqZ_cons by lia. cbn [scan].
  rewrite filter_cons. replace (Z.pred (Z.of_nat (S n))) with (Z.of_nat n) by lia.
  destruct (p lo); [by rewrite decide_True|]. rewrite decide_False by done. rewrite IH. done.
Qed.

Lemma elem_free_list d c : c ∈ free_list v d <-> 2 <= c < nclusters v /\ fat_at v d c = 0.
Proof.
  unfold free_list. rewrite list_elem_of_filter, elem_of_seqZ. unfold is_free.
  rewrite andb_true_iff, Z.leb_le, Z.eqb_eq. lia.
Qed.

Lemma free_list_NoDup d : NoDup (free_list v d).
Proof. apply NoDup_filter, NoDup_seqZ. Qed.

Lemma find_free_head st : cache_ok v st ->
  exists st', fat32_find_free_cluster v st = (default (-1) (head (free_list v (disk v st))), st') /\
    cache_ok v st' /\ drv st' = drv st.
Proof using V.
  intros C. destruct (find_free_cluster_spec v V st C) as (st' & -> & H). exists st'. split; [|done].
  rewrite scan_filter. pose proof (vol_spf v V). unfold free_list, nclusters in *. by rewrite Z2Nat.id by lia.
Qed.

(** Taking a cluster (setting its entry) removes it from the free ones. *)
Lemma free_list_set d d' c val : 0 <= c < nclusters v -> val <> 0 ->
  (forall x, 0 <= x < nclusters v -> fat_at v d' x = if bool_decide (c = x) then val else fat_at v d x) ->
  free_list v d' = filter (fun x => x <> c) (free_list v d).
Proof.
  intros Hc Hv U. unfold free_list. rewrite list_filter_filter. apply filter_ext_in.
  intros x Hx%elem_of_seqZ. unfold is_free. rewrite !andb_true_iff, !Z.leb_le, !Z.eqb_eq.
  rewrite U by lia. case_bool_decide; naive_solver.
Qed.

Lemma filter_ne_head c fl : NoDup (c :: fl) -> filter (fun x => x <> c) (c :: fl) = fl.
Proof.
  intros [Hc _]%NoDup_cons. rewrite filter_cons_False by naive_solver. apply filter_all. naive_solver.
Qed.

Lemma filter_ne_out c fl : c ∉ fl -> filter (fun x => x <> c) fl = fl.
Proof. intros Hc. apply filter_all. naive_solver. Qed.
End Free.

(** ** Growing a chain *)
Section Grow.
Context (v : fatvol) (V : vol_ok v).
Implicit Types (st : fat32) (node : fat_node) (d : mem) (c p q : Z) (l fs fl : list Z).

Lemma chain_snoc d d' c l p q : chain v d c (l ++ [p]) -> 2 <= q < nclusters v -> q ∉ l ++ [p] ->
  fat_updated v d d' (fun x => if bool_decide (q = x) then EOC else if bool_decide (p = x) then q else fat_at v d x) ->
  chain v d' c ((l ++ [p]) ++ [q]).
Proof using V.
  intros Hc Hq Hn [_ U]. pose proof (chain_NoDup v V _ _ _ Hc) as Hnd. revert c Hc.
  induction l as [|x l IH]; intros c Hc; cbn [app chain] in *.
  - destruct Hc as (-> & Hp & _). split_and!; [done|lia|lia| | | |]; try lia.
    + rewrite U by lia. rewrite bool_decide_eq_false_2 by set_solver. by rewrite bool_decide_eq_true_2.
    + rewrite U by lia. rewrite bool_decide_eq_true_2 by done. lia.
  - destruct Hc as (-> & Hx & Hc). apply NoDup_cons in Hnd as [Hx1 Hnd]. split_and!; [done|lia|lia|].
    rewrite U by lia. rewrite (bool_decide_eq_false_2 (q = x)) by set_solver.
    rewrite (bool_decide_eq_false_2 (p = x)) by set_solver. apply IH; [set_solver|done|done].
Qed.

(** What a chain that grew by [fs] is: the clusters [fs] were taken, nothing else of the
    table changed but the end of the chain, and the data area is as before. *)
Record grown d d' c l fs : Prop := {
  gr_chain : chain v d' c (l ++ fs);
  gr_used : Forall (fun x => fat_at v d' x <> 0) (l ++ fs);
  gr_fat x : 0 <= x < nclusters v -> x ∉ l ++ fs -> fat_at v d' x = fat_at v d x;
  gr_data a : ~ in_fat v a -> get8 d' a = get8 d a }.

Lemma two_writes st p q : cache_ok v st -> 0 <= p < nclusters v -> 0 <= q < nclusters v ->
  let st' := fat32_write_fat_entry v (fat32_write_fat_entry v st p q) q EOC in
  cache_ok v st' /\ fat_updated v (disk v st) (disk v st')
    (fun x => if bool_decide (q = x) then EOC else if bool_decide (p = x) then q else fat_at v (disk v st) x).
Proof using V.
  intros C Hp Hq. cbv zeta. pose proof (vol_ncl v V) as Hn. unfold EOC in Hn.
  destruct (write_fat_spec v V st p q C Hp) as [C1 D1].
  destruct (write_fat_spec v V _ q EOC C1 Hq) as [C2 D2]. split; [done|].
  pose proof (fat_updated_store v _ _ p q D1 Hp ltac:(lia)) as U1.
  pose proof (fat_updated_store v _ _ q EOC D2 Hq ltac:(unfold EOC; lia)) as U2.
  eapply fat_updated_ext; [eapply fat_updated_trans; [exact U1|exact U2]|]. intros x Hx. cbv beta.
  by rewrite (proj2 U1 x Hx).
Qed.

Lemma extend_chain_spec n st c l p fs : cache_ok v st -> chain v (disk v st) c (l ++ [p]) ->
  Forall (fun x => fat_at v (disk v st) x <> 0) (l ++ [p]) ->
  free_list v (disk v st) = fs ->
  exists st', extend_chain v n st p = ((n <=? length fs)%nat, st') /\ cache_ok v st' /\
    grown (disk v st) (disk v st') c (l ++ [p]) (take n fs).
Proof using V.
  revert st l p fs. induction n as [|n IH]; intros st l p fs C Hc Hu Hf; cbn [extend_chain].
  - rewrite take_0. exists st. split_and!; [done|done|]. split; rewrite ?app_nil_r; done.
  - destruct (find_free_head v V st C) as (st1 & -> & C1 & Hd1). rewrite Hf.
    destruct fs as [|q fs].
    { cbn. exists st1. rewrite (same_disk v _ _ Hd1). split_and!; [done|done|]. split; rewrite ?app_nil_r; done. }
    cbn [head default app].
    assert (q ∈ free_list v (disk v st)) as Hq by (rewrite Hf; set_solver).
    apply elem_free_list in Hq as [Hq Hq0]. cbn. rewrite (proj2 (Z.ltb_ge q 0)) by lia.
    pose proof (chain_Forall v _ _ _ Hc) as Hr. apply Forall_app in Hr as [_ [Hp _]%Forall_cons].
    destruct (two_writes st1 p q C1 ltac:(lia) ltac:(lia)) as [C2 U]. rewrite (same_disk v _ _ Hd1) in U.
    assert (q ∉ l ++ [p]) as Hql.
    { intros Hin. rewrite Forall_forall in Hu. by apply (Hu q Hin). }
    set (st2 := fat32_write_fat_entry v _ q EOC) in *.
    assert (free_list v (disk v st2) = fs) as Hf2.
    { pose proof (free_list_NoDup v (disk v st)) as Hnd. rewrite Hf in Hnd.
      transitivity (filter (fun x => x <> q) (free_list v (disk v st))); [|rewrite Hf; by apply filter_ne_head].
      unfold free_list. rewrite list_filter_filter. apply filter_ext_in. intros x Hx%elem_of_seqZ.
      unfold is_free. rewrite !andb_true_iff, !Z.leb_le, !Z.eqb_eq, (proj2 U) by lia.
      apply Forall_app in Hu as [_ [Hp0 _]%Forall_cons].
      case_bool_decide as E1; [unfold EOC; naive_solver|]. case_bool_decide as E2; [|naive_solver].
      subst x. naive_solver lia. }
    destruct (IH st2 (l ++ [p]) q fs) as (st' & -> & C' & G).
    + done.
    + by eapply chain_snoc.
    + apply Forall_forall. intros x Hx. rewrite (proj2 U).
      * rewrite Forall_forall in Hu. case_bool_decide; [unfold EOC; lia|]. case_bool_decide; [lia|].
        apply Hu. set_solver.
      * pose proof (chain_Forall v _ _ _ Hc) as Hr. rewrite Forall_forall in Hr.
        apply elem_of_app in Hx as [Hx| ->%list_elem_of_singleton]; [specialize (Hr x Hx)|]; lia.
    + done.
    + exists st'. split_and!; [done|done|]. destruct G as [G1 G2 G3 G4]. cbn [take].
      assert ((l ++ [p]) ++ q :: take n fs = ((l ++ [p]) ++ [q]) ++ take n fs) as Eq
        by (by rewrite <- (app_assoc (l ++ [p]) [q])).
      split; rewrite ?Eq; [done|done| |].
      * intros x Hx Hn'. rewrite G3 by done. rewrite (proj2 U) by done.
        rewrite !bool_decide_eq_false_2 by set_solver. done.
      * intros a Ha. rewrite G4 by done. by apply (proj1 U).
Qed.

Lemma trace_tail_spec fuel st c l prev count : cache_ok v st -> chain v (disk v st) c l ->
  (length l < fuel)%nat -> 0 <= count -> count + Z.of_nat (length l) < 2 ^ 32 ->
  exists st', trace_tail v fuel st c prev count = Some (default prev (last l), count + Z.of_nat (length l), st') /\
    cache_ok v st' /\ drv st' = drv st.
Proof using V.
  revert st c l prev count. induction fuel as [|n IH]; intros st c l prev count C Hc Hf H0 H32; [lia|].
  cbn [trace_tail]. pose proof (vol_ncl v V). destruct l as [|x l].
  - simpl in Hc. assert ((2 <=? c) && (c <? EOC) = false) as ->
      by (destruct (Z.leb_spec 2 c), (Z.ltb_spec c EOC); simpl; (done || lia)).
    exists st. split_and!; [|done|done]. simpl. repeat f_equal. lia.
  - destruct Hc as (-> & Hx & Hc). rewrite (proj2 (Z.leb_le 2 x)), (proj2 (Z.ltb_lt x EOC)) by lia. cbn [andb].
    destruct (read_fat_spec v V st x C ltac:(lia)) as (st1 & -> & C1 & Hd1). simpl length in *.
    rewrite (Prelude.u32_small (count + 1)) by lia.
    destruct (IH st1 (fat_at v (disk v st) x) l x (count + 1)) as (st' & -> & C' & Hd');
      [done|by rewrite (same_disk v _ _ Hd1)|lia|lia|lia|].
    exists st'. split_and!; [|done|congruence]. do 2 f_equal. f_equal; [|lia].
    destruct l as [|y l]; [done|]. cbn [last]. destruct (last (y :: l)) eqn:E; [done|].
    apply last_None in E. done.
Qed.
End Grow.

(** Clusters that [n] bytes need. *)
Definition clusters_for (v : fatvol) (n : Z) : nat :=
  Z.to_nat ((n + g_bytes_per_cluster v - 1) / g_bytes_per_cluster v).

(** The chain of a file after growing to [n] bytes. *)
Definition grown_chain (v : fatvol) (d : mem) (l : list Z) (n : Z) : list Z :=
  l ++ take (clusters_for v n - length l) (free_list v d).

(** The bytes of a directory entry that hold the first cluster and the size. *)
Definition ent_cluster_byte (node : fat_node) (a : Z) : Prop :=
  ent_addr node + ENT_CLUSTER_HIGH <= a < ent_addr node + ENT_CLUSTER_HIGH + 2 \/
  ent_addr node + ENT_CLUSTER_LOW <= a < ent_addr node + ENT_CLUSTER_LOW + 2.
Definition ent_size_byte (node : fat_node) (a : Z) : Prop :=
  ent_addr node + ENT_SIZE <= a < ent_addr node + ENT_SIZE + 4.

Section GrowFile.
Context (v : fatvol) (V : vol_ok v).
Implicit Types (st : fat32) (node : fat_node) (d : mem) (l fl : list Z).

Lemma split_words q : 0 <= q < 2 ^ 32 ->
  Z.lor (Z.shiftl (Z.land (Z.shiftr q 16) 0xFFFF) 16) (Z.land q 0xFFFF) = q.
Proof.
  intros Hq. change 0xFFFF with (2 ^ 16 - 1). rewrite !land_mask by lia.
  rewrite Z.shiftl_mul_pow2, Z.shiftr_div_pow2 by lia.
  rewrite (lor_disjoint _ _ 16); [|lia|apply Z.mod_pos_bound; lia|].
  - Z.div_mod_to_equations. lia.
  - apply Z.mod_mul. lia.
Qed.

Lemma entry_cluster_ext d d' a : (forall b, a + ENT_CLUSTER_HIGH <= b < a + ENT_CLUSTER_HIGH + 2 \/
    a + ENT_CLUSTER_LOW <= b < a + ENT_CLUSTER_LOW + 2 -> get8 d' b = get8 d b) ->
  entry_cluster d' a = entry_cluster d a.
Proof. intros H. unfold entry_cluster. f_equal; [f_equal|]; apply load_ext; intros; apply H; lia. Qed.

Lemma entry_size_ext d d' a : (forall b, a + ENT_SIZE <= b < a + ENT_SIZE + 4 -> get8 d' b = get8 d b) ->
  entry_size d' a = entry_size d a.
Proof. intros H. apply load_ext. intros. apply H. lia. Qed.

(** Where the entry of a file is. *)
Lemma ent_place st node l : file_ok v st node l ->
  g_data_start_lba v <= sector_lba node < 2 ^ 28 /\ 0 <= fn_offset node <= SECTOR_SIZE - 32 /\
  exists dc, 2 <= dc < nclusters v /\ fat_at v (disk v st) dc <> 0 /\ (dc ∉ l) /\
    forall a, ent_addr node <= a < ent_addr node + 32 -> in_cluster v dc a.
Proof using V.
  intros F. destruct (fo_dir _ _ _ _ F) as (dc & Hdc & Hu & Hl & Hs & Ho).
  destruct (cluster_lba v V dc Hdc) as (_ & H1 & H2). split_and!; [lia|lia|lia|lia|]. exists dc.
  split_and!; [lia|lia|done|done|]. intros a Ha. unfold ent_addr, in_cluster, cluster_addr in *.
  rewrite (vol_bpc v V). pose proof (vol_spc v V). unfold SECTOR_SIZE in *. nia.
Qed.

Lemma chain_length d c l : chain v d c l -> Z.of_nat (length l) <= nclusters v.
Proof using V.
  intros Hc. pose proof (chain_NoDup v V _ _ _ Hc) as Hnd. pose proof (chain_Forall v _ _ _ Hc) as Hr.
  assert (l ⊆+ seqZ 0 (nclusters v)) as Hs.
  { apply NoDup_submseteq; [done|]. intros x Hx. rewrite Forall_forall in Hr. specialize (Hr x Hx). apply elem_of_seqZ. lia. }
  apply submseteq_length in Hs. rewrite length_seqZ in Hs. pose proof (vol_spf v V). unfold nclusters in *. lia.
Qed.

Lemma alloc_first_spec st node q fl : file_ok v st node [] -> free_list v (disk v st) = q :: fl ->
  exists st', alloc_first v st node =
      (true, FatNode (fn_flags node) (fn_length node) q (sector_lba node) (fn_offset node), st') /\
    cache_ok v st' /\ chain v (disk v st') q [q] /\ fat_at v (disk v st') q <> 0 /\
    free_list v (disk v st') = fl /\
    (forall x, 0 <= x < nclusters v -> x <> q -> fat_at v (disk v st') x = fat_at v (disk v st) x) /\
    (forall a, ~ in_fat v a -> ~ ent_cluster_byte node a -> get8 (disk v st') a = get8 (disk v st) a) /\
    entry_cluster (disk v st') (ent_addr node) = q.
Proof using V.
  intros F Hf. pose proof (fo_cache _ _ _ _ F) as C. destruct (ent_place _ _ _ F) as (Hlba & Ho & dc & Hdc & _ & _ & Hin).
  unfold alloc_first. destruct (find_free_head v V st C) as (st1 & -> & C1 & Hd1). rewrite Hf. cbn [head default].
  assert (q ∈ free_list v (disk v st)) as Hq by (rewrite Hf; set_solver). apply elem_free_list in Hq as [Hq Hq0].
  cbn. rewrite (proj2 (Z.ltb_ge q 0)) by lia. pose proof (vol_ncl v V) as Hn. unfold EOC in Hn.
  set (ss := [(2%nat, ENT_CLUSTER_HIGH, Z.land (Z.shiftr q 16) 0xFFFF); (2%nat, ENT_CLUSTER_LOW, Z.land q 0xFFFF)]).
  change (store 2 (store 2 ?b _ _) _ _) with (stores ss (fn_offset node) b).
  destruct (patch_sector v V st1 (sector_lba node) (fn_offset node) ss C1 Hlba) as [C2 D2].
  { unfold ss, SECTOR_SIZE, ENT_CLUSTER_HIGH, ENT_CLUSTER_LOW in *.
    repeat (apply Forall_cons; split; [lia|]). constructor. }
  set (st2 := with_drv st1 _) in *. rewrite (same_disk v _ _ Hd1) in D2. fold (ent_addr node) in D2.
  destruct (write_fat_spec v V st2 q EOC C2 ltac:(lia)) as [C3 D3].
  pose proof (fat_updated_store v _ _ q EOC D3 ltac:(lia) ltac:(unfold EOC; lia)) as [U1 U2].
  assert (forall a, ~ ent_cluster_byte node a -> get8 (disk v st2) a = get8 (disk v st) a) as Hst2.
  { intros a Ha. rewrite D2. apply stores_out. unfold ent_cluster_byte in Ha.
    repeat (apply Forall_cons; split; [lia|]). constructor. }
  assert (forall a, in_fat v a -> get8 (disk v st2) a = get8 (disk v st) a) as Hfat2.
  { intros a Ha. apply Hst2. intros He. eapply (in_cluster_not_fat v V dc a); [lia| |done]. apply Hin.
    unfold ent_cluster_byte, ENT_CLUSTER_HIGH, ENT_CLUSTER_LOW in He. lia. }
  assert (forall x, 0 <= x < nclusters v -> fat_at v (disk v st2) x = fat_at v (disk v st) x) as Hf2.
  { intros x Hx. by apply fat_at_ext. }
  eexists. split; [done|]. split; [done|].
  split; [split; [done|split; [lia|]]; cbn [chain]; rewrite U2, bool_decide_eq_true_2 by (done || lia); lia|].
  split_and!.
  - rewrite U2, bool_decide_eq_true_2 by (done || lia). unfold EOC. lia.
  - pose proof (free_list_NoDup v (disk v st)) as Hnd. rewrite Hf in Hnd.
    rewrite <- (filter_ne_head q fl Hnd), <- Hf. apply (free_list_set v _ _ q EOC); [lia|unfold EOC; lia|].
    intros x Hx. rewrite U2 by done. by rewrite Hf2.
  - intros x Hx Hne. rewrite U2, bool_decide_eq_false_2 by (done || congruence). by apply Hf2.
  - intros a Ha He. rewrite U1 by done. by apply Hst2.
  - transitivity (entry_cluster (disk v st2) (ent_addr node)).
    { apply entry_cluster_ext. intros b Hb. apply U1. apply (in_cluster_not_fat v V dc); [lia|]. apply Hin.
      unfold ENT_CLUSTER_HIGH, ENT_CLUSTER_LOW in Hb. lia. }
    unfold entry_cluster. rewrite !D2. subst ss. cbn [stores].
    rewrite load_store_eq, (load_store_ne 2 2), load_store_eq by (unfold ENT_CLUSTER_HIGH, ENT_CLUSTER_LOW; lia).
    rewrite <- (split_words q) at 3 by lia. change (8 * Z.of_nat 2) with 16.
    change 0xFFFF with (2 ^ 16 - 1). rewrite !land_mask, !Z.mod_mod by lia. done.
Qed.

(** The chain of an open file after room was made for [n] bytes. *)
Record grew st st' node fc l' : Prop := {
  gf_cache : cache_ok v st';
  gf_chain : chain v (disk v st') fc l';
  gf_used : Forall (fun x => fat_at v (disk v st') x <> 0) l';
  gf_fat x : 0 <= x < nclusters v -> x ∉ l' -> fat_at v (disk v st') x = fat_at v (disk v st) x;
  gf_data a : ~ in_fat v a -> ~ ent_cluster_byte node a -> get8 (disk v st') a = get8 (disk v st) a;
  gf_ent : entry_cluster (disk v st') (ent_addr node) = fc }.

Lemma extend_to_spec fuel st node l p offset size : cache_ok v st ->
  chain v (disk v st) (first_cluster node) (l ++ [p]) ->
  Forall (fun x => fat_at v (disk v st) x <> 0) (l ++ [p]) ->
  0 <= offset -> 0 < size -> offset + size < 2 ^ 32 -> (length (l ++ [p]) < fuel)%nat ->
  exists st', extend_to v fuel st node offset size =
      Some ((clusters_for v (offset + size) <=? length (l ++ [p]) + length (free_list v (disk v st)))%nat, st') /\
    cache_ok v st' /\
    grown v (disk v st) (disk v st') (first_cluster node) (l ++ [p])
      (take (clusters_for v (offset + size) - length (l ++ [p])) (free_list v (disk v st))).
Proof using V.
  intros C Hc Hu Ho Hs H32 Hf. unfold extend_to. pose proof (bpc_range v V) as Hb.
  pose proof (chain_length _ _ _ Hc) as Hlen. pose proof (vol_ncl v V) as Hncl. unfold EOC in Hncl.
  destruct (trace_tail_spec v V fuel st (first_cluster node) (l ++ [p]) 0 0 C Hc Hf ltac:(lia) ltac:(lia))
    as (st1 & -> & C1 & Hd1). cbn [mbind option_bind]. rewrite last_snoc. change (default 0 (Some p)) with p. rewrite Z.add_0_l.
  pose proof (chain_Forall v _ _ _ Hc) as Hr. apply Forall_app in Hr as [_ [Hp _]%Forall_cons].
  rewrite (proj2 (Z.ltb_ge p 2)) by lia.
  set (k := Z.of_nat (length (l ++ [p]))) in *. set (bpc := g_bytes_per_cluster v) in *.
  assert (0 <= k * bpc < 2 ^ 48) by nia.
  rewrite (u64_small (k * bpc)), (u64_small (offset + size)) by lia.
  assert (Z.of_nat (clusters_for v (offset + size)) = (offset + size + bpc - 1) / bpc) as Hn.
  { unfold clusters_for. fold bpc. rewrite Z2Nat.id; [done|]. apply Z.div_pos; lia. }
  destruct (Z.ltb_spec (k * bpc) (offset + size)) as [Hlt|Hge].
  - rewrite (u64_small (offset + size - k * bpc)), (u64_small (offset + size - k * bpc + bpc)) by lia.
    rewrite u64_small by lia.
    replace (offset + size - k * bpc + bpc - 1) with (offset + size + bpc - 1 + (- k) * bpc) by lia.
    rewrite Z.div_add by lia. rewrite <- Hn.
    set (n := clusters_for v (offset + size)) in *.
    replace (Z.to_nat (Z.of_nat n + - k)) with (n - length (l ++ [p]))%nat by lia.
    destruct (extend_chain_spec v V (n - length (l ++ [p])) st1 (first_cluster node) l p
      (free_list v (disk v st))) as (st' & -> & C' & G); rewrite ?(same_disk v _ _ Hd1); try done.
    exists st'. rewrite (same_disk v _ _ Hd1) in G. split_and!; [|done|done]. do 2 f_equal.
    apply eq_true_iff_eq. rewrite !Nat.leb_le. lia.
  - exists st1. rewrite (same_disk v _ _ Hd1).
    assert ((offset + size + bpc - 1) / bpc < k + 1) by (apply Z.div_lt_upper_bound; lia).
    split_and!; [rewrite (proj2 (Nat.leb_le _ _)) by lia; done|done|].
    replace (_ - _)%nat with 0%nat by lia. rewrite take_0. split; rewrite ?app_nil_r; done.
Qed.

Lemma grow_file_spec fuel st node l offset size : file_ok v st node l ->
  0 <= offset -> 0 < size -> offset + size < 2 ^ 32 -> (length l + 1 < fuel)%nat ->
  exists st' fc, grow_file v fuel st node offset size =
      Some ((clusters_for v (offset + size) <=? length l + length (free_list v (disk v st)))%nat, FatNode (fn_flags node) (fn_length node) fc (sector_lba node) (fn_offset node), st') /\
    grew st st' node fc (grown_chain v (disk v st) l (offset + size)).
Proof using V.
  intros F Ho Hs H32 Hf. unfold grow_file, grown_chain. pose proof (bpc_range v V) as Hb.
  destruct (Z.eqb_spec (first_cluster node) 0) as [E0|E0].
  - assert (l = []) as -> by (destruct l as [|x l]; [done|]; pose proof (fo_chain _ _ _ _ F) as [? [? _]]; lia).
    assert (1 <= clusters_for v (offset + size))%nat.
    { assert (1 <= (offset + size + g_bytes_per_cluster v - 1) / g_bytes_per_cluster v)
        by (apply Z.div_le_lower_bound; lia). unfold clusters_for. lia. }
    destruct (free_list v (disk v st)) as [|q fl] eqn:Hfl.
    { unfold alloc_first. destruct (find_free_head v V st (fo_cache _ _ _ _ F)) as (st1 & -> & C1 & Hd1).
      rewrite Hfl. cbn. exists st1, (first_cluster node). split.
      - rewrite (proj2 (Nat.leb_gt _ _)) by lia. by destruct node.
      - rewrite take_nil. split; rewrite ?(same_disk v _ _ Hd1); (done || apply F). }
    destruct (alloc_first_spec st node q fl F Hfl) as (st1 & -> & C1 & Hc1 & Hu1 & Hf1 & Hfat1 & Hdata1 & He1).
    cbn [negb]. set (node1 := FatNode _ _ _ _ _).
    edestruct (extend_to_spec fuel st1 node1 [] q offset size) as (st' & -> & C' & [G1 G2 G3 G4]);
      [done|done|by constructor|done|done|done|simpl in *; lia|].
    rewrite Hf1 in G1, G2, G3 |- *. change (length ([] ++ [q])) with 1%nat in *. cbn.
    exists st', q. split; [done|]. rewrite Nat.sub_0_r.
    destruct (clusters_for v (offset + size)) as [|n]; [lia|]. cbn [take app]. rewrite Nat.sub_succ, Nat.sub_0_r in *.
    destruct (ent_place _ _ _ F) as (_ & _ & dc & Hdc & _ & _ & Hin).
    split; [done|exact G1|exact G2| | |].
    + intros x Hx Hn. cbn [app] in G3. rewrite G3 by done. apply Hfat1; [done|]. set_solver.
    + intros a Ha He. rewrite G4 by done. by apply Hdata1.
    + rewrite <- He1. apply entry_cluster_ext. intros b Hb'. apply G4. apply (in_cluster_not_fat v V dc); [lia|].
      apply Hin. unfold ENT_CLUSTER_HIGH, ENT_CLUSTER_LOW in Hb'. lia.
  - cbn [negb]. destruct (fo_first _ _ _ _ F) as [|Hl]; [done|].
    destruct (exists_last Hl) as (l0 & p & ->).
    destruct (extend_to_spec fuel st node l0 p offset size) as (st' & -> & C' & [G1 G2 G3 G4]);
      [apply F|apply F|apply F|done|done|done|lia|].
    destruct (ent_place _ _ _ F) as (_ & _ & dc & Hdc & _ & _ & Hin).
    exists st', (first_cluster node). split; [by destruct node|]. split; [done|done|done|done| |].
    + intros a Ha _. by apply G4.
    + rewrite <- (fo_ent _ _ _ _ F). apply entry_cluster_ext. intros b Hb'. apply G4.
      apply (in_cluster_not_fat v V dc); [lia|].
      apply Hin. unfold ENT_CLUSTER_HIGH, ENT_CLUSTER_LOW in Hb'. lia.
Qed.
End GrowFile.

(** ** Writing the data *)
Section Write.
Context (v : fatvol) (V : vol_ok v).
Implicit Types (st : fat32) (node : fat_node) (m d : mem) (c a : Z) (l : list Z).

Lemma skip_write_spec n st c l : cache_ok v st -> chain v (disk v st) c l -> (n < length l)%nat ->
  exists c' st', skip_write v n st c = (c', st') /\ chain v (disk v st) c' (drop n l) /\
    cache_ok v st' /\ drv st' = drv st.
Proof using V.
  revert st c l. induction n as [|n IH]; intros st c l C Hc Hn; cbn [skip_write].
  - exists c, st. by rewrite drop_0.
  - destruct l as [|x l]; [simpl in Hn; lia|]. destruct Hc as (-> & Hx & Hc).
    destruct (read_fat_spec v V st x C ltac:(lia)) as (st1 & -> & C1 & Hd1). simpl in Hn.
    destruct (IH st1 (fat_at v (disk v st) x) l) as (c' & st' & -> & Hc' & C' & Hd').
    + done.
    + by rewrite (same_disk v _ _ Hd1).
    + lia.
    + rewrite (same_disk v _ _ Hd1) in Hc'. exists c', st'. split_and!; [done|done|done|congruence].
Qed.

(** Writing a cluster back with [cs] of its bytes replaced. *)
Lemma write_cluster st c tmp m buf ro cs : cache_ok v st -> 2 <= c < nclusters v -> 0 <= ro -> 0 <= cs ->
  ro + cs <= g_bytes_per_cluster v ->
  let tb := ata_read_sectors (drv st) tmp (fat32_cluster_to_lba v c) (sectors_per_cluster v) (g_drive_sel v) in
  let st' := with_drv st (ata_write_sectors (drv st) (blit tb ro m buf cs) (fat32_cluster_to_lba v c)
               (sectors_per_cluster v) (g_drive_sel v)) in
  cache_ok v st' /\ forall a, get8 (disk v st') a =
    let p := cluster_addr v c + ro in
    if bool_decide (p <= a < p + cs) then get8 m (buf + (a - p)) else get8 (disk v st) a.
Proof using V.
  intros C Hc Hro Hcs Hfit. cbv zeta. set (tb := ata_read_sectors _ _ _ _ _).
  pose proof (fun b => get8_read_cluster v V st tmp c b Hc) as Htb. fold tb in Htb. clearbody tb.
  destruct (cluster_lba v V c Hc) as (-> & H1 & H2). pose proof (vol_spc v V) as Hspc. pose proof (vol_data v V).
  pose proof (vol_lba v V). pose proof (vol_sel v V). pose proof (vol_spf v V). rewrite (vol_bpc v V) in *.
  assert (0 <= (c - 2) * sectors_per_cluster v) by nia. unfold fat_lba in *.
  split; [apply (cache_ok_write v V); unfold fat_lba; (done || lia)|].
  intros a. unfold disk, with_drv. cbn [drv]. rewrite get8_write_sectors by lia. rewrite get8_blit by lia.
  fold (cluster_addr v c). assert ((g_data_start_lba v + (c - 2) * sectors_per_cluster v + sectors_per_cluster v) *
    SECTOR_SIZE = cluster_addr v c + sectors_per_cluster v * SECTOR_SIZE) as -> by (unfold cluster_addr; lia).
  repeat case_bool_decide; try lia; [f_equal; lia|]. rewrite Htb by lia. unfold disk. f_equal. lia.
Qed.

Lemma write_loop_spec fuel st c l rem ro tmp m buf : cache_ok v st -> chain v (disk v st) c l ->
  0 <= rem -> 0 <= ro < g_bytes_per_cluster v -> ro + rem <= Z.of_nat (length l) * g_bytes_per_cluster v ->
  (length l < fuel)%nat ->
  exists st', write_loop v fuel st c rem ro tmp m buf = Some (0, st') /\ cache_ok v st' /\
    (forall a, (forall x, x ∈ l -> ~ in_cluster v x a) -> get8 (disk v st') a = get8 (disk v st) a) /\
    forall i, 0 <= i -> i < Z.of_nat (length l) * g_bytes_per_cluster v ->
      fbyte v (disk v st') l i = if bool_decide (ro <= i < ro + rem) then get8 m (buf + (i - ro)) else fbyte v (disk v st) l i.
Proof using V.
  pose proof (bpc_range v V) as Hb. revert st c l rem ro tmp buf.
  induction fuel as [|n IH]; intros st c l rem ro tmp buf C Hc Hr Hro Hfit Hf; [lia|]. cbn [write_loop].
  destruct (Z.ltb_spec 0 rem) as [Hpos|]; cbn [andb]; cycle 1.
  { assert (rem = 0) as -> by lia. exists st. split_and!; [done|done|done|]. intros i Hi _.
    rewrite bool_decide_eq_false_2 by lia. done. }
  destruct l as [|x l]; [simpl in Hfit; lia|]. pose proof (chain_NoDup v V _ _ _ Hc) as Hnd.
  pose proof (chain_Forall v _ _ _ Hc) as Hrng. apply Forall_cons in Hrng as [_ Hrng].
  destruct Hc as (-> & Hx & Hc). pose proof (vol_ncl v V). apply NoDup_cons in Hnd as [Hxl Hnd].
  rewrite (proj2 (Z.leb_le 2 x)), (proj2 (Z.ltb_lt x EOC)) by lia. cbn [andb]. rewrite u64_small by lia.
  set (cs := Z.min rem (g_bytes_per_cluster v - ro)). assert (0 < cs) by lia. simpl length in *.
  destruct (write_cluster st x tmp m buf ro cs C Hx ltac:(lia) ltac:(lia) ltac:(lia)) as [C1 D1].
  set (tb := blit _ ro m buf cs) in *. set (st1 := with_drv st _) in *. cbv zeta in D1.
  assert (forall a, ~ in_cluster v x a -> get8 (disk v st1) a = get8 (disk v st) a) as D2.
  { intros a Ha. rewrite D1, bool_decide_eq_false_2 by (unfold in_cluster in Ha; lia). done. }
  assert (forall a, in_fat v a -> get8 (disk v st1) a = get8 (disk v st) a) as D3.
  { intros a Ha. apply D2. intros Hin. eapply (in_cluster_not_fat v V x a); [lia|exact Hin|exact Ha]. }
  assert (forall i, 0 <= i -> fbyte v (disk v st1) l i = fbyte v (disk v st) l i) as D4.
  { intros i Hi. apply fbyte_ext; [exact V| |done]. intros y j Hy Hj. apply D2. intros Hin.
    assert (x = y) by (eapply (in_cluster_inj v V); [exact Hin|unfold in_cluster; lia]). congruence. }
  destruct (Z.ltb_spec 0 (rem - cs)).
  - destruct (read_fat_spec v V st1 x C1 ltac:(lia)) as (st2 & -> & C2 & Hd2).
    destruct (IH st2 (fat_at v (disk v st1) x) l (rem - cs) 0 tb (buf + cs)) as (st' & -> & C' & A' & B');
      [done| |lia|lia|lia|lia|].
    { rewrite (same_disk v _ _ Hd2). rewrite (fat_at_ext v _ _ x D3) by lia. by eapply chain_data. }
    rewrite (same_disk v _ _ Hd2) in A', B'. exists st'. split_and!; [done|done| |].
    + intros a Ha. rewrite A' by (intros; apply Ha; set_solver). apply D2. apply Ha. set_solver.
    + intros i Hi Hil. cbn [fbyte]. destruct (Z.ltb_spec i (g_bytes_per_cluster v)).
      * rewrite A'; cycle 1.
        { intros y Hy Hin. assert (x = y) by (eapply (in_cluster_inj v V); [|exact Hin]; unfold in_cluster; lia). congruence. }
        rewrite D1. repeat case_bool_decide; try lia; try done. f_equal. lia.
      * rewrite B' by lia. rewrite D4 by lia. repeat case_bool_decide; try lia; try done. f_equal. lia.
  - destruct n as [|n]; [simpl in *; lia|]. cbn [write_loop]. rewrite (proj2 (Z.ltb_ge 0 (rem - cs))) by lia. cbn [andb].
    exists st1. split_and!; [repeat f_equal; lia|done| |].
    + intros a Ha. apply D2, Ha. set_solver.
    + intros i Hi Hil. cbn [fbyte]. destruct (Z.ltb_spec i (g_bytes_per_cluster v)).
      * rewrite D1. repeat case_bool_decide; try lia; try done. f_equal. lia.
      * rewrite D4 by lia. rewrite bool_decide_eq_false_2 by lia. done.
Qed.

Lemma update_size_spec st node n : cache_ok v st -> g_data_start_lba v <= sector_lba node < 2 ^ 28 ->
  0 <= fn_offset node <= SECTOR_SIZE - 32 -> 0 <= n < 2 ^ 32 ->
  exists st', fat32_update_size v st node n =
      (st', FatNode (fn_flags node) n (first_cluster node) (sector_lba node) (fn_offset node)) /\
    cache_ok v st' /\ entry_size (disk v st') (ent_addr node) = n /\
    forall a, ~ ent_size_byte node a -> get8 (disk v st') a = get8 (disk v st) a.
Proof using V.
  intros C Hl Ho Hn. unfold fat32_update_size. eexists. split; [done|].
  rewrite (Prelude.u32_small n) by lia.
  change (store32 ?b ?o n) with (stores [(4%nat, ENT_SIZE, n)] (fn_offset node) b).
  destruct (patch_sector v V st (sector_lba node) (fn_offset node) [(4%nat, ENT_SIZE, n)] C Hl) as [C1 D1].
  { unfold SECTOR_SIZE, ENT_SIZE in *. repeat (apply Forall_cons; split; [lia|]). constructor. }
  fold (ent_addr node) in D1. split_and!; [done| |].
  - unfold entry_size, load32. rewrite D1. cbn [stores]. apply load_store_small. cbn. lia.
  - intros a Ha. rewrite D1. apply stores_out. unfold ent_size_byte in Ha. apply Forall_cons; split; [lia|constructor].
Qed.
End Write.

(** ** A whole write *)
Section WriteFile.
Context (v : fatvol) (V : vol_ok v).
Implicit Types (st : fat32) (node : fat_node) (m d : mem) (c a : Z) (l : list Z).

Lemma clusters_for_le n : 0 <= n -> n <= Z.of_nat (clusters_for v n) * g_bytes_per_cluster v.
Proof using V.
  intros Hn. pose proof (bpc_range v V) as Hb. unfold clusters_for. rewrite Z2Nat.id by (apply Z.div_pos; lia).
  pose proof (Z.div_mod (n + g_bytes_per_cluster v - 1) (g_bytes_per_cluster v) ltac:(lia)).
  pose proof (Z.mod_pos_bound (n + g_bytes_per_cluster v - 1) (g_bytes_per_cluster v) ltac:(lia)). lia.
Qed.

Lemma clusters_for_ge n k : n <= Z.of_nat k * g_bytes_per_cluster v -> (clusters_for v n <= k)%nat.
Proof using V.
  intros Hn. pose proof (bpc_range v V) as Hb. unfold clusters_for.
  assert ((n + g_bytes_per_cluster v - 1) / g_bytes_per_cluster v < Z.of_nat k + 1) by (apply Z.div_lt_upper_bound; lia). lia.
Qed.

Lemma grown_chain_length d l n : (clusters_for v n <= length l + length (free_list v d))%nat ->
  length (grown_chain v d l n) = Nat.max (length l) (clusters_for v n).
Proof. intros H. unfold grown_chain. rewrite length_app, length_take. lia. Qed.

Lemma grown_chain_elem d l n x : x ∈ grown_chain v d l n -> x ∈ l \/ fat_at v d x = 0.
Proof.
  unfold grown_chain. intros [?|Hx]%elem_of_app; [by left|]. right.
  assert (x ∈ free_list v d) as Hf; [|by apply elem_free_list in Hf as [_ ?]].
  rewrite <- (take_drop (clusters_for v n - length l) (free_list v d)). apply elem_of_app. by left.
Qed.

Lemma grow_needed fuel st node l offset size : file_ok v st node l ->
  0 <= offset -> 0 < size -> offset + size < 2 ^ 32 ->
  (clusters_for v (offset + size) <= length l + length (free_list v (disk v st)))%nat -> (length l + 1 < fuel)%nat ->
  exists st' fc, (if (fn_length node <? u64 (offset + size)) || (first_cluster node =? 0)
       then grow_file v fuel st node offset size else Some (true, node, st)) =
      Some (true, FatNode (fn_flags node) (fn_length node) fc (sector_lba node) (fn_offset node), st') /\
    grew v st st' node fc (grown_chain v (disk v st) l (offset + size)).
Proof using V.
  intros F Ho Hs H32 Hfit Hf. rewrite u64_small by lia. destruct (_ || _) eqn:E.
  { destruct (grow_file_spec v V fuel st node l offset size F Ho Hs H32 Hf) as (st' & fc & -> & G).
    exists st', fc. split; [|done]. by rewrite (proj2 (Nat.leb_le _ _)) by lia. }
  apply orb_false_elim in E as [E1%Z.ltb_ge E2%Z.eqb_neq].
  assert (clusters_for v (offset + size) <= length l)%nat.
  { apply clusters_for_ge. pose proof (fo_len _ _ _ _ F). lia. }
  exists st, (first_cluster node). split; [by destruct node|]. unfold grown_chain.
  replace (_ - _)%nat with 0%nat by lia. rewrite take_0, app_nil_r. split; (done || apply F).
Qed.

(** The end of a write: the size in the entry. *)
Lemma write_finish st node n : cache_ok v st -> g_data_start_lba v <= sector_lba node < 2 ^ 28 ->
  0 <= fn_offset node <= SECTOR_SIZE - 32 -> 0 <= n < 2 ^ 32 ->
  entry_size (disk v st) (ent_addr node) = fn_length node ->
  exists st', (if fn_length node <? n then fat32_update_size v st node n else (st, node)) =
      (st', FatNode (fn_flags node) (Z.max (fn_length node) n) (first_cluster node) (sector_lba node) (fn_offset node)) /\
    cache_ok v st' /\ entry_size (disk v st') (ent_addr node) = Z.max (fn_length node) n /\
    forall a, ~ ent_size_byte node a -> get8 (disk v st') a = get8 (disk v st) a.
Proof using V.
  intros C Hl Ho Hn He. destruct (Z.ltb_spec (fn_length node) n).
  - rewrite Z.max_r by lia. by apply update_size_spec.
  - rewrite Z.max_l by lia. exists st. split_and!; [by destruct node|done|done|done].
Qed.

(** The data part of a write, at [offset] of the chain [l]. *)
Lemma write_data fuel st c l offset size m buf : cache_ok v st -> chain v (disk v st) c l ->
  0 <= offset -> 0 < size -> offset + size <= Z.of_nat (length l) * g_bytes_per_cluster v -> (length l < fuel)%nat ->
  exists c' st1 st', skip_write v (Z.to_nat (offset / g_bytes_per_cluster v)) st c = (c', st1) /\
    write_loop v fuel st1 c' size (offset mod g_bytes_per_cluster v) ∅ m buf = Some (0, st') /\ cache_ok v st' /\
    (forall a, (forall x, x ∈ l -> ~ in_cluster v x a) -> get8 (disk v st') a = get8 (disk v st) a) /\
    forall i, 0 <= i -> i < Z.of_nat (length l) * g_bytes_per_cluster v -> fbyte v (disk v st') l i =
      if bool_decide (offset <= i < offset + size) then get8 m (buf + (i - offset)) else fbyte v (disk v st) l i.
Proof using V.
  intros C Hc Ho Hs Hfit Hf. pose proof (bpc_range v V) as Hb. set (k := Z.to_nat (offset / g_bytes_per_cluster v)).
  set (bpc := g_bytes_per_cluster v) in *.
  assert (offset / bpc < Z.of_nat (length l)) by (apply Z.div_lt_upper_bound; lia).
  assert (0 <= offset / bpc) by (apply Z.div_pos; lia).
  pose proof (Z.div_mod offset bpc ltac:(lia)) as Hdm. pose proof (Z.mod_pos_bound offset bpc ltac:(lia)) as Hmod.
  destruct (skip_write_spec v V k st c l C Hc ltac:(lia)) as (c' & st1 & E & Hc' & C1 & Hd1).
  destruct (write_loop_spec v V fuel st1 c' (drop k l) size (offset mod bpc) ∅ m buf) as (st' & E2 & C' & A & B).
  { done. } { by rewrite (same_disk v _ _ Hd1). } { lia. } { done. }
  { rewrite length_drop. fold bpc. nia. } { rewrite length_drop. lia. }
  rewrite (same_disk v _ _ Hd1) in A, B. fold bpc in B.
  exists c', st1, st'. split_and!; [done|done|done| |].
  - intros a Ha. apply A. intros x Hx. apply Ha. rewrite <- (take_drop k l). apply elem_of_app. by right.
  - assert (length (take k l) = k) as Hk by (rewrite length_take; lia).
    assert (length (drop k l) = (length l - k)%nat) as Hdl by apply length_drop.
    intros i Hi Hil. rewrite <- (take_drop k l). destruct (Z.lt_ge_cases i (Z.of_nat k * bpc)).
    + rewrite !fbyte_app_l by (fold bpc; rewrite ?Hk; lia). rewrite bool_decide_eq_false_2 by nia.
      apply fbyte_ext; [done| |done]. intros x j Hx Hj. apply A. intros y Hy Hin.
      assert (x = y) as -> by (eapply (in_cluster_inj v V); [|exact Hin]; unfold in_cluster; lia).
      pose proof (chain_NoDup v V _ _ _ Hc) as Hnd. rewrite <- (take_drop k l) in Hnd.
      apply NoDup_app in Hnd as (_ & Hnd & _). by apply (Hnd y).
    + rewrite !fbyte_app_r by (done || fold bpc; rewrite ?Hk; lia). fold bpc. rewrite Hk, B by (fold bpc; nia).
      repeat case_bool_decide; try nia; try done. f_equal. nia.
Qed.

Lemma fat32_write_spec fuel st node l offset size m buffer : file_ok v st node l ->
  0 <= offset -> 0 < size -> offset + size < 2 ^ 32 ->
  (clusters_for v (offset + size) <= length l + length (free_list v (disk v st)))%nat ->
  let l' := grown_chain v (disk v st) l (offset + size) in
  (length l' + 1 < fuel)%nat ->
  exists st' node', fat32_write v fuel true st node offset size m buffer = Some (size, node', st') /\
    file_ok v st' node' l' /\ fn_length node' = Z.max (fn_length node) (offset + size) /\
    (forall i, 0 <= i -> i < Z.of_nat (length l') * g_bytes_per_cluster v -> fbyte v (disk v st') l' i =
      if bool_decide (offset <= i < offset + size) then get8 m (buffer + (i - offset)) else fbyte v (disk v st) l' i) /\
    (forall x, 0 <= x < nclusters v -> x ∉ l' -> fat_at v (disk v st') x = fat_at v (disk v st) x) /\
    (forall a, ~ in_fat v a -> (forall x, x ∈ l' -> ~ in_cluster v x a) -> ~ ent_cluster_byte node a ->
       ~ ent_size_byte node a -> get8 (disk v st') a = get8 (disk v st) a).
Proof using V.
  intros F Ho Hs H32 Hfit l' Hf. unfold fat32_write. rewrite (proj2 (Z.eqb_neq size 0)) by lia.
  pose proof (grown_chain_length _ _ _ Hfit) as Hlen. fold l' in Hlen. pose proof (bpc_range v V) as Hb.
  destruct (grow_needed fuel st node l offset size F Ho Hs H32 Hfit ltac:(lia)) as (st1 & fc & -> & [C1 Hc1 Hu1 Hfat1 Hdata1 He1]).
  fold l' in Hc1, Hu1, Hfat1. cbn [mbind option_bind negb first_cluster].
  pose proof (clusters_for_le (offset + size) ltac:(lia)) as Hcl.
  destruct (write_data fuel st1 fc l' offset size m buffer C1 Hc1 Ho Hs ltac:(nia) ltac:(lia))
    as (c' & st2 & st3 & -> & -> & C3 & A3 & B3). cbn [mbind option_bind]. rewrite u64_small by lia.
  destruct (ent_place v V _ _ _ F) as (Hlba & Hoff & dc & Hdc & Hdu & Hdl & Hin).
  assert (dc ∉ l') as Hdl' by (intros [?|?]%grown_chain_elem; done).
  assert (forall a x, ent_addr node <= a < ent_addr node + 32 -> x ∈ l' -> ~ in_cluster v x a) as Hout.
  { intros a x Ha Hx Hin'. assert (x = dc) as -> by (eapply (in_cluster_inj v V); [exact Hin'|by apply Hin]). done. }
  assert (forall a, ent_addr node <= a < ent_addr node + 32 -> get8 (disk v st3) a = get8 (disk v st1) a) as Hent3
    by (intros a Ha; apply A3; intros; by apply Hout).
  set (node1 := FatNode _ _ _ _ _).
  destruct (write_finish st3 node1 (offset + size)) as (st' & -> & C' & Hes & Hb').
  { done. } { done. } { done. } { lia. }
  { cbn [fn_length node1]. rewrite <- (fo_ent_size _ _ _ _ F). change (ent_addr node1) with (ent_addr node).
    apply entry_size_ext. intros b Hbb. rewrite Hent3 by (unfold ENT_SIZE in *; lia).
    apply Hdata1; [|unfold ent_cluster_byte, ENT_CLUSTER_HIGH, ENT_CLUSTER_LOW, ENT_SIZE in *; lia].
    apply (in_cluster_not_fat v V dc); [lia|]. apply Hin. unfold ENT_SIZE in *; lia. }
  eexists st', _. split; [rewrite Z.sub_0_r; reflexivity|]. cbn [fn_length node1] in *.
  assert (forall a, ~ (ent_addr node <= a < ent_addr node + 32) -> get8 (disk v st') a = get8 (disk v st3) a) as Hb2.
  { intros a Ha. apply Hb'. unfold ent_size_byte, ENT_SIZE. change (ent_addr node1) with (ent_addr node). lia. }
  assert (forall a, in_fat v a -> get8 (disk v st') a = get8 (disk v st1) a) as Hfat'.
  { intros a Ha. rewrite Hb2, A3; [done| |].
    - intros x Hx Hi. eapply (in_cluster_not_fat v V x a); [|done|done].
      pose proof (chain_Forall v _ _ _ Hc1) as Hr. rewrite Forall_forall in Hr. specialize (Hr x Hx). lia.
    - intros Hi. by eapply (in_cluster_not_fat v V dc a); [lia|apply Hin|]. }
  assert (forall x, 0 <= x < nclusters v -> fat_at v (disk v st') x = fat_at v (disk v st1) x) as Hfx
    by (intros; by apply fat_at_ext).
  split_and!.
  - split; cbn [first_cluster fn_length sector_lba fn_offset node1].
    + done.
    + by eapply chain_data.
    + eapply Forall_impl; [apply Forall_and; split; [exact Hu1|exact (chain_Forall v _ _ _ Hc1)]|].
      intros x [Hx1 Hx2]. rewrite Hfx by lia. done.
    + pose proof (fo_len _ _ _ _ F). nia.
    + right. intros E. rewrite E in Hlen. simpl in Hlen. nia.
    + destruct (fo_dir _ _ _ _ F) as (dc2 & Hdc2 & Hdu2 & Hdl2 & Hrest). exists dc2.
      assert (dc2 ∉ l') by (intros [?|?]%grown_chain_elem; done).
      split_and!; [lia|lia| |done|lia|lia|lia|lia]. rewrite Hfx, Hfat1 by (done || lia). done.
    + rewrite <- He1. change (ent_addr (FatNode _ _ _ _ _)) with (ent_addr node). apply entry_cluster_ext.
      intros b Hbb. unfold ENT_CLUSTER_HIGH, ENT_CLUSTER_LOW in Hbb. rewrite Hb', Hent3; [done|lia|].
      unfold ent_size_byte, ENT_SIZE. change (ent_addr node1) with (ent_addr node). lia.
    + exact Hes.
  - done.
  - intros i Hi Hil. transitivity (fbyte v (disk v st3) l' i).
    { apply fbyte_ext; [done| |done]. intros x j Hx Hj. apply Hb2. intros Ha. apply (Hout _ x Ha Hx).
      unfold in_cluster. lia. }
    rewrite B3 by done. case_bool_decide; [done|]. apply fbyte_ext; [done| |done]. intros x j Hx Hj.
    pose proof (chain_Forall v _ _ _ Hc1) as Hr. rewrite Forall_forall in Hr. specialize (Hr x Hx).
    assert (in_cluster v x (cluster_addr v x + j)) as Hxj by (unfold in_cluster; lia).
    apply Hdata1; [by apply (in_cluster_not_fat v V x); [lia|]|]. intros He. eapply Hout; [|exact Hx|exact Hxj].
    unfold ent_cluster_byte, ENT_CLUSTER_HIGH, ENT_CLUSTER_LOW in He. lia.
  - intros x Hx Hn. rewrite Hfx by done. by apply Hfat1.
  - intros a Ha Hx He1' He2. rewrite Hb' by exact He2. rewrite A3 by done. by apply Hdata1.
Qed.
(** C9: Writing a file returns [size] and leaves the file's invariant: the chain is
    extended by as many clusters as the new end needs, the first free ones, in order; the
    written range of the file holds the caller's bytes and the rest is unchanged; the
    directory entry has the new size and first cluster.  No other entry of the table, no
    other cluster and no other byte of the directory changes. *)
Theorem fat32_write_correct fuel st node l offset size m buffer : file_ok v st node l ->
  0 <= offset -> 0 < size -> offset + size < 2 ^ 32 ->
  (clusters_for v (offset + size) <= length l + length (free_list v (disk v st)))%nat ->
  let l' := grown_chain v (disk v st) l (offset + size) in
  (length l' + 1 < fuel)%nat ->
  exists st' node', fat32_write v fuel true st node offset size m buffer = Some (size, node', st') /\
    file_ok v st' node' l' /\ fn_length node' = Z.max (fn_length node) (offset + size) /\
    (forall i, 0 <= i -> i < Z.of_nat (length l') * g_bytes_per_cluster v -> fbyte v (disk v st') l' i =
      if bool_decide (offset <= i < offset + size) then get8 m (buffer + (i - offset)) else fbyte v (disk v st) l' i) /\
    (forall x, 0 <= x < nclusters v -> x ∉ l' -> fat_at v (disk v st') x = fat_at v (disk v st) x) /\
    (forall a, ~ in_fat v a -> (forall x, x ∈ l' -> ~ in_cluster v x a) -> ~ ent_cluster_byte node a ->
       ~ ent_size_byte node a -> get8 (disk v st') a = get8 (disk v st) a).
Proof using V. intros. by apply fat32_write_spec. Qed.

(** C6: What is written to a file is read back: after a write of [size] bytes at [offset],
    reading [size] bytes at [offset] returns [size] and the caller's bytes, through the
    cache and the chain as they are then. *)
Theorem fat32_write_read fuel st node l offset size m buffer m2 buffer2 : file_ok v st node l ->
  0 <= offset -> 0 < size -> offset + size < 2 ^ 32 ->
  (clusters_for v (offset + size) <= length l + length (free_list v (disk v st)))%nat ->
  (length (grown_chain v (disk v st) l (offset + size)) + 1 < fuel)%nat ->
  exists st' node' m3 st2, fat32_write v fuel true st node offset size m buffer = Some (size, node', st') /\
    fat32_read v fuel true st' node' offset size m2 buffer2 = Some (size, m3, st2) /\
    forall a, get8 m3 a = if bool_decide (buffer2 <= a < buffer2 + size) then get8 m (buffer + (a - buffer2)) else get8 m2 a.
Proof using V.
  intros F Ho Hs H32 Hfit Hf.
  destruct (fat32_write_spec fuel st node l offset size m buffer F Ho Hs H32 Hfit Hf)
    as (st' & node' & Hw & F' & Hlen & Hbytes & _). set (l' := grown_chain _ _ _ _) in *.
  destruct (fat32_read_spec v V fuel st' node' l' offset size m2 buffer2) as (m3 & st2 & Hr & _ & _ & Hm3);
    [apply F'|apply F'|apply F'|lia|lia|lia|lia|].
  rewrite Z.max_r, Z.min_l in Hr, Hm3 by lia. exists st', node', m3, st2. split_and!; [done|done|].
  intros a. rewrite Hm3. case_bool_decide; [|done]. pose proof (fo_len _ _ _ _ F').
  rewrite Hbytes, bool_decide_eq_true_2 by lia. f_equal. lia.
Qed.

(** C36: A write that needs more clusters than are free returns 0 and changes no file data
    and no size.  The clusters it took before the volume was full stay in the chain of the
    file: they are not given back, and no cluster is free afterwards. *)
Theorem fat32_write_full fuel tmp_ok st node l offset size m buffer : file_ok v st node l ->
  0 <= offset -> 0 < size -> offset + size < 2 ^ 32 ->
  (length l + length (free_list v (disk v st)) < clusters_for v (offset + size))%nat -> (length l + 1 < fuel)%nat ->
  exists st' node', fat32_write v fuel tmp_ok st node offset size m buffer = Some (0, node', st') /\
    fn_length node' = fn_length node /\
    chain v (disk v st') (first_cluster node') (l ++ free_list v (disk v st)) /\
    free_list v (disk v st') = [] /\
    (forall a, ~ in_fat v a -> ~ ent_cluster_byte node a -> get8 (disk v st') a = get8 (disk v st) a).
Proof using V.
  intros F Ho Hs H32 Hfull Hf. unfold fat32_write. rewrite (proj2 (Z.eqb_neq size 0)), u64_small by lia.
  assert (fn_length node < offset + size) as Hlt.
  { pose proof (fo_len _ _ _ _ F). destruct (decide (offset + size <= fn_length node)); [|lia].
    pose proof (clusters_for_ge (offset + size) (length l) ltac:(lia)). lia. }
  rewrite (proj2 (Z.ltb_lt _ _)) by done. cbn [orb].
  destruct (grow_file_spec v V fuel st node l offset size F Ho Hs H32 Hf) as (st' & fc & -> & [C Hc Hu Hfat Hdata _]).
  rewrite (proj2 (Nat.leb_gt _ _)) by lia. cbn [mbind option_bind negb]. eexists st', _. split; [done|].
  unfold grown_chain in *. rewrite take_ge in Hc, Hu, Hfat by lia. split_and!; [done|done| |done].
  apply elem_of_nil_inv. intros x Hx. pose proof Hx as [Hr H0]%elem_free_list.
  destruct (decide (x ∈ l ++ free_list v (disk v st))) as [Hin|Hout].
  - rewrite Forall_forall in Hu. by apply (Hu x Hin).
  - apply Hout, elem_of_app. right. apply elem_free_list. rewrite <- Hfat by (done || lia). done.
Qed.
End WriteFile.

(** ** Deleting *)
Section Delete.
Context (v : fatvol) (V : vol_ok v).
Implicit Types (st : fat32) (node : fat_node) (a x : Z) (l : list Z).

(** The entry's bytes are not of the table. *)
Lemma ent_not_fat st node l a : file_ok v st node l -> ent_addr node <= a < ent_addr node + 32 -> ~ in_fat v a.
Proof using V.
  intros F Ha. destruct (ent_place v V _ _ _ F) as (_ & _ & dc & Hdc & _ & _ & Hin).
  apply (in_cluster_not_fat v V dc); [lia|by apply Hin].
Qed.

Lemma ent_fits st node l k n : file_ok v st node l -> 0 <= k -> k + n <= 32 ->
  0 <= fn_offset node + k /\ fn_offset node + k + n <= SECTOR_SIZE.
Proof using V. intros F Hk Hn. destruct (ent_place v V _ _ _ F) as (_ & Ho & _). lia. Qed.

(** Deleting a file ends, marks its directory entry with 0xE5 and frees the clusters
    of its chain; no other byte of the data area and no other table entry changes. *)
Theorem fat32_unlink_correct fuel st node l : file_ok v st node l -> (length l < fuel)%nat ->
  exists st', fat32_unlink v fuel st node = Some st' /\ cache_ok v st' /\
    get8 (disk v st') (ent_addr node) = 0xE5 /\
    (forall a, ~ in_fat v a -> a <> ent_addr node -> get8 (disk v st') a = get8 (disk v st) a) /\
    (forall x, 0 <= x < nclusters v -> fat_at v (disk v st') x = if bool_decide (x ∈ l) then 0 else fat_at v (disk v st) x) /\
    (forall x, x ∈ free_list v (disk v st') <-> x ∈ l \/ x ∈ free_list v (disk v st)).
Proof using V.
  intros F Hf. unfold fat32_unlink. destruct (ent_place v V _ _ _ F) as (Hlba & _).
  pose proof (ent_fits _ _ _ 0 1 F ltac:(lia) ltac:(lia)) as Hfit. rewrite Z.add_0_r in Hfit.
  set (ss := [(1%nat, 0, 0xE5)]).
  destruct (patch_sector v V st (sector_lba node) (fn_offset node) ss (fo_cache _ _ _ _ F) Hlba) as [C1 D1].
  { apply Forall_cons. split; [|constructor]. change (Z.of_nat 1) with 1. lia. }
  fold (ent_addr node) in D1. 
  assert (forall b, store 1 b (fn_offset node) 0xE5 = stores ss (fn_offset node) b) as ->
    by (intros b; cbn [stores ss]; by rewrite Z.add_0_r). set (st1 := with_drv st _) in *.
  assert (forall a, a <> ent_addr node -> get8 (disk v st1) a = get8 (disk v st) a) as Hb1.
  { intros a Ha. rewrite D1. apply stores_out. apply Forall_cons. split; [|constructor]. change (Z.of_nat 1) with 1. lia. }
  assert (forall a, in_fat v a -> get8 (disk v st1) a = get8 (disk v st) a) as Hb2.
  { intros a Ha. apply Hb1. intros ->. eapply (ent_not_fat _ _ _ _ F); [|exact Ha]. lia. }
  destruct (free_chain_spec v V fuel st1 (first_cluster node) l C1) as (st' & E & C' & U1 & U2);
    [eapply (chain_data v); [done|apply F]|done|].
  assert (forall x, 0 <= x < nclusters v -> fat_at v (disk v st') x = if bool_decide (x ∈ l) then 0 else fat_at v (disk v st) x) as Hfat.
  { intros x Hx. rewrite U2 by done. case_bool_decide; [done|]. by apply fat_at_ext. }
  exists st'. split_and!; [done|done| | |done|].
  - rewrite U1 by (eapply (ent_not_fat _ _ _ _ F); lia). rewrite D1. cbn [stores ss].
    rewrite Z.add_0_r. unfold store. rewrite get8_put8_eq. done.
  - intros a Ha Hne. rewrite U1 by done. by apply Hb1.
  - intros x. rewrite !elem_free_list. pose proof (chain_Forall v _ _ _ (fo_chain _ _ _ _ F)) as Hr. rewrite Forall_forall in Hr.
    split.
    + intros [Hx H0]. rewrite Hfat in H0 by lia. case_bool_decide; [by left|by right].
    + intros [Hx|[Hx H0]]; [specialize (Hr x Hx); rewrite Hfat, bool_decide_eq_true_2 by (done || lia); done|].
      rewrite Hfat by lia. case_bool_decide; done.
Qed.

(** Truncating a file ends and leaves an empty file: no first cluster and length 0 in
    the node and in the directory entry, its clusters free, other files as they were. *)
Theorem fat32_truncate_correct fuel st node l : file_ok v st node l -> (length l < fuel)%nat ->
  exists st' node', fat32_truncate v fuel st node = Some (st', node') /\ file_ok v st' node' [] /\
    fn_length node' = 0 /\
    (forall x, 0 <= x < nclusters v -> fat_at v (disk v st') x = if bool_decide (x ∈ l) then 0 else fat_at v (disk v st) x) /\
    (forall a, ~ in_fat v a -> ~ ent_cluster_byte node a -> ~ ent_size_byte node a ->
       get8 (disk v st') a = get8 (disk v st) a).
Proof using V.
  intros F Hf. unfold fat32_truncate. destruct (ent_place v V _ _ _ F) as (Hlba & _).
  destruct (free_chain_spec v V fuel st (first_cluster node) l (fo_cache _ _ _ _ F) (fo_chain _ _ _ _ F) Hf)
    as (st1 & -> & C1 & U1 & U2). cbn [mbind option_bind].
  set (ss := [(2%nat, ENT_CLUSTER_HIGH, 0); (2%nat, ENT_CLUSTER_LOW, 0); (4%nat, ENT_SIZE, 0)]).
  change (store32 (store 2 (store 2 ?b _ _) _ _) _ _) with (stores ss (fn_offset node) b).
  destruct (patch_sector v V st1 (sector_lba node) (fn_offset node) ss C1 Hlba) as [C2 D2].
  { repeat (apply Forall_cons; split; [eapply ent_fits; [exact F|done|done]|]). constructor. }
  fold (ent_addr node) in D2. set (st2 := with_drv st1 _) in *.
  assert (forall a, ~ ent_cluster_byte node a -> ~ ent_size_byte node a -> get8 (disk v st2) a = get8 (disk v st1) a) as Hb1.
  { intros a H1 H2. rewrite D2. apply stores_out. unfold ent_cluster_byte, ent_size_byte in *.
    repeat (apply Forall_cons; split; [lia|]). constructor. }
  assert (forall a, in_fat v a -> get8 (disk v st2) a = get8 (disk v st1) a) as Hb2.
  { intros a Ha. apply Hb1; intros He; eapply (ent_not_fat _ _ _ a F); try exact Ha;
      unfold ent_cluster_byte, ent_size_byte, ENT_CLUSTER_HIGH, ENT_CLUSTER_LOW, ENT_SIZE in He; lia. }
  assert (forall x, 0 <= x < nclusters v -> fat_at v (disk v st2) x = if bool_decide (x ∈ l) then 0 else fat_at v (disk v st) x) as Hfat
    by (intros x Hx; rewrite <- U2 by done; by apply fat_at_ext).
  eexists st2, _. split; [done|]. split_and!; [|done|done|].
  - split; cbn [first_cluster fn_length sector_lba fn_offset].
    + done.
    + cbn. lia.
    + constructor.
    + cbn. lia.
    + by left.
    + destruct (fo_dir _ _ _ _ F) as (dc & Hdc & Hdu & Hdl & Hrest). exists dc.
      split_and!; [lia|lia| |apply not_elem_of_nil|lia|lia|lia|lia].
      rewrite Hfat, bool_decide_eq_false_2 by (done || lia). done.
    + change (ent_addr (FatNode _ _ _ _ _)) with (ent_addr node). unfold entry_cluster. rewrite !D2. cbn [stores ss].
      rewrite !(load_store_ne 4), load_store_eq, (load_store_ne 2 2), load_store_eq
        by (unfold ENT_CLUSTER_HIGH, ENT_CLUSTER_LOW, ENT_SIZE; lia). done.
    + change (ent_addr (FatNode _ _ _ _ _)) with (ent_addr node). unfold entry_size, load32. rewrite D2. cbn [stores ss].
      rewrite load_store_eq. done.
  - intros a Ha H1 H2. rewrite Hb1 by done. by apply U1.
Qed.
End Delete.

(** ** The file of the small volume *)
Lemma file0_ok : file_ok vol0 fat0 node0 [5; 9].
Proof.
  split.
  - exact fat0_ok.
  - exact chain0.
  - repeat (apply Forall_cons; split; [vm_compute; discriminate|]). constructor.
  - vm_compute. split; discriminate.
  - by right.
  - exists 2. split_and!; try (vm_compute; (discriminate || reflexivity || done)). set_solver.
  - vm_compute. reflexivity.
  - vm_compute. reflexivity.
Qed.

Definition data0 : mem := put8 (put8 ∅ 0 1) 1023 2.

(** 1024 bytes at offset 600: one more cluster, the first free one. *)
Lemma fat32_write_correct_witness :
  exists st' node', fat32_write vol0 6 true fat0 node0 600 1024 data0 0 = Some (1024, node', st') /\
    file_ok vol0 st' node' [5; 9; 3; 4] /\ fbyte vol0 (disk vol0 st') [5; 9; 3; 4] 1623 = 2.
Proof.
  destruct (fat32_write_correct vol0 vol0_ok 6 fat0 node0 [5; 9] 600 1024 data0 0)
    as (st' & node' & Hw & F & _ & Hb & _); [exact file0_ok|lia|lia|lia|vm_compute; lia|vm_compute; lia|].
  assert (grown_chain vol0 (disk vol0 fat0) [5; 9] (600 + 1024) = [5; 9; 3; 4]) as E by (vm_compute; reflexivity).
  rewrite E in F, Hb. exists st', node'. split_and!; [exact Hw|exact F|].
  rewrite Hb by (vm_compute; (reflexivity || discriminate)). vm_compute. reflexivity.
Defined.

Lemma fat32_write_read_witness :
  exists st' node' m3 st2, fat32_write vol0 6 true fat0 node0 600 1024 data0 0 = Some (1024, node', st') /\
    fat32_read vol0 6 true st' node' 600 1024 ∅ 0 = Some (1024, m3, st2) /\ get8 m3 1023 = 2.
Proof.
  destruct (fat32_write_read vol0 vol0_ok 6 fat0 node0 [5; 9] 600 1024 data0 0 ∅ 0)
    as (st' & node' & m3 & st2 & Hw & Hr & Hm); [exact file0_ok|lia|lia|lia|vm_compute; lia|vm_compute; lia|].
  exists st', node', m3, st2. split_and!; [exact Hw|exact Hr|]. rewrite Hm. vm_compute. reflexivity.
Defined.

Lemma fat32_write_full_witness :
  exists st' node', fat32_write vol0 4 true fat0 node0 600 0x10000 data0 0 = Some (0, node', st') /\
    free_list vol0 (disk vol0 st') = [] /\ fn_length node' = 600.
Proof.
  destruct (fat32_write_full vol0 vol0_ok 4 true fat0 node0 [5; 9] 600 0x10000 data0 0)
    as (st' & node' & Hw & Hl & _ & Hf & _); [exact file0_ok|lia|lia|lia| |simpl; lia|].
  - apply Nat.ltb_lt. vm_compute. reflexivity.
  - exists st', node'. split_and!; [exact Hw|exact Hf|exact Hl].
Defined.

Lemma fat32_unlink_correct_witness :
  exists st', fat32_unlink vol0 3 fat0 node0 = Some st' /\ fat_at vol0 (disk vol0 st') 9 = 0 /\
    get8 (disk vol0 st') (cluster_addr vol0 2) = 0xE5.
Proof.
  destruct (fat32_unlink_correct vol0 vol0_ok 3 fat0 node0 [5; 9]) as (st' & H & _ & He & _ & Hf & _);
    [exact file0_ok|simpl; lia|].
  exists st'. split_and!; [exact H| |exact He]. rewrite Hf by (vm_compute; split; (reflexivity || discriminate)).
  reflexivity.
Defined.

Lemma fat32_truncate_correct_witness :
  exists st' node', fat32_truncate vol0 3 fat0 node0 = Some (st', node') /\ file_ok vol0 st' node' [].
Proof.
  destruct (fat32_truncate_correct vol0 vol0_ok 3 fat0 node0 [5; 9]) as (st' & node' & H & F & _);
    [exact file0_ok|simpl; lia|].
  exists st', node'. split; [exact H|exact F].
Defined.
