(* ===== verification/FatDir.v ===== *)
(** FAT32, [src/src/fs/fat32.c]: names and directories.

    A directory entry is 32 bytes of a sector buffer; a callback of [fat32_iterate] gets
    the buffer, the entry's offset in it and the sector.  The reference reading of a
    directory is [visit]: a fold over all slots of its chain, up to the end marker. *)
From S2P Require Import Prelude Machine Ata FatTable FatFile FatWrite.

(** ** Names *)
Definition SPACE : Z := 32.
Definition DOTC : Z := 46.

(** [c &= ~0x20] for lower-case letters. *)
Definition upcase (c : Z) : Z := if (97 <=? c) && (c <=? 122) then Z.land c (Z.lnot 0x20) else c.

(** The loop of [fat32_parse_name]; [None] is the error return. *)
Fixpoint parse_loop (fname : list Z) (i : nat) (is_ext : bool) (j : nat) (name ext : list Z) : option (list Z * list Z) :=
  match fname with
  | [] => Some (name, ext)
  | c :: fname =>
      if c =? DOTC then if is_ext then None else parse_loop fname (S i) true j name ext
      else
        let c := upcase c in
        if negb is_ext && (8 <=? i)%nat then None
        else if is_ext then
          if (3 <=? j)%nat then None else parse_loop fname (S i) is_ext (S j) name (<[j := c]> ext)
        else parse_loop fname (S i) is_ext j (<[i := c]> name) ext
  end.

Definition fat32_parse_name (fname : list Z) : option (list Z * list Z) :=
  if (12 <? length fname)%nat then None
  else parse_loop fname 0 false 0 (replicate 8 SPACE) (replicate 3 SPACE).

(** [strncmp(s1, s2, n) == 0] on the [n] bytes of two fields. *)
Fixpoint strncmp_eq (s1 s2 : list Z) : bool :=
  match s1, s2 with
  | c1 :: s1, c2 :: s2 => if c1 =? c2 then if c1 =? 0 then true else strncmp_eq s1 s2 else false
  | _, _ => true
  end.

(** [strncpy(dest, src, n)]: up to the terminator, the rest is zero. *)
Fixpoint strncpy_bytes (n : nat) (src : list Z) : list Z :=
  match n with
  | O => []
  | S n => match src with
           | c :: src => if c =? 0 then replicate (S n) 0 else c :: strncpy_bytes n src
           | [] => replicate (S n) 0
           end
  end.

(** Bytes before the padding. *)
Fixpoint before_space (l : list Z) : list Z :=
  match l with
  | [] => []
  | c :: l => if c =? SPACE then [] else c :: before_space l
  end.

(** The name [list_cb] and [readdir_cb] build from an entry's fields. *)
Definition format_name (name ext : list Z) : list Z :=
  before_space name ++ (match ext with c :: _ => if c =? SPACE then [] else DOTC :: before_space ext | [] => [] end).

(** ** Entries in a buffer *)
Definition bytes (buf : mem) (a : Z) (n : nat) : list Z := (fun k => get8 buf (a + k)) <$> seqZ 0 (Z.of_nat n).
Definition ent_name (buf : mem) (o : Z) : list Z := bytes buf o 8.
Definition ent_ext (buf : mem) (o : Z) : list Z := bytes buf (o + 8) 3.
Definition ent_attr (buf : mem) (o : Z) : Z := get8 buf (o + ENT_ATTR).

Record fat32_location := Loc { l_sector_lba : Z; l_offset : Z }.

Fixpoint put_bytes (m : mem) (a : Z) (l : list Z) : mem :=
  match l with
  | [] => m
  | c :: l => put_bytes (put8 m a c) (a + 1) l
  end.

(** A zeroed entry with name, extension, attributes and first cluster set. *)
Definition make_entry (name ext : list Z) (attributes cluster : Z) : mem :=
  let e := put_bytes (put_bytes ∅ 0 (strncpy_bytes 8 name)) 8 (strncpy_bytes 3 ext) in
  let e := put8 e ENT_ATTR attributes in
  let e := store 2 e ENT_CLUSTER_HIGH (Z.land (Z.shiftr cluster 16) 0xFFFF) in
  store 2 e ENT_CLUSTER_LOW (Z.land cluster 0xFFFF).

Section Iterate.
Context (v : fatvol) {A : Type} (entry_cb : mem -> fat32_location -> A -> Z * A).

(** The entries of one sector from the [j]-th on: [inl] when the loop goes on with the
    next sector, [inr] when [fat32_iterate] returns. *)
Fixpoint iter_entries (n : nat) (j : Z) (tmp_buf : mem) (curr_lba : Z) (ctx : A) : A + (Z * A) :=
  match n with
  | O => inl ctx
  | S n =>
      let c := get8 tmp_buf (32 * j) in
      if c =? 0 then inr (0, ctx)
      else if c =? 0xE5 then iter_entries n (j + 1) tmp_buf curr_lba ctx
      else
        let '(res, ctx) := entry_cb tmp_buf (Loc curr_lba (32 * j)) ctx in
        if res <? 0 then inr (-1, ctx)
        else if 0 <? res then inr (res, ctx)
        else iter_entries n (j + 1) tmp_buf curr_lba ctx
  end.

Fixpoint iter_sectors (n : nat) (i : Z) (st : fat32) (root_lba : Z) (tmp_buf : mem) (ctx : A) : A + (Z * A) :=
  match n with
  | O => inl ctx
  | S n =>
      let curr_lba := u32 (root_lba + i) in
      let tmp_buf := ata_read_sectors (drv st) tmp_buf curr_lba 1 (g_drive_sel v) in
      match iter_entries (Z.to_nat (bytes_per_sector v / 32)) 0 tmp_buf curr_lba ctx with
      | inl ctx => iter_sectors n (i + 1) st root_lba tmp_buf ctx
      | inr r => inr r
      end
  end.

Fixpoint fat32_iterate (fuel : nat) (st : fat32) (curr_cluster : Z) (ctx : A) : option (Z * A * fat32) :=
  match fuel with
  | O => None
  | S n =>
      if curr_cluster <? EOC then
        let root_lba := fat32_cluster_to_lba v curr_cluster in
        match iter_sectors (Z.to_nat (sectors_per_cluster v)) 0 st root_lba ∅ ctx with
        | inr (res, ctx) => Some (res, ctx, st)
        | inl ctx =>
            let '(c, st) := fat32_read_fat v st curr_cluster in
            fat32_iterate n st c ctx
        end
      else Some (0, ctx, st)
  end.
End Iterate.

(** ** Lookup and listing *)

(** The entry found: a copy of its 32 bytes and its place. *)
Definition find_ctx : Type := option (mem * fat32_location).

Definition find_cb (name ext : list Z) (buf : mem) (loc : fat32_location) (ctx : find_ctx) : Z * find_ctx :=
  if strncmp_eq (ent_name buf (l_offset loc)) name && strncmp_eq (ent_ext buf (l_offset loc)) ext
  then (1, Some (blit ∅ 0 buf (l_offset loc) 32, loc)) else (0, ctx).

Record dirent := Dirent { de_name : list Z; de_type : Z; de_size : Z }.

(** [ctx]: the index so far and the entry written to [out]. *)
Definition readdir_cb (tgt_idx : Z) (buf : mem) (loc : fat32_location) (ctx : Z * option dirent) : Z * (Z * option dirent) :=
  let '(curr_idx, out) := ctx in
  let o := l_offset loc in
  if (ent_attr buf o =? 0x0F) || (ent_attr buf o =? 0x08) then (0, ctx)
  else if curr_idx =? tgt_idx then
    (1, (curr_idx, Some (Dirent (format_name (ent_name buf o) (ent_ext buf o))
      (if Z.land (ent_attr buf o) 0x10 =? 0 then VFS_FILE else VFS_DIRECTORY) (load32 buf (o + ENT_SIZE)))))
  else (0, (u32 (curr_idx + 1), out)).

(** [list_cb] prints the name. *)
Definition list_cb (buf : mem) (loc : fat32_location) (out : list (list Z)) : Z * list (list Z) :=
  (0, out ++ [format_name (ent_name buf (l_offset loc)) (ent_ext buf (l_offset loc))]).

Section Dir.
Context (v : fatvol).

Definition fat32_list_root (fuel : nat) (st : fat32) : option (Z * list (list Z) * fat32) :=
  fat32_iterate v list_cb fuel st (root_cluster v) [].

(** [None] in the result: not found (-1). *)
Definition fat32_find_file (fuel : nat) (st : fat32) (cluster : Z) (name : list Z) : option (find_ctx * fat32) :=
  match fat32_parse_name name with
  | None => Some (None, st)
  | Some (target_name, target_ext) =>
      '(res, ctx, st) ← fat32_iterate v (find_cb target_name target_ext) fuel st cluster None;
      Some (if 0 <? res then ctx else None, st)
  end.

Definition VFS_NODE_AUTOFREE : Z := 0x10.

Definition fat32_finddir (node_ok data_ok : bool) (fuel : nat) (st : fat32) (node : fat_node) (name : list Z)
    : option (option fat_node * fat32) :=
  '(r, st) ← fat32_find_file fuel st (first_cluster node) name;
  Some (match r with
        | Some (dir_entry, loc) =>
            if node_ok && data_ok then
              Some (FatNode (Z.lor (if Z.land (ent_attr dir_entry 0) 0x10 =? 0 then VFS_FILE else VFS_DIRECTORY) VFS_NODE_AUTOFREE)
                (entry_size dir_entry 0) (entry_cluster dir_entry 0) (l_sector_lba loc) (l_offset loc))
            else None
        | None => None
        end, st).

(** [Some d]: returns 0 and fills [out] with [d]; [None]: returns -1. *)
Definition fat32_readdir (fuel : nat) (st : fat32) (node : fat_node) (idx : Z) : option (option dirent * fat32) :=
  '(res, ctx, st) ← fat32_iterate v (readdir_cb idx) fuel st (first_cluster node) (0, None);
  Some (if res =? 1 then snd ctx else None, st).

(** ** Creating *)
Definition free_slot (tmp_buf : mem) (curr_lba : Z) : option fat32_location :=
  (fun j => Loc curr_lba (32 * j)) <$> scan (Z.to_nat (bytes_per_sector v / 32)) 0
    (fun j => (get8 tmp_buf (32 * j) =? 0) || (get8 tmp_buf (32 * j) =? 0xE5)).

Fixpoint free_slot_sectors (n : nat) (i : Z) (st : fat32) (root_lba : Z) (tmp_buf : mem) : option fat32_location :=
  match n with
  | O => None
  | S n =>
      let curr_lba := u32 (root_lba + i) in
      let tmp_buf := ata_read_sectors (drv st) tmp_buf curr_lba 1 (g_drive_sel v) in
      match free_slot tmp_buf curr_lba with
      | Some loc => Some loc
      | None => free_slot_sectors n (i + 1) st root_lba tmp_buf
      end
  end.

Fixpoint fat32_find_free_directory_entry (fuel : nat) (st : fat32) (curr_cluster : Z) : option (option fat32_location * fat32) :=
  match fuel with
  | O => None
  | S n =>
      if curr_cluster <? EOC then
        match free_slot_sectors (Z.to_nat (sectors_per_cluster v)) 0 st (fat32_cluster_to_lba v curr_cluster) ∅ with
        | Some loc => Some (Some loc, st)
        | None =>
            let '(c, st) := fat32_read_fat v st curr_cluster in
            fat32_find_free_directory_entry n st c
        end
      else Some (None, st)
  end.

(** The entries [.] and [..] of a new directory, in a zeroed sector. *)
Definition dot_entries (cluster parent_cluster : Z) : mem :=
  let tmp_buf := blit ∅ 0 (make_entry (DOTC :: replicate 7 SPACE) (replicate 3 SPACE) 0x10 cluster) 0 32 in
  blit tmp_buf 32 (make_entry (DOTC :: DOTC :: replicate 6 SPACE) (replicate 3 SPACE) 0x10 parent_cluster) 0 32.

(** They are written to the first sector of the new cluster. *)
Definition write_dots (st : fat32) (q : Z) (dots : option mem) : mem * fat32 :=
  match dots with
  | Some tmp_buf => (tmp_buf, with_drv st (ata_write_sectors (drv st) tmp_buf (fat32_cluster_to_lba v q) 1 (g_drive_sel v)))
  | None => (∅, st)
  end.

(** What [fat32_create] writes once it has a cluster [q] and a slot [loc]. *)
Definition create_stores (st : fat32) (loc : fat32_location) (q : Z) (new_entry : mem) (dots : option mem) : fat32 :=
  let '(tmp_buf, st) := write_dots st q dots in
  let tmp_buf := ata_read_sectors (drv st) tmp_buf (l_sector_lba loc) 1 (g_drive_sel v) in
  let tmp_buf := blit tmp_buf (l_offset loc) new_entry 0 32 in
  let st := with_drv st (ata_write_sectors (drv st) tmp_buf (l_sector_lba loc) 1 (g_drive_sel v)) in
  fat32_write_fat_entry v st q EOC.

(** The three results of [kmalloc] in [fat32_create]. *)
Record create_mem := CreateMem { buf_ok : bool; node_ok : bool; data_ok : bool }.

(** [None] in the result is NULL. *)
Definition fat32_create (k : create_mem) (fuel : nat) (st : fat32) (parent : fat_node) (fname : list Z) (flags : Z)
    : option (option fat_node * fat32) :=
  '(exist_entry, st) ← fat32_find_file fuel st (first_cluster parent) fname;
  match exist_entry, fat32_parse_name fname with
  | Some _, _ | None, None => Some (None, st)
  | None, Some (name, ext) =>
      let '(free_cluster_id, st) := fat32_find_free_cluster v st in
      if free_cluster_id <? 0 then Some (None, st)
      else
        '(r, st) ← fat32_find_free_directory_entry fuel st (first_cluster parent);
        match r with
        | None => Some (None, st)
        | Some loc =>
            if negb (buf_ok k) then Some (None, st)
            else
              let is_dir := negb (Z.land flags VFS_DIRECTORY =? 0) in
              let new_entry := make_entry name ext (if is_dir then 0x10 else 0x20) free_cluster_id in
              let dots := if is_dir then Some (dot_entries free_cluster_id (first_cluster parent)) else None in
              let st := create_stores st loc free_cluster_id new_entry dots in
              Some (if node_ok k && data_ok k
                    then Some (FatNode (Z.lor flags VFS_NODE_AUTOFREE) 0 free_cluster_id (l_sector_lba loc) (l_offset loc))
                    else None, st)
        end
  end.
End Dir.

(** ** Reference: the slots of a directory *)
Definition slots_of_sector (lba : Z) : list fat32_location := (fun j => Loc lba (32 * j)) <$> seqZ 0 16.
Definition slots_of_cluster (v : fatvol) (c : Z) : list fat32_location :=
  seqZ 0 (sectors_per_cluster v) ≫= fun i => slots_of_sector (g_data_start_lba v + (c - 2) * sectors_per_cluster v + i).
Definition slots (v : fatvol) (l : list Z) : list fat32_location := l ≫= slots_of_cluster v.

Definition slot_addr (s : fat32_location) : Z := l_sector_lba s * SECTOR_SIZE + l_offset s.
Definition sector_buf (d : mem) (lba : Z) : mem := blit ∅ 0 d (lba * SECTOR_SIZE) SECTOR_SIZE.
Definition slot_mark (d : mem) (s : fat32_location) : Z := get8 d (slot_addr s).

(** The entries in use, up to the end marker. *)
Fixpoint live (d : mem) (ss : list fat32_location) : list fat32_location :=
  match ss with
  | [] => []
  | s :: ss => if slot_mark d s =? 0 then []
               else if slot_mark d s =? 0xE5 then live d ss else s :: live d ss
  end.

(** The chain of a directory ends with an end mark (not with an entry 0 or 1). *)
Definition ends_eoc (v : fatvol) (d : mem) (c : Z) (l : list Z) : Prop :=
  EOC <= match last l with Some x => fat_at v d x | None => c end.

Section Visit.
Context {A : Type} (cb : mem -> fat32_location -> A -> Z * A).

(** The callback on one entry after the other, until it returns non-zero. *)
Fixpoint visit (d : mem) (ss : list fat32_location) (ctx : A) : A + (Z * A) :=
  match ss with
  | [] => inl ctx
  | s :: ss =>
      if slot_mark d s =? 0 then inr (0, ctx)
      else if slot_mark d s =? 0xE5 then visit d ss ctx
      else
        let '(res, ctx) := cb (sector_buf d (l_sector_lba s)) s ctx in
        if res <? 0 then inr (-1, ctx) else if 0 <? res then inr (res, ctx) else visit d ss ctx
  end.

Lemma visit_app d s1 s2 ctx : visit d (s1 ++ s2) ctx =
  match visit d s1 ctx with inl ctx => visit d s2 ctx | inr r => inr r end.
Proof.
  revert ctx. induction s1 as [|s s1 IH]; intros ctx; cbn [visit app]; [done|].
  destruct (slot_mark d s =? 0); [done|]. destruct (slot_mark d s =? 0xE5); [apply IH|].
  destruct (cb _ _ _) as [r ctx']. destruct (r <? 0); [done|]. destruct (0 <? r); [done|]. apply IH.
Qed.

(** The callback reads the buffer at the entry only. *)
Definition cb_local : Prop := forall buf buf' s ctx,
  (forall i, 0 <= i < 32 -> get8 buf (l_offset s + i) = get8 buf' (l_offset s + i)) -> cb buf s ctx = cb buf' s ctx.
End Visit.

Section IterateSpec.
Context (v : fatvol) (V : vol_ok v) {A : Type} (cb : mem -> fat32_location -> A -> Z * A) (L : cb_local cb).
Implicit Types (st : fat32) (d buf : mem) (c : Z) (l : list Z) (ctx : A).

Lemma get8_sector_buf d lba a : 0 <= a < SECTOR_SIZE -> get8 (sector_buf d lba) a = get8 d (lba * SECTOR_SIZE + a).
Proof.
  intros Ha. unfold sector_buf. rewrite get8_blit, bool_decide_eq_true_2 by (unfold SECTOR_SIZE in *; lia). f_equal. lia.
Qed.

Lemma iter_entries_spec n j d buf lba ctx : 0 <= j -> j + Z.of_nat n <= 16 ->
  (forall a, 0 <= a < SECTOR_SIZE -> get8 buf a = get8 d (lba * SECTOR_SIZE + a)) ->
  iter_entries cb n j buf lba ctx = visit cb d ((fun j => Loc lba (32 * j)) <$> seqZ j (Z.of_nat n)) ctx.
Proof using L.
  intros Hj Hn Hb. revert j ctx Hj Hn. induction n as [|n IH]; intros j ctx Hj Hn; [done|].
  rewrite seqZ_cons by lia. replace (Z.pred (Z.of_nat (S n))) with (Z.of_nat n) by lia.
  cbn [iter_entries visit fmap list_fmap]. unfold slot_mark, slot_addr. cbn [l_sector_lba l_offset].
  rewrite Hb by (unfold SECTOR_SIZE; lia).
  rewrite (L buf (sector_buf d lba)); cycle 1.
  { intros i Hi. cbn [l_offset]. rewrite get8_sector_buf by (unfold SECTOR_SIZE; lia). apply Hb. unfold SECTOR_SIZE. lia. }
  rewrite <- Z.add_1_r. destruct (_ =? 0); [done|]. destruct (_ =? 0xE5); [apply IH; lia|].
  destruct (cb _ _ _) as [r ctx']. destruct (r <? 0); [done|]. destruct (0 <? r); [done|]. apply IH; lia.
Qed.

Lemma iter_sectors_spec n i st root_lba tmp ctx : 0 <= root_lba -> 0 <= i -> root_lba + i + Z.of_nat n <= 2 ^ 28 ->
  iter_sectors v cb n i st root_lba tmp ctx =
    visit cb (disk v st) (seqZ i (Z.of_nat n) ≫= fun i => slots_of_sector (root_lba + i)) ctx.
Proof using V L.
  revert i tmp ctx. induction n as [|n IH]; intros i tmp ctx Hr Hi H28; [done|].
  rewrite seqZ_cons by lia. replace (Z.pred (Z.of_nat (S n))) with (Z.of_nat n) by lia.
  cbn [iter_sectors mbind list_bind]. rewrite visit_app. rewrite Prelude.u32_small by lia.
  rewrite (vol_bps v V). change (Z.to_nat (SECTOR_SIZE / 32)) with 16%nat.
  rewrite (iter_entries_spec 16 0 (disk v st)); [|lia|lia|].
  - fold (slots_of_sector (root_lba + i)). destruct (visit _ _ _ _) as [ctx'|r]; [|done].
    rewrite <- Z.add_1_r. apply IH; lia.
  - intros a Ha. rewrite get8_read_sectors by (apply V || lia). rewrite bool_decide_eq_true_2 by lia. done.
Qed.

Lemma iterate_spec fuel st c l ctx : cache_ok v st -> chain v (disk v st) c l -> ends_eoc v (disk v st) c l ->
  (length l < fuel)%nat ->
  exists st', fat32_iterate v cb fuel st c ctx = Some (match visit cb (disk v st) (slots v l) ctx with
      | inl ctx => (0, ctx) | inr r => r end, st') /\ cache_ok v st' /\ drv st' = drv st.
Proof using V L.
  revert st c l ctx. induction fuel as [|n IH]; intros st c l ctx C Hc He Hf; [lia|]. cbn [fat32_iterate].
  destruct l as [|x l].
  - unfold ends_eoc in He. cbn in He. rewrite (proj2 (Z.ltb_ge c EOC)) by lia. by exists st.
  - destruct Hc as (-> & Hx & Hc). pose proof (vol_ncl v V). rewrite (proj2 (Z.ltb_lt x EOC)) by lia.
    destruct (cluster_lba v V x Hx) as (-> & H1 & H2). pose proof (vol_spc v V) as Hspc.
    pose proof (vol_data v V). pose proof (vol_lba v V). pose proof (vol_spf v V). unfold fat_lba in *.
    rewrite iter_sectors_spec by lia. rewrite Z2Nat.id by lia.
    change (seqZ 0 _ ≫= _) with (slots_of_cluster v x). unfold slots. cbn [mbind list_bind]. fold (slots v l).
    rewrite visit_app. destruct (visit cb (disk v st) (slots_of_cluster v x) ctx) as [ctx'|[r ctx']]; [|by exists st].
    destruct (read_fat_spec v V st x C ltac:(lia)) as (st1 & -> & C1 & Hd1).
    destruct (IH st1 (fat_at v (disk v st) x) l ctx') as (st' & E & C' & Hd'); rewrite ?(same_disk v _ _ Hd1) in *.
    + done.
    + done.
    + unfold ends_eoc in *. destruct l as [|y l]; [done|]. cbn [last] in He.
      destruct (last (y :: l)) eqn:E; [done|]. apply last_None in E. done.
    + simpl in Hf. lia.
    + exists st'. split_and!; [done|done|congruence].
Qed.
End IterateSpec.

(** ** Names: reference *)
Definition pad (k : nat) (l : list Z) : list Z := l ++ replicate (k - length l) SPACE.

(** The part before the first dot, and the part after it. *)
Fixpoint split_dot (l : list Z) : list Z * list Z :=
  match l with
  | [] => ([], [])
  | c :: l => if c =? DOTC then ([], l) else let '(n, e) := split_dot l in (c :: n, e)
  end.

Section Names.
Implicit Types (fname n e name ext : list Z).

Lemma insert_pad (pre l : list Z) k c : (length pre < k)%nat ->
  <[length pre := c]> (pre ++ replicate (k - length pre) SPACE) = (pre ++ [c]) ++ replicate (k - length (pre ++ [c])) SPACE.
Proof.
  intros Hk. rewrite insert_app_r_alt, Nat.sub_diag by lia. rewrite length_app. simpl length.
  replace (k - length pre)%nat with (S (k - (length pre + 1))) by lia. simpl. by rewrite <- app_assoc.
Qed.

Lemma parse_name_part n rest pre j ext : DOTC ∉ n -> (length pre <= 8)%nat ->
  parse_loop (n ++ rest) (length pre) false j (pad 8 pre) ext =
    if (length pre + length n <=? 8)%nat then parse_loop rest (length pre + length n) false j (pad 8 (pre ++ (upcase <$> n))) ext
    else None.
Proof.
  revert pre. induction n as [|c n IH]; intros pre Hd Hp; cbn [app parse_loop length].
  - rewrite (proj2 (Nat.leb_le _ _)), Nat.add_0_r by lia. cbn [fmap list_fmap]. by rewrite app_nil_r.
  - apply not_elem_of_cons in Hd as [Hc Hd]. rewrite (proj2 (Z.eqb_neq c DOTC)) by congruence. cbn [negb andb].
    destruct (Nat.leb_spec 8 (length pre)).
    + by rewrite (proj2 (Nat.leb_gt _ _)) by lia.
    + unfold pad at 1. rewrite insert_pad by (done || lia). fold (pad 8 (pre ++ [upcase c])).
      assert (S (length pre) = length (pre ++ [upcase c])) as -> by (rewrite length_app; simpl; lia).
      rewrite IH by (done || rewrite length_app; simpl; lia). rewrite length_app. simpl length.
      cbn [fmap list_fmap]. rewrite <- app_assoc. cbn [app].
      by replace (length pre + 1 + length n)%nat with (length pre + S (length n))%nat by lia.
Qed.

Lemma parse_ext_part e i pre name : (length pre <= 3)%nat ->
  parse_loop e i true (length pre) name (pad 3 pre) =
    if bool_decide ((DOTC ∉ e) /\ (length pre + length e <= 3)%nat) then Some (name, pad 3 (pre ++ (upcase <$> e))) else None.
Proof.
  revert i pre. induction e as [|c e IH]; intros i pre Hp; cbn [parse_loop length].
  - rewrite bool_decide_eq_true_2 by (split; [apply not_elem_of_nil|lia]). cbn [fmap list_fmap]. by rewrite app_nil_r.
  - destruct (Z.eqb_spec c DOTC) as [->|Hc].
    + rewrite bool_decide_eq_false_2; [done|]. intros [Hd _]. apply Hd. by constructor.
    + cbn [negb andb]. destruct (Nat.leb_spec 3 (length pre)).
      * rewrite bool_decide_eq_false_2; [done|]. lia.
      * unfold pad at 1. rewrite insert_pad by (done || lia). fold (pad 3 (pre ++ [upcase c])).
        assert (S (length pre) = length (pre ++ [upcase c])) as -> by (rewrite length_app; simpl; lia).
        rewrite IH by (rewrite length_app; simpl; lia). rewrite length_app. simpl length.
        cbn [fmap list_fmap]. rewrite <- app_assoc. cbn [app].
        rewrite (bool_decide_ext ((DOTC ∉ c :: e) /\ (length pre + S (length e) <= 3)%nat)
          ((DOTC ∉ e) /\ (length pre + 1 + length e <= 3)%nat)); [done|].
        rewrite not_elem_of_cons. intuition (congruence || lia).
Qed.

Lemma split_dot_spec fname : let '(n, e) := split_dot fname in
  (DOTC ∉ n) /\ ((fname = n /\ e = []) \/ fname = n ++ DOTC :: e).
Proof.
  induction fname as [|c l IH]; cbn [split_dot]; [split; [apply not_elem_of_nil|by left]|].
  destruct (Z.eqb_spec c DOTC) as [->|Hc]; [split; [apply not_elem_of_nil|by right]|].
  destruct (split_dot l) as [n e]. destruct IH as [Hn IH]. split; [by apply not_elem_of_cons|].
  destruct IH as [[-> ->]| ->]; [by left|by right].
Qed.

Lemma parse_name_spec fname :
  fat32_parse_name fname =
    let '(n, e) := split_dot fname in
    if bool_decide ((length n <= 8)%nat /\ (DOTC ∉ e) /\ (length e <= 3)%nat)
    then Some (pad 8 (upcase <$> n), pad 3 (upcase <$> e)) else None.
Proof.
  pose proof (split_dot_spec fname) as H. destruct (split_dot fname) as [n e]. destruct H as [Hn Hs].
  unfold fat32_parse_name. change (replicate 8 SPACE) with (pad 8 []). change (replicate 3 SPACE) with (pad 3 []).
  assert (length fname = length n /\ e = [] \/ length fname = (length n + S (length e))%nat) as Hlen.
  { destruct Hs as [[-> ->]| ->]; [by left|right; by rewrite length_app]. }
  destruct (Nat.ltb_spec 12 (length fname)).
  { rewrite bool_decide_eq_false_2; [done|]. intros (? & _ & ?). destruct Hlen as [[? ->]|?]; lia. }
  destruct Hs as [[-> ->]| ->].
  - rewrite <- (app_nil_r n) at 1. change 0%nat with (length (@nil Z)) at 1.
    rewrite parse_name_part by (done || simpl; lia). cbn [length app Nat.add].
    destruct (Nat.leb_spec (length n) 8); cbn [parse_loop].
    + rewrite bool_decide_eq_true_2; [done|]. split_and!; [done|apply not_elem_of_nil|simpl; lia].
    + rewrite bool_decide_eq_false_2; [done|]. lia.
  - change 0%nat with (length (@nil Z)) at 1. rewrite parse_name_part by (done || simpl; lia). cbn [length app Nat.add].
    destruct (Nat.leb_spec (length n) 8); cycle 1.
    + rewrite bool_decide_eq_false_2; [done|]. lia.
    + cbn [parse_loop]. rewrite Z.eqb_refl. change 0%nat with (length (@nil Z)) at 1.
      rewrite parse_ext_part by (simpl; lia). cbn [app length Nat.add]. repeat case_bool_decide; intuition.
Qed.
(** What [fat32_parse_name] accepts: a name is split at its first dot, and it is an
    error exactly when the first part is longer than 8 characters, the rest longer than 3
    or there is another dot; otherwise both parts are upper-cased and padded with spaces. *)
Theorem parse_name_correct fname :
  fat32_parse_name fname =
    let '(n, e) := split_dot fname in
    if bool_decide ((length n <= 8)%nat /\ (DOTC ∉ e) /\ (length e <= 3)%nat)
    then Some (pad 8 (upcase <$> n), pad 3 (upcase <$> e)) else None.
Proof. apply parse_name_spec. Qed.

(** *** Formatting *)

(** A character of a stored name. *)
Definition name_char (c : Z) : Prop := c <> SPACE /\ c <> DOTC /\ c <> 0 /\ upcase c = c.

Lemma before_space_pad k l : SPACE ∉ l -> before_space (pad k l) = l.
Proof.
  unfold pad. induction l as [|c l IH]; intros Hs; cbn [app before_space].
  - destruct (k - length [])%nat; done.
  - apply not_elem_of_cons in Hs as [Hc Hs]. rewrite (proj2 (Z.eqb_neq c SPACE)) by congruence.
    f_equal. cbn [length]. clear IH. revert Hs. generalize (k - S (length l))%nat. induction l as [|x l IH]; intros q Hs; cbn [app before_space].
    + destruct q; done.
    + apply not_elem_of_cons in Hs as [Hx Hs]. rewrite (proj2 (Z.eqb_neq x SPACE)) by congruence. f_equal. by apply IH.
Qed.

Lemma name_char_out n : Forall name_char n -> (SPACE ∉ n) /\ (DOTC ∉ n) /\ upcase <$> n = n.
Proof.
  induction 1 as [|c n (Hs & Hd & _ & Hu) Hn (IH1 & IH2 & IH3)]; [split_and!; (apply not_elem_of_nil || done)|].
  split_and!; [by apply not_elem_of_cons|by apply not_elem_of_cons|]. cbn. by rewrite Hu, IH3.
Qed.

Lemma format_name_pad n e : Forall name_char n -> Forall name_char e ->
  format_name (pad 8 n) (pad 3 e) = n ++ (if decide (e = []) then [] else DOTC :: e).
Proof.
  intros [Hn _]%name_char_out He. pose proof (name_char_out e He) as [He1 _]. unfold format_name.
  rewrite before_space_pad by done. f_equal. destruct e as [|c e]; [done|]. rewrite decide_False by done.
  cbn [pad app]. apply Forall_cons in He as [(Hc & _) _]. rewrite (proj2 (Z.eqb_neq c SPACE)) by done.
  change (c :: e ++ ?r) with (pad 3 (c :: e)). by rewrite before_space_pad.
Qed.

(** The name a listing shows for an entry parses to the entry's fields. *)
Lemma parse_format n e : Forall name_char n -> Forall name_char e -> (length n <= 8)%nat -> (length e <= 3)%nat ->
  fat32_parse_name (format_name (pad 8 n) (pad 3 e)) = Some (pad 8 n, pad 3 e).
Proof.
  intros Hn He Hn8 He3. rewrite format_name_pad by done. destruct (name_char_out n Hn) as (_ & Hdn & Hun).
  destruct (name_char_out e He) as (_ & Hde & Hue). rewrite parse_name_spec.
  assert (split_dot (n ++ (if decide (e = []) then [] else DOTC :: e)) = (n, e)) as ->.
  { clear Hun Hn8 Hn. induction n as [|c n IH]; cbn [app split_dot].
    - destruct (decide (e = [])) as [->|]; [done|]. cbn. done.
    - apply not_elem_of_cons in Hdn as [Hc Hdn]. rewrite (proj2 (Z.eqb_neq c DOTC)) by congruence. by rewrite IH. }
  rewrite bool_decide_eq_true_2 by done. by rewrite Hun, Hue.
Qed.
End Names.

(** ** Lookup and listing *)
Definition matches (d : mem) (name ext : list Z) (s : fat32_location) : bool :=
  strncmp_eq (ent_name d (slot_addr s)) name && strncmp_eq (ent_ext d (slot_addr s)) ext.

(** Entries a listing shows: not the volume label, not parts of a long name. *)
Definition shown (d : mem) (s : fat32_location) : bool :=
  negb ((ent_attr d (slot_addr s) =? 0x0F) || (ent_attr d (slot_addr s) =? 0x08)).

Definition slot_ok (s : fat32_location) : Prop := 0 <= l_offset s <= SECTOR_SIZE - 32.

Definition slot_dirent (d : mem) (s : fat32_location) : dirent :=
  let a := slot_addr s in
  Dirent (format_name (ent_name d a) (ent_ext d a))
    (if Z.land (ent_attr d a) 0x10 =? 0 then VFS_FILE else VFS_DIRECTORY) (entry_size d a).

Section Lookup.
Context (v : fatvol) (V : vol_ok v).
Implicit Types (st : fat32) (d buf : mem) (l : list Z) (s : fat32_location) (ss : list fat32_location).

Lemma bytes_ext d d' a a' k : (forall i, 0 <= i < Z.of_nat k -> get8 d (a + i) = get8 d' (a' + i)) ->
  bytes d a k = bytes d' a' k.
Proof.
  intros H. unfold bytes. apply list_fmap_ext. intros i x Hx. apply H.
  apply list_elem_of_lookup_2, elem_of_seqZ in Hx. lia.
Qed.

Lemma blit_ext m da b a b' a' n : (forall i, 0 <= i < n -> get8 b (a + i) = get8 b' (a' + i)) ->
  blit m da b a n = blit m da b' a' n.
Proof.
  intros H. unfold blit. assert (forall k i m, 0 <= i -> i + Z.of_nat k <= Z.max 0 n ->
    for_loop k i (fun i m => put8 m (da + i) (get8 b (a + i))) m = for_loop k i (fun i m => put8 m (da + i) (get8 b' (a' + i))) m) as E.
  { induction k as [|k IH]; intros i m' Hi Hk; [done|]. cbn [for_loop]. rewrite H by lia. apply IH; lia. }
  apply E; lia.
Qed.

Lemma slots_ok l : Forall slot_ok (slots v l).
Proof.
  apply Forall_forall. unfold slots, slots_of_cluster, slots_of_sector. intros s Hs.
  apply list_elem_of_bind in Hs as (x & Hs & _). apply list_elem_of_bind in Hs as (i & Hs & _).
  apply list_elem_of_fmap in Hs as (j & -> & Hj%elem_of_seqZ). unfold slot_ok, SECTOR_SIZE. cbn [l_offset]. lia.
Qed.

Lemma sector_entry d s i : slot_ok s -> 0 <= i < 32 ->
  get8 (sector_buf d (l_sector_lba s)) (l_offset s + i) = get8 d (slot_addr s + i).
Proof. intros Hs Hi. unfold slot_ok in Hs. rewrite get8_sector_buf by lia. unfold slot_addr. f_equal. lia. Qed.

Lemma ent_name_ext d d' a a' : (forall i, 0 <= i < 32 -> get8 d (a + i) = get8 d' (a' + i)) ->
  ent_name d a = ent_name d' a' /\ ent_ext d a = ent_ext d' a' /\ ent_attr d a = ent_attr d' a' /\
  entry_size d a = entry_size d' a'.
Proof.
  intros H. unfold ent_name, ent_ext, ent_attr, entry_size, ENT_ATTR, ENT_SIZE.
  split_and!; [| |apply H; lia|].
  - apply bytes_ext. intros. apply H. lia.
  - apply bytes_ext. intros i Hi. rewrite <- !Z.add_assoc. apply H. lia.
  - apply load_ext. intros i Hi. rewrite <- !Z.add_assoc. apply H. lia.
Qed.

Lemma find_cb_local name ext : cb_local (find_cb name ext).
Proof.
  intros b b' s ctx H. unfold find_cb. destruct (ent_name_ext b b' (l_offset s) (l_offset s) H) as (-> & -> & _).
  by rewrite (blit_ext ∅ 0 b (l_offset s) b' (l_offset s) 32 H).
Qed.

Lemma readdir_cb_local idx : cb_local (readdir_cb idx).
Proof.
  intros b b' s [cur out] H. unfold readdir_cb. destruct (ent_name_ext b b' (l_offset s) (l_offset s) H) as (-> & -> & -> & E).
  unfold entry_size in E. by rewrite E.
Qed.

Lemma visit_find d name ext ss : Forall slot_ok ss ->
  match visit (find_cb name ext) d ss None with inl ctx => (0, ctx) | inr r => r end =
  match List.find (matches d name ext) (live d ss) with
  | Some s => (1, Some (blit ∅ 0 d (slot_addr s) 32, s))
  | None => (0, None)
  end.
Proof.
  induction 1 as [|s ss Hs Hss IH]; cbn [visit live]; [done|].
  destruct (slot_mark d s =? 0); [done|]. destruct (slot_mark d s =? 0xE5); [done|]. cbn [List.find].
  unfold find_cb at 1. pose proof (fun i => sector_entry d s i Hs) as He.
  destruct (ent_name_ext _ _ _ _ He) as (-> & -> & _). rewrite (blit_ext _ _ _ _ _ _ _ He). fold (matches d name ext s).
  destruct (matches d name ext s); cbn; [done|exact IH].
Qed.

Lemma find_file_spec fuel st c l fname : cache_ok v st -> chain v (disk v st) c l -> ends_eoc v (disk v st) c l ->
  (length l < fuel)%nat ->
  exists st', fat32_find_file v fuel st c fname =
      Some (match fat32_parse_name fname with
            | Some (name, ext) => (fun s => (blit ∅ 0 (disk v st) (slot_addr s) 32, s)) <$>
                List.find (matches (disk v st) name ext) (live (disk v st) (slots v l))
            | None => None
            end, st') /\ cache_ok v st' /\ drv st' = drv st.
Proof using V.
  intros C Hc He Hf. unfold fat32_find_file. destruct (fat32_parse_name fname) as [[name ext]|]; [|by exists st].
  destruct (iterate_spec v V (find_cb name ext) (find_cb_local name ext) fuel st c l None C Hc He Hf) as (st' & -> & H).
  exists st'. split; [|done]. rewrite visit_find by apply slots_ok. by destruct (List.find _ _).
Qed.

Lemma visit_readdir d ss idx cur : Forall slot_ok ss -> 0 <= cur <= idx -> idx < 2 ^ 32 ->
  let r := match visit (readdir_cb idx) d ss (cur, None) with inl ctx => (0, ctx) | inr r => r end in
  (if fst r =? 1 then snd (snd r) else None) =
    slot_dirent d <$> (filter (fun s => shown d s = true) (live d ss) !! Z.to_nat (idx - cur)).
Proof.
  intros Hss. revert cur. induction Hss as [|s ss Hs Hss IH]; intros cur Hcur H32; cbn [visit live]; [done|].
  destruct (slot_mark d s =? 0); [done|]. destruct (slot_mark d s =? 0xE5); [by apply IH|].
  assert (readdir_cb idx (sector_buf d (l_sector_lba s)) s (cur, None) =
    if shown d s then if cur =? idx then (1, (cur, Some (slot_dirent d s))) else (0, (u32 (cur + 1), None))
    else (0, (cur, None))) as ->.
  { unfold readdir_cb, slot_dirent, shown.
    destruct (ent_name_ext _ _ _ _ (fun i => sector_entry d s i Hs)) as (-> & -> & -> & E).
    unfold entry_size in E. rewrite E. by destruct (_ || _). }
  rewrite filter_cons. destruct (shown d s) eqn:Esh; cycle 1.
  - rewrite decide_False by done. cbn. by apply IH.
  - rewrite decide_True by done. destruct (Z.eqb_spec cur idx) as [->|].
    + rewrite Z.sub_diag. done.
    + rewrite Prelude.u32_small by lia. cbn [Z.ltb Z.compare]. specialize (IH (cur + 1) ltac:(lia) ltac:(lia)).
      cbv zeta in *. rewrite IH. replace (Z.to_nat (idx - cur)) with (S (Z.to_nat (idx - (cur + 1)))) by lia. done.
Qed.

Lemma readdir_spec fuel st node l idx : cache_ok v st -> chain v (disk v st) (first_cluster node) l ->
  ends_eoc v (disk v st) (first_cluster node) l -> (length l < fuel)%nat -> 0 <= idx < 2 ^ 32 ->
  exists st', fat32_readdir v fuel st node idx =
      Some (slot_dirent (disk v st) <$> (filter (fun s => shown (disk v st) s = true) (live (disk v st) (slots v l)) !! Z.to_nat idx), st') /\
    cache_ok v st' /\ drv st' = drv st.
Proof using V.
  intros C Hc He Hf Hi. unfold fat32_readdir.
  destruct (iterate_spec v V (readdir_cb idx) (readdir_cb_local idx) fuel st _ l (0, None) C Hc He Hf) as (st' & -> & H).
  exists st'. split; [|done]. pose proof (visit_readdir (disk v st) (slots v l) idx 0 (slots_ok l) ltac:(lia) ltac:(lia)) as E.
  cbv zeta in E. rewrite Z.sub_0_r in E. rewrite <- E. destruct (match visit _ _ _ _ with inl _ => _ | inr _ => _ end) as [r ctx].
  done.
Qed.
End Lookup.

Section ListLookup.
Context (v : fatvol) (V : vol_ok v).
Implicit Types (st : fat32) (d : mem) (l : list Z) (s : fat32_location).

Lemma strncmp_eq_spec (s1 s2 : list Z) : length s1 = length s2 -> 0 ∉ s2 -> strncmp_eq s1 s2 = bool_decide (s1 = s2).
Proof.
  revert s2. induction s1 as [|c1 s1 IH]; intros [|c2 s2] Hl H0; try done. cbn [strncmp_eq].
  apply not_elem_of_cons in H0 as [Hc H0]. destruct (Z.eqb_spec c1 c2) as [->|Hne].
  - rewrite (proj2 (Z.eqb_neq c2 0)) by congruence. rewrite IH by (done || by injection Hl).
    apply bool_decide_ext. split; congruence.
  - rewrite bool_decide_eq_false_2; [done|congruence].
Qed.

Lemma length_bytes d a k : length (bytes d a k) = k.
Proof. unfold bytes. rewrite length_fmap, length_seqZ. lia. Qed.

Lemma length_pad k n : (length n <= k)%nat -> length (pad k n) = k.
Proof. intros. unfold pad. rewrite length_app, length_replicate. lia. Qed.

Lemma pad_nonzero k n : 0 ∉ n -> 0 ∉ pad k n.
Proof. intros Hn. unfold pad. rewrite elem_of_app. intros [?|[? ?]%elem_of_replicate]; done. Qed.

Lemma matches_spec d n e s : (length n <= 8)%nat -> (length e <= 3)%nat -> 0 ∉ n -> 0 ∉ e ->
  matches d (pad 8 n) (pad 3 e) s =
    bool_decide (ent_name d (slot_addr s) = pad 8 n /\ ent_ext d (slot_addr s) = pad 3 e).
Proof.
  intros Hn He Hn0 He0. unfold matches, ent_name, ent_ext.
  rewrite !strncmp_eq_spec by (rewrite ?length_bytes, ?length_pad; done || by apply pad_nonzero).
  by rewrite bool_decide_and.
Qed.

Lemma find_unique {X} (p : X -> bool) (ls : list X) x : x ∈ ls -> p x = true -> (forall y, y ∈ ls -> p y = true -> y = x) ->
  List.find p ls = Some x.
Proof.
  induction ls as [|y ls IH]; intros Hx Hp Hu; [by apply not_elem_of_nil in Hx|]. cbn [List.find].
  destruct (p y) eqn:E; [f_equal; apply Hu; [by constructor|done]|].
  apply IH; [|done|intros; apply Hu; [by constructor|done]]. apply elem_of_cons in Hx as [->|?]; [congruence|done].
Qed.

Lemma name_char_nonzero n : Forall name_char n -> 0 ∉ n.
Proof. intros H Hin. rewrite Forall_forall in H. by destruct (H 0 Hin) as (_ & _ & ? & _). Qed.

(** Every entry a directory listing shows, with a proper 8.3 name of its own, can be
    opened under the name the listing gives: looking that name up finds the same entry, with
    the listed size and type. *)
Theorem fat32_list_lookup fuel st node l idx s n e : cache_ok v st ->
  chain v (disk v st) (first_cluster node) l -> ends_eoc v (disk v st) (first_cluster node) l ->
  (length l < fuel)%nat -> 0 <= idx < 2 ^ 32 ->
  filter (fun s => shown (disk v st) s = true) (live (disk v st) (slots v l)) !! Z.to_nat idx = Some s ->
  ent_name (disk v st) (slot_addr s) = pad 8 n -> ent_ext (disk v st) (slot_addr s) = pad 3 e ->
  Forall name_char n -> Forall name_char e -> (length n <= 8)%nat -> (length e <= 3)%nat ->
  (forall s', s' ∈ live (disk v st) (slots v l) -> ent_name (disk v st) (slot_addr s') = pad 8 n ->
     ent_ext (disk v st) (slot_addr s') = pad 3 e -> s' = s) ->
  exists de st1 st2, fat32_readdir v fuel st node idx = Some (Some de, st1) /\
    de_name de = n ++ (if decide (e = []) then [] else DOTC :: e) /\
    fat32_finddir v true true fuel st1 node (de_name de) = Some (Some (FatNode (Z.lor (de_type de) VFS_NODE_AUTOFREE)
      (de_size de) (entry_cluster (disk v st) (slot_addr s)) (l_sector_lba s) (l_offset s)), st2).
Proof using V.
  intros C Hc He Hf Hi Hs Hn Hx Cn Cx Ln Lx Hu.
  destruct (readdir_spec v V fuel st node l idx C Hc He Hf Hi) as (st1 & -> & C1 & Hd1). rewrite Hs.
  assert (s ∈ live (disk v st) (slots v l)) as Hlive
    by (apply list_elem_of_lookup_2 in Hs; by apply list_elem_of_filter in Hs as [_ ?]).
  exists (slot_dirent (disk v st) s), st1.
  assert (de_name (slot_dirent (disk v st) s) = format_name (pad 8 n) (pad 3 e)) as ->
    by (unfold slot_dirent; cbn [de_name]; by rewrite Hn, Hx).
  unfold fat32_finddir. destruct (find_file_spec v V fuel st1 (first_cluster node) l (format_name (pad 8 n) (pad 3 e)))
    as (st2 & -> & _); rewrite ?(same_disk v _ _ Hd1); [done|done|done|done|].
  rewrite parse_format by done. rewrite (find_unique _ _ s Hlive).
  - exists st2. split_and!; [done|by apply format_name_pad|]. cbn [mbind option_bind fmap option_fmap option_map andb].
    assert (forall i, 0 <= i < 32 -> get8 (blit ∅ 0 (disk v st) (slot_addr s) 32) (0 + i) = get8 (disk v st) (slot_addr s + i)) as Hb.
    { intros i Hi'. rewrite get8_blit, bool_decide_eq_true_2 by lia. f_equal. lia. }
    destruct (ent_name_ext _ _ _ _ Hb) as (_ & _ & -> & ->). unfold slot_dirent. cbn [de_type de_size].
    do 4 f_equal. unfold entry_cluster, ENT_CLUSTER_HIGH, ENT_CLUSTER_LOW.
    f_equal; [f_equal|]; apply load_ext; intros i Hi'; rewrite <- !Z.add_assoc; apply Hb; lia.
  - rewrite matches_spec by (done || by apply name_char_nonzero). by apply bool_decide_eq_true_2.
  - intros y Hy. rewrite matches_spec by (done || by apply name_char_nonzero). intros [? ?]%bool_decide_eq_true_1. by apply Hu.
Qed.
End ListLookup.

(** The root directory of the small volume lists the file F, and F can be opened. *)
Definition root0 : fat_node := FatNode VFS_DIRECTORY 0 2 0 0.

Lemma root0_chain : chain vol0 (disk vol0 fat0) 2 [2].
Proof. vm_compute. repeat split; try discriminate. intros [_ H]. discriminate. Qed.

Lemma fat32_list_lookup_witness :
  exists de st1 st2, fat32_readdir vol0 2 fat0 root0 0 = Some (Some de, st1) /\ de_name de = [70] /\
    fat32_finddir vol0 true true 2 st1 root0 (de_name de) = Some (Some (FatNode (Z.lor (de_type de) 0x10) (de_size de) 5 33 0), st2).
Proof.
  destruct (fat32_list_lookup vol0 vol0_ok 2 fat0 root0 [2] 0 (Loc 33 0) [70] []) as (de & st1 & st2 & H1 & H2 & H3).
  - exact fat0_ok.
  - exact root0_chain.
  - vm_compute. discriminate.
  - simpl. lia.
  - lia.
  - vm_compute. reflexivity.
  - vm_compute. reflexivity.
  - vm_compute. reflexivity.
  - apply Forall_cons. split; [|constructor]. vm_compute. split_and!; (discriminate || reflexivity).
  - constructor.
  - simpl. lia.
  - simpl. lia.
  - assert (live (disk vol0 fat0) (slots vol0 [2]) = [Loc 33 0]) as -> by (vm_compute; reflexivity).
    intros s' Hs _ _. by apply list_elem_of_singleton in Hs.
  - exists de, st1, st2. split_and!; [exact H1|exact H2|].
    assert (entry_cluster (disk vol0 fat0) (slot_addr (Loc 33 0)) = 5) as E by (vm_compute; reflexivity).
    rewrite E in H3. exact H3.
Defined.
