(* ===== verification/FatCreate.v ===== *)
(** FAT32, [src/src/fs/fat32.c]: [fat32_create] makes what [fat32_find_file] finds.

    The search for a free slot and the search for a name walk the same slots; the new
    entry goes into the first free slot, so every entry before it stays what it was. *)
From S2P Require Import Prelude Machine Ata FatTable FatFile FatWrite FatDir.

(** A slot an entry can be written to. *)
Definition slot_free (d : mem) (s : fat32_location) : bool := (slot_mark d s =? 0) || (slot_mark d s =? 0xE5).

Section FreeSlot.
Context (v : fatvol) (V : vol_ok v).
Implicit Types (st : fat32) (d : mem) (l : list Z) (s : fat32_location) (ss : list fat32_location).

Lemma find_app {X} (p : X -> bool) (l1 l2 : list X) :
  List.find p (l1 ++ l2) = match List.find p l1 with Some x => Some x | None => List.find p l2 end.
Proof. induction l1 as [|x l1 IH]; cbn; [done|]. by destruct (p x). Qed.

Lemma find_scan {X} (p : X -> bool) (f : Z -> X) (q : Z -> bool) n lo :
  (forall j, lo <= j < lo + Z.of_nat n -> p (f j) = q j) ->
  f <$> scan n lo q = List.find p (f <$> seqZ lo (Z.of_nat n)).
Proof.
  revert lo. induction n as [|n IH]; intros lo H; [done|]. rewrite seqZ_cons by lia. cbn [scan fmap list_fmap List.find].
  rewrite H by lia. destruct (q lo); [done|]. replace (Z.pred (Z.of_nat (S n))) with (Z.of_nat n) by lia.
  rewrite <- Z.add_1_r. apply IH. intros. apply H. lia.
Qed.

Lemma free_slot_sectors_spec n i st root_lba tmp : 0 <= root_lba -> 0 <= i -> root_lba + i + Z.of_nat n <= 2 ^ 28 ->
  free_slot_sectors v n i st root_lba tmp =
    List.find (slot_free (disk v st)) (seqZ i (Z.of_nat n) ≫= fun i => slots_of_sector (root_lba + i)).
Proof using V.
  revert i tmp. induction n as [|n IH]; intros i tmp Hr Hi H28; [done|].
  rewrite seqZ_cons by lia. replace (Z.pred (Z.of_nat (S n))) with (Z.of_nat n) by lia.
  cbn [free_slot_sectors mbind list_bind]. rewrite find_app, Prelude.u32_small by lia.
  unfold free_slot. rewrite (vol_bps v V). change (Z.to_nat (SECTOR_SIZE / 32)) with 16%nat.
  rewrite (find_scan (slot_free (disk v st))).
  - fold (slots_of_sector (root_lba + i)). destruct (List.find _ _); [done|]. rewrite <- Z.add_1_r. apply IH; lia.
  - intros j Hj. unfold slot_free, slot_mark, slot_addr. cbn [l_sector_lba l_offset].
    rewrite get8_read_sectors by (apply V || lia). rewrite bool_decide_eq_true_2 by (unfold SECTOR_SIZE; lia). done.
Qed.

Lemma find_free_entry_spec fuel st c l : cache_ok v st -> chain v (disk v st) c l -> ends_eoc v (disk v st) c l ->
  (length l < fuel)%nat ->
  exists st', fat32_find_free_directory_entry v fuel st c = Some (List.find (slot_free (disk v st)) (slots v l), st') /\
    cache_ok v st' /\ drv st' = drv st.
Proof using V.
  revert st c l. induction fuel as [|n IH]; intros st c l C Hc He Hf; [lia|]. cbn [fat32_find_free_directory_entry].
  destruct l as [|x l].
  - unfold ends_eoc in He. cbn in He. rewrite (proj2 (Z.ltb_ge c EOC)) by lia. by exists st.
  - destruct Hc as (-> & Hx & Hc). pose proof (vol_ncl v V). rewrite (proj2 (Z.ltb_lt x EOC)) by lia.
    destruct (cluster_lba v V x Hx) as (-> & H1 & H2). pose proof (vol_spc v V) as Hspc.
    pose proof (vol_data v V). pose proof (vol_lba v V). pose proof (vol_spf v V). unfold fat_lba in *.
    rewrite free_slot_sectors_spec by lia. rewrite Z2Nat.id by lia.
    change (seqZ 0 _ ≫= _) with (slots_of_cluster v x). unfold slots. cbn [mbind list_bind]. fold (slots v l).
    rewrite find_app. destruct (List.find _ (slots_of_cluster v x)) as [s|]; [by exists st|].
    destruct (read_fat_spec v V st x C ltac:(lia)) as (st1 & -> & C1 & Hd1).
    destruct (IH st1 (fat_at v (disk v st) x) l) as (st' & E & C' & Hd'); rewrite ?(same_disk v _ _ Hd1) in *.
    + done.
    + done.
    + unfold ends_eoc in *. destruct l as [|y l]; [done|]. cbn [last] in He.
      destruct (last (y :: l)) eqn:E; [done|]. apply last_None in E. done.
    + simpl in Hf. lia.
    + exists st'. split_and!; [done|done|congruence].
Qed.

(** Where a slot is: in a cluster of the chain, at a multiple of 32. *)
Lemma slot_place l s : s ∈ slots v l -> exists x, x ∈ l /\
  g_data_start_lba v + (x - 2) * sectors_per_cluster v <= l_sector_lba s
    < g_data_start_lba v + (x - 1) * sectors_per_cluster v /\
  0 <= l_offset s <= SECTOR_SIZE - 32 /\ l_offset s mod 32 = 0.
Proof.
  unfold slots, slots_of_cluster, slots_of_sector. intros Hs.
  apply list_elem_of_bind in Hs as (x & Hs & Hx). apply list_elem_of_bind in Hs as (i & Hs & Hi%elem_of_seqZ).
  apply list_elem_of_fmap in Hs as (j & -> & Hj%elem_of_seqZ). exists x. cbn [l_sector_lba l_offset].
  unfold SECTOR_SIZE. split_and!; [done|lia|lia|lia|lia|]. rewrite Z.mul_comm. apply Z.mod_mul. lia.
Qed.

Lemma slot_in_cluster l s : s ∈ slots v l -> exists x, x ∈ l /\
  forall a, slot_addr s <= a < slot_addr s + 32 -> in_cluster v x a.
Proof using V.
  intros (x & Hx & Hl & Ho & _)%slot_place. exists x. split; [done|]. intros a Ha.
  unfold slot_addr, in_cluster, cluster_addr in *. rewrite (vol_bpc v V). pose proof (vol_spc v V).
  unfold SECTOR_SIZE in *. nia.
Qed.

(** Different slots do not overlap. *)
Lemma slots_disjoint l s s' a : s ∈ slots v l -> s' ∈ slots v l -> s <> s' ->
  slot_addr s <= a < slot_addr s + 32 -> ~ (slot_addr s' <= a < slot_addr s' + 32).
Proof.
  intros (x & _ & _ & Ho & Hm)%slot_place (x' & _ & _ & Ho' & Hm')%slot_place Hne Ha Ha'.
  apply Hne. destruct s as [lb o], s' as [lb' o']. unfold slot_addr, SECTOR_SIZE in *. cbn [l_sector_lba l_offset] in *.
  assert (lb = lb' /\ o = o') as [-> ->]; [|done]. Z.div_mod_to_equations. lia.
Qed.

(** The slots before the first free one are all in use. *)
Lemma find_split d ss s : List.find (slot_free d) ss = Some s ->
  exists (s1 s2 : list fat32_location), ss = s1 ++ s :: s2 /\ Forall (fun x => slot_free d x = false) s1 /\ slot_free d s = true.
Proof.
  induction ss as [|x ss IH]; cbn; [done|]. destruct (slot_free d x) eqn:E.
  - intros [= ->]. exists [], ss. done.
  - intros (s1 & s2 & -> & H1 & H2)%IH. exists (x :: s1), s2. split_and!; [done|by constructor|done].
Qed.

Lemma live_used d (s1 ss : list fat32_location) : Forall (fun x => slot_free d x = false) s1 -> live d (s1 ++ ss) = s1 ++ live d ss.
Proof.
  induction 1 as [|x s1 Hx H1 IH]; cbn [app live]; [done|]. unfold slot_free in Hx. apply orb_false_elim in Hx as [-> ->].
  by rewrite IH.
Qed.
End FreeSlot.

(** ** The new entry *)
Section Entry.
Implicit Types (name ext : list Z) (m : mem).

Lemma get8_put_bytes m a (l : list Z) b : get8 (put_bytes m a l) b =
  if bool_decide (a <= b < a + Z.of_nat (length l)) then u8 (default 0 (l !! Z.to_nat (b - a))) else get8 m b.
Proof.
  revert m a. induction l as [|c l IH]; intros m a; cbn [put_bytes length].
  - rewrite bool_decide_eq_false_2 by lia. done.
  - rewrite IH, get8_put8. destruct (decide (a = b)) as [->|Hne].
    + rewrite (bool_decide_eq_false_2 (b + 1 <= _ < _)) by lia. rewrite !bool_decide_eq_true_2 by lia.
      by rewrite Z.sub_diag.
    + destruct (decide (a + 1 <= b < a + 1 + Z.of_nat (length l))).
      * rewrite !bool_decide_eq_true_2 by lia. replace (Z.to_nat (b - a)) with (S (Z.to_nat (b - (a + 1)))) by lia. done.
      * rewrite !bool_decide_eq_false_2 by lia. done.
Qed.

Lemma strncpy_bytes_full n l : length l = n -> 0 ∉ l -> strncpy_bytes n l = l.
Proof.
  revert l. induction n as [|n IH]; intros [|c l] Hl H0; try done. cbn [strncpy_bytes].
  apply not_elem_of_cons in H0 as [Hc H0]. rewrite (proj2 (Z.eqb_neq c 0)) by congruence. f_equal. apply IH; [by injection Hl|done].
Qed.

(** The bytes of an entry made from a full name and extension. *)
Lemma make_entry_spec name ext attr c : length name = 8%nat -> length ext = 3%nat -> 0 ∉ name -> 0 ∉ ext ->
  Forall (fun x => 0 <= x < 256) name -> Forall (fun x => 0 <= x < 256) ext -> 0 <= c < 2 ^ 32 -> 0 <= attr < 256 ->
  let e := make_entry name ext attr c in
  ent_name e 0 = name /\ ent_ext e 0 = ext /\ ent_attr e 0 = attr /\ entry_cluster e 0 = c /\ entry_size e 0 = 0.
Proof.
  intros Hn He Hn0 He0 Bn Be Hc Ha. cbv zeta. unfold make_entry. rewrite !strncpy_bytes_full by done.
  set (e1 := put_bytes (put_bytes ∅ 0 name) 8 ext).
  assert (forall k, 0 <= k < 11 -> get8 (store 2 (store 2 (put8 e1 ENT_ATTR attr) ENT_CLUSTER_HIGH (Z.land (Z.shiftr c 16) 65535))
    ENT_CLUSTER_LOW (Z.land c 65535)) k = get8 e1 k) as Hlow.
  { intros k Hk. unfold ENT_ATTR, ENT_CLUSTER_HIGH, ENT_CLUSTER_LOW. rewrite !get8_store_out by lia. apply get8_put8_ne. lia. }
  assert (forall (l : list Z) k, Forall (fun x => 0 <= x < 256) l -> 0 <= k < Z.of_nat (length l) ->
    u8 (default 0 (l !! Z.to_nat k)) = nth (Z.to_nat k) l 0) as Hnth.
  { intros l k Hl Hk. destruct (lookup_lt_is_Some_2 l (Z.to_nat k)) as [x Hx]; [lia|]. rewrite Hx. cbn.
    rewrite (nth_lookup_Some _ _ _ _ Hx). apply u8_small. rewrite Forall_lookup in Hl. by eapply Hl. }
  assert (forall (l : list Z) k, length l = k -> (fun i => nth (Z.to_nat i) l 0) <$> seqZ 0 (Z.of_nat k) = l) as Hlist.
  { intros l k <-. apply list_eq. intros i. rewrite list_lookup_fmap. destruct (decide (i < length l)%nat) as [Hi|Hi].
    - rewrite lookup_seqZ_lt by lia. cbn. destruct (lookup_lt_is_Some_2 l i Hi) as [x Hx].
      rewrite Hx. f_equal. rewrite Z.add_0_l, Nat2Z.id. by apply nth_lookup_Some.
    - rewrite lookup_seqZ_ge by lia. symmetry. apply lookup_ge_None. lia. }
  split_and!.
  - rewrite <- (Hlist name 8%nat Hn) at 1. unfold ent_name, bytes. apply list_fmap_ext. intros i x Hx.
    apply list_elem_of_lookup_2, elem_of_seqZ in Hx. rewrite Z.add_0_l, Hlow by lia. unfold e1.
    rewrite !get8_put_bytes, bool_decide_eq_false_2, bool_decide_eq_true_2 by lia. rewrite Z.sub_0_r. apply Hnth; [done|lia].
  - rewrite <- (Hlist ext 3%nat He) at 1. unfold ent_ext, bytes. apply list_fmap_ext. intros i x Hx.
    apply list_elem_of_lookup_2, elem_of_seqZ in Hx. rewrite Hlow by lia. unfold e1.
    rewrite !get8_put_bytes, bool_decide_eq_true_2 by lia. replace (0 + 8 + x - 8) with x by lia. apply Hnth; [done|lia].
  - unfold ent_attr, ENT_ATTR, ENT_CLUSTER_HIGH, ENT_CLUSTER_LOW. rewrite !get8_store_out by lia. rewrite get8_put8_eq. by apply u8_small.
  - unfold entry_cluster, ENT_CLUSTER_HIGH, ENT_CLUSTER_LOW.
    rewrite load_store_eq, (load_store_ne 2 2), load_store_eq by lia. rewrite <- (split_words c) at 3 by lia.
    change (8 * Z.of_nat 2) with 16. change 0xFFFF with (2 ^ 16 - 1). rewrite !land_mask, !Z.mod_mod by lia. done.
  - unfold entry_size, ENT_SIZE. rewrite (load_ext 4 _ ∅ _ 0); [done|]. intros i Hi.
    unfold ENT_ATTR, ENT_CLUSTER_HIGH, ENT_CLUSTER_LOW. rewrite !get8_store_out, get8_put8_ne by lia. unfold e1.
    rewrite !get8_put_bytes, !bool_decide_eq_false_2 by lia. done.
Qed.
End Entry.

(** A directory whose chain is in order. *)
Record dir_ok (v : fatvol) (st : fat32) (node : fat_node) (l : list Z) : Prop := {
  do_cache : cache_ok v st;
  do_chain : chain v (disk v st) (first_cluster node) l;
  do_end : ends_eoc v (disk v st) (first_cluster node) l;
  do_used : Forall (fun x => fat_at v (disk v st) x <> 0) l }.

(** A name [fat32_create] can store: characters of a C string, none of them marks a slot. *)
Definition storable (name : list Z) : Prop :=
  Forall (fun c => 0 < c < 256) name /\ head name <> Some 0xE5.

Section Create.
Context (v : fatvol) (V : vol_ok v).
Implicit Types (st : fat32) (node parent : fat_node) (d e m : mem) (l : list Z) (s : fat32_location).

(** Writing an entry into its slot. *)
Lemma put_entry st s tmp e : cache_ok v st -> g_data_start_lba v <= l_sector_lba s < 2 ^ 28 ->
  0 <= l_offset s <= SECTOR_SIZE - 32 ->
  let tb := ata_read_sectors (drv st) tmp (l_sector_lba s) 1 (g_drive_sel v) in
  let st' := with_drv st (ata_write_sectors (drv st) (blit tb (l_offset s) e 0 32) (l_sector_lba s) 1 (g_drive_sel v)) in
  cache_ok v st' /\ forall a, get8 (disk v st') a =
    if bool_decide (slot_addr s <= a < slot_addr s + 32) then get8 e (a - slot_addr s) else get8 (disk v st) a.
Proof using V.
  intros C Hl Ho. cbv zeta. pose proof (vol_data v V). pose proof (vol_lba v V). pose proof (vol_spf v V).
  pose proof (vol_sel v V). unfold fat_lba in *. split; [apply (cache_ok_write v V); unfold fat_lba; (done || lia)|].
  intros a. unfold disk, with_drv. cbn [drv]. rewrite get8_write_sectors by lia. rewrite get8_blit by lia.
  rewrite get8_read_sectors by lia. unfold slot_addr, SECTOR_SIZE in *.
  repeat case_bool_decide; try lia; f_equal; lia.
Qed.

(** The sector with the entries of a new directory. *)
Lemma write_first_sector st q buf : cache_ok v st -> 2 <= q < nclusters v ->
  let st' := with_drv st (ata_write_sectors (drv st) buf (fat32_cluster_to_lba v q) 1 (g_drive_sel v)) in
  cache_ok v st' /\ forall a, ~ in_cluster v q a -> get8 (disk v st') a = get8 (disk v st) a.
Proof using V.
  intros C Hq. cbv zeta. destruct (cluster_lba v V q Hq) as (-> & H1 & H2). pose proof (vol_data v V). pose proof (vol_lba v V).
  pose proof (vol_spf v V). pose proof (vol_sel v V). pose proof (vol_spc v V). unfold fat_lba in *.
  assert (0 <= (q - 2) * sectors_per_cluster v) by nia.
  split; [apply (cache_ok_write v V); unfold fat_lba; (done || lia)|].
  intros a Ha. unfold disk, with_drv. cbn [drv]. rewrite get8_write_sectors by lia. rewrite bool_decide_eq_false_2; [done|].
  unfold in_cluster, cluster_addr in Ha. rewrite (vol_bpc v V) in Ha. unfold SECTOR_SIZE in *. lia.
Qed.

Lemma create_stores_spec st parent l s q e dots : dir_ok v st parent l -> s ∈ slots v l ->
  2 <= q < nclusters v -> fat_at v (disk v st) q = 0 ->
  let st' := create_stores v st s q e dots in
  dir_ok v st' parent l /\
  (forall x, 0 <= x < nclusters v -> fat_at v (disk v st') x = if bool_decide (q = x) then EOC else fat_at v (disk v st) x) /\
  (forall a, slot_addr s <= a < slot_addr s + 32 -> get8 (disk v st') a = get8 e (a - slot_addr s)) /\
  (forall a, ~ in_fat v a -> ~ in_cluster v q a -> ~ (slot_addr s <= a < slot_addr s + 32) ->
     get8 (disk v st') a = get8 (disk v st) a).
Proof using V.
  intros [C Hc He Hu] Hs Hq Hq0. cbv zeta. destruct (slot_in_cluster v V _ _ Hs) as (x & Hx & Hin).
  destruct (slot_place v _ _ Hs) as (x2 & Hx2 & Hl & Ho & _).
  pose proof (chain_Forall v _ _ _ Hc) as Hr. rewrite Forall_forall in Hr, Hu.
  pose proof (Hr _ Hx) as Hxr. pose proof (Hr _ Hx2) as Hx2r. destruct (cluster_lba v V x2 Hx2r) as (_ & H1 & H2).
  assert (q ∉ l) as Hql by (intros Hq'; by apply (Hu q)).
  assert (cache_ok v (write_dots v st q dots).2 /\
    forall a, ~ in_cluster v q a -> get8 (disk v (write_dots v st q dots).2) a = get8 (disk v st) a) as [C1 D1].
  { unfold write_dots. destruct dots; [by apply write_first_sector|done]. }
  unfold create_stores. destruct (write_dots v st q dots) as [tmp st1]. cbn [snd] in *.
  destruct (put_entry st1 s tmp e C1 ltac:(lia) Ho) as [C2 D2]. set (st2 := with_drv st1 _) in *.
  destruct (write_fat_spec v V st2 q EOC C2 ltac:(lia)) as [C3 D3].
  pose proof (fat_updated_store v _ _ q EOC D3 ltac:(lia) ltac:(unfold EOC; lia)) as [U1 U2].
  set (st3 := fat32_write_fat_entry v st2 q EOC) in *.
  assert (forall a, slot_addr s <= a < slot_addr s + 32 -> ~ in_fat v a /\ ~ in_cluster v q a) as Hout.
  { intros a Ha. split; [apply (in_cluster_not_fat v V x); [lia|by apply Hin]|]. intros Hq'.
    assert (q = x) as -> by (eapply (in_cluster_inj v V); [exact Hq'|by apply Hin]). done. }
  assert (forall a, in_fat v a -> get8 (disk v st2) a = get8 (disk v st) a) as Hfat2.
  { intros a Ha. rewrite D2, bool_decide_eq_false_2 by (intros Hs'; by destruct (Hout a Hs')). apply D1.
    intros Hq'. eapply (in_cluster_not_fat v V q a); [lia|exact Hq'|exact Ha]. }
  assert (forall y, 0 <= y < nclusters v -> fat_at v (disk v st3) y = if bool_decide (q = y) then EOC else fat_at v (disk v st) y) as Hfat3.
  { intros y Hy. rewrite U2 by done. case_bool_decide; [done|]. by apply fat_at_ext. }
  assert (forall y, y ∈ l -> fat_at v (disk v st3) y = fat_at v (disk v st) y) as Hl3.
  { intros y Hy. rewrite Hfat3 by (specialize (Hr y Hy); lia). rewrite bool_decide_eq_false_2 by congruence. done. }
  split_and!.
  - split; [done| | |].
    + eapply (chain_ext v); [exact Hl3|exact Hc].
    + unfold ends_eoc in *. destruct (last l) as [y|] eqn:El; [|done]. rewrite Hl3; [done|]. by apply last_Some_elem_of.
    + apply Forall_forall. intros y Hy. rewrite Hl3 by done. by apply Hu.
  - done.
  - intros a Ha. destruct (Hout a Ha). rewrite U1 by done. by rewrite D2, bool_decide_eq_true_2.
  - intros a Hf Hq' Hs'. rewrite U1 by done. rewrite D2, bool_decide_eq_false_2 by done. by apply D1.
Qed.

(** The first match of a name after its entry was written into the first free slot. *)
Lemma find_new d d' l s name ext : List.find (slot_free d) (slots v l) = Some s ->
  (forall s' i, s' ∈ slots v l -> s' <> s -> 0 <= i < 32 -> get8 d' (slot_addr s' + i) = get8 d (slot_addr s' + i)) ->
  List.find (matches d name ext) (live d (slots v l)) = None -> slot_free d' s = false -> matches d' name ext s = true ->
  List.find (matches d' name ext) (live d' (slots v l)) = Some s.
Proof.
  intros Hf Hb Hn Hs Hm. destruct (find_split _ _ _ Hf) as (s1 & s2 & E & H1 & H2). rewrite E in Hn, Hb |- *.
  rewrite live_used in Hn by done. rewrite Forall_forall in H1.
  assert (forall x, x ∈ s1 -> slot_free d' x = false /\ matches d' name ext x = matches d name ext x) as Hx.
  { intros x Hx. assert (x <> s) by (intros ->; specialize (H1 s Hx); congruence).
    assert (forall i, 0 <= i < 32 -> get8 d' (slot_addr x + i) = get8 d (slot_addr x + i)) as He
      by (intros; apply Hb; [apply elem_of_app; by left|done|done]).
    split.
    - rewrite <- (H1 x Hx). unfold slot_free, slot_mark. rewrite <- (Z.add_0_r (slot_addr x)). by rewrite He by lia.
    - unfold matches. destruct (ent_name_ext _ _ _ _ He) as (-> & -> & _). done. }
  assert (s1 ++ s :: s2 = (s1 ++ [s]) ++ s2) as -> by (by rewrite <- app_assoc).
  rewrite live_used, !find_app.
  - rewrite find_app in Hn. destruct (List.find (matches d name ext) s1) eqn:E1; [done|].
    assert (List.find (matches d' name ext) s1 = None) as ->; [|by cbn; rewrite Hm].
    clear -E1 Hx. induction s1 as [|x s1 IH]; [done|]. cbn in *.
    rewrite (proj2 (Hx x ltac:(by constructor))). destruct (matches d name ext x); [done|].
    apply IH; [done|]. intros y Hy. apply Hx. by constructor.
  - apply Forall_app. split; [apply Forall_forall; intros x Hx'; by apply Hx|]. by constructor.
Qed.

Lemma upcase_range c : 0 < c < 256 -> 0 < upcase c < 256 /\ (upcase c = 0xE5 -> c = 0xE5).
Proof.
  intros Hc. unfold upcase. destruct (Z.leb_spec 97 c), (Z.leb_spec c 122); cbn [andb]; try lia.
  assert (Forall (fun c => Z.land c (Z.lnot 0x20) = c - 32) (seqZ 97 26)) as Hf
    by (apply (bool_decide_unpack _); vm_compute; exact I).
  rewrite Forall_forall in Hf. rewrite Hf by (apply elem_of_seqZ; lia). lia.
Qed.

Lemma upcase_list n : Forall (fun c => 0 < c < 256) n -> Forall (fun c => 0 < c < 256) (upcase <$> n).
Proof. intros H. apply Forall_fmap. eapply Forall_impl; [exact H|]. intros c Hc. by apply upcase_range. Qed.

Lemma pad_range k n : Forall (fun c => 0 < c < 256) n -> Forall (fun c => 0 < c < 256) (pad k n).
Proof.
  intros H. unfold pad. apply Forall_app. split; [done|]. apply Forall_forall. intros x [-> _]%elem_of_replicate. unfold SPACE. lia.
Qed.

Lemma range_facts (l : list Z) : Forall (fun c => 0 < c < 256) l -> (0 ∉ l) /\ Forall (fun c => 0 <= c < 256) l.
Proof.
  intros H. split; [|eapply Forall_impl; [exact H|]; cbn; lia]. rewrite Forall_forall in H. intros H0. specialize (H 0 H0). lia.
Qed.

(** The fields of a name that can be stored. *)
Lemma parse_fields fname name ext : storable fname -> fat32_parse_name fname = Some (name, ext) ->
  length name = 8%nat /\ length ext = 3%nat /\ Forall (fun c => 0 < c < 256) name /\ Forall (fun c => 0 < c < 256) ext /\
  (forall c, head name = Some c -> c <> 0xE5).
Proof.
  intros [Hr Hh]. rewrite parse_name_spec. pose proof (split_dot_spec fname) as Hs. destruct (split_dot fname) as [n e].
  case_bool_decide as Hok; [|done]. destruct Hok as (Hn & _ & He). intros [= <- <-]. destruct Hs as [_ Hs].
  assert (Forall (fun c => 0 < c < 256) n /\ Forall (fun c => 0 < c < 256) e) as [Rn Re].
  { destruct Hs as [[-> ->]| ->]; [by split|]. apply Forall_app in Hr as [? [_ ?]%Forall_cons]. done. }
  split_and!; [by rewrite length_pad by (rewrite length_fmap; lia)|by rewrite length_pad by (rewrite length_fmap; lia)| | |].
  - by apply pad_range, upcase_list.
  - by apply pad_range, upcase_list.
  - intros c. destruct n as [|c' n]; cbn; [intros [= <-]; unfold SPACE; lia|]. intros [= <-] E.
    apply Forall_cons in Rn as [Rc _]. apply upcase_range in E; [|done]. subst c'. apply Hh.
    destruct Hs as [[-> ->]| ->]; done.
Qed.

(** The entry just written is the one its name finds. *)
Lemma new_entry_found d d' l s q name ext e : Forall (fun x => 2 <= x < nclusters v) l -> q ∉ l ->
  List.find (slot_free d) (slots v l) = Some s -> List.find (matches d name ext) (live d (slots v l)) = None ->
  (forall a, ~ in_fat v a -> ~ in_cluster v q a -> ~ (slot_addr s <= a < slot_addr s + 32) -> get8 d' a = get8 d a) ->
  (forall i, 0 <= i < 32 -> get8 d' (slot_addr s + i) = get8 e (0 + i)) ->
  ent_name e 0 = name -> ent_ext e 0 = ext -> length name = 8%nat -> length ext = 3%nat ->
  Forall (fun c => 0 < c < 256) name -> Forall (fun c => 0 < c < 256) ext -> (forall c, head name = Some c -> c <> 0xE5) ->
  List.find (matches d' name ext) (live d' (slots v l)) = Some s.
Proof using V.
  intros Hr Hq Hslot Hnone Hrest Hes M1 M2 Ln Le Rn Re Hhead. rewrite Forall_forall in Hr.
  destruct (range_facts _ Rn) as [Zn _]. destruct (range_facts _ Re) as [Ze _].
  eapply find_new; [exact Hslot| |exact Hnone| |].
  - intros s' i Hs' Hne Hi. destruct (slot_in_cluster v V _ _ Hs') as (y & Hy & Hiny).
    assert (in_cluster v y (slot_addr s' + i)) as Hyi by (apply Hiny; lia).
    apply Hrest; [apply (in_cluster_not_fat v V y); [specialize (Hr y Hy); lia|done]| |].
    + intros Hqi. assert (q = y) as -> by (eapply (in_cluster_inj v V); done). done.
    + destruct (find_split _ _ _ Hslot) as (s1 & s2 & E & _).
      eapply (slots_disjoint v l s' s); [done|rewrite E; apply elem_of_app; right; by constructor|done|lia].
  - unfold slot_free, slot_mark. rewrite <- (Z.add_0_r (slot_addr s)), Hes by lia.
    unfold ent_name, bytes in M1. destruct name as [|c name']; [done|].
    change (seqZ 0 (Z.of_nat 8)) with (0 :: seqZ 1 7) in M1. cbn [fmap list_fmap] in M1. injection M1 as M1 _.
    rewrite Z.add_0_r in M1 |- *. rewrite M1. specialize (Hhead c eq_refl). apply Forall_cons in Rn as [Rc _].
    apply orb_false_intro; apply Z.eqb_neq; [lia|done].
  - destruct (ent_name_ext _ _ _ _ Hes) as (N1 & N2 & _). unfold matches. rewrite N1, N2, M1, M2.
    rewrite !strncmp_eq_spec by done. by rewrite !bool_decide_eq_true_2.
Qed.

(** The node of a new entry is an empty file of one cluster. *)
Lemma new_file_ok st parent l s q e flags : dir_ok v st parent l -> s ∈ slots v l -> q ∉ l -> 2 <= q < nclusters v ->
  fat_at v (disk v st) q = EOC -> (forall i, 0 <= i < 32 -> get8 (disk v st) (slot_addr s + i) = get8 e (0 + i)) ->
  entry_cluster e 0 = q -> entry_size e 0 = 0 ->
  file_ok v st (FatNode flags 0 q (l_sector_lba s) (l_offset s)) [q].
Proof using V.
  intros D Hs Hql Hq Hfat Hes M4 M5. pose proof D as [C Hc _ Hu]. destruct (slot_place v _ _ Hs) as (x2 & Hx2 & Hpl & Hpo & _).
  pose proof (chain_Forall v _ _ _ Hc) as Hr. rewrite Forall_forall in Hr, Hu.
  destruct (ent_name_ext _ _ _ _ Hes) as (N1 & N2 & N3 & N4). split; cbn [first_cluster fn_length sector_lba fn_offset].
  - done.
  - split; [done|]. split; [done|]. rewrite Hfat. cbn. lia.
  - apply Forall_cons. split; [|constructor]. by rewrite Hfat.
  - pose proof (bpc_range v V). cbn. lia.
  - by right.
  - exists x2. assert (x2 ∉ [q]) by (intros ->%list_elem_of_singleton; done).
    split_and!; [specialize (Hr x2 Hx2); lia|specialize (Hr x2 Hx2); lia|by apply Hu|done|lia|lia|lia|lia].
  - rewrite <- M4. unfold ent_addr. cbn [sector_lba fn_offset]. fold (slot_addr s).
    unfold entry_cluster, ENT_CLUSTER_HIGH, ENT_CLUSTER_LOW.
    f_equal; [f_equal|]; apply load_ext; intros i Hi; rewrite <- !Z.add_assoc; apply Hes; lia.
  - unfold ent_addr. cbn [sector_lba fn_offset]. fold (slot_addr s). by rewrite N4.
Qed.

(** C37: Creating a file or directory under a name that is not there, with a free cluster
    and a free slot: the new node is an empty file with one cluster, the first free one,
    and its invariant holds; looking the name up afterwards finds its entry, with the
    attribute the flags ask for; the other entries of the directory and all other files
    are untouched. *)
Theorem fat32_create_find fuel st parent l fname flags name ext q fl s : dir_ok v st parent l -> (length l < fuel)%nat ->
  storable fname -> fat32_parse_name fname = Some (name, ext) ->
  List.find (matches (disk v st) name ext) (live (disk v st) (slots v l)) = None ->
  free_list v (disk v st) = q :: fl -> List.find (slot_free (disk v st)) (slots v l) = Some s ->
  exists node st' st2 e, fat32_create v (CreateMem true true true) fuel st parent fname flags = Some (Some node, st') /\
    file_ok v st' node [q] /\ fn_length node = 0 /\ dir_ok v st' parent l /\
    fat32_find_file v fuel st' (first_cluster parent) fname = Some (Some (e, s), st2) /\
    entry_cluster e 0 = q /\ ent_attr e 0 = (if Z.land flags VFS_DIRECTORY =? 0 then 0x20 else 0x10) /\
    (forall x, 0 <= x < nclusters v -> x <> q -> fat_at v (disk v st') x = fat_at v (disk v st) x) /\
    (forall a, ~ in_fat v a -> ~ in_cluster v q a -> ~ (slot_addr s <= a < slot_addr s + 32) ->
       get8 (disk v st') a = get8 (disk v st) a).
Proof using V.
  intros D Hf Hst Hp Hnone Hfl Hslot. pose proof D as [C Hc He Hu].
  destruct (parse_fields _ _ _ Hst Hp) as (Ln & Le & Rn & Re & Hhead).
  destruct (range_facts _ Rn) as [Zn Bn]. destruct (range_facts _ Re) as [Ze Be].
  assert (2 <= q < nclusters v /\ fat_at v (disk v st) q = 0) as [Hq Hq0]
    by (apply elem_free_list; rewrite Hfl; by constructor).
  pose proof (vol_ncl v V) as Hncl. unfold EOC in Hncl.
  unfold fat32_create. destruct (find_file_spec v V fuel st _ l fname C Hc He Hf) as (st1 & -> & C1 & Hd1).
  rewrite Hp, Hnone. cbn [mbind option_bind fmap option_fmap option_map].
  destruct (find_free_head v V st1 C1) as (st2 & -> & C2 & Hd2). rewrite (same_disk v _ _ Hd1), Hfl.
  change (default (-1) (head (q :: fl))) with q. rewrite (proj2 (Z.ltb_ge q 0)) by lia.
  assert (disk v st2 = disk v st) as E2 by (unfold disk; congruence).
  destruct (find_free_entry_spec v V fuel st2 (first_cluster parent) l) as (st3 & -> & C3 & Hd3); rewrite ?E2; [done|done|done|done|].
  rewrite Hslot. cbn [mbind option_bind buf_ok node_ok data_ok negb andb].
  set (attr := if negb (Z.land flags VFS_DIRECTORY =? 0) then 16 else 32).
  assert (attr = if Z.land flags VFS_DIRECTORY =? 0 then 0x20 else 0x10) as Ha
    by (unfold attr; by destruct (Z.land flags VFS_DIRECTORY =? 0)).
  destruct (make_entry_spec name ext attr q Ln Le Zn Ze Bn Be ltac:(lia) ltac:(rewrite Ha; case_match; lia))
    as (M1 & M2 & M3 & M4 & M5). set (e := make_entry name ext attr q) in *. 
  set (dots := if negb (Z.land flags VFS_DIRECTORY =? 0) then Some (dot_entries q (first_cluster parent)) else None).
  assert (disk v st3 = disk v st) as E3 by (unfold disk in *; congruence).
  assert (s ∈ slots v l) as Hs.
  { destruct (find_split _ _ _ Hslot) as (s1 & s2 & -> & _). apply elem_of_app. right. by constructor. }
  destruct (create_stores_spec st3 parent l s q e dots) as (D' & Hfat & Hent & Hrest);
    rewrite ?E3 in *; [split; rewrite ?E3; done|done|done|done|].
  set (st' := create_stores v st3 s q e dots) in *.
  assert (forall i, 0 <= i < 32 -> get8 (disk v st') (slot_addr s + i) = get8 e (0 + i)) as Hes
    by (intros i Hi; rewrite Hent by lia; f_equal; lia).
  assert (q ∉ l) as Hql by (intros Hin; rewrite Forall_forall in Hu; by apply (Hu q)).
  pose proof (new_entry_found _ _ l s q name ext e (chain_Forall v _ _ _ Hc) Hql Hslot Hnone Hrest Hes M1 M2 Ln Le Rn Re Hhead) as Hfind.
  pose proof D' as [C' Hc' He' Hu'].
  destruct (find_file_spec v V fuel st' _ l fname C' Hc' He' Hf) as (st4 & Hff & _). rewrite Hp, Hfind in Hff.
  eexists _, st', st4, _. split; [done|]. split; [|split_and!; [done|exact D'|exact Hff| | | |exact Hrest]].
  - eapply new_file_ok; [exact D'|done|done|done| |exact Hes|done|done]. by rewrite Hfat, bool_decide_eq_true_2 by (done || lia).
  - rewrite <- M4. unfold entry_cluster, ENT_CLUSTER_HIGH, ENT_CLUSTER_LOW.
    f_equal; [f_equal|]; apply load_ext; intros i Hi; rewrite get8_blit, bool_decide_eq_true_2 by lia; rewrite Hent by lia; f_equal; lia.
  - rewrite <- Ha, <- M3. unfold ent_attr, ENT_ATTR. rewrite get8_blit, bool_decide_eq_true_2 by lia. rewrite Hent by lia. f_equal. lia.
  - intros y Hy Hne. rewrite Hfat by done. by rewrite bool_decide_eq_false_2 by congruence.
Qed.

(** [fat32_create] fails, with NULL and without writing to the disk, when the name is
    not an 8.3 name, when the name exists, when no cluster is free, when the directory has
    no free slot (it is not extended) and when there is no memory for the sector. *)
Theorem fat32_create_errors k fuel st parent l fname flags : dir_ok v st parent l -> (length l < fuel)%nat ->
  fat32_parse_name fname = None \/
  (exists name ext s, fat32_parse_name fname = Some (name, ext) /\
     List.find (matches (disk v st) name ext) (live (disk v st) (slots v l)) = Some s) \/
  free_list v (disk v st) = [] \/ List.find (slot_free (disk v st)) (slots v l) = None \/ buf_ok k = false ->
  exists st', fat32_create v k fuel st parent fname flags = Some (None, st') /\ drv st' = drv st /\ cache_ok v st'.
Proof using V.
  intros [C Hc He Hu] Hf Herr. unfold fat32_create.
  destruct (find_file_spec v V fuel st _ l fname C Hc He Hf) as (st1 & -> & C1 & Hd1). cbn [mbind option_bind].
  destruct (fat32_parse_name fname) as [[name ext]|]; [|by exists st1].
  destruct (List.find (matches _ _ _) _) as [s0|] eqn:Em; cbn [fmap option_fmap option_map]; [by exists st1|].
  destruct (find_free_head v V st1 C1) as (st2 & -> & C2 & Hd2). rewrite (same_disk v _ _ Hd1).
  assert (drv st2 = drv st) as E2 by congruence.
  destruct (free_list v (disk v st)) as [|q fl] eqn:Efl; [by exists st2|].
  change (default (-1) (head (q :: fl))) with q. destruct (q <? 0); [by exists st2|].
  destruct (find_free_entry_spec v V fuel st2 (first_cluster parent) l) as (st3 & -> & C3 & Hd3);
    rewrite ?(same_disk v _ _ E2); [done|done|done|done|]. cbn [mbind option_bind].
  destruct (List.find (slot_free _) _) as [s|] eqn:Es; [|exists st3; split_and!; [done|congruence|done]].
  destruct (buf_ok k); cbn [negb]; [|exists st3; split_and!; [done|congruence|done]].
  exfalso. naive_solver.
Qed.
End Create.

(** ** The small volume *)
Lemma root0_ok : dir_ok vol0 fat0 root0 [2].
Proof.
  split; [exact fat0_ok|exact root0_chain|vm_compute; discriminate|].
  apply Forall_cons. split; [vm_compute; discriminate|constructor].
Qed.

(** [O_CREAT | O_RDWR] are the flags of a file opened for reading and writing; the entry
    made for them is a directory's, since [O_RDWR] is [VFS_DIRECTORY]. *)
Lemma fat32_create_find_witness :
  exists node st' st2 e, fat32_create vol0 (CreateMem true true true) 2 fat0 root0 [97; 46; 98] 0x0A = Some (Some node, st') /\
    file_ok vol0 st' node [3] /\
    fat32_find_file vol0 2 st' 2 [97; 46; 98] = Some (Some (e, Loc 33 32), st2) /\ ent_attr e 0 = 0x10.
Proof.
  destruct (fat32_create_find vol0 vol0_ok 2 fat0 root0 [2] [97; 46; 98] 0x0A (pad 8 [65]) (pad 3 [66]) 3
    (tail (free_list vol0 (disk vol0 fat0))) (Loc 33 32)) as (node & st' & st2 & e & H1 & H2 & _ & _ & H3 & _ & H4 & _).
  - exact root0_ok.
  - simpl. lia.
  - split; [|vm_compute; discriminate]. repeat (apply Forall_cons; split; [lia|]). constructor.
  - vm_compute. reflexivity.
  - vm_compute. reflexivity.
  - vm_compute. reflexivity.
  - vm_compute. reflexivity.
  - exists node, st', st2, e. split_and!; [exact H1|exact H2|exact H3|exact H4].
Defined.

Lemma fat32_create_errors_witness :
  exists st', fat32_create vol0 (CreateMem true true true) 2 fat0 root0 [102] 0 = Some (None, st') /\ drv st' = drv fat0.
Proof.
  destruct (fat32_create_errors vol0 vol0_ok (CreateMem true true true) 2 fat0 root0 [2] [102] 0) as (st' & H1 & H2 & _).
  - exact root0_ok.
  - simpl. lia.
  - right. left. exists (pad 8 [70]), (pad 3 []), (Loc 33 0). split; vm_compute; reflexivity.
  - exists st'. split; [exact H1|exact H2].
Defined.
