(* ===== verification/Sched.v ===== *)
(** The scheduler, [src/src/sched/sched.c].

    Tasks are records in a map from address to [Task]; [t_next] links the registered ones
    to a ring that starts at [g_head_tsk].  What the scheduler asks of other components
    (closing files and windows, returning memory) is logged in order in [s_log].  A body
    under [sched_lock] is one step.  A loop over the ring takes fuel; [None] is fuel that
    ran out or a pointer to no task. *)
From S2P Require Import Prelude.

Inductive task_state := READY | WAITING | DEAD | ZOMBIE | SLEEPING.

#[export] Instance task_state_eq_dec : EqDecision task_state.
Proof. solve_decision. Defined.

(** What a task owns outside the ring. *)
Record task_res := TaskRes {
  kern_stk_top : Z; kern_stk_rsp : Z; pml4 : Z; event_queue : Z;
  vm_free_head : Z; vm_alloc_head : Z; fd_tbl : list Z }.

Record task_info := TaskInfo { heap_end : Z; t_name : list Z; t_cwd : list Z; fg_pid : Z }.

Record Task := MkTask {
  t_pid : Z; t_state : task_state; t_next : Z; t_parent : Z; t_pending : Z; t_ret_val : Z;
  t_wake_tick : Z; t_win : Z; t_res : task_res; t_info : task_info }.

(** Requests to other components. *)
Inductive sched_effect :=
  | WinClose (win : Z)
  | VfsClose (file : Z)
  | FreeFrame (stack : Z)
  | VmmFree (p : Z)
  | CleanupVm (free_head alloc_head : Z)
  | FreeTable (pml4 : Z)
  | RetPml4 (pml4 : Z)
  | Kfree (p : Z).

(** [s_windows]: the owner of each window. *)
Record sched := Sched {
  s_tasks : gmap Z Task; g_head_tsk : Z; g_curr_tsk : Z; g_next_pid : Z;
  s_windows : gmap Z Z; s_log : list sched_effect }.

(** ** Field updates *)
Definition set_state (s : task_state) (t : Task) : Task :=
  MkTask (t_pid t) s (t_next t) (t_parent t) (t_pending t) (t_ret_val t) (t_wake_tick t) (t_win t) (t_res t) (t_info t).
Definition set_next (n : Z) (t : Task) : Task :=
  MkTask (t_pid t) (t_state t) n (t_parent t) (t_pending t) (t_ret_val t) (t_wake_tick t) (t_win t) (t_res t) (t_info t).
Definition set_parent (p : Z) (t : Task) : Task :=
  MkTask (t_pid t) (t_state t) (t_next t) p (t_pending t) (t_ret_val t) (t_wake_tick t) (t_win t) (t_res t) (t_info t).
Definition set_pending (x : Z) (t : Task) : Task :=
  MkTask (t_pid t) (t_state t) (t_next t) (t_parent t) x (t_ret_val t) (t_wake_tick t) (t_win t) (t_res t) (t_info t).
Definition set_ret_val (x : Z) (t : Task) : Task :=
  MkTask (t_pid t) (t_state t) (t_next t) (t_parent t) (t_pending t) x (t_wake_tick t) (t_win t) (t_res t) (t_info t).
Definition set_wake_tick (x : Z) (t : Task) : Task :=
  MkTask (t_pid t) (t_state t) (t_next t) (t_parent t) (t_pending t) (t_ret_val t) x (t_win t) (t_res t) (t_info t).
Definition set_win (x : Z) (t : Task) : Task :=
  MkTask (t_pid t) (t_state t) (t_next t) (t_parent t) (t_pending t) (t_ret_val t) (t_wake_tick t) x (t_res t) (t_info t).
Definition set_res (x : task_res) (t : Task) : Task :=
  MkTask (t_pid t) (t_state t) (t_next t) (t_parent t) (t_pending t) (t_ret_val t) (t_wake_tick t) (t_win t) x (t_info t).
Definition set_fd_tbl (x : list Z) (t : Task) : Task :=
  let r := t_res t in
  set_res (TaskRes (kern_stk_top r) (kern_stk_rsp r) (pml4 r) (event_queue r) (vm_free_head r) (vm_alloc_head r) x) t.

Definition upd (st : sched) (a : Z) (f : Task -> Task) : sched :=
  Sched (alter f a (s_tasks st)) (g_head_tsk st) (g_curr_tsk st) (g_next_pid st) (s_windows st) (s_log st).
Definition set_head (st : sched) (h : Z) : sched :=
  Sched (s_tasks st) h (g_curr_tsk st) (g_next_pid st) (s_windows st) (s_log st).
Definition set_curr (st : sched) (c : Z) : sched :=
  Sched (s_tasks st) (g_head_tsk st) c (g_next_pid st) (s_windows st) (s_log st).
Definition emit (st : sched) (es : list sched_effect) : sched :=
  Sched (s_tasks st) (g_head_tsk st) (g_curr_tsk st) (g_next_pid st) (s_windows st) (s_log st ++ es).

Definition SIGINT_BIT : Z := Z.shiftl 1 (2 - 1).

Definition alive (s : task_state) : bool := negb (bool_decide (s = ZOMBIE)) && negb (bool_decide (s = DEAD)).

(** ** Loops over the ring *)

(** [do { body } while (t != g_head_tsk)], the body of which may return early with a value. *)
Fixpoint ring_loop {R : Type} (fuel : nat) (st : sched) (t : Z) (body : sched -> Z -> Task -> sched + R) : option (sched + R) :=
  match fuel with
  | O => None
  | S n =>
      tsk ← s_tasks st !! t;
      match body st t tsk with
      | inr r => Some (inr r)
      | inl st =>
          if t_next tsk =? g_head_tsk st then Some (inl st) else ring_loop n st (t_next tsk) body
      end
  end.

(** Address of the task, 0 is NULL. *)
Definition sched_find_task_locked (fuel : nat) (st : sched) (pid : Z) : option Z :=
  if g_head_tsk st =? 0 then Some 0
  else
    r ← ring_loop fuel st (g_head_tsk st) (fun st t tsk => if t_pid tsk =? pid then inr t else inl st);
    Some (match r with inr t => t | inl _ => 0 end).

Definition sched_find_task := sched_find_task_locked.

Definition owns_window (st : sched) (tsk : Task) : bool :=
  negb (t_win tsk =? 0) && bool_decide (s_windows st !! t_win tsk = Some (t_pid tsk)).

(** [exiting] is the address of the task that ends. *)
Definition reparent_body (is_win_owner : bool) (exiting : Z) (st : sched) (t : Z) (tsk : Task) : sched + False :=
  inl (if t_parent tsk =? exiting then
    upd st t (fun tsk =>
      let tsk := set_parent (g_head_tsk st) tsk in
      if is_win_owner && negb (t_pid tsk =? 0) && alive (t_state tsk)
      then set_state READY (set_pending (Z.lor (t_pending tsk) SIGINT_BIT) tsk)
      else tsk)
  else st).

Definition run_ring (fuel : nat) (st : sched) (body : sched -> Z -> Task -> sched + False) : option sched :=
  r ← ring_loop (R := False) fuel st (g_head_tsk st) body;
  match r with inl st => Some st | inr f => False_rect _ f end.

Definition sched_reparent_children_locked (fuel : nat) (st : sched) (exiting : Z) : option sched :=
  if g_head_tsk st =? 0 then Some st
  else
    tsk ← s_tasks st !! exiting;
    run_ring fuel st (reparent_body (owns_window st tsk) exiting).

(** ** Giving back what a task has *)
Definition sched_clean_gui (st : sched) (a : Z) : option sched :=
  tsk ← s_tasks st !! a;
  Some (if t_win tsk =? 0 then st
        else
          let st := if owns_window st tsk then emit st [WinClose (t_win tsk)] else st in
          upd st a (set_win 0)).

Definition sched_clean_fds (st : sched) (a : Z) : option sched :=
  tsk ← s_tasks st !! a;
  Some (upd (emit st (VfsClose <$> filter (fun x => x <> 0) (fd_tbl (t_res tsk)))) a
    (fun t => set_fd_tbl ((fun _ => 0) <$> fd_tbl (t_res t)) t)).

Definition when (b : bool) (es : list sched_effect) : list sched_effect := if b then es else [].

Definition sched_destroy_task (st : sched) (a : Z) : option sched :=
  if a =? 0 then Some st
  else
    tsk ← s_tasks st !! a;
    if t_pid tsk =? 0 then Some st
    else
      st ← sched_clean_gui st a;
      st ← sched_clean_fds st a;
      let r := t_res tsk in
      let st := emit st (when (negb (kern_stk_top r =? 0)) [FreeFrame (kern_stk_top r - 0x1000)]
        ++ when (negb (event_queue r =? 0)) [VmmFree (event_queue r)]
        ++ [CleanupVm (vm_free_head r) (vm_alloc_head r)]
        ++ when (negb (pml4 r =? 0)) [FreeTable (pml4 r)] ++ [Kfree a]) in
      Some (Sched (delete a (s_tasks st)) (g_head_tsk st) (g_curr_tsk st) (g_next_pid st) (s_windows st) (s_log st)).

(** ** The ring *)

(** [while (prev->next != tsk && prev->next != g_head_tsk) prev = prev->next] *)
Fixpoint find_prev (fuel : nat) (st : sched) (prev tsk : Z) : option Z :=
  match fuel with
  | O => None
  | S n =>
      p ← s_tasks st !! prev;
      if (t_next p =? tsk) || (t_next p =? g_head_tsk st) then Some prev else find_prev n st (t_next p) tsk
  end.

Definition sched_unlink_task (fuel : nat) (st : sched) (tsk : Z) : option sched :=
  if g_head_tsk st =? 0 then Some st
  else
    prev ← find_prev fuel st (g_head_tsk st) tsk;
    p ← s_tasks st !! prev;
    if t_next p =? tsk then
      t ← s_tasks st !! tsk;
      let st := upd st prev (set_next (t_next t)) in
      Some (if tsk =? g_head_tsk st then set_head st (if t_next t =? tsk then 0 else t_next t) else st)
    else Some st.

Definition sched_register_task (st : sched) (a : Z) : option sched :=
  if g_head_tsk st =? 0 then
    let st := set_curr (set_head st a) a in
    Some (upd (upd st a (set_next a)) a (set_state READY))
  else
    h ← s_tasks st !! g_head_tsk st;
    let st := upd st a (set_next (t_next h)) in
    let st := upd st (g_head_tsk st) (set_next a) in
    Some (upd st a (set_state READY)).

(** ** Choosing the next task *)
Fixpoint pick_loop (fuel : nat) (st : sched) (next_tsk start_tsk : Z) : option Z :=
  match fuel with
  | O => None
  | S n =>
      t ← s_tasks st !! next_tsk;
      if decide (t_state t = READY) then Some next_tsk
      else
        let nx := if t_next t =? 0 then g_head_tsk st else t_next t in
        if nx =? start_tsk then Some (g_head_tsk st) else pick_loop n st nx start_tsk
  end.

(** The task [schedule] goes on with. *)
Definition schedule_pick (fuel : nat) (st : sched) : option Z :=
  if g_curr_tsk st =? 0 then Some (g_head_tsk st)
  else
    c ← s_tasks st !! g_curr_tsk st;
    let nx := if t_next c =? 0 then g_head_tsk st else t_next c in
    pick_loop fuel st nx nx.

(** [while (next_tsk->state != TASK_READY)] of [sched_exit]. *)
Fixpoint exit_pick (fuel : nat) (st : sched) (next_tsk exiting : Z) : option Z :=
  match fuel with
  | O => None
  | S n =>
      t ← s_tasks st !! next_tsk;
      if decide (t_state t = READY) then Some next_tsk
      else if t_next t =? exiting then Some (g_head_tsk st) else exit_pick n st (t_next t) exiting
  end.

Definition wake_parent (st : sched) (parent : Z) : sched :=
  if parent =? 0 then st
  else upd st parent (fun p => if alive (t_state p) then set_state READY p else p).

Definition sched_exit (fuel : nat) (st : sched) (code : Z) : option sched :=
  let a := g_curr_tsk st in
  tsk ← s_tasks st !! a;
  if t_pid tsk =? 0 then Some st
  else
    st ← sched_clean_gui st a;
    st ← sched_clean_fds st a;
    st ← sched_reparent_children_locked fuel st a;
    next_tsk ← exit_pick fuel st (t_next tsk) a;
    let st := if g_head_tsk st =? a then set_head st next_tsk else st in
    let st := set_curr st next_tsk in
    let st := upd st a (fun t => set_ret_val code (set_state ZOMBIE t)) in
    t ← s_tasks st !! a;
    Some (wake_parent st (t_parent t)).

(** The end of [schedule]: a pending SIGINT ends the task. *)
Definition deliver_sigint (fuel : nat) (st : sched) : option sched :=
  c ← s_tasks st !! g_curr_tsk st;
  if negb (t_pid c =? 0) && negb (Z.land (t_pending c) SIGINT_BIT =? 0) then
    sched_exit fuel (upd st (g_curr_tsk st) (fun t => set_pending (Z.land (t_pending t) (Z.lnot SIGINT_BIT)) t)) 0
  else Some st.

(** [schedule] up to the switch: when it switches, the caller is suspended in the middle
    and does the rest ([deliver_sigint]) when it runs again; a task that never ran starts
    in its entry stub instead. *)
Definition schedule (fuel : nat) (st : sched) : option sched :=
  if g_head_tsk st =? 0 then Some st
  else
    next_tsk ← schedule_pick fuel st;
    if (next_tsk =? 0) || (next_tsk =? g_curr_tsk st) then deliver_sigint fuel st
    else Some (set_curr st next_tsk).

Definition sched_block (fuel : nat) (st : sched) : option sched :=
  schedule fuel (upd st (g_curr_tsk st) (set_state WAITING)).

Definition sched_wake_pid (fuel : nat) (st : sched) (pid : Z) : option sched :=
  t ← sched_find_task_locked fuel st pid;
  Some (if t =? 0 then st else upd st t (fun t => if alive (t_state t) then set_state READY t else t)).

Definition sched_kill (fuel : nat) (st : sched) (pid : Z) : option sched :=
  if pid <=? 0 then Some st
  else
    c ← s_tasks st !! g_curr_tsk st;
    if pid =? t_pid c then sched_exit fuel st (-1)
    else
      a ← sched_find_task_locked fuel st pid;
      if a =? 0 then Some st
      else
        tsk ← s_tasks st !! a;
        if negb (alive (t_state tsk)) then Some st
        else
          st ← sched_reparent_children_locked fuel st a;
          let st := upd st a (fun t => set_ret_val (-1) (set_state ZOMBIE t)) in
          t ← s_tasks st !! a;
          let st := wake_parent st (t_parent t) in
          st ← sched_clean_gui st a;
          sched_clean_fds st a.

Definition sched_send_signal (fuel : nat) (st : sched) (pid sig_code : Z) : option sched :=
  t ← sched_find_task_locked fuel st pid;
  Some (if t =? 0 then st else upd st t (fun t => set_pending (u32 (Z.lor (t_pending t) (Z.shiftl 1 (sig_code - 1)))) t)).

Definition wake_sleeper (curr_tick : Z) (st : sched) (t : Z) (tsk : Task) : sched + False :=
  inl (if bool_decide (t_state tsk = SLEEPING) && (t_wake_tick tsk <=? curr_tick)
       then upd st t (fun t => set_wake_tick (-1) (set_state READY t)) else st).

Definition sched_check_sleeping_tasks (fuel : nat) (st : sched) (curr_tick : Z) : option sched :=
  if g_head_tsk st =? 0 then Some st else run_ring fuel st (wake_sleeper curr_tick).

(** A zombie nobody will wait for. *)
Definition reapable (st : sched) (t : Z) (tsk : Task) : bool :=
  negb (t_pid tsk =? 0) && negb (t =? g_curr_tsk st) && bool_decide (t_state tsk = ZOMBIE) &&
  ((t_parent tsk =? 0) ||
   match s_tasks st !! t_parent tsk with
   | Some p => (t_pid p =? 0) || negb (alive (t_state p))
   | None => false
   end).

Fixpoint reap_loop (fuel : nat) (st : sched) (prev t : Z) : option (option (Z * Z)) :=
  match fuel with
  | O => None
  | S n =>
      tsk ← s_tasks st !! t;
      if reapable st t tsk then Some (Some (prev, t))
      else if t_next tsk =? g_head_tsk st then Some None
      else reap_loop n st t (t_next tsk)
  end.

(** The last task of the ring. *)
Fixpoint ring_last (fuel : nat) (st : sched) (prev : Z) : option Z :=
  match fuel with
  | O => None
  | S n => p ← s_tasks st !! prev; if t_next p =? g_head_tsk st then Some prev else ring_last n st (t_next p)
  end.

Definition sched_reap_zombies (fuel : nat) (st : sched) : option sched :=
  if g_head_tsk st =? 0 then Some st
  else
    prev ← ring_last fuel st (g_head_tsk st);
    r ← reap_loop fuel st prev (g_head_tsk st);
    match r with
    | None => Some st
    | Some (prev, z) =>
        tsk ← s_tasks st !! z;
        let st := upd st prev (set_next (t_next tsk)) in
        let st := if z =? g_head_tsk st then set_head st (t_next tsk) else st in
        sched_destroy_task st z
    end.

(** ** Making tasks *)

(** The addresses the allocators return for a new task, 0 is NULL; [nm_stdio] is the
    table of open files after [dev_attach_stdio]. *)
Record new_mem := NewMem { nm_task : Z; nm_pml4 : Z; nm_free : Z; nm_events : Z; nm_stdio : list Z }.

Definition USER_HEAP_START : Z := 0x20000000.
Definition ROOT_DIR : list Z := [47].
Definition USER_TASK : list Z := [117; 115; 101; 114; 95; 116; 97; 115; 107].

(** The directory and the name a new task gets from the current one. *)
Definition inherit_cwd (st : sched) : list Z :=
  match s_tasks st !! g_curr_tsk st with
  | Some c => if decide (t_cwd (t_info c) = []) then ROOT_DIR else t_cwd (t_info c)
  | None => ROOT_DIR
  end.
Definition inherit_name (st : sched) : list Z :=
  match s_tasks st !! g_curr_tsk st with
  | Some c => if decide (t_name (t_info c) = []) then USER_TASK else take 63 (t_name (t_info c))
  | None => USER_TASK
  end.

Definition sched_new_task (st : sched) (nm : new_mem) : Z * sched :=
  let a := nm_task nm in
  if a =? 0 then (0, st)
  else
    let pid := g_next_pid st in
    let st := Sched (s_tasks st) (g_head_tsk st) (g_curr_tsk st) (s32 (pid + 1)) (s_windows st) (s_log st) in
    if nm_pml4 nm =? 0 then (0, emit st [Kfree a])
    else if nm_free nm =? 0 then (0, emit st [RetPml4 (nm_pml4 nm); Kfree a])
    else if nm_events nm =? 0 then (0, emit st [Kfree (nm_free nm); RetPml4 (nm_pml4 nm); Kfree a])
    else
      let tsk := MkTask pid WAITING 0 (g_curr_tsk st) 0 0 (-1) 0
        (TaskRes 0 0 (nm_pml4 nm) (nm_events nm) (nm_free nm) 0 (nm_stdio nm))
        (TaskInfo USER_HEAP_START (inherit_name st) (inherit_cwd st) (-1)) in
      (a, Sched (<[a := tsk]> (s_tasks st)) (g_head_tsk st) (g_curr_tsk st) (g_next_pid st) (s_windows st) (s_log st)).

(** [sched_init]: the kernel's task at [a], with an event queue and a stack. *)
Definition KERNEL_NAME : list Z := [107; 101; 114; 110; 101; 108].
Definition sched_init (a cr3 events stk_top : Z) : sched :=
  let tsk := MkTask 0 READY a 0 0 0 (-1) 0 (TaskRes stk_top 0 cr3 events 0 0 (replicate 16 0))
    (TaskInfo 0 KERNEL_NAME ROOT_DIR (-1)) in
  Sched {[ a := tsk ]} a a 1 ∅ [].

(** [task_context_setup] as the scheduler sees it: a stack of one frame, or none. *)
Definition CONTEXT_SIZE : Z := 8 * (5 + 15 + 1 + 6).
Definition set_stack (top rsp : Z) (t : Task) : Task :=
  let r := t_res t in
  set_res (TaskRes top rsp (pml4 r) (event_queue r) (vm_free_head r) (vm_alloc_head r) (fd_tbl r)) t.

Definition task_factory_create (st : sched) (nm : new_mem) (stack_top : Z) : Z * sched :=
  let '(a, st) := sched_new_task st nm in
  if a =? 0 then (0, st)
  else (a, if stack_top =? 0 then st else upd st a (set_stack stack_top (stack_top - CONTEXT_SIZE))).

(** What [task_factory_fork] gets from the allocators: the copied tables, the stack's top
    and the copied region lists. *)
Record fork_mem := ForkMem { fm_pml4 : Z; fm_stack_top : Z; fm_free : Z; fm_alloc : Z }.

(** [task_factory_fork]; it retains the parent's open files ([retained]). *)
Definition task_factory_fork (st : sched) (parent : Z) (nm : new_mem) (fm : fork_mem)
    : option (Z * sched * list Z) :=
  let '(a, st) := sched_new_task st nm in
  if a =? 0 then Some (0, st, [])
  else
    st ← sched_clean_fds st a;
    let st := emit st [RetPml4 (nm_pml4 nm)] in
    let res t p s := TaskRes s 0 p (event_queue (t_res t)) (vm_free_head (t_res t)) (vm_alloc_head (t_res t)) (fd_tbl (t_res t)) in
    let st := upd st a (fun t => set_res (res t (fm_pml4 fm) 0) t) in
    if fm_pml4 fm =? 0 then st ← sched_destroy_task st a; Some (0, st, [])
    else if fm_stack_top fm =? 0 then st ← sched_destroy_task st a; Some (0, st, [])
    else
      p ← s_tasks st !! parent;
      let fds := fd_tbl (t_res p) in
      let st := emit st [CleanupVm (nm_free nm) 0] in
      let st := upd st a (fun t =>
        MkTask (t_pid t) READY (t_next t) parent (t_pending t) (t_ret_val t) (t_wake_tick t) (t_win p)
          (TaskRes (fm_stack_top fm) (fm_stack_top fm - CONTEXT_SIZE) (fm_pml4 fm) (event_queue (t_res t))
             (fm_free fm) (fm_alloc fm) fds)
          (TaskInfo (heap_end (t_info p)) (t_name (t_info p)) (t_cwd (t_info p)) (fg_pid (t_info t)))) in
      Some (a, st, filter (fun x => x <> 0) fds).

(** ** Queries *)
Definition get_curr_task (st : sched) : Z := g_curr_tsk st.
Definition get_curr_task_pid (st : sched) : option Z :=
  if get_curr_task st =? 0 then Some (-1) else t_pid <$> s_tasks st !! get_curr_task st.

Record ProcInfo := MkProcInfo {
  pi_pid : Z; pi_ppid : Z; pi_state : task_state; pi_heap_kb : Z; pi_has_win : bool; pi_name : list Z; pi_cwd : list Z }.

Definition TASK_NAME : list Z := [116; 97; 115; 107].
Definition proc_info (st : sched) (t : Task) : ProcInfo :=
  MkProcInfo (t_pid t)
    (if t_parent t =? 0 then 0 else match s_tasks st !! t_parent t with Some p => t_pid p | None => 0 end)
    (t_state t)
    (if (0 <? t_pid t) && (USER_HEAP_START <? heap_end (t_info t)) then (heap_end (t_info t) - USER_HEAP_START + 1023) / 1024 else 0)
    (owns_window st t)
    (take 63 (if decide (t_name (t_info t) = []) then TASK_NAME else t_name (t_info t)))
    (take 63 (if decide (t_cwd (t_info t) = []) then ROOT_DIR else t_cwd (t_info t))).

(** The loop: [count] rows were written. *)
Fixpoint procs_loop (fuel : nat) (st : sched) (t count max_count : Z) : option (list ProcInfo) :=
  match fuel with
  | O => None
  | S n =>
      if max_count <=? count then Some []
      else
        tsk ← s_tasks st !! t;
        rest ← (if t_next tsk =? g_head_tsk st then Some [] else procs_loop n st (t_next tsk) (count + 1) max_count);
        Some (proc_info st tsk :: rest)
  end.

(** The rows written and the return value. *)
Definition sched_get_procs (fuel : nat) (st : sched) (out_buf max_count : Z) : option (Z * list ProcInfo) :=
  if (out_buf =? 0) || (max_count <=? 0) then Some (-1, [])
  else if g_head_tsk st =? 0 then Some (0, [])
  else l ← procs_loop fuel st (g_head_tsk st) 0 max_count; Some (Z.of_nat (length l), l).
