(* ===== verification/SchedInv.v ===== *)
(** The scheduler's invariant, [src/src/sched/sched.c].

    [ring st l]: the registered tasks, from [g_head_tsk] on, are the list [l].  [sched_inv]
    adds what the code relies on: the kernel's task heads the ring and is never a zombie,
    the current task is on it, pids are unique, and every parent pointer is null or to a
    registered task that is alive. *)
From S2P Require Import Prelude Sched.

(** ** The ring as a list *)
Fixpoint path (ts : gmap Z Task) (l : list Z) (b : Z) : Prop :=
  match l with
  | [] => True
  | x :: l => (exists t, ts !! x = Some t /\ t_next t = hd b l) /\ path ts l b
  end.

Record ring (st : sched) (l : list Z) : Prop := {
  r_path : path (s_tasks st) l (g_head_tsk st);
  r_nodup : NoDup l;
  r_head : head l = Some (g_head_tsk st);
  r_null : 0 ∉ l }.

(** Every task of [l] changed by [g]. *)
Definition map_ring (g : Task -> Task) (st : sched) (l : list Z) : sched := foldl (fun st a => upd st a g) st l.

Section Ring.
Implicit Types (st : sched) (ts : gmap Z Task) (l : list Z) (a b : Z) (t : Task).

Lemma hd_app b l1 l2 : hd b (l1 ++ l2) = hd (hd b l2) l1.
Proof. by destruct l1. Qed.

Lemma path_app ts l1 l2 b : path ts (l1 ++ l2) b <-> path ts l1 (hd b l2) /\ path ts l2 b.
Proof.
  induction l1 as [|x l1 IH]; cbn [app path]; [tauto|]. rewrite IH, hd_app. tauto.
Qed.

Lemma path_lookup ts l b a : path ts l b -> a ∈ l -> exists t, ts !! a = Some t.
Proof.
  induction l as [|x l IH]; intros H Ha; [by apply not_elem_of_nil in Ha|]. destruct H as [(t & Ht & _) H].
  apply elem_of_cons in Ha as [->|Ha]; eauto.
Qed.

Lemma path_ext ts ts' l b : (forall a, a ∈ l -> t_next <$> ts' !! a = t_next <$> ts !! a) -> path ts l b -> path ts' l b.
Proof.
  induction l as [|x l IH]; intros He H; cbn [path] in *; [done|]. destruct H as [(t & Ht & Hn) H]. split.
  - specialize (He x ltac:(by constructor)). rewrite Ht in He. destruct (ts' !! x) as [t'|]; [|done].
    injection He as He. exists t'. split; [done|]. congruence.
  - apply IH; [|done]. intros. apply He. by constructor.
Qed.

Lemma ring_lookup st l a : ring st l -> a ∈ l -> exists t, s_tasks st !! a = Some t.
Proof. intros R. apply path_lookup with (b := g_head_tsk st), R. Qed.

Lemma ring_head_nz st l : ring st l -> g_head_tsk st <> 0 /\ g_head_tsk st ∈ l.
Proof.
  intros [_ _ Hh H0]. destruct l as [|x l]; [done|]. injection Hh as ->. split; [|by constructor].
  intros E. apply H0. rewrite E. by constructor.
Qed.

Lemma ring_ext st st' l : ring st l -> g_head_tsk st' = g_head_tsk st ->
  (forall a, a ∈ l -> t_next <$> s_tasks st' !! a = t_next <$> s_tasks st !! a) -> ring st' l.
Proof. intros [Hp Hn Hh H0] E He. split; rewrite ?E; [by eapply path_ext|done|done|done]. Qed.

(** *** Updates *)
Lemma upd_lookup st a f b : s_tasks (upd st a f) !! b = if bool_decide (a = b) then f <$> s_tasks st !! b else s_tasks st !! b.
Proof.
  unfold upd. cbn [s_tasks]. case_bool_decide; [subst; apply lookup_alter_eq|by apply lookup_alter_ne].
Qed.

Lemma map_ring_frame g st l : g_head_tsk (map_ring g st l) = g_head_tsk st /\ g_curr_tsk (map_ring g st l) = g_curr_tsk st /\
  g_next_pid (map_ring g st l) = g_next_pid st /\ s_windows (map_ring g st l) = s_windows st /\ s_log (map_ring g st l) = s_log st.
Proof. revert st. induction l as [|x l IH]; intros st; [done|]. cbn [map_ring foldl]. apply (IH (upd st x g)). Qed.

Lemma map_ring_lookup g st l a : NoDup l ->
  s_tasks (map_ring g st l) !! a = if bool_decide (a ∈ l) then g <$> s_tasks st !! a else s_tasks st !! a.
Proof.
  revert st. induction l as [|x l IH]; intros st Hnd; cbn [map_ring foldl].
  - rewrite bool_decide_eq_false_2; [done|apply not_elem_of_nil].
  - apply NoDup_cons in Hnd as [Hx Hnd]. fold (map_ring g (upd st x g) l). rewrite IH by done. rewrite upd_lookup.
    destruct (decide (a = x)) as [->|Hne].
    + rewrite bool_decide_eq_false_2 by done. rewrite !bool_decide_eq_true_2 by (done || by constructor). done.
    + rewrite (bool_decide_eq_false_2 (x = a)) by congruence. 
      rewrite (bool_decide_ext (a ∈ x :: l) (a ∈ l)) by (rewrite elem_of_cons; naive_solver). done.
Qed.

(** *** Loops over the ring *)

(** A loop whose body changes the task it visits is a map over the ring. *)
Lemma ring_loop_map st l1 l2 body g fuel : path (s_tasks st) l1 (g_head_tsk st) -> NoDup l1 -> g_head_tsk st ∉ tail l1 ->
  (forall t, t_next (g t) = t_next t) ->
  (forall st' a t, g_head_tsk st' = g_head_tsk st -> s_tasks st' !! a = Some t -> body st' a t = inl (upd st' a g)) ->
  (length l1 <= fuel)%nat -> l1 = l2 -> l1 <> [] ->
  ring_loop (R := False) fuel st (hd 0 l1) body = Some (inl (map_ring g st l2)).
Proof.
  intros Hp Hnd Hh Hg Hb Hf <- Hne. revert st l1 Hp Hnd Hh Hb Hf Hne. induction fuel as [|n IH]; intros st [|x l1] Hp Hnd Hh Hb Hf Hne;
    [done|simpl in Hf; lia|done|]. cbn [ring_loop hd]. destruct Hp as [(t & Ht & Hn) Hp]. rewrite Ht. cbn [mbind option_bind].
  rewrite (Hb st x t eq_refl Ht). change (g_head_tsk (upd st x g)) with (g_head_tsk st). cbn [tail] in Hh.
  apply NoDup_cons in Hnd as [Hx Hnd]. destruct l1 as [|y l1].
  - cbn in Hn. rewrite Hn, Z.eqb_refl. done.
  - cbn [hd] in Hn. assert (y <> g_head_tsk st) by (intros ->; apply Hh; by constructor).
    rewrite Hn, (proj2 (Z.eqb_neq y (g_head_tsk st))) by done.
    cbn [map_ring foldl]. fold (map_ring g (upd (upd st x g) y g) l1).
    apply (IH (upd st x g) (y :: l1)).
    + eapply path_ext; [|exact Hp]. intros a Ha. rewrite upd_lookup. rewrite bool_decide_eq_false_2; [done|congruence].
    + done.
    + cbn [tail]. intros Hin. apply Hh. by constructor.
    + intros st' a t' Hst' Ha. by apply Hb.
    + simpl in *. lia.
    + done.
Qed.

Lemma run_ring_map st l body g fuel : ring st l -> (length l <= fuel)%nat -> (forall t, t_next (g t) = t_next t) ->
  (forall st' a t, g_head_tsk st' = g_head_tsk st -> s_tasks st' !! a = Some t -> body st' a t = inl (upd st' a g)) ->
  run_ring fuel st body = Some (map_ring g st l).
Proof.
  intros [Hp Hnd Hh H0] Hf Hg Hb. unfold run_ring. destruct l as [|x l]; [done|]. injection Hh as ->.
  pose proof Hnd as [Hx _]%NoDup_cons.
  pose proof (ring_loop_map st (g_head_tsk st :: l) _ body g fuel Hp Hnd Hx Hg Hb Hf eq_refl ltac:(done)) as E.
  cbn [hd] in E. rewrite E. done.
Qed.

(** The task with a pid, the first on the ring. *)
Definition find_pid (ts : gmap Z Task) (l : list Z) (pid : Z) : option Z :=
  List.find (fun a => bool_decide (t_pid <$> ts !! a = Some pid)) l.

Lemma find_loop st l pid fuel : path (s_tasks st) l (g_head_tsk st) -> g_head_tsk st ∉ tail l -> (length l <= fuel)%nat -> l <> [] ->
  ring_loop fuel st (hd 0 l) (fun st (x : Z) t => if t_pid t =? pid then inr x else inl st) =
    Some (match find_pid (s_tasks st) l pid with Some a => inr a | None => inl st end).
Proof.
  revert l. induction fuel as [|n IH]; intros [|x l] Hp Hh Hf Hne; [done|simpl in Hf; lia|done|].
  destruct Hp as [(t & Ht & Hn) Hp]. cbn [ring_loop hd]. rewrite Ht. cbn [mbind option_bind]. unfold find_pid. cbn [List.find].
  rewrite Ht. cbn [fmap option_fmap option_map]. destruct (Z.eqb_spec (t_pid t) pid) as [E|E].
  - rewrite bool_decide_eq_true_2 by congruence. done.
  - rewrite bool_decide_eq_false_2 by congruence. fold (find_pid (s_tasks st) l pid). cbn [tail] in Hh. destruct l as [|y l].
    + cbn in Hn. rewrite Hn, Z.eqb_refl. done.
    + cbn [hd] in Hn. assert (y <> g_head_tsk st) by (intros ->; apply Hh; by constructor).
      rewrite Hn, (proj2 (Z.eqb_neq y (g_head_tsk st))) by done. apply (IH (y :: l)); [done| |simpl in *; lia|done].
      cbn [tail]. intros Hin. apply Hh. by constructor.
Qed.

Lemma find_task_spec st l pid fuel : ring st l -> (length l <= fuel)%nat ->
  sched_find_task_locked fuel st pid = Some (default 0 (find_pid (s_tasks st) l pid)).
Proof.
  intros R Hf. pose proof (ring_head_nz _ _ R) as [Hnz _]. destruct R as [Hp Hnd Hh H0]. unfold sched_find_task_locked.
  rewrite (proj2 (Z.eqb_neq _ _)) by done. destruct l as [|x l]; [done|]. injection Hh as ->. pose proof Hnd as [Hx _]%NoDup_cons.
  pose proof (find_loop st (g_head_tsk st :: l) pid fuel Hp Hx Hf ltac:(done)) as E. cbn [hd] in E. rewrite E.
  cbn [mbind option_bind]. by destruct (find_pid _ _ _).
Qed.

Lemma find_pid_Some ts l pid a : find_pid ts l pid = Some a -> a ∈ l /\ exists t, ts !! a = Some t /\ t_pid t = pid.
Proof.
  unfold find_pid. induction l as [|x l IH]; cbn [List.find]; [done|]. case_bool_decide as E.
  - intros [= <-]. split; [by constructor|]. apply fmap_Some in E as (t & ? & ?). by exists t.
  - intros [? ?]%IH. split; [by constructor|done].
Qed.
End Ring.

(** ** The invariant *)
Record sched_inv (st : sched) (l : list Z) : Prop := {
  si_ring : ring st l;
  si_curr : g_curr_tsk st ∈ l;
  si_curr_alive : exists c, s_tasks st !! g_curr_tsk st = Some c /\ alive (t_state c) = true;
  si_head : exists h, s_tasks st !! g_head_tsk st = Some h /\ t_pid h = 0 /\ alive (t_state h) = true;
  si_pid a t : a ∈ l -> a <> g_head_tsk st -> s_tasks st !! a = Some t -> 0 < t_pid t < g_next_pid st;
  si_uniq a b t t' : a ∈ l -> b ∈ l -> s_tasks st !! a = Some t -> s_tasks st !! b = Some t' -> t_pid t = t_pid t' -> a = b;
  si_parent a t : a ∈ l -> s_tasks st !! a = Some t -> t_parent t = 0 \/
    (t_parent t ∈ l /\ exists p, s_tasks st !! t_parent t = Some p /\ alive (t_state p) = true) }.

(** What most operations leave of a task. *)
Definition keeps (t t' : Task) : Prop :=
  t_pid t' = t_pid t /\ t_next t' = t_next t /\ t_parent t' = t_parent t /\
  (alive (t_state t) = true -> alive (t_state t') = true).

Section Inv.
Implicit Types (st : sched) (l : list Z) (a b : Z) (t : Task).

Lemma keeps_refl t : keeps t t.
Proof. done. Qed.

Lemma inv_keeps st st' l : sched_inv st l -> g_head_tsk st' = g_head_tsk st -> g_curr_tsk st' = g_curr_tsk st ->
  g_next_pid st' = g_next_pid st ->
  (forall a t, a ∈ l -> s_tasks st !! a = Some t -> exists t', s_tasks st' !! a = Some t' /\ keeps t t') ->
  sched_inv st' l.
Proof.
  intros [R Hc Hca Hh Hpid Hu Hpar] Eh Ec En Hk. pose proof (ring_head_nz _ _ R) as [_ Hhl].
  assert (forall a t', a ∈ l -> s_tasks st' !! a = Some t' -> exists t, s_tasks st !! a = Some t /\ keeps t t') as Hback.
  { intros a t' Ha Ht'. destruct (ring_lookup _ _ _ R Ha) as [t Ht]. destruct (Hk a t Ha Ht) as (t2 & E & K).
    exists t. split; [done|]. congruence. }
  split; rewrite ?Eh, ?Ec, ?En.
  - eapply ring_ext; [exact R|done|]. intros a Ha. destruct (ring_lookup _ _ _ R Ha) as [t Ht].
    destruct (Hk a t Ha Ht) as (t' & E & _ & Hn & _). rewrite E, Ht. cbn. congruence.
  - done.
  - destruct Hca as (c & Ec' & Hal). destruct (Hk _ _ Hc Ec') as (c' & E & _ & _ & _ & H). exists c'. auto.
  - destruct Hh as (h & Eh' & Hp0 & Hal). destruct (Hk _ _ Hhl Eh') as (h' & E & Hp & _ & _ & H). exists h'.
    split_and!; [done|congruence|auto].
  - intros a t' Ha Hne Ht'. destruct (Hback a t' Ha Ht') as (t & Ht & Hp & _). rewrite Hp. by eapply Hpid.
  - intros a b t1 t2 Ha Hb H1 H2 E. destruct (Hback a t1 Ha H1) as (t1' & H1' & Hp1 & _).
    destruct (Hback b t2 Hb H2) as (t2' & H2' & Hp2 & _). eapply Hu; [done|done|done|done|]. congruence.
  - intros a t' Ha Ht'. destruct (Hback a t' Ha Ht') as (t & Ht & _ & _ & Hp & _). rewrite Hp.
    destruct (Hpar a t Ha Ht) as [|(Hin & p & Ep & Hal)]; [by left|right]. split; [done|].
    destruct (Hk _ _ Hin Ep) as (p' & E & _ & _ & _ & H). exists p'. auto.
Qed.

Lemma inv_upd st l a g : sched_inv st l -> (forall t, keeps t (g t)) -> sched_inv (upd st a g) l.
Proof.
  intros I K. eapply inv_keeps; [exact I|done|done|done|]. intros b t Hb Ht. rewrite upd_lookup, Ht.
  case_bool_decide; [by exists (g t)|by exists t].
Qed.

Lemma inv_map st l l' g : sched_inv st l -> NoDup l' -> (forall t, keeps t (g t)) -> sched_inv (map_ring g st l') l.
Proof.
  intros I Hnd K. destruct (map_ring_frame g st l') as (E1 & E2 & E3 & _).
  eapply inv_keeps; [exact I|done|done|done|]. intros b t Hb Ht. rewrite map_ring_lookup, Ht by done.
  case_bool_decide; [by exists (g t)|by exists t].
Qed.

Lemma inv_emit st l es : sched_inv st l -> sched_inv (emit st es) l.
Proof. intros I. eapply inv_keeps; [exact I|done|done|done|]. intros b t Hb Ht. by exists t. Qed.

Lemma inv_set_curr st l c t : sched_inv st l -> c ∈ l -> s_tasks st !! c = Some t -> alive (t_state t) = true ->
  sched_inv (set_curr st c) l.
Proof. intros [R Hc Hca Hh Hpid Hu Hpar] Hin Ht Hal. split; try done; [by eapply ring_ext|by exists t]. Qed.

(** A task nobody calls its parent may become a zombie, unless it is the kernel's or current. *)
Lemma inv_zombie st l a code : sched_inv st l -> a ∈ l -> a <> g_head_tsk st -> a <> g_curr_tsk st ->
  (forall b t, b ∈ l -> s_tasks st !! b = Some t -> t_parent t <> a) ->
  sched_inv (upd st a (fun t => set_ret_val code (set_state ZOMBIE t))) l.
Proof.
  intros [R Hc Hca Hh Hpid Hu Hpar] Ha Hh' Hc' Hno. set (g := fun t => set_ret_val code (set_state ZOMBIE t)).
  assert (forall b t', s_tasks (upd st a g) !! b = Some t' -> exists t, s_tasks st !! b = Some t /\
    t_pid t' = t_pid t /\ t_parent t' = t_parent t) as Hback.
  { intros b t'. rewrite upd_lookup. case_bool_decide.
    - intros (t & Ht & ->)%fmap_Some. by exists t.
    - intros Ht. by exists t'. }
  assert (forall b, b <> a -> s_tasks (upd st a g) !! b = s_tasks st !! b) as Hne
    by (intros b Hb; by rewrite upd_lookup, bool_decide_eq_false_2 by congruence).
  split.
  - eapply ring_ext; [exact R|done|]. intros b Hb. rewrite upd_lookup. case_bool_decide; [|done].
    subst b. by destruct (s_tasks st !! a).
  - done.
  - rewrite Hne by (cbn; congruence). done.
  - rewrite Hne by (cbn; congruence). done.
  - intros b t' Hb Hbh Ht'. destruct (Hback b t' Ht') as (t & Ht & -> & _). by eapply Hpid.
  - intros b1 b2 t1 t2 Hb1 Hb2 H1 H2 E. destruct (Hback b1 t1 H1) as (t1' & H1' & E1 & _).
    destruct (Hback b2 t2 H2) as (t2' & H2' & E2 & _). eapply Hu; [exact Hb1|exact Hb2|done|done|]. congruence.
  - intros b t' Hb Ht'. destruct (Hback b t' Ht') as (t & Ht & _ & ->).
    pose proof (Hno b t Hb Ht). destruct (Hpar b t Hb Ht) as [|(Hin & p & Ep & Hal)]; [by left|right].
    split; [done|]. exists p. by rewrite Hne.
Qed.

(** *** Operations that keep the shape *)
Lemma clean_gui_spec st l a : sched_inv st l -> a ∈ l ->
  exists st', sched_clean_gui st a = Some st' /\ sched_inv st' l /\ g_head_tsk st' = g_head_tsk st /\ g_curr_tsk st' = g_curr_tsk st /\
    (forall b t, s_tasks st !! b = Some t -> exists t', s_tasks st' !! b = Some t' /\ keeps t t' /\ t_state t' = t_state t).
Proof.
  intros I Ha. destruct (ring_lookup _ _ _ (si_ring _ _ I) Ha) as [t Ht]. unfold sched_clean_gui. rewrite Ht.
  cbn [mbind option_bind]. eexists. split; [done|]. destruct (t_win t =? 0); [split_and!; [done|done|done|intros b tb Hb; by exists tb]|].
  assert (forall st0, sched_inv st0 l -> sched_inv (upd st0 a (set_win 0)) l) as Hi by (intros; by apply inv_upd).
  split_and!.
  - apply Hi. destruct (owns_window st t); [by apply inv_emit|done].
  - by destruct (owns_window st t).
  - by destruct (owns_window st t).
  - intros b tb Hb. rewrite upd_lookup.
    assert (s_tasks (if owns_window st t then emit st [WinClose (t_win t)] else st) = s_tasks st) as -> by (by destruct (owns_window st t)).
    rewrite Hb. case_bool_decide; [by exists (set_win 0 tb)|by exists tb].
Qed.

Lemma clean_fds_spec st l a : sched_inv st l -> a ∈ l ->
  exists st', sched_clean_fds st a = Some st' /\ sched_inv st' l /\ g_head_tsk st' = g_head_tsk st /\ g_curr_tsk st' = g_curr_tsk st /\
    (forall b t, s_tasks st !! b = Some t -> exists t', s_tasks st' !! b = Some t' /\ keeps t t' /\ t_state t' = t_state t).
Proof.
  intros I Ha. destruct (ring_lookup _ _ _ (si_ring _ _ I) Ha) as [t Ht]. unfold sched_clean_fds. rewrite Ht.
  cbn [mbind option_bind]. eexists. split; [done|]. split_and!; [|done|done|].
  - apply inv_upd; [by apply inv_emit|done].
  - intros b tb Hb. rewrite upd_lookup. change (s_tasks (emit st ?es)) with (s_tasks st). rewrite Hb.
    case_bool_decide; [by eexists|by exists tb].
Qed.

(** What [sched_reparent_children_locked] does to a task. *)
Definition reparented (owner : bool) (a head : Z) (t : Task) : Task :=
  if t_parent t =? a then
    let t := set_parent head t in
    if owner && negb (t_pid t =? 0) && alive (t_state t)
    then set_state READY (set_pending (Z.lor (t_pending t) SIGINT_BIT) t) else t
  else t.

Lemma reparented_next o a h t : t_next (reparented o a h t) = t_next t.
Proof. unfold reparented. destruct (_ =? a); [|done]. by destruct (_ && _). Qed.

Lemma reparented_keeps o a h t : t_pid (reparented o a h t) = t_pid t /\
  (alive (t_state t) = true -> alive (t_state (reparented o a h t)) = true) /\
  (t_state t = ZOMBIE -> t_state (reparented o a h t) = ZOMBIE) /\
  t_parent (reparented o a h t) = if t_parent t =? a then h else t_parent t.
Proof.
  unfold reparented. destruct (_ =? a); [|done]. cbv zeta. destruct (_ && _) eqn:E; [|done].
  split_and!; [done|done| |done]. intros Hz. cbn in E. rewrite Hz in E. by rewrite andb_false_r in E.
Qed.

Lemma reparent_spec st l a t fuel : sched_inv st l -> (length l <= fuel)%nat -> a ∈ l -> a <> g_head_tsk st ->
  s_tasks st !! a = Some t ->
  let st' := map_ring (reparented (owns_window st t) a (g_head_tsk st)) st l in
  sched_reparent_children_locked fuel st a = Some st' /\ sched_inv st' l /\
  g_head_tsk st' = g_head_tsk st /\ g_curr_tsk st' = g_curr_tsk st /\
  (forall b t, b ∈ l -> s_tasks st' !! b = Some t -> t_parent t <> a).
Proof.
  intros I Hf Ha Hne Ht. pose proof (si_ring _ _ I) as R. pose proof (ring_head_nz _ _ R) as [Hnz Hhl]. cbv zeta.
  set (g := reparented (owns_window st t) a (g_head_tsk st)). set (st' := map_ring g st l).
  destruct (map_ring_frame g st l) as (E1 & E2 & E3 & _). fold st' in E1, E2, E3.
  assert (forall b, b ∈ l -> s_tasks st' !! b = g <$> s_tasks st !! b) as Hl'.
  { intros b Hb. unfold st'. rewrite map_ring_lookup by apply R. by rewrite bool_decide_eq_true_2. }
  split; [|split_and!; [|done|done|]].
  - unfold sched_reparent_children_locked. rewrite (proj2 (Z.eqb_neq _ _)) by done. rewrite Ht. cbn [mbind option_bind].
    apply run_ring_map; [done|done|intros; apply reparented_next|]. intros st0 b tb Eh Hb. unfold reparent_body. f_equal.
    unfold upd, g, reparented. rewrite Eh. destruct (Z.eqb_spec (t_parent tb) a) as [E|E].
    + f_equal. apply alter_ext. intros x Hx. rewrite Hb in Hx. injection Hx as <-.
      by rewrite (proj2 (Z.eqb_eq (t_parent tb) a)).
    + destruct st0 as [ts hd0 cu np wi lo]. cbn [s_tasks g_head_tsk] in *. f_equal; [|done]. symmetry. apply alter_id.
      intros x Hx. rewrite Hb in Hx. injection Hx as <-. by rewrite (proj2 (Z.eqb_neq (t_parent tb) a)).
  - destruct I as [_ Hc Hca Hh Hpid Hu Hpar]. split; rewrite ?E1, ?E2, ?E3.
    + eapply ring_ext; [exact R|done|]. intros b Hb. rewrite Hl' by done. destruct (s_tasks st !! b); [|done]. cbn.
      f_equal. apply reparented_next.
    + done.
    + destruct Hca as (c & Ec & Hal). exists (g c). rewrite Hl', Ec by done. split; [done|]. by apply reparented_keeps.
    + destruct Hh as (h & Eh & Hp & Hal). exists (g h). rewrite Hl', Eh by done. split; [done|].
      destruct (reparented_keeps (owns_window st t) a (g_head_tsk st) h) as (Ep & Hk & _). fold g in Ep, Hk. split; [congruence|by apply Hk].
    + intros b t' Hb Hbh. rewrite Hl' by done. intros (tb & Htb & ->)%fmap_Some.
      destruct (reparented_keeps (owns_window st t) a (g_head_tsk st) tb) as (Ep & _). fold g in Ep. rewrite Ep. by eapply Hpid.
    + intros b1 b2 t1 t2 Hb1 Hb2. rewrite !Hl' by done. intros (x1 & H1 & ->)%fmap_Some (x2 & H2 & ->)%fmap_Some E.
      unfold g in E. rewrite !(proj1 (reparented_keeps _ _ _ _)) in E. by eapply Hu.
    + intros b t' Hb. rewrite Hl' by done. intros (tb & Htb & ->)%fmap_Some.
      destruct (reparented_keeps (owns_window st t) a (g_head_tsk st) tb) as (_ & _ & _ & Ep). fold g in Ep. rewrite Ep.
      destruct (Z.eqb_spec (t_parent tb) a).
      * right. split; [done|]. destruct Hh as (h & Eh & _ & Hal). exists (g h). rewrite Hl', Eh by done. split; [done|].
        by apply reparented_keeps.
      * destruct (Hpar b tb Hb Htb) as [|(Hin & p & Epp & Hal)]; [by left|right]. split; [done|].
        exists (g p). rewrite Hl', Epp by done. split; [done|]. by apply reparented_keeps.
  - intros b t' Hb. rewrite Hl' by done. intros (tb & _ & ->)%fmap_Some.
    destruct (reparented_keeps (owns_window st t) a (g_head_tsk st) tb) as (_ & _ & _ & Ep). fold g in Ep. rewrite Ep.
    destruct (Z.eqb_spec (t_parent tb) a); [congruence|done].
Qed.
End Inv.

(** ** Choosing *)

(** The first task of a list that is ready. *)
Definition first_ready (ts : gmap Z Task) (l : list Z) : option Z :=
  List.find (fun a => bool_decide (t_state <$> ts !! a = Some READY)) l.

(** The ring from the task after [c] round to [c] itself. *)
Definition after (l : list Z) (c : Z) : list Z :=
  match List.find (fun p => bool_decide (p.2 = c)) (imap (fun i x => (i, x)) l) with
  | Some (i, _) => drop (S i) l ++ take (S i) l
  | None => []
  end.

Section Pick.
Implicit Types (st : sched) (l m : list Z) (a b c : Z) (t : Task).

Lemma first_ready_Some ts l a : first_ready ts l = Some a -> a ∈ l /\ exists t, ts !! a = Some t /\ t_state t = READY.
Proof.
  unfold first_ready. induction l as [|x l IH]; cbn [List.find]; [done|]. case_bool_decide as E.
  - intros [= <-]. split; [by constructor|]. apply fmap_Some in E as (t & ? & ?). by exists t.
  - intros [? ?]%IH. split; [by constructor|done].
Qed.

Lemma find_imap l1 l2 c k : c ∉ l1 ->
  List.find (fun p => bool_decide (p.2 = c)) (imap (fun i x => ((k + i)%nat, x)) (l1 ++ c :: l2)) = Some ((k + length l1)%nat, c).
Proof.
  revert k. induction l1 as [|x l1 IH]; intros k Hc; cbn [app imap List.find length].
  - cbn [snd]. by rewrite bool_decide_eq_true_2.
  - apply not_elem_of_cons in Hc as [Hx Hc]. cbn [snd]. rewrite bool_decide_eq_false_2 by congruence.
    rewrite (imap_ext _ (fun i x => ((S k + i)%nat, x))) by (intros; cbn; f_equal; lia). rewrite IH by done. do 2 f_equal. lia.
Qed.

Lemma after_app l1 l2 c : c ∉ l1 -> after (l1 ++ c :: l2) c = l2 ++ l1 ++ [c].
Proof.
  intros Hc. unfold after. rewrite (find_imap l1 l2 c 0 Hc : List.find _ (imap (fun i x => (i, x)) _) = _). cbn [Nat.add].
  assert (l1 ++ c :: l2 = (l1 ++ [c]) ++ l2) as E by (by rewrite <- app_assoc).
  assert (length (l1 ++ [c]) = S (length l1)) as El by (rewrite length_app; simpl; lia).
  rewrite E at 1. rewrite <- El, drop_app_length. by rewrite E, take_app_length.
Qed.

(** The ring can be entered anywhere. *)
Lemma ring_rotate st l1 l2 c : ring st (l1 ++ c :: l2) ->
  path (s_tasks st) (l2 ++ l1 ++ [c]) (hd c (l2 ++ l1)) /\ (c ∉ l1) /\ (c ∉ l2) /\
  NoDup (l2 ++ l1 ++ [c]) /\ (0 ∉ l2 ++ l1 ++ [c]).
Proof.
  intros [Hp Hnd Hh H0]. assert (c ∉ l1 /\ c ∉ l2) as [Hc1 Hc2].
  { apply NoDup_app in Hnd as (_ & Hd & [? _]%NoDup_cons). split; [|done]. intros Hin. apply (Hd c Hin). by constructor. }
  assert (l1 ++ c :: l2 ≡ₚ l2 ++ l1 ++ [c]) as P by (rewrite (Permutation_app_comm l2), <- app_assoc; done).
  split_and!; [|done|done|by rewrite <- P|by rewrite <- P].
  apply path_app in Hp as [Hp1 Hp2]. cbn [hd path] in Hp1, Hp2. destruct Hp2 as [Hc Hp2].
  assert (g_head_tsk st = hd c l1) as Eh by (destruct l1; cbn in Hh; by injection Hh).
  rewrite Eh in Hp2, Hc. rewrite !path_app, !hd_app. cbn [hd path]. split_and!; [|done|done|done].
  destruct l2 as [|y l2]; [done|]. exact Hp2.
Qed.

Lemma pick_loop_spec fuel st m start : path (s_tasks st) m start -> start ∉ tail m -> 0 ∉ m -> start <> 0 -> m <> [] ->
  (length m <= fuel)%nat ->
  pick_loop fuel st (hd 0 m) start = Some (default (g_head_tsk st) (first_ready (s_tasks st) m)).
Proof.
  revert m. induction fuel as [|n IH]; intros [|x m] Hp Hs H0 Hs0 Hne Hf; [done|simpl in Hf; lia|done|].
  destruct Hp as [(t & Ht & Hn) Hp]. cbn [pick_loop hd]. rewrite Ht. cbn [mbind option_bind]. unfold first_ready. cbn [List.find].
  rewrite Ht. cbn [fmap option_fmap option_map]. destruct (decide (t_state t = READY)) as [E|E].
  - rewrite bool_decide_eq_true_2 by congruence. done.
  - rewrite bool_decide_eq_false_2 by congruence. fold (first_ready (s_tasks st) m). cbn [tail] in Hs.
    apply not_elem_of_cons in H0 as [_ H0]. destruct m as [|y m].
    + cbn in Hn. rewrite Hn, (proj2 (Z.eqb_neq start 0)), Z.eqb_refl by done. done.
    + cbn [hd] in Hn. assert (y <> start) by (intros ->; apply Hs; by constructor).
      assert (y <> 0) by (intros ->; apply H0; by constructor).
      rewrite Hn, (proj2 (Z.eqb_neq y 0)), (proj2 (Z.eqb_neq y start)) by done.
      apply (IH (y :: m)); [done| |done|done|done|simpl in *; lia]. cbn [tail]. intros Hin. apply Hs. by constructor.
Qed.

Lemma exit_pick_spec fuel st m a : path (s_tasks st) m a -> a ∉ m -> m <> [] -> (length m <= fuel)%nat ->
  exit_pick fuel st (hd 0 m) a = Some (default (g_head_tsk st) (first_ready (s_tasks st) m)).
Proof.
  revert m. induction fuel as [|n IH]; intros [|x m] Hp Ha Hne Hf; [done|simpl in Hf; lia|done|].
  destruct Hp as [(t & Ht & Hn) Hp]. cbn [exit_pick hd]. rewrite Ht. cbn [mbind option_bind]. unfold first_ready. cbn [List.find].
  rewrite Ht. cbn [fmap option_fmap option_map]. destruct (decide (t_state t = READY)) as [E|E].
  - rewrite bool_decide_eq_true_2 by congruence. done.
  - rewrite bool_decide_eq_false_2 by congruence. fold (first_ready (s_tasks st) m).
    apply not_elem_of_cons in Ha as [Hx Ha]. destruct m as [|y m].
    + cbn in Hn. rewrite Hn, Z.eqb_refl. done.
    + cbn [hd] in Hn. assert (y <> a) by (intros ->; apply Ha; by constructor).
      rewrite Hn, (proj2 (Z.eqb_neq y a)) by done. apply (IH (y :: m)); [done|done|done|simpl in *; lia].
Qed.

Lemma schedule_pick_spec st l fuel : sched_inv st l -> (length l <= fuel)%nat ->
  schedule_pick fuel st = Some (default (g_head_tsk st) (first_ready (s_tasks st) (after l (g_curr_tsk st)))).
Proof.
  intros I Hf. pose proof (si_ring _ _ I) as R. pose proof (si_curr _ _ I) as Hc.
  apply list_elem_of_split in Hc as (l1 & l2 & ->). destruct (ring_rotate _ _ _ _ R) as (Hp & Hc1 & Hc2 & Hnd & H0).
  set (c := g_curr_tsk st) in *. rewrite after_app by done. unfold schedule_pick. fold c.
  assert (c <> 0) by (intros ->; apply H0; set_solver). rewrite (proj2 (Z.eqb_neq c 0)) by done.
  rewrite app_assoc in Hp. pose proof Hp as [_ [(t & Ht & Hn) _]]%path_app. rewrite Ht. cbn [mbind option_bind].
  cbn [hd] in Hn. rewrite Hn. rewrite <- app_assoc in Hp. set (m := l2 ++ l1 ++ [c]) in *.
  assert (hd c (l2 ++ l1) = hd 0 m) as E by (unfold m; rewrite !hd_app; by destruct l2, l1).
  assert (m <> []) as Hm by (unfold m; intros Hm; by apply app_eq_nil in Hm as [_ [_ ?]%app_eq_nil]).
  assert (hd 0 m <> 0) as Hh0 by (destruct m as [|x m']; [done|]; cbn; intros ->; apply H0; by constructor).
  rewrite E in *. rewrite (proj2 (Z.eqb_neq (hd 0 m) 0)) by done.
  apply pick_loop_spec; [done| |done|done|done|].
  - destruct m as [|x m']; [done|]. cbn [hd tail]. by apply NoDup_cons in Hnd as [? _].
  - unfold m. rewrite !length_app in *. simpl in *. lia.
Qed.

Lemma elem_after l c x : c ∈ l -> NoDup l -> x ∈ after l c <-> x ∈ l.
Proof.
  intros (l1 & l2 & ->)%list_elem_of_split Hnd. apply NoDup_app in Hnd as (_ & Hd & [Hc2 _]%NoDup_cons).
  rewrite after_app by (intros Hin; apply (Hd c Hin); by constructor). set_solver.
Qed.
End Pick.
