(* ===== verification/SchedOps.v ===== *)
(** Every operation of the scheduler keeps its invariant, [src/src/sched/sched.c].

    For each operation: it returns (the walks over the ring end), what it does to the
    tasks, and [sched_inv] afterwards.  [sched_run_ok] puts them together for all
    sequences of operations. *)
From S2P Require Import Prelude Sched SchedInv.

Definition zeroed (t : Task) : Task := set_fd_tbl ((fun _ => 0) <$> fd_tbl (t_res t)) t.

(** What a task gives back when it ends: its window, if it owns it, and its open files. *)
Definition end_effects (st : sched) (t : Task) : list sched_effect :=
  when (owns_window st t) [WinClose (t_win t)] ++ (VfsClose <$> filter (fun x => x <> 0) (fd_tbl (t_res t))).

Section Ops.
Implicit Types (st : sched) (l m : list Z) (a b c : Z) (t : Task).

Lemma sched_eta st : Sched (s_tasks st) (g_head_tsk st) (g_curr_tsk st) (g_next_pid st) (s_windows st) (s_log st) = st.
Proof. by destruct st. Qed.

Lemma upd_id st a f t : s_tasks st !! a = Some t -> f t = t -> upd st a f = st.
Proof.
  intros Ht Hf. unfold upd. rewrite alter_id; [apply sched_eta|]. intros x Hx. congruence.
Qed.

Lemma emit_nil st : emit st [] = st.
Proof. unfold emit. rewrite app_nil_r. apply sched_eta. Qed.

Lemma clean_gui_eq st a t : s_tasks st !! a = Some t ->
  sched_clean_gui st a = Some (upd (emit st (when (owns_window st t) [WinClose (t_win t)])) a (set_win 0)).
Proof.
  intros Ht. unfold sched_clean_gui. rewrite Ht. cbn [mbind option_bind]. f_equal. destruct (Z.eqb_spec (t_win t) 0) as [E|E].
  - unfold owns_window. rewrite E. cbn [Z.eqb negb andb when]. rewrite emit_nil. symmetry. eapply upd_id; [exact Ht|].
    destruct t. cbn in *. by subst.
  - unfold when. destruct (owns_window st t); [done|by rewrite emit_nil].
Qed.

Lemma emit_emit st e1 e2 : emit (emit st e1) e2 = emit st (e1 ++ e2).
Proof. unfold emit. cbn. by rewrite app_assoc. Qed.

Lemma upd_upd st a f g : upd (upd st a f) a g = upd st a (fun t => g (f t)).
Proof.
  unfold upd. cbn. f_equal. apply map_eq. intros i. destruct (decide (i = a)) as [->|].
  - rewrite !lookup_alter_eq. by destruct (s_tasks st !! a).
  - by rewrite !lookup_alter_ne by done.
Qed.

Lemma find_ext_in {X} (p q : X -> bool) (xs : list X) : (forall x, x ∈ xs -> p x = q x) -> List.find p xs = List.find q xs.
Proof.
  induction xs as [|x xs IH]; intros H; cbn [List.find]; [done|]. rewrite H by (by constructor).
  rewrite IH; [done|]. intros. apply H. by constructor.
Qed.

(** Both clean-ups of a task. *)
Lemma clean_eq st a t : s_tasks st !! a = Some t ->
  (st ← sched_clean_gui st a; sched_clean_fds st a) = Some (upd (emit st (end_effects st t)) a (fun t => zeroed (set_win 0 t))).
Proof.
  intros Ht. rewrite (clean_gui_eq st a t Ht). cbn [mbind option_bind]. unfold sched_clean_fds.
  rewrite upd_lookup, bool_decide_eq_true_2 by done. change (s_tasks (emit st ?e)) with (s_tasks st). rewrite Ht.
  cbn [fmap option_fmap option_map mbind option_bind]. f_equal.
  change (emit (upd ?s a ?f) ?e) with (upd (emit s e) a f). rewrite emit_emit, upd_upd. done.
Qed.

Lemma keeps_clean t : keeps t (zeroed (set_win 0 t)).
Proof. done. Qed.

(** *** [sched_exit] *)

(** What becomes of another task when [a], with parent [p], ends. *)
Definition after_exit (a p head b : Z) (t : Task) : Task :=
  let t := if t_parent t =? a then set_parent head t else t in
  if (b =? p) && negb (p =? 0) && alive (t_state t) then set_state READY t else t.

Lemma exit_spec st l t code fuel : sched_inv st l -> (length l <= fuel)%nat ->
  s_tasks st !! g_curr_tsk st = Some t -> t_pid t <> 0 ->
  let a := g_curr_tsk st in
  exists st', sched_exit fuel st code = Some st' /\ sched_inv st' l /\
    g_head_tsk st' = g_head_tsk st /\ g_next_pid st' = g_next_pid st /\
    g_curr_tsk st' = default (g_head_tsk st) (first_ready (s_tasks st) (removelast (after l a))) /\
    s_log st' = s_log st ++ end_effects st t /\
    (exists t', s_tasks st' !! a = Some t' /\ t_state t' = ZOMBIE /\ t_ret_val t' = code /\ t_win t' = 0 /\
       t_pid t' = t_pid t /\ t_pending t' = t_pending t) /\
    (forall b tb, b ∈ l -> b <> a -> s_tasks st !! b = Some tb ->
       s_tasks st' !! b = Some (after_exit a (if t_parent t =? a then g_head_tsk st else t_parent t) (g_head_tsk st) b tb)).
Proof.
  intros I Hf Ht Hpid a. pose proof (si_ring _ _ I) as R. pose proof (si_curr _ _ I) as Ha. fold a in Ht, Ha.
  assert (a <> g_head_tsk st) as Hah.
  { intros E. destruct (si_head _ _ I) as (h & Eh & Hp & _). rewrite <- E in Eh. congruence. }
  unfold sched_exit. fold a. rewrite Ht. cbn [mbind option_bind]. rewrite (proj2 (Z.eqb_neq (t_pid t) 0)) by done.
  pose proof (clean_eq st a t Ht) as Ecl. destruct (sched_clean_gui st a) as [stg|] eqn:Eg; [|done]. cbn [mbind option_bind] in *.
  rewrite Ecl. cbn [mbind option_bind]. set (st2 := upd (emit st (end_effects st t)) a (fun t => zeroed (set_win 0 t))).
  assert (sched_inv st2 l) as I2 by (apply inv_upd; [by apply inv_emit|exact keeps_clean]).
  assert (forall b, s_tasks st2 !! b = if bool_decide (a = b) then (fun t => zeroed (set_win 0 t)) <$> s_tasks st !! b else s_tasks st !! b) as L2
    by (intros b; unfold st2; by rewrite upd_lookup).
  assert (s_tasks st2 !! a = Some (zeroed (set_win 0 t))) as Ht2 by (by rewrite L2, bool_decide_eq_true_2, Ht).
  destruct (reparent_spec st2 l a _ fuel I2 Hf Ha Hah Ht2) as (-> & I3 & E3h & E3c & Hno). cbn [mbind option_bind].
  change (owns_window st2 (zeroed (set_win 0 t))) with false in *. set (g := reparented false a (g_head_tsk st2)) in *.
  set (st3 := map_ring g st2 l) in *. change (g_head_tsk st2) with (g_head_tsk st) in E3h. change (g_curr_tsk st2) with a in E3c.
  assert (forall b, b ∈ l -> s_tasks st3 !! b = g <$> s_tasks st2 !! b) as L3
    by (intros b Hb; unfold st3; rewrite map_ring_lookup by apply R; by rewrite bool_decide_eq_true_2).
  (* the next task *)
  pose proof Ha as (l1 & l2 & El)%list_elem_of_split. pose proof (si_ring _ _ I3) as R3. rewrite El in R3.
  destruct (ring_rotate _ _ _ _ R3) as (Hp3 & Hc1 & Hc2 & Hnd & H0).
  assert (l2 ++ l1 <> []) as Hm.
  { intros [-> ->]%app_eq_nil. pose proof (r_head _ _ R3) as E. cbn [app head] in E. injection E as E. congruence. }
  assert (removelast (after l a) = l2 ++ l1) as Erm by (rewrite El, after_app, app_assoc by done; apply removelast_last).
  rewrite app_assoc in Hp3. pose proof Hp3 as [Hp3a [(t3 & Ht3 & Hn3) _]]%path_app. cbn [hd] in Hp3a, Hn3.
  assert (t_next t = hd 0 (l2 ++ l1)) as En.
  { rewrite L3, Ht2 in Ht3 by done. injection Ht3 as <-. unfold g in Hn3. rewrite reparented_next in Hn3.
    change (t_next (zeroed (set_win 0 t))) with (t_next t) in Hn3. rewrite Hn3. by destruct (l2 ++ l1). }
  rewrite En, (exit_pick_spec fuel st3 (l2 ++ l1) a); [|done|set_solver|done|rewrite El in Hf; rewrite !length_app in *; simpl in *; lia].
  cbn [mbind option_bind].
  assert (first_ready (s_tasks st3) (l2 ++ l1) = first_ready (s_tasks st) (l2 ++ l1)) as Efr.
  { unfold first_ready. apply find_ext_in. intros b Hb. assert (b ∈ l) as Hbl by (rewrite El; set_solver).
    assert (b <> a) by (intros ->; set_solver). rewrite L3, L2, (bool_decide_eq_false_2 (a = b)) by (done || congruence).
    apply bool_decide_ext. destruct (s_tasks st !! b) as [tb|]; [|done]. cbn.
    assert (t_state (g tb) = t_state tb) as ->; [|done]. unfold g, reparented. by destruct (_ =? a). }
  rewrite Efr. set (nx := default (g_head_tsk st3) _).
  rewrite (proj2 (Z.eqb_neq (g_head_tsk st3) a)) by congruence.
  assert (nx ∈ l /\ nx <> a /\ exists tn, s_tasks st3 !! nx = Some tn /\ alive (t_state tn) = true) as (Hnl & Hna & tn & Htn & Haln).
  { unfold nx. destruct (first_ready (s_tasks st) (l2 ++ l1)) as [b|] eqn:Eb; cbn.
    - apply first_ready_Some in Efr as (Hb & tb & Htb & Hs). split_and!.
      + rewrite El. set_solver.
      + intros ->. set_solver.
      + exists tb. split; [done|]. by rewrite Hs.
    - destruct (si_head _ _ I3) as (h & Eh & _ & Hal). split_and!; [|congruence|by exists h].
      apply (ring_head_nz _ _ (si_ring _ _ I3)). }
  pose proof (inv_set_curr st3 l nx tn I3 Hnl Htn Haln) as I4. set (st4 := set_curr st3 nx) in *.
  assert (sched_inv (upd st4 a (fun t => set_ret_val code (set_state ZOMBIE t))) l) as I5.
  { apply inv_zombie; [done|done|cbn; congruence|cbn; congruence|done]. }
  set (st5 := upd st4 a _) in *.
  assert (s_tasks st5 !! a = Some (set_ret_val code (set_state ZOMBIE (g (zeroed (set_win 0 t)))))) as Ht5.
  { unfold st5. rewrite upd_lookup, bool_decide_eq_true_2 by done. change (s_tasks st4) with (s_tasks st3).
    rewrite L3, Ht2 by done. done. }
  rewrite Ht5. cbn [mbind option_bind].
  set (p := if t_parent t =? a then g_head_tsk st else t_parent t).
  assert (t_parent (set_ret_val code (set_state ZOMBIE (g (zeroed (set_win 0 t))))) = p) as ->.
  { cbn [set_ret_val set_state t_parent]. unfold g. by rewrite (proj2 (proj2 (proj2 (reparented_keeps _ _ _ _)))). }
  assert (p <> a) as Hpa by (unfold p; destruct (Z.eqb_spec (t_parent t) a); congruence).
  eexists. split; [done|].
  assert (forall s, g_head_tsk (wake_parent s p) = g_head_tsk s /\ g_next_pid (wake_parent s p) = g_next_pid s /\
    g_curr_tsk (wake_parent s p) = g_curr_tsk s /\ s_log (wake_parent s p) = s_log s) as Hw
    by (intros s; unfold wake_parent; by destruct (p =? 0)).
  destruct (Hw st5) as (W1 & W2 & W3 & W4). destruct (map_ring_frame g st2 l) as (_ & _ & M3 & _ & M5).
  assert (forall b, b <> a -> b ∈ l -> s_tasks st5 !! b = g <$> s_tasks st !! b) as L5.
  { intros b Hb Hbl. unfold st5. rewrite upd_lookup, bool_decide_eq_false_2 by congruence. change (s_tasks st4) with (s_tasks st3).
    by rewrite L3, L2, bool_decide_eq_false_2 by (done || congruence). }
  split_and!.
  - unfold wake_parent. destruct (p =? 0); [done|]. apply inv_upd; [done|]. intros x. destruct (alive (t_state x)) eqn:Ex; [|done].
    split_and!; (done || intros; done).
  - rewrite W1. exact E3h.
  - rewrite W2. exact M3.
  - rewrite W3. change (g_curr_tsk st5) with nx. unfold nx. by rewrite E3h, Erm.
  - rewrite W4. exact M5.
  - exists (set_ret_val code (set_state ZOMBIE (g (zeroed (set_win 0 t))))). split.
    + unfold wake_parent. destruct (p =? 0); [done|]. by rewrite upd_lookup, bool_decide_eq_false_2.
    + unfold g, reparented. cbn. by destruct (t_parent t =? a).
  - intros b tb Hbl Hb Htb. unfold wake_parent, after_exit. destruct (Z.eqb_spec p 0) as [E0|E0]; cbn [negb].
    + rewrite andb_false_r. cbn [andb]. rewrite L5, Htb by done. unfold g, reparented. cbn. by destruct (t_parent tb =? a).
    + rewrite andb_true_r, upd_lookup, L5, Htb by done. cbn [fmap option_fmap option_map].
      assert (g tb = if t_parent tb =? a then set_parent (g_head_tsk st) tb else tb) as ->
        by (unfold g, reparented; by destruct (t_parent tb =? a)).
      destruct (Z.eqb_spec b p) as [->|Hbp].
      * rewrite bool_decide_eq_true_2 by done. cbn [andb]. done.
      * rewrite bool_decide_eq_false_2 by congruence. done.
Qed.
End Ops.

Section Ops2.
Implicit Types (st : sched) (l m : list Z) (a b c : Z) (t : Task).

Lemma wake_keeps t : keeps t (if alive (t_state t) then set_state READY t else t).
Proof. destruct (alive (t_state t)); [|done]. split_and!; (done || intros; done). Qed.

Lemma inv_wake_parent st l p : sched_inv st l -> sched_inv (wake_parent st p) l.
Proof. intros I. unfold wake_parent. destruct (p =? 0); [done|]. apply inv_upd; [done|exact wake_keeps]. Qed.

(** Killing another task: the same end, by someone else. *)
Lemma kill_spec st l pid fuel : sched_inv st l -> (length l <= fuel)%nat ->
  exists st', sched_kill fuel st pid = Some st' /\ sched_inv st' l /\ g_head_tsk st' = g_head_tsk st /\ g_next_pid st' = g_next_pid st.
Proof.
  intros I Hf. pose proof (si_ring _ _ I) as R. unfold sched_kill. destruct (Z.leb_spec pid 0); [by exists st|].
  destruct (si_curr_alive _ _ I) as (c & Ec & _). rewrite Ec. cbn [mbind option_bind]. destruct (Z.eqb_spec pid (t_pid c)) as [E|E].
  { destruct (exit_spec st l c (-1) fuel I Hf Ec ltac:(lia)) as (st' & -> & I' & ? & ? & _). by exists st'. }
  rewrite (find_task_spec st l pid fuel R Hf). cbn [mbind option_bind].
  destruct (find_pid (s_tasks st) l pid) as [a|] eqn:Ef; [|by exists st]. change (default 0 (Some a)) with a.
  destruct (find_pid_Some _ _ _ _ Ef) as (Ha & t & Ht & Hp).
  assert (a <> 0) by (intros ->; by apply (r_null _ _ R)). rewrite (proj2 (Z.eqb_neq a 0)), Ht by done. cbn [mbind option_bind].
  destruct (alive (t_state t)) eqn:Eal; cbn [negb]; [|by exists st].
  assert (a <> g_curr_tsk st) as Hac by (intros ->; congruence).
  assert (a <> g_head_tsk st) as Hah.
  { intros ->. destruct (si_head _ _ I) as (h & Eh & Hp0 & _). simplify_eq. lia. }
  destruct (reparent_spec st l a t fuel I Hf Ha Hah Ht) as (-> & I1 & E1h & E1c & Hno). cbn [mbind option_bind].
  set (st1 := map_ring _ st l) in *. destruct (map_ring_frame (reparented (owns_window st t) a (g_head_tsk st)) st l) as (_ & _ & E1p & _).
  assert (sched_inv (upd st1 a (fun t => set_ret_val (-1) (set_state ZOMBIE t))) l) as I2
    by (apply inv_zombie; [done|done|congruence|congruence|done]). set (st2 := upd st1 a _) in *.
  destruct (ring_lookup _ _ _ (si_ring _ _ I2) Ha) as [t2 Ht2]. rewrite Ht2. cbn [mbind option_bind].
  pose proof (inv_wake_parent st2 l (t_parent t2) I2) as I3. set (st3 := wake_parent st2 (t_parent t2)) in *.
  destruct (ring_lookup _ _ _ (si_ring _ _ I3) Ha) as [t3 Ht3].
  pose proof (clean_eq st3 a t3 Ht3) as Ecl. destruct (sched_clean_gui st3 a); [|done]. cbn [mbind option_bind] in *.
  rewrite Ecl. eexists. split; [done|]. split.
  - apply inv_upd; [by apply inv_emit|exact keeps_clean].
  - assert (forall p, g_head_tsk (wake_parent st2 p) = g_head_tsk st2 /\ g_next_pid (wake_parent st2 p) = g_next_pid st2) as Hw
      by (intros p; unfold wake_parent; by destruct (p =? 0)).
    destruct (Hw (t_parent t2)) as [W1 W2].
    split; [exact (eq_trans W1 E1h)|exact (eq_trans W2 E1p)].
Qed.

Lemma deliver_spec st l fuel : sched_inv st l -> (length l <= fuel)%nat ->
  exists st', deliver_sigint fuel st = Some st' /\ sched_inv st' l /\ g_head_tsk st' = g_head_tsk st /\ g_next_pid st' = g_next_pid st.
Proof.
  intros I Hf. unfold deliver_sigint. destruct (si_curr_alive _ _ I) as (c & Ec & _). rewrite Ec. cbn [mbind option_bind].
  destruct (Z.eqb_spec (t_pid c) 0) as [E|E]; cbn [negb andb]; [by exists st|]. destruct (_ =? 0); cbn [negb]; [by exists st|].
  set (f := fun t => set_pending (Z.land (t_pending t) (Z.lnot SIGINT_BIT)) t).
  assert (sched_inv (upd st (g_curr_tsk st) f) l) as I1 by (by apply inv_upd).
  destruct (exit_spec (upd st (g_curr_tsk st) f) l (f c) 0 fuel I1 Hf) as (st' & -> & I' & ? & ? & _); [|done|by exists st'].
  change (g_curr_tsk (upd st ?a f)) with (g_curr_tsk st). by rewrite upd_lookup, bool_decide_eq_true_2, Ec.
Qed.

Lemma schedule_spec st l fuel : sched_inv st l -> (length l <= fuel)%nat ->
  exists st', schedule fuel st = Some st' /\ sched_inv st' l /\ g_head_tsk st' = g_head_tsk st /\ g_next_pid st' = g_next_pid st.
Proof.
  intros I Hf. pose proof (si_ring _ _ I) as R. pose proof (ring_head_nz _ _ R) as [Hnz Hhl]. unfold schedule.
  rewrite (proj2 (Z.eqb_neq _ _)), (schedule_pick_spec st l fuel I Hf) by done. cbn [mbind option_bind].
  set (nx := default (g_head_tsk st) _).
  assert (nx ∈ l /\ exists t, s_tasks st !! nx = Some t /\ alive (t_state t) = true) as (Hl & t & Ht & Hal).
  { unfold nx. destruct (first_ready _ _) as [b|] eqn:Eb; cbn.
    - apply first_ready_Some in Eb as (Hb & tb & Htb & Hs). split; [|exists tb; by rewrite Hs].
      apply (elem_after l (g_curr_tsk st)); [apply I|apply R|done].
    - split; [done|]. destruct (si_head _ _ I) as (h & Eh & _ & Hal). by exists h. }
  destruct ((nx =? 0) || (nx =? g_curr_tsk st)); [by apply deliver_spec|].
  eexists. split; [done|]. split_and!; [|done|done]. by eapply inv_set_curr.
Qed.

(** *** [sched_block] *)
Lemma first_ready_ext ts ts' l : (forall a, a ∈ l -> ts' !! a = ts !! a) -> first_ready ts' l = first_ready ts l.
Proof.
  intros H. unfold first_ready. induction l as [|x l IH]; [done|]. cbn [List.find]. rewrite H by by left. destruct (bool_decide _); [done|]. apply IH. intros a Ha. apply H. by right.
Qed.

Lemma first_ready_snoc ts l c t : ts !! c = Some t -> t_state t <> READY -> first_ready ts (l ++ [c]) = first_ready ts l.
Proof.
  intros Hc Hr. unfold first_ready. induction l as [|x l IH]; cbn [app List.find]; [|by destruct (bool_decide _)].
  rewrite Hc. rewrite bool_decide_eq_false_2; [done|]. cbn. congruence.
Qed.

(** The caller waits, and the processor goes to the next ready task of the ring after it,
    or to the kernel's task. *)
Definition blocked st l : sched :=
  set_curr (upd st (g_curr_tsk st) (set_state WAITING))
    (default (g_head_tsk st) (first_ready (s_tasks st) (removelast (after l (g_curr_tsk st))))).

Lemma block_spec st l fuel : sched_inv st l -> (length l <= fuel)%nat -> sched_block fuel st = Some (blocked st l) /\ sched_inv (blocked st l) l.
Proof.
  intros I Hf. set (c := g_curr_tsk st). set (st1 := upd st c (set_state WAITING)). assert (sched_inv st1 l) as I1 by (by apply inv_upd).
  pose proof (si_ring _ _ I) as R. destruct (si_curr_alive _ _ I) as (tc & Htc & _). fold c in Htc. pose proof (si_curr _ _ I) as Hin. fold c in Hin.
  assert (schedule_pick fuel st1 = Some (g_curr_tsk (blocked st l))) as Ep.
  { rewrite (schedule_pick_spec st1 l fuel I1 Hf). f_equal. unfold blocked. fold c. cbn [set_curr g_curr_tsk]. change (g_head_tsk st1) with (g_head_tsk st). change (g_curr_tsk st1) with c. f_equal.
    pose proof Hin as (l1 & l2 & El)%list_elem_of_split. pose proof (r_nodup _ _ R) as Hnd. rewrite El in Hnd. apply NoDup_app in Hnd as (_ & Hd & [Hc2 _]%NoDup_cons).
    assert (c ∉ l1) as Hc1 by (intros H; apply (Hd c H); by left). rewrite El, after_app, app_assoc by done. rewrite removelast_last.
    rewrite (first_ready_snoc _ _ c (set_state WAITING tc)); [|unfold st1; by rewrite upd_lookup, bool_decide_eq_true_2, Htc|done].
    apply first_ready_ext. intros a Ha. unfold st1. rewrite upd_lookup, bool_decide_eq_false_2; [done|]. intros <-. apply elem_of_app in Ha as [?|?]; done. }
  destruct (schedule_spec st1 l fuel I1 Hf) as (st' & E & I' & _). unfold sched_block. fold c st1. enough (schedule fuel st1 = Some (blocked st l)) as E2 by (split; [done|congruence]).
  clear E I' st'. unfold schedule. pose proof (ring_head_nz _ _ R) as [Hnz _]. change (g_head_tsk st1) with (g_head_tsk st). rewrite (proj2 (Z.eqb_neq _ _)), Ep by done. cbn [mbind option_bind].
  change (g_curr_tsk st1) with c. set (nx := g_curr_tsk (blocked st l)). destruct ((nx =? 0) || (nx =? c)) eqn:En; [|done].
  assert (nx = g_head_tsk st \/ (nx ∈ removelast (after l c))) as Hnx.
  { unfold nx, blocked. fold c. cbn [set_curr g_curr_tsk]. destruct (first_ready _ _) as [b|] eqn:Eb; [right|by left]. by apply first_ready_Some in Eb as [? _]. }
  pose proof Hin as (l1 & l2 & El)%list_elem_of_split. pose proof (r_nodup _ _ R) as Hnd. pose proof (r_null _ _ R) as Hnull. rewrite El in Hnd, Hnull. apply NoDup_app in Hnd as (_ & Hd & [Hc2 _]%NoDup_cons).
  assert (c ∉ l1) as Hc1 by (intros H; apply (Hd c H); by left). rewrite El, after_app, app_assoc, removelast_last in Hnx by done.
  assert (nx = c /\ c = g_head_tsk st) as [Enx Ech].
  { apply orb_true_iff in En as [En|En]; apply Z.eqb_eq in En; (destruct Hnx as [Hnx|Hnx]; [|exfalso]).
    - congruence.
    - rewrite En in Hnx. apply Hnull. set_solver.
    - split; congruence.
    - rewrite En in Hnx. apply elem_of_app in Hnx as [?|?]; done. }
  destruct (si_head _ _ I1) as (h & Hh & Hp0 & _). change (g_head_tsk st1) with (g_head_tsk st) in Hh. unfold deliver_sigint. change (g_curr_tsk st1) with c. rewrite Ech, Hh. cbn [mbind option_bind]. rewrite Hp0.
  cbn [Z.eqb negb andb]. f_equal. unfold blocked. fold c st1. fold nx in Enx. unfold nx, blocked in Enx. cbn [set_curr g_curr_tsk] in Enx. fold c in Enx. rewrite Enx. by rewrite <- (sched_eta st1).
Qed.

Lemma register_spec st l a t : sched_inv st l -> a ∉ l -> a <> 0 -> s_tasks st !! a = Some t ->
  0 < t_pid t < g_next_pid st -> (forall b tb, b ∈ l -> s_tasks st !! b = Some tb -> t_pid tb <> t_pid t) ->
  t_parent t ∈ l -> (forall p, s_tasks st !! t_parent t = Some p -> alive (t_state p) = true) ->
  exists st', sched_register_task st a = Some st' /\ sched_inv st' (g_head_tsk st :: a :: tail l) /\
    g_next_pid st' = g_next_pid st /\ g_curr_tsk st' = g_curr_tsk st.
Proof.
  intros I Ha Ha0 Ht Hpid Hfresh Hpar Hpal. pose proof (si_ring _ _ I) as R. pose proof (ring_head_nz _ _ R) as [Hnz Hhl].
  unfold sched_register_task. rewrite (proj2 (Z.eqb_neq _ _)) by done. destruct l as [|h l]; [by apply not_elem_of_nil in Hhl|].
  pose proof (r_head _ _ R) as Eh. injection Eh as Eh. rewrite <- Eh in *. pose proof (r_path _ _ R) as [(th & Hth & Hnh) Hp].
  rewrite Hth. cbn [mbind option_bind]. change (g_head_tsk (upd st a ?f)) with (g_head_tsk st). rewrite <- Eh. cbn [tail].
  apply not_elem_of_cons in Ha as [Hah Hal]. pose proof (r_nodup _ _ R) as [Hhn Hnd]%NoDup_cons.
  set (st' := upd (upd (upd st a _) h _) a _).
  assert (s_tasks st' !! a = Some (set_state READY (set_next (t_next th) t))) as La.
  { unfold st'. rewrite upd_lookup, bool_decide_eq_true_2, upd_lookup, bool_decide_eq_false_2, upd_lookup, bool_decide_eq_true_2, Ht
      by (done || congruence). done. }
  assert (s_tasks st' !! h = Some (set_next a th)) as Lh.
  { unfold st'. rewrite upd_lookup, bool_decide_eq_false_2, upd_lookup, bool_decide_eq_true_2, upd_lookup, bool_decide_eq_false_2, Hth
      by (done || congruence). done. }
  assert (forall b, b <> a -> b <> h -> s_tasks st' !! b = s_tasks st !! b) as Lb.
  { intros b H1 H2. unfold st'. by rewrite !upd_lookup, !bool_decide_eq_false_2 by congruence. }
  assert (forall b tb', b ∈ h :: l -> s_tasks st' !! b = Some tb' -> exists tb, s_tasks st !! b = Some tb /\
    t_pid tb' = t_pid tb /\ t_parent tb' = t_parent tb /\ t_state tb' = t_state tb) as Lback.
  { intros b tb' Hb Htb. apply elem_of_cons in Hb as [->|Hb]; [rewrite Lh in Htb; injection Htb as <-; by exists th|].
    exists tb'. by rewrite <- Lb by (intros ->; done). }
  assert (forall b tb, b ∈ h :: l -> s_tasks st !! b = Some tb -> exists tb', s_tasks st' !! b = Some tb' /\
    t_pid tb' = t_pid tb /\ t_parent tb' = t_parent tb /\ t_state tb' = t_state tb) as Lfwd.
  { intros b tb Hb Htb. destruct (decide (b = h)) as [->|Hbh]; [exists (set_next a th); by simplify_eq|].
    exists tb. apply elem_of_cons in Hb as [?|Hb]; [done|]. by rewrite Lb by (intros ->; done). }
  eexists. split; [done|]. split_and!; [|done|done]. split; change (g_head_tsk st') with (g_head_tsk st);
    change (g_curr_tsk st') with (g_curr_tsk st); change (g_next_pid st') with (g_next_pid st); rewrite <- ?Eh in *.
  - split; change (g_head_tsk st') with (g_head_tsk st); rewrite <- ?Eh in *; [| |done|].
    + cbn [path hd]. split_and!; [by exists (set_next a th)|exists (set_state READY (set_next (t_next th) t)); split; [done|exact Hnh]|].
      eapply path_ext; [|exact Hp]. intros b Hb. by rewrite Lb by (intros ->; done).
    + apply NoDup_cons. split; [set_solver|]. by apply NoDup_cons.
    + pose proof (r_null _ _ R). set_solver.
  - pose proof (si_curr _ _ I). set_solver.
  - destruct (si_curr_alive _ _ I) as (c & Ec & Hc). destruct (Lfwd _ _ (si_curr _ _ I) Ec) as (c' & Ec' & _ & _ & Es).
    exists c'. split; [done|]. by rewrite Es.
  - destruct (si_head _ _ I) as (h' & Eh' & Hp0 & Hal'). rewrite <- Eh in Eh'. destruct (Lfwd _ _ Hhl Eh') as (h2 & Eh2 & Ep & _ & Es).
    exists h2. split_and!; [done|congruence|congruence].
  - intros b tb' Hb Hbh Htb. destruct (decide (b = a)) as [->|Hba]; [rewrite La in Htb; injection Htb as <-; exact Hpid|].
    assert (b ∈ h :: l) as Hbl by set_solver. destruct (Lback b tb' Hbl Htb) as (tb & Htb0 & -> & _).
    eapply (si_pid _ _ I); [exact Hbl|congruence|done].
  - intros b1 b2 t1 t2 Hb1 Hb2 H1 H2 E. destruct (decide (b1 = a)) as [->|Hn1], (decide (b2 = a)) as [->|Hn2]; [done| | |].
    + assert (b2 ∈ h :: l) as Hbl by set_solver. destruct (Lback b2 t2 Hbl H2) as (tb & Htb0 & E2 & _).
      rewrite La in H1. injection H1 as <-. destruct (Hfresh b2 tb Hbl Htb0). cbn in E. congruence.
    + assert (b1 ∈ h :: l) as Hbl by set_solver. destruct (Lback b1 t1 Hbl H1) as (tb & Htb0 & E2 & _).
      rewrite La in H2. injection H2 as <-. destruct (Hfresh b1 tb Hbl Htb0). cbn in E. congruence.
    + assert (b1 ∈ h :: l) as Hl1 by set_solver. assert (b2 ∈ h :: l) as Hl2 by set_solver.
      destruct (Lback b1 t1 Hl1 H1) as (x1 & Hx1 & E1 & _). destruct (Lback b2 t2 Hl2 H2) as (x2 & Hx2 & E2 & _).
      eapply (si_uniq _ _ I); [exact Hl1|exact Hl2|done|done|congruence].
  - assert (forall q, q ∈ h :: l -> (forall p, s_tasks st !! q = Some p -> alive (t_state p) = true) ->
      q ∈ h :: a :: l /\ exists p, s_tasks st' !! q = Some p /\ alive (t_state p) = true) as Hq.
    { intros q Hql Hqa. split; [set_solver|]. destruct (ring_lookup _ _ _ R Hql) as [p Hp']. destruct (Lfwd q p Hql Hp') as (p' & E & _ & _ & Es).
      exists p'. split; [done|]. rewrite Es. by apply Hqa. }
    intros b tb' Hb Htb. destruct (decide (b = a)) as [->|Hba].
    + rewrite La in Htb. injection Htb as <-. right. by apply Hq.
    + assert (b ∈ h :: l) as Hbl by set_solver. destruct (Lback b tb' Hbl Htb) as (tb & Htb0 & _ & -> & _).
      destruct (si_parent _ _ I b tb Hbl Htb0) as [|(Hin & p & Ep & Hpa)]; [by left|right]. apply Hq; [done|]. intros. congruence.
Qed.
End Ops2.

(** ** Leaving the ring *)

(** What [sched_destroy_task] gives back. *)
Definition destroy_effects (st : sched) (a : Z) (t : Task) : list sched_effect :=
  let r := t_res t in
  end_effects st t ++ when (negb (kern_stk_top r =? 0)) [FreeFrame (kern_stk_top r - 0x1000)]
    ++ when (negb (event_queue r =? 0)) [VmmFree (event_queue r)] ++ [CleanupVm (vm_free_head r) (vm_alloc_head r)]
    ++ when (negb (pml4 r =? 0)) [FreeTable (pml4 r)] ++ [Kfree a].

Section Remove.
Implicit Types (st : sched) (l m : list Z) (a b c p z : Z) (t : Task).

Lemma path_remove ts l1 l2 p z h t : path ts (l1 ++ p :: z :: l2) h -> NoDup (l1 ++ p :: z :: l2) -> ts !! z = Some t ->
  path (alter (set_next (t_next t)) p ts) (l1 ++ p :: l2) h.
Proof.
  intros Hp Hnd Ht. apply path_app in Hp as [Hp1 [(tp & Htp & Hnp) [(tz & Htz & Hnz) Hp2]]].
  rewrite Ht in Htz. injection Htz as <-. cbn [hd] in *.
  apply NoDup_app in Hnd as (_ & Hd & Hnd). pose proof Hnd as [Hpz [Hz Hnd2]%NoDup_cons]%NoDup_cons.
  apply path_app. cbn [hd path]. split_and!.
  - eapply path_ext; [|exact Hp1]. intros b Hb. rewrite lookup_alter_ne; [done|]. intros ->. apply (Hd b Hb). by constructor.
  - exists (set_next (t_next t) tp). rewrite lookup_alter_eq, Htp. split; [done|exact Hnz].
  - eapply path_ext; [|exact Hp2]. intros b Hb. rewrite lookup_alter_ne; [done|]. intros ->. apply Hpz. by constructor.
Qed.

(** A zombie that is not current leaves the ring: nobody's parent is lost. *)
Lemma inv_remove st l1 l2 p z t : sched_inv st (l1 ++ p :: z :: l2) -> s_tasks st !! z = Some t -> alive (t_state t) = false ->
  sched_inv (upd st p (set_next (t_next t))) (l1 ++ p :: l2).
Proof.
  intros I Ht Hal. pose proof (si_ring _ _ I) as R. set (l := l1 ++ p :: z :: l2) in *. set (st' := upd st p _).
  assert (forall b, b ∈ l1 ++ p :: l2 -> b ∈ l) as Hsub by (intros b; unfold l; set_solver).
  assert (forall b, b ∈ l -> b <> z -> b ∈ l1 ++ p :: l2) as Hsub2 by (intros b; unfold l; set_solver).
  assert (forall b tb, s_tasks st !! b = Some tb -> alive (t_state tb) = true -> b <> z) as Hnz by (intros b tb Hb Hb2 ->; congruence).
  assert (forall b tb, s_tasks st !! b = Some tb -> exists tb', s_tasks st' !! b = Some tb' /\ t_pid tb' = t_pid tb /\
    t_parent tb' = t_parent tb /\ t_state tb' = t_state tb) as Lf.
  { intros b tb Hb. unfold st'. rewrite upd_lookup, Hb. case_bool_decide; by eexists. }
  assert (forall b tb', s_tasks st' !! b = Some tb' -> exists tb, s_tasks st !! b = Some tb /\ t_pid tb' = t_pid tb /\
    t_parent tb' = t_parent tb) as Lb.
  { intros b tb'. unfold st'. rewrite upd_lookup. case_bool_decide; [intros (tb & Hb & ->)%fmap_Some; by exists tb|intros; by exists tb']. }
  destruct (si_head _ _ I) as (h & Eh & Hp0 & Hha). destruct (si_curr_alive _ _ I) as (c & Ec & Hca). split.
  - split; change (g_head_tsk st') with (g_head_tsk st).
    + apply (path_remove _ _ _ _ z); [apply R|apply R|done].
    + pose proof (r_nodup _ _ R) as Hnd. unfold l in Hnd. assert (l1 ++ p :: z :: l2 ≡ₚ z :: l1 ++ p :: l2) as P by solve_Permutation.
      rewrite P in Hnd. by apply NoDup_cons in Hnd as [_ ?].
    + pose proof (r_head _ _ R) as E. unfold l in E. by destruct l1.
    + pose proof (r_null _ _ R) as E. unfold l in E. set_solver.
  - apply Hsub2; [apply I|]. by eapply Hnz.
  - destruct (Lf _ _ Ec) as (c' & E & _ & _ & Es). exists c'. split; [done|congruence].
  - destruct (Lf _ _ Eh) as (h' & E & Ep & _ & Es). exists h'. split_and!; [done|congruence|congruence].
  - intros b tb' Hb Hbh Htb. destruct (Lb b tb' Htb) as (tb & Htb0 & -> & _). by eapply (si_pid _ _ I); [apply Hsub| |].
  - intros b1 b2 t1 t2 Hb1 Hb2 H1 H2 E. destruct (Lb b1 t1 H1) as (x1 & Hx1 & E1 & _). destruct (Lb b2 t2 H2) as (x2 & Hx2 & E2 & _).
    eapply (si_uniq _ _ I); [by apply Hsub|by apply Hsub|done|done|congruence].
  - intros b tb' Hb Htb. destruct (Lb b tb' Htb) as (tb & Htb0 & _ & ->).
    destruct (si_parent _ _ I b tb (Hsub _ Hb) Htb0) as [|(Hin & q & Eq & Hqa)]; [by left|right].
    split; [apply Hsub2; [done|]; by eapply Hnz|]. destruct (Lf _ _ Eq) as (q' & E & _ & _ & Es). exists q'. split; [done|congruence].
Qed.

Lemma destroy_spec st l z t : sched_inv st l -> z ∉ l -> z <> 0 -> s_tasks st !! z = Some t -> t_pid t <> 0 ->
  exists st', sched_destroy_task st z = Some st' /\ sched_inv st' l /\ s_tasks st' !! z = None /\
    (forall b, b <> z -> s_tasks st' !! b = s_tasks st !! b) /\ s_log st' = s_log st ++ destroy_effects st z t /\
    g_head_tsk st' = g_head_tsk st /\ g_curr_tsk st' = g_curr_tsk st /\ g_next_pid st' = g_next_pid st.
Proof.
  intros I Hz Hz0 Ht Hp. unfold sched_destroy_task. rewrite (proj2 (Z.eqb_neq z 0)), Ht by done. cbn [mbind option_bind].
  rewrite (proj2 (Z.eqb_neq (t_pid t) 0)) by done. pose proof (clean_eq st z t Ht) as Ecl.
  destruct (sched_clean_gui st z); [|done]. cbn [mbind option_bind] in *. rewrite Ecl. cbn [mbind option_bind].
  set (st1 := upd (emit st (end_effects st t)) z _). eexists. split; [done|].
  assert (forall b, b <> z -> s_tasks st1 !! b = s_tasks st !! b) as L1
    by (intros b Hb; unfold st1; by rewrite upd_lookup, bool_decide_eq_false_2 by congruence).
  split; [|split_and!; cbn; [apply lookup_delete_eq| |by rewrite <- !app_assoc|done|done|done]].
  - eapply inv_keeps; [exact I|done|done|done|]. intros b tb Hb Htb. exists tb. split; [|done]. cbn [s_tasks].
    rewrite lookup_delete_ne by (intros ->; done). rewrite L1; [done|]. intros ->. done.
  - intros b Hb. rewrite lookup_delete_ne by congruence. by apply L1.
Qed.

(** *** [sched_unlink_task] *)
Lemma find_prev_spec fuel st l1 l2 p z : path (s_tasks st) (l1 ++ p :: z :: l2) (g_head_tsk st) ->
  g_head_tsk st ∉ tail (l1 ++ [p]) -> NoDup (l1 ++ p :: z :: l2) -> (length l1 < fuel)%nat ->
  find_prev fuel st (hd 0 (l1 ++ [p])) z = Some p.
Proof.
  revert l1. induction fuel as [|n IH]; intros l1 Hp Hh Hnd Hf; [lia|]. cbn [find_prev]. destruct l1 as [|x l1]; cbn [app hd] in *.
  - destruct Hp as [(t & Ht & Hn) _]. rewrite Ht. cbn [mbind option_bind]. cbn [hd] in Hn. by rewrite Hn, Z.eqb_refl.
  - destruct Hp as [(t & Ht & Hn) Hp]. rewrite Ht. cbn [mbind option_bind]. apply NoDup_cons in Hnd as [Hx Hnd].
    assert (t_next t = hd 0 (l1 ++ [p])) as E by (rewrite Hn; by destruct l1). rewrite E. cbn [tail] in Hh.
    assert (hd 0 (l1 ++ [p]) ∈ l1 ++ [p]) as Hin by (destruct l1; cbn; by constructor).
    assert (hd 0 (l1 ++ [p]) <> z).
    { intros Ez. rewrite Ez in Hin. assert (l1 ++ p :: z :: l2 ≡ₚ z :: (l1 ++ [p]) ++ l2) as P by (rewrite <- app_assoc; cbn; solve_Permutation).
      rewrite P in Hnd. apply NoDup_cons in Hnd as [Hz _]. apply Hz, elem_of_app. by left. }
    rewrite (proj2 (Z.eqb_neq _ z)), (proj2 (Z.eqb_neq _ (g_head_tsk st))) by (done || (intros Eh; apply Hh; by rewrite <- Eh)). cbn [orb].
    apply IH; [done| |done|simpl in Hf; lia]. intros Ht'. apply Hh. destruct (l1 ++ [p]); [done|]. by constructor.
Qed.

Lemma unlink_spec fuel st l1 l2 p z t : sched_inv st (l1 ++ p :: z :: l2) -> (length l1 < fuel)%nat ->
  s_tasks st !! z = Some t -> alive (t_state t) = false ->
  exists st', sched_unlink_task fuel st z = Some st' /\ sched_inv st' (l1 ++ p :: l2) /\ st' = upd st p (set_next (t_next t)).
Proof.
  intros I Hf Ht Hal. pose proof (si_ring _ _ I) as R. pose proof (ring_head_nz _ _ R) as [Hnz _]. unfold sched_unlink_task.
  rewrite (proj2 (Z.eqb_neq _ _)) by done. pose proof (r_path _ _ R) as Hp. pose proof (r_nodup _ _ R) as Hnd.
  pose proof (r_head _ _ R) as Hh. assert (hd 0 (l1 ++ [p]) = g_head_tsk st) as Eh by (destruct l1; cbn in *; congruence).
  assert (g_head_tsk st ∉ tail (l1 ++ [p])) as Hht.
  { destruct l1 as [|x l1]; [apply not_elem_of_nil|]. cbn in Hh |- *. injection Hh as <-. cbn in Hnd.
    apply NoDup_cons in Hnd as [Hx _]. intros Hin. apply Hx. set_solver. }
  pose proof (find_prev_spec fuel st l1 l2 p z Hp Hht Hnd Hf) as E. rewrite Eh in E. rewrite E. cbn [mbind option_bind].
  pose proof Hp as [_ [(tp & Htp & Hnp) _]]%path_app. cbn [hd] in Hnp. rewrite Htp. cbn [mbind option_bind].
  rewrite Hnp, Z.eqb_refl, Ht. cbn [mbind option_bind]. change (g_head_tsk (upd st p ?f)) with (g_head_tsk st).
  assert (z <> g_head_tsk st) as Hzh by (intros ->; destruct (si_head _ _ I) as (h & E1 & _ & E2); congruence).
  rewrite (proj2 (Z.eqb_neq z _)) by done. eexists. split; [done|]. split; [by eapply inv_remove|done].
Qed.

(** *** [sched_reap_zombies] *)
Lemma ring_last_spec fuel st m : path (s_tasks st) m (g_head_tsk st) -> g_head_tsk st ∉ tail m -> m <> [] ->
  (length m <= fuel)%nat -> ring_last fuel st (hd 0 m) = last m.
Proof.
  revert m. induction fuel as [|n IH]; intros [|x m] Hp Hh Hne Hf; [done|simpl in Hf; lia|done|].
  destruct Hp as [(t & Ht & Hn) Hp]. cbn [ring_last hd]. rewrite Ht. cbn [mbind option_bind]. destruct m as [|y m].
  - cbn in Hn. by rewrite Hn, Z.eqb_refl.
  - cbn [hd] in Hn. assert (y <> g_head_tsk st) by (intros ->; apply Hh; cbn; by constructor).
    rewrite Hn, (proj2 (Z.eqb_neq y _)) by done. cbn [last]. apply (IH (y :: m)); [done| |done|simpl in *; lia].
    intros Hin. apply Hh. cbn. by constructor.
Qed.

(** The first zombie to reap, with the task before it. *)
Fixpoint find_reap st (prev : Z) (m : list Z) : option (Z * Z) :=
  match m with
  | [] => None
  | x :: m => if match s_tasks st !! x with Some t => reapable st x t | None => false end then Some (prev, x) else find_reap st x m
  end.

Lemma reap_loop_spec fuel st m prev : path (s_tasks st) m (g_head_tsk st) -> g_head_tsk st ∉ tail m -> m <> [] ->
  (length m <= fuel)%nat -> reap_loop fuel st prev (hd 0 m) = Some (find_reap st prev m).
Proof.
  revert m prev. induction fuel as [|n IH]; intros [|x m] prev Hp Hh Hne Hf; [done|simpl in Hf; lia|done|].
  destruct Hp as [(t & Ht & Hn) Hp]. cbn [reap_loop hd find_reap]. rewrite Ht. cbn [mbind option_bind].
  destruct (reapable st x t); [done|]. destruct m as [|y m].
  - cbn in Hn. by rewrite Hn, Z.eqb_refl.
  - cbn [hd] in Hn. assert (y <> g_head_tsk st) by (intros ->; apply Hh; cbn; by constructor).
    rewrite Hn, (proj2 (Z.eqb_neq y _)) by done. apply (IH (y :: m)); [done| |done|simpl in *; lia].
    intros Hin. apply Hh. cbn. by constructor.
Qed.

Lemma find_reap_Some st prev m p z : find_reap st prev m = Some (p, z) ->
  (exists t, s_tasks st !! z = Some t /\ reapable st z t = true) /\
  ((exists m2, m = z :: m2 /\ p = prev) \/ exists m1 m2, m = m1 ++ p :: z :: m2).
Proof.
  revert prev. induction m as [|x m IH]; intros prev; cbn [find_reap]; [done|].
  destruct (s_tasks st !! x) as [t|] eqn:Ex.
  - destruct (reapable st x t) eqn:Er.
    + intros [= -> ->]. split; [by exists t|]. left. by exists m.
    + intros [Hz [(m2 & -> & ->)|(m1 & m2 & ->)]]%IH; (split; [done|right]); [by exists [], m2|by exists (x :: m1), m2].
  - intros [Hz [(m2 & -> & ->)|(m1 & m2 & ->)]]%IH; (split; [done|right]); [by exists [], m2|by exists (x :: m1), m2].
Qed.

(** One call reaps the first zombie nobody waits for, if there is one: it leaves the ring,
    and everything it had is given back. *)
Lemma reap_spec fuel st l : sched_inv st l -> (length l <= fuel)%nat ->
  exists st', sched_reap_zombies fuel st = Some st' /\ g_next_pid st' = g_next_pid st /\
   match find_reap st 0 l with
   | None => st' = st
   | Some (_, z) => exists t l', s_tasks st !! z = Some t /\ reapable st z t = true /\
       l ≡ₚ z :: l' /\ sched_inv st' l' /\ s_tasks st' !! z = None /\ s_log st' = s_log st ++ destroy_effects st z t
   end.
Proof.
  intros I Hf. pose proof (si_ring _ _ I) as R. pose proof (ring_head_nz _ _ R) as [Hnz Hhl]. unfold sched_reap_zombies.
  rewrite (proj2 (Z.eqb_neq _ _)) by done. destruct l as [|h l]; [by apply not_elem_of_nil in Hhl|].
  pose proof (r_head _ _ R) as Eh. injection Eh as Eh. pose proof (r_nodup _ _ R) as [Hh _]%NoDup_cons. rewrite Eh in Hh.
  pose proof (ring_last_spec fuel st (h :: l) (r_path _ _ R) Hh ltac:(done) Hf) as El.
  destruct (last (h :: l)) as [la|] eqn:Ela; [|by apply last_None in Ela]. cbn [hd] in El. rewrite <- Eh, El. cbn [mbind option_bind].
  pose proof (fun pr => reap_loop_spec fuel st (h :: l) pr (r_path _ _ R) Hh ltac:(done) Hf) as Er. cbn [hd] in Er. rewrite Er.
  cbn [mbind option_bind]. destruct (si_head _ _ I) as (th & Eth & Hp0 & _). rewrite <- Eh in Eth.
  assert (forall pr, find_reap st pr (h :: l) = find_reap st h l) as Efr.
  { intros pr. cbn [find_reap]. rewrite Eth. unfold reapable. by rewrite Hp0. }
  rewrite !Efr. destruct (find_reap st h l) as [[p z]|] eqn:Ez; [|by exists st].
  clear Ez. pose proof (Efr h) as Ez. destruct (find_reap_Some _ _ _ _ _ Ez) as [(t & Ht & Hreap) Hsh].
  assert (exists l1 l2, h :: l = l1 ++ p :: z :: l2) as (l1 & l2 & E).
  { destruct Hsh as [(m2 & E & ->)|?]; [|done]. injection E as -> ->. simplify_eq. unfold reapable in Hreap. by rewrite Hp0 in Hreap. }
  rewrite E in *. rewrite Ht. cbn [mbind option_bind]. change (g_head_tsk (upd st p ?f)) with (g_head_tsk st).
  unfold reapable in Hreap. apply andb_prop in Hreap as [Hr1 _]. apply andb_prop in Hr1 as [Hr1 Hzs%bool_decide_eq_true_1].
  apply andb_prop in Hr1 as [Hzp _]. assert (t_pid t <> 0) as Hpid by (intros E0; by rewrite E0 in Hzp).
  assert (alive (t_state t) = false) as Hal by (by rewrite Hzs).
  assert (z <> g_head_tsk st) as Hzh by (intros ->; congruence). rewrite (proj2 (Z.eqb_neq z _)) by done.
  pose proof (inv_remove st l1 l2 p z t I Ht Hal) as I1. set (st1 := upd st p _) in *.
  pose proof (r_nodup _ _ R) as Hnd. assert (l1 ++ p :: z :: l2 ≡ₚ z :: l1 ++ p :: l2) as P by solve_Permutation.
  rewrite P in Hnd. apply NoDup_cons in Hnd as [Hzl _]. assert (z <> p) as Hzp' by set_solver.
  assert (s_tasks st1 !! z = Some t) as Ht1 by (unfold st1; by rewrite upd_lookup, bool_decide_eq_false_2 by congruence).
  assert (z <> 0) as Hz0 by (intros ->; apply (r_null _ _ R); set_solver).
  destruct (destroy_spec st1 _ z t I1 Hzl Hz0 Ht1 Hpid) as (st' & -> & I' & Hd & _ & Hlog & _ & _ & Hnp).
  exists st'. split_and!; [done|done|]. exists t, (l1 ++ p :: l2). split_and!; [done| |done|done|done|done].
  destruct (find_reap_Some _ _ _ _ _ Ez) as [(t' & Ht' & Hreap') _]. congruence.
Qed.
End Remove.
