(* ===== verification/SchedRun.v ===== *)
(** The scheduler as a whole, [src/src/sched/sched.c]: sequences of its operations.

    [sched_op] is one call of an entry point; [op_ok] is what its caller guarantees.
    [sched_run_ok] shows that no sequence of calls breaks the invariant or hangs, and
    [sched_fair] that round-robin reaches every task that stays ready. *)
From S2P Require Import Prelude Sched SchedInv SchedOps.

Inductive sched_op :=
  | OpSchedule
  | OpResume
  | OpBlock
  | OpWake (pid : Z)
  | OpExit (code : Z)
  | OpKill (pid : Z)
  | OpSignal (pid sig_code : Z)
  | OpTick (curr_tick : Z)
  | OpReap
  | OpSleep (ms now : Z)
  | OpWaitpid (pid stat : Z) (access : bool)
  | OpSpawn (nm : new_mem) (stack_top : Z)
  | OpFork (nm : new_mem) (fm : fork_mem).

(** [sys_sleep] of [arch/syscall.c], [now] being the timer's ticks. *)
Definition sys_sleep (fuel : nat) (st : sched) (ms now : Z) : option sched :=
  let ticks_to_wait := if ms / 10 =? 0 then 1 else ms / 10 in
  schedule fuel (upd st (g_curr_tsk st) (fun t => set_state SLEEPING (set_wake_tick (s64 (now + ticks_to_wait)) t))).

(** What a system call returns: the value, what it stores for the caller, the state. *)
Definition wait_result : Type := Z * option Z * sched.

(** One round of the loop of [sys_waitpid]: [inr] when it returns.  [access] is the answer
    of [verify_usr_access] for [stat]. *)
Definition waitpid_round (fuel : nat) (st : sched) (child pid stat : Z) (access : bool) : option (sched + wait_result) :=
  t ← s_tasks st !! child;
  if decide (t_state t = ZOMBIE) then
    if negb (stat =? 0) && negb access then Some (inr (u64 (-1), None, st))
    else
      st ← sched_unlink_task fuel st child;
      st ← sched_destroy_task st child;
      Some (inr (u64 pid, if stat =? 0 then None else Some (t_ret_val t), st))
  else st ← sched_block fuel st; Some (inl st).

(** [sys_waitpid] up to the end of its first round. *)
Definition sys_waitpid (fuel : nat) (st : sched) (pid stat : Z) (access : bool) : option (sched + wait_result) :=
  child ← sched_find_task fuel st pid;
  if child =? 0 then Some (inr (u64 (-1), None, st)) else waitpid_round fuel st child pid stat access.

(** Creation followed by registration, as the callers do. *)
Definition register_new (st : sched) (a : Z) : option sched := if a =? 0 then Some st else sched_register_task st a.

Definition sched_exec (fuel : nat) (st : sched) (op : sched_op) : option sched :=
  match op with
  | OpSchedule => schedule fuel st
  | OpResume => deliver_sigint fuel st
  | OpBlock => sched_block fuel st
  | OpWake pid => sched_wake_pid fuel st pid
  | OpExit code => sched_exit fuel st code
  | OpKill pid => sched_kill fuel st pid
  | OpSignal pid sig_code => sched_send_signal fuel st pid sig_code
  | OpTick curr_tick => sched_check_sleeping_tasks fuel st curr_tick
  | OpReap => sched_reap_zombies fuel st
  | OpSleep ms now => sys_sleep fuel st ms now
  | OpWaitpid pid stat access => r ← sys_waitpid fuel st pid stat access; Some (match r with inl st => st | inr (_, st) => st end)
  | OpSpawn nm stack_top => let '(a, st) := task_factory_create st nm stack_top in register_new st a
  | OpFork nm fm => '(a, st, _) ← task_factory_fork st (g_curr_tsk st) nm fm; register_new st a
  end.

(** A new task's block is not a task yet, and pids have not run out. *)
Definition op_ok (st : sched) (op : sched_op) : Prop :=
  match op with
  | OpSpawn nm _ | OpFork nm _ => s_tasks st !! nm_task nm = None /\ 0 < g_next_pid st < 2 ^ 31 - 1
  | _ => True
  end.

Section Exec.
Implicit Types (st : sched) (l : list Z) (a : Z) (t : Task).

Lemma new_task_spec st l nm : sched_inv st l -> s_tasks st !! nm_task nm = None -> 0 < g_next_pid st < 2 ^ 31 - 1 ->
  let '(a, st') := sched_new_task st nm in
  sched_inv st' l /\ g_head_tsk st' = g_head_tsk st /\ g_curr_tsk st' = g_curr_tsk st /\
  (forall b, b ∈ l -> s_tasks st' !! b = s_tasks st !! b) /\
  (a <> 0 -> a = nm_task nm /\ (a ∉ l) /\ exists t, s_tasks st' !! a = Some t /\ t_pid t = g_next_pid st /\
     g_next_pid st' = g_next_pid st + 1 /\ t_parent t = g_curr_tsk st).
Proof.
  intros I Hn Hp. assert (nm_task nm ∉ l) as Hl.
  { intros Hin. destruct (ring_lookup _ _ _ (si_ring _ _ I) Hin) as [t Ht]. congruence. }
  assert (forall st', g_head_tsk st' = g_head_tsk st -> g_curr_tsk st' = g_curr_tsk st -> g_next_pid st' = g_next_pid st + 1 ->
    (forall b, b ∈ l -> s_tasks st' !! b = s_tasks st !! b) -> sched_inv st' l) as Hinv.
  { intros st' E1 E2 E3 E4. set (st1 := Sched (s_tasks st') (g_head_tsk st') (g_curr_tsk st') (g_next_pid st) (s_windows st') (s_log st')).
    assert (sched_inv st1 l) as I1.
    { eapply inv_keeps; [exact I|done|done|done|]. intros b t Hb Ht. exists t. split; [|done]. cbn. by rewrite E4. }
    destruct I1 as [R1 Hc1 Hca1 Hh1 Hpid1 Hu1 Hpar1]. split; try done; [by eapply ring_ext|].
    intros b t Hb Hbh Ht. specialize (Hpid1 b t Hb Hbh Ht). cbn in Hpid1. rewrite E3. lia. }
  unfold sched_new_task. destruct (Z.eqb_spec (nm_task nm) 0); [done|]. unfold s32.
  assert ((g_next_pid st + 1 + 2 ^ 31) mod 2 ^ 32 - 2 ^ 31 = g_next_pid st + 1) as -> by (rewrite Z.mod_small; lia).
  destruct (nm_pml4 nm =? 0); [split_and!; [by apply Hinv|done|done|done|done]|].
  destruct (nm_free nm =? 0); [split_and!; [by apply Hinv|done|done|done|done]|].
  destruct (nm_events nm =? 0); [split_and!; [by apply Hinv|done|done|done|done]|].
  assert (forall tsk b, b ∈ l -> <[nm_task nm := tsk]> (s_tasks st) !! b = s_tasks st !! b) as Hb
    by (intros tsk b Hb; rewrite lookup_insert_ne; [done|]; intros E; apply Hl; by rewrite E).
  split_and!; [by apply Hinv; cbn; auto|done|done|by apply Hb|]. intros _. split_and!; [done|done|].
  eexists. split; [apply lookup_insert_eq|]. done.
Qed.

Lemma register_new_spec st st0 l a t : sched_inv st l -> a ∉ l -> a <> 0 -> s_tasks st !! a = Some t ->
  sched_inv st0 l -> (forall b, b ∈ l -> s_tasks st !! b = s_tasks st0 !! b) -> g_curr_tsk st = g_curr_tsk st0 ->
  g_head_tsk st = g_head_tsk st0 -> t_pid t = g_next_pid st0 -> g_next_pid st = g_next_pid st0 + 1 -> 0 < g_next_pid st0 ->
  t_parent t = g_curr_tsk st0 ->
  exists st', sched_register_task st a = Some st' /\ sched_inv st' (g_head_tsk st :: a :: tail l).
Proof.
  intros I Ha Ha0 Ht I0 Hsame Ec Eh Hp Hn Hp0 Hpar.
  destruct (register_spec st l a t I Ha Ha0 Ht) as (st' & E & I' & _).
  - lia.
  - intros b tb Hb Htb. rewrite Hsame in Htb by done. destruct (decide (b = g_head_tsk st0)) as [->|Hbh].
    + destruct (si_head _ _ I0) as (h & E1 & E2 & _). simplify_eq. lia.
    + pose proof (si_pid _ _ I0 b tb Hb Hbh Htb). lia.
  - rewrite Hpar. apply I0.
  - rewrite Hpar. intros p Hpp. destruct (si_curr_alive _ _ I) as (c & E1 & E2). rewrite Ec in E1. congruence.
  - by exists st'.
Qed.

Lemma tail_length l h a : g_head_tsk h ∈ l -> length (g_head_tsk h :: a :: tail l) = S (length l).
Proof. destruct l as [|x l]; intros H; [by apply not_elem_of_nil in H|]. done. Qed.

(** Unlinking and destroying a zombie. *)
Lemma waited_reap fuel st l a t : sched_inv st l -> (length l <= fuel)%nat -> a ∈ l -> s_tasks st !! a = Some t -> t_state t = ZOMBIE ->
  exists st' l', (st1 ← sched_unlink_task fuel st a; sched_destroy_task st1 a) = Some st' /\ l ≡ₚ a :: l' /\
    sched_inv st' l' /\ s_tasks st' !! a = None /\ s_log st' = s_log st ++ destroy_effects st a t.
Proof.
  intros I Hf Ha Ht Hz. pose proof (si_ring _ _ I) as R. assert (alive (t_state t) = false) as Hal by (by rewrite Hz).
  assert (a <> g_head_tsk st) as Hah by (intros ->; destruct (si_head _ _ I) as (h & E1 & _ & E2); congruence).
  apply list_elem_of_split in Ha as (l0 & l2 & ->).
  assert (exists l1 p, l0 = l1 ++ [p]) as (l1 & p & ->).
  { destruct l0 as [|x l0] using rev_ind; [|by exists l0, x]. pose proof (r_head _ _ R) as E. cbn in E. congruence. }
  rewrite <- app_assoc in *. cbn [app] in *.
  destruct (unlink_spec fuel st l1 l2 p a t I) as (st1 & -> & I1 & ->); [rewrite length_app in Hf; simpl in Hf; lia|done|done|].
  cbn [mbind option_bind]. pose proof (r_nodup _ _ R) as Hnd.
  assert (l1 ++ p :: a :: l2 ≡ₚ a :: l1 ++ p :: l2) as P by solve_Permutation. rewrite P in Hnd.
  apply NoDup_cons in Hnd as [Hal' _]. assert (a <> p) by set_solver.
  assert (t_pid t <> 0) as Hpid by (pose proof (si_pid _ _ I a t ltac:(rewrite P; by constructor) Hah Ht); lia).
  destruct (destroy_spec (upd st p (set_next (t_next t))) _ a t I1 Hal') as (st' & -> & I' & Hd & _ & Hlog & _).
  - intros ->. apply (r_null _ _ R). rewrite P. by constructor.
  - by rewrite upd_lookup, bool_decide_eq_false_2 by congruence.
  - done.
  - exists st', (l1 ++ p :: l2). split_and!; (done || exact I').
Qed.

Lemma waited_spec fuel st l a pid stat access : sched_inv st l -> (length l <= fuel)%nat -> a ∈ l ->
  exists r, waitpid_round fuel st a pid stat access = Some r /\
    match r with
    | inl st' => st' = blocked st l /\ sched_inv st' l /\ exists t, s_tasks st !! a = Some t /\ t_state t <> ZOMBIE
    | inr (ret, w, st') => exists t, s_tasks st !! a = Some t /\ t_state t = ZOMBIE /\
        ((stat <> 0 /\ access = false /\ ret = u64 (-1) /\ w = None /\ st' = st) \/
         exists l', ret = u64 pid /\ w = (if stat =? 0 then None else Some (t_ret_val t)) /\ l ≡ₚ a :: l' /\
           sched_inv st' l' /\ s_tasks st' !! a = None /\ s_log st' = s_log st ++ destroy_effects st a t)
    end.
Proof.
  intros I Hf Ha. pose proof (si_ring _ _ I) as R. destruct (ring_lookup _ _ _ R Ha) as [t Ht]. unfold waitpid_round. rewrite Ht.
  cbn [mbind option_bind]. destruct (decide (t_state t = ZOMBIE)) as [Hz|Hz]; cycle 1.
  { destruct (block_spec st l fuel I Hf) as [-> I']. eexists. split; [done|]. split; [done|]. split; [done|]. by exists t. }
  destruct (waited_reap fuel st l a t I Hf Ha Ht Hz) as (st' & l' & E & P & I' & Hd & Hlog).
  destruct (negb (stat =? 0) && negb access) eqn:Ec.
  - apply andb_prop in Ec as [Es Ea]. eexists. split; [done|]. exists t. split_and!; [done|done|]. left.
    split_and!; [intros ->; done|by destruct access|done|done|done].
  - destruct (sched_unlink_task fuel st a) as [st1|]; [|done]. cbn [mbind option_bind] in *. rewrite E. cbn [mbind option_bind].
    eexists. split; [done|]. exists t. split_and!; [done|done|]. right. by exists l'.
Qed.
Lemma find_pid_None ts l pid a t : find_pid ts l pid = None -> a ∈ l -> ts !! a = Some t -> t_pid t <> pid.
Proof.
  intros Hf Ha Ht E. pose proof (List.find_none _ _ Hf a ltac:(by apply list_elem_of_In)) as H. cbn in H.
  rewrite Ht in H. cbn in H. rewrite bool_decide_eq_true_2 in H; [done|by rewrite E].
Qed.

(** [sys_waitpid] on every branch of its first round. *)
Lemma waitpid_spec fuel st l pid stat access : sched_inv st l -> (length l <= fuel)%nat ->
  exists r, sys_waitpid fuel st pid stat access = Some r /\
    match r with
    | inl st' => st' = blocked st l /\ sched_inv st' l /\ exists a t, a ∈ l /\ s_tasks st !! a = Some t /\ t_pid t = pid /\ t_state t <> ZOMBIE
    | inr (ret, w, st') =>
        (ret = u64 (-1) /\ w = None /\ st' = st /\ forall a t, a ∈ l -> s_tasks st !! a = Some t -> t_pid t <> pid) \/
        exists a t, a ∈ l /\ s_tasks st !! a = Some t /\ t_pid t = pid /\ t_state t = ZOMBIE /\
          ((stat <> 0 /\ access = false /\ ret = u64 (-1) /\ w = None /\ st' = st) \/
           exists l', ret = u64 pid /\ w = (if stat =? 0 then None else Some (t_ret_val t)) /\ l ≡ₚ a :: l' /\
             sched_inv st' l' /\ s_tasks st' !! a = None /\ s_log st' = s_log st ++ destroy_effects st a t)
    end.
Proof.
  intros I Hf. pose proof (si_ring _ _ I) as R. unfold sys_waitpid, sched_find_task. rewrite (find_task_spec st l pid fuel R Hf).
  cbn [mbind option_bind]. destruct (find_pid (s_tasks st) l pid) as [a|] eqn:Ef; cycle 1.
  { eexists. split; [done|]. left. split_and!; [done|done|done|]. intros a t. by apply find_pid_None. }
  change (default 0 (Some a)) with a. destruct (find_pid_Some _ _ _ _ Ef) as (Ha & t & Ht & Hp).
  assert (a <> 0) by (intros ->; by apply (r_null _ _ R)). rewrite (proj2 (Z.eqb_neq a 0)) by done.
  destruct (waited_spec fuel st l a pid stat access I Hf Ha) as (r & -> & Hr). exists r. split; [done|].
  destruct r as [st'|[[ret w] st']].
  - destruct Hr as (E' & I' & t' & Ht' & Hz). split; [done|]. split; [done|]. exists a, t'. split_and!; (done || congruence).
  - destruct Hr as (t' & Ht' & Hz & Hr). right. exists a, t'. split_and!; (done || congruence).
Qed.

Lemma new_task_none st nm : s_tasks st !! nm_task nm = None ->
  let '(a, st') := sched_new_task st nm in a = 0 -> s_tasks st' = s_tasks st.
Proof.
  intros Hn. unfold sched_new_task. destruct (Z.eqb_spec (nm_task nm) 0); [done|]. destruct (nm_pml4 nm =? 0); [done|].
  destruct (nm_free nm =? 0); [done|]. by destruct (nm_events nm =? 0).
Qed.

(** A fork either fails with nothing left of the child, or returns one that can be registered. *)
Lemma fork_spec st l nm fm : sched_inv st l -> s_tasks st !! nm_task nm = None -> 0 < g_next_pid st < 2 ^ 31 - 1 ->
  exists a st' fds, task_factory_fork st (g_curr_tsk st) nm fm = Some (a, st', fds) /\ sched_inv st' l /\
    g_head_tsk st' = g_head_tsk st /\ g_curr_tsk st' = g_curr_tsk st /\
    (forall b, b ∈ l -> s_tasks st' !! b = s_tasks st !! b) /\
    ((a = 0) -> s_tasks st' !! nm_task nm = None) /\
    (a <> 0 -> a = nm_task nm /\ (a ∉ l) /\ exists t, s_tasks st' !! a = Some t /\ t_pid t = g_next_pid st /\
       g_next_pid st' = g_next_pid st + 1 /\ t_parent t = g_curr_tsk st).
Proof.
  intros I Hn Hp. pose proof (new_task_spec st l nm I Hn Hp) as H. pose proof (new_task_none st nm Hn) as H0. unfold task_factory_fork.
  destruct (sched_new_task st nm) as [a st1]. destruct H as (I1 & Eh & Ec & Hs & Ha).
  destruct (Z.eqb_spec a 0) as [->|Ha0]; [exists 0, st1, []; split_and!; [done|done|done|done|done|by rewrite H0|done]|]. destruct (Ha Ha0) as (-> & Hal & t & Ht & Hpid & Hnp & Hpar).
  unfold sched_clean_fds. rewrite Ht. cbn [mbind option_bind]. set (a := nm_task nm) in *. set (es := VfsClose <$> _).
  set (z := fun t => set_fd_tbl _ t). set (r := fun t : Task => set_res _ t).
  set (st2 := upd (emit (upd (emit st1 es) a z) [RetPml4 (nm_pml4 nm)]) a r).
  assert (sched_inv st2 l) as I2 by (apply inv_upd; [apply inv_emit, inv_upd; [by apply inv_emit|done]|done]).
  assert (s_tasks st2 !! a = Some (r (z t))) as Ht2.
  { unfold st2. rewrite upd_lookup, bool_decide_eq_true_2 by done. change (s_tasks (emit ?s _)) with (s_tasks s).
    rewrite upd_lookup, bool_decide_eq_true_2 by done. change (s_tasks (emit ?s _)) with (s_tasks s). by rewrite Ht. }
  assert (forall b, b ∈ l -> s_tasks st2 !! b = s_tasks st !! b) as Hs2.
  { intros b Hb. assert (a <> b) by congruence. unfold st2. rewrite upd_lookup, bool_decide_eq_false_2 by done.
    change (s_tasks (emit ?s _)) with (s_tasks s). rewrite upd_lookup, bool_decide_eq_false_2 by done. by apply Hs. }
  assert (exists st', sched_destroy_task st2 a = Some st' /\ sched_inv st' l /\ s_tasks st' !! a = None /\
    (forall b, b ∈ l -> s_tasks st' !! b = s_tasks st !! b) /\ g_head_tsk st' = g_head_tsk st /\ g_curr_tsk st' = g_curr_tsk st)
    as (std & Ed & Id & Hda & Hds & Edh & Edc).
  { destruct (destroy_spec st2 l a (r (z t)) I2 Hal Ha0 Ht2) as (st' & E & I' & Hd & Hb & _ & E1 & E2 & _); [cbn; lia|].
    exists st'. split_and!; [done|done|done| |by rewrite E1|by rewrite E2]. intros b Hbl. rewrite Hb by congruence. by apply Hs2. }
  destruct (fm_pml4 fm =? 0); [rewrite Ed; cbn [mbind option_bind]; by eexists 0, std, []|].
  destruct (fm_stack_top fm =? 0); [rewrite Ed; cbn [mbind option_bind]; by eexists 0, std, []|].
  destruct (ring_lookup _ _ _ (si_ring _ _ I) (si_curr _ _ I)) as [p Ep]. rewrite Hs2, Ep by apply I. cbn [mbind option_bind].
  eexists a, _, _. split; [done|]. split_and!; [|done|done| |done|].
  - eapply inv_keeps; [exact I2|done|done|done|]. intros b tb Hb Htb. rewrite upd_lookup, bool_decide_eq_false_2 by congruence. by exists tb.
  - intros b Hb. rewrite upd_lookup, bool_decide_eq_false_2 by congruence. by apply Hs2.
  - intros _. split_and!; [done|done|]. rewrite upd_lookup, bool_decide_eq_true_2 by done. change (s_tasks (emit ?s _)) with (s_tasks s).
    rewrite Ht2. eexists. split; [done|]. done.
Qed.

Lemma exec_ok fuel st l op : sched_inv st l -> op_ok st op -> (length l <= fuel)%nat ->
  exists st' l', sched_exec fuel st op = Some st' /\ sched_inv st' l' /\ (length l' <= S (length l))%nat.
Proof.
  intros I Hop Hf. pose proof (si_ring _ _ I) as R. pose proof (ring_head_nz _ _ R) as [Hnz Hhl].
  destruct op as [| | |pid|code|pid|pid sig|tick| |ms now|pid stat acc|nm top|nm fm]; cbn [sched_exec op_ok] in *.
  - destruct (schedule_spec st l fuel I Hf) as (st' & E & I' & _). exists st', l. eauto.
  - destruct (deliver_spec st l fuel I Hf) as (st' & E & I' & _). exists st', l. eauto.
  - destruct (block_spec st l fuel I Hf) as [E I']. eexists _, l. eauto.
  - unfold sched_wake_pid. rewrite (find_task_spec st l pid fuel R Hf). cbn [mbind option_bind]. eexists _, l. split; [done|].
    split; [|lia]. destruct (_ =? 0); [done|]. apply inv_upd; [done|exact wake_keeps].
  - destruct (si_curr_alive _ _ I) as (c & Ec & _). destruct (Z.eq_dec (t_pid c) 0) as [E0|E0].
    + unfold sched_exit. rewrite Ec. cbn [mbind option_bind]. rewrite E0. exists st, l. eauto.
    + destruct (exit_spec st l c code fuel I Hf Ec E0) as (st' & E & I' & _). exists st', l. eauto.
  - destruct (kill_spec st l pid fuel I Hf) as (st' & E & I' & _). exists st', l. eauto.
  - unfold sched_send_signal. rewrite (find_task_spec st l pid fuel R Hf). cbn [mbind option_bind]. eexists _, l. split; [done|].
    split; [|lia]. destruct (_ =? 0); [done|]. by apply inv_upd.
  - unfold sched_check_sleeping_tasks. rewrite (proj2 (Z.eqb_neq _ _)) by done.
    set (g := fun t => if bool_decide (t_state t = SLEEPING) && (t_wake_tick t <=? tick) then set_wake_tick (-1) (set_state READY t) else t).
    rewrite (run_ring_map st l _ g fuel R Hf).
    + exists (map_ring g st l), l. split_and!; [done| |lia]. apply inv_map; [done|apply R|]. intros t. unfold g.
      destruct (_ && _); [|done]. split_and!; (done || intros; done).
    + intros t. unfold g. by destruct (_ && _).
    + intros st0 b tb Eh Hb. unfold wake_sleeper. f_equal. destruct (_ && _) eqn:E.
      * unfold upd. f_equal. apply alter_ext. intros x Hx. rewrite Hb in Hx. injection Hx as <-. unfold g. by rewrite E.
      * symmetry. eapply upd_id; [exact Hb|]. unfold g. by rewrite E.
  - destruct (reap_spec fuel st l I Hf) as (st' & E & _ & H). destruct (find_reap st 0 l) as [[p z]|].
    + destruct H as (t & l' & _ & _ & P & I' & _). exists st', l'. split_and!; [done|done|]. apply Permutation_length in P. simpl in P. lia.
    + subst. exists st, l. eauto.
  - unfold sys_sleep. set (g := fun t => set_state SLEEPING _).
    assert (sched_inv (upd st (g_curr_tsk st) g) l) as I1 by (by apply inv_upd).
    destruct (schedule_spec _ l fuel I1 Hf) as (st' & E & I' & _). exists st', l. eauto.
  - destruct (waitpid_spec fuel st l pid stat acc I Hf) as (r & -> & Hr). cbn [mbind option_bind]. destruct r as [st'|[[ret w] st']].
    + destruct Hr as (_ & I' & _). exists st', l. eauto.
    + destruct Hr as [(_ & _ & -> & _)|(a & t & _ & _ & _ & _ & [(_ & _ & _ & _ & ->)|(l' & _ & _ & P & I' & _)])];
        [exists st, l; eauto|exists st, l; eauto|]. exists st', l'. split_and!; [done|done|]. apply Permutation_length in P. simpl in P. lia.
  - destruct Hop as [Hn Hp]. pose proof (new_task_spec st l nm I Hn Hp) as H. unfold task_factory_create.
    destruct (sched_new_task st nm) as [a st1]. destruct H as (I1 & Eh & Ec & Hs & Ha). unfold register_new.
    destruct (Z.eqb_spec a 0) as [->|Ha0]; [exists st1, l; cbn; eauto|]. rewrite (proj2 (Z.eqb_neq a 0)) by done.
    destruct (Ha Ha0) as (-> & Hal & t & Ht & Hpid & Hnp & Hpar).
    set (st2 := if top =? 0 then st1 else _). set (g := set_stack top (top - CONTEXT_SIZE)).
    assert (exists t2, s_tasks st2 !! nm_task nm = Some t2 /\ t_pid t2 = t_pid t /\ t_parent t2 = t_parent t) as (t2 & Ht2 & Hp2 & Hpar2).
    { unfold st2. destruct (top =? 0); [by exists t|]. rewrite upd_lookup, bool_decide_eq_true_2, Ht by done. by eexists. }
    assert (sched_inv st2 l) as I2 by (unfold st2; destruct (top =? 0); [done|]; by apply inv_upd).
    destruct (register_new_spec st2 st l (nm_task nm) t2 I2 Hal Ha0 Ht2 I) as (st' & E & I').
    + intros b Hb. rewrite <- Hs by done. unfold st2. destruct (top =? 0); [done|].
      rewrite upd_lookup, bool_decide_eq_false_2; [done|]. intros E. apply Hal. by rewrite E.
    + rewrite <- Ec. unfold st2. by destruct (top =? 0).
    + rewrite <- Eh. unfold st2. by destruct (top =? 0).
    + congruence.
    + rewrite <- Hnp. unfold st2. by destruct (top =? 0).
    + lia.
    + congruence.
    + exists st', (g_head_tsk st2 :: nm_task nm :: tail l). split_and!; [done|done|].
      rewrite tail_length; [done|]. apply (ring_head_nz _ _ (si_ring _ _ I2)).
  - destruct Hop as [Hn Hp]. destruct (fork_spec st l nm fm I Hn Hp) as (a & st1 & fds & -> & I1 & Eh & Ec & Hs & _ & Ha).
    cbn [mbind option_bind]. unfold register_new. destruct (Z.eqb_spec a 0) as [->|Ha0]; [exists st1, l; eauto|].
    destruct (Ha Ha0) as (-> & Hal & t & Ht & Hpid & Hnp & Hpar).
    destruct (register_new_spec st1 st l (nm_task nm) t I1 Hal Ha0 Ht I Hs Ec Eh Hpid Hnp) as (st' & E & I'); [lia|done|].
    exists st', (g_head_tsk st1 :: nm_task nm :: tail l). split_and!; [done|done|].
    rewrite tail_length; [done|]. apply (ring_head_nz _ _ (si_ring _ _ I1)).
Qed.
End Exec.

(** ** Runs *)

(** The states the kernel can be in after [n] calls. *)
Inductive reaches : sched -> nat -> Prop :=
  | reach_init a cr3 events stk_top : a <> 0 -> reaches (sched_init a cr3 events stk_top) 0
  | reach_step st n op fuel st' : reaches st n -> op_ok st op -> sched_exec fuel st op = Some st' -> (S n <= fuel)%nat ->
      reaches st' (S n).

Section Runs.
Implicit Types (st : sched) (l m : list Z) (a b c x : Z) (t : Task).

Lemma inv_init a cr3 events stk_top : a <> 0 -> sched_inv (sched_init a cr3 events stk_top) [a].
Proof.
  intros Ha. unfold sched_init. set (tsk := MkTask _ _ _ _ _ _ _ _ _ _).
  assert (forall b t, b ∈ [a] -> ({[a := tsk]} : gmap Z Task) !! b = Some t -> b = a /\ t = tsk) as L.
  { intros b t ->%list_elem_of_singleton. rewrite lookup_singleton_eq. intros [= <-]. done. }
  split; cbn [g_head_tsk g_curr_tsk s_tasks g_next_pid].
  - split; cbn; [|apply NoDup_singleton|done|].
    + split; [|done]. exists tsk. by rewrite lookup_singleton_eq.
    + intros E%list_elem_of_singleton. by subst.
  - by constructor.
  - exists tsk. by rewrite lookup_singleton_eq.
  - exists tsk. by rewrite lookup_singleton_eq.
  - intros b t Hb Hne Ht. by destruct (L b t Hb Ht).
  - intros b1 b2 t1 t2 Hb1 Hb2 H1 H2 _. destruct (L b1 t1 Hb1 H1), (L b2 t2 Hb2 H2). congruence.
  - intros b t Hb Ht. left. by destruct (L b t Hb Ht) as [_ ->].
Qed.

Lemma reaches_inv st n : reaches st n -> exists l, sched_inv st l /\ (length l <= S n)%nat.
Proof.
  induction 1 as [a cr3 ev stk Ha|st n op fuel st' _ (l & I & Hl) Hop E Hf].
  - exists [a]. split; [by apply inv_init|done].
  - destruct (exec_ok fuel st l op I Hop) as (st2 & l' & E2 & I' & Hl'); [lia|]. exists l'. split; [congruence|lia].
Qed.

Lemma pivot_unique x m1 m2 n1 n2 : x ∉ m1 -> x ∉ n1 -> m1 ++ x :: m2 = n1 ++ x :: n2 -> m1 = n1 /\ m2 = n2.
Proof.
  revert n1. induction m1 as [|y m1 IH]; intros [|z n1] Hm Hn E; cbn in E; simplify_eq; [done|set_solver|set_solver|].
  destruct (IH n1) as [-> ->]; [set_solver|set_solver|done|done].
Qed.

(** The ring seen from a task further on. *)
Lemma after_rotate l c m1 x m2 : NoDup l -> c ∈ l -> after l c = m1 ++ x :: m2 -> after l x = m2 ++ m1 ++ [x].
Proof.
  intros Hnd Hc E. assert (x ∈ l) as Hx by (apply (elem_after l c); [done|done|]; rewrite E; set_solver).
  assert (NoDup (m1 ++ x :: m2)) as (_ & Hm & _)%NoDup_app.
  { rewrite <- E. apply list_elem_of_split in Hc as (l1 & l2 & ->). pose proof Hnd as (_ & Hd & _)%NoDup_app.
    rewrite after_app by (intros Hin; apply (Hd c Hin); by constructor).
    assert (l2 ++ l1 ++ [c] ≡ₚ l1 ++ c :: l2) as -> by solve_Permutation. done. }
  assert (x ∉ m1) as Hxm by (intros Hin; apply (Hm x Hin); by constructor).
  apply list_elem_of_split in Hx as (k1 & k2 & ->). pose proof Hnd as (_ & Hk & [Hx2 _]%NoDup_cons)%NoDup_app.
  assert (x ∉ k1) as Hx1 by (intros Hin; apply (Hk x Hin); by constructor). rewrite after_app by done.
  apply elem_of_app in Hc as [Hc|[->|Hc]%elem_of_cons].
  - apply list_elem_of_split in Hc as (j1 & j2 & ->). rewrite <- app_assoc in E, Hnd. cbn in E, Hnd.
    pose proof Hnd as (_ & Hj & _)%NoDup_app. rewrite after_app in E by (intros Hin; apply (Hj c Hin); by constructor).
    rewrite <- app_assoc in E. cbn in E. apply pivot_unique in E as [<- <-]; [|set_solver|done]. by rewrite <- !app_assoc.
  - rewrite after_app in E by done. rewrite app_assoc in E. apply pivot_unique in E as [<- <-]; [|set_solver|done]. by rewrite <- app_assoc.
  - apply list_elem_of_split in Hc as (j1 & j2 & ->).
    assert (k1 ++ x :: j1 ++ c :: j2 = (k1 ++ x :: j1) ++ c :: j2) as El by (by rewrite <- app_assoc). rewrite El in E, Hnd.
    pose proof Hnd as (_ & Hj & _)%NoDup_app. rewrite after_app in E by (intros Hin; apply (Hj c Hin); by constructor).
    rewrite <- app_assoc in E. rewrite app_assoc in E. cbn in E. apply pivot_unique in E as [<- <-]; [|set_solver|done].
    by rewrite <- !app_assoc.
Qed.

Lemma after_length l c : c ∈ l -> length (after l c) = length l.
Proof.
  intros Hc. unfold after. destruct (List.find _ _) as [[i y]|] eqn:E.
  - rewrite length_app, length_drop, length_take. apply List.find_some in E as [Hin _]. apply list_elem_of_In, elem_of_lookup_imap in Hin
      as (j & x & [= -> ->] & Hj). apply lookup_lt_Some in Hj. lia.
  - exfalso. apply list_elem_of_lookup in Hc as [i Hi]. pose proof (List.find_none _ _ E (i, c)) as H.
    cbn in H. rewrite bool_decide_eq_true_2 in H by done. assert (true = false) as [=]. apply H, list_elem_of_In, elem_of_lookup_imap. by exists i, c.
Qed.

(** The first ready task is at or before one that is known to be ready. *)
Lemma first_ready_split ts m1 a m2 : t_state <$> ts !! a = Some READY ->
  exists x k1 k2, first_ready ts (m1 ++ a :: m2) = Some x /\ m1 ++ a :: m2 = k1 ++ x :: k2 /\
    (x = a \/ exists k3, m1 = k1 ++ x :: k3).
Proof.
  intros Ha. induction m1 as [|y m1 IH]; unfold first_ready; cbn [app List.find].
  - rewrite bool_decide_eq_true_2 by done. exists a, [], m2. auto.
  - case_bool_decide as E.
    + exists y, [], (m1 ++ a :: m2). split_and!; [done|done|]. right. by exists m1.
    + fold (first_ready ts (m1 ++ a :: m2)). destruct IH as (x & k1 & k2 & -> & -> & H). exists x, (y :: k1), k2.
      split_and!; [done|done|]. destruct H as [->|(k3 & ->)]; [by left|right]. by exists k3.
Qed.

Lemma fair_from (s : nat -> sched) l a : (forall i, sched_inv (s i) l) -> (forall i, t_state <$> s_tasks (s i) !! a = Some READY) ->
  (forall i, schedule_pick (length l) (s i) = Some (g_curr_tsk (s (S i)))) ->
  forall n i m1 m2, (length m1 <= n)%nat -> after l (g_curr_tsk (s i)) = m1 ++ a :: m2 ->
    exists j, (0 < j <= S (length m1))%nat /\ g_curr_tsk (s (i + j)%nat) = a.
Proof.
  intros HI Ha Hp. induction n as [|n IH]; intros i m1 m2 Hn E.
  all: pose proof (Hp i) as Hpi; rewrite (schedule_pick_spec _ l) in Hpi by done; rewrite E in Hpi;
    destruct (first_ready_split (s_tasks (s i)) m1 a m2 (Ha i)) as (x & k1 & k2 & Ef & Ek & Hx);
    rewrite Ef in Hpi; injection Hpi as Hpi;
    destruct Hx as [->|(k3 & ->)]; [exists 1%nat; split; [lia|]; by rewrite Nat.add_1_r|].
  - rewrite length_app in Hn. simpl in Hn. lia.
  - assert (after l x = (k3 ++ a :: m2) ++ k1 ++ [x]) as Er.
    { eapply after_rotate; [apply (HI i)|apply (HI i)|]. rewrite E. by rewrite <- app_assoc. }
    rewrite length_app in Hn |- *. simpl in Hn |- *.
    destruct (IH (S i) k3 (m2 ++ k1 ++ [x])) as (j & Hj & Ej); [lia|rewrite <- Hpi, Er; by rewrite <- !app_assoc|].
    exists (S j). split; [lia|]. rewrite <- Ej. do 2 f_equal. lia.
Qed.
End Runs.

(** ** Failures *)

(** What the calls before the first one that fails acquired. *)
Fixpoint until_null (es : list (Z * sched_effect)) : list sched_effect :=
  match es with
  | [] => []
  | (p, e) :: es => if p =? 0 then [] else e :: until_null es
  end.

(** How each thing [sched_new_task] allocates is given back, in the order it is allocated. *)
Definition new_releases (nm : new_mem) : list sched_effect :=
  until_null [(nm_task nm, Kfree (nm_task nm)); (nm_pml4 nm, RetPml4 (nm_pml4 nm)); (nm_free nm, Kfree (nm_free nm))].

(** The same for [task_factory_fork] once the child exists. *)
Definition fork_releases (nm : new_mem) (fm : fork_mem) : list sched_effect :=
  [Kfree (nm_task nm); RetPml4 (nm_pml4 nm); CleanupVm (nm_free nm) 0; VmmFree (nm_events nm)]
    ++ (VfsClose <$> filter (fun x => x <> 0) (nm_stdio nm)) ++ until_null [(fm_pml4 fm, FreeTable (fm_pml4 fm))].

Section Failures.
Implicit Types (st : sched) (l : list Z) (nm : new_mem) (fm : fork_mem).

Lemma zeroed_closes t : VfsClose <$> filter (fun x : Z => x <> 0) (fd_tbl (t_res (zeroed t))) = [].
Proof.
  unfold zeroed. cbn. induction (fd_tbl (t_res t)) as [|x l IH]; [done|]. cbn [fmap list_fmap].
  rewrite filter_cons_False by (intros H; by apply H). exact IH.
Qed.

Lemma new_task_fail st nm : let '(a, st') := sched_new_task st nm in a = 0 ->
  s_tasks st' = s_tasks st /\ g_head_tsk st' = g_head_tsk st /\ g_curr_tsk st' = g_curr_tsk st /\ s_windows st' = s_windows st /\
  (nm_task nm = 0 \/ nm_pml4 nm = 0 \/ nm_free nm = 0 \/ nm_events nm = 0) /\
  exists es, s_log st' = s_log st ++ es /\ es ≡ₚ new_releases nm.
Proof.
  unfold sched_new_task, new_releases. cbn [until_null]. destruct (Z.eqb_spec (nm_task nm) 0) as [E|E].
  { intros _. split_and!; [done|done|done|done|by left|]. exists []. by rewrite app_nil_r. }
  destruct (Z.eqb_spec (nm_pml4 nm) 0) as [E1|E1]; [intros _; split_and!; auto; by eexists|].
  destruct (Z.eqb_spec (nm_free nm) 0) as [E2|E2]; [intros _; split_and!; auto; eexists; split; [done|solve_Permutation]|].
  destruct (Z.eqb_spec (nm_events nm) 0) as [E3|E3]; [|done].
  intros _; split_and!; auto 6; eexists; split; [done|solve_Permutation].
Qed.

Lemma new_task_ok st nm : nm_task nm <> 0 -> nm_pml4 nm <> 0 -> nm_free nm <> 0 -> nm_events nm <> 0 ->
  sched_new_task st nm = (nm_task nm,
    Sched (<[nm_task nm := MkTask (g_next_pid st) WAITING 0 (g_curr_tsk st) 0 0 (-1) 0
        (TaskRes 0 0 (nm_pml4 nm) (nm_events nm) (nm_free nm) 0 (nm_stdio nm))
        (TaskInfo USER_HEAP_START (inherit_name st) (inherit_cwd st) (-1))]> (s_tasks st))
      (g_head_tsk st) (g_curr_tsk st) (s32 (g_next_pid st + 1)) (s_windows st) (s_log st)).
Proof. intros. unfold sched_new_task. by rewrite !(proj2 (Z.eqb_neq _ 0)) by done. Qed.

(** Destroying a task that was never registered and has no files open. *)
Lemma destroy_new st a t : a <> 0 -> t_pid t <> 0 -> t_win t = 0 -> zeroed t = t -> kern_stk_top (t_res t) = 0 ->
  event_queue (t_res t) <> 0 -> s_tasks st !! a = Some t ->
  sched_destroy_task st a = Some (Sched (delete a (s_tasks st)) (g_head_tsk st) (g_curr_tsk st) (g_next_pid st) (s_windows st)
    (s_log st ++ VmmFree (event_queue (t_res t)) :: CleanupVm (vm_free_head (t_res t)) (vm_alloc_head (t_res t)) ::
       when (negb (pml4 (t_res t) =? 0)) [FreeTable (pml4 (t_res t))] ++ [Kfree a])).
Proof.
  intros Ha Hp Hw Hz Hk He Ht. unfold sched_destroy_task. rewrite (proj2 (Z.eqb_neq a 0)), Ht by done. cbn [mbind option_bind].
  rewrite (proj2 (Z.eqb_neq (t_pid t) 0)) by done. pose proof (clean_eq st a t Ht) as Ecl.
  destruct (sched_clean_gui st a); [|done]. cbn [mbind option_bind] in *. rewrite Ecl. cbn [mbind option_bind].
  assert (end_effects st t = []) as Ee.
  { unfold end_effects, owns_window. rewrite Hw. cbn [Z.eqb negb andb when app]. rewrite <- Hz. apply zeroed_closes. }
  rewrite Ee, emit_nil, Hk, (proj2 (Z.eqb_neq (event_queue _) 0)) by done. cbn. do 2 f_equal.
  apply map_eq. intros i. destruct (decide (i = a)) as [->|]; [by rewrite !lookup_delete_eq|].
  by rewrite !lookup_delete_ne, lookup_alter_ne by congruence.
Qed.

Lemma fork_fail st parent nm fm st' fds : s_tasks st !! nm_task nm = None -> g_next_pid st <> 0 ->
  task_factory_fork st parent nm fm = Some (0, st', fds) ->
  fds = [] /\ s_tasks st' = s_tasks st /\ g_head_tsk st' = g_head_tsk st /\ g_curr_tsk st' = g_curr_tsk st /\
  exists es, s_log st' = s_log st ++ es /\
    es ≡ₚ if decide (nm_task nm = 0 \/ nm_pml4 nm = 0 \/ nm_free nm = 0 \/ nm_events nm = 0) then new_releases nm else fork_releases nm fm.
Proof.
  intros Hn Hpid. unfold task_factory_fork. case_decide as Hz.
  { pose proof (new_task_fail st nm) as H. destruct (sched_new_task st nm) as [a st1] eqn:E.
    assert (a = 0) as ->.
    { unfold sched_new_task in E. destruct (Z.eqb_spec (nm_task nm) 0); [by injection E|]. destruct (Z.eqb_spec (nm_pml4 nm) 0); [by injection E|].
      destruct (Z.eqb_spec (nm_free nm) 0); [by injection E|]. destruct (Z.eqb_spec (nm_events nm) 0); [by injection E|]. tauto. }
    destruct (H eq_refl) as (? & ? & ? & _ & _ & ?). intros [= <- <-]. split_and!; done. }
  assert (nm_task nm <> 0 /\ nm_pml4 nm <> 0 /\ nm_free nm <> 0 /\ nm_events nm <> 0) as (H1 & H2 & H3 & H4) by tauto.
  rewrite new_task_ok by done. set (a := nm_task nm) in *. rewrite (proj2 (Z.eqb_neq a 0)) by done.
  unfold sched_clean_fds. cbn [s_tasks]. rewrite lookup_insert_eq. cbn [mbind option_bind].
  change (emit (upd ?s a ?f) ?e) with (upd (emit s e) a f). rewrite upd_upd, emit_emit. cbn [fd_tbl t_res].
  set (es := (VfsClose <$> _) ++ _). set (st1 := upd _ a _).
  assert (forall b, b <> a -> s_tasks st1 !! b = s_tasks st !! b) as L
    by (intros b Hb; unfold st1; rewrite upd_lookup, bool_decide_eq_false_2 by congruence; cbn; by rewrite lookup_insert_ne by congruence).
  assert (exists t, s_tasks st1 !! a = Some t /\ t_pid t = g_next_pid st /\ t_win t = 0 /\ zeroed t = t /\
    t_res t = TaskRes 0 0 (fm_pml4 fm) (nm_events nm) (nm_free nm) 0 ((fun _ => 0) <$> nm_stdio nm)) as (t & Ht & Hp & Hw & Hzt & Hr).
  { unfold st1. rewrite upd_lookup, bool_decide_eq_true_2 by done. cbn. rewrite lookup_insert_eq. eexists. split; [done|].
    split_and!; [done|done| |done]. unfold zeroed, set_fd_tbl, set_res. cbn. rewrite <- list_fmap_compose. done. }
  assert (sched_destroy_task st1 a = Some (Sched (s_tasks st) (g_head_tsk st) (g_curr_tsk st) (s32 (g_next_pid st + 1)) (s_windows st)
    (s_log st ++ es ++ VmmFree (nm_events nm) :: CleanupVm (nm_free nm) 0 :: when (negb (fm_pml4 fm =? 0)) [FreeTable (fm_pml4 fm)] ++ [Kfree a]))) as Ed.
  { rewrite (destroy_new st1 a t); [|done|congruence|done|done|by rewrite Hr|by rewrite Hr|done]. rewrite Hr. cbn [vm_free_head vm_alloc_head pml4 event_queue].
    f_equal. f_equal; [|cbn; by rewrite <- app_assoc]. apply map_eq. intros i. destruct (decide (i = a)) as [->|Hi].
    - by rewrite lookup_delete_eq.
    - rewrite lookup_delete_ne by congruence. by apply L. }
  rewrite Ed. cbn [mbind option_bind]. unfold fork_releases. cbn [until_null]. fold a.
  destruct (Z.eqb_spec (fm_pml4 fm) 0) as [E|E].
  - intros [= <- <-]. split_and!; [done|done|done|done|]. eexists. split; [cbn; done|]. unfold es. cbn. solve_Permutation.
  - destruct (fm_stack_top fm =? 0).
    + intros [= <- <-]. split_and!; [done|done|done|done|]. eexists. split; [cbn; done|]. unfold es. cbn. solve_Permutation.
    + destruct (s_tasks st1 !! parent); [|done]. cbn. intros [= ? ?]. congruence.
Qed.
End Failures.

(** ** Theorems *)

(** C7: from the state [sched_init] leaves, whatever sequence of scheduler calls is made
    (scheduling, blocking, waking, exiting, killing, signals, timer ticks, sleeping,
    reaping, waiting, spawning and forking, with memory running out or not), every call
    returns and the invariant holds: the registered tasks form one ring that starts with
    the kernel's task, the current task is on it and not a zombie, pids are unique, and a
    parent pointer is null or to a live registered task. *)
Theorem sched_run_ok (st : sched) (n : nat) : reaches st n ->
  (exists l, sched_inv st l /\ (length l <= S n)%nat) /\
  forall op fuel, op_ok st op -> (S n <= fuel)%nat -> exists st', sched_exec fuel st op = Some st'.
Proof.
  intros H. destruct (reaches_inv st n H) as (l & I & Hl). split; [by exists l|]. intros op fuel Hop Hf.
  destruct (exec_ok fuel st l op I Hop) as (st' & _ & E & _); [lia|]. by exists st'.
Qed.


(** [sched_reap_zombies] reaps the first zombie of the ring nobody can wait for, if
    there is one: it leaves the ring, the invariant is kept, and its stack, event queue,
    region lists, page tables, files and block are each given back once; without such a
    zombie nothing changes. *)
Theorem sched_reap_correct (st : sched) (l : list Z) (fuel : nat) : sched_inv st l -> (length l <= fuel)%nat ->
  exists st', sched_reap_zombies fuel st = Some st' /\
   match find_reap st 0 l with
   | None => st' = st
   | Some (_, z) => exists t l', s_tasks st !! z = Some t /\ reapable st z t = true /\
       l ≡ₚ z :: l' /\ sched_inv st' l' /\ s_tasks st' !! z = None /\ s_log st' = s_log st ++ destroy_effects st z t
   end.
Proof. intros I Hf. destruct (reap_spec fuel st l I Hf) as (st' & E & _ & H). by exists st'. Qed.


(** C40: round-robin is fair: while the ring stays the same, a task that stays ready is
    chosen within as many choices as the ring has tasks. *)
Theorem sched_fair (s : nat -> sched) (l : list Z) (a : Z) : a ∈ l -> (forall i, sched_inv (s i) l) ->
  (forall i, t_state <$> s_tasks (s i) !! a = Some READY) ->
  (forall i, schedule_pick (length l) (s i) = Some (g_curr_tsk (s (S i)))) ->
  forall i, exists j, (0 < j <= length l)%nat /\ g_curr_tsk (s (i + j)%nat) = a.
Proof.
  intros Ha HI Hr Hp i. pose proof (HI i) as I. assert (a ∈ after l (g_curr_tsk (s i))) as Hin.
  { apply elem_after; [apply I|apply (si_ring _ _ I)|done]. }
  apply list_elem_of_split in Hin as (m1 & m2 & E).
  destruct (fair_from s l a HI Hr Hp (length m1) i m1 m2 (le_n _) E) as (j & Hj & Ej). exists j. split; [|done].
  pose proof (after_length l (g_curr_tsk (s i)) (si_curr _ _ I)) as El. rewrite E, length_app in El. simpl in El. lia.
Qed.

(** When a fork fails for want of memory, at whatever allocation, the tasks, the head
    and the current task are as before and everything it had acquired is given back
    exactly once. *)
Theorem fork_failure (st : sched) (parent : Z) (nm : new_mem) (fm : fork_mem) (st' : sched) (fds : list Z) :
  s_tasks st !! nm_task nm = None -> g_next_pid st <> 0 -> task_factory_fork st parent nm fm = Some (0, st', fds) ->
  fds = [] /\ s_tasks st' = s_tasks st /\ g_head_tsk st' = g_head_tsk st /\ g_curr_tsk st' = g_curr_tsk st /\
  exists es, s_log st' = s_log st ++ es /\
    es ≡ₚ if decide (nm_task nm = 0 \/ nm_pml4 nm = 0 \/ nm_free nm = 0 \/ nm_events nm = 0) then new_releases nm else fork_releases nm fm.
Proof. apply fork_fail. Qed.

(** ** Examples *)

(** The kernel's task and two more, the second [curr]; [p3] is the third's parent. *)
Definition demo_task (pid : Z) (s : task_state) (next parent : Z) : Task :=
  MkTask pid s next parent 0 7 (-1) 0 (TaskRes 0x70000 0x6ff28 0x20 0x22 0x21 0 [5; 0]) (TaskInfo USER_HEAP_START USER_TASK ROOT_DIR (-1)).
Definition demo (s2 s3 : task_state) (p3 curr : Z) : sched :=
  Sched (<[0x1000 := demo_task 0 READY 0x2000 0]> (<[0x2000 := demo_task 1 s2 0x3000 0x1000]> (<[0x3000 := demo_task 2 s3 0x1000 p3]> ∅)))
    0x1000 curr 3 ∅ [].
Definition demo_ring : list Z := [0x1000; 0x2000; 0x3000].

Lemma demo_lookup s2 s3 p3 curr a t : a ∈ demo_ring -> s_tasks (demo s2 s3 p3 curr) !! a = Some t ->
  (a = 0x1000 /\ t = demo_task 0 READY 0x2000 0) \/ (a = 0x2000 /\ t = demo_task 1 s2 0x3000 0x1000) \/
  (a = 0x3000 /\ t = demo_task 2 s3 0x1000 p3).
Proof.
  unfold demo_ring. rewrite !elem_of_cons, elem_of_nil. intros [->|[->|[->|[]]]]; vm_compute; intros [= <-]; auto.
Qed.

Lemma demo_inv s2 s3 p3 curr : (curr = 0x1000 \/ (curr = 0x2000 /\ alive s2 = true) \/ (curr = 0x3000 /\ alive s3 = true)) ->
  (p3 = 0x1000 \/ (p3 = 0x2000 /\ alive s2 = true)) -> sched_inv (demo s2 s3 p3 curr) demo_ring.
Proof.
  intros Hc Hp. split.
  - split; [repeat (split; [eexists; split; vm_compute; reflexivity|]); done|by apply (bool_decide_unpack _)|done|by apply (bool_decide_unpack _)].
  - unfold demo_ring. cbn. rewrite !elem_of_cons. tauto.
  - destruct Hc as [->|[[-> H]|[-> H]]]; eexists; (split; [vm_compute; reflexivity|done]).
  - eexists. split; [vm_compute; reflexivity|done].
  - intros a t Ha Hne Ht. destruct (demo_lookup _ _ _ _ _ _ Ha Ht) as [[-> ->]|[[-> ->]|[-> ->]]]; [done|cbn; lia|cbn; lia].
  - intros a b t t' Ha Hb Ht Ht'. destruct (demo_lookup _ _ _ _ _ _ Ha Ht) as [[-> ->]|[[-> ->]|[-> ->]]];
      destruct (demo_lookup _ _ _ _ _ _ Hb Ht') as [[-> ->]|[[-> ->]|[-> ->]]]; cbn; intros; (done || lia).
  - intros a t Ha Ht. destruct (demo_lookup _ _ _ _ _ _ Ha Ht) as [[-> ->]|[[-> ->]|[-> ->]]]; [by left| |]; right; cbn [t_parent demo_task].
    + split; [by apply (bool_decide_unpack _)|]. eexists. split; [vm_compute; reflexivity|done].
    + destruct Hp as [->|[-> H]]; (split; [by apply (bool_decide_unpack _)|]); eexists; (split; [vm_compute; reflexivity|done]).
Qed.

Definition demo_mem (a : Z) : new_mem := NewMem a 0x20 0x21 0x22 [5; 0].

Lemma sched_run_ok_witness : exists st, reaches st 2 /\ g_curr_tsk st = 0x2000 /\
  exists st', sched_exec 3 st (OpFork (demo_mem 0x3000) (ForkMem 0x30 0x80000 0x31 0)) = Some st'.
Proof.
  assert (exists st, reaches st 2 /\ g_curr_tsk st = 0x2000 /\ s_tasks st !! 0x3000 = None /\ g_next_pid st = 2) as (st & H & Hc & Hn & Hp).
  { set (st0 := sched_init 0x1000 0x9000 0x22 0x60000). assert (reaches st0 0) as R0 by (by apply reach_init).
    destruct (sched_exec 1 st0 (OpSpawn (demo_mem 0x2000) 0x70000)) as [st1|] eqn:E1; [|by vm_compute in E1].
    assert (reaches st1 1) as R1 by (refine (reach_step _ _ _ _ _ R0 _ E1 _); [split; [done|cbn; lia]|lia]).
    destruct (sched_exec 2 st1 OpSchedule) as [st2|] eqn:E2; [|vm_compute in E1; injection E1 as <-; by vm_compute in E2].
    assert (reaches st2 2) as R2 by (refine (reach_step _ _ _ _ _ R1 _ E2 _); [done|lia]).
    exists st2. split; [exact R2|]. vm_compute in E1. injection E1 as <-. vm_compute in E2. injection E2 as <-. by vm_compute. }
  exists st. split_and!; [done|done|]. apply (sched_run_ok st 2 H); [|lia]. split; [done|rewrite Hp; lia].
Defined.


Lemma sched_reap_correct_witness : exists st', sched_reap_zombies 3 (demo ZOMBIE READY 0x1000 0x1000) = Some st' /\
  s_tasks st' !! 0x2000 = None /\
  s_log st' = [VfsClose 5; FreeFrame 0x6f000; VmmFree 0x22; CleanupVm 0x21 0; FreeTable 0x20; Kfree 0x2000].
Proof.
  destruct (sched_reap_correct (demo ZOMBIE READY 0x1000 0x1000) demo_ring 3) as (st' & E & H); [apply demo_inv; auto|simpl; lia|].
  exists st'. vm_compute in E. injection E as <-. split_and!; vm_compute; reflexivity.
Defined.


(** The kernel's task and the third take turns, the second sleeps. *)
Lemma sched_fair_witness : exists j, (0 < j <= 3)%nat /\ g_curr_tsk (demo SLEEPING READY 0x2000 (if Nat.even (5 + j) then 0x1000 else 0x3000)) = 0x3000.
Proof.
  apply (sched_fair (fun i => demo SLEEPING READY 0x2000 (if Nat.even i then 0x1000 else 0x3000)) demo_ring 0x3000).
  - by apply (bool_decide_unpack _).
  - intros i. apply demo_inv; [destruct (Nat.even i); auto|auto].
  - intros i. destruct (Nat.even i); vm_compute; reflexivity.
  - intros i. rewrite Nat.even_succ, <- Nat.negb_even. destruct (Nat.even i); vm_compute; reflexivity.
Defined.

Lemma fork_failure_witness : exists st', task_factory_fork (demo READY READY 0x2000 0x2000) 0x2000 (demo_mem 0x4000) (ForkMem 0x30 0 0 0) = Some (0, st', []) /\
  s_tasks st' = s_tasks (demo READY READY 0x2000 0x2000).
Proof.
  destruct (task_factory_fork (demo READY READY 0x2000 0x2000) 0x2000 (demo_mem 0x4000) (ForkMem 0x30 0 0 0)) as [[[a st'] fds]|] eqn:E;
    [|by vm_compute in E]. assert (a = 0) as -> by (vm_compute in E; congruence).
  destruct (fork_failure (demo READY READY 0x2000 0x2000) 0x2000 (demo_mem 0x4000) (ForkMem 0x30 0 0 0) st' fds ltac:(vm_compute; reflexivity) ltac:(vm_compute; discriminate) E) as (-> & Ht & _). by exists st'.
Defined.

(** [sys_waitpid] looks at the child and then blocks in two steps.  When the timer
    preempts the caller between them and the child exits, the child's wake-up finds the
    caller ready, and the caller then waits for ever: the child is a zombie, and no
    scheduling, timer tick or reaping changes the state any more. *)
Theorem waitpid_lost_wakeup :
  let st0 := demo READY READY 0x2000 0x2000 in
  t_state <$> s_tasks st0 !! 0x3000 = Some READY /\
  exists st1 st2 st3, schedule 3 st0 = Some st1 /\ g_curr_tsk st1 = 0x3000 /\
    sched_exit 3 st1 0 = Some st2 /\ schedule 3 (set_curr st2 0x1000) = Some (set_curr st2 0x2000) /\
    sched_block 3 (set_curr st2 0x2000) = Some st3 /\
    t_state <$> s_tasks st3 !! 0x2000 = Some WAITING /\ t_state <$> s_tasks st3 !! 0x3000 = Some ZOMBIE /\
    schedule 3 st3 = Some st3 /\ sched_reap_zombies 3 st3 = Some st3 /\
    forall tick, sched_check_sleeping_tasks 3 st3 tick = Some st3.
Proof.
  split; [vm_compute; reflexivity|]. eexists _, _, _.
  split_and!; [vm_compute; reflexivity..|]. intros tick. vm_compute. reflexivity.
Qed.
