(* ===== verification/TaskCtx.v ===== *)
(** The saved context of a task on its kernel stack: [task_context_setup],
    [task_context_reset] and the end of [task_factory_fork] of [src/src/sched/sched.c],
    with the code that writes and reads such a context, [syscall_entry] of
    [src/src/arch/syscall.asm] and [switch_to_task] and [task_start_stub] of
    [src/src/sched/sched.asm].

    A stack is part of the byte memory; the address of [task_start_stub] is a parameter. *)
From S2P Require Import Prelude Machine.

Definition NEW_TASK_SS : Z := Z.lor 0x28 0x3.
Definition NEW_TASK_CS : Z := Z.lor 0x30 0x3.
Definition NEW_TASK_RFLAGS : Z := 0x202.
Definition PAGE_SIZE : Z := 4096.

(** The registers a user program sees. *)
Record regs := Regs {
  rax : Z; rbx : Z; rcx : Z; rdx : Z; rsi : Z; rdi : Z; rbp : Z;
  r8 : Z; r9 : Z; r10 : Z; r11 : Z; r12 : Z; r13 : Z; r14 : Z; r15 : Z;
  rip : Z; cs : Z; rflags : Z; rsp : Z; ss : Z }.

(** [*(--sp) = v] for each value in turn. *)
Definition push (s : mem * Z) (v : Z) : mem * Z := (store64 s.1 (s.2 - 8) v, s.2 - 8).
Definition pushes (s : mem * Z) (vs : list Z) : mem * Z := foldl push s vs.

(** [n] times [pop]. *)
Fixpoint pops (n : nat) (m : mem) (sp : Z) : list Z * Z :=
  match n with
  | O => ([], sp)
  | S n => let '(vs, sp') := pops n m (sp + 8) in (load64 m sp :: vs, sp')
  end.

Section Context.
Context (task_start_stub : Z).

(** What both functions push. *)
Definition start_frame (entry rsp : Z) : list Z :=
  [NEW_TASK_SS; rsp; NEW_TASK_RFLAGS; NEW_TASK_CS; entry] ++ replicate 15 0 ++ [task_start_stub] ++ replicate 6 0.

(** The stack frame is at [kern_stk], 0 when there is none; [hhdm] is the offset of the
    direct map.  The result is [kern_stk_top], [kern_stk_rsp] and the memory. *)
Definition task_context_setup (m : mem) (hhdm kern_stk entry rsp : Z) : option (Z * Z * mem) :=
  if kern_stk =? 0 then None
  else
    let top := kern_stk + hhdm + PAGE_SIZE in
    let '(m, sp) := pushes (m, top) (start_frame entry rsp) in
    Some (top, sp, m).

Definition task_context_reset (m : mem) (kern_stk_top entry rsp : Z) : Z * mem :=
  let '(m, sp) := pushes (m, kern_stk_top) (start_frame entry rsp) in (sp, m).

(** The context [task_factory_fork] gives the child, from the one [syscall_entry] left at
    the top of the parent's stack. *)
Definition fork_frame (m : mem) (parent_top : Z) : list Z :=
  let parent_sp := parent_top - 8 * 13 in
  let at_ i := load64 m (parent_sp + 8 * i) in
  [NEW_TASK_SS; at_ 12; Z.lor (at_ 10) 0x200; NEW_TASK_CS; at_ 11;
   0; at_ 7; at_ 11; 0; 0; 0; at_ 8; at_ 6; at_ 5; at_ 4; at_ 10; at_ 3; at_ 2; at_ 1; at_ 0;
   task_start_stub] ++ replicate 6 0.

Definition fork_context (m : mem) (parent_top child_top : Z) : Z * mem :=
  let '(m, sp) := pushes (m, child_top) (fork_frame m parent_top) in (sp, m).

(** ** The assembly *)

(** The pushes of [syscall_entry] on the stack of the current task; the processor has put
    the return address in [rcx] and the flags in [r11]. *)
Definition syscall_entry (m : mem) (kern_stk_ptr : Z) (r : regs) : mem * Z :=
  pushes (m, kern_stk_ptr) [rsp r; rcx r; r11 r; rax r; rbp r; rbx r; r8 r; r9 r; r10 r; r12 r; r13 r; r14 r; r15 r].

(** [switch_to_task] to a stack pointer: it restores six registers and returns; a new task
    returns to [task_start_stub], which restores the rest and enters user mode. *)
Definition switch_to_new (m : mem) (next_rsp : Z) : option regs :=
  match pops 7 m next_rsp with
  | ([_; _; _; _; _; _; ret], sp) =>
      if ret =? task_start_stub then
        match pops 20 m sp with
        | ([v15; v14; v13; v12; v11; v10; v9; v8; vbp; vdi; vsi; vdx; vcx; vbx; vax; vip; vcs; vfl; vsp; vss], _) =>
            Some (Regs vax vbx vcx vdx vsi vdi vbp v8 v9 v10 v11 v12 v13 v14 v15 vip vcs vfl vsp vss)
        | _ => None
        end
      else None
  | _ => None
  end.
End Context.

(** ** Stacks *)
Section Stacks.
Implicit Types (m : mem) (sp a v : Z) (vs : list Z).

Lemma pushes_sp vs m sp : (pushes (m, sp) vs).2 = sp - 8 * Z.of_nat (length vs).
Proof.
  revert m sp. induction vs as [|v vs IH]; intros m sp; cbn [pushes foldl]; [cbn; lia|].
  unfold push at 2. cbn [fst snd]. fold (pushes (store64 m (sp - 8) v, sp - 8) vs). rewrite IH. cbn [length]. lia.
Qed.

Lemma pushes_out vs m sp a : a < sp - 8 * Z.of_nat (length vs) \/ sp <= a -> get8 (pushes (m, sp) vs).1 a = get8 m a.
Proof.
  revert m sp. induction vs as [|v vs IH]; intros m sp Ha; cbn [pushes foldl]; [done|]. unfold push at 2. cbn [fst snd].
  fold (pushes (store64 m (sp - 8) v, sp - 8) vs). cbn [length] in Ha. rewrite IH by lia. apply (get8_store_out 8). lia.
Qed.

(** Popping what was pushed gives it back, last first. *)
Lemma pops_pushes vs m sp : pops (length vs) (pushes (m, sp) vs).1 (sp - 8 * Z.of_nat (length vs)) = (rev (u64 <$> vs), sp).
Proof.
  revert m sp. induction vs as [|v vs IH] using rev_ind; intros m sp; [cbn; f_equal; lia|].
  rewrite length_app, Nat.add_1_r. unfold pushes. rewrite foldl_app. cbn [foldl]. fold (pushes (m, sp) vs).
  destruct (pushes (m, sp) vs) as [m' sp'] eqn:E. pose proof (pushes_sp vs m sp) as Es. rewrite E in Es. cbn [snd] in Es.
  unfold push. cbn [fst snd pops].
  assert (sp - 8 * Z.of_nat (S (length vs)) = sp' - 8) as -> by lia. rewrite Z.sub_add.
  assert (pops (length vs) (store64 m' (sp' - 8) v) sp' = pops (length vs) m' sp') as ->.
  { clear. assert (forall n a, sp' <= a -> pops n (store64 m' (sp' - 8) v) a = pops n m' a) as H; [|apply H; lia].
    induction n as [|n IH]; intros a Ha; [done|]. cbn [pops]. rewrite IH, load64_store64_ne by lia. done. }
  specialize (IH m sp). rewrite E in IH. cbn [fst] in IH. rewrite <- Es in IH. rewrite IH.
  rewrite fmap_app, rev_app_distr. change (rev (u64 <$> [v])) with [u64 v]. cbn [app]. do 2 f_equal. apply (load_store_eq 8).
Qed.

Lemma pops_app n k m sp : pops (n + k) m sp = let '(x, sp1) := pops n m sp in let '(y, sp2) := pops k m sp1 in (x ++ y, sp2).
Proof.
  revert sp. induction n as [|n IH]; intros sp; cbn [Nat.add pops]; [by destruct (pops k m sp)|].
  rewrite IH. destruct (pops n m (sp + 8)) as [x sp1]. by destruct (pops k m sp1).
Qed.
Lemma pops_seq n m sp k : (pops n m (sp + 8 * Z.of_nat k)).1 = (fun i => load64 m (sp + 8 * Z.of_nat i)) <$> seq k n.
Proof.
  revert k. induction n as [|n IH]; intros k; [done|]. cbn [pops seq fmap list_fmap]. rewrite <- (IH (S k)).
  replace (sp + 8 * Z.of_nat (S k)) with (sp + 8 * Z.of_nat k + 8) by lia. by destruct (pops n m _).
Qed.

Lemma pops_length n m sp : length (pops n m sp).1 = n.
Proof. revert sp. induction n as [|n IH]; intros sp; [done|]. cbn. specialize (IH (sp + 8)). destruct (pops n m (sp + 8)). cbn in *. by rewrite IH. Qed.
End Stacks.

(** ** Contexts *)
Section Resume.
Context (task_start_stub : Z) (Hstub : is_u64 task_start_stub).
Implicit Types (m : mem) (r : regs).

(** What [switch_to_task] makes of a pushed frame: the six registers, the stub, the
    registers and the frame of [iretq]. *)
Lemma switch_frame m top f r z1 z2 z3 z4 z5 z6 :
  u64 <$> f = [ss r; rsp r; rflags r; cs r; rip r; rax r; rbx r; rcx r; rdx r; rsi r; rdi r; rbp r; r8 r; r9 r; r10 r; r11 r;
    r12 r; r13 r; r14 r; r15 r; task_start_stub; z1; z2; z3; z4; z5; z6] ->
  switch_to_new task_start_stub (pushes (m, top) f).1 (top - 8 * 27) = Some r.
Proof.
  intros E. assert (length f = 27%nat) as Hl by (rewrite <- (length_fmap u64), E; done).
  pose proof (pops_pushes f m top) as H. rewrite Hl, E in H. change (Z.of_nat 27) with 27 in H.
  rewrite (pops_app 7 20) in H. unfold switch_to_new. destruct (pops 7 _ _) as [x sp1] eqn:E7.
  destruct (pops 20 _ sp1) as [y sp2] eqn:E20.
  pose proof (pops_length 7 (pushes (m, top) f).1 (top - 8 * 27)) as Lx. rewrite E7 in Lx. cbn [fst] in Lx.
  cbn [rev app] in H. do 7 (destruct x as [|? x]; [done|]). destruct x; [|done]. cbn [app] in H. injection H as -> -> -> -> -> -> -> -> Esp.
  rewrite Z.eqb_refl. by destruct r.
Qed.

(** What [syscall_entry] leaves of the caller's registers at the top of its stack. *)
Definition saved m (top : Z) r : Prop :=
  fst (pops 13 m (top - 8 * 13)) = [r15 r; r14 r; r13 r; r12 r; r10 r; r9 r; r8 r; rbx r; rbp r; rax r; r11 r; rcx r; rsp r].

Definition regs_ok r : Prop :=
  Forall is_u64 [rax r; rbx r; rcx r; rbp r; r8 r; r9 r; r10 r; r11 r; r12 r; r13 r; r14 r; r15 r; rsp r].

Lemma syscall_entry_saved m top r : regs_ok r -> saved (syscall_entry m top r).1 top r.
Proof.
  intros H. unfold saved, syscall_entry. rewrite (pops_pushes [rsp r; _; _; _; _; _; _; _; _; _; _; _; _]). cbn [fst fmap list_fmap rev app].
  unfold regs_ok in H. rewrite !Forall_cons in H. destruct_and? H. by rewrite !u64_small by done.
Qed.

Lemma saved_ext m m' top r : saved m top r -> (forall a, top - 104 <= a < top -> get8 m' a = get8 m a) -> saved m' top r.
Proof.
  intros H He. unfold saved. rewrite <- H. f_equal.
  assert (forall n a, top - 104 <= a -> a + 8 * Z.of_nat n <= top -> pops n m' a = pops n m a) as L; [|apply L; lia].
  induction n as [|n IH]; intros a Ha Hn; [done|]. cbn [pops]. rewrite IH by lia. destruct (pops n m (a + 8)). do 2 f_equal.
  apply load_ext. intros i Hi. apply He. lia.
Qed.

(** The registers the child of a fork starts with, given the parent's at the system call. *)
Definition forked r : regs :=
  Regs 0 (rbx r) (rcx r) 0 0 0 (rbp r) (r8 r) (r9 r) (r10 r) (r11 r) (r12 r) (r13 r) (r14 r) (r15 r)
    (rcx r) NEW_TASK_CS (Z.lor (r11 r) 0x200) (rsp r) NEW_TASK_SS.

Lemma lor_u64 a b : is_u64 a -> 0 <= b < 2 ^ 64 -> is_u64 (Z.lor a b).
Proof. intros. apply lor_range; [lia|done|done]. Qed.

Lemma fork_frame_words m top r : saved m top r ->
  fork_frame task_start_stub m top = [NEW_TASK_SS; rsp r; Z.lor (r11 r) 0x200; NEW_TASK_CS; rcx r; 0; rbx r; rcx r; 0; 0; 0; rbp r;
    r8 r; r9 r; r10 r; r11 r; r12 r; r13 r; r14 r; r15 r; task_start_stub; 0; 0; 0; 0; 0; 0].
Proof.
  intros H. unfold saved in H. pose proof (pops_seq 13 m (top - 8 * 13) 0) as E. rewrite Z.mul_0_r, Z.add_0_r, H in E. symmetry in E.
  cbv [seq fmap list_fmap Z.of_nat Pos.of_succ_nat Pos.succ] in E. unfold fork_frame. cbn [app replicate].
  injection E as -> -> -> -> -> -> -> -> -> _ -> -> ->. done.
Qed.
End Resume.

(** ** Theorems *)

(** A forked child resumes where its parent made the system call.  With the parent's
    registers saved by [syscall_entry] and unchanged since, and a child stack elsewhere, the
    first switch to the child enters user mode at the parent's return address, with its
    stack pointer and flags (interrupts on), with every register a system call preserves,
    and with 0 as the result of [fork]; the parent's saved registers are untouched. *)
Theorem fork_child_resumes (stub : Z) (m0 m : mem) (parent_top child_top : Z) (r : regs) :
  is_u64 stub -> regs_ok r ->
  (forall a, parent_top - 104 <= a < parent_top -> get8 m a = get8 (syscall_entry m0 parent_top r).1 a) ->
  child_top <= parent_top - 104 \/ parent_top <= child_top - 216 ->
  let '(sp, m') := fork_context stub m parent_top child_top in
  sp = child_top - 216 /\ switch_to_new stub m' sp = Some (forked r) /\ saved m' parent_top r /\
  forall a, a < child_top - 216 \/ child_top <= a -> get8 m' a = get8 m a.
Proof.
  intros Hs Hr He Hd. assert (saved m parent_top r) as Hsv by (eapply saved_ext; [by apply syscall_entry_saved|done]).
  unfold fork_context. rewrite (fork_frame_words stub m parent_top r Hsv). set (f := [_; _; _; _; _; _; _; _; _; _; _; _; _; _; _; _; _; _; _; _; _; _; _; _; _; _; _]).
  pose proof (pushes_sp f m child_top) as Esp. pose proof (fun a => pushes_out f m child_top a) as Hout.
  assert (switch_to_new stub (pushes (m, child_top) f).1 (child_top - 8 * 27) = Some (forked r)) as E.
  { apply (switch_frame stub) with (z1 := 0) (z2 := 0) (z3 := 0) (z4 := 0) (z5 := 0) (z6 := 0).
    unfold regs_ok in Hr. rewrite !Forall_cons in Hr. destruct_and? Hr. unfold f, forked. cbn [fmap list_fmap ss rsp rflags cs rip rax rbx rcx rdx rsi rdi rbp r8 r9 r10 r11 r12 r13 r14 r15].
    rewrite !u64_small; first [done | (apply lor_u64; [done|lia]) | (vm_compute; intuition congruence)]. }
  destruct (pushes (m, child_top) f) as [m' sp]. cbn [fst snd] in *. change (Z.of_nat (length f)) with 27 in *. subst sp.
  split_and!; [lia|done| |intros a Ha; apply Hout; lia]. eapply saved_ext; [exact Hsv|]. intros a Ha. apply Hout. lia.
Qed.

(** A task made by [task_context_setup] or reset by [task_context_reset] starts in user
    mode at its entry point with its stack pointer, interrupts on and all registers 0, and
    nothing but the top of its stack is written. *)
Theorem new_task_starts (stub : Z) (m : mem) (top entry sp0 : Z) : is_u64 stub -> is_u64 entry -> is_u64 sp0 ->
  let '(sp, m') := task_context_reset stub m top entry sp0 in
  sp = top - 216 /\
  switch_to_new stub m' sp = Some (Regs 0 0 0 0 0 0 0 0 0 0 0 0 0 0 0 entry NEW_TASK_CS NEW_TASK_RFLAGS sp0 NEW_TASK_SS) /\
  (forall a, a < top - 216 \/ top <= a -> get8 m' a = get8 m a) /\
  forall hhdm frame, frame <> 0 -> top = frame + hhdm + PAGE_SIZE ->
    task_context_setup stub m hhdm frame entry sp0 = Some (top, sp, m').
Proof.
  intros Hs He Hp. unfold task_context_reset, task_context_setup. pose proof (pushes_sp (start_frame stub entry sp0) m top) as Esp.
  pose proof (fun a => pushes_out (start_frame stub entry sp0) m top a) as Hout.
  set (r := Regs 0 0 0 0 0 0 0 0 0 0 0 0 0 0 0 entry NEW_TASK_CS NEW_TASK_RFLAGS sp0 NEW_TASK_SS).
  assert (switch_to_new stub (pushes (m, top) (start_frame stub entry sp0)).1 (top - 8 * 27) = Some r) as E.
  { apply (switch_frame stub) with (z1 := 0) (z2 := 0) (z3 := 0) (z4 := 0) (z5 := 0) (z6 := 0).
    cbn [start_frame app replicate fmap list_fmap ss rsp rflags cs rip rax rbx rcx rdx rsi rdi rbp r8 r9 r10 r11 r12 r13 r14 r15 r].
    rewrite !u64_small; first [done | (vm_compute; intuition congruence)]. }
  destruct (pushes (m, top) (start_frame stub entry sp0)) as [m' sp] eqn:Ep. cbn [fst snd] in *.
  change (Z.of_nat (length (start_frame stub entry sp0))) with 27 in *. subst sp.
  split_and!; [lia|done|intros a Ha; apply Hout; lia|]. intros hhdm frame Hf ->. rewrite (proj2 (Z.eqb_neq frame 0)) by done. by rewrite Ep.
Qed.

Definition demo_regs : regs := Regs 57 11 0x400123 0 0 0 0x7ffe0 8 9 10 0x246 12 13 14 15 0 0 0 0x7ff00 0.

Lemma fork_child_resumes_witness : exists m', fork_context 0x8000 (syscall_entry ∅ 0x3000 demo_regs).1 0x3000 0x5000 = (0x5000 - 216, m') /\
  switch_to_new 0x8000 m' (0x5000 - 216) = Some (Regs 0 11 0x400123 0 0 0 0x7ffe0 8 9 10 0x246 12 13 14 15 0x400123 0x33 0x246 0x7ff00 0x2B).
Proof.
  pose proof (fork_child_resumes 0x8000 ∅ (syscall_entry ∅ 0x3000 demo_regs).1 0x3000 0x5000 demo_regs) as H.
  destruct (fork_context 0x8000 _ 0x3000 0x5000) as [sp m'].
  destruct H as (-> & E & _); [unfold is_u64; lia| |done|lia|].
  - unfold regs_ok, is_u64. cbn. repeat (apply Forall_cons; split; [lia|]). constructor.
  - exists m'. split; [done|exact E].
Defined.

Lemma new_task_starts_witness : exists m', task_context_reset 0x8000 ∅ 0x5000 0x400000 0x7ff00 = (0x5000 - 216, m') /\
  switch_to_new 0x8000 m' (0x5000 - 216) = Some (Regs 0 0 0 0 0 0 0 0 0 0 0 0 0 0 0 0x400000 0x33 0x202 0x7ff00 0x2B).
Proof.
  pose proof (new_task_starts 0x8000 ∅ 0x5000 0x400000 0x7ff00) as H. destruct (task_context_reset _ _ _ _ _) as [sp m'].
  destruct H as (-> & E & _); [unfold is_u64; lia|unfold is_u64; lia|unfold is_u64; lia|]. exists m'. split; [done|exact E].
Defined.
