(* ===== verification/WinClip.v ===== *)
(** Visible parts of windows, [src/src/gui/window.c]: rectangles, their pool, clipping.

    A list of [Rect] linked by [next] is a list of nodes; a node is a slot of
    [g_rect_storage] with what it holds, and the pool is the list of free slots.  [win_rect]
    and the rectangles of the windows above come from the window list (file [Window]). *)
From S2P Require Import Prelude.

Record Rect := MkRect { r_x : Z; r_y : Z; r_w : Z; r_h : Z }.
Record rnode := Node { n_slot : Z; n_rect : Rect }.

#[export] Instance rect_eq_dec : EqDecision Rect.
Proof. solve_decision. Defined.

Definition TASKBAR_HEIGHT : Z := 28.
Definition MAX_RECT_POOL : nat := 2000.

(** ** The pool *)
Definition init_rect_pool : list Z := seqZ 0 (Z.of_nat MAX_RECT_POOL).

Definition rect_alloc (free : list Z) : option (Z * list Z) :=
  match free with
  | [] => None
  | s :: free => Some (s, free)
  end.

Definition rect_free (s : Z) (free : list Z) : list Z := s :: free.

(** [while (old_rect != NULL)]: a whole list. *)
Definition free_list (free : list Z) (l : list rnode) : list Z := foldl (fun free n => rect_free (n_slot n) free) free l.

(** ** Clipping *)
Definition rect_intersect (r1 r2 : Rect) : bool :=
  negb ((s64 (r_x r1 + s64 (r_w r1)) <=? r_x r2) || (s64 (r_x r2 + s64 (r_w r2)) <=? r_x r1) ||
        (s64 (r_y r1 + s64 (r_h r1)) <=? r_y r2) || (s64 (r_y r2 + s64 (r_h r2)) <=? r_y r1)).

(** [APPEND_RECT] *)
Definition append_rect (s : list rnode * list Z) (r : Rect) : list rnode * list Z :=
  match rect_alloc s.2 with
  | None => s
  | Some (slot, free) => (s.1 ++ [Node slot r], free)
  end.

Definition clip_rect (free : list Z) (r clipper : Rect) : list rnode * list Z :=
  if negb (rect_intersect r clipper) then append_rect ([], free) r
  else
    let rx := r_x r in let ry := r_y r in let rw := s64 (r_w r) in let rh := s64 (r_h r) in
    let '(s, rx, rw) :=
      if (rx <? r_x clipper) && (r_x clipper <? s64 (rx + rw)) then
        let new_w := u64 (r_x clipper - rx) in
        (append_rect ([], free) (MkRect rx ry new_w (u64 rh)), r_x clipper, s64 (rw - new_w))
      else (([], free), rx, rw) in
    let clipper_right := s64 (r_x clipper + r_w clipper) in
    let rect_right := s64 (rx + rw) in
    let '(s, rw) :=
      if (clipper_right <? rect_right) && (rx <? clipper_right) then
        let new_w := u64 (rect_right - clipper_right) in
        (append_rect s (MkRect clipper_right ry new_w (u64 rh)), s64 (rw - new_w))
      else (s, rw) in
    let '(s, ry, rh) :=
      if (ry <? r_y clipper) && (r_y clipper <? s64 (ry + rh)) then
        let new_h := u64 (r_y clipper - ry) in
        (append_rect s (MkRect rx ry (u64 rw) new_h), r_y clipper, s64 (rh - new_h))
      else (s, ry, rh) in
    let clipper_bot := s64 (r_y clipper + r_h clipper) in
    let rect_bot := s64 (ry + rh) in
    if (clipper_bot <? rect_bot) && (ry <? clipper_bot) then
      let new_h := u64 (rect_bot - clipper_bot) in
      append_rect s (MkRect rx clipper_bot (u64 rw) new_h)
    else s.

(** The window cut to the screen of [scrn_w] by [scrn_h] pixels, the taskbar left out for
    all but the desktop; [None] when nothing is left. *)
Definition screen_clip (scrn_w scrn_h : Z) (desktop : bool) (win : Rect) : option Rect :=
  let max_screen_h := if desktop then scrn_h else u64 (scrn_h - TASKBAR_HEIGHT) in
  let '(x, w) := if r_x win <? 0 then (0, u64 (r_w win + r_x win)) else (r_x win, r_w win) in
  let w := if scrn_w <? u64 (x + w) then u64 (scrn_w - x) else w in
  let '(y, h) := if r_y win <? 0 then (0, u64 (r_h win + r_y win)) else (r_y win, r_h win) in
  h ← (if max_screen_h <? u64 (y + h) then
         if max_screen_h <=? u64 y then None else Some (u64 (max_screen_h - y))
       else Some h);
  if (s64 w <=? 0) || (s64 h <=? 0) then None else Some (MkRect x y w h).

(** [while (curr_list != NULL)]: the list cut by one window above. *)
Definition clip_step (s : list rnode * list Z) (blocker_rect : Rect) : list rnode * list Z :=
  foldl (fun '(new_list, free) old =>
      let '(fragments, free) := clip_rect free (n_rect old) blocker_rect in
      (new_list ++ fragments, rect_free (n_slot old) free)) ([], s.2) s.1.

(** The new [clip_list] and the pool; [above] are the rectangles of the windows from
    [win->next] on. *)
Definition recalc_clip_list (free : list Z) (clip_list : list rnode) (scrn_w scrn_h : Z) (desktop : bool)
    (win : Rect) (above : list Rect) : list rnode * list Z :=
  let free := free_list free clip_list in
  match rect_alloc free with
  | None => ([], free)
  | Some (slot, free) =>
      match screen_clip scrn_w scrn_h desktop win with
      | None => ([], rect_free slot free)
      | Some r => foldl clip_step ([Node slot r], free) above
      end
  end.

(** ** What they should give *)
Definition in_rect (px py : Z) (r : Rect) : Prop :=
  r_x r <= px < r_x r + r_w r /\ r_y r <= py < r_y r + r_h r.

#[export] Instance in_rect_dec px py r : Decision (in_rect px py r).
Proof. unfold in_rect. apply _. Defined.

(** No overflow in the arithmetic. *)
Definition rect_ok (r : Rect) : Prop :=
  - 2 ^ 60 <= r_x r /\ - 2 ^ 60 <= r_y r /\ 0 < r_w r /\ 0 < r_h r /\ r_x r + r_w r <= 2 ^ 60 /\ r_y r + r_h r <= 2 ^ 60.

Definition covers (rs : list Rect) (px py : Z) : Prop := Exists (in_rect px py) rs.

Definition disjoint_rects (r1 r2 : Rect) : Prop := forall px py, in_rect px py r1 -> ~ in_rect px py r2.

(** The fragments of [r] outside [c], on unbounded integers. *)
Definition frags (r c : Rect) : list Rect :=
  if decide (r_x c < r_x r + r_w r /\ r_x r < r_x c + r_w c /\ r_y c < r_y r + r_h r /\ r_y r < r_y c + r_h c) then
    let x1 := Z.max (r_x r) (r_x c) in
    let x2 := Z.min (r_x r + r_w r) (r_x c + r_w c) in
    let y1 := Z.max (r_y r) (r_y c) in
    let y2 := Z.min (r_y r + r_h r) (r_y c + r_h c) in
    (if decide (r_x r < r_x c) then [MkRect (r_x r) (r_y r) (r_x c - r_x r) (r_h r)] else []) ++
    (if decide (r_x c + r_w c < r_x r + r_w r)
     then [MkRect (r_x c + r_w c) (r_y r) (r_x r + r_w r - (r_x c + r_w c)) (r_h r)] else []) ++
    (if decide (r_y r < r_y c) then [MkRect x1 (r_y r) (x2 - x1) (r_y c - r_y r)] else []) ++
    (if decide (r_y c + r_h c < r_y r + r_h r)
     then [MkRect x1 (r_y c + r_h c) (x2 - x1) (r_y r + r_h r - (r_y c + r_h c))] else [])
  else [r].

Section Frags.
Implicit Types (r c : Rect).

Lemma frags_covers r c px py : 0 < r_w c -> 0 < r_h c -> covers (frags r c) px py <-> in_rect px py r /\ ~ in_rect px py c.
Proof.
  intros Hw Hh. unfold covers, frags. case_decide as Hi; cycle 1.
  { rewrite Exists_cons, Exists_nil. unfold in_rect in *. lia. }
  cbv zeta. rewrite !Exists_app. repeat case_decide; rewrite ?Exists_cons, ?Exists_nil; unfold in_rect; cbn [r_x r_y r_w r_h]; lia.
Qed.

Lemma frags_ok r c : rect_ok r -> rect_ok c -> Forall rect_ok (frags r c).
Proof.
  unfold rect_ok. intros Hr Hc. unfold frags. case_decide as Hi; [|by repeat constructor; apply Hr]. cbv zeta. rewrite !Forall_app.
  repeat case_decide; rewrite ?Forall_cons, ?Forall_nil; cbn [r_x r_y r_w r_h]; lia.
Qed.

Lemma frags_disjoint r c : 0 < r_w c -> 0 < r_h c -> ForallOrdPairs disjoint_rects (frags r c).
Proof.
  intros Hw Hh. unfold frags. case_decide as Hi; [|repeat constructor]. cbv zeta.
  repeat case_decide; cbn [app]; repeat first [apply FOP_nil|apply FOP_cons|apply Forall_nil_2|apply Forall_cons_2];
    intros px py; unfold in_rect; cbn [r_x r_y r_w r_h]; lia.
Qed.
End Frags.

(** ** The pool and clipping *)
Section Clip.
Implicit Types (r c : Rect) (rs : list Rect) (free : list Z) (l : list rnode).

Lemma append_all free rs : foldl append_rect ([], free) rs = (zip_with Node free rs, drop (length rs) free).
Proof.
  assert (forall acc, foldl append_rect (acc, free) rs = (acc ++ zip_with Node free rs, drop (length rs) free)) as H; [|apply H].
  revert free. induction rs as [|r rs IH]; intros free acc; cbn [foldl length].
  - rewrite zip_with_nil_r, app_nil_r. done.
  - unfold append_rect at 2. cbn [fst snd rect_alloc]. destruct free as [|s free]; cbn.
    + rewrite IH. by rewrite drop_nil.
    + rewrite IH. cbn. by rewrite <- app_assoc.
Qed.

Ltac narrow := repeat match goal with
  | |- context [s64 ?e] => rewrite (s64_small e) by lia
  | |- context [u64 ?e] => rewrite (u64_small e) by lia
  end.

Ltac decide_ltb := match goal with |- context [?a <? ?b] =>
  first [rewrite (proj2 (Z.ltb_lt a b)) by lia | rewrite (proj2 (Z.ltb_ge a b)) by lia] end.
Ltac run_clip := repeat progress (narrow; try decide_ltb; cbn [andb app foldl]; cbv beta iota).

Lemma intersect_spec r c : rect_ok r -> rect_ok c ->
  rect_intersect r c = bool_decide (r_x c < r_x r + r_w r /\ r_x r < r_x c + r_w c /\ r_y c < r_y r + r_h r /\ r_y r < r_y c + r_h c).
Proof.
  unfold rect_ok. intros Hr Hc. unfold rect_intersect. narrow.
  destruct (Z.leb_spec (r_x r + r_w r) (r_x c)), (Z.leb_spec (r_x c + r_w c) (r_x r)), (Z.leb_spec (r_y r + r_h r) (r_y c)),
    (Z.leb_spec (r_y c + r_h c) (r_y r)); cbn [orb negb]; symmetry; (apply bool_decide_eq_true_2 || apply bool_decide_eq_false_2); lia.
Qed.

(** The machine code computes the fragments, as many as the pool has nodes for. *)
Lemma clip_rect_spec free r c : rect_ok r -> rect_ok c ->
  clip_rect free r c = (zip_with Node free (frags r c), drop (length (frags r c)) free).
Proof.
  intros Hr Hc. rewrite <- append_all. unfold clip_rect, frags. rewrite intersect_spec by done. case_decide as Hi.
  - rewrite bool_decide_eq_true_2 by done. cbn [negb]. unfold rect_ok in Hr, Hc. cbv zeta. narrow.
    repeat case_decide; run_clip; repeat (f_equal; try lia).
  - rewrite bool_decide_eq_false_2 by done. done.
Qed.

Definition rects (l : list rnode) : list Rect := n_rect <$> l.
Definition slots (l : list rnode) : list Z := n_slot <$> l.

Lemma rects_zip free rs : rects (zip_with Node free rs) = take (length free) rs.
Proof.
  unfold rects. revert rs. induction free as [|s free IH]; intros [|r rs]; cbn; [done|done|done|]. f_equal. apply IH.
Qed.

Lemma slots_zip free rs : slots (zip_with Node free rs) = take (length rs) free.
Proof.
  unfold slots. revert rs. induction free as [|s free IH]; intros [|r rs]; cbn; [done|done|done|]. f_equal. apply IH.
Qed.

Lemma free_list_spec free l : free_list free l ≡ₚ slots l ++ free.
Proof.
  unfold free_list. revert free. induction l as [|n l IH]; intros free; cbn; [done|]. rewrite IH. unfold rect_free. solve_Permutation.
Qed.

(** One window above: the fragments of every rectangle, or the first of them. *)
Definition ref_step (b : Rect) (rs : list Rect) : list Rect := rs ≫= fun r => frags r b.

Inductive sub_step (b : Rect) : list Rect -> list Rect -> Prop :=
  | sub_nil : sub_step b [] []
  | sub_cons k r rs x : sub_step b rs x -> sub_step b (r :: rs) (take k (frags r b) ++ x).

Lemma clip_inner b l new free : Forall rect_ok (rects l) -> rect_ok b ->
  let '(new', free') := foldl (fun '(new_list, free) old =>
      let '(fragments, free) := clip_rect free (n_rect old) b in
      (new_list ++ fragments, rect_free (n_slot old) free)) (new, free) l in
  slots new' ++ free' ≡ₚ slots new ++ slots l ++ free /\
  exists x, sub_step b (rects l) x /\ rects new' = rects new ++ x /\
    ((length (ref_step b (rects l)) <= length free)%nat -> x = ref_step b (rects l)).
Proof.
  intros Hl Hb. revert new free. induction l as [|n l IH]; intros new free; cbn [foldl].
  - split; [done|]. exists []. split_and!; [constructor|by rewrite app_nil_r|done].
  - cbn in Hl. apply Forall_cons in Hl as [Hn Hl]. rewrite clip_rect_spec by done. set (fr := frags (n_rect n) b).
    specialize (IH Hl (new ++ zip_with Node free fr) (rect_free (n_slot n) (drop (length fr) free))).
    destruct (foldl _ _ l) as [new' free']. destruct IH as (P & x & Hx & Er & Hfull). split.
    + rewrite P. unfold slots at 1. rewrite fmap_app. fold (slots new) (slots (zip_with Node free fr)). rewrite slots_zip.
      unfold rect_free. cbn [slots fmap list_fmap]. rewrite <- (take_drop (length fr) free) at 3. fold (slots l). solve_Permutation.
    + exists (take (length free) fr ++ x). split_and!; [by constructor|rewrite Er; unfold rects; rewrite fmap_app; fold (rects (zip_with Node free fr));
        rewrite rects_zip; by rewrite app_assoc|].
      cbn [rects fmap list_fmap]. unfold ref_step. cbn [mbind list_bind]. fold fr. rewrite length_app. intros Hlen.
      rewrite take_ge by lia. f_equal. apply Hfull. unfold rect_free. cbn [length]. rewrite length_drop. fold (rects l) in Hlen.
      unfold ref_step. lia.
Qed.

Lemma sub_step_covers b rs x px py : rect_ok b -> sub_step b rs x -> covers x px py -> covers rs px py /\ ~ in_rect px py b.
Proof.
  intros Hb H. induction H as [|k r rs x H IH]; unfold covers in *; [by rewrite Exists_nil|]. rewrite Exists_app, Exists_cons.
  intros [Hc|Hc]; [|destruct (IH Hc); auto]. assert (covers (frags r b) px py) as Hf.
  { unfold covers. rewrite <- (take_drop k (frags r b)), Exists_app. by left. }
  unfold rect_ok in Hb. apply frags_covers in Hf; [|lia|lia]. destruct Hf. auto.
Qed.

Lemma sub_step_ok b rs x : rect_ok b -> Forall rect_ok rs -> sub_step b rs x -> Forall rect_ok x.
Proof.
  intros Hb Hrs H. induction H as [|k r rs x H IH]; [done|]. apply Forall_cons in Hrs as [Hr Hrs]. apply Forall_app. split; [|auto].
  apply Forall_take. by apply frags_ok.
Qed.

Lemma FOP_take {A} (R : A -> A -> Prop) k xs : ForallOrdPairs R xs -> ForallOrdPairs R (take k xs).
Proof.
  intros H. revert k. induction H as [|a l Ha H IH]; intros [|k]; cbn; try apply FOP_nil. apply FOP_cons; [|apply IH]. by apply Forall_take.
Qed.

Lemma FOP_app {A} (R : A -> A -> Prop) xs ys : ForallOrdPairs R xs -> ForallOrdPairs R ys ->
  (forall a b, a ∈ xs -> b ∈ ys -> R a b) -> ForallOrdPairs R (xs ++ ys).
Proof.
  intros H Hy. induction H as [|a l Ha H IH]; intros Hr; cbn; [done|]. apply FOP_cons.
  - apply Forall_app. split; [done|]. apply Forall_forall. intros. apply Hr; [by constructor|done].
  - apply IH. intros. apply Hr; [by constructor|done].
Qed.

Lemma sub_step_disjoint b rs x : rect_ok b -> ForallOrdPairs disjoint_rects rs -> sub_step b rs x -> ForallOrdPairs disjoint_rects x.
Proof.
  intros Hb Hrs H. induction H as [|k r rs x H IH]; [done|]. inversion Hrs as [|? ? Hr Hrs']; subst. pose proof Hb as Hb'. unfold rect_ok in Hb'.
  apply FOP_app; [apply FOP_take, frags_disjoint; lia|auto|].
  intros f g Hf Hg px py Hpf Hpg.
  assert (in_rect px py r) as Hp.
  { apply (frags_covers r b); [lia|lia|]. apply Exists_exists. exists f. split; [|done]. rewrite <- (take_drop k (frags r b)). apply elem_of_app. by left. }
  assert (covers x px py) as Hx by (apply Exists_exists; by exists g).
  destruct (sub_step_covers b rs x px py Hb H Hx) as [Hc _]. apply Exists_exists in Hc as (r' & Hr' & Hp').
  rewrite Forall_forall in Hr. by apply (Hr r' Hr' px py).
Qed.

Lemma ref_step_covers b rs px py : rect_ok b -> covers (ref_step b rs) px py <-> covers rs px py /\ ~ in_rect px py b.
Proof.
  intros Hb. unfold rect_ok in Hb. unfold covers, ref_step. induction rs as [|r rs IH]; cbn [mbind list_bind].
  - rewrite Exists_nil. tauto.
  - fold (mbind (M := list) (fun r => frags r b) rs). rewrite Exists_app, Exists_cons, IH.
    pose proof (frags_covers r b px py ltac:(lia) ltac:(lia)) as F. unfold covers in F. tauto.
Qed.
End Clip.

(** ** The clip list of a window *)
Definition in_screen (scrn_w max_screen_h px py : Z) : Prop := 0 <= px < scrn_w /\ 0 <= py < max_screen_h.

Definition usable_h (desktop : bool) (scrn_h : Z) : Z := if desktop then scrn_h else scrn_h - TASKBAR_HEIGHT.

(** A pixel that shows a window: on its part of the screen and under no window above. *)
Definition visible (scrn_w scrn_h : Z) (desktop : bool) (win : Rect) (above : list Rect) (px py : Z) : Prop :=
  in_screen scrn_w (usable_h desktop scrn_h) px py /\ in_rect px py win /\ Forall (fun b => ~ in_rect px py b) above.

(** A pool of [total] nodes is large enough for every step. *)
Fixpoint enough (total : nat) (rs : list Rect) (above : list Rect) : bool :=
  match above with
  | [] => true
  | b :: above => (length rs + length (ref_step b rs) <=? total)%nat && enough total (ref_step b rs) above
  end.
Definition pool_suffices (total : nat) (scrn_w scrn_h : Z) (desktop : bool) (win : Rect) (above : list Rect) : bool :=
  match screen_clip scrn_w scrn_h desktop win with
  | None => true
  | Some r => (1 <=? total)%nat && enough total [r] above
  end.

(** The screen, and a window that does not lie wholly to its left or above it. *)
Definition screen_ok (scrn_w scrn_h : Z) : Prop := 0 < scrn_w < 2 ^ 31 /\ TASKBAR_HEIGHT < scrn_h < 2 ^ 31.
Definition reaches_screen (win : Rect) : Prop := 0 <= r_x win + r_w win /\ 0 <= r_y win + r_h win.

(** Rectangles of a clip list: not empty, none over another. *)
Definition tiles (rs : list Rect) : Prop := ForallOrdPairs disjoint_rects rs /\ Forall rect_ok rs.

Section Recalc.
Context (scrn_w scrn_h : Z) (desktop : bool) (S : screen_ok scrn_w scrn_h).
Implicit Types (win b : Rect) (above rs : list Rect) (free : list Z) (l : list rnode).

Lemma s64_u64 z : s64 (u64 z) = s64 z.
Proof. unfold s64, u64. rewrite Zplus_mod_idemp_l. done. Qed.

(** One axis: position [x], length [w], limit [lim]. *)
Lemma axis_clip x w lim : - 2 ^ 60 <= x -> 0 < w -> x + w <= 2 ^ 60 -> 0 <= x + w -> 0 < lim < 2 ^ 31 ->
  let '(x', w') := if x <? 0 then (0, u64 (w + x)) else (x, w) in
  let w'' := if lim <? u64 (x' + w') then u64 (lim - x') else w' in
  x' = Z.max 0 x /\ s64 w'' = Z.min lim (x + w) - x' /\ (0 < s64 w'' -> w'' = s64 w'') /\
  (lim <? u64 (x' + w')) = (lim <? x + w) /\ u64 x' = x'.
Proof.
  intros H1 H2 H3 H4 H5. destruct (Z.ltb_spec x 0).
  - rewrite (u64_small (w + x)), (u64_small (0 + _)), (u64_small 0) by lia. cbv zeta. rewrite !Z.add_0_l, Z.sub_0_r, (Z.add_comm w x).
    destruct (Z.ltb_spec lim (x + w)); rewrite ?s64_u64, !s64_small by lia; split_and!; first [lia|done|intros; apply u64_small; lia].
  - cbv zeta. rewrite (u64_small (x + w)), (u64_small x) by lia.
    destruct (Z.ltb_spec lim (x + w)); rewrite ?s64_u64, !s64_small by lia; split_and!; first [lia|done|intros; apply u64_small; lia].
Qed.

Lemma screen_clip_spec win : rect_ok win -> reaches_screen win ->
  match screen_clip scrn_w scrn_h desktop win with
  | Some r => rect_ok r /\ forall px py, in_rect px py r <-> in_rect px py win /\ in_screen scrn_w (usable_h desktop scrn_h) px py
  | None => forall px py, ~ (in_rect px py win /\ in_screen scrn_w (usable_h desktop scrn_h) px py)
  end.
Proof using S.
  unfold screen_ok, TASKBAR_HEIGHT in S. intros (H1 & H2 & H3 & H4 & H5 & H6) [R1 R2]. unfold screen_clip, TASKBAR_HEIGHT.
  assert ((if desktop then scrn_h else u64 (scrn_h - 28)) = usable_h desktop scrn_h) as ->
    by (unfold usable_h, TASKBAR_HEIGHT; destruct desktop; [done|apply u64_small; lia]).
  assert (0 < usable_h desktop scrn_h < 2 ^ 31) as Hu by (unfold usable_h, TASKBAR_HEIGHT; destruct desktop; lia).
  pose proof (axis_clip (r_x win) (r_w win) scrn_w H1 H3 H5 R1 ltac:(lia)) as Ax.
  pose proof (axis_clip (r_y win) (r_h win) (usable_h desktop scrn_h) H2 H4 H6 R2 Hu) as Ay.
  destruct (if r_x win <? 0 then _ else _) as [x w0]. destruct (if r_y win <? 0 then _ else _) as [y h0].
  cbv zeta in Ax, Ay |- *. set (w := if scrn_w <? u64 (x + w0) then _ else _) in *.
  destruct Ax as (Ex & Ew & Pw & _ & _). destruct Ay as (Ey & Eh & Ph & Lh & Uy). rewrite Uy. rewrite Lh in *.
  destruct (Z.ltb_spec (usable_h desktop scrn_h) (r_y win + r_h win)) as [L|L];
    [destruct (Z.leb_spec (usable_h desktop scrn_h) y); [cbn; intros px py; unfold in_rect, in_screen; lia|]|];
    cbn [mbind option_bind]; rewrite Ew, Eh.
  all: destruct (Z.leb_spec (scrn_w `min` (r_x win + r_w win) - x) 0); [cbn [orb]; intros px py; unfold in_rect, in_screen; lia|].
  all: destruct (Z.leb_spec (usable_h desktop scrn_h `min` (r_y win + r_h win) - y) 0); [cbn [orb]; intros px py; unfold in_rect, in_screen; lia|].
  all: cbn [orb]; specialize (Pw ltac:(lia)); specialize (Ph ltac:(lia)); rewrite Ew in Pw; rewrite Eh in Ph.
  all: split; [unfold rect_ok; cbn [r_x r_y r_w r_h]; lia|intros px py; unfold in_rect, in_screen; cbn [r_x r_y r_w r_h]; lia].
Qed.

Lemma clip_fold above : Forall rect_ok above -> forall l free, Forall rect_ok (rects l) -> ForallOrdPairs disjoint_rects (rects l) ->
  let '(l', free') := foldl clip_step (l, free) above in
  slots l' ++ free' ≡ₚ slots l ++ free /\ tiles (rects l') /\
  (forall px py, covers (rects l') px py -> covers (rects l) px py /\ Forall (fun b => ~ in_rect px py b) above) /\
  (enough (length l + length free) (rects l) above = true ->
   forall px py, covers (rects l) px py -> Forall (fun b => ~ in_rect px py b) above -> covers (rects l') px py).
Proof.
  intros Ha. induction above as [|b above IH]; intros l free Hok Hd; cbn [foldl].
  - split_and!; [done|by split|intros; split; [done|constructor]|intros; done].
  - apply Forall_cons in Ha as [Hb Ha]. unfold clip_step at 2. cbn [fst snd]. pose proof (clip_inner b l [] free Hok Hb) as H.
    destruct (foldl _ _ l) as [l1 free1]. destruct H as (P1 & x & Hx & Ex & Hfull). cbn [rects fmap list_fmap app slots] in Ex, P1. fold (slots l) in P1.
    specialize (IH Ha l1 free1). rewrite Ex in IH. specialize (IH (sub_step_ok b _ _ Hb Hok Hx) (sub_step_disjoint b _ _ Hb Hd Hx)).
    destruct (foldl clip_step (l1, free1) above) as [l' free']. destruct IH as (P & Hd' & Hsub & Hcov).
    split_and!; [by rewrite P|done| |].
    + intros px py Hc. destruct (Hsub px py Hc) as [Hc1 Hc2]. destruct (sub_step_covers b _ _ px py Hb Hx Hc1). split; [done|by constructor].
    + cbn [enough]. intros [Hl He]%andb_prop px py Hc [Hnb Hf]%Forall_cons. apply Nat.leb_le in Hl.
      assert (x = ref_step b (rects l)) as -> by (apply Hfull; unfold rects in *; rewrite length_fmap in Hl; lia).
      assert ((length l1 + length free1 = length l + length free)%nat) as Et.
      { apply Permutation_length in P1. unfold slots in P1. rewrite !length_app, !length_fmap in P1. done. }
      rewrite Et in Hcov. apply Hcov; [done| |done]. apply ref_step_covers; [done|]. done.
Qed.

Lemma recalc_spec free clip_list win above : rect_ok win -> reaches_screen win -> Forall rect_ok above ->
  let '(l, free') := recalc_clip_list free clip_list scrn_w scrn_h desktop win above in
  slots l ++ free' ≡ₚ slots clip_list ++ free /\ tiles (rects l) /\
  (forall px py, covers (rects l) px py -> visible scrn_w scrn_h desktop win above px py) /\
  (pool_suffices (length clip_list + length free) scrn_w scrn_h desktop win above = true ->
   forall px py, visible scrn_w scrn_h desktop win above px py -> covers (rects l) px py).
Proof using S.
  intros Hw Hr Ha. unfold recalc_clip_list, pool_suffices. pose proof (free_list_spec free clip_list) as Pf.
  assert (length clip_list + length free = length (free_list free clip_list))%nat as Et.
  { apply Permutation_length in Pf. unfold slots in Pf. rewrite length_app, length_fmap in Pf. lia. }
  rewrite Et. pose proof (screen_clip_spec win Hw Hr) as Hs.
  destruct (free_list free clip_list) as [|slot fr]; cbn [rect_alloc].
  - split_and!; [by rewrite <- Pf|split; constructor|intros px py Hc; by apply Exists_nil in Hc|].
    destruct (screen_clip _ _ _ _) as [r|]; [done|]. intros _ px py (Hi & Hw' & _). destruct (Hs px py). done.
  - destruct (screen_clip _ _ _ _) as [r|].
    + destruct Hs as [Hok Hin]. pose proof (clip_fold above Ha [Node slot r] fr) as H.
      assert (ForallOrdPairs disjoint_rects [r]) as Hd by repeat constructor.
      specialize (H (Forall_singleton _ _ Hok) Hd) || specialize (H ltac:(by apply Forall_singleton) Hd).
      destruct (foldl clip_step _ above) as [l free']. destruct H as (P & Hd' & Hsub & Hcov). split_and!; [|done| |].
      * rewrite P. by rewrite <- Pf.
      * intros px py Hc. destruct (Hsub px py Hc) as [Hc1 Hc2]. apply Exists_cons in Hc1 as [Hc1|Hc1]; [|by apply Exists_nil in Hc1].
        apply Hin in Hc1 as [? ?]. done.
      * intros [_ He]%andb_prop px py (Hi & Hw' & Hf). apply Hcov; [exact He| |done]. apply Exists_cons. left. by apply Hin.
    + split_and!; [by rewrite <- Pf|split; constructor|intros px py Hc; by apply Exists_nil in Hc|].
      intros _ px py (Hi & Hw' & _). destruct (Hs px py). done.
Qed.
End Recalc.
