(* ===== verification/Window.v ===== *)
(** The window manager, [src/src/gui/window.c]: the stack of windows and what the mouse
    does to it.

    Windows are records in a map from address to [Window], linked in both directions from
    [g_win_list] (the bottom) to [g_win_top].  Drawing, dirty rectangles, events, signals
    and memory are requests, logged in order in [wm_log].  The file [WinClip] has the clip
    lists, [WinDraw] the pixels.  A walk over the list takes fuel; [None] is fuel that ran
    out or a pointer to no window. *)
From S2P Require Import Prelude RingBuf WinClip.

Definition WIN_TITLE_BAR_HEIGHT : Z := 20.
Definition WIN_BORDER_SIZE : Z := 1.
Definition WIN_MIN_W : Z := 70.
Definition WIN_MIN_H : Z := WIN_TITLE_BAR_HEIGHT * 2.
Definition WIN_RESIZE_MARGIN : Z := 3.
Definition WIN_MOVABLE : Z := 1.
Definition WIN_RESIZABLE : Z := 2.
Definition WIN_MINIMIZABLE : Z := 4.
Definition WIN_BORDERLESS : Z := 8.
Definition WIN_DIRTY : Z := 2 ^ 31.
Definition RES_NONE : Z := 0.
Definition RES_LEFT : Z := 1.
Definition RES_RIGHT : Z := 2.
Definition RES_TOP : Z := 4.
Definition RES_BOTTOM : Z := 8.

Inductive win_state := WIN_STATE_NORMAL | WIN_STATE_MAXIMIZED | WIN_STATE_MINIMIZED.
Inductive launch := LAUNCH_NONE | LAUNCH_TERMINAL | LAUNCH_SNAKE | LAUNCH_CLOCK.
Inductive CursorType := CURSOR_ARROW | CURSOR_RESIZE_H | CURSOR_RESIZE_V | CURSOR_MOVE.

#[export] Instance win_state_eq_dec : EqDecision win_state.
Proof. solve_decision. Defined.

(** [w_rect] is [x], [y], [width], [height]; [w_pre] the [pre_] fields of the same. *)
Record Window := MkWindow {
  w_rect : Rect; w_title : Z; w_cursor : Z * Z; w_pixels : Z; w_pixels_size : Z;
  w_prev : Z; w_next : Z; w_owner : Z; w_flags : Z; w_clip : list rnode;
  w_state : win_state; w_pre_state : win_state; w_pre : Rect }.

Record WinDragCtx := DragCtx { d_target : Z; d_off_x : Z; d_off_y : Z; d_resize_dir : Z }.

(** Requests to other components. *)
Inductive wm_effect :=
  | DirtyRect (r : Rect)
  | DrawTitlebar (win : Z)
  | InitPixels (win : Z)
  | DrawTaskbar
  | DrawWin (win : Z)
  | VmmFreePixels (p : Z)
  | KfreeTitle (p : Z)
  | KfreeWin (p : Z)
  | PushEvent (e : Event)
  | SendEvent (pid : Z) (e : Event)
  | SchedKill (pid : Z)
  | SetCursor (c : CursorType).

Record wm := WM {
  wm_wins : gmap Z Window; g_win_list : Z; g_win_top : Z; g_desktop_win : Z; g_pending_launch : launch;
  drag_ctx : WinDragCtx; rect_pool : list Z; prev_left_btn : bool; prev_right_btn : bool; wm_log : list wm_effect }.

(** ** Field updates *)
Definition set_rect (r : Rect) (w : Window) : Window :=
  MkWindow r (w_title w) (w_cursor w) (w_pixels w) (w_pixels_size w) (w_prev w) (w_next w) (w_owner w) (w_flags w) (w_clip w)
    (w_state w) (w_pre_state w) (w_pre w).
Definition set_cursor (c : Z * Z) (w : Window) : Window :=
  MkWindow (w_rect w) (w_title w) c (w_pixels w) (w_pixels_size w) (w_prev w) (w_next w) (w_owner w) (w_flags w) (w_clip w)
    (w_state w) (w_pre_state w) (w_pre w).
Definition set_pixels (p size : Z) (w : Window) : Window :=
  MkWindow (w_rect w) (w_title w) (w_cursor w) p size (w_prev w) (w_next w) (w_owner w) (w_flags w) (w_clip w)
    (w_state w) (w_pre_state w) (w_pre w).
Definition set_prev (p : Z) (w : Window) : Window :=
  MkWindow (w_rect w) (w_title w) (w_cursor w) (w_pixels w) (w_pixels_size w) p (w_next w) (w_owner w) (w_flags w) (w_clip w)
    (w_state w) (w_pre_state w) (w_pre w).
Definition set_next (n : Z) (w : Window) : Window :=
  MkWindow (w_rect w) (w_title w) (w_cursor w) (w_pixels w) (w_pixels_size w) (w_prev w) n (w_owner w) (w_flags w) (w_clip w)
    (w_state w) (w_pre_state w) (w_pre w).
Definition set_owner (o : Z) (w : Window) : Window :=
  MkWindow (w_rect w) (w_title w) (w_cursor w) (w_pixels w) (w_pixels_size w) (w_prev w) (w_next w) o (w_flags w) (w_clip w)
    (w_state w) (w_pre_state w) (w_pre w).
Definition set_flags (f : Z) (w : Window) : Window :=
  MkWindow (w_rect w) (w_title w) (w_cursor w) (w_pixels w) (w_pixels_size w) (w_prev w) (w_next w) (w_owner w) f (w_clip w)
    (w_state w) (w_pre_state w) (w_pre w).
Definition set_clip (c : list rnode) (w : Window) : Window :=
  MkWindow (w_rect w) (w_title w) (w_cursor w) (w_pixels w) (w_pixels_size w) (w_prev w) (w_next w) (w_owner w) (w_flags w) c
    (w_state w) (w_pre_state w) (w_pre w).
Definition set_wstate (s : win_state) (w : Window) : Window :=
  MkWindow (w_rect w) (w_title w) (w_cursor w) (w_pixels w) (w_pixels_size w) (w_prev w) (w_next w) (w_owner w) (w_flags w) (w_clip w)
    s (w_pre_state w) (w_pre w).
Definition set_pre (s : win_state) (r : Rect) (w : Window) : Window :=
  MkWindow (w_rect w) (w_title w) (w_cursor w) (w_pixels w) (w_pixels_size w) (w_prev w) (w_next w) (w_owner w) (w_flags w) (w_clip w)
    (w_state w) s r.

Definition wupd (st : wm) (a : Z) (f : Window -> Window) : wm :=
  WM (alter f a (wm_wins st)) (g_win_list st) (g_win_top st) (g_desktop_win st) (g_pending_launch st) (drag_ctx st) (rect_pool st)
    (prev_left_btn st) (prev_right_btn st) (wm_log st).
Definition with_wins (st : wm) (m : gmap Z Window) : wm :=
  WM m (g_win_list st) (g_win_top st) (g_desktop_win st) (g_pending_launch st) (drag_ctx st) (rect_pool st)
    (prev_left_btn st) (prev_right_btn st) (wm_log st).
Definition with_ends (st : wm) (bottom top : Z) : wm :=
  WM (wm_wins st) bottom top (g_desktop_win st) (g_pending_launch st) (drag_ctx st) (rect_pool st)
    (prev_left_btn st) (prev_right_btn st) (wm_log st).
Definition with_launch (st : wm) (l : launch) : wm :=
  WM (wm_wins st) (g_win_list st) (g_win_top st) (g_desktop_win st) l (drag_ctx st) (rect_pool st)
    (prev_left_btn st) (prev_right_btn st) (wm_log st).
Definition with_drag (st : wm) (d : WinDragCtx) : wm :=
  WM (wm_wins st) (g_win_list st) (g_win_top st) (g_desktop_win st) (g_pending_launch st) d (rect_pool st)
    (prev_left_btn st) (prev_right_btn st) (wm_log st).
Definition with_pool (st : wm) (p : list Z) : wm :=
  WM (wm_wins st) (g_win_list st) (g_win_top st) (g_desktop_win st) (g_pending_launch st) (drag_ctx st) p
    (prev_left_btn st) (prev_right_btn st) (wm_log st).
Definition with_btns (st : wm) (l r : bool) : wm :=
  WM (wm_wins st) (g_win_list st) (g_win_top st) (g_desktop_win st) (g_pending_launch st) (drag_ctx st) (rect_pool st) l r (wm_log st).
Definition wemit (st : wm) (es : list wm_effect) : wm :=
  WM (wm_wins st) (g_win_list st) (g_win_top st) (g_desktop_win st) (g_pending_launch st) (drag_ctx st) (rect_pool st)
    (prev_left_btn st) (prev_right_btn st) (wm_log st ++ es).

Definition has_flag (w : Window) (f : Z) : bool := negb (Z.land (w_flags w) f =? 0).
Definition add_flag (f : Z) (w : Window) : Window := set_flags (Z.lor (w_flags w) f) w.

(** ** Walks *)

(** [while (win != NULL) { body; win = win->next; }] *)
Fixpoint win_walk (fuel : nat) (st : wm) (a : Z) (body : wm -> Z -> Window -> wm) : option wm :=
  if a =? 0 then Some st
  else
    match fuel with
    | O => None
    | S n => w ← wm_wins st !! a; win_walk n (body st a w) (w_next w) body
    end.

Definition win_stain_list (fuel : nat) (st : wm) (win : Z) : option wm :=
  win_walk fuel st win (fun st a _ => wupd st a (add_flag WIN_DIRTY)).

(** ** Drawing requests *)
Definition win_redraw_titlebar (st : wm) (win : Z) : option wm :=
  if win =? 0 then Some st
  else
    w ← wm_wins st !! win;
    if has_flag w WIN_BORDERLESS then Some st
    else
      let r := w_rect w in
      Some (wemit (wupd (wemit st [DrawTitlebar win]) win (add_flag WIN_DIRTY))
        [DirtyRect (MkRect (r_x r) (r_y r) (r_w r) WIN_TITLE_BAR_HEIGHT)]).

Definition init_win_pixels (st : wm) (win : Z) : option wm :=
  w ← wm_wins st !! win;
  let st := wemit st [InitPixels win] in
  if has_flag w WIN_BORDERLESS then Some st else win_redraw_titlebar st win.

Definition win_draw_taskbar (st : wm) : option wm :=
  if g_desktop_win st =? 0 then Some st
  else
    d ← wm_wins st !! g_desktop_win st;
    let scrn_w := s32 (r_w (w_rect d)) in
    let bar_y := s32 (s32 (r_h (w_rect d)) - TASKBAR_HEIGHT) in
    Some (wemit (wupd (wemit st [DrawTaskbar]) (g_desktop_win st) (add_flag WIN_DIRTY))
      [DirtyRect (MkRect 0 bar_y scrn_w TASKBAR_HEIGHT)]).

Definition redraw_old_top (st : wm) (old_top : Z) : option wm :=
  if old_top =? 0 then Some st
  else
    o ← wm_wins st !! old_top;
    if has_flag o WIN_BORDERLESS then Some st else win_redraw_titlebar st old_top.

(** ** Geometry *)
Definition is_point_in_rect (px py rx ry rw rh : Z) : bool :=
  (rx <=? px) && (px <? s64 (rx + rw)) && (ry <=? py) && (py <? s64 (ry + rh)).

Definition check_win_drag (w : Window) (mouse_x mouse_y : Z) : bool :=
  has_flag w WIN_MOVABLE &&
  is_point_in_rect mouse_x mouse_y (r_x (w_rect w)) (r_y (w_rect w)) (s64 (r_w (w_rect w))) WIN_TITLE_BAR_HEIGHT.

Definition near (m edge : Z) : bool := (m <=? s64 (edge + WIN_RESIZE_MARGIN)) && (s64 (edge - WIN_RESIZE_MARGIN) <=? m).

Definition get_resize_dir (w : Window) (mx my : Z) : Z :=
  if negb (has_flag w WIN_RESIZABLE) || bool_decide (w_state w = WIN_STATE_MINIMIZED) then RES_NONE
  else
    let r := w_rect w in
    let dir := if near mx (r_x r) then RES_LEFT else RES_NONE in
    let dir := if near mx (s64 (r_x r + r_w r)) then Z.lor dir RES_RIGHT else dir in
    let dir := if near my (r_y r) then Z.lor dir RES_TOP else dir in
    if near my (s64 (r_y r + r_h r)) then Z.lor dir RES_BOTTOM else dir.

Definition win_get_client_size (w : Window) : Z * Z :=
  if has_flag w WIN_BORDERLESS then (s32 (r_w (w_rect w)), s32 (r_h (w_rect w)))
  else (s32 (r_w (w_rect w) - WIN_BORDER_SIZE * 2), s32 (r_h (w_rect w) - (WIN_TITLE_BAR_HEIGHT + WIN_BORDER_SIZE * 2))).

(** The test of [get_win_at]. *)
Definition hit (w : Window) (mx my : Z) : bool :=
  let r := w_rect w in
  (r_x r <=? mx) && (mx <? s64 (r_x r + s64 (r_w r))) && (r_y r <=? my) && (my <? s64 (r_y r + s64 (r_h r))).

(** The window under a point, 0 is NULL. *)
Fixpoint win_at_from (fuel : nat) (st : wm) (curr mx my : Z) : option Z :=
  if curr =? 0 then Some 0
  else
    match fuel with
    | O => None
    | S n =>
        w ← wm_wins st !! curr;
        if hit w mx my then Some curr else win_at_from n st (w_prev w) mx my
    end.

Section Screen.
Context (scrn_w scrn_h : Z).

Definition get_win_at (fuel : nat) (st : wm) (mx my : Z) : option Z :=
  if negb (g_desktop_win st =? 0) && (scrn_h - TASKBAR_HEIGHT <=? my) then Some (g_desktop_win st)
  else win_at_from fuel st (g_win_top st) mx my.

(** ** The stack of windows *)

(** The links of a window that goes to the top. *)
Definition raise_links (st : wm) (win : Z) (w : Window) : option wm :=
  let old_top := g_win_top st in
  if win =? g_win_list st then
    let st := wupd st old_top (set_next win) in
    let st := wupd st win (set_prev old_top) in
    w ← wm_wins st !! win;
    let st := with_ends st (w_next w) win in
    let st := wupd st (w_next w) (set_prev 0) in
    Some (wupd st win (set_next 0))
  else
    let st := if negb (w_prev w =? 0) && negb (w_next w =? 0) then
        let st := wupd st (w_prev w) (set_next (w_next w)) in
        let st := wupd st (w_next w) (set_prev (w_prev w)) in
        wupd st win (set_next 0)
      else st in
    let st := wupd st win (set_prev old_top) in
    let st := wupd st old_top (set_next win) in
    Some (with_ends st (g_win_list st) win).

Definition win_focus (fuel : nat) (st : wm) (win : Z) : option wm :=
  if win =? 0 then Some st
  else
    w ← wm_wins st !! win;
    if has_flag w WIN_BORDERLESS || (win =? g_win_top st) then Some st
    else
      let old_top := g_win_top st in
      st ← raise_links st win w;
      st ← redraw_old_top st old_top;
      st ← win_redraw_titlebar st win;
      st ← win_draw_taskbar st;
      st ← win_stain_list fuel st (g_win_list st);
      w ← wm_wins st !! win;
      Some (wemit st [DirtyRect (w_rect w)]).

(** The links and ends without a window. *)
Definition unlink_win (st : wm) (win : Z) (w : Window) : wm :=
  if (w_prev w =? 0) && (w_next w =? 0) then with_ends st 0 0
  else if win =? g_win_list st then
    let st := with_ends st (w_next w) (g_win_top st) in
    if w_next w =? 0 then st else wupd st (w_next w) (set_prev 0)
  else if win =? g_win_top st then
    let st := with_ends st (g_win_list st) (w_prev w) in
    if w_prev w =? 0 then st else wupd st (w_prev w) (set_next 0)
  else wupd (wupd st (w_prev w) (set_next (w_next w))) (w_next w) (set_prev (w_prev w)).

(** The clip list of a closed window goes back to the pool. *)
Definition win_close (fuel : nat) (st : wm) (win : Z) : option wm :=
  w ← wm_wins st !! win;
  let st := wemit st [DirtyRect (w_rect w)] in
  let d := drag_ctx st in
  let st := if win =? d_target d then with_drag st (DragCtx 0 (d_off_x d) (d_off_y d) (d_resize_dir d)) else st in
  let st := unlink_win st win w in
  let st := if w_pixels w =? 0 then st else wemit st [VmmFreePixels (w_pixels w)] in
  let st := if w_title w =? 0 then st else wemit st [KfreeTitle (w_title w)] in
  let st := with_pool st (free_list (rect_pool st) (w_clip w)) in
  let st := wemit (with_wins st (delete win (wm_wins st))) [KfreeWin win] in
  st ← redraw_old_top st (g_win_top st);
  st ← win_draw_taskbar st;
  win_stain_list fuel st (g_win_list st).

(** [a] and [pix] are what the allocators return, 0 is NULL; [curr] is the pid of the
    current task, if there is one.  The second result says that [tsk->win] is set. *)
Definition win_create (st : wm) (a pix : Z) (curr : option Z) (x y width height title flags : Z) : option (Z * bool * wm) :=
  if a =? 0 then Some (0, false, st)
  else
    let bordered := Z.land flags WIN_BORDERLESS =? 0 in
    let w := if bordered then u64 (width + WIN_BORDER_SIZE * 2) else width in
    let h := if bordered then u64 (height + (WIN_TITLE_BAR_HEIGHT + WIN_BORDER_SIZE * 2)) else height in
    let pixel_buf_size := u64 (h * w * 4) in
    if pix =? 0 then Some (0, false, wemit st [KfreeWin a])
    else
      let old_top := g_win_top st in
      let lone := (g_win_list st =? 0) || (g_win_top st =? 0) in
      let win := MkWindow (MkRect x y w h) title (0, 0) pix pixel_buf_size (if lone then 0 else old_top) 0 (-1) flags []
        WIN_STATE_NORMAL WIN_STATE_NORMAL (MkRect x y width height) in
      let st := with_wins st (<[a := win]> (wm_wins st)) in
      let st := if lone then with_ends st a a else with_ends (wupd st old_top (set_next a)) (g_win_list st) a in
      st ← init_win_pixels st a;
      st ← redraw_old_top st old_top;
      let owned := bordered && bool_decide (curr <> None) in
      let st := if owned then wupd st a (set_owner (default 0 curr)) else st in
      match rect_alloc (rect_pool st) with
      | None =>
          let st := if pix =? 0 then st else wemit st [VmmFreePixels pix] in
          Some (0, owned, wemit (with_wins st (delete a (wm_wins st))) [KfreeWin a])
      | Some (slot, pool) =>
          let st := with_pool st pool in
          let st := wupd st a (fun w => add_flag WIN_DIRTY (set_clip [Node slot (w_rect w)] w)) in
          st ← (if bordered then win_draw_taskbar st else Some st);
          Some (a, owned, st)
      end.

(** ** Moving and sizing *)
Definition win_move (st : wm) (win new_x new_y : Z) : option wm :=
  w ← wm_wins st !! win;
  let r := w_rect w in
  let st := wemit st [DirtyRect r] in
  let r' := MkRect new_x new_y (r_w r) (r_h r) in
  Some (wemit (wupd st win (set_rect r')) [DirtyRect r']).

(** [pix] is the new pixel buffer, 0 when there is no memory for it. *)
Definition win_resize (st : wm) (pix win : Z) (new : Rect) : option wm :=
  w ← wm_wins st !! win;
  if pix =? 0 then Some st
  else
    let st := wemit st [VmmFreePixels (w_pixels w); DirtyRect (w_rect w)] in
    let new_pixels_size := s64 (r_h new * r_w new * 4) in
    let new := MkRect (r_x new) (r_y new) (u64 (r_w new)) (u64 (r_h new)) in
    let st := wupd st win (fun w => set_rect new (set_pixels pix (u64 new_pixels_size) w)) in
    st ← init_win_pixels st win;
    Some (wupd (wemit st [DirtyRect new]) win (add_flag WIN_DIRTY)).

Definition win_toggle_maximize (fuel : nat) (st : wm) (pix win : Z) : option wm :=
  w ← wm_wins st !! win;
  let full := MkRect 0 0 scrn_w (scrn_h - TASKBAR_HEIGHT) in
  st ← (match w_state w with
        | WIN_STATE_NORMAL =>
            let st := wupd st win (fun w => set_wstate WIN_STATE_MAXIMIZED (set_pre (w_pre_state w) (w_rect w) w)) in
            win_resize st pix win full
        | WIN_STATE_MAXIMIZED => win_resize (wupd st win (set_wstate WIN_STATE_NORMAL)) pix win (w_pre w)
        | WIN_STATE_MINIMIZED => win_resize (wupd st win (set_wstate WIN_STATE_MAXIMIZED)) pix win full
        end);
  st ← win_draw_taskbar st;
  win_stain_list fuel st (g_win_list st).

Definition win_toggle_minimize (fuel : nat) (st : wm) (pix win : Z) : option wm :=
  w ← wm_wins st !! win;
  let r := w_rect w in
  st ← (if decide (w_state w = WIN_STATE_MINIMIZED) then
          win_resize (wupd st win (set_wstate (w_pre_state w))) pix win (MkRect (r_x r) (r_y r) (r_w r) (r_h (w_pre w)))
        else
          let st := wupd st win (fun w => set_wstate WIN_STATE_MINIMIZED (set_pre (w_state w) (w_rect w) w)) in
          win_resize st pix win (MkRect (r_x r) (r_y r) (r_w r) WIN_TITLE_BAR_HEIGHT));
  st ← win_draw_taskbar st;
  win_stain_list fuel st (g_win_list st).

(** [while (curr != NULL)] of [win_cycle_focus]. *)
Fixpoint cycle_from (fuel : nat) (st : wm) (curr : Z) : option Z :=
  if curr =? 0 then Some 0
  else
    match fuel with
    | O => None
    | S n =>
        w ← wm_wins st !! curr;
        if negb (has_flag w WIN_BORDERLESS) && negb (curr =? g_win_top st) then Some curr else cycle_from n st (w_next w)
    end.

Definition win_cycle_focus (fuel : nat) (st : wm) (pix : Z) : option wm :=
  curr ← cycle_from fuel st (g_win_list st);
  if curr =? 0 then Some st
  else
    w ← wm_wins st !! curr;
    st ← (if decide (w_state w = WIN_STATE_MINIMIZED) then win_toggle_minimize fuel st pix curr else Some st);
    win_focus fuel st curr.

Definition win_consume_launch_req (st : wm) : launch * wm := (g_pending_launch st, with_launch st LAUNCH_NONE).

Definition win_get_active (st : wm) : Z := g_win_top st.

(** ** Painting *)

(** The rectangles of the windows from [a] on. *)
Fixpoint rects_from (fuel : nat) (st : wm) (a : Z) : option (list Rect) :=
  if a =? 0 then Some []
  else
    match fuel with
    | O => None
    | S n => w ← wm_wins st !! a; rs ← rects_from n st (w_next w); Some (w_rect w :: rs)
    end.

Definition recalc_window (fuel : nat) (st : wm) (win : Z) : option wm :=
  w ← wm_wins st !! win;
  above ← rects_from fuel st (w_next w);
  let '(clip, pool) := recalc_clip_list (rect_pool st) (w_clip w) scrn_w scrn_h (win =? g_desktop_win st) (w_rect w) above in
  Some (with_pool (wupd st win (set_clip clip)) pool).

Fixpoint paint_from (fuel : nat) (st : wm) (curr : Z) : option wm :=
  if curr =? 0 then Some st
  else
    match fuel with
    | O => None
    | S n =>
        w ← wm_wins st !! curr;
        st ← (if has_flag w WIN_DIRTY then
                st ← recalc_window fuel st curr;
                Some (wupd (wemit st [DrawWin curr]) curr (fun w => set_flags (Z.land (w_flags w) (u32 (Z.lnot WIN_DIRTY))) w))
              else Some st);
        paint_from n st (w_next w)
    end.

Definition win_paint (fuel : nat) (st : wm) : option wm := paint_from fuel st (g_win_list st).

(** ** The mouse *)
Definition resize_event (owner : Z) : Event := mkEvent EVENT_WIN_RESIZE 0 (ev_resize owner).

(** The window whose taskbar button is under [mx]; the buttons are 104 apart from 212 on. *)
Fixpoint taskbar_button (fuel : nat) (st : wm) (w curr_x mx : Z) : option Z :=
  if w =? 0 then Some 0
  else
    match fuel with
    | O => None
    | S n =>
        win ← wm_wins st !! w;
        if negb (has_flag win WIN_BORDERLESS) && (curr_x + 104 <=? scrn_w - 84) then
          if (curr_x <=? mx) && (mx <? curr_x + 100) then Some w else taskbar_button n st (w_next win) (curr_x + 104) mx
        else taskbar_button n st (w_next win) curr_x mx
    end.

Definition handle_taskbar_click (fuel : nat) (st : wm) (pix mx my : Z) : option wm :=
  let btn_y := scrn_h - TASKBAR_HEIGHT + 4 in
  let btn_h := TASKBAR_HEIGHT - 8 in
  if (my <? btn_y) || (btn_y + btn_h <=? my) then Some st
  else if (4 <=? mx) && (mx <? 66) then Some (with_launch st LAUNCH_TERMINAL)
  else if (70 <=? mx) && (mx <? 132) then Some (with_launch st LAUNCH_SNAKE)
  else if (136 <=? mx) && (mx <? 198) then Some (with_launch st LAUNCH_CLOCK)
  else
    a ← taskbar_button fuel st (g_win_list st) 212 mx;
    if a =? 0 then Some st
    else
      w ← wm_wins st !! a;
      st ← (if decide (w_state w = WIN_STATE_MINIMIZED) then
              st ← win_toggle_minimize fuel st pix a;
              st ← win_focus fuel st a;
              Some (wemit st [PushEvent (resize_event (w_owner w))])
            else if a =? g_win_top st then
              if has_flag w WIN_MINIMIZABLE then
                st ← win_toggle_minimize fuel st pix a;
                Some (wemit st [PushEvent (resize_event (w_owner w))])
              else Some st
            else win_focus fuel st a);
      win_draw_taskbar st.

(** The new rectangle while an edge is dragged, and whether it changed; the cursor shape. *)
Definition drag_size (dir : Z) (r : Rect) (mx my : Z) : Rect * bool * CursorType :=
  let new_w := s64 (r_w r) in
  let new_h := s64 (r_h r) in
  let '(nx, nw, ch, cur) :=
    if negb (Z.land dir RES_LEFT =? 0) then
      let tmp_w := s64 (r_x r + r_w r - mx) in
      if (WIN_MIN_W <=? tmp_w) && negb (tmp_w =? new_w) then (mx, tmp_w, true, CURSOR_RESIZE_H)
      else (r_x r, new_w, false, CURSOR_RESIZE_H)
    else if negb (Z.land dir RES_RIGHT =? 0) then
      let tmp_w := s64 (mx - r_x r) in
      if (WIN_MIN_W <=? tmp_w) && negb (tmp_w =? new_w) then (r_x r, tmp_w, true, CURSOR_RESIZE_H)
      else (r_x r, new_w, false, CURSOR_RESIZE_H)
    else (r_x r, new_w, false, CURSOR_ARROW) in
  if negb (Z.land dir RES_TOP =? 0) then
    let tmp_h := s64 (r_y r + r_h r - my) in
    if (WIN_MIN_H <=? tmp_h) && negb (tmp_h =? new_h) then (MkRect nx my nw tmp_h, true, CURSOR_RESIZE_V)
    else (MkRect nx (r_y r) nw new_h, ch, CURSOR_RESIZE_V)
  else if negb (Z.land dir RES_BOTTOM =? 0) then
    let max_y := scrn_h - TASKBAR_HEIGHT in
    let clamped_my := if max_y <? my then max_y else my in
    let tmp_h := s64 (clamped_my - r_y r) in
    if (WIN_MIN_H <=? tmp_h) && negb (tmp_h =? new_h) then (MkRect nx (r_y r) nw tmp_h, true, CURSOR_RESIZE_V)
    else (MkRect nx (r_y r) nw new_h, ch, CURSOR_RESIZE_V)
  else (MkRect nx (r_y r) nw new_h, ch, cur).

Definition drag_y (my off_y : Z) : Z :=
  let target_y := s64 (my - off_y) in
  let max_y := scrn_h - TASKBAR_HEIGHT - WIN_TITLE_BAR_HEIGHT in
  let target_y := if max_y <? target_y then max_y else target_y in
  if target_y <? 0 then 0 else target_y.

Definition leave_maximized (st : wm) (win : Z) : wm :=
  wupd st win (fun w => if decide (w_state w = WIN_STATE_MINIMIZED) then w else set_wstate WIN_STATE_NORMAL w).

(** A held button with a target: the target is sized or moved. *)
Definition update_drag (fuel : nat) (st : wm) (pix mx my : Z) : option (wm * CursorType) :=
  let d := drag_ctx st in
  w ← wm_wins st !! d_target d;
  if negb (d_resize_dir d =? RES_NONE) then
    let '(r, changed, cur) := drag_size (d_resize_dir d) (w_rect w) mx my in
    if changed then
      st ← win_resize st pix (d_target d) r;
      st ← win_stain_list fuel st (g_win_list st);
      Some (leave_maximized st (d_target d), cur)
    else Some (st, cur)
  else
    st ← win_move st (d_target d) (s64 (mx - d_off_x d)) (drag_y my (d_off_y d));
    st ← win_stain_list fuel st (g_win_list st);
    Some (leave_maximized st (d_target d), CURSOR_MOVE).

Definition hover_cursor (res_dir : Z) : CursorType :=
  if negb (Z.land res_dir (Z.lor RES_LEFT RES_RIGHT) =? 0) then CURSOR_RESIZE_H
  else if negb (Z.land res_dir (Z.lor RES_TOP RES_BOTTOM) =? 0) then CURSOR_RESIZE_V
  else CURSOR_ARROW.

(** A click inside the client area goes to the owner. *)
Definition send_click (st : wm) (w : Window) (mx my modifiers mstat : Z) : wm :=
  let client_x := s64 (mx - r_x (w_rect w) - WIN_BORDER_SIZE) in
  let client_y := s64 (my - r_y (w_rect w) - (WIN_TITLE_BAR_HEIGHT + WIN_BORDER_SIZE)) in
  let '(cw, ch) := win_get_client_size w in
  if (0 <=? client_x) && (client_x <? cw) && (0 <=? client_y) && (client_y <? ch)
  then wemit st [SendEvent (w_owner w) (mkEvent MOUSE_CLICK modifiers (ev_mouse (s32 client_x) (s32 client_y) (u8 (Z.land mstat 7))))]
  else st.

(** [tsk->win] of the task with a pid that is neither zombie nor dead; 0 is NULL. *)
Context (tsk_win : Z -> option Z).

(** [sched_kill] of [sched/sched.c] as the windows see it.  What happens to the task is in
    [Sched.sched_kill]; its window, if it is the task's own, is closed on the way
    ([sched_clean_gui]).  The caller is the kernel's task with pid 0, so that the task
    killed is never the current one. *)
Definition kill_owner (fuel : nat) (st : wm) (pid : Z) : option wm :=
  let st := wemit st [SchedKill pid] in
  let a := if pid <=? 0 then 0 else default 0 (tsk_win pid) in
  if a =? 0 then Some st
  else
    w ← wm_wins st !! a;
    if w_owner w =? pid then win_close fuel st a else Some st.

(** The three buttons of the title bar: [Some] when one is pressed. *)
Definition title_buttons (fuel : nat) (st : wm) (pix a : Z) (w : Window) (mx my : Z) : option (option wm) :=
  let off_mx := s64 (mx - r_x (w_rect w)) in
  let off_my := s64 (my - r_y (w_rect w)) in
  let btn_size := WIN_TITLE_BAR_HEIGHT in
  let btn k := s64 (r_w (w_rect w) - k * btn_size) in
  let ev := PushEvent (resize_event (w_owner w)) in
  if is_point_in_rect off_mx off_my (btn 1) 0 btn_size btn_size then
    st ← kill_owner fuel st (s32 (w_owner w));
    Some (Some st)
  else if has_flag w WIN_RESIZABLE && is_point_in_rect off_mx off_my (btn 2) 0 btn_size btn_size then
    st ← win_focus fuel st a;
    st ← win_toggle_maximize fuel st pix a;
    Some (Some (wemit st [ev]))
  else if has_flag w WIN_MINIMIZABLE && is_point_in_rect off_mx off_my (btn 3) 0 btn_size btn_size then
    st ← win_toggle_minimize fuel st pix a;
    st ← win_draw_taskbar st;
    Some (Some (wemit st [ev]))
  else Some None.

(** A held button without a target; [just] when it was just pressed. *)
Definition update_press (fuel : nat) (st : wm) (pix mx my modifiers mstat : Z) (just : bool) : option (wm * CursorType) :=
  if just && (scrn_h - TASKBAR_HEIGHT <=? my) then
    st ← handle_taskbar_click fuel st pix mx my;
    Some (st, CURSOR_ARROW)
  else
    a ← get_win_at fuel st mx my;
    if (a =? 0) || (a =? g_desktop_win st) then Some (st, CURSOR_ARROW)
    else
      w ← wm_wins st !! a;
      pressed ← (if just then title_buttons fuel st pix a w mx my else Some None);
      match pressed with
      | Some st => Some (st, CURSOR_ARROW)
      | None =>
          st ← (if just && negb (has_flag w WIN_BORDERLESS) then win_focus fuel st a else Some st);
          let res_dir := get_resize_dir w mx my in
          let st :=
            if just && (negb (res_dir =? RES_NONE) || check_win_drag w mx my) then
              with_drag st (DragCtx a (s64 (mx - r_x (w_rect w))) (s64 (my - r_y (w_rect w))) res_dir)
            else if just && negb (bool_decide (w_state w = WIN_STATE_MINIMIZED)) then send_click st w mx my modifiers mstat
            else st in
          Some (st, hover_cursor res_dir)
      end.

(** No button held: a finished resize is announced, the drag ends. *)
Definition update_release (fuel : nat) (st : wm) (mx my mstat : Z) (right_just : bool) : option (wm * CursorType) :=
  let d := drag_ctx st in
  st ← (if negb (d_target d =? 0) && negb (d_resize_dir d =? RES_NONE) then
          w ← wm_wins st !! d_target d;
          st ← init_win_pixels (wemit st [PushEvent (resize_event (w_owner w))]) (d_target d);
          Some (wupd st (d_target d) (add_flag WIN_DIRTY))
        else Some st);
  let st := with_drag st (DragCtx 0 (d_off_x d) (d_off_y d) (d_resize_dir d)) in
  a ← get_win_at fuel st mx my;
  if (a =? 0) || (a =? g_desktop_win st) then Some (st, CURSOR_ARROW)
  else
    w ← wm_wins st !! a;
    let cur := hover_cursor (get_resize_dir w mx my) in
    if right_just && negb (bool_decide (w_state w = WIN_STATE_MINIMIZED)) then
      st ← win_focus fuel st a;
      Some (send_click st w mx my 0 mstat, cur)
    else Some (st, cur).

(** [modifiers] are the modifier keys held. *)
Definition win_update (fuel : nat) (st : wm) (pix mstat mx my modifiers : Z) : option wm :=
  let is_left_btn := negb (Z.land mstat 1 =? 0) in
  let is_right_btn := negb (Z.land mstat 2 =? 0) in
  let is_just_pressed := is_left_btn && negb (prev_left_btn st) in
  let is_right_just_pressed := is_right_btn && negb (prev_right_btn st) in
  '(st, cursor) ← (if is_left_btn then
                     if negb (d_target (drag_ctx st) =? 0) then update_drag fuel st pix mx my
                     else update_press fuel st pix mx my modifiers mstat is_just_pressed
                   else update_release fuel st mx my mstat is_right_just_pressed);
  Some (wemit (with_btns st is_left_btn is_right_btn) [SetCursor cursor]).
End Screen.
