(* ===== verification/WindowInv.v ===== *)
(** The invariant of the window manager, [src/src/gui/window.c].

    [dll]: the windows of a list, bottom first, are linked in both directions.  [wm_inv]
    adds the ends, the desktop and the target of a drag.  Drawing requests only touch the
    dirty flags ([touched]). *)
From S2P Require Import Prelude RingBuf WinClip Window.

(** ** The links *)
Fixpoint dll (m : gmap Z Window) (p : Z) (l : list Z) (n : Z) : Prop :=
  match l with
  | [] => True
  | x :: l => (exists w, m !! x = Some w /\ w_prev w = p /\ w_next w = hd n l) /\ dll m x l n
  end.

(** The last window of a list. *)
Definition top_of (p : Z) (l : list Z) : Z := List.last l p.

Record wm_inv (st : wm) (l : list Z) : Prop := {
  wi_dll : dll (wm_wins st) 0 l 0;
  wi_nodup : NoDup l;
  wi_null : 0 ∉ l;
  wi_list : g_win_list st = hd 0 l;
  wi_top : g_win_top st = top_of 0 l;
  wi_desktop : g_desktop_win st = 0 \/ g_desktop_win st ∈ l;
  wi_drag : d_target (drag_ctx st) = 0 \/ d_target (drag_ctx st) ∈ l }.

(** What drawing leaves of a window: all but the dirty flag; and what a change of the
    stack leaves: all but the links and the dirty flag. *)
Definition core (w : Window) : Window := set_flags 0 (set_prev 0 (set_next 0 w)).
Definition flags_kept (w w' : Window) : Prop := w_flags w' = w_flags w \/ w_flags w' = Z.lor (w_flags w) WIN_DIRTY.
Definition same_win (w w' : Window) : Prop := core w' = core w /\ flags_kept w w'.
Definition same_links (w w' : Window) : Prop := same_win w w' /\ w_prev w' = w_prev w /\ w_next w' = w_next w.

(** The windows of a state are those of another, related by [R]. *)
Definition wins_rel (R : Window -> Window -> Prop) (st st' : wm) : Prop :=
  forall a, match wm_wins st !! a with
            | Some w => exists w', wm_wins st' !! a = Some w' /\ R w w'
            | None => wm_wins st' !! a = None
            end.

Record touched (st st' : wm) : Prop := {
  to_wins : wins_rel same_links st st';
  to_list : g_win_list st' = g_win_list st;
  to_top : g_win_top st' = g_win_top st;
  to_desktop : g_desktop_win st' = g_desktop_win st;
  to_drag : drag_ctx st' = drag_ctx st;
  to_pool : rect_pool st' = rect_pool st;
  to_launch : g_pending_launch st' = g_pending_launch st }.

Section Links.
Implicit Types (st : wm) (m : gmap Z Window) (l : list Z) (a b p n : Z) (w : Window).

Lemma top_of_cons p x l : top_of p (x :: l) = top_of x l.
Proof. unfold top_of. revert x. induction l as [|y l IH]; intros x; [done|]. cbn. destruct l; [done|]. apply (IH x). Qed.

Lemma top_of_app p l1 l2 : top_of p (l1 ++ l2) = top_of (top_of p l1) l2.
Proof. revert p. induction l1 as [|x l1 IH]; intros p; [done|]. cbn [app]. rewrite !top_of_cons. apply IH. Qed.

Lemma top_of_snoc p l x : top_of p (l ++ [x]) = x.
Proof. by rewrite top_of_app. Qed.

Lemma top_of_elem p l : l <> [] -> top_of p l ∈ l.
Proof.
  destruct l as [|x l] using rev_ind; [done|]. intros _. rewrite top_of_snoc. set_solver.
Qed.

Lemma whd_app n l1 l2 : hd n (l1 ++ l2) = hd (hd n l2) l1.
Proof. by destruct l1. Qed.

Lemma dll_app m p l1 l2 n : dll m p (l1 ++ l2) n <-> dll m p l1 (hd n l2) /\ dll m (top_of p l1) l2 n.
Proof.
  revert p. induction l1 as [|x l1 IH]; intros p; cbn [app dll]; [tauto|]. rewrite IH, whd_app, top_of_cons. tauto.
Qed.

Lemma dll_lookup m p l n a : dll m p l n -> a ∈ l -> exists w, m !! a = Some w.
Proof.
  revert p. induction l as [|x l IH]; intros p H Ha; [by apply not_elem_of_nil in Ha|]. destruct H as [(w & Hw & _) H].
  apply elem_of_cons in Ha as [->|Ha]; eauto.
Qed.

Definition links_of (w : Window) : Z * Z := (w_prev w, w_next w).

Lemma dll_ext m m' p l n : (forall a, a ∈ l -> links_of <$> m' !! a = links_of <$> m !! a) -> dll m p l n -> dll m' p l n.
Proof.
  revert p. induction l as [|x l IH]; intros p He H; cbn [dll] in *; [done|]. destruct H as [(w & Hw & Hp & Hn) H]. split.
  - specialize (He x ltac:(by constructor)). rewrite Hw in He. destruct (m' !! x) as [w'|]; [|done]. injection He as E1 E2.
    exists w'. split_and!; [done|congruence|congruence].
  - apply IH; [|done]. intros. apply He. by constructor.
Qed.

(** A change of the links at one end. *)
Lemma dll_set_next m p l n n' x : dll m p (l ++ [x]) n -> x ∉ l -> dll (alter (set_next n') x m) p (l ++ [x]) n'.
Proof.
  rewrite !dll_app. cbn [hd dll]. intros [H1 [(w & Hw & Hp & _) _]] Hx. split_and!; [|exists (set_next n' w)|done].
  - eapply dll_ext; [|exact H1]. intros a Ha. rewrite lookup_alter_ne; [done|]. intros ->. done.
  - by rewrite lookup_alter_eq, Hw.
Qed.

Lemma dll_set_prev m p p' l n x : dll m p (x :: l) n -> x ∉ l -> dll (alter (set_prev p') x m) p' (x :: l) n.
Proof.
  cbn [dll]. intros [(w & Hw & _ & Hn) H] Hx. split; [exists (set_prev p' w); by rewrite lookup_alter_eq, Hw|].
  eapply dll_ext; [|exact H]. intros a Ha. rewrite lookup_alter_ne; [done|]. intros ->. done.
Qed.

Lemma dll_alter_out m p l n x f : dll m p l n -> x ∉ l -> dll (alter f x m) p l n.
Proof. intros H Hx. eapply dll_ext; [|exact H]. intros a Ha. rewrite lookup_alter_ne; [done|]. intros ->. done. Qed.

Lemma wupd_lookup st a f b : wm_wins (wupd st a f) !! b = if bool_decide (a = b) then f <$> wm_wins st !! b else wm_wins st !! b.
Proof. unfold wupd. cbn [wm_wins]. case_bool_decide; [subst; apply lookup_alter_eq|by apply lookup_alter_ne]. Qed.

(** ** What drawing touches *)
Lemma flags_kept_trans w1 w2 w3 : flags_kept w1 w2 -> flags_kept w2 w3 -> flags_kept w1 w3.
Proof.
  unfold flags_kept. intros [E1|E1] [E2|E2]; rewrite ?E2, ?E1; auto. right. by rewrite <- Z.lor_assoc, Z.lor_diag.
Qed.

#[global] Instance same_win_preorder : PreOrder same_win.
Proof.
  split; [intros w; split; [done|by left]|]. intros w1 w2 w3 [C1 F1] [C2 F2]. split; [congruence|by eapply flags_kept_trans].
Qed.

#[global] Instance same_links_preorder : PreOrder same_links.
Proof.
  split; [intros w; by split_and!|]. intros w1 w2 w3 (S1 & P1 & N1) (S2 & P2 & N2). split_and!; [by transitivity w2|congruence|congruence].
Qed.

#[global] Instance wins_rel_preorder (R : Window -> Window -> Prop) : PreOrder R -> PreOrder (wins_rel R).
Proof.
  intros HR. split.
  - intros st a. destruct (wm_wins st !! a) as [w|]; [|done]. by exists w.
  - intros s1 s2 s3 H1 H2 a. specialize (H1 a). specialize (H2 a). destruct (wm_wins s1 !! a) as [w|].
    + destruct H1 as (w2 & E2 & R2). rewrite E2 in H2. destruct H2 as (w3 & E3 & R3). exists w3. split; [done|by transitivity w2].
    + by rewrite H1 in H2.
Qed.

#[global] Instance touched_preorder : PreOrder touched.
Proof.
  split.
  - intros st. by split.
  - intros s1 s2 s3 [A1 B1 C1 D1 E1 F1 G1] [A2 B2 C2 D2 E2 F2 G2]. split; try congruence. by transitivity s2.
Qed.

Lemma touched_emit st es : touched st (wemit st es).
Proof. split; try done. intros a. cbn. destruct (wm_wins st !! a) as [w|]; [by exists w|done]. Qed.

Lemma dirty_same w : same_links w (add_flag WIN_DIRTY w).
Proof. unfold same_links, same_win. split_and!; [done|by right|done|done]. Qed.

Lemma touched_upd st a f : (forall w, same_links w (f w)) -> touched st (wupd st a f).
Proof.
  intros Hf. split; try done. intros b. rewrite wupd_lookup. destruct (wm_wins st !! b) as [w|]; case_bool_decide; [by exists (f w)|by exists w|done|done].
Qed.

Lemma touched_lookup st st' a w : touched st st' -> wm_wins st !! a = Some w -> exists w', wm_wins st' !! a = Some w' /\ same_links w w'.
Proof. intros T Hw. pose proof (to_wins _ _ T a) as H. by rewrite Hw in H. Qed.

Lemma touched_inv st st' l : touched st st' -> wm_inv st l -> wm_inv st' l.
Proof.
  intros [A B C D E F G] [H1 H2 H3 H4 H5 H6 H7]. split; rewrite ?B, ?C, ?D, ?E; try done.
  eapply dll_ext; [|exact H1]. intros a Ha. destruct (dll_lookup _ _ _ _ _ H1 Ha) as [w Hw]. specialize (A a). rewrite Hw in A |- *.
  destruct A as (w' & -> & _ & Ep & En). cbn. unfold links_of. by rewrite Ep, En.
Qed.
End Links.

(** ** Drawing requests *)
Section Draw.
Implicit Types (st : wm) (l : list Z) (a : Z) (w : Window).

Lemma titlebar_spec st a : a = 0 \/ is_Some (wm_wins st !! a) ->
  exists st', win_redraw_titlebar st a = Some st' /\ touched st st'.
Proof.
  intros Ha. unfold win_redraw_titlebar. destruct (Z.eqb_spec a 0); [by exists st|]. destruct Ha as [|[w Hw]]; [done|]. rewrite Hw.
  cbn [mbind option_bind]. destruct (has_flag w WIN_BORDERLESS); [by exists st|]. eexists. split; [done|].
  etransitivity; [|apply touched_emit]. etransitivity; [apply touched_emit|apply touched_upd, dirty_same].
Qed.

Lemma init_pixels_spec st a : is_Some (wm_wins st !! a) -> exists st', init_win_pixels st a = Some st' /\ touched st st'.
Proof.
  intros [w Hw]. unfold init_win_pixels. rewrite Hw. cbn [mbind option_bind]. pose proof (touched_emit st [InitPixels a]) as T.
  destruct (has_flag w WIN_BORDERLESS); [by eexists|]. destruct (titlebar_spec (wemit st [InitPixels a]) a) as (st' & -> & T'); [right; by exists w|].
  exists st'. split; [done|by etransitivity].
Qed.

Lemma taskbar_spec st : g_desktop_win st = 0 \/ is_Some (wm_wins st !! g_desktop_win st) ->
  exists st', win_draw_taskbar st = Some st' /\ touched st st'.
Proof.
  intros Ha. unfold win_draw_taskbar. destruct (Z.eqb_spec (g_desktop_win st) 0); [by exists st|]. destruct Ha as [|[w Hw]]; [done|]. rewrite Hw.
  cbn [mbind option_bind]. eexists. split; [done|].
  etransitivity; [|apply touched_emit]. etransitivity; [apply touched_emit|apply touched_upd, dirty_same].
Qed.

Lemma old_top_spec st a : a = 0 \/ is_Some (wm_wins st !! a) -> exists st', redraw_old_top st a = Some st' /\ touched st st'.
Proof.
  intros Ha. unfold redraw_old_top. destruct (Z.eqb_spec a 0); [by exists st|]. pose proof Ha as [|[w Hw]]; [done|]. rewrite Hw.
  cbn [mbind option_bind]. destruct (has_flag w WIN_BORDERLESS); [by exists st|]. by apply titlebar_spec.
Qed.

Lemma stain_walk fuel st l p : dll (wm_wins st) p l 0 -> 0 ∉ l -> (length l <= fuel)%nat ->
  exists st', win_walk fuel st (hd 0 l) (fun st a _ => wupd st a (add_flag WIN_DIRTY)) = Some st' /\ touched st st'.
Proof.
  revert st l p. induction fuel as [|n IH]; intros st [|x l] p Hd H0 Hf; [by exists st|simpl in Hf; lia|by exists st|].
  apply not_elem_of_cons in H0 as [Hx H0]. destruct Hd as [(w & Hw & _ & Hn) Hd]. cbn [win_walk hd]. rewrite (proj2 (Z.eqb_neq x 0)), Hw by done.
  cbn [mbind option_bind]. rewrite Hn. pose proof (touched_upd st x _ dirty_same) as T.
  destruct (IH (wupd st x (add_flag WIN_DIRTY)) l x) as (st' & -> & T'); [|done|simpl in Hf; lia|exists st'; split; [done|by etransitivity]].
  eapply dll_ext; [|exact Hd]. intros a Ha. pose proof (to_wins _ _ T a) as Hr. destruct (wm_wins st !! a) as [wa|].
  - destruct Hr as (w' & -> & _ & Ep & En). cbn. unfold links_of. by rewrite Ep, En.
  - by rewrite Hr.
Qed.

Lemma stain_spec fuel st l : wm_inv st l -> (length l <= fuel)%nat ->
  exists st', win_stain_list fuel st (g_win_list st) = Some st' /\ touched st st'.
Proof. intros I Hf. unfold win_stain_list. rewrite (wi_list _ _ I). eapply stain_walk; [apply I|apply I|done]. Qed.

(** The requests at the end of most operations. *)
Lemma inv_desktop st l : wm_inv st l -> g_desktop_win st = 0 \/ is_Some (wm_wins st !! g_desktop_win st).
Proof.
  intros I. destruct (wi_desktop _ _ I) as [?|H]; [by left|right]. destruct (dll_lookup _ _ _ _ _ (wi_dll _ _ I) H) as [w Hw]. by exists w.
Qed.

Lemma inv_lookup st l a : wm_inv st l -> a ∈ l -> is_Some (wm_wins st !! a).
Proof. intros I Ha. destruct (dll_lookup _ _ _ _ _ (wi_dll _ _ I) Ha) as [w Hw]. by exists w. Qed.

Lemma repaint_spec fuel st l : wm_inv st l -> (length l <= fuel)%nat ->
  exists st', (st1 ← win_draw_taskbar st; win_stain_list fuel st1 (g_win_list st1)) = Some st' /\ touched st st'.
Proof.
  intros I Hf. destruct (taskbar_spec st (inv_desktop _ _ I)) as (st1 & -> & T1). cbn [mbind option_bind].
  destruct (stain_spec fuel st1 l (touched_inv _ _ _ T1 I) Hf) as (st2 & -> & T2). exists st2. split; [done|by etransitivity].
Qed.
End Draw.

(** ** Focus *)
Section Focus.
Implicit Types (st : wm) (l : list Z) (a : Z) (w : Window).

(** The windows after a change of links. *)
Definition relinked (st st' : wm) : Prop := wins_rel same_win st st'.

Lemma relink_upd st a f : (forall w, same_win w (f w)) -> relinked st (wupd st a f).
Proof.
  intros Hf b. rewrite wupd_lookup. destruct (wm_wins st !! b) as [w|]; case_bool_decide; [by exists (f w)|by exists w|done|done].
Qed.

Lemma touched_relinked st st' : touched st st' -> relinked st st'.
Proof. intros T a. pose proof (to_wins _ _ T a) as H. destruct (wm_wins st !! a); [|done]. destruct H as (w' & ? & [? _]). by exists w'. Qed.

Lemma set_next_same n w : same_win w (set_next n w).
Proof. split; [done|by left]. Qed.
Lemma set_prev_same n w : same_win w (set_prev n w).
Proof. split; [done|by left]. Qed.

Implicit Types (m : gmap Z Window).

Lemma elem_last l : l <> [] -> exists l' t, l = l' ++ [t].
Proof. destruct l as [|t l' _] using rev_ind; [done|]. intros _. by exists l', t. Qed.

(** The bottom window raised. *)
Lemma dll_raise_bottom m x l2 t w : dll m 0 (x :: l2) 0 -> NoDup (x :: l2) -> 0 ∉ l2 -> l2 <> [] -> t = top_of 0 l2 -> m !! x = Some w ->
  dll (alter (set_next 0) x (alter (set_prev 0) (w_next w) (alter (set_prev t) x (alter (set_next x) t m)))) 0 (l2 ++ [x]) 0.
Proof.
  intros Hd Hnd H0 Hne -> Hw. apply NoDup_cons in Hnd as [Hx Hnd]. destruct Hd as [(w' & Hw' & _ & Hn) Hd]. assert (w' = w) as -> by congruence.
  destruct (elem_last l2 Hne) as (l' & t & El). assert (top_of 0 l2 = t) as Et by (rewrite El; apply top_of_snoc). rewrite Et.
  assert (t ∈ l2) as Ht by (rewrite El; set_solver). assert (t ∉ l') as Htl.
  { rewrite El in Hnd. apply NoDup_app in Hnd as (_ & H & _). intros Hin. apply (H t Hin). by constructor. }
  apply dll_app. rewrite Hn. cbn [hd]. split.
  - apply dll_alter_out; [|done]. destruct l2 as [|y l2]; [done|]. cbn [hd]. apply NoDup_cons in Hnd as [Hy _].
    eapply dll_set_prev; [|done]. apply dll_alter_out; [|done]. rewrite El in Hd |- *. by eapply dll_set_next.
  - rewrite Et. split; [|done]. assert (w_next w <> x) by (rewrite Hn; destruct l2; [done|]; cbn; set_solver).
    exists (set_next 0 (set_prev t w)). rewrite lookup_alter_eq, lookup_alter_ne, lookup_alter_eq, lookup_alter_ne, Hw by (done || congruence). done.
Qed.

(** A window taken out of the middle. *)
Lemma dll_remove m l1 x l2 w : dll m 0 (l1 ++ x :: l2) 0 -> NoDup (l1 ++ x :: l2) -> l1 <> [] -> l2 <> [] -> m !! x = Some w ->
  dll (alter (set_prev (w_prev w)) (w_next w) (alter (set_next (w_next w)) (w_prev w) m)) 0 (l1 ++ l2) 0 /\
  w_prev w ∈ l1 /\ w_next w ∈ l2.
Proof.
  intros [Hd1 [(w' & Hw' & Hp & Hn) Hd2]]%dll_app Hnd Hne1 Hne2 Hw. assert (w' = w) as -> by congruence. cbn [hd] in Hd1.
  apply NoDup_app in Hnd as (Hn1 & Hdis & [Hx Hn2]%NoDup_cons).
  destruct (elem_last l1 Hne1) as (l1' & p & ->). rewrite top_of_snoc in *. destruct l2 as [|n l2]; [done|]. cbn [hd] in *.
  assert (p ∉ l1') by (apply NoDup_app in Hn1 as (_ & H & _); intros Hin; apply (H p Hin); by constructor).
  assert (n ∉ l1' ++ [p]) by (intros Hin; apply (Hdis n Hin); set_solver).
  assert (p ∉ n :: l2) by (intros Hin; apply (Hdis p); set_solver).
  rewrite Hp, Hn. split; [|split; set_solver]. apply dll_app. cbn [hd]. rewrite top_of_snoc. split.
  - apply dll_alter_out; [|done]. by eapply dll_set_next.
  - apply NoDup_cons in Hn2 as [? _]. eapply dll_set_prev; [|done]. apply dll_alter_out; [exact Hd2|done].
Qed.

(** A window put on top. *)
Lemma dll_push m l t x : dll m 0 l 0 -> NoDup l -> l <> [] -> t = top_of 0 l -> x ∉ l ->
  (exists w, m !! x = Some w /\ w_prev w = t /\ w_next w = 0) -> dll (alter (set_next x) t m) 0 (l ++ [x]) 0.
Proof.
  intros Hd Hnd Hne -> Hx (w & Hw & Hp & Hn). destruct (elem_last l Hne) as (l' & t & ->). rewrite top_of_snoc in *.
  apply dll_app. cbn [hd]. rewrite top_of_snoc. split.
  - eapply dll_set_next; [exact Hd|]. apply NoDup_app in Hnd as (_ & H & _). intros Hin. apply (H t Hin). by constructor.
  - split; [|done]. exists w. rewrite lookup_alter_ne; [done|]. set_solver.
Qed.

Lemma inv_split st l1 x l2 : wm_inv st (l1 ++ x :: l2) -> exists w, wm_wins st !! x = Some w /\ w_prev w = top_of 0 l1 /\ w_next w = hd 0 l2 /\
  x <> 0 /\ (x ∉ l1) /\ (x ∉ l2).
Proof.
  intros I. pose proof (wi_dll _ _ I) as [_ [(w & Hw & Hp & Hn) _]]%dll_app. pose proof (wi_nodup _ _ I) as (_ & Hd & [Hx _]%NoDup_cons)%NoDup_app.
  exists w. split_and!; [done|done|done|intros ->; apply (wi_null _ _ I); set_solver|intros Hin; apply (Hd x Hin); by constructor|done].
Qed.

(** Raising a window keeps the order of the others. *)
Lemma raise_spec st l1 x l2 w : wm_inv st (l1 ++ x :: l2) -> l2 <> [] -> wm_wins st !! x = Some w ->
  exists st', raise_links st x w = Some st' /\ wm_inv st' (l1 ++ l2 ++ [x]) /\ relinked st st' /\
    drag_ctx st' = drag_ctx st /\ rect_pool st' = rect_pool st /\ g_desktop_win st' = g_desktop_win st.
Proof.
  intros I Hne Hw. destruct (inv_split _ _ _ _ I) as (w' & Hw' & Hp & Hn & Hx0 & Hx1 & Hx2). assert (w' = w) as -> by congruence.
  pose proof I as [Hd Hnd H0 Hl Ht Hde Hdr].
  assert (l1 ++ x :: l2 ≡ₚ l1 ++ l2 ++ [x]) as P by (apply Permutation_app_head; rewrite <- Permutation_cons_append; done).
  assert (0 ∉ l2) as H02 by set_solver. assert (g_win_top st = top_of 0 l2) as Ht2.
  { rewrite Ht, top_of_app, top_of_cons. destruct (elem_last l2 Hne) as (l' & t & ->). by rewrite !top_of_snoc. }
  assert (forall st' h, drag_ctx st' = drag_ctx st -> g_desktop_win st' = g_desktop_win st -> g_win_list st' = h ->
    h = hd 0 (l1 ++ l2 ++ [x]) -> g_win_top st' = x -> dll (wm_wins st') 0 (l1 ++ l2 ++ [x]) 0 -> wm_inv st' (l1 ++ l2 ++ [x])) as Hinv.
  { intros st' h E1 E2 E3 Eh E4 Hd'. split; [done|by rewrite <- P|by rewrite <- P|congruence| |by rewrite E2, <- P|by rewrite E1, <- P].
    by rewrite E4, app_assoc, top_of_snoc. }
  unfold raise_links. destruct l1 as [|y l1]; cbn [app] in *.
  - rewrite Hl. cbn [hd]. rewrite Z.eqb_refl. rewrite !wupd_lookup, (bool_decide_eq_true_2 (x = x)) by done.
    assert (g_win_top st <> x) by (rewrite Ht2; intros E; apply Hx2; rewrite <- E; by apply top_of_elem).
    rewrite bool_decide_eq_false_2, Hw by done. cbn [fmap option_fmap option_map mbind option_bind]. eexists. split; [done|]. split_and!; try done.
    + apply (Hinv _ (hd 0 l2)); [done|done|exact Hn|by destruct l2|done|]. exact (dll_raise_bottom (wm_wins st) x l2 (g_win_top st) w Hd Hnd H02 Hne Ht2 Hw).
    + repeat (etransitivity; [|apply relink_upd; intros; (apply set_next_same || apply set_prev_same)]).
      change (relinked st (with_ends ?s ?a ?b)) with (relinked st s).
      repeat (etransitivity; [|apply relink_upd; intros; (apply set_next_same || apply set_prev_same)]). reflexivity.
  - assert (x <> y) by set_solver. rewrite Hl. cbn [hd]. rewrite (proj2 (Z.eqb_neq x y)) by done.
    destruct (dll_remove (wm_wins st) (y :: l1) x l2 w Hd Hnd ltac:(done) Hne Hw) as (Hd' & Hin1 & Hin2).
    assert (w_prev w <> 0) by (intros E; apply H0; rewrite <- E; set_solver). assert (w_next w <> 0) by (intros E; apply H0; rewrite <- E; set_solver).
    rewrite !(proj2 (Z.eqb_neq _ 0)) by done. cbn [negb andb]. eexists. split; [done|]. split_and!; try done.
    + apply (Hinv _ y); [done|done|exact Hl|done|done|]. cbn [wupd with_ends wm_wins g_win_top]. rewrite app_comm_cons, app_assoc.
      assert (x ∉ (y :: l1) ++ l2) as Hxl by set_solver.
      apply dll_push.
      * apply dll_alter_out; [|done]. apply dll_alter_out; [exact Hd'|done].
      * change (x :: l2) with ([x] ++ l2) in Hnd. rewrite app_comm_cons, (Permutation_app_comm [x]), app_assoc in Hnd. by apply NoDup_app in Hnd as (? & _).
      * by destruct l2.
      * rewrite Ht2, top_of_app. destruct (elem_last l2 Hne) as (l' & t & ->). by rewrite !top_of_snoc.
      * done.
      * exists (set_prev (g_win_top st) (set_next 0 w)). rewrite !lookup_alter_eq. cbn [with_ends wupd wm_wins g_win_top].
        rewrite !lookup_alter_ne, Hw by (intros E; set_solver). done.
    + change (relinked st (with_ends ?s ?a ?b)) with (relinked st s).
      repeat (etransitivity; [|apply relink_upd; intros; (apply set_next_same || apply set_prev_same)]). reflexivity.
Qed.
End Focus.

(** ** Operations on the stack *)
Section Ops.
Implicit Types (st : wm) (l : list Z) (a x : Z) (w : Window).

(** What an operation on the stack leaves of everything else. *)
Record restacked (st st' : wm) : Prop := {
  re_wins : relinked st st';
  re_drag : drag_ctx st' = drag_ctx st;
  re_pool : rect_pool st' = rect_pool st;
  re_desktop : g_desktop_win st' = g_desktop_win st }.

#[global] Instance restacked_preorder : PreOrder restacked.
Proof.
  split; [intros st; split; try done; unfold relinked; reflexivity|].
  intros s1 s2 s3 [A1 B1 C1 D1] [A2 B2 C2 D2]. split; try congruence. unfold relinked in *. by transitivity s2.
Qed.

Lemma touched_restacked st st' : touched st st' -> restacked st st'.
Proof. intros T. split; [by apply touched_relinked|apply T|apply T|apply T]. Qed.

Lemma top_iff st l1 x l2 : wm_inv st (l1 ++ x :: l2) -> x = g_win_top st <-> l2 = [].
Proof.
  intros I. destruct (inv_split _ _ _ _ I) as (_ & _ & _ & _ & _ & _ & Hx2). rewrite (wi_top _ _ I), top_of_app, top_of_cons. split.
  - intros E. destruct l2 as [|y l2]; [done|]. exfalso. apply Hx2. rewrite E at 1. by apply top_of_elem.
  - by intros ->.
Qed.

Lemma focus_spec fuel st l1 x l2 w : wm_inv st (l1 ++ x :: l2) -> (length (l1 ++ x :: l2) <= fuel)%nat -> wm_wins st !! x = Some w ->
  exists st', win_focus fuel st x = Some st' /\ restacked st st' /\
    wm_inv st' (if has_flag w WIN_BORDERLESS then l1 ++ x :: l2 else l1 ++ l2 ++ [x]).
Proof.
  intros I Hf Hw. destruct (inv_split _ _ _ _ I) as (_ & _ & _ & _ & Hx0 & _). unfold win_focus.
  rewrite (proj2 (Z.eqb_neq x 0)), Hw by done. cbn [mbind option_bind]. destruct (has_flag w WIN_BORDERLESS) eqn:Eb; cbn [orb]; [by exists st|].
  destruct (Z.eqb_spec x (g_win_top st)) as [E|E].
  { apply (top_iff st l1 x l2 I) in E as ->. exists st. by rewrite app_nil_l. }
  assert (l2 <> []) as Hne by (intros E2; apply E; by apply (top_iff st l1 x l2 I)).
  destruct (raise_spec st l1 x l2 w I Hne Hw) as (st1 & -> & I1 & R1 & Ed & Ep & Ede). cbn [mbind option_bind].
  assert (restacked st st1) as S1 by (by split). set (l' := l1 ++ l2 ++ [x]) in *.
  assert (is_Some (wm_wins st1 !! g_win_top st)) as Ht.
  { apply (inv_lookup _ _ _ I1). rewrite (wi_top _ _ I), top_of_app, top_of_cons. pose proof (top_of_elem x l2 Hne). unfold l'. set_solver. }
  destruct (old_top_spec st1 (g_win_top st)) as (st2 & -> & T2); [by right|]. cbn [mbind option_bind].
  pose proof (touched_inv _ _ _ T2 I1) as I2. assert (x ∈ l') as Hxl by (unfold l'; set_solver).
  destruct (titlebar_spec st2 x) as (st3 & -> & T3); [right; by eapply inv_lookup|]. cbn [mbind option_bind].
  pose proof (touched_inv _ _ _ T3 I2) as I3.
  assert (length l' <= fuel)%nat as Hf' by (unfold l'; rewrite !length_app in *; simpl in *; lia).
  destruct (repaint_spec fuel st3 l' I3 Hf') as (st4 & E4 & T4). destruct (win_draw_taskbar st3) as [st3'|]; [|done]. cbn [mbind option_bind] in *.
  rewrite E4. cbn [mbind option_bind]. pose proof (touched_inv _ _ _ T4 I3) as I4. destruct (inv_lookup _ _ _ I4 Hxl) as [w4 ->]. cbn [mbind option_bind].
  eexists. split; [done|]. split.
  - etransitivity; [exact S1|]. apply touched_restacked. etransitivity; [exact T2|]. etransitivity; [exact T3|]. etransitivity; [exact T4|apply touched_emit].
  - eapply touched_inv; [apply touched_emit|exact I4].
Qed.
End Ops.
