(* ===== verification/WindowOps.v ===== *)
(** Every operation of the window manager keeps its invariant, [src/src/gui/window.c]. *)
From S2P Require Import Prelude RingBuf WinClip Window WindowInv.

Section Close.
Implicit Types (st : wm) (l : list Z) (a x : Z) (w : Window).

Lemma dll_delete_out m p l n x : dll m p l n -> x ∉ l -> dll (delete x m) p l n.
Proof. intros H Hx. eapply dll_ext; [|exact H]. intros a Ha. rewrite lookup_delete_ne; [done|]. intros ->. done. Qed.

Lemma unlink_win_spec st l1 x l2 w : wm_inv st (l1 ++ x :: l2) -> wm_wins st !! x = Some w ->
  let st1 := unlink_win st x w in
  dll (wm_wins st1) 0 (l1 ++ l2) 0 /\ g_win_list st1 = hd 0 (l1 ++ l2) /\ g_win_top st1 = top_of 0 (l1 ++ l2) /\ relinked st st1 /\
  g_desktop_win st1 = g_desktop_win st /\ drag_ctx st1 = drag_ctx st /\ rect_pool st1 = rect_pool st.
Proof.
  intros I Hw. destruct (inv_split _ _ _ _ I) as (w' & Hw' & Hp & Hn & Hx0 & Hx1 & Hx2). assert (w' = w) as -> by congruence.
  pose proof I as [Hd Hnd H0 Hl Ht _ _]. cbv zeta. unfold unlink_win. rewrite Hl, Hp, Hn.
  assert (forall s : wm, relinked s s) as Rf by (intros s; unfold relinked; reflexivity).
  destruct l1 as [|y l1]; [destruct l2 as [|z l2]|destruct l2 as [|z l2]]; cbn [app hd] in *.
  - rewrite !Z.eqb_refl. cbn. split_and!; [done|done|done|exact (Rf st)|done|done|done].
  - assert (z <> 0) by (intros ->; apply H0; do 2 constructor). rewrite Z.eqb_refl, (proj2 (Z.eqb_neq z 0)) by done. rewrite Z.eqb_refl. cbn [andb].
    destruct Hd as [_ Hd]. apply NoDup_cons in Hnd as [_ [Hz _]%NoDup_cons]. cbn [wupd with_ends wm_wins g_win_list g_win_top g_desktop_win drag_ctx rect_pool].
    split_and!; [eapply dll_set_prev; [exact Hd|done]|done|by rewrite Ht, !top_of_cons| |done|done|done].
    change (relinked st (wupd st z (set_prev 0))). apply relink_upd. intros. apply set_prev_same.
  - assert (x <> y) by (intros ->; apply Hx1; by constructor). destruct (elem_last (y :: l1) ltac:(done)) as (l' & p & El).
    assert (top_of 0 (y :: l1) = p) as Etp by (rewrite El; apply top_of_snoc). rewrite Etp.
    assert (p ∈ y :: l1) as Hpi by (rewrite El; apply elem_of_app; right; by constructor).
    assert (p <> 0) by (intros ->; apply H0; apply (elem_of_app (y :: l1) [x]); by left).
    rewrite (proj2 (Z.eqb_neq p 0)), (proj2 (Z.eqb_neq x y)) by done. cbn [andb].
    rewrite Ht. change (y :: l1 ++ [x]) with ((y :: l1) ++ [x]). rewrite top_of_snoc, Z.eqb_refl. rewrite app_nil_r.
    change (y :: l1 ++ [x]) with ((y :: l1) ++ [x]) in Hd, Hnd. apply dll_app in Hd as [Hd _]. apply NoDup_app in Hnd as (Hnd & _ & _).
    cbn [wupd with_ends wm_wins g_win_list g_win_top g_desktop_win drag_ctx rect_pool]. split_and!; [|done|done| |done|done|done].
    + rewrite El in Hd, Hnd |- *. eapply dll_set_next; [exact Hd|]. apply NoDup_app in Hnd as (_ & Hdd & _). intros Hin. apply (Hdd p Hin). by constructor.
    + change (relinked st (wupd st p (set_next 0))). apply relink_upd. intros. apply set_next_same.
  - assert (x <> y) by (intros ->; apply Hx1; by constructor). assert (z <> 0) by (intros ->; apply H0; apply (elem_of_app (y :: l1) (x :: 0 :: l2)); right; do 2 constructor). rewrite (proj2 (Z.eqb_neq z 0)), (proj2 (Z.eqb_neq x y)), andb_false_r by done.
    assert (g_win_top st = top_of 0 (y :: l1 ++ z :: l2)) as Et.
    { rewrite Ht. rewrite !top_of_cons. rewrite !top_of_app, !top_of_cons. done. }
    assert (x <> g_win_top st) as Hxt by (intros E; apply (top_iff st (y :: l1) x (z :: l2) I) in E; done).
    rewrite (proj2 (Z.eqb_neq _ _)) by done.
    destruct (dll_remove (wm_wins st) (y :: l1) x (z :: l2) w Hd Hnd ltac:(done) ltac:(done) Hw) as (Hd' & _). rewrite Hp, Hn in Hd'. cbn [hd] in Hd'.
    cbn [wupd with_ends wm_wins g_win_list g_win_top g_desktop_win drag_ctx rect_pool]. split_and!; [exact Hd'|(done || exact Hl)|(exact Et || done)| |done|done|done].
    change (relinked st (wupd (wupd st (top_of 0 (y :: l1)) (set_next z)) z (set_prev (top_of 0 (y :: l1))))). unfold relinked.
    etransitivity; [apply relink_upd; intros; apply set_next_same|apply relink_upd; intros; apply set_prev_same].
Qed.

(** A closed window is gone, its clip list is back in the pool, a drag of it ends; the
    others keep their order and everything they have. *)
Lemma close_spec fuel st l1 x l2 w : wm_inv st (l1 ++ x :: l2) -> (length (l1 ++ l2) <= fuel)%nat -> wm_wins st !! x = Some w ->
  x <> g_desktop_win st ->
  exists st', win_close fuel st x = Some st' /\ wm_inv st' (l1 ++ l2) /\ wm_wins st' !! x = None /\
    rect_pool st' ≡ₚ slots (w_clip w) ++ rect_pool st /\ g_desktop_win st' = g_desktop_win st /\
    (forall a wa, a <> x -> wm_wins st !! a = Some wa -> exists wa', wm_wins st' !! a = Some wa' /\ same_win wa wa') /\
    d_target (drag_ctx st') <> x.
Proof.
  intros I Hf Hw Hxd. destruct (inv_split _ _ _ _ I) as (_ & _ & _ & _ & Hx0 & Hx1 & Hx2). pose proof (unlink_win_spec st l1 x l2 w I Hw) as U.
  unfold win_close. rewrite Hw. cbn [mbind option_bind].
  set (st1 := if x =? d_target (drag_ctx (wemit st [DirtyRect (w_rect w)])) then _ else _).
  assert (wm_wins st1 = wm_wins st /\ g_win_list st1 = g_win_list st /\ g_win_top st1 = g_win_top st /\ g_desktop_win st1 = g_desktop_win st /\
    rect_pool st1 = rect_pool st) as (E1 & E2 & E3 & E4 & E5) by (unfold st1; by destruct (_ =? _)).
  assert (d_target (drag_ctx st1) = 0 \/ (d_target (drag_ctx st1) ∈ l1 ++ l2 /\ d_target (drag_ctx st1) <> x)) as Hdr.
  { unfold st1. destruct (Z.eqb_spec x (d_target (drag_ctx (wemit st [DirtyRect (w_rect w)])))) as [E|E]; [by left|].
    destruct (wi_drag _ _ I) as [H|H]; [by left|right]. change (drag_ctx (wemit st [DirtyRect (w_rect w)])) with (drag_ctx st) in *.
    split; [set_solver|congruence]. }
  assert (wm_inv st1 (l1 ++ x :: l2)) as I1.
  { split; rewrite ?E1, ?E2, ?E3, ?E4; try apply I. destruct Hdr as [?|[? _]]; [by left|right; set_solver]. }
  assert (wm_wins st1 !! x = Some w) as Hw1 by (by rewrite E1). clear U.
  destruct (unlink_win_spec st1 l1 x l2 w I1 Hw1) as (Hd & Hl & Ht & Hr & Ede & Edr & Epo). set (st2 := unlink_win st1 x w) in *.
  set (st3 := if w_pixels w =? 0 then st2 else _). set (st4 := if w_title w =? 0 then st3 else _).
  assert (exists es, st4 = wemit st2 es) as [es ->].
  { unfold st4, st3. destruct (w_pixels w =? 0), (w_title w =? 0); [exists []|by eexists|by eexists|exists ([VmmFreePixels (w_pixels w)] ++ [KfreeTitle (w_title w)])].
    - unfold wemit. rewrite app_nil_r. by destruct st2.
    - unfold wemit. cbn [wm_log]. rewrite <- app_assoc. done. }
  clear st3. set (st5 := wemit (with_wins _ _) _).
  assert (forall a, a <> x -> wm_wins st5 !! a = wm_wins st2 !! a) as L5 by (intros a Ha; unfold st5; cbn; by rewrite lookup_delete_ne by congruence).
  assert (wm_inv st5 (l1 ++ l2)) as I5.
  { split; cbn [st5 wemit with_wins with_pool wm_wins g_win_list g_win_top g_desktop_win drag_ctx].
    - apply dll_delete_out; [exact Hd|set_solver].
    - pose proof (wi_nodup _ _ I) as Hnd. rewrite <- Permutation_middle in Hnd. by apply NoDup_cons in Hnd as [_ ?].
    - pose proof (wi_null _ _ I). set_solver.
    - exact Hl.
    - exact Ht.
    - rewrite Ede, E4. destruct (wi_desktop _ _ I) as [?|H]; [by left|right]. set_solver.
    - rewrite Edr. destruct Hdr as [?|[? _]]; auto. }
  assert (g_win_top st5 = 0 \/ is_Some (wm_wins st5 !! g_win_top st5)) as Htop.
  { rewrite (wi_top _ _ I5). destruct (decide (l1 ++ l2 = [])) as [->|Hne]; [by left|right]. by eapply inv_lookup, top_of_elem. }
  destruct (old_top_spec st5 (g_win_top st5) Htop) as (st6 & -> & T6). cbn [mbind option_bind].
  pose proof (touched_inv _ _ _ T6 I5) as I6. destruct (repaint_spec fuel st6 _ I6 Hf) as (st7 & -> & T7).
  assert (touched st5 st7) as T by (by etransitivity).
  exists st7. split_and!; [done|by eapply touched_inv| | |rewrite (to_desktop _ _ T); cbn; congruence| |].
  - pose proof (to_wins _ _ T x) as H. unfold st5 in H at 1. cbn [wemit with_wins wm_wins] in H. by rewrite lookup_delete_eq in H.
  - rewrite (to_pool _ _ T). cbn. rewrite free_list_spec, Epo, E5. done.
  - intros a wa Ha Hwa. pose proof (Hr a) as H. rewrite E1, Hwa in H. destruct H as (w2 & H2 & S2).
    destruct (touched_lookup st5 st7 a w2 T) as (w7 & H7 & S7 & _); [by rewrite L5|]. exists w7. split; [done|by transitivity w2].
  - rewrite (to_drag _ _ T). cbn. rewrite Edr. destruct Hdr as [->|[_ ?]]; [congruence|done].
Qed.
End Close.

(** ** Moving and sizing *)

(** What an operation on one window leaves of it and of the rest. *)
Definition same_owner (w w' : Window) : Prop := w_clip w' = w_clip w /\ w_owner w' = w_owner w /\ w_title w' = w_title w /\
  has_flag w' WIN_BORDERLESS = has_flag w WIN_BORDERLESS.
Definition same_place (w w' : Window) : Prop := same_owner w w' /\ w_prev w' = w_prev w /\ w_next w' = w_next w.

Record moved (st st' : wm) : Prop := {
  mo_wins : wins_rel same_place st st';
  mo_list : g_win_list st' = g_win_list st;
  mo_top : g_win_top st' = g_win_top st;
  mo_desktop : g_desktop_win st' = g_desktop_win st;
  mo_drag : drag_ctx st' = drag_ctx st;
  mo_pool : rect_pool st' = rect_pool st }.

Section Move.
Implicit Types (st : wm) (l : list Z) (a x : Z) (w : Window).

#[global] Instance same_owner_preorder : PreOrder same_owner.
Proof.
  split; [intros w; by split_and!|]. intros w1 w2 w3 (A1 & B1 & C1 & D1) (A2 & B2 & C2 & D2). unfold same_owner. split_and!; congruence.
Qed.

#[global] Instance same_place_preorder : PreOrder same_place.
Proof.
  split; [intros w; by split_and!|]. intros w1 w2 w3 (S1 & P1 & N1) (S2 & P2 & N2). unfold same_place. split_and!; [by transitivity w2|congruence|congruence].
Qed.

#[global] Instance moved_preorder : PreOrder moved.
Proof.
  split; [intros st; split; try done; reflexivity|].
  intros s1 s2 s3 [A1 B1 C1 D1 E1 F1] [A2 B2 C2 D2 E2 F2]. split; try congruence. by transitivity s2.
Qed.

Lemma dirty_borderless w : has_flag (add_flag WIN_DIRTY w) WIN_BORDERLESS = has_flag w WIN_BORDERLESS.
Proof.
  unfold has_flag, add_flag. cbn [set_flags w_flags]. rewrite Z.land_lor_distr_l. change (Z.land WIN_DIRTY WIN_BORDERLESS) with 0. by rewrite Z.lor_0_r.
Qed.

Lemma same_win_owner w w' : same_win w w' -> same_owner w w'.
Proof.
  intros [Hc Hf]. destruct w as [w_rect w_title w_cursor w_pixels w_pixels_size w_prev w_next w_owner w_flags w_clip w_state w_pre_state w_pre], w'.
  unfold core in Hc. cbn in Hc. injection Hc as -> -> -> -> -> -> -> -> -> ->.
  unfold same_owner. split_and!; try done. destruct Hf as [E|E]; cbn in E; rewrite E; [done|].
  exact (dirty_borderless (MkWindow w_rect w_title w_cursor w_pixels w_pixels_size w_prev w_next w_owner w_flags w_clip w_state w_pre_state w_pre)).
Qed.

Lemma wins_rel_mono (R R' : Window -> Window -> Prop) st st' : (forall w w', R w w' -> R' w w') -> wins_rel R st st' -> wins_rel R' st st'.
Proof. intros H Hr a. specialize (Hr a). destruct (wm_wins st !! a); [|done]. destruct Hr as (w' & ? & ?). exists w'. auto. Qed.

Lemma touched_moved st st' : touched st st' -> moved st st'.
Proof.
  intros [A B C D E F G]. split; try done. eapply wins_rel_mono; [|exact A]. intros w w' (S & P & N). split_and!; [by apply same_win_owner|done|done].
Qed.

Lemma moved_inv st st' l : moved st st' -> wm_inv st l -> wm_inv st' l.
Proof.
  intros [A B C D E F] [H1 H2 H3 H4 H5 H6 H7]. split; rewrite ?B, ?C, ?D, ?E; try done.
  eapply dll_ext; [|exact H1]. intros a Ha. destruct (dll_lookup _ _ _ _ _ H1 Ha) as [w Hw]. specialize (A a). rewrite Hw in A |- *.
  destruct A as (w' & -> & _ & Ep & En). cbn. unfold links_of. by rewrite Ep, En.
Qed.

Lemma moved_upd st a f : (forall w, same_place w (f w)) -> moved st (wupd st a f).
Proof.
  intros Hf. split; try done. intros b. rewrite wupd_lookup. destruct (wm_wins st !! b) as [w|]; case_bool_decide; [by exists (f w)|by exists w|done|done].
Qed.

Lemma moved_lookup st st' a : moved st st' -> is_Some (wm_wins st !! a) -> is_Some (wm_wins st' !! a).
Proof. intros M [w Hw]. pose proof (mo_wins _ _ M a) as H. rewrite Hw in H. destruct H as (w' & ? & _). by exists w'. Qed.

(** The windows but [a] are only touched. *)
Definition others (a : Z) (st st' : wm) : Prop := forall b w, b <> a -> wm_wins st !! b = Some w -> exists w', wm_wins st' !! b = Some w' /\ same_links w w'.

Lemma others_touched a s1 s2 s3 : others a s1 s2 -> touched s2 s3 -> others a s1 s3.
Proof.
  intros O T b w Hb Hw. destruct (O b w Hb Hw) as (w2 & H2 & S2). destruct (touched_lookup s2 s3 b w2 T H2) as (w3 & H3 & S3).
  exists w3. split; [done|by transitivity w2].
Qed.

Lemma move_spec st x nx ny w : wm_wins st !! x = Some w ->
  exists st', win_move st x nx ny = Some st' /\ moved st st' /\ others x st st' /\
    wm_wins st' !! x = Some (set_rect (MkRect nx ny (r_w (w_rect w)) (r_h (w_rect w))) w).
Proof.
  intros Hw. unfold win_move. rewrite Hw. cbn [mbind option_bind]. eexists. split; [done|]. set (r' := MkRect nx ny _ _). split_and!.
  - etransitivity; [apply touched_moved, touched_emit|]. etransitivity; [apply (moved_upd _ x (set_rect r'))|apply touched_moved, touched_emit].
    intros. by split_and!.
  - intros b wb Hb Hwb. change (wm_wins (wemit ?s ?e)) with (wm_wins s). rewrite wupd_lookup, bool_decide_eq_false_2 by congruence. by exists wb.
  - change (wm_wins (wemit ?s ?e)) with (wm_wins s). rewrite wupd_lookup, bool_decide_eq_true_2 by done.
    change (wm_wins (wemit ?s ?e)) with (wm_wins s). by rewrite Hw.
Qed.

(** A resize without memory changes nothing; else the window has the new place and pixels. *)
Lemma resize_spec st pix x new w : wm_wins st !! x = Some w ->
  exists st', win_resize st pix x new = Some st' /\ moved st st' /\ others x st st' /\
    exists w', wm_wins st' !! x = Some w' /\ w_state w' = w_state w /\ w_pre w' = w_pre w /\ w_pre_state w' = w_pre_state w /\
      if decide (pix = 0) then w' = w
      else w_rect w' = MkRect (r_x new) (r_y new) (u64 (r_w new)) (u64 (r_h new)) /\ w_pixels w' = pix /\
           w_pixels_size w' = u64 (s64 (r_h new * r_w new * 4)).
Proof.
  intros Hw. unfold win_resize. rewrite Hw. cbn [mbind option_bind]. destruct (Z.eqb_spec pix 0) as [E|E].
  { exists st. split_and!; [done|reflexivity|intros b wb _ Hb; by exists wb|]. exists w. by rewrite decide_True. }
  set (new' := MkRect (r_x new) (r_y new) (u64 (r_w new)) (u64 (r_h new))). set (f := fun w => set_rect new' _).
  set (st1 := wupd _ x f). assert (wm_wins st1 !! x = Some (f w)) as H1.
  { unfold st1. rewrite wupd_lookup, bool_decide_eq_true_2 by done. change (wm_wins (wemit ?s ?e)) with (wm_wins s). by rewrite Hw. }
  assert (moved st st1) as M1 by (etransitivity; [apply touched_moved, touched_emit|apply moved_upd; intros; by split_and!]).
  assert (others x st st1) as O1.
  { intros b wb Hb Hwb. unfold st1. rewrite wupd_lookup, bool_decide_eq_false_2 by congruence. by exists wb. }
  destruct (init_pixels_spec st1 x) as (st2 & -> & T2); [by exists (f w)|]. cbn [mbind option_bind]. eexists. split; [done|].
  assert (touched st1 (wupd (wemit st2 [DirtyRect new']) x (add_flag WIN_DIRTY))) as T.
  { etransitivity; [exact T2|]. etransitivity; [apply touched_emit|apply touched_upd, dirty_same]. }
  split_and!; [by etransitivity; [exact M1|apply touched_moved]|by eapply others_touched|].
  destruct (touched_lookup _ _ x _ T H1) as (w' & Hw' & [Hc _] & _). exists w'. rewrite decide_False by done.
  destruct w', w. unfold core in Hc. cbn in Hc. injection Hc as -> -> -> -> -> -> -> -> -> ->. split_and!; done.
Qed.
End Move.

Ltac same_place := intros ?; unfold same_place, same_owner; split_and!; done.

(** ** Maximizing and minimizing *)
Section Toggle.
Context (scrn_w scrn_h : Z).
Implicit Types (st : wm) (l : list Z) (a x : Z) (w : Window) (pix : Z).

Definition u64_rect (r : Rect) : Rect := MkRect (r_x r) (r_y r) (u64 (r_w r)) (u64 (r_h r)).

(** The state, the saved state and rectangle, and the rectangle asked for. *)
Definition min_goal w : win_state * win_state * Rect * Rect :=
  let r := w_rect w in
  if decide (w_state w = WIN_STATE_MINIMIZED)
  then (w_pre_state w, w_pre_state w, w_pre w, MkRect (r_x r) (r_y r) (r_w r) (r_h (w_pre w)))
  else (WIN_STATE_MINIMIZED, w_state w, r, MkRect (r_x r) (r_y r) (r_w r) WIN_TITLE_BAR_HEIGHT).

Definition max_goal w : win_state * win_state * Rect * Rect :=
  let full := MkRect 0 0 scrn_w (scrn_h - TASKBAR_HEIGHT) in
  match w_state w with
  | WIN_STATE_NORMAL => (WIN_STATE_MAXIMIZED, w_pre_state w, w_rect w, full)
  | WIN_STATE_MAXIMIZED => (WIN_STATE_NORMAL, w_pre_state w, w_pre w, w_pre w)
  | WIN_STATE_MINIMIZED => (WIN_STATE_MAXIMIZED, w_pre_state w, w_pre w, full)
  end.

(** A window [w'] that is [w] after a toggle with a goal. *)
Definition toggled pix w (goal : win_state * win_state * Rect * Rect) w' : Prop :=
  let '(s, ps, pr, r) := goal in
  w_state w' = s /\ w_pre_state w' = ps /\ w_pre w' = pr /\ w_rect w' = if decide (pix = 0) then w_rect w else u64_rect r.

(** Both toggles: change the state, resize, repaint. *)
Lemma toggle_core fuel st l x w f pix new : wm_inv st l -> (length l <= fuel)%nat -> wm_wins st !! x = Some w ->
  (forall w, same_place w (f w)) ->
  exists st', (st1 ← win_resize (wupd st x f) pix x new; st2 ← win_draw_taskbar st1; win_stain_list fuel st2 (g_win_list st2)) = Some st' /\
    moved st st' /\ others x st st' /\
    exists w', wm_wins st' !! x = Some w' /\ w_state w' = w_state (f w) /\ w_pre_state w' = w_pre_state (f w) /\ w_pre w' = w_pre (f w) /\
      w_rect w' = if decide (pix = 0) then w_rect (f w) else u64_rect new.
Proof.
  intros I Hf Hw Hp. assert (wm_wins (wupd st x f) !! x = Some (f w)) as H1 by (by rewrite wupd_lookup, bool_decide_eq_true_2, Hw).
  destruct (resize_spec (wupd st x f) pix x new (f w) H1) as (st1 & -> & M1 & O1 & w1 & Hw1 & S1 & P1 & PS1 & R1). cbn [mbind option_bind].
  assert (moved st st1) as M by (etransitivity; [by apply moved_upd|done]).
  destruct (repaint_spec fuel st1 l (moved_inv _ _ _ M I) Hf) as (st2 & -> & T2). exists st2. split; [done|].
  split_and!; [etransitivity; [exact M|by apply touched_moved]| |].
  - eapply others_touched; [|exact T2]. intros b wb Hb Hwb. apply O1; [done|]. by rewrite wupd_lookup, bool_decide_eq_false_2 by congruence.
  - destruct (touched_lookup _ _ x _ T2 Hw1) as (w' & Hw' & [Hc _] & _). exists w'. split; [done|].
    assert (w_state w' = w_state w1 /\ w_pre_state w' = w_pre_state w1 /\ w_pre w' = w_pre w1 /\ w_rect w' = w_rect w1) as (-> & -> & -> & ->).
    { destruct w', w1. unfold core in Hc. cbn in Hc. by injection Hc as -> -> -> -> -> -> -> -> -> ->. }
    split_and!; [done|done|done|]. destruct (decide (pix = 0)); [by subst w1|apply R1].
Qed.

Lemma toggle_min_spec fuel st l x w pix : wm_inv st l -> (length l <= fuel)%nat -> wm_wins st !! x = Some w ->
  exists st', win_toggle_minimize fuel st pix x = Some st' /\ moved st st' /\ others x st st' /\
    exists w', wm_wins st' !! x = Some w' /\ toggled pix w (min_goal w) w'.
Proof.
  intros I Hf Hw. unfold win_toggle_minimize, min_goal, toggled. rewrite Hw. cbn [mbind option_bind]. case_decide as Hs.
  - destruct (toggle_core fuel st l x w (set_wstate (w_pre_state w)) pix (MkRect (r_x (w_rect w)) (r_y (w_rect w)) (r_w (w_rect w)) (r_h (w_pre w))) I Hf Hw ltac:(same_place)) as (st' & E & M & O & w' & Hw' & R).
    exists st'. split_and!; [exact E|done|done|]. exists w'. split; [done|exact R].
  - set (f := fun w => set_wstate _ _).
    destruct (toggle_core fuel st l x w f pix (MkRect (r_x (w_rect w)) (r_y (w_rect w)) (r_w (w_rect w)) WIN_TITLE_BAR_HEIGHT) I Hf Hw ltac:(same_place))
      as (st' & E & M & O & w' & Hw' & R).
    exists st'. split_and!; [exact E|done|done|]. exists w'. split; [done|exact R].
Qed.

Lemma toggle_max_spec fuel st l x w pix : wm_inv st l -> (length l <= fuel)%nat -> wm_wins st !! x = Some w ->
  exists st', win_toggle_maximize scrn_w scrn_h fuel st pix x = Some st' /\ moved st st' /\ others x st st' /\
    exists w', wm_wins st' !! x = Some w' /\ toggled pix w (max_goal w) w'.
Proof.
  intros I Hf Hw. unfold win_toggle_maximize, max_goal, toggled. rewrite Hw. cbn [mbind option_bind]. set (full := MkRect 0 0 _ _).
  destruct (w_state w) eqn:Es.
  - set (f := fun w => set_wstate WIN_STATE_MAXIMIZED _).
    destruct (toggle_core fuel st l x w f pix full I Hf Hw ltac:(same_place)) as (st' & E & M & O & w' & Hw' & R).
    exists st'. split_and!; [exact E|done|done|]. exists w'. split; [done|exact R].
  - destruct (toggle_core fuel st l x w (set_wstate WIN_STATE_NORMAL) pix (w_pre w) I Hf Hw ltac:(same_place)) as (st' & E & M & O & w' & Hw' & R).
    exists st'. split_and!; [exact E|done|done|]. exists w'. split; [done|exact R].
  - destruct (toggle_core fuel st l x w (set_wstate WIN_STATE_MAXIMIZED) pix full I Hf Hw ltac:(same_place)) as (st' & E & M & O & w' & Hw' & R).
    exists st'. split_and!; [exact E|done|done|]. exists w'. split; [done|exact R].
Qed.
End Toggle.

(** ** Searches *)
Section Search.
Context (scrn_w scrn_h : Z).
Implicit Types (st : wm) (l : list Z) (a x : Z) (w : Window).

(** The topmost window of [l] under a point. *)
Definition topmost (m : gmap Z Window) (l : list Z) (mx my : Z) : option Z :=
  List.find (fun a => match m !! a with Some w => hit w mx my | None => false end) (rev l).

Lemma win_at_spec fuel st l n mx my : dll (wm_wins st) 0 l n -> 0 ∉ l -> (length l <= fuel)%nat ->
  win_at_from fuel st (top_of 0 l) mx my = Some (default 0 (topmost (wm_wins st) l mx my)).
Proof.
  revert l n. induction fuel as [|k IH]; intros l n Hd H0 Hf.
  - destruct l; [done|simpl in Hf; lia].
  - destruct l as [|x l _] using rev_ind; [done|]. rewrite top_of_snoc. apply dll_app in Hd as [Hd [(w & Hw & Hp & _) _]]. cbn [win_at_from].
    assert (x <> 0) by (intros ->; apply H0; apply elem_of_app; right; by constructor). rewrite (proj2 (Z.eqb_neq x 0)), Hw by done.
    cbn [mbind option_bind]. unfold topmost. rewrite rev_app_distr. cbn [rev app List.find]. rewrite Hw.
    destruct (hit w mx my); [done|]. fold (topmost (wm_wins st) l mx my). rewrite Hp. cbn [hd] in Hd.
    eapply IH; [exact Hd|intros Hin; apply H0, elem_of_app; by left|rewrite length_app in Hf; simpl in Hf; lia].
Qed.

Lemma topmost_elem m l mx my a : topmost m l mx my = Some a -> a ∈ l.
Proof. unfold topmost. intros [H _]%List.find_some. apply list_elem_of_In. by apply in_rev. Qed.

Lemma get_win_at_spec fuel st l mx my : wm_inv st l -> (length l <= fuel)%nat ->
  exists a, get_win_at scrn_h fuel st mx my = Some a /\ (a = 0 \/ a ∈ l).
Proof.
  intros I Hf. unfold get_win_at. destruct (_ && _) eqn:E.
  - exists (g_desktop_win st). split; [done|apply I].
  - rewrite (wi_top _ _ I). rewrite (win_at_spec fuel st l 0 mx my) by (done || apply I). eexists. split; [done|].
    destruct (topmost _ _ _ _) as [a|] eqn:Et; [|by left]. right. by eapply topmost_elem.
Qed.

Lemma button_spec fuel st l p cx mx : dll (wm_wins st) p l 0 -> 0 ∉ l -> (length l <= fuel)%nat ->
  exists a, taskbar_button scrn_w fuel st (hd 0 l) cx mx = Some a /\ (a = 0 \/ a ∈ l).
Proof.
  revert l p cx. induction fuel as [|k IH]; intros [|x l] p cx Hd H0 Hf; [by exists 0; auto|simpl in Hf; lia|exists 0; auto|].
  destruct Hd as [(w & Hw & _ & Hn) Hd]. apply not_elem_of_cons in H0 as [Hx H0]. cbn [taskbar_button hd].
  rewrite (proj2 (Z.eqb_neq x 0)), Hw by done. cbn [mbind option_bind]. rewrite Hn.
  assert (forall cx, exists a, taskbar_button scrn_w k st (hd 0 l) cx mx = Some a /\ (a = 0 \/ a ∈ x :: l)) as Hr.
  { intros c. destruct (IH l x c Hd H0) as (a & E & Ha); [simpl in Hf; lia|]. exists a. split; [done|]. destruct Ha; [by left|right; by constructor]. }
  destruct (negb _ && _); [|apply Hr]. destruct (_ && _); [|apply Hr]. exists x. split; [done|]. right. by constructor.
Qed.

Lemma cycle_spec fuel st l p : dll (wm_wins st) p l 0 -> 0 ∉ l -> (length l <= fuel)%nat ->
  exists a, cycle_from fuel st (hd 0 l) = Some a /\ (a = 0 \/ a ∈ l).
Proof.
  revert l p. induction fuel as [|k IH]; intros [|x l] p Hd H0 Hf; [by exists 0; auto|simpl in Hf; lia|exists 0; auto|].
  destruct Hd as [(w & Hw & _ & Hn) Hd]. apply not_elem_of_cons in H0 as [Hx H0]. cbn [cycle_from hd].
  rewrite (proj2 (Z.eqb_neq x 0)), Hw by done. cbn [mbind option_bind]. rewrite Hn. destruct (_ && _).
  - exists x. split; [done|]. right. by constructor.
  - destruct (IH l x Hd H0) as (a & E & Ha); [simpl in Hf; lia|]. exists a. split; [done|]. destruct Ha; [by left|right; by constructor].
Qed.
End Search.
