(* ===== verification/WindowRun.v ===== *)
(** Runs of the window manager, [src/src/gui/window.c]: what the mouse and the painting do.

    [win_update_ok] shows that no input breaks the stack of windows, [shown_is_hit] that a
    click reaches the window whose pixel is shown. *)
From S2P Require Import Prelude RingBuf WinClip Window WindowInv WindowOps.

(** The order may change; owners, titles, clip lists and the pool stay. *)
Record kept (st st' : wm) : Prop := {
  ke_wins : wins_rel same_owner st st';
  ke_pool : rect_pool st' = rect_pool st;
  ke_desktop : g_desktop_win st' = g_desktop_win st }.

Definition steps_to (st : wm) (l : list Z) (st' : wm) : Prop := kept st st' /\ exists l', l' ≡ₚ l /\ wm_inv st' l'.

(** ** The close button *)
Section Close.
Context (scrn_h : Z) (tsk_win : Z -> option Z).

(** The pid that a press on a close button kills. *)
Definition close_click (fuel : nat) (st : wm) (mstat mx my : Z) : option Z :=
  if negb (Z.land mstat 1 =? 0) && negb (prev_left_btn st) && (d_target (drag_ctx st) =? 0) && (my <? scrn_h - TASKBAR_HEIGHT) then
    a ← get_win_at scrn_h fuel st mx my;
    if (a =? 0) || (a =? g_desktop_win st) then None
    else
      w ← wm_wins st !! a;
      let r := w_rect w in
      if is_point_in_rect (s64 (mx - r_x r)) (s64 (my - r_y r)) (s64 (r_w r - 1 * WIN_TITLE_BAR_HEIGHT)) 0 WIN_TITLE_BAR_HEIGHT WIN_TITLE_BAR_HEIGHT
      then Some (s32 (w_owner w)) else None
  else None.

(** The window that goes with the task: its last one, when the task owns it. *)
Definition window_of (st : wm) (pid : Z) : option Z :=
  a ← (if pid <=? 0 then None else tsk_win pid);
  w ← wm_wins st !! a;
  if negb (a =? 0) && (w_owner w =? pid) then Some a else None.

(** One window is gone and its rectangles are in the pool; the others are as they were. *)
Definition closed (st : wm) (l : list Z) (x : Z) (st' : wm) : Prop :=
  exists l1 l2 w, l = l1 ++ x :: l2 /\ wm_wins st !! x = Some w /\ wm_inv st' (l1 ++ l2) /\ wm_wins st' !! x = None /\
    rect_pool st' ≡ₚ slots (w_clip w) ++ rect_pool st /\ g_desktop_win st' = g_desktop_win st /\ d_target (drag_ctx st') <> x /\
    forall a wa, a <> x -> wm_wins st !! a = Some wa -> exists wa', wm_wins st' !! a = Some wa' /\ same_win wa wa'.

(** What a press on the close button of a window of [pid] leaves. *)
Definition kill_result (st : wm) (l : list Z) (pid : Z) (st' : wm) : Prop :=
  SchedKill pid ∈ wm_log st' /\ match window_of st pid with None => steps_to st l st' | Some x => closed st l x st' end.
End Close.

(** Requests are only added. *)
Lemma titlebar_log st a st' : win_redraw_titlebar st a = Some st' -> wm_log st `prefix_of` wm_log st'.
Proof.
  unfold win_redraw_titlebar. destruct (a =? 0); [by intros [= <-]|]. destruct (wm_wins st !! a) as [w|]; [|done]. cbn [mbind option_bind].
  destruct (has_flag w WIN_BORDERLESS); intros [= <-]; [done|]. cbn. apply prefix_app_r, prefix_app_r. done.
Qed.

Lemma stain_log fuel : forall st a st', win_walk fuel st a (fun st a _ => wupd st a (add_flag WIN_DIRTY)) = Some st' -> wm_log st' = wm_log st.
Proof.
  induction fuel as [|n IH]; intros st a st'; cbn [win_walk]; (destruct (a =? 0); [by intros [= <-]|]); [done|]. destruct (wm_wins st !! a) as [w|]; [|done]. cbn [mbind option_bind].
  intros H%IH. by rewrite H.
Qed.

Lemma close_log fuel st x st' : win_close fuel st x = Some st' -> wm_log st `prefix_of` wm_log st'.
Proof.
  unfold win_close. destruct (wm_wins st !! x) as [w|]; [|done]. cbn [mbind option_bind]. set (st1 := if x =? _ then _ else _). set (st2 := unlink_win st1 x w).
  assert (wm_log st `prefix_of` wm_log st2) as H2.
  { transitivity (wm_log st1); [unfold st1; destruct (x =? _); by apply prefix_app_r|]. unfold st2, unlink_win. repeat (case_match; try done). }
  set (st3 := if w_pixels w =? 0 then _ else _). assert (wm_log st `prefix_of` wm_log st3) as H3 by (unfold st3; destruct (w_pixels w =? 0); [done|by apply prefix_app_r]).
  set (st4 := if w_title w =? 0 then _ else _). assert (wm_log st `prefix_of` wm_log st4) as H4 by (unfold st4; destruct (w_title w =? 0); [done|by apply prefix_app_r]).
  set (st5 := wemit _ [KfreeWin x]). assert (wm_log st `prefix_of` wm_log st5) as H5 by (by apply prefix_app_r). clearbody st5. clear - H5.
  unfold redraw_old_top, win_draw_taskbar, win_stain_list. intros H.
  assert (forall o : option wm, (forall s, o = Some s -> wm_log st `prefix_of` wm_log s) -> forall f : wm -> option wm, (forall s s', wm_log st `prefix_of` wm_log s -> f s = Some s' -> wm_log st `prefix_of` wm_log s') ->
    forall s, (o ≫= f) = Some s -> wm_log st `prefix_of` wm_log s) as Hb by (intros [s0|] Ho f Hf s Hs; [by eapply Hf; [apply Ho|]|done]).
  revert H. apply Hb.
  - intros s. destruct (_ =? 0); [by intros [= <-]|]. destruct (wm_wins st5 !! _) as [o|]; [|done]. cbn [mbind option_bind]. destruct (has_flag o WIN_BORDERLESS); [by intros [= <-]|].
    intros H%titlebar_log. by etransitivity.
  - intros s s' Hs. apply Hb; [|intros s1 s2 H1 H2; by rewrite (stain_log _ _ _ _ H2)].
    intros s1. destruct (_ =? 0); [by intros [= <-]|]. destruct (wm_wins s !! _) as [o|]; [|done]. cbn [mbind option_bind]. intros [= <-]. cbn. by apply prefix_app_r, prefix_app_r.
Qed.

Section Update.
Context (scrn_w scrn_h : Z) (tsk_win : Z -> option Z).
Implicit Types (st : wm) (l : list Z) (a x : Z) (w : Window).

#[global] Instance kept_preorder : PreOrder kept.
Proof.
  split; [intros st; split; try done; reflexivity|].
  intros s1 s2 s3 [A1 B1 C1] [A2 B2 C2]. split; try congruence. by transitivity s2.
Qed.

Lemma moved_kept st st' : moved st st' -> kept st st'.
Proof. intros M. split; [|apply M|apply M]. eapply wins_rel_mono; [|apply M]. intros w w' [H _]. done. Qed.

Lemma restacked_kept st st' : restacked st st' -> kept st st'.
Proof. intros M. split; [|apply M|apply M]. eapply wins_rel_mono; [|apply M]. intros w w'. apply same_win_owner. Qed.

Lemma steps_refl st l : wm_inv st l -> steps_to st l st.
Proof. intros I. split; [reflexivity|]. by exists l. Qed.

Lemma steps_moved st l st' : wm_inv st l -> moved st st' -> steps_to st l st'.
Proof. intros I M. split; [by apply moved_kept|]. exists l. split; [done|by eapply moved_inv]. Qed.

Lemma steps_trans st l st1 st2 : steps_to st l st1 -> (forall l1, l1 ≡ₚ l -> wm_inv st1 l1 -> steps_to st1 l1 st2) -> steps_to st l st2.
Proof.
  intros [K (l1 & P & I)] H. destruct (H l1 P I) as [K2 (l2 & P2 & I2)]. split; [by transitivity st1|]. exists l2. split; [by rewrite P2|done].
Qed.

Lemma steps_emit st l es : wm_inv st l -> steps_to st l (wemit st es).
Proof. intros I. apply steps_moved; [done|]. apply touched_moved, touched_emit. Qed.

Lemma kept_same st st' : wm_wins st' = wm_wins st -> rect_pool st' = rect_pool st -> g_desktop_win st' = g_desktop_win st -> kept st st'.
Proof.
  intros E1 E2 E3. split; [|done|done]. intros a. rewrite E1. destruct (wm_wins st !! a) as [w|]; [|done]. exists w. split; [done|reflexivity].
Qed.

Lemma steps_drag st l d : wm_inv st l -> d_target d = 0 \/ d_target d ∈ l -> steps_to st l (with_drag st d).
Proof. intros I Hd. split; [by apply kept_same|]. exists l. split; [done|]. destruct I. by split. Qed.

Lemma steps_launch st l la : wm_inv st l -> steps_to st l (with_launch st la).
Proof. intros I. split; [by apply kept_same|]. exists l. split; [done|]. destruct I. by split. Qed.

Lemma steps_btns st l b1 b2 : wm_inv st l -> steps_to st l (with_btns st b1 b2).
Proof. intros I. split; [by apply kept_same|]. exists l. split; [done|]. destruct I. by split. Qed.

(** The operations, as steps. *)
Lemma steps_focus fuel st l x : wm_inv st l -> (length l <= fuel)%nat -> x ∈ l ->
  exists st', win_focus fuel st x = Some st' /\ steps_to st l st'.
Proof.
  intros I Hf Hx. destruct (inv_lookup _ _ _ I Hx) as [w Hw]. apply list_elem_of_split in Hx as (l1 & l2 & ->).
  destruct (focus_spec fuel st l1 x l2 w I Hf Hw) as (st' & E & R & I'). exists st'. split; [done|]. split; [by apply restacked_kept|].
  destruct (has_flag w WIN_BORDERLESS); eexists; (split; [|exact I']); [done|]. apply Permutation_app_head. rewrite Permutation_app_comm. done.
Qed.

Lemma steps_minimize fuel st l x pix : wm_inv st l -> (length l <= fuel)%nat -> x ∈ l ->
  exists st', win_toggle_minimize fuel st pix x = Some st' /\ steps_to st l st'.
Proof.
  intros I Hf Hx. destruct (inv_lookup _ _ _ I Hx) as [w Hw]. destruct (toggle_min_spec fuel st l x w pix I Hf Hw) as (st' & E & M & _).
  exists st'. split; [done|by apply steps_moved].
Qed.

Lemma steps_maximize fuel st l x pix : wm_inv st l -> (length l <= fuel)%nat -> x ∈ l ->
  exists st', win_toggle_maximize scrn_w scrn_h fuel st pix x = Some st' /\ steps_to st l st'.
Proof.
  intros I Hf Hx. destruct (inv_lookup _ _ _ I Hx) as [w Hw]. destruct (toggle_max_spec scrn_w scrn_h fuel st l x w pix I Hf Hw) as (st' & E & M & _).
  exists st'. split; [done|by apply steps_moved].
Qed.

Lemma steps_taskbar st l : wm_inv st l -> exists st', win_draw_taskbar st = Some st' /\ steps_to st l st'.
Proof.
  intros I. destruct (taskbar_spec st (inv_desktop _ _ I)) as (st' & E & T). exists st'. split; [done|]. apply steps_moved; [done|by apply touched_moved].
Qed.

(** Composition of steps that return; [out] is the state in what they return. *)
Lemma steps_bind {B} (out : B -> wm) st l (X : option wm) (k : wm -> option B) : (exists st1, X = Some st1 /\ steps_to st l st1) ->
  (forall st1 l1, l1 ≡ₚ l -> wm_inv st1 l1 -> exists r, k st1 = Some r /\ steps_to st1 l1 (out r)) ->
  exists r, (st1 ← X; k st1) = Some r /\ steps_to st l (out r).
Proof.
  intros (st1 & -> & S1) Hk. cbn [mbind option_bind]. pose proof S1 as [K1 (l1 & P1 & I1)]. destruct (Hk st1 l1 P1 I1) as (r & E & S2).
  exists r. split; [done|]. destruct S2 as [K2 (l2 & P2 & I2)]. split; [by transitivity st1|]. exists l2. split; [by rewrite P2|done].
Qed.

Lemma taskbar_click_ok fuel st l pix mx my : wm_inv st l -> (length l <= fuel)%nat ->
  exists st', handle_taskbar_click scrn_w scrn_h fuel st pix mx my = Some st' /\ steps_to st l st'.
Proof.
  intros I Hf. unfold handle_taskbar_click. destruct (_ || _); [eexists; split; [done|by apply steps_refl]|].
  destruct ((4 <=? mx) && _); [eexists; split; [done|by apply steps_launch]|]. destruct ((70 <=? mx) && _); [eexists; split; [done|by apply steps_launch]|].
  destruct ((136 <=? mx) && _); [eexists; split; [done|by apply steps_launch]|].
  rewrite (wi_list _ _ I). destruct (button_spec scrn_w fuel st l 0 212 mx (wi_dll _ _ I) (wi_null _ _ I) Hf) as (a & -> & Ha). cbn [mbind option_bind].
  destruct (Z.eqb_spec a 0); [eexists; split; [done|by apply steps_refl]|]. destruct Ha as [|Ha]; [done|].
  destruct (inv_lookup _ _ _ I Ha) as [w ->]. cbn [mbind option_bind].
  apply (steps_bind id); [|intros st1 l1 _ I1; by apply steps_taskbar]. case_decide.
  - apply (steps_bind id); [by apply steps_minimize|]. intros st1 l1 P1 I1. apply (steps_bind id).
    + apply steps_focus; [done|by rewrite P1|by rewrite P1].
    + intros st2 l2 _ I2. eexists. split; [done|by apply steps_emit].
  - destruct (a =? g_win_top st); [|by apply steps_focus]. destruct (has_flag w WIN_MINIMIZABLE); [|eexists; split; [done|by apply steps_refl]].
    apply (steps_bind id); [by apply steps_minimize|]. intros st1 l1 _ I1. eexists. split; [done|by apply steps_emit].
Qed.

Lemma drag_ok fuel st l pix mx my : wm_inv st l -> (length l <= fuel)%nat -> d_target (drag_ctx st) <> 0 ->
  exists r, update_drag scrn_h fuel st pix mx my = Some r /\ steps_to st l r.1.
Proof.
  intros I Hf Hd. assert (d_target (drag_ctx st) ∈ l) as Ht by (by destruct (wi_drag _ _ I)). destruct (inv_lookup _ _ _ I Ht) as [w Hw].
  unfold update_drag. rewrite Hw. cbn [mbind option_bind]. set (x := d_target (drag_ctx st)) in *.
  assert (forall (cur : CursorType) st1 l1, l1 ≡ₚ l -> wm_inv st1 l1 -> exists r, (st2 ← win_stain_list fuel st1 (g_win_list st1); Some (leave_maximized st2 x, cur)) = Some r /\
    steps_to st1 l1 r.1) as Hend.
  { intros cur st1 l1 P1 I1. apply (steps_bind fst).
    - destruct (stain_spec fuel st1 l1 I1) as (st2 & E & T); [by rewrite P1|]. exists st2. split; [done|]. apply steps_moved; [done|by apply touched_moved].
    - intros st2 l2 _ I2. eexists. split; [done|]. apply steps_moved; [done|]. apply moved_upd. intros w0. case_decide; [reflexivity|].
      unfold same_place, same_owner. by split_and!. }
  destruct (negb (d_resize_dir (drag_ctx st) =? RES_NONE)).
  - destruct (drag_size scrn_h (d_resize_dir (drag_ctx st)) (w_rect w) mx my) as [[r changed] cur]. destruct changed; [|eexists; split; [done|by apply steps_refl]].
    apply (steps_bind fst); [|intros; by apply Hend]. destruct (resize_spec st pix x r w Hw) as (st1 & E & M & _). exists st1. split; [done|by apply steps_moved].
  - apply (steps_bind fst); [|intros; by apply Hend].
    destruct (move_spec st x (s64 (mx - d_off_x (drag_ctx st))) (drag_y scrn_h my (d_off_y (drag_ctx st))) w Hw) as (st1 & E & M & _).
    exists st1. split; [done|by apply steps_moved].
Qed.

Lemma click_ok st l w mx my md ms : wm_inv st l -> steps_to st l (send_click st w mx my md ms).
Proof. intros I. unfold send_click. destruct (win_get_client_size w). destruct (_ && _); [by apply steps_emit|by apply steps_refl]. Qed.

Lemma kill_ok fuel st l pid : wm_inv st l -> (length l <= fuel)%nat -> (forall a, tsk_win pid = Some a -> a = 0 \/ a ∈ l) ->
  (forall w, wm_wins st !! g_desktop_win st = Some w -> w_owner w <= 0) ->
  exists st', kill_owner tsk_win fuel st pid = Some st' /\ kill_result tsk_win st l pid st'.
Proof.
  intros I Hf Ht Hd. unfold kill_owner, kill_result, window_of. set (st1 := wemit st [SchedKill pid]).
  assert (SchedKill pid ∈ wm_log st1) as Hin by (apply elem_of_app; right; by left). assert (wm_inv st1 l) as I1 by (destruct I; by split).
  destruct (Z.leb_spec pid 0); [exists st1; split; [done|]; split; [done|by apply steps_emit]|].
  destruct (tsk_win pid) as [a|]; cbn [default from_option id mbind option_bind]; [|exists st1; split; [done|]; split; [done|by apply steps_emit]].
  destruct (Z.eqb_spec a 0) as [->|Ha]; [exists st1; split; [done|]; split; [done|]; destruct (wm_wins st !! 0); by apply steps_emit|].
  destruct (Ht a eq_refl) as [?|Hal]; [done|]. destruct (inv_lookup _ _ _ I Hal) as [w Hw]. change (wm_wins st1 !! a) with (wm_wins st !! a). rewrite Hw. cbn [mbind option_bind negb andb].
  destruct (Z.eqb_spec (w_owner w) pid) as [Ho|Ho]; [|exists st1; split; [done|]; split; [done|by apply steps_emit]].
  apply list_elem_of_split in Hal as (l1 & l2 & ->). rewrite !length_app in Hf. cbn [length] in Hf.
  destruct (close_spec fuel st1 l1 a l2 w I1) as (st' & E & I' & Hn & Hp & Hdk & Hr & Hdr); [rewrite length_app; lia|done|intros ->; specialize (Hd w Hw); lia|].
  exists st'. split; [done|]. split; [|by exists l1, l2, w]. apply close_log in E as [k ->]. apply elem_of_app. by left.
Qed.

(** Apart from the close button. *)
Lemma buttons_ok fuel st l pix a w mx my : wm_inv st l -> (length l <= fuel)%nat -> a ∈ l ->
  is_point_in_rect (s64 (mx - r_x (w_rect w))) (s64 (my - r_y (w_rect w))) (s64 (r_w (w_rect w) - 1 * WIN_TITLE_BAR_HEIGHT)) 0 WIN_TITLE_BAR_HEIGHT WIN_TITLE_BAR_HEIGHT = false ->
  exists r, title_buttons scrn_w scrn_h tsk_win fuel st pix a w mx my = Some r /\ steps_to st l (default st r).
Proof.
  intros I Hf Ha Hnc. unfold title_buttons. cbv zeta. rewrite Hnc.
  destruct (has_flag w WIN_RESIZABLE && _).
  - apply (steps_bind (default st)); [by apply steps_focus|]. intros st1 l1 P1 I1. apply (steps_bind (default st)).
    + apply steps_maximize; [done|by rewrite P1|by rewrite P1].
    + intros st2 l2 _ I2. eexists. split; [done|by apply steps_emit].
  - destruct (has_flag w WIN_MINIMIZABLE && _); [|exists None; split; [done|by apply steps_refl]].
    apply (steps_bind (default st)); [by apply steps_minimize|]. intros st1 l1 P1 I1. apply (steps_bind (default st)); [by apply steps_taskbar|].
    intros st2 l2 _ I2. eexists. split; [done|by apply steps_emit].
Qed.

(** Every press but one on a close button. *)
Lemma press_ok fuel st l pix mx my md ms : wm_inv st l -> (length l <= fuel)%nat -> negb (Z.land ms 1 =? 0) = true -> d_target (drag_ctx st) = 0 ->
  close_click scrn_h fuel st ms mx my = None ->
  exists r, update_press scrn_w scrn_h tsk_win fuel st pix mx my md ms (negb (prev_left_btn st)) = Some r /\ steps_to st l r.1.
Proof.
  intros I Hf Hms Hdt Hcc. unfold update_press, close_click in *. rewrite Hms, Hdt in Hcc. set (just := negb (prev_left_btn st)) in *. clearbody just. cbn [andb Z.eqb] in Hcc.
  destruct (just && (scrn_h - TASKBAR_HEIGHT <=? my)) eqn:Etb.
  { apply (steps_bind fst); [by apply taskbar_click_ok|]. intros st1 l1 _ I1. eexists. split; [done|by apply steps_refl]. }
  destruct (get_win_at_spec scrn_h fuel st l mx my I Hf) as (a & Ea & Ha). rewrite Ea in Hcc |- *. cbn [mbind option_bind] in Hcc |- *.
  destruct ((a =? 0) || (a =? g_desktop_win st)) eqn:Ead; [eexists; split; [done|by apply steps_refl]|]. apply orb_false_iff in Ead as [Ha0%Z.eqb_neq _].
  destruct Ha as [|Ha]; [done|]. destruct (inv_lookup _ _ _ I Ha) as [w Hw]. rewrite Hw in Hcc |- *. cbn [mbind option_bind] in Hcc |- *.
  assert (exists r, (if just then title_buttons scrn_w scrn_h tsk_win fuel st pix a w mx my else Some None) = Some r /\ steps_to st l (default st r)) as (r & -> & Sr).
  { destruct just; [|exists None; split; [done|by apply steps_refl]]. apply buttons_ok; [done|done|done|]. cbn [andb] in Etb, Hcc.
    replace (my <? scrn_h - TASKBAR_HEIGHT) with true in Hcc by (symmetry; apply Z.ltb_lt; apply Z.leb_gt in Etb; lia). by destruct (is_point_in_rect _ _ _ _ _ _). }
  cbn [mbind option_bind]. destruct r as [st1|]; [eexists; split; [done|exact Sr]|].
  clear Etb Hcc.
  apply (steps_bind fst).
  - destruct (just && _); [by apply steps_focus|]. eexists. split; [done|by apply steps_refl].
  - intros st1 l1 P1 I1. eexists. split; [done|]. cbn [fst]. destruct (just && _).
    + apply steps_drag; [done|]. right. cbn. by rewrite P1.
    + destruct (just && _); [by apply click_ok|by apply steps_refl].
Qed.

(** A press on a close button. *)
Lemma close_press_ok fuel st l pix mx my md ms pid : wm_inv st l -> (length l <= fuel)%nat ->
  (forall pid a, tsk_win pid = Some a -> a = 0 \/ a ∈ l) -> (forall w, wm_wins st !! g_desktop_win st = Some w -> w_owner w <= 0) ->
  close_click scrn_h fuel st ms mx my = Some pid ->
  exists st', update_press scrn_w scrn_h tsk_win fuel st pix mx my md ms (negb (prev_left_btn st)) = Some (st', CURSOR_ARROW) /\ kill_result tsk_win st l pid st'.
Proof.
  intros I Hf Ht Hd. unfold close_click, update_press. destruct (_ && _ && _ && _) eqn:Eg; [|done]. apply andb_true_iff in Eg as [[[_ Ej]%andb_true_iff _]%andb_true_iff Ey].
  apply Z.ltb_lt in Ey. rewrite Ej. cbn [andb]. rewrite (proj2 (Z.leb_gt _ _)) by lia. destruct (get_win_at scrn_h fuel st mx my) as [a|]; [|done]. cbn [mbind option_bind].
  destruct (_ || _); [done|]. destruct (wm_wins st !! a) as [w|]; [|done]. cbn [mbind option_bind]. unfold title_buttons. destruct (is_point_in_rect _ _ _ _ _ _); [|done]. intros [= <-].
  destruct (kill_ok fuel st l (s32 (w_owner w)) I Hf (Ht _) Hd) as (st' & -> & K). cbn [mbind option_bind]. by exists st'.
Qed.

Lemma release_ok fuel st l mx my ms rj : wm_inv st l -> (length l <= fuel)%nat ->
  exists r, update_release scrn_h fuel st mx my ms rj = Some r /\ steps_to st l r.1.
Proof.
  intros I Hf. unfold update_release. apply (steps_bind fst).
  - destruct (Z.eqb_spec (d_target (drag_ctx st)) 0) as [E|E]; cbn [negb andb]; [eexists; split; [done|by apply steps_refl]|].
    destruct (negb _); [|eexists; split; [done|by apply steps_refl]].
    assert (d_target (drag_ctx st) ∈ l) as Ht by (by destruct (wi_drag _ _ I)). destruct (inv_lookup _ _ _ I Ht) as [w Hw]. rewrite Hw. cbn [mbind option_bind].
    destruct (init_pixels_spec (wemit st [PushEvent (resize_event (w_owner w))]) (d_target (drag_ctx st))) as (st1 & -> & T1); [by exists w|].
    cbn [mbind option_bind]. eexists. split; [done|]. apply steps_moved; [done|]. apply touched_moved.
    etransitivity; [apply touched_emit|]. etransitivity; [exact T1|]. apply touched_upd, dirty_same.
  - intros st1 l1 P1 I1. set (st2 := with_drag st1 _). assert (steps_to st1 l1 st2) as S2 by (apply steps_drag; [done|by left]).
    assert (wm_inv st2 l1) as I2 by (destruct I1; split; try done; by left).
    assert (forall r, steps_to st2 l1 r -> steps_to st1 l1 r) as Hr.
    { intros r [K2 (l2 & P2 & I2')]. destruct S2 as [K _]. split; [by transitivity st2|]. by exists l2. }
    destruct (get_win_at_spec scrn_h fuel st2 l1 mx my I2) as (a & -> & Ha); [by rewrite P1|]. cbn [mbind option_bind].
    destruct (Z.eqb_spec a 0); cbn [orb]; [eexists; split; [done|exact S2]|]. destruct (a =? g_desktop_win st2); [eexists; split; [done|exact S2]|].
    destruct Ha as [|Ha]; [done|]. destruct (inv_lookup _ _ _ I2 Ha) as [w ->]. cbn [mbind option_bind]. destruct (rj && _); [|eexists; split; [done|exact S2]].
    destruct (steps_focus fuel st2 l1 a I2) as (st3 & -> & S3); [by rewrite P1|done|]. cbn [mbind option_bind]. eexists. split; [done|]. cbn [fst]. apply Hr.
    eapply steps_trans; [exact S3|]. intros l3 _ I3. by apply click_ok.
Qed.

Lemma update_ok fuel st l pix ms mx my md : wm_inv st l -> (length l <= fuel)%nat ->
  (forall pid a, tsk_win pid = Some a -> a = 0 \/ a ∈ l) -> (forall w, wm_wins st !! g_desktop_win st = Some w -> w_owner w <= 0) ->
  exists st', win_update scrn_w scrn_h tsk_win fuel st pix ms mx my md = Some st' /\
    match close_click scrn_h fuel st ms mx my with
    | Some pid => kill_result tsk_win st l pid st'
    | None => steps_to st l st'
    end.
Proof.
  intros I Hf Ht Hd. unfold win_update. set (X := if negb (Z.land ms 1 =? 0) then _ else _). destruct (close_click scrn_h fuel st ms mx my) as [pid|] eqn:Hcc.
  - assert (exists st1, X = Some (st1, CURSOR_ARROW) /\ kill_result tsk_win st l pid st1) as (st1 & -> & K).
    { unfold X. pose proof Hcc as Hg. unfold close_click in Hg. destruct (negb (Z.land ms 1 =? 0)) eqn:E1; [|done]. cbn [andb] in Hg.
      destruct (negb (prev_left_btn st)) eqn:E2; [|done]. cbn [andb] in Hg. destruct (d_target (drag_ctx st) =? 0); [|done]. cbn [negb andb]. rewrite <- E2. by apply close_press_ok. }
    cbn [mbind option_bind]. eexists. split; [done|]. destruct K as [Hl K]. split; [apply elem_of_app; left; exact Hl|]. destruct (window_of tsk_win st pid) as [x|].
    + destruct K as (l1 & l2 & w & -> & Hw & I1 & H1 & H2 & H3 & H4 & H5). exists l1, l2, w. split_and!; try done. destruct I1. by split.
    + eapply steps_trans; [exact K|]. intros l1 _ I1. eapply steps_trans; [apply (steps_btns st1 l1); done|]. intros l2 _ I2. by apply steps_emit.
  - assert (exists r, X = Some r /\ steps_to st l r.1) as ([st1 cur] & -> & S1).
    { unfold X. destruct (negb (Z.land ms 1 =? 0)) eqn:E1; [|by apply release_ok]. destruct (Z.eqb_spec (d_target (drag_ctx st)) 0); cbn [negb]; [by apply press_ok|by apply drag_ok]. }
    cbn [mbind option_bind]. eexists. split; [done|]. cbn [fst] in S1. eapply steps_trans; [exact S1|]. intros l1 _ I1.
    eapply steps_trans; [apply (steps_btns st1 l1); done|]. intros l2 _ I2. by apply steps_emit.
Qed.
End Update.
