(* ===== verification/WinPaint.v ===== *)
(** Painting, [win_paint] of [src/src/gui/window.c], and the hit test [get_win_at]:
    what is shown at a pixel is what a click there reaches. *)
From S2P Require Import Prelude RingBuf WinClip Window WindowInv WindowOps WindowRun.

(** What painting leaves of a window: all but the clip list and the dirty flag. *)
Definition bare (w : Window) : Window := set_clip [] (set_flags 0 w).
Definition cleaned (w w' : Window) : Prop := bare w' = bare w /\ (w_flags w' = w_flags w \/ w_flags w' = Z.land (w_flags w) (u32 (Z.lnot WIN_DIRTY))).

Definition wrect (m : gmap Z Window) (a : Z) : Rect := match m !! a with Some w => w_rect w | None => MkRect 0 0 0 0 end.
Definition wclip (m : gmap Z Window) (a : Z) : list rnode := match m !! a with Some w => w_clip w | None => [] end.

(** The nodes the windows of a list hold. *)
Definition held (m : gmap Z Window) (l : list Z) : list Z := l ≫= fun a => slots (wclip m a).

Section Paint.
Context (scrn_w scrn_h : Z) (S : screen_ok scrn_w scrn_h).
Implicit Types (st : wm) (l : list Z) (a x : Z) (w : Window).

(** The clip list of [a] shows only visible pixels of it, none twice; all of them when
    [full]. *)
Definition clip_ok (full : bool) (m m' : gmap Z Window) (desktop : bool) (a : Z) (above : list Z) : Prop :=
  tiles (rects (wclip m' a)) /\
  (forall px py, covers (rects (wclip m' a)) px py -> visible scrn_w scrn_h desktop (wrect m a) (wrect m <$> above) px py) /\
  (full = true -> forall px py, visible scrn_w scrn_h desktop (wrect m a) (wrect m <$> above) px py -> covers (rects (wclip m' a)) px py).

(** The pool is large enough at every step of a painting. *)
Fixpoint paint_fits (fuel : nat) st (curr : Z) : bool :=
  if curr =? 0 then true
  else
    match fuel with
    | O => false
    | Datatypes.S n =>
        match wm_wins st !! curr, rects_from fuel st (match wm_wins st !! curr with Some w => w_next w | None => 0 end) with
        | Some w, Some above =>
            if has_flag w WIN_DIRTY then
              pool_suffices (length (w_clip w) + length (rect_pool st)) scrn_w scrn_h (curr =? g_desktop_win st) (w_rect w) above &&
              match recalc_window scrn_w scrn_h fuel st curr with
              | Some st' =>
                  paint_fits n (wupd (wemit st' [DrawWin curr]) curr (fun w => set_flags (Z.land (w_flags w) (u32 (Z.lnot WIN_DIRTY))) w)) (w_next w)
              | None => false
              end
            else paint_fits n st (w_next w)
        | _, _ => false
        end
    end.

Lemma rects_from_spec fuel st l p : dll (wm_wins st) p l 0 -> 0 ∉ l -> (length l <= fuel)%nat ->
  rects_from fuel st (hd 0 l) = Some (wrect (wm_wins st) <$> l).
Proof.
  revert l p. induction fuel as [|k IH]; intros [|x l] p Hd H0 Hf; [done|simpl in Hf; lia|done|].
  destruct Hd as [(w & Hw & _ & Hn) Hd]. apply not_elem_of_cons in H0 as [Hx H0]. cbn [rects_from hd].
  rewrite (proj2 (Z.eqb_neq x 0)), Hw by done. cbn [mbind option_bind]. rewrite Hn, (IH l x Hd H0) by (simpl in Hf; lia).
  cbn. unfold wrect at 2. by rewrite Hw.
Qed.

#[global] Instance cleaned_preorder : PreOrder cleaned.
Proof.
  split; [intros w; split; [done|by left]|]. intros w1 w2 w3 [B1 F1] [B2 F2]. split; [congruence|].
  destruct F1 as [E1|E1], F2 as [E2|E2]; rewrite ?E2, ?E1; auto. right. rewrite <- Z.land_assoc. by rewrite Z.land_diag.
Qed.

Lemma cleaned_rect w w' : cleaned w w' -> w_rect w' = w_rect w /\ w_prev w' = w_prev w /\ w_next w' = w_next w.
Proof. intros [B _]. destruct w, w'. unfold bare in B. cbn in B. by injection B as -> -> -> -> -> -> -> -> -> -> ->. Qed.

(** One window painted. *)
Definition paint_one (fuel : nat) st (x : Z) : option wm :=
  st ← recalc_window scrn_w scrn_h fuel st x;
  Some (wupd (wemit st [DrawWin x]) x (fun w => set_flags (Z.land (w_flags w) (u32 (Z.lnot WIN_DIRTY))) w)).

Lemma paint_one_spec fuel st x w l2 : wm_wins st !! x = Some w -> w_next w = hd 0 l2 -> dll (wm_wins st) x l2 0 -> 0 ∉ l2 ->
  (length l2 <= fuel)%nat -> rect_ok (w_rect w) -> reaches_screen (w_rect w) -> Forall rect_ok (wrect (wm_wins st) <$> l2) ->
  exists st', paint_one fuel st x = Some st' /\ wins_rel cleaned st st' /\ g_desktop_win st' = g_desktop_win st /\
    g_win_list st' = g_win_list st /\ g_win_top st' = g_win_top st /\ drag_ctx st' = drag_ctx st /\
    (forall b, b <> x -> wm_wins st' !! b = wm_wins st !! b) /\
    slots (wclip (wm_wins st') x) ++ rect_pool st' ≡ₚ slots (w_clip w) ++ rect_pool st /\
    clip_ok (pool_suffices (length (w_clip w) + length (rect_pool st)) scrn_w scrn_h (x =? g_desktop_win st) (w_rect w) (wrect (wm_wins st) <$> l2))
      (wm_wins st) (wm_wins st') (x =? g_desktop_win st) x l2.
Proof using S.
  intros Hw Hn Hd H0 Hf Hok Hre Hab. unfold paint_one, recalc_window. rewrite Hw. cbn [mbind option_bind].
  rewrite Hn, (rects_from_spec fuel st l2 x Hd H0 Hf). cbn [mbind option_bind].
  pose proof (recalc_spec scrn_w scrn_h (x =? g_desktop_win st) S (rect_pool st) (w_clip w) (w_rect w) (wrect (wm_wins st) <$> l2) Hok Hre Hab) as R.
  destruct (recalc_clip_list _ _ _ _ _ _ _) as [clip pool]. destruct R as (P & Hdis & Hsub & Hcov). cbn [mbind option_bind]. eexists. split; [done|].
  set (f := fun w => set_flags _ w). set (w' := f (set_clip clip w)).
  set (st' := wupd _ x f). assert (wm_wins st' !! x = Some w') as Hx.
  { unfold st'. rewrite wupd_lookup, bool_decide_eq_true_2 by done. change (wm_wins (wemit (with_pool ?s ?p) ?e)) with (wm_wins s).
    by rewrite wupd_lookup, bool_decide_eq_true_2, Hw. }
  assert (forall b, b <> x -> wm_wins st' !! b = wm_wins st !! b) as Hb.
  { intros b Hb. unfold st'. rewrite wupd_lookup, bool_decide_eq_false_2 by congruence. change (wm_wins (wemit (with_pool ?s ?p) ?e)) with (wm_wins s).
    by rewrite wupd_lookup, bool_decide_eq_false_2 by congruence. }
  assert (wclip (wm_wins st') x = clip) as Ec by (unfold wclip; by rewrite Hx).
  split_and!; try done.
  - intros b. destruct (decide (b = x)) as [->|Hne].
    + rewrite Hw. exists w'. split; [done|]. split; [done|by right].
    + rewrite Hb by done. destruct (wm_wins st !! b) as [wb|]; [|done]. exists wb. split; [done|reflexivity].
  - by rewrite Ec.
  - unfold clip_ok. rewrite Ec. assert (wrect (wm_wins st) x = w_rect w) as -> by (unfold wrect; by rewrite Hw). done.
Qed.

Lemma cleaned_dll st st' p l n : wins_rel cleaned st st' -> dll (wm_wins st) p l n -> dll (wm_wins st') p l n.
Proof.
  intros R H. eapply dll_ext; [|exact H]. intros a Ha. destruct (dll_lookup _ _ _ _ _ H Ha) as [w Hw]. specialize (R a). rewrite Hw in R |- *.
  destruct R as (w' & -> & C). destruct (cleaned_rect _ _ C) as (_ & Ep & En). cbn. unfold links_of. by rewrite Ep, En.
Qed.

Lemma cleaned_wrect st st' a : wins_rel cleaned st st' -> wrect (wm_wins st') a = wrect (wm_wins st) a.
Proof.
  intros R. specialize (R a). unfold wrect. destruct (wm_wins st !! a) as [w|]; [|by rewrite R].
  destruct R as (w' & -> & C). by destruct (cleaned_rect _ _ C) as (-> & _).
Qed.

Lemma clip_ok_ext full full' m m1 m' m2 desk a above : clip_ok full m m1 desk a above -> wclip m2 a = wclip m1 a ->
  (forall b, wrect m' b = wrect m b) -> (full' = true -> full = true) -> clip_ok full' m' m2 desk a above.
Proof.
  intros (H1 & H2 & H3) Ec Er Hf. unfold clip_ok. rewrite Ec, Er, (list_fmap_ext (wrect m') (wrect m) above) by (intros; apply Er).
  split_and!; [done|done|]. intros Hfull. apply H3. by apply Hf.
Qed.

Lemma held_ext m m' l : (forall a, a ∈ l -> m' !! a = m !! a) -> held m' l = held m l.
Proof.
  unfold held. induction l as [|x l IH]; intros H; [done|]. cbn. fold (mbind (M := list) (fun a => slots (wclip m' a)) l).
  fold (mbind (M := list) (fun a => slots (wclip m a)) l). rewrite IH by (intros; apply H; by constructor). f_equal.
  unfold wclip. by rewrite H by (by constructor).
Qed.

Definition dirty (m : gmap Z Window) (a : Z) : bool := match m !! a with Some w => has_flag w WIN_DIRTY | None => false end.

Lemma paint_spec fuel st l p : dll (wm_wins st) p l 0 -> NoDup l -> 0 ∉ l -> (length l <= fuel)%nat ->
  Forall rect_ok (wrect (wm_wins st) <$> l) -> Forall reaches_screen (wrect (wm_wins st) <$> l) ->
  exists st', paint_from scrn_w scrn_h fuel st (hd 0 l) = Some st' /\ wins_rel cleaned st st' /\
    g_desktop_win st' = g_desktop_win st /\ g_win_list st' = g_win_list st /\ g_win_top st' = g_win_top st /\ drag_ctx st' = drag_ctx st /\
    (forall b, b ∉ l -> wm_wins st' !! b = wm_wins st !! b) /\
    held (wm_wins st') l ++ rect_pool st' ≡ₚ held (wm_wins st) l ++ rect_pool st /\
    forall l1 x l2, l = l1 ++ x :: l2 -> dirty (wm_wins st) x = true ->
      clip_ok (paint_fits fuel st (hd 0 l)) (wm_wins st) (wm_wins st') (x =? g_desktop_win st) x l2.
Proof using S.
  revert st l p. induction fuel as [|n IH]; intros st [|x l] p Hd Hnd H0 Hf Hok Hre; [|simpl in Hf; lia| |].
  1-2: exists st; split_and!; try done; intros l1 x l2 E; by destruct l1.
  apply NoDup_cons in Hnd as [Hx Hnd]. apply not_elem_of_cons in H0 as [Hx0 H0]. destruct Hd as [(w & Hw & Hp & Hn) Hd].
  cbn [fmap list_fmap] in Hok, Hre. apply Forall_cons in Hok as [Hokx Hok], Hre as [Hrex Hre].
  assert (wrect (wm_wins st) x = w_rect w) as Ewx by (unfold wrect; by rewrite Hw). rewrite Ewx in Hokx, Hrex.
  cbn [paint_from paint_fits hd]. rewrite (proj2 (Z.eqb_neq x 0)), Hw by done. cbn [mbind option_bind].
  rewrite Hn, (rects_from_spec (Datatypes.S n) st l x Hd H0) by (simpl in Hf; lia).
  assert (length l <= n)%nat as Hf' by (simpl in Hf; lia).
  destruct (has_flag w WIN_DIRTY) eqn:Edirty; cycle 1.
  { cbn [mbind option_bind]. destruct (IH st l x Hd Hnd H0 Hf' Hok Hre) as (st' & -> & R & E1 & E2 & E3 & E4 & Hb & P & Hcl).
    exists st'. split_and!; try done; [intros b Hb'; apply Hb; set_solver| |].
    - unfold held. cbn. fold (held (wm_wins st') l) (held (wm_wins st) l). rewrite <- !app_assoc, P. unfold wclip. by rewrite Hb.
    - intros [|y l1] z l2 [= <- ->] Hdz; [unfold dirty in Hdz; rewrite Hw in Hdz; congruence|]. by eapply Hcl. }
  destruct (paint_one_spec (Datatypes.S n) st x w l Hw Hn Hd H0 ltac:(lia) Hokx Hrex Hok) as (st1 & E1 & R1 & D1 & L1 & T1 & G1 & Hb1 & P1 & C1).
  unfold paint_one in E1. destruct (recalc_window scrn_w scrn_h (Datatypes.S n) st x) as [sr|]; [|done]. cbn [mbind option_bind] in E1 |- *. injection E1 as E1.
  rewrite E1 in *. clear E1 sr.
  assert (wrect (wm_wins st1) <$> l = wrect (wm_wins st) <$> l) as Ew by (apply list_fmap_ext; intros; by apply cleaned_wrect).
  destruct (IH st1 l x (cleaned_dll _ _ _ _ _ R1 Hd) Hnd H0 Hf') as (st' & -> & R & E1 & E2 & E3 & E4 & Hb & P & Hcl); [by rewrite Ew|by rewrite Ew|].
  exists st'. split_and!; try congruence.
  - by transitivity st1.
  - intros b [Hbx Hbl]%not_elem_of_cons. by rewrite Hb, Hb1.
  - unfold held. cbn. fold (held (wm_wins st') l) (held (wm_wins st) l). rewrite <- !app_assoc, P.
    rewrite (held_ext (wm_wins st) (wm_wins st1) l) by (intros a Ha; apply Hb1; congruence).
    assert (wclip (wm_wins st) x = w_clip w) as -> by (unfold wclip; by rewrite Hw).
    assert (wclip (wm_wins st') x = wclip (wm_wins st1) x) as -> by (unfold wclip; by rewrite Hb).
    rewrite !(Permutation_app_comm (held _ _)), !app_assoc, P1. done.
  - intros [|y l1] z l2 E Hdz; injection E as Ex El.
    + subst z l2. eapply clip_ok_ext; [exact C1|unfold wclip; by rewrite Hb|done|]. by intros [? _]%andb_prop.
    + rewrite <- D1. eapply (clip_ok_ext _ _ (wm_wins st1)); [eapply Hcl; [exact El|]|done|intros; by rewrite (cleaned_wrect _ _ _ R1)|by intros [_ ?]%andb_prop].
      unfold dirty in Hdz |- *. rewrite Hb1; [done|]. intros ->. apply Hx. rewrite El. set_solver.
Qed.
End Paint.

(** ** The hit test *)
Section Hit.
Context (scrn_w scrn_h : Z) (S : screen_ok scrn_w scrn_h).
Implicit Types (st : wm) (l : list Z) (a x : Z) (w : Window) (m : gmap Z Window).

Lemma hit_spec w mx my : rect_ok (w_rect w) -> hit w mx my = bool_decide (in_rect mx my (w_rect w)).
Proof.
  unfold rect_ok. intros H. unfold hit. rewrite (s64_small (r_w _)), (s64_small (r_h _)) by lia. rewrite !s64_small by lia.
  destruct (Z.leb_spec (r_x (w_rect w)) mx), (Z.ltb_spec mx (r_x (w_rect w) + r_w (w_rect w))), (Z.leb_spec (r_y (w_rect w)) my),
    (Z.ltb_spec my (r_y (w_rect w) + r_h (w_rect w))); cbn [andb]; symmetry;
    (apply bool_decide_eq_true_2 || apply bool_decide_eq_false_2); unfold in_rect; lia.
Qed.

Lemma topmost_spec m l mx my a : Forall (fun a => exists w, m !! a = Some w /\ rect_ok (w_rect w)) l ->
  topmost m l mx my = Some a <->
  exists l1 l2, l = l1 ++ a :: l2 /\ in_rect mx my (wrect m a) /\ Forall (fun b => ~ in_rect mx my b) (wrect m <$> l2).
Proof.
  induction l as [|x l IH] using rev_ind; intros Hl.
  - split; [done|]. intros (l1 & l2 & E & _). by destruct l1.
  - apply Forall_app in Hl as [Hl [(w & Hw & Hok) _]%Forall_cons]. unfold topmost. rewrite rev_app_distr. cbn [rev app List.find].
    rewrite Hw, hit_spec by done. assert (wrect m x = w_rect w) as Ex by (unfold wrect; by rewrite Hw). case_bool_decide as Hin.
    + split.
      * intros [= <-]. exists l, []. split_and!; [done|by rewrite Ex|constructor].
      * intros (l1 & l2 & E & _ & Hno). destruct l2 as [|y l2 _] using rev_ind.
        { apply app_inj_tail in E as [_ ->]. done. }
        rewrite app_comm_cons, app_assoc in E. apply app_inj_tail in E as [_ <-]. rewrite fmap_app in Hno.
        apply Forall_app in Hno as [_ [Hy _]%Forall_cons]. by rewrite Ex in Hy.
    + fold (topmost m l mx my). rewrite (IH Hl). split.
      * intros (l1 & l2 & -> & Ha & Hno). exists l1, (l2 ++ [x]). rewrite <- app_assoc. split_and!; [done|done|].
        rewrite fmap_app. apply Forall_app. split; [done|]. cbn. rewrite Ex. by repeat constructor.
      * intros (l1 & l2 & E & Ha & Hno). destruct l2 as [|y l2 _] using rev_ind.
        { apply app_inj_tail in E as [_ ->]. by rewrite Ex in Ha. }
        rewrite app_comm_cons, app_assoc in E. apply app_inj_tail in E as [-> <-]. rewrite fmap_app in Hno.
        apply Forall_app in Hno as [Hno _]. by exists l1, l2.
Qed.

Lemma inv_rects st l : wm_inv st l -> Forall rect_ok (wrect (wm_wins st) <$> l) ->
  Forall (fun a => exists w, wm_wins st !! a = Some w /\ rect_ok (w_rect w)) l.
Proof.
  intros I Hok. rewrite Forall_fmap in Hok. apply Forall_forall. intros a Ha. rewrite Forall_forall in Hok. specialize (Hok a Ha). cbn in Hok.
  destruct (inv_lookup _ _ _ I Ha) as [w Hw]. exists w. unfold wrect in Hok. rewrite Hw in Hok. done.
Qed.

Lemma cleaned_inv st st' l : wm_inv st l -> wins_rel cleaned st st' -> g_desktop_win st' = g_desktop_win st -> g_win_list st' = g_win_list st ->
  g_win_top st' = g_win_top st -> drag_ctx st' = drag_ctx st -> wm_inv st' l.
Proof. intros [H1 H2 H3 H4 H5 H6 H7] R E1 E2 E3 E4. split; rewrite ?E1, ?E2, ?E3, ?E4; try done. by eapply cleaned_dll. Qed.

Lemma shown_spec (fuel : nat) (st : wm) (l : list Z) : wm_inv st l -> (length l <= fuel)%nat ->
  Forall (fun a => dirty (wm_wins st) a = true) l -> Forall rect_ok (wrect (wm_wins st) <$> l) ->
  Forall reaches_screen (wrect (wm_wins st) <$> l) ->
  exists st', win_paint scrn_w scrn_h fuel st = Some st' /\ wm_inv st' l /\ wins_rel cleaned st st' /\
    held (wm_wins st') l ++ rect_pool st' ≡ₚ held (wm_wins st) l ++ rect_pool st /\
    forall a px py, a ∈ l -> 0 <= px < scrn_w -> 0 <= py < scrn_h - TASKBAR_HEIGHT ->
      tiles (rects (wclip (wm_wins st') a)) /\
      (covers (rects (wclip (wm_wins st') a)) px py -> get_win_at scrn_h fuel st' px py = Some a) /\
      (paint_fits scrn_w scrn_h fuel st (g_win_list st) = true -> get_win_at scrn_h fuel st' px py = Some a ->
         covers (rects (wclip (wm_wins st') a)) px py).
Proof using S.
  intros I Hf Hdirty Hok Hre. unfold win_paint. rewrite (wi_list _ _ I).
  destruct (paint_spec scrn_w scrn_h S fuel st l 0 (wi_dll _ _ I) (wi_nodup _ _ I) (wi_null _ _ I) Hf Hok Hre)
    as (st' & -> & R & E1 & E2 & E3 & E4 & _ & P & Hcl). exists st'. pose proof (cleaned_inv st st' l I R E1 E2 E3 E4) as I'. split_and!; try done.
  intros a px py Ha Hpx Hpy.
  assert (wrect (wm_wins st') <$> l = wrect (wm_wins st) <$> l) as Ew by (apply list_fmap_ext; intros; by apply cleaned_wrect).
  assert (get_win_at scrn_h fuel st' px py = Some a <-> exists l1 l2, l = l1 ++ a :: l2 /\ in_rect px py (wrect (wm_wins st) a) /\
    Forall (fun b => ~ in_rect px py b) (wrect (wm_wins st) <$> l2)) as Hg.
  { unfold get_win_at. rewrite (proj2 (Z.leb_gt (scrn_h - TASKBAR_HEIGHT) py)), andb_false_r by lia. rewrite (wi_top _ _ I').
    rewrite (win_at_spec fuel st' l 0 px py) by (done || apply I').
    assert (Some (default 0 (topmost (wm_wins st') l px py)) = Some a <-> topmost (wm_wins st') l px py = Some a) as ->.
    { destruct (topmost (wm_wins st') l px py) as [b|]; cbn; [done|]. split; [|done]. intros [= <-]. by destruct (wi_null _ _ I). }
    rewrite topmost_spec by (apply inv_rects; [done|by rewrite Ew]).
    setoid_rewrite (cleaned_wrect st st'); [|done]. apply exist_proper. intros l1. apply exist_proper. intros l2.
    rewrite (list_fmap_ext (wrect (wm_wins st')) (wrect (wm_wins st)) l2) by (intros; by apply cleaned_wrect). done. }
  pose proof Ha as (l1 & l2 & El)%list_elem_of_split. rewrite Forall_forall in Hdirty.
  destruct (Hcl l1 a l2 El (Hdirty a Ha)) as (Hdis & Hsub & Hcov). split_and!; [done| |].
  - intros Hc. apply Hg. destruct (Hsub px py Hc) as (_ & Hin & Hno). by exists l1, l2.
  - intros Hfit Hget. apply Hg in Hget as (k1 & k2 & Ek & Hin & Hno).
    destruct (Hcl k1 a k2 Ek (Hdirty a Ha)) as (_ & _ & Hcov2). apply (Hcov2 Hfit). split; [|done].
    unfold in_screen, usable_h. destruct (a =? g_desktop_win st); unfold TASKBAR_HEIGHT in *; lia.
Qed.

(** C18: after all windows were marked dirty and painted, the pixels of a clip list are
    pixels where the hit test finds that window, and no pixel is drawn twice; when the
    pool of rectangles is large enough, every pixel above the taskbar where the hit test
    finds a window is in its clip list.  So what is shown is what a click reaches; the
    windows, their order and the rectangles in use are kept. *)
Theorem shown_is_hit (fuel : nat) (st : wm) (l : list Z) : wm_inv st l -> (length l <= fuel)%nat ->
  Forall (fun a => dirty (wm_wins st) a = true) l -> Forall rect_ok (wrect (wm_wins st) <$> l) ->
  Forall reaches_screen (wrect (wm_wins st) <$> l) ->
  exists st', win_paint scrn_w scrn_h fuel st = Some st' /\ wm_inv st' l /\ wins_rel cleaned st st' /\
    held (wm_wins st') l ++ rect_pool st' ≡ₚ held (wm_wins st) l ++ rect_pool st /\
    forall a px py, a ∈ l -> 0 <= px < scrn_w -> 0 <= py < scrn_h - TASKBAR_HEIGHT ->
      ForallOrdPairs disjoint_rects (rects (wclip (wm_wins st') a)) /\
      (covers (rects (wclip (wm_wins st') a)) px py -> get_win_at scrn_h fuel st' px py = Some a) /\
      (paint_fits scrn_w scrn_h fuel st (g_win_list st) = true -> get_win_at scrn_h fuel st' px py = Some a ->
         covers (rects (wclip (wm_wins st') a)) px py).
Proof using S.
  intros I Hf Hd Hok Hre. destruct (shown_spec fuel st l I Hf Hd Hok Hre) as (st' & E & I' & R & P & H). exists st'. split_and!; try done.
  intros a px py Ha Hx Hy. destruct (H a px py Ha Hx Hy) as ([? _] & ? & ?). done.
Qed.
End Hit.
