(* ===== verification/WinTheorems.v ===== *)
(** The window manager's theorems, [src/src/gui/window.c]: creation, focus, closing, the
    mouse, minimizing. *)
From S2P Require Import Prelude RingBuf WinClip Window WindowInv WindowOps WindowRun WinPaint.

Section Create.
Implicit Types (st : wm) (l : list Z) (a : Z) (w : Window).

(** The outer size of a window: the client area with border and title bar. *)
Definition outer (x y width height flags : Z) : Rect :=
  if Z.land flags WIN_BORDERLESS =? 0 then MkRect x y (u64 (width + 2)) (u64 (height + 22)) else MkRect x y width height.

Lemma inv_insert st l a w : wm_inv st l -> a ∉ l -> a <> 0 -> w_next w = 0 -> w_prev w = top_of 0 l ->
  let st1 := with_wins st (<[a := w]> (wm_wins st)) in
  let lone := (g_win_list st1 =? 0) || (g_win_top st1 =? 0) in
  wm_inv (if lone then with_ends st1 a a else with_ends (wupd st1 (g_win_top st) (set_next a)) (g_win_list st1) a) (l ++ [a]).
Proof.
  intros I Ha Ha0 Hn Hp. pose proof I as [Hd Hnd H0 Hl Ht Hde Hdr]. cbv zeta. cbn [with_wins g_win_list g_win_top].
  assert (forall m, dll m 0 (l ++ [a]) 0 -> forall st2, wm_wins st2 = m -> g_win_list st2 = hd 0 (l ++ [a]) -> g_win_top st2 = a ->
    g_desktop_win st2 = g_desktop_win st -> drag_ctx st2 = drag_ctx st -> wm_inv st2 (l ++ [a])) as Hinv.
  { intros m Hm st2 E1 E2 E3 E4 E5. split; rewrite ?E1, ?E2, ?E3, ?E4, ?E5; try done.
    - apply NoDup_app. split_and!; [done|intros b Hb Hb2%list_elem_of_singleton; by subst|apply NoDup_singleton].
    - rewrite elem_of_app, list_elem_of_singleton. intros [?|?]; [done|congruence].
    - by rewrite top_of_snoc.
    - destruct Hde; [by left|right; apply elem_of_app; by left].
    - destruct Hdr; [by left|right; apply elem_of_app; by left]. }
  assert (dll (<[a := w]> (wm_wins st)) 0 l 0) as Hd1.
  { eapply dll_ext; [|exact Hd]. intros b Hb. rewrite lookup_insert_ne; [done|]. intros ->. done. }
  destruct l as [|x l].
  - rewrite Hl. cbn [hd Z.eqb orb]. apply (Hinv (<[a := w]> (wm_wins st))); try done. cbn. split; [|done]. exists w. by rewrite lookup_insert_eq.
  - assert (x <> 0) by (intros ->; apply H0; by constructor). rewrite Hl. cbn [hd]. rewrite (proj2 (Z.eqb_neq x 0)) by done.
    pose proof (top_of_elem 0 (x :: l) ltac:(done)) as Hte. assert (g_win_top st <> 0) by (rewrite Ht; intros E; by rewrite E in Hte).
    rewrite (proj2 (Z.eqb_neq (g_win_top st) 0)) by done. cbn [orb].
    apply (Hinv (alter (set_next a) (g_win_top st) (<[a := w]> (wm_wins st)))); try done. rewrite Ht. apply dll_push; try done.
    exists w. by rewrite lookup_insert_eq.
Qed.

(** A new window goes on top of the others, which are untouched but for being inactive. *)
Lemma create_spec st l a pix curr x y width height title flags slot pool : wm_inv st l -> wm_wins st !! a = None -> a <> 0 -> pix <> 0 ->
  rect_pool st = slot :: pool ->
  exists owned st', win_create st a pix curr x y width height title flags = Some (a, owned, st') /\ wm_inv st' (l ++ [a]) /\
    rect_pool st' = pool /\ (forall b wb, wm_wins st !! b = Some wb -> exists wb', wm_wins st' !! b = Some wb' /\ same_win wb wb') /\
    exists w, wm_wins st' !! a = Some w /\ w_rect w = outer x y width height flags /\ w_clip w = [Node slot (outer x y width height flags)] /\
      w_state w = WIN_STATE_NORMAL /\ w_title w = title /\ w_owner w = if owned then default 0 curr else -1.
Proof.
  intros I Hna Ha0 Hp0 Hpool. assert (a ∉ l) as Hal by (intros Hin; destruct (inv_lookup _ _ _ I Hin); congruence).
  unfold win_create. rewrite (proj2 (Z.eqb_neq a 0)), (proj2 (Z.eqb_neq pix 0)) by done.
  set (bordered := Z.land flags WIN_BORDERLESS =? 0). set (lone := (g_win_list st =? 0) || (g_win_top st =? 0)). set (w0 := MkWindow _ _ _ _ _ _ _ _ _ _ _ _ _).
  assert (w_rect w0 = outer x y width height flags) as Er by (unfold w0, outer; fold bordered; by destruct bordered).
  assert (w_prev w0 = top_of 0 l) as Epr.
  { unfold w0, lone. cbn [w_prev]. rewrite (wi_list _ _ I), (wi_top _ _ I). destruct l as [|b l]; [done|]. cbn [hd].
    assert (b <> 0) by (intros ->; apply (wi_null _ _ I); by constructor). rewrite (proj2 (Z.eqb_neq b 0)) by done. cbn [orb].
    by destruct (Z.eqb_spec (top_of 0 (b :: l)) 0) as [->|]. }
  pose proof (inv_insert st l a w0 I Hal Ha0 eq_refl Epr) as I1. cbv zeta in I1. cbn [with_wins g_win_list g_win_top] in I1. fold lone in I1.
  set (st1 := if lone then with_ends _ a a else _) in *.
  assert (wm_wins st1 !! a = Some w0 /\ rect_pool st1 = rect_pool st /\
    forall b wb, wm_wins st !! b = Some wb -> exists wb', wm_wins st1 !! b = Some wb' /\ same_win wb wb') as (L1 & P1 & O1).
  { assert (g_win_top st <> a) as Hta.
    { rewrite (wi_top _ _ I). destruct l as [|b l]; [intros E; by apply Ha0|]. intros E. apply Hal. rewrite <- E. by apply top_of_elem. }
    unfold st1. destruct lone; cbn [with_ends wupd with_wins wm_wins rect_pool]; (split; [|split; [done|intros b wb Hb]]).
    - by rewrite lookup_insert_eq.
    - exists wb. rewrite lookup_insert_ne by congruence. split; [done|reflexivity].
    - by rewrite lookup_alter_ne, lookup_insert_eq.
    - destruct (decide (b = g_win_top st)) as [->|Hbt].
      + rewrite lookup_alter_eq, lookup_insert_ne, Hb by congruence. eexists. split; [done|apply set_next_same].
      + rewrite lookup_alter_ne, lookup_insert_ne by congruence. exists wb. split; [done|reflexivity]. }
  destruct (init_pixels_spec st1 a) as (st2 & -> & T2); [by exists w0|]. cbn [mbind option_bind].
  destruct (old_top_spec st2 (g_win_top st)) as (st3 & -> & T3).
  { rewrite (wi_top _ _ I). destruct l as [|b l]; [by left|right]. apply (inv_lookup _ _ _ (touched_inv _ _ _ T2 I1)), elem_of_app. left. by apply top_of_elem. }
  cbn [mbind option_bind]. assert (touched st1 st3) as T by (by etransitivity). set (owned := bordered && _).
  set (st4 := if owned then wupd st3 a (set_owner (default 0 curr)) else st3).
  assert (wm_inv st4 (l ++ [a]) /\ rect_pool st4 = slot :: pool) as [I4 P4].
  { pose proof (touched_inv _ _ _ T I1) as I3. assert (rect_pool st3 = slot :: pool) by (rewrite (to_pool _ _ T), P1; done).
    unfold st4. destruct owned; [|done]. split; [|done]. destruct I3 as [A1 A2 A3 A4 A5 A6 A7]. split; try done.
    eapply dll_ext; [|exact A1]. intros b _. rewrite wupd_lookup. case_bool_decide; [|done]. by destruct (wm_wins st3 !! b). }
  assert (exists w4, wm_wins st4 !! a = Some w4 /\ w_rect w4 = outer x y width height flags /\ w_state w4 = WIN_STATE_NORMAL /\ w_title w4 = title /\
    w_owner w4 = (if owned then default 0 curr else -1)) as (w4 & L4 & R4 & S4 & N4 & O4).
  { destruct (touched_lookup st1 st3 a w0 T L1) as (w3 & L3 & [Hc _] & _).
    assert (w_rect w3 = w_rect w0 /\ w_state w3 = w_state w0 /\ w_title w3 = w_title w0 /\ w_owner w3 = w_owner w0) as (C1 & C2 & C3 & C4).
    { clear - Hc. destruct w3, w0. unfold core in Hc. cbn in Hc. by injection Hc as -> -> -> -> -> -> -> -> -> ->. }
    unfold st4. destruct owned; [rewrite wupd_lookup, bool_decide_eq_true_2, L3 by done|rewrite L3]; eexists; split_and!; try done; cbn; congruence. }
  assert (forall b wb, wm_wins st !! b = Some wb -> exists wb', wm_wins st4 !! b = Some wb' /\ same_win wb wb') as O4'.
  { intros b wb Hb. destruct (O1 b wb Hb) as (w1 & H1 & S1). destruct (touched_lookup st1 st3 b w1 T H1) as (w3 & H3 & S3 & _).
    exists w3. split; [|by transitivity w1]. unfold st4. destruct owned; [|done]. by rewrite wupd_lookup, bool_decide_eq_false_2 by congruence. }
  rewrite P4. cbn [rect_alloc]. set (g := fun w => add_flag WIN_DIRTY _). set (st5 := wupd (with_pool st4 pool) a g).
  assert (wm_inv st5 (l ++ [a])) as I5.
  { destruct I4 as [A1 A2 A3 A4 A5 A6 A7]. split; try done. eapply dll_ext; [|exact A1]. intros b _. unfold st5. rewrite wupd_lookup.
    case_bool_decide; [|done]. cbn [with_pool wm_wins]. by destruct (wm_wins st4 !! b). }
  assert (exists st6, (if bordered then win_draw_taskbar st5 else Some st5) = Some st6 /\ touched st5 st6) as (st6 & -> & T6).
  { destruct bordered; [apply (taskbar_spec _ (inv_desktop _ _ I5))|exists st5; split; [done|reflexivity]]. }
  cbn [mbind option_bind]. exists owned, st6. split_and!; [done|by eapply touched_inv|by rewrite (to_pool _ _ T6)| |].
  - intros b wb Hb. destruct (O4' b wb Hb) as (wb4 & H4 & S4'). destruct (touched_lookup st5 st6 b wb4 T6) as (wb6 & H6 & S6 & _).
    + unfold st5. rewrite wupd_lookup, bool_decide_eq_false_2 by congruence. done.
    + exists wb6. split; [done|by transitivity wb4].
  - destruct (touched_lookup st5 st6 a (g w4) T6) as (w6 & H6 & [Hc _] & _).
    { unfold st5. rewrite wupd_lookup, bool_decide_eq_true_2 by done. cbn [with_pool wm_wins]. by rewrite L4. }
    exists w6. split; [done|]. rewrite <- R4. clear - Hc R4 S4 N4 O4. destruct w6, w4. unfold core in Hc. cbn in Hc.
    injection Hc as -> -> -> -> -> -> -> -> -> ->. done.
Qed.

(** Without memory for the window or its pixels nothing changes but the log. *)
Lemma create_fail st l a pix curr x y width height title flags : wm_inv st l -> a = 0 \/ pix = 0 ->
  exists st', win_create st a pix curr x y width height title flags = Some (0, false, st') /\ wm_inv st' l /\ wm_wins st' = wm_wins st.
Proof.
  intros I H. unfold win_create. destruct (Z.eqb_spec a 0); [by exists st|]. destruct H as [H|H]; [done|subst pix]. cbn [Z.eqb]. eexists. split; [done|].
  split; [|done]. eapply touched_inv; [apply touched_emit|done].
Qed.
End Create.

(** ** Theorems *)

(** Focusing a window that has a border brings it to the top of the stack and leaves
    the order of the others and everything they have; a borderless window stays where it
    is.  The doubly linked list and its two ends stay consistent. *)
Theorem win_focus_correct (fuel : nat) (st : wm) (l1 l2 : list Z) (x : Z) (w : Window) : wm_inv st (l1 ++ x :: l2) ->
  (length (l1 ++ x :: l2) <= fuel)%nat -> wm_wins st !! x = Some w ->
  exists st', win_focus fuel st x = Some st' /\ restacked st st' /\
    wm_inv st' (if has_flag w WIN_BORDERLESS then l1 ++ x :: l2 else l1 ++ l2 ++ [x]).
Proof. apply focus_spec. Qed.

(** Closing a window takes it out of the stack, gives its rectangles back to the pool and
    ends a drag of it; the other windows keep their order and everything they have. *)
Theorem win_close_correct (fuel : nat) (st : wm) (l1 l2 : list Z) (x : Z) (w : Window) : wm_inv st (l1 ++ x :: l2) ->
  (length (l1 ++ l2) <= fuel)%nat -> wm_wins st !! x = Some w -> x <> g_desktop_win st ->
  exists st', win_close fuel st x = Some st' /\ wm_inv st' (l1 ++ l2) /\ wm_wins st' !! x = None /\
    rect_pool st' ≡ₚ slots (w_clip w) ++ rect_pool st /\ g_desktop_win st' = g_desktop_win st /\
    (forall a wa, a <> x -> wm_wins st !! a = Some wa -> exists wa', wm_wins st' !! a = Some wa' /\ same_win wa wa') /\
    d_target (drag_ctx st') <> x.
Proof. apply close_spec. Qed.

(** A new window is on top of the stack, with the client area asked for plus border and
    title bar, owned by the current task if it has a border, and holds one rectangle; the
    other windows are as they were. *)
Theorem win_create_correct (st : wm) (l : list Z) (a pix : Z) (curr : option Z) (x y width height title flags slot : Z) (pool : list Z) :
  wm_inv st l -> wm_wins st !! a = None -> a <> 0 -> pix <> 0 -> rect_pool st = slot :: pool ->
  exists owned st', win_create st a pix curr x y width height title flags = Some (a, owned, st') /\ wm_inv st' (l ++ [a]) /\
    rect_pool st' = pool /\ (forall b wb, wm_wins st !! b = Some wb -> exists wb', wm_wins st' !! b = Some wb' /\ same_win wb wb') /\
    exists w, wm_wins st' !! a = Some w /\ w_rect w = outer x y width height flags /\ w_clip w = [Node slot (outer x y width height flags)] /\
      w_state w = WIN_STATE_NORMAL /\ w_title w = title /\ w_owner w = if owned then default 0 curr else -1.
Proof. apply create_spec. Qed.

(** C17: Whatever the mouse does and whether memory runs out or not, [win_update] returns
    and keeps the stack of windows well formed, with a drag target that is one of them.
    Unless a close button is pressed, they are the same windows in some order, each with
    its owner, title and clip list.  A press on a close button kills the owner of that
    window; if the killed task has a window of its own, that window is gone, its clip list
    is back in the pool, and the others keep their order and everything they have. *)
Theorem win_update_ok (scrn_w scrn_h : Z) (tsk_win : Z -> option Z) (fuel : nat) (st : wm) (l : list Z) (pix mstat mx my modifiers : Z) :
  wm_inv st l -> (length l <= fuel)%nat ->
  (forall pid a, tsk_win pid = Some a -> a = 0 \/ a ∈ l) -> (forall w, wm_wins st !! g_desktop_win st = Some w -> w_owner w <= 0) ->
  exists st', win_update scrn_w scrn_h tsk_win fuel st pix mstat mx my modifiers = Some st' /\
    match close_click scrn_h fuel st mstat mx my with
    | None => kept st st' /\ exists l', l' ≡ₚ l /\ wm_inv st' l'
    | Some pid => SchedKill pid ∈ wm_log st' /\
        match window_of tsk_win st pid with
        | None => kept st st' /\ exists l', l' ≡ₚ l /\ wm_inv st' l'
        | Some x => closed st l x st'
        end
    end.
Proof. apply update_ok. Qed.

(** Minimizing a window and restoring it gives it back its place, size and state, as long
    as both pixel buffers can be allocated. *)
Theorem minimize_roundtrip (fuel : nat) (st : wm) (l : list Z) (x : Z) (w : Window) (pix pix2 : Z) : wm_inv st l -> (length l <= fuel)%nat ->
  wm_wins st !! x = Some w -> w_state w <> WIN_STATE_MINIMIZED -> pix <> 0 -> pix2 <> 0 ->
  0 <= r_w (w_rect w) < 2 ^ 64 -> 0 <= r_h (w_rect w) < 2 ^ 64 ->
  exists st1 st2 w1 w2, win_toggle_minimize fuel st pix x = Some st1 /\ wm_wins st1 !! x = Some w1 /\
    w_state w1 = WIN_STATE_MINIMIZED /\ r_h (w_rect w1) = WIN_TITLE_BAR_HEIGHT /\
    win_toggle_minimize fuel st1 pix2 x = Some st2 /\ wm_wins st2 !! x = Some w2 /\
    w_rect w2 = w_rect w /\ w_state w2 = w_state w /\ wm_inv st2 l.
Proof.
  intros I Hf Hw Hs Hp Hp2 Hrw Hrh. destruct (toggle_min_spec fuel st l x w pix I Hf Hw) as (st1 & E1 & M1 & _ & w1 & L1 & G1).
  unfold toggled, min_goal in G1. rewrite decide_False in G1 by done. destruct G1 as (S1 & PS1 & P1 & R1). rewrite decide_False in R1 by done.
  pose proof (moved_inv _ _ _ M1 I) as I1. destruct (toggle_min_spec fuel st1 l x w1 pix2 I1 Hf L1) as (st2 & E2 & M2 & _ & w2 & L2 & G2).
  unfold toggled, min_goal in G2. rewrite S1 in G2. rewrite decide_True in G2 by done. destruct G2 as (S2 & _ & _ & R2). rewrite decide_False in R2 by done.
  exists st1, st2, w1, w2. rewrite R2, R1, P1, S2, PS1. unfold u64_rect. cbn [r_x r_y r_w r_h].
  rewrite !(u64_small (r_w (w_rect w))), (u64_small (r_h (w_rect w))) by done.
  split_and!; try done; [by destruct (w_rect w)|by eapply moved_inv].
Qed.

(** Minimizing a maximized window overwrites the place it had before it was maximized:
    after restoring it and leaving the maximized state it keeps the full size. *)
Theorem minimize_loses_size (scrn_w scrn_h : Z) (fuel : nat) (st : wm) (l : list Z) (x : Z) (w : Window) (p1 p2 p3 : Z) :
  wm_inv st l -> (length l <= fuel)%nat -> wm_wins st !! x = Some w -> w_state w = WIN_STATE_MAXIMIZED ->
  w_rect w = MkRect 0 0 scrn_w (scrn_h - TASKBAR_HEIGHT) -> screen_ok scrn_w scrn_h -> p1 <> 0 -> p2 <> 0 -> p3 <> 0 ->
  exists st1 st2 st3 w3, win_toggle_minimize fuel st p1 x = Some st1 /\ win_toggle_minimize fuel st1 p2 x = Some st2 /\
    win_toggle_maximize scrn_w scrn_h fuel st2 p3 x = Some st3 /\ wm_wins st3 !! x = Some w3 /\
    w_state w3 = WIN_STATE_NORMAL /\ w_rect w3 = MkRect 0 0 scrn_w (scrn_h - TASKBAR_HEIGHT).
Proof.
  intros I Hf Hw Hs Hr [Hsw Hsh] H1 H2 H3. unfold TASKBAR_HEIGHT in *.
  destruct (toggle_min_spec fuel st l x w p1 I Hf Hw) as (st1 & E1 & M1 & _ & w1 & L1 & G1).
  unfold toggled, min_goal in G1. rewrite decide_False in G1 by (rewrite Hs; done). destruct G1 as (S1 & PS1 & P1 & R1).
  pose proof (moved_inv _ _ _ M1 I) as I1. destruct (toggle_min_spec fuel st1 l x w1 p2 I1 Hf L1) as (st2 & E2 & M2 & _ & w2 & L2 & G2).
  unfold toggled, min_goal in G2. rewrite decide_True in G2 by done. destruct G2 as (S2 & _ & P2 & _).
  pose proof (moved_inv _ _ _ M2 I1) as I2. destruct (toggle_max_spec scrn_w scrn_h fuel st2 l x w2 p3 I2 Hf L2) as (st3 & E3 & _ & _ & w3 & L3 & G3).
  unfold toggled, max_goal in G3. rewrite S2, PS1, Hs in G3. destruct G3 as (S3 & _ & _ & R3). rewrite decide_False in R3 by done.
  exists st1, st2, st3, w3. split_and!; try done. rewrite R3, P2, P1, Hr. unfold u64_rect. cbn [r_x r_y r_w r_h]. by rewrite !u64_small by lia.
Qed.

(** ** Examples *)
Definition demo_win (r : Rect) (prev next owner flags : Z) (clip : list rnode) : Window :=
  MkWindow r 0 (0, 0) 0x9000 0 prev next owner flags clip WIN_STATE_NORMAL WIN_STATE_NORMAL r.
Definition demo_wm : wm :=
  WM (<[0x100 := demo_win (MkRect 0 0 800 600) 0 0x200 (-1) (Z.lor WIN_BORDERLESS WIN_DIRTY) [Node 0 (MkRect 0 0 800 600)]]>
     (<[0x200 := demo_win (MkRect 10 10 202 122) 0x100 0x300 1 (Z.lor 7 WIN_DIRTY) [Node 1 (MkRect 10 10 202 122)]]>
     (<[0x300 := demo_win (MkRect 100 60 202 122) 0x200 0 2 (Z.lor 7 WIN_DIRTY) [Node 2 (MkRect 100 60 202 122)]]> ∅)))
    0x100 0x300 0x100 LAUNCH_NONE (DragCtx 0 0 0 0) (seqZ 3 40) false false [].
Definition demo_stack : list Z := [0x100; 0x200; 0x300].

Lemma demo_wm_inv : wm_inv demo_wm demo_stack.
Proof.
  split; [repeat (split; [eexists; split_and!; vm_compute; reflexivity|]); exact Logic.I|by apply (bool_decide_unpack _)|by apply (bool_decide_unpack _)
    |done|done|right; by apply (bool_decide_unpack _)|by left].
Qed.

Lemma demo_rects : wrect (wm_wins demo_wm) <$> demo_stack = [MkRect 0 0 800 600; MkRect 10 10 202 122; MkRect 100 60 202 122].
Proof. vm_compute. reflexivity. Qed.

Lemma win_focus_correct_witness : exists st', win_focus 3 demo_wm 0x200 = Some st' /\ wm_inv st' [0x100; 0x300; 0x200].
Proof.
  destruct (win_focus_correct 3 demo_wm [0x100] [0x300] 0x200 (demo_win (MkRect 10 10 202 122) 0x100 0x300 1 (Z.lor 7 WIN_DIRTY) [Node 1 (MkRect 10 10 202 122)]))
    as (st' & E & _ & I); [exact demo_wm_inv|simpl; lia|vm_compute; reflexivity|]. exists st'. split; [exact E|exact I].
Defined.

Lemma win_close_correct_witness : exists st', win_close 2 demo_wm 0x200 = Some st' /\ wm_inv st' [0x100; 0x300] /\ wm_wins st' !! 0x200 = None.
Proof.
  destruct (win_close_correct 2 demo_wm [0x100] [0x300] 0x200 (demo_win (MkRect 10 10 202 122) 0x100 0x300 1 (Z.lor 7 WIN_DIRTY) [Node 1 (MkRect 10 10 202 122)]))
    as (st' & E & I & Hn & _); [exact demo_wm_inv|simpl; lia|vm_compute; reflexivity|done|]. exists st'. split_and!; [exact E|exact I|exact Hn].
Defined.

Lemma win_create_correct_witness : exists owned st', win_create demo_wm 0x400 0xA000 (Some 3) 5 6 100 50 0x800 7 = Some (0x400, owned, st') /\
  wm_inv st' [0x100; 0x200; 0x300; 0x400].
Proof.
  destruct (win_create_correct demo_wm demo_stack 0x400 0xA000 (Some 3) 5 6 100 50 0x800 7 3 (seqZ 4 39)) as (o & st' & E & I & _);
    [exact demo_wm_inv|vm_compute; reflexivity|done|done|vm_compute; reflexivity|]. exists o, st'. split; [exact E|exact I].
Defined.

(** A press on the title bar of the second window starts a drag; one on the close button
    of the third closes it. *)
Definition demo_tasks (pid : Z) : option Z := if pid =? 1 then Some 0x200 else if pid =? 2 then Some 0x300 else None.

Lemma win_update_ok_witness :
  (exists st', win_update 800 600 demo_tasks 3 demo_wm 0 1 60 15 0 = Some st' /\ d_target (drag_ctx st') = 0x200 /\ kept demo_wm st') /\
  exists st', win_update 800 600 demo_tasks 3 demo_wm 0 1 290 65 0 = Some st' /\ closed demo_wm demo_stack 0x300 st'.
Proof.
  assert (forall pid a, demo_tasks pid = Some a -> a = 0 \/ a ∈ demo_stack) as Ht.
  { intros pid a. unfold demo_tasks. destruct (pid =? 1); [intros [= <-]; right; by apply (bool_decide_unpack _)|]. destruct (pid =? 2); [intros [= <-]; right; by apply (bool_decide_unpack _)|discriminate]. }
  assert (forall w, wm_wins demo_wm !! g_desktop_win demo_wm = Some w -> w_owner w <= 0) as Hd by (vm_compute; intros w [= <-]; discriminate).
  split.
  - destruct (win_update_ok 800 600 demo_tasks 3 demo_wm demo_stack 0 1 60 15 0) as (st' & E & K); [exact demo_wm_inv|simpl; lia|exact Ht|exact Hd|].
    assert (close_click 600 3 demo_wm 1 60 15 = None) as Ec by (vm_compute; reflexivity). rewrite Ec in K. exists st'. split; [exact E|]. split; [|exact (proj1 K)].
    vm_compute in E. injection E as <-. vm_compute. reflexivity.
  - destruct (win_update_ok 800 600 demo_tasks 3 demo_wm demo_stack 0 1 290 65 0) as (st' & E & K); [exact demo_wm_inv|simpl; lia|exact Ht|exact Hd|].
    assert (close_click 600 3 demo_wm 1 290 65 = Some 2) as Ec by (vm_compute; reflexivity). assert (window_of demo_tasks demo_wm 2 = Some 0x300) as Ew by (vm_compute; reflexivity).
    rewrite Ec, Ew in K. exists st'. split; [exact E|exact (proj2 K)].
Defined.

Lemma minimize_roundtrip_witness : exists st1 st2 w2, win_toggle_minimize 3 demo_wm 0xA000 0x200 = Some st1 /\
  win_toggle_minimize 3 st1 0xB000 0x200 = Some st2 /\ wm_wins st2 !! 0x200 = Some w2 /\ w_rect w2 = MkRect 10 10 202 122.
Proof.
  destruct (minimize_roundtrip 3 demo_wm demo_stack 0x200 (demo_win (MkRect 10 10 202 122) 0x100 0x300 1 (Z.lor 7 WIN_DIRTY) [Node 1 (MkRect 10 10 202 122)]) 0xA000 0xB000)
    as (st1 & st2 & w1 & w2 & E1 & _ & _ & _ & E2 & L2 & R2 & _); [exact demo_wm_inv|simpl; lia|vm_compute; reflexivity|done|done|done|cbn; lia|cbn; lia|].
  exists st1, st2, w2. split_and!; [exact E1|exact E2|exact L2|exact R2].
Defined.

Lemma shown_is_hit_witness : exists st', win_paint 800 600 3 demo_wm = Some st' /\ get_win_at 600 3 st' 150 80 = Some 0x300 /\
  covers (rects (wclip (wm_wins st') 0x300)) 150 80.
Proof.
  destruct (shown_is_hit 800 600 ltac:(unfold screen_ok, TASKBAR_HEIGHT; lia) 3 demo_wm demo_stack) as (st' & E & I & _ & _ & H);
    [exact demo_wm_inv|simpl; lia|by apply (bool_decide_unpack _)| | |].
  - rewrite demo_rects. repeat (apply Forall_cons; split; [unfold rect_ok; cbn; lia|]). constructor.
  - rewrite demo_rects. repeat (apply Forall_cons; split; [unfold reaches_screen; cbn; lia|]). constructor.
  - exists st'. assert (get_win_at 600 3 st' 150 80 = Some 0x300) as Eg by (vm_compute in E; injection E as <-; vm_compute; reflexivity).
    split_and!; [exact E|exact Eg|]. destruct (H 0x300 150 80) as (_ & _ & Hc); [by apply (bool_decide_unpack _)|lia|unfold TASKBAR_HEIGHT; lia|].
    apply Hc; [vm_compute; reflexivity|exact Eg].
Defined.
