(* ===== verification/Video.v ===== *)
(** The video driver, [src/src/drivers/video.c]: the back buffer, the list of dirty
    rectangles and what [video_swap] copies to the screen.

    [back] is [g_back_buf] and [vram] the frame buffer, both of [pitch32] times
    [fb_height] pixels; [rect_list] is the first [g_rect_count] elements of
    [g_rect_list].  An access outside a buffer is [None]. *)
From stdpp Require Import functions.
From S2P Require Import Prelude Font WinClip.

Definition MAX_DIRTY_RECTS : nat := 256.
Definition FONT_H : Z := 8.

Record video := Video {
  back : Z -> Z; vram : Z -> Z; fb_width : Z; fb_height : Z; pitch32 : Z;
  rect_list : list Rect; force_full_refresh : bool }.

Definition with_back (v : video) (b : Z -> Z) : video :=
  Video b (vram v) (fb_width v) (fb_height v) (pitch32 v) (rect_list v) (force_full_refresh v).
Definition with_vram (v : video) (b : Z -> Z) : video :=
  Video (back v) b (fb_width v) (fb_height v) (pitch32 v) (rect_list v) (force_full_refresh v).
Definition with_dirty (v : video) (l : list Rect) (f : bool) : video :=
  Video (back v) (vram v) (fb_width v) (fb_height v) (pitch32 v) l f.

Definition buf_len (v : video) : Z := pitch32 v * fb_height v.

(** [g_back_buf[i] = c] *)
Definition poke (v : video) (i c : Z) : option video :=
  if (0 <=? i) && (i <? buf_len v) then Some (with_back v (<[i := c]> (back v))) else None.

Definition off_screen (v : video) (x y : Z) : bool :=
  (x <? 0) || (s64 (fb_width v) <=? x) || (y <? 0) || (s64 (fb_height v) <=? y).

Definition put_pixel (v : video) (x y color : Z) : option video :=
  if off_screen v x y then Some v else poke v (u64 (y * pitch32 v + x)) color.

Definition video_plot_pixel (v : video) (x y color : Z) : option video := put_pixel v x y color.

Definition video_get_pixel (v : video) (x y : Z) : Z :=
  if off_screen v x y then 0 else back v (u64 (y * pitch32 v + x)).

(** ** Text and lines *)

(** The 64 cells of a glyph, row by row. *)
Definition glyph_cells : list (Z * Z) := gy ← seqZ 0 8; gx ← seqZ 0 8; [(gx, gy)].

Definition draw_char_at (v : video) (x y c color : Z) : option video :=
  if (0 <=? c) && (c <? 128) then
    ofold (fun v '(gx, gy) =>
      poke v (u64 (y * pitch32 v + x + gy * pitch32 v + gx)) (if Z.testbit (font8x8 c gy) gx then color else Black)) v glyph_cells
  else None.

(** [memcpy_sse] of a row of pixels. *)
Definition video_draw_pixel_line (v : video) (x y : Z) (colors : list Z) : option video :=
  let start := u64 (y * pitch32 v + x) in
  ofold (fun v '(k, c) => poke v (start + k) c) v (imap (fun k c => (Z.of_nat k, c)) colors).

(** ** Dirty rectangles *)

(** The rectangle a new one lies in. *)
Definition inside (x y w h : Z) (r : Rect) : bool :=
  (r_x r <=? x) && (r_y r <? y) && (s64 (x + w) <=? s64 (r_x r + s64 (r_w r))) && (s64 (y + h) <=? s64 (r_y r + s64 (r_h r))).

(** One axis cut to the screen, [None] when nothing is left. *)
Definition cut_neg (p len : Z) : option (Z * Z) :=
  if p <? 0 then (if s64 (len + p) <=? 0 then None else Some (0, s64 (len + p))) else Some (p, len).

Definition video_add_dirty_rect (v : video) (x y w h : Z) : video :=
  if (MAX_DIRTY_RECTS <=? length (rect_list v))%nat then with_dirty v [] true
  else if (s64 (fb_width v) <=? x) || (s32 (fb_height v) <=? y) then v
  else
    match cut_neg x w with
    | None => v
    | Some (x, w) =>
        match cut_neg y h with
        | None => v
        | Some (y, h) =>
            let w := if s64 (fb_width v) <=? s64 (x + w) then s64 (fb_width v - x) else w in
            let h := if s64 (fb_height v) <=? s64 (y + h) then s64 (fb_height v - y) else h in
            if existsb (inside x y w h) (rect_list v) then v
            else with_dirty v (rect_list v ++ [MkRect x y (u64 w) (u64 h)]) (force_full_refresh v)
        end
    end.

(** The loop of [video_draw_string]: the position after the string. *)
Fixpoint draw_string (v : video) (curr_x y : Z) (str : list Z) (color : Z) : option (video * Z) :=
  match str with
  | [] => Some (v, curr_x)
  | c :: str =>
      if c =? 10 then draw_string v curr_x y str color
      else v ← draw_char_at v (u64 curr_x) y c color; draw_string v (s32 (curr_x + 8)) y str color
  end.

Definition video_draw_string (v : video) (x y : Z) (str : list Z) (color : Z) : option video :=
  '(v, curr_x) ← draw_string v (s32 x) y str color;
  Some (video_add_dirty_rect v (s32 x) (s64 y) (s32 (curr_x - s32 x)) FONT_H).

(** ** To the screen *)

(** [memcpy_sse(&g_fb_ptr[idx], &g_back_buf[idx], size)] *)
Definition copy_out (v : video) (idx size : Z) : option video :=
  let n := size / 4 in
  if (0 <=? idx) && (idx + n <=? buf_len v)
  then Some (with_vram v (fun i => if (idx <=? i) && (i <? idx + n) then back v i else vram v i)) else None.

Definition swap_rect (v : video) (r : Rect) : option video :=
  ofold (fun v row => copy_out v (u64 ((row + r_y r) * pitch32 v + r_x r)) (u64 (r_w r * 4))) v (seqZ 0 (r_h r)).

Definition video_swap (v : video) : option video :=
  if force_full_refresh v then
    v ← copy_out v 0 (u64 (fb_height v * pitch32 v * 4));
    Some (with_dirty v [] false)
  else
    v ← ofold swap_rect v (rect_list v);
    Some (with_dirty v [] false).

(** ** What is on the screen *)
Record vid_ok (v : video) : Prop := {
  vo_w : 0 < fb_width v <= pitch32 v;
  vo_h : 0 < fb_height v < 2 ^ 31;
  vo_p : pitch32 v < 2 ^ 31 }.

Definition on_screen (v : video) (px py : Z) : Prop := 0 <= px < fb_width v /\ 0 <= py < fb_height v.

(** A pixel of the back buffer, and of the screen. *)
Definition pix (v : video) (px py : Z) : Z := back v (py * pitch32 v + px).
Definition shown (v : video) (px py : Z) : Z := vram v (py * pitch32 v + px).

(** A rectangle the copy to the screen can take. *)
Definition rect_in (v : video) (r : Rect) : Prop :=
  0 <= r_x r /\ 0 <= r_y r /\ 0 <= r_w r /\ 0 <= r_h r /\ r_x r + r_w r <= fb_width v /\ r_y r + r_h r <= fb_height v.

Definition dirty_ok (v : video) : Prop := (length (rect_list v) <= MAX_DIRTY_RECTS)%nat /\ Forall (rect_in v) (rect_list v).

(** Where the screen differs from the back buffer, something says so. *)
Definition synced (v : video) : Prop := forall px py, on_screen v px py ->
  force_full_refresh v = true \/ covers (rect_list v) px py \/ shown v px py = pix v px py.

(** The same but for the back buffer. *)
Definition same_but_back (v v' : video) : Prop := v' = with_back v (back v').

(** Only the back buffer changed, and inside [r] only. *)
Definition drew (r : Rect) (v v' : video) : Prop :=
  same_but_back v v' /\ forall px py, on_screen v px py -> ~ in_rect px py r -> pix v' px py = pix v px py.

Section Pixels.
Implicit Types (v : video) (px py x y c : Z).

Lemma same_refl v : same_but_back v v.
Proof. by destruct v. Qed.

Lemma same_trans v1 v2 v3 : same_but_back v1 v2 -> same_but_back v2 v3 -> same_but_back v1 v3.
Proof. unfold same_but_back. intros H1 H2. rewrite H2, H1. done. Qed.

Lemma same_fields v v' : same_but_back v v' ->
  vram v' = vram v /\ fb_width v' = fb_width v /\ fb_height v' = fb_height v /\ pitch32 v' = pitch32 v /\
  rect_list v' = rect_list v /\ force_full_refresh v' = force_full_refresh v.
Proof. intros ->. done. Qed.

Lemma same_ok v v' : same_but_back v v' -> vid_ok v -> vid_ok v'.
Proof. intros (_ & Ew & Eh & Ep & _)%same_fields [? ? ?]. split; rewrite ?Ew, ?Eh, ?Ep; done. Qed.

Lemma same_on_screen v v' px py : same_but_back v v' -> on_screen v' px py <-> on_screen v px py.
Proof. intros (_ & Ew & Eh & _)%same_fields. unfold on_screen. by rewrite Ew, Eh. Qed.

(** The place of a pixel in the buffers. *)
Lemma index_range v px py : vid_ok v -> on_screen v px py -> 0 <= py * pitch32 v + px < buf_len v /\ buf_len v < 2 ^ 62.
Proof. intros [? ? ?] [? ?]. unfold buf_len. split; nia. Qed.

Lemma index_inj v px py x y : vid_ok v -> on_screen v px py -> on_screen v x y -> py * pitch32 v + px = y * pitch32 v + x -> px = x /\ py = y.
Proof. intros [? ? ?] [? ?] [? ?] E. assert (py = y) as -> by nia. lia. Qed.

Lemma poke_spec v x y c : vid_ok v -> on_screen v x y -> exists v', poke v (y * pitch32 v + x) c = Some v' /\ same_but_back v v' /\
  forall px py, on_screen v px py -> pix v' px py = if decide (px = x /\ py = y) then c else pix v px py.
Proof.
  intros V O. destruct (index_range v x y V O) as [R _]. unfold poke. rewrite (proj2 (Z.leb_le _ _)), (proj2 (Z.ltb_lt _ _)) by lia.
  eexists. split_and!; [done|done|]. intros px py Op. unfold pix. cbn [back with_back pitch32]. case_decide as D.
  - destruct D as [-> ->]. by rewrite fn_lookup_insert.
  - rewrite fn_lookup_insert_ne; [done|]. intros E. apply D. by eapply index_inj.
Qed.

Lemma poke_spec_u64 v x y c i : vid_ok v -> on_screen v x y -> i = y * pitch32 v + x -> exists v', poke v (u64 i) c = Some v' /\ same_but_back v v' /\
  forall px py, on_screen v px py -> pix v' px py = if decide (px = x /\ py = y) then c else pix v px py.
Proof. intros V O ->. destruct (index_range v x y V O) as [R B]. rewrite u64_small by lia. by apply poke_spec. Qed.

Lemma off_screen_spec v x y : vid_ok v -> off_screen v x y = bool_decide (~ on_screen v x y).
Proof.
  intros [? ? ?]. unfold off_screen, on_screen. rewrite !s64_small by lia. symmetry. case_bool_decide as D.
  - symmetry. rewrite !orb_true_iff, !Z.ltb_lt, !Z.leb_le. lia.
  - symmetry. rewrite !orb_false_iff, !Z.ltb_ge, !Z.leb_gt. lia.
Qed.

#[export] Instance on_screen_dec v px py : Decision (on_screen v px py).
Proof. unfold on_screen. apply _. Defined.

Lemma put_pixel_spec v x y c : vid_ok v -> exists v', put_pixel v x y c = Some v' /\ same_but_back v v' /\
  forall px py, on_screen v px py -> pix v' px py = if decide (px = x /\ py = y) then c else pix v px py.
Proof.
  intros V. unfold put_pixel. rewrite off_screen_spec by done. case_bool_decide as D.
  - exists v. split_and!; [done|apply same_refl|]. intros px py O. rewrite decide_False; [done|]. intros [-> ->]. done.
  - apply (poke_spec_u64 v x y); [done| |done]. destruct (decide (on_screen v x y)); tauto.
Qed.

Lemma get_pixel_spec v x y : vid_ok v -> on_screen v x y -> video_get_pixel v x y = pix v x y.
Proof.
  intros V O. unfold video_get_pixel. rewrite off_screen_spec by done. rewrite bool_decide_eq_false_2 by tauto.
  destruct (index_range v x y V O). by rewrite u64_small by lia.
Qed.

(** A loop that writes one pixel per step, at places all different. *)
Lemma pokes_spec {B} (f : video -> B -> option video) (at_ : B -> Z * Z) (col : B -> Z) (skip : B -> bool) l v : vid_ok v ->
  (forall b v', b ∈ l -> same_but_back v v' -> exists v'', f v' b = Some v'' /\ same_but_back v v'' /\
    forall px py, on_screen v px py -> pix v'' px py = if decide ((px, py) = at_ b /\ skip b = false) then col b else pix v' px py) ->
  NoDup (at_ <$> l) ->
  exists v', ofold f v l = Some v' /\ same_but_back v v' /\
    (forall px py, on_screen v px py -> (px, py) ∉ (at_ <$> filter (fun b => skip b = false) l) -> pix v' px py = pix v px py) /\
    forall b, b ∈ l -> skip b = false -> on_screen v (at_ b).1 (at_ b).2 -> pix v' (at_ b).1 (at_ b).2 = col b.
Proof.
  intros V Hf Hnd. induction l as [|b l IH] using rev_ind.
  { exists v. split_and!; [done|apply same_refl|done|]. intros b Hb. by apply not_elem_of_nil in Hb. }
  rewrite fmap_app in Hnd. apply NoDup_app in Hnd as (Hnd & Hdis & _).
  destruct IH as (v1 & E1 & S1 & Out & In_); [intros; apply Hf; [apply elem_of_app; by left|done]|done|].
  destruct (Hf b v1) as (v2 & E2 & S2 & P2); [apply elem_of_app; right; by constructor|done|].
  exists v2. rewrite ofold_app, E1. simpl. rewrite E2. simpl. split_and!; [done|done| |].
  - intros px py O Hn. rewrite P2 by done. rewrite filter_app, fmap_app, not_elem_of_app in Hn. destruct Hn as [Hn Hb].
    rewrite decide_False; [by apply Out|]. intros [Eb Sb]. apply Hb. rewrite filter_cons, decide_True by done. simpl. rewrite Eb. by constructor.
  - intros b' Hb' Sb O. rewrite P2 by done. rewrite <- surjective_pairing. apply elem_of_app in Hb' as [Hb'|Hb'%list_elem_of_singleton].
    + rewrite decide_False; [by apply In_|]. intros [Eb _]. apply (Hdis (at_ b')); [by apply list_elem_of_fmap_2|]. rewrite Eb. by constructor.
    + subst b'. by rewrite decide_True.
Qed.
End Pixels.

(** ** Drawing *)
Section Drawing.
Implicit Types (v : video) (px py x y c : Z).

Lemma glyph_cells_elem gx gy : (gx, gy) ∈ glyph_cells <-> 0 <= gx < 8 /\ 0 <= gy < 8.
Proof.
  unfold glyph_cells. rewrite list_elem_of_bind. setoid_rewrite list_elem_of_bind. setoid_rewrite elem_of_seqZ. split.
  - intros (a & (b & E & ?) & ?). apply list_elem_of_singleton in E. injection E as -> ->. lia.
  - intros [? ?]. exists gy. split; [|lia]. exists gx. split; [by constructor|lia].
Qed.

Lemma glyph_cells_nodup : NoDup glyph_cells.
Proof. apply (bool_decide_unpack _). vm_compute. exact Logic.I. Qed.

Lemma shift_nodup (l : list (Z * Z)) x y : NoDup l -> NoDup ((fun p => (x + p.1, y + p.2)) <$> l).
Proof. apply NoDup_fmap_2. intros [a b] [c d] [= ? ?]. f_equal; lia. Qed.

(** A character that fits on the screen. *)
Lemma draw_char_spec v x y c color : vid_ok v -> 0 <= c < 128 -> 0 <= x -> x + 8 <= fb_width v -> 0 <= y -> y + 8 <= fb_height v ->
  exists v', draw_char_at v x y c color = Some v' /\ drew (MkRect x y 8 8) v v' /\
    forall gx gy, 0 <= gx < 8 -> 0 <= gy < 8 -> pix v' (x + gx) (y + gy) = if Z.testbit (font8x8 c gy) gx then color else Black.
Proof.
  intros V Hc Hx Hxw Hy Hyh. unfold draw_char_at. rewrite (proj2 (Z.leb_le _ _)), (proj2 (Z.ltb_lt _ _)) by lia.
  destruct (pokes_spec (fun v '(gx, gy) => poke v (u64 (y * pitch32 v + x + gy * pitch32 v + gx)) (if Z.testbit (font8x8 c gy) gx then color else Black))
    (fun p => (x + p.1, y + p.2)) (fun p => if Z.testbit (font8x8 c p.2) p.1 then color else Black) (fun _ => false) glyph_cells v)
    as (v' & E & S & Out & In_); [done| |apply shift_nodup, glyph_cells_nodup|].
  - intros [gx gy] v1 [? ?]%glyph_cells_elem S1. pose proof (same_fields _ _ S1) as (_ & Ew & Eh & Ep & _).
    destruct (poke_spec_u64 v1 (x + gx) (y + gy) (if Z.testbit (font8x8 c gy) gx then color else Black)
      (y * pitch32 v1 + x + gy * pitch32 v1 + gx)) as (v2 & E2 & S2 & P2); [by eapply same_ok|unfold on_screen; lia|lia|].
    exists v2. split_and!; [done|by eapply same_trans|]. intros px py O. rewrite P2 by (by apply (same_on_screen v)). cbn [fst snd].
    repeat case_decide; naive_solver.
  - exists v'. split_and!; [done|split; [done|]|].
    + intros px py O Hn. apply Out; [done|]. rewrite filter_all by done. intros ([gx gy] & [= -> ->] & [? ?]%glyph_cells_elem)%list_elem_of_fmap.
      apply Hn. unfold in_rect. cbn. lia.
    + intros gx gy Hgx Hgy. apply (In_ (gx, gy)); [by apply glyph_cells_elem|done|]. unfold on_screen. cbn. lia.
Qed.

(** A row of pixels that fits on the screen. *)
Lemma pixel_line_spec v x y colors : vid_ok v -> 0 <= x -> x + Z.of_nat (length colors) <= fb_width v -> 0 <= y < fb_height v ->
  (0 < length colors)%nat ->
  exists v', video_draw_pixel_line v x y colors = Some v' /\ same_but_back v v' /\
    forall px py, on_screen v px py -> pix v' px py =
      if decide (py = y /\ x <= px < x + Z.of_nat (length colors)) then default 0 (colors !! Z.to_nat (px - x)) else pix v px py.
Proof.
  intros V Hx Hxw Hy Hl. unfold video_draw_pixel_line.
  destruct (index_range v x y V) as [R B]; [unfold on_screen; lia|]. rewrite u64_small by lia.
  set (l := imap (fun k c => (Z.of_nat k, c)) colors).
  assert (forall k c, (k, c) ∈ l <-> 0 <= k /\ colors !! Z.to_nat k = Some c) as El.
  { intros k c. unfold l. rewrite elem_of_lookup_imap. split.
    - intros (i & c' & [= -> ->] & Hi). split; [lia|]. by rewrite Nat2Z.id.
    - intros [Hk Hc]. exists (Z.to_nat k), c. split; [f_equal; lia|done]. }
  destruct (pokes_spec (fun v0 '(k, c) => poke v0 (y * pitch32 v + x + k) c) (fun p => (x + p.1, y)) (fun p => p.2) (fun _ => false) l v)
    as (v' & E & S & Out & In_); [done| | |].
  - intros [k c] v1 [Hk Hc%lookup_lt_Some]%El S1. pose proof (same_fields _ _ S1) as (_ & Ew & Eh & Ep & _).
    replace (y * pitch32 v + x + k) with (y * pitch32 v1 + (x + k)) by lia.
    destruct (poke_spec v1 (x + k) y c) as (v2 & E2 & S2 & P2); [by eapply same_ok|unfold on_screen; lia|].
    exists v2. split_and!; [done|by eapply same_trans|]. intros px py O. rewrite P2 by (by apply (same_on_screen v)). cbn [fst snd].
    repeat case_decide; naive_solver.
  - apply NoDup_fmap_2_strong; [|].
    + intros [k c] [k' c'] [Hk Hc]%El [Hk' Hc']%El [= Ek]. assert (k = k') as -> by lia. congruence.
    + unfold l. apply NoDup_alt. intros i j [k c] Hi Hj. rewrite list_lookup_imap in Hi, Hj.
      apply fmap_Some in Hi as (? & _ & [= -> ->]), Hj as (? & _ & [= ? ?]). lia.
  - exists v'. split_and!; [done|done|]. intros px py O. destruct (decide (py = y /\ x <= px < x + Z.of_nat (length colors))) as [[-> D]|D].
    + destruct (lookup_lt_is_Some_2 colors (Z.to_nat (px - x))) as [c Hc]; [lia|]. rewrite Hc. simpl.
      replace px with (x + (px - x)) by lia. apply (In_ (px - x, c)); [apply El; by split; [lia|]|done|]. unfold on_screen in *. cbn. lia.
    + apply Out; [done|]. rewrite filter_all by done. intros ([k c] & [= -> ->] & [Hk Hc%lookup_lt_Some]%El)%list_elem_of_fmap. apply D. cbn. lia.
Qed.
End Drawing.

(** ** Dirty rectangles *)
Section Dirty.
Implicit Types (v : video) (px py x y w h : Z).

(** What a new dirty rectangle adds. *)
Definition noted (r : Rect) (v v' : video) : Prop :=
  v' = with_dirty v (rect_list v') (force_full_refresh v') /\ dirty_ok v' /\
  (force_full_refresh v = true -> force_full_refresh v' = true) /\
  (force_full_refresh v' = true \/
   forall px py, on_screen v px py -> covers (rect_list v) px py \/ in_rect px py r -> covers (rect_list v') px py).

Lemma covers_app rs1 rs2 px py : covers (rs1 ++ rs2) px py <-> covers rs1 px py \/ covers rs2 px py.
Proof. apply Exists_app. Qed.

Lemma inside_covers v x y w h px py : existsb (inside x y w h) (rect_list v) = true -> vid_ok v -> dirty_ok v ->
  0 <= x -> 0 <= y -> 0 <= w -> 0 <= h -> x + w <= fb_width v -> y + h <= fb_height v ->
  in_rect px py (MkRect x y w h) -> covers (rect_list v) px py.
Proof.
  intros (r & Hr%list_elem_of_In & Hin)%existsb_exists [? ? ?] [_ Hok] ? ? ? ? ? ? HP. rewrite Forall_forall in Hok. specialize (Hok r Hr).
  apply Exists_exists. exists r. split; [done|]. unfold inside, rect_in, in_rect in *. cbn in HP.
  rewrite !(s64_small (r_w r)), !(s64_small (r_h r)) in Hin by lia.
  rewrite !s64_small in Hin by lia. rewrite !andb_true_iff, !Z.leb_le, Z.ltb_lt in Hin. lia.
Qed.

Lemma cut_neg_spec p len : - 2 ^ 60 <= p <= 2 ^ 60 -> 0 <= len <= 2 ^ 60 ->
  match cut_neg p len with
  | None => forall q, 0 <= q -> p <= q < p + len -> False
  | Some (p', len') => p' = Z.max 0 p /\ 0 <= len' <= 2 ^ 60 /\ forall q, 0 <= q -> p <= q < p + len -> p' <= q < p' + len'
  end.
Proof.
  intros Hp Hl. unfold cut_neg. rewrite s64_small by lia. destruct (Z.ltb_spec p 0); [destruct (Z.leb_spec (len + p) 0)|]; split_and?; intros; lia.
Qed.

Lemma add_dirty_spec v x y w h : vid_ok v -> dirty_ok v -> - 2 ^ 60 <= x <= 2 ^ 60 -> - 2 ^ 60 <= y <= 2 ^ 60 -> 0 <= w <= 2 ^ 60 -> 0 <= h <= 2 ^ 60 ->
  noted (MkRect x y w h) v (video_add_dirty_rect v x y w h).
Proof.
  intros V D Hx Hy Hw Hh. pose proof V as [? ? ?]. unfold video_add_dirty_rect.
  assert ((forall px py, on_screen v px py -> in_rect px py (MkRect x y w h) -> False) -> noted (MkRect x y w h) v v) as Skip.
  { intros Hf. split_and!; [by destruct v|done|done|]. right. intros px py O [C|C]; [done|]. by destruct (Hf px py O C). }
  destruct (Nat.leb_spec MAX_DIRTY_RECTS (length (rect_list v))).
  { split_and!; [done|split; [cbn; lia|constructor]|done|by left]. }
  rewrite !(s64_small (fb_width v)), !(s64_small (fb_height v)), s32_small by lia.
  destruct (Z.leb_spec (fb_width v) x); [apply Skip; unfold on_screen, in_rect; cbn; lia|].
  destruct (Z.leb_spec (fb_height v) y); [apply Skip; unfold on_screen, in_rect; cbn; lia|]. cbn [orb].
  pose proof (cut_neg_spec x w Hx Hw) as Cx. destruct (cut_neg x w) as [[x' w']|]; [destruct Cx as (Ex & Rx & Cx)|apply Skip; intros px py [? ?] [? ?]; eapply Cx; eauto; lia].
  pose proof (cut_neg_spec y h Hy Hh) as Cy. destruct (cut_neg y h) as [[y' h']|]; [destruct Cy as (Ey & Ry & Cy)|apply Skip; intros px py [? ?] [? ?]; eapply Cy; eauto; lia].
  rewrite !s64_small by lia. cbv zeta.
  set (w2 := if fb_width v <=? x' + w' then fb_width v - x' else w'). set (h2 := if fb_height v <=? y' + h' then fb_height v - y' else h').
  assert (0 <= w2 <= 2 ^ 60 /\ x' + w2 <= fb_width v /\ (w2 = w' \/ x' + w2 = fb_width v)) as Hw2 by (unfold w2; destruct (Z.leb_spec (fb_width v) (x' + w')); lia).
  assert (0 <= h2 <= 2 ^ 60 /\ y' + h2 <= fb_height v /\ (h2 = h' \/ y' + h2 = fb_height v)) as Hh2 by (unfold h2; destruct (Z.leb_spec (fb_height v) (y' + h')); lia).
  clearbody w2 h2.
  assert (forall px py, on_screen v px py -> in_rect px py (MkRect x y w h) -> in_rect px py (MkRect x' y' w2 h2)) as Sub.
  { intros px py [? ?] [Px Py]. cbn in Px, Py. apply Cx in Px; [|lia]. apply Cy in Py; [|lia]. unfold in_rect. cbn. lia. }
  destruct (existsb _ (rect_list v)) eqn:Ein.
  - split_and!; [by destruct v|done|done|]. right. intros px py O [C|C]; [done|].
    apply (inside_covers v _ _ _ _ px py Ein); [done|done|lia|lia|lia|lia|lia|lia|by apply Sub].
  - destruct D as [DL DF]. rewrite !u64_small by lia. split_and!; [done| |done|].
    + split; cbn [rect_list with_dirty]; [rewrite length_app; cbn; lia|]. apply Forall_app. split; [done|]. constructor; [unfold rect_in; cbn; lia|constructor].
    + right. intros px py O. cbn [rect_list with_dirty]. rewrite covers_app. intros [C|C]; [by left|]. right. constructor. by apply Sub.
Qed.

(** Drawing inside a rectangle and noting it keeps the screen in step. *)
Lemma drew_noted r v v1 v2 : synced v -> drew r v v1 -> noted r v1 v2 -> synced v2.
Proof.
  intros Sy [S P] (E2 & _ & Hf & Hc) px py. pose proof (same_fields _ _ S) as (Ev & Ew & Eh & Ep & Er & Ef).
  rewrite E2. unfold on_screen, shown, pix. cbn [fb_width fb_height back vram pitch32 rect_list force_full_refresh with_dirty]. rewrite Ew, Eh. intros O.
  destruct (force_full_refresh v2) eqn:F2; [by left|]. right. destruct Hc as [?|Hc]; [done|].
  destruct (decide (in_rect px py r)) as [HR|HR]; [left; apply Hc; [by apply (same_on_screen v)|by right]|].
  destruct (Sy px py O) as [F|[C|C]].
  - exfalso. rewrite <- Ef in F. specialize (Hf F). congruence.
  - left. apply Hc; [by apply (same_on_screen v)|]. left. by rewrite Er.
  - right. specialize (P px py O HR). unfold pix, shown in *. rewrite Ev, Ep in *. congruence.
Qed.

Lemma drew_ok r v v1 : drew r v v1 -> vid_ok v -> dirty_ok v -> vid_ok v1 /\ dirty_ok v1.
Proof.
  intros [S _] V [DL DF]. split; [by eapply same_ok|]. pose proof (same_fields _ _ S) as (_ & Ew & Eh & _ & Er & _).
  split; rewrite Er; [done|]. eapply Forall_impl; [exact DF|]. intros q. unfold rect_in. by rewrite Ew, Eh.
Qed.
End Dirty.

(** ** The copy to the screen *)
Section Swap.
Implicit Types (v : video) (px py x y w h : Z).

(** [v'] has copied the pixels of [P] to the screen. *)
Definition copied (P : Z -> Z -> Prop) (v v' : video) : Prop :=
  v' = with_vram v (vram v') /\ forall px py, on_screen v px py ->
    (P px py -> shown v' px py = pix v px py) /\ (~ P px py -> shown v' px py = shown v px py).

Lemma copied_refl v : copied (fun _ _ => False) v v.
Proof. split; [by destruct v|]. by intros. Qed.

Lemma copied_ok P v v' : copied P v v' -> vid_ok v -> vid_ok v'.
Proof. intros [-> _] [? ? ?]. by split. Qed.

Lemma copied_trans P Q v1 v2 v3 : (forall px py, Decision (Q px py)) -> copied P v1 v2 -> copied Q v2 v3 ->
  copied (fun px py => P px py \/ Q px py) v1 v3.
Proof.
  intros DQ [E1 H1] [E2 H2]. split; [by rewrite E2, E1|]. intros px py O. destruct (H1 px py O) as [H1a H1b].
  assert (on_screen v2 px py) as O2 by (by rewrite E1). destruct (H2 px py O2) as [H2a H2b].
  assert (pix v2 px py = pix v1 px py) as Ep by (by rewrite E1).
  destruct (DQ px py) as [q|q].
  - split; [intros _; rewrite H2a, Ep by done; done|tauto].
  - rewrite H2b by done. split; [intros [p|?]; [by apply H1a|done]|]. intros Hn. apply H1b. tauto.
Qed.

Lemma copy_row_spec v x y w : vid_ok v -> 0 <= x -> 0 <= w -> x + w <= fb_width v -> 0 <= y < fb_height v ->
  exists v', copy_out v (u64 (y * pitch32 v + x)) (u64 (w * 4)) = Some v' /\ copied (fun px py => py = y /\ x <= px < x + w) v v'.
Proof.
  intros V Hx Hw Hxw Hy. pose proof V as [? ? ?]. assert (0 <= y * pitch32 v + x <= buf_len v /\ buf_len v < 2 ^ 62) as [R B] by (unfold buf_len; nia).
  assert (y * pitch32 v + x + w <= buf_len v) as Re by (unfold buf_len; nia).
  unfold copy_out. rewrite !u64_small, Z.div_mul by lia. rewrite !(proj2 (Z.leb_le _ _)) by lia. cbn [andb]. eexists. split; [reflexivity|]. split; [reflexivity|].
  intros px py O. unfold shown, pix. cbn [vram with_vram pitch32]. pose proof O as [? ?]. split.
  - intros [-> ?]. rewrite (proj2 (Z.leb_le _ _)), (proj2 (Z.ltb_lt _ _)) by lia. done.
  - intros Hn. destruct (Z.leb_spec (y * pitch32 v + x) (py * pitch32 v + px)); [|done].
    destruct (Z.ltb_spec (py * pitch32 v + px) (y * pitch32 v + x + w)); [|done]. exfalso. apply Hn. assert (py = y) as -> by nia. lia.
Qed.

Lemma swap_rect_spec v r : vid_ok v -> rect_in v r -> exists v', swap_rect v r = Some v' /\ copied (fun px py => in_rect px py r) v v'.
Proof.
  intros V R. unfold swap_rect.
  destruct (ofold_inv (fun done v' => copied (fun px py => Exists (fun row => py = row + r_y r /\ r_x r <= px < r_x r + r_w r) done) v v')
    (fun v row => copy_out v (u64 ((row + r_y r) * pitch32 v + r_x r)) (u64 (r_w r * 4))) (seqZ 0 (r_h r)) v) as (v' & E & C).
  - destruct (copied_refl v) as [E C]. split; [done|]. intros px py O. split; [by intros ?%Exists_nil|done].
  - intros done row v1 Hp C1. assert (row ∈ seqZ 0 (r_h r)) as Hrow%elem_of_seqZ.
    { destruct Hp as [k ->]. apply elem_of_app. left. apply elem_of_app. right. by constructor. }
    unfold rect_in in R. pose proof C1 as [E1 _]. assert (fb_width v1 = fb_width v /\ fb_height v1 = fb_height v) as [Ew Eh] by (by rewrite E1).
    destruct (copy_row_spec v1 (r_x r) (row + r_y r) (r_w r)) as (v2 & E2 & C2); [by eapply copied_ok|lia..|].
    exists v2. split; [done|]. destruct (copied_trans _ _ _ _ _ _ C1 C2) as [E3 C3]. split; [done|]. intros px py O. rewrite Exists_app, Exists_cons, Exists_nil.
    destruct (C3 px py O). tauto.
  - exists v'. split; [done|]. destruct C as [E' C]. split; [done|]. intros px py O. destruct (C px py O) as [Ca Cb]. split.
    + intros [? ?]. apply Ca. apply Exists_exists. exists (py - r_y r). rewrite elem_of_seqZ. lia.
    + intros Hn. apply Cb. intros (row & Hrow%elem_of_seqZ & ? & ?)%Exists_exists. apply Hn. unfold in_rect. lia.
Qed.

#[export] Instance covers_dec rs px py : Decision (covers rs px py).
Proof. apply Exists_dec. intros r. apply _. Defined.

Lemma swap_rects_spec v rs : vid_ok v -> Forall (rect_in v) rs -> exists v', ofold swap_rect v rs = Some v' /\ copied (covers rs) v v'.
Proof.
  intros V HF. destruct (ofold_inv (fun done v' => copied (covers done) v v') swap_rect rs v) as (v' & E & C); [| |by exists v'].
  - destruct (copied_refl v) as [E C]. split; [done|]. intros px py O. split; [by intros ?%Exists_nil|done].
  - intros done r v1 Hp C1. assert (r ∈ rs) as Hr. { destruct Hp as [k ->]. apply elem_of_app. left. apply elem_of_app. right. by constructor. }
    rewrite Forall_forall in HF. pose proof C1 as [E1 _].
    destruct (swap_rect_spec v1 r) as (v2 & E2 & C2); [by eapply copied_ok|rewrite E1; by apply (HF r)|].
    exists v2. split; [done|]. destruct (copied_trans _ _ _ _ _ _ C1 C2) as [E3 C3]. split; [done|]. intros px py O. rewrite covers_app.
    unfold covers at 2 4. rewrite Exists_cons, Exists_nil. destruct (C3 px py O). tauto.
Qed.

Lemma swap_spec v : vid_ok v -> dirty_ok v -> synced v -> exists v', video_swap v = Some v' /\ v' = with_dirty (with_vram v (vram v')) [] false /\
  forall px py, on_screen v px py -> shown v' px py = pix v px py.
Proof.
  intros V [_ DF] Sy. unfold video_swap. destruct (force_full_refresh v) eqn:F.
  - pose proof V as [? ? ?]. assert (0 < buf_len v < 2 ^ 62) by (unfold buf_len; nia).
    unfold copy_out. replace (fb_height v * pitch32 v) with (buf_len v) by (unfold buf_len; lia).
    rewrite u64_small, Z.div_mul, (proj2 (Z.leb_le (0 + _) _)) by lia. cbn. eexists. split_and!; [done|done|]. intros px py O.
    destruct (index_range v px py V O). unfold shown, pix. cbn. rewrite (proj2 (Z.leb_le _ _)), (proj2 (Z.ltb_lt _ _)) by lia. done.
  - destruct (swap_rects_spec v (rect_list v) V DF) as (v' & E & E' & C). rewrite E. cbn. eexists. split_and!; [done|by rewrite E'|].
    intros px py O. destruct (C px py O) as [Ca Cb]. unfold shown in *. cbn [vram with_dirty pitch32].
    destruct (Sy px py O) as [?|[?|Hs]]; [congruence|by apply Ca|]. destruct (decide (covers (rect_list v) px py)); [by apply Ca|]. rewrite Cb by done. exact Hs.
Qed.
End Swap.

(** ** The invariant of the driver *)
Record vid_inv (v : video) : Prop := { vi_ok : vid_ok v; vi_dirty : dirty_ok v; vi_synced : synced v }.

(** Same screen size. *)
Definition same_size (v v' : video) : Prop := fb_width v' = fb_width v /\ fb_height v' = fb_height v /\ pitch32 v' = pitch32 v.

Section Invariant.
Implicit Types (v : video) (x y w h : Z).

Lemma drew_trans r r1 r2 v1 v2 v3 : drew r1 v1 v2 -> drew r2 v2 v3 ->
  (forall px py, on_screen v1 px py -> in_rect px py r1 \/ in_rect px py r2 -> in_rect px py r) -> drew r v1 v3.
Proof.
  intros [S1 P1] [S2 P2] Hr. split; [by eapply same_trans|]. intros px py O Hn.
  rewrite P2; [apply P1; [done|naive_solver]|by apply (same_on_screen v1)|naive_solver].
Qed.

Lemma add_dirty_back v x y w h : exists l f, video_add_dirty_rect v x y w h = with_dirty v l f.
Proof.
  assert (exists l f, v = with_dirty v l f) by (exists (rect_list v), (force_full_refresh v); by destruct v).
  unfold video_add_dirty_rect. destruct (_ <=? _)%nat; [by do 2 eexists|]. destruct (_ || _); [done|].
  destruct (cut_neg x w) as [[? ?]|]; [|done]. destruct (cut_neg y h) as [[? ?]|]; [|done]. destruct (existsb _ _); [done|by do 2 eexists].
Qed.

(** Drawing inside a rectangle and reporting it keeps the invariant. *)
Lemma report_inv v v1 x y w h : vid_inv v -> drew (MkRect x y w h) v v1 ->
  - 2 ^ 60 <= x <= 2 ^ 60 -> - 2 ^ 60 <= y <= 2 ^ 60 -> 0 <= w <= 2 ^ 60 -> 0 <= h <= 2 ^ 60 ->
  vid_inv (video_add_dirty_rect v1 x y w h) /\ same_size v (video_add_dirty_rect v1 x y w h) /\ back (video_add_dirty_rect v1 x y w h) = back v1.
Proof.
  intros [V D Sy] Dr Hx Hy Hw Hh. destruct (drew_ok _ _ _ Dr V D) as [V1 D1]. pose proof (add_dirty_spec v1 x y w h V1 D1 Hx Hy Hw Hh) as N.
  pose proof (drew_noted _ _ _ _ Sy Dr N) as Sy2. destruct N as (E & D2 & _). destruct Dr as [S _]. pose proof (same_fields _ _ S) as (_ & Ew & Eh & Ep & _).
  split_and!; [split; [|done|done]; rewrite E; by destruct V1|rewrite E; by unfold same_size; cbn; rewrite Ew, Eh, Ep|by rewrite E].
Qed.

Lemma draw_string_spec v x y str color : vid_ok v -> Forall (fun c => 0 <= c < 128) str -> 0 <= x -> x + 8 * Z.of_nat (length str) <= fb_width v ->
  0 <= y -> y + 8 <= fb_height v ->
  exists v' cx, draw_string v x y str color = Some (v', cx) /\ x <= cx <= x + 8 * Z.of_nat (length str) /\ drew (MkRect x y (cx - x) 8) v v'.
Proof.
  revert v x. induction str as [|c str IH]; intros v x V HF Hx Hxw Hy Hyh; cbn [draw_string length] in *.
  { exists v, x. split_and!; [done|lia|lia|]. split; [apply same_refl|done]. }
  apply Forall_cons in HF as [Hc HF]. pose proof V as [? ? ?]. destruct (Z.eqb_spec c 10).
  { destruct (IH v x) as (v' & cx & E & R & Dr); [done..|lia|lia|lia|lia|]. exists v', cx. split_and!; [done|lia|lia|done]. }
  rewrite u64_small by lia. destruct (draw_char_spec v x y c color) as (v1 & E1 & D1 & _); [done|done|lia..|]. rewrite E1. simpl.
  rewrite s32_small by lia. pose proof D1 as [S1 _]. pose proof (same_fields _ _ S1) as (_ & Ew & Eh & _).
  destruct (IH v1 (x + 8)) as (v' & cx & E & R & Dr); [by eapply same_ok|done|lia|lia|lia|lia|].
  exists v', cx. split_and!; [done|lia|lia|]. eapply drew_trans; [exact D1|exact Dr|]. unfold in_rect. cbn. lia.
Qed.

Lemma video_draw_string_inv v x y str color : vid_inv v -> Forall (fun c => 0 <= c < 128) str -> 0 <= x -> x + 8 * Z.of_nat (length str) <= fb_width v ->
  0 <= y -> y + 8 <= fb_height v -> exists v', video_draw_string v x y str color = Some v' /\ vid_inv v' /\ same_size v v'.
Proof.
  intros I HF Hx Hxw Hy Hyh. pose proof I as [[? ? ?] _ _]. unfold video_draw_string. rewrite (s32_small x) by lia.
  destruct (draw_string_spec v x y str color) as (v1 & cx & E & R & Dr); [by destruct I|done..|]. rewrite E. simpl.
  rewrite s64_small, s32_small by lia. eexists. split; [done|].
  destruct (report_inv v v1 x y (cx - x) FONT_H) as (I' & S' & _); [done|done|lia..|unfold FONT_H; lia|done].
Qed.
End Invariant.
