(* ===== verification/Cursor.v ===== *)
(** The mouse cursor, [src/src/gui/cursor.c]: it is drawn into the back buffer over pixels
    that are saved first and put back before anything else is drawn. *)
From S2P Require Import Prelude Font WinClip Window Video.

Definition CURSOR_W : Z := 12.
Definition CURSOR_H : Z := 18.

(** 0 is transparent, 1 black, 2 white. *)
Definition bitmap_arrow : list (list Z) := [
  [1; 1; 0; 0; 0; 0; 0; 0; 0; 0; 0; 0];
  [1; 2; 1; 0; 0; 0; 0; 0; 0; 0; 0; 0];
  [1; 2; 2; 1; 0; 0; 0; 0; 0; 0; 0; 0];
  [1; 2; 2; 2; 1; 0; 0; 0; 0; 0; 0; 0];
  [1; 2; 2; 2; 2; 1; 0; 0; 0; 0; 0; 0];
  [1; 2; 2; 2; 2; 2; 1; 0; 0; 0; 0; 0];
  [1; 2; 2; 2; 2; 2; 2; 1; 0; 0; 0; 0];
  [1; 2; 2; 2; 2; 2; 2; 2; 1; 0; 0; 0];
  [1; 2; 2; 2; 2; 2; 2; 2; 2; 1; 0; 0];
  [1; 2; 2; 2; 2; 2; 1; 1; 1; 1; 0; 0];
  [1; 2; 2; 2; 1; 2; 1; 0; 0; 0; 0; 0];
  [1; 2; 1; 2; 1; 2; 1; 0; 0; 0; 0; 0];
  [1; 1; 0; 1; 2; 1; 0; 0; 0; 0; 0; 0];
  [0; 0; 0; 1; 2; 1; 0; 0; 0; 0; 0; 0];
  [0; 0; 0; 0; 1; 0; 0; 0; 0; 0; 0; 0];
  [0; 0; 0; 0; 0; 0; 0; 0; 0; 0; 0; 0];
  [0; 0; 0; 0; 0; 0; 0; 0; 0; 0; 0; 0];
  [0; 0; 0; 0; 0; 0; 0; 0; 0; 0; 0; 0]].

Definition bitmap_resize_h : list (list Z) := [
  [0; 0; 0; 0; 0; 0; 0; 0; 0; 0; 0; 0];
  [0; 0; 0; 0; 0; 0; 0; 0; 0; 0; 0; 0];
  [0; 0; 0; 0; 0; 0; 0; 0; 0; 0; 0; 0];
  [0; 0; 0; 0; 0; 0; 0; 0; 0; 0; 0; 0];
  [0; 0; 0; 0; 0; 0; 0; 0; 0; 0; 0; 0];
  [0; 0; 0; 0; 0; 0; 0; 0; 0; 0; 0; 0];
  [0; 0; 0; 0; 0; 0; 0; 0; 0; 0; 0; 0];
  [0; 0; 1; 0; 0; 0; 0; 0; 0; 1; 0; 0];
  [0; 1; 2; 1; 1; 1; 1; 1; 1; 2; 1; 0];
  [1; 2; 2; 2; 2; 2; 2; 2; 2; 2; 2; 1];
  [0; 1; 2; 1; 1; 1; 1; 1; 1; 2; 1; 0];
  [0; 0; 1; 0; 0; 0; 0; 0; 0; 1; 0; 0];
  [0; 0; 0; 0; 0; 0; 0; 0; 0; 0; 0; 0];
  [0; 0; 0; 0; 0; 0; 0; 0; 0; 0; 0; 0];
  [0; 0; 0; 0; 0; 0; 0; 0; 0; 0; 0; 0];
  [0; 0; 0; 0; 0; 0; 0; 0; 0; 0; 0; 0];
  [0; 0; 0; 0; 0; 0; 0; 0; 0; 0; 0; 0];
  [0; 0; 0; 0; 0; 0; 0; 0; 0; 0; 0; 0]].

Definition bitmap_resize_v : list (list Z) := [
  [0; 0; 0; 0; 1; 0; 0; 0; 0; 0; 0; 0];
  [0; 0; 0; 1; 2; 1; 0; 0; 0; 0; 0; 0];
  [0; 0; 1; 2; 2; 2; 1; 0; 0; 0; 0; 0];
  [0; 0; 0; 1; 2; 1; 0; 0; 0; 0; 0; 0];
  [0; 0; 0; 1; 2; 1; 0; 0; 0; 0; 0; 0];
  [0; 0; 0; 1; 2; 1; 0; 0; 0; 0; 0; 0];
  [0; 0; 0; 1; 2; 1; 0; 0; 0; 0; 0; 0];
  [0; 0; 0; 1; 2; 1; 0; 0; 0; 0; 0; 0];
  [0; 0; 0; 1; 2; 1; 0; 0; 0; 0; 0; 0];
  [0; 0; 1; 2; 2; 2; 1; 0; 0; 0; 0; 0];
  [0; 0; 0; 1; 2; 1; 0; 0; 0; 0; 0; 0];
  [0; 0; 0; 0; 1; 0; 0; 0; 0; 0; 0; 0];
  [0; 0; 0; 0; 0; 0; 0; 0; 0; 0; 0; 0];
  [0; 0; 0; 0; 0; 0; 0; 0; 0; 0; 0; 0];
  [0; 0; 0; 0; 0; 0; 0; 0; 0; 0; 0; 0];
  [0; 0; 0; 0; 0; 0; 0; 0; 0; 0; 0; 0];
  [0; 0; 0; 0; 0; 0; 0; 0; 0; 0; 0; 0];
  [0; 0; 0; 0; 0; 0; 0; 0; 0; 0; 0; 0]].

Definition bitmap_move : list (list Z) := [
  [0; 0; 0; 0; 1; 0; 0; 0; 0; 0; 0; 0];
  [0; 0; 0; 1; 2; 1; 0; 0; 0; 0; 0; 0];
  [0; 0; 1; 2; 2; 2; 1; 0; 0; 0; 0; 0];
  [0; 1; 2; 2; 2; 2; 2; 1; 0; 0; 0; 0];
  [1; 2; 2; 2; 2; 2; 2; 2; 1; 0; 0; 0];
  [0; 1; 2; 2; 2; 2; 2; 1; 0; 0; 0; 0];
  [0; 0; 1; 2; 2; 2; 1; 0; 0; 0; 0; 0];
  [0; 0; 0; 1; 2; 1; 0; 0; 0; 0; 0; 0];
  [0; 0; 0; 0; 0; 0; 0; 0; 0; 0; 0; 0];
  [0; 0; 0; 0; 0; 0; 0; 0; 0; 0; 0; 0];
  [0; 0; 0; 0; 0; 0; 0; 0; 0; 0; 0; 0];
  [0; 0; 0; 0; 0; 0; 0; 0; 0; 0; 0; 0];
  [0; 0; 0; 0; 0; 0; 0; 0; 0; 0; 0; 0];
  [0; 0; 0; 0; 0; 0; 0; 0; 0; 0; 0; 0];
  [0; 0; 0; 0; 0; 0; 0; 0; 0; 0; 0; 0];
  [0; 0; 0; 0; 0; 0; 0; 0; 0; 0; 0; 0];
  [0; 0; 0; 0; 0; 0; 0; 0; 0; 0; 0; 0]].

(** [mouse_bg_buff], [curr_cursor_type], [prev_mx], [prev_my]. *)
Record cursor := Cursor { bg_buff : list Z; curr_cursor_type : CursorType; prev_mx : Z; prev_my : Z }.

(** The cells of the cursor, row by row, as the loops visit them. *)
Definition cursor_cells : list (Z * Z) := dy ← seqZ 0 CURSOR_H; dx ← seqZ 0 CURSOR_W; [(dx, dy)].

(** [mouse_bg_buff] after [cursor_save_bg]. *)
Definition cursor_save_bg (v : video) (x y : Z) : list Z :=
  (fun '(dx, dy) => video_get_pixel v (s32 (x + dx)) (s32 (y + dy))) <$> cursor_cells.

Definition cursor_restore_bg (v : video) (x y : Z) (bg : list Z) : option video :=
  ofold (fun v '(dx, dy) => c ← bg !! Z.to_nat (dy * CURSOR_W + dx); video_plot_pixel v (s32 (x + dx)) (s32 (y + dy)) c) v cursor_cells.

Definition cursor_init (v : video) (mx my : Z) : cursor := Cursor (cursor_save_bg v (s32 mx) (s32 my)) CURSOR_ARROW mx my.

Definition cursor_set_shape (c : cursor) (type : CursorType) : cursor := Cursor (bg_buff c) type (prev_mx c) (prev_my c).

Definition cursor_erase (v : video) (c : cursor) : option video :=
  v ← cursor_restore_bg v (s32 (prev_mx c)) (s32 (prev_my c)) (bg_buff c);
  Some (video_add_dirty_rect v (prev_mx c) (prev_my c) CURSOR_W CURSOR_H).

Definition cursor_bitmap (type : CursorType) : list (list Z) :=
  match type with
  | CURSOR_RESIZE_H => bitmap_resize_h
  | CURSOR_RESIZE_V => bitmap_resize_v
  | CURSOR_MOVE => bitmap_move
  | CURSOR_ARROW => bitmap_arrow
  end.

(** The value of a cell; the rows an initializer leaves out are zero. *)
Definition pix_typ (type : CursorType) (x y : Z) : Z := default 0 (row ← cursor_bitmap type !! Z.to_nat y; row !! Z.to_nat x).

Definition cursor_paint (v : video) (c : cursor) (mx my : Z) : option (video * cursor) :=
  let bg := cursor_save_bg v (s32 mx) (s32 my) in
  let type := curr_cursor_type c in
  v ← ofold (fun v '(x, y) =>
        if pix_typ type x y =? 0 then Some v
        else video_plot_pixel v (s64 (mx + x)) (s64 (my + y)) (if pix_typ type x y =? 1 then Black else White)) v cursor_cells;
  Some (video_add_dirty_rect v mx my CURSOR_W CURSOR_H, Cursor bg type mx my).

(** ** Cells *)
Section Cells.
Implicit Types (v : video) (mx my px py : Z).

Lemma cursor_cells_elem dx dy : (dx, dy) ∈ cursor_cells <-> 0 <= dx < CURSOR_W /\ 0 <= dy < CURSOR_H.
Proof.
  unfold cursor_cells. rewrite list_elem_of_bind. setoid_rewrite list_elem_of_bind. setoid_rewrite elem_of_seqZ. split.
  - intros (a & (b & E & ?) & ?). apply list_elem_of_singleton in E. injection E as -> ->. lia.
  - intros [? ?]. exists dy. split; [|lia]. exists dx. split; [by constructor|lia].
Qed.

Lemma cursor_cells_nodup : NoDup cursor_cells.
Proof. apply (bool_decide_unpack _). vm_compute. exact Logic.I. Qed.

Lemma cursor_cells_lookup dx dy : 0 <= dx < CURSOR_W -> 0 <= dy < CURSOR_H -> cursor_cells !! Z.to_nat (dy * CURSOR_W + dx) = Some (dx, dy).
Proof.
  intros Hx Hy. assert (Forall (fun p => cursor_cells !! Z.to_nat (p.2 * CURSOR_W + p.1) = Some p) cursor_cells) as HF by (apply (bool_decide_unpack _); vm_compute; exact Logic.I).
  rewrite Forall_forall in HF. apply (HF (dx, dy)). by apply cursor_cells_elem.
Qed.

(** Mouse positions the driver can give are far from the limits of an [int]. *)
Definition pos_ok (mx my : Z) : Prop := - 2 ^ 30 <= mx <= 2 ^ 30 /\ - 2 ^ 30 <= my <= 2 ^ 30.

Definition cursor_rect (mx my : Z) : Rect := MkRect mx my CURSOR_W CURSOR_H.

Lemma save_bg_lookup v mx my dx dy : pos_ok mx my -> 0 <= dx < CURSOR_W -> 0 <= dy < CURSOR_H ->
  cursor_save_bg v (s32 mx) (s32 my) !! Z.to_nat (dy * CURSOR_W + dx) = Some (video_get_pixel v (mx + dx) (my + dy)).
Proof.
  intros Pos Hx Hy. unfold cursor_save_bg. rewrite list_lookup_fmap, cursor_cells_lookup by done. unfold pos_ok, CURSOR_W, CURSOR_H in *.
  cbn. by rewrite !(s32_small mx), !(s32_small my), !s32_small by lia.
Qed.

Lemma cells_nodup mx my : NoDup ((fun p => (mx + p.1, my + p.2)) <$> cursor_cells).
Proof. apply shift_nodup, cursor_cells_nodup. Qed.

(** Putting back what was saved from [v0], on a screen of the same size. *)
Lemma restore_spec v0 v mx my : vid_ok v0 -> vid_ok v -> same_size v0 v -> pos_ok mx my ->
  exists v', cursor_restore_bg v (s32 mx) (s32 my) (cursor_save_bg v0 (s32 mx) (s32 my)) = Some v' /\ drew (cursor_rect mx my) v v' /\
    forall px py, on_screen v px py -> in_rect px py (cursor_rect mx my) -> pix v' px py = pix v0 px py.
Proof.
  intros V0 V (Ew & Eh & Ep) Pos. unfold cursor_restore_bg.
  destruct (pokes_spec (fun v '(dx, dy) => c ← cursor_save_bg v0 (s32 mx) (s32 my) !! Z.to_nat (dy * CURSOR_W + dx);
      video_plot_pixel v (s32 (s32 mx + dx)) (s32 (s32 my + dy)) c) (fun p => (mx + p.1, my + p.2))
    (fun p => video_get_pixel v0 (mx + p.1) (my + p.2)) (fun _ => false) cursor_cells v) as (v' & E & S & Out & In_); [done| |apply cells_nodup|].
  - intros [dx dy] v1 [? ?]%cursor_cells_elem S1. rewrite save_bg_lookup by done. cbn [mbind option_bind fst snd].
    unfold pos_ok, CURSOR_W, CURSOR_H in *. rewrite (s32_small mx), (s32_small my), !s32_small by lia.
    destruct (put_pixel_spec v1 (mx + dx) (my + dy) (video_get_pixel v0 (mx + dx) (my + dy))) as (v2 & E2 & S2 & P2); [by eapply same_ok|].
    exists v2. split_and!; [done|by eapply same_trans|]. intros px py O. rewrite P2 by (by apply (same_on_screen v)). repeat case_decide; naive_solver.
  - exists v'. split_and!; [done|split; [done|]|].
    + intros px py O Hn. apply Out; [done|]. rewrite filter_all by done. intros ([dx dy] & [= -> ->] & [? ?]%cursor_cells_elem)%list_elem_of_fmap.
      apply Hn. unfold in_rect. cbn. lia.
    + intros px py O [? ?]. cbn [r_x r_y r_w r_h cursor_rect] in *. pose proof (In_ (px - mx, py - my)) as Hi. cbn [fst snd] in Hi.
      rewrite !Zplus_minus in Hi. rewrite Hi; [|apply cursor_cells_elem; lia|done|done]. apply get_pixel_spec; [done|]. unfold on_screen in *. lia.
Qed.

(** Painting the cursor changes pixels of its rectangle only: the shape. *)
Lemma cursor_shape_spec v type mx my : vid_ok v -> pos_ok mx my ->
  exists v', ofold (fun v '(x, y) => if pix_typ type x y =? 0 then Some v
        else video_plot_pixel v (s64 (mx + x)) (s64 (my + y)) (if pix_typ type x y =? 1 then Black else White)) v cursor_cells = Some v' /\
    drew (cursor_rect mx my) v v' /\
    forall px py, on_screen v px py -> in_rect px py (cursor_rect mx my) -> pix v' px py =
      let t := pix_typ type (px - mx) (py - my) in if t =? 0 then pix v px py else if t =? 1 then Black else White.
Proof.
  intros V Pos. set (f := fun v '(x, y) => _).
  destruct (pokes_spec f (fun p => (mx + p.1, my + p.2)) (fun p => if pix_typ type p.1 p.2 =? 1 then Black else White)
    (fun p => pix_typ type p.1 p.2 =? 0) cursor_cells v) as (v' & E & S & Out & In_); [done| |apply cells_nodup|].
  - intros [dx dy] v1 [? ?]%cursor_cells_elem S1. unfold f. cbn [fst snd]. destruct (pix_typ type dx dy =? 0).
    { exists v1. split_and!; [done|done|]. intros px py O. by rewrite decide_False by naive_solver. }
    unfold pos_ok, CURSOR_W, CURSOR_H in *. rewrite !s64_small by lia.
    destruct (put_pixel_spec v1 (mx + dx) (my + dy) (if pix_typ type dx dy =? 1 then Black else White)) as (v2 & E2 & S2 & P2); [by eapply same_ok|].
    exists v2. split_and!; [done|by eapply same_trans|]. intros px py O. rewrite P2 by (by apply (same_on_screen v)). repeat case_decide; naive_solver.
  - exists v'. split_and!; [done|split; [done|]|].
    + intros px py O Hn. apply Out; [done|]. intros ([dx dy] & [= -> ->] & [_ [? ?]%cursor_cells_elem]%list_elem_of_filter)%list_elem_of_fmap.
      apply Hn. unfold in_rect. cbn. lia.
    + intros px py O [? ?]. cbn [r_x r_y r_w r_h cursor_rect] in *. cbv zeta. destruct (pix_typ type (px - mx) (py - my) =? 0) eqn:Et.
      * apply Out; [done|]. intros ([dx dy] & [= -> ->] & [Ht _]%list_elem_of_filter)%list_elem_of_fmap.
        cbn [fst snd] in *. replace (mx + dx - mx) with dx in Et by lia. replace (my + dy - my) with dy in Et by lia. congruence.
      * pose proof (In_ (px - mx, py - my)) as Hi. cbn [fst snd] in Hi. rewrite !Zplus_minus in Hi. apply Hi; [apply cursor_cells_elem; lia|done|done].
Qed.
End Cells.

(** ** Paint and erase *)

(** The screen is the one of [v0] with the cursor [c] on it. *)
Definition cursor_on (v0 v : video) (c : cursor) : Prop :=
  vid_ok v0 /\ same_size v0 v /\ pos_ok (prev_mx c) (prev_my c) /\ bg_buff c = cursor_save_bg v0 (s32 (prev_mx c)) (s32 (prev_my c)) /\
  forall px py, on_screen v px py -> ~ in_rect px py (cursor_rect (prev_mx c) (prev_my c)) -> pix v px py = pix v0 px py.

Section Cursor.
Implicit Types (v : video) (c : cursor) (mx my : Z).

Lemma same_back_size v v' : same_but_back v v' -> same_size v v'.
Proof. intros (_ & ? & ? & ? & _)%same_fields. done. Qed.

Lemma same_size_trans v1 v2 v3 : same_size v1 v2 -> same_size v2 v3 -> same_size v1 v3.
Proof. unfold same_size. intros (? & ? & ?) (? & ? & ?). split_and!; congruence. Qed.

Lemma size_on_screen v v' px py : same_size v v' -> on_screen v' px py <-> on_screen v px py.
Proof. intros (Ew & Eh & _). unfold on_screen. by rewrite Ew, Eh. Qed.

Lemma pix_back v v' px py : pitch32 v' = pitch32 v -> back v' = back v -> pix v' px py = pix v px py.
Proof. intros Ep Eb. unfold pix. by rewrite Ep, Eb. Qed.

Lemma cursor_paint_spec v c mx my : vid_inv v -> pos_ok mx my -> exists v' c', cursor_paint v c mx my = Some (v', c') /\ vid_inv v' /\
  cursor_on v v' c' /\ curr_cursor_type c' = curr_cursor_type c /\ prev_mx c' = mx /\ prev_my c' = my /\
  forall px py, on_screen v px py -> in_rect px py (cursor_rect mx my) -> pix v' px py =
    let t := pix_typ (curr_cursor_type c) (px - mx) (py - my) in if t =? 0 then pix v px py else if t =? 1 then Black else White.
Proof.
  intros I Pos. unfold cursor_paint. destruct (cursor_shape_spec v (curr_cursor_type c) mx my) as (v1 & E1 & D1 & P1); [by destruct I|done|].
  rewrite E1. cbn [mbind option_bind]. do 2 eexists. split; [done|]. unfold pos_ok in Pos.
  destruct (report_inv v v1 mx my CURSOR_W CURSOR_H) as (I2 & S2 & B2); [done|done|lia|lia|unfold CURSOR_W; lia|unfold CURSOR_H; lia|].
  assert (forall px py, pix (video_add_dirty_rect v1 mx my CURSOR_W CURSOR_H) px py = pix v1 px py) as Ep.
  { intros. apply pix_back; [|done]. destruct S2 as (_ & _ & ->). destruct D1 as [(_ & _ & _ & -> & _)%same_fields _]. done. }
  split_and!; [done| |done|done|done|].
  - split_and!; [by destruct I|done|done|done|]. intros px py O Hn. rewrite Ep. destruct D1 as [_ D1]. apply D1; [by apply (size_on_screen v) in O|done].
  - intros px py O Hin. rewrite Ep. by apply P1.
Qed.

Lemma cursor_erase_spec v0 v c : vid_inv v -> cursor_on v0 v c -> exists v', cursor_erase v c = Some v' /\ vid_inv v' /\ same_size v v' /\
  forall px py, on_screen v px py -> pix v' px py = pix v0 px py.
Proof.
  intros I (V0 & S0 & Pos & Ebg & Hout). unfold cursor_erase. rewrite Ebg.
  destruct (restore_spec v0 v (prev_mx c) (prev_my c)) as (v1 & E1 & D1 & P1); [done|by destruct I|done|done|].
  rewrite E1. cbn [mbind option_bind]. eexists. split; [done|]. unfold pos_ok in Pos.
  destruct (report_inv v v1 (prev_mx c) (prev_my c) CURSOR_W CURSOR_H) as (I2 & S2 & B2); [done|done|lia|lia|unfold CURSOR_W; lia|unfold CURSOR_H; lia|].
  split_and!; [done|done|]. intros px py O. rewrite (pix_back v1).
  - destruct (decide (in_rect px py (cursor_rect (prev_mx c) (prev_my c)))) as [Hin|Hn]; [by apply P1|].
    destruct D1 as [_ D1]. rewrite D1 by done. by apply Hout.
  - destruct S2 as (_ & _ & ->). destruct D1 as [(_ & _ & _ & -> & _)%same_fields _]. done.
  - done.
Qed.
End Cursor.

(** Painting the cursor shows its shape over the picture, and erasing it afterwards gives
    back every pixel of the picture, also where the cursor hangs over an edge of the screen;
    both report what they changed. *)
Theorem cursor_roundtrip (v : video) (c : cursor) (mx my : Z) : vid_inv v -> pos_ok mx my ->
  exists v1 c1 v2, cursor_paint v c mx my = Some (v1, c1) /\ vid_inv v1 /\
    (forall px py, on_screen v px py -> in_rect px py (cursor_rect mx my) -> pix v1 px py =
       let t := pix_typ (curr_cursor_type c) (px - mx) (py - my) in if t =? 0 then pix v px py else if t =? 1 then Black else White) /\
    cursor_erase v1 c1 = Some v2 /\ vid_inv v2 /\ forall px py, on_screen v px py -> pix v2 px py = pix v px py.
Proof.
  intros I Pos. destruct (cursor_paint_spec v c mx my I Pos) as (v1 & c1 & E1 & I1 & On & _ & _ & _ & P1).
  destruct (cursor_erase_spec v v1 c1 I1 On) as (v2 & E2 & I2 & _ & P2). exists v1, c1, v2. split_and!; try done.
  intros px py O. apply P2. destruct On as (_ & S & _). by apply (size_on_screen v).
Qed.

(** A screen of 20 by 20 pixels in rows of 24, cleared and shown. *)
Definition demo_video : video := Video (fun _ => 0) (fun _ => 0) 20 20 24 [] false.

Lemma demo_video_inv : vid_inv demo_video.
Proof. split; [split; cbn; lia|split; [cbn; lia|constructor]|]. intros px py _. by right; right. Qed.

Lemma cursor_roundtrip_witness : exists v1 c1 v2, cursor_paint demo_video (cursor_init demo_video 15 (-3)) 15 (-3) = Some (v1, c1) /\
  pix v1 16 0 = White /\ cursor_erase v1 c1 = Some v2 /\ pix v2 16 0 = 0.
Proof.
  destruct (cursor_roundtrip demo_video (cursor_init demo_video 15 (-3)) 15 (-3) demo_video_inv) as (v1 & c1 & v2 & E1 & _ & P1 & E2 & _ & P2); [unfold pos_ok; lia|].
  exists v1, c1, v2. split_and!; [exact E1| |exact E2|].
  - rewrite P1 by (unfold on_screen, in_rect, cursor_rect, CURSOR_W, CURSOR_H; cbn; lia). vm_compute. reflexivity.
  - rewrite P2 by (unfold on_screen; cbn; lia). reflexivity.
Defined.
