(* ===== verification/WinDraw.v ===== *)
(** The pixels of a window, [src/src/gui/window.c]: title bar, text, rectangles and bitmaps
    drawn into the buffer of the window.

    [win->pixels] is a [pixbuf]: the pixels by index and their number.  An access outside it
    is [None].  The functions that set [WIN_DIRTY] return the window too. *)
From stdpp Require Import functions.
From S2P Require Import Prelude Font WinClip Window.

Definition CHAR_W : Z := 8.
Definition CHAR_H : Z := 8.

Record pixbuf := PB { px_at : Z -> Z; px_len : Z }.

(** [pixels[i].color = c] *)
Definition set_px (b : pixbuf) (i c : Z) : option pixbuf :=
  if (0 <=? i) && (i <? px_len b) then Some (PB (<[i := c]> (px_at b)) (px_len b)) else None.

(** [memset32_sse(&pixels[i], c, n)] *)
Definition fill_run (b : pixbuf) (i n c : Z) : option pixbuf :=
  if (0 <=? i) && (i + n <=? px_len b)
  then Some (PB (fun j => if (i <=? j) && (j <? i + n) then c else px_at b j) (px_len b)) else None.

(** [memcpy_sse(&pixels[i], &buf[k], n * sizeof(uint32_t))] *)
Definition copy_run (b : pixbuf) (i : Z) (buf : list Z) (k n : Z) : option pixbuf :=
  if (0 <=? i) && (i + n <=? px_len b) && (0 <=? k) && (k + n <=? Z.of_nat (length buf))
  then Some (PB (fun j => if (i <=? j) && (j <? i + n) then default 0 (buf !! Z.to_nat (k + (j - i))) else px_at b j) (px_len b)) else None.

(** Two nested loops over rows and columns. *)
Definition paint_cells (b : pixbuf) (width : Z) (rows cols : list Z) (color : Z -> Z -> Z) : option pixbuf :=
  ofold (fun b r => ofold (fun b c => set_px b (u64 (r * width + c)) (color r c)) b cols) b rows.

(** ** Text *)

(** One row of a glyph, from column [dx] on; the loop stops at the right edge. *)
Fixpoint char_row (n : nat) (w : Window) (b : pixbuf) (glyph x yd dx fg_color bg_color : Z) : option pixbuf :=
  match n with
  | O => Some b
  | S n =>
      let width := r_w (w_rect w) in
      if width <=? u64 (x + dx) then Some b
      else
        let idx := u64 (yd * width + u64 (x + dx)) in
        b ← (if w_pixels_size w / 4 <=? idx then Some b
             else set_px b idx (if Z.testbit glyph dx then fg_color else bg_color));
        char_row n w b glyph x yd (dx + 1) fg_color bg_color
  end.

Definition char_pixels (w : Window) (b : pixbuf) (c x y fg_color bg_color : Z) : option pixbuf :=
  if (r_w (w_rect w) <=? x) || (r_h (w_rect w) <=? y) then Some b
  else if (0 <=? c) && (c <? 128) then
    ofold (fun b dy => char_row 8 w b (font8x8 c dy) x (u64 (y + dy)) 0 fg_color bg_color) b (seqZ 0 CHAR_H)
  else None.

Definition win_draw_char_at (w : Window) (b : pixbuf) (c x y fg_color bg_color : Z) : option (Window * pixbuf) :=
  b' ← char_pixels w b c x y fg_color bg_color;
  Some (if (r_w (w_rect w) <=? x) || (r_h (w_rect w) <=? y) then w else add_flag WIN_DIRTY w, b').

Fixpoint win_draw_string (w : Window) (b : pixbuf) (curr_x y : Z) (str : list Z) (fg_color bg_color : Z) : option (Window * pixbuf) :=
  match str with
  | [] => Some (w, b)
  | c :: str =>
      '(w, b) ← win_draw_char_at w b c (u64 curr_x) (u64 y) fg_color bg_color;
      win_draw_string w b (s32 (curr_x + 8)) y str fg_color bg_color
  end.

Definition win_put_char (w : Window) (b : pixbuf) (c : Z) : option (Window * pixbuf) :=
  let '(cx, cy) := w_cursor w in
  if c =? 10 then Some (set_cursor (0, s64 (cy + CHAR_H)) w, b)
  else
    let r := w_rect w in
    let '(cx, cy) :=
      if s64 (r_x r + s64 (r_w r) - WIN_BORDER_SIZE) <=? s64 (r_x r + WIN_BORDER_SIZE + cx) then (0, s64 (cy + CHAR_H)) else (cx, cy) in
    '(w, b) ← win_draw_char_at w b c (u64 (cx + WIN_BORDER_SIZE)) (u64 (cy + WIN_TITLE_BAR_HEIGHT)) Black Slate;
    Some (set_cursor (s64 (cx + CHAR_W), cy) w, b).

(** ** The frame of a window *)
Fixpoint title_text (w : Window) (b : pixbuf) (x max_title_x : Z) (title : list Z) (bar_color : Z) : option pixbuf :=
  match title with
  | [] => Some b
  | c :: title =>
      if x <? max_title_x then b ← char_pixels w b c x 5 White bar_color; title_text w b (u64 (x + CHAR_W)) max_title_x title bar_color
      else Some b
  end.

Definition btn_count (w : Window) : Z :=
  1 + (if has_flag w WIN_RESIZABLE then 1 else 0) + (if has_flag w WIN_MINIMIZABLE then 1 else 0).

Definition max_title_x (w : Window) : Z :=
  let room := btn_count w * WIN_TITLE_BAR_HEIGHT + 12 in
  if room <? r_w (w_rect w) then r_w (w_rect w) - room else 5.

(** The colours of the three buttons at a place relative to their corner. *)
Definition min_btn (rel_x rel_y : Z) : Z :=
  let btn_size := WIN_TITLE_BAR_HEIGHT in
  if (rel_y =? btn_size - 5) && (4 <=? rel_x) && (rel_x <? btn_size - 4) then Black else Yellow.

Definition max_btn (rel_x rel_y : Z) : Z :=
  let right_margin := WIN_TITLE_BAR_HEIGHT - 5 in
  let bot_margin := WIN_TITLE_BAR_HEIGHT - 5 in
  if (((rel_y =? 5) || (rel_y =? bot_margin)) && (5 <=? rel_x) && (rel_x <? right_margin)) ||
     (((rel_x =? 5) || (rel_x =? right_margin - 1)) && ((5 <=? rel_y) && (rel_y <? bot_margin))) then Black else Green.

Definition close_btn (rel_x rel_y : Z) : Z :=
  let btn_size := WIN_TITLE_BAR_HEIGHT in
  if ((rel_x =? rel_y) || (rel_x + rel_y =? btn_size - 1)) && (2 <? rel_x) && (rel_x <? btn_size - 3) then White else Red.

Definition draw_btn (b : pixbuf) (width btn_x : Z) (color : Z -> Z -> Z) : option pixbuf :=
  paint_cells b width (seqZ 0 WIN_TITLE_BAR_HEIGHT) (seqZ btn_x WIN_TITLE_BAR_HEIGHT) (fun r c => color (c - btn_x) r).

Definition draw_border (b : pixbuf) (width height : Z) : option pixbuf :=
  b ← ofold (fun b c => b ← set_px b c White; set_px b (u64 (c + width * u64 (height - 1))) White) b (seqZ 0 width);
  ofold (fun b r => b ← set_px b (u64 (r * width)) White; set_px b (u64 (r * width + width - 1)) White) b (seqZ 0 height).

(** What [win_redraw_titlebar] draws; [top] when the window is [g_win_top]. *)
Definition titlebar_pixels (w : Window) (b : pixbuf) (top : bool) (title : option (list Z)) : option pixbuf :=
  let width := r_w (w_rect w) in
  let bar_color := if top then Blue else Navy in
  b ← paint_cells b width (seqZ 0 WIN_TITLE_BAR_HEIGHT) (seqZ 0 width) (fun _ _ => bar_color);
  b ← (match title with
       | None => Some b
       | Some t => title_text w b 5 (max_title_x w) t bar_color
       end);
  b ← (if has_flag w WIN_MINIMIZABLE then draw_btn b width (s32 (s32 width - 3 * WIN_TITLE_BAR_HEIGHT)) min_btn else Some b);
  b ← (if has_flag w WIN_RESIZABLE then draw_btn b width (s32 (s32 width - 2 * WIN_TITLE_BAR_HEIGHT)) max_btn else Some b);
  b ← draw_btn b width (s64 (width - WIN_TITLE_BAR_HEIGHT)) close_btn;
  draw_border b width (r_h (w_rect w)).

(** What [init_win_pixels] draws. *)
Definition init_pixels (w : Window) (b : pixbuf) (top : bool) (title : option (list Z)) : option pixbuf :=
  let width := r_w (w_rect w) in
  let start_r := if has_flag w WIN_BORDERLESS then 0 else WIN_TITLE_BAR_HEIGHT in
  b ← paint_cells b width (seqZ start_r (r_h (w_rect w) - start_r)) (seqZ 0 width) (fun _ _ => Slate);
  if has_flag w WIN_BORDERLESS then Some b else titlebar_pixels w b top title.

(** ** Rectangles and bitmaps *)

(** Client coordinates cut to the window, the same text in [win_fill_rect] and
    [win_draw_bitmap]: place, size and what is left out at the left and top. *)
Definition clip_client (win : Window) (client_x client_y w h : Z) : option (Z * Z * Z * Z * Z * Z) :=
  let width := s32 (r_w (w_rect win)) in
  let height := s32 (r_h (w_rect win)) in
  let '(x, y, l_lim, r_lim, t_lim, b_lim) :=
    if has_flag win WIN_BORDERLESS then (client_x, client_y, 0, width, 0, height)
    else (s32 (client_x + WIN_BORDER_SIZE), s32 (client_y + (WIN_TITLE_BAR_HEIGHT + WIN_BORDER_SIZE)), WIN_BORDER_SIZE,
          s32 (width - WIN_BORDER_SIZE), WIN_TITLE_BAR_HEIGHT + WIN_BORDER_SIZE, s32 (height - WIN_BORDER_SIZE)) in
  if (r_lim <=? x) || (b_lim <=? y) then None
  else
    let draw_w := if r_lim <? s32 (x + w) then s32 (r_lim - x) else w in
    let draw_h := if b_lim <? s32 (y + h) then s32 (b_lim - y) else h in
    let '(x, draw_w, buf_off_x) := if x <? l_lim then (l_lim, s32 (draw_w - s32 (l_lim - x)), s32 (l_lim - x)) else (x, draw_w, 0) in
    let '(y, draw_h, buf_off_y) := if y <? t_lim then (t_lim, s32 (draw_h - s32 (t_lim - y)), s32 (t_lim - y)) else (y, draw_h, 0) in
    if (draw_w <=? 0) || (draw_h <=? 0) then None else Some (x, y, draw_w, draw_h, buf_off_x, buf_off_y).

Definition win_fill_rect (win : Window) (b : pixbuf) (client_x client_y w h color : Z) : option (Window * pixbuf) :=
  match clip_client win client_x client_y w h with
  | None => Some (win, b)
  | Some (x, y, draw_w, draw_h, _, _) =>
      b ← ofold (fun b r => fill_run b (u64 (s32 (y + r) * r_w (w_rect win) + x)) draw_w color) b (seqZ 0 draw_h);
      Some (add_flag WIN_DIRTY win, b)
  end.

Definition win_draw_bitmap (win : Window) (b : pixbuf) (client_x client_y w h : Z) (buf : list Z) : option (Window * pixbuf) :=
  match clip_client win client_x client_y w h with
  | None => Some (win, b)
  | Some (x, y, draw_w, draw_h, buf_off_x, buf_off_y) =>
      b ← ofold (fun b r =>
            copy_run b (u64 (s32 (y + r) * r_w (w_rect win) + x)) buf (u64 (s32 (s32 (s32 (r + buf_off_y) * w) + buf_off_x))) draw_w) b (seqZ 0 draw_h);
      Some (add_flag WIN_DIRTY win, b)
  end.

(** [sys_draw_rect] on the window of the caller. *)
Definition sys_draw_rect (win : option Window) (b : pixbuf) (arg1 arg2 arg3 arg4 arg5 : Z) : option (Z * option Window * pixbuf) :=
  let x := s32 arg1 in let y := s32 arg2 in let w := s32 arg3 in let h := s32 arg4 in
  match win with
  | None => Some (u64 (-1), None, b)
  | Some wn =>
      let '(win_w, win_h) := win_get_client_size wn in
      let '(x, w) := if x <? 0 then (0, s32 (w + x)) else (x, w) in
      let '(y, h) := if y <? 0 then (0, s32 (h + y)) else (y, h) in
      if (w <=? 0) || (h <=? 0) then Some (0, win, b)
      else
        let w := if win_w <? s32 (x + w) then s32 (win_w - x) else w in
        let h := if win_h <? s32 (y + h) then s32 (win_h - y) else h in
        if (w <=? 0) || (h <=? 0) then Some (0, win, b)
        else '(wn, b) ← win_fill_rect wn b x y w h (u32 arg5); Some (0, Some wn, b)
  end.

(** ** The taskbar, drawn into the desktop [d] *)
Definition desktop_fill_rect_raw (d : Window) (b : pixbuf) (x y w h color : Z) : option pixbuf :=
  let max_w := s32 (r_w (w_rect d)) in
  let max_h := s32 (r_h (w_rect d)) in
  let '(x, w) := if x <? 0 then (0, s32 (w + x)) else (x, w) in
  let '(y, h) := if y <? 0 then (0, s32 (h + y)) else (y, h) in
  let w := if max_w <? s32 (x + w) then s32 (max_w - x) else w in
  let h := if max_h <? s32 (y + h) then s32 (max_h - y) else h in
  if (w <=? 0) || (h <=? 0) then Some b
  else ofold (fun b r => fill_run b (u64 (u64 (s32 (y + r)) * r_w (w_rect d) + u64 x)) (u64 w) color) b (seqZ 0 h).

Definition draw_taskbar_button (d : Window) (b : pixbuf) (x y w h : Z) (label : list Z) (bg fg border : Z) : option (Window * pixbuf) :=
  b ← desktop_fill_rect_raw d b x y w h border;
  b ← desktop_fill_rect_raw d b (s32 (x + 1)) (s32 (y + 1)) (s32 (w - 2)) (s32 (h - 2)) bg;
  let max_chars := Z.quot (s32 (w - 8)) CHAR_W in
  let truncated := take (Z.to_nat (Z.min max_chars 31)) label in
  win_draw_string d b (s32 (x + 5)) (s32 (y + Z.quot (s32 (h - CHAR_H)) 2)) truncated fg bg.

(** A window as the taskbar shows it: its record, its title, and whether it is on top. *)
Definition taskbar_win := (Window * option (list Z) * bool)%type.

(** ["Window"] *)
Definition no_title : list Z := [87; 105; 110; 100; 111; 119].

Fixpoint taskbar_windows (d : Window) (b : pixbuf) (btn_y btn_h curr_x max_x : Z) (ws : list taskbar_win) : option (Window * pixbuf) :=
  match ws with
  | [] => Some (d, b)
  | (w, title, top) :: ws =>
      if negb (has_flag w WIN_BORDERLESS) && (curr_x + 104 <=? max_x) then
        let minimized := bool_decide (w_state w = WIN_STATE_MINIMIZED) in
        let is_focused := top && negb minimized in
        let bg := if is_focused then Blue else if minimized then 0xFF282828 else Slate in
        let fg := if minimized then Yellow else White in
        let border := if is_focused then Yellow else LightGray in
        '(d, b) ← draw_taskbar_button d b curr_x btn_y 100 btn_h (default no_title title) bg fg border;
        taskbar_windows d b btn_y btn_h (curr_x + 104) max_x ws
      else taskbar_windows d b btn_y btn_h curr_x max_x ws
  end.

(** ["+Term"], ["Snake"], ["Clock"] *)
Definition launch_labels : list (list Z) := [[43; 84; 101; 114; 109]; [83; 110; 97; 107; 101]; [67; 108; 111; 99; 107]].

(** What [win_draw_taskbar] draws. *)
Definition taskbar_pixels (d : Window) (b : pixbuf) (ws : list taskbar_win) : option (Window * pixbuf) :=
  let scrn_w := s32 (r_w (w_rect d)) in
  let bar_y := s32 (s32 (r_h (w_rect d)) - TASKBAR_HEIGHT) in
  b ← desktop_fill_rect_raw d b 0 bar_y scrn_w TASKBAR_HEIGHT 0xFF1A2228;
  b ← desktop_fill_rect_raw d b 0 bar_y scrn_w 1 White;
  let btn_y := s32 (bar_y + 4) in
  let btn_h := TASKBAR_HEIGHT - 8 in
  let label k := default [] (launch_labels !! k) in
  '(d, b) ← draw_taskbar_button d b 4 btn_y 62 btn_h (label 0%nat) Green Black White;
  '(d, b) ← draw_taskbar_button d b 70 btn_y 62 btn_h (label 1%nat) Orange Black White;
  '(d, b) ← draw_taskbar_button d b 136 btn_y 62 btn_h (label 2%nat) Cyan Black White;
  b ← desktop_fill_rect_raw d b 204 btn_y 2 btn_h Gray;
  '(d, b) ← taskbar_windows d b btn_y btn_h 212 (s32 (scrn_w - 84)) ws;
  Some (add_flag WIN_DIRTY d, b).
