(* ===== verification/WinPixels.v ===== *)
(** What the functions of [WinDraw] leave in the buffer of a window, and that they stay in it.

    A drawing function is described by an overlay: the colour it gives a place, or [None]
    where it leaves the old one. *)
From stdpp Require Import functions.
From S2P Require Import Prelude Font WinClip Window WinDraw.

Definition overlay := Z -> Z -> option Z.

(** [o2] drawn after [o1]. *)
Definition over (o2 o1 : overlay) : overlay := fun px py => match o2 px py with Some c => Some c | None => o1 px py end.

Definition clear_overlay : overlay := fun _ _ => None.
Definition single (x y c : Z) : overlay := fun px py => if decide (px = x /\ py = y) then Some c else None.
Definition box (x y w h : Z) (col : Z -> Z -> Z) : overlay :=
  fun px py => if decide (x <= px < x + w /\ y <= py < y + h) then Some (col px py) else None.

Section Overlays.
Context (width height : Z).

Definition in_win (px py : Z) : Prop := 0 <= px < width /\ 0 <= py < height.
Definition pixel (b : pixbuf) (px py : Z) : Z := px_at b (py * width + px).

Record pb_ok (b : pixbuf) : Prop := {
  pb_w : 0 < width < 2 ^ 30; pb_h : 0 < height < 2 ^ 30; pb_len : px_len b = width * height }.

(** The buffer with the overlay on it. *)
Definition painted (o : overlay) (b b' : pixbuf) : Prop :=
  px_len b' = px_len b /\ forall px py, in_win px py -> pixel b' px py = default (pixel b px py) (o px py).

Lemma painted_ok o b b' : painted o b b' -> pb_ok b -> pb_ok b'.
Proof. intros [E _] [? ? ?]. split; [done|done|congruence]. Qed.

Lemma painted_clear b : painted clear_overlay b b.
Proof. done. Qed.

Lemma painted_trans o1 o2 b1 b2 b3 : painted o1 b1 b2 -> painted o2 b2 b3 -> painted (over o2 o1) b1 b3.
Proof.
  intros [E1 H1] [E2 H2]. split; [congruence|]. intros px py O. rewrite H2 by done. unfold over. destruct (o2 px py); [done|]. simpl. by apply H1.
Qed.

Lemma painted_ext o o' b b' : painted o b b' -> (forall px py, in_win px py -> o px py = o' px py) -> painted o' b b'.
Proof. intros [E H] Ho. split; [done|]. intros px py O. rewrite H by done. by rewrite Ho. Qed.

(** A loop whose steps agree with one overlay and together cover it. *)
Lemma painted_loop {B} (f : pixbuf -> B -> option pixbuf) (o : B -> overlay) (O : overlay) l b : pb_ok b ->
  (forall x b', x ∈ l -> pb_ok b' -> exists b'', f b' x = Some b'' /\ painted (o x) b' b'') ->
  (forall px py, in_win px py -> (forall x, x ∈ l -> o x px py = None \/ o x px py = O px py) /\
     (O px py = None \/ exists x, x ∈ l /\ o x px py = O px py)) ->
  exists b', ofold f b l = Some b' /\ painted O b b'.
Proof.
  intros Hb Hf HO.
  destruct (ofold_inv (fun done b' => pb_ok b' /\ px_len b' = px_len b /\ forall px py, in_win px py ->
    (pixel b' px py = pixel b px py /\ forall x, x ∈ done -> o x px py = None) \/ pixel b' px py = default (pixel b px py) (O px py)) f l b)
    as (b' & E & Ok & L & P).
  - split_and!; [done|done|]. intros px py _. left. split; [done|]. intros x Hx. by apply not_elem_of_nil in Hx.
  - intros done x b1 Hp (Ok & L & P). assert (x ∈ l) as Hx. { destruct Hp as [k ->]. apply elem_of_app. left. apply elem_of_app. right. by constructor. }
    destruct (Hf x b1 Hx Ok) as (b2 & E2 & P2). exists b2. split; [done|]. split_and!; [by eapply painted_ok|destruct P2; congruence|].
    intros px py Oin. destruct P2 as [_ P2]. rewrite P2 by done. destruct (HO px py Oin) as [Ha _]. destruct (Ha x Hx) as [En|Es].
    + rewrite En. simpl. destruct (P px py Oin) as [[E1 N]|E1]; [left|by right]. split; [done|]. intros y [Hy|Hy%list_elem_of_singleton]%elem_of_app; [by apply N|by subst].
    + rewrite Es. destruct (O px py) as [c|] eqn:EO; [by right|]. simpl. right. specialize (P px py Oin). rewrite EO in P. destruct P as [[E1 _]|E1]; exact E1.
  - exists b'. split; [done|]. split; [done|]. intros px py Oin. destruct (P px py Oin) as [[E1 N]|E1]; [|done]. rewrite E1.
    destruct (HO px py Oin) as [_ [En|(x & Hx & Ex)]]; [by rewrite En|]. rewrite <- Ex, (N x Hx). done.
Qed.

Lemma px_range b px py : pb_ok b -> in_win px py -> 0 <= py * width + px < px_len b /\ px_len b < 2 ^ 60.
Proof. intros [? ? ->] [? ?]. nia. Qed.

Lemma px_inj px py x y : in_win px py -> in_win x y -> py * width + px = y * width + x -> px = x /\ py = y.
Proof. intros [? ?] [? ?] E. assert (py = y) as -> by nia. lia. Qed.

Lemma set_px_spec b x y c i : pb_ok b -> in_win x y -> i = y * width + x -> exists b', set_px b (u64 i) c = Some b' /\ painted (single x y c) b b'.
Proof.
  intros Hb O ->. destruct (px_range b x y Hb O) as [R B]. rewrite u64_small by lia. unfold set_px.
  rewrite (proj2 (Z.leb_le _ _)), (proj2 (Z.ltb_lt _ _)) by lia. eexists. split; [done|]. split; [done|]. intros px py Op.
  unfold pixel, single. cbn [px_at]. destruct (decide (px = x /\ py = y)) as [[-> ->]|D].
  - by rewrite fn_lookup_insert.
  - rewrite fn_lookup_insert_ne; [done|]. intros E. apply D. by apply px_inj.
Qed.

Lemma paint_cells_spec b r0 nr c0 nc color : pb_ok b -> 0 <= r0 -> r0 + nr <= height -> 0 <= c0 -> c0 + nc <= width ->
  exists b', paint_cells b width (seqZ r0 nr) (seqZ c0 nc) color = Some b' /\ painted (box c0 r0 nc nr (fun px py => color py px)) b b'.
Proof.
  intros Hb ? ? ? ?. unfold paint_cells. eapply (painted_loop _ (fun r => box c0 r nc 1 (fun px py => color py px))); [done| |].
  - intros r b1 [? ?]%elem_of_seqZ Hb1. eapply (painted_loop _ (fun c => single c r (color r c))); [done| |].
    + intros c b2 [? ?]%elem_of_seqZ Hb2. apply set_px_spec; [done|unfold in_win; lia|done].
    + intros px py O. unfold single, box. split.
      * intros c [? ?]%elem_of_seqZ. case_decide as D; [right|by left]. destruct D as [-> ->]. rewrite decide_True by lia. done.
      * case_decide as D; [right|by left]. exists px. rewrite elem_of_seqZ. split; [lia|]. assert (py = r) as -> by lia. by rewrite decide_True.
  - intros px py O. unfold box. split.
    + intros r [? ?]%elem_of_seqZ. repeat case_decide; first [by left|by right|lia].
    + case_decide as D; [right|by left]. exists py. rewrite elem_of_seqZ. split; [lia|]. rewrite decide_True by lia. done.
Qed.

(** A run of pixels of one row. *)
Lemma run_pixel x y n px py : in_win px py -> 0 <= x -> x + n <= width -> 0 <= y < height ->
  (y * width + x <=? py * width + px) && (py * width + px <? y * width + x + n) = bool_decide (x <= px < x + n /\ y <= py < y + 1).
Proof.
  intros [? ?] ? ? ?. case_bool_decide as D.
  - assert (py = y) as -> by lia. rewrite andb_true_iff, Z.leb_le, Z.ltb_lt. lia.
  - apply not_true_is_false. rewrite andb_true_iff, Z.leb_le, Z.ltb_lt. intros [? ?]. apply D. assert (py = y) by nia. subst. lia.
Qed.

Lemma run_bounds b x y n : pb_ok b -> 0 <= x -> 0 < n -> x + n <= width -> 0 <= y < height ->
  0 <= y * width + x /\ y * width + x + n <= px_len b /\ px_len b < 2 ^ 60.
Proof. intros [? ? ->] ? ? ? ?. split_and!; nia. Qed.

Lemma fill_run_spec b x y n c : pb_ok b -> 0 <= x -> 0 < n -> x + n <= width -> 0 <= y < height ->
  exists b', fill_run b (u64 (y * width + x)) n c = Some b' /\ painted (box x y n 1 (fun _ _ => c)) b b'.
Proof.
  intros Hb ? ? ? ?. destruct (run_bounds b x y n) as (? & ? & ?); [done..|]. rewrite u64_small by lia.
  unfold fill_run. rewrite !(proj2 (Z.leb_le _ _)) by lia. cbn [andb]. eexists. split; [reflexivity|]. split; [done|]. intros px py O.
  unfold pixel, box. cbn [px_at]. rewrite run_pixel by done. case_bool_decide as D; [rewrite decide_True|rewrite decide_False]; done.
Qed.

Lemma copy_run_spec b x y n buf k : pb_ok b -> 0 <= x -> 0 < n -> x + n <= width -> 0 <= y < height -> 0 <= k -> k + n <= Z.of_nat (length buf) ->
  exists b', copy_run b (u64 (y * width + x)) buf k n = Some b' /\
    painted (box x y n 1 (fun px _ => default 0 (buf !! Z.to_nat (k + (px - x))))) b b'.
Proof.
  intros Hb ? ? ? ? ? ?. destruct (run_bounds b x y n) as (? & ? & ?); [done..|]. rewrite u64_small by lia.
  unfold copy_run. rewrite !(proj2 (Z.leb_le _ _)) by lia. cbn [andb]. eexists. split; [reflexivity|]. split; [done|]. intros px py O.
  unfold pixel, box. cbn [px_at]. rewrite run_pixel by done. case_bool_decide as D; [rewrite decide_True by done|by rewrite decide_False].
  assert (py = y) as -> by lia. simpl. do 3 f_equal. lia.
Qed.
End Overlays.

(** ** Rectangles and bitmaps *)

(** The part of a window its owner draws on: left, top, right and bottom limits. *)
Definition client_left (w : Window) : Z := if has_flag w WIN_BORDERLESS then 0 else WIN_BORDER_SIZE.
Definition client_top (w : Window) : Z := if has_flag w WIN_BORDERLESS then 0 else WIN_TITLE_BAR_HEIGHT + WIN_BORDER_SIZE.
Definition client_right (w : Window) : Z := if has_flag w WIN_BORDERLESS then r_w (w_rect w) else r_w (w_rect w) - WIN_BORDER_SIZE.
Definition client_bottom (w : Window) : Z := if has_flag w WIN_BORDERLESS then r_h (w_rect w) else r_h (w_rect w) - WIN_BORDER_SIZE.

(** A place of the window inside a rectangle in client coordinates, cut to the client area. *)
Definition drawn (win : Window) (cx cy w h px py : Z) : Prop :=
  client_left win <= px < client_right win /\ client_top win <= py < client_bottom win /\
  client_left win + cx <= px < client_left win + cx + w /\ client_top win + cy <= py < client_top win + cy + h.

#[export] Instance drawn_dec win cx cy w h px py : Decision (drawn win cx cy w h px py).
Proof. unfold drawn. apply _. Defined.

(** Coordinates far from the limits of an [int]. *)
Definition small (z : Z) : Prop := - 2 ^ 30 <= z < 2 ^ 30.

(** [int] arithmetic that does not wrap. *)
Ltac narrow32 := repeat match goal with |- context [s32 ?e] => rewrite (s32_small e) by lia end.

Section Client.
Implicit Types (win : Window) (b : pixbuf) (w h x y : Z).

Lemma clip_client_spec win cx cy w h : 0 < r_w (w_rect win) < 2 ^ 30 -> 0 < r_h (w_rect win) < 2 ^ 30 ->
  small cx -> small cy -> small w -> small h ->
  match clip_client win cx cy w h with
  | None => forall px py, ~ drawn win cx cy w h px py
  | Some (x, y, dw, dh, ox, oy) =>
      x = Z.max (client_left win) (client_left win + cx) /\ ox = x - (client_left win + cx) /\ 0 < dw /\
      x + dw = Z.min (client_right win) (client_left win + cx + w) /\
      y = Z.max (client_top win) (client_top win + cy) /\ oy = y - (client_top win + cy) /\ 0 < dh /\
      y + dh = Z.min (client_bottom win) (client_top win + cy + h)
  end.
Proof.
  unfold small, clip_client, drawn, client_left, client_right, client_top, client_bottom, WIN_BORDER_SIZE, WIN_TITLE_BAR_HEIGHT.
  intros ? ? ? ? ? ?. rewrite !(s32_small (r_w _)), !(s32_small (r_h _)) by lia.
  destruct (has_flag win WIN_BORDERLESS); narrow32;
  match goal with |- context [if ?c then None else _] => destruct c eqn:E0 end; try (intros; lia);
  repeat (narrow32; match goal with |- context [if ?a <? ?c then _ else _] => destruct (Z.ltb_spec a c) end); narrow32;
  match goal with |- context [if ?c then None else _] => destruct c eqn:E1 end; try (intros; lia); lia.
Qed.

Lemma client_in_win win : 0 <= client_left win /\ 0 <= client_top win /\ client_right win <= r_w (w_rect win) /\ client_bottom win <= r_h (w_rect win).
Proof. unfold client_left, client_right, client_top, client_bottom, WIN_BORDER_SIZE, WIN_TITLE_BAR_HEIGHT. destruct (has_flag _ _); lia. Qed.

(** The window after drawing: marked dirty, or as it was. *)
Definition maybe_dirty win win' : Prop := win' = win \/ win' = add_flag WIN_DIRTY win.

Lemma fill_rect_spec win b cx cy w h color : pb_ok (r_w (w_rect win)) (r_h (w_rect win)) b -> small cx -> small cy -> small w -> small h ->
  exists win' b', win_fill_rect win b cx cy w h color = Some (win', b') /\ maybe_dirty win win' /\
    painted (r_w (w_rect win)) (r_h (w_rect win)) (fun px py => if decide (drawn win cx cy w h px py) then Some color else None) b b'.
Proof.
  intros Hb Hcx Hcy Hw Hh. unfold win_fill_rect. pose proof Hb as [? ? _].
  pose proof (clip_client_spec win cx cy w h) as C. pose proof (client_in_win win) as CW. destruct (clip_client win cx cy w h) as [[[[[[x y] dw] dh] ox] oy]|].
  - destruct C as (Ex & _ & ? & Ew & Ey & _ & ? & Eh); [done..|]. unfold small in *.
    destruct (painted_loop (r_w (w_rect win)) (r_h (w_rect win)) (fun b r => fill_run b (u64 (s32 (y + r) * r_w (w_rect win) + x)) dw color)
      (fun r => box x (y + r) dw 1 (fun _ _ => color)) (fun px py => if decide (drawn win cx cy w h px py) then Some color else None) (seqZ 0 dh) b)
      as (b' & E & P); [done| | |].
    + intros r b1 [? ?]%elem_of_seqZ Hb1. narrow32. eapply fill_run_spec; [done|lia..].
    + intros px py O. unfold box. split.
      * intros r [? ?]%elem_of_seqZ. case_decide as D; [right|by left]. rewrite decide_True; [done|]. unfold drawn. lia.
      * case_decide as D; [right|by left]. unfold drawn in D. exists (py - y). rewrite elem_of_seqZ. split; [lia|]. rewrite decide_True by lia. done.
    + rewrite E. simpl. do 2 eexists. split_and!; [done|by right|done].
  - do 2 eexists. split_and!; [done|by left|]. eapply painted_ext; [apply painted_clear|]. intros px py _. rewrite decide_False; [done|]. by apply C.
Qed.

Lemma draw_bitmap_spec win b cx cy w h buf : pb_ok (r_w (w_rect win)) (r_h (w_rect win)) b -> small cx -> small cy -> small w -> small h ->
  w * h < 2 ^ 31 -> Z.of_nat (length buf) = w * h ->
  exists win' b', win_draw_bitmap win b cx cy w h buf = Some (win', b') /\ maybe_dirty win win' /\
    painted (r_w (w_rect win)) (r_h (w_rect win)) (fun px py => if decide (drawn win cx cy w h px py)
      then Some (default 0 (buf !! Z.to_nat ((py - (client_top win + cy)) * w + (px - (client_left win + cx))))) else None) b b'.
Proof.
  intros Hb Hcx Hcy Hw Hh Hwh Hl. unfold win_draw_bitmap. pose proof Hb as [? ? _].
  pose proof (clip_client_spec win cx cy w h) as C. pose proof (client_in_win win) as CW. destruct (clip_client win cx cy w h) as [[[[[[x y] dw] dh] ox] oy]|].
  - destruct C as (Ex & Eox & ? & Ew & Ey & Eoy & ? & Eh); [done..|]. unfold small in *.
    assert (forall r, 0 <= r < dh -> 0 <= (r + oy) * w + ox /\ (r + oy) * w + ox + dw <= w * h /\ 0 <= (r + oy) * w) as Src by (intros; nia).
    destruct (painted_loop (r_w (w_rect win)) (r_h (w_rect win))
      (fun b r => copy_run b (u64 (s32 (y + r) * r_w (w_rect win) + x)) buf (u64 (s32 (s32 (s32 (r + oy) * w) + ox))) dw)
      (fun r => box x (y + r) dw 1 (fun px _ => default 0 (buf !! Z.to_nat ((r + oy) * w + ox + (px - x)))))
      (fun px py => if decide (drawn win cx cy w h px py)
        then Some (default 0 (buf !! Z.to_nat ((py - (client_top win + cy)) * w + (px - (client_left win + cx))))) else None) (seqZ 0 dh) b)
      as (b' & E & P); [done| | |].
    + intros r b1 [? ?]%elem_of_seqZ Hb1. destruct (Src r) as (? & ? & ?); [lia|]. narrow32. rewrite (u64_small ((r + oy) * w + ox)) by lia.
      eapply copy_run_spec; [done|lia..].
    + intros px py O. unfold box. split.
      * intros r [? ?]%elem_of_seqZ. case_decide as D; [right|by left]. rewrite decide_True by (unfold drawn; lia). do 4 f_equal. assert (py = y + r) as -> by lia. lia.
      * case_decide as D; [right|by left]. unfold drawn in D. exists (py - y). rewrite elem_of_seqZ. split; [lia|]. rewrite decide_True by lia. do 4 f_equal. lia.
    + rewrite E. simpl. do 2 eexists. split_and!; [done|by right|done].
  - do 2 eexists. split_and!; [done|by left|]. eapply painted_ext; [apply painted_clear|]. intros px py _. rewrite decide_False; [done|]. by apply C.
Qed.

(** The client area in the coordinates of the owner. *)
Lemma client_size_spec win : 0 < r_w (w_rect win) < 2 ^ 30 -> 0 < r_h (w_rect win) < 2 ^ 30 ->
  win_get_client_size win = (client_right win - client_left win, client_bottom win - client_top win).
Proof.
  intros ? ?. unfold win_get_client_size, client_right, client_left, client_bottom, client_top, WIN_BORDER_SIZE, WIN_TITLE_BAR_HEIGHT.
  destruct (has_flag win WIN_BORDERLESS); rewrite !s32_small by lia; f_equal; lia.
Qed.

Lemma sys_draw_rect_spec win b x y w h color : pb_ok (r_w (w_rect win)) (r_h (w_rect win)) b -> small x -> small y -> small w -> small h ->
  exists win' b', sys_draw_rect (Some win) b (u64 x) (u64 y) (u64 w) (u64 h) (u64 color) = Some (0, Some win', b') /\ maybe_dirty win win' /\
    painted (r_w (w_rect win)) (r_h (w_rect win)) (fun px py => if decide (drawn win x y w h px py) then Some (u32 (u64 color)) else None) b b'.
Proof.
  intros Hb Hx Hy Hw Hh. pose proof Hb as [? ? _]. unfold small in *. unfold sys_draw_rect.
  rewrite !s32_u64 by lia. rewrite client_size_spec by done. pose proof (client_in_win win) as CW.
  assert (- 2 ^ 30 <= client_right win - client_left win < 2 ^ 30 /\ - 2 ^ 30 <= client_bottom win - client_top win < 2 ^ 30) as [? ?].
  { unfold client_right, client_left, client_bottom, client_top, WIN_BORDER_SIZE, WIN_TITLE_BAR_HEIGHT. destruct (has_flag _ _); lia. }
  set (x1 := if x <? 0 then 0 else x). set (w1 := if x <? 0 then s32 (w + x) else w). set (y1 := if y <? 0 then 0 else y). set (h1 := if y <? 0 then s32 (h + y) else h).
  replace (if x <? 0 then (0, s32 (w + x)) else (x, w)) with (x1, w1) by (unfold x1, w1; by destruct (x <? 0)).
  replace (if y <? 0 then (0, s32 (h + y)) else (y, h)) with (y1, h1) by (unfold y1, h1; by destruct (y <? 0)).
  assert (x1 = Z.max 0 x /\ x1 + w1 = x + w /\ - 2 ^ 31 <= w1 < 2 ^ 30) as (Ex1 & Ew1 & Rw1) by (unfold x1, w1; destruct (Z.ltb_spec x 0); rewrite ?s32_small by lia; lia).
  assert (y1 = Z.max 0 y /\ y1 + h1 = y + h /\ - 2 ^ 31 <= h1 < 2 ^ 30) as (Ey1 & Eh1 & Rh1) by (unfold y1, h1; destruct (Z.ltb_spec y 0); rewrite ?s32_small by lia; lia).
  clearbody x1 w1 y1 h1.
  assert (forall b', (forall px py, ~ drawn win x y w h px py) -> b' = b -> painted (r_w (w_rect win)) (r_h (w_rect win))
    (fun px py => if decide (drawn win x y w h px py) then Some (u32 (u64 color)) else None) b b') as Nothing.
  { intros b' Hn ->. eapply painted_ext; [apply painted_clear|]. intros px py _. rewrite decide_False; [done|apply Hn]. }
  destruct ((w1 <=? 0) || (h1 <=? 0)) eqn:E1.
  { do 2 eexists. split_and!; [done|by left|]. apply Nothing; [|done]. unfold drawn. intros. lia. }
  rewrite (s32_small (x1 + w1)), (s32_small (y1 + h1)) by lia.
  set (w2 := if client_right win - client_left win <? x1 + w1 then _ else w1). set (h2 := if client_bottom win - client_top win <? y1 + h1 then _ else h1).
  assert (x1 + w2 = Z.min (client_right win - client_left win) (x1 + w1)) as Ew2 by (unfold w2; destruct (Z.ltb_spec (client_right win - client_left win) (x1 + w1)); rewrite ?s32_small by lia; lia).
  assert (y1 + h2 = Z.min (client_bottom win - client_top win) (y1 + h1)) as Eh2 by (unfold h2; destruct (Z.ltb_spec (client_bottom win - client_top win) (y1 + h1)); rewrite ?s32_small by lia; lia).
  clearbody w2 h2. destruct ((w2 <=? 0) || (h2 <=? 0)) eqn:E2.
  { do 2 eexists. split_and!; [done|by left|]. apply Nothing; [|done]. unfold drawn. intros. lia. }
  destruct (fill_rect_spec win b x1 y1 w2 h2 (u32 (u64 color))) as (win' & b' & E & D & P); [done|unfold small; lia..|].
  rewrite E. simpl. exists win', b'. split_and!; [done|done|]. eapply painted_ext; [exact P|]. intros px py O. unfold drawn.
  repeat case_decide; first [done|lia].
Qed.
End Client.

(** ** Text *)
Definition text_overlay (c x y fg bg : Z) : overlay :=
  box x y 8 8 (fun px py => if Z.testbit (font8x8 c (py - y)) (px - x) then fg else bg).

(** The buffer of a window has the size the window says. *)
Record win_buf (win : Window) (b : pixbuf) : Prop := {
  wb_ok : pb_ok (r_w (w_rect win)) (r_h (w_rect win)) b;
  wb_size : w_pixels_size win / 4 = r_w (w_rect win) * r_h (w_rect win) }.

Section Text.
Context (win : Window).
Notation width := (r_w (w_rect win)).
Notation height := (r_h (w_rect win)).
Implicit Types (b : pixbuf) (x y c fg bg : Z).

Lemma painted_buf o b b' : painted width height o b b' -> win_buf win b -> win_buf win b'.
Proof. intros P [? ?]. split; [by eapply painted_ok|done]. Qed.

Lemma char_row_spec n b glyph x yd dx fg bg : win_buf win b -> 0 <= x < width -> 0 <= dx -> dx + Z.of_nat n <= 8 -> 0 <= yd < 2 ^ 31 ->
  exists b', char_row n win b glyph x yd dx fg bg = Some b' /\
    painted width height (box (x + dx) yd (Z.of_nat n) 1 (fun px _ => if Z.testbit glyph (px - x) then fg else bg)) b b'.
Proof.
  revert b dx. induction n as [|n IH]; intros b dx B Hx Hd Hn Hy; cbn [char_row].
  { exists b. split; [done|]. eapply painted_ext; [apply painted_clear|]. intros px py _. unfold box. by rewrite decide_False by lia. }
  pose proof B as [[? ? _] Ps]. rewrite u64_small by lia. destruct (Z.leb_spec width (x + dx)).
  { exists b. split; [done|]. eapply painted_ext; [apply painted_clear|]. intros px py [? ?]. unfold box. by rewrite decide_False by lia. }
  assert (0 <= yd * width + (x + dx) < 2 ^ 64) by nia. rewrite u64_small by lia. rewrite Ps.
  assert (exists b1, (if width * height <=? yd * width + (x + dx) then Some b else set_px b (yd * width + (x + dx)) (if Z.testbit glyph dx then fg else bg)) = Some b1 /\
    painted width height (single (x + dx) yd (if Z.testbit glyph dx then fg else bg)) b b1) as (b1 & E1 & P1).
  { destruct (Z.leb_spec (width * height) (yd * width + (x + dx))).
    - exists b. split; [done|]. eapply painted_ext; [apply painted_clear|]. intros px py [? ?]. unfold single. rewrite decide_False; [done|]. intros [-> ->]. nia.
    - destruct (set_px_spec width height b (x + dx) yd (if Z.testbit glyph dx then fg else bg) (yd * width + (x + dx))) as (b1 & E1 & P1); [by destruct B|unfold in_win; nia|done|].
      rewrite u64_small in E1 by lia. by exists b1. }
  rewrite E1. cbn [mbind option_bind]. destruct (IH b1 (dx + 1)) as (b2 & E2 & P2); [by eapply painted_buf|lia..|]. exists b2. split; [done|].
  eapply painted_ext; [by eapply painted_trans|]. intros px py _. unfold over, box, single.
  destruct (decide (x + dx <= px < x + dx + Z.of_nat (S n) /\ yd <= py < yd + 1)) as [D|D].
  - destruct (decide (px = x + dx)) as [->|].
    + rewrite decide_False, decide_True by lia. by replace (x + dx - x) with dx by lia.
    + by rewrite decide_True by lia.
  - by rewrite !decide_False by lia.
Qed.

Lemma char_pixels_spec b c x y fg bg : win_buf win b -> 0 <= c < 128 -> 0 <= x -> 0 <= y ->
  exists b', char_pixels win b c x y fg bg = Some b' /\ painted width height (text_overlay c x y fg bg) b b'.
Proof.
  intros B Hc Hx Hy. unfold char_pixels. destruct (Z.leb_spec width x).
  { exists b. split; [done|]. eapply painted_ext; [apply painted_clear|]. intros px py [? ?]. unfold text_overlay, box. by rewrite decide_False by lia. }
  destruct (Z.leb_spec height y).
  { exists b. split; [done|]. eapply painted_ext; [apply painted_clear|]. intros px py [? ?]. unfold text_overlay, box. by rewrite decide_False by lia. }
  rewrite (proj2 (Z.leb_le _ _)), (proj2 (Z.ltb_lt _ _)) by lia. cbn [orb andb]. pose proof B as [Bo Ps]. pose proof Bo as [? ? _].
  apply (painted_loop width height _ (fun dy => box x (y + dy) 8 1 (fun px _ => if Z.testbit (font8x8 c dy) (px - x) then fg else bg))); [done| |].
  - intros dy b1 [? ?]%elem_of_seqZ B1. unfold CHAR_H in *. rewrite (u64_small (y + dy)) by lia.
    destruct (char_row_spec 8 b1 (font8x8 c dy) x (y + dy) 0 fg bg) as (b2 & E2 & P2); [by split|lia..|]. exists b2. split; [done|].
    by rewrite Z.add_0_r in P2.
  - intros px py _. unfold text_overlay, box. split.
    + intros dy [? ?]%elem_of_seqZ. case_decide as D; [right|by left]. unfold CHAR_H in *. rewrite decide_True by lia. assert (py = y + dy) as -> by lia.
      by replace (y + dy - y) with dy by lia.
    + case_decide as D; [right|by left]. exists (py - y). unfold CHAR_H. rewrite elem_of_seqZ. split; [lia|]. by rewrite decide_True by lia.
Qed.

(** The title stays in its part of the bar. *)
Lemma title_text_spec t b x mx bar : win_buf win b -> Forall (fun c => 0 <= c < 128) t -> 0 <= x < 2 ^ 31 -> mx < 2 ^ 31 ->
  exists b' o, title_text win b x mx t bar = Some b' /\ painted width height o b b' /\
    forall px py, is_Some (o px py) -> x <= px < mx + 8 /\ 5 <= py < 13.
Proof.
  revert b x. induction t as [|c t IH]; intros b x B HF Hx Hm; cbn [title_text].
  { exists b, clear_overlay. split_and!; [done|apply painted_clear|]. intros px py [? ?]. done. }
  apply Forall_cons in HF as [Hc HF]. destruct (Z.ltb_spec x mx).
  2: { exists b, clear_overlay. split_and!; [done|apply painted_clear|]. intros px py [? ?]. done. }
  destruct (char_pixels_spec b c x 5 White bar) as (b1 & E1 & P1); [done|done|lia|lia|]. rewrite E1. cbn [mbind option_bind]. unfold CHAR_W. rewrite u64_small by lia.
  destruct (decide (x + 8 < 2 ^ 31)).
  - destruct (IH b1 (x + 8)) as (b2 & o & E2 & P2 & R2); [by eapply painted_buf|done|lia|lia|].
    exists b2, (over o (text_overlay c x 5 White bar)). split_and!; [done|by eapply painted_trans|]. intros px py. unfold over. destruct (o px py) eqn:Eo.
    + intros _. destruct (R2 px py); [by rewrite Eo|lia].
    + unfold text_overlay, box. case_decide; [|by intros [? ?]]. intros _. lia.
  - exists b1, (text_overlay c x 5 White bar). split_and!; [|done|].
    + destruct t; cbn [title_text]; [done|]. by rewrite (proj2 (Z.ltb_ge (x + 8) mx)) by lia.
    + intros px py. unfold text_overlay, box. case_decide; [|by intros [? ?]]. intros _. lia.
Qed.
End Text.

(** ** The frame *)
Section Frame.
Context (win : Window).
Notation width := (r_w (w_rect win)).
Notation height := (r_h (w_rect win)).
Implicit Types (b : pixbuf) (x y c : Z).

Definition on_border (px py : Z) : Prop := px = 0 \/ px = width - 1 \/ py = 0 \/ py = height - 1.

Definition border_overlay : overlay := fun px py => if decide (on_border px py) then Some White else None.

#[export] Instance on_border_dec px py : Decision (on_border px py).
Proof. unfold on_border. apply _. Defined.

(** Two pixels in one step. *)
Lemma two_px_spec b x1 y1 x2 y2 i1 i2 c : pb_ok width height b -> in_win width height x1 y1 -> in_win width height x2 y2 ->
  i1 = y1 * width + x1 -> i2 = y2 * width + x2 ->
  exists b', (b1 ← set_px b (u64 i1) c; set_px b1 (u64 i2) c) = Some b' /\
    painted width height (fun px py => if decide ((px = x1 /\ py = y1) \/ (px = x2 /\ py = y2)) then Some c else None) b b'.
Proof.
  intros B O1 O2 E1 E2. destruct (set_px_spec width height b x1 y1 c i1) as (b1 & F1 & P1); [done..|]. rewrite F1. cbn [mbind option_bind].
  destruct (set_px_spec width height b1 x2 y2 c i2) as (b2 & F2 & P2); [by eapply painted_ok|done..|]. exists b2. split; [done|].
  eapply painted_ext; [by eapply painted_trans|]. intros px py _. unfold over, single. repeat case_decide; first [done|tauto].
Qed.

Lemma draw_border_spec b : pb_ok width height b -> exists b', draw_border b width height = Some b' /\ painted width height border_overlay b b'.
Proof.
  intros B. pose proof B as [? ? _]. unfold draw_border.
  destruct (painted_loop width height (fun b c => b ← set_px b c White; set_px b (u64 (c + width * u64 (height - 1))) White)
    (fun c px py => if decide ((px = c /\ py = 0) \/ (px = c /\ py = height - 1)) then Some White else None)
    (fun px py => if decide (py = 0 \/ py = height - 1) then Some White else None) (seqZ 0 width) b) as (b1 & E1 & P1); [done| | |].
  - intros c b1 [? ?]%elem_of_seqZ B1. rewrite (u64_small (height - 1)) by lia.
    destruct (two_px_spec b1 c 0 c (height - 1) c (c + width * (height - 1)) White) as (b2 & E2 & P2); [done|unfold in_win; lia|unfold in_win; lia|lia|lia|].
    rewrite (u64_small c) in E2 by lia. by exists b2.
  - intros px py [? ?]. split.
    + intros c _. repeat case_decide; first [by left|by right|exfalso; tauto].
    + case_decide as D; [right|by left]. exists px. rewrite elem_of_seqZ. split; [lia|]. rewrite decide_True by tauto. done.
  - rewrite E1. cbn [mbind option_bind].
    destruct (painted_loop width height (fun b r => b ← set_px b (u64 (r * width)) White; set_px b (u64 (r * width + width - 1)) White)
      (fun r px py => if decide ((px = 0 /\ py = r) \/ (px = width - 1 /\ py = r)) then Some White else None)
      (fun px py => if decide (px = 0 \/ px = width - 1) then Some White else None) (seqZ 0 height) b1) as (b2 & E2 & P2); [by eapply painted_ok| | |].
    + intros r b2 [? ?]%elem_of_seqZ B2. apply two_px_spec; [done|unfold in_win; lia|unfold in_win; lia|lia|lia].
    + intros px py [? ?]. split.
      * intros c _. repeat case_decide; first [by left|by right|exfalso; tauto].
      * case_decide as D; [right|by left]. exists py. rewrite elem_of_seqZ. split; [lia|]. rewrite decide_True by tauto. done.
    + exists b2. split; [done|]. eapply painted_ext; [by eapply painted_trans|]. intros px py _. unfold over, border_overlay, on_border.
      repeat case_decide; first [done|exfalso; tauto].
Qed.

(** A button in the title bar. *)
Definition btn_overlay (shown : bool) (x : Z) (color : Z -> Z -> Z) : overlay :=
  if shown then box x 0 20 20 (fun px py => color (px - x) py) else clear_overlay.

Lemma draw_btn_spec b (shown : bool) x color : pb_ok width height b -> 20 <= height -> 0 <= x -> x + 20 <= width ->
  exists b', (if shown then draw_btn b width x color else Some b) = Some b' /\ painted width height (btn_overlay shown x color) b b'.
Proof.
  intros B ? ? ?. destruct shown; [|by exists b]. unfold draw_btn, btn_overlay, WIN_TITLE_BAR_HEIGHT. apply paint_cells_spec; [done|lia..].
Qed.

(** The layers of the title bar, the last on top. *)
Definition bar_overlay (top : bool) : overlay := box 0 0 width 20 (fun _ _ => if top then Blue else Navy).
Definition buttons_overlay : overlay :=
  over (btn_overlay true (width - 20) close_btn)
    (over (btn_overlay (has_flag win WIN_RESIZABLE) (width - 40) max_btn) (btn_overlay (has_flag win WIN_MINIMIZABLE) (width - 60) min_btn)).

Lemma titlebar_layers b (top : bool) title : win_buf win b -> 60 <= width -> 20 <= height ->
  Forall (fun c => 0 <= c < 128) (default [] title) ->
  exists b' o, titlebar_pixels win b top title = Some b' /\
    painted width height (over border_overlay (over buttons_overlay (over o (bar_overlay top)))) b b' /\
    forall px py, is_Some (o px py) -> 5 <= px < max_title_x win + 8 /\ 5 <= py < 13.
Proof.
  intros B Hw Hh HF. pose proof B as [Bo _]. pose proof Bo as [? ? _]. unfold titlebar_pixels, WIN_TITLE_BAR_HEIGHT.
  rewrite (s32_small width), !s32_small, s64_small by lia. change (3 * 20) with 60. change (2 * 20) with 40.
  destruct (paint_cells_spec width height b 0 20 0 width (fun _ _ => if top then Blue else Navy)) as (b1 & E1 & P1); [done|lia..|].
  rewrite E1. cbn [mbind option_bind].
  assert (exists b2 o, match title with None => Some b1 | Some t => title_text win b1 5 (max_title_x win) t (if top then Blue else Navy) end = Some b2 /\
    painted width height o b1 b2 /\ forall px py, is_Some (o px py) -> 5 <= px < max_title_x win + 8 /\ 5 <= py < 13) as (b2 & o & E2 & P2 & R2).
  { destruct title as [t|]; [|exists b1, clear_overlay; split_and!; [done|apply painted_clear|intros px py [? ?]; done]].
    apply title_text_spec; [by eapply painted_buf|done|lia|]. unfold max_title_x. destruct (_ <? _); [|lia].
    unfold btn_count, WIN_TITLE_BAR_HEIGHT. destruct (has_flag win WIN_RESIZABLE), (has_flag win WIN_MINIMIZABLE); lia. }
  rewrite E2. cbn [mbind option_bind].
  destruct (draw_btn_spec b2 (has_flag win WIN_MINIMIZABLE) (width - 60) min_btn) as (b3 & E3 & P3); [do 2 (eapply painted_ok; [done|]); done|lia..|].
  rewrite E3. cbn [mbind option_bind].
  destruct (draw_btn_spec b3 (has_flag win WIN_RESIZABLE) (width - 40) max_btn) as (b4 & E4 & P4); [do 3 (eapply painted_ok; [done|]); done|lia..|].
  rewrite E4. cbn [mbind option_bind].
  destruct (draw_btn_spec b4 true (width - 20) close_btn) as (b5 & E5 & P5); [do 4 (eapply painted_ok; [done|]); done|lia..|].
  rewrite E5. cbn [mbind option_bind].
  destruct (draw_border_spec b5) as (b6 & E6 & P6); [do 5 (eapply painted_ok; [done|]); done|].
  exists b6, o. split_and!; [done| |done]. pose proof (painted_trans _ _ _ _ _ _ _ P1 P2) as Q2. pose proof (painted_trans _ _ _ _ _ _ _ Q2 P3) as Q3.
  pose proof (painted_trans _ _ _ _ _ _ _ Q3 P4) as Q4. pose proof (painted_trans _ _ _ _ _ _ _ Q4 P5) as Q5.
  eapply painted_ext; [exact (painted_trans _ _ _ _ _ _ _ Q5 P6)|]. intros px py _. unfold buttons_overlay, bar_overlay, over.
  destruct (border_overlay px py); [done|]. destruct (btn_overlay true _ _ px py); [done|]. destruct (btn_overlay (has_flag win WIN_RESIZABLE) _ _ px py); done.
Qed.

(** *** Drawing does not change the size of the buffer *)
Lemma set_px_len b i c b' : set_px b i c = Some b' -> px_len b' = px_len b.
Proof. unfold set_px. destruct (_ && _); [|done]. by intros [= <-]. Qed.

Lemma ofold_len {A} (f : pixbuf -> A -> option pixbuf) l b b' : (forall b a b', f b a = Some b' -> px_len b' = px_len b) ->
  ofold f b l = Some b' -> px_len b' = px_len b.
Proof.
  intros Hf. revert b. induction l as [|a l IH]; intros b; cbn [ofold]; [by intros [= <-]|]. destruct (f b a) as [b1|] eqn:E; [|done]. cbn [mbind option_bind].
  intros E2. rewrite (IH b1 E2). by eapply Hf.
Qed.

Lemma paint_cells_len b wd rows cols col b' : paint_cells b wd rows cols col = Some b' -> px_len b' = px_len b.
Proof. apply ofold_len. intros b1 r b2. apply ofold_len. intros b3 c b4. apply set_px_len. Qed.

Lemma char_row_len n w b g x yd dx fg bg b' : char_row n w b g x yd dx fg bg = Some b' -> px_len b' = px_len b.
Proof.
  revert b dx. induction n as [|n IH]; intros b dx; cbn [char_row]; [by intros [= <-]|]. destruct (_ <=? _); [by intros [= <-]|].
  destruct (w_pixels_size w / 4 <=? _); cbn [mbind option_bind]; [by apply IH|]. destruct (set_px _ _ _) as [b1|] eqn:E; [|done]. cbn [mbind option_bind].
  intros E2. rewrite (IH _ _ E2). by eapply set_px_len.
Qed.

Lemma char_pixels_len w b c x y fg bg b' : char_pixels w b c x y fg bg = Some b' -> px_len b' = px_len b.
Proof.
  unfold char_pixels. destruct (_ || _); [by intros [= <-]|]. destruct (_ && _); [|done]. apply ofold_len. intros. by eapply char_row_len.
Qed.

Lemma title_text_len t b x mx bar b' : title_text win b x mx t bar = Some b' -> px_len b' = px_len b.
Proof.
  revert b x. induction t as [|c t IH]; intros b x; cbn [title_text]; [by intros [= <-]|]. destruct (_ <? _); [|by intros [= <-]].
  destruct (char_pixels _ _ _ _ _ _ _) as [b1|] eqn:E; [|done]. cbn [mbind option_bind]. intros E2. rewrite (IH _ _ E2). by eapply char_pixels_len.
Qed.

(** The close button of a window narrower than the button starts before the buffer. *)
Lemma close_btn_narrow b : px_len b < 2 ^ 63 -> 0 <= width < 20 -> draw_btn b width (s64 (width - WIN_TITLE_BAR_HEIGHT)) close_btn = None.
Proof.
  intros Hl Hw. unfold draw_btn, paint_cells, WIN_TITLE_BAR_HEIGHT. rewrite s64_small by lia. rewrite !(seqZ_cons _ 20) by lia. cbn [ofold].
  assert (set_px b (u64 (0 * width + (width - 20))) (close_btn (width - 20 - (width - 20)) 0) = None) as ->; [|done].
  unfold set_px, u64. rewrite <- (Z.mod_unique_pos _ _ (-1) (width - 20 + 2 ^ 64)) by lia.
  rewrite (proj2 (Z.ltb_ge _ (px_len b))) by lia. by rewrite andb_false_r.
Qed.

Lemma titlebar_narrow_spec b top title : px_len b < 2 ^ 63 -> 0 <= width < 20 -> titlebar_pixels win b top title = None.
Proof.
  intros Hl Hw. unfold titlebar_pixels. destruct (paint_cells b _ _ _ _) as [b1|] eqn:E1; [|done]. apply paint_cells_len in E1. cbn [mbind option_bind].
  assert (exists r, match title with None => Some b1 | Some t => title_text win b1 5 (max_title_x win) t (if top then Blue else Navy) end = r /\
    (forall b2, r = Some b2 -> px_len b2 = px_len b)) as (r & -> & Hr).
  { eexists. split; [done|]. intros b2. destruct title; [intros E; apply title_text_len in E; congruence|by intros [= <-]]. }
  destruct r as [b2|]; [|done]. specialize (Hr b2 eq_refl). cbn [mbind option_bind].
  destruct (if has_flag win WIN_MINIMIZABLE then _ else _) as [b3|] eqn:E3; [|done]. cbn [mbind option_bind].
  assert (px_len b3 = px_len b) as H3 by (destruct (has_flag win WIN_MINIMIZABLE); [apply paint_cells_len in E3; congruence|by injection E3 as <-]).
  destruct (if has_flag win WIN_RESIZABLE then _ else _) as [b4|] eqn:E4; [|done]. cbn [mbind option_bind].
  assert (px_len b4 = px_len b) as H4 by (destruct (has_flag win WIN_RESIZABLE); [apply paint_cells_len in E4; congruence|injection E4 as <-; done]).
  by rewrite close_btn_narrow by lia.
Qed.
End Frame.

(** ** Theorems *)

(** C20: whatever rectangle a program asks for, [sys_draw_rect] writes inside the buffer of its
    window only and paints exactly the pixels of the rectangle that are in the client area:
    border and title bar are out of reach.  Coordinates and sizes are within 2^30. *)
Theorem sys_draw_rect_correct (win : Window) (b : pixbuf) (x y w h color : Z) :
  pb_ok (r_w (w_rect win)) (r_h (w_rect win)) b -> small x -> small y -> small w -> small h ->
  exists win' b', sys_draw_rect (Some win) b (u64 x) (u64 y) (u64 w) (u64 h) (u64 color) = Some (0, Some win', b') /\ maybe_dirty win win' /\
    painted (r_w (w_rect win)) (r_h (w_rect win)) (fun px py => if decide (drawn win x y w h px py) then Some (u32 (u64 color)) else None) b b'.
Proof. apply sys_draw_rect_spec. Qed.

(** [win_draw_bitmap] copies each pixel of a bitmap of [w] times [h] to its place in the
    client area, leaves out what lies outside, and reads and writes inside the two buffers. *)
Theorem win_draw_bitmap_correct (win : Window) (b : pixbuf) (cx cy w h : Z) (buf : list Z) :
  pb_ok (r_w (w_rect win)) (r_h (w_rect win)) b -> small cx -> small cy -> small w -> small h -> w * h < 2 ^ 31 -> Z.of_nat (length buf) = w * h ->
  exists win' b', win_draw_bitmap win b cx cy w h buf = Some (win', b') /\ maybe_dirty win win' /\
    painted (r_w (w_rect win)) (r_h (w_rect win)) (fun px py => if decide (drawn win cx cy w h px py)
      then Some (default 0 (buf !! Z.to_nat ((py - (client_top win + cy)) * w + (px - (client_left win + cx))))) else None) b b'.
Proof. apply draw_bitmap_spec. Qed.

(** The frame of a window at least 60 pixels wide is drawn inside its buffer, and the
    buttons are where a click finds them: inside the border, the pixels a click on the
    close, maximize or minimize button accepts have the colours of that button. *)
Theorem titlebar_buttons_correct (win : Window) (b : pixbuf) (top : bool) (title : option (list Z)) :
  win_buf win b -> 60 <= r_w (w_rect win) -> 20 <= r_h (w_rect win) -> Forall (fun c => 0 <= c < 128) (default [] title) ->
  exists b', titlebar_pixels win b top title = Some b' /\
    forall px py, in_win (r_w (w_rect win)) (r_h (w_rect win)) px py -> ~ on_border win px py ->
      let btn k := s64 (r_w (w_rect win) - k * WIN_TITLE_BAR_HEIGHT) in
      let at_ k := is_point_in_rect px py (btn k) 0 WIN_TITLE_BAR_HEIGHT WIN_TITLE_BAR_HEIGHT in
      let now := pixel (r_w (w_rect win)) b' px py in
      (at_ 1 = true -> now = close_btn (px - btn 1) py) /\
      (at_ 2 = true -> has_flag win WIN_RESIZABLE = true -> now = max_btn (px - btn 2) py) /\
      (at_ 3 = true -> has_flag win WIN_MINIMIZABLE = true -> now = min_btn (px - btn 3) py) /\
      (WIN_TITLE_BAR_HEIGHT <= py -> now = pixel (r_w (w_rect win)) b px py).
Proof.
  intros B Hw Hh HF. destruct (titlebar_layers win b top title B Hw Hh HF) as (b' & o & E & [_ P] & R). exists b'. split; [done|].
  destruct B as [[? ? _] _]. intros px py O Hb. rewrite P by done. unfold over at 1, border_overlay. rewrite (decide_False (P := on_border win px py)) by done. pose proof O as [? ?].
  cbv zeta. unfold WIN_TITLE_BAR_HEIGHT, is_point_in_rect. rewrite !s64_small by lia. change (1 * 20) with 20. change (2 * 20) with 40. change (3 * 20) with 60.
  unfold over, buttons_overlay, btn_overlay, over, box, clear_overlay. rewrite !andb_true_iff, !Z.leb_le, !Z.ltb_lt.
  split_and!.
  - intros Hat. by rewrite decide_True by lia.
  - intros Hat ->. by rewrite decide_False, decide_True by lia.
  - intros Hat ->. destruct (has_flag win WIN_RESIZABLE); rewrite ?(decide_False (P := _ /\ _)), decide_True by lia; done.
  - intros Hpy. rewrite decide_False by lia. destruct (has_flag win WIN_RESIZABLE), (has_flag win WIN_MINIMIZABLE); rewrite ?decide_False by lia;
    (destruct (o px py) eqn:Eo; [destruct (R px py); [by rewrite Eo|lia]|]; unfold bar_overlay, box; by rewrite decide_False by lia).
Qed.

(** The frame of a window narrower than 20 pixels is drawn outside its buffer: [sys_create_win]
    accepts such a width. *)
Theorem titlebar_narrow (win : Window) (b : pixbuf) (top : bool) (title : option (list Z)) :
  px_len b < 2 ^ 63 -> 0 <= r_w (w_rect win) < 20 -> titlebar_pixels win b top title = None.
Proof. apply titlebar_narrow_spec. Qed.

(** A width of INT_MAX at column 1: the sum overflows, the clipping is skipped, twice, and the
    row is filled far beyond the buffer. *)
Theorem sys_draw_rect_overflow (win : Window) (b : pixbuf) (color : Z) :
  pb_ok (r_w (w_rect win)) (r_h (w_rect win)) b -> has_flag win WIN_BORDERLESS = false -> 4 <= r_w (w_rect win) -> 23 <= r_h (w_rect win) ->
  px_len b < 2 ^ 31 -> sys_draw_rect (Some win) b 1 0 (2 ^ 31 - 1) 1 color = None.
Proof.
  intros [? ? ?] Hf Hw Hh Hl. unfold sys_draw_rect, win_get_client_size, win_fill_rect, clip_client. rewrite Hf.
  unfold WIN_BORDER_SIZE, WIN_TITLE_BAR_HEIGHT. change (s32 1) with 1. change (s32 0) with 0. change (s32 (2 ^ 31 - 1)) with (2 ^ 31 - 1).
  change (1 <? 0) with false. change (0 <? 0) with false. change ((2 ^ 31 - 1 <=? 0) || (1 <=? 0)) with false. cbv iota.
  change (s32 (1 + (2 ^ 31 - 1))) with (- 2 ^ 31). change (s32 (0 + 1)) with 1. change (s32 (1 + 1)) with 2. change (s32 (0 + (20 + 1))) with 21.
  rewrite !(s32_small (r_w _ - _)), !(s32_small (r_h _ - _)), !(s32_small (r_w _)), !(s32_small (r_h _)) by lia.
  rewrite !(s32_small (r_w _ - _)), !(s32_small (r_h _ - _)) by lia.
  rewrite !(proj2 (Z.ltb_ge _ (- 2 ^ 31))), !(proj2 (Z.ltb_ge _ 1)) by lia. change ((2 ^ 31 - 1 <=? 0) || (1 <=? 0)) with false. cbv iota.
  rewrite !(proj2 (Z.leb_gt _ 2)), !(proj2 (Z.leb_gt _ 21)) by lia. cbn [orb].
  change (s32 (2 + (2 ^ 31 - 1))) with (1 - 2 ^ 31). change (s32 (21 + 1)) with 22.
  rewrite !(proj2 (Z.ltb_ge _ (1 - 2 ^ 31))), !(proj2 (Z.ltb_ge _ 22)) by lia. change (2 <? 1) with false. change (21 <? 20 + 1) with false. cbv iota.
  change ((2 ^ 31 - 1 <=? 0) || (1 <=? 0)) with false. cbv iota. change (seqZ 0 1) with [0]. cbn [ofold]. change (s32 (21 + 0)) with 21.
  unfold fill_run. rewrite u64_small by lia. rewrite (proj2 (Z.leb_gt (_ + (2 ^ 31 - 1)) _)) by lia. by rewrite andb_false_r.
Qed.

(** ** Examples *)
Definition demo_pixwin (w h : Z) (flags : Z) : Window :=
  MkWindow (MkRect 5 5 w h) 0 (0, 0) 0x9000 (w * h * 4) 0 0 1 flags [] WIN_STATE_NORMAL WIN_STATE_NORMAL (MkRect 5 5 w h).
Definition demo_buf (w h : Z) : pixbuf := PB (fun _ => Slate) (w * h).

Lemma sys_draw_rect_correct_witness : exists win' b', sys_draw_rect (Some (demo_pixwin 30 40 7)) (demo_buf 30 40) (u64 (-3)) 5 10 100 (u64 Red) = Some (0, Some win', b') /\
  pixel 30 b' 0 30 = Slate /\ pixel 30 b' 1 30 = Red /\ pixel 30 b' 7 38 = Red /\ pixel 30 b' 8 38 = Slate /\ pixel 30 b' 7 39 = Slate.
Proof.
  destruct (sys_draw_rect_correct (demo_pixwin 30 40 7) (demo_buf 30 40) (-3) 5 10 100 Red) as (win' & b' & E & _ & _ & P);
    [split; cbn; lia|unfold small; lia..|]. exists win', b'.
  split_and!; [exact E|rewrite P by (unfold in_win; cbn; lia); vm_compute; reflexivity..].
Defined.

Lemma win_draw_bitmap_correct_witness : exists win' b', win_draw_bitmap (demo_pixwin 30 40 7) (demo_buf 30 40) (-1) 2 2 2 [11; 12; 13; 14] = Some (win', b') /\
  pixel 30 b' 1 23 = 12 /\ pixel 30 b' 1 24 = 14 /\ pixel 30 b' 0 24 = Slate.
Proof.
  destruct (win_draw_bitmap_correct (demo_pixwin 30 40 7) (demo_buf 30 40) (-1) 2 2 2 [11; 12; 13; 14]) as (win' & b' & E & _ & _ & P);
    [split; cbn; lia|unfold small; lia..|lia|reflexivity|]. exists win', b'.
  split_and!; [exact E|rewrite P by (unfold in_win; cbn; lia); vm_compute; reflexivity..].
Defined.

Lemma titlebar_buttons_correct_witness : exists b', titlebar_pixels (demo_pixwin 90 40 7) (demo_buf 90 40) true (Some [72; 105]) = Some b' /\
  pixel 90 b' 75 5 = White /\ pixel 90 b' 72 5 = Red /\ pixel 90 b' 52 3 = Green /\ pixel 90 b' 32 3 = Yellow.
Proof.
  destruct (titlebar_buttons_correct (demo_pixwin 90 40 7) (demo_buf 90 40) true (Some [72; 105])) as (b' & E & P);
    [split; [split; cbn; lia|reflexivity]|cbn; lia|cbn; lia|repeat (apply Forall_cons; split; [lia|]); constructor|]. exists b'.
  assert (forall px py, in_win 90 40 px py /\ ~ on_border (demo_pixwin 90 40 7) px py <-> 0 < px < 89 /\ 0 < py < 39) as Hin by (intros; unfold in_win, on_border; cbn; lia).
  split_and!; [exact E|..].
  - destruct (P 75 5) as [H _]; [apply Hin; lia|apply Hin; lia|]. etrans; [apply H; reflexivity|reflexivity].
  - destruct (P 72 5) as [H _]; [apply Hin; lia|apply Hin; lia|]. etrans; [apply H; reflexivity|reflexivity].
  - destruct (P 52 3) as (_ & H & _); [apply Hin; lia|apply Hin; lia|]. etrans; [apply H; reflexivity|reflexivity].
  - destruct (P 32 3) as (_ & _ & H & _); [apply Hin; lia|apply Hin; lia|]. etrans; [apply H; reflexivity|reflexivity].
Defined.
