(* ===== verification/WinScreen.v ===== *)
(** The picture: [win_draw] of [src/src/gui/window.c] copies the visible parts of a window to
    the back buffer, [win_paint] does it for every dirty window, and one round of the main
    loop of [src/src/main.c] erases the cursor, paints the windows, paints the cursor and
    shows the result.

    [bufs] has the pixel buffers of the windows by address. *)
From S2P Require Import Prelude Font RingBuf WinClip Window WindowInv WindowOps WindowRun WinPaint Video Cursor WinDraw WinPixels.

(** [n] pixels of a window from index [i] on. *)
Definition read_run (b : pixbuf) (i n : Z) : option (list Z) :=
  if (0 <=? i) && (i + n <=? px_len b) then Some (px_at b <$> seqZ i n) else None.

(** The rows of one visible rectangle. *)
Definition draw_rows (v : video) (b : pixbuf) (win : Window) (rect : Rect) : option video :=
  let start_off_x := s64 (r_x rect - r_x (w_rect win)) in
  let start_off_y := s64 (r_y rect - r_y (w_rect win)) in
  ofold (fun v r =>
    row ← read_run b (u64 (u64 (r + start_off_y) * r_w (w_rect win) + start_off_x)) (u64 (r_w rect * 4) / 4);
    video_draw_pixel_line v (u64 (r_x rect)) (u64 (r + r_y rect)) row) v (seqZ 0 (r_h rect)).

Definition win_draw (v : video) (b : pixbuf) (win : Window) : option video :=
  ofold (fun v node =>
    let rect := n_rect node in
    v ← draw_rows v b win rect;
    Some (video_add_dirty_rect v (r_x rect) (r_y rect) (s64 (r_w rect)) (s64 (r_h rect)))) v (w_clip win).

Section Screen.
Context (scrn_w scrn_h : Z) (bufs : gmap Z pixbuf).

(** The loop of [win_paint]. *)
Fixpoint paint_screen (fuel : nat) (st : wm) (v : video) (curr : Z) : option (wm * video) :=
  if curr =? 0 then Some (st, v)
  else
    match fuel with
    | O => None
    | S n =>
        w ← wm_wins st !! curr;
        '(st, v) ← (if has_flag w WIN_DIRTY then
                      st ← recalc_window scrn_w scrn_h fuel st curr;
                      win ← wm_wins st !! curr;
                      b ← bufs !! w_pixels win;
                      v ← win_draw v b win;
                      Some (wupd (wemit st [DrawWin curr]) curr (fun w => set_flags (Z.land (w_flags w) (u32 (Z.lnot WIN_DIRTY))) w), v)
                    else Some (st, v));
        paint_screen n st v (w_next w)
    end.

(** What one round of the main loop draws. *)
Definition frame (fuel : nat) (st : wm) (v : video) (c : cursor) (mx my : Z) : option (wm * video * cursor) :=
  v ← cursor_erase v c;
  '(st, v) ← paint_screen fuel st v (g_win_list st);
  '(v, c) ← cursor_paint v c mx my;
  v ← video_swap v;
  Some (st, v, c).
End Screen.

(** ** One window *)
Section Draw.
Context (win : Window) (b : pixbuf).
Notation width := (r_w (w_rect win)).
Notation height := (r_h (w_rect win)).
Implicit Types (v : video) (r : Rect).

(** The pixel of the window at a place of the screen. *)
Definition win_pixel (px py : Z) : Z := pixel width b (px - r_x (w_rect win)) (py - r_y (w_rect win)).

(** A rectangle of the screen inside the window. *)
Definition part_of v r : Prop :=
  0 < r_w r /\ 0 < r_h r /\ 0 <= r_x r /\ 0 <= r_y r /\ r_x r + r_w r <= fb_width v /\ r_y r + r_h r <= fb_height v /\
  r_x (w_rect win) <= r_x r /\ r_x r + r_w r <= r_x (w_rect win) + width /\ r_y (w_rect win) <= r_y r /\ r_y r + r_h r <= r_y (w_rect win) + height.

Lemma draw_rows_spec v r : vid_ok v -> pb_ok width height b -> rect_ok (w_rect win) -> part_of v r ->
  exists v', draw_rows v b win r = Some v' /\ drew r v v' /\ forall px py, on_screen v px py -> in_rect px py r -> pix v' px py = win_pixel px py.
Proof.
  intros V B Hok (? & ? & ? & ? & ? & ? & ? & ? & ? & ?). pose proof V as [? ? ?]. pose proof B as [? ? Hlen]. unfold rect_ok in Hok.
  unfold draw_rows. rewrite (s64_small (r_x r - _)), (s64_small (r_y r - _)) by lia. rewrite (u64_small (r_w r * 4)), Z.div_mul, (u64_small (r_x r)) by lia.
  destruct (ofold_inv (fun done v' => same_but_back v v' /\ forall px py, on_screen v px py -> pix v' px py =
      if decide (r_x r <= px < r_x r + r_w r /\ Exists (fun k => py = k + r_y r) done) then win_pixel px py else pix v px py)
    (fun v k => row ← read_run b (u64 (u64 (k + (r_y r - r_y (w_rect win))) * width + (r_x r - r_x (w_rect win)))) (r_w r);
      video_draw_pixel_line v (r_x r) (u64 (k + r_y r)) row) (seqZ 0 (r_h r)) v) as (v' & E & S & P).
  - split; [apply same_refl|]. intros px py _. rewrite decide_False; [done|]. intros [_ ?%Exists_nil]. done.
  - intros done k v1 Hp (S1 & P1). assert (k ∈ seqZ 0 (r_h r)) as [? ?]%elem_of_seqZ.
    { destruct Hp as [t ->]. apply elem_of_app. left. apply elem_of_app. right. by constructor. }
    pose proof (same_fields _ _ S1) as (_ & Ew & Eh & _). rewrite !(u64_small (k + _)) by lia.
    set (i := (k + (r_y r - r_y (w_rect win))) * width + (r_x r - r_x (w_rect win))).
    destruct (run_bounds width height b (r_x r - r_x (w_rect win)) (k + (r_y r - r_y (w_rect win))) (r_w r)) as (Hi0 & Hi1 & Hi2); [done|lia..|].
    fold i in Hi0, Hi1. rewrite u64_small by lia.
    unfold read_run. rewrite !(proj2 (Z.leb_le _ _)) by lia. cbn [andb mbind option_bind].
    assert (Z.of_nat (length (px_at b <$> seqZ i (r_w r))) = r_w r) as El by (rewrite length_fmap, length_seqZ; lia).
    destruct (pixel_line_spec v1 (r_x r) (k + r_y r) (px_at b <$> seqZ i (r_w r))) as (v2 & E2 & S2 & P2); [by eapply same_ok|lia..|].
    exists v2. split; [done|]. split; [by eapply same_trans|]. intros px py O. rewrite P2, El by (by apply (same_on_screen v)).
    assert (Exists (fun k0 => py = k0 + r_y r) (done ++ [k]) <-> Exists (fun k0 => py = k0 + r_y r) done \/ py = k + r_y r) as Ex
      by (rewrite Exists_app, Exists_cons, Exists_nil; tauto).
    destruct (decide (py = k + r_y r /\ r_x r <= px < r_x r + r_w r)) as [[-> D]|D].
    + rewrite decide_True by (split; [lia|apply Ex; by right]). rewrite list_lookup_fmap, lookup_seqZ_lt by lia. cbn. unfold win_pixel, pixel. f_equal. unfold i. lia.
    + rewrite P1 by done. destruct (decide (r_x r <= px < r_x r + r_w r /\ Exists (fun k0 => py = k0 + r_y r) (done ++ [k]))) as [[D1 D2]|D1].
      * apply Ex in D2 as [D2|D2]; [by rewrite decide_True|]. exfalso. apply D. done.
      * rewrite decide_False; [done|]. intros [? ?]. apply D1. split; [done|]. apply Ex. by left.
  - exists v'. split; [done|]. assert (forall py, Exists (fun k => py = k + r_y r) (seqZ 0 (r_h r)) <-> r_y r <= py < r_y r + r_h r) as Ex.
    { intros py. rewrite Exists_exists. split; [intros (k & [? ?]%elem_of_seqZ & ->); lia|]. intros. exists (py - r_y r). rewrite elem_of_seqZ. lia. }
    split.
    + split; [done|]. intros px py O Hn. rewrite P by done. rewrite decide_False; [done|]. intros [? ?%Ex]. by apply Hn.
    + intros px py O [? ?]. rewrite P by done. rewrite decide_True; [done|]. split; [done|]. by apply Ex.
Qed.

Lemma win_draw_spec v : vid_inv v -> pb_ok width height b -> rect_ok (w_rect win) -> Forall (part_of v) (rects (w_clip win)) ->
  exists v', win_draw v b win = Some v' /\ vid_inv v' /\ same_size v v' /\
    forall px py, on_screen v px py -> pix v' px py = if decide (covers (rects (w_clip win)) px py) then win_pixel px py else pix v px py.
Proof.
  intros I B Hok HF. unfold win_draw.
  destruct (ofold_inv (fun done v' => vid_inv v' /\ same_size v v' /\ forall px py, on_screen v px py ->
      pix v' px py = if decide (covers (rects done) px py) then win_pixel px py else pix v px py)
    (fun v node => v ← draw_rows v b win (n_rect node);
      Some (video_add_dirty_rect v (r_x (n_rect node)) (r_y (n_rect node)) (s64 (r_w (n_rect node))) (s64 (r_h (n_rect node))))) (w_clip win) v)
    as (v' & E & I' & S' & P'); [| |by exists v'].
  - split_and!; [done|done|]. intros px py _. rewrite decide_False; [done|]. by intros ?%Exists_nil.
  - intros done node v1 Hp (I1 & S1 & P1). rewrite Forall_forall in HF. assert (part_of v (n_rect node)) as Hpart.
    { apply HF. unfold rects. apply list_elem_of_fmap_2. destruct Hp as [t ->]. apply elem_of_app. left. apply elem_of_app. right. by constructor. }
    pose proof S1 as (Ew & Eh & Ep). pose proof I1 as [V1 _ _]. destruct (draw_rows_spec v1 (n_rect node)) as (v2 & E2 & D2 & P2); [done|done|done| |].
    { unfold part_of in *. by rewrite Ew, Eh. }
    rewrite E2. cbn [mbind option_bind]. pose proof V1 as [? ? ?]. unfold part_of in Hpart. rewrite !s64_small by lia. eexists. split; [done|].
    destruct (report_inv v1 v2 (r_x (n_rect node)) (r_y (n_rect node)) (r_w (n_rect node)) (r_h (n_rect node))) as (I3 & S3 & B3); [done| |lia..|].
    { by destruct (n_rect node). }
    split_and!; [done|by eapply same_size_trans|]. intros px py O. assert (on_screen v1 px py) as O1 by (by apply (size_on_screen v)).
    rewrite (pix_back v2); [|destruct S3 as (_ & _ & ->); destruct D2 as [(_ & _ & _ & -> & _)%same_fields _]; done|done].
    unfold rects. rewrite fmap_app. fold (rects done). cbn [fmap list_fmap]. destruct (decide (in_rect px py (n_rect node))) as [Hin|Hn].
    + rewrite P2 by done. rewrite decide_True; [done|]. apply covers_app. right. by constructor.
    + destruct D2 as [_ D2]. rewrite D2, P1 by done. destruct (decide (covers (rects done) px py)) as [C|C].
      * rewrite decide_True; [done|]. apply covers_app. by left.
      * rewrite decide_False; [done|]. intros [?|[?|?%Exists_nil]%Exists_cons]%covers_app; done.
Qed.
End Draw.

(** ** All windows *)
Section Paint.
Context (scrn_w scrn_h : Z) (S : screen_ok scrn_w scrn_h) (bufs : gmap Z pixbuf).
Implicit Types (st : wm) (v : video) (l : list Z) (a x : Z) (w : Window) (m : gmap Z Window).

(** The pixel of window [a] at a place of the screen. *)
Definition wpix m a (px py : Z) : Z :=
  match m !! a with
  | Some w => match bufs !! w_pixels w with Some b => win_pixel w b px py | None => 0 end
  | None => 0
  end.

(** Every window has its buffer. *)
Definition buffered m a : Prop := exists w b, m !! a = Some w /\ bufs !! w_pixels w = Some b /\ pb_ok (r_w (w_rect w)) (r_h (w_rect w)) b.

(** The last window of [l] whose clip list has the place decides its colour. *)
Definition layered m' m l (px py c : Z) : Z := foldl (fun c a => if decide (covers (rects (wclip m' a)) px py) then wpix m a px py else c) c l.

Lemma cleaned_pixels w w' : cleaned w w' -> w_pixels w' = w_pixels w /\ w_rect w' = w_rect w.
Proof. intros [B _]. destruct w, w'. unfold bare in B. cbn in B. by injection B as -> -> -> -> -> -> -> -> -> -> ->. Qed.

Lemma cleaned_wpix st st' a px py : wins_rel cleaned st st' -> wpix (wm_wins st') a px py = wpix (wm_wins st) a px py.
Proof.
  intros R. specialize (R a). unfold wpix. destruct (wm_wins st !! a) as [w|]; [|by rewrite R]. destruct R as (w' & -> & C).
  destruct (cleaned_pixels _ _ C) as [-> Er]. unfold win_pixel. by rewrite Er.
Qed.

Lemma cleaned_buffered st st' a : wins_rel cleaned st st' -> buffered (wm_wins st) a -> buffered (wm_wins st') a.
Proof.
  intros R (w & b & Hw & Hb & Ok). specialize (R a). rewrite Hw in R. destruct R as (w' & Hw' & C). destruct (cleaned_pixels _ _ C) as [Ep Er].
  exists w', b. by rewrite Ep, Er.
Qed.

(** A visible rectangle is on the screen and inside its window. *)
Lemma clip_part full m m' desk a above w v : clip_ok scrn_w scrn_h full m m' desk a above -> wrect m a = w_rect w ->
  fb_width v = scrn_w -> fb_height v = scrn_h -> Forall (part_of w v) (rects (wclip m' a)).
Proof using S.
  intros ([_ Hok] & Hvis & _) Er Ew Eh. unfold screen_ok, TASKBAR_HEIGHT in S. apply Forall_forall. intros r Hr. rewrite Forall_forall in Hok. specialize (Hok r Hr). unfold rect_ok in Hok.
  assert (forall px py, in_rect px py r -> in_screen scrn_w (usable_h desk scrn_h) px py /\ in_rect px py (w_rect w)) as Hin.
  { intros px py Hp. destruct (Hvis px py) as (? & ? & _); [apply Exists_exists; by exists r|]. by rewrite <- Er. }
  destruct (Hin (r_x r) (r_y r)) as [[? ?] [? ?]]; [unfold in_rect; lia|].
  destruct (Hin (r_x r + r_w r - 1) (r_y r + r_h r - 1)) as [[? ?] [? ?]]; [unfold in_rect; lia|].
  unfold usable_h, TASKBAR_HEIGHT in *. unfold part_of. rewrite Ew, Eh. destruct desk; lia.
Qed.

Lemma paint_screen_spec fuel st v l p : dll (wm_wins st) p l 0 -> NoDup l -> 0 ∉ l -> (length l <= fuel)%nat ->
  Forall (fun a => dirty (wm_wins st) a = true) l -> Forall rect_ok (wrect (wm_wins st) <$> l) -> Forall reaches_screen (wrect (wm_wins st) <$> l) ->
  Forall (buffered (wm_wins st)) l -> vid_inv v -> fb_width v = scrn_w -> fb_height v = scrn_h ->
  exists st' v', paint_screen scrn_w scrn_h bufs fuel st v (hd 0 l) = Some (st', v') /\ paint_from scrn_w scrn_h fuel st (hd 0 l) = Some st' /\
    (forall b, b ∉ l -> wm_wins st' !! b = wm_wins st !! b) /\ vid_inv v' /\ same_size v v' /\
    forall px py, on_screen v px py -> pix v' px py = layered (wm_wins st') (wm_wins st) l px py (pix v px py).
Proof using S.
  revert st v l p. induction fuel as [|n IH]; intros st v [|x l] p Hd Hnd H0 Hf Hdirty Hok Hre Hbuf I Ew Eh; [|simpl in Hf; lia| |].
  1-2: exists st, v; split_and!; done.
  apply NoDup_cons in Hnd as [Hx Hnd]. apply not_elem_of_cons in H0 as [Hx0 H0]. destruct Hd as [(w & Hw & Hp & Hn) Hd].
  cbn [fmap list_fmap] in Hok, Hre. apply Forall_cons in Hok as [Hokx Hok], Hre as [Hrex Hre], Hdirty as [Hdx Hdirty], Hbuf as [Hbx Hbuf].
  assert (wrect (wm_wins st) x = w_rect w) as Ewx by (unfold wrect; by rewrite Hw). rewrite Ewx in Hokx, Hrex.
  unfold dirty in Hdx. rewrite Hw in Hdx. cbn [paint_from paint_screen hd]. rewrite (proj2 (Z.eqb_neq x 0)), Hw by done. cbn [mbind option_bind].
  rewrite Hdx, Hn. assert (length l <= n)%nat as Hf' by (simpl in Hf; lia).
  destruct (paint_one_spec scrn_w scrn_h S (Datatypes.S n) st x w l Hw Hn Hd H0 ltac:(lia) Hokx Hrex Hok) as (st1 & E1 & R1 & D1 & _ & _ & _ & Hb1 & _ & C1).
  unfold paint_one in E1. destruct (recalc_window scrn_w scrn_h (Datatypes.S n) st x) as [sr|]; [|done]. cbn [mbind option_bind] in E1 |- *. injection E1 as E1.
  (* the window as it is drawn *)
  destruct Hbx as (w0 & b & Hw0 & Hb & Ok). assert (w0 = w) as -> by congruence.
  pose proof (R1 x) as R1x. rewrite Hw in R1x. destruct R1x as (w1 & Hw1 & Cl). destruct (cleaned_pixels _ _ Cl) as [Epx Erc].
  assert (exists wr, wm_wins sr !! x = Some wr /\ w_pixels wr = w_pixels w /\ w_rect wr = w_rect w /\ w_clip wr = wclip (wm_wins st1) x) as (wr & Hwr & Ep & Er & Ec).
  { rewrite <- E1 in Hw1. rewrite wupd_lookup, bool_decide_eq_true_2 in Hw1 by done. change (wm_wins (wemit sr [DrawWin x])) with (wm_wins sr) in Hw1.
    destruct (wm_wins sr !! x) as [wr|] eqn:Hwr; [|done]. cbn in Hw1. injection Hw1 as Hw1. exists wr. split; [done|].
    rewrite <- Epx, <- Erc, <- Hw1. split_and!; [done|done|]. unfold wclip. rewrite <- E1, wupd_lookup, bool_decide_eq_true_2 by done.
    change (wm_wins (wemit sr [DrawWin x])) with (wm_wins sr). by rewrite Hwr. }
  rewrite Hwr. cbn [mbind option_bind]. rewrite Ep, Hb. cbn [mbind option_bind].
  destruct (win_draw_spec wr b v I) as (v1 & Ev1 & I1 & S1 & P1); [by rewrite Er|by rewrite Er|rewrite Ec; by eapply clip_part; [exact C1|rewrite Ewx, Er|..]|].
  rewrite Ev1. cbn [mbind option_bind]. rewrite E1. pose proof S1 as (Ew1 & Eh1 & _).
  assert (wrect (wm_wins st1) <$> l = wrect (wm_wins st) <$> l) as Ewr by (apply list_fmap_ext; intros; by apply cleaned_wrect).
  destruct (IH st1 v1 l x (cleaned_dll _ _ _ _ _ R1 Hd) Hnd H0 Hf') as (st' & v' & E2 & E3 & Hb2 & I2 & S2 & P2).
  - rewrite Forall_forall in Hdirty |- *. intros a Ha. unfold dirty. rewrite Hb1 by congruence. by apply (Hdirty a).
  - by rewrite Ewr.
  - by rewrite Ewr.
  - eapply Forall_impl; [exact Hbuf|]. intros a. by apply cleaned_buffered.
  - done.
  - congruence.
  - congruence.
  - exists st', v'. split_and!; [done|done|intros b' [Hbx Hbl]%not_elem_of_cons; by rewrite Hb2, Hb1|done|by eapply same_size_trans|].
    intros px py O. rewrite P2 by (by apply (size_on_screen v)). unfold layered. cbn [foldl].
    assert (wclip (wm_wins st') x = wclip (wm_wins st1) x) as -> by (unfold wclip; by rewrite Hb2). rewrite P1, Ec by done.
    assert (wpix (wm_wins st) x px py = win_pixel wr b px py) as -> by (unfold wpix, win_pixel; rewrite Hw, Hb, Er; done).
    generalize (if decide (covers (rects (wclip (wm_wins st1) x)) px py) then win_pixel wr b px py else pix v px py) as c.
    clear -R1. induction l as [|a l IHl]; intros c; cbn [foldl]; [done|]. rewrite (cleaned_wpix st st1) by done. apply IHl.
Qed.

(** Only one window covers a place: it decides. *)
Lemma layered_one m' m l px py c a : a ∈ l -> covers (rects (wclip m' a)) px py ->
  (forall b, b ∈ l -> covers (rects (wclip m' b)) px py -> b = a) -> layered m' m l px py c = wpix m a px py.
Proof.
  unfold layered. revert c. induction l as [|b l IH] using rev_ind; intros c Ha Hc Hu; [by apply not_elem_of_nil in Ha|].
  rewrite foldl_app. cbn [foldl]. destruct (decide (covers (rects (wclip m' b)) px py)) as [D|D].
  - by rewrite (Hu b) by (done || (apply elem_of_app; right; by constructor)).
  - apply elem_of_app in Ha as [Ha|Ha%list_elem_of_singleton]; [|by subst]. apply IH; [done|done|]. intros b' Hb'. apply Hu. apply elem_of_app. by left.
Qed.

(** One round of drawing. *)
Lemma frame_spec (fuel : nat) st v v0 c l (mx my : Z) : wm_inv st l -> (length l <= fuel)%nat ->
  Forall (fun a => dirty (wm_wins st) a = true) l -> Forall rect_ok (wrect (wm_wins st) <$> l) -> Forall reaches_screen (wrect (wm_wins st) <$> l) ->
  Forall (buffered (wm_wins st)) l -> vid_inv v -> fb_width v = scrn_w -> fb_height v = scrn_h -> cursor_on v0 v c -> pos_ok mx my ->
  paint_fits scrn_w scrn_h fuel st (g_win_list st) = true ->
  exists st' v' c', frame scrn_w scrn_h bufs fuel st v c mx my = Some (st', v', c') /\ win_paint scrn_w scrn_h fuel st = Some st' /\ vid_inv v' /\
    (exists v1, cursor_on v1 v' c') /\
    forall px py a, 0 <= px < scrn_w -> 0 <= py < scrn_h - TASKBAR_HEIGHT -> a ∈ l -> get_win_at scrn_h fuel st' px py = Some a ->
      shown v' px py = let t := pix_typ (curr_cursor_type c) (px - mx) (py - my) in
        if decide (in_rect px py (cursor_rect mx my) /\ t <> 0) then (if t =? 1 then Black else White) else wpix (wm_wins st) a px py.
Proof using S.
  intros Inv Hf Hdirty Hok Hre Hbuf I Ew Eh On Pos Hfit. unfold frame.
  destruct (cursor_erase_spec v0 v c I On) as (v1 & E1 & I1 & S1 & P1). rewrite E1. cbn [mbind option_bind]. pose proof S1 as (Ew1 & Eh1 & _).
  destruct (shown_spec scrn_w scrn_h S fuel st l Inv Hf Hdirty Hok Hre) as (st' & Ep & Inv' & _ & _ & Hsh).
  destruct (paint_screen_spec fuel st v1 l 0 (wi_dll _ _ Inv) (wi_nodup _ _ Inv) (wi_null _ _ Inv) Hf Hdirty Hok Hre Hbuf I1)
    as (st2 & v2 & E2 & E2' & _ & I2 & S2 & P2); [congruence|congruence|].
  rewrite (wi_list _ _ Inv). unfold win_paint in Ep. rewrite (wi_list _ _ Inv) in Ep. rewrite Ep in E2'. injection E2' as <-.
  rewrite E2. cbn [mbind option_bind]. destruct (cursor_paint_spec v2 c mx my I2 Pos) as (v3 & c3 & E3 & I3 & On3 & T3 & Mx & My & P3).
  rewrite E3. cbn [mbind option_bind]. pose proof I3 as [V3 D3 Sy3]. destruct (swap_spec v3 V3 D3 Sy3) as (v4 & E4 & F4 & Sh4). rewrite E4. cbn [mbind option_bind].
  pose proof S2 as (Ew2 & Eh2 & _). pose proof On3 as (_ & S3 & _ & _ & Out3). pose proof S3 as (Ew3 & Eh3 & _).
  exists st', v4, c3. split; [done|]. split; [unfold win_paint; by rewrite (wi_list _ _ Inv)|].
  assert (same_size v3 v4) as S4 by (rewrite F4; done). assert (back v4 = back v3) as B4 by (by rewrite F4).
  assert (forall px py, pix v4 px py = pix v3 px py) as P4 by (intros; apply pix_back; [apply S4|done]).
  split_and!.
  - split; [rewrite F4; by destruct V3|rewrite F4; split; [cbn; lia|constructor]|]. intros px py O. right. right. rewrite Sh4 by (by rewrite F4 in O). by rewrite P4.
  - exists v2. destruct On3 as (V2 & _ & Pos3 & Bg3 & _). split_and!; [done|by eapply same_size_trans|done|done|]. intros px py O Hn. rewrite P4.
    apply Out3; [by apply (size_on_screen v3 v4)|done].
  - intros px py a Hpx Hpy Ha Hget. assert (on_screen v3 px py) as O3 by (unfold on_screen, TASKBAR_HEIGHT in *; rewrite Ew3, Eh3, Ew2, Eh2, Ew1, Eh1, Ew, Eh; lia).
    assert (on_screen v2 px py) as O2 by (by apply (size_on_screen v2 v3)). assert (on_screen v1 px py) as O1 by (by apply (size_on_screen v1 v2)).
    rewrite Sh4 by done. cbv zeta.
    assert (pix v2 px py = wpix (wm_wins st) a px py) as Hwin.
    { rewrite P2 by done. apply layered_one; [done|by apply (Hsh a)|]. intros b Hb Hc. destruct (Hsh b px py Hb Hpx Hpy) as (_ & Hg & _).
      specialize (Hg Hc). congruence. }
    rewrite <- Hwin. destruct (decide (in_rect px py (cursor_rect mx my))) as [Hin|Hn].
    + rewrite P3 by done. cbv zeta. destruct (Z.eqb_spec (pix_typ (curr_cursor_type c) (px - mx) (py - my)) 0) as [E|E].
      * rewrite decide_False; [done|]. by intros [_ ?].
      * by rewrite decide_True.
    + rewrite decide_False by (by intros [? _]). apply Out3; [done|]. by rewrite Mx, My.
Qed.
End Paint.

(** C19: one round of the main loop draws the picture it should: every pixel of the screen
    above the taskbar shows the pixel of the window a click there would reach, the topmost
    one, or the cursor where its shape is not transparent.  Nothing is read or written
    outside a buffer.  All windows are dirty, reach the screen, and the pool of rectangles is
    large enough. *)
Theorem frame_correct (scrn_w scrn_h : Z) (bufs : gmap Z pixbuf) (fuel : nat) (st : wm) (v v0 : video) (c : cursor) (l : list Z) (mx my : Z) :
  screen_ok scrn_w scrn_h -> wm_inv st l -> (length l <= fuel)%nat ->
  Forall (fun a => dirty (wm_wins st) a = true) l -> Forall rect_ok (wrect (wm_wins st) <$> l) -> Forall reaches_screen (wrect (wm_wins st) <$> l) ->
  Forall (buffered bufs (wm_wins st)) l -> vid_inv v -> fb_width v = scrn_w -> fb_height v = scrn_h -> cursor_on v0 v c -> pos_ok mx my ->
  paint_fits scrn_w scrn_h fuel st (g_win_list st) = true ->
  exists st' v' c', frame scrn_w scrn_h bufs fuel st v c mx my = Some (st', v', c') /\ win_paint scrn_w scrn_h fuel st = Some st' /\ vid_inv v' /\
    (exists v1, cursor_on v1 v' c') /\
    forall px py a, 0 <= px < scrn_w -> 0 <= py < scrn_h - TASKBAR_HEIGHT -> a ∈ l -> get_win_at scrn_h fuel st' px py = Some a ->
      shown v' px py = let t := pix_typ (curr_cursor_type c) (px - mx) (py - my) in
        if decide (in_rect px py (cursor_rect mx my) /\ t <> 0) then (if t =? 1 then Black else White) else wpix bufs (wm_wins st) a px py.
Proof. intros S. by apply frame_spec. Qed.

(** ** Example: a desktop and a window on a screen of 80 by 60 pixels *)
Definition demo_scr_win (r : Rect) (pix prev next owner flags : Z) (clip : list rnode) : Window :=
  MkWindow r 0 (0, 0) pix (r_w r * r_h r * 4) prev next owner flags clip WIN_STATE_NORMAL WIN_STATE_NORMAL r.
Definition demo_scr : wm :=
  WM (<[0x100 := demo_scr_win (MkRect 0 0 80 60) 0x9000 0 0x200 (-1) (Z.lor WIN_BORDERLESS WIN_DIRTY) [Node 0 (MkRect 0 0 80 60)]]>
     (<[0x200 := demo_scr_win (MkRect 10 10 40 30) 0xA000 0x100 0 1 (Z.lor 7 WIN_DIRTY) [Node 1 (MkRect 10 10 40 30)]]> ∅))
    0x100 0x200 0x100 LAUNCH_NONE (DragCtx 0 0 0 0) (seqZ 3 40) false false [].
Definition demo_bufs : gmap Z pixbuf := <[0x9000 := PB (fun _ => Teal) 4800]> (<[0xA000 := PB (fun i => i) 1200]> ∅).
Definition demo_vid : video := Video (fun _ => 0) (fun _ => 0) 80 60 80 [] false.

Lemma demo_scr_inv : wm_inv demo_scr [0x100; 0x200].
Proof.
  split; [repeat (split; [eexists; split_and!; vm_compute; reflexivity|]); exact Logic.I|by apply (bool_decide_unpack _)|by apply (bool_decide_unpack _)
    |done|done|right; by apply (bool_decide_unpack _)|by left].
Qed.

Lemma demo_scr_rects : wrect (wm_wins demo_scr) <$> [0x100; 0x200] = [MkRect 0 0 80 60; MkRect 10 10 40 30].
Proof. vm_compute. reflexivity. Qed.

Lemma frame_correct_witness : exists st' v' c', frame 80 60 demo_bufs 2 demo_scr demo_vid (cursor_init demo_vid 0 0) 20 20 = Some (st', v', c') /\
  shown v' 5 5 = Teal /\ shown v' 12 11 = 42 /\ shown v' 20 20 = Black /\ shown v' 40 20 = 430.
Proof.
  destruct (frame_correct 80 60 demo_bufs 2 demo_scr demo_vid demo_vid (cursor_init demo_vid 0 0) [0x100; 0x200] 20 20)
    as (st' & v' & c' & E & Ep & _ & _ & H).
  - unfold screen_ok, TASKBAR_HEIGHT. lia.
  - exact demo_scr_inv.
  - simpl. lia.
  - by apply (bool_decide_unpack _).
  - rewrite demo_scr_rects. repeat (apply Forall_cons; split; [unfold rect_ok; cbn; lia|]). constructor.
  - rewrite demo_scr_rects. repeat (apply Forall_cons; split; [unfold reaches_screen; cbn; lia|]). constructor.
  - repeat (apply Forall_cons; split; [do 2 eexists; split_and!; [vm_compute; reflexivity|vm_compute; reflexivity|split; cbn; lia]|]). constructor.
  - split; [split; cbn; lia|split; [cbn; lia|constructor]|]. intros px py _. by right; right.
  - reflexivity.
  - reflexivity.
  - split_and!; [split; cbn; lia|done|unfold pos_ok; cbn; lia|done|done].
  - unfold pos_ok. lia.
  - vm_compute. reflexivity.
  - exists st', v', c'. assert (forall px py a, get_win_at 60 2 st' px py = Some a <-> get_win_at 60 2 (default st' (win_paint 80 60 2 demo_scr)) px py = Some a) as Hg
      by (intros; by rewrite Ep).
    split_and!; [exact E|..].
    + rewrite (H 5 5 0x100); [vm_compute; reflexivity|lia|unfold TASKBAR_HEIGHT; lia|by apply (bool_decide_unpack _)|apply Hg; vm_compute; reflexivity].
    + rewrite (H 12 11 0x200); [vm_compute; reflexivity|lia|unfold TASKBAR_HEIGHT; lia|by apply (bool_decide_unpack _)|apply Hg; vm_compute; reflexivity].
    + rewrite (H 20 20 0x200); [vm_compute; reflexivity|lia|unfold TASKBAR_HEIGHT; lia|by apply (bool_decide_unpack _)|apply Hg; vm_compute; reflexivity].
    + rewrite (H 40 20 0x200); [vm_compute; reflexivity|lia|unfold TASKBAR_HEIGHT; lia|by apply (bool_decide_unpack _)|apply Hg; vm_compute; reflexivity].
Defined.
