(* ===== verification/Terminal.v ===== *)
(** The terminal, [src/progs/terminal.c]: the text it keeps, the bytes it is fed by the
    program that runs in it, the keys it sends and the window it draws.

    A text buffer is the list of its cells; an access outside one, or a division by
    zero, is [None].  The buffers come from [malloc], which succeeds.  Bytes are
    unsigned; [sent] gathers what the terminal has written to the standard input of
    the program. *)
From S2P Require Import Prelude Font WinDraw Ansi.

Record TermCell := Cell { glyph : Z; fg : Z; bg : Z }.
#[export] Instance cell_eq_dec : EqDecision TermCell.
Proof. solve_decision. Defined.

(** The five variables that are saved for the time the other buffer is shown. *)
Record view := View { cur_row : Z; cur_col : Z; start_line_idx : Z; curr_fg : Z; curr_bg : Z }.

Record term := Term {
  n_rows : Z; n_cols : Z; main_buf : list TermCell; alt_buf : list TermCell; is_alt : bool;
  cur : view; saved : view; cur_vis : bool; esc_state : Z; ansi_ctx : AnsiContext;
  shell_dead : bool; sent : list Z }.

(** The window of the terminal: what is drawn, what it was drawn from and what has
    been copied to the window by [blit]. *)
Record display := Disp { win_w : Z; win_h : Z; screen_state : list TermCell; frame_buf : pixbuf; window : pixbuf }.

Section Terminal.
Implicit Types (t : term) (d : display) (c r idx : Z).

Definition text_buf t : list TermCell := if is_alt t then alt_buf t else main_buf t.
Definition set_text t (l : list TermCell) : term :=
  Term (n_rows t) (n_cols t) (if is_alt t then main_buf t else l) (if is_alt t then l else alt_buf t) (is_alt t)
    (cur t) (saved t) (cur_vis t) (esc_state t) (ansi_ctx t) (shell_dead t) (sent t).
Definition set_cur t (v : view) : term :=
  Term (n_rows t) (n_cols t) (main_buf t) (alt_buf t) (is_alt t) v (saved t) (cur_vis t) (esc_state t) (ansi_ctx t) (shell_dead t) (sent t).
Definition set_alt t (b : bool) (v sv : view) : term :=
  Term (n_rows t) (n_cols t) (main_buf t) (alt_buf t) b v sv (cur_vis t) (esc_state t) (ansi_ctx t) (shell_dead t) (sent t).
Definition set_vis t (b : bool) : term :=
  Term (n_rows t) (n_cols t) (main_buf t) (alt_buf t) (is_alt t) (cur t) (saved t) b (esc_state t) (ansi_ctx t) (shell_dead t) (sent t).
Definition set_esc t (s : Z) : term :=
  Term (n_rows t) (n_cols t) (main_buf t) (alt_buf t) (is_alt t) (cur t) (saved t) (cur_vis t) s (ansi_ctx t) (shell_dead t) (sent t).
Definition set_ansi t (a : AnsiContext) : term :=
  Term (n_rows t) (n_cols t) (main_buf t) (alt_buf t) (is_alt t) (cur t) (saved t) (cur_vis t) (esc_state t) a (shell_dead t) (sent t).
Definition set_dead t : term :=
  Term (n_rows t) (n_cols t) (main_buf t) (alt_buf t) (is_alt t) (cur t) (saved t) (cur_vis t) (esc_state t) (ansi_ctx t) true (sent t).
Definition send t (l : list Z) : term :=
  Term (n_rows t) (n_cols t) (main_buf t) (alt_buf t) (is_alt t) (cur t) (saved t) (cur_vis t) (esc_state t) (ansi_ctx t) (shell_dead t) (sent t ++ l).

Definition move t (row col : Z) : term := set_cur t (View row col (start_line_idx (cur t)) (curr_fg (cur t)) (curr_bg (cur t))).
Definition set_start t (s : Z) : term := set_cur t (View (cur_row (cur t)) (cur_col (cur t)) s (curr_fg (cur t)) (curr_bg (cur t))).
Definition ink t c : TermCell := Cell c (curr_fg (cur t)) (curr_bg (cur t)).

Definition get_cell (l : list TermCell) idx : option TermCell := if idx <? 0 then None else l !! Z.to_nat idx.
Definition put_cell (l : list TermCell) idx (x : TermCell) : option (list TermCell) :=
  if (0 <=? idx) && (idx <? Z.of_nat (length l)) then Some (<[Z.to_nat idx := x]> l) else None.
Definition put_text t idx (x : TermCell) : option term := l ← put_cell (text_buf t) idx x; Some (set_text t l).

(** [((start_line_idx + row) % n_rows)] *)
Definition buf_row t (row : Z) : option Z := if n_rows t =? 0 then None else Some (Z.rem (start_line_idx (cur t) + row) (n_rows t)).

Definition term_scroll t : option term :=
  t ← ofold (fun t c => put_text t (start_line_idx (cur t) * n_cols t + c) (ink t 32)) t (seqZ 0 (n_cols t));
  if n_rows t =? 0 then None
  else Some (move (set_start t (Z.rem (start_line_idx (cur t) + 1) (n_rows t))) (cur_row (cur t) - 1) (cur_col (cur t))).

Definition put_at_cursor t (x : TermCell) : option term :=
  br ← buf_row t (cur_row (cur t)); put_text t (br * n_cols t + cur_col (cur t)) x.

Definition term_put_char t c : option term :=
  t ← (if c =? 10 then Some (move t (cur_row (cur t) + 1) 0)
       else if c =? 8 then
         if 0 <? cur_col (cur t) then let t := move t (cur_row (cur t)) (cur_col (cur t) - 1) in put_at_cursor t (ink t 32)
         else Some t
       else
         t ← put_at_cursor t (ink t c);
         let col := cur_col (cur t) + 1 in
         Some (if n_cols t <=? col then move t (cur_row (cur t) + 1) 0 else move t (cur_row (cur t)) col));
  if n_rows t <=? cur_row (cur t) then term_scroll t else Some t.

(** [n_rows * n_cols] cells with the given character and the current colours. *)
Definition blank t : list TermCell := replicate (Z.to_nat (n_rows t * n_cols t)) (ink t 32).

(** *** The driver of the escape parser *)
Definition drv_set_cursor t c r : term :=
  move t (if n_rows t <=? r then n_rows t - 1 else r) (if n_cols t <=? c then n_cols t - 1 else c).

Definition drv_clear_screen t (mode : Z) : option term :=
  if negb (mode =? 2) then Some t
  else
    t ← ofold (fun t i => put_text t i (ink t 32)) t (seqZ 0 (n_rows t * n_cols t));
    Some (set_start (move t 0 0) 0).

Definition term_driver : AnsiDriver := mkDriver true true true true false.

Definition driver_call t (call : ansi_call) : option term :=
  match call with
  | PutChar c => term_put_char t c
  | SetColor color => Some (set_cur t (View (cur_row (cur t)) (cur_col (cur t)) (start_line_idx (cur t)) color (curr_bg (cur t))))
  | SetCursor c r => Some (drv_set_cursor t c r)
  | ClearScreen mode => drv_clear_screen t mode
  | SetMode _ _ => None
  end.

Definition term_write_char t c : option term :=
  let '(ctx, calls) := ansi_write_char (ansi_ctx t) c term_driver in ofold driver_call (set_ansi t ctx) calls.

(** *** The bytes of the program *)
Definition closed_msg : list Z :=
  [10; 10; 91; 83; 104; 101; 108; 108; 32; 99; 108; 111; 115; 101; 100; 46; 32; 80; 114; 101; 115; 115; 32; 97; 110; 121; 32;
   107; 101; 121; 32; 116; 111; 32; 101; 120; 105; 116; 46; 93].

Definition ansi_reset t : term :=
  set_ansi (set_esc t 0) (mkAnsi (a_color (ansi_ctx t)) ANSI_NORMAL (a_buf (ansi_ctx t)) 0).

(** [ESC [ ? 4 7 h] and [ESC [ ? 4 7 l]; the latter marks every cell of the window for drawing. *)
Definition alt_on t : option term :=
  let t := set_alt t true (cur t) (cur t) in
  t ← ofold (fun t j => put_text t j (ink t 32)) t (seqZ 0 (n_rows t * n_cols t));
  Some (ansi_reset (set_start (move t 0 0) 0)).
Definition alt_off t d : term * display :=
  (ansi_reset (set_alt t false (saved t) (saved t)),
   Disp (win_w d) (win_h d) ((fun x => Cell 0xFF (fg x) (bg x)) <$> screen_state d) (frame_buf d) (window d)).

Definition close_shell t : option term := ofold term_write_char (set_dead t) closed_msg.

(** One byte read from the program; true when the rest of the buffer is dropped. *)
Definition term_byte t d c : option (term * display * bool) :=
  let s := esc_state t in
  let take_byte s := Some (set_esc t s, d, false) in
  let pass s :=
    let t := set_esc t s in
    if c =? 4 then t ← close_shell t; Some (t, d, true) else t ← term_write_char t c; Some (t, d, false) in
  if (s =? 0) && (c =? 27) then pass 1
  else if (s =? 1) && (c =? 91) then pass 2
  else if (s =? 2) && (c =? 113) then Some (ansi_reset (send t [27; u8 (n_cols t); u8 (n_rows t); 81]), d, false)
  else if (s =? 2) && (c =? 63) then take_byte 3
  else if (s =? 3) && (c =? 50) then take_byte 4
  else if (s =? 4) && (c =? 53) then take_byte 5
  else if (s =? 5) && (c =? 108) then Some (ansi_reset (set_vis t false), d, false)
  else if (s =? 5) && (c =? 104) then Some (ansi_reset (set_vis t true), d, false)
  else if (s =? 3) && (c =? 52) then take_byte 6
  else if (s =? 6) && (c =? 55) then take_byte 7
  else if (s =? 7) && (c =? 104) then t ← alt_on t; Some (t, d, false)
  else if (s =? 7) && (c =? 108) then Some (alt_off t d, false)
  else pass 0.

Fixpoint term_bytes t d (l : list Z) : option (term * display) :=
  match l with
  | [] => Some (t, d)
  | c :: l =>
      '(t, d, stop) ← term_byte t d c;
      if stop : bool then Some (t, d) else term_bytes t d l
  end.

(** *** Drawing *)
Definition glyph_color (ch px py fg bg r c : Z) : Z := if Z.testbit (font8x8 ch (r - py)) (c - px) then fg else bg.

Definition render_cell_to_fb d (ch col row fg bg : Z) : option pixbuf :=
  let px := col * CHAR_W in
  let py := row * CHAR_H in
  if (win_w d <=? px) || (win_h d <=? py) then Some (frame_buf d)
  else if (0 <=? ch) && (ch <? 128) then
    paint_cells (frame_buf d) (win_w d) (seqZ py 8) (seqZ px 8) (glyph_color ch px py fg bg)
  else None.

(** What the cell at a row and a column of the window is to show. *)
Definition target t r c (x : TermCell) : TermCell :=
  if cur_vis t && (r =? cur_row (cur t)) && (c =? cur_col (cur t)) then Cell (glyph x) Black White else x.

Definition refresh_cell t (dd : display * bool) (rc : Z * Z) : option (display * bool) :=
  let '(d, is_dirty) := dd in
  let '(r, c) := rc in
  br ← buf_row t r;
  x ← get_cell (text_buf t) (br * n_cols t + c);
  let x := target t r c x in
  onscreen ← get_cell (screen_state d) (r * n_cols t + c);
  if decide (x = onscreen) then Some (d, is_dirty)
  else
    fb ← render_cell_to_fb d (if glyph x =? 0 then 32 else glyph x) c r (fg x) (bg x);
    ss ← put_cell (screen_state d) (r * n_cols t + c) x;
    Some (Disp (win_w d) (win_h d) ss fb (window d), true).

Definition cells t : list (Z * Z) := r ← seqZ 0 (n_rows t); c ← seqZ 0 (n_cols t); [(r, c)].

Definition blit d : display := Disp (win_w d) (win_h d) (screen_state d) (frame_buf d) (frame_buf d).

Definition term_refresh t d : option display :=
  '(d, is_dirty) ← ofold (refresh_cell t) (d, false) (cells t);
  Some (if is_dirty : bool then blit d else d).

(** One round of the loop with output of the program: [more] when more is waiting. *)
Definition term_output t d (buf : list Z) (more : bool) : option (term * display) :=
  if bool_decide (buf = []) then
    if shell_dead t then Some (t, d)
    else t ← close_shell t; d ← term_refresh t d; Some (t, d)
  else
    '(t, d) ← term_bytes t d buf;
    if more then Some (t, d) else d ← term_refresh t d; Some (t, d).

Fixpoint term_rounds t d (rounds : list (list Z * bool)) : option (term * display) :=
  match rounds with
  | [] => Some (t, d)
  | (buf, more) :: rounds => '(t, d) ← term_output t d buf more; term_rounds t d rounds
  end.

(** *** Start and events *)
Definition fresh_display (w h : Z) (n : Z) (win : pixbuf) : display :=
  Disp w h (replicate (Z.to_nat n) (Cell 0xFF 0 0)) (PB (fun _ => 0) (w * h)) win.

Definition term_start (w h : Z) (win : pixbuf) : option (term * display) :=
  let n_cols := Z.quot w CHAR_W in
  let n_rows := Z.quot h CHAR_H in
  let v := View 0 0 0 White Black in
  let sv := View 0 0 0 0 0 in
  let l := replicate (Z.to_nat (n_rows * n_cols)) (Cell 32 White Black) in
  let t := Term n_rows n_cols l l false v sv true 0 (mkAnsi White ANSI_NORMAL (replicate ANSI_BUF_SIZE 0) 0) false [] in
  d ← term_refresh t (fresh_display w h (n_rows * n_cols) win);
  Some (t, d).

Definition term_resize t d (new_w new_h : Z) (win : pixbuf) : option (term * display) :=
  if (0 <? new_w) && (0 <? new_h) then
    let cols := Z.quot new_w CHAR_W in
    let rows := Z.quot new_h CHAR_H in
    let l := replicate (Z.to_nat (rows * cols)) (ink t 32) in
    let t := Term rows cols l l (is_alt t) (View 0 0 0 (curr_fg (cur t)) (curr_bg (cur t))) (saved t) (cur_vis t) (esc_state t) (ansi_ctx t)
               (shell_dead t) (sent t) in
    d ← term_refresh t (fresh_display new_w new_h (rows * cols) win);
    Some (if shell_dead t then t else send t [0x0C], d)
  else Some (t, d).

(** A pressed key: [None] when the terminal exits; [kill_fg] and [write] are what the
    system calls return. *)
Definition term_key t c (is_ctrl : bool) (kill_fg write : Z) : option term :=
  if shell_dead t then None
  else if (c =? 99) && is_ctrl then Some (if kill_fg =? 0 then send t [3] else t)
  else if write <=? 0 then None
  else Some (send t [if is_ctrl then Z.land c 0x1F else c]).
End Terminal.
