(* ===== verification/TerminalSpec.v ===== *)
(** The text of the terminal against a plain screen: a character for every row and
    column and a cursor, scrolled by moving every row up.  [shows] relates the two; the
    terminal keeps its rows in a ring and moves only the index of the first. *)
From S2P Require Import Prelude Ansi Terminal.

(** A screen of [R] rows and [C] columns. *)
Record screen := Scr { cell : Z -> Z -> TermCell; s_row : Z; s_col : Z; s_fg : Z; s_bg : Z }.

Section Screen.
Context (R C : Z).
Implicit Types (s : screen) (c : Z).

Definition s_ink s c : TermCell := Cell c (s_fg s) (s_bg s).
Definition s_move s (row col : Z) : screen := Scr (cell s) row col (s_fg s) (s_bg s).
Definition s_put s (x : TermCell) : screen :=
  Scr (fun r c => if decide (r = s_row s /\ c = s_col s) then x else cell s r c) (s_row s) (s_col s) (s_fg s) (s_bg s).
Definition s_scroll s : screen :=
  if R <=? s_row s
  then Scr (fun r c => if r + 1 =? R then s_ink s 32 else cell s (r + 1) c) (s_row s - 1) (s_col s) (s_fg s) (s_bg s) else s.
Definition s_advance s : screen := if C <=? s_col s + 1 then s_move s (s_row s + 1) 0 else s_move s (s_row s) (s_col s + 1).

Definition s_put_char s c : screen :=
  s_scroll (if c =? 10 then s_move s (s_row s + 1) 0
            else if c =? 8 then (if 0 <? s_col s then let s := s_move s (s_row s) (s_col s - 1) in s_put s (s_ink s 32) else s)
            else s_advance (s_put s (s_ink s c))).

Definition s_call s (call : ansi_call) : screen :=
  match call with
  | PutChar c => s_put_char s c
  | SetColor color => Scr (cell s) (s_row s) (s_col s) color (s_bg s)
  | SetCursor c r => s_move s (Z.min r (R - 1)) (Z.min c (C - 1))
  | ClearScreen mode => if mode =? 2 then Scr (fun _ _ => s_ink s 32) 0 0 (s_fg s) (s_bg s) else s
  | SetMode _ _ => s
  end.
End Screen.

(** *** Well-formed terminals *)
Definition view_ok (R C : Z) (v : view) : Prop := 0 <= cur_row v < R /\ 0 <= cur_col v < C /\ 0 <= start_line_idx v < R.
Definition ascii (x : TermCell) : Prop := 0 <= glyph x < 128.
Definition buf_ok (R C : Z) (l : list TermCell) : Prop := Z.of_nat (length l) = R * C /\ Forall ascii l.

Record term_ok (t : term) : Prop := {
  to_size : 0 < n_rows t /\ 0 < n_cols t;
  to_main : buf_ok (n_rows t) (n_cols t) (main_buf t);
  to_alt : buf_ok (n_rows t) (n_cols t) (alt_buf t);
  to_cur : view_ok (n_rows t) (n_cols t) (cur t);
  to_saved : view_ok (n_rows t) (n_cols t) (saved t) }.

(** The cell shown at a row and a column. *)
Definition cell_at (t : term) (r c : Z) : option TermCell :=
  get_cell (text_buf t) ((start_line_idx (cur t) + r) mod n_rows t * n_cols t + c).

Record shows (t : term) (s : screen) : Prop := {
  sh_cell r c : 0 <= r < n_rows t -> 0 <= c < n_cols t -> cell_at t r c = Some (cell s r c);
  sh_row : cur_row (cur t) = s_row s;
  sh_col : cur_col (cur t) = s_col s;
  sh_fg : curr_fg (cur t) = s_fg s;
  sh_bg : curr_bg (cur t) = s_bg s }.

(** What output in the current buffer leaves alone. *)
Definition same_rest (t t' : term) : Prop :=
  n_rows t' = n_rows t /\ n_cols t' = n_cols t /\ is_alt t' = is_alt t /\ saved t' = saved t /\ cur_vis t' = cur_vis t /\
  esc_state t' = esc_state t /\ ansi_ctx t' = ansi_ctx t /\ shell_dead t' = shell_dead t /\ sent t' = sent t /\
  (if is_alt t then main_buf t' = main_buf t else alt_buf t' = alt_buf t).

Section Spec.
Implicit Types (t : term) (s : screen) (l : list TermCell) (x : TermCell).

Lemma same_rest_refl t : same_rest t t.
Proof. unfold same_rest. by destruct (is_alt t). Qed.
Lemma same_rest_trans t1 t2 t3 : same_rest t1 t2 -> same_rest t2 t3 -> same_rest t1 t3.
Proof. unfold same_rest. intros (? & ? & E & H1) (? & ? & ? & H2). rewrite E in H2. destruct (is_alt t1); intuition congruence. Qed.
Lemma same_rest_cur t v : same_rest t (set_cur t v).
Proof. unfold same_rest. cbn. by destruct (is_alt t). Qed.
Lemma same_rest_text t l : same_rest t (set_text t l).
Proof. unfold same_rest. cbn. by destruct (is_alt t). Qed.
#[local] Hint Resolve same_rest_refl same_rest_cur same_rest_text : core.

Lemma text_set t l : text_buf (set_text t l) = l.
Proof. unfold text_buf, set_text. cbn. by destruct (is_alt t). Qed.
Lemma set_text_twice t l l' : set_text (set_text t l) l' = set_text t l'.
Proof. unfold set_text. cbn. by destruct (is_alt t). Qed.
Lemma set_text_same t : set_text t (text_buf t) = t.
Proof. unfold set_text, text_buf. destruct t as [? ? ? ? b]. cbn. by destruct b. Qed.

Lemma text_ok t : term_ok t -> buf_ok (n_rows t) (n_cols t) (text_buf t).
Proof. intros [_ Hm Ha _ _]. unfold text_buf. by destruct (is_alt t). Qed.
Lemma set_text_ok t l : term_ok t -> buf_ok (n_rows t) (n_cols t) l -> term_ok (set_text t l).
Proof. intros [Hs Hm Ha Hc Hsv] Hl. split; cbn; try done; by destruct (is_alt t). Qed.
Lemma set_cur_ok t v : term_ok t -> view_ok (n_rows t) (n_cols t) v -> term_ok (set_cur t v).
Proof. intros [Hs Hm Ha Hc Hsv] Hv. by split. Qed.

Lemma term_index_range R C r c : 0 < R -> 0 <= r < R -> 0 <= c < C -> 0 <= r * C + c < R * C.
Proof. nia. Qed.
Lemma term_index_inj C r c r' c' : 0 <= c < C -> 0 <= c' < C -> r * C + c = r' * C + c' -> r = r' /\ c = c'.
Proof. intros Hc Hc' E. assert (r = r') as -> by nia. lia. Qed.

(** *** The ring of rows *)
Lemma ring_range R (x : Z) : 0 < R -> 0 <= x mod R < R.
Proof. intros. by apply Z.mod_pos_bound. Qed.

Lemma mod_small_diff R (x d : Z) : 0 < R -> - R < d < R -> (x + d) mod R = x mod R -> d = 0.
Proof.
  intros HR Hd E. pose proof (Z.div_mod (x + d) R ltac:(lia)) as E1. pose proof (Z.div_mod x R ltac:(lia)) as E2.
  rewrite E in E1. assert (d = R * ((x + d) / R - x / R)) as Ed by lia. set (k := (x + d) / R - x / R) in *. assert (k = 0) by nia. nia.
Qed.

Lemma ring_inj (R s r r' : Z) : 0 < R -> 0 <= r < R -> 0 <= r' < R -> (s + r) mod R = (s + r') mod R -> r = r'.
Proof. 
  intros HR Hr Hr' E. enough (r - r' = 0) by lia. apply (mod_small_diff R (s + r') (r - r') HR); [lia|].
  by replace (s + r' + (r - r')) with (s + r) by lia.
 Qed.

Lemma get_cell_insert l i j x : 0 <= i < Z.of_nat (length l) -> get_cell (<[Z.to_nat i := x]> l) j = if decide (j = i) then Some x else get_cell l j.
Proof.
  intros Hi. unfold get_cell. destruct (Z.ltb_spec j 0); [by rewrite decide_False by lia|]. destruct (decide (j = i)) as [->|Hne].
  - rewrite list_lookup_insert_eq by lia. done.
  - rewrite list_lookup_insert_ne by lia. done.
Qed.

Lemma term_insert_ok R C l i x : buf_ok R C l -> ascii x -> buf_ok R C (<[Z.to_nat i := x]> l).
Proof. intros [Hl Ha] Hx. split; [by rewrite length_insert|]. by apply Forall_insert. Qed.

Lemma put_text_eq t i x : buf_ok (n_rows t) (n_cols t) (text_buf t) -> 0 <= i < n_rows t * n_cols t ->
  put_text t i x = Some (set_text t (<[Z.to_nat i := x]> (text_buf t))).
Proof.
  intros [Hl _] Hi. unfold put_text, put_cell. rewrite Hl. by rewrite (proj2 (Z.leb_le _ _)), (proj2 (Z.ltb_lt _ _)) by lia.
Qed.

Lemma put_text_ok t i x : term_ok t -> ascii x -> 0 <= i < n_rows t * n_cols t ->
  put_text t i x = Some (set_text t (<[Z.to_nat i := x]> (text_buf t))) /\ term_ok (set_text t (<[Z.to_nat i := x]> (text_buf t))).
Proof.
  intros I Hx Hi. pose proof (text_ok t I). split; [by apply put_text_eq|]. apply set_text_ok; [done|]. by apply term_insert_ok.
Qed.

Lemma buf_row_ok t r : term_ok t -> 0 <= r -> buf_row t r = Some ((start_line_idx (cur t) + r) mod n_rows t).
Proof.
  intros I Hr. pose proof (to_size _ I). pose proof (to_cur _ I) as (_ & _ & Hs). unfold buf_row. rewrite (proj2 (Z.eqb_neq _ _)) by lia.
  by rewrite Z.rem_mod_nonneg by lia.
Qed.

(** A store in the text is a store in the screen. *)
Lemma put_at_cursor_shows t s x : term_ok t -> shows t s -> ascii x ->
  exists t', put_at_cursor t x = Some t' /\ term_ok t' /\ shows t' (s_put s x) /\ same_rest t t' /\ cur t' = cur t.
Proof.
  intros I Sh Hx. pose proof (to_size _ I) as [HR HC]. destruct (to_cur _ I) as (Hr & Hc & Hs). unfold put_at_cursor. rewrite buf_row_ok by (done || lia).
  cbn [mbind option_bind]. set (br := (start_line_idx (cur t) + cur_row (cur t)) mod n_rows t).
  assert (0 <= br < n_rows t) as Hbr by by apply ring_range.
  destruct (put_text_ok t (br * n_cols t + cur_col (cur t)) x I Hx) as [-> I']; [by apply term_index_range|]. eexists. split; [done|].
  split; [done|]. split; [|by eauto]. destruct Sh as [S1 S2 S3 S4 S5]. split; cbn [s_put cell s_row s_col s_fg s_bg]; try done.
  intros r c Hr' Hc'. unfold cell_at. rewrite text_set. change (n_rows (set_text _ _)) with (n_rows t) in *. change (n_cols (set_text _ _)) with (n_cols t) in *.
  change (cur (set_text _ _)) with (cur t). rewrite get_cell_insert by (rewrite (proj1 (text_ok t I)); by apply term_index_range).
  rewrite <- S2, <- S3. specialize (S1 r c Hr' Hc'). unfold cell_at in S1. destruct (decide (_ = _)) as [E|Hne].
  - apply term_index_inj in E as [E ->]; [|done|done]. apply ring_inj in E as ->; [|lia..]. by rewrite decide_True.
  - rewrite S1, decide_False; [done|]. intros [-> ->]. by apply Hne.
Qed.

(** *** Loops that blank cells *)
Lemma fill_text (f : term -> Z -> option term) t base n x : buf_ok (n_rows t) (n_cols t) (text_buf t) -> ascii x -> 0 <= base -> 0 <= n -> base + n <= n_rows t * n_cols t ->
  (forall l c, f (set_text t l) c = put_text (set_text t l) (base + c) x) ->
  exists l, ofold f t (seqZ 0 n) = Some (set_text t l) /\ buf_ok (n_rows t) (n_cols t) l /\
    forall i, get_cell l i = if decide (base <= i < base + n) then Some x else get_cell (text_buf t) i.
Proof.
  intros I Hx Hb Hn Hbn Hf.
  destruct (ofold_inv (fun done t' => exists l, t' = set_text t l /\ buf_ok (n_rows t) (n_cols t) l /\
    forall i, get_cell l i = if decide (base <= i < base + Z.of_nat (length done)) then Some x else get_cell (text_buf t) i) f (seqZ 0 n) t)
    as (t' & E & l & -> & Hl & Hg).
  - exists (text_buf t). rewrite set_text_same. split; [done|]. split; [done|]. intros i. rewrite decide_False by (simpl; lia). done.
  - intros done c t' Hp (l & -> & Hl & Hg). assert (c = Z.of_nat (length done) /\ Z.of_nat (length done) < n) as [-> Hlt].
    { destruct Hp as [k Hk]. assert (seqZ 0 n !! length done = Some c) as Hc.
      { rewrite Hk, <- app_assoc. by apply list_lookup_middle. } apply lookup_seqZ in Hc. lia. }
    rewrite Hf, put_text_eq by (rewrite ?text_set; cbn; (done || lia)). rewrite text_set, set_text_twice. eexists. split; [done|]. eexists. split; [done|]. split; [by apply term_insert_ok|]. intros i.
    rewrite get_cell_insert by (destruct Hl as [-> _]; lia). rewrite length_app. cbn [length]. rewrite Hg.
    destruct (decide (i = _)) as [->|]; [by rewrite decide_True by lia|]. by apply decide_ext; lia.
  - exists l. split; [done|]. split; [done|]. intros i. rewrite Hg, length_seqZ. by apply decide_ext; lia.
Qed.

Lemma move_shows t s row col : shows t s -> shows (move t row col) (s_move s row col).
Proof. intros [S1 S2 S3 S4 S5]. by split. Qed.
Lemma move_ok t row col : term_ok t -> 0 <= row < n_rows t -> 0 <= col < n_cols t -> term_ok (move t row col).
Proof. intros I Hr Hc. apply set_cur_ok; [done|]. destruct (to_cur _ I) as (_ & _ & Hs). done. Qed.
Lemma ink_shows t s c : shows t s -> ink t c = s_ink s c.
Proof. intros [_ _ _ S4 S5]. unfold ink, s_ink. by rewrite S4, S5. Qed.

(** Scrolling: the first row of the ring is blanked and becomes the last.  The cursor is one row below the screen. *)
Lemma scroll_shows t s col : term_ok t -> shows t s -> 0 <= col < n_cols t -> let t1 := move t (n_rows t) col in
  exists t', term_scroll t1 = Some t' /\ term_ok t' /\ shows t' (s_scroll (n_rows t) (s_move s (n_rows t) col)) /\ same_rest t t'.
Proof.
  intros I Sh Hcol t1. pose proof (to_size _ I) as [HR HC]. destruct (to_cur _ I) as (Hr & Hc & Hs). unfold term_scroll.
  destruct (fill_text (fun t c => put_text t (start_line_idx (cur t) * n_cols t + c) (ink t 32)) t1 (start_line_idx (cur t) * n_cols t) (n_cols t) (ink t 32))
    as (l & E & Hl & Hg); [by apply (text_ok t)|unfold ascii, ink; cbn; lia|nia|lia|cbn; nia|done|].
  change (n_cols t1) with (n_cols t). rewrite E. cbn [mbind option_bind]. change (n_rows (set_text t1 l)) with (n_rows t).
  rewrite (proj2 (Z.eqb_neq _ _)) by lia. eexists. split; [done|]. set (t2 := move _ _ _).
  assert (start_line_idx (cur t2) = (start_line_idx (cur t) + 1) mod n_rows t) as Est by (unfold t2; cbn; by rewrite Z.rem_mod_nonneg by lia).
  assert (term_ok (set_text t l)) as I' by by apply set_text_ok.
  split; [|split].
  - change t2 with (set_cur (set_text t l) (cur t2)). apply set_cur_ok; [done|]. unfold view_ok. rewrite Est. split; [cbn; lia|]. split; [done|]. by apply ring_range.
  - unfold s_scroll. cbn [s_move s_row]. rewrite Z.leb_refl. split; cbn [cell s_row s_col s_fg s_bg s_move]; [|done|done|apply Sh|apply Sh].
    intros r c Hr' Hc'. unfold cell_at. rewrite Est. change (text_buf t2) with (text_buf (set_text t1 l)). rewrite text_set, Hg.
    change (n_rows t2) with (n_rows t) in *. change (n_cols t2) with (n_cols t) in *. change (text_buf t1) with (text_buf t).
    rewrite Zplus_mod_idemp_l. replace (start_line_idx (cur t) + 1 + r) with (start_line_idx (cur t) + (r + 1)) by lia.
    destruct (Z.eqb_spec (r + 1) (n_rows t)) as [->|Hne].
    + rewrite <- Zplus_mod_idemp_r, Z.mod_same, Z.add_0_r, Z.mod_small, decide_True by lia. by rewrite (ink_shows t s).
    + rewrite decide_False; [apply Sh; cbn in *; lia|]. intros Hin. assert ((start_line_idx (cur t) + (r + 1)) mod n_rows t = start_line_idx (cur t)) as Em by nia.
      rewrite <- (Z.mod_small (start_line_idx (cur t)) (n_rows t)) in Em at 2 by lia.
      apply mod_small_diff in Em; lia.
  - unfold same_rest, t2, t1. cbn. by destruct (is_alt t).
Qed.

(** *** Characters *)
Lemma newline_shows t s col : term_ok t -> shows t s -> 0 <= col < n_cols t ->
  exists t', (let t := move t (cur_row (cur t) + 1) col in if n_rows t <=? cur_row (cur t) then term_scroll t else Some t) = Some t' /\
    term_ok t' /\ shows t' (s_scroll (n_rows t) (s_move s (s_row s + 1) col)) /\ same_rest t t'.
Proof.
  intros I Sh Hcol. cbn [move set_cur n_rows cur cur_row]. destruct (to_cur _ I) as (Hr' & _ & _).
  destruct (Z.leb_spec (n_rows t) (cur_row (cur t) + 1)) as [Hge|Hlt].
  - rewrite <- (sh_row _ _ Sh). replace (cur_row (cur t) + 1) with (n_rows t) by lia. by apply scroll_shows.
  - eexists. split; [done|]. split; [apply move_ok; (done || lia)|]. split; [|apply same_rest_cur]. unfold s_scroll. cbn [s_move s_row].
    rewrite <- (sh_row _ _ Sh), (proj2 (Z.leb_gt _ _)) by lia. by apply move_shows.
Qed.

Lemma stay_shows t s : term_ok t -> shows t s ->
  (if n_rows t <=? cur_row (cur t) then term_scroll t else Some t) = Some t /\ s_scroll (n_rows t) s = s.
Proof.
  intros I Sh. destruct (to_cur _ I) as (Hr & _ & _). unfold s_scroll. rewrite <- (sh_row _ _ Sh). by rewrite (proj2 (Z.leb_gt _ _)) by lia.
Qed.

Lemma put_char_shows t s c : term_ok t -> shows t s -> 0 <= c < 128 ->
  exists t', term_put_char t c = Some t' /\ term_ok t' /\ shows t' (s_put_char (n_rows t) (n_cols t) s c) /\ same_rest t t'.
Proof.
  intros I Sh Hch. pose proof (to_size _ I) as [HR HC]. destruct (to_cur _ I) as (Hr & Hc & _). unfold term_put_char, s_put_char.
  destruct (Z.eqb_spec c 10); [cbn [mbind option_bind]; by apply newline_shows|]. destruct (Z.eqb_spec c 8).
  - rewrite <- (sh_col _ _ Sh), <- (sh_row _ _ Sh). destruct (Z.ltb_spec 0 (cur_col (cur t))).
    + set (t1 := move t (cur_row (cur t)) (cur_col (cur t) - 1)). assert (term_ok t1) as I1 by (apply move_ok; (done || lia)).
      assert (shows t1 (s_move s (cur_row (cur t)) (cur_col (cur t) - 1))) as Sh1 by by apply move_shows.
      destruct (put_at_cursor_shows t1 _ (ink t1 32) I1 Sh1) as (t2 & -> & I2 & Sh2 & R2 & _); [unfold ascii, ink; cbn; lia|]. cbn [mbind option_bind].
      rewrite (ink_shows t1 _ _ Sh1) in Sh2. destruct R2 as (En & R2). destruct (stay_shows _ _ I2 Sh2) as [-> E2]. exists t2. split; [done|]. split; [done|].
      rewrite En in E2. cbn [n_rows t1 move set_cur] in E2. rewrite E2. split; [done|]. by split.
    + cbn [mbind option_bind]. destruct (stay_shows _ _ I Sh) as [-> ->]. eauto.
  - destruct (put_at_cursor_shows t s (ink t c) I Sh) as (t1 & -> & I1 & Sh1 & R1 & Ec); [done|]. cbn [mbind option_bind].
    rewrite (ink_shows t s) in Sh1 by done. pose proof R1 as (En & Em & _). unfold s_advance. cbn [s_put s_row s_col].
    rewrite Em, Ec, <- (sh_col _ _ Sh), <- (sh_row _ _ Sh). destruct (Z.leb_spec (n_cols t) (cur_col (cur t) + 1)).
    + destruct (newline_shows t1 _ 0 I1 Sh1) as (t2 & E2 & I2 & Sh2 & R2); [lia|]. cbn [s_put s_row] in Sh2.
      rewrite Ec in E2. rewrite En, <- (sh_row _ _ Sh) in Sh2. exists t2. split; [done|]. split; [done|]. split; [done|]. by eapply same_rest_trans.
    + assert (term_ok (move t1 (cur_row (cur t)) (cur_col (cur t) + 1))) as I2 by (apply move_ok; rewrite ?En, ?Em; (done || lia)).
      destruct (stay_shows _ _ I2 (move_shows _ _ _ _ Sh1)) as [-> E2]. eexists. split; [done|]. split; [done|]. change (n_rows (move t1 _ _)) with (n_rows t1) in E2.
      rewrite En in E2. rewrite E2. split; [by apply move_shows|]. eapply same_rest_trans; [done|]. apply same_rest_cur.
Qed.

(** Blanking the whole buffer and moving home. *)
Lemma clear_shows t s : term_ok t -> shows t s -> exists l,
  ofold (fun t i => put_text t i (ink t 32)) t (seqZ 0 (n_rows t * n_cols t)) = Some (set_text t l) /\
  let t' := set_start (move (set_text t l) 0 0) 0 in
  term_ok t' /\ shows t' (Scr (fun _ _ => s_ink s 32) 0 0 (s_fg s) (s_bg s)) /\ same_rest t t'.
Proof.
  intros I Sh. pose proof (to_size _ I) as [HR HC].
  destruct (fill_text (fun t i => put_text t i (ink t 32)) t 0 (n_rows t * n_cols t) (ink t 32)) as (l & E & Hl & Hg);
    [by apply text_ok|unfold ascii, ink; cbn; lia|lia|nia|lia|done|].
  exists l. split; [done|]. cbv zeta. split; [|split].
  - apply set_cur_ok; [|unfold view_ok; cbn; lia]. apply move_ok; [by apply set_text_ok|cbn; lia..].
  - split; cbn [cell s_row s_col s_fg s_bg]; [|done|done|apply Sh|apply Sh]. intros r c Hr Hc. unfold cell_at.
    change (text_buf (set_start _ _)) with (text_buf (set_text t l)). rewrite text_set, Hg, decide_True; [by rewrite (ink_shows t s)|].
    cbn. apply term_index_range; [done|by apply ring_range|done].
  - unfold same_rest. cbn. by destruct (is_alt t).
Qed.

(** *** Calls of the escape parser *)
Definition call_ok (call : ansi_call) : Prop :=
  match call with PutChar c => 0 <= c < 128 | SetCursor c r => 0 <= c /\ 0 <= r | SetMode _ _ => False | _ => True end.

Lemma set_colors_ok codes color : Forall call_ok (snd (set_colors term_driver codes color)).
Proof.
  unfold set_colors. cut (forall out, Forall call_ok out -> Forall call_ok (snd (foldl (fun '(color, out) code =>
    if (30 <=? code) && (code <=? 37) then
      let color := default 0 (g_ansi_palette !! Z.to_nat (code - 30)) in (color, out ++ call_if (has_set_color term_driver) (SetColor color))
    else if code =? 0 then (Ansi.White, out ++ call_if (has_set_color term_driver) (SetColor Ansi.White)) else (color, out)) (color, out) codes))); [auto|].
  revert color. induction codes as [|code codes IH]; intros color out Hout; [done|]. cbn [foldl].
  destruct (_ && _); [apply IH; apply Forall_app; split; [done|by apply Forall_singleton]|].
  destruct (_ =? 0); [apply IH; apply Forall_app; split; [done|by apply Forall_singleton]|by apply IH].
Qed.

Lemma ansi_calls_ok ctx c : 0 <= c < 128 -> Forall call_ok (snd (ansi_write_char ctx c term_driver)).
Proof.
  intros Hc. unfold ansi_write_char. destruct (a_state ctx).
  - destruct (c =? 27); cbn; [done|by apply Forall_singleton].
  - by destruct (c =? 91).
  - destruct (_ || _); [by destruct (_ <? _)|]. destruct (parse_ansi_params (a_buf ctx)) as [[buf params] count].
    unfold ansi_exec. cbn [has_set_cursor has_clear_screen has_set_mode term_driver andb call_if].
    destruct (_ || _); [cbn; apply Forall_singleton; cbn; repeat case_match; lia|].
    destruct (c =? 74); [by destruct (_ =? 2); cbn; [apply Forall_singleton|]|].
    destruct (c =? 109); [|by destruct (c =? 104), (c =? 108)].
    pose proof (set_colors_ok (take count params) (a_color ctx)) as H. by destruct (set_colors _ _ _).
Qed.

Lemma driver_call_shows t s call : term_ok t -> shows t s -> call_ok call ->
  exists t', driver_call t call = Some t' /\ term_ok t' /\ shows t' (s_call (n_rows t) (n_cols t) s call) /\ same_rest t t'.
Proof.
  intros I Sh Hc. pose proof (to_size _ I) as [HR HC]. destruct call as [c|color|c r|mode|]; cbn [driver_call s_call]; [by apply put_char_shows| | | |done].
  - eexists. split; [done|]. split; [apply set_cur_ok; [done|apply I]|]. split; [destruct Sh; by split|apply same_rest_cur].
  - unfold drv_set_cursor. eexists. split; [done|]. destruct Hc as [Hc Hr].
    replace (if n_rows t <=? r then n_rows t - 1 else r) with (Z.min r (n_rows t - 1)) by (destruct (Z.leb_spec (n_rows t) r); lia).
    replace (if n_cols t <=? c then n_cols t - 1 else c) with (Z.min c (n_cols t - 1)) by (destruct (Z.leb_spec (n_cols t) c); lia).
    split; [apply move_ok; (done || lia)|]. split; [by apply move_shows|apply same_rest_cur].
  - unfold drv_clear_screen. destruct (mode =? 2); cbn [negb]; [|eauto].
    destruct (clear_shows t s I Sh) as (l & -> & H). cbn [mbind option_bind]. eauto.
Qed.

Lemma driver_calls_shows calls t s : term_ok t -> shows t s -> Forall call_ok calls ->
  exists t', ofold driver_call t calls = Some t' /\ term_ok t' /\ shows t' (foldl (s_call (n_rows t) (n_cols t)) s calls) /\ same_rest t t'.
Proof.
  revert t s. induction calls as [|call calls IH]; intros t s I Sh Hc; cbn [ofold foldl]; [eauto|]. apply Forall_cons in Hc as [Hc Hcs].
  destruct (driver_call_shows t s call I Sh Hc) as (t1 & -> & I1 & Sh1 & R1). destruct (IH t1 _ I1 Sh1 Hcs) as (t2 & E2 & I2 & Sh2 & R2).
  exists t2. split; [done|]. split; [done|]. pose proof R1 as (En & Em & _). rewrite En, Em in Sh2. split; [done|]. by eapply same_rest_trans.
Qed.

Lemma write_char_shows t s c : term_ok t -> shows t s -> 0 <= c < 128 ->
  let '(ctx, calls) := ansi_write_char (ansi_ctx t) c term_driver in
  exists t', term_write_char t c = Some t' /\ term_ok t' /\ shows t' (foldl (s_call (n_rows t) (n_cols t)) s calls) /\ same_rest (set_ansi t ctx) t'.
Proof.
  intros I Sh Hc. pose proof (ansi_calls_ok (ansi_ctx t) c Hc) as Hcalls. unfold term_write_char.
  destruct (ansi_write_char (ansi_ctx t) c term_driver) as [ctx calls]. cbn [snd] in Hcalls.
  apply (driver_calls_shows calls (set_ansi t ctx) s); [by destruct I|by destruct Sh|done].
Qed.
End Spec.
