(* ===== verification/TerminalRun.v ===== *)
(** The bytes a program writes, against a machine on plain screens: a terminal shows
    a screen, and while the other buffer is shown it keeps the screen that comes back.
    Switching twice to the other buffer, or back without having switched, is outside
    the machine ([None]). *)
From S2P Require Import Prelude Ansi Terminal TerminalSpec.

Record aterm := AT {
  at_scr : screen; at_hidden : option screen; at_vis : bool; at_esc : Z; at_ansi : AnsiContext; at_dead : bool; at_sent : list Z }.

Section Machine.
Context (R C : Z).
Implicit Types (a : aterm) (c : Z) (s : screen).

Definition at_with a s (ctx : AnsiContext) : aterm := AT s (at_hidden a) (at_vis a) (at_esc a) ctx (at_dead a) (at_sent a).
Definition at_state a (e : Z) : aterm := AT (at_scr a) (at_hidden a) (at_vis a) e (at_ansi a) (at_dead a) (at_sent a).
Definition at_reset a : aterm :=
  AT (at_scr a) (at_hidden a) (at_vis a) 0 (mkAnsi (a_color (at_ansi a)) ANSI_NORMAL (a_buf (at_ansi a)) 0) (at_dead a) (at_sent a).

Definition at_char a c : aterm :=
  let '(ctx, calls) := ansi_write_char (at_ansi a) c term_driver in at_with a (foldl (s_call R C) (at_scr a) calls) ctx.

Definition at_close a : aterm :=
  foldl at_char (AT (at_scr a) (at_hidden a) (at_vis a) (at_esc a) (at_ansi a) true (at_sent a)) closed_msg.

Definition at_pass a c : aterm * bool := if c =? 4 then (at_close a, true) else (at_char a c, false).

Definition at_byte a c : option (aterm * bool) :=
  let e := at_esc a in
  let s := at_scr a in
  if (e =? 0) && (c =? 27) then Some (at_pass (at_state a 1) c)
  else if (e =? 1) && (c =? 91) then Some (at_pass (at_state a 2) c)
  else if (e =? 2) && (c =? 113) then
    Some (at_reset (AT s (at_hidden a) (at_vis a) e (at_ansi a) (at_dead a) (at_sent a ++ [27; u8 C; u8 R; 81])), false)
  else if (e =? 2) && (c =? 63) then Some (at_state a 3, false)
  else if (e =? 3) && (c =? 50) then Some (at_state a 4, false)
  else if (e =? 4) && (c =? 53) then Some (at_state a 5, false)
  else if (e =? 5) && (c =? 108) then Some (at_reset (AT s (at_hidden a) false e (at_ansi a) (at_dead a) (at_sent a)), false)
  else if (e =? 5) && (c =? 104) then Some (at_reset (AT s (at_hidden a) true e (at_ansi a) (at_dead a) (at_sent a)), false)
  else if (e =? 3) && (c =? 52) then Some (at_state a 6, false)
  else if (e =? 6) && (c =? 55) then Some (at_state a 7, false)
  else if (e =? 7) && (c =? 104) then
    match at_hidden a with
    | None => Some (at_reset (AT (Scr (fun _ _ => s_ink s 32) 0 0 (s_fg s) (s_bg s)) (Some s) (at_vis a) e (at_ansi a) (at_dead a) (at_sent a)), false)
    | Some _ => None
    end
  else if (e =? 7) && (c =? 108) then
    h ← at_hidden a; Some (at_reset (AT h None (at_vis a) e (at_ansi a) (at_dead a) (at_sent a)), false)
  else Some (at_pass (at_state a 0) c).

Fixpoint at_bytes a (l : list Z) : option aterm :=
  match l with
  | [] => Some a
  | c :: l => '(a, stop) ← at_byte a c; if stop : bool then Some a else at_bytes a l
  end.
End Machine.

(** The terminal with the text it returns to. *)
Definition back (t : term) : term := set_alt t false (saved t) (saved t).

Record refines (t : term) (a : aterm) : Prop := {
  rf_ok : term_ok t;
  rf_scr : shows t (at_scr a);
  rf_hidden : if at_hidden a is Some h then is_alt t = true /\ shows (back t) h else is_alt t = false;
  rf_vis : cur_vis t = at_vis a;
  rf_esc : esc_state t = at_esc a;
  rf_ansi : ansi_ctx t = at_ansi a;
  rf_dead : shell_dead t = at_dead a;
  rf_sent : sent t = at_sent a }.

Section Run.
Implicit Types (t : term) (a : aterm) (c : Z) (s : screen) (d : display).
Definition is_ascii (c : Z) : Prop := 0 <= c < 128.

Lemma shows_ext t t' s : shows t s -> text_buf t' = text_buf t -> cur t' = cur t -> n_rows t' = n_rows t -> n_cols t' = n_cols t -> shows t' s.
Proof. intros [S1 S2 S3 S4 S5] Et Ec Er En. split; rewrite ?Ec; try done. unfold cell_at. rewrite Et, Ec, Er, En. done. Qed.

Lemma term_ok_ext t t' : term_ok t -> main_buf t' = main_buf t -> alt_buf t' = alt_buf t -> cur t' = cur t -> saved t' = saved t ->
  n_rows t' = n_rows t -> n_cols t' = n_cols t -> term_ok t'.
Proof. intros [H1 H2 H3 H4 H5] E1 E2 E3 E4 E5 E6. split; rewrite ?E1, ?E2, ?E3, ?E4, ?E5, ?E6; done. Qed.

(** Output in the current buffer keeps the hidden screen. *)
Lemma hidden_rest t t' (h : option screen) : same_rest t t' ->
  (if h is Some h then is_alt t = true /\ shows (back t) h else is_alt t = false) ->
  if h is Some h then is_alt t' = true /\ shows (back t') h else is_alt t' = false.
Proof.
  intros (E1 & E2 & E3 & E4 & _ & _ & _ & _ & _ & E5). destruct h as [h|]; [|congruence]. intros [Ha Sh]. rewrite Ha in *. split; [done|].
  eapply shows_ext; [exact Sh|exact E5|cbn; by rewrite E4|exact E1|exact E2].
Qed.

Lemma char_refines t a c : refines t a -> is_ascii c -> exists t', term_write_char t c = Some t' /\
  refines t' (at_char (n_rows t) (n_cols t) a c) /\ n_rows t' = n_rows t /\ n_cols t' = n_cols t.
Proof.
  intros [I Sh Hh E1 E2 E3 E4 E5] Hc. pose proof (write_char_shows t (at_scr a) c I Sh Hc) as H. unfold at_char. rewrite E3 in H.
  destruct (ansi_write_char (at_ansi a) c term_driver) as [ctx calls]. destruct H as (t' & Et & I' & Sh' & Rr). exists t'. split; [done|].
  pose proof Rr as (R1 & R2 & R3 & R4 & R5 & R6 & R7 & R8 & R9 & _). split; [|done]. cbn in R5, R6, R7, R8, R9. split; cbn; try congruence; try done.
  apply (hidden_rest _ _ _ Rr). destruct (at_hidden a); [|done]. destruct Hh as [? Hh]. split; [done|]. by eapply shows_ext.
Qed.

Lemma chars_refines l t a : refines t a -> Forall is_ascii l -> exists t', ofold term_write_char t l = Some t' /\
  refines t' (foldl (at_char (n_rows t) (n_cols t)) a l) /\ n_rows t' = n_rows t /\ n_cols t' = n_cols t.
Proof.
  revert t a. induction l as [|c l IH]; intros t a Rf Hl; cbn [ofold foldl]; [eauto|]. apply Forall_cons in Hl as [Hc Hl].
  destruct (char_refines t a c Rf Hc) as (t1 & -> & Rf1 & E1 & E2). destruct (IH t1 _ Rf1 Hl) as (t2 & Et & Rf2 & E3 & E4).
  rewrite E1, E2 in *. exists t2. split; [done|]. split; [done|]. split; congruence.
Qed.

(** Changes of the fields beside the text. *)
Lemma refines_ext t t' a a' : refines t a -> main_buf t' = main_buf t -> alt_buf t' = alt_buf t -> is_alt t' = is_alt t -> cur t' = cur t ->
  saved t' = saved t -> n_rows t' = n_rows t -> n_cols t' = n_cols t -> at_scr a' = at_scr a -> at_hidden a' = at_hidden a ->
  cur_vis t' = at_vis a' -> esc_state t' = at_esc a' -> ansi_ctx t' = at_ansi a' -> shell_dead t' = at_dead a' -> sent t' = at_sent a' -> refines t' a'.
Proof.
  intros [I Sh Hh _ _ _ _ _] E1 E2 E3 E4 E5 E6 E7 E8 E9. split; try done; rewrite ?E8, ?E9.
  - by eapply term_ok_ext.
  - eapply shows_ext; [done|unfold text_buf; by rewrite E3, E1, E2|done..].
  - destruct (at_hidden a); [|congruence]. destruct Hh as [? Hh]. split; [congruence|]. eapply shows_ext; [done|done|cbn; congruence|done|done].
Qed.

Lemma pass_refines t a c : refines t a -> is_ascii c -> exists t' stop, (if c =? 4 then t' ← close_shell t; Some (t', true) else t' ← term_write_char t c; Some (t', false)) = Some (t', stop) /\
  refines t' (fst (at_pass (n_rows t) (n_cols t) a c)) /\ stop = snd (at_pass (n_rows t) (n_cols t) a c) /\ n_rows t' = n_rows t /\ n_cols t' = n_cols t.
Proof.
  intros Rf Hc. unfold at_pass. destruct (c =? 4).
  - destruct (chars_refines closed_msg (set_dead t) (AT (at_scr a) (at_hidden a) (at_vis a) (at_esc a) (at_ansi a) true (at_sent a))) as (t' & E & Rf' & E1 & E2).
    + eapply refines_ext; [exact Rf|done..| | | | |]; by destruct Rf.
    + by apply (bool_decide_unpack _).
    + unfold close_shell. rewrite E. exists t', true. done.
  - destruct (char_refines t a c Rf Hc) as (t' & -> & Rf' & E1 & E2). exists t', false. done.
Qed.

Lemma at_state_refines t a e : refines t a -> refines (set_esc t e) (at_state a e).
Proof. intros Rf. eapply refines_ext; [exact Rf|done..| | | | |]; by destruct Rf. Qed.

Lemma some_screen t : term_ok t -> exists s, shows t s.
Proof.
  intros I. exists (Scr (fun r c => default (Cell 0 0 0) (cell_at t r c)) (cur_row (cur t)) (cur_col (cur t)) (curr_fg (cur t)) (curr_bg (cur t))).
  pose proof (to_size _ I) as [HR HC]. split; try done. intros r c Hr Hc. cbn [cell]. destruct (cell_at t r c) as [x|] eqn:Ex; [done|exfalso].
  destruct (text_ok t I) as [Hl _]. unfold cell_at, get_cell in Ex.
  assert (0 <= (start_line_idx (cur t) + r) mod n_rows t * n_cols t + c < n_rows t * n_cols t) as Hi by (apply term_index_range; [done|by apply ring_range|done]).
  rewrite (proj2 (Z.ltb_ge _ _)) in Ex by lia. apply lookup_ge_None in Ex. lia.
Qed.

Lemma alt_on_refines t a : refines t a -> at_hidden a = None -> exists t', alt_on t = Some t' /\ n_rows t' = n_rows t /\ n_cols t' = n_cols t /\
  refines t' (at_reset (AT (Scr (fun _ _ => s_ink (at_scr a) 32) 0 0 (s_fg (at_scr a)) (s_bg (at_scr a))) (Some (at_scr a)) (at_vis a) (at_esc a) (at_ansi a) (at_dead a) (at_sent a))).
Proof.
  intros [I Sh Hh E1 E2 E3 E4 E5] Hn. rewrite Hn in Hh. unfold alt_on. set (t1 := set_alt t true (cur t) (cur t)).
  assert (term_ok t1) as I1 by (destruct I; by split). pose proof (to_size _ I) as [HR HC].
  destruct (some_screen t1 I1) as (s1 & Sh1).
  destruct (clear_shows t1 s1 I1 Sh1) as (l & El & I2 & Sh2 & R2). change (n_rows t * n_cols t) with (n_rows t1 * n_cols t1). rewrite El.
  cbn [mbind option_bind]. eexists. split; [done|]. split; [done|]. split; [done|]. split; cbn; try congruence.
  - by eapply term_ok_ext.
  - apply (shows_ext (set_start (move (set_text t1 l) 0 0) 0)); [|done..]. destruct Sh as [_ _ _ S4 S5]. unfold s_ink in *. rewrite <- S4, <- S5. destruct Sh1 as [_ _ _ F4 F5]. rewrite <- F4, <- F5 in Sh2. exact Sh2.
  - split; [done|]. eapply shows_ext; [exact Sh|unfold text_buf; cbn; by rewrite Hh|done..].
Qed.

Lemma alt_off_refines t a h d : refines t a -> at_hidden a = Some h ->
  refines (fst (alt_off t d)) (at_reset (AT h None (at_vis a) (at_esc a) (at_ansi a) (at_dead a) (at_sent a))).
Proof.
  intros [I Sh Hh E1 E2 E3 E4 E5] Hn. rewrite Hn in Hh. destruct Hh as [Ha Hh]. split; cbn; try congruence.
  - destruct I. by split.
  - eapply shows_ext; [exact Hh|done..].
Qed.

Lemma byte_refines t a d c a' stop : refines t a -> is_ascii c -> at_byte (n_rows t) (n_cols t) a c = Some (a', stop) ->
  exists t' d', term_byte t d c = Some (t', d', stop) /\ refines t' a' /\ n_rows t' = n_rows t /\ n_cols t' = n_cols t.
Proof.
  intros Rf Hc. unfold at_byte, term_byte. rewrite (rf_esc _ _ Rf).
  assert (forall e, Some (at_pass (n_rows t) (n_cols t) (at_state a e) c) = Some (a', stop) -> exists t' d',
    (let t := set_esc t e in if c =? 4 then t ← close_shell t; Some (t, d, true) else t ← term_write_char t c; Some (t, d, false)) = Some (t', d', stop) /\
    refines t' a' /\ n_rows t' = n_rows t /\ n_cols t' = n_cols t) as Hpass.
  { intros e [= Ea]. destruct (pass_refines (set_esc t e) (at_state a e) c (at_state_refines t a e Rf) Hc) as (t' & st & E & Rf' & Es & E1 & E2).
    change (n_rows (set_esc t e)) with (n_rows t) in *. change (n_cols (set_esc t e)) with (n_cols t) in *. rewrite Ea in Rf', Es. cbn [fst snd] in *. subst st.
    exists t', d. cbv zeta in *. split; [|done]. destruct (c =? 4); [destruct (close_shell _)|destruct (term_write_char _ _)]; cbn in *; congruence. }
  repeat match goal with
  | |- (if (?x && ?y)%bool then _ else _) = _ -> _ => destruct (x && y)%bool
  end; try apply Hpass; try (intros [= <- <-]; eexists _, _; split; [done|]; split; [|done]; by apply at_state_refines).
  - intros [= <- <-]. eexists _, _. split; [done|]. split; [|done]. eapply refines_ext; [exact Rf|done..| | | | |]; destruct Rf; cbn; congruence.
  - intros [= <- <-]. eexists _, _. split; [done|]. split; [|done]. eapply refines_ext; [exact Rf|done..| | | | |]; destruct Rf; cbn; congruence.
  - intros [= <- <-]. eexists _, _. split; [done|]. split; [|done]. eapply refines_ext; [exact Rf|done..| | | | |]; destruct Rf; cbn; congruence.
  - destruct (at_hidden a) eqn:Eh; [done|]. intros [= <- <-]. destruct (alt_on_refines t a Rf Eh) as (t' & -> & E1 & E2 & Rf'). cbn [mbind option_bind].
    rewrite <- (rf_esc _ _ Rf). eexists _, _. split; [done|]. split; [|done]. by rewrite (rf_esc _ _ Rf).
  - destruct (at_hidden a) as [h|] eqn:Eh; [|done]. cbn [mbind option_bind]. intros [= <- <-]. pose proof (alt_off_refines t a h d Rf Eh) as Ro.
    eexists _, _. split; [done|]. done.
Qed.

Lemma bytes_refines l t a d a' : refines t a -> Forall is_ascii l -> at_bytes (n_rows t) (n_cols t) a l = Some a' ->
  exists t' d', term_bytes t d l = Some (t', d') /\ refines t' a' /\ n_rows t' = n_rows t /\ n_cols t' = n_cols t.
Proof.
  revert t a d. induction l as [|c l IH]; intros t a d Rf Hl Ha; cbn [at_bytes term_bytes] in *; [simplify_eq; eauto 10|].
  apply Forall_cons in Hl as [Hc Hl]. destruct (at_byte _ _ a c) as [[a1 stop]|] eqn:E1; [|done]. cbn [mbind option_bind] in Ha.
  destruct (byte_refines t a d c a1 stop Rf Hc E1) as (t1 & d1 & -> & Rf1 & En & Em). cbn [mbind option_bind].
  destruct stop; [simplify_eq; eauto 10|]. rewrite <- En, <- Em in Ha. destruct (IH t1 a1 d1 Rf1 Hl Ha) as (t2 & d2 & E2 & Rf2 & En2 & Em2).
  exists t2, d2. split; [done|]. split; [done|]. split; congruence.
Qed.

(** *** Any bytes *)
(** What every byte keeps. *)
Definition keeps t t' : Prop := term_ok t' /\ n_rows t' = n_rows t /\ n_cols t' = n_cols t.

Lemma term_keeps_refl t : term_ok t -> keeps t t.
Proof. done. Qed.
Lemma keeps_trans t1 t2 t3 : keeps t1 t2 -> keeps t2 t3 -> keeps t1 t3.
Proof. intros (? & ? & ?) (? & ? & ?). split_and!; [done|congruence..]. Qed.

Lemma write_char_keeps t c : term_ok t -> is_ascii c -> exists t', term_write_char t c = Some t' /\ keeps t t'.
Proof.
  intros I Hc. destruct (some_screen t I) as (s & Sh). pose proof (write_char_shows t s c I Sh Hc) as H.
  destruct (ansi_write_char (ansi_ctx t) c term_driver). destruct H as (t' & E & I' & _ & R1 & R2 & _). exists t'. done.
Qed.

Lemma write_chars_keep l t : term_ok t -> Forall is_ascii l -> exists t', ofold term_write_char t l = Some t' /\ keeps t t'.
Proof.
  revert t. induction l as [|c l IH]; intros t I Hl; cbn [ofold]; [eauto using term_keeps_refl|]. apply Forall_cons in Hl as [Hc Hl].
  destruct (write_char_keeps t c I Hc) as (t1 & -> & K1). destruct (IH t1 (proj1 K1) Hl) as (t2 & E & K2). eauto using keeps_trans.
Qed.

Lemma byte_keeps t d c : term_ok t -> is_ascii c -> exists t' d' stop, term_byte t d c = Some (t', d', stop) /\ keeps t t'.
Proof.
  intros I Hc. unfold term_byte.
  assert (forall e, exists t' d' stop,
    (let t := set_esc t e in if c =? 4 then t ← close_shell t; Some (t, d, true) else t ← term_write_char t c; Some (t, d, false)) = Some (t', d', stop) /\ keeps t t') as Hpass.
  { intros e. cbv zeta. assert (term_ok (set_esc t e)) as I1 by (by eapply term_ok_ext). destruct (c =? 4).
    - destruct (write_chars_keep closed_msg (set_dead (set_esc t e))) as (t' & E & K); [by eapply term_ok_ext|by apply (bool_decide_unpack _)|].
      unfold close_shell. rewrite E. by eexists _, _, _.
    - destruct (write_char_keeps _ c I1 Hc) as (t' & -> & K). by eexists _, _, _. }
  repeat match goal with
  | |- context [if (?x && ?y)%bool then _ else _] => destruct (x && y)%bool
  end; try apply Hpass; try (eexists _, _, _; split; [done|]; split; [by eapply term_ok_ext|done]).
  - unfold alt_on. set (t1 := set_alt t true (cur t) (cur t)). assert (term_ok t1) as I1 by (destruct I; by split).
    destruct (some_screen t1 I1) as (s1 & Sh1). destruct (clear_shows t1 s1 I1 Sh1) as (l & E & I2 & _). rewrite E. cbn [mbind option_bind].
    eexists _, _, _. split; [done|]. split; [by eapply (term_ok_ext (set_start (move (set_text t1 l) 0 0) 0))|done].
  - eexists _, _, _. split; [done|]. split; [|done]. destruct I. by split.
Qed.

Lemma bytes_keep l t d : term_ok t -> Forall is_ascii l -> exists t' d', term_bytes t d l = Some (t', d') /\ keeps t t'.
Proof.
  revert t d. induction l as [|c l IH]; intros t d I Hl; cbn [term_bytes]; [eauto using term_keeps_refl|]. apply Forall_cons in Hl as [Hc Hl].
  destruct (byte_keeps t d c I Hc) as (t1 & d1 & stop & -> & K1). cbn [mbind option_bind]. destruct stop; [eauto|].
  destruct (IH t1 d1 (proj1 K1) Hl) as (t2 & d2 & E & K2). eauto using keeps_trans.
Qed.
End Run.

(** C30: The terminal is a plain screen.  Any ASCII output of a program is processed
    without an access outside the two text buffers, and the cursor, the saved cursor
    and the first row stay inside.  When the output switches to the other buffer and
    back at most in turns, the terminal shows after it what the machine on plain
    screens shows: characters at the cursor, lines that wrap, rows that move up when
    the last one is full, cursor moves cut at the edges, and after the return from
    the other buffer the screen, the cursor and the colours from before. *)
Theorem terminal_refines_screen (t : term) (d : display) (a : aterm) (l : list Z) : refines t a -> Forall is_ascii l ->
  exists t' d', term_bytes t d l = Some (t', d') /\ keeps t t' /\
    forall a', at_bytes (n_rows t) (n_cols t) a l = Some a' -> refines t' a'.
Proof.
  intros Rf Hl. destruct (bytes_keep l t d (rf_ok _ _ Rf) Hl) as (t' & d' & E & K). exists t', d'. split; [done|]. split; [done|].
  intros a' Ha. destruct (bytes_refines l t a d a' Rf Hl Ha) as (t2 & d2 & E2 & Rf2 & _). rewrite E in E2. by injection E2 as <- _.
Qed.
