(* ===== verification/TermFeed.v ===== *)
(** What a program draws on a terminal with cursor moves and text, in terms of the
    characters on the screen: the screen after a run of bytes is the one before with
    an overlay of the characters written. *)
From S2P Require Import Prelude Ansi Terminal TerminalSpec TerminalRun.

Section Feed.
Context (R C : Z).
Implicit Types (a : aterm) (l : list Z) (c : Z).

(** ASCII bytes without the one that ends the program. *)
Definition at_run a l : option aterm :=
  ofold (fun a c => if (0 <=? c) && (c <? 128) then '(a, stop) ← at_byte R C a c; if stop : bool then None else Some a else None) a l.

Lemma at_run_app a l1 l2 : at_run a (l1 ++ l2) = (a1 ← at_run a l1; at_run a1 l2).
Proof. apply ofold_app. Qed.

Lemma at_run_bytes l a a' : at_run a l = Some a' -> at_bytes R C a l = Some a' /\ Forall is_ascii l.
Proof.
  revert a. induction l as [|c l IH]; intros a H; [done|]. unfold at_run in *. cbn [ofold at_bytes] in *.
  destruct ((0 <=? c) && (c <? 128)) eqn:Ec; [|done]. destruct (at_byte R C a c) as [[a1 stop]|]; [|done]. cbn [mbind option_bind] in *.
  destruct stop; [done|]. destruct (IH _ H). split; [done|]. apply Forall_cons. split; [unfold is_ascii; lia|done].
Qed.

Lemma at_run_step a c l a1 : is_ascii c -> at_byte R C a c = Some (a1, false) -> at_run a (c :: l) = at_run a1 l.
Proof.
  intros Hc E. unfold at_run, is_ascii in *. cbn [ofold]. rewrite (proj2 (Z.leb_le _ _)), (proj2 (Z.ltb_lt _ _)) by lia. cbn [andb]. by rewrite E.
Qed.

(** Between two escape sequences. *)
Definition ready a : Prop := at_esc a = 0 /\ a_state (at_ansi a) = ANSI_NORMAL.

(** Bytes that only go to the parser. *)
Definition plain c : Prop := is_ascii c /\ c <> 27 /\ c <> 4.

Lemma at_byte_plain a c : at_esc a = 0 -> plain c -> at_byte R C a c = Some (at_char R C a c, false).
Proof.
  intros He (_ & H1 & H2). unfold at_byte. rewrite He. cbn [Z.eqb andb]. rewrite (proj2 (Z.eqb_neq c 27)) by done. unfold at_pass.
  rewrite (proj2 (Z.eqb_neq c 4)) by done. do 2 f_equal. by destruct a; cbn in *; subst.
Qed.

Lemma at_char_write a l : foldl (at_char R C) a l =
  at_with a (foldl (s_call R C) (at_scr a) (snd (ansi_write (at_ansi a) l term_driver))) (fst (ansi_write (at_ansi a) l term_driver)).
Proof.
  revert a. induction l as [|c l IH]; intros a; cbn [foldl ansi_write]; [by destruct a|]. rewrite IH. unfold at_char.
  destruct (ansi_write_char (at_ansi a) c term_driver) as [ctx o1]. cbn [at_with at_scr at_ansi]. destruct (ansi_write ctx l term_driver) as [ctx2 o2].
  cbn [fst snd]. by rewrite foldl_app.
Qed.

Lemma at_run_plain l a : at_esc a = 0 -> Forall plain l -> at_run a l = Some (foldl (at_char R C) a l).
Proof.
  revert a. induction l as [|c l IH]; intros a He Hl; [done|]. apply Forall_cons in Hl as [Hc Hl]. cbn [foldl].
  rewrite (at_run_step _ _ _ (at_char R C a c)) by (apply Hc || by apply at_byte_plain). apply IH; [|done]. unfold at_char. by destruct (ansi_write_char _ _ _).
Qed.

Lemma at_char_state a e c : at_char R C (at_state a e) c = at_state (at_char R C a c) e.
Proof. unfold at_char. cbn [at_state at_ansi]. by destruct (ansi_write_char _ _ _). Qed.

(** An escape sequence of the parser *)
Lemma csi_run a d l : at_esc a = 0 -> plain d -> d <> 113 -> d <> 63 -> Forall plain l ->
  at_run a (27 :: 91 :: d :: l) = Some (foldl (at_char R C) a (27 :: 91 :: d :: l)).
Proof.
  intros He (Hasc & H27 & H4) H113 H63 Hl. cbn [foldl]. set (a1 := at_char R C a 27). set (a2 := at_char R C a1 91).
  rewrite (at_run_step _ _ _ (at_state a1 1)) by (done || unfold at_byte; rewrite He; cbn [Z.eqb Pos.eqb andb]; unfold at_pass; cbn [Z.eqb Pos.eqb]; by rewrite at_char_state).
  rewrite (at_run_step _ _ _ (at_state a2 2)).
  2: done.
  2: { unfold at_byte. cbn [at_esc at_state Z.eqb Pos.eqb andb]. unfold at_pass. cbn [Z.eqb Pos.eqb].
    change (at_state (at_state a1 1) 2) with (at_state a1 2). by rewrite at_char_state. }
  rewrite (at_run_step _ _ _ (at_char R C (at_state a2 0) d)).
  2: done.
  2: { unfold at_byte. cbn [at_esc at_state Z.eqb Pos.eqb andb]. rewrite (proj2 (Z.eqb_neq d 113)), (proj2 (Z.eqb_neq d 63)) by done. unfold at_pass.
    by rewrite (proj2 (Z.eqb_neq d 4)). }
  assert (forall b c, at_esc (at_char R C b c) = at_esc b) as Hesc by (intros b c; unfold at_char; by destruct (ansi_write_char _ _ _)).
  assert (at_state a2 0 = a2) as Ea.
  { assert (at_esc a2 = 0) as E by (unfold a2, a1; by rewrite !Hesc). destruct a2 as [? ? ? e ? ? ?]. cbn in E. by subst e. }
  rewrite Ea. apply at_run_plain; [|done]. by rewrite Hesc, <- Ea.
Qed.

Lemma digits_plain l : Forall (fun c => is_digit c = true) l -> Forall plain l.
Proof. intros H. eapply Forall_impl; [exact H|]. intros c Hc. unfold is_digit, plain, is_ascii in *. lia. Qed.

(** A cursor move *)
Lemma move_run a row col : ready a -> 1 <= row <= R -> 1 <= col <= C -> R <= 999 -> C <= 999 ->
  exists ctx, at_run a (move_cursor row col) = Some (at_with a (s_move (at_scr a) (row - 1) (col - 1)) ctx) /\ a_state ctx = ANSI_NORMAL.
Proof.
  intros [He Hs] Hr Hc HR HC. destruct (decimal_spec row 3) as (Hrd & _ & Hrl); [change (10 ^ Z.of_nat 3) with 1000; lia|lia|lia|].
  destruct (decimal_spec col 3) as (Hcd & _ & Hcl); [change (10 ^ Z.of_nat 3) with 1000; lia|lia|lia|].
  assert (at_run a (move_cursor row col) = Some (foldl (at_char R C) a (move_cursor row col))) as ->.
  { unfold move_cursor. destruct (decimal row) as [|d l]; [simpl in Hrl; lia|]. apply Forall_cons in Hrd as [Hd Hl]. unfold is_digit in Hd.
    cbn [app]. apply csi_run; [done|unfold plain, is_ascii; lia|lia|lia|]. apply Forall_app. split; [by apply digits_plain|]. apply Forall_cons. split; [done|].
    apply Forall_app. split; [by apply digits_plain|]. apply Forall_singleton. done. }
  rewrite at_char_write. pose proof (move_cursor_spec (at_ansi a) term_driver row col Hs eq_refl ltac:(lia) ltac:(lia)) as Hm.
  destruct (ansi_write (at_ansi a) (move_cursor row col) term_driver) as [ctx calls]. destruct Hm as (-> & Hn & _). exists ctx. split; [|done].
  cbn [fst snd foldl s_call]. do 2 f_equal. f_equal; lia.
Qed.

(** *** Overlays of characters *)
Definition inks := Z -> Z -> option Z.
Definition on_top (o2 o1 : inks) : inks := fun r c => match o2 r c with Some g => Some g | None => o1 r c end.
Definition no_ink : inks := fun _ _ => None.
Definition text_ink (row col : Z) l : inks := fun r c => if decide (r = row /\ col <= c) then l !! Z.to_nat (c - col) else None.

(** The run of the bytes ends with the overlay on the screen; the cursor may be anywhere. *)
Definition draws l (o : inks) : Prop := forall a, ready a -> exists a', at_run a l = Some a' /\ ready a' /\ at_hidden a' = at_hidden a /\
  at_dead a' = at_dead a /\ at_sent a' = at_sent a /\ forall r c, glyph (cell (at_scr a') r c) = default (glyph (cell (at_scr a) r c)) (o r c).

Lemma draws_nil : draws [] no_ink.
Proof. intros a Ha. exists a. done. Qed.

Lemma draws_app l1 l2 o1 o2 : draws l1 o1 -> draws l2 o2 -> draws (l1 ++ l2) (on_top o2 o1).
Proof.
  intros D1 D2 a Ha. destruct (D1 a Ha) as (a1 & E1 & R1 & F1 & F2 & F3 & G1). destruct (D2 a1 R1) as (a2 & E2 & R2 & F4 & F5 & F6 & G2).
  exists a2. rewrite at_run_app, E1. split; [done|]. split; [done|]. split; [congruence|]. split; [congruence|]. split; [congruence|].
  intros r c. rewrite G2, G1. unfold on_top. by destruct (o2 r c).
Qed.

Lemma draws_ext l o o' : draws l o -> (forall r c, o r c = o' r c) -> draws l o'.
Proof. intros D E a Ha. destruct (D a Ha) as (a' & ? & ? & ? & ? & ? & G). exists a'. split_and!; try done. intros r c. by rewrite G, E. Qed.

Definition printable c : Prop := 32 <= c < 127.

(** Text after which the cursor is still on its row *)
Lemma text_run l : forall a, ready a -> Forall printable l -> 0 <= s_row (at_scr a) < R -> 0 <= s_col (at_scr a) -> s_col (at_scr a) + Z.of_nat (length l) < C ->
  exists a', at_run a l = Some a' /\ ready a' /\ at_hidden a' = at_hidden a /\ at_dead a' = at_dead a /\ at_sent a' = at_sent a /\
    s_row (at_scr a') = s_row (at_scr a) /\ s_col (at_scr a') = s_col (at_scr a) + Z.of_nat (length l) /\
    forall r c, glyph (cell (at_scr a') r c) = default (glyph (cell (at_scr a) r c)) (text_ink (s_row (at_scr a)) (s_col (at_scr a)) l r c).
Proof.
  induction l as [|ch l IH]; intros a [He Hs] Hl Hr Hc Hlen;
    [exists a; split_and!; try done; [cbn [length]; lia|]; intros r c; unfold text_ink; by case_decide|].
  apply Forall_cons in Hl as [Hch Hl]. unfold printable in Hch. cbn [length] in Hlen.
  rewrite (at_run_step _ _ _ (at_char R C a ch)) by (unfold is_ascii; lia || (apply at_byte_plain; [done|unfold plain, is_ascii; lia])).
  assert (at_char R C a ch = at_with a (s_move (s_put (at_scr a) (s_ink (at_scr a) ch)) (s_row (at_scr a)) (s_col (at_scr a) + 1)) (at_ansi a)) as Ea.
  { unfold at_char, ansi_write_char. rewrite Hs, (proj2 (Z.eqb_neq ch 27)) by lia. cbn [term_driver has_put_char call_if foldl s_call]. f_equal.
    unfold s_put_char. rewrite (proj2 (Z.eqb_neq ch 10)), (proj2 (Z.eqb_neq ch 8)) by lia. unfold s_advance. cbn [s_put s_col s_row].
    rewrite (proj2 (Z.leb_gt C _)) by lia. unfold s_scroll. cbn [s_move s_row]. by rewrite (proj2 (Z.leb_gt R _)) by lia. }
  rewrite Ea. set (a1 := at_with a _ _). destruct (IH a1) as (a' & E & Rd & F1 & F2 & F3 & P1 & P2 & G); [done|done|done|cbn; lia|cbn; lia|].
  exists a'. split; [done|]. split; [done|]. split; [done|]. split; [done|]. split; [done|]. split; [done|]. split; [rewrite P2; cbn [a1 at_with at_scr s_move s_col length]; lia|].
  intros r c. rewrite G. cbn [a1 at_with at_scr s_move s_put s_row s_col cell].
  unfold text_ink. destruct (decide (c = s_col (at_scr a))) as [->|Hne]; repeat case_decide; try lia; try done.
  - by rewrite Z.sub_diag.
  - by replace (Z.to_nat (c - s_col (at_scr a))) with (S (Z.to_nat (c - (s_col (at_scr a) + 1)))) by lia.
Qed.

(** A move and the text there. *)
Lemma line_draws row col l : 0 <= row < R -> 0 <= col -> col + Z.of_nat (length l) < C -> R <= 999 -> C <= 999 -> Forall printable l ->
  draws (move_cursor (row + 1) (col + 1) ++ l) (text_ink row col l).
Proof.
  intros Hr Hc Hlen HR HC Hl a Ha. destruct (move_run a (row + 1) (col + 1) Ha) as (ctx & E & Hctx); [lia..|]. rewrite at_run_app, E. cbn [mbind option_bind].
  set (a1 := at_with a _ ctx). destruct (text_run l a1) as (a' & E' & Rd & F1 & F2 & F3 & _ & _ & G); [split; [apply Ha|done]|done|cbn; lia|cbn; lia|cbn; lia|].
  exists a'. split; [done|]. split; [done|]. split; [done|]. split; [done|]. split; [done|]. intros r c. rewrite G. cbn [a1 at_with at_scr s_move s_row s_col cell].
  by replace (row + 1 - 1) with row by lia; replace (col + 1 - 1) with col by lia.
Qed.

(** *** Sequences without text *)
Lemma color_run a d : ready a -> d = 48 \/ d = 55 ->
  exists ctx fg, at_run a [27; 91; d; 109] = Some (at_with a (Scr (cell (at_scr a)) (s_row (at_scr a)) (s_col (at_scr a)) fg (s_bg (at_scr a))) ctx) /\
    a_state ctx = ANSI_NORMAL.
Proof.
  intros [He Hs] Hd. rewrite csi_run; [|done|unfold plain, is_ascii; lia|lia|lia|apply Forall_singleton; done]. rewrite at_char_write.
  destruct (at_ansi a) as [col st buf idx]. cbn in Hs. subst st. destruct Hd as [-> | ->].
  - eexists _, _. split; [vm_compute (ansi_write _ _ _); reflexivity|done].
  - eexists _, (s_fg (at_scr a)). split; [vm_compute (ansi_write _ _ _); cbn [fst snd foldl]; by destruct (at_scr a)|done].
Qed.

Lemma color_draws d : d = 48 \/ d = 55 -> draws [27; 91; d; 109] no_ink.
Proof.
  intros Hd a Ha. destruct (color_run a d Ha Hd) as (ctx & fg & E & Hc). eexists. split; [done|]. split; [by split; [apply Ha|]|]. done.
Qed.

Lemma visible_run a (b : bool) : ready a ->
  exists ctx, at_run a [27; 91; 63; 50; 53; if b then 104 else 108] =
    Some (AT (at_scr a) (at_hidden a) b 0 ctx (at_dead a) (at_sent a)) /\ a_state ctx = ANSI_NORMAL.
Proof.
  intros [He Hs]. destruct a as [scr h v e [col st buf idx] dead sent]. cbn in He, Hs. subst e st. destruct b; eexists; (split; [reflexivity|done]).
Qed.

Lemma visible_draws (b : bool) : draws [27; 91; 63; 50; 53; if b then 104 else 108] no_ink.
Proof. intros a Ha. destruct (visible_run a b Ha) as (ctx & E & Hc). eexists. split; [done|]. done. Qed.
End Feed.
