(* ===== verification/TerminalDraw.v ===== *)
(** The window of the terminal: [term_refresh] draws only the cells that changed since
    the last time, and leaves the window as if every cell had been drawn. *)
From S2P Require Import Prelude Font WinDraw WinPixels Ansi Terminal TerminalSpec TerminalRun.

(** The colour of a pixel of a cell. *)
Definition shown_glyph (x : TermCell) : Z := if glyph x =? 0 then 32 else glyph x.
Definition cell_pixel (x : TermCell) (dx dy : Z) : Z := if Z.testbit (font8x8 (shown_glyph x) dy) dx then fg x else bg x.

(** The buffer shows the cell at a row and a column. *)
Definition drawn_at (w : Z) (b : pixbuf) (r c : Z) (x : TermCell) : Prop :=
  forall dx dy, 0 <= dx < 8 -> 0 <= dy < 8 -> pixel w b (c * 8 + dx) (r * 8 + dy) = cell_pixel x dx dy.

Record disp_ok (t : term) (d : display) : Prop := {
  do_cols : n_cols t = win_w d / 8;
  do_rows : n_rows t = win_h d / 8;
  do_len : Z.of_nat (length (screen_state d)) = n_rows t * n_cols t;
  do_frame : pb_ok (win_w d) (win_h d) (frame_buf d);
  do_cells r c x : 0 <= r < n_rows t -> 0 <= c < n_cols t -> get_cell (screen_state d) (r * n_cols t + c) = Some x -> glyph x <> 255 ->
    drawn_at (win_w d) (frame_buf d) r c x /\ drawn_at (win_w d) (window d) r c x }.

Section Draw.
Context (t : term) (I : term_ok t).
Implicit Types (d : display) (r c : Z) (x : TermCell).
Definition in_grid r c : Prop := 0 <= r < n_rows t /\ 0 <= c < n_cols t.

Lemma cells_elem r c : (r, c) ∈ cells t <-> in_grid r c.
Proof.
  unfold cells, in_grid. rewrite list_elem_of_bind. split.
  - intros (r' & Hrc & Hr'%elem_of_seqZ). apply list_elem_of_bind in Hrc as (c' & Hc & Hc'%elem_of_seqZ). apply list_elem_of_singleton in Hc. injection Hc as -> ->. lia.
  - intros [Hr Hc]. exists r. split; [|apply elem_of_seqZ; lia]. apply list_elem_of_bind. exists c. split; [by apply list_elem_of_singleton|apply elem_of_seqZ; lia].
Qed.

(** The cell of the text at a place, as it is to be shown. *)
Definition wanted r c : option TermCell := target t r c <$> cell_at t r c.

Lemma wanted_some r c : in_grid r c -> exists x, cell_at t r c = Some x /\ ascii (target t r c x).
Proof.
  intros [Hr Hc]. destruct (some_screen t I) as (s & Sh). exists (cell s r c). split; [by apply Sh|].
  pose proof (sh_cell _ _ Sh r c Hr Hc) as E. unfold cell_at, get_cell in E. destruct (_ <? 0) in E; [done|].
  destruct (text_ok t I) as [_ Ha]. pose proof (Forall_lookup_1 _ _ _ _ Ha E) as Hx. unfold target, ascii. by destruct (_ && _).
Qed.

(** Drawing one cell. *)
Lemma render_spec d r c x : n_cols t = win_w d / 8 -> n_rows t = win_h d / 8 -> pb_ok (win_w d) (win_h d) (frame_buf d) -> in_grid r c -> ascii x ->
  exists fb, render_cell_to_fb d (shown_glyph x) c r (fg x) (bg x) = Some fb /\ pb_ok (win_w d) (win_h d) fb /\
    drawn_at (win_w d) fb r c x /\
    forall r' c' y, in_grid r' c' -> (r', c') <> (r, c) -> drawn_at (win_w d) (frame_buf d) r' c' y -> drawn_at (win_w d) fb r' c' y.
Proof.
  intros Ew Eh Hb [Hr Hc] Hx. unfold render_cell_to_fb, CHAR_W, CHAR_H.
  assert (forall r c, in_grid r c -> c * 8 + 8 <= win_w d /\ r * 8 + 8 <= win_h d) as Hin.
  { intros r' c' [Hr' Hc']. rewrite Ew in Hc'. rewrite Eh in Hr'. pose proof (Z.mul_div_le (win_w d) 8 ltac:(lia)). pose proof (Z.mul_div_le (win_h d) 8 ltac:(lia)). lia. }
  pose proof (Hin r c (conj Hr Hc)) as [Hcw Hrh]. rewrite (proj2 (Z.leb_gt (win_w d) _)), (proj2 (Z.leb_gt (win_h d) _)) by lia. cbn [orb].
  assert (0 <= shown_glyph x < 128) as Hg by (unfold shown_glyph, ascii in *; destruct (_ =? _); lia).
  rewrite (proj2 (Z.leb_le _ _)), (proj2 (Z.ltb_lt _ _)) by lia. cbn [andb].
  destruct (paint_cells_spec (win_w d) (win_h d) (frame_buf d) (r * 8) 8 (c * 8) 8 (glyph_color (shown_glyph x) (c * 8) (r * 8) (fg x) (bg x)))
    as (fb & E & P); [done|lia..|]. exists fb. split; [done|]. split; [by eapply painted_ok|]. destruct P as [_ P]. split.
  - intros dx dy Hdx Hdy. rewrite P by (unfold in_win; lia). unfold box. rewrite decide_True by lia. cbn [default from_option].
    unfold glyph_color, cell_pixel. by replace (r * 8 + dy - r * 8) with dy by lia; replace (c * 8 + dx - c * 8) with dx by lia.
  - intros r' c' y Hg' Hne Hd dx dy Hdx Hdy. destruct (Hin r' c' Hg') as [Hcw' Hrh']. destruct Hg' as [Hr' Hc'].
    rewrite P by (unfold in_win; lia). unfold box. rewrite decide_False; [by apply Hd|]. intros [H1 H2]. apply Hne. f_equal; lia.
Qed.

(** What the loop over the cells has done to the window so far. *)
Record going d (done : list (Z * Z)) (d' : display) (dirty : bool) : Prop := {
  go_size : win_w d' = win_w d /\ win_h d' = win_h d /\ window d' = window d;
  go_len : length (screen_state d') = length (screen_state d);
  go_frame : pb_ok (win_w d) (win_h d) (frame_buf d');
  go_done r c x : in_grid r c -> (r, c) ∈ done -> wanted r c = Some x ->
    get_cell (screen_state d') (r * n_cols t + c) = Some x /\ drawn_at (win_w d) (frame_buf d') r c x;
  go_rest r c : in_grid r c -> (r, c) ∉ done -> get_cell (screen_state d') (r * n_cols t + c) = get_cell (screen_state d) (r * n_cols t + c) /\
    forall x, drawn_at (win_w d) (frame_buf d) r c x -> drawn_at (win_w d) (frame_buf d') r c x;
  go_clean : dirty = false -> d' = d }.

Lemma refresh_step d done d' dirty r c : disp_ok t d -> in_grid r c -> going d done d' dirty ->
  exists d2 dirty2, refresh_cell t (d', dirty) (r, c) = Some (d2, dirty2) /\ going d (done ++ [(r, c)]) d2 dirty2.
Proof.
  intros D Hg G. pose proof (to_size _ I) as [HR HC]. pose proof Hg as [Hr Hc]. unfold refresh_cell. rewrite buf_row_ok by (done || lia). cbn [mbind option_bind].
  destruct (wanted_some r c Hg) as (x0 & Ex0 & Hx). unfold cell_at in Ex0. rewrite Ex0. cbn [mbind option_bind]. set (x := target t r c x0) in *.
  assert (wanted r c = Some x) as Hw by (unfold wanted, cell_at; by rewrite Ex0).
  assert (0 <= r * n_cols t + c < n_rows t * n_cols t) as Hi by by apply term_index_range.
  pose proof (do_len _ _ D) as Hl. rewrite <- (go_len _ _ _ _ G) in Hl.
  assert (is_Some (get_cell (screen_state d') (r * n_cols t + c))) as [on Hon].
  { unfold get_cell. rewrite (proj2 (Z.ltb_ge _ _)) by lia. apply lookup_lt_is_Some_2. lia. }
  rewrite Hon. cbn [mbind option_bind]. destruct (decide (x = on)) as [<-|Hne].
  - exists d', dirty. split; [done|]. destruct G as [G1 G2 G3 G4 G5 G6]. split; try done.
    + intros r' c' y Hg' [Hin|Hin%list_elem_of_singleton]%elem_of_app Hy; [by apply G4|]. injection Hin as -> ->. rewrite Hw in Hy. injection Hy as <-.
      destruct (decide ((r, c) ∈ done)) as [Hd|Hd]; [by apply G4|]. split; [done|]. destruct (G5 r c Hg Hd) as [Eq Hdr]. apply Hdr.
      eapply (do_cells _ _ D); [done|done|congruence|unfold ascii in Hx; lia].
    + intros r' c' Hg' Hn. apply G5; [done|]. intros Hin. apply Hn, elem_of_app. by left.
  - destruct G as [(G1a & G1b & G1c) G2 G3 G4 G5 G6]. change (if glyph x =? 0 then 32 else glyph x) with (shown_glyph x).
    destruct (render_spec d' r c x) as (fb & -> & Hfb & Hdraw & Hother); [rewrite G1a; apply D|rewrite G1b; apply D|by rewrite G1a, G1b|done|done|].
    cbn [mbind option_bind]. unfold put_cell. rewrite (proj2 (Z.leb_le _ _)), (proj2 (Z.ltb_lt _ _)) by lia. cbn [andb mbind option_bind].
    rewrite G1a, G1b in *. eexists _, true. split; [done|].
    assert (forall r' c', in_grid r' c' -> (r', c') <> (r, c) ->
      get_cell (<[Z.to_nat (r * n_cols t + c) := x]> (screen_state d')) (r' * n_cols t + c') = get_cell (screen_state d') (r' * n_cols t + c')) as Hget.
    { intros r' c' [Hr' Hc'] Hn'. rewrite get_cell_insert by lia. rewrite decide_False; [done|]. intros E. apply term_index_inj in E as [-> ->]; done. }
    split; cbn [win_w win_h window screen_state frame_buf]; try done.
    + by rewrite length_insert.
    + intros r' c' y Hg' Hin Hy. destruct (decide ((r', c') = (r, c))) as [E|Hn].
      * injection E as -> ->. rewrite Hw in Hy. injection Hy as <-. rewrite get_cell_insert, decide_True by (done || lia). done.
      * apply elem_of_app in Hin as [Hin|Hin%list_elem_of_singleton]; [|done]. destruct (G4 r' c' y Hg' Hin Hy) as [Ey Hd]. rewrite Hget by done. auto.
    + intros r' c' Hg' Hn. rewrite elem_of_app, list_elem_of_singleton in Hn. rewrite Hget by tauto. destruct (G5 r' c' Hg') as [Eg Hd]; [tauto|].
      split; [done|]. intros y Hy. apply Hother; [done|tauto|]. by apply Hd.
Qed.

Lemma refresh_spec d : disp_ok t d -> exists d', term_refresh t d = Some d' /\ disp_ok t d' /\ win_w d' = win_w d /\ win_h d' = win_h d /\
  forall r c x, in_grid r c -> wanted r c = Some x -> drawn_at (win_w d) (window d') r c x.
Proof.
  intros D. unfold term_refresh.
  destruct (ofold_inv (fun done dd => going d done dd.1 dd.2) (refresh_cell t) (cells t) (d, false)) as ([d1 dirty] & -> & G).
  - split; try done; [apply D|]. intros r c x _ H. by apply not_elem_of_nil in H.
  - intros done [r c] [d1 dirty] Hp G. cbn [fst snd] in G. assert (in_grid r c) as Hg.
    { apply cells_elem. destruct Hp as [k ->]. apply elem_of_app. left. apply elem_of_app. right. by apply list_elem_of_singleton. }
    destruct (refresh_step d done d1 dirty r c D Hg G) as (d2 & dirty2 & E & G2). by exists (d2, dirty2).
  - cbn [fst snd] in G. cbn [mbind option_bind]. destruct G as [(G1a & G1b & G1c) G2 G3 G4 _ G6].
    assert (forall r c y, in_grid r c -> get_cell (screen_state d1) (r * n_cols t + c) = Some y -> wanted r c = Some y /\ drawn_at (win_w d) (frame_buf d1) r c y) as Hall.
    { intros r c y Hg Hy. destruct (wanted_some r c Hg) as (x0 & Ex & _). destruct (G4 r c (target t r c x0) Hg) as [Eg Hd];
        [by apply cells_elem|unfold wanted; by rewrite Ex|]. rewrite Hy in Eg. injection Eg as ->. split; [unfold wanted; by rewrite Ex|done]. }
    destruct dirty.
    + exists (blit d1). split; [done|]. split; [|split; [done|split; [done|]]].
      * split; cbn [blit win_w win_h screen_state frame_buf window]; rewrite ?G1a, ?G1b; try apply D; [by rewrite G2; apply D|done|].
        intros r c y Hr Hc Hy _. destruct (Hall r c y (conj Hr Hc) Hy) as [_ Hd]. done.
      * intros r c x Hg Hw. cbn [blit window]. by apply (G4 r c x Hg); [apply cells_elem|].
    + rewrite (G6 eq_refl) in *. exists d. split; [done|]. split; [done|]. split; [done|]. split; [done|]. intros r c x Hg Hw.
      destruct (G4 r c x Hg) as [Eg _]; [by apply cells_elem|done|]. destruct (wanted_some r c Hg) as (x0 & Ex & Ha).
      unfold wanted in Hw. rewrite Ex in Hw. injection Hw as <-. destruct Hg as [Hr Hc]. eapply (do_cells _ _ D); [done|done|done|unfold ascii in Ha; lia].
Qed.
End Draw.

(** *** Rounds of output *)
Section Rounds.
Implicit Types (t : term) (d : display) (l : list Z).

Lemma disp_keeps t t' d : keeps t t' -> disp_ok t d -> disp_ok t' d.
Proof. intros (_ & E1 & E2) [D1 D2 D3 D4 D5]. split; rewrite ?E1, ?E2; done. Qed.

(** Every cell of the window is marked for drawing. *)
Lemma stale_ok t w h ss fb win : n_cols t = w / 8 -> n_rows t = h / 8 -> Z.of_nat (length ss) = n_rows t * n_cols t -> pb_ok w h fb ->
  Forall (fun x => glyph x = 255) ss -> disp_ok t (Disp w h ss fb win).
Proof.
  intros E1 E2 El Hb Hs. split; try done. intros r c x _ _ Hx Hn. exfalso. apply Hn. unfold get_cell in Hx. destruct (_ <? 0); [done|].
  by eapply (Forall_lookup_1 _ _ _ _ Hs).
Qed.

Lemma byte_disp t d c t' d' stop : term_byte t d c = Some (t', d', stop) -> keeps t t' -> disp_ok t d -> disp_ok t' d'.
Proof.
  intros E K D. assert (d' = d \/ d' = snd (alt_off t d)) as [->| ->]; [|by eapply disp_keeps|].
  - revert E. unfold term_byte. repeat match goal with |- context [if (?x && ?y)%bool then _ else _] => destruct (x && y)%bool end;
      try (intros [= _ <- _]; auto); destruct (c =? 4); try destruct (close_shell _); try destruct (term_write_char _ _); try destruct (alt_on t); cbn;
      intros; simplify_eq; auto.
  - eapply disp_keeps; [done|]. destruct D as [D1 D2 D3 D4 D5]. apply stale_ok; try done; [by rewrite length_fmap|].
    apply Forall_fmap, Forall_true. done.
Qed.

Lemma bytes_ok l : forall t d, term_ok t -> disp_ok t d -> Forall is_ascii l ->
  exists t' d', term_bytes t d l = Some (t', d') /\ keeps t t' /\ disp_ok t' d' /\ win_w d' = win_w d /\ win_h d' = win_h d.
Proof.
  induction l as [|c l IH]; intros t d I D Hl; cbn [term_bytes]; [eauto 10 using term_keeps_refl|]. apply Forall_cons in Hl as [Hc Hl].
  destruct (byte_keeps t d c I Hc) as (t1 & d1 & stop & E & K1). rewrite E. cbn [mbind option_bind]. pose proof (byte_disp _ _ _ _ _ _ E K1 D) as D1.
  assert (win_w d1 = win_w d /\ win_h d1 = win_h d) as [Ew Eh].
  { revert E. clear. unfold term_byte, alt_off. repeat match goal with |- context [if (?x && ?y)%bool then _ else _] => destruct (x && y)%bool end;
      try (intros [= _ <- _]; done); destruct (c =? 4); try destruct (close_shell _); try destruct (term_write_char _ _); try destruct (alt_on t); cbn;
      intros; simplify_eq; done. }
  destruct stop; [exists t1, d1; done|]. destruct (IH t1 d1 (proj1 K1) D1 Hl) as (t2 & d2 & E2 & K2 & D2 & Ew2 & Eh2).
  exists t2, d2. split; [done|]. split; [by eapply keeps_trans|]. split; [done|]. split; congruence.
Qed.

(** The window shows the text and the cursor. *)
Definition window_ok t d : Prop := forall r c x, in_grid t r c -> wanted t r c = Some x -> drawn_at (win_w d) (window d) r c x.

Lemma output_ok t d buf more : term_ok t -> disp_ok t d -> Forall is_ascii buf ->
  exists t' d', term_output t d buf more = Some (t', d') /\ keeps t t' /\ disp_ok t' d' /\ win_w d' = win_w d /\ win_h d' = win_h d /\
    (buf <> [] -> more = false -> window_ok t' d').
Proof.
  intros I D Hb. unfold term_output. case_bool_decide as Eb.
  - destruct (shell_dead t); [exists t, d; by split_and!|].
    destruct (write_chars_keep closed_msg (set_dead t)) as (t1 & E & K); [by eapply term_ok_ext|by apply (bool_decide_unpack _)|].
    unfold close_shell. rewrite E. cbn [mbind option_bind]. assert (keeps t t1) as K1 by done.
    destruct (refresh_spec t1 (proj1 K1) d (disp_keeps _ _ _ K1 D)) as (d1 & -> & D1 & E1 & E2 & Hw). cbn [mbind option_bind].
    exists t1, d1. split; [done|]. split; [done|]. split; [done|]. split; [done|]. split; [done|]. done.
  - destruct (bytes_ok buf t d I D Hb) as (t1 & d1 & -> & K1 & D1 & Ew & Eh). cbn [mbind option_bind]. destruct more.
    { exists t1, d1. split_and!; done. }
    destruct (refresh_spec t1 (proj1 K1) d1 D1) as (d2 & -> & D2 & E1 & E2 & Hw). cbn [mbind option_bind].
    exists t1, d2. split; [done|]. split; [done|]. split; [done|]. split; [congruence|]. split; [congruence|]. intros _ _. unfold window_ok. by rewrite E1.
Qed.

Lemma fresh_ok t w h n win : n_cols t = w / 8 -> n_rows t = h / 8 -> n = n_rows t * n_cols t -> 0 <= n -> 0 < w < 2 ^ 30 -> 0 < h < 2 ^ 30 ->
  disp_ok t (fresh_display w h n win).
Proof.
  intros E1 E2 -> Hn Hw Hh. apply stale_ok; [done|done|rewrite length_replicate; lia|by split|]. by apply Forall_replicate.
Qed.

Lemma blank_buf R C x : 0 <= R * C -> ascii x -> buf_ok R C (replicate (Z.to_nat (R * C)) x).
Proof. intros Hn Hx. split; [rewrite length_replicate; lia|]. by apply Forall_replicate. Qed.

Definition term_size (w : Z) : Prop := 8 <= w < 2 ^ 30.

Lemma quot8 w : term_size w -> Z.quot w 8 = w / 8 /\ 0 < w / 8.
Proof. intros Hw. unfold term_size in Hw. rewrite Z.quot_div_nonneg by lia. split; [done|]. apply Z.div_str_pos. lia. Qed.

Lemma start_ok w h win : term_size w -> term_size h -> exists t d, term_start w h win = Some (t, d) /\ term_ok t /\ disp_ok t d /\
  win_w d = w /\ win_h d = h /\ window_ok t d /\
  refines t (AT (Scr (fun _ _ => Cell 32 White Black) 0 0 White Black) None true 0 (mkAnsi White ANSI_NORMAL (replicate ANSI_BUF_SIZE 0) 0) false []).
Proof.
  intros Hw Hh. destruct (quot8 w Hw) as [Ew Pw]. destruct (quot8 h Hh) as [Eh Ph]. unfold term_start, CHAR_W, CHAR_H. rewrite Ew, Eh.
  set (l := replicate _ _). set (t := Term _ _ l l _ _ _ _ _ _ _ _).
  assert (term_ok t) as I by (split; cbn; [done|apply blank_buf; [nia|done]|apply blank_buf; [nia|done]|unfold view_ok; cbn; lia..]).
  destruct (refresh_spec t I (fresh_display w h (h / 8 * (w / 8)) win)) as (d & E & D & E1 & E2 & Hwin);
    [apply fresh_ok; cbn; unfold term_size in *; (done || nia)|]. rewrite E. cbn [mbind option_bind]. exists t, d. split; [done|]. split; [done|]. split; [done|].
  split; [done|]. split; [done|]. split; [unfold window_ok; by rewrite E1|]. split; try done. split; try done. intros r c Hr Hc. cbn [cell]. unfold cell_at, get_cell.
  change (n_rows t) with (h / 8) in *. change (n_cols t) with (w / 8) in *. change (start_line_idx (cur t)) with 0.
  pose proof (ring_range (h / 8) (0 + r) Ph). pose proof (term_index_range (h / 8) (w / 8) _ c Ph H Hc) as Hi. rewrite (proj2 (Z.ltb_ge _ _)) by lia.
  unfold t, text_buf. cbn [is_alt main_buf]. apply lookup_replicate_2. lia.
Qed.

Lemma rounds_ok rounds : forall t d, term_ok t -> disp_ok t d -> Forall (fun round => Forall is_ascii round.1) rounds ->
  exists t' d', term_rounds t d rounds = Some (t', d') /\ keeps t t' /\ disp_ok t' d' /\ win_w d' = win_w d /\ win_h d' = win_h d.
Proof.
  induction rounds as [|[buf more] rounds IH]; intros t d I D Hr; cbn [term_rounds]; [eauto 10 using term_keeps_refl|].
  apply Forall_cons in Hr as [Hb Hr]. destruct (output_ok t d buf more I D Hb) as (t1 & d1 & -> & K1 & D1 & E1 & E2 & _). cbn [mbind option_bind].
  destruct (IH t1 d1 (proj1 K1) D1 Hr) as (t2 & d2 & E & K2 & D2 & E3 & E4). exists t2, d2. split; [done|].
  split; [by eapply keeps_trans|]. split; [done|]. split; congruence.
Qed.

(** A resized terminal is well formed when the saved cursor fits. *)
Lemma resize_ok t d w h win : term_ok t -> term_size w -> term_size h -> view_ok (h / 8) (w / 8) (saved t) ->
  exists t' d', term_resize t d w h win = Some (t', d') /\ term_ok t' /\ disp_ok t' d' /\ window_ok t' d' /\
    n_cols t' = w / 8 /\ n_rows t' = h / 8 /\ cur_row (cur t') = 0 /\ cur_col (cur t') = 0 /\
    sent t' = sent t ++ (if shell_dead t then [] else [12]).
Proof.
  intros I Hw Hh Hsv. destruct (quot8 w Hw) as [Ew Pw]. destruct (quot8 h Hh) as [Eh Ph]. unfold term_resize, CHAR_W, CHAR_H.
  unfold term_size in *. rewrite (proj2 (Z.ltb_lt 0 w)), (proj2 (Z.ltb_lt 0 h)) by lia. cbn [andb]. rewrite Ew, Eh.
  set (l := replicate _ _). set (t1 := Term _ _ l l _ _ _ _ _ _ _ _).
  assert (ascii (ink t 32)) as Ha by (unfold ascii, ink; cbn; lia).
  assert (term_ok t1) as I1 by (split; cbn; [done|apply blank_buf; [nia|done]|apply blank_buf; [nia|done]|unfold view_ok; cbn; lia|done]).
  destruct (refresh_spec t1 I1 (fresh_display w h (h / 8 * (w / 8)) win)) as (d1 & -> & D & E1 & E2 & Hwin);
    [apply fresh_ok; cbn; (done || nia)|]. cbn [mbind option_bind]. change (shell_dead t1) with (shell_dead t).
  assert (window_ok t1 d1) as Hwo by (unfold window_ok; by rewrite E1).
  destruct (shell_dead t); (eexists _, d1; split; [done|]; split; [by apply (term_ok_ext t1)|]; split; [apply (disp_keeps t1); [split; [by apply (term_ok_ext t1)|done]|done]|]; split; [exact Hwo|]; split_and!; try done).
  cbn. by rewrite app_nil_r.
Qed.
End Rounds.

(** C31: The window shows the text.  A terminal of any size of at least one character
    starts, takes any ASCII output in any number of rounds, and after a round that
    ends with a drawing every pixel of the window is the pixel of the glyph and the
    colours of its cell of the text, with the cursor in inverse: drawing only the
    changed cells is the same as drawing all.  No access leaves the frame buffer. *)
Theorem terminal_window_correct w h win rounds buf : term_size w -> term_size h ->
  Forall (fun round => Forall is_ascii round.1) rounds -> Forall is_ascii buf -> buf <> [] ->
  exists t0 d0 t d t' d', term_start w h win = Some (t0, d0) /\ term_rounds t0 d0 rounds = Some (t, d) /\
    term_output t d buf false = Some (t', d') /\ term_ok t' /\
    forall r c, 0 <= r < h / 8 -> 0 <= c < w / 8 -> exists x, cell_at t' r c = Some x /\
      forall dx dy, 0 <= dx < 8 -> 0 <= dy < 8 -> pixel w (window d') (c * 8 + dx) (r * 8 + dy) = cell_pixel (target t' r c x) dx dy.
Proof.
  intros Hw Hh Hr Hb Hne. destruct (start_ok w h win Hw Hh) as (t0 & d0 & E0 & I0 & D0 & W0 & H0 & _).
  destruct (rounds_ok rounds t0 d0 I0 D0 Hr) as (t & d & E & K & D & W & H1).
  destruct (output_ok t d buf false (proj1 K) D Hb) as (t' & d' & E' & K' & D' & W' & H' & Hwin). exists t0, d0, t, d, t', d'.
  split; [done|]. split; [done|]. split; [done|]. split; [apply K'|]. intros r c Hgr Hgc. pose proof (do_cols _ _ D'). pose proof (do_rows _ _ D').
  assert (in_grid t' r c) as Hg by (unfold in_grid; rewrite W', W, W0 in *; rewrite H', H1, H0 in *; lia).
  destruct (wanted_some t' (proj1 K') r c Hg) as (x & Ex & _). exists x. split; [done|]. intros dx dy Hdx Hdy.
  replace w with (win_w d') by congruence. apply (Hwin Hne eq_refl r c); [done|unfold wanted; by rewrite Ex|done|done].
Qed.

Lemma terminal_window_correct_witness : let win := PB (fun _ => 7) (24 * 17) in
  exists t d, term_start 24 17 win = Some (t, d) /\ exists t' d', term_output t d [65; 10; 66] false = Some (t', d') /\
    pixel 24 (window d') 3 0 = 0xFFFFFF /\ pixel 24 (window d') 8 8 = 0xFFFFFF /\ pixel 24 (window d') 0 0 = 0.
Proof.
  intros win. destruct (terminal_window_correct 24 17 win [] [65; 10; 66]) as (t0 & d0 & t & d & t' & d' & E0 & Er & E & _ & Hp);
    [unfold term_size; lia|unfold term_size; lia|done|by apply (bool_decide_unpack _)|done|].
  cbn [term_rounds] in Er. injection Er as <- <-. exists t0, d0. split; [exact E0|]. exists t', d'. split; [exact E|].
  assert ((fst <$> (term_start 24 17 win ≫= fun td => term_output td.1 td.2 [65; 10; 66] false)) = Some t') as Erun
    by (rewrite E0; cbn [mbind option_bind fst snd]; rewrite E; reflexivity).
  assert (cell_at t' 0 0 = Some (Cell 65 0xFFFFFF 0) /\ cell_at t' 1 1 = Some (Cell 32 0xFFFFFF 0) /\ cur (t') = View 1 1 0 0xFFFFFF 0 /\ cur_vis t' = true) as (H1 & H2 & H3 & H4).
  { vm_compute in Erun. injection Erun as <-. split_and!; reflexivity. }
  clear E0 E Erun. change (17 / 8) with 2 in Hp. change (24 / 8) with 3 in Hp.
  destruct (Hp 0 0 ltac:(lia) ltac:(lia)) as (x & Ex & Px). destruct (Hp 1 1 ltac:(lia) ltac:(lia)) as (y & Ey & Py). clear Hp.
  rewrite H1 in Ex. injection Ex as <-. rewrite H2 in Ey. injection Ey as <-. unfold target in Px, Py. rewrite H3, H4 in Px, Py.
  split; [apply (Px 3 0); lia|]. split; [apply (Py 0 0); lia|apply (Px 0 0); lia].
Defined.

(** Four characters and a line in three columns, and one character in the other buffer. *)
Definition demo_output : list Z := [65; 66; 67; 68; 10; 69] ++ [27; 91; 63; 52; 55; 104] ++ [70] ++ [27; 91; 63; 52; 55; 108].

Lemma terminal_refines_screen_witness :
  exists t d t' d' a', term_start 24 16 (PB (fun _ => 0) (24 * 16)) = Some (t, d) /\ term_bytes t d demo_output = Some (t', d') /\ refines t' a' /\
    glyph (cell (at_scr a') 0 0) = 68 /\ glyph (cell (at_scr a') 1 0) = 69 /\ at_hidden a' = None.
Proof.
  destruct (start_ok 24 16 (PB (fun _ => 0) (24 * 16))) as (t & d & E & I & D & W & Hh & _ & Rf); [unfold term_size; lia..|].
  set (a := AT _ _ _ _ _ _ _) in Rf. destruct (terminal_refines_screen t d a demo_output Rf) as (t' & d' & E' & _ & H);
    [apply (bool_decide_unpack _); vm_compute; exact Logic.I|].
  assert (n_rows t = 2 /\ n_cols t = 3) as [Er Ec] by (rewrite (do_rows _ _ D), (do_cols _ _ D), W, Hh; split; reflexivity). rewrite Er, Ec in H.
  assert (((fun a' => (glyph (cell (at_scr a') 0 0), glyph (cell (at_scr a') 1 0), bool_decide (is_Some (at_hidden a')))) <$> at_bytes 2 3 a demo_output)
    = Some (68, 69, false)) as Hv by (vm_compute; reflexivity).
  destruct (at_bytes 2 3 a demo_output) as [a'|]; [|discriminate Hv]. cbn [fmap option_fmap option_map] in Hv. injection Hv as H1 H2 H3.
  exists t, d, t', d', a'. split; [exact E|]. split; [exact E'|]. split; [exact (H a' eq_refl)|]. split; [exact H1|]. split; [exact H2|].
  apply bool_decide_eq_false in H3. destruct (at_hidden a'); [|reflexivity]. exfalso. apply H3. eexists. reflexivity.
Defined.

(** A window made smaller while the other buffer is shown: the cursor that comes back
    is outside the text, and the next character is stored outside the buffer. *)
Theorem terminal_resize_overruns : let win := PB (fun _ => 0) 0 in
  (td ← term_start 80 80 win;
   td ← term_bytes td.1 td.2 (replicate 9 97 ++ [27; 91; 63; 52; 55; 104]);
   td ← term_resize td.1 td.2 16 16 win;
   td ← term_bytes td.1 td.2 [27; 91; 63; 52; 55; 108];
   Some (cur_col (cur td.1), n_cols td.1, term_bytes td.1 td.2 [98] )) = Some (9, 2, None).
Proof. vm_compute. reflexivity. Qed.
