(* ===== verification/ShellTerm.v ===== *)
(** The line of the shell on a terminal: after every key the row of the cursor shows the
    prompt and the line, and the cursor is behind them. *)
From stdpp Require Import strings.
From S2P Require Import Prelude Ansi NyamoDraw Shell ShellSpec Font WinDraw Terminal TerminalSpec TerminalRun TermFeed TerminalDraw.

(** *** Output on a row *)
Section Rows.
Context (R C : Z) (HR : 0 < R <= 999) (HC : 0 < C <= 999).
Implicit Types (a : aterm) (o x l : list Z) (c : Z).

(** The row of the cursor shows a text that ends at the cursor, and blanks. *)
Definition line_at a x : Prop :=
  0 <= s_row (at_scr a) < R /\ s_col (at_scr a) = Z.of_nat (length x) /\ Z.of_nat (length x) < C /\
  forall c, 0 <= c < C -> glyph (cell (at_scr a) (s_row (at_scr a)) c) = default 32 (x !! Z.to_nat c).

Definition prints o x x' : Prop := forall a, ready a -> line_at a x ->
  exists a', at_run R C a o = Some a' /\ ready a' /\ line_at a' x' /\ at_hidden a' = at_hidden a /\ at_sent a' = at_sent a.

Lemma prints_nil x : prints [] x x.
Proof. intros a Ha Hx. by exists a. Qed.

Lemma prints_app o1 o2 x y z : prints o1 x y -> prints o2 y z -> prints (o1 ++ o2) x z.
Proof.
  intros P1 P2 a Ha Hx. destruct (P1 a Ha Hx) as (a1 & E1 & R1 & L1 & H1 & S1). destruct (P2 a1 R1 L1) as (a2 & E2 & R2 & L2 & H2 & S2).
  exists a2. rewrite at_run_app, E1. split_and!; (done || congruence).
Qed.

Lemma prints_text x l : Forall printable l -> Z.of_nat (length (x ++ l)) < C -> prints l x (x ++ l).
Proof.
  intros Hl Hlen a Ha (Hr & Hc & Hxc & Hg). rewrite length_app in Hlen. destruct (text_run R C l a Ha Hl) as (a' & E & Rd & F1 & F2 & F3 & P1 & P2 & G); [lia..|].
  exists a'. split; [done|]. split; [done|]. split; [|done]. unfold line_at. rewrite P1, P2, length_app. split; [done|]. split; [lia|]. split; [lia|].
  intros c Hcc. rewrite G, Hg by done. unfold text_ink. rewrite Hc. case_decide as D.
  - rewrite lookup_app_r by lia. replace (Z.to_nat (c - Z.of_nat (length x))) with (Z.to_nat c - length x)%nat by lia.
    destruct (l !! _); [done|]. cbn. by rewrite lookup_ge_None_2 by lia.
  - by rewrite lookup_app_l by lia.
Qed.

Lemma put_back a : ready a -> 0 < s_col (at_scr a) -> s_row (at_scr a) < R ->
  at_run R C a [8] = Some (at_with a (let s := s_move (at_scr a) (s_row (at_scr a)) (s_col (at_scr a) - 1) in s_put s (s_ink s 32)) (at_ansi a)).
Proof.
  intros [He Hs] Hc Hr. rewrite (at_run_step R C _ _ _ (at_char R C a 8)) by (done || by apply at_byte_plain). cbn. do 2 f_equal.
  unfold at_char, ansi_write_char. rewrite Hs. cbn [Z.eqb Pos.eqb call_if has_put_char term_driver foldl s_call]. f_equal.
  unfold s_put_char. cbn [Z.eqb Pos.eqb]. rewrite (proj2 (Z.ltb_lt _ _)) by done. unfold s_scroll. cbn [s_put s_move s_row]. by rewrite (proj2 (Z.leb_gt _ _)) by lia.
Qed.

Lemma prints_back x ch : prints [8] (x ++ [ch]) x.
Proof.
  intros a Ha (Hr & Hc & Hxc & Hg). rewrite length_app in Hc, Hxc. cbn in Hc, Hxc. rewrite put_back by (done || lia). eexists. split; [reflexivity|].
  split; [done|]. split; [|done]. unfold line_at. cbn [at_with at_scr s_put s_move s_row s_col cell]. split; [done|]. split; [lia|]. split; [lia|].
  intros c Hcc. case_decide as D; [cbn; by rewrite lookup_ge_None_2 by lia|]. rewrite Hg by done.
  destruct (decide (c < Z.of_nat (length x))); [by rewrite lookup_app_l by lia|]. rewrite !lookup_ge_None_2; [done|lia|rewrite length_app; cbn; lia].
Qed.

(** [\b \b] *)
Lemma prints_rub x ch : prints [8; 32; 8] (x ++ [ch]) x.
Proof.
  change [8; 32; 8] with ([8] ++ [32] ++ [8]). intros a Ha Hx. assert (Z.of_nat (length (x ++ [32])) < C) as Hlen by (destruct Hx as (_ & _ & H & _); rewrite length_app in *; exact H).
  revert a Ha Hx. eapply prints_app; [apply prints_back|]. eapply prints_app; [|apply prints_back]. apply prints_text; [|done]. apply Forall_singleton. unfold printable. lia.
Qed.

Lemma prints_erase x l : prints (erase l) (x ++ l) x.
Proof.
  induction l as [|ch l IH] using rev_ind; [rewrite app_nil_r; apply prints_nil|]. unfold erase. rewrite length_app, Nat.add_comm. cbn [Nat.add length replicate concat].
  eapply prints_app; [rewrite app_assoc; apply prints_rub|exact IH].
Qed.

(** *** Escape sequences *)
(** A sequence that only sets the colour. *)
Lemma prints_color l x : l = str "[33m" \/ l = str "[32m" \/ l = str "[0m" -> prints (27 :: l) x x.
Proof.
  intros Hl a [He Hs] Hx. destruct a as [scr h vis es [col st buf idx] dead sn]. cbn in He, Hs. subst es st.
  destruct Hl as [-> | [-> | ->]]; (eexists; split; [cbv -[s_call at_scr]; reflexivity|]); (split; [done|]); split; done.
Qed.

(** The screen is cleared, and the cursor goes to its first row. *)
Lemma prints_home x : prints ((27 :: str "[2J") ++ (27 :: str "[1;1H")) x [].
Proof.
  intros a [He Hs] Hx. destruct a as [scr h vis es [col st buf idx] dead sn]. cbn in He, Hs. subst es st.
  eexists. split; [cbv -[s_call at_scr]; reflexivity|]. split; [done|]. split; [|done]. unfold line_at. cbn. split; [lia|]. split; [lia|]. split; [lia|]. done.
Qed.

(** *** The prompt *)
Definition prompt_text (v : env) : list Z :=
  match e_cwd v with
  | Some p => str "NyanOS " ++ p ++ str "> "
  | None => str "NyanOS ???> "
  end.

(** The names the shell meets are printable. *)
Record env_ok (v : env) : Prop := {
  vo_cwd : Forall printable (default [] (e_cwd v));
  vo_bin : Forall (fun e => Forall printable (en_name e)) (default [] (e_bin v));
  vo_dir p : Forall (fun e => Forall printable (en_name e)) (default [] (e_dir v p)) }.

Lemma printable_nonzero l : Forall printable l -> Forall (fun c => c <> 0) l.
Proof. intros H. eapply Forall_impl; [exact H|]. unfold printable. lia. Qed.
Lemma str_printable (s : string) : forallb (fun c => (32 <=? c) && (c <? 127)) (str s) = true -> Forall printable (str s).
Proof.
  intros H. apply Is_true_eq_left, forallb_True in H. eapply Forall_impl; [exact H|]. unfold printable. intros c Hc. cbn in Hc.
  destruct (Z.leb_spec 32 c), (Z.ltb_spec c 127); (done || lia).
Qed.

Lemma prompt_text_printable v : env_ok v -> Forall printable (prompt_text v).
Proof.
  intros [Hc _ _]. unfold prompt_text. destruct (e_cwd v); [|by apply str_printable]. rewrite !Forall_app. split; [by apply str_printable|]. split; [done|by apply str_printable].
Qed.

Lemma prompt_split v : env_ok v -> prompt v = (27 :: str "[33m") ++ prompt_text v ++ (27 :: str "[32m").
Proof.
  intros [Hc _ _]. unfold prompt, prompt_text. destruct (e_cwd v) as [p|]; [|reflexivity]. rewrite cstr_id by (by apply printable_nonzero). by rewrite <- !app_assoc.
Qed.

Lemma prints_prompt v : env_ok v -> Z.of_nat (length (prompt_text v)) < C -> prints (prompt v) [] (prompt_text v).
Proof.
  intros Hv Hlen. rewrite prompt_split by done. eapply prints_app; [apply prints_color; by left|]. eapply prints_app; [|apply prints_color; by right; left].
  apply (prints_text []); [by apply prompt_text_printable|done].
Qed.

(** *** Keys *)
(** Keys that do not finish the line and leave only printable characters. *)
Definition editing (k : skey) : Prop :=
  match k with
  | Key c => printable c \/ c = 9 \/ c = 8 \/ c = 27 \/ c = 12
  | Seq _ _ => True
  end.
Definition all_printable (e : editor_spec) : Prop := Forall printable (es_line e) /\ Forall (Forall printable) (es_hist e).

Lemma cstr_printable l : Forall printable l -> Forall printable (cstr l).
Proof. intros H. by rewrite cstr_id by by apply printable_nonzero. Qed.

Lemma Forall_kept {A} (P Q : A -> Prop) `{!forall y : A, Decision (P y)} (l : list A) : Forall Q l -> Forall Q (filter P l).
Proof. rewrite !Forall_forall. intros HQ y Hy. apply HQ. by apply list_elem_of_filter in Hy as [_ Hy]. Qed.

Lemma candidates_printable v l : env_ok v -> Forall (fun e => Forall printable (en_name e)) (snd (candidates (e_cwd v) (e_bin v) (e_dir v) l)).
Proof.
  intros [_ Hb Hd]. unfold candidates. destruct (split_tok l) as [before tok]. cbn [snd]. unfold matches. apply Forall_app. split; [|by apply Forall_kept, Forall_kept].
  destruct (_ && _); [|done]. apply Forall_app. split; [|by apply Forall_kept]. apply Forall_kept. unfold builtin_cmds.
  apply Forall_fmap, Forall_fmap. repeat (apply Forall_cons; split; [apply str_printable; reflexivity|]). by apply Forall_nil.
Qed.

Lemma completed_ext v l : env_ok v -> exists x, completed v l = l ++ x /\ Forall printable x.
Proof.
  intros Hv. pose proof (candidates_printable v l Hv) as Hc. unfold completed. destruct (candidates _ _ _ l) as [prefix [|m [|m2 ms]]]; [exists []; by rewrite app_nil_r| |exists []; by rewrite app_nil_r].
  cbn [snd] in Hc. apply Forall_cons in Hc as [Hc _]. set (y := take _ _). assert (Forall printable y) as Hy by (unfold y; by apply Forall_take, Forall_drop, cstr_printable).
  destruct (_ <? 126)%nat; [|by exists y]. exists (y ++ [if en_dir m then 47 else 32]). rewrite app_assoc. split; [done|]. apply Forall_app. split; [done|].
  apply Forall_singleton. unfold printable. destruct (en_dir m); lia.
Qed.

Lemma es_key_shown v e k p : env_ok v -> p = prompt_text v -> editing k -> all_printable e ->
  let '(e', o, fin) := es_key v e k in
  fin = false /\ all_printable e' /\ es_hist e' = es_hist e /\
    (Z.of_nat (length (p ++ es_line e')) < C -> prints o (p ++ es_line e) (p ++ es_line e')).
Proof.
  intros Hv Hp Hk [Hl Hh]. assert (forall i, Forall printable (default [] (es_hist e !! i))) as Hat.
  { intros i. destruct (es_hist e !! i) as [x|] eqn:E; [|done]. by apply (Forall_lookup_1 _ _ _ _ Hh E). }
  assert (forall l', Forall printable l' -> Z.of_nat (length (p ++ l')) < C -> prints (erase (es_line e) ++ l') (p ++ es_line e) (p ++ l')) as Hgo.
  { intros l' Hl' Hlen. eapply prints_app; [apply prints_erase|by apply prints_text]. }
  destruct k as [c|a b]; cbn [es_key].
  - cbn [editing] in Hk. rewrite (proj2 (Z.eqb_neq c 10)), (proj2 (Z.eqb_neq c 3)) by (unfold printable in Hk; lia).
    destruct (Z.eqb_spec c 9) as [->|H9].
    { destruct (completed_ext v (es_line e) Hv) as (x & -> & Hx). cbn. split; [done|]. split; [split; [by apply Forall_app|done]|]. split; [done|]. intros Hlen.
      rewrite drop_app_length, app_assoc. apply prints_text; [done|]. by rewrite <- app_assoc. }
    destruct (Z.eqb_spec c 8) as [->|H8].
    { cbn. split; [done|]. split; [split; [by apply Forall_take|done]|]. split; [done|]. intros _. destruct (decide (es_line e = [])) as [->|Hne]; [apply prints_nil|].
      destruct (exists_last Hne) as (l & ch & ->). rewrite length_app, take_app_le, take_ge by (cbn; lia). rewrite app_assoc. apply prints_back. }
    destruct (Z.eqb_spec c 27); [cbn; split; [done|]; split; [done|]; split; [done|]; intros _; apply prints_nil|].
    destruct (Z.eqb_spec c 12).
    { cbn [es_line es_hist]. split; [done|]. split; [done|]. split; [done|]. intros Hlen. eapply prints_app; [apply prints_color; by right; right|].
      rewrite app_assoc. eapply prints_app; [apply prints_home|]. eapply prints_app; [apply prints_prompt; [done|]; rewrite <- Hp; rewrite length_app in Hlen; lia|]. rewrite <- Hp. by apply prints_text. }
    destruct (_ <? 127)%nat; cbn; (split; [done|]); [|split; [done|]; split; [done|]; intros _; apply prints_nil].
    assert (Forall printable [c]) as Hc by (apply Forall_singleton; destruct Hk as [?|[?|[?|[?|?]]]]; [done|lia..]).
    split; [split; [by apply Forall_app|done]|]. split; [done|]. intros Hlen. rewrite app_assoc. apply prints_text; [done|]. by rewrite <- app_assoc.
  - destruct (_ && _ && _); [cbn; split; [done|]; split; [split; [apply Hat|done]|]; split; [done|]; apply Hgo, Hat|].
    destruct (_ && _ && _); [cbn; split; [done|]; split; [split; [apply Hat|done]|]; split; [done|]; apply Hgo, Hat|].
    cbn. split; [done|]. split; [done|]. split; [done|]. intros _. apply prints_nil.
Qed.

(** Every line on the way fits the row behind the prompt. *)
Lemma es_keys_shown v ks p : env_ok v -> p = prompt_text v -> forall e, Forall editing ks -> all_printable e ->
  (forall j, (1 <= j)%nat -> Z.of_nat (length (p ++ es_line (fst (es_keys v e (take j ks))))) < C) ->
  prints (snd (es_keys v e ks)) (p ++ es_line e) (p ++ es_line (fst (es_keys v e ks))).
Proof.
  intros Hv Hp. induction ks as [|k ks IH]; intros e Hks He Hfit; [apply prints_nil|]. apply Forall_cons in Hks as [Hk Hks].
  pose proof (es_key_shown v e k p Hv Hp Hk He) as H1. cbn [es_keys]. pose proof (Hfit 1%nat ltac:(lia)) as Hf1.
  assert (forall j, es_keys v e (take (S j) (k :: ks)) = let '(e', o, fin) := es_key v e k in if fin then (e', o) else let '(e2, o') := es_keys v e' (take j ks) in (e2, o ++ o')) as Ej by done.
  rewrite Ej in Hf1. destruct (es_key v e k) as [[e1 o1] fin]. destruct H1 as (-> & He1 & _ & Hpr). cbn [take es_keys fst] in Hf1.
  assert (prints (snd (es_keys v e1 ks)) (p ++ es_line e1) (p ++ es_line (fst (es_keys v e1 ks)))) as H2.
  { apply IH; [done|done|]. intros j Hj. specialize (Hfit (S j) ltac:(lia)). rewrite Ej in Hfit. by destruct (es_keys v e1 (take j ks)). }
  destruct (es_keys v e1 ks) as [e2 o2]. cbn [fst snd] in *. eapply prints_app; [by apply Hpr|done].
Qed.
End Rows.

(** *** Whole sessions *)
Definition typed (k : skey) : Prop := editing k \/ k = Key 10 \/ k = Key 3.
Definition input_ok (vk : env * list skey) : Prop := env_ok (fst vk) /\ Forall typed (snd vk).

Lemma typed_ok k : typed k -> key_ok k.
Proof. intros [He|[-> | ->]]; [|done..]. destruct k as [c|]; [|done]. cbn in *. unfold printable in He. lia. Qed.

Lemma es_key_printable v e k : env_ok v -> typed k -> all_printable e -> all_printable (fst (fst (es_key v e k))).
Proof.
  intros Hv [Hk|[-> | ->]] He.
  - pose proof (es_key_shown 1 1 ltac:(lia) ltac:(lia) v e k _ Hv eq_refl Hk He) as H. destruct (es_key v e k) as [[e' o] fin]. apply H.
  - cbn. destruct He as [Hl Hh]. split; [done|]. cbn. apply Forall_app. split; [done|]. destruct (decide _); [done|by constructor].
  - cbn. destruct He as [Hl Hh]. by split.
Qed.

Lemma es_keys_printable v ks : env_ok v -> Forall typed ks -> forall e, all_printable e -> all_printable (fst (es_keys v e ks)).
Proof.
  intros Hv. induction 1 as [|k ks Hk _ IH]; intros e He; cbn [es_keys]; [done|]. pose proof (es_key_printable v e k Hv Hk He) as H.
  destruct (es_key v e k) as [[e1 o] fin]. cbn [fst] in H. destruct fin; [done|]. specialize (IH e1 H). by destruct (es_keys v e1 ks).
Qed.

Lemma es_lines_printable l e : Forall input_ok l -> all_printable e -> all_printable (fst (es_lines e l)).
Proof.
  intros Hl. revert e. induction Hl as [|[v ks] l [Hv Hks] _ IH]; intros e He; cbn [es_lines]; [done|]. destruct He as [H1 H2].
  pose proof (es_keys_printable v ks Hv Hks (es_begin e) ltac:(by split)) as H. destruct (es_keys v (es_begin e) ks) as [e1 o1]. cbn [fst] in H.
  specialize (IH e1 H). by destruct (es_lines e1 l).
Qed.

Lemma es_lines_length l e : (length (es_hist (fst (es_lines e l))) <= length (es_hist e) + length l)%nat.
Proof.
  revert e. induction l as [|[v ks] l IH]; intros e; cbn [es_lines]; [cbn; lia|].
  assert (forall ks e, (length (es_hist (fst (es_keys v e ks))) <= S (length (es_hist e)))%nat) as H.
  { clear. induction ks as [|k ks IH]; intros e; cbn [es_keys]; [cbn; lia|]. pose proof (es_key_hist v e k) as H. destruct (es_key v e k) as [[e1 o] fin]. destruct H as [H1 H2].
    destruct fin; [done|]. specialize (IH e1). rewrite H2 in IH by done. destruct (es_keys v e1 ks). exact IH. }
  specialize (H ks (es_begin e)). destruct (es_keys v (es_begin e) ks) as [e1 o1]. specialize (IH e1). destruct (es_lines e1 l) as [e2 o2]. cbn in *. lia.
Qed.

(** C34: The shell in its terminal.  After any lines, on a terminal whose cursor is at the
    start of a blank row, for all keys that edit a line - characters, rubbing out, Tab,
    going through the history, clearing the screen - that stays shorter than the row:
    what the shell has printed since, read by the terminal, leaves on the row of the
    cursor exactly the prompt and the line, then blanks, with the cursor behind them. *)
Theorem shell_line_on_terminal l v ks t d a :
  Forall input_ok l -> Z.of_nat (length l) < 2 ^ 31 - 1 -> env_ok v -> Forall editing ks ->
  refines t a -> ready a -> n_rows t <= 999 -> n_cols t <= 999 -> line_at (n_rows t) (n_cols t) a [] ->
  exists s, main_lines sh_start l = Some s /\
    ((forall j s1, main_line s v (take j ks) = Some s1 -> Z.of_nat (length (prompt_text v ++ line s1)) < n_cols t) ->
     exists s' o t' d', main_line s v ks = Some s' /\ sh_out s' = sh_out s ++ o /\ term_bytes t d o = Some (t', d') /\ term_ok t' /\
       cur_col (cur t') = Z.of_nat (length (prompt_text v ++ line s')) /\
       forall c, 0 <= c < n_cols t -> exists x, cell_at t' (cur_row (cur t')) c = Some x /\ glyph x = default 32 ((prompt_text v ++ line s') !! Z.to_nat c)).
Proof.
  intros Hl Hlen Hv Hks Rf Rd HR HC La. set (e0 := ES [] [] 0).
  assert (Forall (fun '(_, ks) => Forall key_ok ks) l) as Hok by (eapply Forall_impl; [exact Hl|]; intros [? ks1] [_ H]; eapply Forall_impl; [exact H|apply typed_ok]).
  pose proof (lines_edits l sh_start e0 start_finished Hok) as Hs. cbn [e0 es_hist length] in Hs. specialize (Hs ltac:(lia)).
  pose proof (es_lines_printable l e0 Hl ltac:(by split)) as He. pose proof (es_lines_length l e0) as Hh. destruct (es_lines e0 l) as [e o0]. cbn [fst] in He, Hh.
  destruct Hs as (s & Es & F & _). exists s. split; [done|]. intros Hfit. destruct (begin_edits v s e F) as [I1 Ho1].
  assert (forall j, exists s1, main_line s v (take j ks) = Some s1 /\ line s1 = es_line (fst (es_keys v (es_begin e) (take j ks))) /\
    sh_out s1 = sh_out s ++ prompt v ++ snd (es_keys v (es_begin e) (take j ks))) as Hj.
  { intros j. pose proof (keys_edits v (take j ks) _ _ I1) as Hk. destruct (es_keys v (es_begin e) (take j ks)) as [e1 o1].
    destruct Hk as (s1 & rest & E & F1 & Ho & _); [apply Forall_take; eapply Forall_impl; [exact Hks|]; intros k Hk; apply typed_ok; by left|cbn in Hh |- *; lia|].
    exists s1. unfold main_line. rewrite E. split; [done|]. split; [apply (ed_line _ _ F1)|]. rewrite Ho, Ho1. by rewrite <- app_assoc. }
  destruct (Hj (length ks)) as (s' & Em & El & Ho). rewrite take_ge in Em, El, Ho by lia. set (R := n_rows t) in *. set (C := n_cols t) in *.
  assert (0 < R /\ 0 < C) as [HR0 HC0] by apply (rf_ok _ _ Rf).
  assert (forall j, Z.of_nat (length (prompt_text v ++ es_line (fst (es_keys v (es_begin e) (take j ks))))) < C) as Hw.
  { intros j. destruct (Hj j) as (s1 & E1 & <- & _). by apply (Hfit j). }
  assert (prints R C (prompt v ++ snd (es_keys v (es_begin e) ks)) [] (prompt_text v ++ line s')) as Hp.
  { eapply prints_app; [apply prints_prompt; [done|]; specialize (Hw 0%nat); rewrite length_app in Hw; lia|]. rewrite El.
    rewrite <- (app_nil_r (prompt_text v)) at 1. destruct He as [H1 H2]. by apply (es_keys_shown R C ltac:(lia) ltac:(lia) v ks _ Hv eq_refl (es_begin e)). }
  destruct (Hp a Rd La) as (a' & Hrun & _ & (_ & Lc & _ & Lg) & _). apply at_run_bytes in Hrun as [Hb Ha].
  destruct (bytes_refines _ t a d a' Rf Ha Hb) as (t' & d' & Et & Rf' & E1 & E2).
  exists s', (prompt v ++ snd (es_keys v (es_begin e) ks)), t', d'. split; [done|]. split; [done|]. split; [done|]. split; [apply Rf'|].
  pose proof (rf_scr _ _ Rf') as S. split; [by rewrite (sh_col _ _ S)|]. intros c Hc. pose proof (to_cur _ (rf_ok _ _ Rf')) as (Hcr & _).
  eexists. split; [apply S; [done|by rewrite E2]|]. rewrite (sh_row _ _ S). by apply Lg.
Qed.

Lemma demo_env_ok : env_ok demo_env.
Proof.
  split; [by constructor|by apply Forall_nil|]. intros p. cbn [demo_env e_dir default].
  repeat (apply Forall_cons; split; [apply str_printable; reflexivity|]). by apply Forall_nil.
Qed.

(** [ls] was entered; up, and one character rubbed out. *)
Lemma shell_line_on_terminal_witness : let win := PB (fun _ => 0) (400 * 80) in
  exists t d s s' o t' d', term_start 400 80 win = Some (t, d) /\ main_lines sh_start [(demo_env, [Key 108; Key 115; Key 10])] = Some s /\
    main_line s demo_env [Seq 91 65; Key 8] = Some s' /\ sh_out s' = sh_out s ++ o /\ term_bytes t d o = Some (t', d') /\
    cur_col (cur t') = 11 /\ exists x, cell_at t' (cur_row (cur t')) 10 = Some x /\ glyph x = 108.
Proof.
  intros win. destruct (start_ok 400 80 win) as (t & d & E & I & D & W & Hh & _ & Rf); [unfold term_size; lia..|]. set (a := AT _ _ _ _ _ _ _) in Rf.
  assert (n_rows t = 10 /\ n_cols t = 50) as [Er Ec] by (rewrite (do_rows _ _ D), (do_cols _ _ D), W, Hh; split; reflexivity).
  assert (Forall input_ok [(demo_env, [Key 108; Key 115; Key 10])]) as H1.
  { apply Forall_cons. split; [|by apply Forall_nil]. split; [apply demo_env_ok|]. cbn [snd]. repeat (apply Forall_cons; split); try by apply Forall_nil.
    - left. left. unfold printable. lia.
    - left. left. unfold printable. lia.
    - right. left. reflexivity. }
  assert (Forall editing [Seq 91 65; Key 8]) as H2.
  { repeat (apply Forall_cons; split); [exact Logic.I|right; right; left; reflexivity|by apply Forall_nil]. }
  destruct (shell_line_on_terminal [(demo_env, [Key 108; Key 115; Key 10])] demo_env [Seq 91 65; Key 8] t d a H1) as (s & Es & H);
    [cbn; lia|apply demo_env_ok|exact H2|exact Rf|split; reflexivity|rewrite Er; lia|rewrite Ec; lia| |].
  { unfold line_at. rewrite Er, Ec. cbn. split; [lia|]. split; [lia|]. split; [lia|]. reflexivity. }
  pose proof Es as Es'. vm_compute in Es'. injection Es' as Es'. destruct H as (s' & o & t' & d' & Em & Ho & Et & _ & Hc & Hg).
  { intros j s1 E1. rewrite Ec, <- Es' in *. destruct j as [|[|j]]; [| |cbn [take] in E1; rewrite take_nil in E1]; vm_compute in E1; injection E1 as <-; vm_compute; reflexivity. }
  assert (line s' = [108]) as El by (rewrite <- Es' in Em; vm_compute in Em; injection Em as <-; reflexivity). rewrite El in *.
  exists t, d, s, s', o, t', d'. split; [exact E|]. split; [exact Es|]. split; [exact Em|]. split; [exact Ho|]. split; [exact Et|]. split; [exact Hc|].
  destruct (Hg 10) as (x & Hx & Hgx); [rewrite Ec; lia|]. exists x. split; [exact Hx|exact Hgx].
Defined.
