(* ===== verification/NyamoTerm.v ===== *)
(** The editor on a terminal: the bytes of [edtr_drw], fed to the machine on plain
    screens of [TerminalRun], leave on the screen the lines of the text. *)
From S2P Require Import Prelude Ansi Nyamo NyamoSpec NyamoDraw Terminal TerminalSpec TerminalRun TermFeed.

(** *** Lines *)
Section Lines.
Implicit Types (w : Z) (s : list Z) (r : ERow).

Lemma spaces_printable n : Forall printable (spaces n).
Proof. apply Forall_replicate. unfold printable. lia. Qed.
Lemma spaces_length n : 0 <= n -> Z.of_nat (length (spaces n)) = n.
Proof. intros. unfold spaces. rewrite length_replicate. lia. Qed.

(** A line of the screen: exactly [w] printable characters. *)
Definition line_ok w s : Prop := Z.of_nat (length s) = w /\ Forall printable s.

Lemma padded_ok w s n : 0 <= n <= w -> n <= Z.of_nat (length s) -> Forall printable s -> line_ok w (padded w s n).
Proof.
  intros Hn Hl Hs. unfold padded, line_ok. rewrite length_app. destruct (Z.ltb_spec 0 n).
  - split; [rewrite length_take; pose proof (spaces_length (w - n)); lia|]. apply Forall_app. split; [by apply Forall_take|apply spaces_printable].
  - split; [pose proof (spaces_length (w - n)); simpl; lia|]. apply spaces_printable.
Qed.

Lemma padded_lookup w s n c : 0 <= n <= w -> n <= Z.of_nat (length s) -> 0 <= c < w ->
  padded w s n !! Z.to_nat c = Some (default 32 (take (Z.to_nat n) s !! Z.to_nat c)).
Proof.
  intros Hn Hl Hc. unfold padded. assert ((if 0 <? n then take (Z.to_nat n) s else []) = take (Z.to_nat n) s) as ->.
  { destruct (Z.ltb_spec 0 n); [done|]. by replace (Z.to_nat n) with 0%nat by lia. }
  assert (length (take (Z.to_nat n) s) = Z.to_nat n) as El by (rewrite length_take; lia).
  destruct (Z.ltb_spec c n).
  - rewrite lookup_app_l by lia. destruct (lookup_lt_is_Some_2 (take (Z.to_nat n) s) (Z.to_nat c)) as [x ->]; [lia|done].
  - rewrite lookup_app_r, (lookup_ge_None_2 (take _ s)) by lia. unfold spaces. apply lookup_replicate_2. lia.
Qed.

Lemma printable_drop n s : Forall printable s -> Forall printable (drop n s).
Proof. apply Forall_drop. Qed.

Lemma wrap_line_ok w r v : 0 < w -> 0 <= v <= len r / w -> Forall printable (chars r) -> line_ok w (wrap_line w r v) /\
  forall c, 0 <= c < w -> wrap_line w r v !! Z.to_nat c = Some (default 32 (chars r !! Z.to_nat (v * w + c))).
Proof.
  intros Hw Hv Hp. assert (v * w <= len r) as Hvw by (pose proof (Z.mul_div_le (len r) w Hw); nia). unfold wrap_line.
  set (n := if w <? _ then _ else _). assert (0 <= n <= w /\ n <= len r - v * w /\ (n = w \/ n = len r - v * w)) as (H1 & H2 & H3)
    by (unfold n; destruct (Z.ltb_spec w (len r - v * w)); lia).
  assert (n <= Z.of_nat (length (drop (Z.to_nat (v * w)) (chars r)))) as H4 by (rewrite length_drop; unfold len in *; lia).
  split; [apply padded_ok; [done|done|by apply printable_drop]|]. intros c Hc. rewrite padded_lookup by done. f_equal. f_equal.
  destruct (Z.ltb_spec c n).
  - rewrite lookup_take_lt, lookup_drop by lia. f_equal. lia.
  - rewrite (lookup_ge_None_2 (take _ _)) by (rewrite length_take; lia). symmetry. apply lookup_ge_None_2. unfold len in *. lia.
Qed.

Lemma cut_line_ok w co r : 0 < w -> 0 <= co -> Forall printable (chars r) -> line_ok w (cut_line w co r) /\
  forall c, 0 <= c < w -> cut_line w co r !! Z.to_nat c = Some (default 32 (chars r !! Z.to_nat (co + c))).
Proof.
  intros Hw Hco Hp. unfold cut_line. set (n := if co <? len r then _ else 0).
  assert (0 <= n <= w /\ (n <= len r - co \/ n = 0) /\ (n = w \/ len r - co <= n)) as (H1 & H2 & H3)
    by (unfold n; destruct (Z.ltb_spec co (len r)); [destruct (Z.ltb_spec w (len r - co))|]; lia).
  assert (n <= Z.of_nat (length (drop (Z.to_nat co) (chars r)))) as H4 by (rewrite length_drop; unfold len in *; lia).
  split; [apply padded_ok; [done|done|by apply printable_drop]|]. intros c Hc. rewrite padded_lookup by done. f_equal. f_equal.
  destruct (Z.ltb_spec c n).
  - rewrite lookup_take_lt, lookup_drop by lia. f_equal. lia.
  - rewrite (lookup_ge_None_2 (take _ _)) by (rewrite length_take; lia). symmetry. apply lookup_ge_None_2. unfold len in *. lia.
Qed.
End Lines.

(** *** Lines on the screen *)
Section Paint.
Context (R C ro ta w : Z).
Context (Hta : 0 < ta < R) (Hw : 0 < w < C) (HR : R <= 999) (HC : C <= 999).
Implicit Types (ls : list (list Z)) (vy : Z).

Definition on_screen vy : bool := (ro <=? vy) && (vy <? ro + ta).

(** The lines of a list that are on the screen, the first at index [vy]. *)
Fixpoint paint ls vy : list Z :=
  match ls with
  | [] => []
  | l :: ls => (if on_screen vy then draw_line (vy - ro) l else []) ++ paint ls (vy + 1)
  end.

Definition lines_ink ls vy : inks := fun r c =>
  if decide (0 <= r < ta /\ 0 <= c < w /\ vy <= ro + r < vy + Z.of_nat (length ls)) then ls !! Z.to_nat (ro + r - vy) ≫= (.!! Z.to_nat c) else None.

Lemma draw_line_draws y s : 0 <= y < ta -> line_ok w s -> draws R C (draw_line y s) (text_ink y 0 s).
Proof.
  intros Hy [Hl Hp]. unfold draw_line. change (append_move_cursor (y + 1) 1) with (move_cursor (y + 1) (0 + 1)). apply line_draws; [lia..|done].
Qed.

Lemma paint_draws ls vy : Forall (line_ok w) ls -> draws R C (paint ls vy) (lines_ink ls vy).
Proof.
  revert vy. induction ls as [|l ls IH]; intros vy Hls; cbn [paint].
  { eapply draws_ext; [apply draws_nil|]. intros r c. unfold lines_ink. cbn [length]. by rewrite decide_False by lia. }
  apply Forall_cons in Hls as [Hl Hls]. set (o1 := if on_screen vy then text_ink (vy - ro) 0 l else no_ink).
  apply (draws_ext _ _ _ (on_top (lines_ink ls (vy + 1)) o1)).
  { apply draws_app; [|by apply IH]. unfold o1, on_screen. destruct (Z.leb_spec ro vy); cbn [andb]; [|apply draws_nil].
    destruct (Z.ltb_spec vy (ro + ta)); [|apply draws_nil]. apply draw_line_draws; [lia|done]. }
  intros r c. unfold on_top, lines_ink. cbn [length]. destruct Hl as [Hlen _].
  destruct (decide (ro + r = vy)) as [E|Hne].
  - rewrite (decide_False (P := 0 <= r < ta /\ 0 <= c < w /\ vy + 1 <= _ < _)) by lia. unfold o1, on_screen.
    destruct (Z.leb_spec ro vy), (Z.ltb_spec vy (ro + ta)); cbn [andb]; try (unfold no_ink; by rewrite decide_False by lia).
    unfold text_ink. replace (vy - ro) with r by lia. replace (Z.to_nat (ro + r - vy)) with 0%nat by lia. cbn [lookup list_lookup mbind option_bind]. rewrite Z.sub_0_r.
    destruct (decide (0 <= c < w)); [by rewrite !decide_True by lia|]. rewrite (decide_False (P := 0 <= r < ta /\ _)) by lia.
    case_decide; [|done]. apply lookup_ge_None_2. lia.
  - assert (o1 r c = None) as ->. { unfold o1. destruct (on_screen vy); [|done]. unfold text_ink. by rewrite decide_False by lia. }
    destruct (decide (vy + 1 <= ro + r < vy + 1 + Z.of_nat (length ls))) as [Hin|Hout].
    + replace (Z.to_nat (ro + r - vy)) with (S (Z.to_nat (ro + r - (vy + 1)))) by lia. cbn [lookup list_lookup].
      destruct (decide (0 <= r < ta /\ 0 <= c < w)); [|by rewrite !decide_False by lia]. rewrite !decide_True by lia. by destruct (_ ≫= _).
    + by rewrite !decide_False by lia.
Qed.

Lemma paint_app ls ls' vy : paint (ls ++ ls') vy = paint ls vy ++ paint ls' (vy + Z.of_nat (length ls)).
Proof.
  revert vy. induction ls as [|l ls IH]; intros vy; cbn [paint app length]; [by rewrite Z.add_0_r|]. rewrite IH, <- app_assoc. do 3 f_equal. lia.
Qed.

Lemma paint_off ls vy : vy + Z.of_nat (length ls) <= ro \/ ro + ta <= vy -> paint ls vy = [].
Proof.
  revert vy. induction ls as [|l ls IH]; intros vy Hoff; cbn [paint length] in *; [done|]. rewrite IH by lia. unfold on_screen.
  destruct (Z.leb_spec ro vy), (Z.ltb_spec vy (ro + ta)); (done || lia).
Qed.

(** How many rows of the screen are above line [x]. *)
Definition above (x : Z) : Z := Z.max 0 (Z.min ta (x - ro)).

Lemma move_length r c : 0 <= r < 1000 -> 0 <= c < 1000 -> (length (append_move_cursor r c) <= 10)%nat.
Proof.
  intros Hr Hc. change (append_move_cursor r c) with (move_cursor r c). unfold move_cursor. rewrite !length_app. cbn [length].
  destruct (decimal_spec r 3) as (_ & _ & ?); [change (10 ^ Z.of_nat 3) with 1000; lia|lia|lia|].
  destruct (decimal_spec c 3) as (_ & _ & ?); [change (10 ^ Z.of_nat 3) with 1000; lia|lia|lia|]. lia.
Qed.

Lemma paint_length ls vy : Forall (line_ok w) ls -> Z.of_nat (length (paint ls vy)) <= (above (vy + Z.of_nat (length ls)) - above vy) * (w + 10).
Proof.
  revert vy. induction ls as [|l ls IH]; intros vy Hls; cbn [paint length]; [rewrite Z.add_0_r; lia|]. apply Forall_cons in Hls as [[Hl _] Hls].
  specialize (IH (vy + 1) Hls). rewrite length_app. replace (vy + Z.of_nat (S (length ls))) with (vy + 1 + Z.of_nat (length ls)) by lia.
  unfold on_screen. destruct (Z.leb_spec ro vy), (Z.ltb_spec vy (ro + ta)); cbn [andb length].
  - assert (above (vy + 1) = above vy + 1) by (unfold above; lia). unfold draw_line. rewrite length_app.
    pose proof (move_length (vy - ro + 1) 1 ltac:(lia) ltac:(lia)). nia.
  - assert (above (vy + 1) = above vy) as <- by (unfold above; lia). lia.
  - assert (above (vy + 1) = above vy) as <- by (unfold above; lia). lia.
  - lia.
Qed.

(** A loop over the lines of a row. *)
Lemma bind_paint (f : Z -> list Z) n k cvy :
  (seqZ k (Z.of_nat n) ≫= fun v => if on_screen (cvy + v) then draw_line (cvy + v - ro) (f v) else []) = paint (f <$> seqZ k (Z.of_nat n)) (cvy + k).
Proof.
  revert k. induction n as [|n IH]; intros k; [done|]. rewrite seqZ_cons by lia. cbn [fmap list_fmap paint mbind list_bind].
  replace (Z.pred (Z.of_nat (S n))) with (Z.of_nat n) by lia. replace (cvy + k + 1) with (cvy + Z.succ k) by lia. by rewrite <- IH.
Qed.
End Paint.

(** *** The drawing functions *)
Section Full.
Context (e : editor) (ta : Z) (Hta : 0 < ta) (Hw : 0 < max_w e) (Hro : 0 <= row_offset e) (Hco : 0 <= col_offset e).
Implicit Types (r : ERow).
#[local] Abbreviation ro := (row_offset e).
#[local] Abbreviation w := (max_w e).

(** The lines of a row on the screen, and those of the text. *)
Definition vrow r : list (list Z) := if soft_wrap e then wrap_line w r <$> seqZ 0 (v_lines e r) else [cut_line w (col_offset e) r].
Definition vlines (l : list ERow) : list (list Z) := l ≫= vrow.

Lemma v_lines_pos r : 0 < v_lines e r.
Proof. unfold v_lines. assert (0 <= len r / w) by (apply Z.div_pos; [unfold len|]; lia). lia. Qed.

Lemma vrow_length r : soft_wrap e = true -> Z.of_nat (length (vrow r)) = v_lines e r.
Proof. intros Hs. unfold vrow. rewrite Hs, length_fmap, length_seqZ. pose proof (v_lines_pos r). lia. Qed.

Lemma wrap_row_paint r : soft_wrap e = true -> wrap_row e ta r = paint ro ta (vrow r) (lines_above e).
Proof.
  intros Hs. unfold wrap_row, vrow. rewrite Hs. pose proof (v_lines_pos r). rewrite <- (Z2Nat.id (v_lines e r)) by lia.
  transitivity (paint ro ta (wrap_line w r <$> seqZ 0 (Z.of_nat (Z.to_nat (v_lines e r)))) (lines_above e + 0)); [by rewrite <- bind_paint|by rewrite Z.add_0_r].
Qed.

Lemma wrap_step_paint r cvy n k drawn out : drawn = above ro ta (cvy + k) ->
  foldl (wrap_step e ta cvy r) (drawn, out) (seqZ k (Z.of_nat n)) =
  (above ro ta (cvy + k + Z.of_nat n), out ++ paint ro ta (wrap_line w r <$> seqZ k (Z.of_nat n)) (cvy + k)).
Proof.
  revert k drawn out. induction n as [|n IH]; intros k drawn out Hd; [cbn; by rewrite Z.add_0_r, app_nil_r, Hd|].
  rewrite seqZ_cons by lia. cbn [foldl fmap list_fmap paint]. replace (Z.pred (Z.of_nat (S n))) with (Z.of_nat n) by lia.
  unfold wrap_step at 2. fold (on_screen ro ta (cvy + k)). replace (cvy + k + 1) with (cvy + Z.succ k) by lia.
  replace (cvy + k + Z.of_nat (S n)) with (cvy + Z.succ k + Z.of_nat n) by lia.
  destruct (on_screen ro ta (cvy + k)) eqn:E; unfold on_screen in E.
  - rewrite IH by (rewrite Hd; unfold above; lia). rewrite <- app_assoc. replace (cvy + k - ro) with drawn by (rewrite Hd; unfold above; lia). done.
  - by rewrite IH by (rewrite Hd; unfold above; lia).
Qed.

Lemma wrap_rows_paint l : soft_wrap e = true -> forall cvy out,
  wrap_rows e ta l cvy (above ro ta cvy, out) = (above ro ta (cvy + Z.of_nat (length (vlines l))), out ++ paint ro ta (vlines l) cvy).
Proof.
  intros Hs. induction l as [|r l IH]; intros cvy out; [cbn; by rewrite Z.add_0_r, app_nil_r|]. cbn [wrap_rows fst].
  change (vlines (r :: l)) with (vrow r ++ vlines l). pose proof (vrow_length r Hs) as Hv. pose proof (v_lines_pos r).
  rewrite length_app, paint_app, Hv. destruct (Z.leb_spec ta (above ro ta cvy)) as [Hend|Hmore].
  { rewrite !paint_off by (unfold above in *; lia). rewrite app_nil_r. f_equal. unfold above in *. lia. }
  replace (cvy + Z.of_nat (length (vrow r) + length (vlines l))) with (cvy + v_lines e r + Z.of_nat (length (vlines l))) by lia.
  destruct (Z.leb_spec (cvy + v_lines e r) ro).
  - rewrite (paint_off ro ta (vrow r)) by lia. replace (above ro ta cvy) with (above ro ta (cvy + v_lines e r)) by (unfold above; lia). by rewrite IH.
  - rewrite <- (Z2Nat.id (v_lines e r)) by lia. rewrite (wrap_step_paint r cvy _ 0) by (by rewrite Z.add_0_r). rewrite !Z.add_0_r, IH, <- app_assoc.
    do 2 f_equal. unfold vrow. rewrite Hs. by rewrite Z2Nat.id by lia.
Qed.

Lemma fill_paint n k : 0 <= k -> k + Z.of_nat n <= ta ->
  (seqZ k (Z.of_nat n) ≫= fun i => draw_line i (spaces w)) = paint ro ta (replicate n (spaces w)) (ro + k).
Proof.
  revert k. induction n as [|n IH]; intros k Hk Hn; [done|]. rewrite seqZ_cons by lia. cbn [mbind list_bind replicate paint].
  replace (Z.pred (Z.of_nat (S n))) with (Z.of_nat n) by lia. replace (ro + k + 1) with (ro + Z.succ k) by lia. rewrite <- IH by lia.
  unfold on_screen. rewrite (proj2 (Z.leb_le _ _)), (proj2 (Z.ltb_lt _ _)) by lia. cbn [andb]. by replace (ro + k - ro) with k by lia.
Qed.

(** The number of lines of the text on the screen *)
Definition drawn_lines : Z := above ro ta (Z.of_nat (length (vlines (rows e)))).

Lemma wrap_full_paint : soft_wrap e = true ->
  wrap_full e ta = paint ro ta (vlines (rows e)) 0 ++ paint ro ta (replicate (Z.to_nat (ta - drawn_lines)) (spaces w)) (ro + drawn_lines).
Proof.
  intros Hs. unfold wrap_full. replace 0 with (above ro ta 0) at 2 by (unfold above; lia). rewrite wrap_rows_paint by done. rewrite Z.add_0_l. cbn [app].
  fold drawn_lines. assert (0 <= drawn_lines <= ta) by (unfold drawn_lines, above; lia).
  rewrite <- (Z2Nat.id (ta - drawn_lines)) at 1 by lia. by rewrite fill_paint by lia.
Qed.

Lemma cut_full_paint : soft_wrap e = false ->
  cut_full e ta = paint ro ta ((fun i => default (spaces w) (vlines (rows e) !! Z.to_nat (ro + i))) <$> seqZ 0 ta) ro.
Proof.
  intros Hs. unfold cut_full.
  assert (forall i, 0 <= i -> match row_at e (ro + i) with Some r => cut_line w (col_offset e) r | None => spaces w end =
    default (spaces w) (vlines (rows e) !! Z.to_nat (ro + i))) as Hl.
  { intros i Hi. unfold row_at. rewrite (proj2 (Z.ltb_ge _ _)) by lia. assert (vlines (rows e) = cut_line w (col_offset e) <$> rows e) as ->.
    { unfold vlines, vrow. rewrite Hs. generalize (rows e). induction l as [|r l IH]; [done|]. cbn. by f_equal. }
    rewrite list_lookup_fmap. by destruct (rows e !! Z.to_nat (ro + i)). }
  assert (forall n k, 0 <= k -> k + Z.of_nat n <= ta ->
    (seqZ k (Z.of_nat n) ≫= fun i => draw_line i (match row_at e (ro + i) with Some r => cut_line w (col_offset e) r | None => spaces w end)) =
    paint ro ta ((fun i => default (spaces w) (vlines (rows e) !! Z.to_nat (ro + i))) <$> seqZ k (Z.of_nat n)) (ro + k)) as Hgen.
  { induction n as [|n IH]; intros k Hk Hn; [done|]. rewrite seqZ_cons by lia. cbn [mbind list_bind fmap list_fmap paint].
    replace (Z.pred (Z.of_nat (S n))) with (Z.of_nat n) by lia. replace (ro + k + 1) with (ro + Z.succ k) by lia. rewrite <- Hl by lia.
    unfold on_screen. rewrite (proj2 (Z.leb_le _ _)), (proj2 (Z.ltb_lt _ _)) by lia. cbn [andb]. replace (ro + k - ro) with k by lia. by rewrite <- IH by lia. }
  specialize (Hgen (Z.to_nat ta) 0 ltac:(lia) ltac:(lia)). rewrite Z2Nat.id, Z.add_0_r in Hgen by lia. exact Hgen.
Qed.

(** The row at the cursor *)
Lemma row_paint r : (soft_wrap e = false -> on_screen ro ta (cur_y e) = true) ->
  (if soft_wrap e then wrap_row e ta r else cut_row e r) = paint ro ta (vrow r) (if soft_wrap e then lines_above e else cur_y e).
Proof.
  intros Hv. destruct (soft_wrap e) eqn:Hs; [by apply wrap_row_paint|]. unfold cut_row, vrow. rewrite Hs. cbn [paint]. rewrite Hv by done. by rewrite app_nil_r.
Qed.

(** *** What the screen is to show *)
(** The lines of the text, cut at the width of the screen or at its right edge. *)
Definition row_text r : list (list Z) :=
  if soft_wrap e then (fun v => take (Z.to_nat w) (drop (Z.to_nat (v * w)) (chars r))) <$> seqZ 0 (v_lines e r)
  else [take (Z.to_nat w) (drop (Z.to_nat (col_offset e)) (chars r))].
Definition shown_text : list (list Z) := rows e ≫= row_text.
Definition shown (r c : Z) : Z := default 32 (shown_text !! Z.to_nat (ro + r) ≫= (.!! Z.to_nat c)).

Definition rows_printable : Prop := Forall (fun r => Forall printable (chars r)) (rows e).

Lemma vrow_ok r : Forall printable (chars r) -> Forall2 (fun l t => line_ok w l /\ forall c, 0 <= c < w -> l !! Z.to_nat c = Some (default 32 (t !! Z.to_nat c))) (vrow r) (row_text r).
Proof.
  intros Hp. unfold vrow, row_text. destruct (soft_wrap e).
  - apply Forall2_fmap_2, Forall_Forall2_diag, Forall_forall. intros v Hv%elem_of_seqZ. unfold v_lines in Hv.
    destruct (wrap_line_ok w r v Hw ltac:(lia) Hp) as [H1 H2]. split; [done|]. intros c Hc. rewrite H2 by done. f_equal. f_equal.
    rewrite lookup_take_lt, lookup_drop by lia. f_equal. lia.
  - constructor; [|done]. destruct (cut_line_ok w (col_offset e) r Hw Hco Hp) as [H1 H2]. split; [done|]. intros c Hc. rewrite H2 by done. f_equal. f_equal.
    rewrite lookup_take_lt, lookup_drop by lia. f_equal. lia.
Qed.

Lemma vlines_ok l : Forall (fun r => Forall printable (chars r)) l ->
  Forall2 (fun l t => line_ok w l /\ forall c, 0 <= c < w -> l !! Z.to_nat c = Some (default 32 (t !! Z.to_nat c))) (vlines l) (l ≫= row_text).
Proof. induction 1 as [|r l Hr _ IH]; [constructor|]. cbn. apply Forall2_app; [by apply vrow_ok|exact IH]. Qed.

Lemma vlines_line_ok l : Forall (fun r => Forall printable (chars r)) l -> Forall (line_ok w) (vlines l).
Proof. intros Hl. eapply Forall2_Forall_l; [by apply vlines_ok|]. apply Forall_true. by intros t l' [? _]. Qed.

(** A character of a line, as it is to be shown. *)
Lemma vlines_shown (r c : Z) (l : list Z) : rows_printable -> 0 <= c < w ->
  vlines (rows e) !! Z.to_nat (ro + r) = Some l -> l !! Z.to_nat c = Some (shown r c).
Proof.
  intros Hp Hc El. destruct (Forall2_lookup_l _ _ _ _ _ (vlines_ok _ Hp) El) as (t & Et & _ & Hl). rewrite (Hl c Hc). unfold shown, shown_text. by rewrite Et.
Qed.
Lemma vlines_blank (r c : Z) : rows_printable -> vlines (rows e) !! Z.to_nat (ro + r) = None -> shown r c = 32.
Proof.
  intros Hp El. unfold shown, shown_text. apply lookup_ge_None in El. rewrite (Forall2_length _ _ _ (vlines_ok _ Hp)) in El.
  by rewrite (lookup_ge_None_2 _ _ El).
Qed.

Lemma spaces_line : line_ok w (spaces w).
Proof. split; [apply spaces_length; lia|apply spaces_printable]. Qed.
Lemma spaces_lookup (c : Z) : 0 <= c < w -> spaces w !! Z.to_nat c = Some 32.
Proof. intros Hc. unfold spaces. apply lookup_replicate_2. lia. Qed.

Definition area_ink (P : Z -> bool) : inks := fun (r c : Z) => if decide (0 <= r < ta /\ 0 <= c < w /\ P (ro + r) = true) then Some (shown r c) else None.

Context (R C : Z) (HtaR : ta < R) (HwC : w < C) (HR : R <= 999) (HC : C <= 999).

Lemma full_draws : rows_printable -> draws R C (if soft_wrap e then wrap_full e ta else cut_full e ta) (area_ink (fun _ => true)).
Proof.
  intros Hp. destruct (soft_wrap e) eqn:Hs.
  - rewrite wrap_full_paint by done. eapply draws_ext.
    { apply draws_app; apply (paint_draws R C ro ta w); (done || lia || (by apply vlines_line_ok) || (apply Forall_replicate, spaces_line)). }
    intros r c. unfold on_top, lines_ink, area_ink. rewrite length_replicate. set (V := vlines (rows e)) in *.
    destruct (decide (0 <= r < ta /\ 0 <= c < w)) as [[Hr Hc]|]; [|by rewrite !decide_False by lia].
    rewrite (decide_True (P := _ /\ _ /\ true = true)) by done. destruct (decide (drawn_lines <= r)) as [Hd|Hd].
    + rewrite decide_True by (unfold drawn_lines, above in *; lia). rewrite lookup_replicate_2 by lia. cbn [mbind option_bind]. rewrite spaces_lookup by done.
      rewrite vlines_blank; [done|done|]. apply lookup_ge_None_2. fold V. unfold drawn_lines, above in Hd. fold V in Hd. lia.
    + assert (0 <= ro + r < Z.of_nat (length V)) as Hin by (unfold drawn_lines, above in Hd; fold V in Hd; lia).
      rewrite decide_False by lia. rewrite decide_True by lia. rewrite Z.sub_0_r.
      destruct (lookup_lt_is_Some_2 V (Z.to_nat (ro + r))) as [l El]; [lia|]. rewrite El. cbn [mbind option_bind]. by apply vlines_shown.
  - rewrite cut_full_paint by done. eapply draws_ext.
    { apply (paint_draws R C ro ta w); [lia..|]. apply Forall_fmap, Forall_forall. intros i _. cbn.
      destruct (vlines (rows e) !! _) as [l|] eqn:El; [|apply spaces_line]. by apply (Forall_lookup_1 _ _ _ _ (vlines_line_ok _ Hp) El). }
    intros r c. unfold lines_ink, area_ink. rewrite length_fmap, length_seqZ.
    destruct (decide (0 <= r < ta /\ 0 <= c < w)) as [[Hr Hc]|]; [|by rewrite !decide_False by lia]. rewrite !decide_True by lia.
    rewrite list_lookup_fmap. replace (seqZ 0 ta !! Z.to_nat (ro + r - ro)) with (Some r) by (symmetry; apply lookup_seqZ; lia). cbn [fmap option_fmap option_map mbind option_bind].
    destruct (vlines (rows e) !! Z.to_nat (ro + r)) as [l|] eqn:El; cbn [default from_option]; [by apply vlines_shown|].
    cbn. rewrite spaces_lookup by done. by rewrite vlines_blank.
Qed.

(** The lines of the row at the cursor *)
Definition at_row (A : list ERow) r (k : Z) : bool := (Z.of_nat (length (vlines A)) <=? k) && (k <? Z.of_nat (length (vlines A) + length (vrow r))).

Lemma lines_above_spec A r B : focus e A r B -> soft_wrap e = true -> lines_above e = Z.of_nat (length (vlines A)).
Proof.
  intros [E Ey _] Hs. unfold lines_above. rewrite Ey, Nat2Z.id, E, take_app_length.
  assert (forall A n, foldl (fun n r => n + v_lines e r) n A = n + Z.of_nat (length (vlines A))) as Hf; [|by rewrite Hf].
  clear - Hs Hw. induction A as [|a A IH]; intros n; cbn [foldl]; [cbn; lia|]. rewrite IH. change (vlines (a :: A)) with (vrow a ++ vlines A).
  rewrite length_app. pose proof (vrow_length a Hs). lia.
Qed.

Lemma cut_lines A : soft_wrap e = false -> length (vlines A) = length A.
Proof. intros Hs. unfold vlines, vrow. rewrite Hs. induction A; cbn; [done|]. by f_equal. Qed.

Lemma row_draws A r B : rows_printable -> focus e A r B -> (soft_wrap e = false -> on_screen ro ta (cur_y e) = true) ->
  draws R C (if soft_wrap e then wrap_row e ta r else cut_row e r) (area_ink (at_row A r)).
Proof.
  intros Hp F Hv. rewrite row_paint by done. pose proof F as [E Ey _].
  assert ((if soft_wrap e then lines_above e else cur_y e) = Z.of_nat (length (vlines A))) as ->.
  { destruct (soft_wrap e) eqn:Hs; [by apply (lines_above_spec A r B)|]. by rewrite Ey, cut_lines. }
  assert (vlines (rows e) = vlines A ++ vrow r ++ vlines B) as EV by (rewrite E; unfold vlines; by rewrite bind_app).
  assert (Forall (line_ok w) (vrow r)) as Hok.
  { pose proof (vlines_line_ok _ Hp) as H. rewrite EV in H. apply Forall_app in H as [_ H]. by apply Forall_app in H as [? _]. }
  eapply draws_ext; [by apply (paint_draws R C ro ta w); try lia|]. intros x c. unfold lines_ink, area_ink, at_row.
  destruct (decide (0 <= x < ta /\ 0 <= c < w)) as [[Hx Hc]|]; [|by rewrite !decide_False by lia].
  destruct (decide (Z.of_nat (length (vlines A)) <= ro + x < Z.of_nat (length (vlines A)) + Z.of_nat (length (vrow r)))) as [Hin|Hout];
    [|rewrite !decide_False; [done| |]; intros (_ & _ & Hb); [apply andb_true_iff in Hb as [Hb1%Z.leb_le Hb2%Z.ltb_lt]|]; lia].
  rewrite !decide_True; [|(split; [done|]; split; [done|]; apply andb_true_iff; split; [apply Z.leb_le|apply Z.ltb_lt]; lia)|done].
  destruct (lookup_lt_is_Some_2 (vrow r) (Z.to_nat (ro + x - Z.of_nat (length (vlines A))))) as [l El]; [lia|].
  rewrite El. cbn [mbind option_bind]. apply vlines_shown; [done|done|]. rewrite EV, lookup_app_r by lia. rewrite lookup_app_l by lia. rewrite <- El. f_equal. lia.
Qed.
End Full.
