(* ===== verification/NyamoShow.v ===== *)
(** The editor on a terminal, continued: the status bar, the size of [mega_buf], the
    cursor, and a whole session of keys and drawings. *)
From stdpp Require Import strings.
From S2P Require Import Prelude Ansi Nyamo NyamoSpec NyamoDraw Terminal TerminalSpec TerminalRun TermFeed NyamoTerm.

(** *** The status bar *)
Section Bar.
Context (R C w ta : Z) (Hw : 0 < w < C) (HR : R <= 999) (HC : C <= 999).
Implicit Types (a : aterm) (ch : list Z).

(** Output below the text *)
Definition below a a' : Prop := at_hidden a' = at_hidden a /\ at_dead a' = at_dead a /\ at_sent a' = at_sent a /\
  forall r c, r < ta -> glyph (cell (at_scr a') r c) = glyph (cell (at_scr a) r c).

Lemma below_trans a1 a2 a3 : below a1 a2 -> below a2 a3 -> below a1 a3.
Proof. intros (? & ? & ? & G1) (? & ? & ? & G2). split_and!; try congruence. intros r c Hr. by rewrite G2, G1. Qed.

(** From a place on the screen to another *)
Definition goes l (row col row' col' : Z) : Prop := forall a, ready a -> s_row (at_scr a) = row -> s_col (at_scr a) = col ->
  exists a', at_run R C a l = Some a' /\ ready a' /\ below a a' /\ s_row (at_scr a') = row' /\ s_col (at_scr a') = col'.

Lemma goes_nil row col : goes [] row col row col.
Proof. intros a Ha Hr Hc. exists a. split; [done|]. split; [done|]. done. Qed.

Lemma goes_app l1 l2 r1 c1 r2 c2 r3 c3 : goes l1 r1 c1 r2 c2 -> goes l2 r2 c2 r3 c3 -> goes (l1 ++ l2) r1 c1 r3 c3.
Proof.
  intros G1 G2 a Ha Hr Hc. destruct (G1 a Ha Hr Hc) as (a1 & E1 & R1 & B1 & P1 & P2). destruct (G2 a1 R1 P1 P2) as (a2 & E2 & R2 & B2 & P3 & P4).
  exists a2. rewrite at_run_app, E1. split; [done|]. split; [done|]. split; [by eapply below_trans|done].
Qed.

Lemma goes_text l row col : ta <= row < R -> 0 <= row -> 0 <= col -> col + Z.of_nat (length l) < C -> Forall printable l -> goes l row col row (col + Z.of_nat (length l)).
Proof.
  intros Hrow H0 Hcol Hlen Hp a Ha Hr Hc. destruct (text_run R C l a Ha Hp) as (a' & E & Rd & F1 & F2 & F3 & P1 & P2 & G); [lia..|].
  exists a'. split; [done|]. split; [done|]. split; [|split; congruence]. split_and!; try done. intros r c Hlt. rewrite G. unfold text_ink.
  by rewrite decide_False by lia.
Qed.

Lemma goes_move row col r c : 0 <= row < R -> 0 <= col < C -> goes (append_move_cursor (row + 1) (col + 1)) r c row col.
Proof.
  intros Hr Hc a Ha _ _. destruct (move_run R C a (row + 1) (col + 1) Ha) as (ctx & E & Hctx); [lia..|]. eexists. split; [exact E|].
  split; [split; [apply Ha|done]|]. split; [done|]. cbn. lia.
Qed.

Definition chunk_ok ch : Prop := ch <> [] /\ Forall printable ch.

(** One part of the bar *)
Lemma bar_step_ok ch cr u out rows su : chunk_ok ch -> 0 <= su -> u = Z.min su w ->
  exists rows' su' x, stat_step w (rows, su) ch = (rows', su') /\ rows <= rows' <= rows + 1 /\ 0 <= su' /\
    bar_step w (cr, u, out) ch = (cr + (rows' - rows), Z.min su' w, out ++ x) /\
    (cr <= 990 -> 0 <= cr -> Z.of_nat (length x) <= w + 10 + Z.of_nat (length ch)) /\
    (ta < cr -> 0 < cr -> cr + (rows' - rows) <= R -> goes x (cr - 1) u (cr + (rows' - rows) - 1) (Z.min su' w)).
Proof.
  intros [Hne Hp] Hsu ->. assert (0 < Z.of_nat (length ch)) as Hn by (destruct ch; [done|simpl; lia]). set (n := Z.of_nat (length ch)) in *.
  unfold stat_step, bar_step. fold n. set (u := Z.min su w).
  assert ((w <? u + n) && (0 <? u) = (w <? su + n) && (0 <? su)) as ->.
  { unfold u. destruct (Z.ltb_spec w (Z.min su w + n)), (Z.ltb_spec 0 (Z.min su w)), (Z.ltb_spec w (su + n)), (Z.ltb_spec 0 su); (done || lia). }
  destruct ((w <? su + n) && (0 <? su)) eqn:Eb; cbn beta iota.
  - set (p := if w <? 0 + n then w - 0 else n). assert (p = Z.min n w /\ 0 < p) as [Ep Hpp] by (unfold p; destruct (Z.ltb_spec w (0 + n)); lia).
    rewrite (proj2 (Z.ltb_lt 0 p)) by lia. exists (rows + 1), n, ((spaces (w - u) ++ append_move_cursor (cr + 1) 1) ++ take (Z.to_nat p) ch).
    assert (Z.of_nat (length (take (Z.to_nat p) ch)) = p) as Elen by (rewrite length_take; lia).
    split; [done|]. split; [lia|]. split; [lia|]. split; [|split].
    + rewrite <- app_assoc, Z.add_0_l, Ep. do 2 f_equal. f_equal. lia.
    + intros Hcr Hcr0. rewrite !length_app. pose proof (spaces_length (w - u)). pose proof (move_length (cr + 1) 1 ltac:(lia) ltac:(lia)). lia.
    + intros H1 H2 H3. eapply goes_app; [eapply goes_app|].
      * apply goes_text; [lia|lia|lia|rewrite spaces_length; lia|apply spaces_printable].
      * apply (goes_move cr 0); lia.
      * replace (cr + (rows + 1 - rows) - 1) with cr by lia. rewrite <- Ep. pose proof (goes_text (take (Z.to_nat p) ch) cr 0) as G. rewrite Elen in G.
        apply G; [lia|lia|lia|lia|by apply Forall_take].
  - set (p := if w <? u + n then w - u else n). assert (u + p = Z.min (su + n) w /\ 0 < p /\ p <= n) as (Ep & Hpp & Hpn).
    { unfold p, u. apply andb_false_iff in Eb as [Eb|Eb]; [apply Z.ltb_ge in Eb|apply Z.ltb_ge in Eb]; destruct (Z.ltb_spec w (Z.min su w + n)); lia. }
    rewrite (proj2 (Z.ltb_lt 0 p)) by lia. exists rows, (su + n), (take (Z.to_nat p) ch).
    assert (Z.of_nat (length (take (Z.to_nat p) ch)) = p) as Elen by (rewrite length_take; lia).
    split; [done|]. split; [lia|]. split; [lia|]. split; [|split].
    + rewrite Ep. do 2 f_equal. f_equal. lia.
    + intros _ _. lia.
    + intros H1 H2 H3. replace (cr + (rows - rows) - 1) with (cr - 1) by lia. rewrite <- Ep.
      pose proof (goes_text (take (Z.to_nat p) ch) (cr - 1) u) as G. rewrite Elen in G. apply G; [lia|lia|lia|lia|by apply Forall_take].
Qed.

Lemma bar_fold_ok cs : forall cr u out rows su, Forall chunk_ok cs -> 0 <= su -> u = Z.min su w ->
  exists rows' su' x, foldl (stat_step w) (rows, su) cs = (rows', su') /\ rows <= rows' <= rows + Z.of_nat (length cs) /\ 0 <= su' /\
    foldl (bar_step w) (cr, u, out) cs = (cr + (rows' - rows), Z.min su' w, out ++ x) /\
    (cr + Z.of_nat (length cs) <= 990 -> 0 <= cr -> Z.of_nat (length x) <= Z.of_nat (length cs) * (w + 10) + Z.of_nat (length (concat cs))) /\
    (ta < cr -> 0 < cr -> cr + (rows' - rows) <= R -> goes x (cr - 1) u (cr + (rows' - rows) - 1) (Z.min su' w)).
Proof.
  induction cs as [|ch cs IH]; intros cr u out rows su Hcs Hsu Hu; cbn [foldl].
  { exists rows, su, []. cbn [length concat]. subst u. rewrite app_nil_r. replace (cr + (rows - rows)) with cr by lia. split; [done|]. split; [lia|]. split; [done|]. split; [done|].
    split; [intros; simpl; lia|intros; apply goes_nil]. }
  apply Forall_cons in Hcs as [Hch Hcs]. destruct (bar_step_ok ch cr u out rows su Hch Hsu Hu) as (r1 & s1 & x1 & -> & Hr1 & Hs1 & -> & L1 & G1).
  destruct (IH (cr + (r1 - rows)) (Z.min s1 w) (out ++ x1) r1 s1 Hcs Hs1 eq_refl) as (r2 & s2 & x2 & E2 & Hr2 & Hs2 & E3 & L2 & G2).
  exists r2, s2, (x1 ++ x2). split; [done|]. cbn [length concat]. split; [lia|]. split; [done|]. split; [|split].
  - rewrite E3, <- app_assoc. by replace (cr + (r1 - rows) + (r2 - r1)) with (cr + (r2 - rows)) by lia.
  - intros H1 H2. rewrite !length_app. specialize (L1 ltac:(lia) H2). specialize (L2 ltac:(lia) ltac:(lia)). lia.
  - intros H1 H2 H3. eapply goes_app; [apply G1; lia|]. replace (cr + (r2 - rows) - 1) with (cr + (r1 - rows) + (r2 - r1) - 1) by lia. apply G2; lia.
Qed.
End Bar.

(** *** The whole drawing *)
Section Whole.
Implicit Types (e : editor).

Definition sizes_ok e : Prop := 10 <= screen_rows e <= 255 /\ 10 <= screen_cols e <= 255.

Lemma chunks_ok b : Forall chunk_ok (chunks b) /\ length (chunks b) = 4%nat /\ (length (concat (chunks b)) <= 63)%nat.
Proof.
  split; [|split; [by destruct b|apply (bool_decide_unpack _); by destruct b]]. apply Forall_forall. intros ch Hch. split.
  - intros ->. destruct b; vm_compute in Hch; repeat (apply elem_of_cons in Hch as [?|Hch]; [done|]); by apply not_elem_of_nil in Hch.
  - revert ch Hch. apply Forall_forall. unfold printable. destruct b; by apply (bool_decide_unpack _).
Qed.

Lemma text_area_ok e : sizes_ok e -> text_area_rows e = screen_rows e - stat_bar_rows e - 1 /\ 1 <= stat_bar_rows e <= 5.
Proof.
  intros [Hr Hc]. assert (1 <= stat_bar_rows e <= 5) as Hs.
  { destruct (chunks_ok (soft_wrap e)) as (H1 & H2 & _). unfold stat_bar_rows.
    destruct (bar_fold_ok (screen_rows e) (screen_cols e) (max_w e) 0 ltac:(unfold max_w; lia) ltac:(lia) ltac:(lia) (chunks (soft_wrap e)) 0 0 [] 1 0 H1)
      as (r' & s' & x & -> & Hr' & _); [lia|unfold max_w; lia|]. rewrite H2 in Hr'. cbn [fst]. lia. }
  split; [|done]. unfold text_area_rows. rewrite (proj2 (Z.ltb_ge _ _)) by lia. done.
Qed.

(** The dashes and the bar: below the text, and not too long. *)
Lemma draw_bar_ok e : sizes_ok e -> Z.of_nat (length (draw_bar e)) <= 6 * max_w e + 127 /\
  forall a, ready a -> exists a', at_run (screen_rows e) (screen_cols e) a (draw_bar e) = Some a' /\ ready a' /\ below (text_area_rows e) a a'.
Proof.
  intros Hsz. pose proof (text_area_ok e Hsz) as [Eta Hst]. destruct Hsz as [Hr Hc]. assert (max_w e = screen_cols e - 1) as Ew by done.
  destruct (chunks_ok (soft_wrap e)) as (H1 & H2 & H3). set (ta := text_area_rows e) in *. set (R := screen_rows e) in *. set (C := screen_cols e) in *. set (w := max_w e) in *.
  destruct (bar_fold_ok R C w ta ltac:(lia) ltac:(lia) ltac:(lia) (chunks (soft_wrap e)) (ta + 2) 0 [] 1 0 H1 ltac:(lia) ltac:(lia))
    as (r' & s' & x & E1 & Hr' & Hs' & E2 & L & G). cbn [app] in E2.
  assert (stat_bar_rows e = r') as Est by (unfold stat_bar_rows; fold w; by rewrite E1). unfold draw_bar. fold w ta. rewrite E2, H2 in *. split.
  - rewrite !length_app, length_replicate. specialize (L ltac:(lia) ltac:(lia)). pose proof (move_length (ta + 1) 1 ltac:(lia) ltac:(lia)).
    pose proof (move_length (ta + 2) 1 ltac:(lia) ltac:(lia)). pose proof (spaces_length (w - Z.min s' w)). change (length (27 :: str "[7m")) with 4%nat. lia.
  - intros a Ha. assert (goes R C ta (append_move_cursor (ta + 1) 1 ++ replicate (Z.to_nat w) 45) (s_row (at_scr a)) (s_col (at_scr a)) ta w) as G1.
    { eapply goes_app; [apply (goes_move R C ta ltac:(lia) ltac:(lia) ta 0); lia|].
      pose proof (goes_text R C ta (replicate (Z.to_nat w) 45) ta 0) as Gt. rewrite length_replicate in Gt. replace (0 + Z.of_nat (Z.to_nat w)) with w in Gt by lia.
      apply Gt; [lia|lia|lia|lia|]. apply Forall_replicate. unfold printable. lia. }
    rewrite app_assoc. destruct (G1 a Ha eq_refl eq_refl) as (a1 & Ea1 & R1 & B1 & _). rewrite at_run_app, Ea1. cbn [mbind option_bind]. rewrite at_run_app.
    destruct (color_run R C a1 55 R1 (or_intror eq_refl)) as (ctx & fg & Ec & Hctx). change (27 :: str "[7m") with [27; 91; 55; 109]. rewrite Ec. cbn [mbind option_bind].
    set (a2 := at_with a1 _ ctx). assert (ready a2) as R2 by (split; [apply R1|done]).
    assert (goes R C ta (append_move_cursor (ta + 2) 1 ++ x ++ spaces (w - Z.min s' w)) (s_row (at_scr a2)) (s_col (at_scr a2)) (ta + 2 + (r' - 1) - 1) w) as G2.
    { eapply goes_app; [replace (ta + 2) with (ta + 1 + 1) by lia; apply (goes_move R C ta ltac:(lia) ltac:(lia) (ta + 1) 0); lia|].
      replace (ta + 1) with (ta + 2 - 1) by lia. eapply goes_app; [apply G; lia|].
      pose proof (goes_text R C ta (spaces (w - Z.min s' w)) (ta + 2 + (r' - 1) - 1) (Z.min s' w)) as Gt. rewrite spaces_length in Gt by lia.
      replace (Z.min s' w + (w - Z.min s' w)) with w in Gt by lia. apply Gt; [lia|lia|lia|lia|apply spaces_printable]. }
    destruct (G2 a2 R2 eq_refl eq_refl) as (a3 & E3 & R3 & B3 & _). exists a3. split; [done|]. split; [done|]. eapply below_trans; [exact B1|]. exact B3.
Qed.

(** *** Scrolling *)
Lemma scroll_to_ok o pos size : 0 <= o -> 0 <= pos -> 0 < size -> 0 <= scroll_to o pos size <= pos /\ pos < scroll_to o pos size + size.
Proof.
  intros Ho Hp Hs. unfold scroll_to. destruct (Z.ltb_spec pos o); match goal with |- context [if ?a <=? ?b then _ else _] => destruct (Z.leb_spec a b) end; lia.
Qed.

(** The offsets are not negative. *)
Definition view_pos e : Prop := 0 <= row_offset e /\ 0 <= col_offset e.

(** The editor after scrolling: the same but for the offsets, which are those before when nothing is to be drawn anew. *)
Record scrolled e e1 (cy cx : Z) : Prop := {
  sc_same : e1 = Editor (rows e) (rows_cap e) (cur_x e) (cur_y e) (row_offset e1) (col_offset e1) (screen_rows e) (screen_cols e) (mega_cap e) (soft_wrap e) (need_full_redraw e1);
  sc_view : view_pos e1;
  sc_keep : need_full_redraw e1 = false -> e1 = e;
  sc_cy : 0 <= cy < text_area_rows e;
  sc_cx : 0 <= cx < max_w e;
  sc_line A r B : focus e A r B -> row_offset e1 + cy = if soft_wrap e then lines_above e + cur_x e / max_w e else cur_y e;
  sc_col : if soft_wrap e then cx = cur_x e mod max_w e else col_offset e1 + cx = cur_x e }.

Lemma editor_eta e ro co : row_offset e = ro -> col_offset e = co -> set_view e ro co = e.
Proof. intros <- <-. by destruct e. Qed.

Lemma scroll_ok e : ed_ok e -> view_pos e -> exists e1 cy cx, scroll e = (e1, (cy, cx)) /\ scrolled e e1 cy cx.
Proof.
  intros I [Hro Hco]. assert (sizes_ok e) as Hs by apply I. destruct (text_area_ok e Hs) as [Eta Hst]. destruct (ed_focus e I) as (A & r & B & F).
  pose proof F as [E Ey Hx]. destruct Hs as [Hs1 Hs2]. assert (0 < max_w e) as Hw by (unfold max_w; lia). unfold scroll.
  assert (0 < text_area_rows e) as Hta by lia. destruct (soft_wrap e) eqn:Hsw.
  - assert (0 <= lines_above e + cur_x e / max_w e) as Hvy.
    { rewrite (lines_above_spec e Hw A r B F Hsw). assert (0 <= cur_x e / max_w e) by (apply Z.div_pos; lia). lia. }
    set (vy := lines_above e + cur_x e / max_w e) in *. pose proof (scroll_to_ok (row_offset e) vy (text_area_rows e) Hro Hvy Hta) as [S1 S2].
    set (ro := scroll_to _ _ _) in *. eexists _, _, _. split; [done|]. pose proof (Z.mod_pos_bound (cur_x e) (max_w e) Hw).
    destruct (Z.eqb_spec (row_offset e) ro) as [Er|Er].
    + split; [done|split; cbn; lia|intros _; by apply editor_eta|lia|done|intros A' r' B' _; rewrite Hsw; fold vy; cbn; lia|by rewrite Hsw].
    + split; [done|split; cbn; lia|done|lia|done|intros A' r' B' _; rewrite Hsw; fold vy; cbn; lia|by rewrite Hsw].
  - pose proof (scroll_to_ok (row_offset e) (cur_y e) (text_area_rows e) Hro ltac:(lia) Hta) as [S1 S2].
    pose proof (scroll_to_ok (col_offset e) (cur_x e) (max_w e) Hco ltac:(lia) Hw) as [S3 S4]. set (ro := scroll_to _ (cur_y e) _) in *. set (co := scroll_to _ (cur_x e) _) in *.
    eexists _, _, _. split; [done|]. destruct ((row_offset e =? ro) && (col_offset e =? co)) eqn:Eb.
    + apply andb_true_iff in Eb as [E1%Z.eqb_eq E2%Z.eqb_eq]. split; [done|split; cbn; lia|intros _; by apply editor_eta|lia|lia|intros A' r' B' _; rewrite Hsw; cbn; lia|rewrite Hsw; cbn; lia].
    + split; [done|split; cbn; lia|done|lia|lia|intros A' r' B' _; rewrite Hsw; cbn; lia|rewrite Hsw; cbn; lia].
Qed.

(** *** The text on the screen *)
(** Every cell of the text area shows its character. *)
Definition displays e (s : screen) : Prop := forall r c, 0 <= r < text_area_rows e -> 0 <= c < max_w e -> glyph (cell s r c) = shown e r c.

(** Only the row at the cursor may be out of date, or all is to be drawn. *)
Definition stale e (s : screen) : Prop := need_full_redraw e = true \/ forall A row B, focus e A row B ->
  forall r c, 0 <= r < text_area_rows e -> 0 <= c < max_w e -> at_row e A row (row_offset e + r) = false -> glyph (cell s r c) = shown e r c.

Lemma draw_text_ok e a : ed_ok e -> view_pos e -> rows_printable e -> ready a -> stale e (at_scr a) ->
  (need_full_redraw e = false -> soft_wrap e = false -> on_screen (row_offset e) (text_area_rows e) (cur_y e) = true) ->
  exists l, draw_text e = Some l /\ Z.of_nat (length l) <= text_area_rows e * (max_w e + 10) /\
    exists a', at_run (screen_rows e) (screen_cols e) a l = Some a' /\ ready a' /\ at_hidden a' = at_hidden a /\ at_dead a' = at_dead a /\ at_sent a' = at_sent a /\
      displays e (at_scr a').
Proof.
  intros I [Hro Hco] Hp Ha St Hv. assert (sizes_ok e) as Hs by apply I. destruct (text_area_ok e Hs) as [Eta Hst]. destruct Hs as [Hs1 Hs2].
  assert (0 < max_w e < screen_cols e) as Hw by (unfold max_w; lia). set (ta := text_area_rows e) in *.
  assert (Forall (line_ok (max_w e)) (vlines e (rows e))) as HV by (apply vlines_line_ok; [lia|done|exact Hp]). unfold draw_text. fold ta. destruct (need_full_redraw e) eqn:Hf.
  - eexists. split; [done|]. split.
    + destruct (soft_wrap e) eqn:Hsw.
      * rewrite wrap_full_paint by (done || lia). rewrite length_app, Nat2Z.inj_add.
        pose proof (paint_length (screen_rows e) (screen_cols e) (row_offset e) ta (max_w e) ltac:(lia) ltac:(lia) ltac:(lia) ltac:(lia) (vlines e (rows e)) 0 HV) as L1.
        pose proof (paint_length (screen_rows e) (screen_cols e) (row_offset e) ta (max_w e) ltac:(lia) ltac:(lia) ltac:(lia) ltac:(lia) (replicate (Z.to_nat (ta - drawn_lines e ta)) (spaces (max_w e)))
          (row_offset e + drawn_lines e ta) ltac:(apply Forall_replicate, spaces_line; lia)) as L2.
        rewrite length_replicate in L2. assert (0 <= drawn_lines e ta <= ta) by (unfold drawn_lines, above; lia).
        replace (above (row_offset e) ta (0 + Z.of_nat (length (vlines e (rows e)))) - above (row_offset e) ta 0) with (drawn_lines e ta) in L1 by (unfold drawn_lines, above; lia).
        match type of L2 with _ <= ?x * _ => replace x with (ta - drawn_lines e ta) in L2 by (unfold above; lia) end. lia.
      * rewrite cut_full_paint by (done || lia). eapply Z.le_trans; [apply (paint_length (screen_rows e) (screen_cols e) (row_offset e) ta (max_w e)); try lia|].
        { apply Forall_fmap, Forall_forall. intros i _. cbn. destruct (vlines e (rows e) !! _) as [l|] eqn:El; [|apply spaces_line; lia]. by apply (Forall_lookup_1 _ _ _ _ HV El). }
        apply Z.mul_le_mono_nonneg_r; [lia|]. unfold above. lia.
    + destruct (full_draws e ta ltac:(lia) ltac:(lia) Hro Hco (screen_rows e) (screen_cols e) ltac:(lia) ltac:(lia) ltac:(lia) ltac:(lia) Hp a Ha)
        as (a' & E & R1 & F1 & F2 & F3 & G). exists a'. split; [done|]. split; [done|]. split; [done|]. split; [done|]. split; [done|].
      intros r c Hr Hc. rewrite G. unfold area_ink. by rewrite decide_True.
  - destruct (ed_focus e I) as (A & row & B & F). pose proof F as [E Ey Hx]. assert (row_at e (cur_y e) = Some row) as -> by (rewrite Ey; by apply (row_at_focus e A row B)).
    cbn [mbind option_bind]. eexists. split; [done|]. split.
    + rewrite row_paint by auto with lia. eapply Z.le_trans; [apply (paint_length (screen_rows e) (screen_cols e) (row_offset e) ta (max_w e)); try lia|].
      { rewrite E in HV. unfold vlines in HV. rewrite bind_app in HV. cbn in HV. apply Forall_app in HV as [_ HV]. by apply Forall_app in HV as [? _]. }
      apply Z.mul_le_mono_nonneg_r; [lia|]. unfold above. lia.
    + destruct (row_draws e ta ltac:(lia) ltac:(lia) Hco (screen_rows e) (screen_cols e) ltac:(lia) ltac:(lia) ltac:(lia) ltac:(lia) A row B Hp F ltac:(auto) a Ha)
        as (a' & E' & R1 & F1 & F2 & F3 & G). exists a'. split; [done|]. split; [done|]. split; [done|]. split; [done|]. split; [done|].
      intros r c Hr Hc. rewrite G. unfold area_ink. destruct (at_row e A row (row_offset e + r)) eqn:Ea.
      * by rewrite decide_True.
      * rewrite decide_False by (intros (_ & _ & ?); done). cbn. destruct St as [St|St]; [congruence|]. by apply (St A row B).
Qed.

(** *** The cursor *)
Lemma row_text_length e (A : list ERow) : 0 < max_w e -> length (A ≫= row_text e) = length (vlines e A).
Proof.
  intros Hw. unfold vlines. induction A as [|r A IH]; [done|]. cbn. rewrite !length_app. f_equal; [|exact IH]. unfold row_text, vrow.
  destruct (soft_wrap e); [by rewrite !length_fmap|done].
Qed.

Lemma cursor_shown e e1 cy cx A r B : ed_ok e -> scrolled e e1 cy cx -> focus e A r B -> shown e1 cy cx = default 32 (chars r !! Z.to_nat (cur_x e)).
Proof.
  intros I [Es [V1 V2] _ Hcy Hcx Hl Hc] F. specialize (Hl A r B F). pose proof F as [E Ey Hx]. assert (sizes_ok e) as [Hs1 Hs2] by apply I.
  assert (max_w e1 = max_w e) as Ew by (rewrite Es; done). assert (rows e1 = rows e) as Er by (rewrite Es; done). assert (soft_wrap e1 = soft_wrap e) as Esw by (rewrite Es; done).
  assert (0 < max_w e) as Hw by (unfold max_w; lia). unfold shown, shown_text. f_equal. rewrite Er, E, bind_app, Hl.
  change ((r :: B) ≫= row_text e1) with (row_text e1 r ++ (B ≫= row_text e1)).
  assert (length (A ≫= row_text e1) = length (vlines e1 A)) as EA by (apply row_text_length; by rewrite Ew).
  destruct (soft_wrap e) eqn:Hsw.
  - rewrite (lines_above_spec e Hw A r B F Hsw).
    assert (length (vlines e1 A) = length (vlines e A)) as EV.
    { unfold vlines. clear - Ew Esw Hsw. induction A as [|a A IH]; [done|]. cbn. rewrite !length_app, IH. f_equal. unfold vrow, v_lines. rewrite Esw, Hsw, Ew. by rewrite !length_fmap. }
    assert (0 <= cur_x e / max_w e <= len r / max_w e) as Hd by (split; [apply Z.div_pos; lia|apply Z.div_le_mono; lia]).
    assert (v_lines e1 r = len r / max_w e + 1) as Evl by (unfold v_lines; by rewrite Ew).
    rewrite lookup_app_r by lia. replace (_ - _)%nat with (Z.to_nat (cur_x e / max_w e)) by lia.
    rewrite lookup_app_l by (unfold row_text; rewrite Esw, length_fmap, length_seqZ; lia). unfold row_text. rewrite Esw, list_lookup_fmap.
    replace (seqZ 0 (v_lines e1 r) !! Z.to_nat (cur_x e / max_w e)) with (Some (cur_x e / max_w e)) by (symmetry; apply lookup_seqZ; lia).
    cbn [fmap option_fmap option_map mbind option_bind]. rewrite Ew, lookup_take_lt, lookup_drop by lia. f_equal. rewrite Hc.
    pose proof (Z.div_mod (cur_x e) (max_w e) ltac:(lia)). pose proof (Z.mod_pos_bound (cur_x e) (max_w e) Hw). nia.
  - rewrite (cut_lines e1) in EA by done. rewrite lookup_app_r by lia. replace (_ - _)%nat with 0%nat by lia.
    unfold row_text. rewrite Esw. cbn [app lookup list_lookup mbind option_bind]. rewrite Ew, lookup_take_lt, lookup_drop by lia. f_equal. lia.
Qed.

(** *** A drawing *)
(** What a drawing leaves: the editor with new offsets and nothing to be drawn, and the screen. *)
Record drawn e (a : aterm) e' (a' : aterm) : Prop := {
  dr_same : e' = Editor (rows e) (rows_cap e) (cur_x e) (cur_y e) (row_offset e') (col_offset e') (screen_rows e) (screen_cols e) (mega_cap e') (soft_wrap e) false;
  dr_view : view_pos e';
  dr_ready : ready a';
  dr_rest : at_hidden a' = at_hidden a /\ at_dead a' = at_dead a /\ at_sent a' = at_sent a;
  dr_shown : displays e' (at_scr a');
  dr_vis : at_vis a' = true;
  dr_cursor : 0 <= s_row (at_scr a') < text_area_rows e /\ 0 <= s_col (at_scr a') < max_w e;
  dr_char A r B : focus e A r B -> glyph (cell (at_scr a') (s_row (at_scr a')) (s_col (at_scr a'))) = default 32 (chars r !! Z.to_nat (cur_x e)) }.

Lemma focus_fields e e1 A r B : focus e A r B -> rows e1 = rows e -> cur_x e1 = cur_x e -> cur_y e1 = cur_y e -> focus e1 A r B.
Proof. intros [E Ey Hx] E1 E2 E3. split; [congruence|congruence|by rewrite E2]. Qed.

Lemma ok_fields e e1 : ed_ok e -> rows e1 = rows e -> rows_cap e1 = rows_cap e -> cur_x e1 = cur_x e -> cur_y e1 = cur_y e ->
  screen_rows e1 = screen_rows e -> screen_cols e1 = screen_cols e -> ed_ok e1.
Proof.
  intros I E1 E2 E3 E4 E5 E6. destruct (same_becomes e e1 I E1 E2 E3 E4) as (e2 & E & I2 & _); [rewrite E5, E6; apply I|]. by injection E as ->.
Qed.

Lemma drw_ok e a : ed_ok e -> view_pos e -> rows_printable e -> ready a -> stale e (at_scr a) ->
  screen_rows e * (screen_cols e + ROW_OVERHEAD) + SAFETY_OVERHEAD <= mega_cap e ->
  exists e1 cy cx text a', scroll e = (e1, (cy, cx)) /\ draw_text e1 = Some text /\
    let out := (27 :: str "[?25l") ++ (27 :: str "[0m") ++ text ++ draw_bar e1 ++ (27 :: str "[0m") ++ append_move_cursor (cy + 1) (cx + 1) ++ (27 :: str "[?25h") in
    Z.of_nat (length out) < mega_cap e1 /\ at_run (screen_rows e) (screen_cols e) a out = Some a' /\ drawn e a (set_redraw e1 false) a'.
Proof.
  intros I V Hp Ha St Hm. destruct (scroll_ok e I V) as (e1 & cy & cx & Esc & S). pose proof S as [Es V1 Hk Hcy Hcx Hl Hc].
  assert (ed_ok e1) as I1 by (apply (ok_fields e); [done|rewrite Es; done..]). assert (sizes_ok e1) as Hs1 by apply I1. assert (rows_printable e1) as Hp1 by (unfold rows_printable in *; by rewrite Es).
  assert (text_area_rows e1 = text_area_rows e) as Eta by (rewrite Es; done). assert (max_w e1 = max_w e) as Ew by (rewrite Es; done).
  assert (screen_rows e1 = screen_rows e /\ screen_cols e1 = screen_cols e /\ mega_cap e1 = mega_cap e) as (ER & EC & EM) by (rewrite Es; done).
  destruct (visible_run (screen_rows e) (screen_cols e) a false Ha) as (ctx1 & E1 & Hctx1). set (a1 := AT _ _ _ _ ctx1 _ _) in E1.
  destruct (color_run (screen_rows e) (screen_cols e) a1 48 (conj eq_refl Hctx1) (or_introl eq_refl)) as (ctx2 & fg & E2 & Hctx2). set (a2 := at_with a1 _ ctx2) in E2.
  assert (ready a2) as R2 by by split.
  assert (stale e1 (at_scr a2)) as St1. { destruct (need_full_redraw e1) eqn:Ef; [by left|]. rewrite (Hk eq_refl) in *. exact St. }
  destruct (draw_text_ok e1 a2 I1 V1 Hp1 R2 St1) as (text & Et & Lt & a3 & E3 & R3 & F1 & F2 & F3 & D3).
  { intros Hf Hsw. unfold on_screen. rewrite (Hk Hf) in *. destruct (ed_focus e I) as (A & r & B & F). specialize (Hl A r B F). rewrite Hsw in Hl.
    rewrite (proj2 (Z.leb_le _ _)), (proj2 (Z.ltb_lt _ _)) by lia. done. }
  destruct (draw_bar_ok e1 Hs1) as [Lb Hb]. destruct (Hb a3 R3) as (a4 & E4 & R4 & B4).
  destruct (color_run (screen_rows e) (screen_cols e) a4 48 R4 (or_introl eq_refl)) as (ctx5 & fg5 & E5 & Hctx5). set (a5 := at_with a4 _ ctx5) in E5.
  destruct (text_area_ok e1 Hs1) as [Et1 Hst]. destruct Hs1 as [Hs1 Hs2]. assert (max_w e = screen_cols e - 1) as Ew0 by done. assert (ready a5) as R5 by (split; [apply R4|done]).
  destruct (move_run (screen_rows e) (screen_cols e) a5 (cy + 1) (cx + 1) R5) as (ctx6 & E6 & Hctx6); [lia..|]. set (a6 := at_with a5 _ ctx6) in E6.
  destruct (visible_run (screen_rows e) (screen_cols e) a6 true) as (ctx7 & E7 & Hctx7); [split; [apply R5|done]|]. set (a7 := AT _ _ _ _ ctx7 _ _) in E7.
  rewrite ER, EC in E3, E4. exists e1, cy, cx, text, a7. split; [done|]. split; [done|]. cbv zeta. split; [|split].
  - rewrite !length_app. pose proof (move_length (cy + 1) (cx + 1) ltac:(lia) ltac:(lia)). change (length (27 :: str "[?25l")) with 6%nat.
    change (length (27 :: str "[0m")) with 4%nat. change (length (27 :: str "[?25h")) with 6%nat. unfold ROW_OVERHEAD, SAFETY_OVERHEAD in Hm.
    rewrite Ew, Ew0, Eta in Lt. rewrite Ew, Ew0 in Lb. rewrite ER, Eta in *. rewrite EM. nia.
  - change (27 :: str "[?25l") with [27; 91; 63; 50; 53; 108]. change (27 :: str "[0m") with [27; 91; 48; 109]. change (27 :: str "[?25h") with [27; 91; 63; 50; 53; 104].
    rewrite at_run_app, E1. cbn [mbind option_bind]. rewrite at_run_app, E2. cbn [mbind option_bind]. rewrite at_run_app, E3. cbn [mbind option_bind].
    rewrite at_run_app, E4. cbn [mbind option_bind]. rewrite at_run_app, E5. cbn [mbind option_bind]. rewrite at_run_app. change (append_move_cursor (cy + 1) (cx + 1)) with (move_cursor (cy + 1) (cx + 1)).
    rewrite E6. cbn [mbind option_bind]. exact E7.
  - destruct B4 as (G1 & G2 & G3 & G4). rewrite Eta in G4. assert (displays e1 (at_scr a7)) as D7.
    { intros r c Hr Hcc. cbn [a7 a6 a5 at_with at_scr s_move cell]. rewrite G4 by lia. by apply D3. }
    assert (s_row (at_scr a7) = cy /\ s_col (at_scr a7) = cx) as [Erow Ecol] by (cbn; lia).
    split; [rewrite Es; done|exact V1|split; done|cbn; rewrite G1, F1, G2, F2, G3, F3; done|exact D7|done|by rewrite Erow, Ecol|].
    intros A r B F. rewrite Erow, Ecol. rewrite D7 by lia. by apply (cursor_shown e e1 cy cx A r B).
Qed.

Lemma edtr_drw_ok e a : ed_ok e -> view_pos e -> rows_printable e -> ready a -> stale e (at_scr a) ->
  exists e' out a', edtr_drw e = Some (e', out) /\ at_run (screen_rows e) (screen_cols e) a out = Some a' /\ drawn e a e' a'.
Proof.
  intros I V Hp Ha St. unfold edtr_drw. set (e0 := ensure_mega_buf e).
  assert (exists c, e0 = set_mega e c /\ screen_rows e * (screen_cols e + ROW_OVERHEAD) + SAFETY_OVERHEAD <= c) as (c & E0 & Hc).
  { unfold e0, ensure_mega_buf. destruct (Z.ltb_spec (mega_cap e) (screen_rows e * (screen_cols e + ROW_OVERHEAD) + SAFETY_OVERHEAD)); eexists; [by split|].
    split; [|exact H]. by destruct e. }
  clearbody e0. subst e0. assert (ed_ok (set_mega e c)) as I0 by by apply (ok_fields e).
  destruct (drw_ok (set_mega e c) a I0) as (e1 & cy & cx & text & a' & Esc & Et & Hlen & Hrun & D); [done|done|done| |done|].
  { destruct St as [St|St]; [by left|right]. intros A row B F. apply (St A row B). by apply (focus_fields (set_mega e c)). }
  rewrite (proj2 (Z.leb_gt _ _)) by apply I0. rewrite Esc, Et. cbn [mbind option_bind]. cbv zeta in Hlen. rewrite (proj2 (Z.leb_gt _ _)) by exact Hlen.
  eexists _, _, a'. split; [done|]. split; [exact Hrun|]. destruct D as [D1 D2 D3 D4 D5 D6 D7 D8].
  split; [exact D1|exact D2|exact D3|exact D4|exact D5|exact D6|exact D7|]. intros A r B F. apply (D8 A r B). by apply (focus_fields e).
Qed.
End Whole.
