(* ===== verification/NyamoRun.v ===== *)
(** Sessions of the editor in a terminal: [main] of [src/progs/nyamo.c] drawing on the
    text of [src/progs/terminal.c], key after key. *)
From S2P Require Import Prelude WinDraw Ansi Nyamo NyamoSpec NyamoDraw Terminal TerminalSpec TerminalRun TermFeed TerminalDraw NyamoTerm NyamoShow.

(** *** The two programs together *)
Definition draw_on (e : editor) (t : term) (d : display) : option (editor * term * display) :=
  '(e, out) ← edtr_drw e; '(t, d) ← term_bytes t d out; Some (e, t, d).

(** [editor_query_size]: the question is printed, and what the terminal sends back is read. *)
Definition ask (e : editor) (t : term) (d : display) : option (editor * term * display) :=
  '(t1, d) ← term_bytes t d [27; 91; 113];
  Some (editor_query_size e (drop (length (sent t)) (sent t1)), t1, d).

Definition press (e : editor) (t : term) (d : display) (k : key) : option (editor * term * display) :=
  match k with
  | Query _ => '(e, t, d) ← ask e t d; Some (set_redraw e true, t, d)
  | _ => e ← handle_key e k; Some (e, t, d)
  end.

(** The main loop, up to a drawing after the last key. *)
Fixpoint session (e : editor) (t : term) (d : display) (ks : list key) : option (editor * term * display) :=
  '(e, t, d) ← draw_on e t d;
  match ks with
  | [] => Some (e, t, d)
  | k :: ks => '(e, t, d) ← press e t d k; session e t d ks
  end.

Definition nyamo_main (t : term) (d : display) (file : option (list Z)) (ks : list key) : option (editor * term * display) :=
  '(t, d) ← term_bytes t d [27; 91; 63; 52; 55; 104];
  '(e, t, d) ← ask start t d;
  e ← edtr_ld e file;
  session (if num_lines e =? 0 then with_rows e [MkRow [] 1] (rows_cap e) else e) t d ks.

(** *** What a key changes *)
Section Keys.
Implicit Types (e : editor) (A B : list ERow) (r : ERow).

(** Only the cursor moved. *)
Definition moved e e' : Prop := rows e' = rows e /\ row_offset e' = row_offset e /\ col_offset e' = col_offset e /\
  screen_rows e' = screen_rows e /\ screen_cols e' = screen_cols e /\ soft_wrap e' = soft_wrap e.

Lemma moved_refl e : moved e e.
Proof. done. Qed.
Lemma moved_trans e1 e2 e3 : moved e1 e2 -> moved e2 e3 -> moved e1 e3.
Proof. unfold moved. intuition congruence. Qed.
Lemma moved_cur e x y : moved e (Nyamo.set_cur e x y).
Proof. done. Qed.
Lemma cut_moved e x y e' : cut e x y = Some e' -> moved e e'.
Proof. unfold cut. destruct (row_at e y); [|done]. by intros [= <-]. Qed.

Lemma arrow_moved e (b : Z) e' :
  (if b =? 65 then key_up e else if b =? 66 then key_down e else if b =? 67 then key_right e else if b =? 68 then key_left e else Some e) = Some e' -> moved e e'.
Proof.
  unfold key_up, key_down, key_right, key_left.
  repeat match goal with
  | |- (if ?c then _ else _) = _ -> _ => destruct c
  | |- (_ ← row_at ?e ?y; _) = _ -> _ => destruct (row_at e y); cbn [mbind option_bind]; [|done]
  end; try apply cut_moved; intros [= <-]; repeat case_match; done.
Qed.

Lemma escape_moved e a b e' : escape e a b = Some e' -> moved e e'.
Proof.
  unfold escape. destruct (negb _); [by intros [= <-]|]. intros H. match type of H with (?o ≫= _) = _ => destruct o as [e1|] eqn:E1; [|done] end.
  eapply moved_trans; [by eapply arrow_moved|]. by eapply cut_moved.
Qed.

(** What a key does to what is shown: it moves the cursor, it changes the row at the
    cursor, or everything is to be drawn. *)
Definition key_effect e e' : Prop := moved e e' \/ need_full_redraw e' = true \/
  exists A r B r' x, focus e A r B /\ e' = after_edit e r r' x /\ (soft_wrap e = true -> v_lines e r = v_lines e r').

Lemma edit_effect e A r B r' x : focus e A r B -> key_effect e (after_edit e r r' x).
Proof.
  intros F. right. destruct (soft_wrap e && negb (v_lines e r =? v_lines e r')) eqn:Eb.
  - left. unfold after_edit. by rewrite Eb.
  - right. exists A, r, B, r', x. split; [done|]. split; [done|]. intros Hs. rewrite Hs in Eb. cbn in Eb. apply negb_false_iff, Z.eqb_eq in Eb. done.
Qed.

Lemma handle_key_effect e k e' : ed_ok e -> handle_key e k = Some e' -> key_effect e e'.
Proof.
  intros I. destruct (ed_focus e I) as (A & r & B & F). assert (row_at e (cur_y e) = Some r) as Hat by (rewrite (fo_y _ _ _ _ F); by apply (row_at_focus e A r B), F).
  destruct k as [c|a b|reply]; cbn [handle_key]; [| |intros [= <-]; by right; left].
  - destruct (_ || _); [intros [= <-]; by left|]. destruct (c =? 26); [intros [= <-]; by right; left|]. destruct (_ || _).
    + unfold backspace. destruct (0 <? cur_x e); [rewrite Hat; cbn [mbind option_bind]; intros [= <-]; by apply (edit_effect e A r B)|].
      destruct (0 <? cur_y e); [|intros [= <-]; by left]. destruct (row_at e (cur_y e - 1)); [|done]. rewrite Hat. cbn [mbind option_bind].
      destruct (row_append_str _ _); [|done]. intros [= <-]. by right; left.
    + destruct (_ || _); [unfold enter; rewrite Hat; cbn [mbind option_bind]; destruct (_ <? _); [done|]; destruct (row_insert _ _ _) as [e1|]; [|done]; cbn [mbind option_bind];
        destruct (row_at e1 _); [|done]; intros [= <-]; by right; left|].
      destruct (_ && _); [|intros [= <-]; by left]. unfold type_char. rewrite Hat. cbn [mbind option_bind]. destruct (row_insert_char _ _ _) as [r'|]; [|done].
      intros [= <-]. by apply (edit_effect e A r B).
  - intros H. left. by eapply escape_moved.
Qed.

(** *** What stays on the screen *)
Lemma moved_shown e e' (r c : Z) : moved e e' -> shown e' r c = shown e r c /\ text_area_rows e' = text_area_rows e /\ max_w e' = max_w e.
Proof.
  destruct e as [rs cp cx cy ro co sr sc mc sw nf], e' as [rs' cp' cx' cy' ro' co' sr' sc' mc' sw' nf'].
  unfold moved. cbn. intros (-> & -> & -> & -> & -> & ->). done.
Qed.

Lemma focus_unique e A r B A' r' B' : focus e A r B -> focus e A' r' B' -> A = A' /\ r = r' /\ B = B'.
Proof.
  intros [E1 Y1 _] [E2 Y2 _]. rewrite E1 in E2. apply app_inj_1 in E2 as [-> E2]; [|lia]. by injection E2 as -> ->.
Qed.

Lemma middle_lookup {X} (a b b' c : list X) i : length b = length b' -> (length a <=? i)%nat && (i <? length a + length b')%nat = false ->
  (a ++ b' ++ c) !! i = (a ++ b ++ c) !! i.
Proof.
  intros Hl Hi. destruct (Nat.leb_spec (length a) i).
  - rewrite !(lookup_app_r a) by lia. destruct (Nat.ltb_spec i (length a + length b')); [done|]. rewrite !lookup_app_r by lia. f_equal. lia.
  - by rewrite !lookup_app_l by lia.
Qed.

Lemma edit_stale e A r B r' x (s : screen) : ed_ok e -> 0 <= row_offset e -> focus e A r B -> (soft_wrap e = true -> v_lines e r = v_lines e r') -> displays e s ->
  stale (after_edit e r r' x) s.
Proof.
  intros I Hro F Hv D. pose proof F as [E Ey Hx]. assert (0 < max_w e) as Hw by (destruct (eo_size _ I) as [_ ?]; unfold max_w; lia).
  set (e' := after_edit e r r' x). destruct (after_edit_fields e r r' x) as (Er & _ & Ey' & _ & Es1 & Es2). fold e' in Er, Ey', Es1, Es2.
  assert (row_offset e' = row_offset e /\ col_offset e' = col_offset e /\ soft_wrap e' = soft_wrap e) as (E1 & E2 & E3) by (unfold e', after_edit; by destruct (_ && _)).
  assert (rows e' = A ++ r' :: B) as Er' by (rewrite Er, Ey, Nat2Z.id, E; apply put_focus).
  assert (max_w e' = max_w e) as Ew by (unfold max_w; congruence).
  assert (text_area_rows e' = text_area_rows e) as Eta by (unfold text_area_rows, stat_bar_rows; by rewrite Es1, Ew, E3).
  assert (forall q, row_text e' q = row_text e q /\ length (vrow e' q) = length (row_text e q)) as Hrt.
  { intros q. unfold row_text, vrow, v_lines. rewrite Ew, E2, E3. split; [done|]. destruct (soft_wrap e); [by rewrite !length_fmap|done]. }
  assert (length (row_text e r) = length (row_text e r')) as Hlen.
  { unfold row_text. destruct (soft_wrap e); [|done]. by rewrite !length_fmap, Hv. }
  right. intros A' row B' F' i c Hi Hc Hat. assert (A' = A /\ row = r' /\ B' = B) as (-> & -> & ->).
  { destruct F' as [G1 G2 _]. rewrite Er' in G1. apply app_inj_1 in G1 as [-> G1]; [|lia]. by injection G1 as -> ->. }
  rewrite Eta in Hi. rewrite Ew in Hc. rewrite (D i c Hi Hc). unfold shown, shown_text. rewrite E1, Er', E. do 2 f_equal.
  rewrite !bind_app. change ((r :: B) ≫= row_text e) with (row_text e r ++ (B ≫= row_text e)). change ((r' :: B) ≫= row_text e') with (row_text e' r' ++ (B ≫= row_text e')).
  assert (forall L : list ERow, (L ≫= row_text e') = (L ≫= row_text e)) as HL.
  { induction L as [|q L IH]; [done|]. cbn. rewrite (proj1 (Hrt q)). f_equal. exact IH. }
  rewrite !HL, (proj1 (Hrt r')). symmetry. apply middle_lookup; [done|]. unfold at_row in Hat. rewrite <- (row_text_length e' A) in Hat by (by rewrite Ew).
  rewrite HL, (proj2 (Hrt r')), E1 in Hat. apply andb_false_iff. apply andb_false_iff in Hat as [Hat|Hat]; [left; apply Nat.leb_gt; apply Z.leb_gt in Hat; lia|right; apply Nat.ltb_ge; apply Z.ltb_ge in Hat; lia].
Qed.

Lemma key_stale e e' s : ed_ok e -> 0 <= row_offset e -> key_effect e e' -> displays e s -> stale e' s.
Proof.
  intros I Hro [M|[Hf|(A & r & B & r' & x & F & -> & Hv)]] D; [|by left|by apply (edit_stale e A r B)].
  right. intros A row B _ r c Hr Hc _. destruct (moved_shown e e' r c M) as (-> & E1 & E2). apply D; congruence.
Qed.

(** *** Characters *)
Definition text_char (c : Z) : Prop := c = NEWLINE \/ printable c.

Lemma text_printable l : Forall row_ok l -> Forall text_char (edtr_sv l) <-> Forall (fun r => Forall printable (chars r)) l.
Proof.
  induction l as [|r l IH]; intros Hl; [done|]. apply Forall_cons in Hl as [[_ Hn] Hl]. specialize (IH Hl).
  assert (Forall text_char (chars r) <-> Forall printable (chars r)) as Hr.
  { rewrite !Forall_forall. split; intros H c Hc; [|right; by apply H]. destruct (H c Hc) as [->|]; [|done]. by exfalso. }
  rewrite Forall_cons, <- Hr, <- IH. destruct l as [|r2 l]; [cbn; rewrite Forall_nil; tauto|].
  change (edtr_sv (r :: r2 :: l)) with (chars r ++ NEWLINE :: edtr_sv (r2 :: l)). rewrite Forall_app, Forall_cons. unfold text_char at 2. tauto.
Qed.

Lemma key_chars k t p t' p' : key_spec k t p t' p' -> Forall text_char t -> Forall text_char t'.
Proof.
  intros H Ht. assert (forall c, text_char c -> Forall text_char (take p t ++ c :: drop p t)) as Hins
    by (intros c Hc; apply Forall_app; split; [by apply Forall_take|]; apply Forall_cons; split; [done|by apply Forall_drop]).
  destruct k as [c|a b|reply]; cbv beta iota zeta delta [key_spec] in H.
  - destruct ((c =? 8) || (c =? 127)).
    { destruct (0 <? p)%nat; destruct H as [-> _]; [|done]. apply Forall_app. split; [by apply Forall_take|by apply Forall_drop]. }
    destruct ((c =? 13) || (c =? 10)); [destruct H as [-> _]; apply Hins; by left|].
    destruct ((32 <=? c) && (c <=? 126)) eqn:Ec; [|by destruct H as [-> _]].
    destruct H as [-> _]. apply Hins. right. apply andb_true_iff in Ec as [H1%Z.leb_le H2%Z.leb_le]. unfold printable. lia.
  - destruct ((a =? 91) && (b =? 67)); [by destruct H as [-> _]|]. destruct ((a =? 91) && (b =? 68)); [by destruct H as [-> _]|].
    destruct ((a =? 91) && ((b =? 65) || (b =? 66))); by destruct H as [-> _].
  - by destruct H as [-> _].
Qed.

(** The view and the size of the screen *)
Definition frame e e' : Prop := row_offset e' = row_offset e /\ col_offset e' = col_offset e /\ screen_rows e' = screen_rows e /\ screen_cols e' = screen_cols e.

Lemma frame_edit e r r' x : frame e (after_edit e r r' x).
Proof. unfold after_edit. by destruct (_ && _). Qed.
Lemma frame_insert e y l e' : row_insert e y l = Some e' -> frame e e'.
Proof. unfold row_insert. destruct (_ || _); [by intros [= <-]|]. cbv zeta. destruct (_ <=? num_lines e) in |- *; cbv beta iota; [done|]. by intros [= <-]. Qed.

Lemma edit_frame e c e' : backspace e = Some e' \/ enter e = Some e' \/ type_char e c = Some e' -> frame e e'.
Proof.
  intros [H|[H|H]]; revert H.
  - unfold backspace. destruct (0 <? cur_x e).
    { destruct (row_at e (cur_y e)); [|done]. intros [= <-]. apply frame_edit. }
    destruct (0 <? cur_y e); [|by intros [= <-]]. destruct (row_at e (cur_y e - 1)); [|done]. destruct (row_at e (cur_y e)); [|done]. cbn [mbind option_bind].
    destruct (row_append_str _ _); [|done]. intros [= <-]. unfold row_delete. by destruct (_ || _).
  - unfold enter. destruct (row_at e (cur_y e)); [|done]. cbn [mbind option_bind]. destruct (_ <? _); [done|].
    destruct (row_insert _ _ _) as [e1|] eqn:E; [|done]. cbn [mbind option_bind]. destruct (row_at e1 _); [|done]. intros [= <-]. by apply frame_insert in E.
  - unfold type_char. destruct (row_at e (cur_y e)); [|done]. cbn [mbind option_bind]. destruct (row_insert_char _ _ _); [|done]. intros [= <-]. apply frame_edit.
Qed.

Lemma handle_key_frame e k e' : (forall reply, k <> Query reply) -> k <> Byte 26 -> handle_key e k = Some e' -> frame e e'.
Proof.
  intros Hk H26 H. destruct k as [c|a b|reply]; cbn [handle_key] in H; [| |by destruct (Hk reply)].
  - destruct ((c =? 17) || (c =? 19)); [by simplify_eq|]. destruct (Z.eqb_spec c 26) as [->|]; [done|].
    destruct ((c =? 8) || (c =? 127)); [apply (edit_frame e c); auto|]. destruct ((c =? 13) || (c =? 10)); [apply (edit_frame e c); auto|].
    destruct ((32 <=? c) && (c <=? 126)); [apply (edit_frame e c); auto|by simplify_eq].
  - apply escape_moved in H as (_ & ? & ? & ? & ? & _). done.
Qed.

Lemma handle_key_view e k e' : ed_ok e -> view_pos e -> (forall reply, k <> Query reply) -> handle_key e k = Some e' ->
  view_pos e' /\ screen_rows e' = screen_rows e /\ screen_cols e' = screen_cols e.
Proof.
  intros I [V1 V2] Hk H. pose proof (eo_y _ I) as Hy. assert (k = Byte 26 \/ k <> Byte 26) as [->|H26].
  { destruct k as [c| |]; [|by right..]. destruct (decide (c = 26)) as [->|]; [by left|right; congruence]. }
  - cbn in H. simplify_eq. split; [|done]. unfold view_pos. cbn. destruct (negb (soft_wrap e)); lia.
  - destruct (handle_key_frame e k e' Hk H26 H) as (E1 & E2 & E3 & E4). split; [split; congruence|done].
Qed.
End Keys.

Lemma load_loop_frame bytes : forall e lb e' lb', load_loop e bytes lb = Some (e', lb') -> frame e e'.
Proof.
  induction bytes as [|b bytes IH]; intros e lb e' lb' H; cbn [load_loop] in H; [by simplify_eq|]. destruct (b =? NEWLINE); [|by eapply IH].
  destruct (row_insert e _ lb) as [e1|] eqn:E; [|done]. cbn [mbind option_bind] in H. apply frame_insert in E. apply IH in H. unfold frame in *. intuition congruence.
Qed.

Lemma row_insert_last e l e' : row_insert e (num_lines e) l = Some e' -> need_full_redraw e' = need_full_redraw e /\ num_lines e' = num_lines e + 1.
Proof.
  unfold row_insert. rewrite Z.ltb_irrefl, orb_false_r. assert (0 <= num_lines e) by (unfold num_lines; lia). rewrite (proj2 (Z.ltb_ge _ _)) by lia. cbv zeta.
  destruct (_ <=? num_lines e) in |- *; cbv beta iota; [done|]. intros [= <-]. split; [done|]. unfold num_lines. cbn [rows with_rows]. rewrite length_app. cbn [length].
  rewrite length_take, length_drop. unfold num_lines. lia.
Qed.

Lemma edtr_ld_frame file e e' : rows e = [] -> need_full_redraw e = true -> edtr_ld e file = Some e' -> frame e e' /\ need_full_redraw e' = true /\ num_lines e' <> 0.
Proof.
  intros Er Hn H. destruct file as [bytes|]; cbn [edtr_ld] in H.
  - destruct (load_loop e bytes []) as [[e1 lb]|] eqn:E1; [|done]. cbn [mbind option_bind] in H. apply load_loop_frame in E1.
    destruct (row_insert e1 _ lb) as [e2|] eqn:E2; [|done]. cbn [mbind option_bind] in H. pose proof (frame_insert _ _ _ _ E2) as F2. apply row_insert_last in E2 as [_ En].
    assert (0 <= num_lines e1) by (unfold num_lines; lia). rewrite (proj2 (Z.ltb_lt _ _)) in H by lia. destruct (row_at e2 _); [|done]. cbn [mbind option_bind] in H. injection H as <-.
    split; [|split; [done|unfold num_lines in *; cbn; lia]]. unfold frame in *. cbn. intuition congruence.
  - assert (num_lines e = 0) as E0 by (unfold num_lines; by rewrite Er). rewrite <- E0 in H. pose proof (frame_insert _ _ _ _ H). apply row_insert_last in H as [-> ?]. split; [done|]. split; [done|lia].
Qed.

(** *** Sessions *)
Section Sessions.
Context (R C : Z) (HR : 10 <= R <= 255) (HC : 10 <= C <= 255).
Implicit Types (e : editor) (t : term) (a : aterm) (d : display).

(** The terminal is between two escape sequences, in the other buffer, over the screen [h]. *)
Record on_alt t a (h : screen) : Prop := {
  oa_refines : refines t a; oa_ready : ready a; oa_hidden : at_hidden a = Some h; oa_size : n_rows t = R /\ n_cols t = C }.

Lemma feed t a h l a' d : on_alt t a h -> at_run R C a l = Some a' -> ready a' -> at_hidden a' = at_hidden a ->
  exists t' d', term_bytes t d l = Some (t', d') /\ on_alt t' a' h.
Proof.
  intros [Rf Rd Hh [E1 E2]] Hrun Rd' Eh. apply at_run_bytes in Hrun as [Hb Ha]. rewrite <- E1, <- E2 in Hb.
  destruct (bytes_refines l t a d a' Rf Ha Hb) as (t' & d' & E & Rf' & E3 & E4). exists t', d'. split; [done|]. split; [done|done|congruence|]. split; congruence.
Qed.

(** The editor before a drawing, and after it. *)
Record before e a : Prop := {
  be_ok : ed_ok e; be_view : view_pos e; be_print : rows_printable e; be_size : screen_rows e = R /\ screen_cols e = C; be_stale : stale e (at_scr a) }.
Record after e a : Prop := {
  af_ok : ed_ok e; af_view : view_pos e; af_print : rows_printable e; af_size : screen_rows e = R /\ screen_cols e = C;
  af_shown : displays e (at_scr a); af_vis : at_vis a = true;
  af_cursor : 0 <= s_row (at_scr a) < text_area_rows e /\ 0 <= s_col (at_scr a) < max_w e;
  af_char A r B : focus e A r B -> glyph (cell (at_scr a) (s_row (at_scr a)) (s_col (at_scr a))) = default 32 (chars r !! Z.to_nat (cur_x e)) }.

Lemma draw_on_ok e t a h d : on_alt t a h -> before e a ->
  exists e' t' d' a', draw_on e t d = Some (e', t', d') /\ on_alt t' a' h /\ after e' a' /\ text e' = text e /\ position e' = position e.
Proof.
  intros Oa [I V Hp [E1 E2] St]. destruct (edtr_drw_ok e a I V Hp (oa_ready _ _ _ Oa) St) as (e' & out & a' & Ed & Hrun & D). rewrite E1, E2 in Hrun.
  destruct D as [Es V' Rd (Eh & _) Sh Vis Cur Ch]. destruct (feed t a h out a' d Oa Hrun Rd Eh) as (t' & d' & Et & Oa'). exists e', t', d', a'.
  unfold draw_on. rewrite Ed. cbn [mbind option_bind]. rewrite Et. split; [done|]. split; [done|].
  assert (rows e' = rows e /\ rows_cap e' = rows_cap e /\ cur_x e' = cur_x e /\ cur_y e' = cur_y e /\ screen_rows e' = screen_rows e /\ screen_cols e' = screen_cols e /\
    text_area_rows e' = text_area_rows e /\ max_w e' = max_w e) as (F1 & F2 & F3 & F4 & F5 & F6 & F7 & F8) by (rewrite Es; done).
  split; [|unfold text, position; by rewrite F1, F3, F4]. split; try done.
  - by apply (ok_fields e).
  - unfold rows_printable. by rewrite F1.
  - split; congruence.
  - by rewrite F7, F8.
  - intros A r B F. rewrite F3. apply (Ch A r B). by apply (focus_fields e').
Qed.

Lemma query_run a : ready a ->
  exists ctx, at_run R C a [27; 91; 113] = Some (AT (at_scr a) (at_hidden a) (at_vis a) 0 ctx (at_dead a) (at_sent a ++ [27; C; R; 81])) /\ a_state ctx = ANSI_NORMAL.
Proof.
  intros [He Hs]. destruct a as [scr h v es [col st buf idx] dead sn]. cbn in He, Hs. subst es st. eexists.
  split; [cbn; rewrite !u8_small by lia; reflexivity|done].
Qed.

Lemma ask_ok e t a h d : on_alt t a h -> exists t' d' a', ask e t d = Some (set_size e R C, t', d') /\ on_alt t' a' h /\ at_scr a' = at_scr a.
Proof.
  intros Oa. destruct (query_run a (oa_ready _ _ _ Oa)) as (ctx & Hrun & Hctx). destruct (feed t a h _ _ d Oa Hrun) as (t' & d' & E & Oa'); [done|done|].
  eexists t', d', _. split; [|done]. unfold ask. rewrite E. cbn [mbind option_bind]. do 3 f_equal.
  rewrite (rf_sent _ _ (oa_refines _ _ _ Oa)), (rf_sent _ _ (oa_refines _ _ _ Oa')). cbn [at_sent]. rewrite drop_app_length.
  unfold editor_query_size. rewrite !u8_small by lia. cbn. rewrite (proj2 (Z.ltb_ge C 10)) by lia. cbn. by rewrite (proj2 (Z.ltb_ge R 10)) by lia.
Qed.

Lemma key_press_ok e t a h d k : on_alt t a h -> after e a ->
  exists e' t' d' a', press e t d k = Some (e', t', d') /\ on_alt t' a' h /\ before e' a' /\ key_spec k (text e) (position e) (text e') (position e').
Proof.
  intros Oa [I V Hp [E1 E2] Sh _ _ _]. assert ((exists reply, k = Query reply) \/ forall reply, k <> Query reply) as [[reply ->]|Hk].
  { destruct k; [by right..|left; eauto]. }
  - cbn [press]. destruct (ask_ok e t a h d Oa) as (t' & d' & a' & E & Oa' & Es). rewrite E. cbn [mbind option_bind].
    eexists _, t', d', a'. split; [done|]. split; [done|]. split; [|done]. split; try done; [by apply (ok_fields e)|by left].
  - destruct (handle_key_ok e k I) as (e' & E & I' & Hs). exists e', t, d, a. split; [|split; [done|split; [|done]]].
    { destruct k; [by cbn [press]; rewrite E..|by destruct (Hk reply)]. }
    destruct (handle_key_view e k e' I V Hk E) as (V' & F1 & F2). split; [done|done| |split; congruence|].
    + apply text_printable; [apply I'|]. apply (key_chars _ _ _ _ _ Hs). apply text_printable; [apply I|exact Hp].
    + apply (key_stale e); [done|apply V|by apply (handle_key_effect e k)|done].
Qed.

Lemma session_ok ks : forall e t a h d, on_alt t a h -> before e a ->
  exists e' t' d' a', session e t d ks = Some (e', t', d') /\ on_alt t' a' h /\ after e' a' /\ keys_spec ks (text e) (position e) (text e') (position e').
Proof.
  induction ks as [|k ks IH]; intros e t a h d Oa Be; cbn [session];
    destruct (draw_on_ok e t a h d Oa Be) as (e1 & t1 & d1 & a1 & E1 & Oa1 & Af1 & Et & Ep); rewrite E1; cbn [mbind option_bind].
  - exists e1, t1, d1, a1. rewrite Et, Ep. split; [done|]. split; [done|]. split; [done|constructor].
  - destruct (key_press_ok e1 t1 a1 h d1 k Oa1 Af1) as (e2 & t2 & d2 & a2 & E2 & Oa2 & Be2 & Hk). rewrite E2. cbn [mbind option_bind].
    destruct (IH e2 t2 a2 h d2 Oa2 Be2) as (e3 & t3 & d3 & a3 & E3 & Oa3 & Af3 & Hks). exists e3, t3, d3, a3. rewrite Et, Ep in Hk.
    split; [done|]. split; [done|]. split; [done|]. by eapply keys_next.
Qed.

Lemma alt_on_run a : ready a -> at_hidden a = None ->
  exists ctx scr, at_run R C a [27; 91; 63; 52; 55; 104] = Some (AT scr (Some (at_scr a)) (at_vis a) 0 ctx (at_dead a) (at_sent a)) /\ a_state ctx = ANSI_NORMAL.
Proof.
  intros [He Hs] Hh. destruct a as [scr h v es [col st buf idx] dead sn]. cbn in He, Hs, Hh. subst es st h. eexists _, _. split; [reflexivity|done].
Qed.
Lemma alt_off_run a h : ready a -> at_hidden a = Some h ->
  exists ctx, at_run R C a [27; 91; 63; 52; 55; 108] = Some (AT h None (at_vis a) 0 ctx (at_dead a) (at_sent a)) /\ a_state ctx = ANSI_NORMAL.
Proof.
  intros [He Hs] Hh. destruct a as [scr h' v es [col st buf idx] dead sn]. cbn in He, Hs, Hh. subst es st h'. eexists _. split; [reflexivity|done].
Qed.

Lemma load_ok file : Forall text_char (default [] file) ->
  exists e, edtr_ld (set_size start R C) file = Some e /\ num_lines e <> 0 /\ (chars <$> rows e) = (take 1023 <$> lines (default [] file)) /\
    position e = length (text e) /\ forall a, before e a.
Proof.
  intros Hf. destruct (nyamo_open_ok [27; C; R; 81] file) as (e & E & I & Er & Ep). unfold nyamo_open in E.
  assert (editor_query_size start [27; C; R; 81] = set_size start R C) as Eq.
  { unfold editor_query_size. rewrite !u8_small by lia. cbn. rewrite (proj2 (Z.ltb_ge C 10)) by lia. cbn. by rewrite (proj2 (Z.ltb_ge R 10)) by lia. }
  rewrite Eq in E. destruct (edtr_ld (set_size start R C) file) as [e0|] eqn:El; [|done]. cbn [mbind option_bind] in E.
  assert (frame (set_size start R C) e0 /\ need_full_redraw e0 = true /\ num_lines e0 <> 0) as (Hfr & Hnf & Hnl) by by apply (edtr_ld_frame file).
  rewrite (proj2 (Z.eqb_neq _ _)) in E by done. injection E as ->. exists e. split; [done|]. split; [done|]. split; [done|]. split; [done|]. intros a.
  destruct Hfr as (F1 & F2 & F3 & F4). split; [done|unfold view_pos; rewrite F1, F2; cbn; lia| |done|by left].
  assert (Forall (Forall printable) (chars <$> rows e)) as Hpr; [|by rewrite Forall_fmap in Hpr].
  rewrite Er. apply Forall_fmap. assert (Forall (Forall printable) (lines (default [] file))) as Hl; [|eapply Forall_impl; [exact Hl|]; intros l Hl'; by apply Forall_take].
  revert Hf. generalize (default [] file). clear. induction l as [|b l IH]; intros Hf; cbn; [by repeat constructor|]. apply Forall_cons in Hf as [Hb Hf]. specialize (IH Hf).
  destruct (Z.eqb_spec b NEWLINE); [by constructor|]. destruct Hb as [?|Hb]; [done|]. destruct (lines l) as [|l1 ls]; [constructor; [by constructor|constructor]|].
  apply Forall_cons in IH as [H1 H2]. constructor; [by constructor|done].
Qed.
End Sessions.

(** What the terminal shows while the editor runs: the lines of the text in the text
    area, and the cursor, visible, on the character it stands for. *)
Definition editor_shown (e : editor) (t : term) : Prop :=
  (forall r c, 0 <= r < text_area_rows e -> 0 <= c < max_w e -> exists x, cell_at t r c = Some x /\ glyph x = shown e r c) /\
  cur_vis t = true /\ 0 <= cur_row (cur t) < text_area_rows e /\ 0 <= cur_col (cur t) < max_w e /\
  exists row x, row_at e (cur_y e) = Some row /\ cell_at t (cur_row (cur t)) (cur_col (cur t)) = Some x /\
    glyph x = default 32 (chars row !! Z.to_nat (cur_x e)).

Lemma after_shown R C e t a h : 10 <= R <= 255 -> 10 <= C <= 255 -> on_alt R C t a h -> after R C e a -> editor_shown e t.
Proof.
  intros HR HC [Rf _ _ [ER EC]] [I V Hp [E1 E2] Sh Vis [Cr Cc] Ch]. pose proof (rf_scr _ _ Rf) as S. destruct (text_area_ok e (eo_size _ I)) as [Eta Hst].
  assert (max_w e = C - 1) as Ew by (unfold max_w; lia). split; [|split; [|rewrite (sh_row _ _ S), (sh_col _ _ S); split; [done|]; split; [done|]]].
  - intros r c Hr Hc. exists (cell (at_scr a) r c). split; [apply S; lia|by apply Sh].
  - by rewrite (rf_vis _ _ Rf).
  - destruct (ed_focus e I) as (A & row & B & F). exists row, (cell (at_scr a) (s_row (at_scr a)) (s_col (at_scr a))).
    split; [rewrite (fo_y _ _ _ _ F); by apply (row_at_focus e A row B), F|]. split; [apply S; lia|]. by apply (Ch A row B).
Qed.

(** C29: The editor in its terminal.  On a terminal of 10 to 255 rows and columns that shows
    its own buffer, for a file of printable characters and newlines and every sequence
    of keys, the editor runs: it learns the size of the terminal from its answer, no
    drawing leaves [mega_buf], no byte of it is stored outside the text of the
    terminal, and the text is edited as [keys_spec] says.  After every drawing the
    terminal shows the lines of the text from the offsets on, wrapped or cut, also
    where only the row at the cursor was drawn, with the cursor on its character.
    When the editor leaves, the terminal shows the screen from before. *)
Theorem nyamo_on_terminal t d a file ks :
  refines t a -> ready a -> at_hidden a = None -> 10 <= n_rows t <= 255 -> 10 <= n_cols t <= 255 -> Forall text_char (default [] file) ->
  exists e0 e t' d', nyamo_main t d file ks = Some (e, t', d') /\
    (chars <$> rows e0) = (take 1023 <$> lines (default [] file)) /\ keys_spec ks (text e0) (length (text e0)) (text e) (position e) /\
    screen_rows e = n_rows t /\ screen_cols e = n_cols t /\ editor_shown e t' /\
    exists t2 d2, term_bytes t' d' [27; 91; 63; 52; 55; 108] = Some (t2, d2) /\ term_ok t2 /\ shows t2 (at_scr a).
Proof.
  intros Rf Rd Hh HR HC Hf. set (R := n_rows t) in *. set (C := n_cols t) in *. unfold nyamo_main.
  destruct (alt_on_run R C a Rd Hh) as (ctx & scr & Hrun & Hctx). set (a1 := AT scr _ _ _ ctx _ _) in Hrun. apply at_run_bytes in Hrun as [Hb Ha].
  destruct (bytes_refines _ t a d a1 Rf Ha Hb) as (t1 & d1 & -> & Rf1 & E1 & E2). cbn [mbind option_bind].
  assert (on_alt R C t1 a1 (at_scr a)) as Oa1 by (split; [done|by split|done|done]).
  destruct (ask_ok R C HR HC start t1 a1 (at_scr a) d1 Oa1) as (t2 & d2 & a2 & -> & Oa2 & _). cbn [mbind option_bind].
  destruct (load_ok R C HR HC file Hf) as (e0 & -> & Hnl & Er & Ep & Be). cbn [mbind option_bind]. rewrite (proj2 (Z.eqb_neq _ _)) by done.
  destruct (session_ok R C HR HC ks e0 t2 a2 (at_scr a) d2 Oa2 (Be a2)) as (e & t3 & d3 & a3 & -> & Oa3 & Af & Hk).
  exists e0, e, t3, d3. split; [done|]. split; [done|]. split; [by rewrite <- Ep|]. destruct (af_size _ _ _ _ Af) as [F1 F2]. split; [done|]. split; [done|].
  split; [by apply (after_shown R C e t3 a3 (at_scr a))|].
  destruct (alt_off_run R C a3 (at_scr a) (oa_ready _ _ _ _ _ Oa3) (oa_hidden _ _ _ _ _ Oa3)) as (ctx4 & Hrun4 & _). apply at_run_bytes in Hrun4 as [Hb4 Ha4].
  destruct (oa_size _ _ _ _ _ Oa3) as [G1 G2]. rewrite <- G1, <- G2 in Hb4. destruct (bytes_refines _ t3 a3 d3 _ (oa_refines _ _ _ _ _ Oa3) Ha4 Hb4) as (t4 & d4 & E4 & Rf4 & _).
  exists t4, d4. split; [done|]. split; [apply Rf4|]. apply (rf_scr _ _ Rf4).
Qed.

Lemma nyamo_on_terminal_witness : let win := PB (fun _ => 0) (96 * 80) in
  exists t d e t' d', term_start 96 80 win = Some (t, d) /\ nyamo_main t d (Some [104; 105]) [Byte 33; Query []; Escape 91 68] = Some (e, t', d') /\
    text e = [104; 105; 33] /\ position e = 2%nat /\ editor_shown e t'.
Proof.
  intros win. destruct (start_ok 96 80 win) as (t & d & E & I & D & W & Hh & _ & Rf); [unfold term_size; lia..|]. set (a := AT _ _ _ _ _ _ _) in Rf.
  assert (n_rows t = 10 /\ n_cols t = 12) as [Er Ec] by (rewrite (do_rows _ _ D), (do_cols _ _ D), W, Hh; split; reflexivity).
  destruct (nyamo_on_terminal t d a (Some [104; 105]) [Byte 33; Query []; Escape 91 68]) as (e0 & e & t' & d' & Em & Er0 & Hk & _ & _ & Hs & _);
    [exact Rf|split; reflexivity|reflexivity|rewrite Er; lia|rewrite Ec; lia|apply (bool_decide_unpack (Forall (fun c => c = 10 \/ (32 <= c < 127)) [104; 105])); reflexivity|].
  exists t, d, e, t', d'. split; [exact E|]. split; [exact Em|]. assert (text e0 = [104; 105]) as Et by (apply sv_of_lines; exact Er0).
  rewrite Et in Hk. inversion Hk as [|k ks t0 p0 t1 p1 t2 p2 H1 Hk1]; subst. inversion Hk1 as [|k ks t3 p3 t4 p4 t5 p5 H2 Hk2]; subst.
  inversion Hk2 as [|k ks t6 p6 t7 p7 t8 p8 H3 Hk3]; subst. inversion Hk3; subst. destruct H1 as [-> ->]. destruct H2 as [-> ->]. destruct H3 as [-> ->].
  split; [reflexivity|]. split; [reflexivity|exact Hs].
Defined.
